(* ===== verification/_CoqProject ===== *)
-Q . S2P
Prelude.v
Queue.v
DynAlloc.v
DynAllocSpec.v
Bulks.v
Tiling.v
KHeap.v
KHeapSpec.v
UHeap.v
UHeapSpec.v
Sched.v
SchedSpec.v
SchedOps.v
SchedLive.v
SchedThm.v
Paging.v
PagingSpec.v
PagingThm.v
WorkingSet.v
Fault.v
VMSpec.v
FaultSpec.v
FaultOps.v
VMPaging.v
Belady.v
FaultThm.v
Spinlock.v
Conc.v
ConcSpec.v
ConcSys.v
ConcInv.v
ConcThm.v
SpinThm.v
Ide.v
PageFile.v
PageFileSpec.v
PageFileOps.v
PageFileEnd.v
PageFileThm.v
PageFileWorld.v
CString.v
CStringSpec.v
CStringNum.v
CStringArgs.v
Spaces.v
Share.v
ShareSpec.v
ShareThm.v
ShareWorld.v
Console.v
ConsoleThm.v
Printf.v
PrintfThm.v
EnvTable.v
EnvTableThm.v
EnvTableWorld.v
Boot.v
BootThm.v
Loader.v
LoadSpec.v
LoadThm.v
LoadWorld.v
