(* ===== verification/Prelude.v ===== *)
(** * A verification development for FOS, an educational operating system

    FOS is a small x86 kernel with demand paging, two-region heaps, a priority
    scheduler, kernel synchronisation and a library of user-level allocators.
    This development translates the parts of it that decide what the system does
    into executable Rocq definitions and proves what they promise. All
    definitions follow the code as it is compiled with [USE_KHEAP]; a definition
    has the name of the C function it translates.

    ** How the parts interact

    A process runs until it calls the kernel, faults, or the clock ticks. A page
    fault takes a frame from the free list, maps it, reads the page from the page
    file and enters the page in the working set, evicting another page when the
    set is full. The kernel heap gives out blocks and pages from frames that it
    maps itself; working set elements, shared objects, scheduler queues and page
    tables are kernel heap objects. The user heap mirrors the kernel heap over
    system calls. The clock ages ready processes and yields; sleeping processes
    wait on channels, which semaphores and sleep locks use, all protected by
    spin locks on the one CPU.

    ** Files

    - Prelude: the outcome and state monad ([M], [wp]), machine integers, lemmas.
    - Queue: the list macros of inc/queue.h on memory, and the list operations
      that the other files use for them.
    - DynAlloc, DynAllocSpec: lib/dynamic_allocator.c over any source of pages.
    - Bulks, Tiling: the descriptor lists of both heaps; tilings of a region.
    - KHeap, KHeapSpec: kern/mem/kheap.c. UHeap, UHeapSpec: lib/uheap.c.
    - Sched, SchedSpec, SchedOps, SchedLive, SchedThm: kern/cpu/sched.c and
      sched_helpers.c.
    - Paging, PagingSpec, PagingThm: kern/mem/memory_manager.c, paging_helpers.c.
    - WorkingSet, Fault, VMSpec, FaultSpec, FaultOps, VMPaging, Belady, FaultThm:
      kern/mem/working_set_manager.c, chunk_operations.c and
      kern/trap/fault_handler.c, over the class [VM] of operations on virtual
      memory; VMSpec states its laws, VMPaging proves that Paging obeys them.
    - Spinlock, SpinThm: kern/conc/kspinlock.c and kern/cpu/cpu.c.
    - Conc, ConcSpec, ConcSys, ConcInv, ConcThm: kern/conc/channel.c,
      ksemaphore.c, sleeplock.c and the interleavings of their operations.
    - Ide: lib/disk.c and the controller it talks to. PageFile, PageFileSpec,
      PageFileEnd, PageFileThm: kern/disk/pagefile_manager.c over a disk.
    - CString, CStringSpec, CStringNum, CStringArgs: lib/string.c on bytes.
    - Spaces, Share, ShareSpec, ShareWorld, ShareThm:
      kern/mem/shared_memory_manager.c and the address spaces that share frames.
    - Console, ConsoleThm: kern/cons/console.c. Printf, PrintfThm:
      lib/printfmt.c over any consumer of characters.
    - EnvTable, EnvTableThm, EnvTableWorld: the table of environments of
      kern/proc/user_environment.c, and the creation of an environment.
    - Boot, BootThm: kern/mem/boot_memory_manager.c.
    - Loader, LoadSpec, LoadThm, LoadWorld: the loading of an ELF image by
      [env_create] (user_environment.c), over the classes [VM] and [LoadOps];
      LoadSpec states the laws they need, LoadWorld is a machine that obeys them.

    ** State and outcomes

    A C function is a computation [M S A] on a state record [S] that holds its
    globals and the memory it owns. It ends in [Ok], in [Panic] (a [panic] or a
    failing [assert]), in [Undef] (no meaning in C), or in [NoFuel]. [wp c Q s]
    says that [c] returns from [s] with [Q]; every functional theorem is such a
    total statement. Structures are named by their addresses; a linked list is
    the list of addresses in it, justified by Queue.v ([queue_simulation]) and
    Bulks.v ([bulk_list_simulation]). Integers are reduced modulo their width
    ([w8], [w16], [w32], [i32], [i64]) wherever the value can leave it.

    ** What the theorems show

    - Lists: every macro on memory implements its operation on lists.
    - Allocator: allocation and release are correct in every case, live blocks are
      disjoint in every history of a client, initialisation and round trip.
    - Heaps: [kmalloc], [kfree], [malloc], [free] on a tiling of the page region:
      first the exact fit, then the worst fit, then the break; freed ranges are
      merged; the kernel heap keeps blocks apart in every history of requests of at
      most 0xFFFFF000 bytes with frames for them. The user heap has no such
      invariant: [free] may break it.
    - Scheduler: an invariant of every history, with every operation whose
      precondition holds returning (exit of a NEW environment panics); the choice of
      the next process, aging, priorities, and no starvation.
    - Paging: reference counts are exact under map, unmap and allocate; the
      permission round trip; the free list after initialisation.
    - Demand paging: the invariant of the working set under every algorithm, the
      victim of CLOCK, LRU (which panics when every stamp is 2^32-1) and modified
      CLOCK, termination of their searches, and the optimality of
      [get_optimal_num_faults] over all paging strategies.
    - Synchronisation: mutual exclusion, counting and fairness in all
      interleavings; spin locks refine the lock flags of the other models.
    - Page file: the tables on the disk are a finite map from environments and
      pages to contents; the driver writes what it reads back.
    - Strings: block copies under overlap, numbers to digits and back, the words
      of a command line, and the text that a format means, where the code keeps to
      it (octal numbers and some uses of the flag for padding on the right differ).
    - Shared memory: all environments that share an object see the same frames.
    - Environments: in every history [envid2env] finds exactly the live environment
      with a number, slots in use again after a deletion left out; the address space
      and first frame of a new environment.
    - Start-up: what the kernel's page directory maps when paging is turned on.
    - Loading, under the algorithms without LRU lists: the pages in memory agree with
      those in the page file, which hold the image, and those of the segments are
      clean; the working set is as the page fault handler needs it.
    - Console: the input buffer is a queue while it does not overflow; the screen
      is a window on an endless tape.
    Where the code does not do what it means to, a theorem shows what it does
    (for example [user_heap_overlap], [lru_all_used_panics],
    [exit_new_env_panics], [concat_size_wrong], [kfree_guard_page],
    [stale_number_found], [unaligned_segment_corrupted]).

    ** Fuel and bounds

    Loops over linked structures take fuel and the theorems say how much is
    enough: one more than the number of elements for the walks of Bulks.v and the
    heaps, one more than the size of the working set for a replacement search.
    [wake_loop] gets its fuel from the length of the queue. On one CPU fuel 1 is
    enough for a spin lock, since a lock that is taken is found to be its own.
    The disk driver needs as many polls as the disk stays busy, a string loop one
    more than the string is long, [cons_intr] more than the characters that wait;
    for formatted printing [item_fuel] counts the characters of a directive; the
    loader visits at most [e_phnum] segments.
    Regions are bounded by 32-bit addresses, page indices by the arrays.

    ** What is not modelled

    Hardware and boot (boot/, the assembly files, trap entry, descriptor tables,
    interrupt controller, timer, kernel start-up in init.c): I/O and machine state
    outside C. The demand paging files take the page file through the class [VM],
    with the behaviour that PageFileThm.v proves of it on its own. [env_free] (a
    panic in the code), the user semaphores and the MLFQ and BSD schedulers
    (panics) have no behaviour beyond that. The debug printers and the variants
    compiled without [USE_KHEAP] are left out. The kernel tests and most user
    programs are clients of the code above.
*)

From stdpp Require Export base gmap sets list strings.
From stdpp Require Import options.
From Stdlib Require Export ZArith Lia.
Open Scope Z_scope.

(** ** Outcomes and the kernel state monad

    A C function that works on a state [S] is a function from [S] to an
    outcome: it returns a value and a new state, it calls [panic] (or a failing
    [assert]), it does something C gives no meaning to (an array index out of
    bounds, a null dereference, a list operation on an element that is not in
    the list, a division by zero), or, for a loop modelled with fuel, the fuel
    is spent. *)
Inductive result (S A : Type) : Type :=
| Ok (a : A) (s : S)
| Panic (s : S)
| Undef
| NoFuel.
Arguments Ok {S A} a s.
Arguments Panic {S A} s.
Arguments Undef {S A}.
Arguments NoFuel {S A}.

Definition M (S A : Type) : Type := S → result S A.

#[global] Instance M_ret S : MRet (M S) := λ A a s, Ok a s.
#[global] Instance M_bind S : MBind (M S) := λ A B f c s,
  match c s with
  | Ok a s' => f a s'
  | Panic s' => Panic s'
  | Undef => Undef
  | NoFuel => NoFuel
  end.

Definition get {S} : M S S := λ s, Ok s s.
Definition gets {S A} (f : S → A) : M S A := λ s, Ok (f s) s.
Definition modify {S} (f : S → S) : M S unit := λ s, Ok tt (f s).
Definition panic {S A} : M S A := λ s, Panic s.
Definition undef {S A} : M S A := λ _, Undef.
Definition nofuel {S A} : M S A := λ _, NoFuel.
Definition assert_ {S} (b : bool) : M S unit := if b then mret () else panic.
Definition unwrap {S A} (o : option A) : M S A :=
  match o with Some a => mret a | None => undef end.
Definition when {S} (b : bool) (c : M S unit) : M S unit := if b then c else mret ().

(** Running a computation on a component of a larger state. *)
Definition zoom {S T A} (get_ : S → T) (set_ : T → S → S) (c : M T A) : M S A :=
  λ s, match c (get_ s) with
       | Ok a t => Ok a (set_ t s)
       | Panic t => Panic (set_ t s)
       | Undef => Undef
       | NoFuel => NoFuel
       end.

Fixpoint mfor {S A} (l : list A) (body : A → M S unit) : M S unit :=
  match l with
  | [] => mret ()
  | x :: l => body x ;; mfor l body
  end.

(** ** Total and partial correctness *)

(** [wp c Q s]: from [s] the computation returns, in a state and with a value
    that satisfy [Q]; no panic, no undefined behaviour, no missing fuel. *)
Definition wp {S A} (c : M S A) (Q : A → S → Prop) (s : S) : Prop :=
  match c s with Ok a s' => Q a s' | _ => False end.

Section wp.
  Context {S : Type}.
  Implicit Types s : S.

Lemma wp_ret {A} (a : A) Q s : Q a s → wp (mret a) Q s.
  Proof. done. Qed.
Lemma wp_bind {A B} (c : M S A) (f : A → M S B) Q s :
    wp c (λ a s', wp (f a) Q s') s → wp (c ≫= f) Q s.
  Proof. unfold wp, mbind, M_bind. destruct (c s); done. Qed.
Lemma wp_assoc {A B C} (c : M S A) (f : A → M S B) (g : B → M S C) Q s :
    wp ((a ← c; f a) ≫= g) Q s → wp (a ← c; f a ≫= g) Q s.
  Proof. unfold wp, mbind, M_bind. by destruct (c s). Qed.
Lemma wp_mono {A} (c : M S A) (P Q : A → S → Prop) s :
    wp c P s → (∀ a s', P a s' → Q a s') → wp c Q s.
  Proof. unfold wp. destruct (c s); naive_solver. Qed.
Lemma wp_get Q s : Q s s → wp get Q s.
  Proof. done. Qed.
Lemma wp_gets {A} (f : S → A) Q s : Q (f s) s → wp (gets f) Q s.
  Proof. done. Qed.
Lemma wp_modify f Q s : Q tt (f s) → wp (modify f) Q s.
  Proof. done. Qed.
Lemma wp_assert b Q s : b = true → Q tt s → wp (assert_ b) Q s.
  Proof. by intros ->. Qed.
Lemma wp_unwrap {A} (o : option A) a Q s : o = Some a → Q a s → wp (unwrap o) Q s.
  Proof. by intros ->. Qed.
Lemma wp_when (b : bool) c Q s :
    (b = true → wp c Q s) → (b = false → Q tt s) → wp (when b c) Q s.
  Proof. destruct b; naive_solver. Qed.
Lemma wp_Ok {A} (c : M S A) Q s : wp c Q s ↔ ∃ a s', c s = Ok a s' ∧ Q a s'.
  Proof. unfold wp. destruct (c s); naive_solver. Qed.
(** A loop over a list, with an invariant that depends on what is left. *)
Lemma wp_mfor {A} (I : list A → S → Prop) (body : A → M S unit) l Q s :
    I l s → (∀ x l s, I (x :: l) s → wp (body x) (λ _ s', I l s') s) →
    (∀ s, I [] s → Q tt s) → wp (mfor l body) Q s.
  Proof.
    intros HI Hb HQ. revert s HI. induction l as [|x l IH]; intros s HI; cbn.
    - apply wp_ret. by apply HQ.
    - apply wp_bind. eapply wp_mono; [by apply Hb|]. intros ? s'. apply IH.
  Qed.

Lemma bind_Ok_inv {A B} (c : M S A) (f : A → M S B) s b s'' :
    (c ≫= f) s = Ok b s'' → ∃ a s', c s = Ok a s' ∧ f a s' = Ok b s''.
  Proof. unfold mbind, M_bind. destruct (c s); naive_solver. Qed.
Lemma bind_Ok {A B} (c : M S A) (f : A → M S B) s a s' :
    c s = Ok a s' → (c ≫= f) s = f a s'.
  Proof. unfold mbind, M_bind. by intros ->. Qed.
Lemma bind_Panic {A B} (c : M S A) (f : A → M S B) s s' :
    c s = Panic s' → (c ≫= f) s = Panic s'.
  Proof. unfold mbind, M_bind. by intros ->. Qed.
(** [panics c s]: from [s] the computation ends in a panic. *)
Definition panics {A} (c : M S A) s : Prop := ∃ s', c s = Panic s'.
Lemma panics_panic {A} s : panics (@panic S A) s.
  Proof. by exists s. Qed.
Lemma panics_l {A B} (c : M S A) (f : A → M S B) s : panics c s → panics (c ≫= f) s.
  Proof. intros [s' H]. exists s'. unfold mbind, M_bind. by rewrite H. Qed.
Lemma panics_r {A B} (c : M S A) (f : A → M S B) s :
    wp c (λ a s', panics (f a) s') s → panics (c ≫= f) s.
  Proof. unfold panics, wp, mbind, M_bind. by destruct (c s). Qed.
Lemma panics_assert s b : b = false → panics (@assert_ S b) s.
  Proof. intros ->. by exists s. Qed.
Lemma bind_Undef {A B} (c : M S A) (f : A → M S B) s :
    c s = Undef → (c ≫= f) s = Undef.
  Proof. unfold mbind, M_bind. by intros ->. Qed.
End wp.

Create HintDb fos.
#[export] Hint Resolve wp_ret wp_get wp_gets wp_modify : fos.

(** One step of symbolic execution of a goal [wp c Q s]. *)
Ltac wp_step :=
  lazymatch goal with
  | |- wp (mbind _ _) _ _ => apply wp_bind
  | |- wp (mret _) _ _ => apply wp_ret
  | |- wp get _ _ => apply wp_get
  | |- wp (gets _) _ _ => apply wp_gets
  | |- wp (modify _) _ _ => apply wp_modify
  | |- wp (when _ _) _ _ => apply wp_when; intros ?
  | |- wp (let _ := _ in _) _ _ => cbv zeta
  end.
Ltac wp_steps := repeat wp_step.

(** Inversion of a successful run. *)
Ltac inv_ok :=
  repeat match goal with
  | H : (mbind _ _) _ = Ok _ _ |- _ =>
      let a := fresh "r" in let s' := fresh "s" in
      let H1 := fresh "Hr" in
      apply bind_Ok_inv in H; destruct H as (a & s' & H1 & H)
  | H : mret _ _ = Ok _ _ |- _ => injection H as <- <- || (injection H; clear H; intros; subst)
  | H : gets _ _ = Ok _ _ |- _ => injection H as <- <-
  | H : get _ = Ok _ _ |- _ => injection H as <- <-
  | H : modify _ _ = Ok _ _ |- _ => injection H as <- <-
  | H : panic _ = Ok _ _ |- _ => discriminate H
  | H : undef _ = Ok _ _ |- _ => discriminate H
  | H : nofuel _ = Ok _ _ |- _ => discriminate H
  end.

(** ** Machine integers

    [uint8], [uint16] and [uint32] are integers reduced modulo a power of two,
    [int] is the signed reading of 32 bits (inc/types.h). *)
Definition w8 (x : Z) : Z := x `mod` 256.
Definition w16 (x : Z) : Z := x `mod` 65536.
Definition w32 (x : Z) : Z := x `mod` 4294967296.
Definition i32 (x : Z) : Z :=
  let y := w32 x in if decide (y < 2147483648) then y else y - 4294967296.

Lemma w32_small x : 0 ≤ x < 4294967296 → w32 x = x.
Proof. intros. unfold w32. by apply Z.mod_small. Qed.
Lemma w32_range x : 0 ≤ w32 x < 4294967296.
Proof. apply Z.mod_pos_bound. lia. Qed.
Lemma w16_small x : 0 ≤ x < 65536 → w16 x = x.
Proof. intros. unfold w16. by apply Z.mod_small. Qed.
Lemma w8_small x : 0 ≤ x < 256 → w8 x = x.
Proof. intros. unfold w8. by apply Z.mod_small. Qed.
Lemma i32_small x : -2147483648 ≤ x < 2147483648 → i32 x = x.
Proof.
  intros. unfold i32, w32. case_decide; destruct (decide (0 ≤ x)).
  - rewrite Z.mod_small in *; lia.
  - rewrite <- (Z.mod_add x 1) in H0 by lia. rewrite Z.mod_small in H0; lia.
  - rewrite Z.mod_small in *; lia.
  - rewrite <- (Z.mod_add x 1) by lia. rewrite Z.mod_small; lia.
Qed.
#[export] Hint Resolve w32_small w32_range w16_small w8_small : fos.

Lemma testbit_small a n : 0 ≤ n → 0 ≤ a < 2 ^ n → Z.testbit a n = false.
Proof.
  intros Hn Ha. rewrite Z.testbit_eqb by done. rewrite Z.div_small by done. done.
Qed.

(** [ROUNDDOWN] and [ROUNDUP] of inc/types.h on [uint32] operands. *)
Definition PAGE_SIZE : Z := 4096.
Definition ROUNDDOWN (a n : Z) : Z := w32 a - w32 a `mod` n.
Definition ROUNDUP (a n : Z) : Z := ROUNDDOWN (w32 (a + n - 1)) n.

Lemma ROUNDDOWN_spec a n :
  0 ≤ a < 4294967296 → 0 < n →
  (n | ROUNDDOWN a n) ∧ ROUNDDOWN a n ≤ a < ROUNDDOWN a n + n ∧ 0 ≤ ROUNDDOWN a n.
Proof.
  intros Ha Hn. unfold ROUNDDOWN. rewrite w32_small by done.
  pose proof (Z.mod_pos_bound a n Hn). pose proof (Z.div_mod a n ltac:(lia)).
  pose proof (Z.mod_le a n ltac:(lia) Hn).
  split_and!; [exists (a `div` n); lia | lia..].
Qed.
Lemma ROUNDUP_spec a n :
  0 ≤ a → 0 < n → a + n - 1 < 4294967296 →
  (n | ROUNDUP a n) ∧ a ≤ ROUNDUP a n < a + n.
Proof.
  intros Ha Hn Hb. unfold ROUNDUP. rewrite w32_small by lia.
  destruct (ROUNDDOWN_spec (a + n - 1) n) as (? & ? & ?); [lia..|].
  split; [done|lia].
Qed.

(** ** Lists *)
Lemma filter_ext_in {A} (P Q : A → Prop) `{!∀ x, Decision (P x), !∀ x, Decision (Q x)} (l : list A) :
  (∀ x, x ∈ l → P x ↔ Q x) → filter P l = filter Q l.
Proof.
  induction l as [|x l IH]; intros Heq; [done|]. rewrite !filter_cons.
  assert (P x ↔ Q x) by (apply Heq; left).
  assert (filter P l = filter Q l) as -> by (apply IH; intros; apply Heq; by right).
  destruct (decide (P x)), (decide (Q x)); tauto.
Qed.
Lemma filter_id {A} (P : A → Prop) `{!∀ x, Decision (P x)} (l : list A) :
  (∀ x, x ∈ l → P x) → filter P l = l.
Proof.
  induction l as [|x l IH]; intros Hl; [done|].
  rewrite filter_cons_True by (apply Hl; left). f_equal. apply IH. intros. apply Hl. by right.
Qed.
Lemma filter_none {A} (P : A → Prop) `{!∀ x, Decision (P x)} (l : list A) :
  (∀ x, x ∈ l → ¬ P x) → filter P l = [].
Proof.
  induction l as [|x l IH]; intros Hl; [done|].
  rewrite filter_cons_False by (apply Hl; left). apply IH. intros. apply Hl. by right.
Qed.
