(* ===== verification/Queue.v ===== *)
(** * Intrusive doubly linked lists (inc/queue.h)

    The kernel keeps its free pages, free blocks, free frames, working sets,
    shared objects and process queues in lists whose links live inside the
    elements. This file models the macros at the level of pointers: [links] is
    the memory of the [prev_next_info] fields, indexed by element address, and a
    [list_head] holds the first and last pointers and the size counter.
    [is_list] relates such a memory to a list of addresses, and each macro is
    shown to implement an operation on lists. The other files use these
    operations ([l_insert_head], [l_remove], ...). *)

From S2P Require Import Prelude.

Record link := Link { le_next : Z; le_prev : Z }.
Record list_head := LH { lh_first : Z; lh_last : Z; lh_size : Z }.
Record lstate := LS { links : gmap Z link; lhead : list_head }.

Definition NULL : Z := 0.

(** ** Field accesses *)
Definition LIST_FIRST : M lstate Z := gets (λ s, lh_first (lhead s)).
Definition LIST_LAST : M lstate Z := gets (λ s, lh_last (lhead s)).
Definition LIST_SIZE : M lstate Z := gets (λ s, lh_size (lhead s)).
Definition LIST_EMPTY : M lstate bool := gets (λ s, bool_decide (lh_first (lhead s) = NULL)).
Definition LIST_NEXT (elm : Z) : M lstate Z :=
  s ← get; l ← unwrap (links s !! elm); mret (le_next l).
Definition LIST_PREV (elm : Z) : M lstate Z :=
  s ← get; l ← unwrap (links s !! elm); mret (le_prev l).
Definition set_next (elm v : Z) : M lstate unit :=
  s ← get; l ← unwrap (links s !! elm);
  modify (λ s, LS (<[elm := Link v (le_prev l)]> (links s)) (lhead s)).
Definition set_prev (elm v : Z) : M lstate unit :=
  s ← get; l ← unwrap (links s !! elm);
  modify (λ s, LS (<[elm := Link (le_next l) v]> (links s)) (lhead s)).
Definition set_first (v : Z) : M lstate unit :=
  modify (λ s, LS (links s) (LH v (lh_last (lhead s)) (lh_size (lhead s)))).
Definition set_last (v : Z) : M lstate unit :=
  modify (λ s, LS (links s) (LH (lh_first (lhead s)) v (lh_size (lhead s)))).
Definition add_size (d : Z) : M lstate unit :=
  modify (λ s, LS (links s)
    (LH (lh_first (lhead s)) (lh_last (lhead s)) (w32 (lh_size (lhead s) + d)))).

(** ** The macros *)
Definition LIST_INIT : M lstate unit :=
  modify (λ s, LS (links s) (LH NULL NULL 0)).

Definition LIST_INSERT_AFTER (listelm elm : Z) : M lstate unit :=
  assert_ (negb (bool_decide (listelm = NULL) || bool_decide (elm = NULL))) ;;
  n ← LIST_NEXT listelm;
  set_next elm n ;;
  (if bool_decide (n ≠ NULL) then set_prev n elm else mret ()) ;;
  set_next listelm elm ;;
  set_prev elm listelm ;;
  n' ← LIST_NEXT elm;
  (if bool_decide (n' = NULL) then set_last elm else mret ()) ;;
  add_size 1.

Definition LIST_INSERT_BEFORE (listelm elm : Z) : M lstate unit :=
  assert_ (negb (bool_decide (listelm = NULL) || bool_decide (elm = NULL))) ;;
  p ← LIST_PREV listelm;
  set_prev elm p ;;
  set_next elm listelm ;;
  p' ← LIST_PREV listelm;
  (if bool_decide (p' ≠ NULL) then set_next p' elm else set_first elm) ;;
  set_prev listelm elm ;;
  add_size 1.

Definition LIST_INSERT_HEAD (elm : Z) : M lstate unit :=
  assert_ (bool_decide (elm ≠ NULL)) ;;
  f ← LIST_FIRST;
  set_next elm f ;;
  (if bool_decide (f ≠ NULL) then set_prev f elm else set_last elm) ;;
  set_first elm ;;
  set_prev elm NULL ;;
  add_size 1.

Definition LIST_INSERT_TAIL (elm : Z) : M lstate unit :=
  assert_ (bool_decide (elm ≠ NULL)) ;;
  l ← LIST_LAST;
  set_prev elm l ;;
  (if bool_decide (l ≠ NULL) then set_next l elm else set_first elm) ;;
  set_last elm ;;
  set_next elm NULL ;;
  add_size 1.

Definition LIST_REMOVE (elm : Z) : M lstate unit :=
  assert_ (bool_decide (elm ≠ NULL)) ;;
  n ← LIST_NEXT elm;
  p ← LIST_PREV elm;
  (if bool_decide (n ≠ NULL) then set_prev n p else set_last p) ;;
  p' ← LIST_PREV elm;
  n' ← LIST_NEXT elm;
  (if bool_decide (p' ≠ NULL) then set_next p' n' else set_first n') ;;
  set_next elm NULL ;;
  set_prev elm NULL ;;
  add_size (-1).

(** [LIST_CONCAT] works on two heads over the same memory. *)
Record lstate2 := LS2 { links2 : gmap Z link; head1 : list_head; head2 : list_head }.
Definition LIST_CONCAT (s : lstate2) : result lstate2 unit :=
  let '(LS2 m h1 h2) := s in
  if bool_decide (lh_first h1 = NULL) then
    Ok tt (LS2 m (LH (lh_first h2) (lh_last h2) (w32 (lh_size h1 + lh_size h2))) h2)
  else if bool_decide (lh_first h2 ≠ NULL) then
    match m !! lh_last h1 with
    | None => Undef
    | Some a =>
        let m1 := <[lh_last h1 := Link (lh_first h2) (le_prev a)]> m in
        match m1 !! lh_first h2 with
        | None => Undef
        | Some b =>
            let m2 := <[lh_first h2 := Link (le_next b) (lh_last h1)]> m1 in
            let h2' := LH NULL NULL 0 in
            Ok tt (LS2 m2 (LH (lh_first h1) (lh_last h2) (w32 (lh_size h1 + lh_size h2'))) h2')
        end
    end
  else Ok tt (LS2 m (LH (lh_first h1) (lh_last h1) (w32 (lh_size h1 + lh_size h2))) h2).

(** [LIST_FOREACH_SAFE(var, head, type)]: the successor of [var] is read, into a
    local, before the body runs. [fuel] bounds the number of iterations. (The
    older [LIST_FOREACH] keeps it in the field [___ptr_next] of the head, which
    nothing else uses: the same as long as two loops on one head do not nest.) *)
Fixpoint LIST_FOREACH_SAFE_from (fuel : nat) (var : Z) (body : Z → M lstate unit) : M lstate unit :=
  match fuel with
  | O => nofuel
  | Datatypes.S fuel =>
      if bool_decide (var = NULL) then mret () else
      nxt ← LIST_NEXT var;
      body var ;;
      LIST_FOREACH_SAFE_from fuel nxt body
  end.
Definition LIST_FOREACH_SAFE (fuel : nat) (body : Z → M lstate unit) : M lstate unit :=
  f ← LIST_FIRST; LIST_FOREACH_SAFE_from fuel f body.

(** ** The operations on lists of addresses *)
Definition l_insert_head (x : Z) (l : list Z) : list Z := x :: l.
Definition l_insert_tail (x : Z) (l : list Z) : list Z := l ++ [x].
Definition l_remove (x : Z) (l : list Z) : list Z := filter (.≠ x) l.
Fixpoint l_insert_before (y x : Z) (l : list Z) : list Z :=
  match l with
  | [] => []
  | z :: l => if bool_decide (z = y) then x :: z :: l else z :: l_insert_before y x l
  end.
Fixpoint l_insert_after (y x : Z) (l : list Z) : list Z :=
  match l with
  | [] => []
  | z :: l => if bool_decide (z = y) then z :: x :: l else z :: l_insert_after y x l
  end.

(** The same operations inside a computation that keeps its list as a value: an
    element that is inserted must not be in the list, and one that is removed
    must be in it; otherwise the macro corrupts the links, which is outside the
    model. *)
Definition lq_insert_head {S} (x : Z) (l : list Z) : M S (list Z) :=
  if decide (x ∈ l) then undef else mret (l_insert_head x l).
Definition lq_insert_tail {S} (x : Z) (l : list Z) : M S (list Z) :=
  if decide (x ∈ l) then undef else mret (l_insert_tail x l).
Definition lq_remove {S} (x : Z) (l : list Z) : M S (list Z) :=
  if decide (x ∈ l) then mret (l_remove x l) else undef.

Lemma elem_of_l_remove x y l : y ∈ l_remove x l ↔ y ≠ x ∧ y ∈ l.
Proof. unfold l_remove. by rewrite list_elem_of_filter. Qed.
Lemma NoDup_l_remove x l : NoDup l → NoDup (l_remove x l).
Proof. apply NoDup_filter. Qed.
Lemma l_remove_notin x l : x ∉ l → l_remove x l = l.
Proof.
  intros Hx. unfold l_remove. induction l as [|y l IH]; [done|].
  rewrite not_elem_of_cons in Hx. rewrite filter_cons_True by naive_solver.
  f_equal. naive_solver.
Qed.
Lemma l_remove_app x l1 l2 : l_remove x (l1 ++ l2) = l_remove x l1 ++ l_remove x l2.
Proof. apply filter_app. Qed.
Lemma l_remove_split x l1 l2 :
  x ∉ l1 → x ∉ l2 → l_remove x (l1 ++ x :: l2) = l1 ++ l2.
Proof.
  intros. rewrite l_remove_app, l_remove_notin by done. f_equal.
  unfold l_remove. rewrite filter_cons_False by naive_solver. by apply l_remove_notin.
Qed.
Lemma l_insert_before_split y x l1 l2 :
  y ∉ l1 → l_insert_before y x (l1 ++ y :: l2) = l1 ++ x :: y :: l2.
Proof.
  induction l1 as [|z l1 IH]; simpl; intros Hy.
  - by rewrite bool_decide_true.
  - rewrite not_elem_of_cons in Hy. rewrite bool_decide_false by naive_solver.
    f_equal. naive_solver.
Qed.
Lemma l_insert_after_split y x l1 l2 :
  y ∉ l1 → l_insert_after y x (l1 ++ y :: l2) = l1 ++ y :: x :: l2.
Proof.
  induction l1 as [|z l1 IH]; simpl; intros Hy.
  - by rewrite bool_decide_true.
  - rewrite not_elem_of_cons in Hy. rewrite bool_decide_false by naive_solver.
    f_equal. naive_solver.
Qed.
Lemma l_remove_perm x l : NoDup l → x ∈ l → l ≡ₚ x :: l_remove x l.
Proof.
  intros Hnd (l1 & l2 & ->)%list_elem_of_split.
  apply NoDup_app in Hnd as (_ & Hd & [Hx _]%NoDup_cons).
  rewrite l_remove_split; [by rewrite <- Permutation_middle | | done].
  intros H1. apply (Hd x H1). left.
Qed.
Lemma length_l_remove x l : NoDup l → x ∈ l → length l = S (length (l_remove x l)).
Proof. intros. by rewrite (l_remove_perm x l) at 1. Qed.
Lemma lq_remove_run {S} x l (s : S) : x ∈ l → lq_remove x l s = Ok (l_remove x l) s.
Proof. intros. unfold lq_remove. by rewrite decide_True. Qed.
Lemma lq_remove_hd {S} x l (s : S) : x ∉ l → lq_remove x (x :: l) s = Ok l s.
Proof.
  intros. rewrite lq_remove_run by (by left). f_equal.
  apply (l_remove_split x [] l); [apply not_elem_of_nil|done].
Qed.
Lemma lq_insert_tail_run {S} x l (s : S) : x ∉ l → lq_insert_tail x l s = Ok (l ++ [x]) s.
Proof. intros. unfold lq_insert_tail. by rewrite decide_False. Qed.
Lemma lq_insert_head_run {S} x l (s : S) : x ∉ l → lq_insert_head x l s = Ok (x :: l) s.
Proof. intros. unfold lq_insert_head. by rewrite decide_False. Qed.
#[export] Hint Resolve NoDup_l_remove : fos.

(** ** Representation of a list in the link memory *)
Definition hdn (n : Z) (l : list Z) : Z := match l with [] => n | x :: _ => x end.
Definition lastn (p : Z) (l : list Z) : Z := default p (last l).

Fixpoint dseg (m : gmap Z link) (p : Z) (l : list Z) (n : Z) : Prop :=
  match l with
  | [] => True
  | x :: l => x ≠ NULL ∧ m !! x = Some (Link (hdn n l) p) ∧ dseg m x l n
  end.

(** The list [l] is what [s] stores: the links of its elements, the two end
    pointers and the size counter (a [uint32]). *)
Definition is_list (s : lstate) (l : list Z) : Prop :=
  NoDup l ∧ dseg (links s) NULL l NULL ∧
  lhead s = LH (hdn NULL l) (lastn NULL l) (w32 (Z.of_nat (length l))).

(** Every link outside [xs] is as it was. *)
Definition links_frame (xs : list Z) (s s' : lstate) : Prop :=
  ∀ p, p ∉ xs → links s' !! p = links s !! p.

Lemma lastn_snoc p l x : lastn p (l ++ [x]) = x.
Proof. unfold lastn. by rewrite last_snoc. Qed.
Lemma lastn_cons p x l : lastn p (x :: l) = lastn x l.
Proof. unfold lastn. rewrite last_cons. by destruct (last l). Qed.
Lemma lastn_app p l1 l2 : lastn p (l1 ++ l2) = lastn (lastn p l1) l2.
Proof. unfold lastn. rewrite last_app. by destruct (last l2). Qed.
Lemma hdn_app n l1 l2 : hdn n (l1 ++ l2) = hdn (hdn n l2) l1.
Proof. unfold hdn. by destruct l1. Qed.
Lemma w32_add_l x d : w32 (w32 x + d) = w32 (x + d).
Proof. unfold w32. apply Z.add_mod_idemp_l. lia. Qed.

Lemma dseg_app m p l1 l2 n :
  dseg m p (l1 ++ l2) n ↔ dseg m p l1 (hdn n l2) ∧ dseg m (lastn p l1) l2 n.
Proof.
  revert p. induction l1 as [|x l1 IH]; intros p; simpl; [naive_solver|].
  rewrite IH, hdn_app, lastn_cons. naive_solver.
Qed.
Lemma dseg_insert m p l n x v : x ∉ l → dseg m p l n → dseg (<[x:=v]> m) p l n.
Proof.
  revert p. induction l as [|y l IH]; intros p; simpl; [done|].
  rewrite not_elem_of_cons. intros [? ?] (? & ? & ?). split_and!; [done| |auto].
  by rewrite lookup_insert_ne.
Qed.
Lemma dseg_nonnull m p l n x : dseg m p l n → x ∈ l → x ≠ NULL.
Proof.
  revert p. induction l as [|y l IH]; intros p; simpl; [by intros _ ?%elem_of_nil|].
  rewrite elem_of_cons. intros (? & ? & ?) [->|?]; eauto.
Qed.
Lemma dseg_ext m m' p l n :
  (∀ x, x ∈ l → m' !! x = m !! x) → dseg m p l n → dseg m' p l n.
Proof.
  revert p. induction l as [|y l IH]; intros p Hm; simpl; [done|].
  intros (? & ? & ?). split_and!; [done| |].
  - rewrite Hm by left. done.
  - apply IH; [|done]. intros. apply Hm. by right.
Qed.

Section wp_fields.
  Implicit Types Q : unit → lstate → Prop.
Lemma wp_LIST_NEXT e l (Q : Z → lstate → Prop) s :
    links s !! e = Some l → Q (le_next l) s → wp (LIST_NEXT e) Q s.
  Proof.
    intros. unfold LIST_NEXT. wp_step. apply wp_get. wp_step. eapply wp_unwrap; done.
  Qed.
Lemma wp_LIST_PREV e l (Q : Z → lstate → Prop) s :
    links s !! e = Some l → Q (le_prev l) s → wp (LIST_PREV e) Q s.
  Proof.
    intros. unfold LIST_PREV. wp_step. apply wp_get. wp_step. eapply wp_unwrap; done.
  Qed.
Lemma wp_set_next e v l Q s :
    links s !! e = Some l →
    Q tt (LS (<[e := Link v (le_prev l)]> (links s)) (lhead s)) → wp (set_next e v) Q s.
  Proof.
    intros. unfold set_next. wp_step. apply wp_get. wp_step. eapply wp_unwrap; done.
  Qed.
Lemma wp_set_prev e v l Q s :
    links s !! e = Some l →
    Q tt (LS (<[e := Link (le_next l) v]> (links s)) (lhead s)) → wp (set_prev e v) Q s.
  Proof.
    intros. unfold set_prev. wp_step. apply wp_get. wp_step. eapply wp_unwrap; done.
  Qed.
End wp_fields.

(** Symbolic execution of a macro: a lookup in an updated link memory is
    resolved by the inequalities in the context. *)
Ltac q_lookup :=
  solve [ repeat first
    [ eassumption
    | rewrite lookup_insert_eq; reflexivity
    | rewrite lookup_insert_ne by congruence ] ].
Ltac q_step :=
  lazymatch goal with
  | |- wp (LIST_NEXT _) _ _ => eapply wp_LIST_NEXT; [simpl; q_lookup|simpl]
  | |- wp (LIST_PREV _) _ _ => eapply wp_LIST_PREV; [simpl; q_lookup|simpl]
  | |- wp (set_next _ _) _ _ => eapply wp_set_next; [simpl; q_lookup|simpl]
  | |- wp (set_prev _ _) _ _ => eapply wp_set_prev; [simpl; q_lookup|simpl]
  | |- wp (assert_ _) _ _ => apply wp_assert; [simpl; repeat case_bool_decide; naive_solver|simpl]
  | |- wp (if bool_decide _ then _ else _) _ _ => case_bool_decide; try congruence
  | |- wp LIST_FIRST _ _ => apply wp_gets; simpl
  | |- wp LIST_LAST _ _ => apply wp_gets; simpl
  | |- wp (set_first _) _ _ => apply wp_modify; simpl
  | |- wp (set_last _) _ _ => apply wp_modify; simpl
  | |- wp (add_size _) _ _ => apply wp_modify; simpl
  | |- _ => wp_step; simpl
  end.

(** ** Each macro implements its list operation *)
Section refine.
  Implicit Types s : lstate.

Lemma is_list_split s l1 x l2 :
    is_list s (l1 ++ x :: l2) →
    x ≠ NULL ∧ x ∉ l1 ∧ x ∉ l2 ∧ NoDup (l1 ++ l2) ∧ (∀ y, y ∈ l1 → y ∉ l2) ∧
    links s !! x = Some (Link (hdn NULL l2) (lastn NULL l1)) ∧
    dseg (links s) NULL l1 x ∧ dseg (links s) x l2 NULL.
  Proof.
    intros (Hnd & Hd & _). rewrite dseg_app in Hd. simpl in Hd.
    rewrite NoDup_app, NoDup_cons in Hnd. destruct Hnd as (? & Hdis & ? & ?).
    assert (∀ y, y ∈ l1 → y ∉ l2) by (intros y ?? ; apply (Hdis y); [done|by right]).
    assert (x ∉ l1) by (intros ?; apply (Hdis x); [done|left]).
    destruct Hd as (? & ? & ? & ?). split_and!; try done. by apply NoDup_app.
  Qed.

Lemma NoDup_snoc_app (z : Z) (l1 l2 : list Z) :
    NoDup ((l1 ++ [z]) ++ l2) → z ∉ l1 ∧ z ∉ l2 ∧ NoDup l1.
  Proof.
    rewrite <- app_assoc, NoDup_app. simpl. rewrite NoDup_cons.
    intros (? & Hd & ? & ?). split_and!; [|done..]. intros ?; apply (Hd z); [done|left].
  Qed.

Lemma NoDup_snoc_cons (z : Z) (l1 l2 : list Z) : NoDup (l1 ++ z :: l2) → z ∉ l2.
  Proof. rewrite NoDup_app, NoDup_cons. naive_solver. Qed.

Ltac q_hyps :=
    repeat match goal with
    | H : _ ∉ _ :: _ |- _ => rewrite not_elem_of_cons in H; destruct H
    | H : _ ∉ _ ++ _ |- _ => rewrite not_elem_of_app in H; destruct H
    | H : (_ ∉ _) ∧ _ |- _ => destruct H
    | H : _ ≠ _ ∧ _ |- _ => destruct H
    end; simpl in *.

  (** Ends a proof that the final memory stores a list: the links of the
      elements that moved, and the segments that did not. *)
Ltac q_done :=
    repeat match goal with
    | |- dseg _ _ (_ ++ _) _ => rewrite dseg_app; split
    | |- dseg _ _ (_ :: _) _ => simpl
    | |- _ !! _ = Some _ =>
        simpl; repeat (rewrite lookup_insert_ne by congruence);
        rewrite ?lookup_insert_eq, ?lastn_snoc, ?lastn_cons; done
    | |- dseg (<[_:=_]> _) _ _ _ => apply dseg_insert; [assumption|]
    | |- dseg _ _ _ _ => assumption || (rewrite ?lastn_snoc; assumption)
    | |- links_frame _ _ _ =>
        let p := fresh "p" in let Hp := fresh "Hp" in
        intros p Hp; simpl;
        repeat (rewrite lookup_insert_ne by (intros ->; apply Hp; set_solver)); done
    | |- LH _ _ _ = LH _ _ _ =>
        rewrite ?w32_add_l, ?lastn_snoc, ?lastn_cons, ?lastn_app, ?hdn_app, ?length_app;
        simpl; f_equal; try done; f_equal; lia
    | |- dseg _ _ [] _ => exact I
    | |- _ ∧ _ => split
    | |- True => exact I
    | |- _ ≠ NULL => congruence
    end.

Lemma LIST_INIT_spec s : wp LIST_INIT (λ _ s', is_list s' [] ∧ links s' = links s) s.
  Proof. unfold LIST_INIT. wp_steps. by split; [split_and!; [constructor|..]|]. Qed.

Lemma LIST_INSERT_HEAD_spec s l x :
    is_list s l → x ≠ NULL → x ∉ l → is_Some (links s !! x) →
    wp (LIST_INSERT_HEAD x)
      (λ _ s', is_list s' (l_insert_head x l) ∧ links_frame (x :: l) s s') s.
  Proof.
    destruct s as [m h]. intros (Hnd & Hd & Hh) Hx Hxl [lx Hlx]. simpl in *. subst h.
    unfold LIST_INSERT_HEAD, l_insert_head.
    assert (NoDup (x :: l)) by by constructor.
    destruct l as [|y l]; simpl in *.
    - repeat q_step. split; [split_and!; [done|simpl..]|]; q_done.
    - destruct Hd as (? & Hy & Hd). apply NoDup_cons in Hnd as [??].
      rewrite not_elem_of_cons in Hxl. destruct Hxl.
      repeat q_step. split; [split_and!; [done|simpl..]|]; q_done.
  Qed.

Lemma LIST_INSERT_TAIL_spec s l x :
    is_list s l → x ≠ NULL → x ∉ l → is_Some (links s !! x) →
    wp (LIST_INSERT_TAIL x)
      (λ _ s', is_list s' (l_insert_tail x l) ∧ links_frame (x :: l) s s') s.
  Proof.
    destruct s as [m h]. intros (Hnd & Hd & Hh) Hx Hxl [lx Hlx]. simpl in *. subst h.
    unfold LIST_INSERT_TAIL, l_insert_tail.
    assert (NoDup (l ++ [x])).
    { apply NoDup_app. split_and!; [done| |apply NoDup_singleton].
      intros y ? ->%list_elem_of_singleton. done. }
    destruct l as [|y l _] using rev_ind; simpl in *.
    - repeat q_step. split; [split_and!; [done|simpl..]|]; q_done.
    - rewrite dseg_app in Hd. destruct Hd as (Hd & ? & Hy & _).
      apply NoDup_app in Hnd as (? & Hdis & _).
      assert (y ∉ l) by (intros ?; apply (Hdis y); [done|left]).
      q_hyps. rewrite lastn_snoc.
      repeat q_step. split; [split_and!; [done|simpl..]|]; rewrite <- ?app_assoc; q_done.
  Qed.

Lemma LIST_INSERT_BEFORE_spec s l1 y l2 x :
    is_list s (l1 ++ y :: l2) → x ≠ NULL → x ∉ l1 ++ y :: l2 → is_Some (links s !! x) →
    wp (LIST_INSERT_BEFORE y x)
      (λ _ s', is_list s' (l1 ++ x :: y :: l2) ∧ links_frame (x :: l1 ++ y :: l2) s s') s.
  Proof.
    intros Hl Hx Hxl [lx Hlx]. pose proof (is_list_split _ _ _ _ Hl) as Hs.
    destruct Hl as (Hnd & _ & Hh). destruct s as [m h]. simpl in *. subst h.
    destruct Hs as (? & ? & ? & ? & ? & Hy & Hd1 & Hd2).
    assert (NoDup (l1 ++ x :: y :: l2)).
    { rewrite <- Permutation_middle. by constructor. }
    unfold LIST_INSERT_BEFORE. q_hyps.
    destruct l1 as [|z l1 _] using rev_ind; simpl in *.
    - repeat q_step. split; [split_and!; [done|simpl..]|]; q_done.
    - rewrite lastn_snoc in Hy. rewrite dseg_app in Hd1. destruct Hd1 as (? & ? & Hz & _).
      destruct (NoDup_snoc_app z l1 l2) as (? & ? & ?); [done|].
      q_hyps. repeat q_step. split; [split_and!; [done|simpl..]|]; q_done.
  Qed.

Lemma LIST_INSERT_AFTER_spec s l1 y l2 x :
    is_list s (l1 ++ y :: l2) → x ≠ NULL → x ∉ l1 ++ y :: l2 → is_Some (links s !! x) →
    wp (LIST_INSERT_AFTER y x)
      (λ _ s', is_list s' (l1 ++ y :: x :: l2) ∧ links_frame (x :: l1 ++ y :: l2) s s') s.
  Proof.
    intros Hl Hx Hxl [lx Hlx]. pose proof (is_list_split _ _ _ _ Hl) as Hs.
    destruct Hl as (Hnd & _ & Hh). destruct s as [m h]. simpl in *. subst h.
    destruct Hs as (? & ? & ? & ? & ? & Hy & Hd1 & Hd2).
    assert (NoDup (l1 ++ y :: x :: l2)).
    { rewrite (Permutation_swap x y l2), <- Permutation_middle. by constructor. }
    unfold LIST_INSERT_AFTER. q_hyps.
    destruct l2 as [|z l2]; simpl in *.
    - repeat q_step. split; [split_and!; [done|simpl..]|]; q_done.
    - destruct Hd2 as (? & Hz & ?). assert (z ∉ l1) by set_solver.
      pose proof (NoDup_snoc_cons z l1 l2 ltac:(done)). q_hyps. repeat q_step. split; [split_and!; [done|simpl..]|]; q_done.
  Qed.

Lemma LIST_REMOVE_spec s l1 x l2 :
    is_list s (l1 ++ x :: l2) →
    wp (LIST_REMOVE x)
      (λ _ s', is_list s' (l1 ++ l2) ∧ links_frame (l1 ++ x :: l2) s s' ∧
               is_Some (links s' !! x)) s.
  Proof.
    intros Hl. pose proof (is_list_split _ _ _ _ Hl) as Hs.
    destruct Hl as (_ & _ & Hh). destruct s as [m h]. simpl in *. subst h.
    destruct Hs as (? & ? & ? & Hnd & Hdis & Hy & Hd1 & Hd2). unfold LIST_REMOVE.
    destruct l2 as [|z l2]; destruct l1 as [|w l1 _] using rev_ind; simpl in *;
      rewrite ?lastn_snoc in Hy.
    - repeat q_step. split_and!; [split_and!; [done|simpl..]|..]; q_done. by simpl; simplify_map_eq.
    - rewrite dseg_app in Hd1. destruct Hd1 as (? & ? & Hw & _).
      destruct (NoDup_snoc_app w l1 []) as (? & ? & ?); [done|]. q_hyps.
      repeat q_step. split_and!; [split_and!; [done|simpl..]|..]; q_done. by simpl; simplify_map_eq.
    - destruct Hd2 as (? & Hz & ?). pose proof (NoDup_snoc_cons z [] l2 ltac:(done)). q_hyps.
      repeat q_step. split_and!; [split_and!; [done|simpl..]|..]; q_done. by simpl; simplify_map_eq.
    - rewrite dseg_app in Hd1. destruct Hd1 as (? & ? & Hw & _). destruct Hd2 as (? & Hz & ?).
      destruct (NoDup_snoc_app w l1 (z :: l2)) as (? & ? & ?); [done|].
      pose proof (NoDup_snoc_cons z _ l2 ltac:(done)).
      assert (z ∉ l1) by set_solver. q_hyps.
      repeat q_step. split_and!; [split_and!; [done|simpl..]|..]; q_done. by simpl; simplify_map_eq.
  Qed.
End refine.

(** ** Simulation of the macros by the list operations *)
Inductive lop :=
| OInit
| OInsertHead (x : Z)
| OInsertTail (x : Z)
| OInsertBefore (y x : Z)
| OInsertAfter (y x : Z)
| ORemove (x : Z).

Definition run_op (o : lop) : M lstate unit :=
  match o with
  | OInit => LIST_INIT
  | OInsertHead x => LIST_INSERT_HEAD x
  | OInsertTail x => LIST_INSERT_TAIL x
  | OInsertBefore y x => LIST_INSERT_BEFORE y x
  | OInsertAfter y x => LIST_INSERT_AFTER y x
  | ORemove x => LIST_REMOVE x
  end.

Definition abs_op (o : lop) (l : list Z) : list Z :=
  match o with
  | OInit => []
  | OInsertHead x => l_insert_head x l
  | OInsertTail x => l_insert_tail x l
  | OInsertBefore y x => l_insert_before y x l
  | OInsertAfter y x => l_insert_after y x l
  | ORemove x => l_remove x l
  end.

(** What the caller owes: a new element is a real element that is in no list,
    an element used as a position, or removed, is in this list. *)
Definition op_pre (o : lop) (m : gmap Z link) (l : list Z) : Prop :=
  let fresh x := x ≠ NULL ∧ x ∉ l ∧ is_Some (m !! x) in
  match o with
  | OInit => True
  | OInsertHead x | OInsertTail x => fresh x
  | OInsertBefore y x | OInsertAfter y x => y ∈ l ∧ fresh x
  | ORemove x => x ∈ l
  end.
Definition op_args (o : lop) : list Z :=
  match o with
  | OInit => []
  | OInsertHead x | OInsertTail x | ORemove x => [x]
  | OInsertBefore y x | OInsertAfter y x => [y; x]
  end.

(** The elements before the first occurrence of [y] do not contain it. *)
Lemma split_first (y : Z) (l : list Z) : y ∈ l → ∃ l1 l2, l = l1 ++ y :: l2 ∧ y ∉ l1.
Proof.
  induction l as [|z l IH]; [by intros ?%elem_of_nil|].
  destruct (decide (z = y)) as [->|]; intros Hy.
  - exists [], l. split; [done|]. apply not_elem_of_nil.
  - destruct IH as (l1 & l2 & -> & ?); [set_solver|]. exists (z :: l1), l2. set_solver.
Qed.

(** C2: queue refinement. Every list macro, run on a memory that stores the
    list [l] and called as its comment asks, returns without a panic or a null
    dereference, leaves a memory that stores the list the operation is meant to
    build (with the first and last pointers and the size counter right), and
    writes no link outside the list and its arguments. *)
Theorem queue_simulation (s : lstate) (l : list Z) (o : lop) :
  is_list s l → op_pre o (links s) l →
  wp (run_op o) (λ _ s', is_list s' (abs_op o l) ∧ links_frame (op_args o ++ l) s s') s.
Proof.
  intros Hl. destruct o as [|x|x|y x|y x|x]; simpl.
  - intros _. eapply wp_mono; [apply LIST_INIT_spec|]. intros _ s' [? He]. split; [done|].
    intros p _. by rewrite He.
  - intros (? & ? & ?). by apply LIST_INSERT_HEAD_spec.
  - intros (? & ? & ?). by apply LIST_INSERT_TAIL_spec.
  - intros [(l1 & l2 & -> & ?)%split_first (? & ? & ?)]. rewrite l_insert_before_split by done.
    eapply wp_mono; [by apply LIST_INSERT_BEFORE_spec|].
    intros _ s' [? Hf]. split; [done|]. intros p Hp. apply Hf. set_solver.
  - intros [(l1 & l2 & -> & ?)%split_first (? & ? & ?)]. rewrite l_insert_after_split by done.
    eapply wp_mono; [by apply LIST_INSERT_AFTER_spec|].
    intros _ s' [? Hf]. split; [done|]. intros p Hp. apply Hf. set_solver.
  - intros (l1 & l2 & -> & ?)%split_first.
    assert (x ∉ l2) by (by destruct (is_list_split _ _ _ _ Hl) as (? & ? & ? & _)).
    rewrite l_remove_split by done.
    eapply wp_mono; [by apply LIST_REMOVE_spec|].
    intros _ s' (? & Hf & _). split; [done|]. intros p Hp. apply Hf. set_solver.
Qed.

Definition ex_links : gmap Z link :=
  list_to_map [(8, Link 16 0); (16, Link 0 8); (24, Link 5 5)].
Definition ex_list : lstate := LS ex_links (LH 8 16 2).

(** Checks [is_list] on a concrete memory. *)
Ltac solve_is_list :=
  split_and!;
  [ apply (bool_decide_unpack _); vm_compute; exact I
  | cbn [dseg]; repeat (split; [unfold NULL; lia|]; split; [reflexivity|]); exact I
  | reflexivity ].

Lemma queue_simulation_witness :
  is_list ex_list [8; 16] ∧ op_pre (OInsertBefore 16 24) ex_links [8; 16] ∧
  wp (run_op (OInsertBefore 16 24))
    (λ _ s', is_list s' [8; 24; 16] ∧ links_frame [16; 24; 8; 16] ex_list s') ex_list.
Proof.
  assert (Hl : is_list ex_list [8; 16]).
  { solve_is_list. }
  assert (Hp : op_pre (OInsertBefore 16 24) ex_links [8; 16]).
  { simpl. split_and!; [set_solver|unfold NULL; lia|set_solver|]. eexists. reflexivity. }
  split_and!; [exact Hl|exact Hp|].
  exact (queue_simulation ex_list [8; 16] (OInsertBefore 16 24) Hl Hp).
Defined.

(** ** Traversal with removal of the current element *)
Section foreach.
  Variable f : Z → bool.
Let body (x : Z) : M lstate unit := if f x then LIST_REMOVE x else mret ().

Lemma foreach_from_spec fuel kept rest s :
    (length rest < fuel)%nat → is_list s (kept ++ rest) →
    wp (LIST_FOREACH_SAFE_from fuel (hdn NULL rest) body)
      (λ _ s', is_list s' (kept ++ filter (λ x, f x = false) rest)) s.
  Proof.
    revert kept rest s. induction fuel as [|fuel IH]; intros kept rest s Hf Hl; [lia|].
    destruct rest as [|x rest]; simpl.
    - by apply wp_ret.
    - destruct (is_list_split _ _ _ _ Hl) as (Hx & _ & _ & _ & _ & Hlk & _).
      rewrite bool_decide_false by done. wp_step. eapply wp_LIST_NEXT; [done|]. simpl.
      wp_step. unfold body at 1. destruct (f x) eqn:Hfx.
      + eapply wp_mono; [by apply LIST_REMOVE_spec|]. intros _ s' (Hl' & _).
        rewrite filter_cons_False by congruence. apply IH; [simpl in Hf; lia|done].
      + apply wp_ret. rewrite filter_cons_True by done.
        specialize (IH (kept ++ [x]) rest s). rewrite <- !app_assoc in IH. simpl in IH.
        apply IH; [simpl in Hf; lia|done].
  Qed.

  (** deletion-safe traversal. [LIST_FOREACH_SAFE] with a body that removes the
      current element when a test holds visits every element of the list once,
      terminates within one iteration per element, and leaves exactly the
      elements on which the test fails, in order. *)
Theorem foreach_remove_spec (l : list Z) (s : lstate) :
    is_list s l →
    wp (LIST_FOREACH_SAFE (S (length l)) body)
      (λ _ s', is_list s' (filter (λ x, f x = false) l)) s.
  Proof.
    intros Hl. unfold LIST_FOREACH_SAFE. wp_step. apply wp_gets.
    replace (lh_first (lhead s)) with (hdn NULL l) by (destruct Hl as (_ & _ & ->); done).
    apply (foreach_from_spec _ [] l); [lia|done].
  Qed.
End foreach.

Lemma foreach_remove_witness :
  is_list ex_list [8; 16] ∧
  wp (LIST_FOREACH_SAFE 3 (λ x, if Z.even (x / 8) then LIST_REMOVE x else mret ()))
    (λ _ s', is_list s' [8]) ex_list.
Proof.
  assert (Hl : is_list ex_list [8; 16]).
  { solve_is_list. }
  split; [exact Hl|].
  exact (foreach_remove_spec (λ x, Z.even (x / 8)) [8; 16] ex_list Hl).
Defined.

(** ** Concatenation *)

(** [LIST_CONCAT] of two non-empty lists re-initialises the second head before
    it adds the sizes, so the first head keeps its old counter: the chain is the
    concatenation, the counter is not its length. *)
Theorem concat_size_wrong (m : gmap Z link) (h1 h2 : list_head) (l1 l2 : list Z) :
  is_list (LS m h1) l1 → is_list (LS m h2) l2 → l1 ≠ [] → l2 ≠ [] →
  (∀ x, x ∈ l1 → x ∉ l2) →
  ∃ m' h', LIST_CONCAT (LS2 m h1 h2) = Ok tt (LS2 m' h' (LH NULL NULL 0)) ∧
    dseg m' NULL (l1 ++ l2) NULL ∧ lh_first h' = hdn NULL (l1 ++ l2) ∧
    lh_last h' = lastn NULL (l1 ++ l2) ∧
    lh_size h' = w32 (Z.of_nat (length l1)).
Proof.
  intros (Hn1 & Hd1 & Hh1) (Hn2 & Hd2 & Hh2) Hne1 Hne2 Hdis. simpl in *. subst h1 h2.
  destruct l1 as [|a l1 _] using rev_ind; [done|]. destruct l2 as [|b l2]; [done|].
  rewrite dseg_app in Hd1. simpl in Hd1. destruct Hd1 as (Hd1 & Ha0 & Ha & _).
  simpl in Hd2. destruct Hd2 as (Hb0 & Hb & Hd2).
  assert (a ∉ b :: l2) by (apply Hdis; set_solver). assert (b ∉ l1 ++ [a]) by set_solver.
  assert (a ∉ l1) by (rewrite NoDup_app in Hn1; set_solver).
  assert (b ∉ l2) by (by rewrite NoDup_cons in Hn2; naive_solver).
  assert (hdn NULL (l1 ++ [a]) ≠ NULL) by (destruct l1; simpl in *; naive_solver).
  unfold LIST_CONCAT. simpl. rewrite bool_decide_false by done.
  rewrite bool_decide_true by done. rewrite lastn_snoc, Ha. simpl.
  rewrite lookup_insert_ne, Hb by set_solver. simpl.
  eexists _, _. split; [done|]. split_and!.
  - rewrite !dseg_app. simpl. rewrite lastn_snoc. split_and!; try done.
    + repeat apply dseg_insert; [set_solver|done|]. by destruct l1.
    + rewrite lookup_insert_ne, lookup_insert_eq by set_solver. done.
    + by rewrite lookup_insert_eq.
    + repeat apply dseg_insert; [done|set_solver|done].
  - simpl. by rewrite !hdn_app.
  - simpl. by rewrite lastn_app, lastn_cons, lastn_cons.
  - simpl. by rewrite w32_add_l, Z.add_0_r.
Qed.

Lemma concat_size_wrong_witness :
  let m := (list_to_map [(8, Link 0 0); (16, Link 24 0); (24, Link 0 16)] : gmap Z link) in
  let h1 := LH 8 8 1 in let h2 := LH 16 24 2 in
  ∃ m' h', LIST_CONCAT (LS2 m h1 h2) = Ok tt (LS2 m' h' (LH NULL NULL 0)) ∧
    dseg m' NULL [8; 16; 24] NULL ∧ lh_first h' = 8 ∧ lh_last h' = 24 ∧ lh_size h' = 1.
Proof.
  intros m h1 h2.
  apply (concat_size_wrong m h1 h2 [8] [16; 24]); try done; try set_solver.
  - solve_is_list.
  - solve_is_list.
Defined.
