(* ===== verification/DynAlloc.v ===== *)
(** * The dynamic allocator (lib/dynamic_allocator.c, inc/dynamic_allocator.h)

    A segregated free-list allocator for blocks of 8 to 2048 bytes: each page of
    its region is either free or divided into blocks of one power-of-two size.
    The kernel heap and the user heap both link this code and provide the pages,
    so the file is a development over any page source. *)

From S2P Require Import Prelude Queue.

(** What the allocator calls: [get_page] and [return_page] are kern/mem/kheap.c's
    in the kernel and lib/uheap.c's in a user program; [block_memset] is the
    effect of [memset] on the memory of a block. *)
Class PageSource (E : Type) := {
  ps_get_page : Z → M E Z;
  ps_return_page : Z → M E unit;
  ps_memset : Z → Z → Z → E → E
}.

Definition LOG2_MIN_SIZE : Z := 3.
Definition LOG2_MAX_SIZE : Z := 11.
Definition DYN_ALLOC_MAX_SIZE : Z := Z.shiftl 32 20.
Definition DYN_ALLOC_MIN_BLOCK_SIZE : Z := Z.shiftl 1 LOG2_MIN_SIZE.
Definition DYN_ALLOC_MAX_BLOCK_SIZE : Z := Z.shiftl 1 LOG2_MAX_SIZE.
Definition PGSHIFT : Z := 12.
(** Number of elements of [pageBlockInfoArr]. *)
Definition NPAGES : Z := DYN_ALLOC_MAX_SIZE / PAGE_SIZE.

(** An element of [pageBlockInfoArr]; its address is its index. *)
Record PageInfoElement := PI { block_size : Z; num_of_free_blocks : Z }.

Record da := DA {
  freeBlockLists : list (list Z);
  freePagesList : list Z;
  pageBlockInfoArr : gmap Z PageInfoElement;
  dynAllocStart : Z;
  dynAllocEnd : Z;
  is_initialized : bool
}.

(** The globals of a program that has not run yet: all zero. *)
Definition da_zero : da := DA (replicate 9 []) [] ∅ 0 0 false.

Definition page_info (s : da) (i : Z) : PageInfoElement :=
  default (PI 0 0) (pageBlockInfoArr s !! i).

Section code.
  Context {E : Type} `{PageSource E}.
  Notation D := (M (da * E)).

Definition env {A} (c : M E A) : D A := zoom snd (λ e s, (s.1, e)) c.
Definition upd (f : da → da) : D unit := modify (λ s, (f s.1, s.2)).
Definition rd {A} (f : da → A) : D A := gets (λ s, f s.1).

Definition set_lists (x : list (list Z)) (s : da) : da :=
    DA x (freePagesList s) (pageBlockInfoArr s) (dynAllocStart s) (dynAllocEnd s) (is_initialized s).
Definition set_free_pages (x : list Z) (s : da) : da :=
    DA (freeBlockLists s) x (pageBlockInfoArr s) (dynAllocStart s) (dynAllocEnd s) (is_initialized s).
Definition set_infos (x : gmap Z PageInfoElement) (s : da) : da :=
    DA (freeBlockLists s) (freePagesList s) x (dynAllocStart s) (dynAllocEnd s) (is_initialized s).

  (** Array accesses, with the array's bounds. *)
Definition get_list (idx : Z) : D (list Z) :=
    ls ← rd freeBlockLists;
    if decide (0 ≤ idx) then unwrap (ls !! Z.to_nat idx) else undef.
Definition put_list (idx : Z) (l : list Z) : D unit :=
    upd (λ s, set_lists (<[Z.to_nat idx := l]> (freeBlockLists s)) s).
Definition get_info (i : Z) : D PageInfoElement :=
    if decide (0 ≤ i < NPAGES) then rd (λ s, page_info s i) else undef.
Definition put_info (i : Z) (p : PageInfoElement) : D unit :=
    if decide (0 ≤ i < NPAGES) then upd (λ s, set_infos (<[i := p]> (pageBlockInfoArr s)) s)
    else undef.

Definition to_page_va (ptrPageInfo : Z) : D Z :=
    assert_ (bool_decide (0 ≤ ptrPageInfo < NPAGES)) ;;
    start ← rd dynAllocStart;
    mret (w32 (start + Z.shiftl ptrPageInfo PGSHIFT)).

Definition to_page_info (va : Z) : D Z :=
    start ← rd dynAllocStart;
    let idx := i32 (Z.shiftr (w32 (va - start)) PGSHIFT) in
    assert_ (bool_decide (0 ≤ idx < NPAGES)) ;;
    mret idx.

Definition initialize_dynamic_allocator (daStart daEnd : Z) : D unit :=
    assert_ (bool_decide (daEnd ≤ w32 (daStart + DYN_ALLOC_MAX_SIZE))) ;;
    upd (λ s, DA (replicate 9 []) [] (pageBlockInfoArr s) daStart daEnd true) ;;
    let total_pages := w32 (daEnd - daStart) / PAGE_SIZE in
    mfor (seqZ 0 total_pages) (λ i,
      put_info i (PI 0 0) ;;
      l ← rd freePagesList;
      l' ← lq_insert_tail i l;
      upd (set_free_pages l')).

Definition get_block_size (va : Z) : D Z :=
    start ← rd dynAllocStart;
    end_ ← rd dynAllocEnd;
    if decide (va < start ∨ end_ ≤ va) then mret 0
    else
      let offset := w32 (va - start) in
      p ← get_info (offset / PAGE_SIZE);
      mret (block_size p).

  (** The loop that finds the size class; ten rounds are enough (the exponent
      goes from 3 to at most 12). *)
Fixpoint size_class (fuel : nat) (log2 bsz size : Z) : option (Z * Z) :=
    match fuel with
    | O => None
    | S fuel =>
        if decide (bsz < size ∧ log2 ≤ LOG2_MAX_SIZE)
        then size_class fuel (log2 + 1) (Z.shiftl 1 (log2 + 1)) size
        else Some (log2, bsz)
    end.

  (** Takes [blk] off the free list [idx] and counts it in its page. *)
Definition take_block (idx blk : Z) : D Z :=
    l ← get_list idx;
    l' ← lq_remove blk l;
    put_list idx l' ;;
    start ← rd dynAllocStart;
    let page_idx := i32 (w32 (blk - start) / PAGE_SIZE) in
    p ← get_info page_idx;
    put_info page_idx (PI (block_size p) (w16 (num_of_free_blocks p - 1))) ;;
    mret blk.

  (** The search of the larger classes, [for (i = idx + 1; i <= 8; i++)]. *)
Fixpoint take_bigger (ks : list Z) : D Z :=
    match ks with
    | [] => panic
    | i :: ks =>
        l ← get_list i;
        match l with
        | [] => take_bigger ks
        | big_blk :: _ => take_block i big_blk
        end
    end.

Definition alloc_block (size : Z) : D Z :=
    assert_ (bool_decide (size ≤ DYN_ALLOC_MAX_BLOCK_SIZE)) ;;
    if decide (size = 0) then mret NULL else
    match size_class 10 LOG2_MIN_SIZE (Z.shiftl 1 LOG2_MIN_SIZE) size with
    | None => nofuel
    | Some (log2, bsz) =>
      let log2 := if decide (log2 > LOG2_MAX_SIZE) then LOG2_MAX_SIZE else log2 in
      let idx := log2 - LOG2_MIN_SIZE in
      l ← get_list idx;
      match l with
      | blk :: _ => take_block idx blk
      | [] =>
        fp ← rd freePagesList;
        match fp with
        | pagehead :: _ =>
          fp' ← lq_remove pagehead fp;
          upd (set_free_pages fp') ;;
          page_va ← to_page_va pagehead;
          _ ← env (ps_get_page page_va);
          let n := w16 (PAGE_SIZE / bsz) in
          put_info pagehead (PI (w16 bsz) n) ;;
          mfor (seqZ 0 n) (λ i,
            let b := w32 (page_va + i * bsz) in
            assert_ (bool_decide (b ≠ NULL)) ;;
            l ← get_list idx;
            l' ← lq_insert_tail b l;
            put_list idx l') ;;
          l ← get_list idx;
          alloc_blk ← unwrap (head l);
          l' ← lq_remove alloc_blk l;
          put_list idx l' ;;
          p ← get_info pagehead;
          put_info pagehead (PI (block_size p) (w16 (num_of_free_blocks p - 1))) ;;
          env (modify (ps_memset alloc_blk 0 bsz)) ;;
          mret alloc_blk
        | [] => take_bigger (seqZ (idx + 1) (LOG2_MAX_SIZE - LOG2_MIN_SIZE - idx))
        end
      end
    end.

  (** [while (tmp >>= 1) log2++], [tmp] a 16-bit value: sixteen rounds. *)
Fixpoint log2_loop (fuel : nat) (tmp log2 : Z) : option Z :=
    match fuel with
    | O => None
    | S fuel =>
        let tmp := Z.shiftr tmp 1 in
        if decide (tmp = 0) then Some log2 else log2_loop fuel tmp (log2 + 1)
    end.

Definition free_block (va : Z) : D unit :=
    start ← rd dynAllocStart;
    end_ ← rd dynAllocEnd;
    assert_ (bool_decide (start ≤ va ∧ va < end_)) ;;
    let page_idx := w32 (va - start) / PAGE_SIZE in
    page ← get_info page_idx;
    let bsz := block_size page in
    match log2_loop 17 bsz 0 with
    | None => nofuel
    | Some log2 =>
      let idx := log2 - LOG2_MIN_SIZE in
      assert_ (bool_decide (va ≠ NULL)) ;;
      l ← get_list idx;
      l' ← lq_insert_head va l;
      put_list idx l' ;;
      let nfree := w16 (num_of_free_blocks page + 1) in
      put_info page_idx (PI bsz nfree) ;;
      if decide (bsz = 0) then undef else
      let blocks_per_page := PAGE_SIZE / bsz in
      if decide (nfree = blocks_per_page) then
        page_va ← to_page_va page_idx;
        mfor (seqZ 0 blocks_per_page) (λ i,
          let b := w32 (page_va + i * bsz) in
          l ← get_list idx;
          l' ← lq_remove b l;
          put_list idx l') ;;
        env (ps_return_page page_va) ;;
        put_info page_idx (PI 0 0) ;;
        fp ← rd freePagesList;
        fp' ← lq_insert_tail page_idx fp;
        upd (set_free_pages fp')
      else mret ()
    end.

Definition realloc_block (va new_size : Z) : D Z := panic.
End code.

(** A page source that records the pages it gave out, for concrete runs. *)
#[export] Instance ps_trace : PageSource (list Z) := {|
  ps_get_page va := λ e, Ok 0 (va :: e);
  ps_return_page va := λ e, Ok tt (filter (.≠ va) e);
  ps_memset _ _ _ e := e
|}.
