(* ===== verification/DynAllocSpec.v ===== *)
(** * Correctness of the dynamic allocator

    The abstract content of an allocator state is the set of its allocated
    blocks ([allocated]). [da_inv] is the invariant of the free lists, the free
    pages and the per-page counters; initialisation establishes it, and
    allocation and release preserve it while they add or remove one block. *)

From S2P Require Import Prelude Queue DynAlloc.

(** ** Size classes *)
Definition sz_of (k : nat) : Z := 2 ^ (Z.of_nat k + 3).

Lemma sz_of_facts k : (k < 9)%nat →
  8 ≤ sz_of k ≤ 2048 ∧ sz_of k * (4096 / sz_of k) = 4096 ∧ 2 ≤ 4096 / sz_of k ≤ 512.
Proof. intros. do 9 (destruct k as [|k]; [vm_compute; intuition discriminate|]). lia. Qed.
Lemma sz_of_inj k k' : sz_of k = sz_of k' → k = k'.
Proof. unfold sz_of. intros H%Z.pow_inj_r; lia. Qed.

(** ** Blocks of a page *)
Definition blocks_of (start i sz : Z) : list Z :=
  (λ j, start + i * 4096 + j * sz) <$> seqZ 0 (4096 / sz).

Lemma elem_of_blocks start i sz b :
  b ∈ blocks_of start i sz ↔ ∃ j, 0 ≤ j < 4096 / sz ∧ b = start + i * 4096 + j * sz.
Proof.
  unfold blocks_of. rewrite list_elem_of_fmap. setoid_rewrite elem_of_seqZ. naive_solver lia.
Qed.
Lemma NoDup_blocks start i sz : 0 < sz → NoDup (blocks_of start i sz).
Proof.
  intros. apply NoDup_fmap_2_strong; [|apply NoDup_seqZ]. intros x y _ _. nia.
Qed.
Lemma length_blocks start i k :
  (k < 9)%nat → Z.of_nat (length (blocks_of start i (sz_of k))) = 4096 / sz_of k.
Proof.
  intros. unfold blocks_of. rewrite length_fmap, length_seqZ.
  destruct (sz_of_facts k); [done|]. lia.
Qed.
(** A block lies within its page, so its page is found by a division. *)
Lemma block_in_page start i k b :
  (k < 9)%nat → b ∈ blocks_of start i (sz_of k) →
  (b - start) / 4096 = i ∧ start + i * 4096 ≤ b ∧ b + sz_of k ≤ start + i * 4096 + 4096.
Proof.
  intros Hk (j & Hj & ->)%elem_of_blocks. destruct (sz_of_facts k) as (? & ? & ?); [done|].
  assert (j * sz_of k + sz_of k ≤ 4096) by nia. assert (0 ≤ j * sz_of k) by nia.
  split_and!; [|lia..].
  replace (start + i * 4096 + j * sz_of k - start) with (j * sz_of k + i * 4096) by lia.
  rewrite Z.div_add, Z.div_small by lia. lia.
Qed.

(** ** The invariant *)
Definition npages (s : da) : Z := (dynAllocEnd s - dynAllocStart s) / 4096.
Definition free_in_page (s : da) (i : Z) (l : list Z) : Z :=
  Z.of_nat (length (filter (λ b, (b - dynAllocStart s) / 4096 = i) l)).

Record da_inv (s : da) : Prop := {
  inv_rng : 0 < dynAllocStart s ∧ dynAllocStart s ≤ dynAllocEnd s ∧
            dynAllocEnd s < 4294967296 ∧
            dynAllocEnd s - dynAllocStart s = 4096 * npages s ∧ npages s ≤ 8192;
  inv_len : length (freeBlockLists s) = 9%nat;
  inv_nodup k l : freeBlockLists s !! k = Some l → NoDup l;
  inv_block k l b : freeBlockLists s !! k = Some l → b ∈ l →
    ∃ i, 0 ≤ i < npages s ∧ block_size (page_info s i) = sz_of k ∧
         b ∈ blocks_of (dynAllocStart s) i (sz_of k);
  inv_pages : NoDup (freePagesList s) ∧
    ∀ i, i ∈ freePagesList s ↔ 0 ≤ i < npages s ∧ block_size (page_info s i) = 0;
  inv_used i : 0 ≤ i < npages s → block_size (page_info s i) ≠ 0 →
    ∃ k l, freeBlockLists s !! k = Some l ∧ block_size (page_info s i) = sz_of k ∧
      num_of_free_blocks (page_info s i) = free_in_page s i l ∧
      num_of_free_blocks (page_info s i) < 4096 / sz_of k
}.

(** [b] is a live block of [sz] bytes. *)
Definition allocated (s : da) (b sz : Z) : Prop :=
  ∃ i k l, 0 ≤ i < npages s ∧ freeBlockLists s !! k = Some l ∧
    block_size (page_info s i) = sz_of k ∧ sz = sz_of k ∧
    b ∈ blocks_of (dynAllocStart s) i sz ∧ b ∉ l.

Lemma inv_class s k l : da_inv s → freeBlockLists s !! k = Some l → (k < 9)%nat.
Proof. intros Hi Hk%lookup_lt_Some. by rewrite (inv_len _ Hi) in Hk. Qed.

Lemma page_info_insert s i j p x y st en b :
  page_info (DA x y (<[i:=p]> (pageBlockInfoArr s)) st en b) j =
  if decide (i = j) then p else page_info s j.
Proof. unfold page_info. simpl. rewrite lookup_insert. by case_decide. Qed.

Lemma free_in_page_perm s i l l' : l ≡ₚ l' → free_in_page s i l = free_in_page s i l'.
Proof. intros H. unfold free_in_page. by rewrite H. Qed.
Lemma free_in_page_cons s i b l :
  free_in_page s i (b :: l) =
  free_in_page s i l + (if decide ((b - dynAllocStart s) / 4096 = i) then 1 else 0).
Proof.
  unfold free_in_page. rewrite filter_cons. case_decide; simpl; lia.
Qed.
Lemma free_in_page_nonneg s i l : 0 ≤ free_in_page s i l.
Proof. unfold free_in_page. lia. Qed.

(** Two live blocks do not overlap. *)
Lemma allocated_range s b sz :
  da_inv s → allocated s b sz →
  dynAllocStart s ≤ b ∧ b + sz ≤ dynAllocEnd s ∧ 8 ≤ sz ≤ 2048.
Proof.
  intros Hi (i & k & l & ? & Hk & ? & -> & Hb & ?).
  pose proof (inv_class _ _ _ Hi Hk) as Hk9. pose proof (inv_rng _ Hi).
  destruct (block_in_page _ _ _ _ Hk9 Hb) as (? & ? & ?).
  destruct (sz_of_facts k Hk9). nia.
Qed.
Lemma blocks_disjoint start i k b b' :
  (k < 9)%nat → b ∈ blocks_of start i (sz_of k) → b' ∈ blocks_of start i (sz_of k) →
  b ≠ b' → b + sz_of k ≤ b' ∨ b' + sz_of k ≤ b.
Proof.
  intros Hk (j & ? & ->)%elem_of_blocks (j' & ? & ->)%elem_of_blocks Hne.
  destruct (sz_of_facts k Hk). destruct (decide (j < j')); [left; nia|right].
  assert (j ≠ j') by congruence. nia.
Qed.

(** ** Taking one block off a free list *)
Definition set_list (k : nat) (l : list Z) (s : da) : da :=
  set_lists (<[k := l]> (freeBlockLists s)) s.
Definition set_info (i : Z) (p : PageInfoElement) (s : da) : da :=
  set_infos (<[i := p]> (pageBlockInfoArr s)) s.

Definition popped (k : nat) (b : Z) (l : list Z) (s : da) : da :=
  let i := (b - dynAllocStart s) / 4096 in
  set_info i (PI (sz_of k) (num_of_free_blocks (page_info s i) - 1)) (set_list k l s).

Lemma page_info_set_info s i j p :
  page_info (set_info i p s) j = if decide (i = j) then p else page_info s j.
Proof. apply page_info_insert. Qed.
Lemma lookup_set_list s k l k' :
  (k < length (freeBlockLists s))%nat →
  freeBlockLists (set_list k l s) !! k' = if decide (k = k') then Some l else freeBlockLists s !! k'.
Proof.
  intros Hk. simpl. case_decide; subst; [by apply list_lookup_insert_eq|].
  by apply list_lookup_insert_ne.
Qed.

Lemma set_list_set_list k x y s : set_list k x (set_list k y s) = set_list k x s.
Proof. unfold set_list, set_lists. simpl. by rewrite list_insert_insert_eq. Qed.
Lemma set_info_set_info i x y s : set_info i x (set_info i y s) = set_info i x s.
Proof. unfold set_info, set_infos. simpl. by rewrite insert_insert_eq. Qed.

Section pop.
  Context (s : da) (k : nat) (b : Z) (l : list Z).
  Hypothesis Hi : da_inv s.
  Hypothesis Hk : freeBlockLists s !! k = Some (b :: l).
Let i := (b - dynAllocStart s) / 4096.
Let s' := popped k b l s.

Lemma pop_facts :
    (k < 9)%nat ∧ 0 ≤ i < npages s ∧ block_size (page_info s i) = sz_of k ∧
    b ∈ blocks_of (dynAllocStart s) i (sz_of k) ∧
    num_of_free_blocks (page_info s i) = free_in_page s i l + 1 ∧
    free_in_page s i l + 1 < 4096 / sz_of k ∧ b ∉ l.
  Proof using Hi Hk.
    pose proof (inv_class _ _ _ Hi Hk) as Hk9.
    destruct (inv_block _ Hi _ _ b Hk) as (i' & Hr & Hbs & Hb); [left|].
    destruct (block_in_page _ _ _ _ Hk9 Hb) as (Heq & _ & _).
    assert (i' = i) as -> by (symmetry; exact Heq).
    destruct (inv_used _ Hi i Hr) as (k' & l' & Hk' & Hbs' & Hn & Hlt).
    { destruct (sz_of_facts k Hk9). lia. }
    assert (k' = k) as -> by (apply sz_of_inj; congruence).
    assert (l' = b :: l) as -> by congruence.
    rewrite free_in_page_cons, decide_True in Hn by done.
    pose proof (inv_nodup _ Hi _ _ Hk) as Hnd. apply NoDup_cons in Hnd as [??].
    split_and!; try done; lia.
  Qed.

Lemma pop_npages : npages s' = npages s.
  Proof. done. Qed.
Lemma pop_block_size j : block_size (page_info s' j) = block_size (page_info s j).
  Proof using Hi Hk.
    destruct pop_facts as (_ & _ & Hbs & _).
    unfold s', popped. rewrite page_info_set_info. fold i. case_decide; [by subst j|done].
  Qed.
Lemma pop_lists k' :
    freeBlockLists s' !! k' = if decide (k = k') then Some l else freeBlockLists s !! k'.
  Proof using Hi Hk.
    apply lookup_set_list. by eapply lookup_lt_Some.
  Qed.

Lemma pop_inv : da_inv s'.
  Proof using Hi Hk.
    destruct pop_facts as (Hk9 & Hr & Hbs & Hb & Hn & Hlt & Hbl).
    pose proof (inv_nodup _ Hi _ _ Hk) as Hnd. apply NoDup_cons in Hnd as [_ Hnd].
    split.
    - apply (inv_rng _ Hi).
    - simpl. rewrite length_insert. apply (inv_len _ Hi).
    - intros k' l'. rewrite pop_lists. case_decide; [naive_solver|]. apply (inv_nodup _ Hi).
    - intros k' l' b'. rewrite pop_lists. intros Hl' Hb'. setoid_rewrite pop_block_size.
      case_decide as Hkk; [injection Hl' as <-; subst k'|by eapply (inv_block _ Hi)].
      eapply (inv_block _ Hi); [done|by right].
    - destruct (inv_pages _ Hi) as [? Hp]. split; [done|]. intros j. rewrite pop_block_size.
      apply Hp.
    - intros j Hj. rewrite pop_block_size. intros Hj0.
      destruct (inv_used _ Hi j Hj Hj0) as (k' & l' & Hl' & Hbs' & Hn' & Hlt').
      change (free_in_page s') with (free_in_page s).
      unfold s', popped. rewrite page_info_set_info. fold i. case_decide as Hij.
      + subst j. exists k, l. rewrite pop_lists, decide_True by done. simpl.
        split_and!; [done|congruence|lia..].
      + exists k', (if decide (k = k') then l else l'). rewrite pop_lists.
        case_decide; [subst k'|by split_and!].
        assert (l' = b :: l) as -> by congruence.
        rewrite free_in_page_cons, decide_False in Hn' by (fold i; done).
        change (page_info (set_list k l s) j) with (page_info s j). split_and!; try done; lia.
  Qed.

Lemma pop_allocated b' sz' :
    allocated s' b' sz' ↔ allocated s b' sz' ∨ b' = b ∧ sz' = sz_of k.
  Proof using Hi Hk.
    destruct pop_facts as (Hk9 & Hr & Hbs & Hb & Hn & Hlt & Hbl).
    unfold allocated. setoid_rewrite pop_block_size. setoid_rewrite pop_lists.
    rewrite pop_npages. simpl. split.
    - intros (j & k' & l' & Hj & Hl' & Hbs' & -> & Hb' & Hnb').
      case_decide; [subst k'|left; by exists j, k', l'].
      injection Hl' as <-. destruct (decide (b' = b)) as [->|]; [by right|].
      left. exists j, k, (b :: l). split_and!; try done; try lia; set_solver.
    - intros [(j & k' & l' & Hj & Hl' & Hbs' & -> & Hb' & Hnb')|[-> ->]].
      + exists j, k'. destruct (decide (k = k')) as [<-|]; [|by eauto 10].
        exists l. assert (l' = b :: l) as -> by congruence. set_solver.
      + exists i, k, l. by rewrite decide_True.
  Qed.
Lemma pop_fresh sz' : ¬ allocated s b sz'.
  Proof using Hi Hk.
    destruct pop_facts as (Hk9 & Hr & Hbs & Hb & Hn & Hlt & Hbl).
    intros (j & k' & l' & Hj & Hl' & Hbs' & -> & Hb' & Hnb').
    pose proof (inv_class _ _ _ Hi Hl') as Hk9'.
    destruct (block_in_page _ _ _ _ Hk9' Hb') as (Hj' & _). fold i in Hj'. subst j.
    assert (k' = k) as -> by (apply sz_of_inj; congruence). set_solver.
  Qed.
End pop.

(** ** Dividing a free page into blocks and taking the first *)
Definition carved (k : nat) (p : Z) (ps : list Z) (s : da) : da :=
  set_info p (PI (sz_of k) (4096 / sz_of k - 1))
    (set_list k (tail (blocks_of (dynAllocStart s) p (sz_of k))) (set_free_pages ps s)).

Lemma blocks_cons start i k : (k < 9)%nat →
  blocks_of start i (sz_of k) =
  (start + i * 4096) :: tail (blocks_of start i (sz_of k)).
Proof.
  intros Hk. destruct (sz_of_facts k Hk) as (? & ? & ?). unfold blocks_of.
  rewrite (seqZ_cons 0) by lia. simpl. f_equal. lia.
Qed.
Lemma free_in_page_all s i l :
  (∀ b, b ∈ l → (b - dynAllocStart s) / 4096 = i) → free_in_page s i l = Z.of_nat (length l).
Proof.
  unfold free_in_page. induction l as [|b l IH]; intros Hl; [done|].
  rewrite filter_cons_True by (apply Hl; left). simpl.
  rewrite !Nat2Z.inj_succ, IH; [done|]. intros. apply Hl. by right.
Qed.
Lemma free_in_page_none s i l :
  (∀ b, b ∈ l → (b - dynAllocStart s) / 4096 ≠ i) → free_in_page s i l = 0.
Proof.
  unfold free_in_page. induction l as [|b l IH]; intros Hl; [done|].
  rewrite filter_cons_False by (apply Hl; left). apply IH. intros. apply Hl. by right.
Qed.

Section carve.
  Context (s : da) (k : nat) (p : Z) (ps : list Z).
  Hypothesis Hi : da_inv s.
  Hypothesis Hk : freeBlockLists s !! k = Some [].
  Hypothesis Hp : freePagesList s = p :: ps.
Let s' := carved k p ps s.
Let rest := tail (blocks_of (dynAllocStart s) p (sz_of k)).

Let b0 := dynAllocStart s + p * 4096.

Lemma carve_facts :
    (k < 9)%nat ∧ 0 ≤ p < npages s ∧ block_size (page_info s p) = 0 ∧ p ∉ ps ∧ NoDup ps ∧
    NoDup rest ∧ b0 ∉ rest ∧ (∀ b, b ∈ blocks_of (dynAllocStart s) p (sz_of k) ↔ b = b0 ∨ b ∈ rest) ∧
    free_in_page s p rest = 4096 / sz_of k - 1 ∧ (∀ j, j ≠ p → free_in_page s j rest = 0).
  Proof using Hi Hk Hp.
    pose proof (inv_class _ _ _ Hi Hk) as Hk9. destruct (inv_pages _ Hi) as [Hnd Hin].
    destruct (sz_of_facts k Hk9) as (? & ? & ?).
    pose proof (blocks_cons (dynAllocStart s) p k Hk9) as Hbc. fold b0 rest in Hbc.
    pose proof (NoDup_blocks (dynAllocStart s) p (sz_of k) ltac:(lia)) as Hndb.
    rewrite Hbc, NoDup_cons in Hndb. destruct Hndb as [Hb0 Hndr].
    rewrite Hp in Hnd, Hin. apply NoDup_cons in Hnd as [Hpps Hnd].
    destruct (proj1 (Hin p)) as [Hr Hp0]; [left|].
    assert (Hpage : ∀ b, b ∈ rest → (b - dynAllocStart s) / 4096 = p).
    { intros b Hb. apply (block_in_page _ _ k); [done|]. rewrite Hbc. by right. }
    pose proof (length_blocks (dynAllocStart s) p k Hk9) as Hlen. rewrite Hbc in Hlen. simpl in Hlen.
    split_and!; try done; try lia.
    - intros b. rewrite Hbc. set_solver.
    - rewrite free_in_page_all by done. lia.
    - intros j Hj. apply free_in_page_none. intros b Hb. rewrite Hpage; done.
  Qed.

Lemma carve_info j :
    page_info s' j = if decide (p = j) then PI (sz_of k) (4096 / sz_of k - 1) else page_info s j.
  Proof. unfold s', carved. by rewrite page_info_set_info. Qed.
Lemma carve_lists k' :
    freeBlockLists s' !! k' = if decide (k = k') then Some rest else freeBlockLists s !! k'.
  Proof using Hk. apply (lookup_set_list (set_free_pages ps s)). by eapply (lookup_lt_Some (freeBlockLists s)). Qed.

  (** No page was divided into blocks of this class with all of them live. *)
Lemma carve_other j : 0 ≤ j < npages s → block_size (page_info s j) = sz_of k →
    num_of_free_blocks (page_info s j) = 0.
  Proof using Hi Hk.
    clear Hp b0 rest s'. intros Hj Hbs.
    pose proof (inv_class _ _ _ Hi Hk) as Hk9. destruct (sz_of_facts k Hk9).
    destruct (inv_used _ Hi j Hj) as (k' & l' & Hl' & Hbs' & Hn & _); [lia|].
    assert (k' = k) as -> by (apply sz_of_inj; congruence).
    assert (l' = []) as -> by congruence. done.
  Qed.

Lemma carve_inv : da_inv s'.
  Proof using Hi Hk Hp.
    destruct carve_facts as (Hk9 & Hr & H0 & Hpps & Hnd & Hndr & Hb0 & Hbl & Hfp & Hfj).
    destruct (sz_of_facts k Hk9) as (? & ? & ?).
    split.
    - apply (inv_rng _ Hi).
    - simpl. rewrite length_insert. apply (inv_len _ Hi).
    - intros k' l'. rewrite carve_lists. case_decide; [naive_solver|]. apply (inv_nodup _ Hi).
    - intros k' l' b'. rewrite carve_lists. intros Hl' Hb'. setoid_rewrite carve_info.
      case_decide as Hkk.
      + injection Hl' as <-. subst k'. exists p. rewrite decide_True by done. simpl.
        split_and!; try done; try (apply Hr). apply Hbl. by right.
      + destruct (inv_block _ Hi _ _ _ Hl' Hb') as (j & ? & Hbs & ?).
        exists j. rewrite decide_False; [done|]. intros ->.
        pose proof (inv_class _ _ _ Hi Hl'). destruct (sz_of_facts k'); [done|lia].
    - split; [done|]. intros j. destruct (inv_pages _ Hi) as [_ Hin]. rewrite Hp in Hin.
      change (npages s') with (npages s). rewrite carve_info. case_decide as Hpj; simpl.
      + subst j. split; [done|]. intros [_ ?]. lia.
      + rewrite <- Hin. set_solver.
    - intros j Hj. change (npages s') with (npages s) in Hj.
      change (free_in_page s') with (free_in_page s). rewrite carve_info.
      case_decide as Hpj; simpl.
      + intros _. subst j. exists k, rest. rewrite carve_lists, decide_True by done.
        split_and!; [done..|lia|lia].
      + intros Hj0. destruct (inv_used _ Hi j Hj Hj0) as (k' & l' & Hl' & Hbs & Hn & Hlt).
        exists k', (if decide (k = k') then rest else l'). rewrite carve_lists.
        case_decide; [subst k'|by split_and!]. split_and!; try done.
        rewrite Hfj by done. by apply carve_other.
  Qed.

Lemma carve_fresh sz' : ¬ allocated s b0 sz'.
  Proof using Hi Hk Hp.
    destruct carve_facts as (Hk9 & Hr & H0 & Hpps & Hnd & Hndr & Hb0 & Hbl & Hfp & Hfj).
    intros (j & k' & l' & Hj & Hl' & Hbs' & -> & Hb' & Hnb').
    pose proof (inv_class _ _ _ Hi Hl') as Hk9'. destruct (sz_of_facts k' Hk9').
    destruct (block_in_page _ _ _ _ Hk9' Hb') as (Hj' & _).
    destruct (block_in_page (dynAllocStart s) p k b0) as (Hj'' & _); [done|apply Hbl; by left|].
    assert (j = p) as -> by congruence. lia.
  Qed.

Lemma carve_allocated b' sz' :
    allocated s' b' sz' ↔ allocated s b' sz' ∨ b' = b0 ∧ sz' = sz_of k.
  Proof using Hi Hk Hp.
    destruct carve_facts as (Hk9 & Hr & H0 & Hpps & Hnd & Hndr & Hb0 & Hbl & Hfp & Hfj).
    unfold allocated. setoid_rewrite carve_lists. setoid_rewrite carve_info.
    change (npages s') with (npages s). change (dynAllocStart s') with (dynAllocStart s). split.
    - intros (j & k' & l' & Hj & Hl' & Hbs' & -> & Hb' & Hnb').
      destruct (decide (p = j)) as [<-|]; simpl in *.
      + apply sz_of_inj in Hbs' as <-. rewrite decide_True in Hl' by done. naive_solver.
      + left. destruct (decide (k = k')) as [<-|]; [|by exists j, k', l'].
        exists j, k, []. split_and!; try done; try (apply Hj). apply not_elem_of_nil.
    - intros [(j & k' & l' & Hj & Hl' & Hbs' & -> & Hb' & Hnb')|[-> ->]].
      + exists j, k'. assert (p ≠ j) as Hpj.
        { intros <-. pose proof (inv_class _ _ _ Hi Hl') as Hk9'.
          destruct (sz_of_facts k' Hk9'). lia. }
        rewrite (decide_False (P:=p = j)) by done.
        destruct (decide (k = k')) as [<-|]; [|by exists l'].
        exists rest. split_and!; try done; try (apply Hj).
        intros Hb. assert (b' ∈ blocks_of (dynAllocStart s) p (sz_of k)) as Hb2.
        { apply Hbl. by right. }
        destruct (block_in_page _ _ _ _ Hk9 Hb') as (? & _).
        destruct (block_in_page _ _ _ _ Hk9 Hb2) as (? & _). congruence.
      + exists p, k, rest. rewrite !decide_True by done. simpl.
        split_and!; try done; try (apply Hr). apply Hbl. by left.
  Qed.
End carve.

(** ** Giving one block back *)
Definition pushed (k : nat) (b : Z) (l : list Z) (i : Z) (s : da) : da :=
  set_info i (PI (sz_of k) (num_of_free_blocks (page_info s i) + 1)) (set_list k (b :: l) s).
(** When it was the last live block of its page, the page becomes free. *)
Definition returned (k : nat) (l : list Z) (i : Z) (s : da) : da :=
  set_free_pages (freePagesList s ++ [i])
    (set_info i (PI 0 0)
      (set_list k (filter (λ b, (b - dynAllocStart s) / 4096 ≠ i) l) s)).

Lemma NoDup_full {A} (F B : list A) :
  NoDup F → (∀ x, x ∈ F → x ∈ B) → (length B ≤ length F)%nat → ∀ x, x ∈ B → x ∈ F.
Proof.
  intros HF Hsub Hlen x Hx.
  assert (Hs : F ⊆+ B) by by apply NoDup_submseteq.
  by rewrite (submseteq_length_Permutation _ _ Hs Hlen).
Qed.

Section push.
  Context (s : da) (k : nat) (b : Z) (l : list Z) (i : Z).
  Hypothesis Hi : da_inv s.
  Hypothesis Hk : freeBlockLists s !! k = Some l.
  Hypothesis Hr : 0 ≤ i < npages s.
  Hypothesis Hbs : block_size (page_info s i) = sz_of k.
  Hypothesis Hb : b ∈ blocks_of (dynAllocStart s) i (sz_of k).
  Hypothesis Hbl : b ∉ l.
  Notation nf := (num_of_free_blocks (page_info s i)).

Lemma push_facts :
    (k < 9)%nat ∧ NoDup l ∧ nf = free_in_page s i l ∧ nf + 1 ≤ 4096 / sz_of k ∧
    (b - dynAllocStart s) / 4096 = i.
  Proof using Hi Hk Hr Hbs Hb.
    pose proof (inv_class _ _ _ Hi Hk) as Hk9. destruct (sz_of_facts k Hk9).
    destruct (inv_used _ Hi i Hr) as (k' & l' & Hl' & Hbs' & Hn & Hlt); [lia|].
    assert (k' = k) as -> by (apply sz_of_inj; congruence).
    assert (l' = l) as -> by congruence.
    split_and!; [done|by apply (inv_nodup _ Hi k)|done|lia|].
    by apply (block_in_page _ _ k).
  Qed.

  (** Where a free block of this class lies. *)
Lemma push_home b' : b' ∈ l →
    ∃ j, 0 ≤ j < npages s ∧ block_size (page_info s j) = sz_of k ∧
         b' ∈ blocks_of (dynAllocStart s) j (sz_of k) ∧ (b' - dynAllocStart s) / 4096 = j.
  Proof using Hi Hk.
    intros Hb'. destruct (inv_block _ Hi _ _ _ Hk Hb') as (j & ? & ? & Hj).
    exists j. split_and!; try done; try lia. eapply block_in_page; [|done].
    by eapply inv_class.
  Qed.

  Section open.
    Hypothesis Hopen : nf + 1 < 4096 / sz_of k.
Let s' := pushed k b l i s.

Lemma push_info j :
      page_info s' j = if decide (i = j) then PI (sz_of k) (nf + 1) else page_info s j.
    Proof. unfold s', pushed. by rewrite page_info_set_info. Qed.
Lemma push_size j : block_size (page_info s' j) = block_size (page_info s j).
    Proof using Hbs. rewrite push_info. case_decide; [by subst j|done]. Qed.
Lemma push_lists k' :
      freeBlockLists s' !! k' = if decide (k = k') then Some (b :: l) else freeBlockLists s !! k'.
    Proof using Hk. apply (lookup_set_list s). by eapply lookup_lt_Some. Qed.

Lemma push_inv : da_inv s'.
    Proof using Hi Hk Hr Hbs Hb Hbl Hopen.
      destruct push_facts as (Hk9 & Hnd & Hn & Hle & Hpg).
      split.
      - apply (inv_rng _ Hi).
      - simpl. rewrite length_insert. apply (inv_len _ Hi).
      - intros k' l'. rewrite push_lists. case_decide; [|apply (inv_nodup _ Hi)].
        intros [= <-]. by constructor.
      - intros k' l' b'. rewrite push_lists. intros Hl' Hb'. setoid_rewrite push_size.
        case_decide as Hkk; [injection Hl' as <-; subst k'|by eapply (inv_block _ Hi)].
        apply elem_of_cons in Hb' as [->|Hb']; [by exists i|by eapply (inv_block _ Hi)].
      - destruct (inv_pages _ Hi) as [? Hp]. split; [done|]. intros j. rewrite push_size.
        apply Hp.
      - intros j Hj. change (npages s') with (npages s) in Hj.
        change (free_in_page s') with (free_in_page s). rewrite push_size. intros Hj0.
        destruct (inv_used _ Hi j Hj Hj0) as (k' & l' & Hl' & Hbs' & Hn' & Hlt').
        rewrite push_info. exists k', (if decide (k = k') then b :: l else l').
        rewrite push_lists. destruct (decide (i = j)) as [<-|Hij]; simpl.
        + assert (k' = k) as -> by (apply sz_of_inj; congruence).
          rewrite !decide_True, free_in_page_cons, decide_True by done.
          split_and!; [done|congruence|lia|lia].
        + destruct (decide (k = k')) as [<-|]; [|by split_and!].
          assert (l' = l) as -> by congruence.
          rewrite free_in_page_cons, decide_False by lia. split_and!; try done; lia.
    Qed.

Lemma push_allocated b' sz' : allocated s' b' sz' ↔ allocated s b' sz' ∧ b' ≠ b.
    Proof using Hi Hk Hr Hbs Hb Hbl Hopen.
      destruct push_facts as (Hk9 & Hnd & Hn & Hle & Hpg).
      unfold allocated. setoid_rewrite push_size. setoid_rewrite push_lists.
      change (npages s') with (npages s). change (dynAllocStart s') with (dynAllocStart s). split.
      - intros (j & k' & l' & Hj & Hl' & Hbs' & -> & Hb' & Hnb').
        destruct (decide (k = k')) as [<-|Hkk].
        + injection Hl' as <-. apply not_elem_of_cons in Hnb' as [? ?].
          split; [by exists j, k, l|done].
        + split; [by exists j, k', l'|]. intros ->.
          pose proof (inv_class _ _ _ Hi Hl') as Hk9'.
          destruct (block_in_page _ _ _ _ Hk9' Hb') as (Hj' & _).
          assert (j = i) as -> by congruence. apply Hkk, sz_of_inj. congruence.
      - intros [(j & k' & l' & Hj & Hl' & Hbs' & -> & Hb' & Hnb') Hne].
        exists j, k'. destruct (decide (k = k')) as [<-|Hkk]; [|by exists l'].
        exists (b :: l). split_and!; try done; try (apply Hj). apply not_elem_of_cons.
        split; [done|]. congruence.
    Qed.
  End open.

  Section last.
    Hypothesis Hlast : nf + 1 = 4096 / sz_of k.
Let s' := returned k l i s.
    Notation out := (filter (λ b', (b' - dynAllocStart s) / 4096 ≠ i) l).

Lemma ret_info j :
      page_info s' j = if decide (i = j) then PI 0 0 else page_info s j.
    Proof. apply (page_info_set_info (set_list k out s)). Qed.
Lemma ret_lists k' :
      freeBlockLists s' !! k' = if decide (k = k') then Some out else freeBlockLists s !! k'.
    Proof using Hk. apply (lookup_set_list s). by eapply lookup_lt_Some. Qed.

    (** Every block of the page is free or is the one given back. *)
Lemma ret_full b' : b' ∈ blocks_of (dynAllocStart s) i (sz_of k) → b' = b ∨ b' ∈ l.
    Proof using Hi Hk Hr Hbs Hb Hbl Hlast.
      destruct push_facts as (Hk9 & Hnd & Hn & Hle & Hpg). intros Hb'.
      set (F := filter (λ b, (b - dynAllocStart s) / 4096 = i) (b :: l)).
      assert (b' ∈ F) as HF.
      { apply (NoDup_full F (blocks_of (dynAllocStart s) i (sz_of k))); [..|done].
        - apply NoDup_filter. by constructor.
        - intros x. unfold F. rewrite list_elem_of_filter, elem_of_cons.
          intros [Hx [->|Hxl]]; [done|]. destruct (push_home x Hxl) as (j & _ & _ & ? & ?).
          by assert (j = i) as -> by congruence.
        - pose proof (length_blocks (dynAllocStart s) i k Hk9).
          assert (Z.of_nat (length F) = nf + 1); [|lia].
          unfold F. rewrite filter_cons_True by done. simpl.
          rewrite Hn. unfold free_in_page. lia. }
      unfold F in HF. rewrite list_elem_of_filter, elem_of_cons in HF. naive_solver.
    Qed.

Lemma ret_inv : da_inv s'.
    Proof using Hi Hk Hr Hbs Hb Hbl Hlast.
      destruct push_facts as (Hk9 & Hnd & Hn & Hle & Hpg).
      destruct (sz_of_facts k Hk9) as (? & ? & ?). destruct (inv_pages _ Hi) as [Hnp Hp].
      split.
      - apply (inv_rng _ Hi).
      - simpl. rewrite length_insert. apply (inv_len _ Hi).
      - intros k' l'. rewrite ret_lists. case_decide; [|apply (inv_nodup _ Hi)].
        intros [= <-]. by apply NoDup_filter.
      - intros k' l' b'. rewrite ret_lists. intros Hl' Hb'. setoid_rewrite ret_info.
        assert (∃ lk, freeBlockLists s !! k' = Some lk ∧ b' ∈ lk ∧
                  (k = k' → (b' - dynAllocStart s) / 4096 ≠ i)) as (lk & Hlk & Hbk & Hne).
        { case_decide; [|by exists l']. subst k'. injection Hl' as <-.
          apply list_elem_of_filter in Hb' as [??]. by exists l. }
        destruct (inv_block _ Hi _ _ _ Hlk Hbk) as (j & ? & Hbsj & Hbj). exists j.
        rewrite decide_False; [done|]. intros <-.
        assert (k = k') as Hkk by (apply sz_of_inj; congruence).
        pose proof (inv_class _ _ _ Hi Hlk) as Hk9'.
        destruct (block_in_page _ _ _ _ Hk9' Hbj) as (? & _). by apply (Hne Hkk).
      - simpl. assert (i ∉ freePagesList s) as Hni by (rewrite Hp; lia).
        split.
        + apply NoDup_app. split_and!; [done| |apply NoDup_singleton].
          intros x ? ->%list_elem_of_singleton. done.
        + intros j. rewrite elem_of_app, list_elem_of_singleton, Hp, ret_info.
          change (npages s') with (npages s). case_decide as Hij; simpl; [subst j|naive_solver].
          naive_solver.
      - intros j Hj. change (npages s') with (npages s) in Hj.
        change (free_in_page s') with (free_in_page s). rewrite ret_info.
        case_decide as Hij; [done|]. intros Hj0.
        destruct (inv_used _ Hi j Hj Hj0) as (k' & l' & Hl' & Hbs' & Hn' & Hlt').
        exists k', (if decide (k = k') then out else l'). rewrite ret_lists.
        case_decide; [subst k'|by split_and!]. assert (l' = l) as -> by congruence.
        split_and!; try done. rewrite Hn'. unfold free_in_page. f_equal.
        rewrite list_filter_filter. f_equal. apply list_filter_iff. naive_solver.
    Qed.

Lemma ret_allocated b' sz' : allocated s' b' sz' ↔ allocated s b' sz' ∧ b' ≠ b.
    Proof using Hi Hk Hr Hbs Hb Hbl Hlast.
      destruct push_facts as (Hk9 & Hnd & Hn & Hle & Hpg).
      destruct (sz_of_facts k Hk9) as (? & ? & ?).
      unfold allocated. setoid_rewrite ret_lists. setoid_rewrite ret_info.
      change (npages s') with (npages s). change (dynAllocStart s') with (dynAllocStart s). split.
      - intros (j & k' & l' & Hj & Hl' & Hbs' & -> & Hb' & Hnb').
        assert ((k' < 9)%nat) as Hk9'.
        { destruct (decide (k = k')) as [<-|]; [done|by eapply inv_class]. }
        destruct (sz_of_facts k' Hk9') as (? & ? & ?).
        destruct (block_in_page _ _ _ _ Hk9' Hb') as (Hj' & _).
        destruct (decide (i = j)) as [<-|Hij]; simpl in *; [lia|].
        split; [|congruence]. destruct (decide (k = k')) as [<-|]; [|by exists j, k', l'].
        exists j, k, l. split_and!; try done; try (apply Hj). intros Hb'l. injection Hl' as <-.
        apply Hnb', list_elem_of_filter. split; [congruence|done].
      - intros [(j & k' & l' & Hj & Hl' & Hbs' & -> & Hb' & Hnb') Hne].
        exists j, k'. destruct (decide (i = j)) as [<-|Hij].
        + exfalso. assert (k' = k) as -> by (apply sz_of_inj; congruence).
          assert (l' = l) as -> by congruence. destruct (ret_full b' Hb'); done.
        + destruct (decide (k = k')) as [<-|]; [|by exists l'].
          exists out. split_and!; try done; try (apply Hj).
          rewrite list_elem_of_filter. naive_solver.
    Qed.
  End last.
End push.

(** ** The code computes these steps *)
Section code_steps.
  Context {E : Type} `{PageSource E}.
  Implicit Types (s : da) (e : E).

Lemma size_class_from fuel k size :
    (k < 9)%nat → (9 - k < fuel)%nat → size ≤ 2048 →
    (∀ k', (k' < k)%nat → sz_of k' < size) →
    ∃ k', (k' < 9)%nat ∧
      size_class fuel (Z.of_nat k + 3) (sz_of k) size = Some (Z.of_nat k' + 3, sz_of k') ∧
      size ≤ sz_of k' ∧ ∀ k'', (k'' < k')%nat → sz_of k'' < size.
  Proof.
    revert k. induction fuel as [|fuel IH]; intros k Hk Hf Hsz Hlow; [lia|]. simpl.
    case_decide as Hc.
    - assert (k ≠ 8%nat) as Hk8 by (intros ->; change (sz_of 8) with 2048 in Hc; lia).
      replace (Z.of_nat k + 3 + 1) with (Z.of_nat (S k) + 3) by lia.
      rewrite Z.shiftl_1_l. apply (IH (S k)); [lia..|]. intros k' Hk'.
      destruct (decide (k' = k)) as [->|]; [lia|]. apply Hlow. lia.
    - exists k. split_and!; try done. unfold LOG2_MAX_SIZE in Hc. lia.
  Qed.
  (** The size class of a request: the smallest power of two that holds it. *)
Lemma size_class_spec size :
    0 < size ≤ 2048 →
    ∃ k, (k < 9)%nat ∧
      size_class 10 LOG2_MIN_SIZE (Z.shiftl 1 LOG2_MIN_SIZE) size = Some (Z.of_nat k + 3, sz_of k) ∧
      size ≤ sz_of k ∧ ∀ k', (k' < k)%nat → sz_of k' < size.
  Proof. intros. apply (size_class_from 10 0); lia. Qed.

Lemma get_list_run k l s e :
    freeBlockLists s !! k = Some l → get_list (Z.of_nat k) (s, e) = Ok l (s, e).
  Proof.
    intros Hk. unfold get_list, rd, gets, mbind, M_bind. simpl.
    rewrite decide_True, Nat2Z.id by lia. by rewrite Hk.
  Qed.
Lemma put_list_run k l s e : put_list (Z.of_nat k) l (s, e) = Ok tt (set_list k l s, e).
  Proof. unfold put_list, upd, modify, set_list. simpl. by rewrite Nat2Z.id. Qed.
Lemma get_info_run i s e : 0 ≤ i < 8192 → get_info i (s, e) = Ok (page_info s i) (s, e).
  Proof. intros. unfold get_info. by rewrite decide_True. Qed.
Lemma put_info_run i p s e : 0 ≤ i < 8192 → put_info i p (s, e) = Ok tt (set_info i p s, e).
  Proof. intros. unfold put_info. by rewrite decide_True. Qed.
Lemma to_page_va_run s e p :
    0 ≤ p < 8192 → 0 ≤ dynAllocStart s + p * 4096 < 4294967296 →
    to_page_va p (s, e) = Ok (dynAllocStart s + p * 4096) (s, e).
  Proof.
    intros Hp Hr. unfold to_page_va. rewrite bool_decide_true by done.
    unfold mbind, M_bind, rd, gets, mret, M_ret, PGSHIFT. simpl.
    by rewrite Z.shiftl_mul_pow2, w32_small by lia.
  Qed.

  (** The index of the page of an address in the region. *)
Lemma page_idx_run s b :
    da_inv s → dynAllocStart s ≤ b < dynAllocEnd s →
    w32 (b - dynAllocStart s) / PAGE_SIZE = (b - dynAllocStart s) / 4096 ∧
    0 ≤ (b - dynAllocStart s) / 4096 < npages s.
  Proof.
    intros Hi Hb. pose proof (inv_rng _ Hi) as (? & ? & ? & ? & ?).
    rewrite w32_small by lia. split; [done|]. split; [apply Z.div_pos; lia|].
    apply Z.div_lt_upper_bound; lia.
  Qed.

Lemma take_block_run s e k b l :
    da_inv s → freeBlockLists s !! k = Some (b :: l) →
    take_block (Z.of_nat k) b (s, e) = Ok b (popped k b l s, e).
  Proof.
    intros Hi Hk. destruct (pop_facts s k b l Hi Hk) as (Hk9 & Hr & Hbs & Hb & Hn & Hlt & Hbl).
    pose proof (inv_rng _ Hi) as (? & ? & ? & ? & ?).
    destruct (block_in_page _ _ _ _ Hk9 Hb) as (_ & ? & ?). destruct (sz_of_facts k Hk9).
    destruct (page_idx_run s b Hi) as [Hpi _]; [lia|].
    assert (Hi32 : i32 ((b - dynAllocStart s) / 4096) = (b - dynAllocStart s) / 4096).
    { apply i32_small. lia. }
    unfold take_block. erewrite bind_Ok by by apply get_list_run.
    erewrite bind_Ok by by apply lq_remove_hd. erewrite bind_Ok by apply put_list_run.
    erewrite bind_Ok by reflexivity. simpl. rewrite Hpi, Hi32.
    erewrite bind_Ok by (apply get_info_run; lia).
    erewrite bind_Ok by (apply put_info_run; lia).
    unfold mret, M_ret. unfold popped. f_equal. f_equal.
    change (page_info (set_list _ _ s)) with (page_info s). rewrite Hbs, w16_small.
    - done.
    - pose proof (free_in_page_nonneg s ((b - dynAllocStart s) / 4096) l). lia.
  Qed.

  (** The classes from [k] on: the first non-empty one gives its first block. *)
Lemma take_bigger_run s e m k :
    da_inv s → (k + m = 9)%nat →
    (∃ k' b l, (k ≤ k')%nat ∧ freeBlockLists s !! k' = Some (b :: l) ∧
       take_bigger (seqZ (Z.of_nat k) (Z.of_nat m)) (s, e) = Ok b (popped k' b l s, e)) ∨
    ((∀ k', (k ≤ k' < 9)%nat → freeBlockLists s !! k' = Some []) ∧
     take_bigger (seqZ (Z.of_nat k) (Z.of_nat m)) (s, e) = Panic (s, e)).
  Proof.
    intros Hi. revert k. induction m as [|m IH]; intros k Hkm.
    - right. split; [lia|done].
    - destruct (lookup_lt_is_Some_2 (freeBlockLists s) k) as [l Hl].
      { rewrite (inv_len _ Hi). lia. }
      rewrite seqZ_cons by lia. simpl.
      rewrite (bind_Ok _ _ _ _ _ (get_list_run _ _ _ e Hl)).
      destruct l as [|b l].
      + replace (Z.succ (Z.of_nat k)) with (Z.of_nat (S k)) by lia.
        replace (Z.pred (Z.of_nat (S m))) with (Z.of_nat m) by lia.
        destruct (IH (S k)) as [(k' & b & l & ? & ? & ?)|[Hall ?]]; [lia| |].
        * left. exists k', b, l. split; [lia|done].
        * right. split; [|done]. intros k' ?. destruct (decide (k' = k)) as [->|]; [done|].
          apply Hall. lia.
      + left. exists k, b, l. split; [done|]. split; [done|]. by apply take_block_run.
  Qed.

  (** Threading the blocks of a new page onto the (empty) free list. *)
Lemma carve_loop s e k acc start sz js :
    freeBlockLists s !! k = Some acc →
    (∀ j, j ∈ js → 0 < start + j * sz < 4294967296) →
    NoDup (acc ++ ((λ j, start + j * sz) <$> js)) →
    mfor js (λ j,
      let b := w32 (start + j * sz) in
      assert_ (bool_decide (b ≠ NULL)) ;;
      l ← get_list (Z.of_nat k);
      l' ← lq_insert_tail b l;
      put_list (Z.of_nat k) l') (s, e) =
    Ok tt (set_list k (acc ++ ((λ j, start + j * sz) <$> js)) s, e).
  Proof.
    revert s acc. induction js as [|j js IH]; intros s acc Hk Hr Hnd; simpl.
    - rewrite app_nil_r. unfold mret, M_ret, set_list. f_equal. f_equal.
      rewrite list_insert_id by done. by destruct s.
    - assert (0 < start + j * sz < 4294967296) by (apply Hr; left).
      rewrite fmap_cons in Hnd. cbv zeta.
      assert (start + j * sz ∉ acc).
      { rewrite <- Permutation_middle in Hnd. apply NoDup_cons in Hnd as [Hn _]. set_solver. }
      rewrite w32_small by lia. rewrite bool_decide_true by (unfold NULL; lia).
      erewrite bind_Ok; [cbv zeta in IH; rewrite (IH (set_list k (acc ++ [start + j * sz]) s)
        (acc ++ [start + j * sz]))|].
      + rewrite set_list_set_list. by rewrite <- app_assoc.
      + rewrite lookup_set_list, decide_True; [done..|]. by eapply lookup_lt_Some.
      + intros. apply Hr. by right.
      + by rewrite <- app_assoc.
      + erewrite bind_Ok by reflexivity. erewrite bind_Ok by by apply get_list_run.
        erewrite bind_Ok by by apply lq_insert_tail_run. apply put_list_run.
  Qed.
End code_steps.

Section alloc_run.
  Context {E : Type} `{PageSource E}.
  Implicit Types (s : da) (e : E).

  (** The class of a request, and the state of its free list, fix the path. *)
Lemma alloc_block_unfold s e size k l :
    0 < size ≤ 2048 → (k < 9)%nat → freeBlockLists s !! k = Some l →
    size_class 10 LOG2_MIN_SIZE (Z.shiftl 1 LOG2_MIN_SIZE) size = Some (Z.of_nat k + 3, sz_of k) →
    alloc_block size (s, e) =
    match l with
    | blk :: _ => take_block (Z.of_nat k) blk (s, e)
    | [] =>
      match freePagesList s with
      | pagehead :: _ =>
        (fp' ← lq_remove pagehead (freePagesList s);
         upd (set_free_pages fp') ;;
         page_va ← to_page_va pagehead;
         _ ← env (ps_get_page page_va);
         let n := w16 (PAGE_SIZE / sz_of k) in
         put_info pagehead (PI (w16 (sz_of k)) n) ;;
         mfor (seqZ 0 n) (λ i,
           let b := w32 (page_va + i * sz_of k) in
           assert_ (bool_decide (b ≠ NULL)) ;;
           l ← get_list (Z.of_nat k);
           l' ← lq_insert_tail b l;
           put_list (Z.of_nat k) l') ;;
         l ← get_list (Z.of_nat k);
         alloc_blk ← unwrap (head l);
         l' ← lq_remove alloc_blk l;
         put_list (Z.of_nat k) l' ;;
         p ← get_info pagehead;
         put_info pagehead (PI (block_size p) (w16 (num_of_free_blocks p - 1))) ;;
         env (modify (ps_memset alloc_blk 0 (sz_of k))) ;;
         mret alloc_blk) (s, e)
      | [] => take_bigger (seqZ (Z.of_nat (S k)) (Z.of_nat (8 - k))) (s, e)
      end
    end.
  Proof.
    intros Hsz Hk Hl Hc. unfold alloc_block.
    rewrite bool_decide_true by (change DYN_ALLOC_MAX_BLOCK_SIZE with 2048; lia).
    erewrite bind_Ok by reflexivity. rewrite decide_False by lia. rewrite Hc.
    rewrite decide_False by (unfold LOG2_MAX_SIZE; lia).
    replace (Z.of_nat k + 3 - LOG2_MIN_SIZE) with (Z.of_nat k) by (unfold LOG2_MIN_SIZE; lia).
    rewrite (bind_Ok _ _ _ _ _ (get_list_run _ _ _ e Hl)).
    destruct l; [|done]. erewrite bind_Ok by reflexivity. simpl.
    destruct (freePagesList s); [|done]. f_equal. f_equal.
    - lia.
    - unfold LOG2_MAX_SIZE, LOG2_MIN_SIZE. lia.
  Qed.

Lemma alloc_carve_run s e size k p ps :
    da_inv s → 0 < size ≤ 2048 → (k < 9)%nat → freeBlockLists s !! k = Some [] →
    size_class 10 LOG2_MIN_SIZE (Z.shiftl 1 LOG2_MIN_SIZE) size = Some (Z.of_nat k + 3, sz_of k) →
    freePagesList s = p :: ps →
    let va := dynAllocStart s + p * 4096 in
    alloc_block size (s, e) =
    match ps_get_page va e with
    | Ok _ e1 => Ok va (carved k p ps s, ps_memset va 0 (sz_of k) e1)
    | Panic e1 => Panic (set_free_pages ps s, e1)
    | Undef => Undef
    | NoFuel => NoFuel
    end.
  Proof.
    intros Hi Hsz Hk9 Hk Hc Hp va.
    destruct (carve_facts s k p ps Hi Hk Hp) as (_ & Hr & H0 & Hpps & Hnd & Hndr & Hb0 & Hbl & _).
    destruct (sz_of_facts k Hk9) as (? & ? & ?). pose proof (inv_rng _ Hi) as (? & ? & ? & ? & ?).
    rewrite (alloc_block_unfold s e size k []) by done. rewrite Hp.
    erewrite bind_Ok by by apply lq_remove_hd. erewrite bind_Ok by reflexivity. simpl.
    set (s1 := set_free_pages ps s).
    erewrite bind_Ok by (apply (to_page_va_run s1); [lia|simpl; lia]).
    change (dynAllocStart s1 + p * 4096) with va.
    destruct (ps_get_page va e) as [r e1|e1| |] eqn:Hgp;
      [|by unfold env, zoom, mbind, M_bind; simpl; rewrite Hgp..].
    erewrite bind_Ok by (unfold env, zoom; simpl; rewrite Hgp; reflexivity).
    cbv zeta. unfold PAGE_SIZE. rewrite !w16_small by lia. simpl.
    erewrite bind_Ok by (apply put_info_run; lia).
    set (s2 := set_info p (PI (sz_of k) (4096 / sz_of k)) s1).
    erewrite bind_Ok.
    2:{ apply (carve_loop s2 e1 k [] va (sz_of k)); [done| |].
        - intros j Hj%elem_of_seqZ. unfold va. nia.
        - apply (NoDup_blocks (dynAllocStart s) p). lia. }
    simpl. change ((λ j, va + j * sz_of k) <$> seqZ 0 (4096 / sz_of k))
      with (blocks_of (dynAllocStart s) p (sz_of k)).
    rewrite blocks_cons by done. fold va.
    set (rest := tail (blocks_of (dynAllocStart s) p (sz_of k))) in *.
    assert (Hlen : (k < length (freeBlockLists s2))%nat) by (apply (lookup_lt_Some _ _ _ Hk)).
    assert (Hget : freeBlockLists (set_list k (va :: rest) s2) !! k = Some (va :: rest))
      by (by rewrite lookup_set_list, decide_True).
    rewrite (bind_Ok _ _ _ _ _ (get_list_run k _ _ e1 Hget)).
    simpl. erewrite bind_Ok by reflexivity.
    erewrite bind_Ok by by apply lq_remove_hd.
    erewrite bind_Ok by apply put_list_run. rewrite set_list_set_list.
    erewrite bind_Ok by (apply get_info_run; lia).
    change (page_info (set_list k rest s2) p) with (page_info (set_info p (PI (sz_of k) (4096 / sz_of k)) s1) p).
    rewrite page_info_set_info, decide_True by done. simpl. rewrite w16_small by lia.
    erewrite bind_Ok by (apply put_info_run; lia).
    erewrite bind_Ok by (unfold env, zoom, modify; reflexivity). simpl.
    unfold mret, M_ret. f_equal. f_equal. unfold s2, s1, carved, set_info, set_list, set_infos, set_lists.
    simpl. by rewrite insert_insert_eq.
  Qed.

  (** The path is decided by the free lists and the free pages alone; a
      successful run through a new page needs the page source. *)
Lemma alloc_block_cases s e size :
    da_inv s → 0 < size ≤ 2048 →
    ∃ k, (k < 9)%nat ∧ size ≤ sz_of k ∧ (∀ k', (k' < k)%nat → sz_of k' < size) ∧
    ((∃ k' b l, (k ≤ k')%nat ∧ freeBlockLists s !! k' = Some (b :: l) ∧
        (k' = k ∨ freePagesList s = []) ∧
        alloc_block size (s, e) = Ok b (popped k' b l s, e)) ∨
     (∃ p ps, freeBlockLists s !! k = Some [] ∧ freePagesList s = p :: ps ∧
        let va := dynAllocStart s + p * 4096 in
        alloc_block size (s, e) =
        match ps_get_page va e with
        | Ok _ e1 => Ok va (carved k p ps s, ps_memset va 0 (sz_of k) e1)
        | Panic e1 => Panic (set_free_pages ps s, e1)
        | Undef => Undef
        | NoFuel => NoFuel
        end) ∨
     ((∀ k', (k ≤ k' < 9)%nat → freeBlockLists s !! k' = Some []) ∧ freePagesList s = [] ∧
        alloc_block size (s, e) = Panic (s, e))).
  Proof.
    intros Hi Hsz. destruct (size_class_spec size Hsz) as (k & Hk9 & Hc & Hle & Hmin).
    exists k. split_and!; [done..|].
    destruct (lookup_lt_is_Some_2 (freeBlockLists s) k) as [l Hl].
    { rewrite (inv_len _ Hi). lia. }
    destruct l as [|b l].
    - destruct (freePagesList s) as [|p ps] eqn:Hfp.
      + destruct (take_bigger_run s e (8 - k) (S k) Hi) as [(k' & b & l & ? & Hl' & Hrun)|[Hall Hrun]];
          [lia| |].
        * left. exists k', b, l. split_and!; [lia|done|by right|].
          rewrite (alloc_block_unfold s e size k []), Hfp by done. done.
        * right; right. split_and!; [|done|].
          -- intros k' ?. destruct (decide (k' = k)) as [->|]; [done|]. apply Hall. lia.
          -- rewrite (alloc_block_unfold s e size k []), Hfp by done. done.
      + right; left. exists p, ps. split_and!; [done..|]. cbv zeta.
        by eapply alloc_carve_run.
    - left. exists k, b, l. split_and!; [done|done|by left|].
      rewrite (alloc_block_unfold s e size k (b :: l)) by done. by apply take_block_run.
  Qed.
End alloc_run.

Section free_run.
  Context {E : Type} `{PageSource E}.
  Implicit Types (s : da) (e : E).

Lemma log2_loop_spec k : (k < 9)%nat → log2_loop 17 (sz_of k) 0 = Some (Z.of_nat k + 3).
  Proof. intros. do 9 (destruct k as [|k]; [reflexivity|]). lia. Qed.

  (** Unthreading the blocks of a page. *)
Lemma free_loop s e k acc start sz js :
    freeBlockLists s !! k = Some acc → NoDup acc →
    (∀ j, j ∈ js → 0 ≤ start + j * sz < 4294967296 ∧ start + j * sz ∈ acc) →
    NoDup ((λ j, start + j * sz) <$> js) →
    mfor js (λ j,
      let b := w32 (start + j * sz) in
      l ← get_list (Z.of_nat k);
      l' ← lq_remove b l;
      put_list (Z.of_nat k) l') (s, e) =
    Ok tt (set_list k (filter (λ b, b ∉ (λ j, start + j * sz) <$> js) acc) s, e).
  Proof.
    revert s acc. induction js as [|j js IH]; intros s acc Hk Hacc Hr Hnd; simpl.
    - unfold mret, M_ret, set_list. f_equal. f_equal.
      rewrite filter_id by (intros; apply not_elem_of_nil). rewrite list_insert_id by done. by destruct s.
    - destruct (Hr j) as [Hj Hin]; [by left|]. cbv zeta. rewrite w32_small by lia.
      rewrite fmap_cons, NoDup_cons in Hnd. destruct Hnd as [Hjn Hnd].
      erewrite bind_Ok; [cbv zeta in IH;
        rewrite (IH (set_list k (l_remove (start + j * sz) acc) s) (l_remove (start + j * sz) acc))|].
      + rewrite set_list_set_list. f_equal. f_equal. f_equal. unfold l_remove.
        rewrite list_filter_filter. apply list_filter_iff. intros x. rewrite not_elem_of_cons. naive_solver.
      + rewrite lookup_set_list, decide_True; [done..|]. by eapply lookup_lt_Some.
      + by apply NoDup_l_remove.
      + intros j' Hj'. destruct (Hr j'); [by right|]. split; [done|]. apply elem_of_l_remove.
        split; [|done]. intros Heq. apply Hjn. rewrite <- Heq. by apply (list_elem_of_fmap_2 (λ j, start + j * sz)).
      + done.
      + erewrite bind_Ok by by apply get_list_run.
        erewrite bind_Ok by by apply lq_remove_run. apply put_list_run.
  Qed.

Lemma free_block_run s e k b l i :
    da_inv s → freeBlockLists s !! k = Some l → 0 ≤ i < npages s →
    block_size (page_info s i) = sz_of k → b ∈ blocks_of (dynAllocStart s) i (sz_of k) →
    b ∉ l →
    free_block b (s, e) =
    if decide (num_of_free_blocks (page_info s i) + 1 = 4096 / sz_of k) then
      match ps_return_page (dynAllocStart s + i * 4096) e with
      | Ok _ e' => Ok tt (returned k l i s, e')
      | Panic e' => Panic (set_info i (PI (sz_of k) (4096 / sz_of k))
          (set_list k (filter (λ b, (b - dynAllocStart s) / 4096 ≠ i) l) s), e')
      | Undef => Undef
      | NoFuel => NoFuel
      end
    else Ok tt (pushed k b l i s, e).
  Proof.
    intros Hi Hk Hr Hbs Hb Hbl.
    destruct (push_facts s k b l i Hi Hk Hr Hbs Hb) as (Hk9 & Hnd & Hn & Hle & Hpg).
    destruct (sz_of_facts k Hk9) as (? & ? & ?). pose proof (inv_rng _ Hi) as (? & ? & ? & ? & ?).
    destruct (block_in_page _ _ _ _ Hk9 Hb) as (_ & ? & ?).
    pose proof (free_in_page_nonneg s i l).
    destruct (page_idx_run s b Hi) as [Hpi _]; [lia|].
    unfold free_block. erewrite bind_Ok by reflexivity. erewrite bind_Ok by reflexivity.
    cbn [fst]. rewrite (bool_decide_true (dynAllocStart s ≤ b ∧ b < dynAllocEnd s)) by lia.
    erewrite bind_Ok by reflexivity.
    rewrite Hpi, Hpg. erewrite bind_Ok by (apply get_info_run; lia).
    rewrite Hbs, log2_loop_spec by done.
    replace (Z.of_nat k + 3 - LOG2_MIN_SIZE) with (Z.of_nat k) by (unfold LOG2_MIN_SIZE; lia).
    rewrite bool_decide_true by (unfold NULL; lia). erewrite bind_Ok by reflexivity.
    erewrite bind_Ok by by apply get_list_run.
    erewrite bind_Ok by by apply lq_insert_head_run.
    erewrite bind_Ok by apply put_list_run. cbv zeta. rewrite w16_small by lia.
    erewrite bind_Ok by (apply put_info_run; lia).
    rewrite decide_False by lia. change PAGE_SIZE with 4096.
    case_decide as Hfull; [|done].
    set (s1 := set_info i _ (set_list k (b :: l) s)).
    set (va := dynAllocStart s + i * 4096).
    erewrite bind_Ok by (apply (to_page_va_run s1); [lia|simpl; lia]).
    change (dynAllocStart s1 + i * 4096) with va.
    assert (Hall : ∀ j, 0 ≤ j < 4096 / sz_of k → va + j * sz_of k ∈ b :: l).
    { intros j Hj. apply elem_of_cons.
      apply (ret_full s k b l i Hi Hk Hr Hbs Hb Hbl Hfull). apply elem_of_blocks. by exists j. }
    erewrite bind_Ok.
    2:{ apply (free_loop s1 e k (b :: l) va (sz_of k)).
        - unfold s1. simpl. apply list_lookup_insert_eq. by eapply lookup_lt_Some.
        - by constructor.
        - intros j Hj%elem_of_seqZ. split; [unfold va; nia|]. apply Hall. lia.
        - apply (NoDup_blocks (dynAllocStart s) i). lia. }
    assert (Hf : filter (λ x, x ∉ (λ j, va + j * sz_of k) <$> seqZ 0 (4096 / sz_of k)) (b :: l) =
                 filter (λ x, (x - dynAllocStart s) / 4096 ≠ i) l).
    { change ((λ j, va + j * sz_of k) <$> seqZ 0 (4096 / sz_of k))
        with (blocks_of (dynAllocStart s) i (sz_of k)).
      rewrite filter_cons_False by naive_solver. apply filter_ext_in.
      intros x Hx. destruct (push_home s k l Hi Hk x Hx) as (j & _ & _ & Hj & Hxj). split.
      - intros Hni Heq. apply Hni. rewrite <- Heq, Hxj. exact Hj.
      - intros Hne Hin. apply Hne. by destruct (block_in_page _ _ _ _ Hk9 Hin). }
    rewrite Hf. clear Hf. unfold s1. rewrite Hfull.
    destruct (ps_return_page va e) as [[] e'|e'| |] eqn:Hret.
    - erewrite bind_Ok by (unfold env, zoom; simpl; rewrite Hret; reflexivity). simpl.
      erewrite bind_Ok by (apply put_info_run; lia). erewrite bind_Ok by reflexivity. simpl.
      assert (Hni : i ∉ freePagesList s).
      { destruct (inv_pages _ Hi) as [_ Hp]. rewrite Hp. lia. }
      erewrite bind_Ok by by apply lq_insert_tail_run. unfold upd, modify. simpl.
      f_equal. f_equal. unfold returned, set_info, set_list, set_infos, set_lists, set_free_pages.
      simpl. by rewrite list_insert_insert_eq, insert_insert_eq.
    - unfold env, zoom, mbind, M_bind. simpl. rewrite Hret. f_equal. f_equal.
      unfold set_info, set_list, set_infos, set_lists. simpl. by rewrite list_insert_insert_eq.
    - unfold env, zoom, mbind, M_bind. simpl. by rewrite Hret.
    - unfold env, zoom, mbind, M_bind. simpl. by rewrite Hret.
  Qed.
End free_run.

(** ** Initialisation *)
Section init_run.
  Context {E : Type} `{PageSource E}.
  Implicit Types (s : da) (e : E).

Lemma init_loop s e m n :
    0 ≤ m → m + Z.of_nat n ≤ 8192 → freePagesList s = seqZ 0 m →
    ∃ s', mfor (seqZ m (Z.of_nat n)) (λ i,
      put_info i (PI 0 0) ;;
      l ← rd freePagesList;
      l' ← lq_insert_tail i l;
      upd (set_free_pages l')) (s, e) = Ok tt (s', e) ∧
    freePagesList s' = seqZ 0 (m + Z.of_nat n) ∧ freeBlockLists s' = freeBlockLists s ∧
    dynAllocStart s' = dynAllocStart s ∧ dynAllocEnd s' = dynAllocEnd s ∧
    (∀ i, page_info s' i = if decide (m ≤ i < m + Z.of_nat n) then PI 0 0 else page_info s i).
  Proof.
    revert m s. induction n as [|n IH]; intros m s Hm Hn Hfp.
    - exists s. split_and!; try done; [by rewrite Z.add_0_r|]. intros i.
      by rewrite decide_False by lia.
    - rewrite seqZ_cons by lia. simpl mfor.
      replace (Z.pred (Z.of_nat (S n))) with (Z.of_nat n) by lia. replace (Z.succ m) with (m + 1) by lia.
      destruct (IH (m + 1) (set_free_pages (seqZ 0 (m + 1)) (set_info m (PI 0 0) s)))
        as (s' & Hrun & Hfp' & Hl & Hs & He & Hpi); [lia..|done|].
      exists s'. split_and!; try done.
      + rewrite <- Hrun. erewrite bind_Ok; [done|]. erewrite bind_Ok by (apply put_info_run; lia).
        erewrite bind_Ok by reflexivity. simpl. rewrite Hfp.
        erewrite bind_Ok by (apply lq_insert_tail_run; rewrite elem_of_seqZ; lia).
        unfold upd, modify. simpl. f_equal. f_equal. f_equal.
        rewrite seqZ_app by lia. done.
      + rewrite Hfp'. f_equal. lia.
      + intros i. rewrite Hpi. change (page_info (set_free_pages ?x ?y) i) with (page_info y i).
        rewrite page_info_set_info. repeat case_decide; done || lia.
  Qed.

Lemma initialize_run s e daStart daEnd n :
    0 < daStart → daEnd = daStart + 4096 * n → 0 ≤ n ≤ 8192 → daStart + 33554432 < 4294967296 →
    ∃ s', initialize_dynamic_allocator daStart daEnd (s, e) = Ok tt (s', e) ∧
      da_inv s' ∧ dynAllocStart s' = daStart ∧ dynAllocEnd s' = daEnd ∧
      freePagesList s' = seqZ 0 n ∧ (∀ b sz, ¬ allocated s' b sz).
  Proof.
    intros Hs He Hn Hmax.
    assert (Htot : w32 (daEnd - daStart) / PAGE_SIZE = n).
    { rewrite w32_small by lia. subst daEnd. replace (daStart + 4096 * n - daStart) with (n * 4096) by lia.
      by apply Z.div_mul. }
    destruct (init_loop (DA (replicate 9 []) [] (pageBlockInfoArr s) daStart daEnd true) e 0 (Z.to_nat n))
      as (s' & Hrun & Hfp & Hfl & Hst & Hen & Hpi); [lia..|done|].
    rewrite Z2Nat.id in Hrun, Hfp by lia. rewrite Z.add_0_l in Hfp. simpl in *.
    assert (Hnp : npages s' = n).
    { unfold npages. rewrite Hst, Hen, He. replace (daStart + 4096 * n - daStart) with (n * 4096) by lia.
      by apply Z.div_mul. }
    assert (Hpz : ∀ i, 0 ≤ i < npages s' → page_info s' i = PI 0 0).
    { intros i Hi. rewrite Hpi, decide_True by lia. done. }
    assert (Hnil : ∀ k l, freeBlockLists s' !! k = Some l → l = []).
    { rewrite Hfl. intros k l Hk. apply (lookup_replicate_1 9 [] l k) in Hk. by destruct Hk. }
    exists s'. split_and!; [| |done..|].
    - unfold initialize_dynamic_allocator. rewrite bool_decide_true; [|].
      2:{ change DYN_ALLOC_MAX_SIZE with 33554432. rewrite w32_small; lia. }
      erewrite bind_Ok by reflexivity. erewrite bind_Ok by reflexivity. cbv zeta.
      rewrite Htot. apply Hrun.
    - split.
      + rewrite Hst, Hen, Hnp. lia.
      + by rewrite Hfl.
      + intros k l Hk. rewrite (Hnil _ _ Hk). constructor.
      + intros k l b Hk Hb. rewrite (Hnil _ _ Hk) in Hb. by apply elem_of_nil in Hb.
      + rewrite Hfp, Hnp. split; [apply NoDup_seqZ|]. intros i. rewrite elem_of_seqZ. split; [|lia].
        intros ?. split; [lia|]. by rewrite Hpz by lia.
      + intros i Hi. by rewrite Hpz.
    - intros b sz (i & k & l & Hi & Hk & Hbs & -> & _). rewrite Hpz in Hbs by done. simpl in Hbs.
      unfold sz_of in Hbs. symmetry in Hbs. apply Z.pow_eq_0 in Hbs; lia.
  Qed.
End init_run.

(** ** The contract of the allocator *)
Section contract.
  Context {E : Type} `{PageSource E}.
  Implicit Types (s : da) (e : E).

Lemma live_apart s b sz b' sz' :
    da_inv s → allocated s b sz → allocated s b' sz' → b ≠ b' →
    b + sz ≤ b' ∨ b' + sz' ≤ b.
  Proof.
    intros Hi (i & k & l & Hr & Hk & Hbs & -> & Hb & Hn) (i' & k' & l' & Hr' & Hk' & Hbs' & -> & Hb' & Hn') Hne.
    pose proof (inv_class _ _ _ Hi Hk) as Hk9. pose proof (inv_class _ _ _ Hi Hk') as Hk9'.
    destruct (decide (i = i')) as [<-|].
    - assert (k' = k) as -> by (apply sz_of_inj; congruence). by eapply blocks_disjoint.
    - pose proof (block_in_page _ _ _ _ Hk9 Hb). pose proof (block_in_page _ _ _ _ Hk9' Hb'). lia.
  Qed.
Lemma allocated_size s b sz sz' : da_inv s → allocated s b sz → allocated s b sz' → sz = sz'.
  Proof.
    intros Hi (i & k & l & Hr & Hk & Hbs & -> & Hb & Hn) (i' & k' & l' & Hr' & Hk' & Hbs' & -> & Hb' & Hn').
    pose proof (inv_class _ _ _ Hi Hk) as Hk9. pose proof (inv_class _ _ _ Hi Hk') as Hk9'.
    pose proof (block_in_page _ _ _ _ Hk9 Hb) as [? _]. pose proof (block_in_page _ _ _ _ Hk9' Hb') as [? _].
    congruence.
  Qed.

  (** A successful allocation adds one block that was not live. *)
Lemma alloc_block_ok s e size b s' e' :
    da_inv s → 0 < size ≤ 2048 → alloc_block size (s, e) = Ok b (s', e') →
    da_inv s' ∧ dynAllocStart s' = dynAllocStart s ∧ dynAllocEnd s' = dynAllocEnd s ∧
    ∃ sz, size ≤ sz ∧ (∀ sz', ¬ allocated s b sz') ∧
          (∀ b' sz', allocated s' b' sz' ↔ allocated s b' sz' ∨ b' = b ∧ sz' = sz).
  Proof.
    intros Hi Hsz Hrun.
    destruct (alloc_block_cases s e size Hi Hsz) as
      (k & Hk9 & Hle & _ & [(k' & b1 & l & Hkk & Hl & _ & Heq)|[(p & ps & Hk & Hp & Heq)|(_ & _ & Heq)]]);
      rewrite Heq in Hrun; [|destruct (ps_get_page _ e); try done|done].
    - injection Hrun as <- <- <-. split_and!; [by apply pop_inv|done..|].
      exists (sz_of k'). split_and!.
      + etrans; [done|]. unfold sz_of. apply Z.pow_le_mono_r; lia.
      + intros sz'. by eapply pop_fresh.
      + intros. by apply pop_allocated.
    - injection Hrun as <- <- <-. split_and!; [by apply carve_inv|done..|].
      exists (sz_of k). split_and!; [done| |].
      + intros sz'. by eapply carve_fresh.
      + intros. by apply carve_allocated.
  Qed.

Lemma free_block_ok s e b sz :
    da_inv s → allocated s b sz →
    (∀ va, dynAllocStart s ≤ va < dynAllocEnd s → ∃ e', ps_return_page va e = Ok tt e') →
    ∃ s' e', free_block b (s, e) = Ok tt (s', e') ∧ da_inv s' ∧
      dynAllocStart s' = dynAllocStart s ∧ dynAllocEnd s' = dynAllocEnd s ∧
      (∀ b' sz', allocated s' b' sz' ↔ allocated s b' sz' ∧ b' ≠ b) ∧
      let i := (b - dynAllocStart s) / 4096 in
      (block_size (page_info s' i) = 0 ∧ ps_return_page (dynAllocStart s + i * 4096) e = Ok tt e' ∨
       block_size (page_info s' i) ≠ 0 ∧ e' = e).
  Proof.
    intros Hi (i & k & l & Hr & Hk & Hbs & -> & Hb & Hn) Hret.
    pose proof (free_block_run s e k b l i Hi Hk Hr Hbs Hb Hn) as Hrun.
    destruct (push_facts s k b l i Hi Hk Hr Hbs Hb) as (Hk9 & _ & _ & Hle & Hpi). rewrite Hpi.
    case_decide as Hfull.
    - destruct (Hret (dynAllocStart s + i * 4096)) as [e' He'].
      { pose proof (inv_rng _ Hi). lia. }
      rewrite He' in Hrun. exists (returned k l i s), e'.
      split_and!; [done|by eapply ret_inv|done..|intros; by eapply ret_allocated|].
      left. split; [|done]. unfold returned. change (page_info (set_free_pages ?x ?y) i) with (page_info y i).
      rewrite page_info_set_info by done. by rewrite decide_True.
    - exists (pushed k b l i s), e.
      split_and!; [done|eapply push_inv; try done; lia|done..|intros; eapply push_allocated; try done; lia|].
      right. split; [|done]. unfold pushed. rewrite page_info_set_info by done. rewrite decide_True by done. cbn.
      destruct (sz_of_facts k Hk9). lia.
  Qed.

  (** A client of the allocator, with the sizes it asked for: the states it can
      reach from the initialisation by allocations that return and by releases
      of blocks it holds. *)
Inductive client : da * E → gmap Z Z → Prop :=
  | client_init s0 e0 st en n σ :
      0 < st → en = st + 4096 * n → 0 ≤ n ≤ 8192 → st + 33554432 < 4294967296 →
      initialize_dynamic_allocator st en (s0, e0) = Ok tt σ → client σ ∅
  | client_alloc σ live size b σ' :
      client σ live → 0 < size ≤ 2048 → alloc_block size σ = Ok b σ' →
      client σ' (<[b := size]> live)
  | client_free σ live b size σ' :
      client σ live → live !! b = Some size → free_block b σ = Ok tt σ' →
      client σ' (delete b live).

Definition holds (s : da) (live : gmap Z Z) : Prop :=
    da_inv s ∧
    (∀ b size, live !! b = Some size → 0 < size ∧ ∃ sz, size ≤ sz ∧ allocated s b sz) ∧
    (∀ b sz, allocated s b sz → is_Some (live !! b)).

  (** What [free_block] does to an allocated block, also when it does not return. *)
Lemma free_block_inv s e b sz s' e' :
    da_inv s → allocated s b sz → free_block b (s, e) = Ok tt (s', e') →
    da_inv s' ∧ ∀ b' sz', allocated s' b' sz' ↔ allocated s b' sz' ∧ b' ≠ b.
  Proof.
    intros Hi (i & k & l & Hr & Hk & Hbs & -> & Hb & Hn) Hrun.
    rewrite (free_block_run s e k b l i Hi Hk Hr Hbs Hb Hn) in Hrun.
    destruct (push_facts s k b l i Hi Hk Hr Hbs Hb) as (Hk9 & _ & _ & Hle & _).
    case_decide as Hfull.
    - destruct (ps_return_page _ e) as [[] e1|?| |]; try done. injection Hrun as <- <-.
      split; [by eapply ret_inv|]. intros. by eapply ret_allocated.
    - injection Hrun as <- <-. split; [eapply push_inv; try done; lia|]. intros.
      eapply push_allocated; try done; lia.
  Qed.

Lemma client_holds σ live : client σ live → holds σ.1 live.
  Proof.
    induction 1 as [s0 e0 st en n [s e] ? ? ? ? Hrun|[s e] live size b [s' e'] _ IH Hsz Hrun
                   |[s e] live b size [s' e'] _ IH Hb Hrun]; simpl in *.
    - destruct (initialize_run s0 e0 st en n) as (s1 & Hrun' & Hi & _ & _ & _ & Hno); [done..|].
      rewrite Hrun' in Hrun. injection Hrun as <- <-. split_and!; [done|naive_solver|].
      intros b sz Ha. by destruct (Hno b sz).
    - destruct IH as (Hi & Hlive & Hall).
      destruct (alloc_block_ok _ _ _ _ _ _ Hi Hsz Hrun) as (Hi' & _ & _ & sz & Hle & Hfr & Hal).
      split_and!; [done| |].
      + intros b' size'. rewrite lookup_insert. case_decide as Hbb.
        * intros [= <-]. split; [lia|]. exists sz. subst. split; [done|]. apply Hal. by right.
        * intros Hb'. destruct (Hlive _ _ Hb') as (? & sz' & ? & ?). split; [done|].
          exists sz'. split; [done|]. apply Hal. by left.
      + intros b' sz' [Ha|[-> _]]%Hal; [|by rewrite lookup_insert_eq].
        rewrite lookup_insert. case_decide; [done|]. by eapply Hall.
    - destruct IH as (Hi & Hlive & Hall).
      destruct (Hlive _ _ Hb) as (_ & sz & _ & Ha).
      destruct (free_block_inv _ _ _ _ _ _ Hi Ha Hrun) as (Hi' & Hal).
      split_and!; [done| |].
      + intros b' size'. rewrite lookup_delete. case_decide; [done|]. intros Hb'.
        destruct (Hlive _ _ Hb') as (? & sz' & ? & ?). split; [done|].
        exists sz'. split; [done|]. by apply Hal.
      + intros b' sz' [Ha' Hne]%Hal. rewrite lookup_delete, decide_False by congruence. eauto.
  Qed.
End contract.

(** ** Properties *)
Section properties.
  Context {E : Type} `{PageSource E}.
  Implicit Types (s : da) (e : E).

Lemma get_block_size_run s e va :
    da_inv s →
    get_block_size va (s, e) =
    Ok (if decide (dynAllocStart s ≤ va < dynAllocEnd s)
        then block_size (page_info s ((va - dynAllocStart s) / 4096)) else 0) (s, e).
  Proof.
    intros Hi. unfold get_block_size. erewrite bind_Ok by reflexivity. erewrite bind_Ok by reflexivity.
    simpl. repeat case_decide; try lia; [done|]. destruct (page_idx_run s va Hi) as [Hp ?]; [lia|].
    pose proof (inv_rng _ Hi). rewrite Hp. erewrite bind_Ok by (apply get_info_run; lia). done.
  Qed.

  (** C7: Over a page source that always provides a page, a request of 1 to
      2048 bytes returns a block, unless every free page is used and every free
      list of the request's class and of the larger classes is empty, in which
      case it panics with nothing changed. The block was not live before, it is
      the only block that became live, it is at least as large as the request,
      lies in the region and overlaps no other live block; while free pages are
      left its size is the smallest size class that holds the request. *)
Theorem alloc_block_correct s e size :
    da_inv s → 0 < size ≤ 2048 →
    (∀ va e, ∃ r e', ps_get_page va e = Ok r e') →
    (freePagesList s = [] ∧ alloc_block size (s, e) = Panic (s, e) ∧
      (∀ k l, freeBlockLists s !! k = Some l → size ≤ sz_of k → l = [])) ∨
    ∃ b s' e' sz, alloc_block size (s, e) = Ok b (s', e') ∧ da_inv s' ∧ size ≤ sz ∧
      dynAllocStart s ≤ b ∧ b + sz ≤ dynAllocEnd s ∧ (∀ sz', ¬ allocated s b sz') ∧
      (∀ b' sz', allocated s' b' sz' ↔ allocated s b' sz' ∨ b' = b ∧ sz' = sz) ∧
      (∀ b' sz', allocated s b' sz' → b + sz ≤ b' ∨ b' + sz' ≤ b) ∧
      (freePagesList s ≠ [] → ∃ k, sz = sz_of k ∧ ∀ k', (k' < k)%nat → sz_of k' < size).
  Proof.
    intros Hi Hsz Hpage.
    destruct (alloc_block_cases s e size Hi Hsz) as
      (k & Hk9 & Hle & Hmin & [(k' & b & l & Hkk & Hl & Hcls & Heq)|[(p & ps & Hk & Hp & Heq)|(Hno & Hfp & Heq)]]).
    - right. pose proof (pop_inv s k' b l Hi Hl) as Hi'.
      pose proof (pop_allocated s k' b l Hi Hl) as Hal. pose proof (pop_fresh s k' b l Hi Hl) as Hfr.
      assert (allocated (popped k' b l s) b (sz_of k')) as Ha by (apply Hal; by right).
      destruct (allocated_range _ _ _ Hi' Ha) as (? & ? & ?).
      exists b, (popped k' b l s), e, (sz_of k'). split_and!; try done.
      + etrans; [done|]. unfold sz_of. apply Z.pow_le_mono_r; lia.
      + intros b' sz' Hb'. apply (live_apart (popped k' b l s)); try done; [apply Hal; by left|].
        intros ->. by eapply Hfr.
      + intros Hne. destruct Hcls as [->|]; [|done]. by exists k.
    - right. cbv zeta in Heq. set (b := dynAllocStart s + p * 4096) in *.
      destruct (Hpage b e) as (r & e1 & Hr). rewrite Hr in Heq.
      pose proof (carve_inv s k p ps Hi Hk Hp) as Hi'.
      pose proof (carve_allocated s k p ps Hi Hk Hp) as Hal. pose proof (carve_fresh s k p ps Hi Hk Hp) as Hfr.
      fold b in Hal, Hfr.
      assert (allocated (carved k p ps s) b (sz_of k)) as Ha by (apply Hal; by right).
      destruct (allocated_range _ _ _ Hi' Ha) as (? & ? & ?).
      exists b, (carved k p ps s), (ps_memset b 0 (sz_of k) e1), (sz_of k). split_and!; try done.
      + intros b' sz' Hb'. apply (live_apart (carved k p ps s)); try done; [apply Hal; by left|].
        intros ->. by eapply Hfr.
      + intros _. by exists k.
    - left. split_and!; [done..|]. intros k' l Hk' Hszk.
      assert (k' < 9)%nat by by eapply inv_class.
      destruct (decide (k' < k)%nat) as [Hlt|]; [specialize (Hmin _ Hlt); lia|].
      specialize (Hno k' ltac:(lia)). congruence.
  Qed.

  (** A request of 0 bytes returns NULL and a request of more than 2048
      bytes panics, and neither changes anything. *)
Theorem alloc_block_edge s e :
    alloc_block 0 (s, e) = Ok NULL (s, e) ∧
    ∀ size, 2048 < size → alloc_block size (s, e) = Panic (s, e).
  Proof.
    split; [done|]. intros size Hs. unfold alloc_block.
    rewrite bool_decide_false by (change DYN_ALLOC_MAX_BLOCK_SIZE with 2048; lia). done.
  Qed.

(** [b] is the only live block of its page. *)
Definition last_of_page s (b : Z) : Prop :=
  ∀ b' sz', allocated s b' sz' → (b' - dynAllocStart s) / 4096 = (b - dynAllocStart s) / 4096 → b' = b.
Lemma free_page_dead s i : da_inv s → 0 ≤ i < npages s →
  block_size (page_info s i) = 0 ↔ ∀ b sz, allocated s b sz → (b - dynAllocStart s) / 4096 ≠ i.
Proof.
  intros Hi Hr. split.
  - intros H0 b sz (j & k & l & Hj & Hl & Hbs & -> & Hb & _) Hbi.
    pose proof (inv_class _ _ _ Hi Hl) as Hk9. destruct (block_in_page _ _ _ _ Hk9 Hb) as [Hji _]. destruct (sz_of_facts k Hk9). subst. lia.
  - intros Hdead. destruct (decide (block_size (page_info s i) = 0)) as [|Hne]; [done|exfalso].
    destruct (inv_used _ Hi i Hr Hne) as (k & l & Hl & Hbs & Hn & Hlt).
    pose proof (inv_class _ _ _ Hi Hl) as Hk9. pose proof (inv_nodup _ Hi _ _ Hl) as Hnd.
    (* some block of the page is not free, hence live *)
    destruct (decide (Forall (.∈ l) (blocks_of (dynAllocStart s) i (sz_of k)))) as [Hf|Hf].
    + assert (Z.of_nat (length (blocks_of (dynAllocStart s) i (sz_of k))) ≤ free_in_page s i l); [|rewrite length_blocks in * by done; lia].
      unfold free_in_page. apply inj_le, submseteq_length, NoDup_submseteq.
      * apply NoDup_blocks. destruct (sz_of_facts k Hk9). lia.
      * intros x Hx. apply list_elem_of_filter. split; [by eapply block_in_page|]. by eapply Forall_forall in Hf.
    + apply not_Forall_Exists, Exists_exists in Hf as (x & Hx & Hnx); [|apply _].
      destruct (block_in_page _ _ _ _ Hk9 Hx) as [Hxi _].
      apply (Hdead x (sz_of k)); [exists i, k, l; split_and!; first [done|lia]|done].
Qed.
  (** C8: Releasing a live block returns, over a page source that takes its
      pages back, preserves the invariant, and ends the life of exactly that
      block. When it was the last live block of its page, exactly that page is
      given back to the page source and is on the list of free pages; else the
      page source is left alone and the page stays in use. *)
Theorem free_block_correct s e b sz :
    da_inv s → allocated s b sz →
    (∀ va, dynAllocStart s ≤ va < dynAllocEnd s → ∃ e', ps_return_page va e = Ok tt e') →
    ∃ s' e', free_block b (s, e) = Ok tt (s', e') ∧ da_inv s' ∧
      (∀ b' sz', allocated s' b' sz' ↔ allocated s b' sz' ∧ b' ≠ b) ∧
      let i := (b - dynAllocStart s) / 4096 in
      (last_of_page s b → ps_return_page (dynAllocStart s + i * 4096) e = Ok tt e' ∧ i ∈ freePagesList s') ∧
      (¬ last_of_page s b → e' = e ∧ i ∉ freePagesList s').
  Proof.
    intros Hi Ha Hret. destruct (free_block_ok s e b sz Hi Ha Hret) as (s' & e' & Hrun & Hi' & Hst & Hen & Hal & Hpage).
    exists s', e'. split_and!; [done..|]. cbv zeta in *. set (i := (b - dynAllocStart s) / 4096) in *.
    destruct (allocated_range _ _ _ Hi Ha) as (? & ? & ?). pose proof (inv_rng _ Hi).
    destruct (page_idx_run s b Hi) as [_ Hr]; [lia|]. fold i in Hr.
    assert (Hr' : 0 ≤ i < npages s') by (unfold npages in *; by rewrite Hst, Hen).
    assert (Hfree : i ∈ freePagesList s' ↔ block_size (page_info s' i) = 0) by (rewrite (proj2 (inv_pages _ Hi') i); tauto).
    assert (Hlast : block_size (page_info s' i) = 0 ↔ last_of_page s b).
    { rewrite (free_page_dead s' i Hi' Hr'), Hst. split.
      - intros Hd b' sz' Ha' Hp. destruct (decide (b' = b)) as [|Hne]; [done|]. by destruct (Hd b' sz' (proj2 (Hal b' sz') (conj Ha' Hne))).
      - intros Hl b' sz' [Ha' Hne]%Hal Hp. by apply Hne, (Hl b' sz'). }
    rewrite Hfree, Hlast. split; intros Hl; destruct Hpage as [[Hz He']|[Hn He']]; tauto.
  Qed.

  (** C9: In every state a client reaches from the initialisation by any
      sequence of allocations and releases, the blocks it holds lie in the
      region and are pairwise disjoint for the sizes it asked for. *)
Theorem client_blocks_disjoint (σ : da * E) live :
    client σ live →
    (∀ b size, live !! b = Some size → dynAllocStart σ.1 ≤ b ∧ b + size ≤ dynAllocEnd σ.1) ∧
    (∀ b size b' size', live !! b = Some size → live !! b' = Some size' → b ≠ b' →
      b + size ≤ b' ∨ b' + size' ≤ b).
  Proof.
    intros (Hi & Hlive & _)%client_holds. simpl in *. split.
    - intros b size Hb. destruct (Hlive _ _ Hb) as (_ & sz & ? & Ha).
      pose proof (allocated_range _ _ _ Hi Ha). lia.
    - intros b size b' size' Hb Hb' Hne.
      destruct (Hlive _ _ Hb) as (_ & sz & ? & Ha). destruct (Hlive _ _ Hb') as (_ & sz' & ? & Ha').
      pose proof (live_apart _ _ _ _ _ Hi Ha Ha' Hne). lia.
  Qed.

  (** [get_block_size] changes nothing, gives the size of a live block for
      every address inside it, and 0 for an address outside the region. *)
Theorem get_block_size_correct s e b sz va :
    da_inv s → allocated s b sz → b ≤ va < b + sz →
    get_block_size va (s, e) = Ok sz (s, e) ∧
    (∀ va', va' < dynAllocStart s ∨ dynAllocEnd s ≤ va' → get_block_size va' (s, e) = Ok 0 (s, e)).
  Proof.
    intros Hi Ha Hva. pose proof (allocated_range _ _ _ Hi Ha) as (? & ? & ?).
    split.
    - rewrite get_block_size_run, decide_True by (done || lia). repeat f_equal.
      destruct Ha as (i & k & l & Hr & Hk & Hbs & -> & Hb & Hn).
      pose proof (block_in_page _ _ _ _ (inv_class _ _ _ Hi Hk) Hb) as (? & ? & ?).
      rewrite <- Hbs. repeat f_equal.
      symmetry. apply (Z.div_unique _ _ _ (va - dynAllocStart s - i * 4096)); lia.
    - intros va' Hva'. rewrite get_block_size_run, decide_False by (done || lia). done.
  Qed.

  (** Initialising any region of at most 8192 whole pages below 4 GB
      returns, establishes the invariant, and leaves every page free and no
      block live, whatever the globals held before. *)
Theorem initialize_correct s e daStart daEnd n :
    0 < daStart → daEnd = daStart + 4096 * n → 0 ≤ n ≤ 8192 → daStart + 33554432 < 4294967296 →
    ∃ s', initialize_dynamic_allocator daStart daEnd (s, e) = Ok tt (s', e) ∧
      da_inv s' ∧ dynAllocStart s' = daStart ∧ dynAllocEnd s' = daEnd ∧
      freePagesList s' = seqZ 0 n ∧ (∀ b sz, ¬ allocated s' b sz).
  Proof. apply initialize_run. Qed.

  (** Allocating and then releasing the block leaves the live blocks as
      they were. *)
Theorem alloc_free_roundtrip s e size b s1 e1 s2 e2 :
    da_inv s → 0 < size ≤ 2048 →
    alloc_block size (s, e) = Ok b (s1, e1) → free_block b (s1, e1) = Ok tt (s2, e2) →
    da_inv s2 ∧ ∀ b' sz', allocated s2 b' sz' ↔ allocated s b' sz'.
  Proof.
    intros Hi Hsz Ha Hf.
    destruct (alloc_block_ok _ _ _ _ _ _ Hi Hsz Ha) as (Hi1 & _ & _ & sz & _ & Hfr & Hal).
    destruct (free_block_inv s1 e1 b sz s2 e2) as [Hi2 Hal2]; [done|apply Hal; by right|done|].
    split; [done|]. intros b' sz'. rewrite Hal2, Hal. split; [naive_solver|].
    intros Hb'. split; [by left|]. intros ->. by eapply Hfr.
  Qed.
End properties.

(** ** Witnesses: a region of two pages at the kernel heap's start *)
Definition heap_start : Z := 4127195136. (* 0xF6000000 *)
Definition heap_end : Z := heap_start + 8192.
Definition state_of {S A} (d : S) (r : result S A) : S :=
  match r with Ok _ s => s | _ => d end.
Definition w_init : da * list Z :=
  state_of (da_zero, []) (initialize_dynamic_allocator heap_start heap_end (da_zero, [])).
Definition w_one : da * list Z := state_of w_init (alloc_block 100 w_init).

Lemma w_init_client : client w_init ∅.
Proof. apply (client_init da_zero [] heap_start heap_end 2); by vm_compute. Qed.
Lemma w_init_inv : da_inv w_init.1.
Proof. apply (client_holds w_init ∅ w_init_client). Qed.
Lemma w_one_client : client w_one {[heap_start := 100]}.
Proof. apply (client_alloc w_init ∅); [apply w_init_client|by vm_compute..]. Qed.
Lemma w_one_inv : da_inv w_one.1.
Proof. apply (client_holds _ _ w_one_client). Qed.
Lemma w_one_allocated : allocated w_one.1 heap_start 128.
Proof.
  exists 0, 4%nat, (tail (blocks_of heap_start 0 128)).
  split_and!; try by vm_compute.
  - apply elem_of_blocks. exists 0. by vm_compute.
  - by apply (bool_decide_eq_false_1 (heap_start ∈ tail (blocks_of heap_start 0 128))).
Qed.

Lemma alloc_block_correct_witness :
  (freePagesList w_init.1 = [] ∧ alloc_block 100 w_init = Panic w_init ∧
    (∀ k l, freeBlockLists w_init.1 !! k = Some l → 100 ≤ sz_of k → l = [])) ∨
  ∃ b s' e' sz, alloc_block 100 w_init = Ok b (s', e') ∧ da_inv s' ∧ 100 ≤ sz ∧
    dynAllocStart w_init.1 ≤ b ∧ b + sz ≤ dynAllocEnd w_init.1 ∧ (∀ sz', ¬ allocated w_init.1 b sz') ∧
    (∀ b' sz', allocated s' b' sz' ↔ allocated w_init.1 b' sz' ∨ b' = b ∧ sz' = sz) ∧
    (∀ b' sz', allocated w_init.1 b' sz' → b + sz ≤ b' ∨ b' + sz' ≤ b) ∧
    (freePagesList w_init.1 ≠ [] → ∃ k, sz = sz_of k ∧ ∀ k', (k' < k)%nat → sz_of k' < 100).
Proof. apply (alloc_block_correct w_init.1 w_init.2 100 w_init_inv); [lia|eauto]. Defined.

Lemma free_block_correct_witness :
  ∃ s' e', free_block heap_start (w_one.1, w_one.2) = Ok tt (s', e') ∧ da_inv s' ∧
    (last_of_page w_one.1 heap_start → ps_return_page heap_start w_one.2 = Ok tt e').
Proof.
  destruct (free_block_correct w_one.1 w_one.2 heap_start 128 w_one_inv w_one_allocated) as (s' & e' & Hrun & Hi & _ & Hl & _); [intros; by eexists|].
  exists s', e'. split; [exact Hrun|]. split; [exact Hi|]. intros Hlast. exact (proj1 (Hl Hlast)).
Defined.

Lemma client_blocks_disjoint_witness :
  client w_one {[heap_start := 100]} ∧ dynAllocStart w_one.1 ≤ heap_start ∧ heap_start + 100 ≤ dynAllocEnd w_one.1.
Proof.
  split; [apply w_one_client|].
  destruct (client_blocks_disjoint w_one {[heap_start := 100]} w_one_client) as [Hr _].
  apply (Hr heap_start 100). apply lookup_singleton_eq.
Defined.

Lemma get_block_size_correct_witness :
  get_block_size (heap_start + 7) (w_one.1, w_one.2) = Ok 128 (w_one.1, w_one.2) ∧
  (∀ va', va' < dynAllocStart w_one.1 ∨ dynAllocEnd w_one.1 ≤ va' → get_block_size va' (w_one.1, w_one.2) = Ok 0 (w_one.1, w_one.2)).
Proof.
  apply (get_block_size_correct w_one.1 w_one.2 heap_start 128 (heap_start + 7) w_one_inv w_one_allocated). lia.
Defined.

Lemma initialize_correct_witness :
  ∃ s', initialize_dynamic_allocator heap_start heap_end (da_zero, @nil Z) = Ok tt (s', []) ∧
    da_inv s' ∧ dynAllocStart s' = heap_start ∧ dynAllocEnd s' = heap_end ∧
    freePagesList s' = seqZ 0 2 ∧ (∀ b sz, ¬ allocated s' b sz).
Proof. apply (initialize_correct da_zero [] heap_start heap_end 2); by vm_compute. Defined.

Lemma alloc_free_roundtrip_witness :
  da_inv (state_of w_one (free_block heap_start w_one)).1 ∧
  ∀ b' sz', allocated (state_of w_one (free_block heap_start w_one)).1 b' sz' ↔ allocated w_init.1 b' sz'.
Proof.
  apply (alloc_free_roundtrip w_init.1 w_init.2 100 heap_start w_one.1 w_one.2
    (state_of w_one (free_block heap_start w_one)).1 (state_of w_one (free_block heap_start w_one)).2 w_init_inv);
    [lia|by vm_compute..].
Defined.
