(* ===== verification/Bulks.v ===== *)
(** * Lists of bulks (lib/uheap.c, kern/mem/kheap.c)

    Both heaps keep the free ranges of their page region as [struct Bulk]s in a
    hand-written doubly linked list, sorted by decreasing size, and look ranges
    up by walking the list. The first half of the file is that pointer code on a
    memory of descriptors; the second half is the same on a list of descriptors,
    which the heaps use, and the refinement between the two. *)

From Stdlib Require Import Sorting.Sorted.
From S2P Require Import Prelude Queue.

(** ** The pointer code *)
Record Bulk := BK { start : Z; size : Z; next : Z; prev : Z }.
Record bmem := BM { cells : gmap Z Bulk; bulks : Z }.

Definition bulk_at (b : Z) : M bmem Bulk := s ← get; unwrap (cells s !! b).
Definition set_cell (b : Z) (f : Bulk → Bulk) : M bmem unit :=
  c ← bulk_at b; modify (λ s, BM (<[b := f c]> (cells s)) (bulks s)).
Definition set_bnext (b v : Z) : M bmem unit :=
  set_cell b (λ c, BK (start c) (size c) v (prev c)).
Definition set_bprev (b v : Z) : M bmem unit :=
  set_cell b (λ c, BK (start c) (size c) (next c) v).
Definition set_bulks (v : Z) : M bmem unit := modify (λ s, BM (cells s) v).

(** The loop [while (cur && cur->size > b->size)]; returns [cur] and [prev]. *)
Fixpoint find_place (fuel : nat) (bsz cur prv : Z) : M bmem (Z * Z) :=
  match fuel with
  | O => nofuel
  | Datatypes.S fuel =>
      if decide (cur = NULL) then mret (cur, prv) else
      c ← bulk_at cur;
      if decide (size c > bsz) then find_place fuel bsz (next c) cur else mret (cur, prv)
  end.

Definition insert_bulk_desc (fuel : nat) (b : Z) : M bmem unit :=
  cur ← gets bulks;
  c ← bulk_at b;
  p ← find_place fuel (size c) cur NULL;
  let '(cur, prv) := p in
  set_bprev b prv ;;
  set_bnext b cur ;;
  (if decide (prv ≠ NULL) then set_bnext prv b else set_bulks b) ;;
  (if decide (cur ≠ NULL) then set_bprev cur b else mret ()).

Definition remove_bulk (b : Z) : M bmem unit :=
  c ← bulk_at b;
  (if decide (prev c ≠ NULL) then set_bnext (prev c) (next c) else set_bulks (next c)) ;;
  c ← bulk_at b;
  (if decide (next c ≠ NULL) then set_bprev (next c) (prev c) else mret ()) ;;
  set_bnext b NULL ;;
  set_bprev b NULL.

(** [find_allocated_bulk]: the first descriptor of the list that starts at [va]. *)
Fixpoint find_allocated_from (fuel : nat) (va cur : Z) : M bmem Z :=
  match fuel with
  | O => nofuel
  | Datatypes.S fuel =>
      if decide (cur = NULL) then mret NULL else
      c ← bulk_at cur;
      if decide (start c = va) then mret cur else find_allocated_from fuel va (next c)
  end.
Definition find_allocated_bulk (fuel : nat) (va : Z) : M bmem Z :=
  cur ← gets bulks; find_allocated_from fuel va cur.

(** The walk of [merge_bulks]: the last descriptors that end at [st] and that
    start at [st + sz]. *)
Fixpoint scan_neighbours (fuel : nat) (st sz cur before after : Z) : M bmem (Z * Z) :=
  match fuel with
  | O => nofuel
  | Datatypes.S fuel =>
      if decide (cur = NULL) then mret (before, after) else
      c ← bulk_at cur;
      let before := if decide (w32 (start c + size c) = st) then cur else before in
      let after := if decide (start c = w32 (st + sz)) then cur else after in
      scan_neighbours fuel st sz (next c) before after
  end.

(** ** The same on lists of descriptors *)
Record bulk := Bulk_ { b_ptr : Z; b_start : Z; b_size : Z }.
#[export] Instance bulk_eq_dec : EqDecision bulk.
Proof. solve_decision. Defined.

Fixpoint bl_insert (b : bulk) (l : list bulk) : list bulk :=
  match l with
  | [] => [b]
  | c :: l => if decide (b_size c > b_size b) then c :: bl_insert b l else b :: c :: l
  end.
Definition bl_remove (p : Z) (l : list bulk) : list bulk := filter (λ c, b_ptr c ≠ p) l.
Definition bl_find (va : Z) (l : list bulk) : option bulk :=
  snd <$> list_find (λ c, b_start c = va) l.
Definition bl_before (st : Z) (l : list bulk) : option bulk :=
  last (filter (λ c, w32 (b_start c + b_size c) = st) l).
Definition bl_after (st sz : Z) (l : list bulk) : option bulk :=
  last (filter (λ c, b_start c = w32 (st + sz)) l).

Lemma bl_insert_perm b l : bl_insert b l ≡ₚ b :: l.
Proof.
  induction l as [|c l IH]; simpl; [done|]. case_decide; [|done]. rewrite IH. apply Permutation_swap.
Qed.
Lemma bl_remove_perm c l : NoDup (b_ptr <$> l) → c ∈ l → l ≡ₚ c :: bl_remove (b_ptr c) l.
Proof.
  induction l as [|d l IH]; intros Hnd Hc; [by apply elem_of_nil in Hc|].
  rewrite fmap_cons, NoDup_cons in Hnd. destruct Hnd as [Hd Hnd]. unfold bl_remove.
  apply elem_of_cons in Hc as [->|Hc].
  - rewrite filter_cons_False by naive_solver. rewrite filter_id; [done|].
    intros x Hx Heq. apply Hd. rewrite <- Heq. by apply list_elem_of_fmap_2.
  - rewrite filter_cons_True.
    + rewrite Permutation_swap. f_equiv. by apply IH.
    + intros Heq. apply Hd. rewrite Heq. by apply list_elem_of_fmap_2.
Qed.

(** Decreasing sizes. *)
Definition desc : list bulk → Prop := Sorted (λ c d, b_size d ≤ b_size c).
Lemma bl_insert_desc b l : desc l → desc (bl_insert b l).
Proof.
  unfold desc. induction 1 as [|c l Hs IH Hh]; simpl; [by repeat constructor|].
  case_decide.
  - constructor; [done|]. destruct l as [|d l]; simpl; [constructor; lia|].
    case_decide; constructor; [by inversion Hh|lia].
  - constructor; [by constructor|constructor; lia].
Qed.
Lemma desc_filter (P : bulk → Prop) `{!∀ x, Decision (P x)} l : desc l → desc (filter P l).
Proof.
  unfold desc. intros Hs%Sorted_StronglySorted; [|intros ???; lia].
  apply StronglySorted_Sorted. induction Hs as [|c l Hs IH Hall]; [constructor|].
  rewrite filter_cons. case_decide; [|done]. constructor; [done|].
  rewrite Forall_forall in *. intros x [_ Hx]%list_elem_of_filter. by apply Hall.
Qed.
(** The head is the largest: the worst fit. *)
Lemma desc_head c l d : desc (c :: l) → d ∈ c :: l → b_size d ≤ b_size c.
Proof.
  unfold desc. intros Hs%Sorted_StronglySorted; [|intros ???; lia].
  inversion Hs as [|?? _ Hall]; subst. rewrite Forall_forall in Hall.
  intros [->|?]%elem_of_cons; [lia|by apply Hall].
Qed.

(** ** Refinement *)
Fixpoint bseg (m : gmap Z Bulk) (p : Z) (l : list bulk) (n : Z) : Prop :=
  match l with
  | [] => True
  | c :: l => b_ptr c ≠ NULL ∧
      m !! b_ptr c = Some (BK (b_start c) (b_size c) (hdn n (b_ptr <$> l)) p) ∧
      bseg m (b_ptr c) l n
  end.
Definition is_bulks (s : bmem) (l : list bulk) : Prop :=
  NoDup (b_ptr <$> l) ∧ bseg (cells s) NULL l NULL ∧ bulks s = hdn NULL (b_ptr <$> l).

Lemma bseg_app m p l1 l2 n :
  bseg m p (l1 ++ l2) n ↔
  bseg m p l1 (hdn n (b_ptr <$> l2)) ∧ bseg m (lastn p (b_ptr <$> l1)) l2 n.
Proof.
  revert p. induction l1 as [|c l1 IH]; intros p; simpl; [naive_solver|].
  rewrite IH, fmap_app, hdn_app, lastn_cons. naive_solver.
Qed.
Lemma bseg_insert m p l n x v : x ∉ b_ptr <$> l → bseg m p l n → bseg (<[x:=v]> m) p l n.
Proof.
  revert p. induction l as [|c l IH]; intros p; simpl; [done|].
  rewrite not_elem_of_cons. intros [? ?] (? & ? & ?). split_and!; [done| |auto].
  by rewrite lookup_insert_ne.
Qed.

Lemma bulk_at_run s b c : cells s !! b = Some c → bulk_at b s = Ok c s.
Proof. intros Hb. unfold bulk_at, mbind, M_bind, get. by rewrite Hb. Qed.
Lemma set_bnext_run s b c v : cells s !! b = Some c →
  set_bnext b v s = Ok tt (BM (<[b := BK (start c) (size c) v (prev c)]> (cells s)) (bulks s)).
Proof. intros Hb. unfold set_bnext, set_cell. by erewrite bind_Ok by by apply bulk_at_run. Qed.
Lemma set_bprev_run s b c v : cells s !! b = Some c →
  set_bprev b v s = Ok tt (BM (<[b := BK (start c) (size c) (next c) v]> (cells s)) (bulks s)).
Proof. intros Hb. unfold set_bprev, set_cell. by erewrite bind_Ok by by apply bulk_at_run. Qed.

Lemma find_place_spec fuel b l p s :
  bseg (cells s) p l NULL → (length l < fuel)%nat →
  ∃ l1 l2, l = l1 ++ l2 ∧ bl_insert b l = l1 ++ b :: l2 ∧
    find_place fuel (b_size b) (hdn NULL (b_ptr <$> l)) p s =
    Ok (hdn NULL (b_ptr <$> l2), lastn p (b_ptr <$> l1)) s.
Proof.
  revert p fuel. induction l as [|c l IH]; intros p fuel Hl Hf; (destruct fuel as [|fuel]; [simpl in Hf; lia|]); simpl.
  - exists [], []. split_and!; reflexivity.
  - destruct Hl as (Hc0 & Hc & Hl). rewrite (decide_False (P:=b_ptr c = NULL)) by done.
    erewrite bind_Ok by by apply bulk_at_run. simpl. case_decide.
    + destruct (IH (b_ptr c) fuel Hl) as (l1 & l2 & -> & -> & ->); [simpl in Hf; lia|].
      exists (c :: l1), l2. rewrite fmap_cons, lastn_cons. done.
    + exists [], (c :: l). split_and!; reflexivity.
Qed.

(** Linking a descriptor between the two parts of a list. *)
Lemma insert_bulk_desc_spec fuel s l b :
  is_bulks s l → (length l < fuel)%nat → b_ptr b ≠ NULL → b_ptr b ∉ b_ptr <$> l →
  (∃ n p, cells s !! b_ptr b = Some (BK (b_start b) (b_size b) n p)) →
  wp (insert_bulk_desc fuel (b_ptr b)) (λ _ s', is_bulks s' (bl_insert b l)) s.
Proof.
  intros (Hnd & Hl & Hb) Hf Hb0 Hbl (n0 & p0 & Hcell).
  destruct (find_place_spec fuel b l NULL s Hl Hf) as (l1 & l2 & -> & Hins & Hrun).
  rewrite Hins. clear Hins. unfold insert_bulk_desc. apply wp_Ok.
  erewrite bind_Ok by reflexivity. erewrite bind_Ok by by apply bulk_at_run.
  rewrite Hb. simpl. erewrite bind_Ok by exact Hrun. simpl. clear Hrun Hf.
  erewrite bind_Ok by by apply set_bprev_run. simpl.
  erewrite bind_Ok by (apply set_bnext_run; simpl; apply lookup_insert_eq). simpl.
  rewrite insert_insert_eq. apply bseg_app in Hl as [Hl1 Hl2].
  rewrite fmap_app in Hbl, Hnd. apply not_elem_of_app in Hbl as [Hbl1 Hbl2].
  apply NoDup_app in Hnd as (Hn1 & Hn12 & Hn2).
  assert (Hnd : NoDup (b_ptr <$> l1 ++ b :: l2)).
  { rewrite fmap_app, fmap_cons, <- Permutation_middle, NoDup_cons, not_elem_of_app, NoDup_app. done. }
  set (m1 := <[b_ptr b := _]> (cells s)).
  (* the predecessor *)
  assert (∃ m2 h2, (if decide (lastn NULL (b_ptr <$> l1) ≠ NULL)
      then set_bnext (lastn NULL (b_ptr <$> l1)) (b_ptr b) else set_bulks (b_ptr b))
      (BM m1 (bulks s)) = Ok tt (BM m2 h2) ∧ h2 = hdn NULL (b_ptr <$> l1 ++ b :: l2) ∧
      bseg m2 NULL l1 (b_ptr b) ∧ bseg m2 (lastn NULL (b_ptr <$> l1)) l2 NULL ∧
      m2 !! b_ptr b = m1 !! b_ptr b) as (m2 & h2 & Hrun & Hh & Hs1 & Hs2 & Hm2).
  { destruct l1 as [|c l1 _] using rev_ind.
    - exists m1, (b_ptr b). simpl. split_and!; try done. by apply bseg_insert.
    - rewrite fmap_app, fmap_cons, fmap_nil, lastn_snoc in *. apply bseg_app in Hl1 as [Hl1 Hc].
      rewrite fmap_cons in Hl1. simpl in Hc. destruct Hc as (Hc0 & Hc & _).
      apply not_elem_of_app in Hbl1 as [Hbl1 Hbc]. rewrite not_elem_of_cons in Hbc.
      apply NoDup_app in Hn1 as (Hn1 & Hn1c & _).
      rewrite decide_True by done. assert (Hc' : m1 !! b_ptr c = Some (BK (b_start c) (b_size c)
        (hdn NULL (b_ptr <$> l2)) (lastn NULL (b_ptr <$> l1)))).
      { unfold m1. rewrite lookup_insert_ne by naive_solver. done. }
      eexists _, _. split; [by apply set_bnext_run|]. simpl. split_and!.
      + rewrite Hb, !fmap_app, !hdn_app. done.
      + apply bseg_app. rewrite fmap_cons. simpl. split.
        * apply bseg_insert; [set_solver|]. by apply bseg_insert.
        * by rewrite lookup_insert_eq.
      + apply bseg_insert; [set_solver|]. by apply bseg_insert.
      + rewrite lookup_insert_ne by naive_solver. done. }
  erewrite bind_Ok by exact Hrun. unfold m1 in Hm2. rewrite lookup_insert_eq in Hm2. clear Hrun m1.
  destruct l2 as [|d l2]; simpl in *.
  - eexists _, _. split; [done|]. split_and!; [done| |done]. apply bseg_app. simpl. done.
  - destruct Hs2 as (Hd0 & Hd & Hs2). rewrite decide_True by done.
    eexists _, _. split; [by apply set_bprev_run|]. simpl. split_and!; [done| |done].
    simpl. apply bseg_app. simpl. split_and!; try done.
    + apply bseg_insert; [set_solver|done].
    + rewrite lookup_insert_ne by set_solver. done.
    + by rewrite lookup_insert_eq.
    + apply bseg_insert; [|done]. by apply NoDup_cons in Hn2 as [? _].
Qed.

Lemma bl_remove_split l1 c l2 :
  NoDup (b_ptr <$> l1 ++ c :: l2) → bl_remove (b_ptr c) (l1 ++ c :: l2) = l1 ++ l2.
Proof.
  rewrite fmap_app, fmap_cons. intros (H1 & H2 & [H3 H4]%NoDup_cons)%NoDup_app.
  unfold bl_remove. rewrite filter_app, filter_cons_False by naive_solver.
  assert (Hin : ∀ x (l : list bulk), x ∈ l → b_ptr x = b_ptr c → b_ptr c ∈ b_ptr <$> l).
  { intros x l Hx <-. by apply list_elem_of_fmap_2. }
  f_equal; apply filter_id; intros x Hx Heq.
  - apply (H2 (b_ptr c)); [by eapply Hin|left].
  - apply H3. by eapply Hin.
Qed.

(** Unlinking a descriptor. *)
Lemma remove_bulk_spec s l c :
  is_bulks s l → c ∈ l →
  wp (remove_bulk (b_ptr c)) (λ _ s', is_bulks s' (bl_remove (b_ptr c) l) ∧
    cells s' !! b_ptr c = Some (BK (b_start c) (b_size c) NULL NULL)) s.
Proof.
  intros (Hnd & Hl & Hb) (l1 & l2 & ->)%list_elem_of_split. rewrite bl_remove_split by done.
  apply bseg_app in Hl as [Hl1 Hl2]. simpl in Hl2. destruct Hl2 as (Hc0 & Hc & Hl2).
  rewrite fmap_app, fmap_cons in Hnd. apply NoDup_app in Hnd as (Hn1 & Hn12 & Hn2).
  apply NoDup_cons in Hn2 as [Hc2 Hn2].
  assert (Hc1 : b_ptr c ∉ b_ptr <$> l1) by (intros Hin; apply (Hn12 _ Hin); left).
  assert (Hnd : NoDup (b_ptr <$> l1 ++ l2)).
  { rewrite fmap_app. apply NoDup_app. split_and!; try done.
    intros x Hx Hx2. apply (Hn12 x Hx). by right. }
  unfold remove_bulk. apply wp_Ok. erewrite bind_Ok by by apply bulk_at_run. simpl.
  (* the predecessor *)
  assert (∃ m2 h2, (if decide (lastn NULL (b_ptr <$> l1) ≠ NULL)
      then set_bnext (lastn NULL (b_ptr <$> l1)) (hdn NULL (b_ptr <$> l2))
      else set_bulks (hdn NULL (b_ptr <$> l2))) s = Ok tt (BM m2 h2) ∧
      h2 = hdn NULL (b_ptr <$> l1 ++ l2) ∧ bseg m2 NULL l1 (hdn NULL (b_ptr <$> l2)) ∧
      bseg m2 (b_ptr c) l2 NULL ∧ m2 !! b_ptr c = cells s !! b_ptr c)
    as (m2 & h2 & Hrun & Hh & Hs1 & Hs2 & Hm2).
  { destruct l1 as [|d l1 _] using rev_ind.
    - by eexists _, _.
    - rewrite fmap_app, fmap_cons, fmap_nil, lastn_snoc in *. apply bseg_app in Hl1 as [Hl1 Hd].
      simpl in Hd. destruct Hd as (Hd0 & Hd & _). apply NoDup_app in Hn1 as (Hn1 & Hn1d & _).
      rewrite decide_True by done. eexists _, _. split; [by apply set_bnext_run|]. simpl. split_and!.
      + rewrite Hb, !fmap_app, !hdn_app. done.
      + apply bseg_app. simpl. split; [apply bseg_insert; [set_solver|done]|].
        by rewrite lookup_insert_eq.
      + apply bseg_insert; [set_solver|done].
      + rewrite lookup_insert_ne by set_solver. done. }
  erewrite bind_Ok by exact Hrun. clear Hrun.
  erewrite bind_Ok by (apply bulk_at_run; simpl; rewrite Hm2; exact Hc). simpl.
  rewrite Hc in Hm2.
  (* the successor *)
  assert (∃ m3, (if decide (hdn NULL (b_ptr <$> l2) ≠ NULL)
      then set_bprev (hdn NULL (b_ptr <$> l2)) (lastn NULL (b_ptr <$> l1)) else mret ())
      (BM m2 h2) = Ok tt (BM m3 h2) ∧ bseg m3 NULL l1 (hdn NULL (b_ptr <$> l2)) ∧
      bseg m3 (lastn NULL (b_ptr <$> l1)) l2 NULL ∧ m3 !! b_ptr c = m2 !! b_ptr c)
    as (m3 & Hrun & Ht1 & Ht2 & Hm3).
  { destruct l2 as [|d l2]; [by eexists|]. simpl in Hs2. destruct Hs2 as (Hd0 & Hd & Hs2).
    rewrite decide_True by done. eexists. split; [by apply set_bprev_run|].
    rewrite fmap_cons in Hn2, Hc2. apply NoDup_cons in Hn2 as [??]. simpl. split_and!; try done.
    - apply bseg_insert; [set_solver|done].
    - by rewrite lookup_insert_eq.
    - by apply bseg_insert.
    - rewrite lookup_insert_ne by set_solver. done. }
  erewrite bind_Ok by exact Hrun. clear Hrun. rewrite Hm2 in Hm3.
  erewrite bind_Ok by by apply set_bnext_run. simpl.
  eexists _, _. split; [apply set_bprev_run; simpl; apply lookup_insert_eq|]. simpl.
  rewrite insert_insert_eq, lookup_insert_eq. split; [|done].
  split_and!; [done| |done]. apply bseg_app. split; by apply bseg_insert.
Qed.

Lemma find_allocated_spec fuel va l p s :
  bseg (cells s) p l NULL → (length l < fuel)%nat →
  find_allocated_from fuel va (hdn NULL (b_ptr <$> l)) s = Ok (default NULL (b_ptr <$> bl_find va l)) s.
Proof.
  revert p fuel. unfold bl_find.
  induction l as [|c l IH]; intros p fuel Hl Hf; (destruct fuel as [|fuel]; [simpl in Hf; lia|]); simpl.
  - reflexivity.
  - destruct Hl as (Hc0 & Hc & Hl). rewrite (decide_False (P:=b_ptr c = NULL)) by done.
    erewrite bind_Ok by by apply bulk_at_run. simpl. case_decide; [done|].
    rewrite (IH _ _ Hl) by (simpl in Hf; lia). by destruct (list_find _ l) as [[]|].
Qed.

Lemma scan_spec fuel st sz l p s b a :
  bseg (cells s) p l NULL → (length l < fuel)%nat →
  scan_neighbours fuel st sz (hdn NULL (b_ptr <$> l)) b a s =
  Ok (default b (b_ptr <$> bl_before st l), default a (b_ptr <$> bl_after st sz l)) s.
Proof.
  unfold bl_before, bl_after. revert p fuel b a.
  induction l as [|c l IH]; intros p fuel b a Hl Hf; (destruct fuel as [|fuel]; [simpl in Hf; lia|]); simpl.
  - reflexivity.
  - destruct Hl as (Hc0 & Hc & Hl). rewrite (decide_False (P:=b_ptr c = NULL)) by done.
    erewrite bind_Ok by by apply bulk_at_run. cbv zeta. cbn [next start size].
    rewrite (IH _ _ _ _ Hl) by (simpl in Hf; lia). clear IH. f_equal. f_equal; rewrite filter_cons;
      case_decide; try done; rewrite last_cons; destruct (last (filter _ l)); reflexivity.
Qed.

(** C12: The list code of the heaps. On a memory that stores a list of bulks,
    [insert_bulk_desc] of a descriptor that is not in the list stores the list
    with it before the first bulk that is not larger, and [remove_bulk] of a
    descriptor of the list stores the list without it; both return (the loop
    takes at most one round per bulk), and a list sorted by decreasing size
    stays sorted. *)
Theorem bulk_list_simulation s l b :
  is_bulks s l → desc l →
  (∀ fuel, (length l < fuel)%nat → b_ptr b ≠ NULL → b_ptr b ∉ b_ptr <$> l →
    (∃ n p, cells s !! b_ptr b = Some (BK (b_start b) (b_size b) n p)) →
    wp (insert_bulk_desc fuel (b_ptr b))
      (λ _ s', is_bulks s' (bl_insert b l) ∧ desc (bl_insert b l)) s) ∧
  (b ∈ l → wp (remove_bulk (b_ptr b))
      (λ _ s', is_bulks s' (bl_remove (b_ptr b) l) ∧ desc (bl_remove (b_ptr b) l)) s).
Proof.
  intros Hl Hd. split.
  - intros fuel Hf H0 Hn Hc. eapply wp_mono; [by apply insert_bulk_desc_spec|].
    intros u s1 ?. split; [done|]. by apply bl_insert_desc.
  - intros Hb. eapply wp_mono; [by apply remove_bulk_spec|].
    intros u s1 [? _]. split; [done|]. by apply desc_filter.
Qed.

(** The walks of the heaps. [find_allocated_bulk] gives the first bulk that
    starts at the address, or NULL, and the walk of [merge_bulks] gives the last
    bulk that ends where the range starts and the last one that starts where it
    ends; both return within one round per bulk and change nothing. *)
Theorem bulk_walks_correct s l va st sz fuel :
  is_bulks s l → (length l < fuel)%nat →
  find_allocated_bulk fuel va s = Ok (default NULL (b_ptr <$> bl_find va l)) s ∧
  scan_neighbours fuel st sz (bulks s) NULL NULL s =
    Ok (default NULL (b_ptr <$> bl_before st l), default NULL (b_ptr <$> bl_after st sz l)) s.
Proof.
  intros (_ & Hl & Hb) Hf. rewrite Hb. split; [|by eapply scan_spec].
  unfold find_allocated_bulk. erewrite bind_Ok by reflexivity. rewrite Hb.
  by eapply find_allocated_spec.
Qed.

Definition ex_bulks : list bulk := [Bulk_ 16 40960 12288; Bulk_ 48 8192 4096].
Definition ex_new : bulk := Bulk_ 80 20480 8192.
Definition ex_bmem : bmem :=
  BM (list_to_map [(16, BK 40960 12288 48 0); (48, BK 8192 4096 0 16); (80, BK 20480 8192 5 5)]) 16.
Lemma ex_bmem_ok : is_bulks ex_bmem ex_bulks.
Proof.
  split_and!; [apply (bool_decide_unpack _); vm_compute; exact I| |reflexivity].
  cbn [bseg ex_bulks]. repeat (split; [unfold NULL; simpl; lia|]; split; [reflexivity|]). exact I.
Qed.
Lemma ex_bulks_desc : desc ex_bulks.
Proof. repeat constructor; simpl; lia. Qed.

Lemma bulk_list_simulation_witness :
  wp (insert_bulk_desc 3 80)
    (λ _ s', is_bulks s' (bl_insert ex_new ex_bulks) ∧ desc (bl_insert ex_new ex_bulks)) ex_bmem ∧
  wp (remove_bulk 48)
    (λ _ s', is_bulks s' (bl_remove 48 ex_bulks) ∧ desc (bl_remove 48 ex_bulks)) ex_bmem.
Proof.
  split.
  - apply (proj1 (bulk_list_simulation ex_bmem ex_bulks ex_new ex_bmem_ok ex_bulks_desc) 3%nat);
      [simpl; lia|done|by apply (bool_decide_unpack _); vm_compute|by exists 5, 5].
  - apply (proj2 (bulk_list_simulation ex_bmem ex_bulks (Bulk_ 48 8192 4096) ex_bmem_ok ex_bulks_desc)).
    right. left.
Defined.

Lemma bulk_walks_correct_witness :
  find_allocated_bulk 3 8192 ex_bmem = Ok 48 ex_bmem ∧
  scan_neighbours 3 12288 28672 16 NULL NULL ex_bmem = Ok (48, 16) ex_bmem.
Proof.
  apply (bulk_walks_correct ex_bmem ex_bulks 8192 12288 28672 3 ex_bmem_ok). simpl. lia.
Defined.
