(* ===== verification/Tiling.v ===== *)
(** * Tilings of a page region by bulks

    The page region of a heap, as an abstract object: a list of consecutive page
    ranges, each free or allocated, from the start of the region to its break.
    The correctness of both heaps is stated on it. *)

From S2P Require Import Prelude Queue Bulks.

(** ** Tilings *)
(** Free or not, and the range. *)
Notation seg := (bool * bulk)%type.
Fixpoint tile (a : Z) (l : list seg) (z : Z) : Prop :=
  match l with
  | [] => a = z
  | (_, b) :: l => b_start b = a ∧ 0 < b_size b ∧ (4096 | b_size b) ∧ tile (a + b_size b) l z
  end.
(** Every free range is followed by an allocated one. *)
Fixpoint coal (l : list seg) : Prop :=
  match l with
  | [] => True
  | (true, _) :: l => match l with (false, _) :: _ => coal l | _ => False end
  | (false, _) :: l => coal l
  end.
Definition frees (l : list seg) : list bulk := snd <$> filter (λ x, x.1 = true) l.
Definition allocs (l : list seg) : list bulk := snd <$> filter (λ x, x.1 = false) l.

Lemma frees_app l1 l2 : frees (l1 ++ l2) = frees l1 ++ frees l2.
Proof. unfold frees. by rewrite filter_app, fmap_app. Qed.
Lemma allocs_app l1 l2 : allocs (l1 ++ l2) = allocs l1 ++ allocs l2.
Proof. unfold allocs. by rewrite filter_app, fmap_app. Qed.
Lemma frees_cons f b l : frees ((f, b) :: l) = if f then b :: frees l else frees l.
Proof. by destruct f. Qed.
Lemma allocs_cons f b l : allocs ((f, b) :: l) = if f then allocs l else b :: allocs l.
Proof. by destruct f. Qed.
Lemma elem_frees b l : b ∈ frees l ↔ (true, b) ∈ l.
Proof.
  unfold frees. rewrite list_elem_of_fmap. split.
  - intros ([f c] & -> & [Hf ?]%list_elem_of_filter). simpl in *. by subst.
  - intros ?. exists (true, b). split; [done|]. by apply list_elem_of_filter.
Qed.
Lemma elem_allocs b l : b ∈ allocs l ↔ (false, b) ∈ l.
Proof.
  unfold allocs. rewrite list_elem_of_fmap. split.
  - intros ([f c] & -> & [Hf ?]%list_elem_of_filter). simpl in *. by subst.
  - intros ?. exists (false, b). split; [done|]. by apply list_elem_of_filter.
Qed.

Lemma tile_app a l1 l2 z : tile a (l1 ++ l2) z ↔ ∃ m, tile a l1 m ∧ tile m l2 z.
Proof.
  revert a. induction l1 as [|[f b] l1 IH]; intros a; simpl; [naive_solver|].
  setoid_rewrite IH. naive_solver.
Qed.
Lemma tile_le a l z : tile a l z → a ≤ z.
Proof.
  revert a. induction l as [|[f b] l IH]; intros a; simpl; [lia|].
  intros (? & ? & ? & ?%IH). lia.
Qed.
Lemma tile_range a l z f b : tile a l z → (f, b) ∈ l →
  a ≤ b_start b ∧ b_start b + b_size b ≤ z ∧ 0 < b_size b ∧ (4096 | b_size b) ∧ (4096 | b_start b - a).
Proof.
  revert a. induction l as [|[g c] l IH]; intros a; simpl; [by intros _ ?%elem_of_nil|].
  intros (<- & ? & Hd & Hl) [[= -> ->]|Hin]%elem_of_cons.
  - pose proof (tile_le _ _ _ Hl). split_and!; try done; try lia. exists 0. lia.
  - destruct (IH _ Hl Hin) as (? & ? & ? & ? & Hdd). split_and!; try done; try lia.
    replace (b_start b - b_start c) with (b_start b - (b_start c + b_size c) + b_size c) by lia.
    by apply Z.divide_add_r.
Qed.
(** Two ranges of a tiling are the same or disjoint. *)
Lemma tile_disjoint a l1 f b l2 z g c :
  tile a (l1 ++ (f, b) :: l2) z → (g, c) ∈ l1 ++ l2 →
  b_start c + b_size c ≤ b_start b ∨ b_start b + b_size b ≤ b_start c.
Proof.
  intros (m & H1 & H2)%tile_app [Hc|Hc]%elem_of_app; simpl in H2; destruct H2 as (<- & ? & ? & H2).
  - left. by apply (tile_range _ _ _ _ _ H1 Hc).
  - right. by apply (tile_range _ _ _ _ _ H2 Hc).
Qed.
Lemma tile_divide a l z : tile a l z → (4096 | z - a).
Proof.
  revert a. induction l as [|[f b] l IH]; intros a; simpl.
  - intros ->. exists 0. lia.
  - intros (_ & _ & ? & Ht%IH). replace (z - a) with (z - (a + b_size b) + b_size b) by lia.
    by apply Z.divide_add_r.
Qed.

(** The free range that ends, or starts, at a boundary of the tiling. *)
Definition last_free (l : list seg) : option bulk :=
  match last l with Some (true, b) => Some b | _ => None end.
Definition head_free (l : list seg) : option bulk :=
  match l with (true, b) :: _ => Some b | _ => None end.

Lemma frees_end a l1 st :
  tile a l1 st → filter (λ c, b_start c + b_size c = st) (frees l1) = option_list (last_free l1).
Proof.
  unfold last_free. destruct l1 as [|[f b] l1 _] using rev_ind; [done|]. rewrite last_snoc.
  intros (m & H1 & H2)%tile_app. simpl in H2. destruct H2 as (<- & ? & ? & <-).
  rewrite frees_app, filter_app.
  assert (filter (λ c, b_start c + b_size c = b_start b + b_size b) (frees l1) = []) as ->.
  { apply filter_none. intros x Hin%elem_frees Hx.
    pose proof (tile_range _ _ _ _ _ H1 Hin). lia. }
  destruct f; [|done]. change (frees [(true, b)]) with [b]. by rewrite filter_cons_True.
Qed.

Lemma frees_start m l2 z :
  tile m l2 z → filter (λ c, b_start c = m) (frees l2) = option_list (head_free l2).
Proof.
  destruct l2 as [|[f b] l2]; [done|]. intros (<- & ? & ? & H2).
  assert (filter (λ c, b_start c = b_start b) (frees l2) = []) as Hn.
  { apply filter_none. intros x Hin%elem_frees Hx.
    pose proof (tile_range _ _ _ _ _ H2 Hin). lia. }
  rewrite frees_cons. destruct f; [|done]. by rewrite filter_cons_True, Hn.
Qed.
Lemma option_list_last {A} (o : option A) l : l ≡ₚ option_list o → last l = o.
Proof.
  destruct o as [x|]; simpl; intros Hp.
  - by apply Permutation_singleton_r in Hp as ->.
  - by apply Permutation_nil_r in Hp as ->.
Qed.

(** The two neighbours found by [merge_bulks], on a tiling in 32 bits. *)
Lemma neighbours a l1 f b l2 z fr :
  0 ≤ a → z < 4294967296 → tile a (l1 ++ (f, b) :: l2) z → fr ≡ₚ frees (l1 ++ l2) →
  bl_before (b_start b) fr = last_free l1 ∧ bl_after (b_start b) (b_size b) fr = head_free l2.
Proof.
  intros Ha Hz (m & H1 & H2)%tile_app Hfr. simpl in H2. destruct H2 as (Hm & ? & ? & H2).
  pose proof (tile_le _ _ _ H1). pose proof (tile_le _ _ _ H2).
  rewrite frees_app in Hfr. unfold bl_before, bl_after. split; apply option_list_last.
  - rewrite Hfr, filter_app, <- (frees_end _ _ _ H1), <- Hm.
    rewrite (filter_none _ (frees l2)), app_nil_r.
    + erewrite filter_ext_in; [done|]. intros x Hx%elem_frees.
      pose proof (tile_range _ _ _ _ _ H1 Hx). simpl. rewrite w32_small by lia. lia.
    + intros x Hx%elem_frees. pose proof (tile_range _ _ _ _ _ H2 Hx). rewrite w32_small by lia. lia.
  - rewrite Hfr, filter_app, <- (frees_start _ _ _ H2).
    rewrite (filter_none _ (frees l1)); simpl.
    + erewrite filter_ext_in; [done|]. intros x Hx%elem_frees.
      pose proof (tile_range _ _ _ _ _ H2 Hx). simpl. rewrite w32_small by lia. lia.
    + intros x Hx%elem_frees. pose proof (tile_range _ _ _ _ _ H1 Hx). rewrite w32_small by lia. lia.
Qed.

Lemma coal_cons_false b l : coal ((false, b) :: l) = coal l.
Proof. done. Qed.
(** Changing what follows an allocated range. *)
Lemma coal_app_false l1 b l2 : coal (l1 ++ (false, b) :: l2) ↔ coal (l1 ++ [(false, b)]) ∧ coal l2.
Proof.
  induction l1 as [|[[] c] l1 IH]; simpl; [naive_solver| |done].
  destruct l1 as [|[[] d] l1]; simpl in *; naive_solver.
Qed.
Lemma coal_init l0 c : coal (l0 ++ [(true, c)]) → False.
Proof. induction l0 as [|[[] d] l0 IH]; simpl; [done| |done]. destruct l0 as [|[[] e] l0]; simpl in *; tauto. Qed.
Lemma coal_last l : coal l → last_free l = None.
Proof.
  unfold last_free. destruct l as [|[[] b] l _] using rev_ind; [done| |by rewrite last_snoc].
  by intros ?%coal_init.
Qed.
Lemma coal_front l0 c l : coal (l0 ++ (true, c) :: l) → coal l0.
Proof.
  induction l0 as [|[[] d] l0 IH]; simpl; [done| |done].
  destruct l0 as [|[[] e] l0]; simpl in *; tauto.
Qed.
Lemma coal_back l0 c l : coal (l0 ++ (true, c) :: l) → coal l.
Proof.
  induction l0 as [|[[] d] l0 IH]; simpl; [by destruct l as [|[[] ?] ?]| |done].
  destruct l0 as [|[[] e] l0]; simpl in *; tauto.
Qed.
Lemma coal_tail l0 c b l : coal (l0 ++ (true, c) :: l) → coal ((true, b) :: l).
Proof.
  induction l0 as [|[[] d] l0 IH]; simpl; [done| |done].
  destruct l0 as [|[[] e] l0]; simpl in *; tauto.
Qed.
Lemma coal_last_split l1 b l2 :
  coal (l1 ++ (false, b) :: l2) →
  ∃ l0, coal l0 ∧ l1 = l0 ++ (match last_free l1 with Some c => [(true, c)] | None => [] end).
Proof.
  intros Hc. destruct l1 as [|[[] c] l1 _] using rev_ind; unfold last_free.
  - by exists [].
  - rewrite last_snoc. exists l1. split; [|done]. rewrite <- app_assoc in Hc. by eapply coal_front.
  - rewrite last_snoc. exists (l1 ++ [(false, c)]). rewrite app_nil_r. split; [|done].
    rewrite <- app_assoc in Hc. by apply coal_app_false in Hc as [? _].
Qed.
Lemma coal_head_split l2 :
  coal l2 → ∃ l3, coal l3 ∧ head_free l3 = None ∧
    l2 = (match head_free l2 with Some d => [(true, d)] | None => [] end) ++ l3.
Proof.
  destruct l2 as [|[[] d] l2]; simpl; intros Hc.
  - by exists [].
  - exists l2. destruct l2 as [|[[] e] l2]; simpl in *; done.
  - by exists ((false, d) :: l2).
Qed.
Lemma coal_join l0 m l3 : coal l0 → coal l3 → head_free l3 = None → l3 ≠ [] → coal (l0 ++ (true, m) :: l3).
Proof.
  intros H0 H3 Hh Hne. assert (coal ((true, m) :: l3)) as Hm by (destruct l3 as [|[[] e] l3]; done).
  induction l0 as [|[[] d] l0 IH]; [done| |by apply IH]. simpl in *.
  destruct l0 as [|[[] e] l0]; [done..|]. simpl in *. by apply IH.
Qed.
Lemma coal_snoc l b l2 : coal l → coal l2 → coal (l ++ (false, b) :: l2).
Proof.
  intros Hl H2. induction l as [|[[] d] l IH]; [done| |by apply IH]. simpl in *.
  destruct l as [|[[] e] l]; [done..|]. simpl in *. by apply IH.
Qed.

(** ** Descriptors of the free ranges *)
Definition opt_seg (o : option bulk) : list seg := match o with Some c => [(true, c)] | None => [] end.
Lemma perm_split (b : bulk) fr l1 l2 :
  NoDup (b_ptr <$> fr) → fr ≡ₚ frees (l1 ++ (true, b) :: l2) → bl_remove (b_ptr b) fr ≡ₚ frees (l1 ++ l2) ∧
  fr ≡ₚ b :: bl_remove (b_ptr b) fr.
Proof.
  intros Hnd Hfr. assert (b ∈ fr) as Hb by (rewrite Hfr, elem_frees; set_solver).
  pose proof (bl_remove_perm _ _ Hnd Hb) as Hp. split; [|done].
  apply (Permutation_cons_inv (a := b)). rewrite <- Hp, Hfr, !frees_app, frees_cons.
  by rewrite Permutation_middle.
Qed.
