(* ===== verification/KHeap.v ===== *)
(** * The kernel heap (kern/mem/kheap.c, kern/mem/kheap.h)

    A block region managed by the dynamic allocator and, above it, a page region
    [kheapPageAllocStart .. kheapPageAllocBreak) that is divided into allocated
    and free bulks. Bulk descriptors are blocks of the dynamic allocator, so the
    address of a descriptor is the [b_ptr] of its [bulk]. The lists of bulks are
    those of Bulks.v, whose pointer code they abstract. *)

From S2P Require Import Prelude Queue DynAlloc Bulks.

Definition KERNEL_HEAP_START : Z := 4127195136. (* 0xF6000000 *)
Definition KERNEL_HEAP_MAX : Z := 4294963200. (* 0xFFFFF000 *)
Definition E_NO_MEM : Z := -4.
Definition KHP_PLACE_CUSTOMFIT : Z := 5.
(** [sizeof(struct Bulk)]: four 32-bit fields. *)
Definition SIZEOF_BULK : Z := 16.
Definition PERM_PRESENT : Z := 1.

(** What the heap calls of the memory manager (kern/mem/memory_manager.c,
    kern/mem/paging_helpers.c), on the kernel page directory and with the
    permission PERM_WRITEABLE; a mapping function returns 0 or an error code. *)
Class KMem (E : Type) := {
  alloc_page : Z → M E Z;
  unmap_frame : Z → M E unit;
  allocate_frame : M E (Z * Z);  (* return code, frame *)
  free_frame : Z → M E unit;
  map_frame : Z → Z → M E Z;
  frame_info_va : Z → M E Z;     (* to_frame_info(pa)->va *)
  page_table_entry : Z → M E (option Z); (* the entry, None if there is no table *)
  memset : Z → Z → Z → E → E
}.

Section code.
Context {E : Type} `{KMem E}.

(** The page source of the kernel's dynamic allocator. *)
Definition get_page (va : Z) : M E Z :=
  ret ← alloc_page (ROUNDDOWN va PAGE_SIZE);
  if decide (ret < 0) then panic else mret 0.
Definition return_page (va : Z) : M E unit := unmap_frame (ROUNDDOWN va PAGE_SIZE).
#[export] Instance kernel_pages : PageSource E :=
  {| ps_get_page := get_page; ps_return_page := return_page; ps_memset := memset |}.

Record kheap := KH {
  blocks : da;
  kheapPageAllocStart : Z;
  kheapPageAllocBreak : Z;
  kheapPlacementStrategy : Z;
  free_bulks : list bulk;        (* [bulks] *)
  bulks_allocated : list bulk;
  kheap_lock : bool              (* held *)
}.
Notation K := (M (kheap * E)).

Definition set_blocks (x : da) (s : kheap) : kheap :=
  KH x (kheapPageAllocStart s) (kheapPageAllocBreak s) (kheapPlacementStrategy s)
     (free_bulks s) (bulks_allocated s) (kheap_lock s).
Definition set_break (x : Z) (s : kheap) : kheap :=
  KH (blocks s) (kheapPageAllocStart s) x (kheapPlacementStrategy s)
     (free_bulks s) (bulks_allocated s) (kheap_lock s).
Definition set_free (x : list bulk) (s : kheap) : kheap :=
  KH (blocks s) (kheapPageAllocStart s) (kheapPageAllocBreak s) (kheapPlacementStrategy s)
     x (bulks_allocated s) (kheap_lock s).
Definition set_allocated (x : list bulk) (s : kheap) : kheap :=
  KH (blocks s) (kheapPageAllocStart s) (kheapPageAllocBreak s) (kheapPlacementStrategy s)
     (free_bulks s) x (kheap_lock s).
Definition set_lock (x : bool) (s : kheap) : kheap :=
  KH (blocks s) (kheapPageAllocStart s) (kheapPageAllocBreak s) (kheapPlacementStrategy s)
     (free_bulks s) (bulks_allocated s) x.

(** Running the dynamic allocator, and the memory manager, on their parts. *)
Definition blk {A} (c : M (da * E) A) : K A :=
  zoom (λ s, (blocks s.1, s.2)) (λ d s, (set_blocks d.1 s.1, d.2)) c.
Definition mem {A} (c : M E A) : K A := zoom snd (λ e s, (s.1, e)) c.
Definition kget {A} (f : kheap → A) : K A := gets (λ s, f s.1).
Definition kset (f : kheap → kheap) : K unit := modify (λ s, (f s.1, s.2)).

(** The lock is not recursive: acquiring it while held panics (kspinlock.c). *)
Definition acquire_kheap_lock : K unit :=
  held ← kget kheap_lock;
  assert_ (negb held) ;; kset (set_lock true).
Definition release_kheap_lock : K unit :=
  held ← kget kheap_lock;
  assert_ held ;; kset (set_lock false).

Definition kheap_init : K unit :=
  kset (set_lock false) ;;
  blk (initialize_dynamic_allocator KERNEL_HEAP_START
        (w32 (KERNEL_HEAP_START + DYN_ALLOC_MAX_SIZE))) ;;
  kset (λ s, let st := w32 (dynAllocEnd (blocks s) + PAGE_SIZE) in
     KH (blocks s) st st KHP_PLACE_CUSTOMFIT (free_bulks s) (bulks_allocated s) (kheap_lock s)).

(** [while (va < end_va)] of [map_frame_range]; returns 0 or E_NO_MEM. *)
Fixpoint map_range_loop (fuel : nat) (va end_va : Z) : K Z :=
  match fuel with
  | O => nofuel
  | Datatypes.S fuel =>
      if decide (va < end_va) then
        r ← mem allocate_frame;
        let '(ret, fi) := r in
        if decide (ret ≠ E_NO_MEM) then
          ret ← mem (map_frame fi va);
          if decide (ret = E_NO_MEM) then mem (free_frame fi) ;; mret E_NO_MEM
          else map_range_loop fuel (w32 (va + PAGE_SIZE)) end_va
        else mret E_NO_MEM
      else mret 0
  end.
Definition range_fuel (size : Z) : nat := Z.to_nat (size / PAGE_SIZE) + 2.
Definition map_frame_range (va_start size : Z) : K Z :=
  map_range_loop (range_fuel size) va_start (w32 (va_start + size)).

(** The descriptor of a new allocated bulk, pushed on [bulks_allocated]. *)
Definition push_allocated_bulk (va size : Z) : K unit :=
  p ← blk (alloc_block SIZEOF_BULK);
  if decide (p = NULL) then undef
  else kset (λ s, set_allocated (Bulk_ p va size :: bulks_allocated s) s).

(** The loop that maps new pages at the break, from the offset [i] on. *)
Fixpoint grow_loop (fuel : nat) (va i needed_bytes : Z) : K bool :=
  match fuel with
  | O => nofuel
  | Datatypes.S fuel =>
      if decide (i < needed_bytes) then
        r ← mem allocate_frame;
        let '(ret, fi) := r in
        if decide (ret = E_NO_MEM) then mret false else
        ret ← mem (map_frame fi (w32 (va + i)));
        if decide (ret = E_NO_MEM) then mem (free_frame fi) ;; mret false
        else grow_loop fuel va (i + PAGE_SIZE) needed_bytes
      else mret true
  end.

(** The first bulk of exactly this size, when the largest is large enough. *)
Definition exact_fit (needed_bytes : Z) (l : list bulk) : option bulk :=
  match l with
  | b :: _ => if decide (needed_bytes ≤ b_size b)
              then snd <$> list_find (λ b, b_size b = needed_bytes) l else None
  | [] => None
  end.

Definition page_alloc_custom_fit (needed_bytes : Z) : K Z :=
  fr ← kget free_bulks;
  match exact_fit needed_bytes fr with
  | Some b =>
      let va := b_start b in
      kset (set_free (bl_remove (b_ptr b) fr)) ;;
      ret ← map_frame_range va needed_bytes;
      if decide (ret = E_NO_MEM) then mret NULL else
      push_allocated_bulk va needed_bytes ;;
      mret va
  | None =>
    match (match fr with bb :: _ => if decide (needed_bytes < b_size bb) then Some bb else None
                       | [] => None end) with
    | Some bb =>
        let va := b_start bb in
        kset (set_free (bl_insert
          (Bulk_ (b_ptr bb) (w32 (b_start bb + needed_bytes)) (w32 (b_size bb - needed_bytes)))
          (bl_remove (b_ptr bb) fr))) ;;
        ret ← map_frame_range va needed_bytes;
        if decide (ret = E_NO_MEM) then mret NULL else
        push_allocated_bulk va needed_bytes ;;
        mret va
    | None =>
        st ← kget kheapPageAllocStart;
        brk ← kget kheapPageAllocBreak;
        if decide (brk < st) then mret NULL else
        if decide (w32 (KERNEL_HEAP_MAX - brk) < needed_bytes) then mret NULL else
        if decide (KERNEL_HEAP_MAX < w32 (brk + needed_bytes)) then mret NULL else
        ok ← grow_loop (range_fuel needed_bytes) brk 0 needed_bytes;
        if negb ok then mret NULL else
        push_allocated_bulk brk needed_bytes ;;
        kset (λ s, set_break (w32 (kheapPageAllocBreak s + needed_bytes)) s) ;;
        mret brk
    end
  end.

Definition merge_bulks (start size : Z) : K unit :=
  fr ← kget free_bulks;
  match bl_before start fr, bl_after start size fr with
  | Some abl, Some ba3d =>
      let fr := bl_remove (b_ptr ba3d) (bl_remove (b_ptr abl) fr) in
      kset (set_free (bl_insert
        (Bulk_ (b_ptr abl) (b_start abl) (w32 (b_size abl + w32 (size + b_size ba3d)))) fr)) ;;
      blk (free_block (b_ptr ba3d))
  | Some abl, None =>
      kset (set_free (bl_insert (Bulk_ (b_ptr abl) (b_start abl) (w32 (b_size abl + size)))
        (bl_remove (b_ptr abl) fr)))
  | None, Some ba3d =>
      kset (set_free (bl_insert (Bulk_ (b_ptr ba3d) start (w32 (b_size ba3d + size)))
        (bl_remove (b_ptr ba3d) fr)))
  | None, None =>
      p ← blk (alloc_block SIZEOF_BULK);
      if decide (p = NULL) then panic
      else kset (set_free (bl_insert (Bulk_ p start size) fr))
  end.

Definition kmalloc (size : Z) : K Z :=
  acquire_kheap_lock ;;
  if decide (size = 0) then release_kheap_lock ;; mret NULL else
  ptr ← (if decide (size ≤ DYN_ALLOC_MAX_BLOCK_SIZE) then blk (alloc_block size)
         else page_alloc_custom_fit (ROUNDUP size PAGE_SIZE));
  release_kheap_lock ;;
  mret ptr.

(** [for (va = start; va < end; va += PAGE_SIZE) unmap_frame(va)]. *)
Fixpoint unmap_loop (fuel : nat) (va end_va : Z) : K unit :=
  match fuel with
  | O => nofuel
  | Datatypes.S fuel =>
      if decide (va < end_va)
      then mem (unmap_frame va) ;; unmap_loop fuel (w32 (va + PAGE_SIZE)) end_va
      else mret ()
  end.

(** [while (break_lowered)]: one round per free bulk below the break, and one
    that finds none. *)
Fixpoint lower_break (fuel : nat) : K unit :=
  match fuel with
  | O => nofuel
  | Datatypes.S fuel =>
      fr ← kget free_bulks;
      brk ← kget kheapPageAllocBreak;
      match list_find (λ b, w32 (b_start b + b_size b) = brk) fr with
      | Some (_, top) =>
          kset (set_free (bl_remove (b_ptr top) fr)) ;;
          kset (set_break (b_start top)) ;;
          blk (free_block (b_ptr top)) ;;
          lower_break fuel
      | None => mret ()
      end
  end.

Definition kfree (va : Z) : K unit :=
  acquire_kheap_lock ;;
  if decide (va = NULL) then release_kheap_lock else
  if decide (va < KERNEL_HEAP_START ∨ KERNEL_HEAP_MAX ≤ va) then panic else
  let blockend := w32 (KERNEL_HEAP_START + DYN_ALLOC_MAX_SIZE) in
  pagestart ← kget kheapPageAllocStart;
  if decide (KERNEL_HEAP_START ≤ va ∧ va < blockend) then
    blk (free_block va) ;;
    release_kheap_lock
  else if decide (pagestart ≤ va ∧ va < KERNEL_HEAP_MAX) then
    al ← kget bulks_allocated;
    match bl_find va al with
    | None => panic
    | Some b =>
        unmap_loop (range_fuel (b_size b)) (b_start b) (w32 (b_start b + b_size b)) ;;
        kset (set_allocated (bl_remove (b_ptr b) al)) ;;
        blk (free_block (b_ptr b)) ;;
        merge_bulks (b_start b) (b_size b) ;;
        fr ← kget free_bulks;
        lower_break (length fr + 1) ;;
        release_kheap_lock
    end
  else mret ().

Definition in_heap_regions (s : kheap) (va : Z) : bool :=
  bool_decide (dynAllocStart (blocks s) ≤ va ∧ va < dynAllocEnd (blocks s)) ||
  bool_decide (kheapPageAllocStart s ≤ va ∧ va < KERNEL_HEAP_MAX).

Definition kheap_virtual_address (physical_address : Z) : K Z :=
  acquire_kheap_lock ;;
  va_base ← mem (frame_info_va physical_address);
  if decide (va_base = 0) then release_kheap_lock ;; mret 0 else
  inr ← kget (λ s, in_heap_regions s va_base);
  if negb inr then release_kheap_lock ;; mret 0 else
  release_kheap_lock ;;
  mret (w32 (va_base + physical_address `mod` PAGE_SIZE)).

Definition kheap_physical_address (virtual_address : Z) : K Z :=
  acquire_kheap_lock ;;
  inr ← kget (λ s, in_heap_regions s virtual_address);
  if negb inr then release_kheap_lock ;; mret 0 else
  pte ← mem (page_table_entry virtual_address);
  match pte with
  | None => release_kheap_lock ;; mret 0
  | Some entry =>
      if decide (Z.land entry PERM_PRESENT = 0) then release_kheap_lock ;; mret 0 else
      release_kheap_lock ;;
      mret (w32 (Z.land entry 4294963200 + virtual_address `mod` PAGE_SIZE))
  end.

Definition krealloc (virtual_address new_size : Z) : K Z := panic.
End code.
