(* ===== verification/KHeapSpec.v ===== *)
(** * Correctness of the kernel heap

    The page region is tiled by its bulks: between its start and the break every
    page belongs to exactly one free or allocated bulk, free bulks are never
    adjacent and never touch the break. [kheap_inv] says so, relates the tiling
    to the two lists of descriptors and to the pages that are mapped, and is
    preserved by every call of [kmalloc] and [kfree]. *)

From Stdlib Require Import Sorting.Sorted.
From S2P Require Import Prelude Queue DynAlloc DynAllocSpec Bulks Tiling KHeap.

(** ** What the heap relies on

    The mapping functions of the memory manager succeed (there are frames), map
    or unmap the one page they are called for, and touch no other page. *)
Class KMemLaws (E : Type) `{KMem E} := {
  mapped : E → Z → Prop;
  alloc_page_law va e :
    ∃ e', alloc_page va e = Ok 0 e' ∧ ∀ v, mapped e' v ↔ mapped e v ∨ v = va;
  unmap_frame_law va e :
    ∃ e', unmap_frame va e = Ok tt e' ∧ ∀ v, mapped e' v ↔ mapped e v ∧ v ≠ va;
  allocate_frame_law e :
    ∃ fi e', allocate_frame e = Ok (0, fi) e' ∧ ∀ v, mapped e' v ↔ mapped e v;
  map_frame_law fi va e :
    ∃ e', map_frame fi va e = Ok 0 e' ∧ ∀ v, mapped e' v ↔ mapped e v ∨ v = va;
  memset_law a c n e v : mapped (memset a c n e) v ↔ mapped e v
}.

(** ** The block region, as the page allocator uses it *)
Definition HEAP_PAGES : Z := 4160753664. (* 0xF8001000 *)

(** Room for one more bulk descriptor. *)
Definition room (d : da) : Prop :=
  freePagesList d ≠ [] ∨ ∃ k b l, (1 ≤ k)%nat ∧ freeBlockLists d !! k = Some (b :: l).
Definition region_ok (d : da) : Prop :=
  da_inv d ∧ dynAllocStart d = KERNEL_HEAP_START ∧ dynAllocEnd d + 4096 = HEAP_PAGES.
(** A live block of at least 16 bytes at [p]. *)
Definition desc_block (d : da) (p : Z) : Prop := ∃ sz, 16 ≤ sz ∧ allocated d p sz.

Section descriptors.
Context {E : Type} `{KMemLaws E}.
Implicit Types (d : da) (e : E).

(** The pages of the page region are untouched. *)
Definition same_pages e e' : Prop := ∀ v, HEAP_PAGES ≤ v → mapped e' v ↔ mapped e v.

Lemma same_pages_refl e : same_pages e e.
Proof. done. Qed.
Lemma same_pages_trans e1 e2 e3 : same_pages e1 e2 → same_pages e2 e3 → same_pages e1 e3.
Proof. intros H1 H2 v Hv. rewrite (H2 v Hv). by apply H1. Qed.

Lemma rounddown_region d va : region_ok d → dynAllocStart d ≤ va < dynAllocEnd d →
  (4096 | va) → ROUNDDOWN va 4096 = va ∧ va < HEAP_PAGES.
Proof.
  intros (_ & Hst & Hen) Hva Hd. unfold ROUNDDOWN, HEAP_PAGES, KERNEL_HEAP_START in *.
  rewrite w32_small by lia. split; [|lia]. apply Z.mod_divide in Hd; lia.
Qed.
Lemma region_page_aligned d i : region_ok d → (4096 | dynAllocStart d + i * 4096).
Proof.
  intros (_ & -> & _). exists (1007616 + i). unfold KERNEL_HEAP_START. lia.
Qed.
Lemma get_page_run d va e : region_ok d → dynAllocStart d ≤ va < dynAllocEnd d → (4096 | va) →
  ∃ e', ps_get_page va e = Ok 0 e' ∧ same_pages e e'.
Proof.
  intros Hd Hva Hal. destruct (rounddown_region d va Hd Hva Hal) as [Hr Hlt].
  destruct (alloc_page_law va e) as (e' & Hrun & Hm). exists e'. split.
  - simpl. unfold get_page, PAGE_SIZE. rewrite Hr. by erewrite bind_Ok by exact Hrun.
  - intros v Hv. rewrite Hm. naive_solver lia.
Qed.
Lemma return_page_run d va e : region_ok d → dynAllocStart d ≤ va < dynAllocEnd d → (4096 | va) →
  ∃ e', ps_return_page va e = Ok tt e' ∧ same_pages e e'.
Proof.
  intros Hd Hva Hal. destruct (rounddown_region d va Hd Hva Hal) as [Hr Hlt].
  destruct (unmap_frame_law va e) as (e' & Hrun & Hm). exists e'. split.
  - simpl. unfold return_page, PAGE_SIZE. by rewrite Hr.
  - intros v Hv. rewrite Hm. naive_solver lia.
Qed.

(** Any allocation from the block region, by a client or for a descriptor. *)
Lemma alloc_region d e n b d' e' : region_ok d → 0 < n ≤ 2048 →
  alloc_block n (d, e) = Ok b (d', e') →
  region_ok d' ∧ same_pages e e' ∧ KERNEL_HEAP_START ≤ b ∧ b < HEAP_PAGES ∧
  ∃ sz, n ≤ sz ∧ (∀ sz', ¬ allocated d b sz') ∧
    ∀ b' sz', allocated d' b' sz' ↔ allocated d b' sz' ∨ b' = b ∧ sz' = sz.
Proof.
  intros Hd Hn Hrun. destruct Hd as (Hi & Hst & Hen) eqn:Hd'. clear Hd'.
  destruct (alloc_block_ok _ _ _ _ _ _ Hi Hn Hrun) as (Hi' & Hst' & Hen' & sz & Hsz & Hfr & Hal).
  assert (allocated d' b sz) as Ha by (apply Hal; by right).
  destruct (allocated_range _ _ _ Hi' Ha) as (? & ? & ?).
  assert (region_ok d') by (split_and!; [done|congruence|lia]).
  split_and!; [done..| |lia|lia|by exists sz].
  destruct (alloc_block_cases d e n Hi Hn) as
    (k & Hk9 & _ & _ & [(k' & b1 & l & _ & _ & _ & Heq)|[(p & ps & _ & Hp & Heq)|(_ & _ & Heq)]]);
    rewrite Heq in Hrun; [by injection Hrun as <- <- <-| |done].
  destruct (get_page_run d (dynAllocStart d + p * 4096) e) as (e1 & Hg & Hs);
    [done| |by apply region_page_aligned|].
  { destruct (inv_pages _ Hi) as [_ Hin]. destruct (proj1 (Hin p)) as [Hr _]; [rewrite Hp; left|].
    pose proof (inv_rng _ Hi). unfold npages in *. lia. }
  rewrite Hg in Hrun. injection Hrun as <- <- <-. intros v Hv. rewrite memset_law. by apply Hs.
Qed.
(** With room, a descriptor is allocated. *)
Lemma alloc_desc d e : region_ok d → room d →
  ∃ p d' e', alloc_block SIZEOF_BULK (d, e) = Ok p (d', e').
Proof.
  intros Hd Hroom. destruct Hd as (Hi & Hst & Hen) eqn:Hd'. clear Hd'.
  destruct (alloc_block_cases d e SIZEOF_BULK Hi) as
    (k & Hk9 & _ & Hmin & [(k' & b1 & l & _ & _ & _ & Heq)|[(p & ps & _ & Hp & Heq)|(Hno & Hfp & Heq)]]);
    [unfold SIZEOF_BULK; lia|by eauto| |].
  - destruct (get_page_run d (dynAllocStart d + p * 4096) e) as (e1 & Hg & Hs);
      [done| |by apply region_page_aligned|].
    { destruct (inv_pages _ Hi) as [_ Hin]. destruct (proj1 (Hin p)) as [Hr _]; [rewrite Hp; left|].
      pose proof (inv_rng _ Hi). unfold npages in *. lia. }
    cbv zeta in Heq. rewrite Hg in Heq. eauto.
  - exfalso. destruct Hroom as [?|(k' & b & l & Hk' & Hl)]; [done|].
    pose proof (inv_class _ _ _ Hi Hl). assert (k ≤ 1)%nat.
    { destruct (decide (k ≤ 1)%nat); [done|]. specialize (Hmin 1%nat ltac:(lia)).
      unfold SIZEOF_BULK, sz_of in Hmin. simpl in Hmin. lia. }
    specialize (Hno k' ltac:(lia)). congruence.
Qed.
(** Releasing any live block; a block of at least 16 bytes leaves room. *)
Lemma free_region d e b sz : region_ok d → allocated d b sz →
  ∃ d' e', free_block b (d, e) = Ok tt (d', e') ∧ region_ok d' ∧ same_pages e e' ∧
    (16 ≤ sz → room d') ∧ ∀ b' sz', allocated d' b' sz' ↔ allocated d b' sz' ∧ b' ≠ b.
Proof.
  intros Hd Ha. destruct Hd as (Hi & Hst & Hen) eqn:Hd'. clear Hd'.
  destruct Ha as (i & k & l & Hr & Hk & Hbs & -> & Hb & Hn) eqn:Ha'. clear Ha'.
  pose proof (free_block_run d e k b l i Hi Hk Hr Hbs Hb Hn) as Hrun.
  destruct (push_facts d k b l i Hi Hk Hr Hbs Hb) as (Hk9 & _ & _ & Hle & _).
  case_decide as Hfull.
  - destruct (return_page_run d (dynAllocStart d + i * 4096) e) as (e' & He' & Hs);
      [done| |by apply region_page_aligned|].
    { pose proof (inv_rng _ Hi). unfold npages in *. lia. }
    rewrite He' in Hrun. exists (returned k l i d), e'.
    split_and!; [done|split_and!; [by eapply ret_inv|done..]|done| |].
    + intros _. left. simpl. by destruct (freePagesList d).
    + intros. by eapply ret_allocated.
  - exists (pushed k b l i d), e.
    split_and!; [done|split_and!; [eapply push_inv; try done; lia|done..]|done| |].
    + intros H16. right. exists k, b, l. split.
      * destruct k; [|lia]. unfold sz_of in H16. simpl in H16. lia.
      * rewrite push_lists by done. by rewrite decide_True.
    + intros. eapply push_allocated; try done; lia.
Qed.
End descriptors.

(** ** The invariant *)
Section inv.
Context {E : Type} `{KMemLaws E}.
Implicit Types (s : kheap) (e : E).

Record kh_okc (c : list seg → Prop) (segs : list seg) (s : kheap) (e : E) : Prop := {
  ko_region : region_ok (blocks s);
  ko_start : kheapPageAllocStart s = HEAP_PAGES;
  ko_tile : tile HEAP_PAGES segs (kheapPageAllocBreak s);
  ko_max : kheapPageAllocBreak s ≤ KERNEL_HEAP_MAX;
  ko_coal : c segs;
  ko_free : free_bulks s ≡ₚ frees segs;
  ko_alloc : bulks_allocated s ≡ₚ allocs segs;
  ko_desc : desc (free_bulks s);
  ko_ptrs : NoDup (b_ptr <$> free_bulks s ++ bulks_allocated s);
  ko_blocks b : b ∈ free_bulks s ++ bulks_allocated s → desc_block (blocks s) (b_ptr b);
  ko_mapped v : HEAP_PAGES ≤ v → (4096 | v) →
    mapped e v ↔ ∃ b, b ∈ bulks_allocated s ∧ b_start b ≤ v < b_start b + b_size b
}.
Notation kh_ok := (kh_okc coal).
Definition kheap_inv s e : Prop := ∃ segs, kh_ok segs s e.

(** The pages of a range. *)
Definition in_range (va n v : Z) : Prop := ∃ i, 0 ≤ i < n ∧ v = va + 4096 * i.
Lemma in_range_succ va n v : 0 ≤ n → in_range va (n + 1) v ↔ v = va ∨ in_range (va + 4096) n v.
Proof.
  intros Hn. unfold in_range. split.
  - intros (i & Hi & ->). destruct (decide (i = 0)) as [->|]; [left; lia|].
    right. exists (i - 1). lia.
  - intros [->|(i & Hi & ->)]; [exists 0; lia|exists (i + 1); lia].
Qed.
Lemma in_range_nil va v : ¬ in_range va 0 v.
Proof. intros (i & ? & _). lia. Qed.
Lemma in_range_iff va n v : (4096 | va) → (4096 | v) → in_range va n v ↔ va ≤ v < va + 4096 * n.
Proof.
  intros [a ->] [b ->]. unfold in_range. split; [intros (i & ? & ?); lia|].
  intros ?. exists (b - a). lia.
Qed.

Lemma mem_run {A} (c : M E A) s e a e' : c e = Ok a e' → mem c (s, e) = Ok a (s, e').
Proof. intros Hc. unfold mem, zoom. simpl. by rewrite Hc. Qed.
Lemma blk_run {A} (c : M (da * E) A) s e a d' e' :
  c (blocks s, e) = Ok a (d', e') → blk c (s, e) = Ok a (set_blocks d' s, e').
Proof. intros Hc. unfold blk, zoom. simpl. by rewrite Hc. Qed.

(** The three loops over the pages of a range. *)
Lemma map_range_run n fuel va s e :
  (n < fuel)%nat → 0 ≤ va → va + 4096 * Z.of_nat n < 4294967296 →
  ∃ e', map_range_loop fuel va (va + 4096 * Z.of_nat n) (s, e) = Ok 0 (s, e') ∧
    ∀ v, mapped e' v ↔ mapped e v ∨ in_range va (Z.of_nat n) v.
Proof.
  revert fuel va e. induction n as [|n IH]; intros fuel va e Hf Hva Hm;
    (destruct fuel as [|fuel]; [lia|]); simpl map_range_loop.
  - rewrite decide_False by lia. exists e. split; [done|]. intros v.
    pose proof (in_range_nil va v). naive_solver.
  - rewrite decide_True by lia.
    destruct (allocate_frame_law e) as (fi & e1 & Hr1 & Hm1).
    erewrite bind_Ok by (apply mem_run; exact Hr1). cbv iota beta.
    rewrite decide_True by done.
    destruct (map_frame_law fi va e1) as (e2 & Hr2 & Hm2).
    erewrite bind_Ok by (apply mem_run; exact Hr2).
    rewrite decide_False by done. unfold PAGE_SIZE. rewrite w32_small by lia.
    destruct (IH fuel (va + 4096) e2) as (e3 & Hr3 & Hm3); [lia..|].
    exists e3. replace (va + 4096 * Z.of_nat (S n)) with (va + 4096 + 4096 * Z.of_nat n) by lia.
    split; [done|]. intros v. rewrite Hm3, Hm2, Hm1.
    rewrite Nat2Z.inj_succ, <- Z.add_1_r, in_range_succ by lia. naive_solver.
Qed.
Lemma grow_run n fuel va i s e :
  (n < fuel)%nat → 0 ≤ i → 0 ≤ va + i → va + i + 4096 * Z.of_nat n < 4294967296 →
  ∃ e', grow_loop fuel va i (i + 4096 * Z.of_nat n) (s, e) = Ok true (s, e') ∧
    ∀ v, mapped e' v ↔ mapped e v ∨ in_range (va + i) (Z.of_nat n) v.
Proof.
  revert fuel i e. induction n as [|n IH]; intros fuel i e Hf Hi Hva Hm;
    (destruct fuel as [|fuel]; [lia|]); simpl grow_loop.
  - rewrite decide_False by lia. exists e. split; [done|]. intros v.
    pose proof (in_range_nil (va + i) v). naive_solver.
  - rewrite decide_True by lia.
    destruct (allocate_frame_law e) as (fi & e1 & Hr1 & Hm1).
    erewrite bind_Ok by (apply mem_run; exact Hr1). cbv iota beta.
    rewrite decide_False by done. rewrite w32_small by lia.
    destruct (map_frame_law fi (va + i) e1) as (e2 & Hr2 & Hm2).
    erewrite bind_Ok by (apply mem_run; exact Hr2).
    rewrite decide_False by done. unfold PAGE_SIZE.
    destruct (IH fuel (i + 4096) e2) as (e3 & Hr3 & Hm3); [lia..|].
    exists e3. replace (i + 4096 * Z.of_nat (S n)) with (i + 4096 + 4096 * Z.of_nat n) by lia.
    split; [done|]. intros v. rewrite Hm3, Hm2, Hm1.
    rewrite Nat2Z.inj_succ, <- Z.add_1_r, in_range_succ by lia. rewrite Z.add_assoc. naive_solver.
Qed.
Lemma unmap_run n fuel va s e :
  (n < fuel)%nat → 0 ≤ va → va + 4096 * Z.of_nat n < 4294967296 →
  ∃ e', unmap_loop fuel va (va + 4096 * Z.of_nat n) (s, e) = Ok tt (s, e') ∧
    ∀ v, mapped e' v ↔ mapped e v ∧ ¬ in_range va (Z.of_nat n) v.
Proof.
  revert fuel va e. induction n as [|n IH]; intros fuel va e Hf Hva Hm;
    (destruct fuel as [|fuel]; [lia|]); simpl unmap_loop.
  - rewrite decide_False by lia. exists e. split; [done|]. intros v.
    pose proof (in_range_nil va v). naive_solver.
  - rewrite decide_True by lia.
    destruct (unmap_frame_law va e) as (e2 & Hr2 & Hm2).
    erewrite bind_Ok by (apply mem_run; exact Hr2).
    unfold PAGE_SIZE. rewrite w32_small by lia.
    destruct (IH fuel (va + 4096) e2) as (e3 & Hr3 & Hm3); [lia..|].
    exists e3. replace (va + 4096 * Z.of_nat (S n)) with (va + 4096 + 4096 * Z.of_nat n) by lia.
    split; [done|]. intros v. rewrite Hm3, Hm2.
    rewrite Nat2Z.inj_succ, <- Z.add_1_r, in_range_succ by lia. naive_solver.
Qed.

(** A range is mapped whole: the fuel covers one round per page. *)
Lemma map_frame_range_run va n s e :
  (4096 | n) → 0 ≤ n → 0 ≤ va → va + n < 4294967296 →
  ∃ e', map_frame_range va n (s, e) = Ok 0 (s, e') ∧
    ∀ v, mapped e' v ↔ mapped e v ∨ in_range va (n / 4096) v.
Proof.
  intros [m ->] Hn Hva Hm. rewrite Z.div_mul by lia.
  destruct (map_range_run (Z.to_nat m) (range_fuel (m * 4096)) va s e) as (e' & Hr & Hp); [|lia..|].
  { unfold range_fuel, PAGE_SIZE. rewrite Z.div_mul by lia. lia. }
  exists e'. rewrite Z2Nat.id in Hr, Hp by lia. split; [|done].
  unfold map_frame_range. rewrite w32_small by lia.
  replace (va + m * 4096) with (va + 4096 * m) by lia. exact Hr.
Qed.

(** The descriptor of a new allocated range. *)
Lemma push_bulk_run s e va n :
  region_ok (blocks s) → room (blocks s) →
  ∃ p d' e', push_allocated_bulk va n (s, e) =
      Ok tt (set_allocated (Bulk_ p va n :: bulks_allocated s) (set_blocks d' s), e') ∧
    region_ok d' ∧ same_pages e e' ∧ (∀ sz, ¬ allocated (blocks s) p sz) ∧ desc_block d' p ∧
    (∀ q sz, allocated (blocks s) q sz → allocated d' q sz).
Proof.
  intros Hd Hroom. destruct (alloc_desc (blocks s) e Hd Hroom) as (p & d' & e' & Hrun).
  destruct (alloc_region _ _ SIZEOF_BULK _ _ _ Hd ltac:(unfold SIZEOF_BULK; lia) Hrun)
    as (Hd' & Hs & Hp & _ & sz & Hsz & Hfr & Hal).
  assert (p ≠ NULL) as Hp0 by (unfold NULL, KERNEL_HEAP_START in *; lia).
  exists p, d', e'. split_and!; try done; try apply Hd'.
  - unfold push_allocated_bulk. erewrite bind_Ok by (apply blk_run; exact Hrun).
    rewrite decide_False by done. done.
  - exists sz. split; [done|]. apply Hal. by right.
  - intros q sz' Hq. apply Hal. by left.
Qed.

(** A range of the tiling becomes (or is appended as) an allocated one. *)
(** The live blocks stay live, and those that are not descriptors stay so. *)
Definition client_keep s s' : Prop :=
  ∀ q sz, allocated (blocks s) q sz → allocated (blocks s') q sz ∧
    (q ∉ b_ptr <$> free_bulks s ++ bulks_allocated s → q ∉ b_ptr <$> free_bulks s' ++ bulks_allocated s').
Lemma client_keep_new s p va n d' fr brk l :
  (∀ sz, ¬ allocated (blocks s) p sz) → b_ptr <$> fr ⊆ b_ptr <$> free_bulks s →
  (∀ q sz, allocated (blocks s) q sz → allocated d' q sz) →
  client_keep s (KH d' (kheapPageAllocStart s) brk (kheapPlacementStrategy s) fr
                   (Bulk_ p va n :: bulks_allocated s) l).
Proof.
  intros Hfr Hsub Hmono q sz Hq. split; [by apply (Hmono q sz)|]. simpl. intros Hqn Hin. apply Hqn.
  rewrite fmap_app, elem_of_app in Hin |- *. destruct Hin as [?%Hsub|Hin]; [by left|].
  rewrite fmap_cons, elem_of_cons in Hin. destruct Hin as [->|]; [|by right].
  simpl in Hq. by destruct (Hfr sz).
Qed.

Lemma kh_ok_new segs s e va n l1 l2 fr brk p d' e1 e' :
  kh_ok segs s e →
  fr ≡ₚ frees (l1 ++ l2) → desc fr → NoDup (b_ptr <$> fr ++ bulks_allocated s) →
  b_ptr <$> fr ⊆ b_ptr <$> free_bulks s →
  bulks_allocated s ≡ₚ allocs (l1 ++ l2) →
  tile HEAP_PAGES (l1 ++ (false, Bulk_ p va n) :: l2) brk → brk ≤ KERNEL_HEAP_MAX →
  coal (l1 ++ (false, Bulk_ p va n) :: l2) →
  (∀ v, mapped e1 v ↔ mapped e v ∨ in_range va (n / 4096) v) → same_pages e1 e' →
  region_ok d' → (∀ sz, ¬ allocated (blocks s) p sz) → desc_block d' p →
  (∀ q sz, allocated (blocks s) q sz → allocated d' q sz) →
  kh_ok (l1 ++ (false, Bulk_ p va n) :: l2)
    (KH d' (kheapPageAllocStart s) brk (kheapPlacementStrategy s) fr
       (Bulk_ p va n :: bulks_allocated s) (kheap_lock s)) e'.
Proof.
  intros Hok Hfr Hdesc Hnd Hsub Hal Ht Hmax Hc Hm Hs Hd' Hfresh Hp Hmono.
  assert (Hold : ∀ q, q ∈ b_ptr <$> free_bulks s ++ bulks_allocated s → desc_block (blocks s) q).
  { intros q (b & -> & Hb)%list_elem_of_fmap. by apply (ko_blocks _ _ _ _ Hok). }
  assert (Hin : ∀ q, q ∈ b_ptr <$> fr ++ bulks_allocated s → q ∈ b_ptr <$> free_bulks s ++ bulks_allocated s).
  { intros q. rewrite !fmap_app, !elem_of_app. intros [?%Hsub|?]; auto. }
  assert (Hpn : p ∉ b_ptr <$> fr ++ bulks_allocated s).
  { intros (sz & _ & Ha)%Hin%Hold. by apply (Hfresh sz). }
  pose proof (tile_range _ _ _ false (Bulk_ p va n) Ht) as (? & ? & ? & Hdn & Hdv); [set_solver|].
  simpl in *. split; simpl; try done.
  - apply (ko_start _ _ _ _ Hok).
  - rewrite Hfr, !frees_app, frees_cons. done.
  - rewrite Hal, !allocs_app, allocs_cons. by rewrite Permutation_middle.
  - rewrite fmap_app, fmap_cons, <- Permutation_middle, NoDup_cons, <- fmap_app. done.
  - intros b. rewrite elem_of_app, elem_of_cons. intros Hb.
    assert (b_ptr b = p ∨ b_ptr b ∈ b_ptr <$> fr ++ bulks_allocated s) as [->|Hq].
    { destruct Hb as [Hb|[->|Hb]]; [right|by left|right]; apply list_elem_of_fmap_2, elem_of_app; auto. }
    + done.
    + destruct (Hold _ (Hin _ Hq)) as (sz & ? & ?). exists sz. auto.
  - intros v Hv Hdvd. rewrite (Hs v Hv), Hm, (ko_mapped _ _ _ _ Hok v Hv Hdvd).
    assert (4096 | va) as Hva.
    { replace va with (va - HEAP_PAGES + HEAP_PAGES) by lia. apply Z.divide_add_r; [done|].
      exists 1015809. reflexivity. }
    rewrite in_range_iff by done. destruct Hdn as [m ->]. rewrite Z.div_mul by lia.
    setoid_rewrite elem_of_cons. split.
    + intros [(b & ? & ?)|?]; [by exists b; auto|]. exists (Bulk_ p va (m * 4096)). simpl. split; [by left|lia].
    + intros (b & [->|?] & ?); [right; simpl in *; lia|left; by exists b].
Qed.

(** Two descriptors of the heap describe disjoint ranges. *)
Lemma alloc_disjoint segs s e b c :
  kh_ok segs s e → b ∈ bulks_allocated s → c ∈ bulks_allocated s → b ≠ c →
  b_start c + b_size c ≤ b_start b ∨ b_start b + b_size b ≤ b_start c.
Proof.
  intros Hok Hb Hc Hne. rewrite (ko_alloc _ _ _ _ Hok), elem_allocs in Hb, Hc.
  apply list_elem_of_split in Hb as (l1 & l2 & ->).
  apply (tile_disjoint _ _ _ _ _ _ false c (ko_tile _ _ _ _ Hok)).
  apply elem_of_app in Hc as [?|[[=]|?]%elem_of_cons]; [set_solver|done|set_solver].
Qed.
Lemma alloc_bounds segs s e b :
  kh_ok segs s e → b ∈ bulks_allocated s →
  HEAP_PAGES ≤ b_start b ∧ b_start b + b_size b ≤ kheapPageAllocBreak s ∧
  0 < b_size b ∧ (4096 | b_size b) ∧ (4096 | b_start b).
Proof.
  intros Hok Hb. rewrite (ko_alloc _ _ _ _ Hok), elem_allocs in Hb.
  destruct (tile_range _ _ _ _ _ (ko_tile _ _ _ _ Hok) Hb) as (? & ? & ? & ? & ?).
  split_and!; try done. replace (b_start b) with (b_start b - HEAP_PAGES + HEAP_PAGES) by lia.
  apply Z.divide_add_r; [done|]. exists 1015809. reflexivity.
Qed.
Lemma exact_fit_elem n l b : exact_fit n l = Some b → b ∈ l ∧ b_size b = n.
Proof.
  destruct l as [|c l]; [done|]. unfold exact_fit. case_decide; [|done].
  destruct (list_find _ (c :: l)) as [[i d]|] eqn:Hf; [|done]. intros [= <-].
  apply list_find_Some in Hf as (Hl & Hd & _). split; [by eapply list_elem_of_lookup_2|done].
Qed.
Lemma exact_fit_none n l b : desc l → exact_fit n l = None → b ∈ l → b_size b ≠ n.
Proof.
  intros Hd He Hb Heq. destruct l as [|c l]; [by apply elem_of_nil in Hb|].
  unfold exact_fit in He. rewrite decide_True in He by (rewrite <- Heq; by eapply desc_head).
  destruct (list_find _ (c :: l)) as [[i d]|] eqn:Hf; [done|].
  apply list_find_None in Hf. rewrite Forall_forall in Hf. by apply (Hf b Hb).
Qed.

Lemma heap_consts : HEAP_PAGES = 4160753664 ∧ KERNEL_HEAP_MAX = 4294963200.
Proof. done. Qed.
Lemma page_alloc_exact segs s e n b :
  kh_ok segs s e → room (blocks s) → exact_fit n (free_bulks s) = Some b →
  ∃ p s' e' segs', page_alloc_custom_fit n (s, e) = Ok (b_start b) (s', e') ∧ kh_ok segs' s' e' ∧
    kheap_lock s' = kheap_lock s ∧ bulks_allocated s' = Bulk_ p (b_start b) n :: bulks_allocated s ∧
    client_keep s s' ∧
    free_bulks s' = bl_remove (b_ptr b) (free_bulks s) ∧ (∀ sz, ¬ allocated (blocks s) p sz).
Proof.
  intros Hok Hroom Hf. destruct (exact_fit_elem _ _ _ Hf) as [Hb Hn].
  assert (Hsb := Hb). rewrite (ko_free _ _ _ _ Hok), elem_frees in Hsb.
  destruct (list_elem_of_split _ _ Hsb) as (l1 & l2 & ->).
  pose proof (ko_tile _ _ _ _ Hok) as Ht. destruct (tile_range _ _ _ _ _ Ht Hsb) as (? & ? & ? & ? & ?).
  pose proof (ko_max _ _ _ _ Hok). destruct heap_consts as (? & ?).
  unfold page_alloc_custom_fit. erewrite bind_Ok by reflexivity. simpl. rewrite Hf.
  erewrite bind_Ok by reflexivity. simpl.
  set (fr := bl_remove (b_ptr b) (free_bulks s)).
  destruct (map_frame_range_run (b_start b) n (set_free fr s) e) as (e1 & Hr1 & Hm1);
    [by rewrite <- Hn|lia..|].
  erewrite bind_Ok by exact Hr1. rewrite decide_False by done.
  destruct (push_bulk_run (set_free fr s) e1 (b_start b) n (ko_region _ _ _ _ Hok) Hroom)
    as (p & d' & e' & Hr2 & Hd' & Hs & Hfresh & Hp & Hmono).
  erewrite bind_Ok by exact Hr2. eexists p, _, e', (l1 ++ (false, Bulk_ p (b_start b) n) :: l2). split; [done|].
  pose proof (ko_ptrs _ _ _ _ Hok) as Hnd. pose proof Hnd as Hnf. rewrite fmap_app in Hnf.
  apply NoDup_app in Hnf as (Hnf & _ & _). pose proof (bl_remove_perm b _ Hnf Hb) as Hperm. fold fr in Hperm.
  assert (Hsub : b_ptr <$> fr ⊆ b_ptr <$> free_bulks s).
  { intros q (c & -> & [_ Hc]%list_elem_of_filter)%list_elem_of_fmap. by apply list_elem_of_fmap_2. }
  split; [|split_and!; [done|done|exact (client_keep_new s p _ _ d' fr _ _ Hfresh Hsub Hmono)|done|done]].
  apply (kh_ok_new (l1 ++ (true, b) :: l2) s e (b_start b) n l1 l2 fr (kheapPageAllocBreak s) p d' e1 e'); try done.
  - apply (Permutation_cons_inv (a := b)). rewrite <- Hperm, (ko_free _ _ _ _ Hok).
    rewrite !frees_app, frees_cons. by rewrite Permutation_middle.
  - apply desc_filter, (ko_desc _ _ _ _ Hok).
  - rewrite Hperm in Hnd. by apply NoDup_cons in Hnd as [_ ?].
  - rewrite (ko_alloc _ _ _ _ Hok), !allocs_app, allocs_cons. done.
  - apply tile_app in Ht as (m & Ht1 & Ht2). apply tile_app. exists m. split; [done|].
    simpl in *. by rewrite <- Hn.
  - pose proof (ko_coal _ _ _ _ Hok) as Hc. apply coal_snoc; [by eapply coal_front|].
    by eapply coal_back.
Qed.

(** No free range is large enough: the break decides. *)
Lemma page_alloc_full s e n :
  (∀ b, b ∈ free_bulks s → b_size b < n) →
  page_alloc_custom_fit n (s, e) =
  (if decide (kheapPageAllocBreak s < kheapPageAllocStart s) then mret NULL else
   if decide (w32 (KERNEL_HEAP_MAX - kheapPageAllocBreak s) < n) then mret NULL else
   if decide (KERNEL_HEAP_MAX < w32 (kheapPageAllocBreak s + n)) then mret NULL else
   ok ← grow_loop (range_fuel n) (kheapPageAllocBreak s) 0 n;
   if negb ok then mret NULL else
   push_allocated_bulk (kheapPageAllocBreak s) n ;;
   kset (λ s, set_break (w32 (kheapPageAllocBreak s + n)) s) ;;
   mret (kheapPageAllocBreak s)) (s, e).
Proof.
  intros Hall. unfold page_alloc_custom_fit. erewrite bind_Ok by reflexivity. simpl.
  destruct (free_bulks s) as [|b fs]; simpl; [done|].
  rewrite (decide_False (P:=n ≤ b_size b)), (decide_False (P:=n < b_size b)); [done|..];
    specialize (Hall b ltac:(left)); lia.
Qed.

Lemma page_alloc_worst segs s e n bb :
  kh_ok segs s e → room (blocks s) → 0 < n → (4096 | n) → n < b_size bb →
  exact_fit n (free_bulks s) = None → head (free_bulks s) = Some bb →
  ∃ p s' e' segs', page_alloc_custom_fit n (s, e) = Ok (b_start bb) (s', e') ∧ kh_ok segs' s' e' ∧
    kheap_lock s' = kheap_lock s ∧ bulks_allocated s' = Bulk_ p (b_start bb) n :: bulks_allocated s ∧
    client_keep s s'.
Proof.
  intros Hok Hroom Hn0 Hdiv Hlt Hf Hhd.
  destruct (free_bulks s) as [|bb' fs] eqn:Hfs; [done|]. injection Hhd as ->.
  assert (Hb : bb ∈ free_bulks s) by (rewrite Hfs; left).
  assert (Hsb := Hb). rewrite (ko_free _ _ _ _ Hok), elem_frees in Hsb.
  destruct (list_elem_of_split _ _ Hsb) as (l1 & l2 & ->).
  pose proof (ko_tile _ _ _ _ Hok) as Ht. destruct (tile_range _ _ _ _ _ Ht Hsb) as (? & ? & ? & ? & ?).
  pose proof (ko_max _ _ _ _ Hok). destruct heap_consts as (? & ?).
  unfold page_alloc_custom_fit. erewrite bind_Ok by reflexivity. simpl. rewrite Hfs, Hf.
  rewrite decide_True by done. erewrite bind_Ok by reflexivity. simpl. rewrite !w32_small by lia.
  set (b' := Bulk_ (b_ptr bb) (b_start bb + n) (b_size bb - n)).
  set (fr := bl_insert b' (bl_remove (b_ptr bb) (bb :: fs))).
  destruct (map_frame_range_run (b_start bb) n (set_free fr s) e) as (e1 & Hr1 & Hm1); [done|lia..|].
  erewrite bind_Ok by exact Hr1. rewrite decide_False by done.
  destruct (push_bulk_run (set_free fr s) e1 (b_start bb) n (ko_region _ _ _ _ Hok) Hroom)
    as (p & d' & e' & Hr2 & Hd' & Hs & Hfresh & Hp & Hmono).
  erewrite bind_Ok by exact Hr2.
  eexists p, _, e', (l1 ++ (false, Bulk_ p (b_start bb) n) :: (true, b') :: l2). split; [done|].
  pose proof (ko_ptrs _ _ _ _ Hok) as Hnd. pose proof Hnd as Hnf. rewrite fmap_app in Hnf.
  apply NoDup_app in Hnf as (Hnf & _ & _). pose proof (bl_remove_perm bb _ Hnf Hb) as Hperm.
  rewrite Hfs in Hperm at 2.
  assert (Hfrp : fr ≡ₚ b' :: bl_remove (b_ptr bb) (bb :: fs)) by apply bl_insert_perm.
  assert (Hsub : b_ptr <$> fr ⊆ b_ptr <$> free_bulks s) by (by rewrite Hfrp, Hperm).
  split; [|split_and!; [done|done|exact (client_keep_new s p _ _ d' fr _ _ Hfresh Hsub Hmono)]].
  apply (kh_ok_new (l1 ++ (true, bb) :: l2) s e (b_start bb) n l1 ((true, b') :: l2) fr
    (kheapPageAllocBreak s) p d' e1 e'); try done.
  - rewrite Hfrp, frees_app, frees_cons, <- Permutation_middle, <- frees_app. f_equiv.
    apply (Permutation_cons_inv (a := bb)). rewrite <- Hperm, (ko_free _ _ _ _ Hok).
    rewrite !frees_app, frees_cons. by rewrite Permutation_middle.
  - apply bl_insert_desc, desc_filter. rewrite <- Hfs. apply (ko_desc _ _ _ _ Hok).
  - rewrite Hfrp. rewrite Hperm in Hnd. done.
  - rewrite (ko_alloc _ _ _ _ Hok), !allocs_app, allocs_cons. done.
  - apply tile_app in Ht as (m & Ht1 & Ht2). apply tile_app. exists m. split; [done|].
    simpl in *. destruct Ht2 as (Hm & ? & ? & Ht2). split_and!; try done; try lia.
    + by apply Z.divide_sub_r.
    + replace (m + n + (b_size bb - n)) with (m + b_size bb) by lia. done.
  - pose proof (ko_coal _ _ _ _ Hok) as Hc. apply coal_snoc; [by eapply coal_front|].
    by eapply coal_tail.
Qed.

Lemma page_alloc_grow segs s e n :
  kh_ok segs s e → room (blocks s) → 0 < n → (4096 | n) → n < 4294967296 →
  (∀ b, b ∈ free_bulks s → b_size b < n) → kheapPageAllocBreak s + n ≤ KERNEL_HEAP_MAX →
  ∃ p s' e' segs', page_alloc_custom_fit n (s, e) = Ok (kheapPageAllocBreak s) (s', e') ∧ kh_ok segs' s' e' ∧
    kheap_lock s' = kheap_lock s ∧
    bulks_allocated s' = Bulk_ p (kheapPageAllocBreak s) n :: bulks_allocated s ∧
    client_keep s s'.
Proof.
  intros Hok Hroom Hn0 Hdiv Hn Hall Hmax. pose proof (ko_tile _ _ _ _ Hok) as Ht.
  pose proof (tile_le _ _ _ Ht). destruct heap_consts as (? & ?).
  rewrite (page_alloc_full s e n) by (done || lia).
  rewrite (ko_start _ _ _ _ Hok). rewrite !decide_False by (rewrite ?w32_small by lia; lia).
  destruct (grow_run (Z.to_nat (n / 4096)) (range_fuel n) (kheapPageAllocBreak s) 0 s e)
    as (e1 & Hr1 & Hm1); [unfold range_fuel, PAGE_SIZE; lia|lia|lia|..].
  { destruct Hdiv as [m ->]. rewrite Z.div_mul by lia. lia. }
  rewrite Z2Nat.id in Hr1, Hm1 by (apply Z.div_pos; lia).
  replace (0 + 4096 * (n / 4096)) with n in Hr1 by (destruct Hdiv as [m ->]; rewrite Z.div_mul; lia).
  rewrite Z.add_0_r in Hm1. erewrite bind_Ok by exact Hr1. simpl.
  destruct (push_bulk_run s e1 (kheapPageAllocBreak s) n (ko_region _ _ _ _ Hok) Hroom)
    as (p & d' & e' & Hr2 & Hd' & Hs & Hfresh & Hp & Hmono).
  erewrite bind_Ok by exact Hr2. erewrite bind_Ok by reflexivity. simpl. rewrite w32_small by lia.
  eexists p, _, e', (segs ++ (false, Bulk_ p (kheapPageAllocBreak s) n) :: []). split; [done|].
  split; [|split_and!; [done|done|exact (client_keep_new s p _ _ d' (free_bulks s) _ _ Hfresh (reflexivity _) Hmono)]].
  apply (kh_ok_new segs s e (kheapPageAllocBreak s) n segs [] (free_bulks s)
    (kheapPageAllocBreak s + n) p d' e1 e'); rewrite ?app_nil_r; try done; try apply Hok.
  - apply tile_app. exists (kheapPageAllocBreak s). split; [done|]. done.
  - apply coal_snoc; [apply (ko_coal _ _ _ _ Hok)|done].
Qed.

(** ** Releasing a range

    While a range is being released it is a hole between the parts [l1] and [l2]
    of the tiling. *)
Record kh_hole (l1 l2 : list seg) (st sz : Z) (s : kheap) (e : E) : Prop := {
  h_region : region_ok (blocks s);
  h_start : kheapPageAllocStart s = HEAP_PAGES;
  h_left : tile HEAP_PAGES l1 st;
  h_right : tile (st + sz) l2 (kheapPageAllocBreak s);
  h_size : 0 < sz ∧ (4096 | sz);
  h_max : kheapPageAllocBreak s ≤ KERNEL_HEAP_MAX;
  h_free : free_bulks s ≡ₚ frees (l1 ++ l2);
  h_alloc : bulks_allocated s ≡ₚ allocs (l1 ++ l2);
  h_desc : desc (free_bulks s);
  h_ptrs : NoDup (b_ptr <$> free_bulks s ++ bulks_allocated s);
  h_blocks b : b ∈ free_bulks s ++ bulks_allocated s → desc_block (blocks s) (b_ptr b);
  h_mapped v : HEAP_PAGES ≤ v → (4096 | v) →
    mapped e v ↔ ∃ b, b ∈ bulks_allocated s ∧ b_start b ≤ v < b_start b + b_size b
}.

(** Filling the hole with one free range. *)
Lemma hole_fill l1 l2 l0 l3 st sz s e m rest d' e' :
  kh_hole l1 l2 st sz s e →
  rest ≡ₚ frees (l0 ++ l3) → desc rest → allocs (l0 ++ l3) = allocs (l1 ++ l2) →
  tile HEAP_PAGES (l0 ++ (true, m) :: l3) (kheapPageAllocBreak s) →
  NoDup (b_ptr m :: (b_ptr <$> rest ++ bulks_allocated s)) →
  region_ok d' → desc_block d' (b_ptr m) →
  (∀ b, b ∈ rest ++ bulks_allocated s → desc_block d' (b_ptr b)) → same_pages e e' →
  kh_okc (λ _, True) (l0 ++ (true, m) :: l3)
    (KH d' (kheapPageAllocStart s) (kheapPageAllocBreak s) (kheapPlacementStrategy s)
       (bl_insert m rest) (bulks_allocated s) (kheap_lock s)) e'.
Proof.
  intros Hh Hrest Hdesc Hal Ht Hnd Hd' Hm Hb Hs.
  pose proof (bl_insert_perm m rest) as Hp. split; simpl; try done; try apply Hh.
  - rewrite Hp, frees_app, frees_cons, <- Permutation_middle, <- frees_app. by f_equiv.
  - rewrite (h_alloc _ _ _ _ _ _ Hh), <- Hal, !allocs_app, allocs_cons. done.
  - by apply bl_insert_desc.
  - rewrite Hp. done.
  - intros b. rewrite Hp. intros [->|?]%elem_of_cons; auto.
  - intros v Hv Hdv. rewrite (Hs v Hv). by apply Hh.
Qed.

Lemma desc_block_keep d d' q p :
  (∀ b' sz', allocated d' b' sz' ↔ allocated d b' sz' ∧ b' ≠ p) → desc_block d q → q ≠ p → desc_block d' q.
Proof. intros Hal (sz & ? & ?) ?. exists sz. split; [done|]. by apply Hal. Qed.

(** What a release keeps: the allocated ranges, and the blocks of the clients. *)
Definition keeps (s s' : kheap) : Prop :=
  bulks_allocated s' = bulks_allocated s ∧ kheap_lock s' = kheap_lock s ∧
  ∀ q sz, allocated (blocks s) q sz → q ∉ b_ptr <$> free_bulks s ++ bulks_allocated s →
          allocated (blocks s') q sz ∧ q ∉ b_ptr <$> free_bulks s' ++ bulks_allocated s'.



Section merge.
Context (l0 l3 : list seg) (st sz : Z) (s : kheap) (e : E).
Context (oc od : option bulk).
Let l1 := l0 ++ opt_seg oc.
Let l2 := opt_seg od ++ l3.
Hypothesis Hh : kh_hole l1 l2 st sz s e.
Hypothesis Hroom : room (blocks s).
Hypothesis Hc : bl_before st (free_bulks s) = oc.
Hypothesis Hd : bl_after st sz (free_bulks s) = od.

Lemma merge_nodup : NoDup (b_ptr <$> free_bulks s).
Proof using Hh. pose proof (h_ptrs _ _ _ _ _ _ Hh) as Hn. rewrite fmap_app in Hn. by apply NoDup_app in Hn as (? & _). Qed.
Lemma merge_bound : 0 ≤ st ∧ kheapPageAllocBreak s < 4294967296 ∧ st + sz ≤ kheapPageAllocBreak s ∧ 0 < sz.
Proof using Hh.
  destruct (h_size _ _ _ _ _ _ Hh).
  pose proof (tile_le _ _ _ (h_left _ _ _ _ _ _ Hh)). pose proof (tile_le _ _ _ (h_right _ _ _ _ _ _ Hh)).
  pose proof (h_max _ _ _ _ _ _ Hh). destruct heap_consts. lia.
Qed.

Definition merged : Prop := ∃ m s' e',
  merge_bulks st sz (s, e) = Ok tt (s', e') ∧ kh_okc (λ _, True) (l0 ++ (true, m) :: l3) s' e' ∧
  keeps s s' ∧ kheapPageAllocBreak s' = kheapPageAllocBreak s.

Lemma merge_none : oc = None → od = None → merged.
Proof using Hh Hroom Hc Hd.
  intros Hoc Hod. unfold l1, l2 in Hh. rewrite Hoc, Hod in *. simpl in *. rewrite app_nil_r in *.
  destruct (alloc_desc (blocks s) e (h_region _ _ _ _ _ _ Hh) Hroom) as (p & d' & e' & Hrun).
  destruct (alloc_region _ _ SIZEOF_BULK _ _ _ (h_region _ _ _ _ _ _ Hh) ltac:(unfold SIZEOF_BULK; lia) Hrun)
    as (Hd' & Hs & Hp & _ & sz' & Hsz & Hfr & Hal).
  assert (p ≠ NULL) as Hp0 by (unfold NULL, KERNEL_HEAP_START in *; lia).
  assert (Hpn : p ∉ b_ptr <$> free_bulks s ++ bulks_allocated s).
  { intros (b & -> & Hb)%list_elem_of_fmap. destruct (h_blocks _ _ _ _ _ _ Hh b Hb) as (z & _ & Ha).
    by apply (Hfr z). }
  exists (Bulk_ p st sz). eexists _, e'. split_and!.
  - unfold merge_bulks. erewrite bind_Ok by reflexivity. simpl. rewrite Hc, Hd.
    erewrite bind_Ok by (apply blk_run; exact Hrun). rewrite decide_False by done. reflexivity.
  - apply (hole_fill l0 l3 l0 l3 st sz s e); try done; try apply Hh.
    + apply tile_app. exists st. split; [apply Hh|]. simpl. split_and!; try done; try apply Hh.
    + simpl. constructor; [done|apply Hh].
    + exists sz'. split; [done|]. apply Hal. by right.
    + intros b Hb. destruct (h_blocks _ _ _ _ _ _ Hh b Hb) as (z & ? & ?). exists z.
      split; [done|]. apply Hal. by left.
  - split_and!; [done..|]. simpl. intros q z Hq Hqn. split; [apply Hal; by left|].
    rewrite bl_insert_perm. simpl. apply not_elem_of_cons. split; [|done]. intros ->. by apply (Hfr z).
  - done.
Qed.

Lemma merge_left_tile c : oc = Some c →
  tile HEAP_PAGES l0 (b_start c) ∧ b_start c + b_size c = st ∧ 0 < b_size c ∧ (4096 | b_size c) ∧ HEAP_PAGES ≤ b_start c.
Proof using Hh.
  intros Hoc. pose proof (h_left _ _ _ _ _ _ Hh) as Ht. unfold l1 in Ht. rewrite Hoc in Ht. apply tile_app in Ht as (m & H1 & H2).
  simpl in H2. destruct H2 as (<- & ? & ? & ?). pose proof (tile_le _ _ _ H1). done.
Qed.
Lemma merge_right_tile d : od = Some d →
  b_start d = st + sz ∧ tile (st + sz + b_size d) l3 (kheapPageAllocBreak s) ∧
  0 < b_size d ∧ (4096 | b_size d) ∧ st + sz + b_size d ≤ kheapPageAllocBreak s.
Proof using Hh.
  intros Hod. pose proof (h_right _ _ _ _ _ _ Hh) as Ht. unfold l2 in Ht. rewrite Hod in Ht. simpl in Ht. destruct Ht as (? & ? & ? & Ht).
  pose proof (tile_le _ _ _ Ht). done.
Qed.

Lemma merge_before c : oc = Some c → od = None → merged.
Proof using Hh Hc Hd.
  intros Hoc Hod. destruct (merge_left_tile c Hoc) as (Ht0 & Hcst & Hc0 & Hcd & ?).
  destruct merge_bound as (? & ? & ? & ?). destruct heap_consts as (? & ?).
  pose proof merge_nodup as Hnd. unfold l1, l2 in Hh. rewrite Hoc, Hod in *. simpl in *.
  destruct (perm_split c (free_bulks s) l0 l3 Hnd) as [Hrest Hperm].
  { rewrite (h_free _ _ _ _ _ _ Hh). by rewrite <- app_assoc. }
  pose proof (h_ptrs _ _ _ _ _ _ Hh) as Hn2. rewrite Hperm in Hn2.
  exists (Bulk_ (b_ptr c) (b_start c) (b_size c + sz)). eexists _, e. split_and!.
  - unfold merge_bulks. erewrite bind_Ok by reflexivity. simpl. rewrite Hc, Hd.
    rewrite w32_small by lia. reflexivity.
  - apply (hole_fill _ _ l0 l3 st sz s e _ (bl_remove (b_ptr c) (free_bulks s)) (blocks s) e Hh); try done.
    + apply desc_filter, Hh.
    + rewrite <- app_assoc, !allocs_app. done.
    + apply tile_app. exists (b_start c). split; [done|]. simpl. split_and!; [done|lia|..].
      * apply Z.divide_add_r; [done|apply Hh].
      * replace (b_start c + (b_size c + sz)) with (st + sz) by lia. apply Hh.
    + apply Hh.
    + apply (h_blocks _ _ _ _ _ _ Hh c). rewrite Hperm. left.
    + intros b Hb. apply Hh. rewrite Hperm. by right.
  - split_and!; [done..|]. simpl. intros q z Hq Hqn. split; [done|].
    rewrite bl_insert_perm. simpl. rewrite Hperm in Hqn. done.
  - done.
Qed.

Lemma merge_after d : oc = None → od = Some d → merged.
Proof using Hh Hc Hd.
  intros Hoc Hod. destruct (merge_right_tile d Hod) as (Hdst & Ht3 & Hd0 & Hdd & ?).
  destruct merge_bound as (? & ? & ? & ?). destruct heap_consts as (? & ?).
  pose proof merge_nodup as Hnd. unfold l1, l2 in Hh. rewrite Hoc, Hod in *. simpl in *.
  rewrite app_nil_r in *.
  destruct (perm_split d (free_bulks s) l0 l3 Hnd) as [Hrest Hperm].
  { apply (h_free _ _ _ _ _ _ Hh). }
  pose proof (h_ptrs _ _ _ _ _ _ Hh) as Hn2. rewrite Hperm in Hn2.
  exists (Bulk_ (b_ptr d) st (b_size d + sz)). eexists _, e. split_and!.
  - unfold merge_bulks. erewrite bind_Ok by reflexivity. simpl. rewrite Hc, Hd.
    rewrite w32_small by lia. reflexivity.
  - apply (hole_fill _ _ l0 l3 st sz s e _ (bl_remove (b_ptr d) (free_bulks s)) (blocks s) e Hh); try done.
    + apply desc_filter, Hh.
    + rewrite !allocs_app, allocs_cons. done.
    + apply tile_app. exists st. split; [apply Hh|]. simpl. split_and!; [done|lia|..].
      * apply Z.divide_add_r; [done|apply Hh].
      * replace (st + (b_size d + sz)) with (st + sz + b_size d) by lia. done.
    + apply Hh.
    + apply (h_blocks _ _ _ _ _ _ Hh d). rewrite Hperm. left.
    + intros b Hb. apply Hh. rewrite Hperm. by right.
  - split_and!; [done..|]. simpl. intros q z Hq Hqn. split; [done|].
    rewrite bl_insert_perm. simpl. rewrite Hperm in Hqn. done.
  - done.
Qed.

Lemma merge_both c d : oc = Some c → od = Some d → merged.
Proof using Hh Hc Hd.
  intros Hoc Hod. destruct (merge_left_tile c Hoc) as (Ht0 & Hcst & Hc0 & Hcd & ?).
  destruct (merge_right_tile d Hod) as (Hdst & Ht3 & Hd0 & Hdd & ?).
  destruct merge_bound as (? & ? & ? & ?). destruct heap_consts as (? & ?).
  pose proof merge_nodup as Hnd. unfold l1, l2 in Hh. rewrite Hoc, Hod in *. simpl in *.
  destruct (perm_split c (free_bulks s) l0 ((true, d) :: l3) Hnd) as [Hrest1 Hperm1].
  { rewrite (h_free _ _ _ _ _ _ Hh). by rewrite <- app_assoc. }
  set (fr1 := bl_remove (b_ptr c) (free_bulks s)) in *.
  assert (Hnd1 : NoDup (b_ptr <$> fr1)).
  { rewrite Hperm1 in Hnd. by apply NoDup_cons in Hnd as [_ ?]. }
  destruct (perm_split d fr1 l0 l3 Hnd1 Hrest1) as [Hrest Hperm2].
  set (fr2 := bl_remove (b_ptr d) fr1) in *.
  pose proof (h_ptrs _ _ _ _ _ _ Hh) as Hn2. rewrite Hperm1, Hperm2 in Hn2.
  assert (Hin : ∀ b, b ∈ c :: d :: fr2 ++ bulks_allocated s → desc_block (blocks s) (b_ptr b)).
  { intros b Hb. apply Hh. rewrite Hperm1, Hperm2. done. }
  assert (Hdb : desc_block (blocks s) (b_ptr d)) by (apply Hin; right; left).
  destruct Hdb as (z & Hz & Ha).
  destruct (free_region _ e _ _ (h_region _ _ _ _ _ _ Hh) Ha) as (d' & e' & Hrun & Hd' & Hs & _ & Hal).
  change (NoDup (b_ptr c :: b_ptr d :: (b_ptr <$> fr2 ++ bulks_allocated s))) in Hn2.
  rewrite !NoDup_cons, not_elem_of_cons in Hn2. destruct Hn2 as ((Hcd' & Hcn) & Hdn & Hn2).
  exists (Bulk_ (b_ptr c) (b_start c) (b_size c + (sz + b_size d))). eexists _, e'. split_and!.
  - unfold merge_bulks. erewrite bind_Ok by reflexivity. simpl. rewrite Hc, Hd.
    fold fr1. fold fr2. rewrite !w32_small by (rewrite ?w32_small by lia; lia).
    erewrite bind_Ok by reflexivity. by apply blk_run.
  - apply (hole_fill _ _ l0 l3 st sz s e _ fr2 d' e' Hh); try done.
    + apply desc_filter, desc_filter, Hh.
    + rewrite <- app_assoc, !allocs_app. done.
    + apply tile_app. exists (b_start c). split; [done|]. simpl. split_and!; [done|lia|..].
      * apply Z.divide_add_r; [done|]. apply Z.divide_add_r; [apply Hh|done].
      * replace (b_start c + (b_size c + (sz + b_size d))) with (st + sz + b_size d) by lia. done.
    + simpl. by constructor.
    + eapply (desc_block_keep _ _ (b_ptr c)); [done|apply (Hin c); left|done].
    + intros b Hb. eapply desc_block_keep; [done|apply Hin; by do 2 right|].
      intros Heq. apply Hdn. rewrite <- Heq. by apply list_elem_of_fmap_2.
  - split_and!; [done..|]. simpl. intros q z' Hq Hqn.
    rewrite Hperm1, Hperm2 in Hqn. simpl in Hqn. rewrite !not_elem_of_cons in Hqn.
    split; [apply Hal; naive_solver|].
    rewrite bl_insert_perm. simpl. rewrite not_elem_of_cons. naive_solver.
  - done.
Qed.

Lemma merge_run : merged.
Proof using Hh Hroom Hc Hd.
  case_eq oc; case_eq od.
  - intros d Hod c Hoc. exact (merge_both c d Hoc Hod).
  - intros Hod c Hoc. exact (merge_before c Hoc Hod).
  - intros d Hod Hoc. exact (merge_after d Hoc Hod).
  - intros Hod Hoc. exact (merge_none Hoc Hod).
Qed.
End merge.

(** Lowering the break over the free range below it, if there is one. *)
Lemma ends_at_break segs s e b : kh_okc (λ _, True) segs s e → b ∈ free_bulks s →
  w32 (b_start b + b_size b) = kheapPageAllocBreak s ↔ last_free segs = Some b.
Proof.
  intros Hok Hb. pose proof (ko_tile _ _ _ _ Hok) as Ht. pose proof (frees_end _ _ _ Ht) as Hf.
  rewrite (ko_free _ _ _ _ Hok) in Hb. pose proof (proj1 (elem_frees _ _) Hb) as Hs.
  pose proof (tile_range _ _ _ _ _ Ht Hs). pose proof (ko_max _ _ _ _ Hok). destruct heap_consts as (? & ?).
  rewrite w32_small by lia.
  assert (b ∈ filter (λ c, b_start c + b_size c = kheapPageAllocBreak s) (frees segs) ↔
          b_start b + b_size b = kheapPageAllocBreak s) as <- by (rewrite list_elem_of_filter; naive_solver).
  rewrite Hf. destruct (last_free segs) as [c|]; simpl.
  - rewrite list_elem_of_singleton. naive_solver.
  - rewrite elem_of_nil. naive_solver.
Qed.
Lemma lower_none fuel segs s e : (0 < fuel)%nat → kh_okc (λ _, True) segs s e → last_free segs = None →
  lower_break fuel (s, e) = Ok tt (s, e).
Proof.
  intros Hf Hok Hl. destruct fuel as [|fuel]; [lia|]. simpl.
  erewrite bind_Ok by reflexivity. erewrite bind_Ok by reflexivity. simpl.
  destruct (list_find _ (free_bulks s)) as [[i b]|] eqn:Hfd; [|done].
  apply list_find_Some in Hfd as (Hi & Hb & _). apply list_elem_of_lookup_2 in Hi.
  apply (ends_at_break segs s e b Hok Hi) in Hb. congruence.
Qed.
Lemma coal_weaken segs s e : kh_ok segs s e → kh_okc (λ _, True) segs s e.
Proof. intros Hok. by split; try apply Hok. Qed.
Lemma coal_strengthen segs s e : coal segs → kh_okc (λ _, True) segs s e → kh_ok segs s e.
Proof. intros Hc Hok. by split; try apply Hok. Qed.

Lemma lower_run fuel l0 m l3 s e :
  (length (free_bulks s) < fuel)%nat → kh_okc (λ _, True) (l0 ++ (true, m) :: l3) s e →
  coal l0 → coal l3 → head_free l3 = None →
  ∃ s' e', lower_break fuel (s, e) = Ok tt (s', e') ∧ kheap_inv s' e' ∧ keeps s s' ∧
    kheapPageAllocBreak s' ≤ kheapPageAllocBreak s.
Proof.
  intros Hf Hok H0c H3c Hh. destruct l3 as [|x l3].
  2:{ exists s, e. assert (coal (l0 ++ (true, m) :: x :: l3)) as Hc by by apply coal_join.
      split_and!; [|exists (l0 ++ (true, m) :: x :: l3); by apply coal_strengthen|by unfold keeps; auto|lia].
      eapply lower_none; [lia|done|by apply coal_last]. }
  pose proof (ko_free _ _ _ _ Hok) as Hfr.
  assert (Hm : m ∈ free_bulks s) by (rewrite Hfr, elem_frees; set_solver).
  assert (Hlast : last_free (l0 ++ [(true, m)]) = Some m) by (unfold last_free; by rewrite last_snoc).
  pose proof (ko_ptrs _ _ _ _ Hok) as Hnd. pose proof Hnd as Hnf. rewrite fmap_app in Hnf.
  apply NoDup_app in Hnf as (Hnf & _ & _).
  destruct (perm_split m (free_bulks s) l0 [] Hnf Hfr) as [Hrest Hperm]. rewrite app_nil_r in Hrest.
  rewrite Hperm in Hnd. change (NoDup (b_ptr m :: (b_ptr <$> bl_remove (b_ptr m) (free_bulks s) ++ bulks_allocated s))) in Hnd.
  apply NoDup_cons in Hnd as [Hmn Hnd].
  destruct (ko_blocks _ _ _ _ Hok m) as (z & Hz & Ha); [set_solver|].
  destruct (free_region (blocks s) e _ _ (ko_region _ _ _ _ Hok) Ha) as (d' & e' & Hrun & Hd' & Hs & _ & Hal).
  pose proof (ko_tile _ _ _ _ Hok) as Ht. apply tile_app in Ht as (mid & Ht0 & Ht1).
  simpl in Ht1. destruct Ht1 as (<- & ? & ? & ?). pose proof (ko_max _ _ _ _ Hok).
  set (s' := KH d' (kheapPageAllocStart s) (b_start m) (kheapPlacementStrategy s)
    (bl_remove (b_ptr m) (free_bulks s)) (bulks_allocated s) (kheap_lock s)).
  assert (Hok' : kh_ok l0 s' e').
  { split; simpl; try done; try apply Hok; try lia.
    - rewrite (ko_alloc _ _ _ _ Hok), allocs_app.
      change (allocs [(true, m)]) with (@nil bulk). by rewrite app_nil_r.
    - apply desc_filter, (ko_desc _ _ _ _ Hok).
    - intros b Hb. eapply desc_block_keep; [done| |].
      + apply (ko_blocks _ _ _ _ Hok). rewrite Hperm. by right.
      + intros Heq. apply (list_elem_of_fmap_2 b_ptr) in Hb. by rewrite Heq in Hb.
    - intros v Hv Hdv. rewrite (Hs v Hv). by apply (ko_mapped _ _ _ _ Hok). }
  exists s', e'. split_and!; [|by exists l0|split_and!; [done..|]|simpl; lia].
  - destruct fuel as [|fuel]; [lia|]. simpl.
    erewrite bind_Ok by reflexivity. erewrite bind_Ok by reflexivity. simpl.
    destruct (list_find _ (free_bulks s)) as [[i b]|] eqn:Hfd.
    + apply list_find_Some in Hfd as (Hi & Hb & _). apply list_elem_of_lookup_2 in Hi.
      apply (ends_at_break _ s e b Hok Hi) in Hb. assert (b = m) as -> by congruence.
      erewrite bind_Ok by reflexivity. erewrite bind_Ok by reflexivity. simpl.
      erewrite bind_Ok by (apply blk_run; exact Hrun).
      eapply (lower_none fuel l0); [|by apply coal_weaken|by apply coal_last].
      destruct (free_bulks s); [by apply elem_of_nil in Hm|simpl in Hf; lia].
    + exfalso. apply list_find_None in Hfd. rewrite Forall_forall in Hfd.
      apply (Hfd m Hm). by apply (ends_at_break _ s e m Hok Hm).
  - simpl. intros q z' Hq Hqn. rewrite Hperm in Hqn.
    change (q ∉ b_ptr m :: (b_ptr <$> bl_remove (b_ptr m) (free_bulks s) ++ bulks_allocated s)) in Hqn.
    apply not_elem_of_cons in Hqn as [??]. split; [by apply Hal|done].
Qed.

(** ** The three entry points on a state that satisfies the invariant *)
Lemma find_allocated segs s e b : kh_ok segs s e → b ∈ bulks_allocated s →
  bl_find (b_start b) (bulks_allocated s) = Some b.
Proof.
  intros Hok Hb. unfold bl_find. destruct (list_find _ (bulks_allocated s)) as [[i c]|] eqn:Hf; simpl.
  - apply list_find_Some in Hf as (Hi & Hc & _). apply list_elem_of_lookup_2 in Hi.
    destruct (decide (b = c)) as [->|Hne]; [done|].
    pose proof (alloc_bounds _ _ _ _ Hok Hb). pose proof (alloc_bounds _ _ _ _ Hok Hi).
    pose proof (alloc_disjoint _ _ _ _ _ Hok Hb Hi Hne). lia.
  - apply list_find_None in Hf. rewrite Forall_forall in Hf. by destruct (Hf b Hb).
Qed.

(** Unmapping an allocated range and dropping its descriptor leaves a hole. *)
Lemma open_hole l1 l2 s e b e1 d' e' :
  kh_ok (l1 ++ (false, b) :: l2) s e → b ∈ bulks_allocated s →
  (∀ v, mapped e1 v ↔ mapped e v ∧ ¬ in_range (b_start b) (b_size b / 4096) v) →
  region_ok d' → same_pages e1 e' →
  (∀ q sz, allocated d' q sz ↔ allocated (blocks s) q sz ∧ q ≠ b_ptr b) →
  kh_hole l1 l2 (b_start b) (b_size b)
    (set_blocks d' (set_allocated (bl_remove (b_ptr b) (bulks_allocated s)) s)) e' ∧
  bulks_allocated s ≡ₚ b :: bl_remove (b_ptr b) (bulks_allocated s) ∧
  b_ptr b ∉ b_ptr <$> free_bulks s ++ bl_remove (b_ptr b) (bulks_allocated s).
Proof.
  intros Hok Hb Hm Hd' Hs Hal. pose proof (ko_ptrs _ _ _ _ Hok) as Hnd.
  assert (Hna : NoDup (b_ptr <$> bulks_allocated s)) by (rewrite fmap_app in Hnd; by apply NoDup_app in Hnd as (_ & _ & ?)).
  pose proof (bl_remove_perm _ _ Hna Hb) as Hperm. set (al := bl_remove _ _) in *.
  rewrite Hperm, <- Permutation_middle in Hnd.
  change (NoDup (b_ptr b :: (b_ptr <$> free_bulks s ++ al))) in Hnd. apply NoDup_cons in Hnd as [Hbn Hnd].
  pose proof (ko_tile _ _ _ _ Hok) as Ht. apply tile_app in Ht as (m & Ht1 & Ht2).
  simpl in Ht2. destruct Ht2 as (<- & ? & Hdiv & Ht2).
  split; [|done]. split; simpl; try done; try apply Hok.
  - rewrite (ko_free _ _ _ _ Hok), !frees_app. done.
  - apply (Permutation_cons_inv (a := b)). rewrite <- Hperm, (ko_alloc _ _ _ _ Hok).
    by rewrite !allocs_app, allocs_cons, Permutation_middle.
  - intros c Hc. eapply desc_block_keep; [done| |].
    + apply (ko_blocks _ _ _ _ Hok). rewrite Hperm. set_solver.
    + intros Heq. apply (list_elem_of_fmap_2 b_ptr) in Hc. by rewrite Heq in Hc.
  - intros v Hv Hdv. rewrite (Hs v Hv), Hm, (ko_mapped _ _ _ _ Hok v Hv Hdv).
    destruct (alloc_bounds _ _ _ _ Hok Hb) as (? & ? & ? & ? & Hbd).
    rewrite in_range_iff by done. destruct Hdiv as [k Hk]. rewrite Hk, Z.div_mul by lia.
    split.
    + intros ((c & Hc & ?) & Hnr). exists c. split; [|done]. rewrite Hperm in Hc.
      apply elem_of_cons in Hc as [->|?]; [lia|done].
    + intros (c & Hc & ?). assert (c ∈ bulks_allocated s) as Hca by (rewrite Hperm; by right).
      split; [by exists c|]. assert (b ≠ c) as Hne.
      { intros ->. apply Hbn. apply list_elem_of_fmap_2, elem_of_app. by right. }
      pose proof (alloc_disjoint _ _ _ _ _ Hok Hb Hca Hne). lia.
Qed.

Lemma unmap_bulk_run segs s e b s0 : kh_ok segs s e → b ∈ bulks_allocated s →
  ∃ e1, unmap_loop (range_fuel (b_size b)) (b_start b) (w32 (b_start b + b_size b)) (s0, e) = Ok tt (s0, e1) ∧
    ∀ v, mapped e1 v ↔ mapped e v ∧ ¬ in_range (b_start b) (b_size b / 4096) v.
Proof.
  intros Hok Hb. destruct (alloc_bounds _ _ _ _ Hok Hb) as (? & ? & ? & [k Hk] & _).
  pose proof (ko_max _ _ _ _ Hok). destruct heap_consts as (? & ?).
  rewrite Hk, Z.div_mul by lia.
  destruct (unmap_run (Z.to_nat k) (range_fuel (k * 4096)) (b_start b) s0 e) as (e1 & Hr & Hm); [|lia..|].
  { unfold range_fuel, PAGE_SIZE. rewrite Z.div_mul by lia. lia. }
  rewrite Z2Nat.id in Hr, Hm by lia. exists e1. rewrite w32_small by lia.
  by replace (b_start b + k * 4096) with (b_start b + 4096 * k) by lia.
Qed.

Lemma acquire_run s e : kheap_lock s = false → acquire_kheap_lock (s, e) = Ok tt (set_lock true s, e).
Proof. intros Hl. unfold acquire_kheap_lock. erewrite bind_Ok by reflexivity. simpl. by rewrite Hl. Qed.
Lemma release_run s e : kheap_lock s = true → release_kheap_lock (s, e) = Ok tt (set_lock false s, e).
Proof. intros Hl. unfold release_kheap_lock. erewrite bind_Ok by reflexivity. simpl. by rewrite Hl. Qed.
Lemma kfree_page_run s e b :
  kheap_inv s e → kheap_lock s = false → b ∈ bulks_allocated s →
  ∃ s' e', kfree (b_start b) (s, e) = Ok tt (s', e') ∧ kheap_inv s' e' ∧ kheap_lock s' = false ∧
    bulks_allocated s' = bl_remove (b_ptr b) (bulks_allocated s) ∧
    bulks_allocated s ≡ₚ b :: bulks_allocated s' ∧
    kheapPageAllocBreak s' ≤ kheapPageAllocBreak s ∧
    ∀ q sz, allocated (blocks s) q sz → q ∉ b_ptr <$> free_bulks s ++ bulks_allocated s →
      allocated (blocks s') q sz ∧ q ∉ b_ptr <$> free_bulks s' ++ bulks_allocated s'.
Proof.
  intros [segs Hok] Hlock Hb. destruct (alloc_bounds _ _ _ _ Hok Hb) as (? & ? & ? & _ & _).
  pose proof (ko_max _ _ _ _ Hok). destruct heap_consts as (? & ?).
  assert (Hsb := Hb). rewrite (ko_alloc _ _ _ _ Hok), elem_allocs in Hsb.
  destruct (list_elem_of_split _ _ Hsb) as (l1 & l2 & ->). clear Hsb.
  unfold kfree. erewrite bind_Ok by by apply acquire_run.
  set (s0 := set_lock true s).
  rewrite (decide_False (P:=b_start b = NULL)) by (unfold NULL; lia).
  rewrite (decide_False (P:=b_start b < KERNEL_HEAP_START ∨ _)) by (unfold KERNEL_HEAP_START; lia).
  cbv zeta. erewrite bind_Ok by reflexivity. cbn [fst].
  assert (kheapPageAllocStart s0 = HEAP_PAGES) as -> by apply (ko_start _ _ _ _ Hok).
  rewrite (decide_False (P:=KERNEL_HEAP_START ≤ _ ∧ _))
    by (change (w32 (KERNEL_HEAP_START + DYN_ALLOC_MAX_SIZE)) with 4160749568; lia).
  rewrite decide_True by lia. erewrite bind_Ok by reflexivity. cbn [fst].
  change (bulks_allocated s0) with (bulks_allocated s).
  rewrite (find_allocated _ _ _ _ Hok Hb).
  destruct (unmap_bulk_run _ _ _ _ s0 Hok Hb) as (e1 & Hr1 & Hm1).
  erewrite bind_Ok by exact Hr1. erewrite bind_Ok by reflexivity.
  destruct (ko_blocks _ _ _ _ Hok b) as (z & Hz & Ha); [set_solver|].
  destruct (free_region (blocks s) e1 _ _ (ko_region _ _ _ _ Hok) Ha)
    as (d' & e2 & Hr2 & Hd' & Hs & Hroom & Hal).
  erewrite bind_Ok by (apply blk_run; exact Hr2). simpl fst.
  destruct (open_hole l1 l2 s e b e1 d' e2 Hok Hb Hm1 Hd' Hs Hal) as (Hh & Hperm & Hbn).
  set (al := bl_remove (b_ptr b) (bulks_allocated s)) in *.
  set (s1 := set_blocks d' (set_allocated al s0)).
  assert (Hh1 : kh_hole l1 l2 (b_start b) (b_size b) s1 e2) by (destruct Hh; split; done).
  pose proof (ko_coal _ _ _ _ Hok) as Hc.
  destruct (coal_last_split _ _ _ Hc) as (l0 & H0c & Hl1).
  apply coal_app_false in Hc as [_ Hc2]. destruct (coal_head_split _ Hc2) as (l3 & H3c & H3h & Hl2).
  destruct (neighbours HEAP_PAGES l1 false b l2 (kheapPageAllocBreak s) (free_bulks s)) as [Hbef Haft];
    [lia|lia|apply Hok| |].
  { rewrite (ko_free _ _ _ _ Hok), !frees_app. done. }
  rewrite Hl1, Hl2 in Hh1.
  destruct (merge_run l0 l3 (b_start b) (b_size b) s1 e2 (last_free l1) (head_free l2) Hh1 (Hroom Hz) Hbef Haft)
    as (m & s2 & e3 & Hr3 & Hok2 & (Hk1 & Hk2 & Hk3) & Hbrk2).
  erewrite bind_Ok by exact Hr3. erewrite bind_Ok by reflexivity.
  destruct (lower_run (length (free_bulks s2) + 1) l0 m l3 s2 e3) as (s3 & e4 & Hr4 & Hinv & (Hj1 & Hj2 & Hj3) & Hbrk3);
    [lia|done..|].
  erewrite bind_Ok by exact Hr4.
  exists (set_lock false s3), e4. split_and!.
  - apply release_run. by rewrite Hj2, Hk2.
  - destruct Hinv as [segs3 Hok3]. exists segs3. destruct Hok3; split; done.
  - done.
  - simpl. by rewrite Hj1, Hk1.
  - simpl. rewrite Hj1, Hk1. done.
  - simpl. etrans; [done|]. by rewrite Hbrk2.
  - simpl. intros q sz Hq Hqn.
    assert (Hqb : q ≠ b_ptr b) by (intros ->; apply Hqn, list_elem_of_fmap_2, elem_of_app; by right).
    destruct (Hk3 q sz) as [??]; [by apply Hal| |by apply Hj3]. simpl.
    intros Hin. apply Hqn. rewrite Hperm, <- Permutation_middle. by right.
Qed.

Lemma set_lock_ok (l : bool) segs s e : kh_ok segs s e → kh_ok segs (set_lock l s) e.
Proof. intros Hok. destruct Hok; split; done. Qed.

Lemma roundup_size size : 2048 < size ≤ 4294963200 →
  0 < ROUNDUP size PAGE_SIZE < 4294967296 ∧ (4096 | ROUNDUP size PAGE_SIZE) ∧ size ≤ ROUNDUP size PAGE_SIZE.
Proof.
  intros ?. destruct (ROUNDUP_spec size PAGE_SIZE) as (? & ? & ?); unfold PAGE_SIZE in *; [lia..|].
  split_and!; try done; lia.
Qed.

Lemma kmalloc_page_run s e size :
  kheap_inv s e → kheap_lock s = false → room (blocks s) → 2048 < size ≤ 4294963200 →
  let n := ROUNDUP size PAGE_SIZE in
  (kmalloc size (s, e) = Ok NULL (s, e) ∧ (∀ b, b ∈ free_bulks s → b_size b < n) ∧
     KERNEL_HEAP_MAX < kheapPageAllocBreak s + n) ∨
  ∃ p r s' e', kmalloc size (s, e) = Ok r (s', e') ∧ kheap_inv s' e' ∧ kheap_lock s' = false ∧
    bulks_allocated s' = Bulk_ p r n :: bulks_allocated s ∧
    client_keep s s' ∧
    ((∃ b, b ∈ free_bulks s ∧ b_size b = n ∧ r = b_start b) ∨
     ((∀ b, b ∈ free_bulks s → b_size b ≠ n) ∧
      ((∃ b, b ∈ free_bulks s ∧ n < b_size b ∧ r = b_start b ∧ ∀ c, c ∈ free_bulks s → b_size c ≤ b_size b) ∨
       (∀ b, b ∈ free_bulks s → b_size b < n) ∧ r = kheapPageAllocBreak s))).
Proof.
  intros [segs Hok] Hlock Hroom Hsize n. destruct (roundup_size size Hsize) as (Hn & Hdiv & Hle). fold n in Hn, Hdiv, Hle.
  assert (Hrun : ∀ r s' e', page_alloc_custom_fit n (set_lock true s, e) = Ok r (s', e') →
    kheap_lock s' = true → kmalloc size (s, e) = Ok r (set_lock false s', e')).
  { intros r s' e' Hr Hl. unfold kmalloc. erewrite bind_Ok by by apply acquire_run.
    rewrite decide_False by lia. rewrite (decide_False (P:=size ≤ DYN_ALLOC_MAX_BLOCK_SIZE))
      by (change DYN_ALLOC_MAX_BLOCK_SIZE with 2048; lia).
    fold n. erewrite bind_Ok by exact Hr. by erewrite bind_Ok by by apply release_run. }
  pose proof (set_lock_ok true _ _ _ Hok) as Hok1. pose proof (ko_desc _ _ _ _ Hok) as Hdesc.
  destruct (exact_fit n (free_bulks s)) as [b|] eqn:Hex.
  { right. destruct (page_alloc_exact _ _ _ _ b Hok1 Hroom Hex) as (p & s' & e' & segs' & Hr & Hok' & Hl & Hal & Hmono & _ & _).
    exists p, (b_start b), (set_lock false s'), e'. destruct (exact_fit_elem _ _ _ Hex).
    split_and!; [by apply Hrun|exists segs'; by apply set_lock_ok|done..|]. left. by exists b. }
  assert (Hne : ∀ b, b ∈ free_bulks s → b_size b ≠ n) by (intros b; by apply exact_fit_none).
  destruct (decide (Forall (λ b, b_size b < n) (free_bulks s))) as [Hall|Hall].
  - rewrite Forall_forall in Hall. destruct (decide (kheapPageAllocBreak s + n ≤ KERNEL_HEAP_MAX)).
    + right. destruct (page_alloc_grow segs (set_lock true s) e n Hok1 Hroom) as
        (p & s' & e' & segs' & Hr & Hok' & Hl & Hal & Hmono); [lia|done|lia|done|done|].
      exists p, (kheapPageAllocBreak s), (set_lock false s'), e'.
      split_and!; [by apply Hrun|exists segs'; by apply set_lock_ok|done..|]. right. auto.
    + left. split_and!; [|done|lia]. pose proof (tile_le _ _ _ (ko_tile _ _ _ _ Hok)).
      pose proof (ko_max _ _ _ _ Hok). destruct heap_consts as (? & ?).
      assert (Hs : s = set_lock false (set_lock true s)) by (destruct s; simpl in *; by subst).
      rewrite Hs at 2. apply Hrun; [|done]. rewrite page_alloc_full by done. simpl.
      rewrite (ko_start _ _ _ _ Hok), decide_False by lia. rewrite decide_True; [done|].
      rewrite w32_small by lia. lia.
  - right. destruct (free_bulks s) as [|bb fs] eqn:Hfs; [by destruct Hall|].
    assert (n < b_size bb).
    { apply not_Forall_Exists, Exists_exists in Hall as (x & Hx & Hxn); [|apply _].
      pose proof (desc_head _ _ _ Hdesc Hx). specialize (Hne x Hx). simpl in Hxn. lia. }
    destruct (page_alloc_worst segs (set_lock true s) e n bb Hok1 Hroom) as
      (p & s' & e' & segs' & Hr & Hok' & Hl & Hal & Hmono); [lia|done|done|by simpl; rewrite Hfs|by simpl; rewrite Hfs|].
    exists p, (b_start bb), (set_lock false s'), e'.
    split_and!; [by apply Hrun|exists segs'; by apply set_lock_ok|done..|]. right. split; [done|]. left.
    exists bb. split_and!; [left|done|done|]. intros c. by apply desc_head.
Qed.

(** A change of the block region that keeps every live block. *)
Lemma kheap_inv_blocks s e d' e' (l : bool) :
  kheap_inv s e → region_ok d' → same_pages e e' →
  (∀ q, q ∈ b_ptr <$> free_bulks s ++ bulks_allocated s → desc_block d' q) →
  kheap_inv (set_lock l (set_blocks d' s)) e'.
Proof.
  intros [segs Hok] Hd' Hs Hq. exists segs. split; simpl; try done; try apply Hok.
  - intros b Hb. by apply Hq, list_elem_of_fmap_2.
  - intros v Hv Hdv. rewrite (Hs v Hv). by apply (ko_mapped _ _ _ _ Hok).
Qed.
Lemma inv_desc_block s e q : kheap_inv s e → q ∈ b_ptr <$> free_bulks s ++ bulks_allocated s → desc_block (blocks s) q.
Proof. intros [segs Hok] (b & -> & Hb)%list_elem_of_fmap. by apply (ko_blocks _ _ _ _ Hok). Qed.

Lemma kmalloc_block_run s e size r s' e' :
  kheap_inv s e → kheap_lock s = false → 0 < size ≤ 2048 → kmalloc size (s, e) = Ok r (s', e') →
  kheap_inv s' e' ∧ kheap_lock s' = false ∧ free_bulks s' = free_bulks s ∧
  bulks_allocated s' = bulks_allocated s ∧ KERNEL_HEAP_START ≤ r ∧ r < HEAP_PAGES ∧
  ∃ sz, size ≤ sz ∧ (∀ sz', ¬ allocated (blocks s) r sz') ∧
    ∀ b' sz', allocated (blocks s') b' sz' ↔ allocated (blocks s) b' sz' ∨ b' = r ∧ sz' = sz.
Proof.
  intros Hinv Hlock Hsize Hrun. unfold kmalloc in Hrun. erewrite bind_Ok in Hrun by by apply acquire_run.
  rewrite decide_False in Hrun by lia. rewrite (decide_True (P:=size ≤ DYN_ALLOC_MAX_BLOCK_SIZE)) in Hrun
    by (change DYN_ALLOC_MAX_BLOCK_SIZE with 2048; lia).
  apply bind_Ok_inv in Hrun as (r1 & [s1 e1] & Hr1 & Hrun). unfold blk, zoom in Hr1. simpl in Hr1.
  destruct (alloc_block size (blocks s, e)) as [r2 [d' e2]|?| |] eqn:Hal; try done. injection Hr1 as <- <- <-.
  assert (region_ok (blocks s)) as Hreg by (destruct Hinv as [? Hok]; apply Hok).
  destruct (alloc_region _ _ _ _ _ _ Hreg Hsize Hal) as (Hd' & Hs & ? & ? & sz & Hsz & Hfr & Hall).
  erewrite bind_Ok in Hrun by by apply release_run. injection Hrun as <- <- <-.
  split_and!; try done; [|by exists sz].
  apply (kheap_inv_blocks s e d' e2 false Hinv Hd' Hs). intros q Hq.
  destruct (inv_desc_block _ _ _ Hinv Hq) as (z & ? & ?). exists z. split; [done|]. apply Hall. by left.
Qed.

Lemma kfree_block_run s e r sz :
  kheap_inv s e → kheap_lock s = false → allocated (blocks s) r sz →
  r ∉ b_ptr <$> free_bulks s ++ bulks_allocated s →
  ∃ s' e', kfree r (s, e) = Ok tt (s', e') ∧ kheap_inv s' e' ∧ kheap_lock s' = false ∧
    free_bulks s' = free_bulks s ∧ bulks_allocated s' = bulks_allocated s ∧
    ∀ b' sz', allocated (blocks s') b' sz' ↔ allocated (blocks s) b' sz' ∧ b' ≠ r.
Proof.
  intros Hinv Hlock Ha Hr. assert (region_ok (blocks s)) as Hreg by (destruct Hinv as [? Hok]; apply Hok).
  destruct (free_region _ e _ _ Hreg Ha) as (d' & e' & Hrun & Hd' & Hs & _ & Hal).
  destruct Hreg as (Hi & Hst & Hen). pose proof (allocated_range _ _ _ Hi Ha) as (? & ? & ?).
  destruct heap_consts as (? & ?).
  assert (Hb : KERNEL_HEAP_START ≤ r ∧ r < w32 (KERNEL_HEAP_START + DYN_ALLOC_MAX_SIZE)).
  { change (w32 (KERNEL_HEAP_START + DYN_ALLOC_MAX_SIZE)) with 4160749568. lia. }
  change (w32 (KERNEL_HEAP_START + DYN_ALLOC_MAX_SIZE)) with 4160749568 in Hb.
  exists (set_lock false (set_blocks d' (set_lock true s))), e'. split_and!; try done.
  - unfold kfree. erewrite bind_Ok by by apply acquire_run.
    rewrite (decide_False (P:=r = NULL)) by (unfold NULL, KERNEL_HEAP_START in *; lia).
    rewrite (decide_False (P:=r < KERNEL_HEAP_START ∨ _)) by lia.
    cbv zeta. erewrite bind_Ok by reflexivity.
    rewrite (decide_True (P:=KERNEL_HEAP_START ≤ r ∧ _)) by exact Hb.
    erewrite bind_Ok by (apply blk_run; exact Hrun). by apply release_run.
  - apply (kheap_inv_blocks s e d' e' false Hinv Hd' Hs). intros q Hq.
    eapply desc_block_keep; [done|by eapply inv_desc_block|]. by intros ->.
Qed.

Lemma kheap_init_run s e :
  free_bulks s = [] → bulks_allocated s = [] → (∀ v, HEAP_PAGES ≤ v → ¬ mapped e v) →
  ∃ s', kheap_init (s, e) = Ok tt (s', e) ∧ kheap_inv s' e ∧ kheap_lock s' = false ∧ room (blocks s') ∧
    free_bulks s' = [] ∧ bulks_allocated s' = [] ∧ kheapPageAllocBreak s' = HEAP_PAGES ∧
    (∀ b sz, ¬ allocated (blocks s') b sz).
Proof.
  intros Hf Ha Hm.
  destruct (initialize_run (blocks (set_lock false s)) e KERNEL_HEAP_START (w32 (KERNEL_HEAP_START + DYN_ALLOC_MAX_SIZE)) 8192)
    as (d' & Hrun & Hi & Hst & Hen & Hfp & Hno); [by vm_compute|by vm_compute|lia|by vm_compute|].
  assert (Hc : w32 (KERNEL_HEAP_START + DYN_ALLOC_MAX_SIZE) = 4160749568) by by vm_compute.
  assert (Hc' : w32 (4160749568 + PAGE_SIZE) = HEAP_PAGES) by by vm_compute.
  eexists. split; [|split].
  - unfold kheap_init. rewrite (bind_Ok _ _ (s, e) tt (set_lock false s, e)) by reflexivity.
    pose proof (blk_run (initialize_dynamic_allocator KERNEL_HEAP_START
      (w32 (KERNEL_HEAP_START + DYN_ALLOC_MAX_SIZE))) (set_lock false s) e tt d' e Hrun) as Hblk.
    unfold mbind, M_bind. rewrite Hblk. reflexivity.
  - cbn [fst blocks set_blocks set_lock]. rewrite Hen, Hc, Hc'. exists [].
    assert (region_ok d') as Hreg by (split_and!; [exact Hi|exact Hst|rewrite Hen, Hc; reflexivity]).
    split; cbn [blocks kheapPageAllocStart kheapPageAllocBreak free_bulks bulks_allocated set_lock set_blocks].
    + exact Hreg.
    + reflexivity.
    + reflexivity.
    + unfold HEAP_PAGES, KERNEL_HEAP_MAX. lia.
    + exact I.
    + by rewrite Hf.
    + by rewrite Ha.
    + rewrite Hf. constructor.
    + rewrite Hf, Ha. constructor.
    + rewrite Hf, Ha. intros b Hb. exfalso. rewrite app_nil_r in Hb. by apply elem_of_nil in Hb.
    + rewrite Ha. intros v Hv _. split; [intros Hmv; destruct (Hm v Hv Hmv)|].
      intros (b & Hb & _). exfalso. by apply elem_of_nil in Hb.
  - cbn [fst blocks set_blocks set_lock kheap_lock free_bulks bulks_allocated kheapPageAllocBreak].
    split_and!; [reflexivity| |exact Hf|exact Ha|by rewrite Hen, Hc, Hc'|exact Hno].
    left. rewrite Hfp, seqZ_cons by lia. discriminate.
Qed.

(** ** A client of the kernel heap, with the sizes it asked for *)
Inductive kclient : kheap * E → gmap Z Z → Prop :=
| kc_init s0 e0 σ :
    free_bulks s0 = [] → bulks_allocated s0 = [] → (∀ v, HEAP_PAGES ≤ v → ¬ mapped e0 v) →
    kheap_init (s0, e0) = Ok tt σ → kclient σ ∅
| kc_alloc σ held size r σ' :
    kclient σ held → room (blocks σ.1) → 0 < size ≤ 4294963200 →
    kmalloc size σ = Ok r σ' → r ≠ NULL → kclient σ' (<[r := size]> held)
| kc_fail σ held size σ' :
    kclient σ held → room (blocks σ.1) → 0 < size ≤ 4294963200 →
    kmalloc size σ = Ok NULL σ' → kclient σ' held
| kc_free σ held r size σ' :
    kclient σ held → held !! r = Some size → kfree r σ = Ok tt σ' → kclient σ' (delete r held).

(** What the client holds at [r]: a block of the block region, or a whole range
    of the page region. *)
Definition owns s (r size : Z) : Prop :=
  (size ≤ 2048 ∧ (∃ sz, size ≤ sz ∧ allocated (blocks s) r sz) ∧
     r ∉ b_ptr <$> free_bulks s ++ bulks_allocated s) ∨
  (2048 < size ∧ ∃ b, b ∈ bulks_allocated s ∧ b_start b = r ∧ size ≤ b_size b).
Definition kholds s e (held : gmap Z Z) : Prop :=
  kheap_inv s e ∧ kheap_lock s = false ∧
  ∀ r size, held !! r = Some size → 0 < size ∧ owns s r size.

Lemma owns_small_range s e r size : kheap_inv s e → size ≤ 2048 → owns s r size →
  KERNEL_HEAP_START ≤ r ∧ r + size < HEAP_PAGES.
Proof.
  intros [segs Hok] Hs [(_ & (sz & ? & Ha) & _)|[? _]]; [|lia].
  destruct (ko_region _ _ _ _ Hok) as (Hi & Hst & Hen).
  pose proof (allocated_range _ _ _ Hi Ha). lia.
Qed.

Lemma kmalloc_holds s e held size r s' e' :
  kholds s e held → room (blocks s) → 0 < size ≤ 4294963200 → kmalloc size (s, e) = Ok r (s', e') →
  kholds s' e' (if decide (r = NULL) then held else <[r := size]> held).
Proof.
  intros (Hinv & Hlock & Hheld) Hroom Hsize Hrun. destruct (decide (size ≤ 2048)) as [Hsm|Hsm].
  - destruct (kmalloc_block_run s e size r s' e' Hinv Hlock ltac:(lia) Hrun)
      as (Hinv' & Hlock' & Hf & Hal & ? & ? & sz & Hsz & Hfr & Hall).
    rewrite decide_False by (unfold NULL, KERNEL_HEAP_START in *; lia).
    split_and!; [done..|]. intros q size' Hq. rewrite lookup_insert in Hq. case_decide as Hrq.
    + injection Hq as <-. subst q. split; [lia|]. left. split_and!; [done|exists sz; split; [done|apply Hall; by right]|].
      rewrite Hf, Hal. intros Hin. destruct (inv_desc_block _ _ _ Hinv Hin) as (z & _ & Ha). by apply (Hfr z).
    + destruct (Hheld _ _ Hq) as [? [(? & (z & ? & ?) & ?)|Hbig]]; split; [done| |done|].
      * left. split_and!; [done|exists z; split; [done|apply Hall; by left]|by rewrite Hf, Hal].
      * right. by rewrite Hal.
  - destruct (roundup_size size ltac:(lia)) as (Hn & Hdiv & Hle).
    destruct (kmalloc_page_run s e size Hinv Hlock Hroom ltac:(lia)) as
      [(Heq & _)|(p & r' & s1 & e1 & Heq & Hinv' & Hlock' & Hal & Hmono & _)]; rewrite Heq in Hrun;
      injection Hrun as <- <- <-; [by rewrite decide_True|].
    destruct Hinv' as [segs' Hok'] eqn:Heqi. clear Heqi.
    assert (Hb : Bulk_ p r' (ROUNDUP size PAGE_SIZE) ∈ bulks_allocated s1) by (rewrite Hal; left).
    pose proof (alloc_bounds _ _ _ _ Hok' Hb) as (Hr' & _). simpl in Hr'. destruct heap_consts as (? & ?).
    rewrite decide_False by (unfold NULL; lia).
    split_and!; [by exists segs'|done|]. intros q size' Hq. rewrite lookup_insert in Hq. case_decide as Hrq.
    + injection Hq as <-. subst q. split; [lia|]. right. split; [lia|]. by eexists.
    + destruct (Hheld _ _ Hq) as [? Ho]. split; [done|]. destruct Ho as [(? & (z & ? & Ha) & Hqn)|(? & b & ? & ?)].
      * destruct (Hmono q z Ha) as [? Hk]. left. split_and!; [done|by exists z; auto|by apply Hk].
      * right. split; [done|]. exists b. rewrite Hal. split; [by right|done].
Qed.

Lemma kfree_holds s e held size r s' e' :
  kholds s e held → held !! r = Some size → kfree r (s, e) = Ok tt (s', e') →
  kholds s' e' (delete r held).
Proof.
  intros (Hinv & Hlock & Hheld) Hr Hrun.
  destruct (Hheld _ _ Hr) as [Hpos [(Hsm & (sz & Hsz & Ha) & Hrn)|(Hbig & b & Hb & Hbs & Hle)]].
  - destruct (kfree_block_run s e r sz Hinv Hlock Ha Hrn) as (s1 & e1 & Heq & Hinv' & Hlock' & Hf & Hal & Hall).
    rewrite Heq in Hrun. injection Hrun as <- <-. split_and!; [done..|].
    intros q size'. rewrite lookup_delete. case_decide as Hrq; [done|]. intros Hq.
    destruct (Hheld _ _ Hq) as [? [(? & (z & ? & ?) & ?)|Hb]]; split; [done| |done|].
    + left. split_and!; [done|exists z; split; [done|apply Hall; auto]|by rewrite Hf, Hal].
    + right. by rewrite Hal.
  - subst r. destruct (kfree_page_run s e b Hinv Hlock Hb) as
      (s1 & e1 & Heq & Hinv' & Hlock' & _ & Hperm & _ & Hkeep).
    rewrite Heq in Hrun. injection Hrun as <- <-. split_and!; [done..|].
    intros q size'. rewrite lookup_delete. case_decide as Hrq; [done|]. intros Hq.
    destruct (Hheld _ _ Hq) as [? [(? & (z & ? & Hz) & Hqn)|(? & c & Hc & Hcs & ?)]]; (split; [done|]).
    + destruct (Hkeep q z Hz Hqn). left. split_and!; [done|by exists z|done].
    + right. split; [done|]. exists c. split; [|done]. rewrite Hperm in Hc.
      apply elem_of_cons in Hc as [->|?]; [congruence|done].
Qed.

Lemma kclient_holds σ held : kclient σ held → kholds σ.1 σ.2 held.
Proof.
  induction 1 as [s0 e0 σ Hf Ha Hm Hrun|[s e] held size r [s' e'] _ IH Hroom Hsize Hrun Hr
                 |[s e] held size [s' e'] _ IH Hroom Hsize Hrun|[s e] held r size [s' e'] _ IH Hr Hrun].
  - destruct (kheap_init_run s0 e0 Hf Ha Hm) as (s' & Heq & Hinv & Hlock & _).
    rewrite Heq in Hrun. injection Hrun as <-. split_and!; [done..|]. intros r size Hr. by rewrite lookup_empty in Hr.
  - pose proof (kmalloc_holds _ _ _ _ _ _ _ IH Hroom Hsize Hrun) as Hh. by rewrite decide_False in Hh.
  - pose proof (kmalloc_holds _ _ _ _ _ _ _ IH Hroom Hsize Hrun) as Hh. by rewrite decide_True in Hh.
  - by eapply kfree_holds.
Qed.

(** Free ranges do not touch. *)
Lemma free_apart segs s e c d : kh_ok segs s e → c ∈ free_bulks s → d ∈ free_bulks s →
  b_start c + b_size c ≠ b_start d.
Proof.
  intros Hok Hc Hd. rewrite (ko_free _ _ _ _ Hok), elem_frees in Hc, Hd.
  pose proof (tile_range _ _ _ _ _ (ko_tile _ _ _ _ Hok) Hc) as (_ & _ & ? & _ & _).
  destruct (list_elem_of_split _ _ Hc) as (l1 & l2 & ->).
  pose proof (ko_tile _ _ _ _ Hok) as (m & Ht1 & Ht2)%tile_app. simpl in Ht2. destruct Ht2 as (<- & _ & _ & Ht2).
  pose proof (ko_coal _ _ _ _ Hok) as Hco. apply (coal_tail _ _ c) in Hco.
  destruct l2 as [|[[] x] l2]; [|done|]; intros Heq.
  - simpl in Ht2. apply elem_of_app in Hd as [Hd|Hd].
    + pose proof (tile_range _ _ _ _ _ Ht1 Hd). lia.
    + apply list_elem_of_singleton in Hd as [= ->]. lia.
  - simpl in Ht2. destruct Ht2 as (Hx & ? & _ & Ht2).
    apply elem_of_app in Hd as [Hd|[[= ->]|[[=]|Hd]%elem_of_cons]%elem_of_cons]; [|lia|].
    + pose proof (tile_range _ _ _ _ _ Ht1 Hd). lia.
    + pose proof (tile_range _ _ _ _ _ Ht2 Hd). lia.
Qed.

(** ** Properties *)

(** C10: With frames and room for a descriptor, [kmalloc] of more than 2048 and at
    most 0xFFFFF000 bytes (a larger size wraps to zero pages, [kmalloc_wraps])
    returns with the lock released and the invariant kept. It returns NULL, with
    nothing changed, exactly when no free range is large enough and the pages do
    not fit below KERNEL_HEAP_MAX; otherwise it returns a page-aligned range of
    the size rounded up to pages that overlaps no allocated range and whose
    pages are all mapped: the first free range of exactly this size if there is
    one, else the largest free range, else the pages at the break. *)
Theorem kmalloc_page_correct s e size :
  kheap_inv s e → kheap_lock s = false → room (blocks s) → 2048 < size ≤ 4294963200 →
  let n := ROUNDUP size PAGE_SIZE in
  (kmalloc size (s, e) = Ok NULL (s, e) ∧ (∀ b, b ∈ free_bulks s → b_size b < n) ∧
     KERNEL_HEAP_MAX < kheapPageAllocBreak s + n) ∨
  ∃ p r s' e', kmalloc size (s, e) = Ok r (s', e') ∧ kheap_inv s' e' ∧ kheap_lock s' = false ∧
    bulks_allocated s' = Bulk_ p r n :: bulks_allocated s ∧ (4096 | r) ∧ HEAP_PAGES ≤ r ∧
    r + n ≤ KERNEL_HEAP_MAX ∧
    (∀ b, b ∈ bulks_allocated s → b_start b + b_size b ≤ r ∨ r + n ≤ b_start b) ∧
    (∀ v, (4096 | v) → r ≤ v < r + n → mapped e' v) ∧
    ((∃ b, b ∈ free_bulks s ∧ b_size b = n ∧ r = b_start b) ∨
     ((∀ b, b ∈ free_bulks s → b_size b ≠ n) ∧
      ((∃ b, b ∈ free_bulks s ∧ n < b_size b ∧ r = b_start b ∧ ∀ c, c ∈ free_bulks s → b_size c ≤ b_size b) ∨
       (∀ b, b ∈ free_bulks s → b_size b < n) ∧ r = kheapPageAllocBreak s))).
Proof.
  intros Hinv Hlock Hroom Hsize n.
  destruct (kmalloc_page_run s e size Hinv Hlock Hroom Hsize) as
    [?|(p & r & s' & e' & Hrun & Hinv' & Hlock' & Hal & Hmono & Hfit)]; [by left|right].
  fold n in Hal, Hfit. destruct Hinv' as [segs Hok].
  assert (Hb : Bulk_ p r n ∈ bulks_allocated s') by (rewrite Hal; left).
  pose proof (alloc_bounds _ _ _ _ Hok Hb) as (? & ? & ? & ? & ?). pose proof (ko_max _ _ _ _ Hok).
  simpl in *. exists p, r, s', e'. split_and!; try done; [by exists segs|lia| |].
  - intros b Hbs. assert (Hb' : b ∈ bulks_allocated s') by (rewrite Hal; by right).
    apply (alloc_disjoint _ _ _ _ b Hok Hb Hb'). intros <-.
    pose proof (ko_ptrs _ _ _ _ Hok) as Hnd. rewrite fmap_app, Hal in Hnd.
    apply NoDup_app in Hnd as (_ & _ & Hnd). apply NoDup_cons in Hnd as [Hn _].
    apply Hn. by apply (list_elem_of_fmap_2 b_ptr _ (Bulk_ p r n)).
  - intros v Hv Hr. apply (ko_mapped _ _ _ _ Hok v); [lia|done|]. by exists (Bulk_ p r n).
Qed.

(** C11: [kfree] of an allocated range of the page region returns with the lock
    released and the invariant kept: exactly its descriptor leaves the list of
    allocated ranges, exactly its pages are unmapped, it is merged with the free
    neighbours (no two free ranges touch) and the break comes down when the
    range ends there. *)
Theorem kfree_page_correct s e b :
  kheap_inv s e → kheap_lock s = false → b ∈ bulks_allocated s →
  ∃ s' e', kfree (b_start b) (s, e) = Ok tt (s', e') ∧ kheap_inv s' e' ∧ kheap_lock s' = false ∧
    bulks_allocated s' = bl_remove (b_ptr b) (bulks_allocated s) ∧
    bulks_allocated s ≡ₚ b :: bulks_allocated s' ∧ kheapPageAllocBreak s' ≤ kheapPageAllocBreak s ∧
    (∀ v, HEAP_PAGES ≤ v → (4096 | v) →
       mapped e' v ↔ mapped e v ∧ ¬ (b_start b ≤ v < b_start b + b_size b)) ∧
    (∀ c d, c ∈ free_bulks s' → d ∈ free_bulks s' → b_start c + b_size c ≠ b_start d) ∧
    (∀ c, c ∈ free_bulks s' → b_start c + b_size c < kheapPageAllocBreak s').
Proof.
  intros Hinv Hlock Hb.
  destruct (kfree_page_run s e b Hinv Hlock Hb) as (s' & e' & Hrun & Hinv' & Hlock' & Hal & Hperm & Hbrk & _).
  exists s', e'. destruct Hinv as [segs Hok]. destruct Hinv' as [segs' Hok'].
  split_and!; try done; [by exists segs'| | |].
  - intros v Hv Hdv. rewrite (ko_mapped _ _ _ _ Hok v Hv Hdv), (ko_mapped _ _ _ _ Hok' v Hv Hdv).
    split.
    + intros (c & Hc & ?). assert (Hc' : c ∈ bulks_allocated s) by (rewrite Hperm; by right).
      split; [by exists c|]. intros ?. assert (b ≠ c) as Hne.
      { intros ->. pose proof (ko_ptrs _ _ _ _ Hok) as Hnd. rewrite Hperm, fmap_app in Hnd.
        apply NoDup_app in Hnd as (_ & _ & Hnd). apply NoDup_cons in Hnd as [Hn _].
        by apply Hn, list_elem_of_fmap_2. }
      pose proof (alloc_disjoint _ _ _ _ _ Hok Hb Hc' Hne). lia.
    + intros ((c & Hc & ?) & Hn). exists c. split; [|done]. rewrite Hperm in Hc.
      apply elem_of_cons in Hc as [->|?]; done.
  - intros c d Hc Hd. by apply (free_apart segs' s' e' c d Hok').
  - intros c Hc. pose proof (ends_at_break _ _ _ c (coal_weaken _ _ _ Hok') Hc) as Hend.
    rewrite (coal_last _ (ko_coal _ _ _ _ Hok')) in Hend.
    rewrite (ko_free _ _ _ _ Hok'), elem_frees in Hc.
    pose proof (tile_range _ _ _ _ _ (ko_tile _ _ _ _ Hok') Hc). pose proof (ko_max _ _ _ _ Hok').
    destruct heap_consts as (? & ?). rewrite w32_small in Hend by lia.
    destruct (decide (b_start c + b_size c = kheapPageAllocBreak s')); [|lia].
    by apply Hend in e0.
Qed.

(** C5: In every state a client of the kernel heap reaches from [kheap_init] by a
    sequence of [kmalloc] of 1 to 0xFFFFF000 bytes, with room for a descriptor in
    the block region and frames for the pages, and of [kfree] of what it holds, the
    lock is free, what it holds lies in the heap and is pairwise disjoint for the
    sizes it asked for (blocks and pages alike), and every page of a held page range
    is mapped. (Larger requests are left out: their size wraps to zero pages and
    they succeed with no memory, [kmalloc_wraps].) *)
Theorem kernel_heap_safe (σ : kheap * E) held :
  kclient σ held →
  kheap_lock σ.1 = false ∧
  (∀ r size, held !! r = Some size → KERNEL_HEAP_START ≤ r ∧ r + size ≤ KERNEL_HEAP_MAX) ∧
  (∀ r size r' size', held !! r = Some size → held !! r' = Some size' → r ≠ r' →
     r + size ≤ r' ∨ r' + size' ≤ r) ∧
  (∀ r size v, held !! r = Some size → 2048 < size → (4096 | v) → r ≤ v < r + size → mapped σ.2 v).
Proof.
  destruct σ as [s e]. intros (Hinv & Hlock & Hheld)%kclient_holds. simpl in *.
  destruct Hinv as [segs Hok] eqn:Hi. clear Hi. destruct heap_consts as (? & ?).
  assert (Hbig : ∀ r size, held !! r = Some size → 2048 < size →
    ∃ b, b ∈ bulks_allocated s ∧ b_start b = r ∧ size ≤ b_size b).
  { intros r size Hr ?. destruct (Hheld _ _ Hr) as [_ [[? _]|[_ ?]]]; [lia|done]. }
  assert (Hsmall : ∀ r size, held !! r = Some size → size ≤ 2048 →
    KERNEL_HEAP_START ≤ r ∧ r + size < HEAP_PAGES ∧ ∃ sz, size ≤ sz ∧ allocated (blocks s) r sz).
  { intros r size Hr ?. destruct (Hheld _ _ Hr) as [_ Ho]. 
    destruct (owns_small_range s e r size) as [??]; [by exists segs|done..|].
    destruct Ho as [(_ & ? & _)|[? _]]; [done|lia]. }
  split_and!; [done| | |].
  - intros r size Hr. destruct (decide (size ≤ 2048)).
    + destruct (Hsmall _ _ Hr) as (? & ? & _); [done|]. lia.
    + destruct (Hbig _ _ Hr) as (b & Hb & <- & ?); [lia|].
      pose proof (alloc_bounds _ _ _ _ Hok Hb). pose proof (ko_max _ _ _ _ Hok).
      unfold KERNEL_HEAP_START. lia.
  - intros r size r' size' Hr Hr' Hne. destruct (decide (size ≤ 2048)), (decide (size' ≤ 2048)).
    + destruct (Hsmall _ _ Hr) as (_ & _ & sz & ? & Ha); [done|].
      destruct (Hsmall _ _ Hr') as (_ & _ & sz' & ? & Ha'); [done|].
      pose proof (live_apart _ _ _ _ _ (proj1 (ko_region _ _ _ _ Hok)) Ha Ha' Hne). lia.
    + destruct (Hsmall _ _ Hr) as (_ & ? & _); [done|]. destruct (Hbig _ _ Hr') as (b & Hb & <- & ?); [lia|].
      pose proof (alloc_bounds _ _ _ _ Hok Hb). lia.
    + destruct (Hsmall _ _ Hr') as (_ & ? & _); [done|]. destruct (Hbig _ _ Hr) as (b & Hb & <- & ?); [lia|].
      pose proof (alloc_bounds _ _ _ _ Hok Hb). lia.
    + destruct (Hbig _ _ Hr) as (b & Hb & <- & ?); [lia|]. destruct (Hbig _ _ Hr') as (c & Hc & <- & ?); [lia|].
      assert (Hbc : c ≠ b) by congruence. pose proof (alloc_disjoint _ _ _ _ _ Hok Hc Hb Hbc). lia.
  - intros r size v Hr Hsz Hdv Hv. destruct (Hbig _ _ Hr Hsz) as (b & Hb & <- & ?).
    pose proof (alloc_bounds _ _ _ _ Hok Hb). apply (ko_mapped _ _ _ _ Hok); [lia|done|].
    exists b. split; [done|lia].
Qed.

(** [kfree] of a block that is not a descriptor of the heap returns with the
    lock released and the invariant kept, and ends the life of exactly that
    block; [kmalloc] of 1 to 2048 bytes, when it returns, gives a new block that
    is large enough and leaves the page region alone. *)
Theorem kmalloc_kfree_block_correct s e :
  kheap_inv s e → kheap_lock s = false →
  (∀ size r s' e', 0 < size ≤ 2048 → kmalloc size (s, e) = Ok r (s', e') →
     kheap_inv s' e' ∧ kheap_lock s' = false ∧ free_bulks s' = free_bulks s ∧
     bulks_allocated s' = bulks_allocated s ∧
     ∃ sz, size ≤ sz ∧ (∀ sz', ¬ allocated (blocks s) r sz') ∧
       ∀ b' sz', allocated (blocks s') b' sz' ↔ allocated (blocks s) b' sz' ∨ b' = r ∧ sz' = sz) ∧
  (∀ r sz, allocated (blocks s) r sz → r ∉ b_ptr <$> free_bulks s ++ bulks_allocated s →
     ∃ s' e', kfree r (s, e) = Ok tt (s', e') ∧ kheap_inv s' e' ∧ kheap_lock s' = false ∧
       free_bulks s' = free_bulks s ∧ bulks_allocated s' = bulks_allocated s ∧
       ∀ b' sz', allocated (blocks s') b' sz' ↔ allocated (blocks s) b' sz' ∧ b' ≠ r).
Proof.
  intros Hinv Hlock. split.
  - intros size r s' e' Hsize Hrun.
    destruct (kmalloc_block_run s e size r s' e' Hinv Hlock Hsize Hrun) as (? & ? & ? & ? & _ & _ & ?). auto.
  - intros r sz Ha Hr. by apply (kfree_block_run s e r sz).
Qed.

(** [kheap_init] of a heap without ranges returns, establishes the
    invariant with an empty page region, no live block, the lock free, and room
    for descriptors. *)
Theorem kheap_init_correct s e :
  free_bulks s = [] → bulks_allocated s = [] → (∀ v, HEAP_PAGES ≤ v → ¬ mapped e v) →
  ∃ s', kheap_init (s, e) = Ok tt (s', e) ∧ kheap_inv s' e ∧ kheap_lock s' = false ∧ room (blocks s') ∧
    kheapPageAllocBreak s' = HEAP_PAGES ∧ (∀ b sz, ¬ allocated (blocks s') b sz).
Proof.
  intros Hf Ha Hm. destruct (kheap_init_run s e Hf Ha Hm) as (s' & ? & ? & ? & ? & _ & _ & ? & ?).
  exists s'. split_and!; assumption.
Qed.

(** A size above 0xFFFFF000 wraps to zero pages when it is rounded up: on a
    heap without free ranges [kmalloc] then returns the break, not NULL, maps no
    page of the page region and leaves the break where it is, so the next
    allocation gets the same address. *)
Theorem kmalloc_wraps s e size :
  kheap_inv s e → kheap_lock s = false → room (blocks s) → free_bulks s = [] →
  4294963200 < size < 4294967296 →
  ∃ s' e', kmalloc size (s, e) = Ok (kheapPageAllocBreak s) (s', e') ∧
    kheapPageAllocBreak s ≠ NULL ∧ same_pages e e' ∧
    kheapPageAllocBreak s' = kheapPageAllocBreak s ∧ free_bulks s' = [].
Proof.
  intros [segs Hok] Hlock Hroom Hf Hsize. pose proof (tile_le _ _ _ (ko_tile _ _ _ _ Hok)).
  pose proof (ko_max _ _ _ _ Hok). destruct heap_consts as (? & ?).
  assert (Hz : ROUNDUP size PAGE_SIZE = 0).
  { unfold ROUNDUP, ROUNDDOWN, PAGE_SIZE, w32. replace (size + 4096 - 1) with (size - 4294963201 + 1 * 4294967296) by lia.
    rewrite Z.mod_add, !(Z.mod_small (size - 4294963201)) by lia. lia. }
  destruct (push_bulk_run (set_lock true s) e (kheapPageAllocBreak s) 0 (ko_region _ _ _ _ Hok) Hroom)
    as (p & d' & e' & Hr & _ & Hs & _).
  eexists _, e'. split_and!; [|unfold NULL; lia|done| |].
  - unfold kmalloc. erewrite bind_Ok by by apply acquire_run. rewrite decide_False by lia.
    rewrite (decide_False (P:=size ≤ DYN_ALLOC_MAX_BLOCK_SIZE)) by (change DYN_ALLOC_MAX_BLOCK_SIZE with 2048; lia).
    rewrite Hz. erewrite bind_Ok.
    2:{ rewrite page_alloc_full by (simpl; rewrite Hf; by intros b ?%elem_of_nil).
        simpl. rewrite (ko_start _ _ _ _ Hok), decide_False by lia.
        rewrite (decide_False (P:=w32 (KERNEL_HEAP_MAX - _) < 0)) by (pose proof (w32_range (KERNEL_HEAP_MAX - kheapPageAllocBreak s)); lia).
        rewrite (decide_False (P:=KERNEL_HEAP_MAX < _)) by (rewrite w32_small by lia; lia).
        change (range_fuel 0) with 2%nat. erewrite bind_Ok by reflexivity. simpl.
        erewrite bind_Ok by exact Hr. by erewrite bind_Ok by reflexivity. }
    by erewrite bind_Ok by by apply release_run.
  - simpl. rewrite w32_small by lia. lia.
  - simpl. exact Hf.
Qed.

(** [kfree] of an address of the guard page between the two regions returns
    without releasing the lock, and from then on every [kmalloc] panics. *)
Theorem kfree_guard_page s e va size :
  kheap_inv s e → kheap_lock s = false → 4160749568 ≤ va < HEAP_PAGES →
  ∃ s', kfree va (s, e) = Ok tt (s', e) ∧ kheap_lock s' = true ∧ kmalloc size (s', e) = Panic (s', e).
Proof.
  intros [segs Hok] Hlock Hva. destruct heap_consts as (? & ?).
  exists (set_lock true s). split_and!; [|done|done].
  unfold kfree. erewrite bind_Ok by by apply acquire_run.
  rewrite (decide_False (P:=va = NULL)) by (unfold NULL; lia).
  rewrite (decide_False (P:=va < KERNEL_HEAP_START ∨ _)) by (unfold KERNEL_HEAP_START; lia).
  cbv zeta. erewrite bind_Ok by reflexivity. cbn [fst].
  change (w32 (KERNEL_HEAP_START + DYN_ALLOC_MAX_SIZE)) with 4160749568.
  rewrite (decide_False (P:=KERNEL_HEAP_START ≤ va ∧ _)) by lia.
  assert (kheapPageAllocStart (set_lock true s) = HEAP_PAGES) as -> by apply (ko_start _ _ _ _ Hok).
  by rewrite decide_False by lia.
Qed.

(** An exact fit takes the range out of the free list but never releases the
    descriptor it had there: its block stays live and no list names it. *)
Theorem exact_fit_leaks s e n b :
  kheap_inv s e → room (blocks s) → exact_fit n (free_bulks s) = Some b →
  ∃ s' e', page_alloc_custom_fit n (s, e) = Ok (b_start b) (s', e') ∧ kheap_inv s' e' ∧
    desc_block (blocks s') (b_ptr b) ∧ b_ptr b ∉ b_ptr <$> free_bulks s' ++ bulks_allocated s'.
Proof.
  intros [segs Hok] Hroom Hex. destruct (exact_fit_elem _ _ _ Hex) as [Hb _].
  destruct (page_alloc_exact segs s e n b Hok Hroom Hex) as
    (p & s' & e' & segs' & Hrun & Hok' & _ & Hal & Hkeep & Hfr & Hfresh).
  exists s', e'. destruct (ko_blocks _ _ _ _ Hok b) as (sz & Hsz & Ha); [set_solver|].
  split_and!; [done|by exists segs'|exists sz; split; [done|by apply (Hkeep _ _ Ha)]|].
  rewrite Hal, Hfr, fmap_app, fmap_cons. simpl.
  pose proof (ko_ptrs _ _ _ _ Hok) as Hnd. rewrite fmap_app in Hnd. apply NoDup_app in Hnd as (_ & Hd & _).
  rewrite elem_of_app, elem_of_cons. intros [Hin|[Hp|Hin]].
  - apply list_elem_of_fmap in Hin as (c & Hc & [Hn _]%list_elem_of_filter). by rewrite Hc in Hn.
  - apply (Hfresh sz). by rewrite <- Hp.
  - apply (Hd (b_ptr b)); [by apply list_elem_of_fmap_2|done].
Qed.
End inv.

(** ** Witnesses

    A memory manager that records the mapped pages, the heap after its
    initialisation, and the same heap with one allocated range. *)
#[export] Instance trace_mem : KMem (gset Z) := {|
  alloc_page va := λ e, Ok 0 ({[va]} ∪ e);
  unmap_frame va := λ e, Ok tt (e ∖ {[va]});
  allocate_frame := λ e, Ok (0, 8) e;
  free_frame _ := λ e, Ok tt e;
  map_frame _ va := λ e, Ok 0 ({[va]} ∪ e);
  frame_info_va _ := λ e, Ok 0 e;
  page_table_entry _ := λ e, Ok None e;
  memset _ _ _ e := e
|}.
#[export] Program Instance trace_laws : KMemLaws (gset Z) := {| mapped e v := v ∈ e |}.
Next Obligation. intros. eexists. split; [reflexivity|]. set_solver. Qed.
Next Obligation. intros. eexists. split; [reflexivity|]. set_solver. Qed.
Next Obligation. intros. eexists _, _. split; reflexivity. Qed.
Next Obligation. intros. eexists. split; [reflexivity|]. set_solver. Qed.
Next Obligation. done. Qed.

Definition w_blocks : da := DA (replicate 9 []) (seqZ 0 8192) ∅ KERNEL_HEAP_START 4160749568 true.
Definition w_heap : kheap := KH w_blocks HEAP_PAGES HEAP_PAGES KHP_PLACE_CUSTOMFIT [] [] false.
Definition w_blocks1 : da := carved 1 0 (seqZ 1 8191) w_blocks.
Definition w_range : bulk := Bulk_ KERNEL_HEAP_START HEAP_PAGES 8192.
Definition w_heap1 : kheap :=
  KH w_blocks1 HEAP_PAGES (HEAP_PAGES + 8192) KHP_PLACE_CUSTOMFIT [] [w_range] false.
Definition w_pages1 : gset Z := {[HEAP_PAGES; HEAP_PAGES + 4096]}.
(** Two ranges, the lower one free. *)
Definition w_blocks2 : da := popped 1 (KERNEL_HEAP_START + 16) (tail (tail (blocks_of KERNEL_HEAP_START 0 16))) w_blocks1.
Definition w_free : bulk := Bulk_ KERNEL_HEAP_START HEAP_PAGES 8192.
Definition w_top : bulk := Bulk_ (KERNEL_HEAP_START + 16) (HEAP_PAGES + 8192) 4096.
Definition w_heap2 : kheap :=
  KH w_blocks2 HEAP_PAGES (HEAP_PAGES + 12288) KHP_PLACE_CUSTOMFIT [w_free] [w_top] false.
Definition w_pages2 : gset Z := {[HEAP_PAGES + 8192]}.

Lemma w_blocks_inv : da_inv w_blocks.
Proof.
  assert (Hnil : ∀ k l, freeBlockLists w_blocks !! k = Some l → l = []).
  { intros k l Hk. apply (lookup_replicate_1 9 [] l k) in Hk. by destruct Hk. }
  assert (Hn : npages w_blocks = 8192) by by vm_compute.
  split.
  - rewrite Hn. unfold w_blocks, KERNEL_HEAP_START. simpl. lia.
  - done.
  - intros k l Hk. rewrite (Hnil _ _ Hk). constructor.
  - intros k l b Hk Hb. rewrite (Hnil _ _ Hk) in Hb. by apply elem_of_nil in Hb.
  - rewrite Hn. unfold w_blocks. simpl. split; [apply NoDup_seqZ|]. intros i. rewrite elem_of_seqZ.
    unfold page_info. simpl. rewrite lookup_empty. simpl. lia.
  - intros i _ Hi. exfalso. apply Hi. unfold page_info. simpl. by rewrite lookup_empty.
Qed.
Lemma w_region : region_ok w_blocks.
Proof. split_and!; [apply w_blocks_inv|done|done]. Qed.
Lemma w_free_pages : freePagesList w_blocks = 0 :: seqZ 1 8191.
Proof. unfold w_blocks. simpl. rewrite seqZ_cons by lia. done. Qed.
Lemma w_room : room w_blocks.
Proof. left. rewrite w_free_pages. discriminate. Qed.
Lemma w_region1 : region_ok w_blocks1.
Proof. split_and!; [apply carve_inv; [apply w_blocks_inv|done|apply w_free_pages]|done|done]. Qed.
Lemma w_desc1 : allocated w_blocks1 KERNEL_HEAP_START 16.
Proof.
  apply (carve_allocated w_blocks 1 0 (seqZ 1 8191) w_blocks_inv); [done|apply w_free_pages|]. by right.
Qed.
Lemma w_list1 : freeBlockLists w_blocks1 !! 1%nat =
  Some (KERNEL_HEAP_START + 16 :: tail (tail (blocks_of KERNEL_HEAP_START 0 16))).
Proof. by vm_compute. Qed.
Lemma w_region2 : region_ok w_blocks2.
Proof. split_and!; [apply pop_inv; [apply w_region1|apply w_list1]|done|done]. Qed.
Lemma w_desc2 : allocated w_blocks2 KERNEL_HEAP_START 16 ∧ allocated w_blocks2 (KERNEL_HEAP_START + 16) 16.
Proof.
  split; apply (pop_allocated w_blocks1 1 _ _ (proj1 w_region1) w_list1); [left; apply w_desc1|by right].
Qed.

Lemma w_heap_inv : kheap_inv w_heap (∅ : gset Z).
Proof.
  exists []. split; cbn [blocks kheapPageAllocStart kheapPageAllocBreak free_bulks bulks_allocated w_heap].
  - apply w_region.
  - reflexivity.
  - reflexivity.
  - unfold HEAP_PAGES, KERNEL_HEAP_MAX. lia.
  - exact I.
  - reflexivity.
  - reflexivity.
  - constructor.
  - constructor.
  - intros b Hb. exfalso. by apply elem_of_nil in Hb.
  - intros v _ _. split; [intros Hv; exfalso; change (v ∈ (∅ : gset Z)) in Hv; by apply elem_of_empty in Hv|].
    intros (b & Hb & _). exfalso. by apply elem_of_nil in Hb.
Qed.
Lemma w_heap1_inv : kheap_inv w_heap1 w_pages1.
Proof.
  exists [(false, w_range)].
  split; cbn [blocks kheapPageAllocStart kheapPageAllocBreak free_bulks bulks_allocated w_heap1].
  - apply w_region1.
  - reflexivity.
  - simpl. split_and!; [done|lia|by exists 2|done].
  - unfold HEAP_PAGES, KERNEL_HEAP_MAX. lia.
  - exact I.
  - reflexivity.
  - reflexivity.
  - constructor.
  - apply NoDup_singleton.
  - intros b Hb. apply list_elem_of_singleton in Hb as ->. exists 16. split; [done|apply w_desc1].
  - intros v Hv Hd. change (mapped w_pages1 v) with (v ∈ w_pages1). unfold w_pages1. rewrite elem_of_union, !elem_of_singleton.
    unfold HEAP_PAGES in *. split.
    + intros ?. exists w_range. split; [left|]. unfold w_range, HEAP_PAGES. simpl. lia.
    + intros (b & ->%list_elem_of_singleton & Hr). unfold w_range, HEAP_PAGES in Hr. simpl in Hr.
      destruct Hd as [k ->]. lia.
Qed.
Lemma w_heap2_inv : kheap_inv w_heap2 w_pages2.
Proof.
  exists [(true, w_free); (false, w_top)].
  split; cbn [blocks kheapPageAllocStart kheapPageAllocBreak free_bulks bulks_allocated w_heap2].
  - apply w_region2.
  - reflexivity.
  - simpl. split_and!; [done|lia|by exists 2|done|lia|by exists 1|done].
  - unfold HEAP_PAGES, KERNEL_HEAP_MAX. lia.
  - exact I.
  - reflexivity.
  - reflexivity.
  - repeat constructor.
  - by apply (bool_decide_unpack _); vm_compute.
  - intros b Hb. exists 16. split; [done|]. apply elem_of_cons in Hb as [->|Hb]; [apply w_desc2|].
    apply list_elem_of_singleton in Hb as ->. apply w_desc2.
  - intros v Hv Hd. change (mapped w_pages2 v) with (v ∈ w_pages2). unfold w_pages2. rewrite !elem_of_singleton.
    unfold HEAP_PAGES in *. split.
    + intros ?. exists w_top. split; [left|]. unfold w_top, HEAP_PAGES. simpl. lia.
    + intros (b & ->%list_elem_of_singleton & Hr). unfold w_top, HEAP_PAGES in Hr. simpl in Hr.
      destruct Hd as [k ->]. lia.
Qed.

Lemma kmalloc_page_correct_witness :
  let n := ROUNDUP 5000 PAGE_SIZE in
  (kmalloc 5000 (w_heap, ∅ : gset Z) = Ok NULL (w_heap, ∅) ∧ (∀ b, b ∈ free_bulks w_heap → b_size b < n) ∧
     KERNEL_HEAP_MAX < kheapPageAllocBreak w_heap + n) ∨
  ∃ p r s' (e' : gset Z), kmalloc 5000 (w_heap, ∅ : gset Z) = Ok r (s', e') ∧ kheap_inv s' e' ∧ kheap_lock s' = false ∧
    bulks_allocated s' = Bulk_ p r n :: bulks_allocated w_heap ∧ (4096 | r) ∧ HEAP_PAGES ≤ r ∧
    r + n ≤ KERNEL_HEAP_MAX ∧
    (∀ b, b ∈ bulks_allocated w_heap → b_start b + b_size b ≤ r ∨ r + n ≤ b_start b) ∧
    (∀ v, (4096 | v) → r ≤ v < r + n → mapped e' v) ∧
    ((∃ b, b ∈ free_bulks w_heap ∧ b_size b = n ∧ r = b_start b) ∨
     ((∀ b, b ∈ free_bulks w_heap → b_size b ≠ n) ∧
      ((∃ b, b ∈ free_bulks w_heap ∧ n < b_size b ∧ r = b_start b ∧
          ∀ c, c ∈ free_bulks w_heap → b_size c ≤ b_size b) ∨
       (∀ b, b ∈ free_bulks w_heap → b_size b < n) ∧ r = kheapPageAllocBreak w_heap))).
Proof.
  exact (kmalloc_page_correct w_heap ∅ 5000 w_heap_inv eq_refl w_room ltac:(lia)).
Defined.

Lemma kfree_page_correct_witness :
  ∃ s' (e' : gset Z), kfree HEAP_PAGES (w_heap1, w_pages1) = Ok tt (s', e') ∧ kheap_inv s' e' ∧
    kheap_lock s' = false ∧ bulks_allocated s' = bl_remove KERNEL_HEAP_START [w_range] ∧
    [w_range] ≡ₚ w_range :: bulks_allocated s' ∧ kheapPageAllocBreak s' ≤ HEAP_PAGES + 8192 ∧
    (∀ v, HEAP_PAGES ≤ v → (4096 | v) →
       mapped e' v ↔ mapped w_pages1 v ∧ ¬ (HEAP_PAGES ≤ v < HEAP_PAGES + 8192)) ∧
    (∀ c d, c ∈ free_bulks s' → d ∈ free_bulks s' → b_start c + b_size c ≠ b_start d) ∧
    (∀ c, c ∈ free_bulks s' → b_start c + b_size c < kheapPageAllocBreak s').
Proof.
  exact (kfree_page_correct w_heap1 w_pages1 w_range w_heap1_inv eq_refl (list_elem_of_here _ _)).
Defined.

Lemma w_zero_pages : ∀ v, HEAP_PAGES ≤ v → ¬ mapped (∅ : gset Z) v.
Proof. intros v _ Hv. change (v ∈ (∅ : gset Z)) in Hv. by apply elem_of_empty in Hv. Qed.

Lemma kernel_heap_safe_witness :
  ∃ σ : kheap * gset Z, kclient σ ∅ ∧ kheap_lock σ.1 = false.
Proof.
  destruct (kheap_init_run w_heap (∅ : gset Z) eq_refl eq_refl w_zero_pages) as (s' & Hrun & _).
  assert (Hc : kclient (s', ∅ : gset Z) ∅).
  { by apply (kc_init w_heap ∅ (s', ∅) eq_refl eq_refl w_zero_pages). }
  exists (s', ∅). split; [exact Hc|]. exact (proj1 (kernel_heap_safe (s', ∅) ∅ Hc)).
Defined.

(** The third 16-byte block of the page is live and not a descriptor. *)
Definition w_blocks3 : da :=
  popped 1 (KERNEL_HEAP_START + 32) (tail (tail (tail (blocks_of KERNEL_HEAP_START 0 16)))) w_blocks2.
Definition w_heap3 : kheap :=
  KH w_blocks3 HEAP_PAGES (HEAP_PAGES + 12288) KHP_PLACE_CUSTOMFIT [w_free] [w_top] false.
Lemma w_list2 : freeBlockLists w_blocks2 !! 1%nat =
  Some (KERNEL_HEAP_START + 32 :: tail (tail (tail (blocks_of KERNEL_HEAP_START 0 16)))).
Proof. by vm_compute. Qed.
Lemma w_block3 : allocated w_blocks3 (KERNEL_HEAP_START + 32) 16.
Proof. apply (pop_allocated w_blocks2 1 _ _ (proj1 w_region2) w_list2). by right. Qed.
Lemma w_heap3_inv : kheap_inv w_heap3 w_pages2.
Proof.
  apply (kheap_inv_blocks w_heap2 w_pages2 w_blocks3 w_pages2 false w_heap2_inv).
  - split_and!; [apply pop_inv; [apply w_region2|apply w_list2]|done|done].
  - done.
  - intros q Hq. destruct (inv_desc_block _ _ _ w_heap2_inv Hq) as (sz & ? & ?). exists sz. split; [done|].
    apply (pop_allocated w_blocks2 1 _ _ (proj1 w_region2) w_list2). by left.
Qed.
Lemma kmalloc_kfree_block_correct_witness :
  ∃ s' (e' : gset Z), kfree (KERNEL_HEAP_START + 32) (w_heap3, w_pages2) = Ok tt (s', e') ∧ kheap_inv s' e' ∧
    kheap_lock s' = false ∧ free_bulks s' = [w_free] ∧ bulks_allocated s' = [w_top] ∧
    ∀ b' sz', allocated (blocks s') b' sz' ↔ allocated w_blocks3 b' sz' ∧ b' ≠ KERNEL_HEAP_START + 32.
Proof.
  apply (proj2 (kmalloc_kfree_block_correct w_heap3 w_pages2 w_heap3_inv eq_refl) _ 16 w_block3).
  apply (bool_decide_unpack _). by vm_compute.
Defined.

Lemma kheap_init_correct_witness :
  ∃ s', kheap_init (w_heap, ∅ : gset Z) = Ok tt (s', ∅) ∧ kheap_inv s' (∅ : gset Z) ∧ kheap_lock s' = false ∧
    room (blocks s') ∧ kheapPageAllocBreak s' = HEAP_PAGES ∧ (∀ b sz, ¬ allocated (blocks s') b sz).
Proof. exact (kheap_init_correct w_heap ∅ eq_refl eq_refl w_zero_pages). Defined.

Lemma kmalloc_wraps_witness :
  ∃ s' (e' : gset Z), kmalloc 4294967295 (w_heap, ∅ : gset Z) = Ok HEAP_PAGES (s', e') ∧
    HEAP_PAGES ≠ NULL ∧ same_pages (∅ : gset Z) e' ∧ kheapPageAllocBreak s' = HEAP_PAGES ∧ free_bulks s' = [].
Proof.
  exact (kmalloc_wraps w_heap ∅ 4294967295 w_heap_inv eq_refl w_room eq_refl ltac:(lia)).
Defined.

Lemma kfree_guard_page_witness :
  ∃ s', kfree 4160750000 (w_heap, ∅ : gset Z) = Ok tt (s', ∅) ∧ kheap_lock s' = true ∧
    kmalloc 8 (s', ∅ : gset Z) = Panic (s', ∅).
Proof.
  apply (kfree_guard_page w_heap ∅ 4160750000 8 w_heap_inv eq_refl). unfold HEAP_PAGES. lia.
Defined.

Lemma exact_fit_leaks_witness :
  ∃ s' (e' : gset Z), page_alloc_custom_fit 8192 (w_heap2, w_pages2) = Ok HEAP_PAGES (s', e') ∧
    kheap_inv s' e' ∧ desc_block (blocks s') KERNEL_HEAP_START ∧
    KERNEL_HEAP_START ∉ b_ptr <$> free_bulks s' ++ bulks_allocated s'.
Proof.
  apply (exact_fit_leaks w_heap2 w_pages2 8192 w_free w_heap2_inv); [|by vm_compute].
  left. apply (bool_decide_unpack _). by vm_compute.
Defined.
