(* ===== verification/UHeap.v ===== *)
(** * The user heap (lib/uheap.c, inc/uheap.h)

    The same two regions as the kernel heap, in a user program: pages come from
    system calls, the sizes of the allocated ranges are in an array indexed by
    page, and the descriptors of free ranges come from a static array. *)

From S2P Require Import Prelude Queue DynAlloc Bulks.

Definition USER_HEAP_START : Z := 2147483648. (* 0x80000000 *)
Definition USER_HEAP_MAX : Z := 2684354560. (* 0xA0000000 *)
Definition USER_HEAP_ARRAY_SIZE : Z := (USER_HEAP_MAX - USER_HEAP_START) / PAGE_SIZE.
Definition MAX_FREE_NODES : Z := 2048.
Definition E_SHARED_MEM_NOT_EXISTS : Z := -16.

(** The system calls of the heap (lib/syscall.c). *)
Class USys (E : Type) := {
  sys_allocate_page : Z → M E Z;             (* __sys_allocate_page *)
  sys_unmap_frame : Z → M E Z;               (* __sys_unmap_frame *)
  sys_allocate_user_mem : Z → Z → M E unit;
  sys_free_user_mem : Z → Z → M E unit;
  sys_get_uheap_strategy : M E Z;
  sys_getenvid : M E Z;
  sys_size_of_shared_object : Z → string → M E Z;
  sys_create_shared_object : string → Z → Z → Z → M E Z;
  sys_get_shared_object : Z → string → Z → M E Z;
  umemset : Z → Z → Z → E → E
}.

Section code.
Context {E : Type} `{USys E}.

Definition get_page (va : Z) : M E Z :=
  ret ← sys_allocate_page (ROUNDDOWN va PAGE_SIZE);
  if decide (ret < 0) then panic else mret 0.
Definition return_page (va : Z) : M E unit :=
  ret ← sys_unmap_frame (ROUNDDOWN va PAGE_SIZE);
  if decide (ret < 0) then panic else mret ().
#[export] Instance user_pages : PageSource E :=
  {| ps_get_page := get_page; ps_return_page := return_page; ps_memset := umemset |}.

Record uheap := UH {
  ublocks : da;
  uheapPageAllocStart : Z;
  uheapPageAllocBreak : Z;
  uheapPlaceStrategy : Z;
  allocation_sizes : gmap Z Z;   (* absent entries are 0 *)
  ubulks : list bulk;            (* [bulks] *)
  free_nodes_index : Z;          (* of the static array of [merge_bulks] *)
  firstTimeFlag : bool
}.
Notation U := (M (uheap * E)).

Definition set_ublocks (x : da) (s : uheap) : uheap :=
  UH x (uheapPageAllocStart s) (uheapPageAllocBreak s) (uheapPlaceStrategy s) (allocation_sizes s)
     (ubulks s) (free_nodes_index s) (firstTimeFlag s).
Definition set_ubreak (x : Z) (s : uheap) : uheap :=
  UH (ublocks s) (uheapPageAllocStart s) x (uheapPlaceStrategy s) (allocation_sizes s)
     (ubulks s) (free_nodes_index s) (firstTimeFlag s).
Definition set_sizes (x : gmap Z Z) (s : uheap) : uheap :=
  UH (ublocks s) (uheapPageAllocStart s) (uheapPageAllocBreak s) (uheapPlaceStrategy s) x
     (ubulks s) (free_nodes_index s) (firstTimeFlag s).
Definition set_ubulks (x : list bulk) (s : uheap) : uheap :=
  UH (ublocks s) (uheapPageAllocStart s) (uheapPageAllocBreak s) (uheapPlaceStrategy s) (allocation_sizes s)
     x (free_nodes_index s) (firstTimeFlag s).
Definition set_node (x : Z) (s : uheap) : uheap :=
  UH (ublocks s) (uheapPageAllocStart s) (uheapPageAllocBreak s) (uheapPlaceStrategy s) (allocation_sizes s)
     (ubulks s) x (firstTimeFlag s).

Definition ublk {A} (c : M (da * E) A) : U A :=
  zoom (λ s, (ublocks s.1, s.2)) (λ d s, (set_ublocks d.1 s.1, d.2)) c.
Definition sys {A} (c : M E A) : U A := zoom snd (λ e s, (s.1, e)) c.
Definition uget {A} (f : uheap → A) : U A := gets (λ s, f s.1).
Definition uset (f : uheap → uheap) : U unit := modify (λ s, (f s.1, s.2)).

(** [allocation_sizes[i]], inside its bounds. *)
Definition size_at (i : Z) : U Z :=
  if decide (0 ≤ i < USER_HEAP_ARRAY_SIZE)
  then uget (λ s, default 0 (allocation_sizes s !! i)) else undef.
Definition set_size_at (i v : Z) : U unit :=
  if decide (0 ≤ i < USER_HEAP_ARRAY_SIZE)
  then uset (λ s, set_sizes (<[i := v]> (allocation_sizes s)) s) else undef.

Definition uheap_init : U unit :=
  first ← uget firstTimeFlag;
  when first (
    ublk (initialize_dynamic_allocator USER_HEAP_START (w32 (USER_HEAP_START + DYN_ALLOC_MAX_SIZE))) ;;
    strategy ← sys sys_get_uheap_strategy;
    uset (λ s, let st := w32 (dynAllocEnd (ublocks s) + PAGE_SIZE) in
      UH (ublocks s) st st strategy (allocation_sizes s) (ubulks s) (free_nodes_index s) false)).

(** An allocated range at [va]: mapped by the kernel, and its size stored. *)
Definition record_range (va needed_bytes : Z) : U unit :=
  sys (sys_allocate_user_mem va needed_bytes) ;;
  set_size_at (w32 (va - USER_HEAP_START) / PAGE_SIZE) needed_bytes.

Definition user_page_alloc_custom_fit (needed_bytes : Z) : U Z :=
  bl ← uget ubulks;
  match snd <$> list_find (λ b, b_size b = needed_bytes) bl with
  | Some b =>
      let va := b_start b in
      uset (set_ubulks (bl_remove (b_ptr b) bl)) ;;
      record_range va needed_bytes ;;
      mret va
  | None =>
    match (match bl with bb :: _ => if decide (needed_bytes < b_size bb) then Some bb else None
                       | [] => None end) with
    | Some bb =>
        let va := b_start bb in
        uset (set_ubulks (bl_insert
          (Bulk_ (b_ptr bb) (w32 (b_start bb + needed_bytes)) (w32 (b_size bb - needed_bytes)))
          (bl_remove (b_ptr bb) bl))) ;;
        record_range va needed_bytes ;;
        mret va
    | None =>
        st ← uget uheapPageAllocStart;
        brk ← uget uheapPageAllocBreak;
        if decide (brk < st) then mret NULL else
        if decide (w32 (USER_HEAP_MAX - brk) < needed_bytes) then mret NULL else
        if decide (USER_HEAP_MAX < w32 (brk + needed_bytes)) then mret NULL else
        record_range brk needed_bytes ;;
        uset (λ s, set_ubreak (w32 (uheapPageAllocBreak s + needed_bytes)) s) ;;
        mret brk
    end
  end.

Definition malloc (size : Z) : U Z :=
  uheap_init ;;
  if decide (size = 0) then mret NULL else
  if decide (size ≤ DYN_ALLOC_MAX_BLOCK_SIZE) then ublk (alloc_block size)
  else user_page_alloc_custom_fit (ROUNDUP size PAGE_SIZE).

(** A node of the static array is [&free_nodes[i]]; its address is [i + 1]. *)
Definition merge_bulks (start size : Z) : U unit :=
  bl ← uget ubulks;
  match bl_before start bl, bl_after start size bl with
  | Some before, Some after =>
      uset (set_ubulks (bl_insert
        (Bulk_ (b_ptr before) (b_start before) (w32 (b_size before + w32 (size + b_size after))))
        (bl_remove (b_ptr after) (bl_remove (b_ptr before) bl))))
  | Some before, None =>
      uset (set_ubulks (bl_insert (Bulk_ (b_ptr before) (b_start before) (w32 (b_size before + size)))
        (bl_remove (b_ptr before) bl)))
  | None, Some after =>
      uset (set_ubulks (bl_insert (Bulk_ (b_ptr after) start (w32 (b_size after + size)))
        (bl_remove (b_ptr after) bl)))
  | None, None =>
      i ← uget free_nodes_index;
      if decide (MAX_FREE_NODES ≤ i) then panic else
      uset (set_node (i + 1)) ;;
      uset (set_ubulks (bl_insert (Bulk_ (i + 1) start size) bl))
  end.

(** The scan of [free] for the highest allocated range, from index [i] down. *)
Fixpoint find_break (i : nat) (newBrk : Z) : U Z :=
  match i with
  | O => mret newBrk
  | Datatypes.S i =>
      sz ← size_at (Z.of_nat i);
      if decide (sz ≠ 0)
      then mret (w32 (w32 (USER_HEAP_START + Z.of_nat i * PAGE_SIZE) + sz))
      else find_break i newBrk
  end.

Definition free (va : Z) : U unit :=
  if decide (va = NULL) then mret () else
  if decide (va < USER_HEAP_START ∨ USER_HEAP_MAX ≤ va) then mret () else
  pstart ← uget uheapPageAllocStart;
  if decide (USER_HEAP_START ≤ va ∧ va < pstart) then ublk (free_block va) else
  let index := w32 (va - USER_HEAP_START) / PAGE_SIZE in
  size ← size_at index;
  if decide (size = 0) then mret () else
  set_size_at index 0 ;;
  merge_bulks va size ;;
  brk ← uget uheapPageAllocBreak;
  let maxIdx := w32 (brk - USER_HEAP_START) / PAGE_SIZE in
  newBrk ← find_break (Z.to_nat maxIdx) pstart;
  uset (set_ubreak newBrk) ;;
  sys (sys_free_user_mem va size).

Definition smalloc (sharedVarName : string) (size isWritable : Z) : U Z :=
  uheap_init ;;
  if decide (size = 0) then mret NULL else
  envid ← sys sys_getenvid;
  r ← sys (sys_size_of_shared_object envid sharedVarName);
  if decide (r ≠ E_SHARED_MEM_NOT_EXISTS) then mret NULL else
  va ← user_page_alloc_custom_fit (ROUNDUP size PAGE_SIZE);
  if decide (va = NULL) then mret NULL else
  objID ← sys (sys_create_shared_object sharedVarName size isWritable va);
  if decide (objID < 0) then
    sys (sys_free_user_mem va (ROUNDUP size PAGE_SIZE)) ;; mret NULL
  else mret va.

Definition sget (ownerEnvID : Z) (sharedVarName : string) : U Z :=
  uheap_init ;;
  size ← sys (sys_size_of_shared_object ownerEnvID sharedVarName);
  if decide (size ≤ 0) then mret NULL else
  va ← user_page_alloc_custom_fit (ROUNDUP size PAGE_SIZE);
  if decide (va = NULL) then mret NULL else
  r ← sys (sys_get_shared_object ownerEnvID sharedVarName va);
  if decide (r < 0) then
    sys (sys_free_user_mem va (ROUNDUP size PAGE_SIZE)) ;; mret NULL
  else mret va.

Definition realloc (virtual_address new_size : Z) : U Z := uheap_init ;; panic.
Definition sfree (virtual_address : Z) : U unit := panic.
End code.
