(* ===== verification/UHeapSpec.v ===== *)
(** * Correctness of the user heap

    Over the same tilings as the kernel heap. [malloc] in the page region is
    correct on every state of the invariant; [free] is as long as the freed
    range is not the last one: then it lowers the break but keeps the freed
    range on the free list, above the break, and the heap can give the same
    addresses out twice. *)

From Stdlib Require Import Sorting.Sorted.
From S2P Require Import Prelude Queue DynAlloc Bulks Tiling UHeap.

Definition USER_PAGES : Z := 2181042176. (* 0x82001000 *)
Definition page_index (va : Z) : Z := (va - USER_HEAP_START) / 4096.
Definition size_of (s : uheap) (i : Z) : Z := default 0 (allocation_sizes s !! i).

Record uheap_ok (segs : list seg) (s : uheap) : Prop := {
  uo_init : firstTimeFlag s = false;
  uo_start : uheapPageAllocStart s = USER_PAGES;
  uo_tile : tile USER_PAGES segs (uheapPageAllocBreak s);
  uo_max : uheapPageAllocBreak s ≤ USER_HEAP_MAX;
  uo_last : last_free segs = None;
  uo_free : ubulks s ≡ₚ frees segs;
  uo_desc : desc (ubulks s);
  uo_ptrs : NoDup (b_ptr <$> ubulks s);
  uo_nodes : 0 ≤ free_nodes_index s;
  uo_used b : b ∈ ubulks s → 1 ≤ b_ptr b ≤ free_nodes_index s;
  uo_sizes b : (false, b) ∈ segs → size_of s (page_index (b_start b)) = b_size b;
  uo_other i : size_of s i ≠ 0 → ∃ b, (false, b) ∈ segs ∧ b_start b = USER_HEAP_START + i * 4096
}.

Lemma user_consts : USER_PAGES = 2181042176 ∧ USER_HEAP_MAX = 2684354560 ∧ USER_HEAP_START = 2147483648 ∧
  USER_HEAP_ARRAY_SIZE = 131072 ∧ PAGE_SIZE = 4096.
Proof. done. Qed.

Section spec.
Context {E : Type} `{USys E}.
Implicit Types (s : uheap) (e : E).

Lemma page_index_run va n : 0 < n → USER_PAGES ≤ va → va + n ≤ USER_HEAP_MAX → (4096 | va - USER_PAGES) →
  w32 (va - USER_HEAP_START) / PAGE_SIZE = page_index va ∧ 0 ≤ page_index va < USER_HEAP_ARRAY_SIZE ∧
  va = USER_HEAP_START + page_index va * 4096.
Proof.
  intros Hn H1 H2 [k Hk]. destruct user_consts as (? & ? & ? & -> & ->). unfold page_index.
  rewrite w32_small by lia. replace (va - USER_HEAP_START) with ((k + 8193) * 4096) by lia.
  rewrite Z.div_mul by lia. lia.
Qed.

Lemma size_at_run s e i : 0 ≤ i < USER_HEAP_ARRAY_SIZE → size_at i (s, e) = Ok (size_of s i) (s, e).
Proof. intros Hi. unfold size_at. by rewrite decide_True. Qed.

(** A range becomes, or is appended as, an allocated one. *)
Lemma uheap_ok_new segs s va n l1 l2 bl brk :
  uheap_ok segs s → tile USER_PAGES (l1 ++ (false, Bulk_ 0 va n) :: l2) brk → brk ≤ USER_HEAP_MAX →
  (∀ b, (false, b) ∈ l1 ++ l2 ↔ (false, b) ∈ segs) → last_free (l1 ++ (false, Bulk_ 0 va n) :: l2) = None →
  bl ≡ₚ frees (l1 ++ l2) → desc bl → NoDup (b_ptr <$> bl) → b_ptr <$> bl ⊆ b_ptr <$> ubulks s →
  uheap_ok (l1 ++ (false, Bulk_ 0 va n) :: l2)
    (UH (ublocks s) (uheapPageAllocStart s) brk (uheapPlaceStrategy s)
       (<[page_index va := n]> (allocation_sizes s)) bl (free_nodes_index s) (firstTimeFlag s)).
Proof.
  intros Hok Ht Hmax Hin Hlast Hbl Hd Hnd Hsub. destruct user_consts as (? & ? & ? & _).
  assert (Hva : (false, Bulk_ 0 va n) ∈ l1 ++ (false, Bulk_ 0 va n) :: l2) by set_solver.
  destruct (tile_range _ _ _ _ _ Ht Hva) as (Hv1 & Hv2 & Hv3 & _ & Hv5). simpl in *.
  destruct (page_index_run va n Hv3 Hv1 ltac:(lia) Hv5) as (_ & _ & Hpi).
  split; simpl; try done; try apply Hok.
  - rewrite Hbl, !frees_app, frees_cons. done.
  - intros b Hb. apply (list_elem_of_fmap_2 b_ptr), Hsub, list_elem_of_fmap in Hb as (c & -> & Hc).
    by apply (uo_used _ _ Hok).
  - intros b Hb. unfold size_of. simpl.
    apply elem_of_app in Hb. rewrite elem_of_cons in Hb.
    destruct (decide ((false, b) ∈ l1 ++ l2)) as [Hb'|Hb'].
    + pose proof (tile_disjoint _ _ _ _ _ _ _ _ Ht Hb') as Hdj. simpl in Hdj.
      assert (Hbi : (false, b) ∈ l1 ++ (false, Bulk_ 0 va n) :: l2) by set_solver.
      destruct (tile_range _ _ _ _ _ Ht Hbi) as (Hb1 & Hb2 & Hb3 & _ & Hb5).
      destruct (page_index_run (b_start b) (b_size b) Hb3 Hb1 ltac:(lia) Hb5) as (_ & _ & Hpb).
      rewrite lookup_insert_ne by (intros Heq; rewrite Heq in Hpi; lia).
      by apply (uo_sizes _ _ Hok), Hin.
    + destruct Hb as [Hb|[[= ->]|Hb]]; [set_solver| |set_solver]. simpl. by rewrite lookup_insert_eq.
  - intros i Hi. unfold size_of in Hi. simpl in Hi. rewrite lookup_insert in Hi. case_decide as Hii.
    + subst i. exists (Bulk_ 0 va n). split; [done|]. simpl. lia.
    + destruct (uo_other _ _ Hok i Hi) as (b & Hb & ?). exists b. split; [|done].
      apply Hin in Hb. set_solver.
Qed.

Lemma malloc_unfold s e size : firstTimeFlag s = false → 2048 < size →
  malloc size (s, e) = user_page_alloc_custom_fit (ROUNDUP size PAGE_SIZE) (s, e).
Proof.
  intros Hf Hs. unfold malloc, uheap_init. erewrite bind_Ok.
  2:{ erewrite bind_Ok by reflexivity. simpl. rewrite Hf. reflexivity. }
  rewrite decide_False by lia.
  by rewrite decide_False by (change DYN_ALLOC_MAX_BLOCK_SIZE with 2048; lia).
Qed.

(** The three ways an allocation succeeds, and the failure. *)
Definition ualloc_post (segs : list seg) s (n r : Z) s' (segs' : list seg) : Prop :=
  uheap_ok segs' s' ∧ (∀ b : bulk, (false, b) ∈ segs' ↔ (false, b) ∈ segs ∨ b = Bulk_ 0 r n) ∧ ublocks s' = ublocks s ∧
  (∀ b : bulk, (false, b) ∈ segs → b_start b + b_size b ≤ r ∨ r + n ≤ b_start b) ∧
  USER_PAGES ≤ r ∧ r + n ≤ USER_HEAP_MAX ∧ (4096 | r - USER_PAGES).

Lemma ualloc_post_intro segs s n r s' l1 l2 :
  uheap_ok (l1 ++ (false, Bulk_ 0 r n) :: l2) s' → (∀ b, (false, b) ∈ l1 ++ l2 ↔ (false, b) ∈ segs) →
  ublocks s' = ublocks s → ualloc_post segs s n r s' (l1 ++ (false, Bulk_ 0 r n) :: l2).
Proof.
  intros Hok Hin Hb. pose proof (uo_tile _ _ Hok) as Ht. pose proof (uo_max _ _ Hok).
  destruct (tile_range _ _ _ false (Bulk_ 0 r n) Ht) as (? & ? & ? & _ & ?); [set_solver|]. simpl in *.
  split_and!; try done; try lia.
  - intros b. rewrite <- Hin, elem_of_app, elem_of_cons, elem_of_app. naive_solver.
  - intros b Hbs. apply Hin in Hbs. pose proof (tile_disjoint _ _ _ _ _ _ _ _ Ht Hbs). simpl in *. lia.
Qed.
Lemma ubulks_nodup segs s b : uheap_ok segs s → b ∈ ubulks s → (true, b) ∈ segs.
Proof. intros Hok Hb. rewrite (uo_free _ _ Hok) in Hb. by apply elem_frees. Qed.
Lemma last_free_mid l1 f b l2 g c : last_free (l1 ++ (f, b) :: l2) = None → l2 ≠ [] ∨ g = false →
  last_free (l1 ++ (g, c) :: l2) = None.
Proof.
  unfold last_free. destruct l2 as [|x l2 _] using rev_ind.
  - rewrite !last_snoc. by intros _ [?| ->].
  - rewrite !app_comm_cons, !app_assoc, !last_snoc. done.
Qed.




(** ** Release *)

(** The scan stops at the highest allocated range, whose end is the end of the
    tiling when its last range is allocated. *)
Lemma find_break_run s e i j v : (i ≤ j)%nat → Z.of_nat j ≤ USER_HEAP_ARRAY_SIZE →
  (∀ k, Z.of_nat i ≤ k < Z.of_nat j → size_of s k = 0) →
  find_break j v (s, e) = find_break i v (s, e).
Proof.
  intros Hij Hj Hz. induction j as [|j IH]; [by replace i with 0%nat by lia|].
  destruct (decide (i = S j)) as [->|]; [done|]. simpl.
  erewrite bind_Ok by (apply size_at_run; lia). rewrite decide_False; [apply IH; [lia..|]|].
  - intros k ?. apply Hz. lia.
  - intros Hne. apply Hne, Hz. lia.
Qed.
Lemma find_break_hit s e i v : 0 ≤ Z.of_nat i < USER_HEAP_ARRAY_SIZE → size_of s (Z.of_nat i) ≠ 0 →
  find_break (S i) v (s, e) =
  Ok (w32 (w32 (USER_HEAP_START + Z.of_nat i * PAGE_SIZE) + size_of s (Z.of_nat i))) (s, e).
Proof. intros Hi Hs. simpl. erewrite bind_Ok by by apply size_at_run. by rewrite decide_True. Qed.

Lemma split_last_free (l1 : list seg) : ∃ l0, l1 = l0 ++ opt_seg (last_free l1).
Proof.
  destruct l1 as [|[[] c] l1 _] using rev_ind; unfold last_free; rewrite ?last_snoc; simpl.
  - by exists [].
  - by exists l1.
  - exists (l1 ++ [(false, c)]). by rewrite app_nil_r.
Qed.
Lemma split_head_free (l2 : list seg) : ∃ l3, l2 = opt_seg (head_free l2) ++ l3.
Proof. destruct l2 as [|[[] c] l2]; simpl; by eexists. Qed.

(** What [merge_bulks] makes of the free list. *)
Definition merged_list (segs : list seg) (brk idx : Z) (l1 l2 : list seg) (bl : list bulk) : Prop :=
  tile USER_PAGES segs brk ∧ bl ≡ₚ frees segs ∧ desc bl ∧ NoDup (b_ptr <$> bl) ∧
  (∀ b, b ∈ bl → 1 ≤ b_ptr b ≤ idx) ∧ (∀ c : bulk, (false, c) ∈ segs ↔ (false, c) ∈ l1 ++ l2).

Lemma merged_intro l0 l3 m rest brk idx l1 l2 :
  tile USER_PAGES (l0 ++ (true, m) :: l3) brk → rest ≡ₚ frees (l0 ++ l3) → desc rest →
  NoDup (b_ptr m :: (b_ptr <$> rest)) → (∀ b, b ∈ m :: rest → 1 ≤ b_ptr b ≤ idx) →
  (∀ c : bulk, (false, c) ∈ l0 ++ l3 ↔ (false, c) ∈ l1 ++ l2) →
  merged_list (l0 ++ (true, m) :: l3) brk idx l1 l2 (bl_insert m rest).
Proof.
  intros Ht Hr Hd Hnd Hu Hin. pose proof (bl_insert_perm m rest) as Hp. split_and!; try done.
  - rewrite Hp, frees_app, frees_cons, <- Permutation_middle, <- frees_app. by f_equiv.
  - by apply bl_insert_desc.
  - by rewrite Hp.
  - intros b. rewrite Hp. apply Hu.
  - intros c. rewrite <- Hin, !elem_of_app, elem_of_cons. naive_solver.
Qed.

Lemma umerge_run segs s s0 e l1 b l2 :
  segs = l1 ++ (false, b) :: l2 → uheap_ok segs s → free_nodes_index s < MAX_FREE_NODES →
  ubulks s0 = ubulks s → free_nodes_index s0 = free_nodes_index s →
  ∃ bl idx segs', merge_bulks (b_start b) (b_size b) (s0, e) = Ok tt (set_ubulks bl (set_node idx s0), e) ∧
    merged_list segs' (uheapPageAllocBreak s) idx l1 l2 bl ∧ 0 ≤ idx.
Proof.
  intros -> Hok Hidx Hb0 Hi0. pose proof (uo_tile _ _ Hok) as Ht. pose proof (uo_max _ _ Hok).
  destruct user_consts as (? & ? & _). pose proof (uo_nodes _ _ Hok) as Hnn. pose proof (uo_used _ _ Hok) as Hused.
  assert (Hfr : ubulks s ≡ₚ frees (l1 ++ l2)) by (rewrite (uo_free _ _ Hok), !frees_app; done).
  destruct (neighbours USER_PAGES l1 false b l2 (uheapPageAllocBreak s) (ubulks s)) as [Hbef Haft];
    [lia|lia|done|done|].
  destruct (split_last_free l1) as [l0 Hl1]. destruct (split_head_free l2) as [l3 Hl2].
  apply tile_app in Ht as (st & Ht1 & Ht2). simpl in Ht2. destruct Ht2 as (<- & Hsz & Hdv & Ht2).
  pose proof (tile_le _ _ _ Ht1). pose proof (tile_le _ _ _ Ht2).
  pose proof (uo_ptrs _ _ Hok) as Hnd. pose proof (uo_desc _ _ Hok) as Hds.
  rewrite Hl1 in Ht1. rewrite Hl2 in Ht2.
  destruct (last_free l1) as [c|], (head_free l2) as [d|]; simpl in *; rewrite ?app_nil_r in *.
  - apply tile_app in Ht1 as (m & Ht1 & Ht1'). simpl in Ht1'. destruct Ht1' as (<- & ? & ? & ?).
    destruct Ht2 as (? & ? & ? & Ht2). pose proof (tile_le _ _ _ Ht1). pose proof (tile_le _ _ _ Ht2).
    destruct (perm_split c (ubulks s) l0 ((true, d) :: l3) Hnd) as [Hr1 Hp1].
    { rewrite Hfr, Hl1, Hl2, <- app_assoc. done. }
    set (bl1 := bl_remove (b_ptr c) (ubulks s)) in *.
    assert (Hnd1 : NoDup (b_ptr <$> bl1)) by (rewrite Hp1 in Hnd; by apply NoDup_cons in Hnd as [_ ?]).
    destruct (perm_split d bl1 l0 l3 Hnd1 Hr1) as [Hr2 Hp2]. set (bl2 := bl_remove (b_ptr d) bl1) in *.
    exists (bl_insert (Bulk_ (b_ptr c) (b_start c) (b_size c + (b_size b + b_size d))) bl2),
      (free_nodes_index s), (l0 ++ (true, Bulk_ (b_ptr c) (b_start c) (b_size c + (b_size b + b_size d))) :: l3).
    split_and!; [|apply merged_intro|done].
    + unfold merge_bulks. erewrite bind_Ok by reflexivity. simpl. rewrite Hb0, Hbef, Haft.
      fold bl1 bl2. rewrite !w32_small by (rewrite ?w32_small by lia; lia).
      rewrite <- Hi0. by destruct s0.
    + apply tile_app. exists (b_start c). split; [done|]. simpl. split_and!; [done|lia| |].
      * apply Z.divide_add_r; [done|]. by apply Z.divide_add_r.
      * by replace (b_start c + (b_size c + (b_size b + b_size d))) with (b_start b + b_size b + b_size d) by lia.
    + done.
    + by apply desc_filter, desc_filter.
    + rewrite Hp1, Hp2 in Hnd. change (NoDup (b_ptr c :: b_ptr d :: (b_ptr <$> bl2))) in Hnd.
      rewrite !NoDup_cons, not_elem_of_cons in Hnd. simpl. apply NoDup_cons. naive_solver.
    + intros x [->|Hx]%elem_of_cons; simpl; apply Hused; [rewrite Hp1; by left|rewrite Hp1, Hp2; by do 2 right].
    + intros x. rewrite Hl1, Hl2, !elem_of_app, !elem_of_cons, ?elem_of_nil. naive_solver.
  - apply tile_app in Ht1 as (m & Ht1 & Ht1'). simpl in Ht1'. destruct Ht1' as (<- & ? & ? & ?).
    pose proof (tile_le _ _ _ Ht1). destruct (perm_split c (ubulks s) l0 l3 Hnd) as [Hr1 Hp1].
    { rewrite Hfr, Hl1, Hl2, <- app_assoc. done. }
    set (bl1 := bl_remove (b_ptr c) (ubulks s)) in *.
    exists (bl_insert (Bulk_ (b_ptr c) (b_start c) (b_size c + b_size b)) bl1),
      (free_nodes_index s), (l0 ++ (true, Bulk_ (b_ptr c) (b_start c) (b_size c + b_size b)) :: l3).
    split_and!; [|apply merged_intro|done].
    + unfold merge_bulks. erewrite bind_Ok by reflexivity. simpl. rewrite Hb0, Hbef, Haft.
      fold bl1. rewrite !w32_small by lia. rewrite <- Hi0. by destruct s0.
    + apply tile_app. exists (b_start c). split; [done|]. simpl. split_and!; [done|lia| |].
      * by apply Z.divide_add_r.
      * by replace (b_start c + (b_size c + b_size b)) with (b_start b + b_size b) by lia.
    + done.
    + by apply desc_filter.
    + by rewrite Hp1 in Hnd.
    + intros x [->|Hx]%elem_of_cons; simpl; apply Hused; rewrite Hp1; [by left|by right].
    + intros x. rewrite Hl1, Hl2, !elem_of_app, !elem_of_cons, ?elem_of_nil. naive_solver.
  - destruct Ht2 as (? & ? & ? & Ht2). pose proof (tile_le _ _ _ Ht2).
    destruct (perm_split d (ubulks s) l0 l3 Hnd) as [Hr1 Hp1].
    { rewrite Hfr, Hl1, Hl2. done. }
    set (bl1 := bl_remove (b_ptr d) (ubulks s)) in *.
    exists (bl_insert (Bulk_ (b_ptr d) (b_start b) (b_size d + b_size b)) bl1),
      (free_nodes_index s), (l0 ++ (true, Bulk_ (b_ptr d) (b_start b) (b_size d + b_size b)) :: l3).
    split_and!; [|apply merged_intro|done].
    + unfold merge_bulks. erewrite bind_Ok by reflexivity. simpl. rewrite Hb0, Hbef, Haft.
      fold bl1. rewrite !w32_small by lia. rewrite <- Hi0. by destruct s0.
    + apply tile_app. exists (b_start b). split; [done|]. simpl. split_and!; [done|lia| |].
      * by apply Z.divide_add_r.
      * by replace (b_start b + (b_size d + b_size b)) with (b_start b + b_size b + b_size d) by lia.
    + done.
    + by apply desc_filter.
    + by rewrite Hp1 in Hnd.
    + intros x [->|Hx]%elem_of_cons; simpl; apply Hused; rewrite Hp1; [by left|by right].
    + intros x. rewrite Hl1, Hl2, !elem_of_app, !elem_of_cons, ?elem_of_nil. naive_solver.
  - exists (bl_insert (Bulk_ (free_nodes_index s + 1) (b_start b) (b_size b)) (ubulks s)),
      (free_nodes_index s + 1), (l0 ++ (true, Bulk_ (free_nodes_index s + 1) (b_start b) (b_size b)) :: l3).
    split_and!; [|apply merged_intro|lia].
    + unfold merge_bulks. erewrite bind_Ok by reflexivity. simpl. rewrite Hb0, Hbef, Haft.
      erewrite bind_Ok by reflexivity. simpl. rewrite Hi0. by rewrite decide_False by lia.
    + apply tile_app. exists (b_start b). split; [done|]. simpl. split_and!; try done.
    + by rewrite Hfr, Hl1, Hl2.
    + done.
    + simpl. apply NoDup_cons. split; [|done]. intros (c & Hc & Hcin)%list_elem_of_fmap.
      pose proof (Hused c Hcin). lia.
    + intros x [->|Hx]%elem_of_cons; simpl; [lia|]. pose proof (Hused x Hx). lia.
    + intros x. by rewrite Hl1, Hl2.
Qed.


(** The scan, when the last range [c] is not the freed one. *)
Lemma find_break_last segs s s1 e b c pre :
  uheap_ok segs s → segs = pre ++ [(false, c)] → (false, b) ∈ pre →
  allocation_sizes s1 = <[page_index (b_start b) := 0]> (allocation_sizes s) →
  find_break (Z.to_nat ((uheapPageAllocBreak s - USER_HEAP_START) / 4096)) USER_PAGES (s1, e) =
  Ok (uheapPageAllocBreak s) (s1, e).
Proof.
  intros Hok Hsegs Hb Hs1. destruct user_consts as (? & ? & ? & ? & ?).
  pose proof (uo_tile _ _ Hok) as Ht. pose proof (uo_max _ _ Hok). rewrite Hsegs in Ht.
  assert (Hc : (false, c) ∈ pre ++ [(false, c)]) by set_solver.
  assert (Hb' : (false, b) ∈ pre ++ [(false, c)]) by set_solver.
  destruct (tile_range _ _ _ _ _ Ht Hc) as (? & ? & ? & Hcd & ?).
  destruct (tile_range _ _ _ _ _ Ht Hb') as (? & ? & ? & ? & ?).
  destruct (page_index_run (b_start c) (b_size c)) as (_ & Hr & Hpi); [lia..|done|].
  destruct (page_index_run (b_start b) (b_size b)) as (_ & _ & Hpb); [lia..|done|].
  pose proof Ht as (m & Ht1 & Ht2)%tile_app. simpl in Ht2. destruct Ht2 as (<- & _ & _ & Hend).
  assert (Hpre : ∀ g d, (g, d) ∈ pre → b_start d + b_size d ≤ b_start c ∧ 0 < b_size d).
  { intros g d Hd. destruct (tile_range _ _ _ _ _ Ht1 Hd) as (? & ? & ? & _). lia. }
  pose proof (Hpre _ _ Hb). set (ic := Z.to_nat (page_index (b_start c))).
  assert (Hsc : size_of s1 (Z.of_nat ic) = b_size c).
  { unfold size_of. rewrite Hs1, lookup_insert_ne.
    - unfold ic. rewrite Z2Nat.id by lia. apply (uo_sizes _ _ Hok). by rewrite Hsegs.
    - unfold ic. rewrite Z2Nat.id by lia. intros Heq. rewrite Heq in Hpb. lia. }
  destruct Hcd as [kc Hkc].
  assert (Hmax : (uheapPageAllocBreak s - USER_HEAP_START) / 4096 = page_index (b_start c) + kc).
  { replace (uheapPageAllocBreak s - USER_HEAP_START) with ((page_index (b_start c) + kc) * 4096) by lia.
    by apply Z.div_mul. }
  rewrite Hmax, (find_break_run s1 e (S ic)); [|unfold ic; lia|unfold ic; lia|].
  - rewrite find_break_hit, Hsc by (rewrite ?Hsc; unfold ic; lia).
    unfold ic. rewrite Z2Nat.id by lia. f_equal. rewrite !w32_small by (rewrite ?w32_small by lia; lia). lia.
  - intros k Hk. destruct (decide (size_of s1 k = 0)) as [|Hne]; [done|exfalso].
    unfold size_of in Hne. rewrite Hs1, lookup_insert in Hne. case_decide; [done|].
    destruct (uo_other _ _ Hok k Hne) as (d & Hd & Hds). rewrite Hsegs in Hd.
    apply elem_of_app in Hd as [Hd|Hd].
    + pose proof (Hpre _ _ Hd). unfold ic in Hk. lia.
    + apply list_elem_of_singleton in Hd as [= ->]. unfold ic in Hk. lia.
Qed.

Lemma last_alloc segs s : uheap_ok segs s → segs ≠ [] → ∃ pre c, segs = pre ++ [(false, c)].
Proof.
  intros Hok Hne. pose proof (uo_last _ _ Hok) as Hl. destruct segs as [|[[] c] pre _] using rev_ind; [done|..].
  - unfold last_free in Hl. by rewrite last_snoc in Hl.
  - by exists pre, c.
Qed.
End spec.

(** ** Properties *)
Section malloc.
Context {E : Type} `{USys E}.
Implicit Types (s : uheap) (e : E).
(** The kernel's part of an allocation returns. *)
Hypothesis allocate_returns : ∀ va n e, ∃ e', sys_allocate_user_mem va n e = Ok tt e'.

Lemma record_range_run s e va n : 0 < n → USER_PAGES ≤ va → va + n ≤ USER_HEAP_MAX → (4096 | va - USER_PAGES) →
  ∃ e', record_range va n (s, e) = Ok tt (set_sizes (<[page_index va := n]> (allocation_sizes s)) s, e').
Proof.
  intros Hn H1 H2 Hd. destruct (page_index_run va n Hn H1 H2 Hd) as (Hi & Hr & _).
  destruct (allocate_returns va n e) as [e' He]. exists e'.
  unfold record_range, sys, zoom, mbind, M_bind. simpl. rewrite He. rewrite Hi.
  unfold set_size_at. by rewrite decide_True.
Qed.

Lemma ualloc_exact segs s e n i b : uheap_ok segs s → list_find (λ b, b_size b = n) (ubulks s) = Some (i, b) →
  ∃ s' e' segs', user_page_alloc_custom_fit n (s, e) = Ok (b_start b) (s', e') ∧
    ualloc_post segs s n (b_start b) s' segs'.
Proof.
  intros Hok Hf. pose proof Hf as (Hi & Hn & _)%list_find_Some. apply list_elem_of_lookup_2 in Hi.
  pose proof (ubulks_nodup _ _ _ Hok Hi) as Hs. destruct (list_elem_of_split _ _ Hs) as (l1 & l2 & ->).
  pose proof (uo_tile _ _ Hok) as Ht. destruct (tile_range _ _ _ _ _ Ht Hs) as (? & ? & ? & ? & ?).
  pose proof (uo_max _ _ Hok).
  destruct (perm_split b _ l1 l2 (uo_ptrs _ _ Hok) (uo_free _ _ Hok)) as [Hrest Hperm].
  set (bl := bl_remove (b_ptr b) (ubulks s)) in *.
  destruct (record_range_run (set_ubulks bl s) e (b_start b) n) as [e' Hr]; [lia..|done|].
  eexists _, e', (l1 ++ (false, Bulk_ 0 (b_start b) n) :: l2). split.
  - unfold user_page_alloc_custom_fit. erewrite bind_Ok by reflexivity. simpl. rewrite Hf. simpl.
    erewrite bind_Ok by reflexivity. simpl. fold bl. by erewrite bind_Ok by exact Hr.
  - assert (Hin : ∀ c, (false, c) ∈ l1 ++ l2 ↔ (false, c) ∈ l1 ++ (true, b) :: l2).
    { intros c. rewrite !elem_of_app, elem_of_cons. naive_solver. }
    apply ualloc_post_intro; [|done|done].
    apply (uheap_ok_new (l1 ++ (true, b) :: l2) s (b_start b) n l1 l2 bl (uheapPageAllocBreak s)); try done.
    + apply tile_app in Ht as (m & Ht1 & Ht2). apply tile_app. exists m. split; [done|].
      simpl in *. by rewrite <- Hn.
    + eapply last_free_mid; [apply (uo_last _ _ Hok)|by right].
    + apply desc_filter, (uo_desc _ _ Hok).
    + pose proof (uo_ptrs _ _ Hok) as Hnd. rewrite Hperm in Hnd. by apply NoDup_cons in Hnd as [_ ?].
    + rewrite Hperm. set_solver.
Qed.

Lemma ualloc_worst segs s e n bb bs : uheap_ok segs s → 0 < n → (4096 | n) →
  list_find (λ b, b_size b = n) (ubulks s) = None → ubulks s = bb :: bs → n < b_size bb →
  ∃ s' e' segs', user_page_alloc_custom_fit n (s, e) = Ok (b_start bb) (s', e') ∧
    ualloc_post segs s n (b_start bb) s' segs'.
Proof.
  intros Hok Hn0 Hdiv Hf Hbs Hlt. assert (Hi : bb ∈ ubulks s) by (rewrite Hbs; left).
  pose proof (ubulks_nodup _ _ _ Hok Hi) as Hs. destruct (list_elem_of_split _ _ Hs) as (l1 & l2 & ->).
  pose proof (uo_tile _ _ Hok) as Ht. destruct (tile_range _ _ _ _ _ Ht Hs) as (? & ? & ? & ? & ?).
  pose proof (uo_max _ _ Hok). destruct user_consts as (? & ? & _).
  destruct (perm_split bb _ l1 l2 (uo_ptrs _ _ Hok) (uo_free _ _ Hok)) as [Hrest Hperm].
  set (b' := Bulk_ (b_ptr bb) (b_start bb + n) (b_size bb - n)).
  set (bl := bl_insert b' (bl_remove (b_ptr bb) (ubulks s))).
  assert (Hbl : bl ≡ₚ b' :: bl_remove (b_ptr bb) (ubulks s)) by apply bl_insert_perm.
  destruct (record_range_run (set_ubulks bl s) e (b_start bb) n) as [e' Hr]; [lia..|done|].
  eexists _, e', (l1 ++ (false, Bulk_ 0 (b_start bb) n) :: (true, b') :: l2). split.
  - unfold user_page_alloc_custom_fit. erewrite bind_Ok by reflexivity. simpl. rewrite Hf. simpl.
    replace (match ubulks s with bb :: _ => if decide (n < b_size bb) then Some bb else None | [] => None end)
      with (Some bb) by (rewrite Hbs; by rewrite decide_True).
    erewrite bind_Ok by reflexivity. simpl. rewrite !w32_small by lia. fold b'. fold bl.
    by erewrite bind_Ok by exact Hr.
  - assert (Hin : ∀ c, (false, c) ∈ l1 ++ (true, b') :: l2 ↔ (false, c) ∈ l1 ++ (true, bb) :: l2).
    { intros c. rewrite !elem_of_app, !elem_of_cons. naive_solver. }
    apply ualloc_post_intro; [|done|done].
    apply (uheap_ok_new (l1 ++ (true, bb) :: l2) s (b_start bb) n l1 ((true, b') :: l2) bl (uheapPageAllocBreak s)); try done.
    + apply tile_app in Ht as (m & Ht1 & Ht2). apply tile_app. exists m. split; [done|].
      simpl in *. destruct Ht2 as (Hm & ? & ? & Ht2). split_and!; try done; try lia.
      * by apply Z.divide_sub_r.
      * by replace (m + n + (b_size bb - n)) with (m + b_size bb) by lia.
    + pose proof (uo_last _ _ Hok) as Hl. destruct l2 as [|x l2 _] using rev_ind.
      * unfold last_free in Hl. by rewrite last_snoc in Hl.
      * unfold last_free in *. rewrite !app_comm_cons, !app_assoc, last_snoc in *. done.
    + rewrite Hbl, frees_app, frees_cons, <- Permutation_middle, <- frees_app. by f_equiv.
    + apply bl_insert_desc, desc_filter, (uo_desc _ _ Hok).
    + pose proof (uo_ptrs _ _ Hok) as Hnd. rewrite Hperm in Hnd. by rewrite Hbl.
    + rewrite Hbl. by rewrite Hperm at 2.
Qed.

Lemma ualloc_grow segs s e n : uheap_ok segs s → 0 < n < 4294967296 → (4096 | n) →
  (∀ b, b ∈ ubulks s → b_size b < n) →
  (uheapPageAllocBreak s + n ≤ USER_HEAP_MAX ∧
   ∃ s' e' segs', user_page_alloc_custom_fit n (s, e) = Ok (uheapPageAllocBreak s) (s', e') ∧
     ualloc_post segs s n (uheapPageAllocBreak s) s' segs') ∨
  (USER_HEAP_MAX < uheapPageAllocBreak s + n ∧ user_page_alloc_custom_fit n (s, e) = Ok NULL (s, e)).
Proof.
  intros Hok Hn Hdiv Hall. pose proof (uo_tile _ _ Hok) as Ht. pose proof (tile_le _ _ _ Ht).
  pose proof (uo_max _ _ Hok). destruct user_consts as (? & ? & _).
  assert (Hrun : user_page_alloc_custom_fit n (s, e) =
    (if decide (uheapPageAllocBreak s < uheapPageAllocStart s) then mret NULL else
     if decide (w32 (USER_HEAP_MAX - uheapPageAllocBreak s) < n) then mret NULL else
     if decide (USER_HEAP_MAX < w32 (uheapPageAllocBreak s + n)) then mret NULL else
     record_range (uheapPageAllocBreak s) n ;;
     uset (λ s, set_ubreak (w32 (uheapPageAllocBreak s + n)) s) ;;
     mret (uheapPageAllocBreak s)) (s, e)).
  { unfold user_page_alloc_custom_fit. erewrite bind_Ok by reflexivity. simpl.
    destruct (list_find _ (ubulks s)) as [[i b]|] eqn:Hf.
    { apply list_find_Some in Hf as (Hi & Hb & _). apply list_elem_of_lookup_2 in Hi.
      specialize (Hall b Hi). lia. }
    simpl. destruct (ubulks s) as [|b bs]; [done|].
    rewrite (decide_False (P:=n < b_size b)); [done|]. specialize (Hall b ltac:(left)). lia. }
  rewrite Hrun. clear Hrun. rewrite (uo_start _ _ Hok). rewrite decide_False by lia.
  rewrite (w32_small (USER_HEAP_MAX - _)) by lia.
  destruct (decide (uheapPageAllocBreak s + n ≤ USER_HEAP_MAX)); [left|right].
  - split; [done|]. rewrite decide_False by lia. rewrite decide_False by (rewrite w32_small by lia; lia).
    destruct (record_range_run s e (uheapPageAllocBreak s) n) as [e' Hr]; [lia..|by eapply tile_divide|].
    eexists _, e', (segs ++ (false, Bulk_ 0 (uheapPageAllocBreak s) n) :: []). split.
    + erewrite bind_Ok by exact Hr. by erewrite bind_Ok by reflexivity.
    + simpl. rewrite w32_small by lia. apply ualloc_post_intro; [|by rewrite app_nil_r|done].
      apply (uheap_ok_new segs s (uheapPageAllocBreak s) n segs [] (ubulks s)
        (uheapPageAllocBreak s + n)); rewrite ?app_nil_r; try done; try apply Hok.
      * apply tile_app. exists (uheapPageAllocBreak s). split; [done|]. simpl. split_and!; try done; lia.
      * unfold last_free. by rewrite last_snoc.
  - split; [lia|]. by rewrite decide_True by lia.
Qed.



End malloc.

Section free.
Context {E : Type} `{USys E}.
Implicit Types (s : uheap) (e : E).
(** The kernel's part of a release returns. *)
Hypothesis free_returns : ∀ va n e, ∃ e', sys_free_user_mem va n e = Ok tt e'.

(** Up to the lowering of the break, for any allocated range. *)
Lemma free_range_run segs s e b :
  uheap_ok segs s → (false, b) ∈ segs → free_nodes_index s < MAX_FREE_NODES →
  ∃ l1 l2 bl idx segs', segs = l1 ++ (false, b) :: l2 ∧
    merged_list segs' (uheapPageAllocBreak s) idx l1 l2 bl ∧ 0 ≤ idx ∧
    let s1 := set_ubulks bl (set_node idx (set_sizes (<[page_index (b_start b) := 0]> (allocation_sizes s)) s)) in
    ∀ brk, find_break (Z.to_nat ((uheapPageAllocBreak s - USER_HEAP_START) / 4096)) USER_PAGES (s1, e)
             = Ok brk (s1, e) →
      ∃ e', free (b_start b) (s, e) = Ok tt (set_ubreak brk s1, e').
Proof.
  intros Hok Hb Hidx. destruct (list_elem_of_split _ _ Hb) as (l1 & l2 & Heq). destruct user_consts as (? & ? & ? & ? & ?).
  pose proof (uo_tile _ _ Hok) as Ht. destruct (tile_range _ _ _ _ _ Ht Hb) as (? & ? & ? & ? & ?).
  pose proof (uo_max _ _ Hok). pose proof (tile_le _ _ _ Ht).
  destruct (page_index_run (b_start b) (b_size b)) as (Hi & Hr & Hpi); [lia..|done|].
  set (s0 := set_sizes (<[page_index (b_start b) := 0]> (allocation_sizes s)) s).
  destruct (umerge_run segs s s0 e l1 b l2 Heq Hok Hidx eq_refl eq_refl) as (bl & idx & segs' & Hrun & Hm & Hn).
  set (s1 := set_ubulks bl (set_node idx s0)).
  exists l1, l2, bl, idx, segs'. do 3 (split; [done|]). cbv zeta. intros brk Hv. fold s0 s1 in Hv |- *.
  destruct (free_returns (b_start b) (b_size b) e) as [e' He']. exists e'.
  unfold free. rewrite (decide_False (P:=b_start b = NULL)) by (unfold NULL; lia).
  rewrite (decide_False (P:=b_start b < USER_HEAP_START ∨ _)) by lia.
  erewrite bind_Ok by reflexivity. cbn [fst]. rewrite (uo_start _ _ Hok), decide_False by lia.
  cbv zeta. rewrite Hi. erewrite bind_Ok by by apply size_at_run. rewrite (uo_sizes _ _ Hok) by done.
  rewrite decide_False by lia. unfold set_size_at at 1. rewrite decide_True by done.
  erewrite bind_Ok by reflexivity. cbn [fst snd]. fold s0. erewrite bind_Ok by exact Hrun. fold s1.
  erewrite bind_Ok by reflexivity. cbn [fst]. change (uheapPageAllocBreak s1) with (uheapPageAllocBreak s).
  rewrite w32_small by lia. unfold PAGE_SIZE. erewrite bind_Ok by exact Hv.
  erewrite bind_Ok by reflexivity. unfold sys, zoom. simpl. by rewrite He'.
Qed.

(** [free] of an allocated range that does not end at the break, with a
    descriptor left in the static array, returns and keeps the invariant, leaves
    the break where it is, and exactly that range stops being allocated. *)
Theorem free_page_correct segs s e b :
  uheap_ok segs s → (false, b) ∈ segs → b_start b + b_size b < uheapPageAllocBreak s →
  free_nodes_index s < MAX_FREE_NODES →
  ∃ s' e' segs', free (b_start b) (s, e) = Ok tt (s', e') ∧ uheap_ok segs' s' ∧
    uheapPageAllocBreak s' = uheapPageAllocBreak s ∧
    (∀ c, (false, c) ∈ segs' ↔ (false, c) ∈ segs ∧ c ≠ b).
Proof.
  intros Hok Hb Hlt Hidx. destruct user_consts as (? & ? & ? & ? & ?).
  destruct (free_range_run segs s e b Hok Hb Hidx) as (l1 & l2 & bl & idx & segs' & Hsegs & Hm & Hn & Hrun).
  destruct Hm as (Hmt & Hmf & Hmd & Hmn & Hmu & Hma).
  destruct (last_alloc segs s Hok) as (pre & c & Hpre); [by intros ->; apply elem_of_nil in Hb|].
  pose proof (uo_tile _ _ Hok) as Ht.
  assert (Hbp : (false, b) ∈ pre).
  { rewrite Hpre in Hb, Ht. apply elem_of_app in Hb as [?|Hb]; [done|].
    apply list_elem_of_singleton in Hb as [= ->]. apply tile_app in Ht as (m & _ & Ht). simpl in Ht. lia. }
  destruct (Hrun (uheapPageAllocBreak s)) as [e' He].
  { by eapply (find_break_last segs s _ e b c pre). }
  assert (Hdis : ∀ d, (false, d) ∈ l1 ++ l2 → b_start d + b_size d ≤ b_start b ∨ b_start b + b_size b ≤ b_start d).
  { intros d Hd. rewrite Hsegs in Ht. by apply (tile_disjoint _ _ _ _ _ _ _ _ Ht Hd). }
  pose proof (tile_range _ _ _ _ _ Ht Hb) as (? & ? & ? & ? & ?). pose proof (uo_max _ _ Hok).
  destruct (page_index_run (b_start b) (b_size b)) as (_ & _ & Hpb); [lia..|done|].
  assert (Hall : ∀ d, (false, d) ∈ segs' ↔ (false, d) ∈ segs ∧ d ≠ b).
  { intros d. rewrite Hma. split.
    - intros Hd. split; [rewrite Hsegs; set_solver|]. intros ->. destruct (Hdis _ Hd); lia.
    - intros [Hd Hne]. rewrite Hsegs in Hd. set_solver. }
  eexists _, e', segs'. split; [exact He|]. split_and!; try done. simpl.
  split; simpl; try done; try apply Hok.
  - (* the last range is still the last one *)
    destruct (last segs') as [[[] d]|] eqn:Hl; unfold last_free; rewrite Hl; try done. exfalso.
    apply last_Some in Hl as (pre' & Hl). rewrite Hl in Hmt. apply tile_app in Hmt as (m & Hm1 & Hm2).
    simpl in Hm2. destruct Hm2 as (<- & Hd0 & _ & Hde).
    assert (Hc : (false, c) ∈ segs') by (apply Hall; split; [rewrite Hpre; set_solver|]; intros ->;
      rewrite Hpre in Ht; apply tile_app in Ht as (m & Ht1 & Ht2); pose proof (tile_range _ _ _ _ _ Ht1 Hbp);
      simpl in Ht2; lia).
    rewrite Hpre in Ht. apply tile_app in Ht as (m & Ht1 & Ht2). simpl in Ht2.
    rewrite Hl in Hc. apply elem_of_app in Hc as [Hc|Hc]; [|by apply list_elem_of_singleton in Hc].
    pose proof (tile_range _ _ _ _ _ Hm1 Hc). lia.
  - intros d Hd. apply Hma in Hd as Hd2. apply Hall in Hd as [Hd _]. unfold size_of. simpl.
    pose proof (tile_range _ _ _ _ _ Ht Hd) as (? & ? & ? & ? & ?).
    destruct (page_index_run (b_start d) (b_size d)) as (_ & _ & Hpd); [lia..|done|].
    rewrite lookup_insert_ne; [by apply (uo_sizes _ _ Hok)|]. intros Heq. rewrite Heq in Hpb.
    destruct (Hdis _ Hd2); lia.
  - intros i Hi. unfold size_of in Hi. simpl in Hi. rewrite lookup_insert in Hi. case_decide as Hib; [done|].
    destruct (uo_other _ _ Hok i Hi) as (d & Hd & Hds). exists d. split; [|done]. apply Hall.
    split; [done|]. intros ->. lia.
Qed.
End free.

(** ** Witnesses: a kernel that grants every request *)
#[export] Instance sys_grant : USys unit := {|
  sys_allocate_page _ := λ e, Ok 0 e;
  sys_unmap_frame _ := λ e, Ok 0 e;
  sys_allocate_user_mem _ _ := λ e, Ok tt e;
  sys_free_user_mem _ _ := λ e, Ok tt e;
  sys_get_uheap_strategy := λ e, Ok 5 e;
  sys_getenvid := λ e, Ok 1 e;
  sys_size_of_shared_object _ _ := λ e, Ok E_SHARED_MEM_NOT_EXISTS e;
  sys_create_shared_object _ _ _ _ := λ e, Ok 0 e;
  sys_get_shared_object _ _ _ := λ e, Ok 0 e;
  umemset _ _ _ e := e
|}.
(** An initialised heap whose page region is empty, and one with two ranges. *)
Definition w_uheap : uheap := UH da_zero USER_PAGES USER_PAGES 5 ∅ [] 0 false.
Definition w_low : bulk := Bulk_ 0 USER_PAGES 4096.
Definition w_high : bulk := Bulk_ 0 (USER_PAGES + 4096) 8192.
Definition w_uheap2 : uheap :=
  UH da_zero USER_PAGES (USER_PAGES + 12288) 5
    (list_to_map [(8193, 4096); (8194, 8192)]) [] 0 false.

Lemma w_uheap_ok : uheap_ok [] w_uheap.
Proof.
  split; [done..|constructor|constructor|done| | |].
  - intros b Hb. by apply elem_of_nil in Hb.
  - intros b Hb. by apply elem_of_nil in Hb.
  - done.
Qed.
Lemma w_uheap2_ok : uheap_ok [(false, w_low); (false, w_high)] w_uheap2.
Proof.
  split; [done|done| |done|done|done|constructor|constructor|done| | |].
  - simpl. split_and!; first [done | by exists 1 | by exists 2].
  - intros b Hb. by apply elem_of_nil in Hb.
  - intros b Hb. apply elem_of_cons in Hb as [[= ->]|Hb]; [by vm_compute|].
    apply list_elem_of_singleton in Hb as [= ->]. by vm_compute.
  - intros i Hi. unfold size_of, w_uheap2 in Hi. simpl in Hi.
    destruct (decide (i = 8193)) as [->|]; [exists w_low; split; [left|done]|].
    destruct (decide (i = 8194)) as [->|]; [exists w_high; split; [right; left|done]|].
    by rewrite !lookup_insert_ne, lookup_empty in Hi.
Qed.


Lemma free_page_correct_witness :
  ∃ s' (e' : unit) segs', free USER_PAGES (w_uheap2, tt) = Ok tt (s', e') ∧ uheap_ok segs' s' ∧
    uheapPageAllocBreak s' = USER_PAGES + 12288 ∧
    (∀ c, (false, c) ∈ segs' ↔ (false, c) ∈ [(false, w_low); (false, w_high)] ∧ c ≠ w_low).
Proof.
  assert (Hret : ∀ va n (e : unit), ∃ e', sys_free_user_mem va n e = Ok tt e') by (intros; by eexists).
  apply (free_page_correct (E := unit) Hret [(false, w_low); (false, w_high)] w_uheap2 tt w_low w_uheap2_ok);
    [left|done|done].
Defined.

(** ** A freed last range is given out twice *)
Definition overlap : M (uheap * unit) (Z * Z) :=
  a ← malloc 3000;
  free a ;;
  b ← malloc 8000;
  c ← malloc 3000;
  mret (b, c).

(** The only range of the heap is freed: the break comes down to it while its
    descriptor stays on the free list. The next [malloc] extends the break over
    the same pages and the one after takes the stale descriptor: two live
    allocations, of 8000 and of 3000 bytes, start at the same address. *)
Theorem user_heap_overlap :
  ∃ s', overlap (w_uheap, tt) = Ok (USER_PAGES, USER_PAGES) (s', tt) ∧ USER_PAGES ≠ NULL.
Proof.
  assert (Hr : ∃ s', overlap (w_uheap, tt) = Ok (USER_PAGES, USER_PAGES) s') by (eexists; vm_compute; reflexivity).
  destruct Hr as [[s' []] Hr]. exists s'. split; [exact Hr|discriminate].
Qed.
