(* ===== verification/Sched.v ===== *)
(** * The scheduler (kern/cpu/sched.c, kern/cpu/sched_helpers.c)

    Environments, the queues they wait in, and the operations on them: the
    queue functions, the insertion and removal of environments, starting,
    exiting and killing them, the schedulers with their initialisers, and the
    clock interrupt that drives them. A queue is the list of its environments
    from first to last; [enqueue] inserts at the head and [dequeue] takes the
    last, so a queue is first-in first-out.

    A context switch ends an operation: the result of [sched] and of
    [fos_scheduler] says where the CPU goes. Loading page directories and task
    segments, and the interrupt flag, belong to the hardware and are left out;
    [pushcli] and [popcli] are counted in [ncli]. *)

From S2P Require Import Prelude Queue.

Definition ENV_FREE : Z := 0.
Definition ENV_READY : Z := 1.
Definition ENV_RUNNING : Z := 2.
Definition ENV_BLOCKED : Z := 3.
Definition ENV_NEW : Z := 4.
Definition ENV_EXIT : Z := 5.
Definition ENV_KILLED : Z := 6.
Definition ENV_UNKNOWN : Z := 7.
Definition SCH_RR : Z := 0.
Definition SCH_MLFQ : Z := 1.
Definition SCH_BSD : Z := 2.
Definition SCH_PRIRR : Z := 3.
Definition SCH_STOPPED : Z := 0.
Definition SCH_STARTED : Z := 1.
Definition INIT_QUANTUM_IN_MS : Z := 10.
Definition PERM_USED : Z := 32.

Definition TIMER_FREQ : Z := 1193182.
Definition QUANTUM_LIMIT : Z := (1000 * 65536) `div` TIMER_FREQ.
(** [sizeof(struct Env_Queue)]: first, last, the saved next, the size. *)
Definition sizeof_Env_Queue : Z := 16.

Record WorkingSetElement := WSE { ws_va : Z; time_stamp : Z }.
(** The fields of [struct Env] that scheduling reads and writes. *)
Record Env := ENV {
  env_id : Z;
  env_status : Z;
  priority : Z;
  starvcounteer : Z;
  nClocks : Z;
  env_page_directory : Z;
  page_WS_list : list WorkingSetElement
}.
Definition set_status (x : Z) (s : Env) : Env :=
  ENV (env_id s) x (priority s) (starvcounteer s) (nClocks s) (env_page_directory s) (page_WS_list s).
Definition set_priority (x : Z) (s : Env) : Env :=
  ENV (env_id s) (env_status s) x (starvcounteer s) (nClocks s) (env_page_directory s) (page_WS_list s).
Definition set_starv (x : Z) (s : Env) : Env :=
  ENV (env_id s) (env_status s) (priority s) x (nClocks s) (env_page_directory s) (page_WS_list s).
Definition set_nClocks (x : Z) (s : Env) : Env :=
  ENV (env_id s) (env_status s) (priority s) (starvcounteer s) x (env_page_directory s) (page_WS_list s).
Definition set_WS (x : list WorkingSetElement) (s : Env) : Env :=
  ENV (env_id s) (env_status s) (priority s) (starvcounteer s) (nClocks s) (env_page_directory s) x.

(** The scheduler's globals and the state of the CPU. An environment is named
    by its address; [env_ready_queues] and [quantums] are the contents of the
    arrays at [ready_ptr] and [quantums_ptr], [clock] the quantum the clock
    runs with, if it runs. *)
Record sched_state := SS {
  envs : gmap Z Env;
  env_new_queue : list Z;
  env_exit_queue : list Z;
  env_ready_queues : list (list Z);
  ready_ptr : Z;
  quantums : list Z;
  quantums_ptr : Z;
  num_of_ready_queues : Z;
  qlock : bool;
  ncli : Z;
  cpu_proc : Z;
  scheduler_status : Z;
  scheduler_method : Z;
  starvThreshold : Z;
  ticks : Z;
  old_pf_counter : Z;
  clock : option Z
}.
Definition set_envs (x : gmap Z Env) (s : sched_state) : sched_state :=
  SS x (env_new_queue s) (env_exit_queue s) (env_ready_queues s) (ready_ptr s) (quantums s) (quantums_ptr s) (num_of_ready_queues s) (qlock s) (ncli s) (cpu_proc s) (scheduler_status s) (scheduler_method s) (starvThreshold s) (ticks s) (old_pf_counter s) (clock s).
Definition set_new (x : list Z) (s : sched_state) : sched_state :=
  SS (envs s) x (env_exit_queue s) (env_ready_queues s) (ready_ptr s) (quantums s) (quantums_ptr s) (num_of_ready_queues s) (qlock s) (ncli s) (cpu_proc s) (scheduler_status s) (scheduler_method s) (starvThreshold s) (ticks s) (old_pf_counter s) (clock s).
Definition set_exit (x : list Z) (s : sched_state) : sched_state :=
  SS (envs s) (env_new_queue s) x (env_ready_queues s) (ready_ptr s) (quantums s) (quantums_ptr s) (num_of_ready_queues s) (qlock s) (ncli s) (cpu_proc s) (scheduler_status s) (scheduler_method s) (starvThreshold s) (ticks s) (old_pf_counter s) (clock s).
Definition set_ready (x : list (list Z)) (s : sched_state) : sched_state :=
  SS (envs s) (env_new_queue s) (env_exit_queue s) x (ready_ptr s) (quantums s) (quantums_ptr s) (num_of_ready_queues s) (qlock s) (ncli s) (cpu_proc s) (scheduler_status s) (scheduler_method s) (starvThreshold s) (ticks s) (old_pf_counter s) (clock s).
Definition set_ready_ptr (x : Z) (s : sched_state) : sched_state :=
  SS (envs s) (env_new_queue s) (env_exit_queue s) (env_ready_queues s) x (quantums s) (quantums_ptr s) (num_of_ready_queues s) (qlock s) (ncli s) (cpu_proc s) (scheduler_status s) (scheduler_method s) (starvThreshold s) (ticks s) (old_pf_counter s) (clock s).
Definition set_quantums (x : list Z) (s : sched_state) : sched_state :=
  SS (envs s) (env_new_queue s) (env_exit_queue s) (env_ready_queues s) (ready_ptr s) x (quantums_ptr s) (num_of_ready_queues s) (qlock s) (ncli s) (cpu_proc s) (scheduler_status s) (scheduler_method s) (starvThreshold s) (ticks s) (old_pf_counter s) (clock s).
Definition set_quantums_ptr (x : Z) (s : sched_state) : sched_state :=
  SS (envs s) (env_new_queue s) (env_exit_queue s) (env_ready_queues s) (ready_ptr s) (quantums s) x (num_of_ready_queues s) (qlock s) (ncli s) (cpu_proc s) (scheduler_status s) (scheduler_method s) (starvThreshold s) (ticks s) (old_pf_counter s) (clock s).
Definition set_num (x : Z) (s : sched_state) : sched_state :=
  SS (envs s) (env_new_queue s) (env_exit_queue s) (env_ready_queues s) (ready_ptr s) (quantums s) (quantums_ptr s) x (qlock s) (ncli s) (cpu_proc s) (scheduler_status s) (scheduler_method s) (starvThreshold s) (ticks s) (old_pf_counter s) (clock s).
Definition set_qlock (x : bool) (s : sched_state) : sched_state :=
  SS (envs s) (env_new_queue s) (env_exit_queue s) (env_ready_queues s) (ready_ptr s) (quantums s) (quantums_ptr s) (num_of_ready_queues s) x (ncli s) (cpu_proc s) (scheduler_status s) (scheduler_method s) (starvThreshold s) (ticks s) (old_pf_counter s) (clock s).
Definition set_ncli (x : Z) (s : sched_state) : sched_state :=
  SS (envs s) (env_new_queue s) (env_exit_queue s) (env_ready_queues s) (ready_ptr s) (quantums s) (quantums_ptr s) (num_of_ready_queues s) (qlock s) x (cpu_proc s) (scheduler_status s) (scheduler_method s) (starvThreshold s) (ticks s) (old_pf_counter s) (clock s).
Definition set_proc (x : Z) (s : sched_state) : sched_state :=
  SS (envs s) (env_new_queue s) (env_exit_queue s) (env_ready_queues s) (ready_ptr s) (quantums s) (quantums_ptr s) (num_of_ready_queues s) (qlock s) (ncli s) x (scheduler_status s) (scheduler_method s) (starvThreshold s) (ticks s) (old_pf_counter s) (clock s).
Definition set_sstatus (x : Z) (s : sched_state) : sched_state :=
  SS (envs s) (env_new_queue s) (env_exit_queue s) (env_ready_queues s) (ready_ptr s) (quantums s) (quantums_ptr s) (num_of_ready_queues s) (qlock s) (ncli s) (cpu_proc s) x (scheduler_method s) (starvThreshold s) (ticks s) (old_pf_counter s) (clock s).
Definition set_method (x : Z) (s : sched_state) : sched_state :=
  SS (envs s) (env_new_queue s) (env_exit_queue s) (env_ready_queues s) (ready_ptr s) (quantums s) (quantums_ptr s) (num_of_ready_queues s) (qlock s) (ncli s) (cpu_proc s) (scheduler_status s) x (starvThreshold s) (ticks s) (old_pf_counter s) (clock s).
Definition set_threshold (x : Z) (s : sched_state) : sched_state :=
  SS (envs s) (env_new_queue s) (env_exit_queue s) (env_ready_queues s) (ready_ptr s) (quantums s) (quantums_ptr s) (num_of_ready_queues s) (qlock s) (ncli s) (cpu_proc s) (scheduler_status s) (scheduler_method s) x (ticks s) (old_pf_counter s) (clock s).
Definition set_ticks (x : Z) (s : sched_state) : sched_state :=
  SS (envs s) (env_new_queue s) (env_exit_queue s) (env_ready_queues s) (ready_ptr s) (quantums s) (quantums_ptr s) (num_of_ready_queues s) (qlock s) (ncli s) (cpu_proc s) (scheduler_status s) (scheduler_method s) (starvThreshold s) x (old_pf_counter s) (clock s).
Definition set_old_pf (x : Z) (s : sched_state) : sched_state :=
  SS (envs s) (env_new_queue s) (env_exit_queue s) (env_ready_queues s) (ready_ptr s) (quantums s) (quantums_ptr s) (num_of_ready_queues s) (qlock s) (ncli s) (cpu_proc s) (scheduler_status s) (scheduler_method s) (starvThreshold s) (ticks s) x (clock s).
Definition set_clock (x : option Z) (s : sched_state) : sched_state :=
  SS (envs s) (env_new_queue s) (env_exit_queue s) (env_ready_queues s) (ready_ptr s) (quantums s) (quantums_ptr s) (num_of_ready_queues s) (qlock s) (ncli s) (cpu_proc s) (scheduler_status s) (scheduler_method s) (starvThreshold s) (ticks s) (old_pf_counter s) x.

(** What the scheduler uses of the memory manager, of the environment table and
    of freshly allocated memory, whose contents are not specified. *)
Class SchedMem (E : Type) := {
  kmalloc : Z → M E Z;
  kfree : Z → M E unit;
  uninit_queue : list Z;
  uninit_byte : Z;
  env_slot : Z → Z;                (* &envs[ENVX(envid)] *)
  NENV : Z;
  envs_at : Z → Z;                 (* &envs[i] *)
  isBufferingEnabled : E → bool;
  cleanup_buffers : Z → M E unit;
  lru_time_approx : E → bool;      (* isPageReplacmentAlgorithmLRU(PG_REP_LRU_TIME_APPROX) *)
  pt_get_page_permissions : Z → Z → E → Z;
  pt_set_page_permissions : Z → Z → Z → Z → M E unit
}.

(** Where a context switch to or from the scheduler leads. *)
Inductive switch :=
| SwitchTo (p : Z)        (* environment [p] goes on, holding the lock *)
| WaitBlocked             (* nothing is ready, some environment is blocked *)
| Prompt.                 (* no environment is left: get_into_prompt() *)

Section code.
Context {E : Type} `{SchedMem E}.
Notation S_ := (M (sched_state * E)).

Definition sget {A} (f : sched_state → A) : S_ A := gets (λ s, f s.1).
Definition sset (f : sched_state → sched_state) : S_ unit := modify (λ s, (f s.1, s.2)).
Definition smem {A} (c : M E A) : S_ A := zoom snd (λ e s, (s.1, e)) c.

Definition get_env (p : Z) : S_ Env := m ← sget envs; unwrap (m !! p).
Definition upd_env (p : Z) (f : Env → Env) : S_ unit :=
  e ← get_env p; sset (λ s, set_envs (<[p := f e]> (envs s)) s).
(** [env_ready_queues[i]], inside the array. *)
Definition get_ready (i : Z) : S_ (list Z) :=
  if decide (0 ≤ i) then (q ← sget env_ready_queues; unwrap (q !! Z.to_nat i)) else undef.
Definition put_ready (i : Z) (l : list Z) : S_ unit :=
  sset (λ s, set_ready (<[Z.to_nat i := l]> (env_ready_queues s)) s).
Definition get_quantum (i : Z) : S_ Z :=
  if decide (0 ≤ i) then (q ← sget quantums; unwrap (q !! Z.to_nat i)) else undef.
(** An array store, inside the array. *)
Definition store_ready (i : Z) (l : list Z) : S_ unit := get_ready i ;; put_ready i l.
Definition store_quantum (i q : Z) : S_ unit :=
  get_quantum i ;; sset (λ s, set_quantums (<[Z.to_nat i := q]> (quantums s)) s).
(** kern/cpu/kclock.c; the clock is programmed with a division by the quantum. *)
Definition kclock_set_quantum (q : Z) : S_ unit :=
  if decide (q < QUANTUM_LIMIT)
  then (if decide (q = 0) then undef else sset (set_clock (Some q)))
  else panic.
Definition kclock_stop : S_ unit := sset (set_clock None).

Definition acquire_qlock : S_ unit :=
  held ← sget qlock; assert_ (negb held) ;;
  sset (λ s, set_ncli (ncli s + 1) (set_qlock true s)).
Definition release_qlock : S_ unit :=
  held ← sget qlock; assert_ held ;;
  sset (λ s, set_ncli (ncli s - 1) (set_qlock false s)).
Definition need_qlock : S_ unit := held ← sget qlock; assert_ held.

(** ** Queues *)
Definition init_queue : list Z := [].
Definition queue_size (q : list Z) : Z := Z.of_nat (length q).
Definition enqueue (q : list Z) (env : Z) : S_ (list Z) :=
  if decide (env ≠ NULL) then lq_insert_head env q else mret q.
Definition dequeue (q : list Z) : S_ (Z * list Z) :=
  match last q with
  | None => mret (NULL, q)
  | Some env => q' ← lq_remove env q; mret (env, q')
  end.
Definition remove_from_queue (q : list Z) (e : Z) : S_ (list Z) :=
  if decide (e ≠ NULL) then lq_remove e q else mret q.
Fixpoint find_env_in_queue (q : list Z) (envID : Z) : S_ Z :=
  match q with
  | [] => mret NULL
  | p :: q => e ← get_env p; if decide (env_id e = envID) then mret p else find_env_in_queue q envID
  end.

(** ** Insertion in, and removal from, the scheduler's queues *)
Definition sched_insert_ready (env : Z) : S_ unit :=
  need_qlock ;;
  assert_ (bool_decide (env ≠ NULL)) ;;
  upd_env env (set_status ENV_READY) ;;
  e ← get_env env;
  q ← get_ready (priority e);
  q' ← enqueue q env;
  put_ready (priority e) q'.

Fixpoint remove_ready_from (env id : Z) (is_ : list Z) : S_ unit :=
  match is_ with
  | [] => mret ()
  | i :: is_ =>
      q ← get_ready i;
      p ← find_env_in_queue q id;
      if decide (p ≠ NULL) then
        q' ← lq_remove env q;
        put_ready i q' ;;
        upd_env env (set_status ENV_UNKNOWN)
      else remove_ready_from env id is_
  end.
Definition sched_remove_ready (env : Z) : S_ unit :=
  need_qlock ;;
  assert_ (bool_decide (env ≠ NULL)) ;;
  e ← get_env env;
  assert_ (bool_decide (env_status e = ENV_READY)) ;;
  n ← sget num_of_ready_queues;
  remove_ready_from env (env_id e) (seqZ 0 n).

Definition sched_insert_new (env : Z) : S_ unit :=
  need_qlock ;;
  assert_ (bool_decide (env ≠ NULL)) ;;
  upd_env env (set_status ENV_NEW) ;;
  q ← sget env_new_queue;
  q' ← enqueue q env;
  sset (set_new q').
Definition sched_remove_new (env : Z) : S_ unit :=
  need_qlock ;;
  assert_ (bool_decide (env ≠ NULL)) ;;
  e ← get_env env;
  assert_ (bool_decide (env_status e = ENV_NEW)) ;;
  q ← sget env_new_queue;
  q' ← lq_remove env q;
  sset (set_new q') ;;
  upd_env env (set_status ENV_UNKNOWN).
Definition sched_insert_exit (env : Z) : S_ unit :=
  need_qlock ;;
  assert_ (bool_decide (env ≠ NULL)) ;;
  buf ← gets (λ s, isBufferingEnabled s.2);
  when buf (smem (cleanup_buffers env)) ;;
  upd_env env (set_status ENV_EXIT) ;;
  q ← sget env_exit_queue;
  q' ← enqueue q env;
  sset (set_exit q').
Definition sched_remove_exit (env : Z) : S_ unit :=
  need_qlock ;;
  assert_ (bool_decide (env ≠ NULL)) ;;
  e ← get_env env;
  assert_ (bool_decide (env_status e = ENV_EXIT)) ;;
  q ← sget env_exit_queue;
  q' ← lq_remove env q;
  sset (set_exit q') ;;
  upd_env env (set_status ENV_UNKNOWN).

(** ** The schedulers: the next environment to run, or NULL *)
Definition fos_scheduler_RR : S_ Z :=
  need_qlock ;;
  cur ← sget cpu_proc;
  when (bool_decide (cur ≠ NULL)) (q ← get_ready 0; q' ← enqueue q cur; put_ready 0 q') ;;
  q ← get_ready 0;
  r ← dequeue q;
  put_ready 0 r.2 ;;
  quantum ← get_quantum 0;
  kclock_set_quantum quantum ;;
  mret r.1.
Definition fos_scheduler_MLFQ : S_ Z := need_qlock ;; panic.
Definition fos_scheduler_BSD : S_ Z := need_qlock ;; panic.

(** [for (i = 0; i < num_of_ready_queues; i++)] up to the first non-empty queue. *)
Fixpoint pick_highest (is_ : list Z) : S_ Z :=
  match is_ with
  | [] => mret NULL
  | i :: is_ =>
      q ← get_ready i;
      if decide (length q ≠ 0%nat) then
        r ← dequeue q;
        put_ready i r.2 ;;
        mret r.1
      else pick_highest is_
  end.
Definition fos_scheduler_PRIRR : S_ Z :=
  need_qlock ;;
  elast ← sget cpu_proc;
  when (bool_decide (elast ≠ NULL)) (
    e ← get_env elast;
    when (bool_decide (env_status e = ENV_READY)) (
      q ← get_ready (priority e);
      q' ← enqueue q elast;
      put_ready (priority e) q')) ;;
  n ← sget num_of_ready_queues;
  enew ← pick_highest (seqZ 0 n);
  when (bool_decide (enew ≠ NULL)) (
    upd_env enew (set_starv 0) ;;
    quantum ← get_quantum 0;
    kclock_set_quantum quantum) ;;
  mret enew.

Definition sched_next : S_ Z :=
  m ← sget scheduler_method;
  if decide (m = SCH_RR) then fos_scheduler_RR else
  if decide (m = SCH_MLFQ) then fos_scheduler_MLFQ else
  if decide (m = SCH_BSD) then fos_scheduler_BSD else
  if decide (m = SCH_PRIRR) then fos_scheduler_PRIRR else undef.

(** The inner loop of [fos_scheduler] up to the context switch, and, when no
    environment is chosen, the search for blocked ones after the loop. *)
Definition is_any_blocked : S_ bool :=
  gets (λ s, existsb (λ i, match envs s.1 !! envs_at (E:=E) i with
                           | Some e => bool_decide (env_status e = ENV_BLOCKED)
                           | None => false
                           end) (seqZ 0 (NENV (E:=E)))).
Definition scheduler_round : S_ switch :=
  next_env ← sched_next;
  if decide (next_env ≠ NULL) then
    sset (set_proc next_env) ;;
    upd_env next_env (set_status ENV_RUNNING) ;;
    mret (SwitchTo next_env)
  else
    blocked ← is_any_blocked;
    release_qlock ;;
    mret (if (blocked : bool) then WaitBlocked else Prompt).
(** [fos_scheduler] called anew: one iteration of the outer loop, which is
    repeated as long as its result is [WaitBlocked]. *)
Definition scheduler_outer : S_ switch := acquire_qlock ;; scheduler_round.
Definition fos_scheduler : S_ switch :=
  sset (set_proc NULL) ;;
  sset (set_sstatus SCH_STARTED) ;;
  scheduler_outer.
(** From the return of the context switch to the next round. *)
Definition scheduler_resume : S_ switch :=
  need_qlock ;;
  kclock_stop ;;
  p ← sget cpu_proc;
  e ← get_env p;
  assert_ (bool_decide (env_status e ≠ ENV_RUNNING)) ;;
  when (bool_decide (env_status e ≠ ENV_READY)) (sset (set_proc NULL)) ;;
  scheduler_round.

(** [sched] (kern/proc/user_environment.c): from the environment on the CPU to
    the scheduler, which goes on until it has switched to the next one. *)
Definition sched : S_ switch :=
  p ← sget cpu_proc;
  assert_ (bool_decide (p ≠ NULL)) ;;
  need_qlock ;;
  n ← sget ncli;
  assert_ (bool_decide (n = 1)) ;;
  e ← get_env p;
  assert_ (bool_decide (env_status e ≠ ENV_RUNNING)) ;;
  scheduler_resume.
(** The environment switched to returns from its own call of [sched] (or enters
    [env_start]) and releases the lock. *)
Definition switched (r : switch) : S_ unit :=
  match r with SwitchTo _ => release_qlock | _ => mret () end.
Definition yield : S_ switch :=
  acquire_qlock ;;
  p ← sget cpu_proc;
  assert_ (bool_decide (p ≠ NULL)) ;;
  upd_env p (set_status ENV_READY) ;;
  r ← sched;
  switched r ;;
  mret r.

(** ** Initialisation *)
Definition sched_delete_ready_queues : S_ unit :=
  acquire_qlock ;;
  r ← sget ready_ptr;
  when (bool_decide (r ≠ NULL)) (smem (kfree r) ;; sset (set_ready [])) ;;
  q ← sget quantums_ptr;
  when (bool_decide (q ≠ NULL)) (smem (kfree q) ;; sset (set_quantums [])) ;;
  release_qlock.
(** The two arrays for [n] queues. *)
Definition alloc_ready_queues (n : Z) : S_ unit :=
  p ← smem (kmalloc (n * sizeof_Env_Queue));
  sset (λ s, set_ready_ptr p (set_ready (if decide (p = NULL) then [] else replicate (Z.to_nat n) (uninit_queue (E:=E))) s)).
Definition alloc_quantums (n : Z) : S_ unit :=
  p ← smem (kmalloc n);
  sset (λ s, set_quantums_ptr p (set_quantums (if decide (p = NULL) then [] else replicate (Z.to_nat n) (uninit_byte (E:=E))) s)).
(** [init_queue(&env_ready_queues[i])]; the address is NULL when the array is
    and [i] is 0. *)
Definition init_ready_queue (i : Z) : S_ unit :=
  p ← sget ready_ptr;
  if decide (p + i * sizeof_Env_Queue = NULL) then mret () else store_ready i init_queue.

Definition sched_init_RR (quantum : Z) : S_ unit :=
  sset (set_num 1) ;;
  sched_delete_ready_queues ;;
  alloc_ready_queues 1 ;;
  alloc_quantums 1 ;;
  store_quantum 0 quantum ;;
  q ← get_quantum 0;
  kclock_set_quantum q ;;
  init_ready_queue 0 ;;
  sset (set_sstatus SCH_STOPPED) ;;
  sset (set_method SCH_RR).
Definition sched_init_MLFQ (numOfLevels : Z) (quantumOfEachLevel : list Z) : S_ unit := panic.
Definition sched_init_BSD (numOfLevels quantum : Z) : S_ unit := panic.
Definition sched_set_starv_thresh (starvThresh : Z) : S_ unit :=
  if decide (starvThresh ≤ 0) then panic else sset (set_threshold starvThresh).
Definition sched_init_PRIRR (numOfPriorities quantum starvThresh : Z) : S_ unit :=
  if decide (quantum = 0) then panic else
  if decide (numOfPriorities > 0) then
    sset (set_num numOfPriorities) ;;
    sched_delete_ready_queues ;;
    n ← sget num_of_ready_queues;
    alloc_ready_queues n ;;
    alloc_quantums n ;;
    acquire_qlock ;;
    mfor (seqZ 0 numOfPriorities) init_ready_queue ;;
    release_qlock ;;
    mfor (seqZ 0 n) (λ i, store_quantum i quantum) ;;
    q ← get_quantum 0;
    kclock_set_quantum q ;;
    sched_set_starv_thresh starvThresh ;;
    sset (set_sstatus SCH_STOPPED) ;;
    sset (set_method SCH_PRIRR)
  else if decide (numOfPriorities = 0) then sched_init_RR quantum
  else panic.
Definition sched_init : S_ unit :=
  sset (set_old_pf 0) ;;
  sched_init_RR INIT_QUANTUM_IN_MS ;;
  sset (set_new init_queue) ;;
  sset (set_exit init_queue) ;;
  sset (set_sstatus SCH_STOPPED) ;;
  sset (set_qlock false).
Definition isSchedMethodRR : S_ bool := m ← sget scheduler_method; mret (bool_decide (m = SCH_RR)).
Definition isSchedMethodMLFQ : S_ bool := m ← sget scheduler_method; mret (bool_decide (m = SCH_MLFQ)).
Definition isSchedMethodBSD : S_ bool := m ← sget scheduler_method; mret (bool_decide (m = SCH_BSD)).
Definition isSchedMethodPRIRR : S_ bool := m ← sget scheduler_method; mret (bool_decide (m = SCH_PRIRR)).

(** ** Starting, exiting and killing environments *)
Definition sched_new_env (e : Z) : S_ unit :=
  acquire_qlock ;;
  assert_ (bool_decide (e ≠ NULL)) ;;
  sched_insert_new e ;;
  release_qlock.

(** [None]: control is back in the caller; otherwise the scheduler has it. *)
Definition sched_run_env (envId : Z) : S_ (option switch) :=
  acquire_qlock ;;
  q ← sget env_new_queue;
  p ← find_env_in_queue q envId;
  if decide (p ≠ NULL) then
    sched_remove_new p ;;
    sched_insert_ready p ;;
    st ← sget scheduler_status;
    if decide (st = SCH_STOPPED) then
      release_qlock ;; r ← fos_scheduler; switched r ;; mret (Some r)
    else release_qlock ;; mret None
  else release_qlock ;; mret None.

(** [LIST_FOREACH] over the NEW queue without a [break]: [ptr_env] is NULL when
    the loop ends. *)
Fixpoint exit_from_new (q : list Z) (envId : Z) (found : bool) : S_ bool :=
  match q with
  | [] => mret found
  | p :: q =>
      e ← get_env p;
      if decide (env_id e = envId) then sched_remove_new p ;; exit_from_new q envId true
      else exit_from_new q envId found
  end.
(** The search of the ready queues: the environment found, removed, or NULL. *)
Fixpoint exit_from_ready (is_ : list Z) (envId : Z) : S_ Z :=
  match is_ with
  | [] => mret NULL
  | i :: is_ =>
      q ← get_ready i;
      p ← find_env_in_queue q envId;
      if decide (p ≠ NULL) then (q' ← lq_remove p q; put_ready i q' ;; mret p)
      else exit_from_ready is_ envId
  end.
Definition sched_exit_env (envId : Z) : S_ (option switch) :=
  lock_already_held ← sget qlock;
  when (negb lock_already_held) acquire_qlock ;;
  q ← sget env_new_queue;
  found1 ← exit_from_new q envId false;
  n ← sget num_of_ready_queues;
  p2 ← (if found1 then mret NULL else exit_from_ready (seqZ 0 n) envId);
  let found2 := found1 || bool_decide (p2 ≠ NULL) in
  cur_env ← sget cpu_proc;
  assert_ (bool_decide (cur_env ≠ NULL)) ;;
  ce ← get_env cur_env;
  let is_cur := bool_decide (env_id ce = envId) in
  let ptr_env := if found2 then p2 else if is_cur then cur_env else NULL in
  if found2 || is_cur then
    sched_insert_exit ptr_env ;;
    if is_cur then r ← sched; switched r ;; mret (Some r)
    else when (negb lock_already_held) release_qlock ;; mret None
  else when (negb lock_already_held) release_qlock ;; mret None.

(** kern/proc/user_environment.c: [env_free] is not implemented. *)
Definition env_free (e : Z) : S_ unit := panic.
Definition sched_kill_env (envId : Z) : S_ (option switch) :=
  acquire_qlock ;;
  q ← sget env_new_queue;
  p1 ← find_env_in_queue q envId;
  when (bool_decide (p1 ≠ NULL)) (sched_remove_new p1) ;;
  n ← sget num_of_ready_queues;
  p2 ← (if decide (p1 ≠ NULL) then mret p1 else exit_from_ready (seqZ 0 n) envId);
  p3 ← (if decide (p2 ≠ NULL) then mret p2 else
          q ← sget env_exit_queue;
          p ← find_env_in_queue q envId;
          when (bool_decide (p ≠ NULL)) (sched_remove_exit p) ;;
          mret p);
  release_qlock ;;
  if decide (p3 ≠ NULL) then env_free p3 ;; mret None
  else
    cur_env ← sget cpu_proc;
    assert_ (bool_decide (cur_env ≠ NULL)) ;;
    ce ← get_env cur_env;
    if decide (env_id ce = envId) then
      assert_ (bool_decide (env_status ce = ENV_RUNNING)) ;;
      env_free cur_env ;;
      acquire_qlock ;;
      r ← sched; switched r ;; mret (Some r)
    else mret None.

(** The dequeue loop of [sched_run_all]. *)
Fixpoint run_all_loop (n : nat) : S_ unit :=
  match n with
  | O => mret ()
  | S n =>
      q ← sget env_new_queue;
      r ← dequeue q;
      sset (set_new r.2) ;;
      sched_insert_ready r.1 ;;
      run_all_loop n
  end.
Definition sched_run_all : S_ switch :=
  acquire_qlock ;;
  q ← sget env_new_queue;
  run_all_loop (length q) ;;
  release_qlock ;;
  st ← sget scheduler_status;
  if decide (st = SCH_STOPPED) then (r ← fos_scheduler; switched r ;; mret r) else panic.

Definition sched_kill_all : S_ switch :=
  acquire_qlock ;;
  q ← sget env_new_queue;
  mfor q (λ p, sched_remove_new p ;; env_free p) ;;
  n ← sget num_of_ready_queues;
  mfor (seqZ 0 n) (λ i,
    q ← get_ready i;
    mfor q (λ p, l ← get_ready i; l' ← lq_remove p l; put_ready i l' ;; env_free p)) ;;
  q ← sget env_exit_queue;
  mfor q (λ p, sched_remove_exit p ;; env_free p) ;;
  cur_env ← sget cpu_proc;
  if decide (cur_env ≠ NULL) then
    ce ← get_env cur_env;
    assert_ (bool_decide (env_status ce = ENV_RUNNING)) ;;
    env_free cur_env ;;
    r ← sched; switched r ;; mret r
  else release_qlock ;; mret Prompt.

Definition sched_exit_all_ready_envs : S_ unit :=
  acquire_qlock ;;
  n ← sget num_of_ready_queues;
  mfor (seqZ 0 n) (λ i,
    q ← get_ready i;
    mfor q (λ p, l ← get_ready i; l' ← lq_remove p l; put_ready i l' ;; sched_insert_exit p)) ;;
  release_qlock.

Definition timer_ticks : S_ Z := sget ticks.
Definition env_get_nice (e : Z) : S_ Z := panic.
Definition env_set_nice (e nice_value : Z) : S_ unit := panic.
Definition env_get_recent_cpu (e : Z) : S_ Z := panic.
Definition get_load_average : S_ Z := panic.

(** ** Priorities and the clock *)

(** [envid2env] (kern/proc/user_environment.c) without the permission check:
    the environment, or [None] for [E_BAD_ENV]. *)
Definition envid2env (envid : Z) : S_ (option Z) :=
  if decide (envid = 0) then p ← sget cpu_proc; mret (Some p)
  else
    e ← get_env (env_slot (E:=E) envid);
    if decide (env_status e = ENV_FREE ∨ env_id e ≠ envid) then mret None
    else mret (Some (env_slot (E:=E) envid)).
Definition env_set_priority (envID prio : Z) : S_ unit :=
  acquire_qlock ;;
  o ← envid2env envID;
  match o with
  | Some env =>
      n ← sget num_of_ready_queues;
      if decide (prio < 0 ∨ n ≤ prio) then release_qlock ;; panic
      else
        e ← get_env env;
        (if decide (env_status e = ENV_READY) then
           sched_remove_ready env ;;
           upd_env env (set_priority prio) ;;
           upd_env env (set_starv 0) ;;
           sched_insert_ready env
         else upd_env env (set_priority prio)) ;;
        release_qlock
  | None => panic
  end.

(** The visit of one ready environment by the clock. *)
Definition age_env (p : Z) : S_ unit :=
  upd_env p (λ e, set_starv (w32 (starvcounteer e + 1)) e) ;;
  e ← get_env p;
  thr ← sget starvThreshold;
  if decide (starvcounteer e > thr) then
    let newprio := priority e - 1 in
    if decide (newprio < 0) then mret () else env_set_priority (env_id e) newprio
  else mret ().
(** [LIST_FOREACH_SAFE] over queue [i]: an environment that leaves the queue is
    the one visited, so the elements visited are those at the start. *)
Definition age_queue (i : Z) : S_ unit := q ← get_ready i; mfor q age_env.
Definition age_ready_queues : S_ unit :=
  n ← sget num_of_ready_queues; mfor (seqZ 0 n) age_queue.

Definition update_WS_time_stamps : S_ unit :=
  cur_env ← sget cpu_proc;
  if decide (cur_env = NULL) then mret () else
  e ← get_env cur_env;
  mfor (seqZ 0 (Z.of_nat (length (page_WS_list e)))) (λ k,
    e ← get_env cur_env;
    w ← unwrap (page_WS_list e !! Z.to_nat k);
    perms ← gets (λ s, pt_get_page_permissions (env_page_directory e) (ws_va w) s.2);
    let t := Z.shiftr (time_stamp w) 1 in
    let t := if decide (Z.land perms PERM_USED ≠ 0) then Z.lor t (Z.shiftl 1 31) else t in
    upd_env cur_env (λ e, set_WS (<[Z.to_nat k := WSE (ws_va w) t]> (page_WS_list e)) e) ;;
    smem (pt_set_page_permissions (env_page_directory e) (ws_va w) 0 PERM_USED)).

(** [ticks] is an [int64]. *)
Definition i64 (x : Z) : Z := (x + 2 ^ 63) `mod` 2 ^ 64 - 2 ^ 63.
Definition clock_interrupt_handler : S_ (option switch) :=
  prirr ← isSchedMethodPRIRR;
  when prirr age_ready_queues ;;
  sset (λ s, set_ticks (i64 (ticks s + 1)) s) ;;
  p ← sget cpu_proc;
  if decide (p = NULL) then mret None
  else
    upd_env p (λ e, set_nClocks (w32 (nClocks e + 1)) e) ;;
    lru ← gets (λ s, lru_time_approx s.2);
    when lru update_WS_time_stamps ;;
    r ← yield;
    mret (Some r).
End code.
