(* ===== verification/SchedSpec.v ===== *)
(** * Correctness of the scheduler

    The invariant of the scheduler's queues and its preservation, what the
    priority scheduler and the clock do to the queues, and that no ready
    environment starves. *)

From S2P Require Import Prelude Queue Sched.

(** What the theorems need of the memory manager: the operations used by the
    scheduler return, and environments are found through the environment table. *)
Class SchedMemLaws (E : Type) `{SchedMem E} := {
  cleanup_buffers_ok : ∀ p m, ∃ m', cleanup_buffers p m = Ok tt m';
  pt_set_ok : ∀ d va a b m, ∃ m', pt_set_page_permissions d va a b m = Ok tt m';
  pt_set_other : ∀ d va a b m m' va', pt_set_page_permissions d va a b m = Ok tt m' →
    va' `div` PAGE_SIZE ≠ va `div` PAGE_SIZE → pt_get_page_permissions d va' m' = pt_get_page_permissions d va' m;
  pt_set_clears : ∀ d va b m m', pt_set_page_permissions d va 0 b m = Ok tt m' →
    Z.land (pt_get_page_permissions d va m') b = 0
}.

(** States are equal when their fields are. *)
Lemma sched_state_eq (s s' : sched_state) :
  envs s = envs s' → env_new_queue s = env_new_queue s' → env_exit_queue s = env_exit_queue s' →
  env_ready_queues s = env_ready_queues s' → ready_ptr s = ready_ptr s' → quantums s = quantums s' →
  quantums_ptr s = quantums_ptr s' → num_of_ready_queues s = num_of_ready_queues s' → qlock s = qlock s' →
  ncli s = ncli s' → cpu_proc s = cpu_proc s' → scheduler_status s = scheduler_status s' →
  scheduler_method s = scheduler_method s' → starvThreshold s = starvThreshold s' → ticks s = ticks s' →
  old_pf_counter s = old_pf_counter s' → clock s = clock s' → s = s'.
Proof. destruct s, s'. cbn. intros. by subst. Qed.

(** ** The invariant *)
Definition has_status (s : sched_state) (p x : Z) : Prop :=
  ∃ e, envs s !! p = Some e ∧ env_status e = x.
Definition queued (s : sched_state) (p : Z) : Prop :=
  p ∈ env_new_queue s ∨ p ∈ env_exit_queue s ∨
  ∃ i q, env_ready_queues s !! i = Some q ∧ p ∈ q.

Record sched_wf {E} `{SchedMem E} (s : sched_state) : Prop := {
  wf_new : NoDup (env_new_queue s) ∧ ∀ p, p ∈ env_new_queue s → has_status s p ENV_NEW;
  wf_exit : NoDup (env_exit_queue s) ∧ ∀ p, p ∈ env_exit_queue s → has_status s p ENV_EXIT;
  wf_ready : ∀ i q, env_ready_queues s !! i = Some q →
    NoDup q ∧ ∀ p, p ∈ q → ∃ e, envs s !! p = Some e ∧ env_status e = ENV_READY ∧ priority e = Z.of_nat i;
  wf_env : ∀ p e, envs s !! p = Some e → env_status e ≠ ENV_FREE →
    0 ≤ priority e < num_of_ready_queues s ∧ env_slot (E:=E) (env_id e) = p ∧ env_id e ≠ 0;
  wf_slot : ∀ id, is_Some (envs s !! env_slot (E:=E) id);
  wf_num : 0 < num_of_ready_queues s ∧ length (env_ready_queues s) = Z.to_nat (num_of_ready_queues s);
  wf_quantum : ∃ q, quantums s !! 0%nat = Some q ∧ 0 < q < QUANTUM_LIMIT;
  wf_null : envs s !! NULL = None;
  wf_method : scheduler_method s = SCH_RR ∧ num_of_ready_queues s = 1 ∨ scheduler_method s = SCH_PRIRR
}.
(** Between two operations: the lock is free, and the CPU idles or runs an
    environment that is in no queue. *)
Record sched_ok {E} `{SchedMem E} (s : sched_state) : Prop := {
  ok_wf : sched_wf (E:=E) s;
  ok_lock : qlock s = false ∧ ncli s = 0;
  ok_cur : cpu_proc s = NULL ∨ has_status s (cpu_proc s) ENV_RUNNING;
  ok_stray : ∀ p, has_status s p ENV_READY → queued s p
}.

(** The state in, and after, a critical section on the queues. *)
Definition lock (s : sched_state) : sched_state := set_ncli (ncli s + 1) (set_qlock true s).
Definition unlock (s : sched_state) : sched_state := set_ncli (ncli s - 1) (set_qlock false s).

Section runs.
Context {E : Type} `{HS : SchedMem E}.
Notation ST := (sched_state * E)%type.
Implicit Types st : ST.

(** *** Rules for the primitives *)
Lemma wp_sget {A} (f : sched_state → A) Q st : Q (f st.1) st → wp (sget f) Q st.
Proof. done. Qed.
Lemma wp_sset f Q st : Q tt (f st.1, st.2) → wp (sset f) Q st.
Proof. done. Qed.
Lemma wp_get_env p e Q st : envs st.1 !! p = Some e → Q e st → wp (get_env p) Q st.
Proof. intros He HQ. unfold get_env, wp, sget, gets, mbind, M_bind, unwrap. cbn. by rewrite He. Qed.
Lemma wp_upd_env p f e Q st :
  envs st.1 !! p = Some e → Q tt (set_envs (<[p:=f e]> (envs st.1)) st.1, st.2) → wp (upd_env p f) Q st.
Proof. intros He HQ. unfold upd_env. apply wp_bind, (wp_get_env _ e); [done|]. by apply wp_sset. Qed.
Lemma wp_get_ready i q Q st :
  0 ≤ i → env_ready_queues st.1 !! Z.to_nat i = Some q → Q q st → wp (get_ready i) Q st.
Proof.
  intros Hi Hq HQ. unfold get_ready. rewrite decide_True by done. unfold wp, sget, gets, mbind, M_bind, unwrap.
  cbn. by rewrite Hq.
Qed.
Lemma wp_put_ready i l Q st :
  Q tt (set_ready (<[Z.to_nat i:=l]> (env_ready_queues st.1)) st.1, st.2) → wp (put_ready i l) Q st.
Proof. done. Qed.
Lemma wp_need_qlock Q st : qlock st.1 = true → Q tt st → wp need_qlock Q st.
Proof. intros Hl HQ. unfold need_qlock. apply wp_bind, wp_sget, wp_assert; done. Qed.
Lemma wp_acquire_qlock Q st :
  qlock st.1 = false → Q tt (lock st.1, st.2) → wp acquire_qlock Q st.
Proof.
  intros Hl HQ. unfold acquire_qlock. apply wp_bind, wp_sget, wp_bind, wp_assert; [by rewrite Hl|]. by apply wp_sset.
Qed.
Lemma wp_release_qlock Q st :
  qlock st.1 = true → Q tt (unlock st.1, st.2) → wp release_qlock Q st.
Proof.
  intros Hl HQ. unfold release_qlock. apply wp_bind, wp_sget, wp_bind, wp_assert; [by rewrite Hl|]. by apply wp_sset.
Qed.
Lemma wp_enqueue q p Q st : p ≠ NULL → p ∉ q → Q (p :: q) st → wp (enqueue q p) Q st.
Proof. intros. unfold enqueue. rewrite decide_True by done. unfold wp. by rewrite lq_insert_head_run. Qed.
Lemma wp_dequeue_snoc q p Q st : NoDup (q ++ [p]) → Q (p, q) st → wp (dequeue (q ++ [p])) Q st.
Proof.
  intros Hnd HQ. unfold dequeue. rewrite last_snoc. apply wp_bind. unfold wp.
  rewrite lq_remove_run by set_solver. rewrite l_remove_app.
  rewrite (l_remove_notin p q).
  2:{ apply NoDup_app in Hnd as (_ & Hd & _). intros Hin. by apply (Hd _ Hin), list_elem_of_singleton. }
  replace (l_remove p [p]) with (@nil Z).
  2:{ unfold l_remove. rewrite filter_cons_False by naive_solver. done. }
  by rewrite app_nil_r.
Qed.
Lemma wp_kclock_set q Q st :
  0 < q < QUANTUM_LIMIT → Q tt (set_clock (Some q) st.1, st.2) → wp (kclock_set_quantum q) Q st.
Proof. intros [??] HQ. unfold kclock_set_quantum. rewrite decide_True by done. rewrite decide_False by lia. done. Qed.
Lemma wp_get_quantum0 q Q st : quantums st.1 !! 0%nat = Some q → Q q st → wp (get_quantum 0) Q st.
Proof.
  intros Hq HQ. unfold get_quantum. rewrite decide_True by lia. apply wp_bind, wp_sget.
  change (Z.to_nat 0) with 0%nat. by apply (wp_unwrap _ q).
Qed.
Lemma wp_lq_remove q p Q st : p ∈ q → Q (l_remove p q) st → wp (lq_remove p q) Q st.
Proof. intros. unfold wp. by rewrite lq_remove_run. Qed.
Lemma wp_find_env q id st :
  (∀ p, p ∈ q → is_Some (envs st.1 !! p)) →
  wp (find_env_in_queue q id)
    (λ r st', st' = st ∧ (r = NULL ∧ (∀ p e, p ∈ q → envs st.1 !! p = Some e → env_id e ≠ id) ∨
                 r ∈ q ∧ ∃ e, envs st.1 !! r = Some e ∧ env_id e = id)) st.
Proof.
  induction q as [|p q IH]; intros Hq; cbn.
  - apply wp_ret. split; [done|]. left. split; [done|]. intros ?? Hin. by apply not_elem_of_nil in Hin.
  - destruct (Hq p) as [e He]; [by left|].
    apply wp_bind, (wp_get_env _ e); [done|]. case_decide as Hid.
    + apply wp_ret. split; [done|]. right. split; [by left|]. by exists e.
    + eapply wp_mono; [apply IH; intros; apply Hq; by right|]. cbn.
      intros r st' [-> [[-> Hn]|[Hr He']]]; (split; [done|]).
      * left. split; [done|]. intros p' e' [->|Hin]%elem_of_cons He'; [congruence|by eapply Hn].
      * right. split; [by right|done].
Qed.
End runs.

(** *** The invariant under single changes *)
Section wf.
Context {E : Type} `{HS : SchedMem E}.
Implicit Types s : sched_state.
Notation wf := (sched_wf (E:=E)).

Lemma wf_frame s s' :
  envs s' = envs s → env_new_queue s' = env_new_queue s → env_exit_queue s' = env_exit_queue s →
  env_ready_queues s' = env_ready_queues s → num_of_ready_queues s' = num_of_ready_queues s →
  quantums s' = quantums s → scheduler_method s' = scheduler_method s → wf s → wf s'.
Proof.
  intros H1 H2 H3 H4 H5 H6 H7 [].
  constructor; unfold has_status; rewrite ?H1, ?H2, ?H3, ?H4, ?H5, ?H6, ?H7; done.
Qed.
Lemma queued_frame s s' p :
  env_new_queue s' = env_new_queue s → env_exit_queue s' = env_exit_queue s →
  env_ready_queues s' = env_ready_queues s → queued s' p ↔ queued s p.
Proof. unfold queued. by intros -> -> ->. Qed.
Lemma queued_status s p : wf s → queued s p →
  ∃ e, envs s !! p = Some e ∧ (env_status e = ENV_NEW ∨ env_status e = ENV_EXIT ∨ env_status e = ENV_READY).
Proof.
  intros Hwf [Hp|[Hp|(i & q & Hq & Hp)]].
  - destruct (wf_new _ Hwf) as [_ Hn]. destruct (Hn p Hp) as (e & ? & ?). eauto.
  - destruct (wf_exit _ Hwf) as [_ Hn]. destruct (Hn p Hp) as (e & ? & ?). eauto.
  - destruct (wf_ready _ Hwf i q Hq) as [_ Hn]. destruct (Hn p Hp) as (e & ? & ? & ?). eauto.
Qed.
Lemma running_not_queued s p : wf s → has_status s p ENV_RUNNING → ¬ queued s p.
Proof.
  intros Hwf (e & He & Hst) Hq. destruct (queued_status s p Hwf Hq) as (e' & He' & Hs').
  simplify_eq. rewrite Hst in Hs'. destruct Hs' as [Hs'|[Hs'|Hs']]; discriminate.
Qed.
Lemma status_nonnull s p x : wf s → has_status s p x → p ≠ NULL.
Proof. intros Hwf (e & He & _) ->. rewrite (wf_null _ Hwf) in He. discriminate. Qed.

(** A change of one environment that keeps its identity, and either is not
    about a queued environment or keeps what its queue relies on. *)
Lemma wf_upd s p e e' :
  wf s → envs s !! p = Some e →
  ¬ queued s p ∨ env_status e' = env_status e ∧ priority e' = priority e →
  env_id e' = env_id e → (env_status e' ≠ ENV_FREE → env_status e ≠ ENV_FREE) →
  (env_status e' ≠ ENV_FREE → 0 ≤ priority e' < num_of_ready_queues s) →
  wf (set_envs (<[p:=e']> (envs s)) s).
Proof.
  intros Hwf He Hq Hid Hfree Hprio.
  assert (Hst : ∀ x y, queued s x → has_status s x y →
            has_status (set_envs (<[p:=e']> (envs s)) s) x y).
  { intros x y Hx (ex & Hex & <-). unfold has_status. cbn.
    destruct (decide (x = p)) as [->|]; [|rewrite lookup_insert_ne by done; eauto].
    rewrite lookup_insert_eq. simplify_eq. destruct Hq as [[]|[? ?]]; [done|]. eauto. }
  destruct Hwf as [[Hn1 Hn2] [He1 He2] Hr Henv Hslot Hnum Hqu Hnull Hm]. constructor; cbn; try done.
  - split; [done|]. intros x Hx. apply Hst; [by left|auto].
  - split; [done|]. intros x Hx. apply Hst; [by right; left|auto].
  - intros i q Hi. destruct (Hr i q Hi) as [Hnd Hall]. split; [done|]. intros x Hx.
    destruct (Hall x Hx) as (ex & Hex & Hsx & Hpx).
    destruct (decide (x = p)) as [->|]; [|rewrite lookup_insert_ne by done; eauto].
    rewrite lookup_insert_eq. simplify_eq. destruct Hq as [Hq|[Hq1 Hq2]].
    + destruct Hq. right. right. eauto.
    + exists e'. split_and!; [done|congruence|congruence].
  - intros x ex Hx Hxf. destruct (decide (x = p)) as [->|].
    + rewrite lookup_insert_eq in Hx. injection Hx as <-. split; [by apply Hprio|].
      rewrite Hid. apply (Henv p e He). by apply Hfree.
    + rewrite lookup_insert_ne in Hx by done. by apply Henv.
  - intros id. destruct (decide (env_slot (E:=E) id = p)) as [->|]; [rewrite lookup_insert_eq; eauto|].
    by rewrite lookup_insert_ne.
  - destruct (decide (p = NULL)) as [->|]; [congruence|]. by rewrite lookup_insert_ne.
Qed.

Lemma wf_set_ready s i q q' :
  wf s → env_ready_queues s !! i = Some q → NoDup q' →
  (∀ p, p ∈ q' → p ∈ q ∨ ∃ e, envs s !! p = Some e ∧ env_status e = ENV_READY ∧ priority e = Z.of_nat i) →
  wf (set_ready (<[i:=q']> (env_ready_queues s)) s).
Proof.
  intros Hwf Hq Hnd Hall. destruct Hwf as [Hn He Hr Henv Hslot [Hnum1 Hnum2] Hqu Hnull Hm].
  constructor; cbn; try done.
  - intros j qj Hj. destruct (decide (j = i)) as [->|Hne].
    + rewrite list_lookup_insert_eq in Hj by (by eapply lookup_lt_Some). injection Hj as <-.
      split; [done|]. intros p Hp. destruct (Hall p Hp) as [Hp'|]; [|done]. by apply (Hr i q Hq).
    + rewrite list_lookup_insert_ne in Hj by done. by apply Hr.
  - rewrite length_insert. done.
Qed.
Lemma wf_set_new s q' :
  wf s → NoDup q' → (∀ p, p ∈ q' → p ∈ env_new_queue s ∨ has_status s p ENV_NEW) → wf (set_new q' s).
Proof.
  intros Hwf Hnd Hall. destruct Hwf as [[Hn1 Hn2] He Hr Henv Hslot Hnum Hqu Hnull Hm].
  constructor; cbn; try done. split; [done|]. intros p Hp. destruct (Hall p Hp); [by apply Hn2|done].
Qed.
Lemma wf_set_exit s q' :
  wf s → NoDup q' → (∀ p, p ∈ q' → p ∈ env_exit_queue s ∨ has_status s p ENV_EXIT) → wf (set_exit q' s).
Proof.
  intros Hwf Hnd Hall. destruct Hwf as [Hn [He1 He2] Hr Henv Hslot Hnum Hqu Hnull Hm].
  constructor; cbn; try done. split; [done|]. intros p Hp. destruct (Hall p Hp); [by apply He2|done].
Qed.

Lemma queue_of s p e : wf s → envs s !! p = Some e → env_status e ≠ ENV_FREE →
  ∃ q, env_ready_queues s !! Z.to_nat (priority e) = Some q ∧ 0 ≤ priority e.
Proof.
  intros Hwf He Hf. destruct (wf_env _ Hwf p e He Hf) as (Hp & _).
  destruct (wf_num _ Hwf) as [Hn1 Hn2].
  destruct (lookup_lt_is_Some_2 (env_ready_queues s) (Z.to_nat (priority e))) as [q Hq]; [lia|].
  exists q. split; [done|lia].
Qed.
Lemma ready_disjoint s i j qi qj p :
  wf s → env_ready_queues s !! i = Some qi → env_ready_queues s !! j = Some qj → p ∈ qi → p ∈ qj → i = j.
Proof.
  intros Hwf Hi Hj Hpi Hpj.
  destruct (wf_ready _ Hwf i qi Hi) as [_ Ai]. destruct (wf_ready _ Hwf j qj Hj) as [_ Aj].
  destruct (Ai p Hpi) as (e & ? & ? & ?). destruct (Aj p Hpj) as (e' & ? & ? & ?). simplify_eq. lia.
Qed.
End wf.

(** ** Picking the next environment *)

(** The oldest environment of the first non-empty queue, and the queues left. *)
Fixpoint pick (qs : list (list Z)) : option (Z * list (list Z)) :=
  match qs with
  | [] => None
  | q :: qs =>
      match last q with
      | Some p => Some (p, removelast q :: qs)
      | None => match pick qs with Some (p, qs') => Some (p, q :: qs') | None => None end
      end
  end.
(** The ready queues with the environment on the CPU put back. *)
Definition requeued (s : sched_state) : list (list Z) :=
  if decide (cpu_proc s = NULL) then env_ready_queues s else
  match envs s !! cpu_proc s with
  | Some e => alter (cons (cpu_proc s)) (Z.to_nat (priority e)) (env_ready_queues s)
  | None => env_ready_queues s
  end.

Lemma list_alter_at {A} (f : A → A) (l : list A) i x : l !! i = Some x → alter f i l = <[i:=f x]> l.
Proof.
  revert i. induction l as [|y l IH]; intros [|i] Hi; try done; cbn in *; [by injection Hi as ->|].
  f_equal. by apply IH.
Qed.
Lemma pick_Some qs p qs' :
  pick qs = Some (p, qs') ↔
  ∃ i q, qs !! i = Some (q ++ [p]) ∧ (∀ j, (j < i)%nat → qs !! j = Some []) ∧ qs' = <[i:=q]> qs.
Proof.
  revert p qs'. induction qs as [|q0 qs IH]; intros p qs'; cbn.
  { split; [done|]. intros (i & q & Hi & _). by destruct i. }
  destruct (last q0) as [x|] eqn:Hl.
  - apply last_Some in Hl as [q ->]. rewrite removelast_last. split.
    + intros [= <- <-]. exists 0%nat, q. split_and!; [done|intros; lia|done].
    + intros ([|i] & q' & Hi & Hj & ->).
      * injection Hi as Heq. apply app_inj_tail in Heq as [-> ->]. done.
      * specialize (Hj 0%nat ltac:(lia)). cbn in Hj. injection Hj as Hj. by destruct q.
  - apply last_None in Hl as ->. destruct (pick qs) as [[x qs0]|] eqn:Hp.
    + destruct (IH x qs0) as [Ha _]. destruct (Ha eq_refl) as (i & q & Hi & Hj & ->). split.
      * intros [= <- <-]. exists (S i), q. split_and!; [done| |done].
        intros [|j] ?; [done|]. apply Hj. lia.
      * intros ([|i'] & q' & Hi' & Hj' & ->); [cbn in Hi'; by destruct q'|].
        assert (Hi2 : qs !! i' = Some (q' ++ [p])) by exact Hi'. clear Hi'. rename Hi2 into Hi'.
        assert (i' = i) as ->.
        { destruct (Nat.lt_trichotomy i i') as [Hlt|[->|Hlt]]; [|done|].
          - assert (Hx : qs !! i = Some []) by (apply (Hj' (S i)); lia). rewrite Hi in Hx. injection Hx as Hx. by destruct q.
          - specialize (Hj i' Hlt). rewrite Hi' in Hj. injection Hj as Hj. by destruct q'. }
        rewrite Hi in Hi'. injection Hi' as Heq. apply app_inj_tail in Heq as [-> ->]. done.
    + split; [done|]. intros ([|i] & q & Hi & Hj & ->); [cbn in Hi; by destruct q|].
      destruct (IH p (<[i:=q]> qs)) as [_ Hb]. discriminate Hb. exists i, q. split_and!; [done| |done].
      intros j ?. apply (Hj (S j)). lia.
Qed.
Lemma pick_None qs : pick qs = None ↔ ∀ q, q ∈ qs → q = [].
Proof.
  induction qs as [|q0 qs IH]; cbn.
  { split; [|done]. intros _ q Hq. by apply not_elem_of_nil in Hq. }
  destruct (last q0) as [x|] eqn:Hl.
  - apply last_Some in Hl as [q ->]. split; [done|]. intros Hall.
    specialize (Hall (q ++ [x]) ltac:(by left)). by destruct q.
  - apply last_None in Hl as ->. destruct (pick qs) as [[x qs0]|]; (split; [intros Hd|intros Hall]); try done.
    + destruct IH as [_ IH]. discriminate IH. intros q Hq. apply Hall. by right.
    + intros q [->|Hq]%elem_of_cons; [done|]. by apply IH.
Qed.

Section scheduler.
Context {E : Type} `{HS : SchedMem E}.
Notation ST := (sched_state * E)%type.
Implicit Types st : ST.
Notation wf := (sched_wf (E:=E)).

Lemma pick_highest_spec rest pre st :
  env_ready_queues st.1 = pre ++ rest → (∀ q, q ∈ rest → NoDup q) →
  wp (pick_highest (seqZ (Z.of_nat (length pre)) (Z.of_nat (length rest))))
    (λ r st', match pick rest with
              | None => r = NULL ∧ st' = st
              | Some (p, rest') => r = p ∧ st' = (set_ready (pre ++ rest') st.1, st.2)
              end) st.
Proof.
  revert pre. induction rest as [|q rest IH]; intros pre Hr Hnd.
  - by apply wp_ret.
  - replace (Z.of_nat (length (q :: rest))) with (Z.succ (Z.of_nat (length rest))) by (cbn; lia).
    rewrite seqZ_cons by lia. rewrite Z.pred_succ. cbn [pick_highest].
    assert (Hq : env_ready_queues st.1 !! Z.to_nat (Z.of_nat (length pre)) = Some q).
    { rewrite Nat2Z.id, Hr. by rewrite lookup_app_r, Nat.sub_diag by lia. }
    apply wp_bind, (wp_get_ready _ q); [lia|done|]. cbn [pick].
    destruct (last q) as [p|] eqn:Hl.
    + apply last_Some in Hl as [q' ->].
      rewrite decide_True by (rewrite length_app; cbn; lia).
      apply wp_bind, wp_dequeue_snoc; [apply Hnd; by left|]. cbn [fst snd].
      apply wp_bind, wp_put_ready, wp_ret. split; [done|]. f_equal. f_equal.
      rewrite Nat2Z.id, Hr. rewrite insert_app_r_alt, Nat.sub_diag by lia. cbn. by rewrite removelast_last.
    + apply last_None in Hl as ->. rewrite decide_False by (cbn; lia).
      replace (Z.succ (Z.of_nat (length pre))) with (Z.of_nat (length (pre ++ [[]]))) by (rewrite length_app; cbn; lia).
      eapply wp_mono; [apply IH|].
      * by rewrite Hr, <- app_assoc.
      * intros q' Hq'. apply Hnd. by right.
      * cbn. intros r st'. destruct (pick rest) as [[p rest']|]; [|done]. by rewrite <- app_assoc.
Qed.

(** The environment on the CPU when the scheduler looks for the next one. *)
Definition cur_ready (s : sched_state) : Prop :=
  cpu_proc s = NULL ∨ has_status s (cpu_proc s) ENV_READY ∧ ¬ queued s (cpu_proc s).

Lemma requeued_spec s :
  wf s → cur_ready s →
  wf (set_ready (requeued s) s) ∧ length (requeued s) = length (env_ready_queues s).
Proof.
  intros Hwf Hcur. unfold requeued. case_decide as Hn.
  - split; [|done]. by eapply wf_frame; [..|exact Hwf].
  - destruct Hcur as [|[(e & He & Hst) Hq]]; [done|]. rewrite He.
    destruct (queue_of s _ e Hwf He) as (q & Hq' & Hp); [by rewrite Hst|].
    rewrite (list_alter_at _ _ _ q Hq'). rewrite length_insert. split; [|done].
    eapply (wf_set_ready s _ q); [done..| |].
    + constructor; [|by apply (wf_ready _ Hwf _ _ Hq')]. intros Hin. apply Hq. right. right. eauto.
    + intros p [->|Hin]%elem_of_cons; [|by left]. right. exists e. split_and!; [done..|lia].
Qed.

(** What a round does to the chosen environment. *)
Definition chosen (s : sched_state) (e : Env) : Env :=
  set_status ENV_RUNNING (if decide (scheduler_method s = SCH_PRIRR) then set_starv 0 e else e).

Lemma sched_next_spec st :
  wf st.1 → qlock st.1 = true → cur_ready st.1 →
  wp sched_next (λ r st', ∃ c,
    match pick (requeued st.1) with
    | None => r = NULL ∧ st' = (set_clock c (set_ready (requeued st.1) st.1), st.2)
    | Some (p, qs) => r = p ∧ ∃ e, envs st.1 !! p = Some e ∧
        st' = (set_envs (<[p := if decide (scheduler_method st.1 = SCH_PRIRR) then set_starv 0 e else e]>
                          (envs st.1)) (set_clock c (set_ready qs st.1)), st.2)
    end) st.
Proof.
  intros Hwf Hl Hcur. destruct (requeued_spec _ Hwf Hcur) as [Hwf' Hlen].
  pose proof (wf_num _ Hwf) as [Hnum Hlr]. destruct (wf_quantum _ Hwf) as (qu & Hqu & Hqv).
  assert (Hnd : ∀ q, q ∈ requeued st.1 → NoDup q).
  { intros q [i Hi]%list_elem_of_lookup. by apply (wf_ready _ Hwf' i). }
  assert (Hin : ∀ p qs, pick (requeued st.1) = Some (p, qs) → ∃ e, envs st.1 !! p = Some e).
  { intros p qs (i & q & Hi & _ & _)%pick_Some.
    destruct (wf_ready _ Hwf' i _ Hi) as [_ Hall]. destruct (Hall p) as (e & He & _); [set_solver|].
    by exists e. }
  unfold sched_next. apply wp_bind, wp_sget.
  destruct (wf_method _ Hwf) as [[Hm H1]|Hm].
  - rewrite decide_True by done. unfold fos_scheduler_RR.
    apply wp_bind, wp_need_qlock; [done|]. apply wp_bind, wp_sget.
    destruct (lookup_lt_is_Some_2 (env_ready_queues st.1) 0) as [q0 Hq0]; [lia|].
    assert (Hreq : wp (when (bool_decide (cpu_proc st.1 ≠ NULL))
                (q ← get_ready 0; q' ← enqueue q (cpu_proc st.1); put_ready 0 q'))
              (λ _ st', st' = (set_ready (requeued st.1) st.1, st.2)) st).
    { apply wp_when; intros Hc.
      - apply bool_decide_eq_true in Hc. apply wp_bind, (wp_get_ready _ q0); [lia|done|].
        destruct Hcur as [|[(e & He & Hst) Hq]]; [done|].
        destruct (queue_of _ _ e Hwf He) as (q & Hq' & Hp); [by rewrite Hst|].
        assert (priority e = 0) as Hp0.
        { destruct (wf_env _ Hwf _ _ He) as [? _]; [by rewrite Hst|lia]. }
        rewrite Hp0 in Hq'. change (Z.to_nat 0) with 0%nat in Hq'. rewrite Hq0 in Hq'. injection Hq' as <-.
        apply wp_bind, wp_enqueue; [done|intros Hi; apply Hq; right; right; eauto|].
        apply wp_put_ready. unfold requeued. rewrite decide_False, He by done.
        rewrite Hp0, (list_alter_at _ _ _ q0) by done. done.
      - apply bool_decide_eq_false, dec_stable in Hc. unfold requeued. rewrite decide_True by done.
        by destruct st as [[] ?]. }
    apply wp_bind. eapply wp_mono; [exact Hreq|]. cbn. intros _ ? ->.
    destruct (lookup_lt_is_Some_2 (requeued st.1) 0) as [q1 Hq1]; [lia|].
    assert (Hr1 : requeued st.1 = [q1]).
    { destruct (requeued st.1) as [|x [|? ?]]; cbn in *; [lia|congruence|lia]. }
    apply wp_bind, (wp_get_ready _ q1); [lia|done|].
    rewrite Hr1 in *. cbn [pick]. destruct (last q1) as [p|] eqn:Hlast.
    + apply last_Some in Hlast as [q' ->].
      apply wp_bind, wp_dequeue_snoc; [apply Hnd; by left|]. cbn [fst snd].
      apply wp_bind, wp_put_ready. cbn.
      destruct (Hin p (q' :: [])) as [e He]; [cbn; by rewrite last_snoc, removelast_last|].
      apply wp_bind, (wp_get_quantum0 qu); [done|].
      apply wp_bind, wp_kclock_set; [done|]. apply wp_ret. cbn. exists (Some qu). split; [done|].
      exists e. split; [done|]. rewrite decide_False by (rewrite Hm; discriminate).
      rewrite insert_id, removelast_last by done. done.
    + apply last_None in Hlast as ->.
      apply wp_bind. unfold dequeue. cbn. apply wp_ret. cbn.
      apply wp_bind, wp_put_ready. cbn.
      apply wp_bind, (wp_get_quantum0 qu); [done|].
      apply wp_bind, wp_kclock_set; [done|]. apply wp_ret. cbn. exists (Some qu). split; done.
  - do 3 (rewrite decide_False by (rewrite Hm; discriminate)). rewrite decide_True by done.
    unfold fos_scheduler_PRIRR. apply wp_bind, wp_need_qlock; [done|]. apply wp_bind, wp_sget.
    assert (Hreq : wp (when (bool_decide (cpu_proc st.1 ≠ NULL)) (
                e ← get_env (cpu_proc st.1);
                when (bool_decide (env_status e = ENV_READY)) (
                  q ← get_ready (priority e); q' ← enqueue q (cpu_proc st.1); put_ready (priority e) q')))
              (λ _ st', st' = (set_ready (requeued st.1) st.1, st.2)) st).
    { apply wp_when; intros Hc.
      - apply bool_decide_eq_true in Hc. destruct Hcur as [|[(e & He & Hst) Hq]]; [done|].
        apply wp_bind, (wp_get_env _ e); [done|]. rewrite bool_decide_true by done. cbn [when].
        destruct (queue_of _ _ e Hwf He) as (q & Hq' & Hp); [by rewrite Hst|].
        apply wp_bind, (wp_get_ready _ q); [done..|].
        apply wp_bind, wp_enqueue; [done|intros Hi; apply Hq; right; right; eauto|].
        apply wp_put_ready. unfold requeued. rewrite decide_False, He by done.
        rewrite (list_alter_at _ _ _ q) by done. done.
      - apply bool_decide_eq_false, dec_stable in Hc. unfold requeued. rewrite decide_True by done.
        by destruct st as [[] ?]. }
    apply wp_bind. eapply wp_mono; [exact Hreq|]. cbn. intros _ ? ->.
    apply wp_bind, wp_sget. cbn.
    replace (num_of_ready_queues st.1) with (Z.of_nat (length (requeued st.1))) by lia.
    apply wp_bind. eapply wp_mono; [apply (pick_highest_spec _ []); [done|exact Hnd]|].
    cbn. intros r st'. destruct (pick (requeued st.1)) as [[p qs]|] eqn:Hpick.
    + intros [-> ->]. destruct (Hin p qs eq_refl) as [e He].
      assert (p ≠ NULL) as Hp by (intros ->; rewrite (wf_null _ Hwf) in He; discriminate).
      rewrite bool_decide_true by done. cbn [when]. apply wp_bind, wp_bind, (wp_upd_env _ _ e); [done|].
      apply wp_bind, (wp_get_quantum0 qu); [done|].
      apply wp_kclock_set; [done|]. apply wp_ret. cbn. exists (Some qu). split; [done|].
      exists e. split; [done|]. by rewrite decide_True by done.
    + intros [-> ->]. rewrite bool_decide_false by (intros Hx; by apply Hx). cbn [when].
      apply wp_bind, wp_ret, wp_ret. exists (clock st.1). split; [done|]. by destruct st as [[] ?].
Qed.
End scheduler.

(** ** A round of the scheduler *)
(** The state after a round: the environment picked is on the CPU, or the
    scheduler has left its inner loop and released the lock. *)
Definition round_post (s s' : sched_state) (r : switch) : Prop :=
  ∃ c, match pick (requeued s) with
  | Some (p, qs) => r = SwitchTo p ∧ ∃ e, envs s !! p = Some e ∧
      s' = set_envs (<[p := chosen s e]> (envs s)) (set_proc p (set_clock c (set_ready qs s)))
  | None => (r = WaitBlocked ∨ r = Prompt) ∧ s' = unlock (set_clock c (set_ready (requeued s) s))
  end.
(** The same after the environment switched to has released the lock. *)
Definition dispatched (s s' : sched_state) (r : switch) : Prop :=
  ∃ s1, round_post s s1 r ∧ s' = match r with SwitchTo _ => unlock s1 | _ => s1 end.

Section round.
Context {E : Type} `{HS : SchedMem E}.
Notation ST := (sched_state * E)%type.
Implicit Types st : ST.
Notation wf := (sched_wf (E:=E)).

Lemma scheduler_round_spec st :
  wf st.1 → qlock st.1 = true → cur_ready st.1 →
  wp scheduler_round (λ r st', round_post st.1 st'.1 r ∧ st'.2 = st.2) st.
Proof.
  intros Hwf Hl Hcur. unfold scheduler_round. apply wp_bind.
  eapply wp_mono; [by apply sched_next_spec|]. cbn. unfold round_post.
  intros r st' [c Hc]. destruct (pick (requeued st.1)) as [[p qs]|] eqn:Hp.
  - destruct Hc as (-> & e & He & ->).
    assert (p ≠ NULL) as Hne by (intros ->; rewrite (wf_null _ Hwf) in He; discriminate).
    rewrite decide_True by done. apply wp_bind, wp_sset. apply wp_bind.
    eapply wp_upd_env; [apply lookup_insert_eq|]. apply wp_ret. split; [|done]. exists c. split; [done|].
    exists e. split; [done|]. cbn. rewrite insert_insert_eq. done.
  - destruct Hc as [-> ->]. rewrite decide_False by (intros Hx; by apply Hx).
    apply wp_bind, wp_gets, wp_bind, wp_release_qlock; [done|]. apply wp_ret. split; [|done].
    exists c. split; [|done]. destruct (existsb _ _); [by left|by right].
Qed.

Lemma round_wf s p qs e :
  wf s → cur_ready s → pick (requeued s) = Some (p, qs) → envs s !! p = Some e →
  wf (set_ready qs s) ∧ ¬ queued (set_ready qs s) p ∧ env_status e = ENV_READY.
Proof.
  intros Hwf Hcur Hpick He. destruct (requeued_spec _ Hwf Hcur) as [Hwf' _].
  apply pick_Some in Hpick as (i & q & Hi & _ & ->).
  destruct (wf_ready _ Hwf' i _ Hi) as [Hnd Hall].
  destruct (Hall p) as (e' & He' & Hst & Hp); [set_solver|]. cbn in He'. simplify_eq.
  apply NoDup_app in Hnd as (Hnd & Hd & _).
  assert (Hwf2 : wf (set_ready (<[i:=q]> (requeued s)) s)).
  { apply (wf_set_ready (set_ready (requeued s) s) i (q ++ [p])); [done|done|done|].
    intros x Hx. left. apply elem_of_app. by left. }
  split_and!; [done| |done].
  intros [Hn|[Hx|(j & qj & Hj & Hin)]]; cbn in *.
  - destruct (wf_new _ Hwf) as [_ H1]. destruct (H1 p Hn) as (e1 & ? & ?). simplify_eq. rewrite Hst in *. discriminate.
  - destruct (wf_exit _ Hwf) as [_ H1]. destruct (H1 p Hx) as (e1 & ? & ?). simplify_eq. rewrite Hst in *. discriminate.
  - destruct (decide (j = i)) as [->|Hne].
    + rewrite list_lookup_insert_eq in Hj by (by eapply lookup_lt_Some). injection Hj as <-.
      apply (Hd p Hin), list_elem_of_singleton. done.
    + rewrite list_lookup_insert_ne in Hj by done.
      apply Hne. eapply (ready_disjoint (set_ready (requeued s) s)); [exact Hwf'|exact Hj|exact Hi|done|set_solver].
Qed.

Lemma pick_None_cur s :
  wf s → cur_ready s → pick (requeued s) = None → cpu_proc s = NULL.
Proof.
  intros Hwf Hcur Hp. destruct Hcur as [|[(e & He & Hst) Hq]]; [done|].
  destruct (decide (cpu_proc s = NULL)) as [|Hn]; [done|]. exfalso.
  destruct (queue_of s _ e Hwf He) as (q & Hq' & Hpr); [by rewrite Hst|].
  rewrite pick_None in Hp. assert (Hx : cpu_proc s :: q = []); [|done].
  apply Hp. apply (list_elem_of_lookup_2 _ (Z.to_nat (priority e))).
  unfold requeued. rewrite decide_False, He by done. rewrite (list_alter_at _ _ _ q) by done.
  apply list_lookup_insert_eq. by eapply lookup_lt_Some.
Qed.

Lemma requeued_queued s x :
  wf s → cur_ready s → queued s x ∨ x = cpu_proc s ∧ x ≠ NULL → queued (set_ready (requeued s) s) x.
Proof.
  intros Hwf Hcur Hx. destruct Hx as [[Hx|[Hx|(i & q & Hi & Hx)]]|[-> Hne]]; [by left|by right; left| |].
  - right. right. cbn. unfold requeued. case_decide as Hc; [by exists i, q|].
    destruct Hcur as [|[(e & He & Hst) Hq]]; [done|]. rewrite He.
    destruct (decide (i = Z.to_nat (priority e))) as [->|Hne].
    + exists (Z.to_nat (priority e)), (cpu_proc s :: q). rewrite (list_alter_at _ _ _ q) by done.
      split; [|by right]. apply list_lookup_insert_eq. by eapply lookup_lt_Some.
    + exists i, q. split; [|done]. by rewrite list_lookup_alter_ne.
  - destruct Hcur as [|[(e & He & Hst) Hq]]; [done|].
    destruct (queue_of s _ e Hwf He) as (q & Hq' & Hpr); [by rewrite Hst|].
    right. right. cbn. unfold requeued. rewrite decide_False, He by done. rewrite (list_alter_at _ _ _ q) by done.
    exists (Z.to_nat (priority e)), (cpu_proc s :: q).
    split; [|by left]. apply list_lookup_insert_eq. by eapply lookup_lt_Some.
Qed.
Lemma picked_queued s qs0 p qs x :
  pick qs0 = Some (p, qs) → queued (set_ready qs0 s) x → x ≠ p → queued (set_ready qs s) x.
Proof.
  intros (i & q & Hi & _ & ->)%pick_Some [Hx|[Hx|(j & qj & Hj & Hx)]] Hne; [by left|by right; left|].
  right. right. cbn in *. destruct (decide (j = i)) as [->|Hji].
  - exists i, q. rewrite list_lookup_insert_eq by (by eapply lookup_lt_Some). split; [done|]. set_solver.
  - exists j, qj. by rewrite list_lookup_insert_ne.
Qed.

(** A completed switch re-establishes the invariant between operations. *)
Lemma dispatched_ok s s' r :
  wf s → cur_ready s → ncli s = 1 →
  (∀ p, has_status s p ENV_READY → queued s p ∨ p = cpu_proc s) →
  dispatched s s' r → sched_ok (E:=E) s'.
Proof.
  intros Hwf Hcur Hn Hstray (s1 & [c Hc] & ->). destruct (requeued_spec _ Hwf Hcur) as [Hwf' _].
  destruct (pick (requeued s)) as [[p qs]|] eqn:Hp.
  - destruct Hc as (-> & e & He & ->).
    destruct (round_wf s p qs e Hwf Hcur Hp He) as (Hwf2 & Hq & Hst).
    assert (Hnf : env_status e ≠ ENV_FREE) by (rewrite Hst; discriminate).
    assert (Hk : env_id (chosen s e) = env_id e ∧ priority (chosen s e) = priority e).
    { unfold chosen. by case_decide. }
    constructor.
    + apply (wf_frame (set_envs (<[p:=chosen s e]> (envs s)) (set_ready qs s))); [done..|].
      apply (wf_upd (set_ready qs s) p e); [done|done|by left|apply Hk|done|].
      intros _. rewrite (proj2 Hk). by apply (wf_env _ Hwf p e He).
    + cbn. rewrite Hn. done.
    + right. exists (chosen s e). cbn. rewrite lookup_insert_eq. unfold chosen. done.
    + intros x (ex & Hex & Hsx). cbn in Hex. destruct (decide (x = p)) as [->|Hxp].
      { rewrite lookup_insert_eq in Hex. injection Hex as <-. discriminate. }
      rewrite lookup_insert_ne in Hex by done.
      assert (Hx : has_status s x ENV_READY) by (by exists ex).
      rewrite (queued_frame (set_ready qs s)) by done. apply (picked_queued s (requeued s) p); [done| |done].
      apply requeued_queued; [done|done|]. destruct (Hstray x Hx); [by left|right]. split; [done|].
      by apply (status_nonnull s x ENV_READY).
  - pose proof (pick_None_cur s Hwf Hcur Hp) as Hcn. destruct Hc as [Hr ->]. constructor.
    + destruct Hr as [-> | ->]; (eapply wf_frame; [..|exact Hwf']; done).
    + destruct Hr as [-> | ->]; cbn; rewrite Hn; done.
    + destruct Hr as [-> | ->]; left; exact Hcn.
    + assert (Hall : ∀ x, has_status s x ENV_READY → queued (set_ready (requeued s) s) x).
      { intros x Hx. apply requeued_queued; [done|done|]. destruct (Hstray x Hx); [by left|right].
        split; [done|]. by apply (status_nonnull s x ENV_READY). }
      destruct Hr as [-> | ->]; exact Hall.
Qed.

Lemma wp_switched s r st Q :
  round_post s st.1 r → qlock s = true → (∀ st', dispatched s st'.1 r → st'.2 = st.2 → Q tt st') → wp (switched r) Q st.
Proof.
  intros Hrp Hl HQ. destruct r as [p| |]; cbn.
  - apply wp_release_qlock.
    + destruct Hrp as [c Hc]. destruct (pick (requeued s)) as [[x qs]|].
      * destruct Hc as (_ & e & _ & ->). done.
      * by destruct Hc as [[?|?] _].
    + apply HQ; [|done]. by exists st.1.
  - apply wp_ret. apply HQ; [|done]. by exists st.1.
  - apply wp_ret. apply HQ; [|done]. by exists st.1.
Qed.

(** [sched] from an environment that has given up the CPU: what the scheduler
    sees is the state with that environment, if it is not ready, off the CPU. *)
Definition off_cpu (s : sched_state) (e : Env) : sched_state :=
  let s := set_clock None s in
  if decide (env_status e = ENV_READY) then s else set_proc NULL s.
Lemma wp_sched e st Q :
  envs st.1 !! cpu_proc st.1 = Some e → wf st.1 → qlock st.1 = true → ncli st.1 = 1 →
  env_status e ≠ ENV_RUNNING → (env_status e = ENV_READY → ¬ queued st.1 (cpu_proc st.1)) →
  (∀ r st', round_post (off_cpu st.1 e) st'.1 r → st'.2 = st.2 → Q r st') → wp sched Q st.
Proof.
  intros He Hwf Hl Hn Hst Hq HQ. unfold sched.
  assert (cpu_proc st.1 ≠ NULL) as Hne by (intros Hx; rewrite Hx, (wf_null _ Hwf) in He; discriminate).
  apply wp_bind, wp_sget, wp_bind, wp_assert; [by apply bool_decide_eq_true|].
  apply wp_bind, wp_need_qlock; [done|]. apply wp_bind, wp_sget, wp_bind, wp_assert; [by apply bool_decide_eq_true|].
  apply wp_bind, (wp_get_env _ e); [done|]. apply wp_bind, wp_assert; [by apply bool_decide_eq_true|].
  unfold scheduler_resume. apply wp_bind, wp_need_qlock; [done|]. apply wp_bind, wp_sset.
  apply wp_bind, wp_sget, wp_bind, (wp_get_env _ e); [done|].
  apply wp_bind, wp_assert; [by apply bool_decide_eq_true|].
  assert (Hk : wp scheduler_round Q (off_cpu st.1 e, st.2)).
  { eapply wp_mono; [apply scheduler_round_spec|].
    - unfold off_cpu. case_decide; (eapply wf_frame; [..|exact Hwf]; done).
    - unfold off_cpu. by case_decide.
    - unfold off_cpu. case_decide as Hr; [right|by left]. split; [by exists e|by apply Hq].
    - cbn. intros r st' [??]. by apply HQ. }
  apply wp_bind, wp_when; intros Hb.
  - apply bool_decide_eq_true in Hb. apply wp_sset. unfold off_cpu in Hk. by rewrite decide_False in Hk by done.
  - apply bool_decide_eq_false, dec_stable in Hb. unfold off_cpu in Hk. by rewrite decide_True in Hk by done.
Qed.

Lemma yield_spec st :
  sched_ok (E:=E) st.1 → cpu_proc st.1 ≠ NULL →
  ∃ e, envs st.1 !! cpu_proc st.1 = Some e ∧
  let s1 := set_clock None (set_envs (<[cpu_proc st.1 := set_status ENV_READY e]> (envs st.1)) (lock st.1)) in
  wf s1 ∧ cur_ready s1 ∧ wp yield (λ r st', dispatched s1 st'.1 r ∧ st'.2 = st.2) st.
Proof.
  intros [Hwf [Hl Hn] Hcur Hstray] Hne. destruct Hcur as [|Hrun]; [done|].
  pose proof (running_not_queued _ _ Hwf Hrun) as Hnq. destruct Hrun as (e & He & Hst). exists e. split; [done|].
  set (s1 := set_clock None _). cbn zeta.
  assert (Hwf1 : wf s1).
  { apply (wf_frame (set_envs (<[cpu_proc st.1:=set_status ENV_READY e]> (envs st.1)) st.1)); [done..|].
    apply (wf_upd _ _ e); [done|done|by left|done| |].
    - intros _. rewrite Hst. discriminate.
    - intros _. apply (wf_env _ Hwf _ e He). rewrite Hst. discriminate. }
  assert (Hcr : cur_ready s1).
  { right. split; [|by rewrite (queued_frame st.1 s1)].
    exists (set_status ENV_READY e). split; [apply lookup_insert_eq|done]. }
  split_and!; [done|done|]. unfold yield.
  apply wp_bind, wp_acquire_qlock; [done|]. apply wp_bind, wp_sget, wp_bind, wp_assert; [by apply bool_decide_eq_true|].
  apply wp_bind, (wp_upd_env _ _ e); [done|]. apply wp_bind.
  eapply (wp_sched (set_status ENV_READY e)); cbn [fst snd].
  - apply lookup_insert_eq.
  - eapply wf_frame; [..|exact Hwf1]; done.
  - done.
  - cbn. rewrite Hn. done.
  - done.
  - intros _. by rewrite (queued_frame st.1).
  - unfold off_cpu. rewrite decide_True by done. intros r st' Hr Hm. apply wp_bind.
    eapply (wp_switched s1); [exact Hr|done|]. intros st2 Hd Hm2. apply wp_ret. split; [done|congruence].
Qed.

Lemma wp_fos_scheduler {B} (K : switch → M ST B) Q st :
  wf st.1 → qlock st.1 = false →
  (∀ r st', dispatched (lock (set_sstatus SCH_STARTED (set_proc NULL st.1))) st'.1 r → st'.2 = st.2 → wp (K r) Q st') →
  wp (r ← fos_scheduler; switched r ;; K r) Q st.
Proof.
  intros Hwf Hl HQ. set (s1 := lock (set_sstatus SCH_STARTED (set_proc NULL st.1))) in *.
  assert (Hwf1 : wf s1) by (eapply wf_frame; [..|exact Hwf]; done).
  assert (Hc1 : cur_ready s1) by (by left).
  apply wp_bind. unfold fos_scheduler, scheduler_outer.
  apply wp_bind, wp_sset, wp_bind, wp_sset, wp_bind, wp_acquire_qlock; [done|].
  eapply wp_mono; [apply scheduler_round_spec; done|]. cbn [fst snd]. intros r st' [Hr Hm].
  apply wp_bind. eapply (wp_switched s1); [exact Hr|done|]. intros st2 Hd Hm2. apply HQ; [done|congruence].
Qed.
End round.

(** ** The queue operations on single environments *)
Definition ready_inserted (p : Z) (e : Env) (s : sched_state) : sched_state :=
  set_ready (alter (cons p) (Z.to_nat (priority e)) (env_ready_queues s))
    (set_envs (<[p:=set_status ENV_READY e]> (envs s)) s).
Definition ready_removed (p : Z) (e : Env) (s : sched_state) : sched_state :=
  set_envs (<[p:=set_status ENV_UNKNOWN e]> (envs s))
    (set_ready (alter (l_remove p) (Z.to_nat (priority e)) (env_ready_queues s)) s).
Definition new_removed (p : Z) (e : Env) (s : sched_state) : sched_state :=
  set_envs (<[p:=set_status ENV_UNKNOWN e]> (envs s)) (set_new (l_remove p (env_new_queue s)) s).
Definition exit_inserted (p : Z) (e : Env) (s : sched_state) : sched_state :=
  set_exit (p :: env_exit_queue s) (set_envs (<[p:=set_status ENV_EXIT e]> (envs s)) s).

Section ops.
Context {E : Type} `{HS : SchedMem E} `{HL : !SchedMemLaws E}.
Notation ST := (sched_state * E)%type.
Implicit Types st : ST.
Implicit Types s : sched_state.
Notation wf := (sched_wf (E:=E)).

Lemma nonfree_status e x : env_status e = x → x ≠ ENV_FREE → env_status e ≠ ENV_FREE.
Proof. congruence. Qed.
Lemma same_id s p p' e e' :
  wf s → envs s !! p = Some e → envs s !! p' = Some e' → env_status e ≠ ENV_FREE → env_status e' ≠ ENV_FREE →
  env_id e = env_id e' → p = p'.
Proof.
  intros Hwf He He' Hf Hf' Hid. destruct (wf_env _ Hwf p e He Hf) as (_ & <- & _).
  destruct (wf_env _ Hwf p' e' He' Hf') as (_ & <- & _). by rewrite Hid.
Qed.
Lemma queued_nonfree s p e : wf s → queued s p → envs s !! p = Some e → env_status e ≠ ENV_FREE.
Proof.
  intros Hwf Hq He. destruct (queued_status s p Hwf Hq) as (e' & He' & Hs). simplify_eq.
  destruct Hs as [->|[->| ->]]; discriminate.
Qed.

Lemma wp_insert_ready p e Q st :
  wf st.1 → qlock st.1 = true → envs st.1 !! p = Some e → env_status e ≠ ENV_FREE → ¬ queued st.1 p →
  (wf (ready_inserted p e st.1) → Q tt (ready_inserted p e st.1, st.2)) → wp (sched_insert_ready p) Q st.
Proof.
  intros Hwf Hl He Hf Hq HQ. destruct (queue_of _ p e Hwf He Hf) as (q & Hq' & Hp).
  assert (p ≠ NULL) as Hne by (intros ->; rewrite (wf_null _ Hwf) in He; discriminate).
  assert (p ∉ q) as Hpq by (intros Hin; apply Hq; right; right; eauto).
  assert (Hr : ready_inserted p e st.1 = set_ready (<[Z.to_nat (priority e) := p :: q]> (env_ready_queues st.1))
     (set_envs (<[p:=set_status ENV_READY e]> (envs st.1)) st.1)).
  { unfold ready_inserted. by rewrite (list_alter_at _ _ _ q). }
  rewrite Hr in HQ. unfold sched_insert_ready.
  apply wp_bind, wp_need_qlock; [done|]. apply wp_bind, wp_assert; [by apply bool_decide_eq_true|].
  apply wp_bind, (wp_upd_env _ _ e); [done|]. eapply wp_bind, wp_get_env; [apply lookup_insert_eq|].
  apply wp_bind, (wp_get_ready _ q); [done..|]. apply wp_bind, wp_enqueue; [done..|]. apply wp_put_ready.
  apply HQ.
  assert (Hwf1 : wf (set_envs (<[p:=set_status ENV_READY e]> (envs st.1)) st.1)).
  { apply (wf_upd _ p e); [done|done|by left|done|done|]. intros _. by apply (wf_env _ Hwf p e). }
  eapply (wf_set_ready _ _ q _ Hwf1 Hq').
  - constructor; [done|]. by apply (wf_ready _ Hwf _ _ Hq').
  - intros x [->|Hx]%elem_of_cons; [|by left]. right. exists (set_status ENV_READY e). cbn.
    rewrite lookup_insert_eq. split_and!; [done|done|lia].
Qed.

Lemma remove_ready_from_spec p e q js Q st :
  wf st.1 → envs st.1 !! p = Some e → env_status e = ENV_READY →
  env_ready_queues st.1 !! Z.to_nat (priority e) = Some q → p ∈ q →
  (∀ j, j ∈ js → 0 ≤ j < num_of_ready_queues st.1) → priority e ∈ js →
  Q tt (ready_removed p e st.1, st.2) → wp (remove_ready_from p (env_id e) js) Q st.
Proof.
  intros Hwf He Hst Hq Hin. pose proof (wf_num _ Hwf) as [Hn1 Hn2].
  destruct (wf_env _ Hwf p e He) as (Hp & _); [by rewrite Hst|].
  induction js as [|j js IH]; intros Hjs Hpj HQ; [by apply not_elem_of_nil in Hpj|]. cbn.
  assert (Hj : 0 ≤ j < num_of_ready_queues st.1) by (apply Hjs; by left).
  destruct (lookup_lt_is_Some_2 (env_ready_queues st.1) (Z.to_nat j)) as [qj Hqj]; [lia|].
  destruct (wf_ready _ Hwf _ _ Hqj) as [_ Hall].
  apply wp_bind, (wp_get_ready _ qj); [lia|done|]. apply wp_bind.
  eapply wp_mono; [apply wp_find_env|]; cbn.
  { intros x Hx. destruct (Hall x Hx) as (ex & ? & _). eauto. }
  intros r st' [-> [[-> Hno]|(Hr & er & Her & Hid)]].
  - rewrite decide_False by (intros Hx; by apply Hx). apply IH; [set_solver| |done].
    apply elem_of_cons in Hpj as [Heq|]; [|done]. rewrite <- Heq, Hq in Hqj. injection Hqj as ->.
    by destruct (Hno p e Hin He).
  - destruct (Hall r Hr) as (er' & Her' & Hsr & Hpr). rewrite Her in Her'. injection Her' as <-.
    assert (r = p) as ->.
    { eapply (same_id st.1); [done|done|done|by rewrite Hsr|by rewrite Hst|done]. }
    rewrite He in Her. injection Her as <-.
    assert (Hje : j = priority e) by lia. rewrite Hje in *. rewrite Hq in Hqj. injection Hqj as <-.
    rewrite decide_True by (by apply (status_nonnull st.1 p ENV_READY); [|exists e]).
    apply wp_bind, wp_lq_remove; [done|]. apply wp_bind, wp_put_ready.
    apply (wp_upd_env _ _ e); [done|]. unfold ready_removed in HQ. by rewrite (list_alter_at _ _ _ q) in HQ by done.
Qed.
Lemma wp_remove_ready p e Q st :
  wf st.1 → qlock st.1 = true → envs st.1 !! p = Some e → env_status e = ENV_READY → queued st.1 p →
  (wf (ready_removed p e st.1) → ¬ queued (ready_removed p e st.1) p → Q tt (ready_removed p e st.1, st.2)) →
  wp (sched_remove_ready p) Q st.
Proof.
  intros Hwf Hl He Hst Hqd HQ. unfold sched_remove_ready.
  assert (Hf : env_status e ≠ ENV_FREE) by (by rewrite Hst).
  destruct (wf_env _ Hwf p e He Hf) as (Hp & _).
  assert (Hq : ∃ q, env_ready_queues st.1 !! Z.to_nat (priority e) = Some q ∧ p ∈ q).
  { destruct Hqd as [Hx|[Hx|(i & q & Hi & Hx)]].
    - destruct (wf_new _ Hwf) as [_ Hn]. destruct (Hn p Hx) as (e1 & ? & ?). simplify_eq. rewrite Hst in *. discriminate.
    - destruct (wf_exit _ Hwf) as [_ Hn]. destruct (Hn p Hx) as (e1 & ? & ?). simplify_eq. rewrite Hst in *. discriminate.
    - destruct (wf_ready _ Hwf _ _ Hi) as [_ Hn]. destruct (Hn p Hx) as (e1 & ? & ? & Hp1). simplify_eq.
      exists q. by rewrite Hp1, Nat2Z.id. }
  destruct Hq as (q & Hq & Hin).
  apply wp_bind, wp_need_qlock; [done|].
  apply wp_bind, wp_assert; [apply bool_decide_eq_true; by apply (status_nonnull st.1 p ENV_READY); [|exists e]|].
  apply wp_bind, (wp_get_env _ e); [done|]. apply wp_bind, wp_assert; [by apply bool_decide_eq_true|].
  apply wp_bind, wp_sget.
  assert (Hr : ready_removed p e st.1 = set_envs (<[p:=set_status ENV_UNKNOWN e]> (envs st.1))
     (set_ready (<[Z.to_nat (priority e) := l_remove p q]> (env_ready_queues st.1)) st.1)).
  { unfold ready_removed. by rewrite (list_alter_at _ _ _ q). }
  destruct (wf_ready _ Hwf _ _ Hq) as [Hnd Hall].
  assert (Hwf1 : wf (set_ready (<[Z.to_nat (priority e) := l_remove p q]> (env_ready_queues st.1)) st.1)).
  { apply (wf_set_ready _ _ q); [done|done|by apply NoDup_l_remove|].
    intros x Hx%elem_of_l_remove. left. apply Hx. }
  assert (Hnq : ¬ queued (set_ready (<[Z.to_nat (priority e) := l_remove p q]> (env_ready_queues st.1)) st.1) p).
  { intros [Hx|[Hx|(i & q' & Hi & Hx)]]; cbn in *.
    - destruct (wf_new _ Hwf) as [_ Hn]. destruct (Hn p Hx) as (e1 & ? & ?). simplify_eq. rewrite Hst in *. discriminate.
    - destruct (wf_exit _ Hwf) as [_ Hn]. destruct (Hn p Hx) as (e1 & ? & ?). simplify_eq. rewrite Hst in *. discriminate.
    - destruct (decide (i = Z.to_nat (priority e))) as [->|Hne].
      + rewrite list_lookup_insert_eq in Hi by (by eapply lookup_lt_Some). injection Hi as <-.
        apply elem_of_l_remove in Hx as [[] _]. done.
      + rewrite list_lookup_insert_ne in Hi by done. apply Hne. by eapply (ready_disjoint st.1). }
  eapply (remove_ready_from_spec p e q); [done..| | |].
  - intros j Hj%elem_of_seqZ. lia.
  - apply elem_of_seqZ. lia.
  - apply HQ; rewrite Hr.
    + apply (wf_upd _ p e _ Hwf1); [done|by left|done|done|]. intros _. cbn. lia.
    + by erewrite queued_frame.
Qed.

Lemma wp_remove_new p e Q st :
  wf st.1 → qlock st.1 = true → envs st.1 !! p = Some e → p ∈ env_new_queue st.1 →
  (wf (new_removed p e st.1) → ¬ queued (new_removed p e st.1) p → Q tt (new_removed p e st.1, st.2)) →
  wp (sched_remove_new p) Q st.
Proof.
  intros Hwf Hl He Hin HQ. destruct (wf_new _ Hwf) as [Hnd Hn]. destruct (Hn p Hin) as (e1 & ? & Hst). simplify_eq.
  unfold sched_remove_new.
  apply wp_bind, wp_need_qlock; [done|].
  apply wp_bind, wp_assert; [apply bool_decide_eq_true; by apply (status_nonnull st.1 p ENV_NEW); [|exists e]|].
  apply wp_bind, (wp_get_env _ e); [done|]. apply wp_bind, wp_assert; [by apply bool_decide_eq_true|].
  apply wp_bind, wp_sget, wp_bind, wp_lq_remove; [done|]. apply wp_bind, wp_sset, (wp_upd_env _ _ e); [done|].
  assert (Hwf1 : wf (set_new (l_remove p (env_new_queue st.1)) st.1)).
  { apply wf_set_new; [done|by apply NoDup_l_remove|]. intros x Hx%elem_of_l_remove. left. apply Hx. }
  assert (Hnq : ¬ queued (set_new (l_remove p (env_new_queue st.1)) st.1) p).
  { intros [Hx|[Hx|(i & q' & Hi & Hx)]]; cbn in *.
    - apply elem_of_l_remove in Hx as [[] _]. done.
    - destruct (wf_exit _ Hwf) as [_ H1]. destruct (H1 p Hx) as (e1 & ? & ?). simplify_eq. rewrite Hst in *. discriminate.
    - destruct (wf_ready _ Hwf _ _ Hi) as [_ H1]. destruct (H1 p Hx) as (e1 & ? & ? & Hp1). simplify_eq.
      rewrite Hst in *. discriminate. }
  apply HQ.
  - apply (wf_upd _ p e _ Hwf1); [done|by left|done| |].
    + intros _. by rewrite Hst.
    + intros _. apply (wf_env _ Hwf p e He). by rewrite Hst.
  - by erewrite queued_frame.
Qed.

Lemma wp_insert_exit p e Q st :
  wf st.1 → qlock st.1 = true → envs st.1 !! p = Some e → env_status e ≠ ENV_FREE → ¬ queued st.1 p →
  (∀ m, wf (exit_inserted p e st.1) → Q tt (exit_inserted p e st.1, m)) → wp (sched_insert_exit p) Q st.
Proof.
  intros Hwf Hl He Hf Hq HQ. unfold sched_insert_exit.
  assert (p ≠ NULL) as Hne by (intros ->; rewrite (wf_null _ Hwf) in He; discriminate).
  assert (Hgo : ∀ m, wp (upd_env p (set_status ENV_EXIT) ;; q ← sget env_exit_queue; q' ← enqueue q p; sset (set_exit q'))
                       Q (st.1, m)).
  { intros m. apply wp_bind, (wp_upd_env _ _ e); [done|]. apply wp_bind, wp_sget.
    apply wp_bind, wp_enqueue; [done| |].
    - intros Hin. apply Hq. right. by left.
    - apply wp_sset. apply HQ.
      assert (Hwf1 : wf (set_envs (<[p:=set_status ENV_EXIT e]> (envs st.1)) st.1)).
      { apply (wf_upd _ p e); [done|done|by left|done|done|]. intros _. by apply (wf_env _ Hwf p e). }
      apply (wf_set_exit _ _ Hwf1).
      + constructor; [|by apply (wf_exit _ Hwf)]. intros Hin. apply Hq. right. by left.
      + intros x [->|Hx]%elem_of_cons; [|by left]. right. exists (set_status ENV_EXIT e). cbn.
        by rewrite lookup_insert_eq. }
  apply wp_bind, wp_need_qlock; [done|]. apply wp_bind, wp_assert; [by apply bool_decide_eq_true|].
  apply wp_bind, wp_gets. apply wp_bind, wp_when; intros _.
  - destruct (cleanup_buffers_ok p st.2) as [m Hm]. unfold smem, wp, zoom. rewrite Hm. apply Hgo.
  - destruct st as [s0 m0]. apply Hgo.
Qed.
End ops.

(** ** Every operation keeps the invariant *)
Section invariant.
Context {E : Type} `{HS : SchedMem E} `{HL : !SchedMemLaws E}.
Notation ST := (sched_state * E)%type.
Implicit Types st : ST.
Implicit Types s : sched_state.
Notation wf := (sched_wf (E:=E)).
Notation ok := (sched_ok (E:=E)).

(** Inside a critical section. *)
Definition locked (s : sched_state) : Prop := wf s ∧ qlock s = true ∧ ncli s = 1.
Definition stray_free (s : sched_state) : Prop := ∀ p, has_status s p ENV_READY → queued s p.

Lemma lock_locked s : ok s → locked (lock s).
Proof.
  intros [Hwf [Hl Hn] _ _]. split_and!; [by eapply wf_frame; [..|exact Hwf]|done|]. cbn. by rewrite Hn.
Qed.
Lemma unlock_ok s :
  locked s → (cpu_proc s = NULL ∨ has_status s (cpu_proc s) ENV_RUNNING) → stray_free s → ok (unlock s).
Proof.
  intros (Hwf & Hl & Hn) Hc Hs. constructor.
  - by eapply wf_frame; [..|exact Hwf].
  - cbn. by rewrite Hn.
  - exact Hc.
  - exact Hs.
Qed.
Lemma queued_new_removed s p e x : queued s x → x ≠ p → queued (new_removed p e s) x.
Proof.
  intros [Hx|[Hx|Hx]] Hne; [|by right; left|by right; right].
  left. cbn. by apply elem_of_l_remove.
Qed.
Lemma queued_ready_inserted s p e x : queued s x → queued (ready_inserted p e s) x.
Proof.
  intros [Hx|[Hx|(i & q & Hi & Hx)]]; [by left|by right; left|]. right. right. cbn.
  destruct (decide (i = Z.to_nat (priority e))) as [->|Hne].
  - exists (Z.to_nat (priority e)), (p :: q). rewrite list_lookup_alter_eq, Hi. split; [done|by right].
  - exists i, q. by rewrite list_lookup_alter_ne.
Qed.
Lemma queued_inserted s p e :
  wf s → envs s !! p = Some e → env_status e ≠ ENV_FREE → queued (ready_inserted p e s) p.
Proof.
  intros Hwf He Hf. destruct (queue_of s p e Hwf He Hf) as (q & Hq & _). right. right. cbn.
  exists (Z.to_nat (priority e)), (p :: q). rewrite list_lookup_alter_eq, Hq. split; [done|by left].
Qed.
Lemma queued_ready_removed s p e x : queued s x → x ≠ p → queued (ready_removed p e s) x.
Proof.
  intros [Hx|[Hx|(i & q & Hi & Hx)]] Hne; [by left|by right; left|]. right. right. cbn.
  destruct (decide (i = Z.to_nat (priority e))) as [->|Hni].
  - exists (Z.to_nat (priority e)), (l_remove p q). rewrite list_lookup_alter_eq, Hi. split; [done|].
    by apply elem_of_l_remove.
  - exists i, q. by rewrite list_lookup_alter_ne.
Qed.
Lemma has_status_upd s s1 p e x y :
  envs s1 = <[p:=e]> (envs s) →
  has_status s1 x y ↔ (x = p ∧ env_status e = y) ∨ (x ≠ p ∧ has_status s x y).
Proof.
  intros Hs1. unfold has_status. rewrite Hs1. destruct (decide (x = p)) as [->|Hne].
  - rewrite lookup_insert_eq. naive_solver.
  - rewrite lookup_insert_ne by done. naive_solver.
Qed.
(** [dispatched] from a state where only the environment on the CPU is ready
    and in no queue. *)
Lemma dispatch_ok s s' r :
  locked s → cur_ready s → (∀ p, has_status s p ENV_READY → queued s p ∨ p = cpu_proc s) →
  dispatched s s' r → ok s'.
Proof. intros (Hwf & Hl & Hn) Hc Hs Hd. by eapply dispatched_ok. Qed.

Lemma yield_ok st : ok st.1 → cpu_proc st.1 ≠ NULL → wp yield (λ _ st', ok st'.1) st.
Proof.
  intros Hok Hne. destruct (yield_spec st Hok Hne) as (e & He & Hwf & Hc & Hy).
  eapply wp_mono; [exact Hy|]. cbn. intros r st' [Hd _].
  eapply dispatched_ok; [exact Hwf|exact Hc| | |exact Hd].
  - cbn. destruct Hok as [_ [_ ->] _ _]. done.
  - intros p Hp. destruct (decide (p = cpu_proc st.1)) as [->|Hpc]; [by right|]. left.
    apply (queued_frame st.1); [done..|]. apply (ok_stray _ Hok).
    destruct Hp as (ep & Hep & Hsp). cbn in Hep. rewrite lookup_insert_ne in Hep by done. by exists ep.
Qed.

Lemma fos_dispatch_ok s s' r :
  ok s → dispatched (lock (set_sstatus SCH_STARTED (set_proc NULL s))) s' r → ok s'.
Proof.
  intros Hok Hd. eapply dispatched_ok; [| | | |exact Hd].
  - eapply wf_frame; [..|exact (ok_wf _ Hok)]; done.
  - by left.
  - cbn. by rewrite (proj2 (ok_lock _ Hok)).
  - intros p Hp. left. by apply (ok_stray _ Hok).
Qed.

Lemma new_env_ok p st :
  ok st.1 → has_status st.1 p ENV_UNKNOWN → wp (sched_new_env p) (λ _ st', ok st'.1) st.
Proof.
  intros Hok (e & He & Hst). pose proof (lock_locked _ Hok) as (Hwf & Hl & Hn). unfold sched_new_env.
  assert (Hne : p ≠ NULL) by (by apply (status_nonnull st.1 p ENV_UNKNOWN (ok_wf _ Hok)); exists e).
  assert (Hq : ¬ queued st.1 p).
  { intros Hq. destruct (queued_status _ _ (ok_wf _ Hok) Hq) as (e' & ? & Hs). simplify_eq.
    rewrite Hst in Hs. destruct Hs as [|[|]]; discriminate. }
  apply wp_bind, wp_acquire_qlock; [apply Hok|]. apply wp_bind, wp_assert; [by apply bool_decide_eq_true|].
  apply wp_bind. unfold sched_insert_new.
  apply wp_bind, wp_need_qlock; [done|]. apply wp_bind, wp_assert; [by apply bool_decide_eq_true|].
  apply wp_bind, (wp_upd_env _ _ e); [done|]. apply wp_bind, wp_sget, wp_bind, wp_enqueue; [done| |].
  { intros Hin. apply Hq. by left. }
  apply wp_sset, wp_release_qlock; [done|]. cbn [fst snd].
  assert (Hwf1 : wf (set_envs (<[p:=set_status ENV_NEW e]> (envs st.1)) (lock st.1))).
  { apply (wf_upd (lock st.1) p e); [done|done|left|done| |].
    - by rewrite (queued_frame st.1).
    - intros _. by rewrite Hst.
    - intros _. apply (wf_env _ Hwf p e He). by rewrite Hst. }
  apply (unlock_ok (set_new (p :: env_new_queue st.1) (set_envs (<[p:=set_status ENV_NEW e]> (envs st.1)) (lock st.1)))).
  - split_and!; [|done|done]. apply wf_set_new; [done| |].
    + constructor; [|by apply (wf_new _ Hwf)]. intros Hin. apply Hq. by left.
    + intros x [->|Hx]%elem_of_cons; [|by left]. right. apply (has_status_upd st.1 _ p (set_status ENV_NEW e)); [done|]. by left.
  - destruct (ok_cur _ Hok) as [|Hc]; [by left|]. right.
    apply (has_status_upd st.1 _ p (set_status ENV_NEW e)); [done|]. right. split; [|done].
    cbn. intros Hcp. destruct Hc as (ec & Hec & Hsc). rewrite Hcp in Hec. simplify_eq. by rewrite Hst in Hsc.
  - intros x Hx%(has_status_upd st.1 _ p (set_status ENV_NEW e)); [|done].
    destruct Hx as [[-> Hs]|[Hxp Hs]]; [done|].
    destruct (ok_stray _ Hok x Hs) as [Hx|[Hx|Hx]]; [left; by right|by right; left|by right; right].
Qed.

Lemma run_env_ok id st : ok st.1 → wp (sched_run_env id) (λ _ st', ok st'.1) st.
Proof.
  intros Hok. pose proof (lock_locked _ Hok) as (Hwf & Hl & Hn). unfold sched_run_env.
  apply wp_bind, wp_acquire_qlock; [apply Hok|]. apply wp_bind, wp_sget, wp_bind.
  eapply wp_mono; [apply wp_find_env|]; cbn [fst snd].
  { intros x Hx. destruct (proj2 (wf_new _ Hwf) x Hx) as (ex & ? & _). eauto. }
  intros p st' [-> [[-> _]|(Hin & e & He & Hid)]].
  { rewrite decide_False by (intros Hx; by apply Hx). apply wp_bind, wp_release_qlock; [done|]. apply wp_ret.
    apply (unlock_ok (lock st.1)); [by split_and!|exact (ok_cur _ Hok)|exact (ok_stray _ Hok)]. }
  destruct (proj2 (wf_new _ Hwf) p Hin) as (e' & He' & Hst).
  change (envs st.1 !! p = Some e) in He. change (envs st.1 !! p = Some e') in He'.
  rewrite He in He'. injection He' as <-.
  rewrite decide_True by (by apply (status_nonnull st.1 p ENV_NEW (ok_wf _ Hok)); exists e).
  apply wp_bind, (wp_remove_new p e); [done..|]. intros Hwf1 Hnq1. cbn [fst snd].
  apply wp_bind. eapply (wp_insert_ready p (set_status ENV_UNKNOWN e)); cbn [fst snd];
    [done|done|apply lookup_insert_eq|done|done|].
  intros Hwf2. set (s2 := ready_inserted _ _ _) in *.
  assert (Hok2 : ok (unlock s2)).
  { apply unlock_ok; [split_and!; done| |].
    - destruct (ok_cur _ Hok) as [|Hc]; [by left|]. right.
      assert (cpu_proc st.1 ≠ p) as Hcp.
      { intros Hcp. destruct Hc as (ec & Hec & Hsc). rewrite Hcp in Hec. cbn in He. simplify_eq. by rewrite Hst in Hsc. }
      destruct Hc as (ec & Hec & Hsc). exists ec. cbn. by rewrite !lookup_insert_ne.
    - intros x (ex & Hex & Hsx). cbn in Hex. destruct (decide (x = p)) as [->|Hxp].
      + apply queued_inserted; [done|apply lookup_insert_eq|done].
      + rewrite !lookup_insert_ne in Hex by done. apply queued_ready_inserted, queued_new_removed; [|done].
        apply (ok_stray _ Hok). by exists ex. }
  apply wp_bind, wp_sget. case_decide as Hss.
  - apply wp_bind, wp_release_qlock; [done|].
    apply wp_fos_scheduler; [apply Hok2|apply (ok_lock _ Hok2)|]. cbn [fst snd].
    intros r st' Hd _. apply wp_ret. by eapply fos_dispatch_ok.
  - apply wp_bind, wp_release_qlock; [done|]. by apply wp_ret.
Qed.
End invariant.

(** ** Priorities *)
(** Moving a ready environment to another queue. *)
Definition moved (p : Z) (e : Env) (prio : Z) (s : sched_state) : sched_state :=
  set_ready (alter (cons p) (Z.to_nat prio) (alter (l_remove p) (Z.to_nat (priority e)) (env_ready_queues s)))
    (set_envs (<[p:=set_starv 0 (set_priority prio e)]> (envs s)) s).

Section priorities.
Context {E : Type} `{HS : SchedMem E} `{HL : !SchedMemLaws E}.
Notation ST := (sched_state * E)%type.
Implicit Types st : ST.
Implicit Types s : sched_state.
Notation wf := (sched_wf (E:=E)).
Notation ok := (sched_ok (E:=E)).

Lemma wp_envid2env p e Q st :
  wf st.1 → envs st.1 !! p = Some e → env_status e ≠ ENV_FREE → Q (Some p) st → wp (envid2env (env_id e)) Q st.
Proof.
  intros Hwf He Hf HQ. destruct (wf_env _ Hwf p e He Hf) as (_ & Hslot & Hid).
  unfold envid2env. rewrite decide_False by done. rewrite Hslot. apply wp_bind, (wp_get_env _ e); [done|].
  rewrite decide_False by naive_solver. by apply wp_ret.
Qed.
Lemma lock_unlock s : unlock (lock s) = set_qlock false s.
Proof. apply sched_state_eq; try reflexivity. cbn. lia. Qed.
Lemma set_status_id e x : env_status e = x → set_status x e = e.
Proof. destruct e. cbn. by intros ->. Qed.

(** [env_set_priority] of a ready environment. *)
Lemma wp_set_priority_ready p e prio Q st :
  wf st.1 → qlock st.1 = false → envs st.1 !! p = Some e → env_status e = ENV_READY → queued st.1 p →
  0 ≤ prio < num_of_ready_queues st.1 →
  (wf (moved p e prio st.1) → Q tt (moved p e prio st.1, st.2)) → wp (env_set_priority (env_id e) prio) Q st.
Proof.
  intros Hwf Hl He Hst Hqd Hp HQ. unfold env_set_priority.
  apply wp_bind, wp_acquire_qlock; [done|].
  assert (Hwf1 : wf (lock st.1)) by (by eapply wf_frame; [..|exact Hwf]).
  apply wp_bind, (wp_envid2env p e); [done|done|by rewrite Hst|].
  apply wp_bind, wp_sget. rewrite decide_False by (cbn; lia).
  apply wp_bind, (wp_get_env _ e); [done|]. rewrite decide_True by done.
  apply wp_bind, wp_bind, (wp_remove_ready p e); [done|done|done|done|by rewrite (queued_frame st.1)|].
  cbn [fst snd]. intros Hwf2 Hnq.
  apply wp_bind. eapply wp_upd_env; [apply lookup_insert_eq|].
  apply wp_bind. eapply wp_upd_env; [apply lookup_insert_eq|]. cbn [fst snd].
  set (s3 := set_envs _ _).
  assert (Hs3 : s3 = set_envs (<[p:=set_starv 0 (set_priority prio (set_status ENV_UNKNOWN e))]> (envs st.1))
                       (ready_removed p e (lock st.1))).
  { unfold s3. cbn. by rewrite !insert_insert_eq. }
  assert (Hwf3 : wf s3).
  { rewrite Hs3. apply (wf_frame (set_envs (<[p:=set_starv 0 (set_priority prio (set_status ENV_UNKNOWN e))]>
         (envs (ready_removed p e (lock st.1)))) (ready_removed p e (lock st.1)))); try done.
    { cbn. by rewrite insert_insert_eq. }
    apply (wf_upd _ p (set_status ENV_UNKNOWN e)); [done|apply lookup_insert_eq|by left|done|done|].
    intros _. exact Hp. }
  eapply (wp_insert_ready p (set_starv 0 (set_priority prio (set_status ENV_UNKNOWN e)))); cbn [fst snd];
    [done|done| |done| |].
  { rewrite Hs3. apply lookup_insert_eq. }
  { by rewrite (queued_frame (ready_removed p e (lock st.1))) by done. }
  intros Hwf4. apply wp_release_qlock; [done|]. cbn [fst snd].
  assert (Hfin : unlock (ready_inserted p (set_starv 0 (set_priority prio (set_status ENV_UNKNOWN e))) s3)
                 = moved p e prio st.1).
  { rewrite Hs3. apply sched_state_eq; try reflexivity; cbn.
    - rewrite !insert_insert_eq. by rewrite <- (set_status_id e ENV_READY) at 2.
    - by rewrite Hl.
    - lia. }
  rewrite Hfin. apply HQ. rewrite <- Hfin. by eapply wf_frame; [..|exact Hwf4].
Qed.
(** [env_set_priority] of another environment changes its priority only. *)
Lemma wp_set_priority_other p e prio Q st :
  wf st.1 → qlock st.1 = false → envs st.1 !! p = Some e → env_status e ≠ ENV_READY → env_status e ≠ ENV_FREE →
  0 ≤ prio < num_of_ready_queues st.1 →
  Q tt (set_envs (<[p:=set_priority prio e]> (envs st.1)) st.1, st.2) → wp (env_set_priority (env_id e) prio) Q st.
Proof.
  intros Hwf Hl He Hst Hf Hp HQ. unfold env_set_priority.
  apply wp_bind, wp_acquire_qlock; [done|].
  assert (Hwf1 : wf (lock st.1)) by (by eapply wf_frame; [..|exact Hwf]).
  apply wp_bind, (wp_envid2env p e); [done..|].
  apply wp_bind, wp_sget. rewrite decide_False by (cbn; lia).
  apply wp_bind, (wp_get_env _ e); [done|]. rewrite decide_False by done.
  apply wp_bind, (wp_upd_env _ _ e); [done|]. apply wp_release_qlock; [done|]. cbn [fst snd].
  enough (Heq : unlock (set_envs (<[p:=set_priority prio e]> (envs (lock st.1))) (lock st.1))
          = set_envs (<[p:=set_priority prio e]> (envs st.1)) st.1) by (by rewrite Heq).
  apply sched_state_eq; try reflexivity; cbn; [by rewrite Hl|lia].
Qed.

(** A new priority is refused with a panic, the old one kept, and so is an
    identifier that names no environment. *)
Lemma set_priority_rejected envID prio st p e :
  wf st.1 → qlock st.1 = false → envs st.1 !! p = Some e → env_status e ≠ ENV_FREE → env_id e = envID →
  prio < 0 ∨ num_of_ready_queues st.1 ≤ prio →
  env_set_priority envID prio st = Panic (set_qlock false st.1, st.2).
Proof.
  intros Hwf Hl He Hf <- Hp.
  assert (Hwf1 : wf (lock st.1)) by (by eapply wf_frame; [..|exact Hwf]).
  assert (H1 : acquire_qlock st = Ok tt (lock st.1, st.2)).
  { unfold acquire_qlock, sget, gets, sset, modify, assert_, mbind, M_bind. by rewrite Hl. }
  assert (H2 : envid2env (env_id e) (lock st.1, st.2) = Ok (Some p) (lock st.1, st.2)).
  { destruct (proj1 (wp_Ok _ _ _) (wp_envid2env p e (λ r x, r = Some p ∧ x = (lock st.1, st.2)) (lock st.1, st.2)
      Hwf1 He Hf (conj eq_refl eq_refl))) as (a & s' & ? & -> & ->). done. }
  unfold env_set_priority. rewrite (bind_Ok _ _ _ _ _ H1). cbn beta. rewrite (bind_Ok _ _ _ _ _ H2).
  unfold sget, gets. unfold mbind at 1, M_bind at 1. cbn [fst snd].
  rewrite decide_True by (cbn; lia). rewrite (bind_Ok _ _ _ tt (unlock (lock st.1), st.2)); [|done].
  by rewrite lock_unlock.
Qed.
End priorities.

(** ** Aging *)
(** An environment that has waited longer than the threshold and can move up. *)
Definition promoted (thr : Z) (e : Env) : bool :=
  bool_decide (w32 (starvcounteer e + 1) > thr ∧ 0 < priority e).
Definition aged (thr : Z) (e : Env) : Env :=
  if promoted thr e then set_starv 0 (set_priority (priority e - 1) e)
  else set_starv (w32 (starvcounteer e + 1)) e.
Definition prom (s : sched_state) (p : Z) : Prop :=
  match envs s !! p with Some e => promoted (starvThreshold s) e = true | None => False end.
#[global] Instance prom_dec s p : Decision (prom s p).
Proof. unfold prom. destruct (envs s !! p); apply _. Defined.
(** The ready queues while queue [k] is visited and [l1] of it has been. *)
Definition aging_queue (s : sched_state) (k : nat) (l1 l2 : list Z) (j : nat) (q : list Z) : list Z :=
  if decide (j = k) then filter (λ p, ¬ prom s p) l1 ++ l2
  else if decide (j < k)%nat then
    reverse (filter (prom s) (if decide (S j = k) then l1 else default [] (env_ready_queues s !! S j)))
      ++ filter (λ p, ¬ prom s p) q
  else q.
(** The environments visited by then. *)
Definition visited (s : sched_state) (k : nat) (l1 : list Z) (p : Z) : Prop :=
  p ∈ l1 ∨ ∃ j q, (j < k)%nat ∧ env_ready_queues s !! j = Some q ∧ p ∈ q.
(** Only the environments and the ready queues differ. *)
Notation queues_frame s s' :=
  (s' = set_ready (env_ready_queues s') (set_envs (envs s') s)) (only parsing).
Lemma queues_frame_refl s : queues_frame s s.
Proof. by apply sched_state_eq. Qed.
Lemma queues_frame_trans s s1 s2 : queues_frame s s1 → queues_frame s1 s2 → queues_frame s s2.
Proof.
  intros H1 H2. apply sched_state_eq; try reflexivity;
    match goal with |- ?f s2 = _ => transitivity (f s1); [exact (f_equal f H2)|exact (f_equal f H1)] end.
Qed.

Section aging.
Context {E : Type} `{HS : SchedMem E} `{HL : !SchedMemLaws E}.
Notation ST := (sched_state * E)%type.
Implicit Types st : ST.
Implicit Types s : sched_state.
Notation wf := (sched_wf (E:=E)).
Notation ok := (sched_ok (E:=E)).

(** The state in the middle of the walk. *)
Record aging (st : ST) (k : nat) (l1 l2 : list Z) (st' : ST) : Prop := {
  ag_wf : wf st'.1;
  ag_frame : queues_frame st.1 st'.1;
  ag_mem : st'.2 = st.2;
  ag_ready : ∀ j, env_ready_queues st'.1 !! j = aging_queue st.1 k l1 l2 j <$> env_ready_queues st.1 !! j;
  ag_visited : ∀ p, visited st.1 k l1 p → envs st'.1 !! p = aged (starvThreshold st.1) <$> envs st.1 !! p;
  ag_other : ∀ p, ¬ visited st.1 k l1 p → envs st'.1 !! p = envs st.1 !! p
}.

Lemma aging_start st : wf st.1 → ∀ q0, env_ready_queues st.1 !! 0%nat = Some q0 → aging st 0 [] q0 st.
Proof.
  intros Hwf q0 Hq0. constructor; try done.
  - apply queues_frame_refl.
  - intros j. unfold aging_queue. case_decide as Hj.
    + subst j. rewrite Hq0. cbn. done.
    + rewrite decide_False by lia. by destruct (env_ready_queues st.1 !! j).
  - intros p [Hp|(j & q & ? & _)]; [by apply not_elem_of_nil in Hp|lia].
Qed.

Lemma aging_next st k l1 st' q1 :
  env_ready_queues st.1 !! k = Some l1 → env_ready_queues st.1 !! S k = Some q1 →
  aging st k l1 [] st' → aging st (S k) [] q1 st'.
Proof.
  intros Hk Hk1 [Hwf Hfr Hm Hr Hv Ho]. constructor; try done.
  - intros j. rewrite Hr. destruct (env_ready_queues st.1 !! j) as [q|] eqn:Hj; [|done]. cbn. f_equal.
    unfold aging_queue. destruct (decide (j = k)) as [->|Hne].
    + rewrite (decide_False (P:=k = S k)), (decide_True (P:=(k < S k)%nat)),
        (decide_True (P:=S k = S k)) by lia.
      rewrite Hk in Hj. injection Hj as ->. by rewrite app_nil_r.
    + destruct (decide (j = S k)) as [->|Hne2].
      * rewrite (decide_False (P:=(S k < k)%nat)) by lia.
        rewrite Hk1 in Hj. injection Hj as ->. done.
      * destruct (decide (j < k)%nat) as [Hlt|Hlt].
        -- rewrite (decide_True (P:=(j < S k)%nat)), (decide_False (P:=S j = S k)) by lia.
           destruct (decide (S j = k)) as [<-|]; [|done]. by rewrite Hk.
        -- rewrite (decide_False (P:=(j < S k)%nat)) by lia. done.
  - intros p [Hp|(j & q & Hj & Hq & Hp)]; [by apply not_elem_of_nil in Hp|]. apply Hv.
    destruct (decide (j = k)) as [->|]; [left; rewrite Hk in Hq; by injection Hq as ->|].
    right. exists j, q. split; [lia|done].
  - intros p Hp. apply Ho. intros [Hin|(j & q & Hj & Hq & Hin)]; apply Hp; right.
    + exists k, l1. split; [lia|done].
    + exists j, q. split; [lia|done].
Qed.

Lemma aged_READY thr e : env_status (aged thr e) = env_status e ∧ env_id (aged thr e) = env_id e.
Proof. unfold aged. by destruct (promoted thr e). Qed.

Lemma aging_list_step (l1 l2 : list Z) (P : Z → Prop) `{!∀ x, Decision (P x)} p :
  p ∉ l1 → p ∉ l2 → l_remove p (filter P l1 ++ p :: l2) = filter P l1 ++ l2.
Proof.
  intros H1 H2. rewrite l_remove_app. rewrite l_remove_notin by (by intros [_ ?]%list_elem_of_filter).
  f_equal. unfold l_remove. rewrite filter_cons_False by naive_solver. by apply (l_remove_notin p l2).
Qed.

(** One environment of queue [k]. *)
Lemma age_env_step st k q l1 p l2 st' :
  wf st.1 → qlock st.1 = false → env_ready_queues st.1 !! k = Some q → q = l1 ++ p :: l2 →
  aging st k l1 (p :: l2) st' → wp (age_env p) (λ _ st'', aging st k (l1 ++ [p]) l2 st'') st'.
Proof.
  intros Hwf0 Hl Hk Hql [Hwf Hfr Hm Hr Hv Ho].
  assert (Hin : p ∈ q) by (subst q; set_solver).
  destruct (wf_ready _ Hwf0 k q Hk) as [Hnd Hall]. destruct (Hall p Hin) as (e & He & Hst & Hpr).
  assert (Hp1 : p ∉ l1 ∧ p ∉ l2).
  { subst q. apply NoDup_app in Hnd as (_ & Hd & Hnd2). apply NoDup_cons in Hnd2 as [Hn2 _].
    split; [|done]. intros Hx. apply (Hd p Hx). by left. }
  assert (Hnv : ¬ visited st.1 k l1 p).
  { intros [Hx|(j & qj & Hj & Hqj & Hx)]; [tauto|].
    assert (j = k) by (by eapply (ready_disjoint st.1)). lia. }
  assert (He' : envs st'.1 !! p = Some e) by (by rewrite Ho).
  set (thr := starvThreshold st.1) in *.
  assert (Hthr : starvThreshold st'.1 = thr) by (by rewrite Hfr).
  assert (Hl' : qlock st'.1 = false) by (rewrite Hfr; exact Hl).
  assert (Hnum : num_of_ready_queues st'.1 = num_of_ready_queues st.1) by (by rewrite Hfr).
  set (c := w32 (starvcounteer e + 1)).
  assert (Hqd' : queued st'.1 p).
  { right. right. exists k, (filter (λ x, ¬ prom st.1 x) l1 ++ p :: l2). rewrite Hr, Hk. cbn.
    unfold aging_queue. rewrite decide_True by done. split; [done|]. set_solver. }
  assert (Hvis : ∀ x, visited st.1 k (l1 ++ [p]) x ↔ x = p ∨ visited st.1 k l1 x).
  { intros x. unfold visited. rewrite elem_of_app, list_elem_of_singleton. tauto. }
  set (s1 := set_envs (<[p:=set_starv c e]> (envs st'.1)) st'.1).
  assert (Hwf1 : wf s1).
  { apply (wf_upd _ p e); [done|done|by right|done|done|]. intros _. cbn. rewrite Hnum.
    apply (wf_env _ Hwf0 p e He). by rewrite Hst. }
  (* the environments after the step *)
  assert (Henv : ∀ s2, envs s2 = <[p:=aged thr e]> (envs st'.1) →
     (∀ x, visited st.1 k (l1 ++ [p]) x → envs s2 !! x = aged thr <$> envs st.1 !! x) ∧
     (∀ x, ¬ visited st.1 k (l1 ++ [p]) x → envs s2 !! x = envs st.1 !! x)).
  { intros s2 ->. split; intros x; rewrite Hvis; intros Hx.
    - destruct (decide (x = p)) as [->|Hne]; [by rewrite lookup_insert_eq, He|].
      rewrite lookup_insert_ne by done. apply Hv. tauto.
    - rewrite lookup_insert_ne by naive_solver. apply Ho. tauto. }
  unfold age_env. apply wp_bind, (wp_upd_env _ _ e); [done|]. fold c. fold s1.
  apply wp_bind, (wp_get_env _ (set_starv c e)); [apply lookup_insert_eq|].
  apply wp_bind, wp_sget. cbn [fst snd]. change (starvThreshold s1) with (starvThreshold st'.1). rewrite Hthr.
  assert (Hprom : prom st.1 p ↔ promoted thr e = true) by (unfold prom; by rewrite He).
  destruct (promoted thr e) eqn:Hpe.
  - assert (c > thr ∧ 0 < priority e) as [Hc Hp0] by (by apply bool_decide_eq_true in Hpe).
    rewrite decide_True by (cbn; lia). rewrite decide_False by (cbn; lia).
    apply (wp_set_priority_ready p (set_starv c e)); [done|done|apply lookup_insert_eq|done| | |].
    { by rewrite (queued_frame st'.1). }
    { cbn. rewrite Hnum. destruct (wf_env _ Hwf0 p e He) as [? _]; [by rewrite Hst|lia]. }
    intros Hwf2. set (s2 := moved _ _ _ _) in *.
    assert (Henvs : envs s2 = <[p:=aged thr e]> (envs st'.1)).
    { unfold s2, moved, aged. rewrite Hpe. cbn. rewrite insert_insert_eq. by destruct e. }
    constructor; cbn [fst snd]; [done| |done| |by apply Henv|by apply Henv].
    + apply (queues_frame_trans _ st'.1); [done|]. by apply sched_state_eq.
    + intros j. unfold s2. cbn. destruct k as [|k]; [lia|].
      replace (Z.to_nat (priority e)) with (S k) by lia. replace (Z.to_nat (priority e - 1)) with k by lia.
      destruct (decide (j = k)) as [->|Hjk].
      { rewrite list_lookup_alter_eq, list_lookup_alter_ne by lia. rewrite Hr.
        destruct (env_ready_queues st.1 !! k) as [qk|]; [|done]. cbn. f_equal. unfold aging_queue.
        rewrite !(decide_False (P:=k = S k)) by lia. rewrite !(decide_True (P:=(k < S k)%nat)) by lia.
        rewrite !(decide_True (P:=S k = S k)) by lia.
        rewrite filter_app, filter_cons_True by (by apply Hprom). cbn. by rewrite reverse_app. }
      rewrite list_lookup_alter_ne by lia. destruct (decide (j = S k)) as [->|Hjk2].
      { rewrite list_lookup_alter_eq, Hr, Hk. cbn. f_equal. unfold aging_queue.
        rewrite !decide_True by done. rewrite aging_list_step by tauto.
        rewrite filter_app, filter_cons_False by (rewrite Hprom; naive_solver). cbn. by rewrite app_nil_r. }
      rewrite list_lookup_alter_ne by lia. rewrite Hr.
      destruct (env_ready_queues st.1 !! j) as [qj|]; [|done]. cbn. f_equal. unfold aging_queue.
      rewrite !(decide_False (P:=j = S k)) by lia. by rewrite !(decide_False (P:=S j = S k)) by lia.
  - assert (Hgo : wp (mret ()) (λ (_ : ()) st'', aging st k (l1 ++ [p]) l2 st'') (s1, st'.2)).
    { apply wp_ret. assert (Henvs : envs s1 = <[p:=aged thr e]> (envs st'.1)).
      { unfold s1, aged. rewrite Hpe. done. }
      constructor; cbn [fst snd]; [done| |done| |by apply Henv|by apply Henv].
      - apply (queues_frame_trans _ st'.1); [done|]. by apply sched_state_eq.
      - intros j. unfold s1. cbn. rewrite Hr.
        destruct (env_ready_queues st.1 !! j) as [qj|]; [|done]. cbn. f_equal. unfold aging_queue.
        destruct (decide (j = k)).
        { rewrite filter_app, filter_cons_True by (rewrite Hprom; naive_solver). by rewrite <- app_assoc. }
        destruct (decide (j < k)%nat), (decide (S j = k)); try done.
        rewrite filter_app, filter_cons_False by (rewrite Hprom; naive_solver). by rewrite app_nil_r. }
    apply bool_decide_eq_false in Hpe. destruct (decide (c > thr)) as [Hc|Hc].
    + rewrite decide_True by (cbn; lia). rewrite decide_True; [exact Hgo|]. cbn. unfold c in Hc. lia.
    + rewrite decide_False by (cbn; lia). exact Hgo.
Qed.

Lemma age_queue_step st k q st' :
  wf st.1 → qlock st.1 = false → env_ready_queues st.1 !! k = Some q →
  aging st k [] q st' → wp (age_queue (Z.of_nat k)) (λ _ st'', aging st k q [] st'') st'.
Proof.
  intros Hwf Hl Hk Hag. unfold age_queue.
  apply wp_bind, (wp_get_ready _ q); [lia| |].
  { rewrite Nat2Z.id, (ag_ready _ _ _ _ _ Hag), Hk. cbn. unfold aging_queue. by rewrite decide_True. }
  apply (wp_mfor (λ l2 st'', ∃ l1, q = l1 ++ l2 ∧ aging st k l1 l2 st'')).
  - by exists [].
  - intros p l2 st1 (l1 & Hq & Hag1). eapply wp_mono; [by eapply age_env_step|]. cbn.
    intros _ st2 Hag2. exists (l1 ++ [p]). by rewrite <- app_assoc.
  - intros st1 (l1 & Hq & Hag1). rewrite app_nil_r in Hq. by subst.
Qed.

Lemma age_ready_queues_spec st :
  wf st.1 → qlock st.1 = false →
  wp age_ready_queues (λ _ st', ∃ k q, S k = length (env_ready_queues st.1) ∧
       env_ready_queues st.1 !! k = Some q ∧ aging st k q [] st') st.
Proof.
  intros Hwf Hl. pose proof (wf_num _ Hwf) as [Hn1 Hn2]. unfold age_ready_queues.
  apply wp_bind, wp_sget. set (n := length (env_ready_queues st.1)) in *.
  apply (wp_mfor (λ js st', ∃ k, js = seqZ (Z.of_nat k) (Z.of_nat n - Z.of_nat k) ∧ (k ≤ n)%nat ∧
      match k with
      | O => st' = st
      | S k' => ∃ q, env_ready_queues st.1 !! k' = Some q ∧ aging st k' q [] st'
      end)).
  - exists 0%nat. split_and!; [f_equal; lia|lia|done].
  - intros j js st' (k & Hjs & Hkn & Hk).
    assert (k < n)%nat as Hlt.
    { destruct (decide (k = n)) as [->|]; [|lia]. rewrite Z.sub_diag in Hjs. discriminate. }
    rewrite seqZ_cons in Hjs by lia. injection Hjs as -> Hjs.
    destruct (lookup_lt_is_Some_2 (env_ready_queues st.1) k Hlt) as [q Hq].
    assert (Hag : aging st k [] q st').
    { destruct k as [|k]; [subst st'; by apply aging_start|].
      destruct Hk as (q' & Hq' & Hag). by eapply aging_next. }
    eapply wp_mono; [by apply (age_queue_step st k q)|]. cbn. intros _ st2 Hag2.
    exists (S k). split_and!; [rewrite Hjs; f_equal; lia|lia|by exists q].
  - intros st' (k & Hjs & Hkn & Hk).
    assert (k = n) as ->.
    { destruct (decide (k = n)) as [->|]; [done|]. rewrite seqZ_cons in Hjs by lia. discriminate. }
    destruct n as [|n']; [lia|]. destruct Hk as (q & Hq & Hag). by exists n', q.
Qed.
End aging.

(** ** The clock *)
(** What one tick does to the time stamp of a working-set page. *)
Definition lru_tick (used : bool) (t : Z) : Z :=
  if used then Z.lor (Z.shiftr t 1) (Z.shiftl 1 31) else Z.shiftr t 1.
Definition page_used {E} `{SchedMem E} (d va : Z) (m : E) : bool :=
  bool_decide (Z.land (pt_get_page_permissions d va m) PERM_USED ≠ 0).
Definition lru_elem {E} `{SchedMem E} (d : Z) (m : E) (w : WorkingSetElement) : WorkingSetElement :=
  WSE (ws_va w) (lru_tick (page_used d (ws_va w) m) (time_stamp w)).
Definition page_no (w : WorkingSetElement) : Z := ws_va w `div` PAGE_SIZE.

Section ws.
Context {E : Type} `{HS : SchedMem E} `{HL : !SchedMemLaws E}.
Notation ST := (sched_state * E)%type.
Implicit Types st : ST.

Lemma lookup_mid {A} (l1 : list A) x l2 : (l1 ++ x :: l2) !! length l1 = Some x.
Proof. by rewrite lookup_app_r, Nat.sub_diag by lia. Qed.

Lemma update_WS_spec st e :
  cpu_proc st.1 ≠ NULL → envs st.1 !! cpu_proc st.1 = Some e → NoDup (map page_no (page_WS_list e)) →
  wp update_WS_time_stamps (λ _ st',
    st'.1 = set_envs (<[cpu_proc st.1 := set_WS (map (lru_elem (env_page_directory e) st.2) (page_WS_list e)) e]>
              (envs st.1)) st.1 ∧
    ∀ w, w ∈ page_WS_list e → page_used (env_page_directory e) (ws_va w) st'.2 = false) st.
Proof.
  intros Hne He Hnd. set (d := env_page_directory e). set (W := page_WS_list e) in *.
  unfold update_WS_time_stamps. apply wp_bind, wp_sget. rewrite decide_False by done.
  apply wp_bind, (wp_get_env _ e); [done|]. fold W.
  apply (wp_mfor (λ js st', ∃ W1 W2, W = W1 ++ W2 ∧ js = seqZ (Z.of_nat (length W1)) (Z.of_nat (length W2)) ∧
      st'.1 = set_envs (<[cpu_proc st.1 := set_WS (map (lru_elem d st.2) W1 ++ W2) e]> (envs st.1)) st.1 ∧
      (∀ w, w ∈ W1 → page_used d (ws_va w) st'.2 = false) ∧
      (∀ w, w ∈ W2 → pt_get_page_permissions d (ws_va w) st'.2 = pt_get_page_permissions d (ws_va w) st.2))).
  - exists [], W. split_and!; [done|done| | |done].
    + cbn. rewrite insert_id; [by destruct st as [[] ?]|]. rewrite He. by destruct e.
    + intros w Hw. by apply not_elem_of_nil in Hw.
  - intros k js st' (W1 & W2 & HW & Hjs & Hst & Hcl & Hsame).
    destruct W2 as [|w W2]; [discriminate|].
    replace (Z.of_nat (length (w :: W2))) with (Z.succ (Z.of_nat (length W2))) in Hjs by (cbn; lia).
    rewrite seqZ_cons in Hjs by lia. injection Hjs as -> Hjs. rewrite Z.pred_succ in Hjs.
    set (e1 := set_WS (map (lru_elem d st.2) W1 ++ w :: W2) e) in *.
    assert (He1 : envs st'.1 !! cpu_proc st.1 = Some e1) by (rewrite Hst; apply lookup_insert_eq).
    apply wp_bind, (wp_get_env _ e1); [done|].
    rewrite Nat2Z.id. apply wp_bind. eapply wp_unwrap.
    { cbn [e1 page_WS_list set_WS]. rewrite <- (length_map (lru_elem d st.2) W1). apply lookup_mid. }
    apply wp_bind, wp_gets, wp_bind, (wp_upd_env _ _ e1); [done|].
    change (env_page_directory e1) with d.
    destruct (pt_set_ok d (ws_va w) 0 PERM_USED st'.2) as [m Hm].
    unfold smem, wp, zoom. cbn [fst snd]. rewrite Hm.
    assert (Hpg : ∀ w', w' ∈ W1 ++ W2 → ws_va w' `div` PAGE_SIZE ≠ ws_va w `div` PAGE_SIZE).
    { intros w' Hw' Heq. rewrite HW, map_app in Hnd. cbn in Hnd.
      rewrite <- Permutation_middle in Hnd. apply NoDup_cons in Hnd as [Hni _]. apply Hni.
      rewrite <- map_app. apply list_elem_of_fmap. exists w'. split; [|done]. by unfold page_no. }
    exists (W1 ++ [w]), W2. split_and!.
    + by rewrite HW, <- app_assoc.
    + rewrite Hjs, length_app. f_equal; cbn; lia.
    + cbn [fst snd]. rewrite Hst. cbn. rewrite insert_insert_eq. 
      match goal with |- context [set_WS ?Y e1] => change (set_WS Y e1) with (set_WS Y e) end.
      unfold set_envs. cbn. repeat f_equal.
      rewrite map_app. cbn. rewrite insert_app_r_alt by (rewrite length_map; lia).
      rewrite length_map, Nat.sub_diag. cbn. rewrite <- app_assoc. cbn. do 2 f_equal.
      unfold lru_elem, lru_tick, page_used. rewrite Hsame by (by left).
      case_bool_decide as Hu; destruct (decide _) as [Hv|Hv]; try done; contradiction.
    + cbn [snd]. intros w' [Hw'| ->%list_elem_of_singleton]%elem_of_app.
      * unfold page_used. erewrite pt_set_other; [by apply Hcl|exact Hm|]. apply Hpg. set_solver.
      * unfold page_used. apply bool_decide_eq_false. intros Hx. apply Hx. by eapply pt_set_clears.
    + cbn [snd]. intros w' Hw'. erewrite pt_set_other; [apply Hsame; by right|exact Hm|]. apply Hpg. set_solver.
  - intros st' (W1 & W2 & HW & Hjs & Hst & Hcl & _). destruct W2 as [|w W2].
    + rewrite app_nil_r in *. subst. done.
    + replace (Z.of_nat (length (w :: W2))) with (Z.succ (Z.of_nat (length W2))) in Hjs by (cbn; lia).
      rewrite seqZ_cons in Hjs by lia. discriminate.
Qed.
End ws.

(** The ready queues after the clock has aged them. *)
Definition aged_queue (s : sched_state) (j : nat) (q : list Z) : list Z :=
  reverse (filter (prom s) (default [] (env_ready_queues s !! S j))) ++ filter (λ p, ¬ prom s p) q.
Definition in_ready (s : sched_state) (p : Z) : Prop := ∃ i q, env_ready_queues s !! i = Some q ∧ p ∈ q.

Section clock.
Context {E : Type} `{HS : SchedMem E} `{HL : !SchedMemLaws E}.
Notation ST := (sched_state * E)%type.
Implicit Types st : ST.
Implicit Types s : sched_state.
Notation wf := (sched_wf (E:=E)).
Notation ok := (sched_ok (E:=E)).

(** What the aging loop leaves. *)
Record aged_state (s s' : sched_state) : Prop := {
  as_wf : wf s';
  as_frame : queues_frame s s';
  as_ready : ∀ j, env_ready_queues s' !! j = aged_queue s j <$> env_ready_queues s !! j;
  as_visited : ∀ p, in_ready s p → envs s' !! p = aged (starvThreshold s) <$> envs s !! p;
  as_other : ∀ p, ¬ in_ready s p → envs s' !! p = envs s !! p
}.

Lemma age_ready_queues_aged st :
  wf st.1 → qlock st.1 = false →
  wp age_ready_queues (λ _ st', aged_state st.1 st'.1 ∧ st'.2 = st.2) st.
Proof.
  intros Hwf Hl. eapply wp_mono; [by apply age_ready_queues_spec|]. cbn.
  intros _ st' (k & q & Hk & Hq & [Hwf' Hfr Hm Hr Hv Ho]). split; [|done].
  assert (Hvis : ∀ p, visited st.1 k q p ↔ in_ready st.1 p).
  { intros p. split.
    - intros [Hin|(j & qj & _ & ? & ?)]; [by exists k, q|by exists j, qj].
    - intros (j & qj & Hj & Hin). destruct (decide (j = k)) as [->|].
      + left. rewrite Hq in Hj. by injection Hj as ->.
      + right. exists j, qj. split; [|done]. apply lookup_lt_Some in Hj. lia. }
  constructor; try done.
  - intros j. rewrite Hr. destruct (env_ready_queues st.1 !! j) as [qj|] eqn:Hj; [|done]. cbn. f_equal.
    unfold aging_queue, aged_queue. destruct (decide (j = k)) as [->|Hne].
    + rewrite Hq in Hj. injection Hj as <-. rewrite app_nil_r.
      rewrite (lookup_ge_None_2 _ (S k)) by lia. cbn. done.
    + apply lookup_lt_Some in Hj as Hlt. rewrite decide_True by lia.
      destruct (decide (S j = k)) as [<-|]; [|done]. by rewrite Hq.
  - intros p Hp. apply Hv. by apply Hvis.
  - intros p Hp. apply Ho. by rewrite Hvis.
Qed.

Lemma aged_in_ready s s' p : wf s → aged_state s s' → in_ready s p ↔ in_ready s' p.
Proof.
  intros Hwf [Hwf' Hfr Hr Hv Ho]. split.
  - intros (i & q & Hi & Hp). destruct (decide (prom s p)) as [Hpp|Hpp].
    + assert (Hpi : (0 < i)%nat).
      { destruct (wf_ready _ Hwf i q Hi) as [_ Hall]. destruct (Hall p Hp) as (e & He & _ & Hpr).
        unfold prom in Hpp. rewrite He in Hpp. apply bool_decide_eq_true in Hpp. lia. }
      destruct i as [|i]; [lia|].
      destruct (lookup_lt_is_Some_2 (env_ready_queues s) i) as [q0 Hq0]; [apply lookup_lt_Some in Hi; lia|].
      exists i, (aged_queue s i q0). rewrite Hr, Hq0. split; [done|]. unfold aged_queue. rewrite Hi.
      apply elem_of_app. left. rewrite elem_of_reverse. by apply list_elem_of_filter.
    + exists i, (aged_queue s i q). rewrite Hr, Hi. split; [done|].
      unfold aged_queue. apply elem_of_app. right. by apply list_elem_of_filter.
  - intros (i & q & Hi & Hp). rewrite Hr in Hi.
    destruct (env_ready_queues s !! i) as [q0|] eqn:Hq0; [|done]. injection Hi as <-.
    unfold aged_queue in Hp. apply elem_of_app in Hp as [Hp|Hp].
    + rewrite elem_of_reverse in Hp. apply list_elem_of_filter in Hp as [_ Hp].
      destruct (env_ready_queues s !! S i) as [q1|] eqn:Hq1; [by exists (S i), q1|by apply not_elem_of_nil in Hp].
    + apply list_elem_of_filter in Hp as [_ Hp]. by exists i, q0.
Qed.

Lemma aged_queued s s' p : wf s → aged_state s s' → queued s p ↔ queued s' p.
Proof.
  intros Hwf Has. pose proof (aged_in_ready s s' p Hwf Has) as Hr. unfold queued.
  assert (H1 : env_new_queue s' = env_new_queue s) by (by rewrite (as_frame _ _ Has)).
  assert (H2 : env_exit_queue s' = env_exit_queue s) by (by rewrite (as_frame _ _ Has)).
  rewrite H1, H2. unfold in_ready in Hr. tauto.
Qed.
Lemma aged_ok s s' : ok s → aged_state s s' → ok s'.
Proof.
  intros Hok Has. pose proof (ok_wf _ Hok) as Hwf. pose proof (as_frame _ _ Has) as Hfr.
  assert (Hst : ∀ p x, has_status s' p x ↔ has_status s p x).
  { intros p x. unfold has_status. destruct (envs s !! p) as [e|] eqn:He.
    - assert (He' : ∃ e', envs s' !! p = Some e' ∧ env_status e' = env_status e).
      { assert (Hdec : in_ready s p ∨ ¬ in_ready s p).
        { destruct (decide (Exists (λ q, p ∈ q) (env_ready_queues s))) as [Hx|Hx].
          - left. apply Exists_exists in Hx as (q & Hq & Hp). apply list_elem_of_lookup in Hq as [i Hi]. by exists i, q.
          - right. intros (i & q & Hi & Hp). apply Hx, Exists_exists. exists q.
            split; [by apply list_elem_of_lookup_2 in Hi|done]. }
        destruct Hdec as [Hd|Hd].
        - rewrite (as_visited _ _ Has) by done. rewrite He. eexists. split; [done|]. apply aged_READY.
        - rewrite (as_other _ _ Has) by done. by exists e. }
      destruct He' as (e' & -> & Heq). split; intros (y & [= <-] & <-); eauto.
    - assert (Hn : envs s' !! p = None).
      { destruct (envs s' !! p) as [e'|] eqn:He'; [|done].
        assert (Hnr : ¬ in_ready s p).
        { intros (i & q & Hi & Hp). destruct (wf_ready _ Hwf i q Hi) as [_ Hall].
          destruct (Hall p Hp) as (? & Hx & _). rewrite He in Hx. discriminate. }
        rewrite (as_other _ _ Has) in He' by done. congruence. }
      rewrite Hn. naive_solver. }
  constructor.
  - apply Has.
  - rewrite Hfr. apply (ok_lock _ Hok).
  - destruct (ok_cur _ Hok) as [Hc|Hc]; [left; by rewrite Hfr|right]. rewrite Hfr. cbn. rewrite <- Hst in Hc.
    exact Hc.
  - intros p Hp. apply Hst in Hp. rewrite <- aged_queued by done. by apply (ok_stray _ Hok).
Qed.

Lemma ok_frame s s' :
  envs s' = envs s → env_new_queue s' = env_new_queue s → env_exit_queue s' = env_exit_queue s →
  env_ready_queues s' = env_ready_queues s → num_of_ready_queues s' = num_of_ready_queues s →
  quantums s' = quantums s → scheduler_method s' = scheduler_method s → qlock s' = qlock s →
  ncli s' = ncli s → cpu_proc s' = cpu_proc s → ok s → ok s'.
Proof.
  intros H1 H2 H3 H4 H5 H6 H7 H8 H9 H10 [Hwf Hl Hc Hs]. constructor.
  - by apply (wf_frame s).
  - by rewrite H8, H9.
  - unfold has_status. by rewrite H1, H10.
  - intros p Hp. rewrite (queued_frame s) by done. apply Hs. unfold has_status in *. by rewrite H1 in Hp.
Qed.
(** The environment on the CPU may change in what the queues do not rely on. *)
Lemma ok_cur_upd s ec ec' :
  ok s → cpu_proc s ≠ NULL → envs s !! cpu_proc s = Some ec →
  env_id ec' = env_id ec → env_status ec' = env_status ec → 0 ≤ priority ec' < num_of_ready_queues s →
  ok (set_envs (<[cpu_proc s := ec']> (envs s)) s).
Proof.
  intros Hok Hne He Hid Hs Hpr. destruct (ok_cur _ Hok) as [|Hrun]; [done|].
  pose proof (running_not_queued _ _ (ok_wf _ Hok) Hrun) as Hnq.
  destruct Hrun as (e & He' & Hsr). rewrite He in He'. injection He' as <-.
  set (s2 := set_envs _ s).
  assert (Hst : ∀ p x, has_status s2 p x ↔ has_status s p x).
  { intros p x. rewrite (has_status_upd s s2 (cpu_proc s) ec') by done. rewrite Hs.
    destruct (decide (p = cpu_proc s)) as [->|Hn].
    - unfold has_status at 2. rewrite He. naive_solver.
    - naive_solver. }
  constructor.
  - apply (wf_upd _ _ ec); [apply Hok|done|by left|done| |done]. by rewrite Hs.
  - apply (ok_lock _ Hok).
  - right. apply Hst. by exists ec.
  - intros p Hp. rewrite (queued_frame s) by done. apply (ok_stray _ Hok). by apply Hst.
Qed.

Lemma update_WS_returns st e :
  cpu_proc st.1 ≠ NULL → envs st.1 !! cpu_proc st.1 = Some e →
  wp update_WS_time_stamps (λ _ st', ∃ W, st'.1 = set_envs (<[cpu_proc st.1 := set_WS W e]> (envs st.1)) st.1) st.
Proof.
  intros Hne He. unfold update_WS_time_stamps. apply wp_bind, wp_sget. rewrite decide_False by done.
  apply wp_bind, (wp_get_env _ e); [done|].
  apply (wp_mfor (λ js st', (∀ j, j ∈ js → 0 ≤ j < Z.of_nat (length (page_WS_list e))) ∧
     ∃ W, length W = length (page_WS_list e) ∧
       st'.1 = set_envs (<[cpu_proc st.1 := set_WS W e]> (envs st.1)) st.1)).
  - split; [intros j Hj%elem_of_seqZ; lia|]. exists (page_WS_list e). split; [done|].
    rewrite insert_id; [by destruct st as [[] ?]|]. rewrite He. by destruct e.
  - intros k js st' (Hjs & W & HW & Hst).
    assert (He1 : envs st'.1 !! cpu_proc st.1 = Some (set_WS W e)) by (rewrite Hst; apply lookup_insert_eq).
    apply wp_bind, (wp_get_env _ (set_WS W e)); [done|].
    destruct (lookup_lt_is_Some_2 W (Z.to_nat k)) as [w Hw]; [pose proof (Hjs k ltac:(by left)); lia|].
    apply wp_bind. eapply wp_unwrap; [exact Hw|].
    apply wp_bind, wp_gets, wp_bind, (wp_upd_env _ _ (set_WS W e)); [done|].
    match goal with |- wp (smem (pt_set_page_permissions ?d ?va 0 PERM_USED)) _ _ =>
      destruct (pt_set_ok d va 0 PERM_USED st'.2) as [m Hm] end.
    unfold smem, wp, zoom. cbn [fst snd]. rewrite Hm. split; [intros j Hj; apply Hjs; by right|].
    eexists. split; [|cbn [fst]; rewrite Hst; cbn; rewrite insert_insert_eq; done].
    by rewrite length_insert.
  - intros st' (_ & W & _ & Hst). by exists W.
Qed.

(** A tick: [sa] is the state after aging, [s1] what the scheduler sees. *)
Definition tick_post (s s' : sched_state) (r : switch) : Prop :=
  ∃ sa s1 ec, (if decide (scheduler_method s = SCH_PRIRR) then aged_state s sa else sa = s) ∧
    envs s !! cpu_proc s = Some ec ∧
    (∃ ec', envs s1 = <[cpu_proc s := ec']> (envs sa) ∧ env_status ec' = ENV_READY ∧ env_id ec' = env_id ec ∧
            priority ec' = priority ec ∧ starvcounteer ec' = starvcounteer ec) ∧
    env_ready_queues s1 = env_ready_queues sa ∧ cpu_proc s1 = cpu_proc s ∧
    num_of_ready_queues s1 = num_of_ready_queues s ∧ scheduler_method s1 = scheduler_method s ∧
    starvThreshold s1 = starvThreshold s ∧ ticks s1 = i64 (ticks s + 1) ∧
    wf s1 ∧ cur_ready s1 ∧ dispatched s1 s' r.
Lemma clock_spec st :
  ok st.1 → cpu_proc st.1 ≠ NULL →
  wp clock_interrupt_handler (λ r st', ok st'.1 ∧ ∃ r', r = Some r' ∧ tick_post st.1 st'.1 r') st.
Proof.
  intros Hok Hne. destruct (ok_cur _ Hok) as [|Hrun]; [done|].
  pose proof (running_not_queued _ _ (ok_wf _ Hok) Hrun) as Hnq.
  destruct Hrun as (ec & Hec & Hsr). unfold clock_interrupt_handler.
  apply wp_bind. unfold isSchedMethodPRIRR. apply wp_bind, wp_sget, wp_ret.
  (* aging *)
  assert (Hage : wp (when (bool_decide (scheduler_method st.1 = SCH_PRIRR)) age_ready_queues)
     (λ _ st', ok st'.1 ∧ (if decide (scheduler_method st.1 = SCH_PRIRR) then aged_state st.1 st'.1 else st'.1 = st.1)) st).
  { apply wp_when; intros Hb.
    - apply bool_decide_eq_true in Hb. eapply wp_mono; [apply age_ready_queues_aged; apply Hok|]. cbn.
      intros _ st' [Ha _]. split; [by eapply aged_ok|]. by rewrite decide_True.
    - apply bool_decide_eq_false in Hb. split; [done|]. by rewrite decide_False. }
  apply wp_bind. eapply wp_mono; [exact Hage|]. cbn. intros _ sta [Hoka Ha].
  assert (Hsa : envs sta.1 !! cpu_proc st.1 = Some ec ∧ queues_frame st.1 sta.1).
  { case_decide.
    - split; [|apply Ha]. rewrite (as_other _ _ Ha); [done|]. intros Hx. apply Hnq. right. by right.
    - rewrite Ha. split; [done|]. apply queues_frame_refl. }
  destruct Hsa as [Heca Hfra].
  assert (Hcp : cpu_proc sta.1 = cpu_proc st.1) by (by rewrite Hfra).
  apply wp_bind, wp_sset, wp_bind, wp_sget. cbn [fst snd].
  change (cpu_proc (set_ticks _ sta.1)) with (cpu_proc sta.1). rewrite Hcp, decide_False by done.
  apply wp_bind, (wp_upd_env _ _ ec); [done|]. cbn [fst snd].
  set (s2 := set_envs _ _).
  assert (Hok2 : ok s2).
  { apply (ok_frame (set_envs (<[cpu_proc sta.1:=set_nClocks (w32 (nClocks ec + 1)) ec]> (envs sta.1)) sta.1));
      try done; [by unfold s2; rewrite Hcp|].
    apply (ok_cur_upd _ ec); [done|by rewrite Hcp|by rewrite Hcp|done|done|]. cbn.
    apply (wf_env _ (ok_wf _ Hoka) _ ec Heca). by rewrite Hsr. }
  assert (He2 : envs s2 !! cpu_proc s2 = Some (set_nClocks (w32 (nClocks ec + 1)) ec)).
  { unfold s2. cbn. rewrite Hcp. apply lookup_insert_eq. }
  assert (Hcp2 : cpu_proc s2 = cpu_proc st.1) by (unfold s2; cbn; exact Hcp).
  apply wp_bind, wp_gets.
  (* the time stamps *)
  assert (Hws : wp (when (lru_time_approx sta.2) update_WS_time_stamps)
    (λ _ st', ∃ W, st'.1 = set_envs (<[cpu_proc st.1 := set_WS W (set_nClocks (w32 (nClocks ec + 1)) ec)]> (envs s2)) s2)
    (s2, sta.2)).
  { apply wp_when; intros _.
    - eapply wp_mono; [apply (update_WS_returns (s2, sta.2) (set_nClocks (w32 (nClocks ec + 1)) ec));
        cbn [fst]; [by rewrite Hcp2|done]|]. cbn [fst snd]. by rewrite Hcp2.
    - exists (page_WS_list ec). cbn [fst]. unfold s2 at 3. cbn.
      unfold s2, set_envs. cbn. rewrite insert_insert_eq. by destruct ec. }
  apply wp_bind. eapply wp_mono; [exact Hws|]. cbn [fst snd]. intros _ st3 [W Hst3].
  set (ec3 := set_WS W (set_nClocks (w32 (nClocks ec + 1)) ec)) in *.
  assert (Hok3 : ok st3.1).
  { rewrite Hst3, <- Hcp2.
    apply (ok_cur_upd s2 (set_nClocks (w32 (nClocks ec + 1)) ec) ec3 Hok2); [by rewrite Hcp2|done|done|done|].
    cbn. apply (wf_env _ (ok_wf _ Hok2) _ _ He2). cbn. by rewrite Hsr. }
  assert (Hcp3 : cpu_proc st3.1 = cpu_proc st.1) by (rewrite Hst3; exact Hcp2).
  destruct (yield_spec st3 Hok3) as (ey & Hey & Hwfy & Hcy & Hy); [by rewrite Hcp3|].
  assert (ey = ec3) as ->.
  { rewrite Hcp3, Hst3 in Hey. cbn in Hey. rewrite lookup_insert_eq in Hey. by injection Hey as <-. }
  set (s1 := set_clock None _) in *.
  pose proof (yield_ok st3 Hok3 ltac:(by rewrite Hcp3)) as Hyok.
  apply wp_bind. unfold wp in Hy, Hyok |- *. destruct (yield st3) as [r st'| | |]; try done.
  split; [exact Hyok|]. exists r. split; [done|]. destruct Hy as [Hd _].
  exists sta.1, s1, ec. split_and!; [done|done| | | | | | | |done|done|done].
  - exists (set_status ENV_READY ec3). split_and!; try done. unfold s1. cbn. rewrite Hcp3, Hst3. cbn.
    unfold s2. cbn. by rewrite !insert_insert_eq.
  - unfold s1. cbn. by rewrite Hst3.
  - exact Hcp3.
  - unfold s1. cbn. rewrite Hst3. unfold s2. cbn. by rewrite Hfra.
  - unfold s1. cbn. rewrite Hst3. unfold s2. cbn. by rewrite Hfra.
  - unfold s1. cbn. rewrite Hst3. unfold s2. cbn. by rewrite Hfra.
  - unfold s1. cbn. rewrite Hst3. unfold s2. cbn. by rewrite Hfra.
Qed.
End clock.
