(* ===== verification/SchedOps.v ===== *)
(** * The scheduler's operations, and what they promise

    Starting, exiting and moving environments, the invariant as a property of
    every history of operations, the choices of the schedulers, and progress. *)

From S2P Require Import Prelude Queue Sched SchedSpec.

Section ops.
Context {E : Type} `{HS : SchedMem E} `{HL : !SchedMemLaws E}.
Notation ST := (sched_state * E)%type.
Implicit Types st : ST.
Implicit Types s : sched_state.
Notation wf := (sched_wf (E:=E)).
Notation ok := (sched_ok (E:=E)).

(** *** Running all the new environments *)
Definition has_prio (s : sched_state) (j : nat) (p : Z) : Prop := priority <$> envs s !! p = Some (Z.of_nat j).
#[local] Instance has_prio_dec s j p : Decision (has_prio s j p).
Proof. unfold has_prio. apply _. Defined.
(** The state once the environments of [l] have been moved from the NEW queue
    to the ready queues. *)
Record moved_new (l : list Z) (s s' : sched_state) : Prop := {
  mn_frame : s' = set_new [] (set_ready (env_ready_queues s') (set_envs (envs s') s));
  mn_ready : ∀ j, env_ready_queues s' !! j = (λ q, filter (has_prio s j) l ++ q) <$> env_ready_queues s !! j;
  mn_in : ∀ p, p ∈ l → envs s' !! p = set_status ENV_READY <$> envs s !! p;
  mn_out : ∀ p, p ∉ l → envs s' !! p = envs s !! p
}.

Lemma run_all_loop_spec l st :
  wf st.1 → qlock st.1 = true → env_new_queue st.1 = l →
  wp (run_all_loop (length l)) (λ _ st', wf st'.1 ∧ moved_new l st.1 st'.1 ∧ st'.2 = st.2) st.
Proof.
  revert st. induction l as [|p l IH] using rev_ind; intros st Hwf Hl Hnew.
  - apply wp_ret. split_and!; [done| |done]. constructor.
    + destruct st as [s m], s. cbn in *. by subst.
    + intros j. by destruct (env_ready_queues st.1 !! j).
    + intros p Hp. by apply not_elem_of_nil in Hp.
    + done.
  - rewrite length_app, Nat.add_comm. cbn [length Nat.add run_all_loop].
    destruct (wf_new _ Hwf) as [Hnd Hall]. rewrite Hnew in Hnd, Hall.
    destruct (Hall p) as (e & He & Hst); [set_solver|].
    pose proof Hnd as Hnd0. apply NoDup_app in Hnd as (Hnd & Hd & _).
    assert (Hpl : p ∉ l) by (intros Hp; by apply (Hd p Hp), list_elem_of_singleton).
    apply wp_bind, wp_sget, wp_bind. rewrite Hnew. apply wp_dequeue_snoc; [done|]. cbn [fst snd].
    apply wp_bind, wp_sset.
    assert (Hwf1 : wf (set_new l st.1)).
    { apply wf_set_new; [done|done|]. intros x Hx. left. rewrite Hnew. set_solver. }
    assert (Hnq : ¬ queued (set_new l st.1) p).
    { intros [Hx|[Hx|(i & q & Hi & Hx)]]; [done| |]; cbn in *.
      - destruct (proj2 (wf_exit _ Hwf) p Hx) as (e' & ? & ?). simplify_eq. by rewrite Hst in *.
      - destruct (proj2 (wf_ready _ Hwf _ _ Hi) p Hx) as (e' & ? & Hs & _). simplify_eq. by rewrite Hst in *. }
    apply wp_bind, (wp_insert_ready p e); [done|done|done|by rewrite Hst|done|]. cbn [fst snd]. intros Hwf2.
    eapply wp_mono; [apply IH; done|]. cbn [fst snd]. intros _ st' (Hwf' & [Hfr Hr Hin Hout] & Hm).
    split_and!; [done| |done].
    destruct (queue_of _ p e Hwf He) as (qp & Hqp & Hpp); [by rewrite Hst|].
    assert (Hprio : ∀ x j, has_prio (ready_inserted p e (set_new l st.1)) j x ↔ has_prio st.1 j x).
    { intros x j. unfold has_prio. cbn. destruct (decide (x = p)) as [->|]; [|by rewrite lookup_insert_ne].
      by rewrite lookup_insert_eq, He. }
    constructor.
    + rewrite Hfr. cbn. destruct st as [s m], s. done.
    + intros j. rewrite Hr. cbn. rewrite (filter_ext_in _ (has_prio st.1 j) l) by (intros x _; apply Hprio).
      rewrite filter_app. destruct (decide (j = Z.to_nat (priority e))) as [->|Hne].
      * rewrite list_lookup_alter_eq, Hqp. cbn -[filter]. rewrite filter_cons_True.
        2:{ unfold has_prio. rewrite He. cbn. f_equal. lia. }
        cbn. by rewrite <- app_assoc.
      * rewrite list_lookup_alter_ne by done. destruct (env_ready_queues st.1 !! j) as [qj|]; [cbn -[filter]|done].
        rewrite (filter_cons_False (has_prio st.1 j) p).
        2:{ unfold has_prio. rewrite He. cbn. intros [= Hx]. lia. }
        cbn. by rewrite app_nil_r.
    + intros x [Hx| ->%list_elem_of_singleton]%elem_of_app.
      * rewrite Hin by done. cbn. rewrite lookup_insert_ne; [done|]. intros <-. done.
      * rewrite Hout by done. cbn. by rewrite lookup_insert_eq, He.
    + intros x Hx. rewrite Hout by set_solver. cbn. rewrite lookup_insert_ne; [done|]. intros <-. set_solver.
Qed.

Lemma moved_new_ok l s s' :
  ok s → env_new_queue s = l → wf s' → moved_new l s s' → ok s'.
Proof.
  intros Hok Hnew Hwf' [Hfr Hr Hin Hout]. constructor; [done| | |].
  - rewrite Hfr. apply (ok_lock _ Hok).
  - destruct (ok_cur _ Hok) as [Hc|Hc]; [left; by rewrite Hfr|right].
    assert (Hcp : cpu_proc s' = cpu_proc s) by (by rewrite Hfr). rewrite Hcp.
    unfold has_status. rewrite Hout; [exact Hc|]. intros Hx.
    rewrite <- Hnew in Hx. apply (running_not_queued _ _ (ok_wf _ Hok) Hc). by left.
  - intros p (e & He & Hst). destruct (decide (p ∈ l)) as [Hp|Hp].
    + rewrite Hin in He by done. destruct (envs s !! p) as [e0|] eqn:He0; [|done]. injection He as <-.
      rewrite <- Hnew in Hp. destruct (proj2 (wf_new _ (ok_wf _ Hok)) p Hp) as (e1 & He1 & Hs1). rewrite He0 in He1.
      injection He1 as <-. destruct (queue_of _ p e0 (ok_wf _ Hok) He0) as (q & Hq & Hpp); [by rewrite Hs1|].
      right. right. eexists _, _. split; [rewrite Hr, Hq; done|]. apply elem_of_app. left.
      apply list_elem_of_filter. rewrite Hnew in Hp. split; [|done]. unfold has_prio. rewrite He0. cbn. f_equal. lia.
    + rewrite Hout in He by done. destruct (ok_stray _ Hok p) as [Hq|[Hq|(i & q & Hi & Hq)]]; [by exists e|..].
      * rewrite Hnew in Hq. done.
      * right. left. by rewrite Hfr.
      * right. right. eexists _, _. split; [rewrite Hr, Hi; done|]. apply elem_of_app. by right.
Qed.

Lemma unlock_moved s r m :
  qlock s = false →
  unlock (set_new [] (set_ready r (set_envs m (lock s)))) = set_new [] (set_ready r (set_envs m s)).
Proof.
  intros Hl. apply sched_state_eq; try reflexivity; cbn; [by rewrite Hl|lia].
Qed.
Lemma run_all_spec st :
  ok st.1 → scheduler_status st.1 = SCH_STOPPED →
  wp sched_run_all (λ r st', ok st'.1 ∧ ∃ s1, ok s1 ∧ moved_new (env_new_queue st.1) st.1 s1 ∧
     dispatched (lock (set_sstatus SCH_STARTED (set_proc NULL s1))) st'.1 r) st.
Proof.
  intros Hok Hs. pose proof (lock_locked _ Hok) as (Hwf & Hl & Hn). unfold sched_run_all.
  apply wp_bind, wp_acquire_qlock; [apply Hok|]. apply wp_bind, wp_sget, wp_bind.
  eapply wp_mono; [apply run_all_loop_spec; done|]. cbn [fst snd]. intros _ st1 (Hwf1 & Hmn & Hm).
  assert (Hl1 : qlock st1.1 = true) by (rewrite (mn_frame _ _ _ Hmn); done).
  apply wp_bind, wp_release_qlock; [done|]. cbn [fst snd]. apply wp_bind, wp_sget. cbn [fst snd].
  assert (Hs1 : scheduler_status (unlock st1.1) = SCH_STOPPED).
  { cbn. rewrite (mn_frame _ _ _ Hmn). exact Hs. }
  rewrite decide_True by done.
  assert (Hmn' : moved_new (env_new_queue st.1) st.1 (unlock st1.1)).
  { destruct Hmn as [Hfr Hr Hin Hout]. constructor; [|done..]. cbn [unlock set_ncli set_qlock env_ready_queues envs].
    rewrite Hfr at 1. apply unlock_moved. apply (ok_lock _ Hok). }
  assert (Hwfu : wf (unlock st1.1)) by (by eapply wf_frame; [..|exact Hwf1]).
  assert (Hoku : ok (unlock st1.1)) by (by eapply moved_new_ok).
  apply wp_fos_scheduler; [apply Hoku|apply (ok_lock _ Hoku)|]. cbn [fst snd].
  intros r st' Hd _. apply wp_ret. split; [by eapply fos_dispatch_ok|]. by exists (unlock st1.1).
Qed.

(** *** Changing a priority *)
Lemma set_priority_ready_ok st p e prio :
  ok st.1 → envs st.1 !! p = Some e → env_status e = ENV_READY → 0 ≤ prio < num_of_ready_queues st.1 →
  wp (env_set_priority (env_id e) prio) (λ _ st', ok st'.1 ∧ st' = (moved p e prio st.1, st.2)) st.
Proof.
  intros Hok He Hst Hp.
  assert (Hqd : queued st.1 p) by (apply (ok_stray _ Hok); by exists e).
  apply (wp_set_priority_ready p e); [apply Hok|apply Hok|done|done|done|done|].
  intros Hwf. split; [|done]. cbn [fst]. constructor.
  - done.
  - apply (ok_lock _ Hok).
  - destruct (ok_cur _ Hok) as [|Hc]; [by left|right].
    apply (has_status_upd st.1 _ p (set_starv 0 (set_priority prio e))); [done|].
    right. split; [|done]. cbn. intros Hcp. rewrite Hcp in Hc. destruct Hc as (e' & He' & Hs).
    rewrite He in He'. injection He' as <-. by rewrite Hst in Hs.
  - intros x Hx. apply (has_status_upd st.1 _ p (set_starv 0 (set_priority prio e))) in Hx; [|done].
    assert (Hqx : queued st.1 x).
    { destruct Hx as [[-> _]|[_ Hx]]; [done|by apply (ok_stray _ Hok)]. }
    destruct (queue_of _ p e (ok_wf _ Hok) He) as (q & Hq & Hpp); [by rewrite Hst|].
    destruct (lookup_lt_is_Some_2 (alter (l_remove p) (Z.to_nat (priority e)) (env_ready_queues st.1)) (Z.to_nat prio))
      as [q' Hq'].
    { rewrite length_alter. destruct (wf_num _ (ok_wf _ Hok)). lia. }
    destruct (decide (x = p)) as [->|Hne].
    { right. right. exists (Z.to_nat prio), (p :: q'). cbn. rewrite list_lookup_alter_eq, Hq'. split; [done|by left]. }
    apply (queued_ready_removed _ p e _) in Hqx; [|done].
    destruct Hqx as [Hx'|[Hx'|(i & qi & Hi & Hx')]]; [by left|by right; left|]. right. right. cbn in *.
    destruct (decide (i = Z.to_nat prio)) as [->|Hi'].
    + exists (Z.to_nat prio), (p :: qi). rewrite list_lookup_alter_eq, Hi. split; [done|by right].
    + exists i, qi. by rewrite list_lookup_alter_ne.
Qed.
Lemma set_priority_other_ok st p e prio :
  ok st.1 → envs st.1 !! p = Some e → env_status e ≠ ENV_READY → env_status e ≠ ENV_FREE →
  0 ≤ prio < num_of_ready_queues st.1 →
  wp (env_set_priority (env_id e) prio)
    (λ _ st', ok st'.1 ∧ st' = (set_envs (<[p:=set_priority prio e]> (envs st.1)) st.1, st.2)) st.
Proof.
  intros Hok He Hst Hf Hp. apply (wp_set_priority_other p e); [apply Hok|apply Hok|done..|].
  split; [|done]. cbn [fst].
  assert (Hhs : ∀ x y, has_status (set_envs (<[p:=set_priority prio e]> (envs st.1)) st.1) x y ↔ has_status st.1 x y).
  { intros x y. rewrite (has_status_upd st.1 _ p (set_priority prio e)) by done. unfold has_status.
    destruct (decide (x = p)) as [->|]; [rewrite He|]; naive_solver. }
  assert (Hwfr : ∀ i q, env_ready_queues st.1 !! i = Some q → p ∉ q).
  { intros i q Hi Hin. destruct (proj2 (wf_ready _ (ok_wf _ Hok) i q Hi) p Hin) as (e' & He' & Hs & _).
    rewrite He in He'. injection He' as <-. done. }
  constructor.
  - destruct (ok_wf _ Hok) as [[Hn1 Hn2] [He1 He2] Hr Henv Hslot Hnum Hqu Hnull Hm].
    constructor; cbn; try done.
    + split; [done|]. intros x Hx. apply Hhs. by apply Hn2.
    + split; [done|]. intros x Hx. apply Hhs. by apply He2.
    + intros i q Hi. destruct (Hr i q Hi) as [Hnd Hall]. split; [done|]. intros x Hx.
      rewrite lookup_insert_ne; [by apply Hall|]. intros <-. by eapply Hwfr.
    + intros x ex Hex Hxf. destruct (decide (x = p)) as [->|].
      * rewrite lookup_insert_eq in Hex. injection Hex as <-. cbn. split; [done|]. by apply (Henv p e).
      * rewrite lookup_insert_ne in Hex by done. by apply Henv.
    + intros id. destruct (decide (env_slot (E:=E) id = p)) as [->|]; [rewrite lookup_insert_eq; eauto|].
      by rewrite lookup_insert_ne.
    + destruct (decide (p = NULL)) as [->|]; [congruence|]. by rewrite lookup_insert_ne.
  - apply (ok_lock _ Hok).
  - destruct (ok_cur _ Hok) as [|Hc]; [by left|right]. by apply Hhs.
  - intros x Hx. rewrite (queued_frame st.1) by done. apply (ok_stray _ Hok). by apply Hhs.
Qed.

(** *** Exiting environments *)
Definition ready_taken (p : Z) (e : Env) (s : sched_state) : sched_state :=
  set_ready (alter (l_remove p) (Z.to_nat (priority e)) (env_ready_queues s)) s.
Lemma ready_taken_wf s p e q :
  wf s → envs s !! p = Some e → env_ready_queues s !! Z.to_nat (priority e) = Some q → p ∈ q →
  env_status e = ENV_READY → wf (ready_taken p e s) ∧ ¬ queued (ready_taken p e s) p.
Proof.
  intros Hwf He Hq Hin Hst. unfold ready_taken. rewrite (list_alter_at _ _ _ q Hq).
  destruct (wf_ready _ Hwf _ _ Hq) as [Hnd Hall]. split.
  - apply (wf_set_ready _ _ q); [done|done|by apply NoDup_l_remove|]. intros x [_ Hx]%elem_of_l_remove. by left.
  - intros [Hx|[Hx|(i & q' & Hi & Hx)]]; cbn in *.
    + destruct (proj2 (wf_new _ Hwf) p Hx) as (e1 & ? & ?). simplify_eq. by rewrite Hst in *.
    + destruct (proj2 (wf_exit _ Hwf) p Hx) as (e1 & ? & ?). simplify_eq. by rewrite Hst in *.
    + destruct (decide (i = Z.to_nat (priority e))) as [->|Hne].
      * rewrite list_lookup_insert_eq in Hi by (by eapply lookup_lt_Some). injection Hi as <-.
        by apply elem_of_l_remove in Hx as [[] _].
      * rewrite list_lookup_insert_ne in Hi by done. apply Hne. by eapply (ready_disjoint s).
Qed.

Lemma exit_from_new_none q id st :
  (∀ p, p ∈ q → ∃ e, envs st.1 !! p = Some e ∧ env_id e ≠ id) →
  wp (exit_from_new q id false) (λ r st', r = false ∧ st' = st) st.
Proof.
  induction q as [|p q IH]; intros Hq; cbn; [by apply wp_ret|].
  destruct (Hq p ltac:(by left)) as (e & He & Hid). apply wp_bind, (wp_get_env _ e); [done|].
  rewrite decide_False by done. apply IH. intros x Hx. apply Hq. by right.
Qed.

Lemma exit_from_ready_spec js id st :
  wf st.1 → (∀ j, j ∈ js → 0 ≤ j < num_of_ready_queues st.1) →
  wp (exit_from_ready js id) (λ p st',
    p = NULL ∧ st' = st ∧
      (∀ j q x e, j ∈ js → env_ready_queues st.1 !! Z.to_nat j = Some q → x ∈ q → envs st.1 !! x = Some e → env_id e ≠ id) ∨
    ∃ e q, envs st.1 !! p = Some e ∧ env_id e = id ∧ env_status e = ENV_READY ∧
      env_ready_queues st.1 !! Z.to_nat (priority e) = Some q ∧ p ∈ q ∧ st' = (ready_taken p e st.1, st.2)) st.
Proof.
  intros Hwf. pose proof (wf_num _ Hwf) as [Hn1 Hn2]. induction js as [|j js IH]; intros Hjs; cbn.
  { apply wp_ret. left. split_and!; [done|done|]. intros j q x e Hj. by apply not_elem_of_nil in Hj. }
  assert (Hj : 0 ≤ j < num_of_ready_queues st.1) by (apply Hjs; by left).
  destruct (lookup_lt_is_Some_2 (env_ready_queues st.1) (Z.to_nat j)) as [qj Hqj]; [lia|].
  destruct (wf_ready _ Hwf _ _ Hqj) as [_ Hall].
  apply wp_bind, (wp_get_ready _ qj); [lia|done|]. apply wp_bind.
  eapply wp_mono; [apply wp_find_env|]; cbn.
  { intros x Hx. destruct (Hall x Hx) as (ex & ? & _). eauto. }
  intros r st' [-> [[-> Hno]|(Hr & er & Her & Hid)]].
  - rewrite decide_False by (intros Hx; by apply Hx).
    eapply wp_mono; [apply IH; intros; apply Hjs; by right|]. cbn.
    intros p st' [(-> & -> & Hn)|Hs]; [left|by right]. split_and!; [done|done|].
    intros j' q x e Hj' Hq' Hx He. apply elem_of_cons in Hj' as [->|Hj']; [|by eapply Hn].
    rewrite Hqj in Hq'. injection Hq' as <-. by apply (Hno x e).
  - destruct (Hall r Hr) as (er' & Her' & Hsr & Hpr). rewrite Her in Her'. injection Her' as <-.
    rewrite decide_True by (by apply (status_nonnull st.1 r ENV_READY); [|exists er]).
    apply wp_bind, wp_lq_remove; [done|]. apply wp_bind, wp_put_ready, wp_ret. right. exists er, qj.
    assert (Hje : Z.to_nat j = Z.to_nat (priority er)) by lia. rewrite <- Hje.
    split_and!; [done|done|done|done|done|]. unfold ready_taken.
    rewrite <- Hje. by rewrite (list_alter_at _ _ _ qj).
Qed.

Lemma exit_stray_free s s1 p e :
  (∀ x, has_status s x ENV_READY → queued s x) → env_new_queue s1 = env_new_queue s →
  envs s1 = <[p:=set_status ENV_EXIT e]> (envs s) →
  (∀ x, x ≠ p → queued s x → queued s1 x) → ∀ x, has_status s1 x ENV_READY → queued s1 x.
Proof.
  intros Hs Hn He Hq x Hx. apply (has_status_upd s s1 p (set_status ENV_EXIT e)) in Hx; [|done].
  destruct Hx as [[_ Hd]|[Hne Hx]]; [done|]. apply Hq; [done|by apply Hs].
Qed.

Lemma exit_env_ok id st :
  ok st.1 → cpu_proc st.1 ≠ NULL →
  (∀ p e, p ∈ env_new_queue st.1 → envs st.1 !! p = Some e → env_id e ≠ id) →
  wp (sched_exit_env id) (λ _ st', ok st'.1) st.
Proof.
  intros Hok Hcp Hnew. pose proof (lock_locked _ Hok) as (Hwf & Hl & Hn). unfold sched_exit_env.
  destruct (ok_cur _ Hok) as [|(ec & Hec & Hsc)]; [done|].
  apply wp_bind, wp_sget. rewrite (proj1 (ok_lock _ Hok)). cbn [negb when].
  apply wp_bind, wp_acquire_qlock; [apply Hok|]. apply wp_bind, wp_sget, wp_bind. cbn [fst snd].
  eapply wp_mono; [apply exit_from_new_none|]; cbn [fst snd].
  { intros p Hp. destruct (proj2 (wf_new _ Hwf) p Hp) as (e & He & _). exists e. split; [done|by eapply Hnew]. }
  intros ? st1 [-> ->]. cbn [fst snd].
  apply wp_bind, wp_sget, wp_bind. cbn [fst snd].
  eapply wp_mono; [apply exit_from_ready_spec; [done|intros j Hj%elem_of_seqZ; cbn in *; lia]|].
  cbn [fst snd]. intros p st1 Hcase. cbn zeta.
  destruct Hcase as [(-> & -> & _)|(e & q & He & Hid & Hst & Hq & Hin & ->)].
  - rewrite bool_decide_false by (intros Hx; by apply Hx). cbn [orb].
    apply wp_bind, wp_sget. cbn [fst snd]. change (cpu_proc (lock st.1)) with (cpu_proc st.1).
    apply wp_bind, wp_assert; [by apply bool_decide_eq_true|]. apply wp_bind, (wp_get_env _ ec); [done|].
    case_bool_decide as Hid; cbn [orb].
    + apply wp_bind, (wp_insert_exit _ ec); [done|done|done|by rewrite Hsc| |].
      { rewrite (queued_frame st.1) by done. apply running_not_queued; [apply Hok|by exists ec]. }
      intros m Hwf1. apply wp_bind.
      set (s1 := exit_inserted _ _ _) in *.
      assert (He1 : envs s1 !! cpu_proc s1 = Some (set_status ENV_EXIT ec)) by apply lookup_insert_eq.
      eapply wp_sched; cbn [fst snd]; [exact He1|done|done|done|done|done|].
      unfold off_cpu. rewrite decide_False by done. intros r st' Hr Hm. apply wp_bind.
      eapply wp_switched; [exact Hr|done|]. intros st2 Hd _. apply wp_ret.
      eapply dispatched_ok; [| | | |exact Hd].
      * eapply wf_frame; [..|exact Hwf1]; done.
      * by left.
      * done.
      * intros x Hx. left.
        apply (exit_stray_free st.1 (set_proc NULL (set_clock None s1)) (cpu_proc st.1) ec (ok_stray _ Hok));
          [done|done| |done].
        intros y _ [Hy|[Hy|Hy]]; [by left|right; left; by right|right; by right].
    + apply wp_bind, wp_release_qlock; [done|]. apply wp_ret. cbn [fst].
      apply (unlock_ok (lock st.1)); [by split_and!|exact (ok_cur _ Hok)|exact (ok_stray _ Hok)].
  - assert (Hp : p ≠ NULL) by (by apply (status_nonnull st.1 p ENV_READY (ok_wf _ Hok)); exists e).
    rewrite bool_decide_true by done. cbn [orb]. apply wp_bind, wp_sget. cbn [fst snd].
    change (cpu_proc (ready_taken p e (lock st.1))) with (cpu_proc st.1).
    apply wp_bind, wp_assert; [by apply bool_decide_eq_true|]. apply wp_bind, (wp_get_env _ ec); [done|].
    assert (Hne : cpu_proc st.1 ≠ p).
    { intros Hx. rewrite Hx in Hec. cbn in He. rewrite He in Hec. injection Hec as <-. by rewrite Hst in Hsc. }
    destruct (ready_taken_wf (lock st.1) p e q Hwf He Hq Hin Hst) as [Hwf1 Hnq].
    apply wp_bind, (wp_insert_exit _ e); [done|done|done|by rewrite Hst|done|]. intros m Hwf2. cbn [fst snd].
    rewrite bool_decide_false.
    2:{ intros Hx. apply Hne. eapply (same_id st.1); [apply Hok|done|exact He|by rewrite Hsc|by rewrite Hst|congruence]. }
    apply wp_bind, wp_release_qlock; [done|]. apply wp_ret. cbn [fst snd].
    apply unlock_ok; [by split_and!| |].
    + right. exists ec. split; [|done]. cbn. by rewrite lookup_insert_ne.
    + intros y Hy.
      apply (exit_stray_free st.1 (exit_inserted p e (ready_taken p e (lock st.1))) p e (ok_stray _ Hok));
        [done|done| |exact Hy].
      intros x Hx Hqx. apply (queued_ready_removed _ p e) in Hqx; [|done].
      destruct Hqx as [Hz|[Hz|Hz]]; [by left|right; left; by right|right; by right].
Qed.

(** The walk over the NEW queue, an environment found or not. *)
Lemma exit_from_new_walk q id found st :
  wf st.1 → qlock st.1 = true → (∀ x, x ∈ q → x ∈ env_new_queue st.1) → NoDup q →
  wp (exit_from_new q id found) (λ r st',
    (found = true ∨ (∃ p e, p ∈ q ∧ envs st.1 !! p = Some e ∧ env_id e = id) → r = true) ∧
    qlock st'.1 = true ∧ cpu_proc st'.1 = cpu_proc st.1 ∧ num_of_ready_queues st'.1 = num_of_ready_queues st.1 ∧
    ∀ x, is_Some (envs st.1 !! x) → is_Some (envs st'.1 !! x)) st.
Proof.
  revert found st. induction q as [|x q IH]; intros found st Hwf Hl Hsub Hnd; cbn.
  - apply wp_ret. split_and!; try done. intros [->|(p & e & Hp & _)]; [done|by apply not_elem_of_nil in Hp].
  - apply NoDup_cons in Hnd as [Hx Hnd].
    destruct (proj2 (wf_new _ Hwf) x (Hsub x ltac:(by left))) as (ex & Hex & Hsx).
    apply wp_bind, (wp_get_env _ ex); [done|]. case_decide as Hid.
    + apply wp_bind, (wp_remove_new x ex); [done|done|done|apply Hsub; by left|]. intros Hwf1 Hnq.
      eapply wp_mono; [apply IH; cbn [fst snd]|cbn [fst snd]].
      * done.
      * done.
      * intros y Hy. cbn. apply elem_of_l_remove. split; [by intros ->|apply Hsub; by right].
      * done.
      * intros r st' (Hr & Hl' & Hc & Hn & Hsome). split_and!; [intros _; apply Hr; by left|done|done|done|].
        intros y Hy. apply Hsome. cbn. destruct (decide (y = x)) as [->|]; [rewrite lookup_insert_eq; eauto|].
        by rewrite lookup_insert_ne.
    + eapply wp_mono; [apply IH; [done|done|intros y Hy; apply Hsub; by right|done]|]. cbn.
      intros r st' (Hr & Hrest). split; [|done]. intros [Hf|(p & e & Hp & He & Hpid)]; apply Hr; [by left|right].
      exists p, e. split_and!; [|done|done]. apply elem_of_cons in Hp as [->|]; [|done]. congruence.
Qed.
End ops.
