(* ===== verification/SchedLive.v ===== *)
(** * No ready environment starves

    Under the priority scheduler a ready environment gets the CPU after a number
    of clock ticks bounded by its priority, the starvation threshold and the
    number of environments. *)

From S2P Require Import Prelude Queue Sched SchedSpec.

(** The number of environments that leave the queue before [p]. *)
Fixpoint older (p : Z) (l : list Z) : nat :=
  match l with
  | [] => 0
  | x :: l => if decide (x = p) then length l else older p l
  end.
Lemma older_split p l1 l2 : p ∉ l1 → older p (l1 ++ p :: l2) = length l2.
Proof.
  induction l1 as [|x l1 IH]; intros Hp; cbn; [by rewrite decide_True|].
  apply not_elem_of_cons in Hp as [? ?]. rewrite decide_False by done. by apply IH.
Qed.

(** The ticks [p] may still have to wait. *)
Definition wait_bound (s : sched_state) (p : Z) : Z :=
  match envs s !! p with
  | None => 0
  | Some e =>
      if decide (priority e = 0) then Z.of_nat (S (older p (default [] (env_ready_queues s !! 0%nat))))
      else (starvThreshold s + 1 - starvcounteer e) + (priority e - 1) * (starvThreshold s + 1)
           + Z.of_nat (size (envs s))
  end.
(** A waiting environment whose counter has not passed the threshold. *)
Definition waiting (s : sched_state) (p : Z) : Prop :=
  in_ready s p ∧ ∃ e, envs s !! p = Some e ∧ (0 < priority e → 0 ≤ starvcounteer e ≤ starvThreshold s).

Section live.
Context {E : Type} `{HS : SchedMem E} `{HL : !SchedMemLaws E}.
Notation ST := (sched_state * E)%type.
Implicit Types st : ST.
Implicit Types s : sched_state.
Notation wf := (sched_wf (E:=E)).
Notation ok := (sched_ok (E:=E)).

Lemma queue_le_envs s i q : wf s → env_ready_queues s !! i = Some q → (length q ≤ size (envs s))%nat.
Proof.
  intros Hwf Hi. destruct (wf_ready _ Hwf i q Hi) as [Hnd Hall].
  assert (Hsub : (list_to_set q : gset Z) ⊆ dom (envs s)).
  { intros x Hx. apply elem_of_list_to_set in Hx. destruct (Hall x Hx) as (e & He & _).
    by apply elem_of_dom. }
  apply subseteq_size in Hsub. by rewrite size_list_to_set, size_dom in Hsub.
Qed.
Lemma size_envs_eq s s' : (∀ x, is_Some (envs s !! x) ↔ is_Some (envs s' !! x)) → size (envs s) = size (envs s').
Proof.
  intros Hx. rewrite <- !size_dom. f_equal. apply set_eq. intros x. by rewrite !elem_of_dom.
Qed.
Lemma older_lt p q : p ∈ q → (older p q < length q)%nat.
Proof.
  induction q as [|x q IH]; intros Hp; [by apply not_elem_of_nil in Hp|]. cbn.
  destruct (decide (x = p)) as [->|Hne]; [lia|]. apply elem_of_cons in Hp as [->|Hp]; [done|]. specialize (IH Hp). lia.
Qed.
(** Queue 0 is never promoted. *)
Lemma prom_queue0 s q : wf s → env_ready_queues s !! 0%nat = Some q → filter (λ p, ¬ prom s p) q = q.
Proof.
  intros Hwf Hq. apply filter_id. intros p Hp Hpr.
  destruct (proj2 (wf_ready _ Hwf 0 q Hq) p Hp) as (e & He & _ & Hpe). unfold prom in Hpr. rewrite He in Hpr.
  apply bool_decide_eq_true in Hpr. lia.
Qed.

(** The queue of a waiting environment after a switch that picked another one. *)
Lemma after_pick s1 x qs p i q :
  pick (requeued s1) = Some (x, qs) → p ≠ x → cur_ready s1 → wf s1 →
  env_ready_queues s1 !! i = Some q → p ∈ q →
  ∃ q', qs !! i = Some q' ∧ p ∈ q' ∧ (i = 0%nat → (older p q' < older p q)%nat).
Proof.
  intros Hp Hne Hcur Hwf Hi Hin. apply pick_Some in Hp as (k & qk & Hk & Hempty & ->).
  assert (Hreq : ∃ l, requeued s1 !! i = Some (l ++ q) ∧ p ∉ l).
  { unfold requeued. case_decide as Hc; [by exists []; split; [|apply not_elem_of_nil]|].
    destruct Hcur as [|[(e & He & Hst) Hq]]; [done|]. rewrite He.
    destruct (decide (i = Z.to_nat (priority e))) as [->|Hn].
    - exists [cpu_proc s1]. rewrite list_lookup_alter_eq, Hi. split; [done|].
      rewrite list_elem_of_singleton. intros ->. apply Hq. right. right. by exists (Z.to_nat (priority e)), q.
    - exists []. rewrite list_lookup_alter_ne by done. split; [done|apply not_elem_of_nil]. }
  destruct Hreq as (l & Hreq & Hpl). destruct (split_first p q Hin) as (l1 & l2 & -> & Hl1).
  destruct (decide (k = i)) as [->|Hki].
  - rewrite Hreq in Hk. injection Hk as Hk. destruct l2 as [|y l2] using rev_ind.
    { rewrite (app_assoc l l1 [p]) in Hk. apply app_inj_tail in Hk as [_ ->]. done. }
    clear IHl2. assert (Hqk : qk = l ++ l1 ++ p :: l2).
    { rewrite (app_comm_cons l2 [y] p), !app_assoc in Hk. apply app_inj_tail in Hk as [<- _]. by rewrite <- app_assoc. }
    exists qk. split_and!.
    + apply list_lookup_insert_eq. by eapply lookup_lt_Some.
    + rewrite Hqk. set_solver.
    + intros _. rewrite Hqk, (app_assoc l l1), !older_split; [rewrite length_app; cbn; lia|done|].
      apply not_elem_of_app. by split.
  - exists (l ++ l1 ++ p :: l2). rewrite list_lookup_insert_ne by done. split_and!; [done|set_solver|].
    intros ->. exfalso. destruct k as [|k]; [done|]. specialize (Hempty 0%nat ltac:(lia)).
    rewrite Hreq in Hempty. injection Hempty as Hempty. by destruct l, l1.
Qed.

Lemma in_ready_dec s x : in_ready s x ∨ ¬ in_ready s x.
Proof.
  destruct (decide (Exists (λ q, x ∈ q) (env_ready_queues s))) as [Hz|Hz].
  - left. apply Exists_exists in Hz as (q & Hq & Hz). apply list_elem_of_lookup in Hq as [k Hk]. by exists k, q.
  - right. intros (k & q & Hk & Hx). apply Hz, Exists_exists.
    exists q. split; [by apply list_elem_of_lookup_2 in Hk|done].
Qed.
Lemma aged_some s sa x : aged_state (E:=E) s sa → is_Some (envs sa !! x) ↔ is_Some (envs s !! x).
Proof.
  intros Ha. destruct (in_ready_dec s x) as [Hx|Hx].
  - rewrite (as_visited _ _ Ha) by done. by rewrite fmap_is_Some.
  - by rewrite (as_other _ _ Ha).
Qed.
Lemma insert_some {A} (m : gmap Z A) (k x : Z) (a : A) :
  is_Some (m !! k) → is_Some (<[k:=a]> m !! x) ↔ is_Some (m !! x).
Proof.
  intros Hk. destruct (decide (x = k)) as [->|]; [rewrite lookup_insert_eq; split; eauto|].
  by rewrite lookup_insert_ne.
Qed.

(** What aging and the switch leave of the bound. *)
Lemma wait_bound_decreases s s' p e i i1 q q' thr :
  wf s' → envs s !! p = Some e → starvThreshold s = thr → starvThreshold s' = thr → 0 ≤ thr < 4294967295 →
  size (envs s') = size (envs s) → priority e = Z.of_nat i → env_ready_queues s !! i = Some q →
  envs s' !! p = Some (aged thr e) → i1 = (if promoted thr e then (i - 1)%nat else i) →
  env_ready_queues s' !! i1 = Some q' → p ∈ q' → (i = 0%nat → (older p q' < older p q)%nat) →
  (0 < priority e → 0 ≤ starvcounteer e ≤ thr) →
  waiting s' p ∧ wait_bound s' p < wait_bound s p.
Proof.
  intros Hwf' He Ht Ht' Hthr Hsize Hpe Hi He' Hi1 Hq' Hin' Hlt Hst. subst i1.
  pose proof (older_lt p q' Hin') as Holt. pose proof (queue_le_envs _ _ _ Hwf' Hq') as Hlen.
  assert (Hw : 0 < priority e → w32 (starvcounteer e + 1) = starvcounteer e + 1) by (intros; apply w32_small; lia).
  unfold waiting, wait_bound. rewrite He, He', Ht, Ht', Hsize. unfold aged in *.
  destruct (promoted thr e) eqn:Hpm; cbn [priority starvcounteer set_starv set_priority].
  - assert (0 < priority e ∧ starvcounteer e + 1 > thr) as [Hp0 Hc].
    { apply bool_decide_eq_true in Hpm. rewrite Hw in Hpm by lia. lia. }
    rewrite (decide_False (P:=priority e = 0)) by lia. split.
    + split; [by exists (i - 1)%nat, q'|]. eexists. split; [done|]. cbn. lia.
    + case_decide as Hz.
      * replace (i - 1)%nat with 0%nat in Hq' by lia. rewrite Hq'. cbn [default].
        assert (0 ≤ (priority e - 1) * (thr + 1)) by nia. cbn [default id]. lia.
      * replace ((priority e - 1 - 1) * (thr + 1)) with ((priority e - 1) * (thr + 1) - (thr + 1)) by ring. lia.
  - assert (Hnp : 0 < priority e → starvcounteer e + 1 ≤ thr).
    { intros Hp0. apply bool_decide_eq_false in Hpm. rewrite Hw in Hpm by lia. lia. }
    split.
    + split; [by exists i, q'|]. eexists. split; [done|]. cbn. intros Hp0. rewrite Hw by done.
      specialize (Hnp Hp0). specialize (Hst Hp0). lia.
    + case_decide as Hz.
      * assert (i = 0%nat) as -> by lia. rewrite Hq', Hi. cbn [default id]. specialize (Hlt eq_refl). lia.
      * rewrite Hw by lia. lia.
Qed.

(** What one tick does to a waiting environment. *)
Lemma tick_wait st p :
  ok st.1 → scheduler_method st.1 = SCH_PRIRR → cpu_proc st.1 ≠ NULL →
  0 ≤ starvThreshold st.1 < 4294967295 → waiting st.1 p →
  wp clock_interrupt_handler (λ _ st',
    ok st'.1 ∧ scheduler_method st'.1 = SCH_PRIRR ∧ cpu_proc st'.1 ≠ NULL ∧
    starvThreshold st'.1 = starvThreshold st.1 ∧
    (cpu_proc st'.1 = p ∨ waiting st'.1 p ∧ wait_bound st'.1 p < wait_bound st.1 p)) st.
Proof.
  intros Hok Hm Hc Hthr [[i [q [Hi Hin]]] [e [He Hst]]].
  eapply wp_mono; [by apply clock_spec|]. cbn. intros r st' [Hok' (r' & -> & Htick)].
  destruct Htick as (sa & s1 & ec & Ha & Hec & (ec' & Henv & Hs' & Hid & Hpr & Hstv) & Hr & Hcp & Hn & Hm1 & Ht1 & _ & Hwf1 & Hcr & Hd).
  rewrite decide_True in Ha by done. pose proof (ok_wf _ Hok) as Hwf.
  destruct (wf_ready _ Hwf i q Hi) as [Hnd Hall]. destruct (Hall p Hin) as (e0 & He0 & Hse & Hpe).
  rewrite He in He0. injection He0 as <-.
  destruct (ok_cur _ Hok) as [|Hrun]; [done|].
  assert (Hpc : p ≠ cpu_proc st.1).
  { intros ->. destruct Hrun as (ex & Hex & Hsx). rewrite He in Hex. injection Hex as <-. by rewrite Hse in Hsx. }
  (* p after aging *)
  set (thr := starvThreshold st.1) in *.
  assert (He1 : envs s1 !! p = Some (aged thr e)).
  { rewrite Henv, lookup_insert_ne by done. rewrite (as_visited _ _ Ha); [by rewrite He|by exists i, q]. }
  set (i1 := if promoted thr e then (i - 1)%nat else i).
  assert (Hq1 : ∃ q1, env_ready_queues s1 !! i1 = Some q1 ∧ p ∈ q1 ∧
            (i = 0%nat → older p q1 = older p q)).
  { rewrite Hr. pose proof (as_ready _ _ Ha) as Har. unfold i1. destruct (promoted thr e) eqn:Hpm.
    - assert (0 < priority e) as Hp0 by (apply bool_decide_eq_true in Hpm; lia).
      destruct i as [|i']; [lia|]. replace (S i' - 1)%nat with i' by lia.
      destruct (lookup_lt_is_Some_2 (env_ready_queues st.1) i') as [q0 Hq0]; [apply lookup_lt_Some in Hi; lia|].
      rewrite Har, Hq0. eexists. split_and!; [done| |lia]. unfold aged_queue. rewrite Hi.
      apply elem_of_app. left. rewrite elem_of_reverse. apply list_elem_of_filter. split; [|done].
      unfold prom. by rewrite He.
    - rewrite Har, Hi. eexists. split_and!; [done| |].
      + unfold aged_queue. apply elem_of_app. right. apply list_elem_of_filter. split; [|done].
        unfold prom. rewrite He. fold thr. by rewrite Hpm.
      + intros ->. unfold aged_queue. rewrite (prom_queue0 st.1 q) by done.
        destruct (split_first p q Hin) as (l1 & l2 & -> & Hl1). rewrite app_assoc, !older_split; [done|done|].
        apply not_elem_of_app. split; [|done]. rewrite elem_of_reverse. intros [_ Hx]%list_elem_of_filter.
        destruct (env_ready_queues st.1 !! 1%nat) as [q1|] eqn:Hq1; [|by apply not_elem_of_nil in Hx].
        by pose proof (ready_disjoint st.1 0 1 _ _ p Hwf Hi Hq1 ltac:(set_solver) Hx). }
  destruct Hq1 as (q1 & Hq1 & Hin1 & Hold1).
  (* the switch *)
  destruct Hd as (s2 & [c Hrp] & Hst').
  assert (Hcr1 : cpu_proc s1 ≠ NULL) by (by rewrite Hcp).
  destruct (pick (requeued s1)) as [[x qs]|] eqn:Hpick.
  2:{ by pose proof (pick_None_cur s1 Hwf1 Hcr Hpick). }
  destruct Hrp as (-> & exx & Hexx & ->). rewrite Hst'.
  assert (x ≠ NULL) as Hx by (intros ->; rewrite (wf_null _ Hwf1) in Hexx; discriminate).
  split_and!; [by rewrite <- Hst'|by cbn; rewrite Hm1|done|by cbn; rewrite Ht1|].
  destruct (decide (p = x)) as [->|Hpx]; [by left|right].
  destruct (after_pick s1 x qs p i1 q1 Hpick Hpx Hcr Hwf1 Hq1 Hin1) as (q' & Hq' & Hin' & Hlt).
  set (s' := unlock _).
  assert (He' : envs s' !! p = Some (aged thr e)).
  { unfold s'. cbn. by rewrite lookup_insert_ne. }
  assert (Hthr' : starvThreshold s' = thr) by (unfold s'; cbn; exact Ht1).
  assert (Hrd : env_ready_queues s' = qs) by done.
  assert (Hsize : size (envs s') = size (envs st.1)).
  { apply size_envs_eq. intros y. unfold s'. cbn. rewrite insert_some by eauto.
    rewrite Henv, insert_some; [by apply aged_some|]. apply (aged_some _ _ _ Ha). eauto. }
  apply (wait_bound_decreases st.1 s' p e i i1 q q' thr); try done.
  { pose proof (ok_wf _ Hok') as Hx'. rewrite Hst' in Hx'. exact Hx'. }
  intros ->. assert (i1 = 0%nat) as Hi1 by (unfold i1; by destruct (promoted thr e)).
  rewrite <- (Hold1 eq_refl). by apply Hlt.
Qed.

(** [n] clock ticks in a row. *)
Fixpoint run_ticks (n : nat) : M ST unit :=
  match n with
  | O => mret ()
  | S n => clock_interrupt_handler ;; run_ticks n
  end.

Lemma ticks_reach (b : nat) st p :
  ok st.1 → scheduler_method st.1 = SCH_PRIRR → cpu_proc st.1 ≠ NULL →
  0 ≤ starvThreshold st.1 < 4294967295 → waiting st.1 p → wait_bound st.1 p ≤ Z.of_nat b →
  ∃ n, (0 < n ≤ b)%nat ∧ wp (run_ticks n) (λ _ st', ok st'.1 ∧ cpu_proc st'.1 = p) st.
Proof.
  revert st. induction b as [|b IH]; intros st Hok Hm Hc Hthr Hw Hb.
  - exfalso. destruct Hw as [[i [q [Hi Hin]]] [e [He Hst]]].
    destruct (proj2 (wf_ready _ (ok_wf _ Hok) i q Hi) p Hin) as (e0 & He0 & _ & Hpe). rewrite He in He0. injection He0 as <-.
    unfold wait_bound in Hb. rewrite He in Hb. case_decide; [lia|].
    assert (0 ≤ (priority e - 1) * (starvThreshold st.1 + 1)) by nia. lia.
  - pose proof (tick_wait st p Hok Hm Hc Hthr Hw) as Ht. apply wp_Ok in Ht as (r & st1 & Hrun & Hok1 & Hm1 & Hc1 & Ht1 & Hcase).
    destruct Hcase as [Hp|[Hw1 Hlt]].
    + exists 1%nat. split; [lia|]. cbn. apply wp_bind. unfold wp. rewrite Hrun. by split.
    + destruct (IH st1) as (n & Hn & Hwp); [done|done|done|by rewrite Ht1|done|lia|].
      exists (S n). split; [lia|]. cbn. apply wp_bind. unfold wp at 1. by rewrite Hrun.
Qed.

End live.
