(* ===== verification/SchedThm.v ===== *)
(** * What the scheduler promises

    The theorems about the scheduler, each with a run of a concrete system:
    the invariant of every history, the choice of the next environment, aging,
    progress, the moves between queues and the panics. *)

From S2P Require Import Prelude Queue Sched SchedSpec SchedOps SchedLive.

(** ** A concrete system *)
(** Page permissions by directory and page. *)
Notation perms := (gmap (Z * Z) Z).
#[global] Instance ex_mem : SchedMem perms := {|
  kmalloc := λ n, mret (0xF6000000 + Z.abs n);
  kfree := λ _, mret ();
  uninit_queue := [1; 2];
  uninit_byte := 77;
  env_slot := λ id, 4096 + 512 * (id `mod` 4);
  NENV := 4;
  envs_at := λ i, 4096 + 512 * i;
  isBufferingEnabled := λ _, false;
  cleanup_buffers := λ _, mret ();
  lru_time_approx := λ _, true;
  pt_get_page_permissions := λ d va m, default 0 (m !! (d, va `div` PAGE_SIZE));
  pt_set_page_permissions := λ d va set clear m,
    Ok tt (<[(d, va `div` PAGE_SIZE) :=
             Z.ldiff (Z.lor (default 0 (m !! (d, va `div` PAGE_SIZE))) set) clear]> m)
|}.
#[global] Instance ex_mem_laws : SchedMemLaws perms.
Proof.
  constructor.
  - intros p m. by exists m.
  - intros. eexists. reflexivity.
  - intros d va a b m m' va' [= <-] Hne. cbn. rewrite lookup_insert_ne; [done|]. congruence.
  - intros d va b m m' [= <-]. cbn. rewrite lookup_insert_eq. cbn.
    apply Z.bits_inj'. intros n Hn. rewrite Z.land_spec, Z.ldiff_spec, Z.bits_0.
    by destruct (Z.testbit b n), (Z.testbit (Z.lor _ 0) n).
Qed.

(** One environment runs, one is ready at priority 1, one is new. *)
Definition ex_run : Env := ENV 4 ENV_RUNNING 0 0 0 1 [WSE 0 5; WSE 4096 6].
Definition ex_ready : Env := ENV 5 ENV_READY 1 0 0 2 [].
Definition ex_new : Env := ENV 6 ENV_NEW 1 0 0 3 [].
Definition ex_free : Env := ENV 0 ENV_FREE 0 0 0 0 [].
Definition ex_envs : gmap Z Env := <[4096 := ex_run]> (<[4608 := ex_ready]> (<[5120 := ex_new]> (<[5632 := ex_free]> ∅))).
Definition ex_sched : sched_state :=
  SS ex_envs [5120] [] [[]; [4608]] 1 [10; 10] 1 2 false 0 4096 SCH_STARTED SCH_PRIRR 2 0 0 (Some 10).

Lemma ex_envs_inv p e : ex_envs !! p = Some e →
  p = 4096 ∧ e = ex_run ∨ p = 4608 ∧ e = ex_ready ∨ p = 5120 ∧ e = ex_new ∨ p = 5632 ∧ e = ex_free.
Proof.
  unfold ex_envs. intros Hp.
  repeat (apply lookup_insert_Some in Hp as [[<- <-]|[? Hp]]; [tauto|]). by rewrite lookup_empty in Hp.
Qed.
Lemma ex_wf s :
  envs s = ex_envs → env_new_queue s = [5120] → env_exit_queue s = [] → env_ready_queues s = [[]; [4608]] →
  num_of_ready_queues s = 2 → quantums s = [10; 10] → scheduler_method s = SCH_PRIRR → sched_wf (E:=perms) s.
Proof.
  intros H1 H2 H3 H4 H5 H6 H7. constructor; unfold has_status; rewrite ?H1, ?H2, ?H3, ?H4, ?H5, ?H6, ?H7.
  - split; [apply NoDup_singleton|]. intros p ->%list_elem_of_singleton. by exists ex_new.
  - split; [constructor|]. intros p Hp. by apply not_elem_of_nil in Hp.
  - intros [|[|i]] q Hq; try discriminate; injection Hq as <-.
    + split; [constructor|]. intros p Hp. by apply not_elem_of_nil in Hp.
    + split; [apply NoDup_singleton|]. intros p ->%list_elem_of_singleton. by exists ex_ready.
  - intros p e He Hf. apply ex_envs_inv in He.
    destruct He as [[-> ->]|[[-> ->]|[[-> ->]|[-> ->]]]]; cbn; (split_and!; try lia; done).
  - intros id. cbn. pose proof (Z.mod_pos_bound id 4 ltac:(lia)).
    assert (Hc : id `mod` 4 = 0 ∨ id `mod` 4 = 1 ∨ id `mod` 4 = 2 ∨ id `mod` 4 = 3) by lia.
    destruct Hc as [->|[->|[->| ->]]]; eexists; reflexivity.
  - split; [lia|done].
  - exists 10. split; [done|]. split; [lia|]. by vm_compute.
  - done.
  - by right.
Qed.
Lemma ex_ok : sched_ok (E:=perms) ex_sched.
Proof.
  constructor.
  - by apply ex_wf.
  - done.
  - right. by exists ex_run.
  - intros p (e & He & Hs). apply ex_envs_inv in He.
    destruct He as [[-> ->]|[[-> ->]|[[-> ->]|[-> ->]]]]; try discriminate.
    right. right. exists 1%nat, [4608]. split; [done|by left].
Qed.

Section theorems.
Context {E : Type} `{HS : SchedMem E} `{HL : !SchedMemLaws E}.
Notation ST := (sched_state * E)%type.
Implicit Types st : ST.
Notation ok := (sched_ok (E:=E)).

(** ** Histories *)
Inductive sched_op :=
| OpNew (p : Z)
| OpRun (id : Z)
| OpRunAll
| OpYield
| OpExit (id : Z)
| OpSetPriority (id prio : Z)
| OpTick.
Definition run_op (o : sched_op) : M ST unit :=
  match o with
  | OpNew p => sched_new_env p
  | OpRun id => sched_run_env id ;; mret ()
  | OpRunAll => sched_run_all ;; mret ()
  | OpYield => yield ;; mret ()
  | OpExit id => sched_exit_env id ;; mret ()
  | OpSetPriority id prio => env_set_priority id prio
  | OpTick => clock_interrupt_handler ;; mret ()
  end.
(** What the caller of an operation sees to. *)
Definition op_pre (o : sched_op) (s : sched_state) : Prop :=
  match o with
  | OpNew p => has_status s p ENV_UNKNOWN
  | OpRun _ | OpTick => True
  | OpRunAll => scheduler_status s = SCH_STOPPED
  | OpYield => cpu_proc s ≠ NULL
  | OpExit id => cpu_proc s ≠ NULL ∧ ∀ p e, p ∈ env_new_queue s → envs s !! p = Some e → env_id e ≠ id
  | OpSetPriority id prio => 0 ≤ prio < num_of_ready_queues s ∧
      ∃ p e, envs s !! p = Some e ∧ env_status e ≠ ENV_FREE ∧ env_id e = id
  end.
Inductive history (st : ST) : ST → Prop :=
| history_refl : history st st
| history_step st1 st2 o : history st st1 → op_pre o st1.1 → run_op o st1 = Ok tt st2 → history st st2.

Lemma run_op_ok o st : ok st.1 → op_pre o st.1 → wp (run_op o) (λ _ st', ok st'.1) st.
Proof.
  assert (Hret : ∀ {A} (c : M ST A), wp c (λ _ st', ok st'.1) st → wp (c ;; mret ()) (λ (_ : ()) st', ok st'.1) st).
  { intros A c Hc. apply wp_bind. eapply wp_mono; [exact Hc|]. intros ? st' Hst'. by apply wp_ret. }
  intros Hok Hpre. destruct o as [p|id| | |id|id prio|]; cbn in Hpre |- *.
  - by apply new_env_ok.
  - apply Hret. by apply run_env_ok.
  - apply Hret. eapply wp_mono; [by apply run_all_spec|]. by intros r st' [? _].
  - apply Hret. by apply yield_ok.
  - apply Hret. apply exit_env_ok; [done|apply Hpre..].
  - destruct Hpre as (Hp & p & e & He & Hf & <-). destruct (decide (env_status e = ENV_READY)) as [Hr|Hr].
    + eapply wp_mono; [by apply (set_priority_ready_ok st p e)|]. by intros r st' [? _].
    + eapply wp_mono; [by apply (set_priority_other_ok st p e)|]. by intros r st' [? _].
  - apply Hret. destruct (decide (cpu_proc st.1 = NULL)) as [Hc|Hc].
    + unfold clock_interrupt_handler, isSchedMethodPRIRR. apply wp_bind, wp_bind, wp_sget, wp_ret.
      assert (Hage : wp (when (bool_decide (scheduler_method st.1 = SCH_PRIRR)) age_ready_queues)
         (λ _ st', ok st'.1 ∧ cpu_proc st'.1 = NULL) st).
      { apply wp_when; intros _; [|done]. eapply wp_mono; [apply age_ready_queues_aged; apply Hok|]. cbn.
        intros _ st' [Ha _]. split; [by eapply aged_ok|]. by rewrite (as_frame _ _ Ha). }
      apply wp_bind. eapply wp_mono; [exact Hage|]. cbn. intros _ st' [Hok' Hc'].
      apply wp_bind, wp_sset, wp_bind, wp_sget. cbn [fst snd]. rewrite decide_True by (cbn; exact Hc').
      apply wp_ret. cbn [fst]. by eapply ok_frame; [..|exact Hok'].
    + eapply wp_mono; [by apply clock_spec|]. by intros r st' [? _].
Qed.

(** C15: the environment the scheduler picks is the one that has waited longest
    in the first ready queue that is not empty, once the environment on the CPU
    is back in its queue; it leaves that queue and no other changes, its
    starvation counter is reset under the priority scheduler; nothing is picked
    only when every queue is empty. *)
Theorem sched_next_correct st :
  sched_wf (E:=E) st.1 → qlock st.1 = true → cur_ready st.1 →
  wp sched_next (λ p st',
    (p = NULL ∧ (∀ q, q ∈ requeued st.1 → q = []) ∧ envs st'.1 = envs st.1 ∧
       env_ready_queues st'.1 = requeued st.1) ∨
    (∃ i q e, requeued st.1 !! i = Some (q ++ [p]) ∧ (∀ j, (j < i)%nat → requeued st.1 !! j = Some []) ∧
       env_ready_queues st'.1 = <[i := q]> (requeued st.1) ∧ envs st.1 !! p = Some e ∧
       (scheduler_method st.1 = SCH_PRIRR → envs st'.1 = <[p := set_starv 0 e]> (envs st.1)))) st.
Proof.
  intros Hwf Hl Hc. eapply wp_mono; [by apply sched_next_spec|]. cbn. intros p st' [c Hcase].
  destruct (pick (requeued st.1)) as [[x qs]|] eqn:Hp.
  - destruct Hcase as (-> & e & He & ->). right. apply pick_Some in Hp as (i & q & Hi & Hj & ->).
    exists i, q, e. split_and!; [done|done|done|done|]. intros Hm. cbn. by rewrite decide_True.
  - destruct Hcase as [-> ->]. left. rewrite pick_None in Hp. done.
Qed.

(** a clock tick under the priority scheduler first ages the ready queues:
    every ready environment's counter grows by one; those whose counter passes
    the threshold and whose priority is not the highest move to the head of the
    next higher queue, in the reverse of the order they were in, with a counter
    of zero; each moves at most once, the others keep their order, and nothing
    else changes. *)
Theorem aging_correct st :
  sched_wf (E:=E) st.1 → qlock st.1 = false →
  wp age_ready_queues (λ _ st', sched_wf (E:=E) st'.1 ∧ queues_frame st.1 st'.1 ∧
    (∀ j q, env_ready_queues st.1 !! j = Some q →
       env_ready_queues st'.1 !! j =
         Some (reverse (filter (prom st.1) (default [] (env_ready_queues st.1 !! S j)))
               ++ filter (λ p, ¬ prom st.1 p) q)) ∧
    (∀ p e, envs st.1 !! p = Some e → in_ready st.1 p →
       envs st'.1 !! p = Some (aged (starvThreshold st.1) e)) ∧
    (∀ p, ¬ in_ready st.1 p → envs st'.1 !! p = envs st.1 !! p)) st.
Proof.
  intros Hwf Hl. eapply wp_mono; [by apply age_ready_queues_aged|]. cbn. intros _ st' [[Hwf' Hfr Hr Hv Ho] _].
  split_and!; [done|done| | |done].
  - intros j q Hq. by rewrite Hr, Hq.
  - intros p e He Hp. by rewrite Hv, He.
Qed.

(** C14: no ready environment starves: with the clock ticking, an environment
    that is ready at some priority is on the CPU after at most
    priority * (threshold + 1) + (number of environments) ticks. *)
Theorem prirr_no_starvation st p e :
  ok st.1 → scheduler_method st.1 = SCH_PRIRR → cpu_proc st.1 ≠ NULL →
  0 ≤ starvThreshold st.1 < 4294967295 →
  in_ready st.1 p → envs st.1 !! p = Some e → 0 ≤ starvcounteer e ≤ starvThreshold st.1 →
  ∃ n, Z.of_nat n ≤ priority e * (starvThreshold st.1 + 1) + Z.of_nat (size (envs st.1)) ∧
       wp (run_ticks n) (λ _ st', ok st'.1 ∧ cpu_proc st'.1 = p) st.
Proof.
  intros Hok Hm Hc Hthr Hin He Hst.
  assert (Hw : waiting st.1 p) by (split; [done|]; by exists e).
  destruct Hin as (i & q & Hi & Hp).
  destruct (proj2 (wf_ready _ (ok_wf _ Hok) i q Hi) p Hp) as (e0 & He0 & _ & Hpe). rewrite He in He0. injection He0 as <-.
  set (B := priority e * (starvThreshold st.1 + 1) + Z.of_nat (size (envs st.1))).
  assert (HB : 0 ≤ B) by (unfold B; nia).
  assert (Hle : wait_bound st.1 p ≤ B).
  { unfold wait_bound, B. rewrite He. case_decide as Hz.
    - assert (i = 0%nat) as -> by lia. rewrite Hi. cbn [default id].
      pose proof (older_lt p q Hp). pose proof (queue_le_envs _ _ _ (ok_wf _ Hok) Hi). lia.
    - replace ((priority e - 1) * (starvThreshold st.1 + 1))
        with (priority e * (starvThreshold st.1 + 1) - (starvThreshold st.1 + 1)) by ring. lia. }
  destruct (ticks_reach (Z.to_nat B) st p) as (n & Hn & Hwp); [done..|lia|].
  exists n. split; [lia|done].
Qed.

(** running all environments moves every new one to the queue of its
    priority, in front of those already there and in the order of the NEW queue
    (so that the longest waiting runs first), leaves the NEW queue empty, and
    then switches to the scheduler's choice. *)
Theorem run_all_correct st :
  ok st.1 → scheduler_status st.1 = SCH_STOPPED →
  wp sched_run_all (λ r st', ok st'.1 ∧ ∃ s1, ok s1 ∧
     env_new_queue s1 = [] ∧ env_exit_queue s1 = env_exit_queue st.1 ∧
     (∀ j q, env_ready_queues st.1 !! j = Some q →
        env_ready_queues s1 !! j =
          Some (filter (λ p, priority <$> envs st.1 !! p = Some (Z.of_nat j)) (env_new_queue st.1) ++ q)) ∧
     (∀ p e, p ∈ env_new_queue st.1 → envs st.1 !! p = Some e → envs s1 !! p = Some (set_status ENV_READY e)) ∧
     (∀ p, p ∉ env_new_queue st.1 → envs s1 !! p = envs st.1 !! p) ∧
     dispatched (lock (set_sstatus SCH_STARTED (set_proc NULL s1))) st'.1 r) st.
Proof.
  intros Hok Hs. eapply wp_mono; [by apply run_all_spec|]. cbn.
  intros r st' [Hok' (s1 & Hok1 & [Hfr Hr Hin Hout] & Hd)]. split; [done|]. exists s1.
  split_and!; [done|by rewrite Hfr|by rewrite Hfr| | |done|done].
  - intros j q Hq. by rewrite Hr, Hq.
  - intros p e Hp He. by rewrite Hin, He.
Qed.

(** changing the priority of a ready environment moves it from its queue to
    the head of the queue of the new priority and resets its starvation counter;
    of another environment it changes the priority only; a priority outside the
    ready queues is refused with a panic, nothing but the lock being touched. *)
Theorem set_priority_correct st p e prio :
  ok st.1 → envs st.1 !! p = Some e → env_status e ≠ ENV_FREE →
  (0 ≤ prio < num_of_ready_queues st.1 →
     wp (env_set_priority (env_id e) prio) (λ _ st', ok st'.1 ∧ st'.2 = st.2 ∧
       (env_status e = ENV_READY →
          envs st'.1 = <[p := set_starv 0 (set_priority prio e)]> (envs st.1) ∧
          env_ready_queues st'.1 = alter (cons p) (Z.to_nat prio)
             (alter (l_remove p) (Z.to_nat (priority e)) (env_ready_queues st.1))) ∧
       (env_status e ≠ ENV_READY →
          st'.1 = set_envs (<[p := set_priority prio e]> (envs st.1)) st.1)) st) ∧
  (prio < 0 ∨ num_of_ready_queues st.1 ≤ prio →
     env_set_priority (env_id e) prio st = Panic (set_qlock false st.1, st.2)).
Proof.
  intros Hok He Hf. split.
  - intros Hp. destruct (decide (env_status e = ENV_READY)) as [Hr|Hr].
    + eapply wp_mono; [by apply (set_priority_ready_ok st p e)|]. cbn. intros _ st' [Hok' ->]. by split_and!.
    + eapply wp_mono; [by apply (set_priority_other_ok st p e)|]. cbn. intros _ st' [Hok' ->]. by split_and!.
  - intros Hp. eapply set_priority_rejected; [apply Hok|apply (ok_lock _ Hok)|done..].
Qed.

(** C16: a tick of the LRU clock shifts the 32-bit time stamp of every page of the
    working set right by one, sets its top bit when the page was used since the
    last tick and clears the used bits, so that the stamps stay in range and a
    page used in this tick ranks above every page that was not. *)
Theorem update_WS_correct st e :
  cpu_proc st.1 ≠ NULL → envs st.1 !! cpu_proc st.1 = Some e → NoDup (map page_no (page_WS_list e)) →
  (∀ w, w ∈ page_WS_list e → 0 ≤ time_stamp w < 2 ^ 32) →
  wp update_WS_time_stamps (λ _ st', ∃ e',
    envs st'.1 = <[cpu_proc st.1 := e']> (envs st.1) ∧
    (∀ k w, page_WS_list e !! k = Some w → ∃ w',
       page_WS_list e' !! k = Some w' ∧ ws_va w' = ws_va w ∧ 0 ≤ time_stamp w' < 2 ^ 32 ∧
       time_stamp w' = time_stamp w `div` 2 +
         (if page_used (env_page_directory e) (ws_va w) st.2 then 2 ^ 31 else 0) ∧
       page_used (env_page_directory e) (ws_va w) st'.2 = false) ∧
    length (page_WS_list e') = length (page_WS_list e)) st.
Proof.
  intros Hc He Hnd Hr. eapply wp_mono; [by apply (update_WS_spec st e)|]. cbn. intros _ st' [Hst Hcl].
  exists (set_WS (map (lru_elem (env_page_directory e) st.2) (page_WS_list e)) e).
  split_and!; [by rewrite Hst| |cbn; by rewrite length_map].
  intros k w Hk. exists (lru_elem (env_page_directory e) st.2 w). cbn.
  assert (Hin : w ∈ page_WS_list e) by (by eapply list_elem_of_lookup_2).
  specialize (Hr w Hin).
  assert (Hlt : lru_tick (page_used (env_page_directory e) (ws_va w) st.2) (time_stamp w)
     = time_stamp w `div` 2 + (if page_used (env_page_directory e) (ws_va w) st.2 then 2 ^ 31 else 0)).
  { unfold lru_tick. rewrite Z.shiftr_div_pow2 by lia. change (2 ^ 1) with 2.
    destruct (page_used _ _ _); [|lia]. change (Z.shiftl 1 31) with (2 ^ 31).
    assert (Hland : Z.land (time_stamp w `div` 2) (2 ^ 31) = 0).
    { apply Z.bits_inj'. intros n Hn. rewrite Z.land_spec, Z.bits_0, (Z.pow2_bits_eqb 31) by lia.
      destruct (Z.eqb_spec 31 n) as [<-|]; [|by rewrite andb_false_r].
      rewrite andb_true_r. apply (testbit_small _ 31); [lia|].
      split; [apply Z.div_pos; lia|apply Z.div_lt_upper_bound; lia]. }
    by rewrite Z.add_nocarry_lxor, Z.lxor_lor. }
  assert (0 ≤ time_stamp w `div` 2 < 2147483648).
  { split; [apply Z.div_pos; lia|apply Z.div_lt_upper_bound; lia]. }
  split_and!.
  - rewrite list_lookup_fmap. by rewrite Hk.
  - done.
  - rewrite Hlt. destruct (page_used _ _ _); lia.
  - rewrite Hlt. destruct (page_used _ _ _); lia.
  - exact Hlt.
  - by apply Hcl.
Qed.

(** Exiting an environment that is still in the NEW queue panics: the search
    of that queue goes on after the environment is found and leaves a null
    pointer, which the insertion into the EXIT queue asserts against. *)
Theorem exit_new_env_panics st p e :
  ok st.1 → p ∈ env_new_queue st.1 → envs st.1 !! p = Some e → panics (sched_exit_env (env_id e)) st.
Proof.
  intros Hok Hp He. pose proof (lock_locked _ Hok) as (Hwf & Hl & Hn). unfold sched_exit_env.
  apply panics_r, wp_sget. rewrite (proj1 (ok_lock _ Hok)). cbn [negb when].
  apply panics_r, wp_acquire_qlock; [apply Hok|]. apply panics_r, wp_sget, panics_r. cbn [fst snd].
  eapply wp_mono; [apply exit_from_new_walk; [done|done|done|apply (wf_new _ Hwf)]|]. cbn [fst snd].
  intros r st1 (Hr & Hl1 & Hc & Hn1 & Hsome).
  rewrite Hr by (right; by exists p, e). clear Hr r.
  apply panics_r, wp_sget, panics_r, wp_ret. cbn [fst snd]. cbn zeta.
  apply panics_r, wp_sget. destruct (decide (cpu_proc st1.1 = NULL)) as [Hcn|Hcn].
  { apply panics_l, panics_assert. apply bool_decide_eq_false. naive_solver. }
  apply panics_r, wp_assert; [by apply bool_decide_eq_true|].
  destruct (Hsome (cpu_proc st1.1)) as [ec Hec].
  { rewrite Hc. destruct (ok_cur _ Hok) as [Hx|(ec & Hec & _)]; [cbn in Hc; congruence|eauto]. }
  apply panics_r, (wp_get_env _ ec); [done|]. cbn [orb].
  apply panics_l. unfold sched_insert_exit. apply panics_r, wp_need_qlock; [done|].
  apply panics_l, panics_assert. apply bool_decide_eq_false. naive_solver.
Qed.

(** C6: in every state that a history of operations reaches from a state between
    two operations, the queues are well formed (each environment is in at most
    one queue, once, the queue its status and priority name, every ready
    environment is queued, the one on the CPU runs and is in none, the lock is
    free), and every further operation whose precondition holds returns: no
    panic, no list operation on an element that is not in the list, no access
    outside the arrays. Preconditions: a new environment has not been scheduled
    before, run-all comes when the scheduler is stopped, a yield and an exit come
    from a process, a priority is in range, and the environment that exits is not
    in the NEW queue; the exit of one that is there panics. *)
Theorem scheduler_invariant st st' :
  ok st.1 → history st st' →
  ok st'.1 ∧ (∀ o, op_pre o st'.1 → ∃ st'', run_op o st' = Ok tt st'' ∧ ok st''.1) ∧
  ∀ p e, p ∈ env_new_queue st'.1 → envs st'.1 !! p = Some e → panics (run_op (OpExit (env_id e))) st'.
Proof.
  intros Hok Hh.
  assert (Hgo : ∀ o s, ok s.1 → op_pre o s.1 → ∃ s', run_op o s = Ok tt s' ∧ ok s'.1).
  { intros o s Hs Hp. pose proof (run_op_ok o s Hs Hp) as Hw. apply wp_Ok in Hw as ([] & s' & ? & ?). eauto. }
  assert (Hok' : ok st'.1).
  { induction Hh as [|st1 st2 o Hh IH Hp Hr]; [done|]. destruct (Hgo o st1 IH Hp) as (s' & Hs' & ?).
    rewrite Hr in Hs'. by injection Hs' as <-. }
  split_and!; [done|intros o; by apply Hgo|]. intros p e Hp He. cbn [run_op]. apply panics_l. by eapply exit_new_env_panics.
Qed.

(** Killing an environment that is in the NEW queue panics, whatever the
    state: the release of the environment is not implemented. *)
Theorem kill_new_env_panics st p e :
  ok st.1 → p ∈ env_new_queue st.1 → envs st.1 !! p = Some e → panics (sched_kill_env (env_id e)) st.
Proof.
  intros Hok Hp He. pose proof (lock_locked _ Hok) as (Hwf & Hl & Hn). unfold sched_kill_env.
  apply panics_r, wp_acquire_qlock; [apply Hok|]. apply panics_r, wp_sget, panics_r. cbn [fst snd].
  eapply wp_mono; [apply wp_find_env|]; cbn [fst snd].
  { intros x Hx. destruct (proj2 (wf_new _ Hwf) x Hx) as (ex & ? & _). eauto. }
  intros p1 st1 [-> [[_ Hno]|(Hin & e1 & He1 & Hid1)]]; [by destruct (Hno p e Hp He)|].
  destruct (proj2 (wf_new _ Hwf) p1 Hin) as (e2 & He2 & Hs2).
  assert (Hp1 : p1 ≠ NULL) by (by apply (status_nonnull (lock st.1) p1 ENV_NEW Hwf); exists e2).
  rewrite bool_decide_true by done. cbn [when].
  apply panics_r, (wp_remove_new p1 e2); [done..|]. intros Hwf1 Hnq.
  apply panics_r, wp_sget. cbn [fst snd]. rewrite decide_True by done.
  apply panics_r, wp_ret. rewrite decide_True by done. apply panics_r, wp_ret.
  apply panics_r, wp_release_qlock; [done|]. rewrite decide_True by done.
  apply panics_l, panics_panic.
Qed.
End theorems.

Section init.
Context {E : Type} `{HS : SchedMem E}.
Notation ST := (sched_state * E)%type.
Implicit Types st : ST.
Hypothesis kmalloc_ok : ∀ n m, ∃ p m', kmalloc n m = Ok p m' ∧ 0 < p.
Hypothesis kfree_ok : ∀ p m, ∃ m', kfree (E:=E) p m = Ok tt m'.

Lemma wp_kmalloc n (Q : Z → ST → Prop) st :
  (∀ p m', 0 < p → Q p (st.1, m')) → wp (smem (kmalloc n)) Q st.
Proof. intros HQ. destruct (kmalloc_ok n st.2) as (p & m' & H & Hp). unfold smem, wp, zoom. rewrite H. by apply HQ. Qed.
Lemma wp_kfree p (Q : unit → ST → Prop) st : (∀ m', Q tt (st.1, m')) → wp (smem (kfree p)) Q st.
Proof. intros HQ. destruct (kfree_ok p st.2) as (m' & H). unfold smem, wp, zoom. rewrite H. by apply HQ. Qed.

Lemma wp_delete_ready_queues (Q : unit → ST → Prop) st :
  qlock st.1 = false →
  (∀ r q m', Q tt (unlock (lock (set_quantums q (set_ready r st.1))), m')) → wp sched_delete_ready_queues Q st.
Proof.
  intros Hl HQ. unfold sched_delete_ready_queues.
  apply wp_bind, wp_acquire_qlock; [done|]. apply wp_bind, wp_sget, wp_bind.
  assert (Hend : ∀ r m, wp (q ← sget quantums_ptr; when (bool_decide (q ≠ NULL)) (smem (kfree q) ;; sset (set_quantums [])) ;; release_qlock)
     Q (lock (set_ready r st.1), m)).
  { intros r m. apply wp_bind, wp_sget, wp_bind, wp_when; intros _.
    - apply wp_bind, wp_kfree. intros m'. apply wp_sset, wp_release_qlock; [done|]. apply (HQ r []).
    - apply wp_release_qlock; [done|]. cbn [fst snd].
      replace (lock (set_ready r st.1)) with (lock (set_quantums (quantums st.1) (set_ready r st.1)))
        by (by apply sched_state_eq). apply HQ. }
  apply wp_when; intros _.
  - apply wp_bind, wp_kfree. intros m'. apply wp_sset. cbn [fst snd]. apply (Hend []).
  - replace (lock st.1, st.2) with (lock (set_ready (env_ready_queues st.1) st.1), st.2)
      by (f_equal; by apply sched_state_eq). apply Hend.
Qed.

Lemma store_step {A} (k n : nat) (x y : A) :
  (k < n)%nat → <[k := x]> (replicate k x ++ replicate (n - k) y) = replicate (S k) x ++ replicate (n - S k) y.
Proof.
  intros Hk. rewrite insert_app_r_alt by (rewrite length_replicate; lia).
  rewrite length_replicate, Nat.sub_diag. replace (n - k)%nat with (S (n - S k)) by lia.
  by rewrite (replicate_S_end k x), <- app_assoc.
Qed.
Lemma wp_fill_ready n p (Q : unit → ST → Prop) st :
  (0 < n)%nat → 0 < p → ready_ptr st.1 = p → env_ready_queues st.1 = replicate n (uninit_queue (E:=E)) →
  Q tt (set_ready (replicate n []) st.1, st.2) → wp (mfor (seqZ 0 (Z.of_nat n)) init_ready_queue) Q st.
Proof.
  intros Hn Hp Hptr Hr HQ.
  apply (wp_mfor (λ js st', ∃ k, (k ≤ n)%nat ∧ js = seqZ (Z.of_nat k) (Z.of_nat n - Z.of_nat k) ∧
    st' = (set_ready (replicate k [] ++ replicate (n - k) (uninit_queue (E:=E))) st.1, st.2))).
  - exists 0%nat. split_and!; [lia|f_equal; lia|]. cbn. rewrite Nat.sub_0_r, <- Hr. by destruct st as [[] ?].
  - intros j js st' (k & Hk & Hjs & ->).
    assert (k < n)%nat as Hlt.
    { destruct (decide (k = n)) as [->|]; [|lia]. rewrite Z.sub_diag in Hjs. discriminate. }
    rewrite seqZ_cons in Hjs by lia. injection Hjs as -> Hjs.
    unfold init_ready_queue. apply wp_bind, wp_sget. cbn [fst snd].
    change (ready_ptr (set_ready _ st.1)) with (ready_ptr st.1). rewrite Hptr, decide_False.
    2:{ unfold NULL, sizeof_Env_Queue. lia. }
    unfold store_ready. apply wp_bind, (wp_get_ready _ (uninit_queue (E:=E))); [lia| |].
    { cbn. rewrite Nat2Z.id, lookup_app_r by (rewrite length_replicate; lia).
      rewrite length_replicate, Nat.sub_diag. apply lookup_replicate_2. lia. }
    apply wp_put_ready. exists (S k). split_and!; [lia|rewrite Hjs; f_equal; lia|].
    cbn [fst snd]. rewrite Nat2Z.id. f_equal.
    change (env_ready_queues (set_ready ?l st.1)) with l. by rewrite store_step.
  - intros st' (k & Hk & Hjs & ->). destruct (decide (k = n)) as [->|].
    + by rewrite Nat.sub_diag, app_nil_r.
    + rewrite seqZ_cons in Hjs by lia. discriminate.
Qed.
Lemma wp_fill_quantums n v (Q : unit → ST → Prop) st :
  (0 < n)%nat → quantums st.1 = replicate n (uninit_byte (E:=E)) →
  Q tt (set_quantums (replicate n v) st.1, st.2) → wp (mfor (seqZ 0 (Z.of_nat n)) (λ i, store_quantum i v)) Q st.
Proof.
  intros Hn Hr HQ.
  apply (wp_mfor (λ js st', ∃ k, (k ≤ n)%nat ∧ js = seqZ (Z.of_nat k) (Z.of_nat n - Z.of_nat k) ∧
    st' = (set_quantums (replicate k v ++ replicate (n - k) (uninit_byte (E:=E))) st.1, st.2))).
  - exists 0%nat. split_and!; [lia|f_equal; lia|]. cbn. rewrite Nat.sub_0_r, <- Hr. by destruct st as [[] ?].
  - intros j js st' (k & Hk & Hjs & ->).
    assert (k < n)%nat as Hlt.
    { destruct (decide (k = n)) as [->|]; [|lia]. rewrite Z.sub_diag in Hjs. discriminate. }
    rewrite seqZ_cons in Hjs by lia. injection Hjs as -> Hjs.
    unfold store_quantum, get_quantum. rewrite decide_True by lia.
    apply wp_bind, wp_bind, wp_sget. eapply wp_unwrap.
    { cbn. rewrite Nat2Z.id, lookup_app_r by (rewrite length_replicate; lia).
      rewrite length_replicate, Nat.sub_diag. apply lookup_replicate_2. lia. }
    apply wp_sset. exists (S k). split_and!; [lia|rewrite Hjs; f_equal; lia|].
    cbn [fst snd]. rewrite Nat2Z.id. f_equal.
    change (quantums (set_quantums ?l st.1)) with l. by rewrite store_step.
  - intros st' (k & Hk & Hjs & ->). destruct (decide (k = n)) as [->|].
    + by rewrite Nat.sub_diag, app_nil_r.
    + rewrite seqZ_cons in Hjs by lia. discriminate.
Qed.

(** initialising the priority scheduler with [n] priorities gives [n] empty
    ready queues with the same quantum, whatever the fresh memory held, programs
    the clock and the threshold and leaves the other queues alone; a zero quantum
    panics before anything is changed. *)
Theorem sched_init_PRIRR_correct st n quantum thr :
  qlock st.1 = false → 0 < n < 256 → 0 < quantum < QUANTUM_LIMIT → 0 < thr →
  wp (sched_init_PRIRR n quantum thr) (λ _ st',
    num_of_ready_queues st'.1 = n ∧ env_ready_queues st'.1 = replicate (Z.to_nat n) [] ∧
    quantums st'.1 = replicate (Z.to_nat n) quantum ∧ starvThreshold st'.1 = thr ∧
    scheduler_method st'.1 = SCH_PRIRR ∧ scheduler_status st'.1 = SCH_STOPPED ∧ clock st'.1 = Some quantum ∧
    envs st'.1 = envs st.1 ∧ env_new_queue st'.1 = env_new_queue st.1 ∧
    env_exit_queue st'.1 = env_exit_queue st.1 ∧ cpu_proc st'.1 = cpu_proc st.1 ∧
    qlock st'.1 = false ∧ ncli st'.1 = ncli st.1) st ∧
  sched_init_PRIRR n 0 thr st = Panic st.
Proof.
  intros Hl Hn Hq Ht. split; [|done]. destruct (Z_of_nat_complete n) as [k ->]; [lia|].
  unfold sched_init_PRIRR. rewrite Nat2Z.id.
  rewrite decide_False by lia. rewrite decide_True by lia.
  apply wp_bind, wp_sset, wp_bind, wp_delete_ready_queues; [done|]. intros r q m. cbn [fst snd].
  apply wp_bind, wp_sget. cbn [fst snd]. set (s1 := unlock _).
  change (num_of_ready_queues s1) with (Z.of_nat k).
  unfold alloc_ready_queues, alloc_quantums. rewrite Nat2Z.id.
  apply wp_bind, wp_bind, wp_kmalloc. intros p m1 Hp. apply wp_sset. rewrite decide_False by (unfold NULL; lia).
  apply wp_bind, wp_bind, wp_kmalloc. intros p2 m2 Hp2. apply wp_sset. rewrite decide_False by (unfold NULL; lia).
  apply wp_bind, wp_acquire_qlock; [done|]. cbn [fst snd].
  apply wp_bind, (wp_fill_ready k p); [lia|done|done|done|].
  apply wp_bind, wp_release_qlock; [done|]. cbn [fst snd].
  apply wp_bind, (wp_fill_quantums k); [lia|done|]. cbn [fst snd].
  apply wp_bind, (wp_get_quantum0 quantum).
  { change (replicate k quantum !! 0%nat = Some quantum). apply lookup_replicate_2. lia. }
  apply wp_bind, wp_kclock_set; [done|]. apply wp_bind. unfold sched_set_starv_thresh. rewrite decide_False by lia.
  apply wp_sset, wp_bind, wp_sset, wp_sset. split_and!; try reflexivity. cbn. lia.
Qed.
End init.

(** ** Runs of the concrete system *)
Notation ex_st := ((ex_sched, ∅) : sched_state * perms).
Definition after_op (o : sched_op) (st : sched_state * perms) : sched_state * perms :=
  match run_op o st with Ok _ s => s | _ => st end.
Definition ex_stopped : sched_state := set_sstatus SCH_STOPPED (set_proc NULL ex_sched).

(** After three ticks the environment of priority 1 runs. *)
Example ex_three_ticks :
  cpu_proc (after_op OpTick ex_st).1 = 4096 ∧
  cpu_proc (after_op OpTick (after_op OpTick (after_op OpTick ex_st))).1 = 4608.
Proof. split; vm_compute; reflexivity. Qed.
Lemma ex_stopped_ok : sched_ok (E:=perms) ex_stopped.
Proof.
  constructor.
  - by apply ex_wf.
  - done.
  - by left.
  - apply (ok_stray _ ex_ok).
Qed.

Lemma scheduler_invariant_witness : sched_ok (E:=perms) (after_op OpTick ex_st).1.
Proof.
  apply (scheduler_invariant ex_st); [exact ex_ok|].
  apply (history_step ex_st ex_st _ OpTick); [apply history_refl|exact I|vm_compute; reflexivity].
Defined.
Lemma sched_next_correct_witness :
  wp sched_next (λ p _, p = 4608) ((lock ex_stopped, ∅) : sched_state * perms).
Proof.
  eapply wp_mono; [apply sched_next_correct; [by apply ex_wf|reflexivity|left; reflexivity]|].
  intros p st' [(_ & Hall & _)|(i & q & e & Hi & Hj & _)].
  - discriminate (Hall [4608]). right. left.
  - destruct i as [|[|i]]; [by destruct q|destruct q as [|? [|? ?]]; [by injection Hi as ->|discriminate..]|done].
Defined.
Lemma aging_correct_witness :
  wp age_ready_queues (λ _ st', env_ready_queues st'.1 !! 1%nat = Some [4608] ∧
    envs st'.1 !! 4608 = Some (set_starv 1 ex_ready)) ex_st.
Proof.
  eapply wp_mono; [apply aging_correct; [by apply ex_wf|reflexivity]|].
  intros _ st' (_ & _ & Hr & Hv & _). split.
  - rewrite (Hr 1%nat [4608]) by reflexivity. vm_compute. reflexivity.
  - rewrite (Hv 4608 ex_ready); [reflexivity|reflexivity|]. exists 1%nat, [4608]. split; [reflexivity|left].
Defined.
Lemma prirr_no_starvation_witness :
  ∃ n, Z.of_nat n ≤ 7 ∧ wp (run_ticks n) (λ _ st', cpu_proc st'.1 = 4608) ex_st.
Proof.
  destruct (prirr_no_starvation ex_st 4608 ex_ready) as (n & Hn & Hw);
    [exact ex_ok|reflexivity|discriminate|split; [|reflexivity]; discriminate| |reflexivity|split; discriminate|].
  - exists 1%nat, [4608]. split; [reflexivity|left].
  - exists n. split; [exact Hn|]. eapply wp_mono; [exact Hw|]. by intros _ st' [_ ?].
Defined.
Lemma run_all_correct_witness :
  wp sched_run_all (λ _ st', sched_ok (E:=perms) st'.1) ((ex_stopped, ∅) : sched_state * perms).
Proof.
  eapply wp_mono; [apply run_all_correct; [exact ex_stopped_ok|reflexivity]|]. by intros r st' [? _].
Defined.
Lemma set_priority_correct_witness :
  wp (env_set_priority 5 0) (λ _ st', env_ready_queues st'.1 = [[4608]; []]) ex_st ∧
  env_set_priority 5 2 ex_st = Panic ex_st.
Proof.
  destruct (set_priority_correct ex_st 4608 ex_ready 0) as [H1 _]; [exact ex_ok|reflexivity|discriminate|].
  destruct (set_priority_correct ex_st 4608 ex_ready 2) as [_ H2]; [exact ex_ok|reflexivity|discriminate|].
  split.
  - eapply wp_mono; [apply H1; split; [discriminate|reflexivity]|]. intros _ st' (_ & _ & H & _).
    destruct (H eq_refl) as [_ ->]. reflexivity.
  - apply H2. right. discriminate.
Defined.
Lemma update_WS_correct_witness :
  wp update_WS_time_stamps (λ _ st', ∃ e', envs st'.1 = <[4096 := e']> ex_envs) ((ex_sched, {[(1, 1) := 39]}) : sched_state * perms).
Proof.
  eapply wp_mono; [apply (update_WS_correct _ ex_run)|].
  - discriminate.
  - reflexivity.
  - apply (bool_decide_unpack _). vm_compute. exact I.
  - intros w Hw. apply elem_of_cons in Hw as [->|Hw]; [split; [discriminate|reflexivity]|].
    apply list_elem_of_singleton in Hw as ->. split; [discriminate|reflexivity].
  - intros _ st' (e' & He' & _). exists e'. exact He'.
Defined.
Lemma exit_new_env_panics_witness : panics (sched_exit_env 6) ex_st.
Proof. apply (exit_new_env_panics ex_st 5120 ex_new); [exact ex_ok|left|reflexivity]. Defined.
Lemma kill_new_env_panics_witness : panics (sched_kill_env 6) ex_st.
Proof. apply (kill_new_env_panics ex_st 5120 ex_new); [exact ex_ok|left|reflexivity]. Defined.
Lemma sched_init_PRIRR_correct_witness :
  wp (sched_init_PRIRR 3 20 5) (λ _ st', env_ready_queues st'.1 = [[]; []; []] ∧ quantums st'.1 = [20; 20; 20])
    ((ex_stopped, ∅) : sched_state * perms).
Proof.
  eapply wp_mono; [apply sched_init_PRIRR_correct|].
  - intros n m. eexists _, m. split; [reflexivity|]. pose proof (Z.abs_nonneg n). lia.
  - intros p m. exists m. reflexivity.
  - reflexivity.
  - split; reflexivity.
  - split; reflexivity.
  - reflexivity.
  - intros _ st' (_ & Hr & Hq & _). split; [exact Hr|exact Hq].
Defined.
