(* ===== verification/Paging.v ===== *)
(** * Physical frames and page tables (kern/mem/memory_manager.c,
    kern/mem/memory_manager.h, kern/mem/paging_helpers.c, inc/mmu.h)

    The table of frames with its free list, and the two-level page tables of the
    processor. A frame is named by its index in [frames_info]; a page directory
    or page table is an array of 1024 entries named by the kernel virtual
    address of its first one. The TLB is not modelled: the functions that
    invalidate it do nothing else. *)

From S2P Require Import Prelude Queue.

Definition KERNEL_BASE : Z := 4026531840. (* 0xF0000000 *)
Definition USER_TOP : Z := 4005560320. (* 0xEEC00000 *)
Definition PERM_PRESENT : Z := 1.
Definition PERM_WRITEABLE : Z := 2.
Definition PERM_USER : Z := 4.
Definition PERM_USED : Z := 32.
Definition PERM_MODIFIED : Z := 64.
Definition PERM_BUFFERED : Z := 512.
Definition PERM_UHPAGE : Z := 1024.
Definition PERM_AVAILABLE : Z := 3584. (* 0xE00 *)
Definition E_NO_MEM : Z := -4.
Definition TABLE_IN_MEMORY : Z := 0.
Definition TABLE_NOT_EXIST : Z := 1.
Definition PHYS_IO_MEM : Z := 655360. (* 0xA0000 *)
Definition PHYS_EXTENDED_MEM : Z := 1048576. (* 0x100000 *)

Definition PDX (la : Z) : Z := Z.land (Z.shiftr (w32 la) 22) 1023.
Definition PTX (la : Z) : Z := Z.land (Z.shiftr (w32 la) 12) 1023.
Definition PPN (la : Z) : Z := Z.shiftr (w32 la) 12.
Definition EXTRACT_ADDRESS (entry : Z) : Z := Z.land (w32 entry) (Z.lnot 4095).
Definition CONSTRUCT_ENTRY (phys_frame_address permissions : Z) : Z :=
  w32 (Z.lor phys_frame_address permissions).
Definition CHECK_IF_KERNEL_ADDRESS (va : Z) : bool := bool_decide (USER_TOP ≤ w32 va ≤ 4294967295).

Record FrameInfo := FI {
  references : Z;      (* uint16 *)
  proc : Z;
  isBuffered : Z;      (* unsigned char *)
  fi_va : Z
}.
Definition zero_frame : FrameInfo := FI 0 0 0 0.

Record mm := MM {
  frames_info : list FrameInfo;
  free_frame_list : list Z;
  modified_frame_list : list Z;
  mfllock : bool;
  arrays : gmap Z (list Z);        (* page directories and page tables *)
  ptr_page_directory : Z;
  cr2 : Z
}.
Definition number_of_frames (s : mm) : Z := Z.of_nat (length (frames_info s)).
Definition set_frames (x : list FrameInfo) (s : mm) : mm :=
  MM x (free_frame_list s) (modified_frame_list s) (mfllock s) (arrays s) (ptr_page_directory s) (cr2 s).
Definition set_free_list (x : list Z) (s : mm) : mm :=
  MM (frames_info s) x (modified_frame_list s) (mfllock s) (arrays s) (ptr_page_directory s) (cr2 s).
Definition set_modified_list (x : list Z) (s : mm) : mm :=
  MM (frames_info s) (free_frame_list s) x (mfllock s) (arrays s) (ptr_page_directory s) (cr2 s).
Definition set_mfllock (x : bool) (s : mm) : mm :=
  MM (frames_info s) (free_frame_list s) (modified_frame_list s) x (arrays s) (ptr_page_directory s) (cr2 s).
Definition set_arrays (x : gmap Z (list Z)) (s : mm) : mm :=
  MM (frames_info s) (free_frame_list s) (modified_frame_list s) (mfllock s) x (ptr_page_directory s) (cr2 s).
Definition lcr2 (x : Z) (s : mm) : mm :=
  MM (frames_info s) (free_frame_list s) (modified_frame_list s) (mfllock s) (arrays s) (ptr_page_directory s) x.

(** What this file calls: the kernel heap (kern/mem/kheap.c), which works on the
    same frames and tables, and the fault handler, called to bring in a page
    table that is on disk. *)
Class PageEnv (E : Type) := {
  kmalloc : Z → M (mm * E) Z;
  kfree : Z → M (mm * E) unit;
  kheap_virtual_address : Z → mm * E → Z;
  kheap_physical_address : Z → mm * E → Z;
  fault_handler : M (mm * E) unit;
  zero_page : Z → mm * E → mm * E      (* memset(va, 0, PAGE_SIZE) of a mapped page *)
}.

Section code.
Context {E : Type} `{PageEnv E}.
Notation P := (M (mm * E)).

Definition mget {A} (f : mm → A) : P A := gets (λ s, f s.1).
Definition mset (f : mm → mm) : P unit := modify (λ s, (f s.1, s.2)).

(** [ptr[i]] for an array of 1024 entries at [ptr]. *)
Definition entry (ptr i : Z) : P Z :=
  a ← mget arrays; l ← unwrap (a !! ptr); unwrap (l !! Z.to_nat i).
Definition set_entry (ptr i v : Z) : P unit :=
  a ← mget arrays; l ← unwrap (a !! ptr);
  _ ← unwrap (l !! Z.to_nat i);
  mset (set_arrays (<[ptr := <[Z.to_nat i := w32 v]> l]> a)).
Definition frame (i : Z) : P FrameInfo :=
  l ← mget frames_info; unwrap (l !! Z.to_nat i).
Definition upd_frame (i : Z) (f : FrameInfo → FrameInfo) : P unit :=
  x ← frame i; mset (λ s, set_frames (<[Z.to_nat i := f x]> (frames_info s)) s).

Definition to_physical_address (fi : Z) : Z := w32 (Z.shiftl fi 12).
Definition to_frame_info (pa : Z) : P Z :=
  n ← mget number_of_frames; if decide (n ≤ PPN pa) then panic else mret (PPN pa).
Definition STATIC_KERNEL_VIRTUAL_ADDRESS (pa : Z) : P Z :=
  n ← mget number_of_frames; if decide (n ≤ PPN pa) then panic else mret (w32 (pa + KERNEL_BASE)).

Definition initialize_frame_info (fi : Z) : P unit := upd_frame fi (λ _, zero_frame).

(** [lock_already_held] and the acquisition, the release at the end. *)
Definition acquire_mfllock : P bool :=
  held ← mget mfllock; when (negb held) (mset (set_mfllock true)) ;; mret held.
Definition release_mfllock (already_held : bool) : P unit :=
  when (negb already_held) (mset (set_mfllock false)).

Definition allocate_frame : P (Z * Z) :=
  already ← acquire_mfllock;
  l ← mget free_frame_list;
  match l with
  | [] => panic
  | fi :: _ =>
      l' ← lq_remove fi l;
      mset (set_free_list l') ;;
      initialize_frame_info fi ;;
      release_mfllock already ;;
      mret (0, fi)
  end.
Definition free_frame (fi : Z) : P unit :=
  already ← acquire_mfllock;
  initialize_frame_info fi ;;
  l ← mget free_frame_list;
  l' ← lq_insert_head fi l;
  mset (set_free_list l') ;;
  release_mfllock already.
(** [--(ptr_frame_info->references) == 0] on 16 bits. *)
Definition set_references (r : Z) (x : FrameInfo) : FrameInfo := FI r (proc x) (isBuffered x) (fi_va x).
Definition set_fi_va (va : Z) (x : FrameInfo) : FrameInfo := FI (references x) (proc x) (isBuffered x) va.
Definition decrement_references (fi : Z) : P unit :=
  x ← frame fi;
  upd_frame fi (set_references (w16 (references x - 1))) ;;
  if decide (w16 (references x - 1) = 0) then free_frame fi else mret ().

(** The kernel virtual address of the table a directory entry points to. *)
Definition table_address (va pde : Z) : P Z :=
  if CHECK_IF_KERNEL_ADDRESS va then STATIC_KERNEL_VIRTUAL_ADDRESS (EXTRACT_ADDRESS pde)
  else gets (kheap_virtual_address (EXTRACT_ADDRESS pde)).
(** The result code and [*ptr_page_table]. *)
Definition get_page_table (dir va : Z) : P (Z * Z) :=
  pde ← entry dir (PDX va);
  if decide (Z.land pde PERM_PRESENT = PERM_PRESENT) then
    t ← table_address va pde; mret (TABLE_IN_MEMORY, t)
  else if decide (pde ≠ 0) then
    mset (lcr2 (w32 va)) ;;
    fault_handler ;;
    pde ← entry dir (PDX va);
    t ← table_address va pde; mret (TABLE_IN_MEMORY, t)
  else mret (TABLE_NOT_EXIST, NULL).

Definition TABLE_PERM : Z := Z.lor (Z.lor PERM_PRESENT PERM_USER) PERM_WRITEABLE.
Definition new_table (t : Z) : P unit := mset (λ s, set_arrays (<[t := replicate 1024 0]> (arrays s)) s).
Definition create_page_table (dir va : Z) : P Z :=
  t ← kmalloc PAGE_SIZE;
  if decide (t = NULL) then panic else
  pa ← gets (kheap_physical_address t);
  set_entry dir (PDX va) (CONSTRUCT_ENTRY pa TABLE_PERM) ;;
  new_table t ;;
  mret t.
Definition __static_cpt (dir va : Z) : P Z :=
  r ← allocate_frame;
  let fi := r.2 in
  t ← STATIC_KERNEL_VIRTUAL_ADDRESS (to_physical_address fi);
  upd_frame fi (set_references 1) ;;
  set_entry dir (PDX va) (CONSTRUCT_ENTRY (to_physical_address fi) TABLE_PERM) ;;
  new_table t ;;
  mret t.

(** The frame mapped or buffered at an address, and the page table. *)
Definition get_frame_info (dir va : Z) : P (option Z * Z) :=
  r ← get_page_table dir va;
  let t := r.2 in
  if decide (t ≠ NULL) then
    pte ← entry t (PTX va);
    if decide (Z.land pte (Z.lnot 4095) ≠ 0 ∨ Z.land pte (Z.lor PERM_PRESENT PERM_BUFFERED) ≠ 0)
    then fi ← to_frame_info (EXTRACT_ADDRESS pte); mret (Some fi, t)
    else mret (None, t)
  else mret (None, t).

Definition unmap_frame (dir va : Z) : P unit :=
  r ← get_frame_info dir va;
  match r.1 with
  | Some fi =>
      decrement_references fi ;;
      upd_frame fi (set_fi_va 0) ;;
      pte ← entry r.2 (PTX va);
      set_entry r.2 (PTX va) (Z.land pte PERM_AVAILABLE)
  | None => mret ()
  end.

Definition map_frame (dir fi va perm : Z) : P Z :=
  let pa := to_physical_address fi in
  r ← get_page_table dir va;
  t ← (if decide (r.1 = TABLE_NOT_EXIST) then create_page_table dir va else mret r.2);
  pte ← entry t (PTX va);
  let present := bool_decide (Z.land pte PERM_PRESENT = PERM_PRESENT) in
  if present && bool_decide (EXTRACT_ADDRESS pte = pa) then mret 0
  else
    when present (unmap_frame dir va) ;;
    x ← frame fi;
    upd_frame fi (set_references (w16 (references x + 1))) ;;
    upd_frame fi (set_fi_va va) ;;
    pte ← entry t (PTX va);
    set_entry t (PTX va)
      (CONSTRUCT_ENTRY pa (Z.lor (Z.lor (Z.land pte PERM_AVAILABLE) perm) PERM_PRESENT)) ;;
    mret 0.

Definition loadtime_map_frame (dir fi va perm : Z) : P Z :=
  pde ← entry dir (PDX va);
  t0 ← table_address va pde;
  t ← (if decide (pde = 0) then create_page_table dir va else mret t0);
  x ← frame fi;
  upd_frame fi (set_references (w16 (references x + 1))) ;;
  set_entry t (PTX va) (CONSTRUCT_ENTRY (to_physical_address fi) (Z.lor perm PERM_PRESENT)) ;;
  mret 0.

(** [for (i = a; i < b; i++)] of [initialize_paging]. *)
Definition frame_range (a b : Z) : list Z := seqZ a (b - a).
Definition give_frame (i : Z) : P unit :=
  initialize_frame_info i ;;
  l ← mget free_frame_list; l' ← lq_insert_head i l; mset (set_free_list l').
Definition hold_frame (i : Z) : P unit := upd_frame i (set_references 1).
(** [free_mem] is the physical address of [ptr_free_mem]; the page file is
    initialised afterwards. The code also clears the first 1024 bytes of the zero
    page and of the temporary page; that is memory of frames 1 and 2, which is not
    part of this state. *)
Definition initialize_paging (free_mem : Z) : P unit :=
  mset (set_free_list []) ;;
  mset (set_modified_list []) ;;
  mset (set_mfllock false) ;;
  hold_frame 0 ;; hold_frame 1 ;; hold_frame 2 ;;
  let range_end := ROUNDUP PHYS_IO_MEM PAGE_SIZE in
  mfor (frame_range 3 (range_end / PAGE_SIZE)) give_frame ;;
  mfor (frame_range (PHYS_IO_MEM / PAGE_SIZE) (PHYS_EXTENDED_MEM / PAGE_SIZE)) hold_frame ;;
  let range_end := ROUNDUP free_mem PAGE_SIZE in
  mfor (frame_range (PHYS_EXTENDED_MEM / PAGE_SIZE) (range_end / PAGE_SIZE)) hold_frame ;;
  n ← mget number_of_frames;
  mfor (frame_range (range_end / PAGE_SIZE) n) give_frame.

Record freeFramesCounters := FFC { freeBuffered : Z; freeNotBuffered : Z; modified : Z }.
Fixpoint count_free (l : list Z) (buf unbuf : Z) : P (Z * Z) :=
  match l with
  | [] => mret (buf, unbuf)
  | i :: l => x ← frame i;
      if decide (isBuffered x ≠ 0) then count_free l (w32 (buf + 1)) unbuf
      else count_free l buf (w32 (unbuf + 1))
  end.
Definition calculate_available_frames : P freeFramesCounters :=
  already ← acquire_mfllock;
  l ← mget free_frame_list;
  c ← count_free l 0 0;
  m ← mget modified_frame_list;
  release_mfllock already ;;
  mret (FFC c.1 c.2 (w32 (Z.of_nat (length m)))).

(** ** kern/mem/paging_helpers.c *)
Definition pt_set_page_permissions (dir va set clear : Z) : P unit :=
  r ← get_page_table dir va;
  if decide (r.2 ≠ NULL) then
    e ← entry r.2 (PTX va);
    set_entry r.2 (PTX va) (Z.lor e set) ;;
    e ← entry r.2 (PTX va);
    set_entry r.2 (PTX va) (Z.land e (Z.lnot clear))
  else panic.
Definition pt_get_page_permissions (dir va : Z) : P Z :=
  r ← get_page_table dir va;
  if decide (r.2 = NULL) then mret (-1)
  else e ← entry r.2 (PTX va); mret (Z.land e 4095).
Definition pt_clear_page_table_entry (dir va : Z) : P unit := panic.
Definition virtual_to_physical (dir va : Z) : P Z := panic.
Definition physical_to_virtual (dir pa : Z) : P Z := panic.
Definition num_of_references (pa : Z) : P Z := fi ← to_frame_info pa; x ← frame fi; mret (references x).
Definition alloc_page (dir va perms : Z) (set_to_zero : bool) : P Z :=
  r ← get_frame_info dir va;
  match r.1 with
  | Some _ => mret 1
  | None =>
      r ← allocate_frame;
      if decide (r.1 = E_NO_MEM) then mret E_NO_MEM else
      let fi := r.2 in
      ret ← map_frame dir fi va perms;
      if decide (ret = E_NO_MEM) then free_frame fi ;; mret E_NO_MEM
      else when set_to_zero (modify (zero_page va)) ;; mret 0
  end.
Definition alloc_shared_page (dir1 va1 dir2 va2 perms : Z) : P Z := panic.
(** The code works on the kernel's page directory, not on [page_dir]. *)
Definition del_page_table (page_dir va : Z) : P unit :=
  d ← mget ptr_page_directory;
  r ← get_page_table d va;
  if decide (r.2 = NULL) then mret () else
  kfree r.2 ;;
  d ← mget ptr_page_directory;
  set_entry d (PDX va) 0.
Definition pd_is_table_used (dir va : Z) : P Z :=
  e ← entry dir (PDX va); mret (if decide (Z.land e PERM_USED = PERM_USED) then 1 else 0).
Definition pd_set_table_unused (dir va : Z) : P unit :=
  e ← entry dir (PDX va); set_entry dir (PDX va) (Z.land e (Z.lnot PERM_USED)).
Definition pd_clear_page_dir_entry (dir va : Z) : P unit := set_entry dir (PDX va) 0.
End code.
