(* ===== verification/PagingSpec.v ===== *)
(** * Correctness of the page tables and the frame table

    Reference counts agree with the page tables, and mapping, unmapping and
    allocating a page keep it so; permissions are read back as they were set. *)

From S2P Require Import Prelude Queue Paging.

(** ** Entries *)
Lemma ldiff_4095 x : Z.land x (Z.lnot 4095) = 4096 * (x `div` 4096).
Proof.
  rewrite <- Z.ldiff_land. change 4095 with (Z.ones 12). rewrite Z.ldiff_ones_r by lia.
  rewrite Z.shiftl_mul_pow2, Z.shiftr_div_pow2 by lia. change (2 ^ 12) with 4096. lia.
Qed.
Lemma EXTRACT_div e : 0 ≤ e < 4294967296 → EXTRACT_ADDRESS e = 4096 * (e `div` 4096).
Proof. intros. unfold EXTRACT_ADDRESS. rewrite w32_small by done. apply ldiff_4095. Qed.
Lemma PPN_div e : 0 ≤ e < 4294967296 → PPN e = e `div` 4096.
Proof. intros. unfold PPN. rewrite w32_small by done. by rewrite Z.shiftr_div_pow2 by lia. Qed.
Lemma PPN_EXTRACT e : 0 ≤ e < 4294967296 → PPN (EXTRACT_ADDRESS e) = PPN e.
Proof.
  intros. rewrite EXTRACT_div by done. pose proof (Z.div_mod e 4096 ltac:(lia)). pose proof (Z.mod_pos_bound e 4096 ltac:(lia)).
  rewrite !PPN_div by lia. rewrite Z.mul_comm, Z.div_mul by lia. done.
Qed.
Lemma PTX_range va : 0 ≤ PTX va < 1024.
Proof.
  unfold PTX. change 1023 with (Z.ones 10). rewrite Z.land_ones by lia. apply Z.mod_pos_bound. lia.
Qed.
Lemma land_small_bits a b n : 0 ≤ n → 0 ≤ a → 0 ≤ b < 2 ^ n → 0 ≤ Z.land a b < 2 ^ n.
Proof.
  intros Hn Ha Hb. assert (0 ≤ Z.land a b) by (apply Z.land_nonneg; lia). split; [done|].
  destruct (decide (Z.land a b = 0)) as [->|Hne]; [lia|]. apply Z.log2_lt_pow2; [lia|].
  pose proof (Z.log2_land a b Ha ltac:(lia)).
  destruct (decide (b = 0)) as [->|]; [by rewrite Z.land_0_r in Hne|].
  assert (Z.log2 b < n) by (apply Z.log2_lt_pow2; lia). lia.
Qed.
Lemma lor_small_bits a b n : 0 ≤ n → 0 ≤ a < 2 ^ n → 0 ≤ b < 2 ^ n → 0 ≤ Z.lor a b < 2 ^ n.
Proof.
  intros Hn Ha Hb. assert (0 ≤ Z.lor a b) by (apply Z.lor_nonneg; lia). split; [done|].
  destruct (decide (Z.lor a b = 0)) as [->|Hne]; [lia|]. apply Z.log2_lt_pow2; [lia|].
  rewrite Z.log2_lor by lia. apply Z.max_lub_lt.
  - destruct (decide (a = 0)) as [->|]; [|apply Z.log2_lt_pow2; lia]. cbn.
    destruct (decide (n = 0)) as [->|]; [|lia]. change (2 ^ 0) with 1 in *. replace b with 0 in Hne by lia. done.
  - destruct (decide (b = 0)) as [->|]; [|apply Z.log2_lt_pow2; lia]. cbn.
    destruct (decide (n = 0)) as [->|]; [|lia]. change (2 ^ 0) with 1 in *. replace a with 0 in Hne by lia. done.
Qed.
Lemma ldiff_small_bits a b n : 0 ≤ n → 0 ≤ a < 2 ^ n → 0 ≤ Z.ldiff a b < 2 ^ n.
Proof.
  intros Hn Ha. assert (Z.ldiff a b = Z.ldiff a b `mod` 2 ^ n) as ->.
  - apply Z.bits_inj'. intros k Hk. destruct (decide (k < n)).
    + by rewrite Z.mod_pow2_bits_low.
    + rewrite Z.mod_pow2_bits_high, Z.ldiff_spec by lia. rewrite (testbit_small a k); [done|lia|].
      pose proof (Z.pow_le_mono_r 2 n k ltac:(lia) ltac:(lia)). lia.
  - apply Z.mod_pos_bound. lia.
Qed.
(** An entry built from a frame number and 12 bits of permissions. *)
Lemma CONSTRUCT_entry fi low :
  0 ≤ fi < 1048576 → 0 ≤ low < 4096 → CONSTRUCT_ENTRY (to_physical_address fi) low = 4096 * fi + low.
Proof.
  intros Hf Hl. unfold CONSTRUCT_ENTRY, to_physical_address.
  rewrite Z.shiftl_mul_pow2 by lia. change (2 ^ 12) with 4096. rewrite (w32_small (fi * 4096)) by lia.
  assert (Hland : Z.land (fi * 4096) low = 0).
  { apply Z.bits_inj'. intros n Hn. rewrite Z.land_spec, Z.bits_0. change 4096 with (2 ^ 12).
    destruct (decide (n < 12)) as [Hlt|Hge].
    - by rewrite Z.mul_pow2_bits_low.
    - rewrite (Z.bits_above_log2 low n); [by rewrite andb_false_r|lia|].
      destruct (decide (low = 0)) as [->|]; [cbn; lia|]. apply (Z.log2_lt_pow2 low n); [lia|].
      apply (Z.lt_le_trans _ (2 ^ 12)); [change (2 ^ 12) with 4096; lia|]. apply Z.pow_le_mono_r; lia. }
  rewrite <- Z.lxor_lor by done. rewrite <- Z.add_nocarry_lxor by done.
  rewrite w32_small by lia. lia.
Qed.
Lemma entry_parts fi low :
  0 ≤ fi < 1048576 → 0 ≤ low < 4096 →
  PPN (4096 * fi + low) = fi ∧ EXTRACT_ADDRESS (4096 * fi + low) = to_physical_address fi ∧
  Z.land (4096 * fi + low) 4095 = low.
Proof.
  intros Hf Hl. rewrite PPN_div, EXTRACT_div by lia.
  replace ((4096 * fi + low) `div` 4096) with fi by (apply (Z.div_unique_pos _ _ _ low); lia).
  split_and!; [done| |].
  - unfold to_physical_address. rewrite Z.shiftl_mul_pow2 by lia. change (2 ^ 12) with 4096. rewrite w32_small; lia.
  - change 4095 with (Z.ones 12). rewrite Z.land_ones by lia. change (2 ^ 12) with 4096.
    symmetry. apply (Z.mod_unique_pos _ _ fi); lia.
Qed.

(** What [get_frame_info] takes for a mapping. *)
Definition maps (e : Z) : bool :=
  bool_decide (Z.land e (Z.lnot 4095) ≠ 0 ∨ Z.land e (Z.lor PERM_PRESENT PERM_BUFFERED) ≠ 0).
Definition maps_frame (i : Z) (e : Z) : bool := maps e && bool_decide (PPN e = i).
Definition count_in (i : Z) (T : list Z) : nat := sum_list_with (λ e, if maps_frame i e then 1%nat else 0%nat) T.
Definition table_at (a : gmap Z (list Z)) (t : Z) : list Z := default [] (a !! t).
(** The number of entries of the tables [ts] that refer to frame [i]. *)
Definition count_refs (a : gmap Z (list Z)) (ts : gset Z) (i : Z) : nat :=
  sum_list_with (λ t, count_in i (table_at a t)) (elements ts).

Lemma count_in_insert i T k e e' :
  T !! k = Some e →
  (count_in i (<[k:=e']> T) + (if maps_frame i e then 1 else 0) =
   count_in i T + (if maps_frame i e' then 1 else 0))%nat.
Proof.
  unfold count_in. revert k. induction T as [|x T IH]; intros [|k] Hk; try done.
  - injection Hk as ->. cbn. lia.
  - cbn [lookup list_lookup] in Hk. specialize (IH k Hk). change (<[S k:=e']> (x :: T)) with (x :: <[k:=e']> T). cbn [sum_list_with]. lia.
Qed.
Lemma count_refs_insert a ts i t T k e e' :
  t ∈ ts → a !! t = Some T → T !! k = Some e →
  (count_refs (<[t := <[k:=e']> T]> a) ts i + (if maps_frame i e then 1 else 0) =
   count_refs a ts i + (if maps_frame i e' then 1 else 0))%nat.
Proof.
  intros Ht HT Hk. unfold count_refs.
  assert (Hp : elements ts ≡ₚ t :: elements (ts ∖ {[t]})).
  { rewrite (union_difference_L {[t]} ts) at 1 by set_solver.
    rewrite elements_disj_union by set_solver. by rewrite elements_singleton. }
  rewrite !Hp. cbn [sum_list_with].
  assert (Hrest : sum_list_with (λ t0, count_in i (table_at (<[t:=<[k:=e']> T]> a) t0)) (elements (ts ∖ {[t]})) =
                  sum_list_with (λ t0, count_in i (table_at a t0)) (elements (ts ∖ {[t]}))).
  { assert (Hn : t ∉ elements (ts ∖ {[t]})) by set_solver. clear Hp. revert Hn.
    induction (elements (ts ∖ {[t]})) as [|x l IH]; intros Hn; [done|]. cbn [sum_list_with].
    rewrite not_elem_of_cons in Hn. destruct Hn as [Hx Hn]. rewrite (IH Hn).
    unfold table_at. by rewrite lookup_insert_ne by done. }
  rewrite Hrest. unfold table_at at 1 3. rewrite lookup_insert_eq, HT. cbn [default].
  pose proof (count_in_insert i T k e e' Hk). cbn [id]. lia.
Qed.

(** ** The invariant of the frame and page tables

    [TS] are the page tables in use, [pins i] the references to frame [i] that
    are not entries of these tables (frames of the kernel image, directories),
    [A] the frames that [allocate_frame] has handed out and that nothing refers
    to yet. While an operation runs the count of a frame can be one off, which
    [mm_rel] expresses by an integer number of pins. *)
Definition entry_ok (n : Z) (e : Z) : Prop :=
  0 ≤ e < 4294967296 ∧ Z.land e PERM_BUFFERED = 0 ∧
  (maps e = true → Z.land e PERM_PRESENT = PERM_PRESENT ∧ PPN e < n).
Record mm_rel (TS : gset Z) (pins : Z → Z) (A : gset Z) (s : mm) : Prop := {
  inv_n : number_of_frames s ≤ 1048576;
  inv_table t : t ∈ TS → ∃ T, arrays s !! t = Some T ∧ length T = 1024%nat ∧ Forall (entry_ok (number_of_frames s)) T;
  inv_refs i x : 0 ≤ i → frames_info s !! Z.to_nat i = Some x →
    references x = Z.of_nat (count_refs (arrays s) TS i) + pins i ∧ 0 ≤ references x < 65536;
  inv_nodup : NoDup (free_frame_list s);
  inv_free i : i ∈ free_frame_list s ↔
    i ∉ A ∧ 0 ≤ i ∧ ∃ x, frames_info s !! Z.to_nat i = Some x ∧ references x = 0;
  inv_alloc i : i ∈ A → 0 ≤ i ∧ ∃ x, frames_info s !! Z.to_nat i = Some x ∧ references x = 0;
  inv_lock : mfllock s = false
}.
Definition mm_inv (TS : gset Z) (pins : Z → nat) (A : gset Z) (s : mm) : Prop :=
  mm_rel TS (λ i, Z.of_nat (pins i)) A s.

(** The entries that unmapping and mapping write. *)
Lemma maps_false e : Z.land e (Z.lnot 4095) = 0 → Z.land e (Z.lor PERM_PRESENT PERM_BUFFERED) = 0 → maps e = false.
Proof. intros. unfold maps. apply bool_decide_eq_false. tauto. Qed.
Lemma entry_ok_unmapped n e :
  entry_ok n e → entry_ok n (w32 (Z.land e PERM_AVAILABLE)) ∧ maps (w32 (Z.land e PERM_AVAILABLE)) = false ∧
  w32 (Z.land e PERM_AVAILABLE) = Z.land e PERM_AVAILABLE.
Proof.
  intros (Hr & Hb & _).
  pose proof (land_small_bits e PERM_AVAILABLE 12 ltac:(lia) ltac:(lia) ltac:(done)) as Hs. change (2 ^ 12) with 4096 in Hs.
  rewrite w32_small by lia.
  assert (Hm : maps (Z.land e PERM_AVAILABLE) = false).
  { apply maps_false; rewrite <- Z.land_assoc.
    - change (Z.land PERM_AVAILABLE (Z.lnot 4095)) with 0. apply Z.land_0_r.
    - exact Hb. }
  split_and!; [|done..]. split_and!; [lia|lia| |by rewrite Hm].
  rewrite <- Z.land_assoc. exact Hb.
Qed.
(** The permission bits of the new entry. *)
Definition mapped_bits (e perm : Z) : Z := Z.lor (Z.lor (Z.land e PERM_AVAILABLE) perm) PERM_PRESENT.
Lemma entry_ok_mapped n e fi perm :
  n ≤ 1048576 → 0 ≤ e → Z.land e PERM_BUFFERED = 0 → 0 ≤ fi < n → 0 ≤ perm < 4096 → Z.land perm PERM_BUFFERED = 0 →
  let e' := CONSTRUCT_ENTRY (to_physical_address fi) (mapped_bits e perm) in
  entry_ok n e' ∧ maps e' = true ∧ PPN e' = fi ∧ w32 e' = e' ∧
  EXTRACT_ADDRESS e' = to_physical_address fi ∧ Z.land e' 4095 = mapped_bits e perm.
Proof.
  intros Hn He Hb Hf Hp Hpb e'.
  assert (Hl : 0 ≤ mapped_bits e perm < 2 ^ 12).
  { unfold mapped_bits. apply lor_small_bits; [lia| |done]. apply lor_small_bits; [lia| |done].
    apply land_small_bits; done. }
  change (2 ^ 12) with 4096 in Hl.
  assert (Hbits : Z.land (mapped_bits e perm) PERM_PRESENT = PERM_PRESENT ∧ Z.land (mapped_bits e perm) PERM_BUFFERED = 0).
  { unfold mapped_bits. rewrite !Z.land_lor_distr_l, <- Z.land_assoc.
    change (Z.land PERM_AVAILABLE PERM_PRESENT) with 0. rewrite Z.land_0_r. split.
    - rewrite Z.lor_0_l. change (Z.land PERM_PRESENT PERM_PRESENT) with PERM_PRESENT.
      rewrite Z.lor_comm. apply Z.bits_inj'. intros k Hk. rewrite Z.lor_spec, Z.land_spec.
      destruct (Z.testbit PERM_PRESENT k), (Z.testbit perm k); done.
    - rewrite <- Z.land_assoc. change (Z.land PERM_AVAILABLE PERM_BUFFERED) with PERM_BUFFERED. by rewrite Hb, Hpb. }
  assert (e' = 4096 * fi + mapped_bits e perm) as Heq by (apply CONSTRUCT_entry; lia).
  destruct (entry_parts fi (mapped_bits e perm) ltac:(lia) ltac:(lia)) as (HP & HE & HL). rewrite <- Heq in HP, HE, HL.
  assert (Hlow : ∀ p, Z.land 4095 p = p → Z.land e' p = Z.land (mapped_bits e perm) p).
  { intros q Hq. rewrite <- HL, <- Z.land_assoc. by rewrite Hq. }
  destruct Hbits as [Hb1 Hb2].
  assert (Hm : maps e' = true).
  { unfold maps. apply bool_decide_eq_true. right. rewrite Hlow by done. intros H0.
    assert (Z.land (Z.land (mapped_bits e perm) (Z.lor PERM_PRESENT PERM_BUFFERED)) PERM_PRESENT = 0) as H1 by (by rewrite H0).
    rewrite <- Z.land_assoc in H1. change (Z.land (Z.lor PERM_PRESENT PERM_BUFFERED) PERM_PRESENT) with PERM_PRESENT in H1.
    rewrite Hb1 in H1. done. }
  split_and!; try done.
  - split_and!; [lia|lia|by rewrite Hlow|]. intros _. split; [by rewrite Hlow|]. lia.
  - apply w32_small. lia.
Qed.

Section paging.
Context {E : Type} `{PageEnv E}.
Implicit Types s : mm * E.

Lemma wp_mget {A} (f : mm → A) Q s : Q (f s.1) s → wp (mget f) Q s.
Proof. done. Qed.
Lemma wp_mset f Q s : Q tt (f s.1, s.2) → wp (mset f) Q s.
Proof. done. Qed.
Lemma wp_entry ptr i T e Q s :
  arrays s.1 !! ptr = Some T → T !! Z.to_nat i = Some e → Q e s → wp (entry ptr i) Q s.
Proof.
  intros HT Hi HQ. unfold entry. apply wp_bind, wp_mget, wp_bind.
  eapply wp_unwrap; [done|]. by eapply wp_unwrap.
Qed.
Lemma wp_set_entry ptr i v T e Q s :
  arrays s.1 !! ptr = Some T → T !! Z.to_nat i = Some e →
  Q tt (set_arrays (<[ptr := <[Z.to_nat i := w32 v]> T]> (arrays s.1)) s.1, s.2) → wp (set_entry ptr i v) Q s.
Proof.
  intros HT Hi HQ. unfold set_entry. apply wp_bind, wp_mget, wp_bind.
  eapply wp_unwrap; [done|]. apply wp_bind. eapply wp_unwrap; [done|]. by apply wp_mset.
Qed.
Lemma wp_frame i x Q s : frames_info s.1 !! Z.to_nat i = Some x → Q x s → wp (frame i) Q s.
Proof. intros Hx HQ. unfold frame. apply wp_bind, wp_mget. by eapply wp_unwrap. Qed.
Lemma wp_upd_frame i f x Q s :
  frames_info s.1 !! Z.to_nat i = Some x →
  Q tt (set_frames (<[Z.to_nat i := f x]> (frames_info s.1)) s.1, s.2) → wp (upd_frame i f) Q s.
Proof. intros Hx HQ. unfold upd_frame. apply wp_bind. eapply wp_frame; [done|]. by apply wp_mset. Qed.
Lemma wp_to_frame_info pa Q s : PPN pa < number_of_frames s.1 → Q (PPN pa) s → wp (to_frame_info pa) Q s.
Proof. intros. unfold to_frame_info. apply wp_bind, wp_mget. rewrite decide_False by lia. by apply wp_ret. Qed.

Lemma wp_free_frame fi x Q s :
  mfllock s.1 = false → fi ∉ free_frame_list s.1 → frames_info s.1 !! Z.to_nat fi = Some x →
  Q tt (set_free_list (fi :: free_frame_list s.1) (set_frames (<[Z.to_nat fi := zero_frame]> (frames_info s.1)) s.1), s.2) →
  wp (free_frame fi) Q s.
Proof.
  destruct s as [m E0]. destruct m as [fr fl ml lk ar pd c2]. cbn. intros -> Hn Hx HQ. unfold free_frame, acquire_mfllock.
  apply wp_bind, wp_bind, wp_mget. cbn [mfllock fst negb when]. apply wp_bind, wp_mset, wp_ret.
  apply wp_bind. eapply wp_upd_frame; [exact Hx|]. apply wp_bind, wp_mget. cbn. apply wp_bind. unfold wp.
  rewrite lq_insert_head_run by done. exact HQ.
Qed.
Lemma wp_allocate_frame fi rest x Q s :
  mfllock s.1 = false → free_frame_list s.1 = fi :: rest → fi ∉ rest → frames_info s.1 !! Z.to_nat fi = Some x →
  Q (0, fi) (set_free_list rest (set_frames (<[Z.to_nat fi := zero_frame]> (frames_info s.1)) s.1), s.2) →
  wp allocate_frame Q s.
Proof.
  destruct s as [m E0]. destruct m as [fr fl ml lk ar pd c2]. cbn. intros -> -> Hn Hx HQ. unfold allocate_frame, acquire_mfllock.
  apply wp_bind, wp_bind, wp_mget. cbn [mfllock fst negb when]. apply wp_bind, wp_mset, wp_ret.
  apply wp_bind, wp_mget. cbn. unfold wp, mbind, M_bind. rewrite lq_remove_hd by done. cbn.
  unfold initialize_frame_info. unfold upd_frame, frame, mget, gets, mbind, M_bind. cbn. rewrite Hx. exact HQ.
Qed.
Lemma allocate_frame_empty s : mfllock s.1 = false → free_frame_list s.1 = [] → panics allocate_frame s.
Proof.
  destruct s as [m E0]. destruct m as [fr fl ml lk ar pd c2]. cbn. intros -> ->. by eexists.
Qed.

(** ** Changes that keep the invariant *)
Definition b2z (b : bool) : Z := if b then 1 else 0.
Lemma rel_frame TS pins A m fi x y :
  mm_rel TS pins A m → frames_info m !! Z.to_nat fi = Some x → references y = references x →
  mm_rel TS pins A (set_frames (<[Z.to_nat fi := y]> (frames_info m)) m).
Proof.
  intros [Hn Ht Hr Hnd Hf Ha Hl] Hx Hy.
  assert (Hlk : ∀ i z, <[Z.to_nat fi := y]> (frames_info m) !! i = Some z →
                 ∃ z', frames_info m !! i = Some z' ∧ references z' = references z).
  { intros i z Hz. destruct (decide (i = Z.to_nat fi)) as [->|].
    - rewrite list_lookup_insert_eq in Hz by (by eapply lookup_lt_Some). injection Hz as <-. eauto.
    - rewrite list_lookup_insert_ne in Hz by done. eauto. }
  assert (Hlk' : ∀ i z, frames_info m !! i = Some z →
                 ∃ z', <[Z.to_nat fi := y]> (frames_info m) !! i = Some z' ∧ references z' = references z).
  { intros i z Hz. destruct (decide (i = Z.to_nat fi)) as [->|].
    - rewrite list_lookup_insert_eq by (by eapply lookup_lt_Some). exists y. split; [done|congruence].
    - rewrite list_lookup_insert_ne by done. eauto. }
  split; unfold number_of_frames in *; cbn; rewrite ?length_insert; try done.
  - intros i z Hi Hz. destruct (Hlk _ _ Hz) as (z' & Hz' & <-). by apply Hr.
  - intros i. rewrite Hf. split; intros (HA & Hi & z & Hz & H0).
    + destruct (Hlk' _ _ Hz) as (z' & ? & ?). split_and!; [done..|]. exists z'. split; [done|congruence].
    + destruct (Hlk _ _ Hz) as (z' & ? & ?). split_and!; [done..|]. exists z'. split; [done|congruence].
  - intros i Hi. destruct (Ha i Hi) as (? & z & Hz & H0). destruct (Hlk' _ _ Hz) as (z' & ? & ?).
    split; [done|]. exists z'. split; [done|congruence].
Qed.
Lemma rel_entry TS pins pins' A m t k T e e' :
  mm_rel TS pins A m → t ∈ TS → arrays m !! t = Some T → T !! k = Some e →
  entry_ok (number_of_frames m) e' →
  (∀ i, pins' i + b2z (maps_frame i e') = pins i + b2z (maps_frame i e)) →
  mm_rel TS pins' A (set_arrays (<[t := <[k:=e']> T]> (arrays m)) m).
Proof.
  intros [Hn Ht Hr Hnd Hf Ha Hl] HtTS HT Hk He' Hp.
  split; unfold number_of_frames in *; cbn; try done.
  - intros t' Ht'. destruct (decide (t = t')) as [<-|].
    + rewrite lookup_insert_eq. eexists. split; [done|]. destruct (Ht t Ht') as (T' & HT' & Hlen & HF).
      rewrite HT in HT'. injection HT' as <-. rewrite length_insert. split; [done|]. by apply Forall_insert.
    + rewrite lookup_insert_ne by done. by apply Ht.
  - intros i x Hi Hx. destruct (Hr i x Hi Hx) as [-> ?]. split; [|done].
    pose proof (count_refs_insert (arrays m) TS i t T k e e' HtTS HT Hk). specialize (Hp i). unfold b2z in Hp.
    destruct (maps_frame i e), (maps_frame i e'); lia.
Qed.

Lemma wp_decrement TS pins pins' A fi x Q s :
  mm_rel TS pins A s.1 → 0 ≤ fi → frames_info s.1 !! Z.to_nat fi = Some x → 0 < references x →
  (∀ i, pins' i = pins i - (if decide (i = fi) then 1 else 0)) →
  (∀ m y, mm_rel TS pins' A m → references y = references x - 1 →
     m = set_free_list (if decide (references x = 1) then fi :: free_frame_list s.1 else free_frame_list s.1)
           (set_frames (<[Z.to_nat fi := y]> (frames_info s.1)) s.1) → Q tt (m, s.2)) →
  wp (decrement_references fi) Q s.
Proof.
  destruct s as [m E0]. cbn [fst snd]. intros HI Hfi Hx Hpos Hp HQ.
  pose proof (inv_refs _ _ _ _ HI fi x Hfi Hx) as [Hcnt Hr].
  pose proof (lookup_lt_Some _ _ _ Hx) as Hlt.
  unfold decrement_references. apply wp_bind. eapply wp_frame; [exact Hx|].
  rewrite w16_small by lia. apply wp_bind. eapply wp_upd_frame; [exact Hx|]. cbn [fst snd].
  assert (Hfree : fi ∉ free_frame_list m).
  { rewrite (inv_free _ _ _ _ HI). intros (_ & _ & x' & Hx' & H0). rewrite Hx in Hx'. injection Hx' as <-. lia. }
  assert (HA : fi ∉ A).
  { intros HA. destruct (inv_alloc _ _ _ _ HI fi HA) as (_ & x' & Hx' & H0). rewrite Hx in Hx'. injection Hx' as <-. lia. }
  assert (Hrel : ∀ y, references y = references x - 1 →
    mm_rel TS pins' A (set_free_list (if decide (references x = 1) then fi :: free_frame_list m else free_frame_list m)
           (set_frames (<[Z.to_nat fi := y]> (frames_info m)) m))).
  { intros y Hy. destruct HI as [Hn Ht Hrf Hnd Hf Ha Hl].
    assert (Hlk : ∀ i, 0 ≤ i → i ≠ fi → <[Z.to_nat fi := y]> (frames_info m) !! Z.to_nat i = frames_info m !! Z.to_nat i).
    { intros i Hi Hne. apply list_lookup_insert_ne. lia. }
    split; unfold number_of_frames in *; cbn; rewrite ?length_insert; try done.
    - intros i z Hi Hz. rewrite Hp. destruct (decide (i = fi)) as [->|Hne].
      + rewrite list_lookup_insert_eq in Hz by done. injection Hz as <-. lia.
      + rewrite Hlk in Hz by done. destruct (Hrf i z Hi Hz). lia.
    - case_decide; [|done]. by constructor.
    - intros i. destruct (decide (i = fi)) as [->|Hne].
      + rewrite list_lookup_insert_eq by done. case_decide.
        * split; [|intros; by left]. intros _. split_and!; [done..|]. eexists. split; [done|lia].
        * split; [done|]. intros (_ & _ & z & Hz & Hz0). injection Hz as <-. lia.
      + assert (i ∈ (if decide (references x = 1) then fi :: free_frame_list m else free_frame_list m)
                 ↔ i ∈ free_frame_list m) as -> by (case_decide; rewrite ?elem_of_cons; naive_solver).
        rewrite Hf. split; intros (? & ? & ?); (split_and!; [done..|]); by rewrite Hlk in * by done.
    - intros i Hi. rewrite Hlk; [by apply Ha|by apply Ha|]. by intros ->. }
  destruct (decide (references x - 1 = 0)) as [H1|H1].
  - eapply wp_free_frame; cbn [fst snd].
    + exact (inv_lock _ _ _ _ HI).
    + exact Hfree.
    + unfold set_frames. cbn. by rewrite list_lookup_insert_eq.
    + unfold set_frames, set_free_list. cbn. rewrite list_insert_insert_eq.
      specialize (HQ _ zero_frame (Hrel zero_frame ltac:(cbn; lia)) ltac:(cbn; lia) eq_refl).
      rewrite decide_True in HQ by lia. exact HQ.
  - apply wp_ret. specialize (HQ _ (set_references (references x - 1) x) (Hrel (set_references (references x - 1) x) eq_refl) eq_refl eq_refl).
    rewrite decide_False in HQ by lia. destruct m. exact HQ.
Qed.

Lemma rel_take TS pins pins' A m fi x y :
  mm_rel TS pins A m → 0 ≤ fi → frames_info m !! Z.to_nat fi = Some x →
  references x + 1 < 65536 → references y = references x + 1 → (references x = 0 → fi ∈ A) →
  (∀ i, pins' i = pins i + (if decide (i = fi) then 1 else 0)) →
  mm_rel TS pins' (A ∖ {[fi]}) (set_frames (<[Z.to_nat fi := y]> (frames_info m)) m).
Proof.
  intros [Hn Ht Hrf Hnd Hf Ha Hl] Hfi Hx Hb Hy HA Hp.
  pose proof (lookup_lt_Some _ _ _ Hx) as Hlt. destruct (Hrf fi x Hfi Hx) as [Hc Hr0].
  assert (Hlk : ∀ i, 0 ≤ i → i ≠ fi → <[Z.to_nat fi := y]> (frames_info m) !! Z.to_nat i = frames_info m !! Z.to_nat i).
  { intros i Hi Hne. apply list_lookup_insert_ne. lia. }
  split; unfold number_of_frames in *; cbn; rewrite ?length_insert; try done.
  - intros i z Hi Hz. rewrite Hp. destruct (decide (i = fi)) as [->|Hne].
    + rewrite list_lookup_insert_eq in Hz by done. injection Hz as <-. lia.
    + rewrite Hlk in Hz by done. destruct (Hrf i z Hi Hz). lia.
  - intros i. rewrite Hf. destruct (decide (i = fi)) as [->|Hne].
    + rewrite list_lookup_insert_eq by done. split.
      * intros (HnA & _ & z & Hz & Hz0). rewrite Hx in Hz. injection Hz as <-. by destruct HnA; apply HA.
      * intros (_ & _ & z & Hz & Hz0). injection Hz as <-. lia.
    + split; intros (? & ? & ?); (split_and!; [set_solver|done|]); by rewrite Hlk in * by done.
  - intros i Hi. apply elem_of_difference in Hi as [Hi Hne]. rewrite elem_of_singleton in Hne.
    destruct (Ha i Hi). rewrite Hlk; done.
Qed.

(** ** Looking a page up *)

(** The table of the page of [va], in memory, is at [t]. *)
Definition resolves (dir va t : Z) (s : mm * E) : Prop :=
  t ≠ NULL ∧ ∃ D pde, arrays s.1 !! dir = Some D ∧ D !! Z.to_nat (PDX va) = Some pde ∧
    Z.land pde PERM_PRESENT = PERM_PRESENT ∧
    if CHECK_IF_KERNEL_ADDRESS va
    then PPN (EXTRACT_ADDRESS pde) < number_of_frames s.1 ∧ t = w32 (EXTRACT_ADDRESS pde + KERNEL_BASE)
    else kheap_virtual_address (EXTRACT_ADDRESS pde) s = t.

Lemma wp_get_page_table dir va t Q s :
  resolves dir va t s → Q (TABLE_IN_MEMORY, t) s → wp (get_page_table dir va) Q s.
Proof.
  intros (Ht & D & pde & HD & Hpde & Hp & Hk) HQ. unfold get_page_table. apply wp_bind.
  eapply wp_entry; [exact HD|exact Hpde|]. rewrite decide_True by done.
  apply wp_bind. unfold table_address, STATIC_KERNEL_VIRTUAL_ADDRESS. destruct (CHECK_IF_KERNEL_ADDRESS va).
  - destruct Hk as [Hk ->]. apply wp_bind, wp_mget. rewrite decide_False by lia. by apply wp_ret, wp_ret.
  - subst t. by apply wp_gets, wp_ret.
Qed.
(** The page table entry of a page. *)
Definition pte_of (t va : Z) (s : mm) : Z := table_at (arrays s) t !!! Z.to_nat (PTX va).
Lemma rel_pte TS pins A (s : mm) t va :
  mm_rel TS pins A s → t ∈ TS →
  ∃ T, arrays s !! t = Some T ∧ T !! Z.to_nat (PTX va) = Some (pte_of t va s) ∧ entry_ok (number_of_frames s) (pte_of t va s).
Proof.
  intros HI Ht. destruct (inv_table _ _ _ _ HI t Ht) as (T & HT & Hlen & HF). pose proof (PTX_range va).
  destruct (lookup_lt_is_Some_2 T (Z.to_nat (PTX va)) ltac:(lia)) as [e He].
  assert (pte_of t va s = e) as ->.
  { unfold pte_of, table_at. rewrite HT. by apply list_lookup_total_correct. }
  exists T. split_and!; [done..|]. by eapply Forall_lookup_1.
Qed.
Lemma PPN_nonneg e : 0 ≤ PPN e.
Proof. unfold PPN. apply Z.shiftr_nonneg. apply w32_range. Qed.
Lemma wp_get_frame_info TS pins A dir va t Q s :
  mm_rel TS pins A s.1 → t ∈ TS → resolves dir va t s →
  Q (if maps (pte_of t va s.1) then Some (PPN (pte_of t va s.1)) else None, t) s →
  wp (get_frame_info dir va) Q s.
Proof.
  intros HI Ht Hres HQ. unfold get_frame_info. apply wp_bind. eapply wp_get_page_table; [exact Hres|]. cbn [snd].
  destruct Hres as [Hnn _]. rewrite decide_True by done.
  destruct (rel_pte _ _ _ _ t va HI Ht) as (T & HT & He & Hr & Hb & Hm). apply wp_bind.
  eapply wp_entry; [exact HT|exact He|]. revert HQ. destruct (maps (pte_of t va s.1)) eqn:Hmp; intros HQ.
  - rewrite decide_True by (unfold maps in Hmp; by apply bool_decide_eq_true in Hmp).
    destruct (Hm eq_refl) as [_ Hlt]. apply wp_bind, wp_to_frame_info; rewrite PPN_EXTRACT by done; [done|].
    by apply wp_ret.
  - rewrite decide_False by (unfold maps in Hmp; by apply bool_decide_eq_false in Hmp). by apply wp_ret.
Qed.

(** ** Unmapping *)

(** The page table entry of [va] in table [t] replaced by [e]. *)
Definition set_pte (t va e : Z) (s : mm) : mm :=
  set_arrays (<[t := <[Z.to_nat (PTX va) := e]> (table_at (arrays s) t)]> (arrays s)) s.
(** One reference to frame [fi] less: [y] is its new descriptor, and it goes to
    the head of the free list when that was the last one. *)
Definition drop_ref (fi : Z) (x y : FrameInfo) (s : mm) : mm :=
  set_free_list (if decide (references x = 1) then fi :: free_frame_list s else free_frame_list s)
    (set_frames (<[Z.to_nat fi := y]> (frames_info s)) s).
Definition unmapped (t va : Z) (s s' : mm) : Prop :=
  let e := pte_of t va s in
  ∃ x y, frames_info s !! Z.to_nat (PPN e) = Some x ∧ references y = references x - 1 ∧ fi_va y = 0 ∧
    s' = set_pte t va (Z.land e PERM_AVAILABLE) (drop_ref (PPN e) x y s).

Lemma count_refs_pos a ts t T k e i :
  t ∈ ts → a !! t = Some T → T !! k = Some e → maps_frame i e = true → (0 < count_refs a ts i)%nat.
Proof.
  intros Ht HT Hk Hm. pose proof (count_refs_insert a ts i t T k e 0 Ht HT Hk) as Hc. rewrite Hm in Hc.
  destruct (maps_frame i 0) eqn:H0; [|lia]. unfold maps_frame in H0. by apply andb_true_iff in H0 as [H0 _].
Qed.
Lemma rel_mapped_frame TS pins A (s : mm) t va :
  mm_rel TS pins A s → t ∈ TS → maps (pte_of t va s) = true → (∀ i, 0 ≤ pins i) →
  ∃ x, frames_info s !! Z.to_nat (PPN (pte_of t va s)) = Some x ∧ 0 < references x.
Proof.
  intros HI Ht Hm Hpins. destruct (rel_pte _ _ _ _ t va HI Ht) as (T & HT & He & Hr & Hb & Hlt).
  destruct (Hlt Hm) as [_ Hn]. pose proof (PPN_nonneg (pte_of t va s)). unfold number_of_frames in Hn.
  destruct (lookup_lt_is_Some_2 (frames_info s) (Z.to_nat (PPN (pte_of t va s))) ltac:(lia)) as [x Hx].
  exists x. split; [done|]. destruct (inv_refs _ _ _ _ HI _ _ (PPN_nonneg _) Hx) as [-> _].
  pose proof (count_refs_pos _ _ _ _ _ _ (PPN (pte_of t va s)) Ht HT He) as Hc.
  unfold maps_frame in Hc. rewrite Hm, bool_decide_true in Hc by done. specialize (Hc eq_refl).
  specialize (Hpins (PPN (pte_of t va s))). lia.
Qed.
Lemma maps_frame_decide i e : b2z (maps_frame i e) = if maps e then (if decide (i = PPN e) then 1 else 0) else 0.
Proof.
  unfold maps_frame, b2z. destruct (maps e); [|done]. cbn. case_decide; case_bool_decide; congruence.
Qed.

Lemma wp_unmap_frame TS pins A dir va t Q s :
  mm_rel TS pins A s.1 → (∀ i, 0 ≤ pins i) → t ∈ TS → resolves dir va t s →
  (maps (pte_of t va s.1) = false → Q tt s) →
  (∀ m, maps (pte_of t va s.1) = true → mm_rel TS pins A m → unmapped t va s.1 m → Q tt (m, s.2)) →
  wp (unmap_frame dir va) Q s.
Proof.
  intros HI Hpins Ht Hres HQ0 HQ1. unfold unmap_frame. apply wp_bind. eapply wp_get_frame_info; [done..|]. cbn [fst].
  destruct (maps (pte_of t va s.1)) eqn:Hm; [|by apply wp_ret, HQ0]. cbn [snd].
  destruct (rel_pte _ _ _ _ t va HI Ht) as (T & HT & He & Hok).
  destruct (rel_mapped_frame _ _ _ _ t va HI Ht Hm Hpins) as (x & Hx & Hpos).
  set (e := pte_of t va s.1) in *. pose proof (lookup_lt_Some _ _ _ Hx) as Hlt.
  apply wp_bind. eapply (wp_decrement TS pins _ A (PPN e) x); [done|apply PPN_nonneg|done..|].
  intros m y Hrel Hy Hmeq. assert (frames_info m !! Z.to_nat (PPN e) = Some y) as Hy2.
  { rewrite Hmeq. cbn. by rewrite list_lookup_insert_eq. }
  apply wp_bind. eapply wp_upd_frame; [exact Hy2|]. cbn [fst snd].
  apply (rel_frame _ _ _ _ (PPN e) y (set_fi_va 0 y)) in Hrel; [|done..]. 
  assert (HT2 : arrays m !! t = Some T) by (by rewrite Hmeq).
  assert (Hn2 : number_of_frames m = number_of_frames s.1).
  { rewrite Hmeq. unfold number_of_frames. cbn. by rewrite length_insert. }
  apply wp_bind. eapply wp_entry; [exact HT2|exact He|]. eapply wp_set_entry; [exact HT2|exact He|]. cbn [fst snd].
  destruct (entry_ok_unmapped _ _ Hok) as (Hok' & Hm' & Hw). apply HQ1; [done| |].
  - eapply rel_entry; [exact Hrel|done|exact HT2|exact He| |].
    + unfold number_of_frames in *. cbn. rewrite length_insert, Hn2. exact Hok'.
    + intros i. cbn beta. rewrite !maps_frame_decide. unfold PERM_AVAILABLE in *. rewrite Hm, Hm'. lia.
  - exists x, (set_fi_va 0 y). split_and!; [done..|]. rewrite Hw, Hmeq. unfold set_pte, drop_ref, table_at.
    destruct (s.1). cbn in *. rewrite HT. by rewrite list_insert_insert_eq.
Qed.

(** ** Mapping *)
Definition mapped (t va fi perm : Z) (s s' : mm) : Prop :=
  ∃ x, frames_info s !! Z.to_nat fi = Some x ∧
    s' = set_pte t va (CONSTRUCT_ENTRY (to_physical_address fi) (mapped_bits (pte_of t va s) perm))
           (set_frames (<[Z.to_nat fi := FI (references x + 1) (proc x) (isBuffered x) va]> (frames_info s)) s).

Lemma present_maps n e : entry_ok n e → maps e = bool_decide (Z.land e PERM_PRESENT = PERM_PRESENT).
Proof.
  intros (_ & _ & Hm). destruct (maps e) eqn:He.
  - symmetry. apply bool_decide_eq_true. by destruct Hm.
  - symmetry. apply bool_decide_eq_false. intros Hp. unfold maps in He. apply bool_decide_eq_false in He.
    apply He. right. rewrite Z.land_lor_distr_r, Hp. intros H0. apply Z.lor_eq_0_iff in H0 as [H0 _]. done.
Qed.
Lemma EXTRACT_eq n e fi : entry_ok n e → n ≤ 1048576 → 0 ≤ fi < n → EXTRACT_ADDRESS e = to_physical_address fi ↔ PPN e = fi.
Proof.
  intros (Hr & _) Hn Hf. unfold to_physical_address. rewrite Z.shiftl_mul_pow2 by lia. change (2 ^ 12) with 4096.
  rewrite w32_small, EXTRACT_div, PPN_div by lia. lia.
Qed.
Lemma wp_map_step TS pins A t va fi perm x s (Q : Z → mm * E → Prop) :
  mm_rel TS pins A s.1 → t ∈ TS → 0 ≤ fi → maps (pte_of t va s.1) = false →
  frames_info s.1 !! Z.to_nat fi = Some x → references x + 1 < 65536 → (references x = 0 → fi ∈ A) →
  0 ≤ perm < 4096 → Z.land perm PERM_BUFFERED = 0 →
  (∀ m, mm_rel TS pins (A ∖ {[fi]}) m → mapped t va fi perm s.1 m → Q 0 (m, s.2)) →
  wp (x ← frame fi;
      upd_frame fi (set_references (w16 (references x + 1))) ;;
      upd_frame fi (set_fi_va va) ;;
      pte ← entry t (PTX va);
      set_entry t (PTX va)
        (CONSTRUCT_ENTRY (to_physical_address fi) (Z.lor (Z.lor (Z.land pte PERM_AVAILABLE) perm) PERM_PRESENT)) ;;
      mret 0) Q s.
Proof.
  intros HI Ht Hfi Hm Hx Hb HA Hp Hpb HQ. pose proof (lookup_lt_Some _ _ _ Hx) as Hlt.
  destruct (rel_pte _ _ _ _ t va HI Ht) as (T & HT & He & Hok). set (e := pte_of t va s.1) in *.
  pose proof (inv_refs _ _ _ _ HI fi x Hfi Hx) as [_ Hr]. pose proof (inv_n _ _ _ _ HI) as Hn.
  apply wp_bind. eapply wp_frame; [exact Hx|]. rewrite w16_small by lia.
  apply wp_bind. eapply wp_upd_frame; [exact Hx|]. cbn [fst snd].
  apply wp_bind. eapply wp_upd_frame. { cbn. by rewrite list_lookup_insert_eq. } cbn [fst snd].
  apply wp_bind. eapply wp_entry; [exact HT|exact He|].
  apply wp_bind. eapply wp_set_entry; [exact HT|exact He|]. apply wp_ret. cbn [fst snd].
  destruct (entry_ok_mapped (number_of_frames s.1) e fi perm) as (Hok' & Hm' & HP & Hw & _);
    [done|apply Hok|apply Hok|unfold number_of_frames; lia|done..|].
  fold (mapped_bits e perm). rewrite Hw. set (y := set_fi_va va (set_references (references x + 1) x)).
  match goal with |- Q 0 (?m', _) => assert (m' = set_arrays (<[t := <[Z.to_nat (PTX va) :=
     CONSTRUCT_ENTRY (to_physical_address fi) (mapped_bits e perm)]> T]> (arrays s.1))
     (set_frames (<[Z.to_nat fi := y]> (frames_info s.1)) s.1)) as -> end.
  { unfold set_arrays, set_frames. cbn. by rewrite list_insert_insert_eq. }
  apply HQ.
  - assert (Hrel : mm_rel TS (λ i, pins i + (if decide (i = fi) then 1 else 0)) (A ∖ {[fi]})
                     (set_frames (<[Z.to_nat fi := y]> (frames_info s.1)) s.1)) by (by eapply rel_take).
    refine (rel_entry _ _ pins _ _ t _ T e _ Hrel Ht HT He _ _).
    + unfold number_of_frames in *. cbn. rewrite length_insert. exact Hok'.
    + intros i. rewrite !maps_frame_decide, Hm, Hm', HP. lia.
  - exists x. split; [done|]. unfold set_pte, table_at, set_frames. cbn. by rewrite HT.
Qed.

Lemma wp_map_frame TS pins A dir fi va perm t x s (Q : Z → mm * E → Prop) :
  mm_rel TS pins A s.1 → (∀ i, 0 ≤ pins i) → t ∈ TS → resolves dir va t s → 0 ≤ fi →
  frames_info s.1 !! Z.to_nat fi = Some x → references x + 1 < 65536 → (references x = 0 → fi ∈ A) →
  0 ≤ perm < 4096 → Z.land perm PERM_BUFFERED = 0 →
  (maps_frame fi (pte_of t va s.1) = true → Q 0 s) →
  (∀ m m', maps_frame fi (pte_of t va s.1) = false →
     (if maps (pte_of t va s.1) then unmapped t va s.1 m else m = s.1) →
     mapped t va fi perm m m' → mm_rel TS pins (A ∖ {[fi]}) m' → Q 0 (m', s.2)) →
  wp (map_frame dir fi va perm) Q s.
Proof.
  intros HI Hpins Ht Hres Hfi Hx Hb HA Hp Hpb HQ0 HQ1. unfold map_frame. pose proof (lookup_lt_Some _ _ _ Hx) as Hlt.
  destruct (rel_pte _ _ _ _ t va HI Ht) as (T & HT & He & Hok).
  apply wp_bind. eapply wp_get_page_table; [done|]. cbn [fst snd]. rewrite decide_False by done.
  apply wp_bind, wp_ret, wp_bind. eapply wp_entry; [exact HT|exact He|]. cbv zeta.
  rewrite <- (present_maps _ _ Hok). revert HQ0 HQ1. unfold maps_frame. destruct (maps (pte_of t va s.1)) eqn:Hm; intros HQ0 HQ1; cbn [andb] in *.
  - destruct (decide (PPN (pte_of t va s.1) = fi)) as [Heq|Hne].
    + rewrite bool_decide_true by (eapply EXTRACT_eq; [exact Hok|apply HI|unfold number_of_frames; lia|done]).
      rewrite bool_decide_true in HQ0 by done. by apply wp_ret, HQ0.
    + rewrite bool_decide_false by (by rewrite (EXTRACT_eq _ _ _ Hok); [|apply HI|unfold number_of_frames; lia]).
      rewrite bool_decide_false in HQ1 by done. apply wp_bind. cbn [when].
      eapply wp_unmap_frame; [done..|by rewrite Hm|]. intros m _ Hrel Hun.
      destruct Hun as (z & y & Hz & Hy & Hva & Hmeq).
      assert (Hpte : pte_of t va m = Z.land (pte_of t va s.1) PERM_AVAILABLE).
      { rewrite Hmeq. unfold pte_of at 1, set_pte, table_at. cbn. rewrite lookup_insert_eq. cbn.
        apply list_lookup_total_insert_eq. rewrite HT. by eapply lookup_lt_Some. }
      destruct (entry_ok_unmapped _ _ Hok) as (_ & Hm' & Hw). rewrite Hw in Hm'.
      eapply wp_map_step; cbn [fst]; [exact Hrel|done|done|by rewrite Hpte| |done..|].
      * rewrite Hmeq. cbn. rewrite list_lookup_insert_ne; [done|]. pose proof (PPN_nonneg (pte_of t va s.1)). lia.
      * intros m' Hrel' Hmap. eapply HQ1; [done| |exact Hmap|done]. by exists z, y.
  - cbn [when]. apply wp_bind, wp_ret. eapply wp_map_step; [done..|]. intros m' Hrel Hmap. by eapply HQ1.
Qed.

Lemma pte_set_pte TS pins A (s : mm) t va e :
  mm_rel TS pins A s → t ∈ TS → pte_of t va (set_pte t va e s) = e.
Proof.
  intros HI Ht. destruct (rel_pte _ _ _ _ t va HI Ht) as (T & HT & He & _). unfold pte_of, set_pte, table_at. cbn.
  rewrite lookup_insert_eq. cbn. apply list_lookup_total_insert_eq. rewrite HT. by eapply lookup_lt_Some.
Qed.
Lemma mapped_bits_avail e perm : mapped_bits (Z.land e PERM_AVAILABLE) perm = mapped_bits e perm.
Proof. unfold mapped_bits. by rewrite <- Z.land_assoc. Qed.
(** What the entry is after a page is mapped. *)
Lemma mapped_entry TS pins A (s m m' : mm) t va fi perm :
  mm_rel TS pins A s → t ∈ TS → 0 ≤ perm < 4096 → Z.land perm PERM_BUFFERED = 0 → 0 ≤ fi →
  (if maps (pte_of t va s) then unmapped t va s m else m = s) → mapped t va fi perm m m' →
  PPN (pte_of t va m') = fi ∧ Z.land (pte_of t va m') 4095 = mapped_bits (pte_of t va s) perm.
Proof.
  intros HI Ht Hp Hpb Hfi Hm (x & Hx & ->). destruct (rel_pte _ _ _ _ t va HI Ht) as (T & HT & He & Hok).
  assert (Hbits : mapped_bits (pte_of t va m) perm = mapped_bits (pte_of t va s) perm ∧
                  number_of_frames m = number_of_frames s ∧ ∃ T', arrays m !! t = Some T' ∧ length T' = length T).
  { destruct (maps (pte_of t va s)).
    - destruct Hm as (y & z & Hy & _ & _ & ->). rewrite <- (mapped_bits_avail (pte_of t va s)).
      split_and!.
      + f_equal. unfold pte_of at 1, set_pte, table_at. cbn. rewrite lookup_insert_eq, HT. cbn.
        apply list_lookup_total_insert_eq. by eapply lookup_lt_Some.
      + unfold number_of_frames. cbn. by rewrite length_insert.
      + unfold set_pte. cbn. rewrite lookup_insert_eq. eexists. split; [done|]. unfold table_at. rewrite HT. apply length_insert.
    - subst m. split_and!; [done..|]. by exists T. }
  destruct Hbits as (Hb & Hn & T' & HT' & Hlen).
  assert (Hpte : pte_of t va (set_pte t va (CONSTRUCT_ENTRY (to_physical_address fi) (mapped_bits (pte_of t va m) perm))
    (set_frames (<[Z.to_nat fi:=FI (references x + 1) (proc x) (isBuffered x) va]> (frames_info m)) m)) =
    CONSTRUCT_ENTRY (to_physical_address fi) (mapped_bits (pte_of t va s) perm)).
  { rewrite Hb. unfold pte_of at 1, set_pte, table_at. cbn. rewrite lookup_insert_eq, HT'. cbn.
    apply list_lookup_total_insert_eq. rewrite Hlen. by eapply lookup_lt_Some. }
  rewrite Hpte. apply lookup_lt_Some in Hx. unfold number_of_frames in Hn.
  destruct (entry_ok_mapped (number_of_frames s) (pte_of t va s) fi perm) as (_ & _ & HP & _ & _ & HL);
    [apply HI|apply Hok|apply Hok|unfold number_of_frames; lia|done..|]. done.
Qed.
Lemma pte_set_other t va e t' va' (s : mm) :
  t' ≠ t ∨ PTX va' ≠ PTX va → pte_of t' va' (set_pte t va e s) = pte_of t' va' s.
Proof.
  intros Hne. unfold pte_of, set_pte, table_at. cbn. destruct (decide (t = t')) as [<-|].
  - rewrite lookup_insert_eq. cbn. pose proof (PTX_range va). pose proof (PTX_range va').
    apply list_lookup_total_insert_ne. destruct Hne; [done|]. lia.
  - by rewrite lookup_insert_ne.
Qed.
End paging.
