(* ===== verification/PagingThm.v ===== *)
(** * Physical frames and page tables: the theorems

    Unmapping, mapping and allocating a page, the permissions of a page, and
    the frame table that [initialize_paging] leaves. *)

From S2P Require Import Prelude Queue Paging PagingSpec.

(** What the page tables need of the kernel heap: the address of a table depends
    on nothing but the descriptor of its frame, and clearing a page changes
    neither a frame descriptor nor a page table. *)
Class PageEnvOk (E : Type) `{PageEnv E} : Prop := {
  kva_frame pa m m' e :
    frames_info m !! Z.to_nat (PPN pa) = frames_info m' !! Z.to_nat (PPN pa) →
    kheap_virtual_address pa (m, e) = kheap_virtual_address pa (m', e);
  zero_page_mm va s : (zero_page va s).1 = s.1
}.

Section alloc.
Context {E : Type} {PE : PageEnv E} {PO : PageEnvOk E}.
Implicit Types s : mm * E.

(** ** Allocating *)
Lemma rel_pop TS pins A m fi rest :
  mm_rel TS pins A m → free_frame_list m = fi :: rest →
  mm_rel TS pins ({[fi]} ∪ A) (set_free_list rest (set_frames (<[Z.to_nat fi := zero_frame]> (frames_info m)) m)) ∧
  fi ∉ rest ∧ 0 ≤ fi ∧ ∃ x, frames_info m !! Z.to_nat fi = Some x ∧ references x = 0.
Proof.
  intros HI Hfl. pose proof (inv_nodup _ _ _ _ HI) as Hnd. rewrite Hfl in Hnd. apply NoDup_cons in Hnd as [Hni Hnd].
  destruct (proj1 (inv_free _ _ _ _ HI fi)) as (HA & Hfi & x & Hx & H0); [rewrite Hfl; by left|].
  assert (Hrel : mm_rel TS pins A (set_frames (<[Z.to_nat fi := zero_frame]> (frames_info m)) m)).
  { eapply rel_frame; [done|exact Hx|]. by rewrite H0. }
  split; [|split_and!; [done..|by exists x]].
  pose proof (lookup_lt_Some _ _ _ Hx) as Hlt.
  assert (Hz : <[Z.to_nat fi := zero_frame]> (frames_info m) !! Z.to_nat fi = Some zero_frame)
    by (by apply list_lookup_insert_eq).
  destruct Hrel as [Hn Ht Hr Hnd' Hf Ha Hl]. split; try done.
  - intros i. specialize (Hf i). cbn in *. rewrite Hfl in Hf. rewrite elem_of_cons in Hf. split.
    + intros Hi. assert (i ≠ fi) by (by intros ->). destruct Hf as [Hf _]. destruct (Hf (or_intror Hi)) as (? & ? & ?).
      split_and!; [set_solver|done..].
    + intros (HnA & ? & ?). destruct Hf as [_ [->|?]]; [set_solver|set_solver|done].
  - intros i. rewrite elem_of_union, elem_of_singleton. intros [->|Hi]; [|by apply Ha].
    split; [done|]. exists zero_frame. done.
Qed.
(** The frame of the page table of [va]. *)
Definition table_frame (dir va : Z) (m : mm) : Z :=
  PPN (EXTRACT_ADDRESS (table_at (arrays m) dir !!! Z.to_nat (PDX va))).
Lemma resolves_frames dir va t m m' e :
  resolves dir va t (m, e) → arrays m' = arrays m → number_of_frames m' = number_of_frames m →
  frames_info m' !! Z.to_nat (table_frame dir va m) = frames_info m !! Z.to_nat (table_frame dir va m) →
  resolves dir va t (m', e).
Proof.
  intros (Ht & D & pde & HD & Hpde & Hp & Hk) Ha Hn Hf. cbn [fst] in *. split; [done|]. exists D, pde. cbn [fst].
  rewrite Ha, Hn. split_and!; [done..|]. destruct (CHECK_IF_KERNEL_ADDRESS va); [done|].
  rewrite <- Hk. apply kva_frame. unfold table_frame, table_at in Hf. rewrite HD in Hf. cbn [default id] in Hf.
  by rewrite (list_lookup_total_correct _ _ _ Hpde) in Hf.
Qed.

Lemma pins_nonneg (pins : Z → nat) i : 0 ≤ Z.of_nat (pins i).
Proof. lia. Qed.


(** C17: [map_frame] on an existing table keeps the reference counts exact. It
    changes nothing when the page is on that frame already; otherwise it first
    unmaps the frame that is there, then adds one reference to the new frame,
    records the address in it and writes the entry with the frame, the
    permissions, the present bit and the bits left to the system kept. *)
Theorem map_frame_correct TS pins A dir fi va perm t x s :
  mm_inv TS pins A s.1 → t ∈ TS → resolves dir va t s →
  0 ≤ fi → frames_info s.1 !! Z.to_nat fi = Some x → references x + 1 < 65536 → (references x = 0 → fi ∈ A) →
  0 ≤ perm < 4096 → Z.land perm PERM_BUFFERED = 0 →
  wp (map_frame dir fi va perm) (λ r s', r = 0 ∧ s'.2 = s.2 ∧
    if maps_frame fi (pte_of t va s.1) then s' = s
    else mm_inv TS pins (A ∖ {[fi]}) s'.1 ∧
      ∃ m, (if maps (pte_of t va s.1) then unmapped t va s.1 m else m = s.1) ∧ mapped t va fi perm m s'.1 ∧
      PPN (pte_of t va s'.1) = fi ∧ Z.land (pte_of t va s'.1) 4095 = mapped_bits (pte_of t va s.1) perm) s.
Proof.
  intros HI Ht Hres Hfi Hx Hb HA Hp Hpb.
  eapply wp_map_frame; [exact HI|apply pins_nonneg|done..| |].
  - by intros ->.
  - intros m m' -> Hm Hmap Hrel. split_and!; [done..|]. exists m. split_and!; [done..| |];
      by eapply (mapped_entry TS _ A s.1 m m').
Qed.

(** [alloc_page] of a page whose table exists returns 1 and changes nothing
    when a frame is there already, panics when no frame is free, and otherwise
    takes the first free frame, maps it with the permissions, clears it when
    asked to, and returns 0; the reference counts stay exact and no frame is
    left allocated but unmapped. *)
Theorem alloc_page_correct TS pins A dir va perms zero t s :
  mm_inv TS pins A s.1 → t ∈ TS → resolves dir va t s →
  table_frame dir va s.1 ∉ free_frame_list s.1 → 0 ≤ perms < 4096 → Z.land perms PERM_BUFFERED = 0 →
  if maps (pte_of t va s.1) then alloc_page dir va perms zero s = Ok 1 s
  else match free_frame_list s.1 with
  | [] => panics (alloc_page dir va perms zero) s
  | fi :: rest => wp (alloc_page dir va perms zero) (λ r s', r = 0 ∧ (zero = false → s'.2 = s.2) ∧
      mm_inv TS pins A s'.1 ∧ free_frame_list s'.1 = rest ∧
      PPN (pte_of t va s'.1) = fi ∧ Z.land (pte_of t va s'.1) 4095 = mapped_bits (pte_of t va s.1) perms ∧
      ∀ t' va', (t' ≠ t ∨ PTX va' ≠ PTX va) → pte_of t' va' s'.1 = pte_of t' va' s.1) s
  end.
Proof.
  intros HI Ht Hres Hused Hp Hpb.
  assert (Hget : wp (get_frame_info dir va) (λ r s', r =
    (if maps (pte_of t va s.1) then Some (PPN (pte_of t va s.1)) else None, t) ∧ s' = s) s).
  { by eapply wp_get_frame_info. }
  apply wp_Ok in Hget as (? & ? & Hget & -> & ->).
  destruct (maps (pte_of t va s.1)) eqn:Hm.
  { unfold alloc_page. by rewrite (bind_Ok _ _ _ _ _ Hget). }
  destruct (free_frame_list s.1) as [|fi rest] eqn:Hfl.
  { unfold alloc_page. apply panics_r. unfold wp. rewrite Hget. cbn [fst]. apply panics_l.
    apply allocate_frame_empty; [apply HI|done]. }
  destruct (rel_pop _ _ _ _ _ _ HI Hfl) as (Hrel & Hni & Hfi & x & Hx & H0).
  unfold alloc_page. apply wp_bind. unfold wp at 1. rewrite Hget. cbn [fst].
  apply wp_bind. eapply wp_allocate_frame; [apply HI|exact Hfl|exact Hni|exact Hx|]. cbn [fst snd].
  rewrite decide_False by done. set (m1 := set_free_list _ _) in *. pose proof (lookup_lt_Some _ _ _ Hx) as Hlt.
  apply wp_bind. eapply (wp_map_frame TS (λ i, Z.of_nat (pins i)) ({[fi]} ∪ A) dir fi va perms t zero_frame); cbn [fst snd].
  - exact Hrel.
  - apply pins_nonneg.
  - exact Ht.
  - destruct s as [m e]. eapply resolves_frames; [exact Hres|done| |].
    + unfold number_of_frames. cbn. by rewrite length_insert.
    + cbn. apply list_lookup_insert_ne. intros Heq. apply Hused.
      apply Z2Nat.inj in Heq; [|done|apply PPN_nonneg]. cbn. rewrite <- Heq. by left.
  - exact Hfi.
  - cbn. by apply list_lookup_insert_eq.
  - done.
  - intros _. set_solver.
  - done.
  - done.
  - change (pte_of t va m1) with (pte_of t va s.1). unfold maps_frame. by rewrite Hm.
  - change (pte_of t va m1) with (pte_of t va s.1). rewrite Hm. intros m m' _ -> Hmap Hrel'.
    rewrite decide_False by done.
    assert (HA : ({[fi]} ∪ A) ∖ {[fi]} = A).
    { assert (fi ∉ A) by (apply (inv_free _ _ _ _ HI); rewrite Hfl; by left). set_solver. }
    rewrite HA in Hrel'.
    destruct (mapped_entry TS _ _ m1 m1 m' t va fi perms Hrel Ht Hp Hpb Hfi ltac:(change (pte_of t va m1) with (pte_of t va s.1); by rewrite Hm) Hmap) as [HP HL].
    assert (Hother : free_frame_list m' = rest ∧ ∀ t' va', (t' ≠ t ∨ PTX va' ≠ PTX va) → pte_of t' va' m' = pte_of t' va' s.1).
    { destruct Hmap as (z & Hz & ->). split; [done|]. intros t' va' Hne. by rewrite pte_set_other. }
    destruct Hother as [Hfl' Hoth].
    apply wp_bind, wp_when; intros Hz; [apply wp_modify|]; apply wp_ret; rewrite ?zero_page_mm; cbn [fst snd];
      split_and!; try done. by rewrite Hz.
Qed.

(** ** Permissions *)
Lemma wp_set_page_permissions TS pins A dir va set clear t s (Q : unit → mm * E → Prop) :
  mm_inv TS pins A s.1 → t ∈ TS → resolves dir va t s → 0 ≤ set < 4294967296 → 0 ≤ clear →
  Q tt (set_pte t va (Z.ldiff (Z.lor (pte_of t va s.1) set) clear) s.1, s.2) →
  wp (pt_set_page_permissions dir va set clear) Q s.
Proof.
  intros HI Ht Hres Hs Hc HQ. destruct (rel_pte _ _ _ _ t va HI Ht) as (T & HT & He & Hok).
  unfold pt_set_page_permissions. apply wp_bind. eapply wp_get_page_table; [done|]. cbn [snd].
  rewrite decide_True by apply Hres. destruct Hok as [Hr _].
  pose proof (lor_small_bits (pte_of t va s.1) set 32 ltac:(lia) Hr Hs) as Hlor.
  change (2 ^ 32) with 4294967296 in Hlor.
  apply wp_bind. eapply wp_entry; [exact HT|exact He|].
  apply wp_bind. eapply wp_set_entry; [exact HT|exact He|]. rewrite w32_small by lia.
  assert (Hlt : (Z.to_nat (PTX va) < length T)%nat) by (by eapply lookup_lt_Some).
  apply wp_bind. eapply wp_entry. { cbn. by rewrite lookup_insert_eq. } { by apply list_lookup_insert_eq. }
  eapply wp_set_entry. { cbn. by rewrite lookup_insert_eq. } { by apply list_lookup_insert_eq. }
  rewrite <- Z.ldiff_land. rewrite w32_small.
  - cbn. unfold set_pte, table_at in HQ. rewrite HT in HQ. unfold set_arrays in *. cbn in *.
    by rewrite insert_insert_eq, list_insert_insert_eq.
  - exact (ldiff_small_bits _ clear 32 ltac:(lia) Hlor).
Qed.

(** The permissions that [pt_set_page_permissions] leaves are those that
    [pt_get_page_permissions] then returns: the old ones with [set] set and
    [clear] cleared. The frame of the page and every other page keep theirs. *)
Theorem page_permissions_roundtrip TS pins A dir va set clear t s :
  mm_inv TS pins A s.1 → t ∈ TS → t ≠ dir → resolves dir va t s → 0 ≤ set < 4096 → 0 ≤ clear < 4096 →
  wp (pt_set_page_permissions dir va set clear ;; pt_get_page_permissions dir va)
    (λ p s', p = Z.ldiff (Z.lor (Z.land (pte_of t va s.1) 4095) set) clear ∧ s'.2 = s.2 ∧
      PPN (pte_of t va s'.1) = PPN (pte_of t va s.1) ∧
      ∀ t' va', (t' ≠ t ∨ PTX va' ≠ PTX va) → pte_of t' va' s'.1 = pte_of t' va' s.1) s.
Proof.
  intros HI Ht Hdir Hres Hs Hc. apply wp_bind. eapply wp_set_page_permissions; [done..|lia|lia|].
  set (e' := Z.ldiff (Z.lor (pte_of t va s.1) set) clear). set (m' := set_pte t va e' s.1).
  assert (Hpte : pte_of t va m' = e') by (by eapply pte_set_pte).
  assert (Hres' : resolves dir va t (m', s.2)).
  { destruct s as [m e]. destruct Hres as (Hnn & D & pde & HD & Hpde & Hp & Hk). split; [done|]. exists D, pde.
    cbn [fst] in *. unfold m', set_pte. cbn [arrays set_arrays]. rewrite lookup_insert_ne by done. split_and!; [done..|].
    destruct (CHECK_IF_KERNEL_ADDRESS va); [done|]. rewrite <- Hk. by apply kva_frame. }
  unfold pt_get_page_permissions. apply wp_bind. eapply wp_get_page_table; [exact Hres'|]. cbn [snd].
  rewrite decide_False by apply Hres.
  destruct (rel_pte _ _ _ _ t va HI Ht) as (T & HT & He & Hr & _).
  assert (Hlt : (Z.to_nat (PTX va) < length T)%nat) by (by eapply lookup_lt_Some).
  apply wp_bind. eapply (wp_entry t (PTX va) (<[Z.to_nat (PTX va) := e']> T) e').
  { unfold m', set_pte, table_at. cbn. by rewrite lookup_insert_eq, HT. }
  { by apply list_lookup_insert_eq. }
  apply wp_ret. cbn [fst snd]. rewrite Hpte. split_and!; [| done | |].
  - assert (Hset : Z.land set 4095 = set).
    { change 4095 with (Z.ones 12). rewrite Z.land_ones by lia. apply Z.mod_small. change (2 ^ 12) with 4096. lia. }
    unfold e'. apply Z.bits_inj'. intros k Hk. rewrite <- Hset.
    rewrite !Z.land_spec, !Z.ldiff_spec, !Z.lor_spec, !Z.land_spec.
    destruct (Z.testbit (pte_of t va s.1) k), (Z.testbit set k), (Z.testbit clear k), (Z.testbit 4095 k); done.
  - unfold PPN, e'. rewrite !w32_small; [|done|].
    + rewrite Z.shiftr_ldiff, Z.shiftr_lor, (Z.shiftr_div_pow2 set), (Z.shiftr_div_pow2 clear) by lia.
      change (2 ^ 12) with 4096. rewrite (Z.div_small set), (Z.div_small clear) by lia. by rewrite Z.lor_0_r, Z.ldiff_0_r.
    + pose proof (lor_small_bits (pte_of t va s.1) set 32 ltac:(lia) Hr ltac:(lia)) as Hlor. change (2 ^ 32) with 4294967296 in Hlor.
      exact (ldiff_small_bits _ clear 32 ltac:(lia) Hlor).
  - intros t' va' Hne. unfold m'. by rewrite pte_set_other.
Qed.
End alloc.

(** ** Initialisation *)
Section init.
Context {E : Type} {PE : PageEnv E}.
Implicit Types s : mm * E.

(** The frames that are free once paging is initialised: those of base memory
    but the first three, and those after the memory in use at [fe]. *)
Definition free_at (fe i : Z) : bool := bool_decide (3 ≤ i < 160 ∨ fe ≤ i).
Record init_rel (n fe : Z) (ar : gmap Z (list Z)) (pd c : Z) (i : Z) (s : mm * E) : Prop := {
  ir_n : number_of_frames s.1 = n;
  ir_rest : mfllock s.1 = false ∧ modified_frame_list s.1 = [] ∧ arrays s.1 = ar ∧ ptr_page_directory s.1 = pd ∧ cr2 s.1 = c;
  ir_frames j : 0 ≤ j < i → ∃ x, frames_info s.1 !! Z.to_nat j = Some x ∧
    (if free_at fe j then x = zero_frame else references x = 1);
  ir_free : free_frame_list s.1 = reverse (filter (λ j, free_at fe j = true) (seqZ 0 i))
}.
Lemma init_frame_step n fe ar pd c i x0 y s :
  init_rel n fe ar pd c i s → 0 ≤ i < n → frames_info s.1 !! Z.to_nat i = Some x0 →
  (if free_at fe i then y = zero_frame else references y = 1) →
  init_rel n fe ar pd c (i + 1)
    (set_free_list (if free_at fe i then i :: free_frame_list s.1 else free_frame_list s.1)
      (set_frames (<[Z.to_nat i := y]> (frames_info s.1)) s.1), s.2).
Proof.
  intros [Hn Hrest Hf Hfl] Hi Hx Hy. split; cbn.
  - unfold number_of_frames in *. cbn. by rewrite length_insert.
  - done.
  - intros j Hj. destruct (decide (j = i)) as [->|Hne].
    + exists y. split; [|done]. apply list_lookup_insert_eq. by eapply lookup_lt_Some.
    + destruct (Hf j ltac:(lia)) as (z & Hz & Hzz). exists z. split; [|done]. rewrite list_lookup_insert_ne by lia. done.
  - rewrite Hfl, seqZ_app by lia. cbn. rewrite filter_app, reverse_app.
    change (seqZ (0 + i) 1) with [0 + i]. rewrite Z.add_0_l. rewrite filter_cons.
    destruct (free_at fe i); [rewrite decide_True by done|rewrite decide_False by done]; done.
Qed.
Lemma frame_exists n i (m : mm) : number_of_frames m = n → 0 ≤ i < n → is_Some (frames_info m !! Z.to_nat i).
Proof. intros <- ?. apply lookup_lt_is_Some_2. unfold number_of_frames in *. lia. Qed.
Lemma wp_give_frame n fe ar pd c i (Q : unit → mm * E → Prop) s :
  init_rel n fe ar pd c i s → 0 ≤ i < n → free_at fe i = true →
  (∀ s', init_rel n fe ar pd c (i + 1) s' → s'.2 = s.2 → Q tt s') → wp (give_frame i) Q s.
Proof.
  intros HI Hi Hf HQ. destruct (frame_exists n i s.1 (ir_n _ _ _ _ _ _ _ HI) Hi) as [x Hx].
  assert (Hni : i ∉ free_frame_list s.1).
  { rewrite (ir_free _ _ _ _ _ _ _ HI), elem_of_reverse, list_elem_of_filter, elem_of_seqZ. lia. }
  pose proof (init_frame_step _ _ _ _ _ _ _ zero_frame _ HI Hi Hx ltac:(by rewrite Hf)) as Hnew.
  rewrite Hf in Hnew. specialize (HQ _ Hnew eq_refl).
  unfold give_frame. apply wp_bind. eapply wp_upd_frame; [exact Hx|]. apply wp_bind, wp_mget, wp_bind.
  unfold wp. cbn. rewrite lq_insert_head_run by done. exact HQ.
Qed.
Lemma wp_hold_frame n fe ar pd c i (Q : unit → mm * E → Prop) s :
  init_rel n fe ar pd c i s → 0 ≤ i < n → free_at fe i = false →
  (∀ s', init_rel n fe ar pd c (i + 1) s' → s'.2 = s.2 → Q tt s') → wp (hold_frame i) Q s.
Proof.
  intros HI Hi Hf HQ. destruct (frame_exists n i s.1 (ir_n _ _ _ _ _ _ _ HI) Hi) as [x Hx].
  pose proof (init_frame_step _ _ _ _ _ _ _ (set_references 1 x) _ HI Hi Hx ltac:(by rewrite Hf)) as Hnew.
  rewrite Hf in Hnew. specialize (HQ _ Hnew eq_refl). eapply wp_upd_frame; [exact Hx|]. destruct s as [[] ?]. exact HQ.
Qed.
Lemma wp_frame_range (I : Z → mm * E → Prop) body a b (Q : unit → mm * E → Prop) s :
  a ≤ b → I a s → (∀ i s', a ≤ i < b → I i s' → wp (body i) (λ _ s'', I (i + 1) s'') s') →
  (∀ s', I b s' → Q tt s') → wp (mfor (frame_range a b) body) Q s.
Proof.
  intros Hab HI Hb HQ.
  apply (wp_mfor (λ l s, ∃ i, a ≤ i ≤ b ∧ l = frame_range i b ∧ I i s)); [exists a; split_and!; [lia..|done|done]| |].
  - intros x l s' (i & Hi & Hl & HIi). unfold frame_range in Hl |- *.
    destruct (decide (i = b)) as [->|]; [by rewrite Z.sub_diag in Hl|].
    rewrite seqZ_cons in Hl by lia. injection Hl as -> ->.
    eapply wp_mono; [apply Hb; [lia|done]|]. intros [] s'' Hs''. exists (i + 1). split_and!; [lia..| |done].
    unfold frame_range. f_equal; lia.
  - intros s' (i & Hi & Hl & HIi). apply HQ. destruct (decide (i = b)) as [->|]; [done|].
    unfold frame_range in Hl. rewrite seqZ_cons in Hl by lia. done.
Qed.

(** [initialize_paging] frees exactly the frames of base memory but the first
    three and the frames after the memory in use, in descending order, each
    with a cleared descriptor; every other frame has one reference; and the
    frame table then satisfies its invariant, with no page table yet. *)
Theorem initialize_paging_correct free_mem s :
  let n := number_of_frames s.1 in let fe := ROUNDUP free_mem PAGE_SIZE / PAGE_SIZE in
  n ≤ 1048576 → PHYS_EXTENDED_MEM ≤ free_mem → free_mem + 4095 < 4294967296 → fe ≤ n →
  wp (initialize_paging free_mem) (λ _ s', s'.2 = s.2 ∧ arrays s'.1 = arrays s.1 ∧ number_of_frames s'.1 = n ∧
    free_frame_list s'.1 = reverse (seqZ 3 157 ++ seqZ fe (n - fe)) ∧
    mm_inv ∅ (λ i, if free_at fe i then 0%nat else 1%nat) ∅ s'.1) s.
Proof.
  intros n fe Hn Hfm Hov Hfe.
  assert (Hfe256 : 256 ≤ fe).
  { unfold fe. destruct (ROUNDUP_spec free_mem PAGE_SIZE) as [_ ?]; [unfold PHYS_EXTENDED_MEM, PAGE_SIZE in *; lia..|].
    apply Z.div_le_lower_bound; unfold PHYS_EXTENDED_MEM, PAGE_SIZE in *; lia. }
  assert (Hfree : ∀ i, free_at fe i = true ↔ 3 ≤ i < 160 ∨ fe ≤ i) by (intros; apply bool_decide_eq_true).
  assert (Hheld : ∀ i, free_at fe i = false ↔ ¬ (3 ≤ i < 160 ∨ fe ≤ i)) by (intros; apply bool_decide_eq_false).
  set (I := λ i (s' : mm * E), init_rel n fe (arrays s.1) (ptr_page_directory s.1) (cr2 s.1) i s' ∧ s'.2 = s.2).
  assert (Hhold : ∀ i (s' : mm * E), 0 ≤ i < n → free_at fe i = false → I i s' → wp (hold_frame i) (λ _ s'', I (i + 1) s'') s').
  { intros i s' Hi Hf [HI He]. eapply wp_hold_frame; [done..|]. intros s'' ? He'. split; [done|congruence]. }
  assert (Hgive : ∀ i (s' : mm * E), 0 ≤ i < n → free_at fe i = true → I i s' → wp (give_frame i) (λ _ s'', I (i + 1) s'') s').
  { intros i s' Hi Hf [HI He]. eapply wp_give_frame; [done..|]. intros s'' ? He'. split; [done|congruence]. }
  unfold initialize_paging. do 3 (apply wp_bind, wp_mset). cbn [fst snd].
  apply wp_bind. eapply wp_mono; [apply (Hhold 0); [lia|apply Hheld; lia|]|].
  { split; [|done]. split; try done. intros j ?. lia. }
  intros [] s1 H1. apply wp_bind. eapply wp_mono; [apply (Hhold 1); [lia|apply Hheld; lia|exact H1]|].
  intros [] s2 H2. apply wp_bind. eapply wp_mono; [apply (Hhold 2); [lia|apply Hheld; lia|exact H2]|].
  intros [] s3 H3. cbv zeta.
  apply wp_bind. apply (wp_frame_range I); [done|exact H3| |].
  { intros i s' Hi. change (ROUNDUP PHYS_IO_MEM PAGE_SIZE / PAGE_SIZE) with 160 in Hi. apply Hgive; [lia|apply Hfree; lia]. }
  intros s4 H4. apply wp_bind. apply (wp_frame_range I); [done|exact H4| |].
  { intros i s' Hi. change (PHYS_IO_MEM / PAGE_SIZE) with 160 in Hi. change (PHYS_EXTENDED_MEM / PAGE_SIZE) with 256 in Hi.
    apply Hhold; [lia|apply Hheld; lia]. }
  intros s5 H5. apply wp_bind. change (PHYS_EXTENDED_MEM / PAGE_SIZE) with 256 in *. fold fe.
  apply (wp_frame_range I); [lia|exact H5| |].
  { intros i s' Hi. apply Hhold; [lia|apply Hheld; lia]. }
  intros s6 H6. apply wp_bind, wp_mget. assert (number_of_frames s6.1 = n) as -> by apply H6.
  apply (wp_frame_range I); [lia|exact H6| |].
  { intros i s' Hi. apply Hgive; [lia|apply Hfree; lia]. }
  intros s7 [[Hn7 (Hlk & _ & Ha & _) Hf7 Hfl7] He7].
  assert (Hlist : free_frame_list s7.1 = reverse (seqZ 3 157 ++ seqZ fe (n - fe))).
  { rewrite Hfl7. f_equal. replace n with (3 + (157 + ((fe - 160) + (n - fe)))) at 1 by lia.
    rewrite seqZ_app, seqZ_app, seqZ_app by lia. rewrite !filter_app. rewrite filter_none, filter_id, filter_none, filter_id.
    - cbn. do 2 f_equal; lia.
    - intros x Hx%elem_of_seqZ. apply Hfree. lia.
    - intros x Hx%elem_of_seqZ. rewrite not_true_iff_false. apply Hheld. lia.
    - intros x Hx%elem_of_seqZ. apply Hfree. lia.
    - intros x Hx%elem_of_seqZ. rewrite not_true_iff_false. apply Hheld. lia. }
  split_and!; [done..|]. split.
  - lia.
  - intros t Ht. by apply not_elem_of_empty in Ht.
  - intros i x Hi Hx. unfold count_refs. rewrite elements_empty. cbn.
    assert (i < n). { rewrite <- Hn7. unfold number_of_frames. apply lookup_lt_Some in Hx. lia. }
    destruct (Hf7 i ltac:(lia)) as (z & Hz & Hzz). rewrite Hz in Hx. injection Hx as ->.
    destruct (free_at fe i); [subst x; cbn; lia|]. lia.
  - rewrite Hfl7, reverse_Permutation. apply NoDup_filter, NoDup_seqZ.
  - intros i. rewrite Hfl7, elem_of_reverse, list_elem_of_filter, elem_of_seqZ. split.
    + intros [Hfi Hi]. split_and!; [apply not_elem_of_empty|lia|]. destruct (Hf7 i ltac:(lia)) as (z & Hz & Hzz).
      rewrite Hfi in Hzz. subst z. by exists zero_frame.
    + intros (_ & Hi & x & Hx & H0). assert (i < n). { rewrite <- Hn7. unfold number_of_frames. apply lookup_lt_Some in Hx. lia. }
      destruct (Hf7 i ltac:(lia)) as (z & Hz & Hzz). rewrite Hz in Hx. injection Hx as ->.
      destruct (free_at fe i); [|lia]. split; [done|lia].
  - intros i Hi. by apply not_elem_of_empty in Hi.
  - done.
Qed.
End init.

(** ** Witnesses: four frames, one page table, the page at 4096 on frame 2 *)
Section witnesses.
#[local] Instance w_env : PageEnv unit := {|
  kmalloc _ := panic; kfree _ := panic;
  kheap_virtual_address pa s := match frames_info s.1 !! Z.to_nat (PPN pa) with Some f => fi_va f | None => 0 end;
  kheap_physical_address _ _ := 0; fault_handler := panic; zero_page _ s := s |}.
#[local] Instance w_env_ok : PageEnvOk unit.
Proof. split; [|done]. intros pa m m' e Hf. unfold kheap_virtual_address. cbn [w_env fst]. by rewrite Hf. Qed.

Definition w_t : Z := 4127195136.
Definition w_table : list Z := <[1%nat := 8199]> (replicate 1024 0).
Definition w_dir : list Z := <[0%nat := 4103]> (replicate 1024 0).
Definition w_frames : list FrameInfo := [FI 1 0 0 0; FI 1 0 0 w_t; FI 1 0 0 4096; zero_frame].
Definition w_mm : mm := MM w_frames [3] [] false (<[w_t := w_table]> {[100 := w_dir]}) 100 0.
Definition w_pins (i : Z) : nat := if decide (i = 0 ∨ i = 1) then 1%nat else 0%nat.
#[local] Instance entry_ok_dec n e : Decision (entry_ok n e).
Proof. unfold entry_ok. apply _. Defined.
Lemma w_inv : mm_inv {[w_t]} w_pins ∅ w_mm.
Proof.
  assert (Hfr : ∀ i, 0 ≤ i → i ∈ [0; 1; 2; 3] ∨ frames_info w_mm !! Z.to_nat i = None).
  { intros i Hi. destruct (decide (i < 4)).
    - left. rewrite !elem_of_cons. lia.
    - right. apply lookup_ge_None_2. cbn. lia. }
  split.
  - done.
  - intros t ->%elem_of_singleton. exists w_table. split_and!; [vm_compute; done|done|].
    apply (bool_decide_unpack _). by vm_compute.
  - intros i x Hi Hx. destruct (Hfr i Hi) as [Hin|Hno]; [|by rewrite Hno in Hx].
    rewrite !elem_of_cons in Hin. 
    destruct Hin as [->|[->|[->|[->|Hin]]]]; [injection Hx as <-; vm_compute; done..|by apply not_elem_of_nil in Hin].
  - repeat constructor; set_solver.
  - intros i. split.
    + intros ->%list_elem_of_singleton. split_and!; [set_solver|done|]. by exists zero_frame.
    + intros (_ & Hi & x & Hx & H0). destruct (Hfr i Hi) as [Hin|Hno]; [|by rewrite Hno in Hx].
      rewrite !elem_of_cons in Hin.
      destruct Hin as [->|[->|[->|[->|Hin]]]]; [injection Hx as <-; done..|by left|by apply not_elem_of_nil in Hin].
  - intros i Hi. by apply not_elem_of_empty in Hi.
  - done.
Qed.
Lemma w_resolves va : PDX va = 0 → CHECK_IF_KERNEL_ADDRESS va = false → resolves 100 va w_t (w_mm, tt).
Proof.
  intros Hp Hk. split; [done|]. exists w_dir, 4103. rewrite Hp, Hk. split_and!; done.
Qed.
Lemma map_frame_correct_witness :
  wp (map_frame 100 1 4096 2) (λ r s', r = 0 ∧ PPN (pte_of w_t 4096 s'.1) = 1) (w_mm, tt).
Proof.
  eapply wp_mono.
  - apply (map_frame_correct {[w_t]} w_pins ∅ 100 1 4096 2 w_t (FI 1 0 0 w_t) (w_mm, tt) w_inv);
      [set_solver|by apply w_resolves|done..].
  - intros r s' (-> & _ & Hm). split; [done|]. change (maps_frame 1 (pte_of w_t 4096 (w_mm, ()).1)) with false in Hm.
    by destruct Hm as (_ & m & _ & _ & ? & _).
Defined.
Lemma w_unmapped : maps (pte_of w_t 8192 w_mm) = false.
Proof. by vm_compute. Qed.
Lemma w_table_frame : table_frame 100 8192 w_mm ∉ free_frame_list w_mm.
Proof. assert (table_frame 100 8192 w_mm = 1) as -> by by vm_compute. set_solver. Qed.
Lemma alloc_page_correct_witness :
  wp (alloc_page 100 8192 2 false) (λ r s', r = 0 ∧ PPN (pte_of w_t 8192 s'.1) = 3) (w_mm, tt).
Proof.
  pose proof (alloc_page_correct {[w_t]} w_pins ∅ 100 8192 2 false w_t (w_mm, tt) w_inv
    ltac:(set_solver) (w_resolves 8192 eq_refl eq_refl) w_table_frame ltac:(done) eq_refl) as Ha.
  cbn [fst] in Ha. rewrite w_unmapped in Ha. cbn [w_mm free_frame_list] in Ha.
  eapply wp_mono; [exact Ha|]. intros r s' (-> & _ & _ & _ & HP & _). split; [reflexivity|exact HP].
Defined.
Lemma page_permissions_roundtrip_witness :
  wp (pt_set_page_permissions 100 4096 32 2 ;; pt_get_page_permissions 100 4096) (λ p _, p = 37) (w_mm, tt).
Proof.
  eapply wp_mono.
  - apply (page_permissions_roundtrip {[w_t]} w_pins ∅ 100 4096 32 2 w_t (w_mm, tt) w_inv);
      [set_solver|done|by apply w_resolves|done..].
  - intros p s' (-> & _). done.
Defined.
Lemma initialize_paging_correct_witness :
  let s : mm * unit := (MM (replicate 300 zero_frame) [] [] true ∅ 0 0, tt) in
  wp (initialize_paging 1100000) (λ _ s', number_of_frames s'.1 = 300) s.
Proof.
  intros s. eapply wp_mono.
  - apply (initialize_paging_correct 1100000 s); done.
  - intros ? s' (_ & _ & Hn & _). exact Hn.
Defined.
End witnesses.
