(* ===== verification/WorkingSet.v ===== *)
(** * Working sets and user memory (kern/mem/working_set_manager.c,
    kern/mem/chunk_operations.c) over the virtual memory of a process

    The working set of an environment is a linked list of elements allocated in
    the kernel heap. An element is named by its address, a list is the list of
    the addresses of its elements. The class [VM] holds the operations on page
    tables, frames and the page file that this file and the fault handler call;
    VMSpec.v states what they promise and VMPaging.v shows that the functions of
    Paging.v keep the promises. *)

From S2P Require Import Prelude Queue Paging.

Definition USER_HEAP_START : Z := 2147483648. (* 0x80000000 *)
Definition USER_HEAP_MAX : Z := 2684354560.   (* 0xA0000000 *)
Definition USTACKTOP : Z := USER_TOP - 2 * PAGE_SIZE.
Definition E_PAGE_NOT_EXIST_IN_PF : Z := -9.
Definition WSE_SIZE : Z := 24. (* sizeof(struct WorkingSetElement) *)
(** The product is computed on 32 bits. *)
Definition USER_PAGES_WS_MAX : Z := w32 (USER_HEAP_MAX + w32 (WSE_SIZE * USER_TOP) / PAGE_SIZE).
Definition USTACKBOTTOM : Z := ROUNDUP USER_PAGES_WS_MAX PAGE_SIZE.

Definition PG_REP_LRU_TIME_APPROX : Z := 1.
Definition PG_REP_LRU_LISTS_APPROX : Z := 2.
Definition PG_REP_CLOCK : Z := 3.
Definition PG_REP_FIFO : Z := 4.
Definition PG_REP_MODIFIEDCLOCK : Z := 5.
Definition PG_REP_NchanceCLOCK : Z := 6.
Definition PG_REP_DYNAMIC_LOCAL : Z := 7.
Definition PG_REP_OPTIMAL : Z := 8.

Record WorkingSetElement := WSE { virtual_address : Z; time_stamp : Z; sweeps_counter : Z }.
(** The fields of [struct Env] that demand paging reads and writes. *)
Record Env := ENV {
  env_page_directory : Z;
  page_WS_max_size : Z;
  page_WS_list : list Z;
  page_last_WS_element : Z;
  referenceStreamList : list Z;      (* the virtual addresses, in order *)
  ActiveList : list Z;
  SecondList : list Z;
  kstack : Z;
  pageFaultsCounter : Z;
  tableFaultsCounter : Z
}.
Definition set_ws (l : list Z) (e : Env) : Env :=
  ENV (env_page_directory e) (page_WS_max_size e) l (page_last_WS_element e) (referenceStreamList e)
      (ActiveList e) (SecondList e) (kstack e) (pageFaultsCounter e) (tableFaultsCounter e).
Definition set_last (p : Z) (e : Env) : Env :=
  ENV (env_page_directory e) (page_WS_max_size e) (page_WS_list e) p (referenceStreamList e)
      (ActiveList e) (SecondList e) (kstack e) (pageFaultsCounter e) (tableFaultsCounter e).
Definition set_refs (l : list Z) (e : Env) : Env :=
  ENV (env_page_directory e) (page_WS_max_size e) (page_WS_list e) (page_last_WS_element e) l
      (ActiveList e) (SecondList e) (kstack e) (pageFaultsCounter e) (tableFaultsCounter e).
Definition set_active (l : list Z) (e : Env) : Env :=
  ENV (env_page_directory e) (page_WS_max_size e) (page_WS_list e) (page_last_WS_element e) (referenceStreamList e)
      l (SecondList e) (kstack e) (pageFaultsCounter e) (tableFaultsCounter e).
Definition set_second (l : list Z) (e : Env) : Env :=
  ENV (env_page_directory e) (page_WS_max_size e) (page_WS_list e) (page_last_WS_element e) (referenceStreamList e)
      (ActiveList e) l (kstack e) (pageFaultsCounter e) (tableFaultsCounter e).
Definition set_counters (p t : Z) (e : Env) : Env :=
  ENV (env_page_directory e) (page_WS_max_size e) (page_WS_list e) (page_last_WS_element e) (referenceStreamList e)
      (ActiveList e) (SecondList e) (kstack e) p t.

(** The memory of the machine as demand paging sees it. The operations that are
    not in kern/mem/memory_manager.c and paging_helpers.c: [set_entry t i v] and
    [entry t i] write and read [t[i]] of a table or directory; the page file;
    the end of the running environment. An environment is named by the address
    of its [struct Env]. *)
Class VM (E : Type) := {
  kmalloc : Z → M E Z;
  kfree : Z → M E unit;
  entry : Z → Z → M E Z;
  set_entry : Z → Z → Z → M E unit;
  get_page_table : Z → Z → M E (Z * Z);
  create_page_table : Z → Z → M E Z;
  get_frame_info : Z → Z → M E (option Z * Z);
  allocate_frame : M E (Z * Z);
  map_frame : Z → Z → Z → Z → M E Z;
  unmap_frame : Z → Z → M E unit;
  pt_set_page_permissions : Z → Z → Z → Z → M E unit;
  pt_get_page_permissions : Z → Z → M E Z;
  pf_read_env_page : Z → Z → M E Z;
  pf_update_env_page : Z → Z → option Z → M E Z;
  pf_remove_env_page : Z → Z → M E unit;
  env_exit : M E unit
}.

Record fstate (E : Type) := FST {
  PageRepAlgoType : Z;
  envs : gmap Z Env;
  elements : gmap Z WorkingSetElement;
  vm : E
}.
Arguments FST {E}. Arguments PageRepAlgoType {E}. Arguments envs {E}. Arguments elements {E}. Arguments vm {E}.

Section code.
Context {E : Type} `{VM E}.
Notation F := (M (fstate E)).

Definition set_vm (x : E) (s : fstate E) : fstate E := FST (PageRepAlgoType s) (envs s) (elements s) x.
Definition set_envs (x : gmap Z Env) (s : fstate E) : fstate E := FST (PageRepAlgoType s) x (elements s) (vm s).
Definition set_elements (x : gmap Z WorkingSetElement) (s : fstate E) : fstate E :=
  FST (PageRepAlgoType s) (envs s) x (vm s).
Definition set_algo (x : Z) (s : fstate E) : fstate E := FST x (envs s) (elements s) (vm s).
Definition vmop {A} (c : M E A) : F A := zoom vm set_vm c.
Definition get_env (e : Z) : F Env := m ← gets envs; unwrap (m !! e).
Definition upd_env (e : Z) (f : Env → Env) : F unit :=
  x ← get_env e; modify (λ s, set_envs (<[e := f x]> (envs s)) s).
Definition get_wse (p : Z) : F WorkingSetElement := m ← gets elements; unwrap (m !! p).
Definition put_wse (p : Z) (x : WorkingSetElement) : F unit :=
  _ ← get_wse p; modify (λ s, set_elements (<[p := x]> (elements s)) s).
Definition set_va (va : Z) (x : WorkingSetElement) : WorkingSetElement := WSE va (time_stamp x) (sweeps_counter x).
Definition set_stamp (t : Z) (x : WorkingSetElement) : WorkingSetElement := WSE (virtual_address x) t (sweeps_counter x).
Definition free_wse (p : Z) : F unit :=
  vmop (kfree p) ;; modify (λ s, set_elements (delete p (elements s)) s).

(** [LIST_FIRST], [LIST_NEXT] and [LIST_INSERT_BEFORE] on a list of addresses. *)
Definition first_of (l : list Z) : Z := hdn NULL l.
Fixpoint next_of (x : Z) (l : list Z) : Z :=
  match l with [] => NULL | y :: l => if decide (y = x) then first_of l else next_of x l end.
Definition lq_next (x : Z) (l : list Z) : F Z := if decide (x ∈ l) then mret (next_of x l) else undef.
Definition lq_insert_before (y x : Z) (l : list Z) : F (list Z) :=
  if decide (y ∈ l ∧ x ∉ l) then mret (l_insert_before y x l) else undef.

Definition isPageReplacmentAlgorithmLRU (LRU_TYPE : Z) : F bool :=
  gets (λ s, bool_decide (PageRepAlgoType s = LRU_TYPE)).

(** ** kern/mem/working_set_manager.c *)
Definition env_page_ws_list_create_element (e va : Z) : F Z :=
  assert_ (bool_decide (0 ≤ w32 va ∧ w32 va < USER_TOP)) ;;
  wse ← vmop (kmalloc WSE_SIZE);
  if decide (wse = NULL) then panic else
  modify (λ s, set_elements (<[wse := WSE (ROUNDDOWN va PAGE_SIZE) 0 0]> (elements s)) s) ;;
  mret wse.

(** The loops stop at the first element on the page. *)
Fixpoint ws_find (va : Z) (l : list Z) : F (option Z) :=
  match l with
  | [] => mret None
  | p :: l => x ← get_wse p;
      if decide (ROUNDDOWN (virtual_address x) PAGE_SIZE = ROUNDDOWN va PAGE_SIZE) then mret (Some p)
      else ws_find va l
  end.
Definition env_page_ws_invalidate (e va : Z) : F unit :=
  lists ← isPageReplacmentAlgorithmLRU PG_REP_LRU_LISTS_APPROX;
  x ← get_env e;
  let dir := env_page_directory x in
  if (lists : bool) then
    found ← ws_find va (ActiveList x);
    match found with
    | Some p =>
        let tmp := first_of (SecondList x) in
        w ← get_wse p;
        vmop (unmap_frame dir (virtual_address w)) ;;
        l ← lq_remove p (ActiveList x);
        upd_env e (set_active l) ;;
        free_wse p ;;
        when (bool_decide (tmp ≠ NULL))
          (l2 ← lq_remove tmp (SecondList x);
           upd_env e (set_second l2) ;;
           l1 ← lq_insert_tail tmp l;
           upd_env e (set_active l1) ;;
           w ← get_wse tmp;
           vmop (pt_set_page_permissions dir (virtual_address w) PERM_PRESENT 0))
    | None =>
        found ← ws_find va (SecondList x);
        match found with
        | Some p =>
            w ← get_wse p;
            vmop (unmap_frame dir (virtual_address w)) ;;
            l ← lq_remove p (SecondList x);
            upd_env e (set_second l) ;;
            free_wse p
        | None => mret ()
        end
    end
  else
    found ← ws_find va (page_WS_list x);
    match found with
    | Some p =>
        w ← get_wse p;
        vmop (unmap_frame dir (virtual_address w)) ;;
        when (bool_decide (page_last_WS_element x = p))
          (n ← lq_next p (page_WS_list x); upd_env e (set_last n)) ;;
        l ← lq_remove p (page_WS_list x);
        upd_env e (set_ws l) ;;
        free_wse p
    | None => mret ()
    end.

(** The functions that change the size of a working set are not written yet. *)
Definition cut_paste_WS (newWS newSize e : Z) : F unit := panic.
Definition double_WS_Size (e isOneTimeOnly : Z) : F unit := panic.
Definition half_WS_Size (e isImmidiate : Z) : F unit := panic.

(** ** kern/mem/chunk_operations.c *)

(** [for (v = a; v < b; v += PAGE_SIZE)] on aligned addresses: the number of
    rounds is fixed by the bounds. *)
Definition pages (a b : Z) : list Z := (λ i, a + PAGE_SIZE * i) <$> seqZ 0 ((b - a) / PAGE_SIZE).
Definition mark_page (dir cur : Z) : F unit :=
  r ← vmop (get_page_table dir cur);
  t ← (if decide (r.2 = NULL) then vmop (create_page_table dir cur) else mret r.2);
  vmop (set_entry t (PTX cur) 0) ;;
  vmop (set_entry t (PTX cur) PERM_UHPAGE).
Definition allocate_user_mem (e va size : Z) : F unit :=
  x ← get_env e;
  mfor (pages (ROUNDDOWN va PAGE_SIZE) (ROUNDUP (w32 (va + size)) PAGE_SIZE)) (mark_page (env_page_directory x)).
Definition free_page (e dir v : Z) : F unit :=
  vmop (pt_set_page_permissions dir v 0 PERM_UHPAGE) ;;
  vmop (pf_remove_env_page e v) ;;
  env_page_ws_invalidate e v ;;
  vmop (unmap_frame dir v).
Definition free_user_mem (e va size : Z) : F unit :=
  x ← get_env e;
  mfor (pages (ROUNDDOWN va PAGE_SIZE) (ROUNDUP (w32 (va + size)) PAGE_SIZE)) (free_page e (env_page_directory x)).

(** Functions of the file that are not written yet. *)
Definition cut_paste_pages (dir source_va dest_va num_of_pages : Z) : F Z := panic.
Definition copy_paste_chunk (dir source_va dest_va size : Z) : F Z := panic.
Definition share_chunk (dir source_va dest_va size perms : Z) : F Z := panic.
Definition allocate_chunk (dir va size perms : Z) : F Z := panic.
Definition calculate_free_space (dir sva eva : Z) : F Z := panic.
Definition calculate_allocated_space (dir sva eva : Z) : F (Z * Z) := panic.
Definition calculate_required_frames (dir sva size : Z) : F Z := panic.
Definition sys_sbrk (numOfPages : Z) : F Z := panic.
Definition __free_user_mem_with_buffering (e va size : Z) : F unit := panic.
Definition move_user_mem (e src dst size : Z) : F unit := panic.
End code.

(** ** The table working set

    [__ptr_tws]: an array of [__TWS_MAX_SIZE] entries inside [struct Env]. *)
Definition __TWS_MAX_SIZE : Z := 50.
Record tws_entry := TWS { tws_va : Z; tws_empty : Z; tws_stamp : Z }.
Definition TABLE_SPAN : Z := PAGE_SIZE * 1024.
Section tables.
Notation T := (M (list tws_entry)).
Definition tws_at (i : Z) : T tws_entry := l ← get; unwrap (if decide (0 ≤ i) then l !! Z.to_nat i else None).
Definition tws_put (i : Z) (x : tws_entry) : T unit := _ ← tws_at i; modify (<[Z.to_nat i := x]>).
Definition env_table_ws_get_size : T Z :=
  gets (λ l, Z.of_nat (length (filter (λ x, tws_empty x = 0) (take (Z.to_nat __TWS_MAX_SIZE) l)))).
Definition env_table_ws_set_entry (entry_index va : Z) : T unit :=
  assert_ (bool_decide (w32 entry_index < __TWS_MAX_SIZE)) ;;
  assert_ (bool_decide (w32 va < USER_TOP)) ;;
  tws_put entry_index (TWS (ROUNDDOWN va TABLE_SPAN) 0 0).
Definition env_table_ws_clear_entry (entry_index : Z) : T unit :=
  assert_ (bool_decide (w32 entry_index < __TWS_MAX_SIZE)) ;;
  tws_put entry_index (TWS 0 1 0).
Fixpoint invalidate_from (fuel : nat) (i va : Z) : T unit :=
  match fuel with
  | O => mret ()
  | Datatypes.S fuel =>
      x ← tws_at i;
      if decide (ROUNDDOWN (tws_va x) TABLE_SPAN = ROUNDDOWN va TABLE_SPAN) then env_table_ws_clear_entry i
      else invalidate_from fuel (i + 1) va
  end.
Definition env_table_ws_invalidate (va : Z) : T unit := invalidate_from (Z.to_nat __TWS_MAX_SIZE) 0 va.
Definition env_table_ws_get_virtual_address (entry_index : Z) : T Z :=
  assert_ (bool_decide (w32 entry_index < __TWS_MAX_SIZE)) ;;
  x ← tws_at entry_index; mret (ROUNDDOWN (tws_va x) TABLE_SPAN).
Definition env_table_ws_get_time_stamp (entry_index : Z) : T Z :=
  assert_ (bool_decide (w32 entry_index < __TWS_MAX_SIZE)) ;;
  x ← tws_at entry_index; mret (tws_stamp x).
Definition env_table_ws_is_entry_empty (entry_index : Z) : T Z := x ← tws_at entry_index; mret (tws_empty x).
End tables.
