(* ===== verification/Fault.v ===== *)
(** * The page fault handler (kern/trap/fault_handler.c)

    The choice of a replacement algorithm, the entry point of a fault with its
    checks, placement, and replacement by CLOCK, LRU with aging, modified CLOCK
    and the recording of the reference stream for OPTIMAL, over the working
    sets of WorkingSet.v. *)

From S2P Require Import Prelude Queue Paging WorkingSet.

Definition KERNEL_HEAP_MAX : Z := 4294963200. (* 0xFFFFF000 *)
Definition PRE_SIZE : Z := 12. (* sizeof(struct PageRefElement) *)
Definition INT_MAX : Z := 2147483647.
Definition i8 (x : Z) : Z := let y := w8 x in if decide (y < 128) then y else y - 256.

Section replacement.
Context {E : Type} `{VM E}.
Notation F := (M (fstate E)).

(** ** Algorithm selection *)
Definition setPageReplacmentAlgorithmLRU (LRU_TYPE : Z) : F unit :=
  assert_ (bool_decide (LRU_TYPE = PG_REP_LRU_TIME_APPROX ∨ LRU_TYPE = PG_REP_LRU_LISTS_APPROX)) ;;
  modify (set_algo LRU_TYPE).
Definition setPageReplacmentAlgorithmCLOCK : F unit := modify (set_algo PG_REP_CLOCK).
Definition setPageReplacmentAlgorithmFIFO : F unit := modify (set_algo PG_REP_FIFO).
Definition setPageReplacmentAlgorithmModifiedCLOCK : F unit := modify (set_algo PG_REP_MODIFIEDCLOCK).
Definition setPageReplacmentAlgorithmDynamicLocal : F unit := modify (set_algo PG_REP_DYNAMIC_LOCAL).
Definition setPageReplacmentAlgorithmOPTIMAL : F unit := modify (set_algo PG_REP_OPTIMAL).
Definition isPageReplacmentAlgorithmCLOCK : F bool := isPageReplacmentAlgorithmLRU PG_REP_CLOCK.
Definition isPageReplacmentAlgorithmFIFO : F bool := isPageReplacmentAlgorithmLRU PG_REP_FIFO.
Definition isPageReplacmentAlgorithmModifiedCLOCK : F bool := isPageReplacmentAlgorithmLRU PG_REP_MODIFIEDCLOCK.
Definition isPageReplacmentAlgorithmDynamicLocal : F bool := isPageReplacmentAlgorithmLRU PG_REP_DYNAMIC_LOCAL.
Definition isPageReplacmentAlgorithmNchanceCLOCK : F bool := isPageReplacmentAlgorithmLRU PG_REP_NchanceCLOCK.
Definition isPageReplacmentAlgorithmOPTIMAL : F bool := isPageReplacmentAlgorithmLRU PG_REP_OPTIMAL.

(** ** The optimal number of faults *)

(** The loop over the references after the current one: the distance to the next
    reference to [page], if there is one. *)
Fixpoint next_use (page : Z) (later : list Z) (distance : Z) : option Z :=
  match later with
  | [] => None
  | r :: later =>
      if decide (ROUNDDOWN r PAGE_SIZE = page) then Some (distance + 1) else next_use page later (distance + 1)
  end.
(** The loop over the working set that looks for the furthest next use, from
    index [i] with the best candidate so far. *)
Fixpoint furthest (ws later : list Z) (i victim_index : nat) (ab3ad_masafa : Z) : nat :=
  match ws with
  | [] => victim_index
  | w :: ws =>
      let distance := default INT_MAX (next_use w later 0) in
      let '(victim_index, ab3ad_masafa) :=
        if decide (ab3ad_masafa < distance) then (i, distance) else (victim_index, ab3ad_masafa) in
      if decide (ab3ad_masafa = INT_MAX) then victim_index
      else furthest ws later (S i) victim_index ab3ad_masafa
  end.
(** [ws] is the used prefix of the array of [maxWSSize] pages. *)
Fixpoint optimal_loop {S} (maxWSSize : Z) (refs ws : list Z) (faults : Z) : M S Z :=
  match refs with
  | [] => mret faults
  | r :: refs =>
      let current_page := ROUNDDOWN r PAGE_SIZE in
      if decide (current_page ∈ ws) then optimal_loop maxWSSize refs ws faults
      else if decide (Z.of_nat (length ws) < maxWSSize) then
        optimal_loop maxWSSize refs (ws ++ [current_page]) (faults + 1)
      else
        let victim_index := furthest ws refs 0 0 0 in
        if decide (Z.of_nat victim_index < maxWSSize) then
          optimal_loop maxWSSize refs (<[victim_index := current_page]> ws) (faults + 1)
        else undef
  end.
Definition get_optimal_num_faults (initWorkingSet : list Z) (maxWSSize : Z) (pageReferences : list Z) : M E Z :=
  p ← kmalloc (w32 (maxWSSize * 4));
  if decide (p = NULL) then undef else
  faults ← optimal_loop maxWSSize pageReferences (take (Z.to_nat maxWSSize) initWorkingSet) 0;
  kfree p ;;
  mret faults.

(** ** Placement and replacement *)

Definition in_heap_or_stack (va : Z) : bool :=
  bool_decide (USER_HEAP_START ≤ va < USER_HEAP_MAX ∨ USTACKBOTTOM ≤ va < USTACKTOP).
(** Reading the page from the page file; a page that is in neither the page file
    nor the heap nor the stack ends the environment ([false]). *)
Definition load_page (e va : Z) : F bool :=
  r ← vmop (pf_read_env_page e va);
  if decide (r = E_PAGE_NOT_EXIST_IN_PF ∧ in_heap_or_stack va = false)
  then vmop env_exit ;; mret false else mret true.
Definition NEW_PAGE_PERM : Z := Z.lor (Z.lor (Z.lor PERM_PRESENT PERM_WRITEABLE) PERM_USER) PERM_USED.

Definition placement (e fault_va : Z) : F unit :=
  x ← get_env e;
  let aligned_va := ROUNDDOWN fault_va PAGE_SIZE in
  r ← vmop allocate_frame;
  vmop (map_frame (env_page_directory x) r.2 aligned_va NEW_PAGE_PERM) ;;
  ok ← load_page e aligned_va;
  when ok
    (w ← env_page_ws_list_create_element e aligned_va;
     x ← get_env e;
     l ← (if decide (page_last_WS_element x = NULL) then lq_insert_tail w (page_WS_list x)
          else lq_insert_before (page_last_WS_element x) w (page_WS_list x));
     upd_env e (set_ws l) ;;
     when (bool_decide (Z.of_nat (length l) = page_WS_max_size x ∧ page_last_WS_element x = NULL))
       (upd_env e (set_last (first_of l)))).

(** The successor of an element on the circular list. *)
Definition circular_next (e p : Z) : F Z :=
  x ← get_env e;
  n ← lq_next p (page_WS_list x);
  mret (if decide (n = NULL) then first_of (page_WS_list x) else n).

(** The victim is written back when it was modified and unmapped; the faulted
    page gets a new frame. [must_exist] is the check of the LRU and modified
    CLOCK branches that the victim has a frame. *)
Definition replace_page (must_exist : bool) (e victim_element fault_va : Z) : F bool :=
  x ← get_env e;
  let dir := env_page_directory x in
  w ← get_wse victim_element;
  let victim_va := virtual_address w in
  fi ← vmop (get_frame_info dir victim_va);
  when must_exist (match fi.1 with None => panic | Some _ => mret () end) ;;
  perms ← vmop (pt_get_page_permissions dir victim_va);
  when (bool_decide (Z.land perms PERM_MODIFIED ≠ 0))
    (_ ← vmop (pf_update_env_page e victim_va fi.1); mret ()) ;;
  vmop (unmap_frame dir victim_va) ;;
  r ← vmop allocate_frame;
  if decide (r.1 ≠ 0) then panic else
  let rounded_va := ROUNDDOWN fault_va PAGE_SIZE in
  vmop (map_frame dir r.2 rounded_va NEW_PAGE_PERM) ;;
  load_page e rounded_va.

(** [while(1)]: the hand moves past used pages and clears their used bit. *)
Fixpoint clock_loop (fuel : nat) (e : Z) : F Z :=
  match fuel with
  | O => nofuel
  | Datatypes.S fuel =>
      x ← get_env e;
      let victim_element := page_last_WS_element x in
      w ← get_wse victim_element;
      permessions ← vmop (pt_get_page_permissions (env_page_directory x) (virtual_address w));
      if decide (Z.land permessions PERM_USED = 0) then mret victim_element
      else
        vmop (pt_set_page_permissions (env_page_directory x) (virtual_address w) 0 PERM_USED) ;;
        n ← circular_next e victim_element;
        upd_env e (set_last n) ;;
        clock_loop fuel e
  end.
Definition replace_CLOCK (fuel : nat) (e fault_va : Z) : F unit :=
  victim_element ← clock_loop fuel e;
  ok ← replace_page false e victim_element fault_va;
  when ok
    (w ← get_wse victim_element;
     put_wse victim_element (set_va (ROUNDDOWN fault_va PAGE_SIZE) w) ;;
     n ← circular_next e victim_element;
     upd_env e (set_last n)).

(** The first element with the smallest time stamp below [0xFFFFFFFF]. *)
Fixpoint min_stamp (l : list Z) (victim min_time_stamp : Z) : F Z :=
  match l with
  | [] => mret victim
  | p :: l => x ← get_wse p;
      if decide (time_stamp x < min_time_stamp) then min_stamp l p (time_stamp x)
      else min_stamp l victim min_time_stamp
  end.
Definition replace_LRU (e fault_va : Z) : F unit :=
  x ← get_env e;
  victim_element ← min_stamp (page_WS_list x) NULL 4294967295;
  if decide (victim_element = NULL) then panic else
  ok ← replace_page true e victim_element fault_va;
  when ok
    (let rounded_va := ROUNDDOWN fault_va PAGE_SIZE in
     w ← get_wse victim_element;
     put_wse victim_element (set_stamp 2147483648 (set_va rounded_va w)) ;;
     x ← get_env e;
     l ← lq_remove victim_element (page_WS_list x);
     l ← lq_insert_tail victim_element l;
     upd_env e (set_ws l) ;;
     upd_env e (set_last (if decide (Z.of_nat (length l) = page_WS_max_size x) then first_of l else NULL)) ;;
     vmop (pt_set_page_permissions (env_page_directory x) rounded_va PERM_USED 0)).

(** One round of a [do ... while] search of modified CLOCK from [current] until
    [start] comes back: the first element whose permissions satisfy [good];
    [clear_used] is set in the second round. [None]: no element does. *)
Fixpoint search_round (fuel : nat) (good : Z → bool) (clear_used : bool) (e start current : Z) : F (option Z) :=
  match fuel with
  | O => nofuel
  | Datatypes.S fuel =>
      x ← get_env e;
      w ← get_wse current;
      perms ← vmop (pt_get_page_permissions (env_page_directory x) (virtual_address w));
      if good perms then mret (Some current) else
      when (clear_used && bool_decide (Z.land perms PERM_USED ≠ 0))
        (vmop (pt_set_page_permissions (env_page_directory x) (virtual_address w) 0 PERM_USED)) ;;
      current ← circular_next e current;
      if decide (current = start) then mret None
      else search_round fuel good clear_used e start current
  end.
Definition unused_unmodified (perms : Z) : bool :=
  bool_decide (Z.land perms PERM_USED = 0 ∧ Z.land perms PERM_MODIFIED = 0).
Definition unused (perms : Z) : bool := bool_decide (Z.land perms PERM_USED = 0).
Definition modified_clock_victim (fuel : nat) (e : Z) : F Z :=
  x ← get_env e;
  let current := if decide (page_last_WS_element x = NULL) then first_of (page_WS_list x) else page_last_WS_element x in
  if decide (current = NULL) then panic else
  v ← search_round fuel unused_unmodified false e current current;
  match v with Some v => mret v | None =>
    v ← search_round fuel unused true e current current;
    match v with Some v => mret v | None =>
      v ← search_round fuel unused_unmodified false e current current;
      mret (default current v)
    end
  end.
Definition replace_ModifiedCLOCK (fuel : nat) (e fault_va : Z) : F unit :=
  victim_element ← modified_clock_victim fuel e;
  ok ← replace_page true e victim_element fault_va;
  when ok
    (let rounded_va := ROUNDDOWN fault_va PAGE_SIZE in
     w ← get_wse victim_element;
     put_wse victim_element (set_va rounded_va w) ;;
     n ← circular_next e victim_element;
     upd_env e (set_last n) ;;
     x ← get_env e;
     vmop (pt_set_page_permissions (env_page_directory x) rounded_va PERM_USED 0)).

(** ** Recording the references for OPTIMAL *)
Definition drop_active (e p : Z) : F unit :=
  x ← get_env e;
  w ← get_wse p;
  vmop (pt_set_page_permissions (env_page_directory x) (virtual_address w) 0 PERM_PRESENT) ;;
  x ← get_env e;
  l ← lq_remove p (ActiveList x);
  upd_env e (set_active l) ;;
  free_wse p.
Definition hide_page (dir p : Z) : F unit :=
  w ← get_wse p; vmop (pt_set_page_permissions dir (virtual_address w) 0 PERM_PRESENT).
Definition record_OPTIMAL (e fault_va : Z) : F unit :=
  ref_geded ← vmop (kmalloc PRE_SIZE);
  if decide (ref_geded = NULL) then undef else
  x ← get_env e;
  let dir := env_page_directory x in
  upd_env e (set_refs (referenceStreamList x ++ [ROUNDDOWN fault_va PAGE_SIZE])) ;;
  when (bool_decide (ActiveList x = []) && bool_decide (page_WS_max_size x < 1000))
    (mfor (page_WS_list x) (hide_page dir)) ;;
  fi ← vmop (get_frame_info dir fault_va);
  ok ← (match fi.1 with
        | Some _ => mret true
        | None =>
            r ← vmop allocate_frame;
            if decide (r.1 ≠ 0) then mret false else
            vmop (map_frame dir r.2 fault_va (Z.lor (Z.lor PERM_USER PERM_WRITEABLE) PERM_PRESENT)) ;;
            load_page e fault_va
        end);
  when ok
    (found ← ws_find fault_va (ActiveList x);
     match found with
     | Some _ => vmop (pt_set_page_permissions dir fault_va PERM_PRESENT 0)
     | None =>
         when (bool_decide (page_WS_max_size x ≤ Z.of_nat (length (ActiveList x))))
           (mfor (ActiveList x) (drop_active e)) ;;
         w ← env_page_ws_list_create_element e fault_va;
         x ← get_env e;
         l ← lq_insert_tail w (ActiveList x);
         upd_env e (set_active l) ;;
         vmop (pt_set_page_permissions dir fault_va PERM_PRESENT 0)
     end).

(** [fuel] bounds the searches of the circular list. *)
Definition page_fault_handler (fuel : nat) (e fault_va : Z) : F unit :=
  optimal ← isPageReplacmentAlgorithmOPTIMAL;
  if (optimal : bool) then record_OPTIMAL e fault_va else
  x ← get_env e;
  if decide (Z.of_nat (length (page_WS_list x)) < page_WS_max_size x) then placement e fault_va else
  clock ← isPageReplacmentAlgorithmCLOCK;
  lru ← isPageReplacmentAlgorithmLRU PG_REP_LRU_TIME_APPROX;
  modified ← isPageReplacmentAlgorithmModifiedCLOCK;
  if (clock : bool) then replace_CLOCK fuel e fault_va
  else if (lru : bool) then replace_LRU e fault_va
  else if (modified : bool) then replace_ModifiedCLOCK fuel e fault_va
  else mret ().
Definition __page_fault_handler_with_buffering (e fault_va : Z) : F unit := panic.
Definition table_fault_handler (e fault_va : Z) : F unit :=
  x ← get_env e; _ ← vmop (create_page_table (env_page_directory x) fault_va); mret ().
End replacement.

(** ** The entry point *)

(** What the handler reads of the trap frame. *)
Record Trapframe := TF { tf_eip : Z; tf_cs : Z }.
Record hstate (E : Type) := HS {
  EnableModifiedBuffer : Z;
  EnableBuffering : Z;
  ModifiedBufferLength : Z;
  page_WS_max_sweeps : Z;
  FASTNchanceCLOCK : Z;
  last_eip : Z;
  before_last_eip : Z;
  last_fault_va : Z;
  before_last_fault_va : Z;
  num_repeated_fault : Z;            (* int8 *)
  last_faulted_env : Z;
  cpu_proc : Z;                      (* get_cpu_proc() *)
  cpu_stack : Z;                     (* mycpu()->stack *)
  rcr2 : Z;
  fs : fstate E
}.
Arguments HS {E}. Arguments EnableModifiedBuffer {E}. Arguments EnableBuffering {E}. Arguments ModifiedBufferLength {E}.
Arguments page_WS_max_sweeps {E}. Arguments FASTNchanceCLOCK {E}. Arguments last_eip {E}. Arguments before_last_eip {E}.
Arguments last_fault_va {E}. Arguments before_last_fault_va {E}. Arguments num_repeated_fault {E}.
Arguments last_faulted_env {E}. Arguments cpu_proc {E}. Arguments cpu_stack {E}. Arguments rcr2 {E}. Arguments fs {E}.

Section entry.
Context {E : Type} `{VM E}.
Notation K := (M (hstate E)).

Definition set_fs (x : fstate E) (s : hstate E) : hstate E :=
  HS (EnableModifiedBuffer s) (EnableBuffering s) (ModifiedBufferLength s) (page_WS_max_sweeps s) (FASTNchanceCLOCK s)
    (last_eip s) (before_last_eip s) (last_fault_va s) (before_last_fault_va s) (num_repeated_fault s)
    (last_faulted_env s) (cpu_proc s) (cpu_stack s) (rcr2 s) x.
Definition set_modes (mb b len sweeps fast : Z) (s : hstate E) : hstate E :=
  HS mb b len sweeps fast
    (last_eip s) (before_last_eip s) (last_fault_va s) (before_last_fault_va s) (num_repeated_fault s)
    (last_faulted_env s) (cpu_proc s) (cpu_stack s) (rcr2 s) (fs s).
Definition set_last_fault (eip beip va bva n env : Z) (s : hstate E) : hstate E :=
  HS (EnableModifiedBuffer s) (EnableBuffering s) (ModifiedBufferLength s) (page_WS_max_sweeps s) (FASTNchanceCLOCK s)
    eip beip va bva n env (cpu_proc s) (cpu_stack s) (rcr2 s) (fs s).
Definition onfs {A} (c : M (fstate E) A) : K A := zoom fs set_fs c.

Definition setPageReplacmentAlgorithmNchanceCLOCK (PageWSMaxSweeps : Z) : K unit :=
  onfs (modify (set_algo PG_REP_NchanceCLOCK)) ;;
  modify (λ s, set_modes (EnableModifiedBuffer s) (EnableBuffering s) (ModifiedBufferLength s) PageWSMaxSweeps (FASTNchanceCLOCK s) s).
Definition setFASTNchanceCLOCK (fast : Z) : K unit :=
  modify (λ s, set_modes (EnableModifiedBuffer s) (EnableBuffering s) (ModifiedBufferLength s) (page_WS_max_sweeps s) fast s).
Definition enableModifiedBuffer (enableIt : Z) : K unit :=
  modify (λ s, set_modes enableIt (EnableBuffering s) (ModifiedBufferLength s) (page_WS_max_sweeps s) (FASTNchanceCLOCK s) s).
Definition isModifiedBufferEnabled : K Z := gets (λ s, w8 (EnableModifiedBuffer s)).
Definition enableBuffering (enableIt : Z) : K unit :=
  modify (λ s, set_modes (EnableModifiedBuffer s) enableIt (ModifiedBufferLength s) (page_WS_max_sweeps s) (FASTNchanceCLOCK s) s).
Definition isBufferingEnabled : K Z := gets (λ s, w8 (EnableBuffering s)).
Definition setModifiedBufferLength (length : Z) : K unit :=
  modify (λ s, set_modes (EnableModifiedBuffer s) (EnableBuffering s) length (page_WS_max_sweeps s) (FASTNchanceCLOCK s) s).
Definition getModifiedBufferLength : K Z := gets ModifiedBufferLength.
Definition fault_handler_init : K unit :=
  onfs setPageReplacmentAlgorithmCLOCK ;;
  enableBuffering 0 ;;
  enableModifiedBuffer 0 ;;
  setModifiedBufferLength 1000.

(** The third fault in a row on one address by one environment is fatal. *)
Definition note_fault (fault_va cur_env : Z) : K unit :=
  s ← get;
  if decide (last_fault_va s = fault_va ∧ last_faulted_env s = cur_env) then
    let n := i8 (num_repeated_fault s + 1) in
    modify (set_last_fault (last_eip s) (before_last_eip s) (last_fault_va s) (before_last_fault_va s) n (last_faulted_env s)) ;;
    if decide (n = 3) then panic else mret ()
  else modify (set_last_fault (last_eip s) (last_eip s) (last_fault_va s) (last_fault_va s) 0 (last_faulted_env s)).
Definition check_stacks (userTrap : bool) (fault_va cur_env : Z) : K unit :=
  s ← get;
  if userTrap then (if decide (USTACKTOP ≤ fault_va < USER_TOP) then panic else mret ())
  else
    ks ← (if decide (cur_env = NULL) then mret None else x ← onfs (get_env cur_env); mret (Some (kstack x)));
    let overflow := match ks with Some k => bool_decide (k ≤ fault_va < w32 (k + PAGE_SIZE)) | None => false end in
    if overflow then panic
    else if decide (cpu_stack s ≤ fault_va < w32 (cpu_stack s + PAGE_SIZE)) then panic
    else if decide (KERNEL_HEAP_MAX ≤ fault_va) then panic else mret ().
(** The invalid pointers of a user program. *)
Definition invalid_pointer (perms fault_va : Z) : bool :=
  (bool_decide (USER_HEAP_START ≤ fault_va < USER_HEAP_MAX) && bool_decide (Z.land perms PERM_UHPAGE = 0))
  || bool_decide (USTACKTOP ≤ fault_va)
  || (bool_decide (Z.land perms PERM_PRESENT ≠ 0) && bool_decide (Z.land perms PERM_WRITEABLE = 0)).
(** [tf] is [NULL] when [get_page_table] calls the handler. *)
Definition fault_handler (fuel : nat) (tf : option Trapframe) : K unit :=
  fault_va ← gets rcr2;
  cur_env ← gets cpu_proc;
  note_fault fault_va cur_env ;;
  tf ← unwrap tf;
  modify (λ s, set_last_fault (tf_eip tf) (before_last_eip s) fault_va (before_last_fault_va s) (num_repeated_fault s) cur_env s) ;;
  let userTrap := bool_decide (Z.land (tf_cs tf) 3 = 3) in
  check_stacks userTrap fault_va cur_env ;;
  if decide (cur_env = NULL) then panic else
  x ← onfs (get_env cur_env);
  let dir := env_page_directory x in
  pde ← onfs (vmop (entry dir (PDX fault_va)));
  if decide (Z.land pde PERM_PRESENT ≠ PERM_PRESENT) then
    onfs (upd_env cur_env (λ x, set_counters (pageFaultsCounter x) (w32 (tableFaultsCounter x + 1)) x)) ;;
    onfs (table_fault_handler cur_env fault_va)
  else
    invalid ← (if userTrap then perms ← onfs (vmop (pt_get_page_permissions dir fault_va)); mret (invalid_pointer perms fault_va)
               else mret false);
    if (invalid : bool) then onfs (vmop env_exit) else
    perms ← onfs (vmop (pt_get_page_permissions dir fault_va));
    if decide (Z.land perms PERM_PRESENT ≠ 0) then panic else
    onfs (upd_env cur_env (λ x, set_counters (w32 (pageFaultsCounter x + 1)) (tableFaultsCounter x) x)) ;;
    b ← isBufferingEnabled;
    if decide (b ≠ 0) then onfs (__page_fault_handler_with_buffering cur_env fault_va)
    else onfs (page_fault_handler fuel cur_env fault_va).
End entry.
