(* ===== verification/VMSpec.v ===== *)
(** * What demand paging needs of the virtual memory

    The abstract view of the address space of one environment (a page table
    entry per page), and the laws that the operations of the class [VM] obey on
    it. Placement and replacement are proved against these laws (FaultSpec.v);
    VMPaging.v proves them for the functions of Paging.v. *)

From S2P Require Import Prelude Queue Paging PagingSpec WorkingSet.

Definition user (va : Z) : Prop := 0 ≤ va < USER_TOP.
Definition page (va : Z) : Z := va `div` PAGE_SIZE.

(** [dir] is the page directory of the environment. [vm_ok A]: the state is well
    formed, with the frames [A] allocated but not mapped yet. *)
Class VMView (E : Type) (dir : Z) := {
  vm_ok : gset Z → E → Prop;
  tabled : Z → E → Prop;          (* the page has a page table *)
  pte : Z → E → Z;                (* its entry *)
  vm_free : E → list Z;           (* the free frames *)
  frame_refs : Z → E → Z;
  storable : Z → Z → E → Prop;    (* env, va: the page file can take the page *)
  exited : E → Prop               (* the environment was ended *)
}.

(** The entry of [va] becomes [e'], the other pages of the environment keep theirs. *)
Definition pte_upd {E dir} `{VMView E dir} (va e' : Z) (s s' : E) : Prop :=
  pte va s' = e' ∧
  (∀ va', user va' → page va' ≠ page va → pte va' s' = pte va' s) ∧
  (∀ va', user va' → tabled va' s → tabled va' s').
Definition same_frames {E dir} `{VMView E dir} (s s' : E) : Prop :=
  vm_free s' = vm_free s ∧ (∀ i, frame_refs i s' = frame_refs i s) ∧ ∀ e va, storable e va s → storable e va s'.

Class VMLaws (E : Type) `{VM E} (dir : Z) `{!VMView E dir} : Prop := {
  pte_page va va' s : user va → user va' → page va = page va' → pte va s = pte va' s;
  tabled_page va va' s : user va → user va' → page va = page va' → tabled va s → tabled va' s;
  pte_range A va s : vm_ok A s → user va → tabled va s → 0 ≤ pte va s < 4294967296;
  get_law A va s : vm_ok A s → user va → tabled va s →
    pt_get_page_permissions dir va s = Ok (Z.land (pte va s) 4095) s;
  set_law A va set clear s : vm_ok A s → user va → tabled va s → 0 ≤ set < 4096 → 0 ≤ clear < 4096 →
    Z.land set (Z.lor PERM_PRESENT PERM_BUFFERED) = 0 → Z.land clear PERM_PRESENT = 0 →
    wp (pt_set_page_permissions dir va set clear) (λ _ s', vm_ok A s' ∧ same_frames s s' ∧
      pte_upd va (Z.ldiff (Z.lor (pte va s) set) clear) s s') s;
  info_law A va s : vm_ok A s → user va → tabled va s →
    ∃ t, get_frame_info dir va s = Ok (if maps (pte va s) then Some (PPN (pte va s)) else None, t) s;
  unmap_law A va s : vm_ok A s → user va → tabled va s → maps (pte va s) = true →
    wp (unmap_frame dir va) (λ _ s', vm_ok A s' ∧ pte_upd va (Z.land (pte va s) PERM_AVAILABLE) s s' ∧
      maps (Z.land (pte va s) PERM_AVAILABLE) = false ∧
      vm_free s' = (if decide (frame_refs (PPN (pte va s)) s = 1) then PPN (pte va s) :: vm_free s else vm_free s)) s;
  alloc_law A fi rest s : vm_ok A s → vm_free s = fi :: rest →
    fi ∉ A ∧ wp allocate_frame (λ r s', r = (0, fi) ∧ vm_ok ({[fi]} ∪ A) s' ∧ vm_free s' = rest ∧
      (∀ va, user va → pte va s' = pte va s) ∧ (∀ va, user va → tabled va s → tabled va s')) s;
  alloc_none A s : vm_ok A s → vm_free s = [] → panics allocate_frame s;
  map_law A fi va perm s : vm_ok A s → fi ∈ A → user va → tabled va s → maps (pte va s) = false →
    0 ≤ perm < 4096 → Z.land perm PERM_BUFFERED = 0 →
    wp (map_frame dir fi va perm) (λ r s', r = 0 ∧ vm_ok (A ∖ {[fi]}) s' ∧ ∃ e', pte_upd va e' s s' ∧
      maps e' = true ∧ PPN e' = fi ∧ Z.land e' 4095 = mapped_bits (pte va s) perm ∧
      vm_free s' = vm_free s ∧ frame_refs fi s' = 1) s;
  update_law A e va fi s : vm_ok A s → user va → tabled va s → maps (pte va s) = true → storable e va s →
    wp (pf_update_env_page e va fi) (λ _ s', vm_ok A s' ∧ pte_upd va (Z.ldiff (pte va s) PERM_MODIFIED) s s' ∧
      frame_refs (PPN (pte va s)) s' = frame_refs (PPN (pte va s)) s) s;
  read_law A e va s : vm_ok A s → user va → tabled va s → maps (pte va s) = true →
    wp (pf_read_env_page e va) (λ _ s', vm_ok A s' ∧ ∃ e', pte_upd va e' s s' ∧
      maps e' = true ∧ PPN e' = PPN (pte va s) ∧ frame_refs (PPN (pte va s)) s' = frame_refs (PPN (pte va s)) s) s;
  exit_law s : wp env_exit (λ _ s', exited s') s
}.

Lemma pte_upd_page {E} `{VM E} {dir} `{!VMView E dir} `{!VMLaws E dir} va va' e' s s' :
  user va → user va' → page va' = page va → pte_upd va e' s s' → pte va' s' = e'.
Proof. intros ? ? Hp (He & _ & _). rewrite <- He. by apply pte_page. Qed.
Lemma ROUNDDOWN_page va : user va → user (ROUNDDOWN va PAGE_SIZE) ∧ page (ROUNDDOWN va PAGE_SIZE) = page va.
Proof.
  unfold user, page, USER_TOP, PAGE_SIZE. intros Hva. destruct (ROUNDDOWN_spec va 4096) as ((k & Hk) & Hr & H0); [lia..|].
  split; [lia|]. rewrite Hk in *. rewrite Z.div_mul by lia. apply (Z.div_unique_pos _ _ _ (va - k * 4096)); lia.
Qed.
