(* ===== verification/FaultSpec.v ===== *)
(** * Page replacement against the laws of virtual memory

    The invariant of a working set, the circular order of its elements, and the
    steps that the replacement algorithms share: looking at and clearing bits,
    evicting a page and loading another one in its place. *)

From S2P Require Import Prelude Queue Paging PagingSpec WorkingSet Fault VMSpec.

(** ** Lists *)
Definition rotation (l r : list Z) : Prop := ∃ pre post, l = pre ++ post ∧ r = post ++ pre.
(** The successor on the circular list. *)
Definition cnext (p : Z) (l : list Z) : Z :=
  if decide (next_of p l = NULL) then first_of l else next_of p l.
Lemma next_of_split pre p post : p ∉ pre → next_of p (pre ++ p :: post) = first_of post.
Proof.
  induction pre as [|q pre IH]; intros Hp; cbn.
  - by rewrite decide_True.
  - rewrite not_elem_of_cons in Hp. rewrite decide_False by naive_solver. apply IH. naive_solver.
Qed.
Lemma rotation_perm l r : rotation l r → r ≡ₚ l.
Proof. intros (pre & post & -> & ->). apply Permutation_app_comm. Qed.
Lemma rotation_elem l r p : rotation l r → p ∈ r ↔ p ∈ l.
Proof. intros Hr%rotation_perm. by rewrite Hr. Qed.
Lemma rotation_next l h t :
  NoDup l → NULL ∉ l → rotation l (h :: t) → cnext h l = first_of (t ++ [h]) ∧ rotation l (t ++ [h]).
Proof.
  intros Hnd Hnn (pre & post & -> & Hr). unfold cnext. destruct post as [|p post].
  - cbn in Hr. subst pre. rewrite app_nil_r in *. pose proof (next_of_split [] h t (not_elem_of_nil _)) as Hnx. cbn [app] in Hnx. rewrite Hnx. split.
    + destruct t as [|q t]; cbn; [by rewrite decide_True by done|]. rewrite decide_False; [done|]. set_solver.
    + exists [h], t. done.
  - injection Hr as <- ->. rewrite next_of_split by (apply NoDup_app in Hnd as (_ & Hd & _); intros Hin; apply (Hd h Hin); by left).
    split.
    + destruct post as [|q post]; cbn.
      * rewrite decide_True by done. by destruct pre.
      * rewrite decide_False; [done|]. set_solver.
    + exists (pre ++ [h]), post. by rewrite <- !app_assoc.
Qed.
Lemma rotation_start l h : h ∈ l → ∃ t, rotation l (h :: t).
Proof. intros (pre & post & ->)%list_elem_of_split. exists (post ++ pre). by exists pre, (h :: post). Qed.

Lemma rotation_rotate l a b : NoDup l → NULL ∉ l → rotation l (a ++ b) → rotation l (b ++ a).
Proof.
  intros Hnd Hnn. revert b. induction a as [|h a IH]; intros b Hr; [by rewrite app_nil_r|].
  apply rotation_next in Hr as [_ Hr]; [|done..]. rewrite <- app_assoc in Hr. apply IH in Hr. by rewrite <- app_assoc in Hr.
Qed.
(** The successor of an element in the middle of a round. *)
Lemma rotation_step l pre p rem :
  NoDup l → NULL ∉ l → rotation l (pre ++ p :: rem) →
  if rem is [] then cnext p l = first_of (pre ++ [p])
  else cnext p l = first_of rem ∧ first_of rem ≠ first_of (pre ++ p :: rem).
Proof.
  intros Hnd Hnn Hr. pose proof (rotation_perm _ _ Hr) as Hp. apply rotation_rotate in Hr; [|done..]. cbn in Hr.
  apply rotation_next in Hr as [-> _]; [|done..]. destruct rem as [|q rem]; [done|]. split; [done|]. cbn.
  assert (Hnd' : NoDup (pre ++ p :: q :: rem)) by (by rewrite Hp). destruct pre as [|a pre]; cbn in *.
  - apply NoDup_cons in Hnd' as [Hn _]. intros ->. apply Hn. by left.
  - apply NoDup_cons in Hnd' as [Hn _]. intros ->. apply Hn. rewrite elem_of_app. right. right. by left.
Qed.

(** ** Bits *)
Lemma maps_same e e' :
  (∀ n, 0 ≤ n → n ≠ 5 → n ≠ 6 → Z.testbit e' n = Z.testbit e n) → maps e' = maps e.
Proof.
  intros Hb. unfold maps. apply bool_decide_ext.
  assert (∀ m, (Z.testbit m 5 = false) → (Z.testbit m 6 = false) → Z.land e' m = Z.land e m) as Hm.
  { intros m H5 H6. apply Z.bits_inj'. intros n Hn. rewrite !Z.land_spec.
    destruct (decide (n = 5)) as [->|]; [by rewrite H5, !andb_false_r|].
    destruct (decide (n = 6)) as [->|]; [by rewrite H6, !andb_false_r|]. by rewrite Hb. }
  by rewrite !Hm.
Qed.
Lemma maps_clear_used e : maps (Z.ldiff e PERM_USED) = maps e.
Proof.
  apply maps_same. intros n Hn H5 H6. rewrite Z.ldiff_spec.
  change PERM_USED with (2 ^ 5). rewrite Z.pow2_bits_false by lia. by rewrite andb_true_r.
Qed.
Lemma maps_clear_modified e : maps (Z.ldiff e PERM_MODIFIED) = maps e.
Proof.
  apply maps_same. intros n Hn H5 H6. rewrite Z.ldiff_spec.
  change PERM_MODIFIED with (2 ^ 6). rewrite Z.pow2_bits_false by lia. by rewrite andb_true_r.
Qed.
Lemma maps_set_used e : maps (Z.lor e PERM_USED) = maps e.
Proof.
  apply maps_same. intros n Hn H5 H6. rewrite Z.lor_spec.
  change PERM_USED with (2 ^ 5). rewrite Z.pow2_bits_false by lia. by rewrite orb_false_r.
Qed.
Lemma PPN_clear e m : 0 ≤ e < 4294967296 → 0 ≤ m < 4096 → PPN (Z.ldiff e m) = PPN e.
Proof.
  intros He Hm. unfold PPN. pose proof (ldiff_small_bits e m 32 ltac:(lia) He) as Hd. change (2 ^ 32) with 4294967296 in Hd.
  rewrite !w32_small by lia. rewrite Z.shiftr_ldiff, (Z.shiftr_div_pow2 m) by lia. change (2 ^ 12) with 4096.
  rewrite (Z.div_small m) by lia. apply Z.ldiff_0_r.
Qed.
Lemma PPN_set e m : 0 ≤ e < 4294967296 → 0 ≤ m < 4096 → PPN (Z.lor e m) = PPN e.
Proof.
  intros He Hm. unfold PPN. pose proof (lor_small_bits e m 32 ltac:(lia) He ltac:(lia)) as Hd. change (2 ^ 32) with 4294967296 in Hd.
  rewrite !w32_small by lia. rewrite Z.shiftr_lor, (Z.shiftr_div_pow2 m) by lia. change (2 ^ 12) with 4096.
  rewrite (Z.div_small m) by lia. apply Z.lor_0_r.
Qed.
Lemma low_bits e m : Z.land 4095 m = m → Z.land (Z.land e 4095) m = Z.land e m.
Proof. intros Hm. by rewrite <- Z.land_assoc, Hm. Qed.
Lemma land_ldiff_disjoint e m p : Z.land p m = 0 → Z.land (Z.ldiff e m) p = Z.land e p.
Proof.
  intros Hd. apply Z.bits_inj'. intros n Hn. rewrite !Z.land_spec, Z.ldiff_spec.
  assert (Hb : Z.testbit (Z.land p m) n = false) by (by rewrite Hd, Z.bits_0). rewrite Z.land_spec in Hb.
  destruct (Z.testbit e n), (Z.testbit m n), (Z.testbit p n); done.
Qed.

Section spec.
Context {E : Type} `{VM E} {dir : Z} `{!VMView E dir} `{!VMLaws E dir}.
Implicit Types s : fstate E.

(** ** The working set *)
Definition va_of (s : fstate E) (p : Z) : Z := default 0 (virtual_address <$> elements s !! p).
Definition elt_pte (s : fstate E) (p : Z) : Z := pte (va_of s p) (vm s).
Definition has_bit (m : Z) (s : fstate E) (p : Z) : bool := bool_decide (Z.land (elt_pte s p) m ≠ 0).

Record ws_ok (e : Z) (s : fstate E) (x : Env) : Prop := {
  ws_env : envs s !! e = Some x;
  ws_dir : env_page_directory x = dir;
  ws_nodup : NoDup (page_WS_list x);
  ws_nonnull : NULL ∉ page_WS_list x;
  ws_elem p : p ∈ page_WS_list x → is_Some (elements s !! p) ∧ user (va_of s p) ∧ tabled (va_of s p) (vm s) ∧ maps (elt_pte s p) = true;
  ws_distinct p q : p ∈ page_WS_list x → q ∈ page_WS_list x → p ≠ q → page (va_of s p) ≠ page (va_of s q);
  ws_vm : vm_ok ∅ (vm s)
}.

Lemma wp_vmop {A} (c : M E A) Q s : wp c (λ a v, Q a (set_vm v s)) (vm s) → wp (vmop c) Q s.
Proof. unfold wp, vmop, zoom. by destruct (c (vm s)). Qed.
Lemma wp_env_at e x Q s : envs s !! e = Some x → Q x s → wp (get_env e) Q s.
Proof. intros Hx HQ. unfold get_env. apply wp_bind, wp_gets. by eapply wp_unwrap. Qed.
Lemma wp_env_upd e f x Q s : envs s !! e = Some x → Q tt (set_envs (<[e := f x]> (envs s)) s) → wp (upd_env e f) Q s.
Proof. intros Hx HQ. unfold upd_env. apply wp_bind. eapply wp_env_at; [done|]. by apply wp_modify. Qed.
Lemma wp_get_wse p w Q s : elements s !! p = Some w → Q w s → wp (get_wse p) Q s.
Proof. intros Hx HQ. unfold get_wse. apply wp_bind, wp_gets. by eapply wp_unwrap. Qed.
Lemma wp_put_wse p w w' Q s : elements s !! p = Some w' → Q tt (set_elements (<[p := w]> (elements s)) s) → wp (put_wse p w) Q s.
Proof. intros Hx HQ. unfold put_wse. apply wp_bind. eapply wp_get_wse; [done|]. by apply wp_modify. Qed.
Lemma wp_circular_next e x p Q s :
  envs s !! e = Some x → p ∈ page_WS_list x → Q (cnext p (page_WS_list x)) s → wp (circular_next e p) Q s.
Proof.
  intros Hx Hp HQ. unfold circular_next. apply wp_bind. eapply wp_env_at; [done|]. apply wp_bind.
  unfold lq_next. rewrite decide_True by done. apply wp_ret, wp_ret. exact HQ.
Qed.
Lemma va_of_lookup s p w : elements s !! p = Some w → va_of s p = virtual_address w.
Proof. intros Hw. unfold va_of. by rewrite Hw. Qed.
(** Reading the permissions of the page of an element. *)
Lemma wp_elt_perms e x s p (Q : Z → fstate E → Prop) :
  ws_ok e s x → p ∈ page_WS_list x → Q (Z.land (elt_pte s p) 4095) s →
  wp (vmop (pt_get_page_permissions (env_page_directory x) (va_of s p))) Q s.
Proof.
  intros Hok Hp HQ. destruct (ws_elem _ _ _ Hok p Hp) as (_ & Hu & Ht & _). rewrite (ws_dir _ _ _ Hok).
  apply wp_vmop. unfold wp. rewrite (get_law _ _ _ (ws_vm _ _ _ Hok) Hu Ht). by destruct s.
Qed.

(** ** Clearing used bits *)

(** The virtual memory [v'] is that of [s] with the used bit of the pages of [us] cleared. *)
Definition cleared (us : list Z) (s : fstate E) (v' : E) : Prop :=
  vm_ok ∅ v' ∧ same_frames (vm s) v' ∧ (∀ va, user va → tabled va (vm s) → tabled va v') ∧
  (∀ p, p ∈ us → pte (va_of s p) v' = Z.ldiff (elt_pte s p) PERM_USED) ∧
  (∀ va, user va → (∀ p, p ∈ us → page va ≠ page (va_of s p)) → pte va v' = pte va (vm s)).
Lemma cleared_nil s : vm_ok ∅ (vm s) → cleared [] s (vm s).
Proof. intros. split_and!; try done. intros p Hp. by apply not_elem_of_nil in Hp. Qed.
Lemma wp_clear_used e x s p (Q : unit → fstate E → Prop) :
  ws_ok e s x → p ∈ page_WS_list x → (∀ v', cleared [p] s v' → Q tt (set_vm v' s)) →
  wp (vmop (pt_set_page_permissions (env_page_directory x) (va_of s p) 0 PERM_USED)) Q s.
Proof.
  intros Hok Hp HQ. destruct (ws_elem _ _ _ Hok p Hp) as (_ & Hu & Ht & _). rewrite (ws_dir _ _ _ Hok).
  apply wp_vmop. eapply wp_mono; [by apply (set_law ∅ (va_of s p) 0 PERM_USED (vm s) (ws_vm _ _ _ Hok))|].
  intros [] v' (Hvm & Hfr & He & Hother & Htab). apply HQ. split_and!; [done|done|done| |].
  - intros q ->%list_elem_of_singleton. rewrite He. by rewrite Z.lor_0_r.
  - intros va Hva Hne. apply Hother; [done|]. apply Hne. by left.
Qed.
Lemma cleared_elt e x s us v' p :
  ws_ok e s x → (∀ u, u ∈ us → u ∈ page_WS_list x) → p ∈ page_WS_list x → cleared us s v' →
  elt_pte (set_vm v' s) p = if decide (p ∈ us) then Z.ldiff (elt_pte s p) PERM_USED else elt_pte s p.
Proof.
  intros Hok Hus Hp (_ & _ & _ & Hcl & Hsame). change (elt_pte (set_vm v' s) p) with (pte (va_of s p) v').
  case_decide as Hin; [by apply Hcl|]. apply Hsame; [by apply (ws_elem _ _ _ Hok)|].
  intros q Hq. apply (ws_distinct _ _ _ Hok); [done|by apply Hus|]. by intros ->.
Qed.
Lemma cleared_ok e x s us v' :
  ws_ok e s x → (∀ u, u ∈ us → u ∈ page_WS_list x) → cleared us s v' → ws_ok e (set_vm v' s) x.
Proof.
  intros Hok Hus Hcl. destruct Hok as [He Hd Hn Hnn Hel Hdist Hvm]. split; try done.
  - intros p Hp. destruct (Hel p Hp) as (? & Hu & Ht & Hm). split_and!; [done|done|by apply Hcl|].
    rewrite (cleared_elt e x s us v' p); [|by split|done..]. case_decide; [|done]. by rewrite maps_clear_used.
  - apply Hcl.
Qed.
Lemma ws_ok_last e x s q : ws_ok e s x → ws_ok e (set_envs (<[e := set_last q x]> (envs s)) s) (set_last q x).
Proof. intros [He Hd Hn Hnn Hel Hdist Hvm]. split; try done. cbn. by rewrite lookup_insert_eq. Qed.
Lemma cleared_trans e x s us1 us2 v1 v2 :
  ws_ok e s x → (∀ u, u ∈ us1 ++ us2 → u ∈ page_WS_list x) → NoDup (us1 ++ us2) →
  cleared us1 s v1 → cleared us2 (set_vm v1 s) v2 → cleared (us1 ++ us2) s v2.
Proof.
  intros Hok Hus Hnd Hc1 Hc2. apply NoDup_app in Hnd as (_ & Hd & _).
  assert (Hus1 : ∀ u, u ∈ us1 → u ∈ page_WS_list x) by (intros; apply Hus, elem_of_app; by left).
  assert (Hus2 : ∀ u, u ∈ us2 → u ∈ page_WS_list x) by (intros; apply Hus, elem_of_app; by right).
  pose proof (λ p Hp, cleared_elt e x s us1 v1 p Hok Hus1 Hp Hc1) as Helt.
  destruct Hc1 as (Hv1 & (Hf1 & Hr1 & Hst1) & Ht1 & Hp1 & Ho1), Hc2 as (Hv2 & (Hf2 & Hr2 & Hst2) & Ht2 & Hp2 & Ho2). cbn in *.
  split_and!; [done|split_and!; [by rewrite Hf2|intros; by rewrite Hr2|intros; by apply Hst2, Hst1]|intros; by apply Ht2, Ht1| |].
  - intros p [Hp|Hp]%elem_of_app.
    + change (va_of (set_vm v1 s)) with (va_of s) in *. rewrite Ho2.
      * by apply Hp1.
      * by apply (ws_elem _ _ _ Hok), Hus1.
      * intros q Hq. apply (ws_distinct _ _ _ Hok); [by apply Hus1|by apply Hus2|]. intros ->. by apply (Hd q).
    + change (va_of s p) with (va_of (set_vm v1 s) p). rewrite Hp2 by done. rewrite Helt by (by apply Hus2).
      rewrite decide_False; [done|]. intros Hq. by apply (Hd p).
  - intros va Hva Hne. rewrite Ho2, Ho1; [done|done| |done|].
    + intros p Hp. apply Hne, elem_of_app. by left.
    + intros p Hp. apply Hne, elem_of_app. by right.
Qed.

(** ** CLOCK *)
Lemma land_low_0 e m : Z.land 4095 m = m → Z.land (Z.land e 4095) m = 0 ↔ Z.land e m = 0.
Proof. intros Hm. by rewrite low_bits. Qed.
Lemma first_of_app (l : list Z) a l2 l3 : first_of (l ++ a :: l2) = first_of (l ++ a :: l3).
Proof. by destruct l. Qed.
Lemma env_last_id e x s :
  envs s !! e = Some x → set_envs (<[e := set_last (page_last_WS_element x) x]> (envs s)) s = s.
Proof. intros Hx. destruct s, x. unfold set_last, set_envs. cbn in *. by rewrite insert_id. Qed.
(** One round on a used element: its bit is cleared and the hand moves on. *)
Lemma clock_step e fuel s x u t (Q : Z → fstate E → Prop) :
  ws_ok e s x → rotation (page_WS_list x) (u :: t) → page_last_WS_element x = u → has_bit PERM_USED s u = true →
  (∀ v1, cleared [u] s v1 → let n := first_of (t ++ [u]) in
     let s1 := set_envs (<[e := set_last n x]> (envs s)) (set_vm v1 s) in
     ws_ok e s1 (set_last n x) → wp (clock_loop fuel e) Q s1) →
  wp (clock_loop (S fuel) e) Q s.
Proof.
  intros Hok Hrot Hlast Hub HQ.
  assert (Hu : u ∈ page_WS_list x) by (rewrite <- (rotation_elem _ _ _ Hrot); by left).
  destruct (ws_elem _ _ _ Hok u Hu) as ([w Hw] & _). cbn [clock_loop].
  apply wp_bind. eapply wp_env_at; [apply Hok|]. rewrite Hlast. apply wp_bind. eapply wp_get_wse; [done|].
  rewrite <- (va_of_lookup s u w Hw). apply wp_bind. eapply wp_elt_perms; [done..|].
  rewrite decide_False by (unfold has_bit in Hub; apply bool_decide_eq_true in Hub; by rewrite land_low_0).
  apply wp_bind. eapply wp_clear_used; [done..|]. intros v1 Hc1.
  assert (Hok1 : ws_ok e (set_vm v1 s) x).
  { eapply cleared_ok; [done| |done]. intros q ->%list_elem_of_singleton. done. }
  apply wp_bind. eapply wp_circular_next; [apply Hok1|done|].
  destruct (rotation_next _ _ _ (ws_nodup _ _ _ Hok) (ws_nonnull _ _ _ Hok) Hrot) as [-> _].
  apply wp_bind. eapply wp_env_upd; [apply Hok1|]. exact (HQ v1 Hc1 (ws_ok_last _ _ _ _ Hok1)).
Qed.
Lemma cleared_other e x s u v1 p :
  ws_ok e s x → u ∈ page_WS_list x → p ∈ page_WS_list x → p ≠ u → cleared [u] s v1 → elt_pte (set_vm v1 s) p = elt_pte s p.
Proof.
  intros Hok Hu Hp Hne Hc. rewrite (cleared_elt e x s [u] v1 p); [|done| |done..].
  - rewrite decide_False; [done|]. by intros ->%list_elem_of_singleton.
  - by intros q ->%list_elem_of_singleton.
Qed.
Lemma cleared_cons e x s u us v1 v' t :
  ws_ok e s x → rotation (page_WS_list x) (u :: us ++ t) → cleared [u] s v1 → cleared us (set_vm v1 s) v' → cleared (u :: us) s v'.
Proof.
  intros Hok Hrot Hc1 Hc2. apply (cleared_trans e x s [u] us v1 v' Hok); [| |done..].
  - intros p Hp. apply (rotation_elem _ _ _ Hrot). cbn in Hp. rewrite elem_of_cons in *. rewrite elem_of_app. tauto.
  - assert (Hnd : NoDup (u :: us ++ t)) by (rewrite (rotation_perm _ _ Hrot); apply Hok).
    apply NoDup_cons in Hnd as [Hn1 Hn2]. apply NoDup_app in Hn2 as (Hn2 & _ & _). cbn. constructor; [|done].
    intros Hu'. apply Hn1, elem_of_app. by left.
Qed.
(** With used elements [us] from the hand on and then an unused one, the loop
    clears the used bits of [us] and stops there. *)
Lemma clock_run e us : ∀ fuel s x v rest (Q : Z → fstate E → Prop),
  ws_ok e s x → rotation (page_WS_list x) (us ++ v :: rest) → page_last_WS_element x = first_of (us ++ [v]) →
  (∀ u, u ∈ us → has_bit PERM_USED s u = true) → has_bit PERM_USED s v = false → (length us < fuel)%nat →
  (∀ v', cleared us s v' → Q v (set_vm v' (set_envs (<[e := set_last v x]> (envs s)) s))) →
  wp (clock_loop fuel e) Q s.
Proof.
  induction us as [|u us IH]; intros fuel s x v rest Q Hok Hrot Hlast Hused Hv Hfuel HQ.
  - destruct fuel as [|fuel]; [cbn in Hfuel; lia|]. cbn [clock_loop app first_of hdn] in *.
    assert (Hin : v ∈ page_WS_list x) by (rewrite <- (rotation_elem _ _ _ Hrot); by left).
    destruct (ws_elem _ _ _ Hok v Hin) as ([w Hw] & _).
    apply wp_bind. eapply wp_env_at; [apply Hok|]. rewrite Hlast. apply wp_bind. eapply wp_get_wse; [done|].
    rewrite <- (va_of_lookup s v w Hw). apply wp_bind. eapply wp_elt_perms; [done..|].
    rewrite decide_True by (unfold has_bit in Hv; apply bool_decide_eq_false, dec_stable in Hv; by apply land_low_0).
    apply wp_ret. specialize (HQ (vm s) (cleared_nil s (ws_vm _ _ _ Hok))). rewrite <- Hlast in HQ at 2.
    rewrite (env_last_id e x s) in HQ by apply Hok. by destruct s.
  - destruct fuel as [|fuel]; [cbn in Hfuel; lia|]. cbn [app first_of hdn length] in *.
    eapply clock_step; [done|exact Hrot|exact Hlast|apply Hused; by left|]. intros v1 Hc1 n s1 Hok1.
    assert (Hin : ∀ p, p ∈ u :: us ++ v :: rest → p ∈ page_WS_list x) by (intros p; apply (rotation_elem _ _ _ Hrot)).
    destruct (rotation_next _ _ _ (ws_nodup _ _ _ Hok) (ws_nonnull _ _ _ Hok) Hrot) as [_ Hrot'].
    assert (Hnd : u ∉ us ++ v :: rest).
    { assert (NoDup (u :: us ++ v :: rest)) as [? _]%NoDup_cons by (rewrite (rotation_perm _ _ Hrot); apply Hok). done. }
    assert (Helt : ∀ p, p ∈ us ++ v :: rest → elt_pte s1 p = elt_pte s p).
    { intros p Hp. change (elt_pte s1 p) with (elt_pte (set_vm v1 s) p).
      apply (cleared_other e x s u v1 p); [done|apply Hin; by left|apply Hin; by right| |done]. by intros ->. }
    eapply (IH fuel s1 (set_last n x) v (rest ++ [u])); [exact Hok1| | | | |lia|].
    + cbn. rewrite <- app_assoc in Hrot'. exact Hrot'.
    + unfold n. cbn [page_last_WS_element set_last]. rewrite <- app_assoc. apply first_of_app.
    + intros p Hp. unfold has_bit. rewrite Helt by (apply elem_of_app; by left). apply Hused. by right.
    + unfold has_bit. rewrite Helt by (apply elem_of_app; right; by left). exact Hv.
    + intros v' Hc2. specialize (HQ v' (cleared_cons e x s u us v1 v' _ Hok Hrot Hc1 Hc2)).
      unfold s1. unfold set_vm, set_envs in *. cbn in *. by rewrite insert_insert_eq.
Qed.

(** The elements that the hand passes and the one it stops at, from the
    circular list [r] that starts at the hand: the first unused element, or
    the first one after a whole round when all are used. *)
Definition clock_choice (s : fstate E) (r : list Z) : list Z * Z :=
  match list_find (λ p, has_bit PERM_USED s p = false) r with
  | Some (i, v) => (take i r, v)
  | None => (r, first_of r)
  end.
Lemma wp_clock_loop e fuel s x h t (Q : Z → fstate E → Prop) :
  ws_ok e s x → rotation (page_WS_list x) (h :: t) → page_last_WS_element x = h → (length (page_WS_list x) < fuel)%nat →
  (∀ v', cleared (clock_choice s (h :: t)).1 s v' →
     Q (clock_choice s (h :: t)).2 (set_vm v' (set_envs (<[e := set_last (clock_choice s (h :: t)).2 x]> (envs s)) s))) →
  wp (clock_loop fuel e) Q s.
Proof.
  intros Hok Hrot Hlast Hfuel. unfold clock_choice.
  pose proof (Permutation_length (rotation_perm _ _ Hrot)) as Hlen. cbn [length] in Hlen.
  destruct (list_find _ _) as [[i v]|] eqn:Hf; cbn [fst snd]; intros HQ.
  - apply list_find_Some in Hf as (Hi & Hv & Hbefore). pose proof (take_drop_middle _ _ _ Hi) as Hsplit.
    eapply (clock_run e (take i (h :: t)) fuel s x v (drop (S i) (h :: t))); [done|by rewrite Hsplit| | |done| |done].
    + rewrite Hlast, (first_of_app _ v [] (drop (S i) (h :: t))), Hsplit. done.
    + intros u Hu. apply list_elem_of_lookup in Hu as [j Hj]. apply lookup_take_Some in Hj as [Hj Hlt].
      apply not_false_iff_true. by eapply Hbefore.
    + rewrite length_take. apply lookup_lt_Some in Hi. cbn [length] in *. lia.
  - apply list_find_None in Hf. rewrite Forall_forall in Hf.
    assert (Hused : ∀ p, p ∈ h :: t → has_bit PERM_USED s p = true) by (intros p Hp; apply not_false_iff_true; by apply Hf).
    destruct fuel as [|fuel]; [lia|]. eapply clock_step; [done|exact Hrot|done|apply Hused; by left|]. intros v1 Hc1 n s1 Hok1.
    assert (Hin : ∀ p, p ∈ h :: t → p ∈ page_WS_list x) by (intros p; apply (rotation_elem _ _ _ Hrot)).
    destruct (rotation_next _ _ _ (ws_nodup _ _ _ Hok) (ws_nonnull _ _ _ Hok) Hrot) as [_ Hrot'].
    assert (Hnd : h ∉ t).
    { assert (NoDup (h :: t)) as [? _]%NoDup_cons by (rewrite (rotation_perm _ _ Hrot); apply Hok). done. }
    eapply (clock_run e t fuel s1 (set_last n x) h []); [exact Hok1|exact Hrot'|done| | |lia|].
    + intros u Hu. unfold has_bit. change (elt_pte s1 u) with (elt_pte (set_vm v1 s) u).
      rewrite (cleared_other e x s h v1 u); [apply Hused; by right|done|apply Hin; by left|apply Hin; by right|by intros ->|done].
    + unfold has_bit. change (elt_pte s1 h) with (pte (va_of s h) v1). destruct Hc1 as (_ & _ & _ & Hc1 & _).
      rewrite Hc1 by by left. apply bool_decide_eq_false. intros Hz. apply Hz. rewrite Z.ldiff_land, <- Z.land_assoc.
      change (Z.land (Z.lnot PERM_USED) PERM_USED) with 0. apply Z.land_0_r.
    + intros v' Hc2. cbn [first_of hdn] in HQ.
      assert (Hc : cleared (h :: t) s v') by (eapply (cleared_cons e x s h t v1 v' []); [done|by rewrite app_nil_r|done..]).
      specialize (HQ v' Hc). unfold s1. unfold set_vm, set_envs in *. cbn in *. by rewrite insert_insert_eq.
Qed.

(** ** Evicting a page and loading another one *)

(** The page of element [v] is the only one on its frame, and the page file has
    a place for it when it must be written back. *)
Definition evictable (e : Z) (s : fstate E) (v : Z) : Prop :=
  frame_refs (PPN (elt_pte s v)) (vm s) = 1 ∧
  (Z.land (elt_pte s v) PERM_MODIFIED ≠ 0 → storable e (va_of s v) (vm s)).
(** The virtual memory [v'] is that of [s] with the page of element [v] unmapped
    and the page [fva] mapped on its frame. *)
Definition replaced (v fva : Z) (s : fstate E) (v' : E) : Prop :=
  vm_ok ∅ v' ∧ (∀ va, user va → tabled va (vm s) → tabled va v') ∧
  pte (va_of s v) v' = Z.land (elt_pte s v) PERM_AVAILABLE ∧ maps (pte (va_of s v) v') = false ∧
  maps (pte fva v') = true ∧ PPN (pte fva v') = PPN (elt_pte s v) ∧ frame_refs (PPN (elt_pte s v)) v' = 1 ∧
  (∀ va, user va → page va ≠ page fva → page va ≠ page (va_of s v) → pte va v' = pte va (vm s)).

Lemma wp_write_back e x s v (Q : unit → fstate E → Prop) :
  ws_ok e s x → v ∈ page_WS_list x → evictable e s v →
  (∀ v1 p1, vm_ok ∅ v1 → pte_upd (va_of s v) p1 (vm s) v1 → PPN p1 = PPN (elt_pte s v) → maps p1 = true →
     Z.land p1 PERM_AVAILABLE = Z.land (elt_pte s v) PERM_AVAILABLE → frame_refs (PPN p1) v1 = 1 → Q tt (set_vm v1 s)) →
  wp (perms ← vmop (pt_get_page_permissions dir (va_of s v));
      when (bool_decide (Z.land perms PERM_MODIFIED ≠ 0))
        (_ ← vmop (pf_update_env_page e (va_of s v) (Some (PPN (elt_pte s v)))); mret ())) Q s.
Proof.
  intros Hok Hv [Hrefs Hstore] HQ. destruct (ws_elem _ _ _ Hok v Hv) as (_ & Hu & Ht & Hm).
  pose proof (pte_range _ _ _ (ws_vm _ _ _ Hok) Hu Ht) as Hrange.
  rewrite <- (ws_dir _ _ _ Hok). apply wp_bind. eapply wp_elt_perms; [done..|]. apply wp_when; intros Hmod.
  - apply bool_decide_eq_true in Hmod. rewrite land_low_0 in Hmod by done. apply wp_bind, wp_vmop.
    eapply wp_mono; [apply (update_law ∅ e (va_of s v)); [apply Hok|done..|by apply Hstore]|].
    intros _ v1 (Hvm & Hupd & Hr). apply wp_ret. eapply HQ; [done|exact Hupd|..].
    + by apply PPN_clear.
    + by rewrite maps_clear_modified.
    + by apply land_ldiff_disjoint.
    + change (pte (va_of s v) (vm s)) with (elt_pte s v) in *. rewrite PPN_clear by done. by rewrite Hr.
  - destruct s as [al en el vm0]. eapply (HQ vm0 (elt_pte (FST al en el vm0) v)); try done. apply Hok.
Qed.

(** The virtual memory [v'] is [v] with the page [fva] mapped on the frame [fi]. *)
Definition filled (fva fi : Z) (v v' : E) : Prop :=
  vm_ok ∅ v' ∧ (∀ va, user va → tabled va v → tabled va v') ∧
  maps (pte fva v') = true ∧ PPN (pte fva v') = fi ∧ frame_refs fi v' = 1 ∧
  (∀ va, user va → page va ≠ page fva → pte va v' = pte va v).
(** Mapping the frame that was just allocated and reading the page. *)
Lemma wp_map_load e fva fi s (Q : bool → fstate E → Prop) :
  vm_ok ({[fi]} ∪ ∅) (vm s) → user fva → tabled fva (vm s) → maps (pte fva (vm s)) = false →
  (in_heap_or_stack fva = false → ∀ v', exited v' → Q false (set_vm v' s)) →
  (∀ v', filled fva fi (vm s) v' → Q true (set_vm v' s)) →
  wp (vmop (map_frame dir fi fva NEW_PAGE_PERM) ;; load_page e fva) Q s.
Proof.
  intros Hvm Hu Ht Hm HQ0 HQ1. apply wp_bind, wp_vmop. eapply wp_mono.
  { apply (map_law _ fi fva NEW_PAGE_PERM (vm s) Hvm); [set_solver|done..]. }
  intros r' v4 (-> & Hvm4 & e4 & (Hpv4 & Ho4 & Ht4) & Hm4 & HP4 & _ & Hfree4 & Hr4).
  assert (({[fi]} ∪ ∅) ∖ {[fi]} = (∅ : gset Z)) as HA by set_solver. rewrite HA in Hvm4.
  unfold load_page. apply wp_bind, wp_vmop. eapply wp_mono.
  { apply (read_law ∅ e fva v4 Hvm4); [done|by apply Ht4|by rewrite Hpv4]. }
  rewrite Hpv4, HP4. intros r v5 (Hvm5 & e5 & (Hpv5 & Ho5 & Ht5) & Hm5 & HP5 & Hr5).
  case_decide as Hfail.
  - apply wp_bind, wp_vmop. eapply wp_mono; [apply exit_law|]. intros [] v6 Hex. apply wp_ret. by apply (HQ0 (proj2 Hfail) v6).
  - apply wp_ret. apply (HQ1 v5). split_and!; [done|intros; by apply Ht5, Ht4| | | |].
    + by rewrite Hpv5.
    + by rewrite Hpv5.
    + by rewrite Hr5.
    + intros va Hva Hne. by rewrite Ho5, Ho4.
Qed.

Lemma wp_replace_page chk e x s v fault_va (Q : bool → fstate E → Prop) :
  let fva := ROUNDDOWN fault_va PAGE_SIZE in
  ws_ok e s x → v ∈ page_WS_list x → evictable e s v → user fault_va → tabled fva (vm s) → maps (pte fva (vm s)) = false →
  (in_heap_or_stack fva = false → ∀ v', exited v' → Q false (set_vm v' s)) →
  (∀ v', replaced v fva s v' → Q true (set_vm v' s)) →
  wp (replace_page chk e v fault_va) Q s.
Proof.
  intros fva Hok Hv Hev Hfu Hft Hfm HQ0 HQ1. destruct (ROUNDDOWN_page fault_va Hfu) as [Hfu' _]. fold fva in Hfu'.
  destruct (ws_elem _ _ _ Hok v Hv) as ([w Hw] & Hu & Ht & Hm). pose proof (ws_vm _ _ _ Hok) as Hvm0.
  assert (Hne : page fva ≠ page (va_of s v)).
  { intros Hp. assert (pte fva (vm s) = elt_pte s v) as Heq by (by apply pte_page). rewrite Heq in Hfm. congruence. }
  unfold replace_page. apply wp_bind. eapply wp_env_at; [apply Hok|]. apply wp_bind. eapply wp_get_wse; [done|].
  cbv zeta. rewrite <- (va_of_lookup s v w Hw). apply wp_bind, wp_vmop.
  destruct (info_law ∅ (va_of s v) (vm s) Hvm0 Hu Ht) as [t Hinfo]. rewrite (ws_dir _ _ _ Hok).
  unfold wp at 1. rewrite Hinfo. change (pte (va_of s v) (vm s)) with (elt_pte s v). rewrite Hm. cbn [fst].
  assert (Hs : set_vm (vm s) s = s) by (by destruct s). rewrite Hs.
  apply wp_bind. assert (Hchk : wp (when chk (mret ())) (λ _ s', s' = s) s) by (by destruct chk).
  eapply wp_mono; [exact Hchk|]. intros _ s' ->.
  apply wp_assoc, wp_bind. eapply wp_write_back; [done..|]. intros v1 p1 Hvm1 (Hpv1 & Ho1 & Ht1) HP1 Hm1 Hav1 Hr1.
  assert (Hmv1 : maps (pte (va_of s v) v1) = true) by (by rewrite Hpv1).
  apply wp_bind, wp_vmop. eapply wp_mono; [apply (unmap_law ∅ (va_of s v) v1); [done|done|by apply Ht1|done]|].
  cbn [vm set_vm]. rewrite Hpv1, Hr1. rewrite decide_True by done.
  intros _ v2 (Hvm2 & (Hpv2 & Ho2 & Ht2) & Hm2 & Hfree2).
  destruct (alloc_law ∅ (PPN p1) (vm_free v1) v2 Hvm2 Hfree2) as [_ Halloc].
  apply wp_bind, wp_vmop. eapply wp_mono; [exact Halloc|].
  intros r v3 (-> & Hvm3 & Hfree3 & Ho3 & Ht3). cbn [fst snd]. rewrite decide_False by (intros Hc; by apply Hc). cbv zeta. fold fva.
  assert (Hfp3 : pte fva v3 = pte fva (vm s)) by (by rewrite Ho3, Ho2, Ho1).
  eapply (wp_map_load e fva (PPN p1)); [exact Hvm3|done|by apply Ht3, Ht2, Ht1|cbn; by rewrite Hfp3|exact HQ0|].
  intros v5 (Hvm5 & Ht5 & Hm5 & HP5 & Hr5 & Ho5). cbn in Ht5, Ho5. apply (HQ1 v5).
  assert (Hvic : pte (va_of s v) v5 = Z.land p1 PERM_AVAILABLE) by (by rewrite Ho5, Ho3, Hpv2).
  split_and!; [done|intros; by apply Ht5, Ht3, Ht2, Ht1| | |done| | |].
  - by rewrite Hvic.
  - by rewrite Hvic.
  - by rewrite HP5.
  - by rewrite <- HP1.
  - intros va Hva Hn1 Hn2. by rewrite Ho5, Ho3, Ho2, Ho1.
Qed.

(** ** The working set after a replacement *)
Lemma page_apart e x s fva p :
  ws_ok e s x → user fva → maps (pte fva (vm s)) = false → p ∈ page_WS_list x → page fva ≠ page (va_of s p).
Proof.
  intros Hok Hf Hm Hp Heq. destruct (ws_elem _ _ _ Hok p Hp) as (_ & Hu & _ & Hmp).
  assert (pte fva (vm s) = elt_pte s p) as He by (by apply pte_page). rewrite He in Hm. congruence.
Qed.
Lemma ws_ok_replaced e x s v fva v' w' :
  ws_ok e s x → v ∈ page_WS_list x → user fva → tabled fva (vm s) → maps (pte fva (vm s)) = false →
  replaced v fva s v' → virtual_address w' = fva →
  let s' := set_elements (<[v := w']> (elements s)) (set_vm v' s) in
  ws_ok e s' x ∧ va_of s' v = fva ∧
  ∀ p, p ∈ page_WS_list x → p ≠ v → elements s' !! p = elements s !! p ∧ elt_pte s' p = elt_pte s p.
Proof.
  intros Hok Hv Hfu Hft Hfm (Hvm & Htab & _ & _ & Hfmap & _ & _ & Hother) Hw s'.
  assert (Hva : va_of s' v = fva) by (unfold va_of, s'; cbn; by rewrite lookup_insert_eq).
  assert (Hvo : ∀ p, p ≠ v → va_of s' p = va_of s p) by (intros; unfold va_of, s'; cbn; by rewrite lookup_insert_ne).
  assert (Hap : ∀ p, p ∈ page_WS_list x → page fva ≠ page (va_of s p)) by (intros; by eapply page_apart).
  assert (Hrest : ∀ p, p ∈ page_WS_list x → p ≠ v → elements s' !! p = elements s !! p ∧ elt_pte s' p = elt_pte s p).
  { intros p Hp Hne. split; [cbn; by rewrite lookup_insert_ne|]. unfold elt_pte. rewrite Hvo by done. cbn [vm set_elements set_vm s'].
    apply Hother; [by apply (ws_elem _ _ _ Hok)|by apply not_eq_sym, Hap|by apply (ws_distinct _ _ _ Hok)]. }
  split_and!; [|done|done]. destruct Hok as [He Hd Hn Hnn Hel Hdist _]. split; try done.
  - intros p Hp. destruct (decide (p = v)) as [->|Hne].
    + rewrite Hva. cbn. rewrite lookup_insert_eq. split_and!; [done|done|by apply Htab|]. unfold elt_pte. by rewrite Hva.
    + destruct (Hrest p Hp Hne) as [Hl Hpte], (Hel p Hp) as (? & ? & ? & ?). rewrite Hl, Hpte, Hvo by done.
      split_and!; [done|done|by apply Htab|done].
  - intros p q Hp Hq Hpq. destruct (decide (p = v)) as [->|Hpv], (decide (q = v)) as [->|Hqv]; [done| | |].
    + rewrite Hva, (Hvo q) by done. by apply Hap.
    + rewrite Hva, (Hvo p) by done. by apply not_eq_sym, Hap.
    + rewrite !Hvo by done. by apply Hdist.
Qed.
(** Clearing used bits keeps a page evictable and the faulted page unmapped. *)
Lemma evictable_cleared e x s us v1 v :
  ws_ok e s x → (∀ u, u ∈ us → u ∈ page_WS_list x) → v ∈ page_WS_list x → cleared us s v1 → evictable e s v →
  evictable e (set_vm v1 s) v ∧ PPN (elt_pte (set_vm v1 s) v) = PPN (elt_pte s v).
Proof.
  intros Hok Hus Hv Hc [Hr Hst]. destruct (ws_elem _ _ _ Hok v Hv) as (_ & Hu & Ht & _).
  pose proof (pte_range _ _ _ (ws_vm _ _ _ Hok) Hu Ht) as Hrange.
  assert (HP : PPN (elt_pte (set_vm v1 s) v) = PPN (elt_pte s v)).
  { rewrite (cleared_elt e x s us v1 v) by done. case_decide; [by apply PPN_clear|done]. }
  pose proof Hc as (_ & (_ & Hrefs & Hstor) & _). split; [|done]. split.
  - rewrite HP. cbn. by rewrite Hrefs.
  - intros Hmod. change (va_of (set_vm v1 s) v) with (va_of s v). apply Hstor, Hst.
    rewrite (cleared_elt e x s us v1 v) in Hmod by done.
    case_decide; [|done]. by rewrite land_ldiff_disjoint in Hmod.
Qed.
Lemma unmapped_cleared e x s us v1 fva :
  ws_ok e s x → (∀ u, u ∈ us → u ∈ page_WS_list x) → cleared us s v1 → user fva → maps (pte fva (vm s)) = false →
  pte fva v1 = pte fva (vm s).
Proof.
  intros Hok Hus (_ & _ & _ & _ & Ho) Hfu Hfm. apply Ho; [done|]. intros p Hp. eapply page_apart; [done..|by apply Hus].
Qed.

(** ** LRU with aging *)
Definition stamp_of (s : fstate E) (p : Z) : Z := default 0 (time_stamp <$> elements s !! p).
Lemma wp_min_stamp_ge l v m s (Q : Z → fstate E → Prop) :
  (∀ p, p ∈ l → is_Some (elements s !! p) ∧ m ≤ stamp_of s p) → Q v s → wp (min_stamp l v m) Q s.
Proof.
  intros Hl HQ. induction l as [|p l IH]; [by apply wp_ret|]. cbn [min_stamp].
  destruct (Hl p ltac:(by left)) as [[w Hw] Hge]. unfold stamp_of in Hge. rewrite Hw in Hge. cbn in Hge.
  apply wp_bind. eapply wp_get_wse; [done|]. rewrite decide_False by lia. apply IH. intros q Hq. apply Hl. by right.
Qed.
Lemma wp_min_stamp pre v post u m s (Q : Z → fstate E → Prop) :
  (∀ p, p ∈ pre ++ v :: post → is_Some (elements s !! p)) → stamp_of s v < m →
  (∀ p, p ∈ pre → stamp_of s v < stamp_of s p) → (∀ p, p ∈ post → stamp_of s v ≤ stamp_of s p) →
  Q v s → wp (min_stamp (pre ++ v :: post) u m) Q s.
Proof.
  intros Hel Hm Hpre Hpost HQ. revert u m Hm. induction pre as [|p pre IH]; intros u m Hm; cbn [app min_stamp].
  - destruct (Hel v ltac:(by left)) as [w Hw]. apply wp_bind. eapply wp_get_wse; [done|].
    unfold stamp_of in *. rewrite Hw in *. cbn in *. rewrite decide_True by lia. apply wp_min_stamp_ge; [|done].
    intros p Hp. split; [apply Hel; by right|]. by apply Hpost.
  - destruct (Hel p ltac:(by left)) as [w Hw]. apply wp_bind. eapply wp_get_wse; [done|].
    assert (stamp_of s v < time_stamp w).
    { specialize (Hpre p ltac:(by left)). unfold stamp_of at 2 in Hpre. by rewrite Hw in Hpre. }
    case_decide; (apply IH; [intros q Hq; apply Hel; by right|intros q Hq; apply Hpre; by right|done]).
Qed.
(** Setting the used bit of the page of an element. *)
Lemma wp_mark_used e x s v (Q : unit → fstate E → Prop) :
  ws_ok e s x → v ∈ page_WS_list x →
  (∀ v', ws_ok e (set_vm v' s) x → elt_pte (set_vm v' s) v = Z.lor (elt_pte s v) PERM_USED →
     (∀ va, user va → page va ≠ page (va_of s v) → pte va v' = pte va (vm s)) → Q tt (set_vm v' s)) →
  wp (vmop (pt_set_page_permissions dir (va_of s v) PERM_USED 0)) Q s.
Proof.
  intros Hok Hv HQ. destruct (ws_elem _ _ _ Hok v Hv) as (_ & Hu & Ht & Hm).
  apply wp_vmop. eapply wp_mono; [by apply (set_law ∅ (va_of s v) PERM_USED 0 (vm s) (ws_vm _ _ _ Hok))|].
  intros [] v' (Hvm & Hfr & He & Hother & Htab). rewrite Z.ldiff_0_r in He. apply HQ; [|done|done].
  destruct Hok as [Hen Hd Hn Hnn Hel Hdist _]. split; try done. intros p Hp. destruct (Hel p Hp) as (? & ? & ? & Hmp).
  split_and!; [done|done|by apply Htab|]. destruct (decide (p = v)) as [->|Hne].
  - change (elt_pte (set_vm v' s) v) with (pte (va_of s v) v'). rewrite He. by rewrite maps_set_used.
  - change (elt_pte (set_vm v' s) p) with (pte (va_of s p) v'). rewrite Hother; [done|done|]. by apply Hdist.
Qed.
Lemma ws_ok_reorder e x s l q :
  ws_ok e s x → l ≡ₚ page_WS_list x →
  ws_ok e (set_envs (<[e := set_last q (set_ws l x)]> (envs s)) s) (set_last q (set_ws l x)).
Proof.
  intros [He Hd Hn Hnn Hel Hdist Hvm] Hl. assert (Hin : ∀ p, p ∈ l ↔ p ∈ page_WS_list x) by (intros p; by rewrite Hl).
  split; try done; cbn.
  - by rewrite lookup_insert_eq.
  - by rewrite Hl.
  - by rewrite Hl.
  - intros p Hp. by apply Hel, Hin.
  - intros p p' Hp Hp'. apply Hdist; by apply Hin.
Qed.

(** ** Modified CLOCK *)
Definition low_perms (s : fstate E) (p : Z) : Z := Z.land (elt_pte s p) 4095.
Lemma wp_search_keep e good h rem : ∀ fuel pre s x (Q : option Z → fstate E → Prop),
  ws_ok e s x → rotation (page_WS_list x) (pre ++ rem) → rem ≠ [] → h = first_of (pre ++ rem) → (length rem ≤ fuel)%nat →
  Q (snd <$> list_find (λ p, good (low_perms s p) = true) rem) s →
  wp (search_round fuel good false e h (first_of rem)) Q s.
Proof.
  induction rem as [|p rem IH]; intros fuel pre s x Q Hok Hrot Hne Hh Hfuel HQ; [done|].
  destruct fuel as [|fuel]; [cbn in Hfuel; lia|]. cbn [search_round first_of hdn length list_find] in *.
  assert (Hin : p ∈ page_WS_list x) by (rewrite <- (rotation_elem _ _ _ Hrot), elem_of_app; right; by left).
  destruct (ws_elem _ _ _ Hok p Hin) as ([w Hw] & _).
  apply wp_bind. eapply wp_env_at; [apply Hok|]. apply wp_bind. eapply wp_get_wse; [done|].
  rewrite <- (va_of_lookup s p w Hw). apply wp_bind. eapply wp_elt_perms; [done..|]. fold (low_perms s p).
  destruct (good (low_perms s p)) eqn:Hg.
  { rewrite decide_True in HQ by done. by apply wp_ret. }
  rewrite decide_False in HQ by done. cbn [andb when]. apply wp_bind, wp_ret, wp_bind.
  eapply wp_circular_next; [apply Hok|done|].
  pose proof (rotation_step _ _ _ _ (ws_nodup _ _ _ Hok) (ws_nonnull _ _ _ Hok) Hrot) as Hstep.
  destruct rem as [|q rem].
  - rewrite Hstep, decide_True by done. by apply wp_ret.
  - destruct Hstep as [-> Hne']. rewrite decide_False by (by rewrite Hh).
    eapply (IH fuel (pre ++ [p]) s x); [done|by rewrite <- app_assoc|done|by rewrite <- app_assoc|lia|].
    destruct (list_find _ (q :: rem)) as [[i v]|]; exact HQ.
Qed.
Definition passed_by (f : Z → bool) (r : list Z) : list Z :=
  match list_find (λ p, f p = true) r with Some (i, _) => take i r | None => r end.
Lemma unused_low s p : unused (low_perms s p) = negb (has_bit PERM_USED s p).
Proof.
  unfold unused, has_bit, low_perms. rewrite low_bits by done. by rewrite bool_decide_not, negb_involutive.
Qed.
Lemma wp_search_clear e h rem : ∀ fuel pre s x (Q : option Z → fstate E → Prop),
  ws_ok e s x → rotation (page_WS_list x) (pre ++ rem) → rem ≠ [] → h = first_of (pre ++ rem) → (length rem ≤ fuel)%nat →
  (∀ v', cleared (passed_by (λ p, unused (low_perms s p)) rem) s v' →
     Q (snd <$> list_find (λ p, unused (low_perms s p) = true) rem) (set_vm v' s)) →
  wp (search_round fuel unused true e h (first_of rem)) Q s.
Proof.
  induction rem as [|p rem IH]; intros fuel pre s x Q Hok Hrot Hne Hh Hfuel HQ; [done|].
  destruct fuel as [|fuel]; [cbn in Hfuel; lia|]. unfold passed_by in HQ. cbn [search_round first_of hdn length list_find] in *.
  assert (Hall : ∀ q, q ∈ pre ++ p :: rem → q ∈ page_WS_list x) by (intros q; apply (rotation_elem _ _ _ Hrot)).
  assert (Hin : p ∈ page_WS_list x) by (apply Hall, elem_of_app; right; by left).
  destruct (ws_elem _ _ _ Hok p Hin) as ([w Hw] & _).
  apply wp_bind. eapply wp_env_at; [apply Hok|]. apply wp_bind. eapply wp_get_wse; [done|].
  rewrite <- (va_of_lookup s p w Hw). apply wp_bind. eapply wp_elt_perms; [done..|]. fold (low_perms s p).
  destruct (unused (low_perms s p)) eqn:Hg.
  { rewrite decide_True in HQ by done. apply wp_ret. specialize (HQ (vm s) (cleared_nil s (ws_vm _ _ _ Hok))). by destruct s. }
  rewrite decide_False in HQ by done. apply wp_bind. rewrite bool_decide_true.
  2:{ unfold unused in Hg. by apply bool_decide_eq_false in Hg. }
  cbn [andb when]. eapply wp_clear_used; [done..|]. intros v1 Hc1.
  assert (Hok1 : ws_ok e (set_vm v1 s) x).
  { eapply cleared_ok; [done| |done]. intros q ->%list_elem_of_singleton. done. }
  apply wp_bind. eapply wp_circular_next; [apply Hok1|done|].
  pose proof (rotation_step _ _ _ _ (ws_nodup _ _ _ Hok) (ws_nonnull _ _ _ Hok) Hrot) as Hstep.
  destruct rem as [|q rem].
  { rewrite Hstep, decide_True by done. apply wp_ret. exact (HQ v1 Hc1). }
  destruct Hstep as [-> Hne']. rewrite decide_False by (by rewrite Hh).
  assert (Hnd : NoDup (pre ++ p :: q :: rem)) by (rewrite (rotation_perm _ _ Hrot); apply Hok).
  apply NoDup_app in Hnd as (_ & _ & [Hp Hnd]%NoDup_cons).
  assert (Hsame : ∀ u, u ∈ q :: rem → unused (low_perms (set_vm v1 s) u) = unused (low_perms s u)).
  { intros u Hu. rewrite !unused_low. unfold has_bit. rewrite (cleared_other e x s p v1 u); [done|done|done| |by intros ->|done].
    apply Hall, elem_of_app. right. by right. }
  assert (Hfind : list_find (λ u, unused (low_perms (set_vm v1 s) u) = true) (q :: rem) = list_find (λ u, unused (low_perms s u) = true) (q :: rem)).
  { clear -Hsame. induction (q :: rem) as [|u us IHus]; [done|]. cbn.
    rewrite IHus by (intros; apply Hsame; by right). rewrite Hsame by by left. done. }
  eapply (IH fuel (pre ++ [p]) (set_vm v1 s) x); [done|by rewrite <- app_assoc|done|by rewrite <- app_assoc|lia|].
  unfold passed_by. rewrite Hfind. intros v' Hc2. change (set_vm v' (set_vm v1 s)) with (set_vm v' s).
  assert (Hrot' : rotation (page_WS_list x) (p :: (q :: rem) ++ pre)).
  { apply (rotation_rotate _ pre (p :: q :: rem)) in Hrot; [|apply Hok..]. exact Hrot. }
  destruct (list_find (λ u, unused (low_perms s u) = true) (q :: rem)) as [[i v]|] eqn:Hf; cbn [fmap option_fmap option_map prod_map fst snd] in *.
  - apply (HQ v'). cbn [take]. eapply (cleared_cons e x s p (take i (q :: rem)) v1 v' (drop i (q :: rem) ++ pre)); [done| |done|done].
    by rewrite app_assoc, take_drop.
  - apply (HQ v'). by eapply (cleared_cons e x s p (q :: rem) v1 v' pre).
Qed.

(** The victim of modified CLOCK on the circular list [r] from the hand, with the
    elements whose used bit is cleared on the way: the first element neither used
    nor modified; else the first unused one; else, with all used bits cleared,
    the first unmodified one, or the first one when all are modified. *)
Definition modified_choice (s : fstate E) (r : list Z) : list Z * Z :=
  match list_find (λ p, unused_unmodified (low_perms s p) = true) r with
  | Some (_, v) => ([], v)
  | None =>
      match list_find (λ p, unused (low_perms s p) = true) r with
      | Some (i, v) => (take i r, v)
      | None => (r, match list_find (λ p, has_bit PERM_MODIFIED s p = false) r with Some (_, v) => v | None => first_of r end)
      end
  end.
Lemma list_find_ext_in {A} (f g : A → bool) (l : list A) :
  (∀ p, p ∈ l → f p = g p) → list_find (λ p, f p = true) l = list_find (λ p, g p = true) l.
Proof.
  induction l as [|p l IH]; intros Hfg; [done|]. cbn. rewrite (Hfg p) by by left. by rewrite IH by (intros; apply Hfg; by right).
Qed.
Lemma cleared_unmodified e x s r v' p :
  ws_ok e s x → (∀ u, u ∈ r → u ∈ page_WS_list x) → p ∈ r → cleared r s v' →
  unused_unmodified (low_perms (set_vm v' s) p) = negb (has_bit PERM_MODIFIED s p).
Proof.
  intros Hok Hr Hp Hc. unfold unused_unmodified, has_bit, low_perms.
  rewrite (cleared_elt e x s r v' p), decide_True by (done || by apply Hr). rewrite !low_bits by done.
  rewrite (land_ldiff_disjoint _ _ PERM_MODIFIED) by done. rewrite bool_decide_not, negb_involutive. apply bool_decide_ext.
  rewrite Z.ldiff_land, <- Z.land_assoc. change (Z.land (Z.lnot PERM_USED) PERM_USED) with 0. rewrite Z.land_0_r. tauto.
Qed.
Lemma wp_modified_clock_victim e fuel s x h t (Q : Z → fstate E → Prop) :
  ws_ok e s x → rotation (page_WS_list x) (h :: t) →
  (page_last_WS_element x = h ∨ (page_last_WS_element x = NULL ∧ h = first_of (page_WS_list x))) →
  (length (page_WS_list x) ≤ fuel)%nat →
  (∀ v', cleared (modified_choice s (h :: t)).1 s v' → Q (modified_choice s (h :: t)).2 (set_vm v' s)) →
  wp (modified_clock_victim fuel e) Q s.
Proof.
  intros Hok Hrot Hlast Hfuel HQ.
  assert (Hin : ∀ p, p ∈ h :: t → p ∈ page_WS_list x) by (intros p; apply (rotation_elem _ _ _ Hrot)).
  assert (Hnn : h ≠ NULL) by (intros ->; apply (ws_nonnull _ _ _ Hok), Hin; by left).
  assert (Hlen : (length (h :: t) ≤ fuel)%nat) by (by rewrite (Permutation_length (rotation_perm _ _ Hrot))).
  unfold modified_clock_victim. apply wp_bind. eapply wp_env_at; [apply Hok|].
  assert ((if decide (page_last_WS_element x = NULL) then first_of (page_WS_list x) else page_last_WS_element x) = h) as ->.
  { destruct Hlast as [<-|[-> ->]]; [|by rewrite decide_True]. by rewrite decide_False. }
  cbv zeta. rewrite decide_False by done. unfold modified_choice in HQ.
  apply wp_bind. eapply (wp_search_keep e unused_unmodified h (h :: t) fuel [] s x); [done..|].
  destruct (list_find (λ p, unused_unmodified (low_perms s p) = true) (h :: t)) as [[i v]|]; cbn [fmap option_fmap option_map fst snd] in *.
  { apply wp_ret. specialize (HQ (vm s) (cleared_nil s (ws_vm _ _ _ Hok))). by destruct s. }
  apply wp_bind. eapply (wp_search_clear e h (h :: t) fuel [] s x); [done..|]. unfold passed_by. intros v1 Hc1.
  destruct (list_find (λ p, unused (low_perms s p) = true) (h :: t)) as [[i v]|]; cbn [fmap option_fmap option_map fst snd] in *.
  { apply wp_ret. by apply HQ. }
  pose proof (cleared_ok e x s (h :: t) v1 Hok Hin Hc1) as Hok1.
  apply wp_bind. eapply (wp_search_keep e unused_unmodified h (h :: t) fuel [] _ x); [done..|]. apply wp_ret.
  rewrite (list_find_ext_in _ (λ p, negb (has_bit PERM_MODIFIED s p))) by (intros p Hp; by eapply cleared_unmodified).
  specialize (HQ v1 Hc1).
  assert (Hneg : list_find (λ p, negb (has_bit PERM_MODIFIED s p) = true) (h :: t) = list_find (λ p, has_bit PERM_MODIFIED s p = false) (h :: t)).
  { clear. induction (h :: t) as [|u us IHus]; [done|]. cbn. rewrite IHus. by destruct (has_bit PERM_MODIFIED s u). }
  rewrite Hneg. by destruct (list_find _ (h :: t)) as [[i v]|].
Qed.

(** ** A new element *)

(** What placement needs of the kernel heap: an address that is not an element
    yet, and no change to the pages of the environment. *)
Definition kmalloc_fresh (x : Env) : Prop := ∀ v, vm_ok ∅ v →
  wp (kmalloc WSE_SIZE) (λ p v', p ≠ NULL ∧ p ∉ page_WS_list x ∧ vm_ok ∅ v' ∧
    ∀ va, user va → pte va v' = pte va v ∧ (tabled va v → tabled va v')) v.
Lemma ws_ok_add e x s p l w v' q :
  let s' := FST (PageRepAlgoType s) (<[e := set_last q (set_ws l x)]> (envs s)) (<[p := w]> (elements s)) v' in
  ws_ok e s x → p ≠ NULL → p ∉ page_WS_list x → l ≡ₚ p :: page_WS_list x → vm_ok ∅ v' →
  user (virtual_address w) → tabled (virtual_address w) v' → maps (pte (virtual_address w) v') = true →
  maps (pte (virtual_address w) (vm s)) = false →
  (∀ va, user va → page va ≠ page (virtual_address w) → pte va v' = pte va (vm s)) →
  (∀ va, user va → tabled va (vm s) → tabled va v') →
  ws_ok e s' (set_last q (set_ws l x)) ∧ va_of s' p = virtual_address w ∧
  ∀ r, r ∈ page_WS_list x → va_of s' r = va_of s r ∧ elt_pte s' r = elt_pte s r.
Proof.
  intros s' Hok Hnn Hp Hl Hvm Hu Ht Hm Hm0 Hother Htab.
  assert (Hap : ∀ r, r ∈ page_WS_list x → page (virtual_address w) ≠ page (va_of s r)) by (intros; by eapply page_apart).
  assert (Hva : va_of s' p = virtual_address w) by (unfold va_of, s'; cbn; by rewrite lookup_insert_eq).
  assert (Hel' : ∀ r, r ∈ page_WS_list x → elements s' !! r = elements s !! r).
  { intros r Hr. unfold s'. cbn. apply lookup_insert_ne. by intros ->. }
  assert (Hrest : ∀ r, r ∈ page_WS_list x → va_of s' r = va_of s r ∧ elt_pte s' r = elt_pte s r).
  { intros r Hr. assert (Hvr : va_of s' r = va_of s r) by (unfold va_of; by rewrite Hel'). split; [done|].
    unfold elt_pte. rewrite Hvr. apply Hother; [by apply (ws_elem _ _ _ Hok)|]. by apply not_eq_sym, Hap. }
  assert (Hin : ∀ r, r ∈ l ↔ r = p ∨ r ∈ page_WS_list x) by (intros r; by rewrite Hl, elem_of_cons).
  split_and!; [|done|done]. destruct Hok as [He Hd Hn Hnn' Hel Hdist _]. split; try done; cbn [page_WS_list set_last set_ws].
  - unfold s'. cbn. by rewrite lookup_insert_eq.
  - rewrite Hl. by constructor.
  - rewrite Hin. naive_solver.
  - intros r [->|Hr]%Hin.
    + rewrite Hva. unfold s' at 1. cbn. rewrite lookup_insert_eq. split_and!; [done..|]. unfold elt_pte. by rewrite Hva.
    + destruct (Hrest r Hr) as [-> ->], (Hel r Hr) as (? & ? & ? & ?). rewrite Hel' by done. split_and!; [done|done|by apply Htab|done].
  - intros r r' [->|Hr]%Hin [->|Hr']%Hin Hrr; [done| | |].
    + destruct (Hrest r' Hr') as [-> _]. rewrite Hva. by apply Hap.
    + destruct (Hrest r Hr) as [-> _]. rewrite Hva. by apply not_eq_sym, Hap.
    + destruct (Hrest r Hr) as [-> _], (Hrest r' Hr') as [-> _]. by apply Hdist.
Qed.
Lemma ROUNDDOWN_twice va : user va → ROUNDDOWN (ROUNDDOWN va PAGE_SIZE) PAGE_SIZE = ROUNDDOWN va PAGE_SIZE.
Proof.
  unfold user, USER_TOP, PAGE_SIZE. intros Hva. destruct (ROUNDDOWN_spec va 4096) as ((k & Hk) & Hr & ?); [lia..|].
  rewrite Hk in *. unfold ROUNDDOWN at 1. rewrite w32_small by lia. rewrite Z.mod_mul by lia. lia.
Qed.
Definition placed_list (x : Env) (p : Z) : list Z :=
  if decide (page_last_WS_element x = NULL) then page_WS_list x ++ [p]
  else l_insert_before (page_last_WS_element x) p (page_WS_list x).
Definition placed_last (x : Env) (p : Z) : Z :=
  if decide (Z.of_nat (length (placed_list x p)) = page_WS_max_size x ∧ page_last_WS_element x = NULL)
  then first_of (placed_list x p) else page_last_WS_element x.
Lemma placed_perm x p :
  (page_last_WS_element x = NULL ∨ page_last_WS_element x ∈ page_WS_list x) → NoDup (page_WS_list x) →
  placed_list x p ≡ₚ p :: page_WS_list x.
Proof.
  intros Hlast Hnd. unfold placed_list. case_decide as Hn.
  - apply Permutation_sym, Permutation_cons_append.
  - destruct Hlast as [|Hin]; [done|]. apply list_elem_of_split in Hin as (l1 & l2 & Hl). rewrite Hl in *.
    apply NoDup_app in Hnd as (_ & Hd & _). rewrite l_insert_before_split by (intros H1; apply (Hd _ H1); by left).
    apply Permutation_sym, Permutation_middle.
Qed.
(** Creating the element of a page and linking it into the working set. *)
Definition link_element (e fva : Z) : M (fstate E) unit :=
  w ← env_page_ws_list_create_element e fva;
  x ← get_env e;
  l ← (if decide (page_last_WS_element x = NULL) then lq_insert_tail w (page_WS_list x)
       else lq_insert_before (page_last_WS_element x) w (page_WS_list x));
  upd_env e (set_ws l) ;;
  when (bool_decide (Z.of_nat (length l) = page_WS_max_size x ∧ page_last_WS_element x = NULL))
    (upd_env e (set_last (first_of l))).
Lemma wp_link_element e fault_va s x (Q : unit → fstate E → Prop) :
  let fva := ROUNDDOWN fault_va PAGE_SIZE in
  envs s !! e = Some x → kmalloc_fresh x → vm_ok ∅ (vm s) → user fault_va →
  (page_last_WS_element x = NULL ∨ page_last_WS_element x ∈ page_WS_list x) →
  (∀ p v4, p ≠ NULL → p ∉ page_WS_list x → vm_ok ∅ v4 →
     (∀ va, user va → pte va v4 = pte va (vm s) ∧ (tabled va (vm s) → tabled va v4)) →
     Q tt (FST (PageRepAlgoType s) (<[e := set_last (placed_last x p) (set_ws (placed_list x p) x)]> (envs s))
             (<[p := WSE fva 0 0]> (elements s)) v4)) →
  wp (link_element e fva) Q s.
Proof.
  intros fva Hen Hk Hvm Hu Hlast HQ. destruct (ROUNDDOWN_page fault_va Hu) as [Hu' _]. fold fva in Hu'.
  unfold link_element, env_page_ws_list_create_element.
  rewrite bool_decide_true by (destruct Hu'; unfold USER_TOP in *; rewrite w32_small by lia; lia).
  apply wp_bind, wp_bind, wp_assert; [done|]. apply wp_bind, wp_vmop. eapply wp_mono; [exact (Hk _ Hvm)|].
  intros p v4 (Hpn & Hpf & Hvm4 & Hsame4). rewrite decide_False by done. apply wp_bind, wp_modify, wp_ret.
  pose proof (ROUNDDOWN_twice fault_va Hu) as Htw. fold fva in Htw. rewrite Htw.
  set (s4 := set_elements _ _). assert (Hen4 : envs s4 !! e = Some x) by exact Hen.
  apply wp_bind. eapply wp_env_at; [exact Hen4|]. apply wp_bind.
  assert (Hins : wp (if decide (page_last_WS_element x = NULL) then lq_insert_tail p (page_WS_list x)
      else lq_insert_before (page_last_WS_element x) p (page_WS_list x)) (λ l s', l = placed_list x p ∧ s' = s4) s4).
  { unfold placed_list. case_decide.
    - unfold wp. rewrite lq_insert_tail_run by done. done.
    - unfold lq_insert_before. rewrite decide_True; [by apply wp_ret|]. split; [|done]. by destruct Hlast. }
  eapply wp_mono; [exact Hins|]. intros l s' [-> ->]. apply wp_bind. eapply wp_env_upd; [exact Hen4|].
  specialize (HQ p v4 Hpn Hpf Hvm4 Hsame4). unfold placed_last in HQ.
  apply wp_when; intros Hfull.
  - apply bool_decide_eq_true in Hfull. eapply wp_env_upd; [cbn; by rewrite lookup_insert_eq|].
    rewrite decide_True in HQ by done. unfold set_envs. cbn. by rewrite insert_insert_eq.
  - apply bool_decide_eq_false in Hfull. rewrite decide_False in HQ by done. by destruct x.
Qed.
End spec.
