(* ===== verification/FaultOps.v ===== *)
(** * The replacement algorithms and placement

    Each branch of [page_fault_handler] against the laws of virtual memory: what
    it returns, the working set it leaves and the pages it changes. *)

From S2P Require Import Prelude Queue Paging PagingSpec WorkingSet Fault VMSpec FaultSpec.

Section thm.
Context {E : Type} `{VM E} {dir : Z} `{!VMView E dir} `{!VMLaws E dir}.
Implicit Types s : fstate E.

(** The preconditions of a replacement: the working set is well formed and the
    fault is on a page of the environment that has a table and no frame. *)
Record fault_ok (e fault_va : Z) (s : fstate E) (x : Env) : Prop := {
  fo_ws : ws_ok e s x;
  fo_user : user fault_va;
  fo_tabled : tabled (ROUNDDOWN fault_va PAGE_SIZE) (vm s);
  fo_unmapped : maps (pte (ROUNDDOWN fault_va PAGE_SIZE) (vm s)) = false
}.
(** What every replacement does: element [v] now stands for the faulted page,
    which is mapped on the frame of the page it stood for, and that page is
    unmapped; every other element keeps its page, with the entry that [bits] says. *)
Definition page_replaced (e v fva : Z) (bits : Z → Z) (s : fstate E) (x' : Env) (s' : fstate E) : Prop :=
  ws_ok e s' x' ∧ va_of s' v = fva ∧ PPN (elt_pte s' v) = PPN (elt_pte s v) ∧
  maps (pte (va_of s v) (vm s')) = false ∧
  ∀ p, p ∈ page_WS_list x' → p ≠ v → va_of s' p = va_of s p ∧ elt_pte s' p = bits p.
(** The environment was ended: the page is not in the page file and in neither
    the heap nor the stack. *)
Definition ended (fva : Z) (s' : fstate E) : Prop := in_heap_or_stack fva = false ∧ exited (vm s').

Lemma choice_in s x h t :
  rotation (page_WS_list x) (h :: t) →
  (∀ u, u ∈ (clock_choice s (h :: t)).1 → u ∈ page_WS_list x) ∧ (clock_choice s (h :: t)).2 ∈ page_WS_list x.
Proof.
  intros Hrot. unfold clock_choice. destruct (list_find _ _) as [[i v]|] eqn:Hf; cbn [fst snd].
  - apply list_find_Some in Hf as (Hi & _). split.
    + intros u Hu. apply (rotation_elem _ _ _ Hrot). rewrite <- (take_drop_middle _ _ _ Hi). apply elem_of_app. by left.
    + apply (rotation_elem _ _ _ Hrot). by eapply list_elem_of_lookup_2.
  - split; [intros u; by apply (rotation_elem _ _ _ Hrot)|apply (rotation_elem _ _ _ Hrot); by left].
Qed.
Lemma env_upd_ws e x s q :
  ws_ok e s x → ws_ok e (set_envs (<[e := set_last q x]> (envs s)) s) (set_last q x) ∧
  ∀ p, va_of (set_envs (<[e := set_last q x]> (envs s)) s) p = va_of s p ∧
       elt_pte (set_envs (<[e := set_last q x]> (envs s)) s) p = elt_pte s p.
Proof. intros Hok. split; [by apply ws_ok_last|done]. Qed.

Lemma replace_CLOCK_spec fuel e fault_va s x h t :
  let fva := ROUNDDOWN fault_va PAGE_SIZE in
  let '(passed, v) := clock_choice s (h :: t) in
  fault_ok e fault_va s x → rotation (page_WS_list x) (h :: t) → page_last_WS_element x = h →
  (length (page_WS_list x) < fuel)%nat → evictable e s v →
  wp (replace_CLOCK fuel e fault_va) (λ _ s', ended fva s' ∨
    page_replaced e v fva (λ p, if decide (p ∈ passed) then Z.ldiff (elt_pte s p) PERM_USED else elt_pte s p)
      s (set_last (cnext v (page_WS_list x)) x) s') s.
Proof.
  intros fva. destruct (clock_choice s (h :: t)) as [passed v] eqn:Hch. intros [Hok Hfu Hft Hfm] Hrot Hlast Hfuel Hev.
  destruct (choice_in s x h t Hrot) as [Hpin Hvin]. rewrite Hch in Hpin, Hvin. cbn [fst snd] in *. fold fva in Hft, Hfm.
  destruct (ROUNDDOWN_page fault_va Hfu) as [Hfu' _]. fold fva in Hfu'.
  unfold replace_CLOCK. apply wp_bind. eapply wp_clock_loop; [done..|]. rewrite Hch. cbn [fst snd]. intros v1 Hc1.
  pose proof (cleared_ok e x s passed v1 Hok Hpin Hc1) as Hok1.
  destruct (evictable_cleared e x s passed v1 v Hok Hpin Hvin Hc1 Hev) as [Hev1 HP1].
  pose proof (unmapped_cleared e x s passed v1 fva Hok Hpin Hc1 Hfu' Hfm) as Hf1.
  destruct (env_upd_ws e x _ v Hok1) as [Hok2 Hsame2].
  set (s2 := set_envs (<[e := set_last v x]> (envs (set_vm v1 s))) (set_vm v1 s)) in *.
  change (set_vm v1 (set_envs (<[e := set_last v x]> (envs s)) s)) with s2. set (x2 := set_last v x) in *.
  assert (Hft2 : tabled fva (vm s2)) by (by apply Hc1).
  assert (Hfm2 : maps (pte fva (vm s2)) = false) by (change (vm s2) with v1; by rewrite Hf1).
  apply wp_bind. eapply (wp_replace_page false e x2 s2 v fault_va); [done..| |].
  { intros Hno v' Hex. apply wp_ret. by left. }
  intros v' Hrep. cbn [when]. apply wp_bind.
  destruct (ws_elem _ _ _ Hok2 v Hvin) as ([w Hw] & _).
  eapply wp_get_wse; [exact Hw|]. apply wp_bind. eapply wp_put_wse; [exact Hw|].
  destruct (ws_ok_replaced e x2 s2 v fva v' (set_va fva w) Hok2 Hvin Hfu' Hft2 Hfm2 Hrep eq_refl) as (Hok3 & Hva3 & Hrest3).
  fold fva. set (s3 := set_elements _ _) in *. apply wp_bind. eapply wp_circular_next; [apply Hok3|exact Hvin|].
  eapply wp_env_upd; [apply Hok3|]. right. split_and!.
  - exact (ws_ok_last e x2 s3 _ Hok3).
  - exact Hva3.
  - destruct Hrep as (_ & _ & _ & _ & _ & HP & _). change (PPN (pte (va_of s3 v) v') = PPN (elt_pte s v)). rewrite Hva3. unfold fva. rewrite HP. exact HP1.
  - destruct Hrep as (_ & _ & _ & Hm & _). exact Hm.
  - intros p Hp Hne. destruct (Hrest3 p Hp Hne) as [Hl Hpte]. split.
    + change (va_of s3 p = va_of s p). unfold va_of. by rewrite Hl.
    + change (elt_pte s3 p = if decide (p ∈ passed) then Z.ldiff (elt_pte s p) PERM_USED else elt_pte s p).
      rewrite Hpte. change (elt_pte s2 p) with (elt_pte (set_vm v1 s) p). by eapply cleared_elt.
Qed.

Lemma replace_LRU_spec e fault_va s x pre v post :
  let fva := ROUNDDOWN fault_va PAGE_SIZE in let l := pre ++ post ++ [v] in
  fault_ok e fault_va s x → page_WS_list x = pre ++ v :: post → Z.of_nat (length (page_WS_list x)) = page_WS_max_size x →
  stamp_of s v < 4294967295 → (∀ p, p ∈ pre → stamp_of s v < stamp_of s p) →
  (∀ p, p ∈ post → stamp_of s v ≤ stamp_of s p) → evictable e s v →
  wp (replace_LRU e fault_va) (λ _ s', ended fva s' ∨
    page_replaced e v fva (elt_pte s) s (set_last (first_of l) (set_ws l x)) s' ∧
    stamp_of s' v = 2147483648 ∧ has_bit PERM_USED s' v = true ∧
    ∀ p, p ∈ pre ++ post → stamp_of s' p = stamp_of s p) s.
Proof.
  intros fva l [Hok Hfu Hft Hfm] Hl Hmax Hv Hpre Hpost Hev. fold fva in Hft, Hfm.
  destruct (ROUNDDOWN_page fault_va Hfu) as [Hfu' _]. fold fva in Hfu'.
  assert (Hvin : v ∈ page_WS_list x) by (rewrite Hl; apply elem_of_app; right; by left).
  assert (Hnn : v ≠ NULL) by (intros ->; by apply (ws_nonnull _ _ _ Hok)).
  unfold replace_LRU. apply wp_bind. eapply wp_env_at; [apply Hok|]. rewrite Hl. apply wp_bind.
  apply wp_min_stamp; [intros p Hp; apply (ws_elem _ _ _ Hok); by rewrite Hl|done..|].
  rewrite decide_False by done. apply wp_bind. eapply (wp_replace_page true e x s v fault_va); [done..| |].
  { intros Hno v' Hex. apply wp_ret. by left. }
  intros v' Hrep. cbn [when]. fold fva. destruct (ws_elem _ _ _ Hok v Hvin) as ([w Hw] & _).
  apply wp_bind. eapply wp_get_wse; [exact Hw|]. apply wp_bind. eapply wp_put_wse; [exact Hw|].
  set (w' := set_stamp 2147483648 (set_va fva w)).
  destruct (ws_ok_replaced e x s v fva v' w' Hok Hvin Hfu' Hft Hfm Hrep eq_refl) as (Hok3 & Hva3 & Hrest3).
  set (s3 := set_elements (<[v := w']> (elements s)) (set_vm v' s)) in *. change (set_elements _ (set_vm v' s)) with s3.
  apply wp_bind. eapply wp_env_at; [apply Hok3|]. rewrite Hl.
  pose proof (ws_nodup _ _ _ Hok) as Hnd. rewrite Hl in Hnd. apply NoDup_app in Hnd as (Hn1 & Hd & [Hv2 Hn2]%NoDup_cons).
  assert (Hv1 : v ∉ pre) by (intros Hin; apply (Hd v Hin); by left).
  apply wp_bind. unfold wp at 1. rewrite lq_remove_run by (rewrite <- Hl; done). rewrite l_remove_split by done.
  apply wp_bind. unfold wp at 1. rewrite lq_insert_tail_run by (rewrite elem_of_app; tauto). rewrite <- app_assoc. fold l.
  assert (Hperm : l ≡ₚ page_WS_list x) by (unfold l; rewrite Hl; apply Permutation_app_head; apply Permutation_sym, Permutation_cons_append).
  apply wp_bind. eapply wp_env_upd; [apply Hok3|]. apply wp_bind. eapply wp_env_upd; [cbn; by rewrite lookup_insert_eq|].
  rewrite (Permutation_length Hperm), decide_True by done.
  pose proof (ws_ok_reorder e x s3 l (first_of l) Hok3 Hperm) as Hok4.
  set (x4 := set_last (first_of l) (set_ws l x)) in *. set (s4 := set_envs (<[e := x4]> (envs s3)) s3) in *.
  match goal with |- wp _ _ ?st => assert (st = s4) as -> end.
  { unfold s4, set_envs. cbn. by rewrite insert_insert_eq. }
  assert (Hva4 : va_of s4 v = fva) by exact Hva3.
  assert (Hv4 : v ∈ page_WS_list x4) by (cbn; unfold l; rewrite !elem_of_app; right; right; by left).
  pose proof (λ Q, wp_mark_used e x4 s4 v Q Hok4 Hv4) as Hmark. rewrite Hva4 in Hmark.
  rewrite (ws_dir _ _ _ Hok). apply Hmark. intros v5 Hok5 Hv5 Hother5. right.
  destruct Hrep as (_ & _ & _ & Hm3 & _ & HP3 & _ & _).
  assert (Hrange : 0 ≤ elt_pte s4 v < 4294967296) by (apply (pte_range ∅); [apply Hok4|by rewrite Hva4|by apply (ws_elem _ _ _ Hok4)]).
  unfold page_replaced. split_and!.
  - exact Hok5.
  - exact Hva4.
  - rewrite Hv5, PPN_set by done. unfold elt_pte. rewrite Hva4. exact HP3.
  - change (maps (pte (va_of s v) v5) = false). rewrite Hother5; [exact Hm3|by apply (ws_elem _ _ _ Hok)|].
    apply not_eq_sym. by eapply page_apart.
  - intros p Hp Hne. cbn in Hp. rewrite Hperm in Hp. destruct (Hrest3 p Hp Hne) as [Hlk Hpte].
    assert (Hvp : va_of s3 p = va_of s p) by (unfold va_of; by rewrite Hlk). split; [exact Hvp|].
    rewrite <- Hpte. apply (Hother5 (va_of s3 p)); [rewrite Hvp; by apply (ws_elem _ _ _ Hok)|].
    rewrite <- Hva4. apply (ws_distinct _ _ _ Hok3 p v); done.
  - unfold stamp_of. cbn. by rewrite lookup_insert_eq.
  - unfold has_bit. rewrite Hv5. apply bool_decide_eq_true. rewrite Z.land_lor_distr_l.
    change (Z.land PERM_USED PERM_USED) with PERM_USED. intros H0. by apply Z.lor_eq_0_iff in H0 as [_ H0].
  - intros p Hp. assert (p ≠ v) by (intros ->; rewrite elem_of_app in Hp; tauto).
    unfold stamp_of. cbn. by rewrite lookup_insert_ne.
Qed.

Lemma modified_choice_in s x h t :
  rotation (page_WS_list x) (h :: t) →
  (∀ u, u ∈ (modified_choice s (h :: t)).1 → u ∈ page_WS_list x) ∧ (modified_choice s (h :: t)).2 ∈ page_WS_list x.
Proof.
  intros Hrot. pose proof (λ p, proj1 (rotation_elem _ _ p Hrot)) as Hin.
  assert (Hfind : ∀ (P : Z → Prop) `{!∀ p, Decision (P p)} i v, list_find P (h :: t) = Some (i, v) →
    v ∈ page_WS_list x ∧ ∀ u, u ∈ take i (h :: t) → u ∈ page_WS_list x).
  { intros P ? i v Hf. apply list_find_Some in Hf as (Hi & _). split; [apply Hin; by eapply list_elem_of_lookup_2|].
    intros u Hu. apply Hin. rewrite <- (take_drop_middle _ _ _ Hi). apply elem_of_app. by left. }
  unfold modified_choice. destruct (list_find _ _) as [[i v]|] eqn:H1; cbn [fst snd].
  { split; [intros u Hu; by apply not_elem_of_nil in Hu|]. destruct (Hfind _ _ _ _ H1) as [Hvv _]; exact Hvv. }
  destruct (list_find (λ p, unused _ = true) _) as [[i v]|] eqn:H2; cbn [fst snd]; [by destruct (Hfind _ _ _ _ H2)|].
  split; [done|]. destruct (list_find (λ p, has_bit _ _ p = false) _) as [[i v]|] eqn:H3; [destruct (Hfind _ _ _ _ H3) as [Hvv _]; exact Hvv|]. apply Hin. by left.
Qed.
Lemma replace_ModifiedCLOCK_spec fuel e fault_va s x h t :
  let fva := ROUNDDOWN fault_va PAGE_SIZE in
  let '(passed, v) := modified_choice s (h :: t) in
  fault_ok e fault_va s x → rotation (page_WS_list x) (h :: t) →
  (page_last_WS_element x = h ∨ (page_last_WS_element x = NULL ∧ h = first_of (page_WS_list x))) →
  (length (page_WS_list x) ≤ fuel)%nat → evictable e s v →
  wp (replace_ModifiedCLOCK fuel e fault_va) (λ _ s', ended fva s' ∨
    page_replaced e v fva (λ p, if decide (p ∈ passed) then Z.ldiff (elt_pte s p) PERM_USED else elt_pte s p)
      s (set_last (cnext v (page_WS_list x)) x) s' ∧ has_bit PERM_USED s' v = true) s.
Proof.
  intros fva. destruct (modified_choice s (h :: t)) as [passed v] eqn:Hch. intros [Hok Hfu Hft Hfm] Hrot Hlast Hfuel Hev.
  destruct (modified_choice_in s x h t Hrot) as [Hpin Hvin]. rewrite Hch in Hpin, Hvin. cbn [fst snd] in *. fold fva in Hft, Hfm.
  destruct (ROUNDDOWN_page fault_va Hfu) as [Hfu' _]. fold fva in Hfu'.
  unfold replace_ModifiedCLOCK. apply wp_bind. eapply wp_modified_clock_victim; [done..|]. rewrite Hch. cbn [fst snd]. intros v1 Hc1.
  pose proof (cleared_ok e x s passed v1 Hok Hpin Hc1) as Hok1.
  destruct (evictable_cleared e x s passed v1 v Hok Hpin Hvin Hc1 Hev) as [Hev1 HP1].
  pose proof (unmapped_cleared e x s passed v1 fva Hok Hpin Hc1 Hfu' Hfm) as Hf1. set (s1 := set_vm v1 s) in *.
  assert (Hft1 : tabled fva (vm s1)) by (by apply Hc1).
  assert (Hfm1 : maps (pte fva (vm s1)) = false) by (change (vm s1) with v1; by rewrite Hf1).
  apply wp_bind. eapply (wp_replace_page true e x s1 v fault_va); [done..| |].
  { intros Hno v' Hex. apply wp_ret. by left. }
  intros v' Hrep. cbn [when]. fold fva. destruct (ws_elem _ _ _ Hok1 v Hvin) as ([w Hw] & _).
  apply wp_bind. eapply wp_get_wse; [exact Hw|]. apply wp_bind. eapply wp_put_wse; [exact Hw|].
  destruct (ws_ok_replaced e x s1 v fva v' (set_va fva w) Hok1 Hvin Hfu' Hft1 Hfm1 Hrep eq_refl) as (Hok3 & Hva3 & Hrest3).
  set (s3 := set_elements _ _) in *. apply wp_bind. eapply wp_circular_next; [apply Hok3|exact Hvin|].
  apply wp_bind. eapply wp_env_upd; [apply Hok3|]. set (n := cnext v (page_WS_list x)).
  pose proof (ws_ok_last e x s3 n Hok3) as Hok4. set (s4 := set_envs (<[e := set_last n x]> (envs s3)) s3) in *.
  apply wp_bind. eapply wp_env_at; [apply Hok4|].
  pose proof (λ Q, wp_mark_used e (set_last n x) s4 v Q Hok4 Hvin) as Hmark.
  assert (Hva4 : va_of s4 v = fva) by exact Hva3. rewrite Hva4 in Hmark.
  rewrite (ws_dir _ _ _ Hok4). apply Hmark. intros v5 Hok5 Hv5 Hother5. right.
  destruct Hrep as (_ & _ & _ & Hm3 & _ & HP3 & _ & _).
  assert (Hrange : 0 ≤ elt_pte s4 v < 4294967296) by (apply (pte_range ∅); [apply Hok4|by rewrite Hva4|by apply (ws_elem _ _ _ Hok4)]).
  unfold page_replaced. split_and!.
  - exact Hok5.
  - exact Hva4.
  - rewrite Hv5, PPN_set by done. unfold elt_pte at 1. rewrite Hva4. rewrite <- HP1. exact HP3.
  - change (maps (pte (va_of s v) v5) = false). rewrite Hother5; [exact Hm3|by apply (ws_elem _ _ _ Hok)|].
    apply not_eq_sym. by eapply page_apart.
  - intros p Hp Hne. destruct (Hrest3 p Hp Hne) as [Hlk Hpte].
    assert (Hvp : va_of s3 p = va_of s p) by (unfold va_of; by rewrite Hlk). split; [exact Hvp|].
    transitivity (elt_pte s3 p).
    + apply (Hother5 (va_of s3 p)); [rewrite Hvp; by apply (ws_elem _ _ _ Hok)|].
      rewrite <- Hva3. apply (ws_distinct _ _ _ Hok3 p v); done.
    + rewrite Hpte. by eapply cleared_elt.
  - unfold has_bit. rewrite Hv5. apply bool_decide_eq_true. rewrite Z.land_lor_distr_l.
    change (Z.land PERM_USED PERM_USED) with PERM_USED. intros H0. by apply Z.lor_eq_0_iff in H0 as [_ H0].
Qed.

(** ** Placement *)
Lemma placement_spec e fault_va s x fi rest :
  let fva := ROUNDDOWN fault_va PAGE_SIZE in
  fault_ok e fault_va s x → kmalloc_fresh x → vm_free (vm s) = fi :: rest →
  (page_last_WS_element x = NULL ∨ page_last_WS_element x ∈ page_WS_list x) →
  wp (placement e fault_va) (λ _ s', ended fva s' ∨ ∃ p, p ∉ page_WS_list x ∧
    ws_ok e s' (set_last (placed_last x p) (set_ws (placed_list x p) x)) ∧
    va_of s' p = fva ∧ PPN (elt_pte s' p) = fi ∧ stamp_of s' p = 0 ∧
    ∀ r, r ∈ page_WS_list x → va_of s' r = va_of s r ∧ elt_pte s' r = elt_pte s r) s.
Proof.
  intros fva [Hok Hfu Hft Hfm] Hk Hfree Hlast. fold fva in Hft, Hfm.
  destruct (ROUNDDOWN_page fault_va Hfu) as [Hfu' _]. fold fva in Hfu'.
  destruct (alloc_law ∅ fi rest (vm s) (ws_vm _ _ _ Hok) Hfree) as [_ Halloc].
  unfold placement. apply wp_bind. eapply wp_env_at; [apply Hok|]. cbv zeta. fold fva. rewrite (ws_dir _ _ _ Hok).
  apply wp_bind, wp_vmop. eapply wp_mono; [exact Halloc|]. intros r v1 (-> & Hvm1 & _ & Ho1 & Ht1). cbn [snd].
  apply wp_assoc, wp_bind. eapply (wp_map_load e fva fi); [exact Hvm1|done|by apply Ht1|cbn; by rewrite Ho1| |].
  { intros Hno v' Hex. apply wp_ret. by left. }
  intros v3 (Hvm3 & Ht3 & Hm3 & HP3 & _ & Ho3). cbn in Ht3, Ho3. cbn [when].
  eapply (wp_link_element e fault_va _ x); [apply Hok|done|exact Hvm3|done|done|].
  intros p v4 Hpn Hpf Hvm4 Hsame4. right. exists p. cbn [vm set_vm PageRepAlgoType envs elements] in *.
  destruct (Hsame4 fva Hfu') as [Hp4 _].
  destruct (ws_ok_add e x s p (placed_list x p) (WSE fva 0 0) v4 (placed_last x p)) as (Hok5 & Hva5 & Hrest5); try done.
  - by apply placed_perm, Hok.
  - apply (Hsame4 fva Hfu'), Ht3, Ht1; done.
  - cbn. by rewrite Hp4.
  - intros va Hva Hne. destruct (Hsame4 va Hva) as [-> _]. by rewrite Ho3, Ho1.
  - intros va Hva Htv. apply (Hsame4 va Hva), Ht3, Ht1; done.
  - split_and!; [done|exact Hok5|exact Hva5| | |exact Hrest5].
    + transitivity (PPN (pte fva v4)); [|by rewrite Hp4]. f_equal. unfold elt_pte. f_equal. exact Hva5.
    + unfold stamp_of. cbn. by rewrite lookup_insert_eq.
Qed.

End thm.
