(* ===== verification/VMPaging.v ===== *)
(** * The page tables implement the virtual memory of demand paging

    The operations of Paging.v as an instance of the class [VM], and the laws of
    VMSpec.v proved for them: what placement and replacement rely on holds of the
    page tables, reference counts and free list of the kernel. *)

From S2P Require Import Prelude Queue Paging PagingSpec PagingThm WorkingSet VMSpec FaultSpec.

(** The page file (kern/disk/pagefile_manager.c) and the end of the running
    environment, as demand paging calls them. *)
Class Disk (E : Type) := {
  disk_read : Z → Z → M (mm * E) Z;
  disk_update : Z → Z → option Z → M (mm * E) Z;
  disk_remove : Z → Z → M (mm * E) unit;
  disk_exit : M (mm * E) unit;
  disk_storable : Z → Z → mm * E → Prop;
  disk_exited : mm * E → Prop
}.
#[export] Instance paging_vm (E : Type) `{PageEnv E} `{Disk E} : VM (mm * E) := {|
  WorkingSet.kmalloc := Paging.kmalloc;
  WorkingSet.kfree := Paging.kfree;
  WorkingSet.entry := Paging.entry;
  WorkingSet.set_entry := Paging.set_entry;
  WorkingSet.get_page_table := Paging.get_page_table;
  WorkingSet.create_page_table := Paging.create_page_table;
  WorkingSet.get_frame_info := Paging.get_frame_info;
  WorkingSet.allocate_frame := Paging.allocate_frame;
  WorkingSet.map_frame := Paging.map_frame;
  WorkingSet.unmap_frame := Paging.unmap_frame;
  WorkingSet.pt_set_page_permissions := Paging.pt_set_page_permissions;
  WorkingSet.pt_get_page_permissions := Paging.pt_get_page_permissions;
  WorkingSet.pf_read_env_page := disk_read;
  WorkingSet.pf_update_env_page := disk_update;
  WorkingSet.pf_remove_env_page := disk_remove;
  WorkingSet.env_exit := disk_exit
|}.

Section space.
Context {E : Type} {PE : PageEnv E} {PO : PageEnvOk E} {DK : Disk E}.
Context (TS : gset Z) (pins : Z → nat) (dir : Z).
Implicit Types s : mm * E.

(** The directory entry of a page, and the address of its table. *)
Definition pde_of (va : Z) (m : mm) : Z := table_at (arrays m) dir !!! Z.to_nat (PDX va).
Definition has_table (va : Z) (s : mm * E) : Prop :=
  Z.land (pde_of va s.1) PERM_PRESENT = PERM_PRESENT.
#[export] Instance has_table_dec va s : Decision (has_table va s).
Proof. unfold has_table. apply _. Defined.
Definition ptab (va : Z) (s : mm * E) : Z := kheap_virtual_address (EXTRACT_ADDRESS (pde_of va s.1)) s.
(** The address space of the environment: every table that its directory names
    is a table in use, on a frame that no page is mapped on, and belongs to one
    directory entry. *)
Record space_ok (s : mm * E) : Prop := {
  so_dir : dir ∉ TS ∧ ∃ D, arrays s.1 !! dir = Some D ∧ length D = 1024%nat;
  so_table va : user va → has_table va s → ptab va s ∈ TS ∧ ptab va s ≠ NULL ∧
    (0 < pins (table_frame dir va s.1))%nat ∧ count_refs (arrays s.1) TS (table_frame dir va s.1) = 0%nat;
  so_inj va va' : user va → user va' → has_table va s → has_table va' s → ptab va s = ptab va' s → PDX va = PDX va'
}.
Lemma user_check va : user va → CHECK_IF_KERNEL_ADDRESS va = false.
Proof.
  unfold user, CHECK_IF_KERNEL_ADDRESS. intros [? Hlt]. apply bool_decide_eq_false. unfold USER_TOP in *.
  rewrite w32_small by lia. lia.
Qed.
Lemma space_resolves va s : space_ok s → user va → has_table va s → resolves dir va (ptab va s) s.
Proof.
  intros Hs Hu Ht. destruct (so_dir _ Hs) as [_ (D & HD & Hlen)], (so_table _ Hs va Hu Ht) as (_ & Hnn & _).
  split; [done|]. exists D, (pde_of va s.1).
  assert (Hpdx : (Z.to_nat (PDX va) < length D)%nat).
  { rewrite Hlen. unfold PDX. change 1023 with (Z.ones 10). rewrite Z.land_ones by lia.
    pose proof (Z.mod_pos_bound (Z.shiftr (w32 va) 22) (2 ^ 10) ltac:(lia)). change (2 ^ 10) with 1024 in *. lia. }
  split_and!; [done| |done|].
  - unfold pde_of, table_at. rewrite HD. by apply list_lookup_lookup_total_lt.
  - by rewrite user_check.
Qed.
Lemma page_indices va va' : user va → user va' → page va = page va' → PDX va = PDX va' ∧ PTX va = PTX va'.
Proof.
  unfold user, page, USER_TOP, PAGE_SIZE, PDX, PTX. intros Hv Hv' Hp. rewrite !w32_small by lia.
  rewrite !Z.shiftr_div_pow2 by lia. change (2 ^ 22) with (4096 * 1024). change (2 ^ 12) with 4096.
  rewrite <- !Z.div_div by lia. by rewrite Hp.
Qed.
Lemma page_of_indices va va' : user va → user va' → PDX va = PDX va' → PTX va = PTX va' → page va = page va'.
Proof.
  unfold user, page, USER_TOP, PAGE_SIZE, PDX, PTX. intros Hv Hv'. rewrite !w32_small by lia.
  change 1023 with (Z.ones 10). rewrite !Z.land_ones, !Z.shiftr_div_pow2 by lia.
  change (2 ^ 22) with (4096 * 1024). change (2 ^ 12) with 4096. change (2 ^ 10) with 1024.
  rewrite <- !Z.div_div by lia. intros H1 H2.
  pose proof (Z.div_mod (va `div` 4096) 1024 ltac:(lia)). pose proof (Z.div_mod (va' `div` 4096) 1024 ltac:(lia)).
  assert (0 ≤ va `div` 4096 `div` 1024 < 1024) by (split; [apply Z.div_pos; [apply Z.div_pos; lia|lia]|apply Z.div_lt_upper_bound; [lia|apply Z.div_lt_upper_bound; lia]]).
  assert (0 ≤ va' `div` 4096 `div` 1024 < 1024) by (split; [apply Z.div_pos; [apply Z.div_pos; lia|lia]|apply Z.div_lt_upper_bound; [lia|apply Z.div_lt_upper_bound; lia]]).
  rewrite (Z.mod_small (va `div` 4096 `div` 1024)), (Z.mod_small (va' `div` 4096 `div` 1024)) in H1 by lia. lia.
Qed.

(** What keeps the address space: the directory and the frames of the tables stay. *)
Lemma space_step s s' :
  space_ok s → arrays s'.1 !! dir = arrays s.1 !! dir → s'.2 = s.2 →
  (∀ i, 0 ≤ i → (0 < pins i)%nat → count_refs (arrays s.1) TS i = 0%nat →
     frames_info s'.1 !! Z.to_nat i = frames_info s.1 !! Z.to_nat i ∧ count_refs (arrays s'.1) TS i = 0%nat) →
  space_ok s' ∧ (∀ va, has_table va s' ↔ has_table va s) ∧ (∀ va, user va → has_table va s → ptab va s' = ptab va s).
Proof.
  intros Hs Hdir HE Hfr.
  assert (Hpde : ∀ va, pde_of va s'.1 = pde_of va s.1) by (intros; unfold pde_of, table_at; by rewrite Hdir).
  assert (Htf : ∀ va, table_frame dir va s'.1 = table_frame dir va s.1) by (intros; unfold table_frame, table_at; by rewrite Hdir).
  assert (Hht : ∀ va, has_table va s' ↔ has_table va s) by (intros; unfold has_table; by rewrite Hpde).
  assert (Htab : ∀ va, user va → has_table va s → ptab va s' = ptab va s).
  { intros va Hu Ht. destruct (so_table _ Hs va Hu Ht) as (_ & _ & Hp & Hc). destruct (Hfr _ (PPN_nonneg _) Hp Hc) as [Hf _].
    unfold ptab. rewrite Hpde. destruct s as [m e], s' as [m' e']. cbn in *. subst e'. by apply kva_frame. }
  split_and!; [|done|done]. split.
  - by rewrite Hdir; apply Hs.
  - intros va Hu Ht%Hht. destruct (so_table _ Hs va Hu Ht) as (? & ? & Hp & Hc). rewrite Htab, Htf by done.
    split_and!; [done..|]. by apply (Hfr _ (PPN_nonneg _)).
  - intros va va' Hu Hu' Ht%Hht Ht'%Hht. rewrite !Htab by done. by apply Hs.
Qed.

(** ** The abstract view *)
#[local] Instance paging_view : VMView (mm * E) dir := {|
  vm_ok A s := mm_inv TS pins A s.1 ∧ space_ok s;
  tabled va s := has_table va s;
  pte va s := if decide (has_table va s) then pte_of (ptab va s) va s.1 else 0;
  vm_free s := free_frame_list s.1;
  frame_refs i s := match frames_info s.1 !! Z.to_nat i with Some x => references x | None => 0 end;
  storable := disk_storable;
  exited := disk_exited
|}.
(** What the page file promises. *)
Class DiskOk : Prop := {
  storable_keep e va s s' : s'.2 = s.2 → disk_storable e va s → disk_storable e va s';
  disk_update_law A e va fi s : vm_ok A s → user va → has_table va s → maps (pte va s) = true → disk_storable e va s →
    wp (disk_update e va fi) (λ _ s', vm_ok A s' ∧ pte_upd va (Z.ldiff (pte va s) PERM_MODIFIED) s s' ∧
      frame_refs (PPN (pte va s)) s' = frame_refs (PPN (pte va s)) s) s;
  disk_read_law A e va s : vm_ok A s → user va → has_table va s → maps (pte va s) = true →
    wp (disk_read e va) (λ _ s', vm_ok A s' ∧ ∃ e', pte_upd va e' s s' ∧
      maps e' = true ∧ PPN e' = PPN (pte va s) ∧ frame_refs (PPN (pte va s)) s' = frame_refs (PPN (pte va s)) s) s;
  disk_exit_law s : wp disk_exit (λ _ s', disk_exited s') s
}.

Lemma wp_det {A} (c : M (mm * E) A) a s s' : wp c (λ r s1, r = a ∧ s1 = s') s → c s = Ok a s'.
Proof. intros (? & ? & -> & -> & ->)%wp_Ok. done. Qed.
Lemma pte_tabled va s : has_table va s → pte va s = pte_of (ptab va s) va s.1.
Proof. intros. cbn. by rewrite decide_True. Qed.
Lemma tab_in A va s : vm_ok A s → user va → has_table va s → ptab va s ∈ TS ∧ ptab va s ≠ dir.
Proof.
  intros [_ Hs] Hu Ht. destruct (so_table _ Hs va Hu Ht) as (Hin & _). split; [done|]. intros Heq.
  apply (so_dir _ Hs). by rewrite <- Heq.
Qed.
(** Changing one entry of a table in use, and frames that no table is on. *)
Lemma view_step va e' s s' fr fl :
  space_ok s → user va → has_table va s →
  s' = (set_free_list fl (set_frames fr (set_pte (ptab va s) va e' s.1)), s.2) →
  (∃ A, mm_inv TS pins A s.1) →
  (∀ i, 0 ≤ i → (0 < pins i)%nat → count_refs (arrays s.1) TS i = 0%nat → fr !! Z.to_nat i = frames_info s.1 !! Z.to_nat i) →
  (∀ i, 0 ≤ i → (0 < pins i)%nat → count_refs (arrays s.1) TS i = 0%nat → maps_frame i e' = false) →
  space_ok s' ∧ pte_upd va e' s s'.
Proof.
  intros Hs Hu Ht -> [A HI] Hfr He'. destruct (so_table _ Hs va Hu Ht) as (Hin & Hnn & _).
  assert (Hdir : ptab va s ≠ dir) by (intros Heq; apply (so_dir _ Hs); by rewrite <- Heq).
  destruct (rel_pte _ _ _ _ (ptab va s) va HI Hin) as (T & HT & He & _).
  set (s' := (set_free_list fl (set_frames fr (set_pte (ptab va s) va e' s.1)), s.2)).
  destruct (space_step s s' Hs) as (Hs' & Hht & Htab).
  - cbn. by rewrite lookup_insert_ne.
  - done.
  - intros i Hi Hp Hc. split; [by apply Hfr|]. cbn. unfold table_at. rewrite HT. cbn [default].
    pose proof (count_refs_insert (arrays s.1) TS i (ptab va s) T _ _ e' Hin HT He) as Hcnt.
    rewrite (He' i Hi Hp Hc) in Hcnt. unfold id. lia.
  - split; [done|]. split_and!.
    + rewrite pte_tabled by (by apply Hht). rewrite Htab by done. exact (pte_set_pte _ _ _ _ _ _ e' HI Hin).
    + intros va' Hu' Hne. destruct (decide (has_table va' s)) as [Ht'|Ht'].
      * rewrite !pte_tabled by (done || by apply Hht). rewrite Htab by done.
        apply (pte_set_other (ptab va s) va e' (ptab va' s) va' s.1).
        destruct (decide (ptab va' s = ptab va s)) as [Heq|]; [|by left]. right. intros HP. apply Hne.
        apply page_of_indices; [done|done| |done]. by apply (so_inj _ Hs).
      * cbn. rewrite !decide_False; [done|done|by rewrite Hht].
    + intros va' _ Ht'. by apply Hht.
Qed.

(** ** The laws *)
Lemma perm_entry n e set clear :
  entry_ok n e → 0 ≤ set < 4096 → 0 ≤ clear < 4096 →
  Z.land set (Z.lor PERM_PRESENT PERM_BUFFERED) = 0 → Z.land clear PERM_PRESENT = 0 →
  let e' := Z.ldiff (Z.lor e set) clear in entry_ok n e' ∧ maps e' = maps e ∧ PPN e' = PPN e.
Proof.
  intros (Hr & Hb & Hm) Hs Hc Hsb Hcb e'.
  pose proof (lor_small_bits e set 32 ltac:(lia) Hr ltac:(lia)) as Hlor.
  assert (He' : 0 ≤ e' < 4294967296) by (apply (ldiff_small_bits _ clear 32); [lia|exact Hlor]).
  change (2 ^ 32) with 4294967296 in Hlor.
  assert (Hbits : ∀ a m k, Z.land a m = 0 → Z.testbit a k && Z.testbit m k = false).
  { intros a m k Ha. rewrite <- Z.land_spec, Ha. apply Z.bits_0. }
  assert (Hhigh : Z.land e' (Z.lnot 4095) = Z.land e (Z.lnot 4095)).
  { apply Z.bits_inj'. intros k Hk. unfold e'. rewrite !Z.land_spec, Z.ldiff_spec, Z.lor_spec.
    destruct (decide (k < 12)) as [Hlt|Hge].
    - assert (Z.testbit (Z.lnot 4095) k = false) as ->; [|by rewrite !andb_false_r].
      rewrite Z.lnot_spec by done. change 4095 with (Z.ones 12). by rewrite Z.ones_spec_low by lia.
    - pose proof (Z.pow_le_mono_r 2 12 k ltac:(lia) ltac:(lia)). change (2 ^ 12) with 4096 in *.
      rewrite (testbit_small set k), (testbit_small clear k) by lia. by rewrite orb_false_r, andb_true_r. }
  assert (Hlow : ∀ m, (∀ k, Z.testbit m k = true → Z.testbit PERM_PRESENT k || Z.testbit PERM_BUFFERED k = true) → Z.land e' m = Z.land e m).
  { intros m Hmk. apply Z.bits_inj'. intros k Hk. unfold e'. rewrite !Z.land_spec, Z.ldiff_spec, Z.lor_spec.
    specialize (Hmk k). pose proof (Hbits _ _ k Hsb) as H1. pose proof (Hbits _ _ k Hcb) as H2. pose proof (Hbits _ _ k Hb) as H3.
    rewrite Z.lor_spec in H1.
    destruct (Z.testbit e k), (Z.testbit set k), (Z.testbit clear k), (Z.testbit m k), (Z.testbit PERM_PRESENT k), (Z.testbit PERM_BUFFERED k);
      cbn in *; try done; by specialize (Hmk eq_refl). }
  assert (Hmaps : maps e' = maps e).
  { unfold maps. rewrite Hhigh, (Hlow (Z.lor PERM_PRESENT PERM_BUFFERED)); [done|]. intros k Hk. by rewrite Z.lor_spec in Hk. }
  assert (HP : PPN e' = PPN e) by (unfold e'; rewrite PPN_clear, PPN_set by lia; done).
  split_and!; [|done|done]. split_and!; [lia|lia| |].
  - rewrite (Hlow PERM_BUFFERED); [done|]. intros k ->. apply orb_true_r.
  - rewrite Hmaps, HP. intros Ht. destruct (Hm Ht) as [Hp ?]. split; [|done]. rewrite (Hlow PERM_PRESENT); [done|]. by intros k ->.
Qed.
Lemma maps_frame_refs A i s t va :
  mm_inv TS pins A s.1 → t ∈ TS → maps (pte_of t va s.1) = true → count_refs (arrays s.1) TS i = 0%nat → PPN (pte_of t va s.1) ≠ i.
Proof.
  intros HI Ht Hm Hc Hi. destruct (rel_pte _ _ _ _ t va HI Ht) as (T & HT & He & _).
  pose proof (count_refs_pos _ _ _ _ _ _ i Ht HT He) as Hpos. unfold maps_frame in Hpos.
  rewrite Hm, bool_decide_true in Hpos by done. specialize (Hpos eq_refl). lia.
Qed.
Lemma pinned_not_free A i (m : mm) : mm_inv TS pins A m → (0 < pins i)%nat → i ∉ free_frame_list m ∧ i ∉ A.
Proof.
  intros HI Hp. split.
  - intros (_ & Hi & x & Hx & H0)%(inv_free _ _ _ _ HI). destruct (inv_refs _ _ _ _ HI i x Hi Hx) as [Hr _]. lia.
  - intros (Hi & x & Hx & H0)%(inv_alloc _ _ _ _ HI). destruct (inv_refs _ _ _ _ HI i x Hi Hx) as [Hr _]. lia.
Qed.

Lemma paging_set_law A va set clear s : vm_ok A s → user va → has_table va s → 0 ≤ set < 4096 → 0 ≤ clear < 4096 →
  Z.land set (Z.lor PERM_PRESENT PERM_BUFFERED) = 0 → Z.land clear PERM_PRESENT = 0 →
  (∀ e1 va1 s', s'.2 = s.2 → disk_storable e1 va1 s → disk_storable e1 va1 s') →
  wp (Paging.pt_set_page_permissions dir va set clear) (λ _ s', vm_ok A s' ∧ same_frames s s' ∧
    pte_upd va (Z.ldiff (Z.lor (pte va s) set) clear) s s') s.
Proof.
  intros [HI Hs] Hu Ht Hset Hclear Hsb Hcb Hstor. destruct (tab_in A va s (conj HI Hs) Hu Ht) as [Hin Hd].
  eapply (wp_set_page_permissions TS pins A); [exact HI|exact Hin|by apply space_resolves|lia|lia|].
  rewrite pte_tabled by done. set (t := ptab va s) in *. set (e := pte_of t va s.1). set (e' := Z.ldiff (Z.lor e set) clear).
  destruct (rel_pte _ _ _ _ t va HI Hin) as (T & HT & He & Hok).
  destruct (perm_entry _ e set clear Hok Hset Hclear Hsb Hcb) as (Hok' & Hm' & HP'). fold e' in Hok', Hm', HP'.
  assert (Hmf : ∀ i, maps_frame i e' = maps_frame i e) by (intros; unfold maps_frame; by rewrite Hm', HP').
  assert (HI' : mm_inv TS pins A (set_pte t va e' s.1)).
  { unfold set_pte, table_at. rewrite HT. eapply rel_entry; [exact HI|done|done|done|done|]. intros i. cbn beta. fold e. by rewrite Hmf. }
  destruct (view_step va e' s (set_pte t va e' s.1, s.2) (frames_info s.1) (free_frame_list s.1) Hs Hu Ht) as [Hs' Hupd].
  - destruct s as [m e0]. by destruct m.
  - by exists A.
  - done.
  - intros i Hi Hp Hc. rewrite Hmf. unfold maps_frame. destruct (maps e) eqn:Hme; [|done]. apply bool_decide_eq_false.
    by eapply maps_frame_refs.
  - split; [by split|]. split; [|exact Hupd]. split_and!; [done|done|]. intros e1 va1. by apply Hstor.
Qed.
Lemma paging_unmap_law A va s : vm_ok A s → user va → has_table va s → maps (pte va s) = true →
  wp (Paging.unmap_frame dir va) (λ _ s', vm_ok A s' ∧ pte_upd va (Z.land (pte va s) PERM_AVAILABLE) s s' ∧
    maps (Z.land (pte va s) PERM_AVAILABLE) = false ∧
    vm_free s' = (if decide (frame_refs (PPN (pte va s)) s = 1) then PPN (pte va s) :: vm_free s else vm_free s)) s.
Proof.
  intros [HI Hs] Hu Ht Hm. destruct (tab_in A va s (conj HI Hs) Hu Ht) as [Hin Hd]. rewrite pte_tabled in * by done.
  set (t := ptab va s) in *. set (e := pte_of t va s.1) in *.
  destruct (rel_pte _ _ _ _ t va HI Hin) as (T & HT & He & Hok). destruct (entry_ok_unmapped _ _ Hok) as (_ & Hm' & Hw).
  rewrite Hw in Hm'. fold e in Hm'.
  eapply wp_unmap_frame; [exact HI|apply pins_nonneg|exact Hin|by apply space_resolves| |].
  { fold e. congruence. }
  intros m _ HI' (x & y & Hx & Hy & Hva & Hmeq). fold e in Hx, Hmeq.
  destruct (view_step va (Z.land e PERM_AVAILABLE) s (m, s.2) (frames_info m) (free_frame_list m) Hs Hu Ht) as [Hs' Hupd].
  - rewrite Hmeq. destruct s as [m0 e0]. by destruct m0.
  - by exists A.
  - intros i Hi Hp Hc. rewrite Hmeq. cbn. apply list_lookup_insert_ne. intros Heq.
    apply Z2Nat.inj in Heq; [|apply PPN_nonneg|done]. by eapply maps_frame_refs.
  - intros i Hi Hp Hc. unfold maps_frame. by rewrite Hm'.
  - split; [by split|]. split; [exact Hupd|]. split; [done|]. cbn. rewrite Hmeq, Hx. done.
Qed.
Lemma paging_alloc_law A fi rest s : vm_ok A s → vm_free s = fi :: rest →
  fi ∉ A ∧ wp Paging.allocate_frame (λ r s', r = (0, fi) ∧ vm_ok ({[fi]} ∪ A) s' ∧ vm_free s' = rest ∧
    (∀ va, user va → pte va s' = pte va s) ∧ (∀ va, user va → tabled va s → tabled va s')) s.
Proof.
  intros [HI Hs] Hfree. cbn in Hfree. destruct (rel_pop _ _ _ _ _ _ HI Hfree) as (HI' & Hni & Hfi & x & Hx & Hx0).
  assert (HA : fi ∉ A) by (apply (inv_free _ _ _ _ HI); rewrite Hfree; by left). split; [done|].
  eapply wp_allocate_frame; [apply HI|exact Hfree|exact Hni|exact Hx|]. set (m' := set_free_list _ _) in *.
  destruct (space_step s (m', s.2) Hs) as (Hs' & Hht & Htab); [done|done| |].
  { intros i Hi Hp Hc. split; [|done]. cbn. apply list_lookup_insert_ne. intros Heq. apply Z2Nat.inj in Heq; [|done..].
    destruct (pinned_not_free A i s.1 HI Hp) as [Hn _]. apply Hn. rewrite Hfree, <- Heq. by left. }
  split_and!; [done|by split|done| |].
  - intros va Hu. destruct (decide (has_table va s)) as [Ht|Ht].
    + rewrite !pte_tabled by (done || by apply Hht). by rewrite Htab.
    + cbn. rewrite !decide_False; [done|done|by rewrite Hht].
  - intros va _ Ht. by apply Hht.
Qed.
Lemma paging_map_law A fi va perm s : vm_ok A s → fi ∈ A → user va → has_table va s → maps (pte va s) = false →
  0 ≤ perm < 4096 → Z.land perm PERM_BUFFERED = 0 →
  wp (Paging.map_frame dir fi va perm) (λ r s', r = 0 ∧ vm_ok (A ∖ {[fi]}) s' ∧ ∃ e', pte_upd va e' s s' ∧
    maps e' = true ∧ PPN e' = fi ∧ Z.land e' 4095 = mapped_bits (pte va s) perm ∧
    vm_free s' = vm_free s ∧ frame_refs fi s' = 1) s.
Proof.
  intros [HI Hs] HfA Hu Ht Hm Hp Hpb. destruct (tab_in A va s (conj HI Hs) Hu Ht) as [Hin Hd]. rewrite pte_tabled in * by done.
  set (t := ptab va s) in *. set (e := pte_of t va s.1) in *.
  destruct (rel_pte _ _ _ _ t va HI Hin) as (T & HT & He & Hok). destruct (inv_alloc _ _ _ _ HI fi HfA) as (Hfi & x & Hx & Hx0).
  pose proof (lookup_lt_Some _ _ _ Hx) as Hlt.
  assert (Hmf : maps_frame fi e = false) by (unfold maps_frame; by rewrite Hm).
  eapply (wp_map_frame TS (λ i, Z.of_nat (pins i)) A dir fi va perm t x);
    [exact HI|apply pins_nonneg|exact Hin|by apply space_resolves|done|exact Hx|lia|done|done|done| |].
  { fold e. congruence. }
  intros m m' _ Hmm (z & Hz & Hm'eq) HI'. fold e in Hmm. rewrite Hm in Hmm. subst m. rewrite Hx in Hz. injection Hz as <-.
  fold e in Hm'eq. set (e' := CONSTRUCT_ENTRY (to_physical_address fi) (mapped_bits e perm)) in *.
  destruct (entry_ok_mapped (number_of_frames s.1) e fi perm) as (Hok' & Hm' & HP & Hw & _ & HL);
    [apply HI|apply Hok|apply Hok|unfold number_of_frames; lia|done|done|]. fold e' in Hok', Hm', HP, Hw, HL.
  destruct (view_step va e' s (m', s.2) (frames_info m') (free_frame_list m') Hs Hu Ht) as [Hs' Hupd].
  - rewrite Hm'eq. destruct s as [m0 e0]. by destruct m0.
  - by exists A.
  - intros i Hi Hpi Hc. rewrite Hm'eq. cbn. apply list_lookup_insert_ne. intros Heq. apply Z2Nat.inj in Heq; [|done..].
    destruct (pinned_not_free A i s.1 HI Hpi) as [_ Hn]. by rewrite <- Heq in Hn.
  - intros i Hi Hpi Hc. unfold maps_frame. rewrite Hm', HP. apply bool_decide_eq_false. intros ->.
    by destruct (pinned_not_free A i s.1 HI Hpi) as [_ Hn].
  - split; [done|]. split; [by split|]. exists e'. split_and!; [apply Hupd..|done|done|done| |].
    + cbn. by rewrite Hm'eq.
    + cbn. rewrite Hm'eq. cbn. rewrite list_lookup_insert_eq by done. cbn. lia.
Qed.

(** The page tables, the frame table and a page file that keeps its promises
    implement the virtual memory of demand paging. *)
Lemma paging_laws : DiskOk → VMLaws (mm * E) dir.
Proof.
  intros DO. split.
  - intros va va' s Hu Hu' Hp. destruct (page_indices va va' Hu Hu' Hp) as [HD HT].
    assert (Hpde : pde_of va s.1 = pde_of va' s.1) by (unfold pde_of; by rewrite HD).
    assert (Hht : has_table va s ↔ has_table va' s) by (unfold has_table; by rewrite Hpde).
    assert (Htab : ptab va s = ptab va' s) by (unfold ptab; by rewrite Hpde). destruct (decide (has_table va s)) as [Ht|Ht].
    + rewrite !pte_tabled by (done || by apply Hht). unfold pte_of. by rewrite Htab, HT.
    + cbn. rewrite !decide_False; [done|by rewrite <- Hht|done].
  - intros va va' s Hu Hu' Hp. destruct (page_indices va va' Hu Hu' Hp) as [HD HT]. cbn. unfold has_table, pde_of. by rewrite HD.
  - intros A va s Hok Hu Ht. rewrite pte_tabled by done. destruct (tab_in A va s Hok Hu Ht) as [Hin _].
    destruct (rel_pte _ _ _ _ (ptab va s) va (proj1 Hok) Hin) as (T & _ & _ & Hr & _). exact Hr.
  - intros A va s Hok Hu Ht. rewrite pte_tabled by done. destruct (tab_in A va s Hok Hu Ht) as [Hin _].
    destruct (rel_pte _ _ _ _ (ptab va s) va (proj1 Hok) Hin) as (T & HT & He & _). apply wp_det.
    unfold WorkingSet.pt_get_page_permissions. cbn [paging_vm]. unfold Paging.pt_get_page_permissions.
    pose proof (space_resolves va s (proj2 Hok) Hu Ht) as Hres.
    apply wp_bind. eapply wp_get_page_table; [exact Hres|]. cbn [snd]. rewrite decide_False by apply Hres.
    apply wp_bind. eapply wp_entry; [exact HT|exact He|]. by apply wp_ret.
  - intros. apply paging_set_law; try done. intros e1 va1 s' Hs'. by apply storable_keep.
  - intros A va s Hok Hu Ht. rewrite pte_tabled by done. destruct (tab_in A va s Hok Hu Ht) as [Hin _].
    exists (ptab va s). apply wp_det. eapply wp_get_frame_info; [apply Hok|exact Hin|by apply space_resolves; [apply Hok|..]|done].
  - intros. by apply paging_unmap_law.
  - intros. by apply paging_alloc_law.
  - intros A s [HI _] Hf. apply allocate_frame_empty; [apply HI|exact Hf].
  - intros. by apply paging_map_law.
  - intros. by apply disk_update_law.
  - intros. by apply disk_read_law.
  - intros. apply disk_exit_law.
Qed.
End space.
