(* ===== verification/Belady.v ===== *)
(** * The optimal replacement strategy

    Demand paging as a relation, the exchange argument that evicting the page
    whose next use is furthest away never costs more than evicting another one,
    and from it: [get_optimal_num_faults] (kern/trap/fault_handler.c) returns the
    smallest number of faults that any strategy can have. *)

From S2P Require Import Prelude Queue Paging WorkingSet Fault.

(** ** Demand paging

    [paging k W refs n]: with [k] page frames and the pages [W] in memory, the
    references [refs] can be served with [n] faults. A fault brings the page in
    and evicts at most one page, which can be any. *)
Inductive paging (k : nat) : gset Z → list Z → nat → Prop :=
| paging_done W : paging k W [] 0
| paging_hit W r refs n : r ∈ W → paging k W refs n → paging k W (r :: refs) n
| paging_place W r refs n : r ∉ W → (size W < k)%nat → paging k ({[r]} ∪ W) refs n → paging k W (r :: refs) (S n)
| paging_replace W r v refs n :
    r ∉ W → v ∈ W → paging k ({[r]} ∪ W ∖ {[v]}) refs n → paging k W (r :: refs) (S n).

(** [y] is referenced before [x], or [x] is never referenced. *)
Fixpoint sooner (refs : list Z) (y x : Z) : Prop :=
  match refs with [] => True | r :: refs => r = y ∨ (r ≠ x ∧ sooner refs y x) end.

(** ** Sets of pages *)
Section sets.
Implicit Types W : gset Z.

Lemma size_add W r : r ∉ W → size ({[r]} ∪ W) = S (size W).
Proof. intros. rewrite size_union by set_solver. by rewrite size_singleton. Qed.
Lemma size_remove W x : x ∈ W → size W = S (size (W ∖ {[x]})).
Proof.
  intros. rewrite <- (size_add (W ∖ {[x]}) x) by set_solver. f_equal. by apply union_difference_singleton_L.
Qed.
Lemma size_swap W x y : x ∈ W → y ∉ W → size ({[y]} ∪ W ∖ {[x]}) = size W.
Proof. intros Hx Hy. rewrite size_add by set_solver. by rewrite <- size_remove. Qed.
Lemma extra_element W T : W ⊆ T → (size W < size T)%nat → ∃ w, w ∈ T ∧ w ∉ W.
Proof.
  intros Hsub Hlt. destruct (set_choose_or_empty (T ∖ W)) as [[w Hw]|He].
  - exists w. set_solver.
  - assert (T ⊆ W). { intros z Hz. destruct (decide (z ∈ W)); [done|]. set_solver. }
    pose proof (subseteq_size T W ltac:(done)). lia.
Qed.
End sets.

(** Equality of sets of pages, by cases on whether the elements named are equal. *)
Ltac page_sets :=
  apply set_eq; let q := fresh "q" in intros q;
  rewrite ?elem_of_union, ?elem_of_difference, ?elem_of_union, ?elem_of_difference, ?elem_of_singleton,
    ?elem_of_union, ?elem_of_difference, ?elem_of_singleton;
  repeat match goal with
  | H : ?a ∈ _ |- context [q = ?a] => lazymatch goal with _ : q ≠ a |- _ => fail | _ => destruct (decide (q = a)); [subst|] end
  | H : ?a ∉ _ |- context [q = ?a] => lazymatch goal with _ : q ≠ a |- _ => fail | _ => destruct (decide (q = a)); [subst|] end
  end; tauto || naive_solver.

Section exchange.
Context (k : nat).
Implicit Types W T : gset Z.

(** More pages in memory never cost a fault. *)
Lemma paging_more W refs n :
  paging k W refs n → ∀ T, W ⊆ T → (size T ≤ k)%nat → ∃ m, (m ≤ n)%nat ∧ paging k T refs m.
Proof.
  induction 1 as [W|W r refs n Hr Hp IH|W r refs n Hr Hk Hp IH|W r v refs n Hr Hv Hp IH]; intros T Hsub HT.
  - exists 0%nat. split; [lia|constructor].
  - destruct (IH T Hsub HT) as (m & ? & ?). exists m. split; [done|]. apply paging_hit; [set_solver|done].
  - destruct (decide (r ∈ T)) as [HrT|HrT].
    { destruct (IH T ltac:(set_solver) HT) as (m & ? & ?). exists m. split; [lia|by apply paging_hit]. }
    destruct (decide (size T < k)%nat) as [Hlt|Hge].
    + destruct (IH ({[r]} ∪ T) ltac:(set_solver) ltac:(rewrite size_add by done; lia)) as (m & ? & ?).
      exists (S m). split; [lia|by apply paging_place].
    + destruct (extra_element W T Hsub ltac:(lia)) as (w & HwT & HwW).
      destruct (IH ({[r]} ∪ T ∖ {[w]})) as (m & ? & ?); [set_solver|rewrite size_swap by done; lia|].
      exists (S m). split; [lia|]. by apply (paging_replace k T r w).
  - destruct (decide (r ∈ T)) as [HrT|HrT].
    { destruct (IH T ltac:(set_solver) HT) as (m & ? & ?). exists m. split; [lia|by apply paging_hit]. }
    destruct (IH ({[r]} ∪ T ∖ {[v]})) as (m & ? & ?); [set_solver|rewrite size_swap by set_solver; lia|].
    exists (S m). split; [lia|]. apply (paging_replace k T r v); [done|set_solver|done].
Qed.
(** One page less in memory costs at most one fault. *)
Lemma paging_less W refs n :
  paging k W refs n → (size W ≤ k)%nat → ∀ x, x ∈ W → ∃ m, (m ≤ S n)%nat ∧ paging k (W ∖ {[x]}) refs m.
Proof.
  induction 1 as [W|W r refs n Hr Hp IH|W r refs n Hr Hk Hp IH|W r v refs n Hr Hv Hp IH]; intros Hsz x Hx.
  - exists 0%nat. split; [lia|constructor].
  - destruct (decide (r = x)) as [->|Hne].
    + exists (S n). split; [lia|]. apply paging_place; [set_solver|pose proof (size_remove W x Hx); lia|].
      by rewrite <- union_difference_singleton_L.
    + destruct (IH Hsz x Hx) as (m & ? & ?). exists m. split; [done|]. apply paging_hit; [set_solver|done].
  - destruct (IH ltac:(rewrite size_add by done; lia) x ltac:(set_solver)) as (m & ? & Hm).
    exists (S m). split; [lia|]. apply paging_place; [set_solver|pose proof (size_remove W x Hx); lia|].
    assert (({[r]} ∪ W) ∖ {[x]} = {[r]} ∪ W ∖ {[x]}) as <- by page_sets. done.
  - assert (r ≠ x) by set_solver. destruct (decide (v = x)) as [->|Hne].
    + exists (S n). split; [lia|]. apply paging_place; [set_solver|pose proof (size_remove W x Hx); lia|done].
    + destruct (IH ltac:(rewrite size_swap by done; lia) x ltac:(set_solver)) as (m & ? & Hm).
      exists (S m). split; [lia|]. apply (paging_replace k _ r v); [set_solver|set_solver|].
      assert (({[r]} ∪ W ∖ {[v]}) ∖ {[x]} = {[r]} ∪ (W ∖ {[x]}) ∖ {[v]}) as <- by page_sets. done.
Qed.

Definition swap (W : gset Z) (x y : Z) : gset Z := {[y]} ∪ W ∖ {[x]}.
Lemma elem_of_swap W x y q : q ∈ swap W x y ↔ q = y ∨ (q ∈ W ∧ q ≠ x).
Proof. unfold swap. set_solver. Qed.
(** How a swap commutes with the two kinds of fault. *)
Lemma swap_place W x y r : r ≠ x → {[r]} ∪ swap W x y = swap ({[r]} ∪ W) x y.
Proof. intros. apply set_eq. intros q. rewrite elem_of_union, !elem_of_swap. destruct (decide (q = r)); set_solver. Qed.
Lemma swap_replace W x y r v :
  r ≠ x → v ≠ y → {[r]} ∪ swap W x y ∖ {[v]} = swap ({[r]} ∪ W ∖ {[v]}) x y.
Proof.
  intros. apply set_eq. intros q. rewrite elem_of_swap, !elem_of_union, !elem_of_difference, elem_of_swap.
  rewrite !elem_of_singleton. destruct (decide (q = r)), (decide (q = y)); naive_solver.
Qed.
Lemma swap_evict_new W x y r : y ∉ W → {[r]} ∪ swap W x y ∖ {[y]} = {[r]} ∪ W ∖ {[x]}.
Proof.
  intros. apply set_eq. intros q. rewrite !elem_of_union, !elem_of_difference, elem_of_swap.
  rewrite !elem_of_singleton. destruct (decide (q = y)); naive_solver.
Qed.
Lemma swap_victims W x y v : x ∈ W → y ∉ W → v ∈ W → v ≠ x → v ≠ y → swap ({[y]} ∪ W ∖ {[v]}) x v = {[y]} ∪ W ∖ {[x]}.
Proof.
  intros Hx Hy ???. assert (x ≠ y) by (by intros ->). apply set_eq. intros q. rewrite elem_of_swap, !elem_of_union, !elem_of_difference.
  rewrite !elem_of_singleton. destruct (decide (q = v)), (decide (q = y)), (decide (q = x)); naive_solver.
Qed.
Lemma swap_less W x y : y ∉ W → x ∈ W → ({[y]} ∪ W) ∖ {[x]} = swap W x y.
Proof.
  intros. apply set_eq. intros q. rewrite elem_of_swap, elem_of_difference, elem_of_union, !elem_of_singleton.
  destruct (decide (q = y)); naive_solver.
Qed.

(** Another page in place of [x] costs at most one fault. *)
Lemma paging_swap W refs n :
  paging k W refs n → (size W ≤ k)%nat → ∀ x y, x ∈ W → y ∉ W →
  ∃ m, (m ≤ S n)%nat ∧ paging k (swap W x y) refs m.
Proof.
  induction 1 as [W|W r refs n Hr Hp IH|W r refs n Hr Hk Hp IH|W r v refs n Hr Hv Hp IH]; intros Hsz x y Hx Hy.
  - exists 0%nat. split; [lia|constructor].
  - destruct (decide (r = x)) as [->|Hne].
    + exists (S n). split; [lia|]. apply (paging_replace k _ x y); [rewrite elem_of_swap; set_solver|rewrite elem_of_swap; by left|].
      rewrite swap_evict_new by done. by rewrite <- union_difference_singleton_L.
    + destruct (IH Hsz x y Hx Hy) as (m & ? & ?). exists m. split; [done|].
      apply paging_hit; [rewrite elem_of_swap; by right|done].
  - assert (r ≠ x) by set_solver. destruct (decide (r = y)) as [->|Hne].
    + destruct (paging_less _ _ _ Hp ltac:(rewrite size_add by done; lia) x ltac:(set_solver)) as (m & ? & Hm).
      rewrite swap_less in Hm by done. exists m. split; [lia|].
      apply paging_hit; [rewrite elem_of_swap; by left|done].
    + destruct (IH ltac:(rewrite size_add by done; lia) x y ltac:(set_solver) ltac:(set_solver)) as (m & ? & Hm).
      exists (S m). split; [lia|]. apply paging_place; [rewrite elem_of_swap; naive_solver| |by rewrite swap_place].
      unfold swap. rewrite size_swap by done. done.
  - assert (r ≠ x) by set_solver. assert (v ≠ y) by set_solver. assert (size ({[r]} ∪ W ∖ {[v]}) ≤ k)%nat by (by rewrite size_swap).
    destruct (decide (r = y)) as [->|Hne].
    + destruct (decide (v = x)) as [->|Hvx].
      { exists n. split; [lia|]. apply paging_hit; [rewrite elem_of_swap; by left|done]. }
      destruct (IH ltac:(done) x v ltac:(set_solver) ltac:(set_solver)) as (m & ? & Hm).
      rewrite swap_victims in Hm by done. exists m. split; [lia|].
      apply paging_hit; [rewrite elem_of_swap; by left|done].
    + destruct (decide (v = x)) as [->|Hvx].
      { exists (S n). split; [lia|]. apply (paging_replace k _ r y); [rewrite elem_of_swap; naive_solver|rewrite elem_of_swap; by left|].
        by rewrite swap_evict_new. }
      destruct (IH ltac:(done) x y ltac:(set_solver) ltac:(set_solver)) as (m & ? & Hm).
      exists (S m). split; [lia|]. apply (paging_replace k _ r v); [rewrite elem_of_swap; naive_solver|rewrite elem_of_swap; naive_solver|].
      by rewrite swap_replace.
Qed.
(** A page that is referenced sooner in place of [x] costs nothing. *)
Lemma paging_exchange W refs n :
  paging k W refs n → (size W ≤ k)%nat → ∀ x y, x ∈ W → y ∉ W → sooner refs y x →
  ∃ m, (m ≤ n)%nat ∧ paging k (swap W x y) refs m.
Proof.
  induction 1 as [W|W r refs n Hr Hp IH|W r refs n Hr Hk Hp IH|W r v refs n Hr Hv Hp IH]; intros Hsz x y Hx Hy Hs.
  - exists 0%nat. split; [lia|constructor].
  - destruct Hs as [->|[Hne Hs]]; [done|]. destruct (IH Hsz x y Hx Hy Hs) as (m & ? & ?). exists m. split; [done|].
    apply paging_hit; [rewrite elem_of_swap; by right|done].
  - assert (r ≠ x) by set_solver. destruct (decide (r = y)) as [->|Hne].
    + destruct (paging_less _ _ _ Hp ltac:(rewrite size_add by done; lia) x ltac:(set_solver)) as (m & ? & Hm).
      rewrite swap_less in Hm by done. exists m. split; [lia|].
      apply paging_hit; [rewrite elem_of_swap; by left|done].
    + destruct Hs as [?|[_ Hs]]; [done|].
      destruct (IH ltac:(rewrite size_add by done; lia) x y ltac:(set_solver) ltac:(set_solver) Hs) as (m & ? & Hm).
      exists (S m). split; [lia|]. apply paging_place; [rewrite elem_of_swap; naive_solver| |by rewrite swap_place].
      unfold swap. rewrite size_swap by done. done.
  - assert (r ≠ x) by set_solver. assert (v ≠ y) by set_solver. assert (size ({[r]} ∪ W ∖ {[v]}) ≤ k)%nat by (by rewrite size_swap).
    destruct (decide (r = y)) as [->|Hne].
    + destruct (decide (v = x)) as [->|Hvx].
      { exists n. split; [lia|]. apply paging_hit; [rewrite elem_of_swap; by left|done]. }
      destruct (paging_swap _ _ _ Hp ltac:(done) x v ltac:(set_solver) ltac:(set_solver)) as (m & ? & Hm).
      rewrite swap_victims in Hm by done. exists m. split; [lia|].
      apply paging_hit; [rewrite elem_of_swap; by left|done].
    + destruct Hs as [?|[_ Hs]]; [done|]. destruct (decide (v = x)) as [->|Hvx].
      { exists (S n). split; [lia|]. apply (paging_replace k _ r y); [rewrite elem_of_swap; naive_solver|rewrite elem_of_swap; by left|].
        by rewrite swap_evict_new. }
      destruct (IH ltac:(done) x y ltac:(set_solver) ltac:(set_solver) Hs) as (m & ? & Hm).
      exists (S m). split; [lia|]. apply (paging_replace k _ r v); [rewrite elem_of_swap; naive_solver|rewrite elem_of_swap; naive_solver|].
      by rewrite swap_replace.
Qed.
End exchange.

(** ** The algorithm of the code *)
Definition page_of (r : Z) : Z := ROUNDDOWN r PAGE_SIZE.

Lemma next_use_bound page later d x : next_use page later d = Some x → d < x ≤ d + Z.of_nat (length later).
Proof.
  revert d. induction later as [|r later IH]; intros d Hx; [done|]. cbn [next_use length] in *. case_decide.
  - injection Hx as <-. lia.
  - apply IH in Hx. lia.
Qed.
Definition next_dist (later : list Z) (w : Z) : Z := default INT_MAX (next_use w later 0).
Lemma next_dist_pos later w : 0 < next_dist later w.
Proof.
  unfold next_dist. destruct (next_use w later 0) as [x|] eqn:Hx; [|done]. apply next_use_bound in Hx. cbn. lia.
Qed.
Lemma next_use_sooner later d x y :
  d + Z.of_nat (length later) < INT_MAX →
  default INT_MAX (next_use y later d) ≤ default INT_MAX (next_use x later d) →
  sooner (page_of <$> later) y x.
Proof.
  revert d. induction later as [|r later IH]; intros d Hd Hle; [done|]. cbn [fmap list_fmap next_use sooner] in *.
  destruct (decide (ROUNDDOWN r PAGE_SIZE = y)) as [Hy|Hy]; [by left|]. right.
  cbn [length] in Hd. destruct (decide (ROUNDDOWN r PAGE_SIZE = x)) as [Hx|Hx].
  - cbn [default] in Hle. exfalso. destruct (next_use y later (d + 1)) as [z|] eqn:Hz; cbn in Hle; [|lia].
    apply next_use_bound in Hz. unfold id in Hle. lia.
  - split; [done|]. apply (IH (d + 1)); [lia|done].
Qed.
(** The search returns the index of a page whose next use is furthest. *)
Lemma furthest_spec later ws i v best :
  (∀ w, next_dist later w ≤ INT_MAX) →
  ∀ pre, length pre = i → ((i = 0%nat ∧ best = 0) ∨ (∃ x, pre !! v = Some x ∧ best = next_dist later x)) →
  (∀ w, w ∈ pre → next_dist later w ≤ best) → (pre ++ ws) ≠ [] →
  ∃ x, (pre ++ ws) !! furthest ws later i v best = Some x ∧
    ∀ w, w ∈ pre ++ ws → next_dist later w ≤ next_dist later x.
Proof.
  intros Hmax. revert i v best. induction ws as [|w ws IH]; intros i v best pre Hi Hv Hbest Hne.
  - rewrite app_nil_r in *. cbn. destruct Hv as [[-> ->]|(x & Hx & ->)].
    { destruct pre; [done|discriminate Hi]. }
    exists x. done.
  - cbn [furthest]. fold (next_dist later w).
    assert (Hnew : ∃ x v' best', (if decide (best < next_dist later w) then (i, next_dist later w) else (v, best)) = (v', best') ∧
      (pre ++ [w]) !! v' = Some x ∧ best' = next_dist later x ∧ ∀ w', w' ∈ pre ++ [w] → next_dist later w' ≤ best').
    { case_decide as Hlt.
      - exists w, i, (next_dist later w). split_and!; [done|by apply list_lookup_middle|done|].
        intros w' [Hw'| ->%list_elem_of_singleton]%elem_of_app; [|lia]. specialize (Hbest w' Hw'). lia.
      - pose proof (next_dist_pos later w). destruct Hv as [[-> ->]|(x & Hx & ->)]; [lia|].
        exists x, v, (next_dist later x). split_and!; [done|by apply lookup_app_l_Some|done|].
        intros w' [Hw'| ->%list_elem_of_singleton]%elem_of_app; [by apply Hbest|lia]. }
    destruct Hnew as (x & v' & best' & -> & Hx & -> & Hall).
    assert (pre ++ w :: ws = (pre ++ [w]) ++ ws) as Happ by (by rewrite <- app_assoc). rewrite Happ.
    case_decide as Hstop.
    + exists x. split; [by apply lookup_app_l_Some|]. intros w' _. rewrite Hstop. apply Hmax.
    + apply IH; [rewrite length_app; cbn; lia|right; by exists x|done|by destruct pre].
Qed.
Lemma furthest_victim later ws :
  ws ≠ [] → Z.of_nat (length later) < INT_MAX →
  ∃ x, ws !! furthest ws later 0 0 0 = Some x ∧ ∀ y, y ∈ ws → sooner (page_of <$> later) y x.
Proof.
  intros Hne Hlen. destruct (furthest_spec later ws 0 0 0) with (pre := @nil Z) as (x & Hx & Hall).
  - intros w. unfold next_dist. destruct (next_use w later 0) as [d|] eqn:Hd; [|done]. apply next_use_bound in Hd. cbn. lia.
  - done.
  - by left.
  - intros w Hw. by apply not_elem_of_nil in Hw.
  - done.
  - exists x. split; [done|]. intros y Hy. eapply next_use_sooner; [|by apply Hall]. lia.
Qed.

Lemma set_insert (ws : list Z) i x r :
  NoDup ws → ws !! i = Some x → r ∉ ws →
  NoDup (<[i := r]> ws) ∧ (list_to_set (<[i := r]> ws) : gset Z) = {[r]} ∪ list_to_set ws ∖ {[x]}.
Proof.
  intros Hnd Hi Hr. pose proof (lookup_lt_Some _ _ _ Hi) as Hlt.
  assert (Hel : ∀ z, z ∈ ws ↔ z ∈ take i ws ∨ z = x ∨ z ∈ drop (S i) ws).
  { intros z. rewrite <- (take_drop_middle ws i x Hi) at 1. by rewrite elem_of_app, elem_of_cons. }
  rewrite insert_take_drop by done. rewrite <- (take_drop_middle ws i x Hi) in Hnd, Hr.
  apply NoDup_app in Hnd as (Hn1 & Hd & [Hx Hn2]%NoDup_cons). rewrite not_elem_of_app, not_elem_of_cons in Hr. destruct Hr as (Hr1 & Hrx & Hr2).
  assert (x ∉ take i ws) by (intros Hx1; apply (Hd x Hx1); by left). split.
  - apply NoDup_app. split_and!; [done| |by constructor]. intros z Hz. rewrite elem_of_cons. intros [->|Hz2]; [done|].
    apply (Hd z Hz). by right.
  - apply set_eq. intros z. rewrite elem_of_union, elem_of_difference, !elem_of_list_to_set, Hel, elem_of_app, elem_of_cons, !elem_of_singleton.
    destruct (decide (z = x)); naive_solver.
Qed.
Lemma size_ws (ws : list Z) : NoDup ws → size (list_to_set ws : gset Z) = length ws.
Proof. apply size_list_to_set. Qed.

(** The loop counts the faults of one strategy, and of the best one. *)
Lemma optimal_loop_spec {S} max refs : ∀ (ws : list Z) faults (s : S),
  0 < max → Z.of_nat (length refs) < INT_MAX → NoDup ws → Z.of_nat (length ws) ≤ max →
  ∃ n, optimal_loop max refs ws faults s = Ok (faults + Z.of_nat n) s ∧
    paging (Z.to_nat max) (list_to_set ws) (page_of <$> refs) n ∧
    ∀ m, paging (Z.to_nat max) (list_to_set ws) (page_of <$> refs) m → (n ≤ m)%nat.
Proof.
  induction refs as [|r refs IH]; intros ws faults s Hmax Hlen Hnd Hws.
  { exists 0%nat. split_and!; [cbn; unfold mret, M_ret; f_equal; lia|constructor|intros; lia]. }
  cbn [optimal_loop fmap list_fmap length] in *. fold (page_of r). case_decide as Hin.
  { destruct (IH ws faults s Hmax ltac:(lia) Hnd Hws) as (n & Hrun & Hp & Hbest). exists n. split_and!; [done| |].
    - apply paging_hit; [by apply elem_of_list_to_set|done].
    - intros m Hm. inversion Hm; subst; [by apply Hbest|..]; rewrite elem_of_list_to_set in *; done. }
  assert (Hin' : page_of r ∉ (list_to_set ws : gset Z)) by (by rewrite elem_of_list_to_set).
  case_decide as Hroom.
  - assert (Hset : (list_to_set (ws ++ [page_of r]) : gset Z) = {[page_of r]} ∪ list_to_set ws).
    { apply set_eq. intros z. rewrite elem_of_union, !elem_of_list_to_set, elem_of_app. set_solver. }
    destruct (IH (ws ++ [page_of r]) (faults + 1) s Hmax ltac:(lia)) as (n & Hrun & Hp & Hbest).
    { apply NoDup_app. split_and!; [done| |apply NoDup_singleton]. set_solver. }
    { rewrite length_app. cbn. lia. }
    rewrite Hset in Hp, Hbest. exists (Datatypes.S n). split_and!.
    + rewrite Hrun. f_equal. lia.
    + apply paging_place; [done|rewrite size_ws by done; lia|done].
    + intros m Hm. inversion Hm as [|? ? ? ? Hr|? ? ? m' Hr Hk Hm'|? ? v ? m' Hr Hv Hm']; subst; [done|..].
      * specialize (Hbest m' Hm'). lia.
      * destruct (paging_more _ _ _ _ Hm' ({[page_of r]} ∪ list_to_set ws)) as (m2 & Hle & Hm2); [set_solver| |].
        { rewrite size_add, size_ws by done. lia. }
        specialize (Hbest m2 Hm2). lia.
  - assert (Hne : ws ≠ []) by (intros ->; cbn in *; lia).
    destruct (furthest_victim refs ws Hne ltac:(lia)) as (x & Hx & Hfar). set (i := furthest ws refs 0 0 0) in *.
    pose proof (lookup_lt_Some _ _ _ Hx) as Hlt. rewrite decide_True by lia.
    destruct (set_insert ws i x (page_of r) Hnd Hx Hin) as [Hnd' Hset].
    destruct (IH (<[i := page_of r]> ws) (faults + 1) s Hmax ltac:(lia) Hnd') as (n & Hrun & Hp & Hbest).
    { by rewrite length_insert. }
    rewrite Hset in Hp, Hbest. assert (Hxin : x ∈ (list_to_set ws : gset Z)).
    { apply elem_of_list_to_set. by eapply list_elem_of_lookup_2. }
    exists (Datatypes.S n). split_and!.
    + rewrite Hrun. f_equal. lia.
    + by apply (paging_replace _ _ _ x).
    + intros m Hm. inversion Hm as [|? ? ? ? Hr|? ? ? m' Hr Hk Hm'|? ? v ? m' Hr Hv Hm']; subst; [done|..].
      * rewrite size_ws in Hk by done. lia.
      * assert (∃ m2, (m2 ≤ m')%nat ∧ paging (Z.to_nat max) ({[page_of r]} ∪ list_to_set ws ∖ {[x]}) (page_of <$> refs) m2) as (m2 & Hle & Hm2).
        { destruct (decide (v = x)) as [->|Hvx]; [by exists m'|].
          destruct (paging_exchange _ _ _ _ Hm' ltac:(rewrite size_swap, size_ws by done; lia) x v) as (m2 & ? & Hm2);
            [set_solver|set_solver|by apply Hfar; rewrite elem_of_list_to_set in Hv|].
          exists m2. split; [done|]. rewrite swap_victims in Hm2 by set_solver. done. }
        specialize (Hbest m2 Hm2). lia.
Qed.
