(* ===== verification/FaultThm.v ===== *)
(** * Demand paging: the theorems

    Replacement by CLOCK, LRU with aging and modified CLOCK, the handler that
    chooses between placement and replacement, and the optimal number of faults. *)

From S2P Require Import Prelude Queue Paging PagingSpec PagingThm WorkingSet Fault VMSpec FaultSpec FaultOps VMPaging Belady.

Section thm.
Context {E : Type} `{VM E} {dir : Z} `{!VMView E dir} `{!VMLaws E dir}.
Implicit Types s : fstate E.

(** The choice that [page_fault_handler] makes. *)
Lemma wp_handler_room fuel e fault_va s x Q :
  envs s !! e = Some x → PageRepAlgoType s ≠ PG_REP_OPTIMAL →
  Z.of_nat (length (page_WS_list x)) < page_WS_max_size x →
  wp (placement e fault_va) Q s → wp (page_fault_handler fuel e fault_va) Q s.
Proof.
  intros Hen Halg Hlt HQ. unfold page_fault_handler. apply wp_bind, wp_gets. rewrite bool_decide_false by done.
  apply wp_bind. eapply wp_env_at; [done|]. by rewrite decide_True.
Qed.
Definition replacement (fuel : nat) (alg e fault_va : Z) : M (fstate E) unit :=
  if decide (alg = PG_REP_CLOCK) then replace_CLOCK fuel e fault_va
  else if decide (alg = PG_REP_LRU_TIME_APPROX) then replace_LRU e fault_va
  else if decide (alg = PG_REP_MODIFIEDCLOCK) then replace_ModifiedCLOCK fuel e fault_va
  else mret ().
Lemma wp_handler_full fuel e fault_va s x Q :
  envs s !! e = Some x → PageRepAlgoType s ≠ PG_REP_OPTIMAL →
  page_WS_max_size x ≤ Z.of_nat (length (page_WS_list x)) →
  wp (replacement fuel (PageRepAlgoType s) e fault_va) Q s → wp (page_fault_handler fuel e fault_va) Q s.
Proof.
  intros Hen Halg Hge HQ. unfold page_fault_handler. apply wp_bind, wp_gets. rewrite bool_decide_false by done.
  apply wp_bind. eapply wp_env_at; [done|]. rewrite decide_False by lia. do 3 (apply wp_bind, wp_gets).
  unfold replacement in HQ. by do 3 (case_bool_decide; case_decide; try done).
Qed.

(** C20: CLOCK replacement returns within one step more than the working set has
    elements. From the hand on it passes the used elements, clearing their used
    bit, and replaces the page of the first unused one (of the first one after a
    whole round when all are used); the hand then is on the element after it.
    Every other page keeps its place and its frame. *)
Theorem clock_replacement_correct fuel e fault_va s x h t :
  let fva := ROUNDDOWN fault_va PAGE_SIZE in
  let '(passed, v) := clock_choice s (h :: t) in
  PageRepAlgoType s = PG_REP_CLOCK → fault_ok e fault_va s x → rotation (page_WS_list x) (h :: t) → page_last_WS_element x = h →
  (length (page_WS_list x) < fuel)%nat → page_WS_max_size x = Z.of_nat (length (page_WS_list x)) → evictable e s v →
  wp (page_fault_handler fuel e fault_va) (λ _ s', ended fva s' ∨
    page_replaced e v fva (λ p, if decide (p ∈ passed) then Z.ldiff (elt_pte s p) PERM_USED else elt_pte s p)
      s (set_last (cnext v (page_WS_list x)) x) s') s.
Proof.
  intros fva. pose proof (replace_CLOCK_spec fuel e fault_va s x h t) as Hspec. cbv zeta in Hspec.
  destruct (clock_choice s (h :: t)) as [passed v]. intros Halg Hok Hrot Hlast Hfuel Hmax Hev.
  eapply wp_handler_full; [apply Hok|by rewrite Halg|lia|]. rewrite Halg. by apply Hspec.
Qed.
(** With the working set full and every time stamp at its largest value, LRU
    replacement finds no victim: its search starts from 0xFFFFFFFF with a strict
    comparison. *)
Lemma replace_LRU_panics e fault_va s x :
  ws_ok e s x → (∀ p, p ∈ page_WS_list x → 4294967295 ≤ stamp_of s p) → panics (replace_LRU e fault_va) s.
Proof.
  intros Hok Hall. unfold replace_LRU. apply panics_r. eapply wp_env_at; [apply Hok|]. apply panics_r.
  apply wp_min_stamp_ge.
  - intros p Hp. split; [by apply (ws_elem _ _ _ Hok)|by apply Hall].
  - rewrite decide_True by done. apply panics_panic.
Qed.
Lemma handler_LRU_panics fuel e fault_va s x :
  PageRepAlgoType s = PG_REP_LRU_TIME_APPROX → ws_ok e s x → page_WS_max_size x ≤ Z.of_nat (length (page_WS_list x)) →
  (∀ p, p ∈ page_WS_list x → 4294967295 ≤ stamp_of s p) → panics (page_fault_handler fuel e fault_va) s.
Proof.
  intros Halg Hok Hge Hall. unfold page_fault_handler. apply panics_r, wp_gets. rewrite bool_decide_false by (by rewrite Halg).
  apply panics_r. eapply wp_env_at; [apply Hok|]. rewrite decide_False by lia. do 3 (apply panics_r, wp_gets).
  rewrite bool_decide_false, bool_decide_true by (by rewrite Halg). by eapply replace_LRU_panics.
Qed.
(** C22: With the working set full, LRU replacement takes the first element with the
    smallest time stamp. If that stamp is 2^32-1 the kernel panics: all pages were
    used in 32 ticks in a row. Otherwise the page of the element is replaced; the
    element goes to the tail of the list with the stamp 2^31 and the used bit set,
    and the hand to the head; no other page changes. *)
Theorem lru_replacement_correct fuel e fault_va s x pre v post :
  let fva := ROUNDDOWN fault_va PAGE_SIZE in let l := pre ++ post ++ [v] in
  PageRepAlgoType s = PG_REP_LRU_TIME_APPROX → fault_ok e fault_va s x → page_WS_list x = pre ++ v :: post → Z.of_nat (length (page_WS_list x)) = page_WS_max_size x →
  (∀ p, p ∈ pre → stamp_of s v < stamp_of s p) → (∀ p, p ∈ post → stamp_of s v ≤ stamp_of s p) → evictable e s v →
  (4294967295 ≤ stamp_of s v → panics (page_fault_handler fuel e fault_va) s) ∧
  (stamp_of s v < 4294967295 → wp (page_fault_handler fuel e fault_va) (λ _ s', ended fva s' ∨
    page_replaced e v fva (elt_pte s) s (set_last (first_of l) (set_ws l x)) s' ∧
    stamp_of s' v = 2147483648 ∧ has_bit PERM_USED s' v = true ∧
    ∀ p, p ∈ pre ++ post → stamp_of s' p = stamp_of s p) s).
Proof.
  intros fva l Halg Hok Hl Hmax Hpre Hpost Hev. split; intros Hv.
  - eapply handler_LRU_panics; [done|apply Hok|lia|]. rewrite Hl. intros p [Hp|[->|Hp]%elem_of_cons]%elem_of_app; [specialize (Hpre p Hp); lia|done|specialize (Hpost p Hp); lia].
  - eapply wp_handler_full; [apply Hok|by rewrite Halg|lia|]. rewrite Halg. by apply replace_LRU_spec.
Qed.
(** C21: Modified CLOCK replacement returns within one round per search. It
    replaces the page of the first element from the hand on that was neither
    used nor modified; else of the first unused one, clearing the used bits it
    passes; else, all used bits being cleared, of the first unmodified one, or of
    the element at the hand. The new page is marked used, the hand is on the next
    element, and every other page keeps its place and its frame. *)
Theorem modified_clock_correct fuel e fault_va s x h t :
  let fva := ROUNDDOWN fault_va PAGE_SIZE in
  let '(passed, v) := modified_choice s (h :: t) in
  PageRepAlgoType s = PG_REP_MODIFIEDCLOCK → fault_ok e fault_va s x → rotation (page_WS_list x) (h :: t) →
  (page_last_WS_element x = h ∨ (page_last_WS_element x = NULL ∧ h = first_of (page_WS_list x))) →
  (length (page_WS_list x) ≤ fuel)%nat → page_WS_max_size x = Z.of_nat (length (page_WS_list x)) → evictable e s v →
  wp (page_fault_handler fuel e fault_va) (λ _ s', ended fva s' ∨
    page_replaced e v fva (λ p, if decide (p ∈ passed) then Z.ldiff (elt_pte s p) PERM_USED else elt_pte s p)
      s (set_last (cnext v (page_WS_list x)) x) s' ∧ has_bit PERM_USED s' v = true) s.
Proof.
  intros fva. pose proof (replace_ModifiedCLOCK_spec fuel e fault_va s x h t) as Hspec. cbv zeta in Hspec.
  destruct (modified_choice s (h :: t)) as [passed v]. intros Halg Hok Hrot Hlast Hfuel Hmax Hev.
  eapply wp_handler_full; [apply Hok|by rewrite Halg|lia|]. rewrite Halg. by apply Hspec.
Qed.
(** When the page of every element was used for 32 ticks in a row all the stamps
    are at their largest value, and LRU replacement panics. *)
Theorem lru_all_used_panics e fault_va s x :
  ws_ok e s x → (∀ p, p ∈ page_WS_list x → stamp_of s p = 4294967295) → panics (replace_LRU e fault_va) s.
Proof. intros Hok Hall. eapply replace_LRU_panics; [done|]. intros p Hp. by rewrite Hall. Qed.

(** ** The handler *)

(** The invariant of the working set of an environment: it is well formed, no
    larger than its bound, and the hand is on one of its elements, always so
    when it is full. *)
Record env_ok (e : Z) (s : fstate E) (x : Env) : Prop := {
  eo_ws : ws_ok e s x;
  eo_pos : 0 < page_WS_max_size x;
  eo_size : Z.of_nat (length (page_WS_list x)) ≤ page_WS_max_size x;
  eo_last : page_last_WS_element x = NULL ∨ page_last_WS_element x ∈ page_WS_list x;
  eo_full : Z.of_nat (length (page_WS_list x)) = page_WS_max_size x → page_last_WS_element x ≠ NULL
}.
Lemma cnext_in l v : NoDup l → NULL ∉ l → v ∈ l → cnext v l ∈ l.
Proof.
  intros Hnd Hnn Hv. destruct (rotation_start l v Hv) as [t Hrot].
  destruct (rotation_next l v t Hnd Hnn Hrot) as [-> Hr']. apply (rotation_elem _ _ _ Hr').
  destruct t; cbn; by left.
Qed.
Lemma first_in (l : list Z) : l ≠ [] → first_of l ∈ l.
Proof. destruct l; [done|]. by left. Qed.
Lemma env_ok_same e s x s' l q :
  env_ok e s x → ws_ok e s' (set_last q (set_ws l x)) → l ≡ₚ page_WS_list x → q ∈ l →
  env_ok e s' (set_last q (set_ws l x)).
Proof.
  intros [Hok Hpos Hsz _ _] Hok' Hl Hq. split; cbn; rewrite ?(Permutation_length Hl); try done; [by right|].
  intros _ ->. apply (ws_nonnull _ _ _ Hok). by rewrite <- Hl.
Qed.
Lemma min_stamp_exists s l m :
  (∃ p, p ∈ l ∧ stamp_of s p < m) →
  ∃ pre v post, l = pre ++ v :: post ∧ stamp_of s v < m ∧ (∀ p, p ∈ pre → stamp_of s v < stamp_of s p) ∧
    (∀ p, p ∈ post → stamp_of s v ≤ stamp_of s p).
Proof.
  intros (p0 & Hp0 & Hlt). assert (Hne : l ≠ []) by (intros ->; by apply not_elem_of_nil in Hp0).
  assert (Hmin : ∃ pre v post, l = pre ++ v :: post ∧ (∀ p, p ∈ pre → stamp_of s v < stamp_of s p) ∧
    (∀ p, p ∈ post → stamp_of s v ≤ stamp_of s p)).
  { clear p0 Hp0 Hlt. induction l as [|a l IH]; [done|]. destruct (decide (l = [])) as [->|Hl].
    { exists [], a, []. split_and!; [done|intros p Hp; by apply not_elem_of_nil in Hp..]. }
    destruct (IH Hl) as (pre & v & post & -> & Hpre & Hpost).
    destruct (decide (stamp_of s a ≤ stamp_of s v)) as [Hle|Hgt].
    - exists [], a, (pre ++ v :: post). split_and!; [done|intros p Hp; by apply not_elem_of_nil in Hp|].
      intros p [Hp|[->|Hp]%elem_of_cons]%elem_of_app; [specialize (Hpre p Hp); lia|done|specialize (Hpost p Hp); lia].
    - exists (a :: pre), v, post. split_and!; [done| |done]. intros p [->|Hp]%elem_of_cons; [lia|by apply Hpre]. }
  destruct Hmin as (pre & v & post & -> & Hpre & Hpost). exists pre, v, post. split_and!; [done| |done|done].
  apply elem_of_app in Hp0 as [Hp|[->|Hp]%elem_of_cons]; [specialize (Hpre p0 Hp); lia|done|specialize (Hpost p0 Hp); lia].
Qed.
(** LRU finds no victim: all stamps of a full working set are at their largest value. *)
Definition all_hot s (x : Env) : Prop :=
  PageRepAlgoType s = PG_REP_LRU_TIME_APPROX ∧ Z.of_nat (length (page_WS_list x)) = page_WS_max_size x ∧
  Forall (λ p, 4294967295 ≤ stamp_of s p) (page_WS_list x).
#[local] Instance all_hot_dec s x : Decision (all_hot s x).
Proof. unfold all_hot. apply _. Defined.
Lemma not_all_hot s x : ¬ all_hot s x → PageRepAlgoType s = PG_REP_LRU_TIME_APPROX → Z.of_nat (length (page_WS_list x)) = page_WS_max_size x →
  ∃ p, p ∈ page_WS_list x ∧ stamp_of s p < 4294967295.
Proof.
  intros Hn Halg Hmax. assert (Hf : ¬ Forall (λ p, 4294967295 ≤ stamp_of s p) (page_WS_list x)) by (intros Hf; by apply Hn).
  apply not_Forall_Exists, Exists_exists in Hf as (p & Hp & Hlt); [|apply _]. exists p. split; [done|]. cbn in Hlt. lia.
Qed.
(** C3: Under CLOCK, LRU with aging and modified CLOCK the page fault handler either
    panics or keeps the invariant of the working set and returns; it panics only
    when LRU is used, the working set is full and all its time stamps are 2^32-1.
    When it returns, unless the environment had to be ended, the faulted page is in
    the working set, which has one element more until it is full and keeps its size
    from then on. (A free frame and kernel memory must be left while the working
    set grows, and the page file must take the pages that are evicted.) *)
Theorem page_fault_handler_correct fuel e fault_va s x :
  let fva := ROUNDDOWN fault_va PAGE_SIZE in let n := Z.of_nat (length (page_WS_list x)) in
  PageRepAlgoType s ∈ [PG_REP_CLOCK; PG_REP_LRU_TIME_APPROX; PG_REP_MODIFIEDCLOCK] →
  env_ok e s x → fault_ok e fault_va s x → (length (page_WS_list x) < fuel)%nat →
  (n < page_WS_max_size x → kmalloc_fresh x ∧ vm_free (vm s) ≠ []) →
  (n = page_WS_max_size x → ∀ p, p ∈ page_WS_list x → evictable e s p) →
  (all_hot s x → panics (page_fault_handler fuel e fault_va) s) ∧
  (¬ all_hot s x → wp (page_fault_handler fuel e fault_va) (λ _ s', ended fva s' ∨ ∃ x', env_ok e s' x' ∧
    page_WS_max_size x' = page_WS_max_size x ∧
    Z.of_nat (length (page_WS_list x')) = Z.min (n + 1) (page_WS_max_size x) ∧
    ∃ p, p ∈ page_WS_list x' ∧ va_of s' p = fva) s).
Proof.
  intros fva n Halg Heo Hfo Hfuel Hroom Hevict. pose proof (eo_ws _ _ _ Heo) as Hok. split.
  { intros (Ha & Hmax & Hall). rewrite Forall_forall in Hall. by apply (handler_LRU_panics fuel e fault_va s x); [|done|lia|]. }
  intros Hcold.
  pose proof (ws_nodup _ _ _ Hok) as Hnd. pose proof (ws_nonnull _ _ _ Hok) as Hnn.
  assert (Hopt : PageRepAlgoType s ≠ PG_REP_OPTIMAL).
  { intros Hc. rewrite Hc in Halg. rewrite !elem_of_cons in Halg. by destruct Halg as [|[|[|Hn%not_elem_of_nil]]]. }
  destruct (decide (n < page_WS_max_size x)) as [Hlt|Hge].
  - destruct (Hroom Hlt) as [Hk Hfree]. destruct (vm_free (vm s)) as [|fi rest] eqn:Hfl; [done|].
    eapply wp_handler_room; [apply Hok|done|done|].
    eapply wp_mono; [by eapply (placement_spec e fault_va s x fi rest); [..|apply Heo]|].
    intros _ s' [Hend|(p & Hp & Hok' & Hva & _)]; [by left|]. right. exists (set_last (placed_last x p) (set_ws (placed_list x p) x)).
    pose proof (placed_perm x p (eo_last _ _ _ Heo) Hnd) as Hperm. pose proof (Permutation_length Hperm) as Hlen. cbn in Hlen.
    assert (Hin : ∀ q, q ∈ page_WS_list x → q ∈ placed_list x p) by (intros q Hq; rewrite Hperm; by right).
    assert (Hne : placed_list x p ≠ []) by (intros Hn; rewrite Hn in Hlen; cbn in Hlen; lia).
    split_and!; [|done|cbn; unfold n in *; lia|exists p; cbn; split; [rewrite Hperm; by left|done]].
    split; cbn; [done|apply Heo|unfold n in *; lia| |]; unfold placed_last.
    + case_decide; [right; by apply first_in|]. destruct (eo_last _ _ _ Heo); [by left|right; by apply Hin].
    + intros Hfull. case_decide as Hc.
      * intros Hn. apply first_in in Hne. rewrite Hn in Hne. rewrite Hperm in Hne. apply (ws_nonnull _ _ _ Hok').
        cbn. by rewrite Hperm.
      * intros Hn. by apply Hc.
  - assert (Hfull : n = page_WS_max_size x) by (pose proof (eo_size _ _ _ Heo); lia).
    assert (Hlast : page_last_WS_element x ∈ page_WS_list x).
    { destruct (eo_last _ _ _ Heo) as [Hn|]; [|done]. by apply (eo_full _ _ _ Heo) in Hn. }
    destruct (rotation_start _ _ Hlast) as [t Hrot].
    assert (Hmin : Z.min (n + 1) (page_WS_max_size x) = n) by lia. rewrite Hmin.
    assert (Hdone : ∀ v s' l q bits, v ∈ page_WS_list x → page_replaced e v fva bits s (set_last q (set_ws l x)) s' →
      l ≡ₚ page_WS_list x → q ∈ l → ∃ x', env_ok e s' x' ∧ page_WS_max_size x' = page_WS_max_size x ∧
      Z.of_nat (length (page_WS_list x')) = n ∧ ∃ p, p ∈ page_WS_list x' ∧ va_of s' p = fva).
    { intros v s' l q bits Hv (Hok' & Hva & _) Hl Hq. exists (set_last q (set_ws l x)). split_and!; [by eapply env_ok_same|done| |].
      - cbn. by rewrite (Permutation_length Hl).
      - exists v. cbn. by rewrite Hl. }
    eapply wp_handler_full; [apply Hok|done|fold n; lia|].
    rewrite !elem_of_cons in Halg. destruct Halg as [Ha|[Ha|[Ha|Hn%not_elem_of_nil]]]; [| | |done]; rewrite Ha.
    + change (replacement fuel PG_REP_CLOCK e fault_va) with (replace_CLOCK fuel e fault_va).
      pose proof (replace_CLOCK_spec fuel e fault_va s x (page_last_WS_element x) t) as Hc. cbv zeta in Hc.
      destruct (choice_in s x _ t Hrot) as [_ Hvin]. destruct (clock_choice s (page_last_WS_element x :: t)) as [us v]. cbn in Hvin.
      eapply wp_mono; [apply Hc; try done; by apply Hevict|]. intros _ s' [Hend|Hrep]; [by left|]. right.
      eapply (Hdone v s' (page_WS_list x) (cnext v (page_WS_list x))); [done|by destruct x; exact Hrep|done|by apply cnext_in].
    + change (replacement fuel PG_REP_LRU_TIME_APPROX e fault_va) with (replace_LRU e fault_va).
      destruct (min_stamp_exists s _ _ (not_all_hot _ _ Hcold Ha Hfull)) as (pre & v & post & Hl & Hv & Hpre & Hpost).
      assert (Hvin : v ∈ page_WS_list x) by (rewrite Hl, elem_of_app; right; by left).
      assert (Hperm : pre ++ post ++ [v] ≡ₚ page_WS_list x).
      { rewrite Hl. apply Permutation_app_head, Permutation_sym, Permutation_cons_append. }
      eapply wp_mono; [by apply (replace_LRU_spec e fault_va s x pre v post); [..|by apply Hevict]|].
      intros _ s' [Hend|[Hrep _]]; [by left|]. right. eapply (Hdone v); [done|exact Hrep|done|].
      apply first_in. intros Hn. by apply app_eq_nil in Hn as [_ Hn%app_eq_nil]; destruct Hn.
    + change (replacement fuel PG_REP_MODIFIEDCLOCK e fault_va) with (replace_ModifiedCLOCK fuel e fault_va).
      pose proof (replace_ModifiedCLOCK_spec fuel e fault_va s x (page_last_WS_element x) t) as Hc. cbv zeta in Hc.
      destruct (modified_choice_in s x _ t Hrot) as [_ Hvin]. destruct (modified_choice s (page_last_WS_element x :: t)) as [us v]. cbn in Hvin.
      eapply wp_mono; [apply Hc; try done; [by left|lia|by apply Hevict]|]. intros _ s' [Hend|[Hrep _]]; [by left|]. right.
      eapply (Hdone v s' (page_WS_list x) (cnext v (page_WS_list x))); [done|by destruct x; exact Hrep|done|by apply cnext_in].
Qed.

(** ** The optimal number of faults *)

(** C19: [get_optimal_num_faults] returns, and its result is the number of faults
    of one way to serve the references by demand paging with [maxWSSize] frames
    from the given working set, and the smallest one: no choice of victims, now
    or later, has fewer faults. *)
Theorem get_optimal_num_faults_optimal initWorkingSet maxWSSize pageReferences (v v1 : E) p :
  let k := Z.to_nat maxWSSize in let W : gset Z := list_to_set (take k initWorkingSet) in
  let refs := page_of <$> pageReferences in
  kmalloc (w32 (maxWSSize * 4)) v = Ok p v1 → p ≠ NULL → 0 < maxWSSize →
  Z.of_nat (length pageReferences) < INT_MAX → NoDup (take k initWorkingSet) →
  ∃ n, get_optimal_num_faults initWorkingSet maxWSSize pageReferences v = (kfree p ;; mret (Z.of_nat n)) v1 ∧
    paging k W refs n ∧ ∀ m, paging k W refs m → (n ≤ m)%nat.
Proof.
  intros k W refs Hk Hp Hmax Hlen Hnd. unfold get_optimal_num_faults. rewrite (bind_Ok _ _ _ _ _ Hk), decide_False by done.
  destruct (optimal_loop_spec maxWSSize pageReferences (take k initWorkingSet) 0 v1 Hmax Hlen Hnd) as (n & Hrun & Hpg & Hbest).
  { rewrite length_take. lia. }
  exists n. fold k. by rewrite (bind_Ok _ _ _ _ _ Hrun).
Qed.
End thm.

(** ** Witnesses: a full working set of one page on the four frames of PagingThm.v *)
Section witnesses.
#[local] Existing Instance w_env.
#[local] Existing Instance w_env_ok.
#[local] Instance w_disk : Disk unit := {|
  disk_read _ va := Paging.pt_set_page_permissions 100 va 0 PERM_MODIFIED ;; mret 0;
  disk_update _ va _ := Paging.pt_set_page_permissions 100 va 0 PERM_MODIFIED ;; mret 0;
  disk_remove _ _ := mret (); disk_exit := mret ();
  disk_storable _ _ _ := True; disk_exited _ := True |}.
#[local] Existing Instance paging_vm.
#[local] Instance w_view : VMView (mm * unit) 100 := paging_view {[w_t]} w_pins 100.

Lemma w_has_table va (s : mm * unit) : arrays s.1 = arrays w_mm → has_table 100 va s → PDX va = 0.
Proof.
  intros Ha. unfold has_table, pde_of. rewrite Ha. change (table_at (arrays w_mm) 100) with w_dir. intros Hp.
  destruct (decide (PDX va = 0)); [done|]. exfalso.
  assert (0 ≤ PDX va < 1024).
  { unfold PDX. change 1023 with (Z.ones 10). rewrite Z.land_ones by lia. apply Z.mod_pos_bound. lia. }
  unfold w_dir in Hp. rewrite list_lookup_total_insert_ne in Hp by lia.
  rewrite (list_lookup_total_correct _ _ 0) in Hp by (apply lookup_replicate; split; [done|lia]). done.
Qed.
Lemma w_space : space_ok {[w_t]} w_pins 100 (w_mm, tt).
Proof.
  assert (Htab : ∀ va, PDX va = 0 → ptab 100 va (w_mm, tt) = w_t ∧ table_frame 100 va w_mm = 1).
  { intros va Hv. unfold ptab, pde_of, table_frame. cbn [fst]. rewrite Hv. split; by vm_compute. }
  split.
  - split; [|by exists w_dir]. intros Hin%elem_of_singleton. done.
  - intros va _ Ht%w_has_table; [|done]. destruct (Htab va Ht) as [Hpt Htf]. cbn [fst]. rewrite Hpt, Htf.
    split_and!; [by apply elem_of_singleton|done|by vm_compute; lia|by vm_compute].
  - intros va va' _ _ Ht%w_has_table Ht'%w_has_table _; [by rewrite Ht, Ht'|done|done].
Qed.
Lemma w_disk_step A va (s : mm * unit) : vm_ok A s → user va → has_table 100 va s → maps (pte va s) = true →
  wp (Paging.pt_set_page_permissions 100 va 0 PERM_MODIFIED ;; mret 0) (λ _ s', vm_ok A s' ∧
    pte_upd va (Z.ldiff (pte va s) PERM_MODIFIED) s s' ∧
    frame_refs (PPN (pte va s)) s' = frame_refs (PPN (pte va s)) s) s.
Proof.
  intros Hok Hu Ht Hm. apply wp_bind. eapply wp_mono.
  - by apply (paging_set_law {[w_t]} w_pins 100 A va 0 PERM_MODIFIED s Hok Hu Ht).
  - intros _ s' (Hok' & (_ & Hr & _) & Hupd). apply wp_ret. rewrite Z.lor_0_r in Hupd. split_and!; [done|exact Hupd|apply Hr].
Qed.
Lemma w_disk_ok : DiskOk {[w_t]} w_pins 100.
Proof.
  split.
  - done.
  - intros A e va fi s Hok Hu Ht Hm _. by apply w_disk_step.
  - intros A e va s Hok Hu Ht Hm. eapply wp_mono; [by apply w_disk_step|]. intros _ s' (Hok' & Hupd & Hr).
    split; [done|]. eexists. split; [exact Hupd|]. rewrite maps_clear_modified. split_and!; [done| |done].
    apply PPN_clear; [|done]. rewrite pte_tabled by done. destruct (tab_in {[w_t]} w_pins 100 A va s Hok Hu Ht) as [Hin _].
    destruct (rel_pte _ _ _ _ (ptab 100 va s) va (proj1 Hok) Hin) as (T & _ & _ & Hr' & _). exact Hr'.
  - done.
Qed.
#[local] Instance w_laws : VMLaws (mm * unit) 100 := paging_laws {[w_t]} w_pins 100 w_disk_ok.
Definition w_fenv : Env := ENV 100 1 [500] 500 [] [] [] 0 0 0.
Definition w_fs (alg stamp : Z) : fstate (mm * unit) := FST alg {[1 := w_fenv]} {[500 := WSE 4096 stamp 0]} (w_mm, tt).
Lemma w_ws_ok alg stamp : ws_ok 1 (w_fs alg stamp) w_fenv.
Proof.
  split; try done.
  - apply NoDup_singleton.
  - intros Hin%list_elem_of_singleton. done.
  - intros p ->%list_elem_of_singleton. split_and!; [by eexists|done|by vm_compute|by vm_compute].
  - intros p q ->%list_elem_of_singleton ->%list_elem_of_singleton. done.
  - split; [exact w_inv|exact w_space].
Qed.
Lemma w_fault_ok alg stamp : fault_ok 1 8192 (w_fs alg stamp) w_fenv.
Proof. split; [apply w_ws_ok|done|by vm_compute|by vm_compute]. Qed.
Lemma w_evictable alg stamp : evictable 1 (w_fs alg stamp) 500.
Proof. split; [by vm_compute|done]. Qed.
Lemma w_env_fault_ok alg stamp : env_ok 1 (w_fs alg stamp) w_fenv.
Proof. split; [apply w_ws_ok|done|done|by right; left|done]. Qed.
Lemma w_rotation : rotation [500] [500].
Proof. by exists [], [500]. Qed.
Lemma w_choice : clock_choice (w_fs 3 5) [500] = ([], 500).
Proof. by vm_compute. Qed.
Lemma w_modified_choice : modified_choice (w_fs 5 5) [500] = ([], 500).
Proof. by vm_compute. Qed.

Lemma clock_replacement_correct_witness :
  wp (page_fault_handler 5 1 8192) (λ _ s', ended (ROUNDDOWN 8192 PAGE_SIZE) s' ∨ va_of s' 500 = ROUNDDOWN 8192 PAGE_SIZE) (w_fs 3 5).
Proof.
  pose proof (clock_replacement_correct 5 1 8192 (w_fs 3 5) w_fenv 500 []) as Hc. rewrite w_choice in Hc.
  eapply wp_mono; [exact (Hc eq_refl (w_fault_ok 3 5) w_rotation eq_refl ltac:(cbn; lia) eq_refl (w_evictable 3 5))|].
  intros _ s' [Hend|(_ & Hva & _)]; [left; exact Hend|right; exact Hva].
Defined.
Lemma modified_clock_correct_witness :
  wp (page_fault_handler 5 1 8192) (λ _ s', ended (ROUNDDOWN 8192 PAGE_SIZE) s' ∨ va_of s' 500 = ROUNDDOWN 8192 PAGE_SIZE) (w_fs 5 5).
Proof.
  pose proof (modified_clock_correct 5 1 8192 (w_fs 5 5) w_fenv 500 []) as Hc. rewrite w_modified_choice in Hc.
  eapply wp_mono; [exact (Hc eq_refl (w_fault_ok 5 5) w_rotation (or_introl eq_refl) ltac:(cbn; lia) eq_refl (w_evictable 5 5))|].
  intros _ s' [Hend|[(_ & Hva & _) _]]; [left; exact Hend|right; exact Hva].
Defined.
Lemma lru_replacement_correct_witness :
  wp (page_fault_handler 5 1 8192) (λ _ s', ended (ROUNDDOWN 8192 PAGE_SIZE) s' ∨ stamp_of s' 500 = 2147483648) (w_fs 1 5).
Proof.
  eapply wp_mono.
  - apply (lru_replacement_correct 5 1 8192 (w_fs 1 5) w_fenv [] 500 []);
      [reflexivity|exact (w_fault_ok 1 5)|reflexivity|reflexivity| | |exact (w_evictable 1 5)|done];
      intros p Hp; by apply not_elem_of_nil in Hp.
  - intros _ s' [Hend|(_ & Hst & _)]; [left; exact Hend|right; exact Hst].
Defined.
Lemma w_all_max p : p ∈ page_WS_list w_fenv → stamp_of (w_fs 1 4294967295) p = 4294967295.
Proof. by intros ->%list_elem_of_singleton. Qed.
Lemma lru_all_used_panics_witness : panics (replace_LRU 1 8192) (w_fs 1 4294967295).
Proof. exact (lru_all_used_panics 1 8192 (w_fs 1 4294967295) w_fenv (w_ws_ok 1 4294967295) w_all_max). Defined.
Lemma w_all_evictable p : p ∈ page_WS_list w_fenv → evictable 1 (w_fs 3 5) p.
Proof. intros ->%list_elem_of_singleton. apply w_evictable. Qed.
Lemma page_fault_handler_correct_witness :
  wp (page_fault_handler 5 1 8192) (λ _ s', ended (ROUNDDOWN 8192 PAGE_SIZE) s' ∨ ∃ x', env_ok 1 s' x') (w_fs 3 5).
Proof.
  eapply wp_mono.
  - apply (page_fault_handler_correct 5 1 8192 (w_fs 3 5) w_fenv); [by left|exact (w_env_fault_ok 3 5)|exact (w_fault_ok 3 5)|cbn; lia| | |by intros [? _]].
    + intros Hlt. cbn in Hlt. lia.
    + intros _. exact w_all_evictable.
  - intros _ s' [Hend|(x' & Hx' & _)]; [left; exact Hend|right; by exists x'].
Defined.
End witnesses.

(** A kernel heap that always has room, for the optimal number of faults. *)
Section optimal_witness.
#[local] Instance w_room : VM unit := {|
  WorkingSet.kmalloc _ := mret 4096; WorkingSet.kfree _ := mret (); WorkingSet.entry _ _ := panic;
  WorkingSet.set_entry _ _ _ := panic; WorkingSet.get_page_table _ _ := panic; WorkingSet.create_page_table _ _ := panic;
  WorkingSet.get_frame_info _ _ := panic; WorkingSet.allocate_frame := panic; WorkingSet.map_frame _ _ _ _ := panic;
  WorkingSet.unmap_frame _ _ := panic; WorkingSet.pt_set_page_permissions _ _ _ _ := panic;
  WorkingSet.pt_get_page_permissions _ _ := panic; WorkingSet.pf_read_env_page _ _ := panic;
  WorkingSet.pf_update_env_page _ _ _ := panic; WorkingSet.pf_remove_env_page _ _ := panic; WorkingSet.env_exit := panic |}.
(** Two frames, the references 1 2 1 3 1 2: four faults, two of them placements. *)
Lemma get_optimal_num_faults_optimal_witness :
  get_optimal_num_faults [] 2 [4096; 8192; 4096; 12288; 4096; 8192] tt = Ok 4 tt ∧
  ∀ m, paging 2 ∅ (page_of <$> [4096; 8192; 4096; 12288; 4096; 8192]) m → (4 ≤ m)%nat.
Proof.
  destruct (get_optimal_num_faults_optimal [] 2 [4096; 8192; 4096; 12288; 4096; 8192] tt tt 4096) as (n & Hrun & _ & Hbest);
    [reflexivity|done|lia|cbn; unfold INT_MAX; lia|apply NoDup_nil_2|].
  assert (Hres : get_optimal_num_faults [] 2 [4096; 8192; 4096; 12288; 4096; 8192] tt = Ok 4 tt) by (vm_compute; reflexivity).
  rewrite Hres in Hrun. injection Hrun as Hn. assert (n = 4%nat) as -> by lia. split; [exact Hres|exact Hbest].
Defined.
End optimal_witness.
