(* ===== verification/Spinlock.v ===== *)
(** * Spin locks (kern/conc/kspinlock.c, kern/cpu/cpu.c)

    The spin lock of the kernel and the nesting of interrupt disabling under
    it, on the state of the one CPU: its interrupt flag, its [struct cpu] and
    the locks by address. The loop that exchanges the lock word runs with
    fuel; the call stack recorded in a lock is read from the stack memory,
    which is a parameter. Segment, interrupt and task-state tables are loaded
    by code outside C and are left out of [cpu_init]. *)

From S2P Require Import Prelude Queue.

Definition FL_IF : Z := 512.
Definition NAMELEN : nat := 64.
Definition SCH_UNINITIALIZED : Z := -1.
Definition PTSIZE : Z := 4194304.
Definition KERNEL_STACK_SIZE : Z := 8 * PAGE_SIZE.
Definition KERNEL_BASE : Z := 4026531840.
Definition VPT : Z := KERNEL_BASE - PTSIZE.
Definition KERN_STACK_TOP : Z := VPT.
Definition USER_LIMIT : Z := KERN_STACK_TOP - PTSIZE.

Record cpu := CPU {
  ncli : Z;
  intena : Z;
  proc : Z;
  scheduler : Z;
  scheduler_status : Z;
  stack : Z;
  started : Z
}.
Record kspinlock := KSL {
  locked : Z;
  name : string;
  lock_cpu : Z;
  pcs : list Z
}.
(** The EFLAGS register, [CPUS[0]] and the spin locks by address. *)
Record machine := MACH {
  eflags : Z;
  cpu0 : cpu;
  spinlocks : gmap Z kspinlock
}.
Definition set_eflags (x : Z) (m : machine) : machine := MACH x (cpu0 m) (spinlocks m).
Definition set_cpu (x : cpu) (m : machine) : machine := MACH (eflags m) x (spinlocks m).
Definition set_locks (x : gmap Z kspinlock) (m : machine) : machine := MACH (eflags m) (cpu0 m) x.
Definition set_ncli (x : Z) (c : cpu) : cpu :=
  CPU x (intena c) (proc c) (scheduler c) (scheduler_status c) (stack c) (started c).
Definition set_intena (x : Z) (c : cpu) : cpu :=
  CPU (ncli c) x (proc c) (scheduler c) (scheduler_status c) (stack c) (started c).
Definition set_proc (x : Z) (c : cpu) : cpu :=
  CPU (ncli c) (intena c) x (scheduler c) (scheduler_status c) (stack c) (started c).

(** The stack memory: where the argument of the running function lies, the
    words that the saved frame pointers lead to, and the kernel stacks. *)
Class Stack := {
  CPUS : Z;                        (* &CPUS[0] *)
  arg_address : machine → Z;       (* &lk *)
  word_at : machine → Z → Z;
  env_kstack : Z → Z               (* p->kstack *)
}.

Section code.
Context `{Stack}.
Notation K := (M machine).

Definition mycpu : Z := CPUS.
Definition read_eflags : K Z := gets eflags.
Definition cli : K unit := modify (λ m, set_eflags (Z.ldiff (eflags m) FL_IF) m).
Definition sti : K unit := modify (λ m, set_eflags (Z.lor (eflags m) FL_IF) m).
Definition upd_cpu (f : cpu → cpu) : K unit := modify (λ m, set_cpu (f (cpu0 m)) m).

Definition pushcli : K unit :=
  fl ← read_eflags;
  cli ;;
  c ← gets cpu0;
  when (bool_decide (ncli c = 0)) (upd_cpu (set_intena (Z.land fl FL_IF))) ;;
  upd_cpu (λ c, set_ncli (i32 (ncli c + 1)) c).
Definition popcli : K unit :=
  fl ← read_eflags;
  assert_ (bool_decide (Z.land fl FL_IF = 0)) ;;
  upd_cpu (λ c, set_ncli (i32 (ncli c - 1)) c) ;;
  c ← gets cpu0;
  if decide (ncli c < 0) then panic
  else when (bool_decide (ncli c = 0) && bool_decide (intena c ≠ 0)) sti.

(** [get_cpu_proc] and [set_cpu_proc] (kern/proc/user_environment.c). *)
Definition get_cpu_proc : K Z :=
  pushcli ;; c ← gets cpu0; popcli ;; mret (proc c).
Definition set_cpu_proc (p : Z) : K unit :=
  pushcli ;; upd_cpu (set_proc p) ;; popcli.

Definition cpu_init (cpuIndx : Z) : K unit :=
  fl ← read_eflags;
  upd_cpu (λ _, CPU 0 (if decide (Z.land fl FL_IF ≠ 0) then 1 else 0) NULL NULL SCH_UNINITIALIZED
                  (w32 (KERN_STACK_TOP - (cpuIndx + 1) * KERNEL_STACK_SIZE)) 1).

Definition get_lock (lk : Z) : K kspinlock := l ← gets spinlocks; unwrap (l !! lk).
Definition put_lock (lk : Z) (k : kspinlock) : K unit := modify (λ m, set_locks (<[lk := k]> (spinlocks m)) m).

(** [strcpy] into [char name[NAMELEN]]. *)
Definition strcpy_name (n : string) : K unit :=
  if decide (String.length n < NAMELEN)%nat then mret () else undef.
Definition init_kspinlock (lk : Z) (n : string) : K unit :=
  k ← get_lock lk;
  strcpy_name n ;;
  put_lock lk (KSL 0 n 0 (pcs k)).

Definition holding_kspinlock (lk : Z) : K bool :=
  pushcli ;;
  k ← get_lock lk;
  let r := bool_decide (locked k ≠ 0) && bool_decide (lock_cpu k = mycpu) in
  popcli ;;
  mret r.

(** The chain of saved frame pointers. *)
Definition last_frame (c : cpu) (p ebp : Z) : bool :=
  bool_decide (ebp = 0) || bool_decide (ebp < USER_LIMIT)
  || (bool_decide (w32 (stack c + KERNEL_STACK_SIZE) ≤ ebp)
      && bool_decide (ebp < w32 (stack c + KERNEL_STACK_SIZE + PAGE_SIZE)))
  || (bool_decide (p ≠ NULL) && bool_decide (w32 (env_kstack p + KERNEL_STACK_SIZE) ≤ ebp)).
Fixpoint frames (n : nat) (m : machine) (p ebp : Z) : list Z :=
  match n with
  | O => []
  | S n => if last_frame (cpu0 m) p ebp then []
           else word_at m (w32 (ebp + 4)) :: frames n m p (word_at m ebp)
  end.
(** The ten entries of [pcs] and how many of them are addresses. *)
Definition getcallerpcs (v : Z) : K (list Z * Z) :=
  p ← get_cpu_proc;
  m ← get;
  let l := frames 10 m p (w32 (v - 8)) in
  mret (l ++ replicate (10 - length l) 0, Z.of_nat (length l)).

Definition xchg (lk newval : Z) : K Z :=
  k ← get_lock lk;
  put_lock lk (KSL newval (name k) (lock_cpu k) (pcs k)) ;;
  mret (locked k).
Fixpoint spin (fuel : nat) (lk : Z) : K unit :=
  match fuel with
  | O => nofuel
  | S fuel => old ← xchg lk 1; if decide (old ≠ 0) then spin fuel lk else mret ()
  end.
Definition acquire_kspinlock (fuel : nat) (lk : Z) : K unit :=
  h ← holding_kspinlock lk;
  if (h : bool) then panic else
  pushcli ;;
  _ ← get_cpu_proc;
  spin fuel lk ;;
  k ← get_lock lk;
  put_lock lk (KSL (locked k) (name k) mycpu (pcs k)) ;;
  v ← gets arg_address;
  r ← getcallerpcs v;
  k ← get_lock lk;
  put_lock lk (KSL (locked k) (name k) (lock_cpu k) r.1).
Definition printcallstack (lk : Z) : K unit :=
  v ← gets arg_address;
  r ← getcallerpcs v;
  k ← get_lock lk;
  put_lock lk (KSL (locked k) (name k) (lock_cpu k) r.1).
Definition release_kspinlock (lk : Z) : K unit :=
  h ← holding_kspinlock lk;
  if negb h then printcallstack lk ;; panic else
  k ← get_lock lk;
  put_lock lk (KSL (locked k) (name k) 0 (<[0%nat := 0]> (pcs k))) ;;
  k ← get_lock lk;
  put_lock lk (KSL 0 (name k) (lock_cpu k) (pcs k)) ;;
  _ ← get_cpu_proc;
  popcli.
End code.
