(* ===== verification/Conc.v ===== *)
(** * Sleeping: channels, semaphores and sleep locks (kern/conc)

    [channel.c], [ksemaphore.c] and [sleeplock.c] over the scheduler of
    Sched.v. A spin lock is its held flag here, counted in [ncli]; SpinThm.v
    shows that the spin locks of Spinlock.v behave so. A process that sleeps
    leaves its function at the call of [sched]: the function ends with
    [Suspended], whose continuation is what the process does once it is on the
    CPU again, and the loop of [acquire_sleeplock] is cut there. The environment
    that is switched to first releases the queue lock, as in Sched.v. *)

From S2P Require Import Prelude Queue Sched.

Definition NAMELEN : nat := 64.
Record Channel := CH { queue : list Z; chan_name : string }.
Record ksemaphore := KSEM { count : Z; sem_name : string }.
Record sleeplock := SLK { locked : Z; lock_name : string; pid : Z }.
(** The objects by address: spin locks, channels, semaphores, sleep locks; and
    the [channel] field of the environments. *)
Record conc := CONC {
  guards : gmap Z bool;
  channels : gmap Z Channel;
  semaphores : gmap Z ksemaphore;
  sleeplocks : gmap Z sleeplock;
  env_channel : gmap Z Z
}.
Definition set_guards (x : gmap Z bool) (c : conc) : conc :=
  CONC x (channels c) (semaphores c) (sleeplocks c) (env_channel c).
Definition set_channels (x : gmap Z Channel) (c : conc) : conc :=
  CONC (guards c) x (semaphores c) (sleeplocks c) (env_channel c).
Definition set_semaphores (x : gmap Z ksemaphore) (c : conc) : conc :=
  CONC (guards c) (channels c) x (sleeplocks c) (env_channel c).
Definition set_sleeplocks (x : gmap Z sleeplock) (c : conc) : conc :=
  CONC (guards c) (channels c) (semaphores c) x (env_channel c).
Definition set_env_channel (x : gmap Z Z) (c : conc) : conc :=
  CONC (guards c) (channels c) (semaphores c) (sleeplocks c) x.

(** Both structures start with a word, the spin lock [lk] and the channel [chan]. *)
Definition lk_of (p : Z) : Z := p + 4.
Definition chan_of (p : Z) : Z := p + 116.

(** What a process that sleeps does when it is switched to again. *)
Inductive cont :=
| K_sleeplock (env lk : Z)
| K_ksemaphore (env ksem : Z).
Inductive outcome :=
| Done
| Suspended (k : cont) (r : switch).

Section code.
Context {E : Type} `{SchedMem E}.
Notation ST := (conc * (sched_state * E))%type.
Notation C_ := (M ST).

Definition sch {A} (c : M (sched_state * E) A) : C_ A := zoom snd (λ t s, (s.1, t)) c.
Definition cget {A} (f : conc → A) : C_ A := gets (λ s, f s.1).
Definition cset (f : conc → conc) : C_ unit := modify (λ s, (f s.1, s.2)).
Definition get_cpu_proc : C_ Z := sch (sget cpu_proc).
Definition env_of (p : Z) : C_ Env := sch (get_env p).
Definition set_env_status (p x : Z) : C_ unit := sch (upd_env p (set_status x)).
Definition get_chan (c : Z) : C_ Channel := m ← cget channels; unwrap (m !! c).
Definition put_chan (c : Z) (q : list Z) : C_ unit :=
  ch ← get_chan c; cset (λ s, set_channels (<[c := CH q (chan_name ch)]> (channels s)) s).
Definition set_channel (p c : Z) : C_ unit := cset (λ s, set_env_channel (<[p := c]> (env_channel s)) s).
Definition get_sem (k : Z) : C_ ksemaphore := m ← cget semaphores; unwrap (m !! k).
Definition put_count (k n : Z) : C_ unit :=
  s ← get_sem k; cset (λ c, set_semaphores (<[k := KSEM n (sem_name s)]> (semaphores c)) c).
Definition get_slk (l : Z) : C_ sleeplock := m ← cget sleeplocks; unwrap (m !! l).
Definition put_slk (l x p : Z) : C_ unit :=
  s ← get_slk l; cset (λ c, set_sleeplocks (<[l := SLK x (lock_name s) p]> (sleeplocks c)) c).

(** A spin lock, taken and released. *)
Definition acquire_guard (l : Z) : C_ unit :=
  m ← cget guards; held ← unwrap (m !! l);
  assert_ (negb held) ;;
  sch (sset (λ s, set_ncli (ncli s + 1) s)) ;;
  cset (λ c, set_guards (<[l := true]> (guards c)) c).
Definition release_guard (l : Z) : C_ unit :=
  m ← cget guards; held ← unwrap (m !! l);
  assert_ held ;;
  sch (sset (λ s, set_ncli (ncli s - 1) s)) ;;
  cset (λ c, set_guards (<[l := false]> (guards c)) c).

(** [strcpy] into a [char [NAMELEN]]. *)
Definition strcpy_name (n : string) : C_ unit :=
  if decide (String.length n < NAMELEN)%nat then mret () else undef.

(** ** Channels *)
Definition init_channel (chan : Z) (n : string) : C_ unit :=
  strcpy_name n ;;
  cset (λ c, set_channels (<[chan := CH init_queue n]> (channels c)) c).
(** [sleep] up to the switch to the scheduler, and from there on. *)
Definition sleep_enter (chan lk : Z) : C_ switch :=
  current_env ← get_cpu_proc;
  assert_ (bool_decide (current_env ≠ NULL)) ;;
  assert_ (bool_decide (lk ≠ NULL)) ;;
  sch acquire_qlock ;;
  release_guard lk ;;
  set_env_status current_env ENV_BLOCKED ;;
  set_channel current_env chan ;;
  ch ← get_chan chan;
  q ← sch (enqueue (queue ch) current_env);
  put_chan chan q ;;
  r ← sch sched;
  sch (switched r) ;;
  mret r.
Definition sleep_exit (current_env lk : Z) : C_ unit :=
  acquire_guard lk ;;
  set_channel current_env NULL.

(** The body that [wakeup_one] and [wakeup_all] share. *)
Definition wake_env (p : Z) : C_ unit :=
  set_env_status p ENV_READY ;;
  set_channel p NULL ;;
  sch (sched_insert_ready p).
Definition wakeup_one (chan : Z) : C_ unit :=
  if decide (chan = NULL) then mret () else
  sch acquire_qlock ;;
  ch ← get_chan chan;
  r ← sch (dequeue (queue ch));
  put_chan chan r.2 ;;
  when (bool_decide (r.1 ≠ NULL)) (wake_env r.1) ;;
  sch release_qlock.
(** The loop takes one element of the queue per round. *)
Fixpoint wake_loop (fuel : nat) (chan : Z) : C_ unit :=
  match fuel with
  | O => nofuel
  | S fuel =>
      ch ← get_chan chan;
      r ← sch (dequeue (queue ch));
      put_chan chan r.2 ;;
      if decide (r.1 ≠ NULL) then wake_env r.1 ;; wake_loop fuel chan else mret ()
  end.
Definition wakeup_all (chan : Z) : C_ unit :=
  if decide (chan = NULL) then mret () else
  sch acquire_qlock ;;
  ch ← get_chan chan;
  wake_loop (S (length (queue ch))) chan ;;
  sch release_qlock.

(** ** Semaphores *)
Definition in_int (x : Z) : bool := bool_decide (-2147483648 ≤ x ≤ 2147483647).
(** [int] arithmetic: overflow has no meaning. *)
Definition add_count (ksem d : Z) : C_ Z :=
  s ← get_sem ksem;
  if in_int (count s + d) then put_count ksem (count s + d) ;; mret (count s + d) else undef.
Definition init_guard (l : Z) (n : string) : C_ unit :=
  strcpy_name n ;; cset (λ c, set_guards (<[l := false]> (guards c)) c).
Definition init_ksemaphore (ksem value : Z) (n : string) : C_ unit :=
  init_channel (chan_of ksem) "ksemaphore channel" ;;
  init_guard (lk_of ksem) "lock of ksemaphore" ;;
  strcpy_name n ;;
  cset (λ c, set_semaphores (<[ksem := KSEM value n]> (semaphores c)) c).
Definition wait_ksemaphore (ksem : Z) : C_ outcome :=
  acquire_guard (lk_of ksem) ;;
  n ← add_count ksem (-1);
  if decide (n < 0) then
    current_env ← get_cpu_proc;
    r ← sleep_enter (chan_of ksem) (lk_of ksem);
    mret (Suspended (K_ksemaphore current_env ksem) r)
  else release_guard (lk_of ksem) ;; mret Done.
Definition signal_ksemaphore (ksem : Z) : C_ unit :=
  acquire_guard (lk_of ksem) ;;
  n ← add_count ksem 1;
  when (bool_decide (n ≤ 0)) (wakeup_one (chan_of ksem)) ;;
  release_guard (lk_of ksem).

(** ** Sleep locks *)
Definition init_sleeplock (lk : Z) (n : string) : C_ unit :=
  init_channel (chan_of lk) "sleep lock channel" ;;
  init_guard (lk_of lk) ("lock of sleeplock - " +:+ n) ;;
  strcpy_name n ;;
  cset (λ c, set_sleeplocks (<[lk := SLK 0 n 0]> (sleeplocks c)) c).
(** [while (lk->locked) sleep(...)], up to the first call of [sleep], and what
    follows the loop. *)
Definition acquire_loop (lk : Z) : C_ outcome :=
  l ← get_slk lk;
  if decide (locked l ≠ 0) then
    current_env ← get_cpu_proc;
    r ← sleep_enter (chan_of lk) (lk_of lk);
    mret (Suspended (K_sleeplock current_env lk) r)
  else
    put_slk lk 1 (pid l) ;;
    p ← get_cpu_proc;
    e ← env_of p;
    put_slk lk 1 (env_id e) ;;
    release_guard (lk_of lk) ;;
    mret Done.
Definition acquire_sleeplock (lk : Z) : C_ outcome :=
  acquire_guard (lk_of lk) ;;
  acquire_loop lk.
Definition release_sleeplock (lk : Z) : C_ unit :=
  acquire_guard (lk_of lk) ;;
  put_slk lk 0 0 ;;
  wakeup_all (chan_of lk) ;;
  release_guard (lk_of lk).
Definition holding_sleeplock (lk : Z) : C_ bool :=
  acquire_guard (lk_of lk) ;;
  l ← get_slk lk;
  r ← (if decide (locked l = 0) then mret false else
         p ← get_cpu_proc; e ← env_of p; mret (bool_decide (pid l = env_id e)));
  release_guard (lk_of lk) ;;
  mret r.

(** The rest of the function that a process was suspended in. *)
Definition resume (k : cont) : C_ outcome :=
  match k with
  | K_sleeplock p lk => sleep_exit p (lk_of lk) ;; acquire_loop lk
  | K_ksemaphore p ksem => sleep_exit p (lk_of ksem) ;; release_guard (lk_of ksem) ;; mret Done
  end.
End code.
