(* ===== verification/ConcSpec.v ===== *)
(** * Processes that sleep: the operations on the scheduler's state

    What sleeping and waking do to the environments and to the queues of the
    scheduler: the scheduler's invariant is kept, and exactly the processes in
    question change between blocked and not blocked. *)

From S2P Require Import Prelude Queue Sched SchedSpec Conc.

(** ** How the environments of two states are related *)
(** The same environments with the same ids, of which [blk] are blocked in [s']. *)
Record evolve (s s' : sched_state) (blk : Z → Prop) : Prop := {
  evo_id : ∀ p, env_id <$> envs s' !! p = env_id <$> envs s !! p;
  evo_blocked : ∀ p, has_status s' p ENV_BLOCKED ↔ blk p
}.
Definition blocked (s : sched_state) (p : Z) : Prop := has_status s p ENV_BLOCKED.
Notation same_blocked s s' := (evolve s s' (blocked s)).

Lemma evolve_refl s : same_blocked s s.
Proof. by constructor. Qed.
Lemma evolve_trans s s1 s2 P Q :
  evolve s s1 P → evolve s1 s2 (λ p, blocked s1 p ∧ Q p) → evolve s s2 (λ p, P p ∧ Q p).
Proof.
  intros [H1 H2] [H3 H4]. constructor.
  - intros p. by rewrite H3, H1.
  - intros p. rewrite H4. unfold blocked. by rewrite H2.
Qed.
Lemma evolve_same_r s s1 s2 P : evolve s s1 P → same_blocked s1 s2 → evolve s s2 P.
Proof.
  intros [H1 H2] [H3 H4]. constructor.
  - intros p. by rewrite H3, H1.
  - intros p. rewrite H4. apply H2.
Qed.
Lemma evolve_same_l s s1 s2 P : same_blocked s s1 → evolve s1 s2 P → evolve s s2 P.
Proof. intros [H1 _] [H3 H4]. constructor; [intros p; by rewrite H3, H1|exact H4]. Qed.
Lemma evolve_iff s s' P Q : (∀ p, P p ↔ Q p) → evolve s s' P → evolve s s' Q.
Proof. intros HPQ [H1 H2]. constructor; [done|]. intros p. by rewrite H2. Qed.
Lemma evolve_envs s s' : envs s' = envs s → same_blocked s s'.
Proof. intros He. constructor; intros p; unfold blocked, has_status; by rewrite He. Qed.
Lemma evolve_lock s s' R :
  evolve (lock s) s' (λ x, blocked (lock s) x ∧ R x) → evolve s (unlock s') (λ x, blocked s x ∧ R x).
Proof. intros [H1 H2]. constructor; [exact H1|exact H2]. Qed.
Lemma evolve_ncli s s' n m P : evolve (set_ncli n s) s' P → evolve s (set_ncli m s') P.
Proof. intros [H1 H2]. constructor; [exact H1|exact H2]. Qed.
(** One environment changes, and not its id. *)
Lemma evolve_upd s s' p e e' P :
  envs s !! p = Some e → envs s' = <[p := e']> (envs s) → env_id e' = env_id e →
  (env_status e' = ENV_BLOCKED ↔ P p) → (∀ x, x ≠ p → blocked s x ↔ P x) → evolve s s' P.
Proof.
  intros He Hs Hid Hp Hx. constructor; intros x; unfold has_status; rewrite Hs;
    (destruct (decide (x = p)) as [->|Hne]; [rewrite lookup_insert_eq|rewrite lookup_insert_ne by done]).
  - rewrite He. cbn. by rewrite Hid.
  - done.
  - rewrite <- Hp. naive_solver.
  - by apply Hx.
Qed.

Section sched.
Context {E : Type} `{HS : SchedMem E}.
Implicit Types s : sched_state.
Notation wf := (sched_wf (E:=E)).
Notation ok := (sched_ok (E:=E)).

Lemma dispatched_evolve s s' r :
  wf s → cur_ready s → dispatched s s' r → same_blocked s s'.
Proof.
  intros Hwf Hc (s1 & [c Hr] & ->). destruct (pick (requeued s)) as [[p qs]|] eqn:Hp.
  - destruct Hr as (-> & e & He & ->). destruct (round_wf s p qs e Hwf Hc Hp He) as (_ & _ & Hst).
    apply (evolve_upd _ _ p e (chosen s e)); [done|done| | |done].
    + unfold chosen. by case_decide.
    + unfold blocked. split; [unfold chosen; by case_decide|].
      intros (e' & He' & Hs). simplify_eq. rewrite Hst in Hs. discriminate.
  - destruct Hr as [[-> | ->] ->]; by apply evolve_envs.
Qed.
Lemma aged_evolve s s' : aged_state s s' → same_blocked s s'.
Proof.
  intros Ha.
  assert (Hp : ∀ p, envs s' !! p = envs s !! p ∨ envs s' !! p = aged (starvThreshold s) <$> envs s !! p).
  { intros p. destruct (decide (Exists (λ q, p ∈ q) (env_ready_queues s))) as [Hx|Hx].
    - right. apply (as_visited _ _ Ha). apply Exists_exists in Hx as (q & Hq & Hp).
      apply list_elem_of_lookup in Hq as [i Hi]. by exists i, q.
    - left. apply (as_other _ _ Ha). intros (i & q & Hi & Hp). apply Hx, Exists_exists. exists q.
      split; [by apply list_elem_of_lookup_2 in Hi|done]. }
  constructor; intros p.
  - destruct (Hp p) as [->| ->]; [done|]. destruct (envs s !! p); [|done]. cbn. f_equal. apply aged_READY.
  - unfold blocked, has_status. destruct (Hp p) as [->| ->]; [done|].
    destruct (envs s !! p) as [e|]; cbn; [|naive_solver].
    pose proof (proj1 (aged_READY (starvThreshold s) e)) as Hst. split; intros (e' & [= <-] & Hs'); eexists; split;
      try done; congruence.
Qed.
Lemma tick_evolve s s' r : ok s → cpu_proc s ≠ NULL → tick_post (E:=E) s s' r → same_blocked s s'.
Proof.
  intros Hok Hne (sa & s1 & ec & Ha & Hec & (ec' & He1 & Hs1 & Hid & _) & _ & _ & _ & _ & _ & _ & Hwf & Hc & Hd).
  assert (Hsa : same_blocked s sa).
  { case_decide; [by apply aged_evolve|subst; apply evolve_refl]. }
  assert (Hrun : has_status s (cpu_proc s) ENV_RUNNING) by (by destruct (ok_cur _ Hok)).
  pose proof (evo_id _ _ _ Hsa (cpu_proc s)) as Hida. rewrite Hec in Hida. cbn in Hida.
  destruct (envs sa !! cpu_proc s) as [ea|] eqn:Hea; [|done]. injection Hida as Hida.
  eapply (evolve_same_l _ sa); [exact Hsa|].
  eapply evolve_same_r; [|by eapply dispatched_evolve].
  apply (evolve_upd _ _ (cpu_proc s) ea ec'); [done|done|congruence| |].
  - rewrite Hs1. unfold blocked. split; [done|]. intros Hb.
    destruct Hrun as (e & He & Hs), Hb as (e' & He' & Hs'). simplify_eq. rewrite Hs in Hs'. discriminate.
  - intros x _. unfold blocked at 1. by rewrite (evo_blocked _ _ _ Hsa).
Qed.
End sched.

(** ** The operations *)
(** With [n] spin locks held, none of them the queue lock; and with it. *)
Definition ok_in {E} `{SchedMem E} (n : Z) (s : sched_state) : Prop :=
  sched_ok (E:=E) (set_ncli 0 s) ∧ ncli s = n.
Record crit {E} `{SchedMem E} (n : Z) (s : sched_state) : Prop := {
  cr_wf : sched_wf (E:=E) s;
  cr_lock : qlock s = true ∧ ncli s = n;
  cr_cur : cpu_proc s = NULL ∨ has_status s (cpu_proc s) ENV_RUNNING;
  cr_stray : stray_free s
}.

Section ops.
Context {E : Type} `{HS : SchedMem E}.
Notation ST := (conc * (sched_state * E))%type.
Implicit Types st : ST.
Implicit Types s : sched_state.
Notation wf := (sched_wf (E:=E)).
Notation ok := (sched_ok (E:=E)).
Notation ok_in := (ok_in (E:=E)).
Notation crit := (crit (E:=E)).

Lemma ok_ok_in s : ok s → ok_in 0 s.
Proof. intros Hok. split; [|apply Hok]. destruct (ok_lock _ Hok) as [_ Hn]. eapply ok_frame; [..|exact Hok]; done. Qed.
Lemma ok_in_ok s : ok_in 0 s → ok s.
Proof. intros [Hok Hn]. eapply ok_frame; [..|exact Hok]; done. Qed.
Lemma ok_in_set n m s : ok_in n s → ok_in m (set_ncli m s).
Proof. intros [Hok _]. split; [|done]. eapply ok_frame; [..|exact Hok]; done. Qed.
Lemma ok_in_leave s : ok_in 1 s → ok (set_ncli (ncli s - 1) s).
Proof. intros Hok. destruct Hok as [? Hn]. rewrite Hn. by apply ok_in_ok, (ok_in_set 1). Qed.
Lemma ok_in_crit n s : ok_in n s → crit (n + 1) (lock s).
Proof.
  intros [[Hwf _ Hc Hs] Hn]. constructor; [by eapply wf_frame; [..|exact Hwf]|by rewrite <- Hn|exact Hc|exact Hs].
Qed.
Lemma crit_ok_in n s : crit (n + 1) s → ok_in n (unlock s).
Proof.
  intros [Hwf [Hl Hn] Hc Hs]. split; [|cbn; lia]. constructor; [by eapply wf_frame; [..|exact Hwf]|done|exact Hc|exact Hs].
Qed.

(** *** Rules for the primitives *)
Lemma wp_sch {A} (c : M (sched_state * E) A) Q st : wp c (λ a t, Q a (st.1, t)) st.2 → wp (sch c) Q st.
Proof. unfold wp, sch, zoom. by destruct (c st.2). Qed.
Lemma wp_cset f Q st : Q tt (f st.1, st.2) → wp (cset f) Q st.
Proof. done. Qed.
Lemma wp_get_cpu_proc Q st : Q (cpu_proc st.2.1) st → wp get_cpu_proc Q st.
Proof. intros HQ. apply wp_sch, wp_sget. by destruct st. Qed.
Lemma wp_env_of p e Q st : envs st.2.1 !! p = Some e → Q e st → wp (env_of p) Q st.
Proof. intros He HQ. apply wp_sch, (wp_get_env _ e); [done|]. by destruct st. Qed.
Lemma wp_get_chan c ch Q st : channels st.1 !! c = Some ch → Q ch st → wp (get_chan c) Q st.
Proof. intros Hc HQ. unfold get_chan, cget. apply wp_bind, wp_gets. by apply (wp_unwrap _ ch). Qed.
Lemma wp_put_chan c ch q Q st :
  channels st.1 !! c = Some ch →
  Q tt (set_channels (<[c := CH q (chan_name ch)]> (channels st.1)) st.1, st.2) → wp (put_chan c q) Q st.
Proof. intros Hc HQ. unfold put_chan. apply wp_bind, (wp_get_chan _ ch); [done|]. by apply wp_cset. Qed.
Lemma wp_set_channel p c Q st :
  Q tt (set_env_channel (<[p := c]> (env_channel st.1)) st.1, st.2) → wp (set_channel p c) Q st.
Proof. apply wp_cset. Qed.
Lemma wp_get_slk l k Q st : sleeplocks st.1 !! l = Some k → Q k st → wp (get_slk l) Q st.
Proof. intros Hc HQ. unfold get_slk, cget. apply wp_bind, wp_gets. by apply (wp_unwrap _ k). Qed.
Lemma wp_put_slk l k x p Q st :
  sleeplocks st.1 !! l = Some k →
  Q tt (set_sleeplocks (<[l := SLK x (lock_name k) p]> (sleeplocks st.1)) st.1, st.2) → wp (put_slk l x p) Q st.
Proof. intros Hc HQ. unfold put_slk. apply wp_bind, (wp_get_slk _ k); [done|]. by apply wp_cset. Qed.
Lemma wp_acquire_guard l Q st :
  guards st.1 !! l = Some false →
  Q tt (set_guards (<[l := true]> (guards st.1)) st.1, (set_ncli (ncli st.2.1 + 1) st.2.1, st.2.2)) →
  wp (acquire_guard l) Q st.
Proof.
  intros Hl HQ. unfold acquire_guard, cget. apply wp_bind, wp_gets, wp_bind, (wp_unwrap _ false); [done|].
  apply wp_bind, wp_assert; [done|]. apply wp_bind, wp_sch, wp_sset. by apply wp_cset.
Qed.
Lemma wp_release_guard l Q st :
  guards st.1 !! l = Some true →
  Q tt (set_guards (<[l := false]> (guards st.1)) st.1, (set_ncli (ncli st.2.1 - 1) st.2.1, st.2.2)) →
  wp (release_guard l) Q st.
Proof.
  intros Hl HQ. unfold release_guard, cget. apply wp_bind, wp_gets, wp_bind, (wp_unwrap _ true); [done|].
  apply wp_bind, wp_assert; [done|]. apply wp_bind, wp_sch, wp_sset. by apply wp_cset.
Qed.
Lemma wp_add_count k sm d Q st :
  semaphores st.1 !! k = Some sm → in_int (count sm + d) = true →
  Q (count sm + d) (set_semaphores (<[k := KSEM (count sm + d) (sem_name sm)]> (semaphores st.1)) st.1, st.2) →
  wp (add_count k d) Q st.
Proof.
  intros Hk Hi HQ. unfold add_count, put_count, get_sem, cget.
  apply wp_bind, wp_bind, wp_gets, (wp_unwrap _ sm); [done|]. cbn. rewrite Hi.
  apply wp_bind, wp_bind, wp_bind, wp_gets, (wp_unwrap _ sm); [done|]. by apply wp_cset, wp_ret.
Qed.

(** *** Falling asleep *)
(** [sleep] by the process on the CPU, the lock [lk] held and no other: the
    lock is released, the process is blocked and last in the queue of the
    channel, and another process, if there is one, is on the CPU. *)
Lemma sleep_enter_spec chan lk p ch st :
  guards st.1 !! lk = Some true → lk ≠ NULL → channels st.1 !! chan = Some ch → p ∉ queue ch →
  ok_in 1 st.2.1 → cpu_proc st.2.1 = p → p ≠ NULL →
  wp (sleep_enter chan lk) (λ r st',
    ok st'.2.1 ∧ evolve st.2.1 st'.2.1 (λ x, blocked st.2.1 x ∨ x = p) ∧
    st'.1 = CONC (<[lk := false]> (guards st.1)) (<[chan := CH (p :: queue ch) (chan_name ch)]> (channels st.1))
              (semaphores st.1) (sleeplocks st.1) (<[p := chan]> (env_channel st.1))) st.
Proof.
  intros Hg Hlk Hch Hpq [Hok Hn] Hp Hp0.
  pose proof (ok_wf _ Hok) as Hwf0. assert (Hwf : wf st.2.1) by (eapply wf_frame; [..|exact Hwf0]; done).
  destruct (ok_cur _ Hok) as [Hc|Hrun]; [cbn in Hc; congruence|]. cbn in Hrun. rewrite Hp in Hrun.
  pose proof (running_not_queued _ _ Hwf0 Hrun) as Hnq. destruct Hrun as (e & He & Hst). cbn in He.
  unfold sleep_enter. apply wp_bind, wp_get_cpu_proc. rewrite Hp.
  apply wp_bind, wp_assert; [by apply bool_decide_eq_true|]. apply wp_bind, wp_assert; [by apply bool_decide_eq_true|].
  apply wp_bind, wp_sch, wp_acquire_qlock; [apply (ok_lock _ Hok)|].
  apply wp_bind, wp_release_guard; [done|]. cbn [fst snd].
  apply wp_bind. unfold set_env_status. apply wp_sch, (wp_upd_env _ _ e); [done|]. cbn [fst snd].
  apply wp_bind, wp_set_channel. cbn [fst snd].
  apply wp_bind, (wp_get_chan _ ch); [done|]. apply wp_bind, wp_sch, wp_enqueue; [done..|].
  apply wp_bind, (wp_put_chan _ ch); [done|]. cbn [fst snd].
  set (s1 := set_envs _ _). assert (Hn1 : ncli s1 = 1) by (unfold s1, lock; cbn; lia).
  assert (He1 : envs s1 !! p = Some (set_status ENV_BLOCKED e)) by (unfold s1, lock; cbn; apply lookup_insert_eq).
  assert (Hwf1 : wf s1).
  { apply (wf_frame (set_envs (<[p := set_status ENV_BLOCKED e]> (envs st.2.1)) st.2.1)); [done..|].
    apply (wf_upd _ p e); [done|done|by left|done|by rewrite Hst|].
    intros _. apply (wf_env _ Hwf p e He). by rewrite Hst. }
  assert (Hs1 : evolve st.2.1 s1 (λ x, blocked st.2.1 x ∨ x = p)).
  { apply (evolve_upd _ _ p e (set_status ENV_BLOCKED e)); [done|done|done| |].
    - split; [by right|done].
    - intros x Hx. naive_solver. }
  apply wp_bind, wp_sch, (wp_sched (set_status ENV_BLOCKED e)); cbn [fst snd].
  - change (cpu_proc s1) with (cpu_proc st.2.1). by rewrite Hp.
  - done.
  - done.
  - done.
  - done.
  - done.
  - unfold off_cpu. rewrite decide_False by done. set (s2 := Sched.set_proc NULL (set_clock None s1)).
    intros r t Hr Hm. apply wp_bind, wp_sch. eapply (wp_switched s2); [exact Hr|done|].
    intros t' Hd Hm'. apply wp_ret. cbn [fst snd].
    assert (Hc2 : cur_ready s2) by (by left).
    assert (Hwf2 : wf s2) by (eapply wf_frame; [..|exact Hwf1]; done).
    split_and!; [| |done].
    + eapply (dispatched_ok s2); [done|done|done| |exact Hd].
      intros x (ex & Hex & Hsx). left. destruct (decide (x = p)) as [->|Hne].
      { unfold s2 in Hex. cbn in Hex. rewrite lookup_insert_eq in Hex. injection Hex as <-. done. }
      apply (queued_frame (set_ncli 0 st.2.1)); [done..|]. apply (ok_stray _ Hok). exists ex.
      unfold s2, s1, lock in Hex. cbn in Hex. by rewrite lookup_insert_ne in Hex.
    + eapply evolve_same_r; [exact Hs1|].
      destruct (dispatched_evolve s2 _ _ Hwf2 Hc2 Hd) as [H1 H2]. constructor; [exact H1|exact H2].
Qed.

(** *** Waking *)
(** What waking the processes of [W] leaves. *)
Record woken (n : Z) (W : list Z) (st st' : ST) : Prop := {
  wk_crit : crit n st'.2.1;
  wk_cpu : cpu_proc st'.2.1 = cpu_proc st.2.1;
  wk_envs : evolve st.2.1 st'.2.1 (λ x, blocked st.2.1 x ∧ x ∉ W);
  wk_conc : ∃ cs, st'.1 = CONC (guards st.1) (channels st'.1) (semaphores st.1) (sleeplocks st.1) cs
}.
Lemma wake_spec n p st :
  crit n st.2.1 → blocked st.2.1 p →
  wp (wake_env p) (λ _ st', woken n [p] st st' ∧ channels st'.1 = channels st.1) st.
Proof.
  intros [Hwf [Hl Hn] Hc Hs] (e & He & Hst).
  assert (Hnq : ¬ queued st.2.1 p).
  { intros Hq. destruct (queued_status _ _ Hwf Hq) as (e' & He' & Hs'). simplify_eq.
    rewrite Hst in Hs'. destruct Hs' as [?|[?|?]]; discriminate. }
  unfold wake_env, set_env_status. apply wp_bind, wp_sch, (wp_upd_env _ _ e); [done|]. cbn [fst snd].
  apply wp_bind, wp_set_channel. cbn [fst snd].
  set (s1 := set_envs _ _). set (e1 := set_status ENV_READY e).
  assert (He1 : envs s1 !! p = Some e1) by (unfold s1; cbn; apply lookup_insert_eq).
  assert (Hwf1 : wf s1).
  { apply (wf_upd _ p e); [done|done|by left|done|by rewrite Hst|].
    intros _. apply (wf_env _ Hwf p e He). by rewrite Hst. }
  assert (Hs1 : evolve st.2.1 s1 (λ x, blocked st.2.1 x ∧ x ∉ [p])).
  { apply (evolve_upd _ _ p e e1); [done|done|done| |].
    - split; [done|]. intros [_ Hx]. destruct Hx. by left.
    - intros x Hx. rewrite list_elem_of_singleton. naive_solver. }
  apply wp_sch, (wp_insert_ready p e1); cbn [fst snd]; [done|done|done|done|by rewrite (queued_frame st.2.1)|].
  intros Hwf2. split; [|done]. constructor; cbn [fst snd].
  - constructor; [done|done| |].
    + destruct Hc as [Hc|Hc]; [by left|right]. destruct (decide (cpu_proc st.2.1 = p)) as [Hcp|Hcp].
      { destruct Hc as (e' & He' & Hs'). rewrite Hcp, He in He'. injection He' as <-. rewrite Hst in Hs'. discriminate. }
      destruct Hc as (e' & He' & Hs'). exists e'. cbn. by rewrite !lookup_insert_ne.
    + intros x Hx. destruct (decide (x = p)) as [->|Hne]; [by apply queued_inserted|].
      apply queued_ready_inserted. apply (queued_frame st.2.1); [done..|]. apply Hs.
      destruct Hx as (ex & Hex & Hsx). cbn in Hex. rewrite !lookup_insert_ne in Hex by done. by exists ex.
  - done.
  - eapply evolve_iff; [|eapply evolve_same_r; [exact Hs1|]]; [done|].
    apply (evolve_upd _ _ p e1 e1); [done| |done| |done].
    + done.
    + unfold blocked. rewrite (evo_blocked _ _ _ Hs1). split; [done|]. intros [_ Hx]. destruct Hx. by left.
  - by eexists.
Qed.
Lemma woken_trans n W1 W2 st st1 st2 : woken n W1 st st1 → woken n W2 st1 st2 → woken n (W1 ++ W2) st st2.
Proof.
  intros [A1 A2 A3 (cs & A4)] [B1 B2 B3 (cs' & B4)]. constructor; [done|congruence| |].
  - eapply evolve_iff; [|eapply (evolve_trans _ _ _ _ (λ x, x ∉ W2)); [exact A3|exact B3]].
    intros x. cbn. rewrite not_elem_of_app. tauto.
  - exists cs'. rewrite B4, A4. done.
Qed.
Lemma woken_nil n st : crit n st.2.1 → woken n [] st st.
Proof.
  intros Hc. constructor; [done|done| |].
  - eapply evolve_iff; [|apply evolve_refl]. intros x. split; [|tauto]. intros Hx. split; [done|]. by apply not_elem_of_nil.
  - exists (env_channel st.1). by destruct st as [[] ?].
Qed.
Lemma woken_channels n W st st' chs :
  woken n W st st' → woken n W st (set_channels chs st'.1, st'.2).
Proof. intros [A1 A2 A3 (cs & A4)]. constructor; try done. exists cs. by rewrite A4. Qed.
Lemma woken_channels_l n W st st' chs :
  woken n W (set_channels chs st.1, st.2) st' → woken n W st st'.
Proof. intros [A1 A2 A3 (cs & A4)]. constructor; try done. by exists cs. Qed.

(** The queue of a channel: no process twice, and all of them blocked. *)
Definition asleep (s : sched_state) (q : list Z) : Prop := NoDup q ∧ ∀ p, p ∈ q → blocked s p.
Lemma asleep_nonnull s q p : wf s → asleep s q → p ∈ q → p ≠ NULL.
Proof. intros Hwf [_ Hq] Hp. eapply status_nonnull; [done|by apply Hq]. Qed.
Lemma asleep_init s s' q p : asleep s (q ++ [p]) → evolve s s' (λ x, blocked s x ∧ x ∉ [p]) → asleep s' q.
Proof.
  intros [Hnd Hq] [_ Hb]. apply NoDup_app in Hnd as (Hnd & Hd & _). split; [done|].
  intros x Hx. apply Hb. split; [apply Hq, elem_of_app; by left|]. intros Hxp. by apply (Hd x).
Qed.

(** One process, taken from the queue, becomes ready. *)
Lemma wake_last_spec n chan ch q p st :
  crit n st.2.1 → asleep st.2.1 (q ++ [p]) →
  wp (wake_env p) (λ _ st', woken n [p] st st' ∧
    channels st'.1 = <[chan := CH q (chan_name ch)]> (channels st.1) ∧ asleep st'.2.1 q)
    (set_channels (<[chan := CH q (chan_name ch)]> (channels st.1)) st.1, st.2).
Proof.
  intros Hc Ha. eapply wp_mono; [apply (wake_spec n p); [exact Hc|apply Ha; set_solver]|].
  cbn. intros _ st' [Hw Hchs]. apply woken_channels_l in Hw. split_and!; [done|done|].
  eapply asleep_init; [exact Ha|apply Hw].
Qed.

Lemma wake_loop_spec n chan ch : ∀ q st fuel,
  crit n st.2.1 → channels st.1 !! chan = Some (CH q (chan_name ch)) → asleep st.2.1 q → (length q < fuel)%nat →
  wp (wake_loop fuel chan) (λ _ st', woken n q st st' ∧
    channels st'.1 = <[chan := CH [] (chan_name ch)]> (channels st.1)) st.
Proof.
  intros q. induction q as [|p q IH] using rev_ind; intros st fuel Hc Hch Ha Hf; (destruct fuel as [|fuel]; [simpl in Hf; lia|]);
    cbn [wake_loop]; apply wp_bind; (eapply wp_get_chan; [exact Hch|]); cbn [queue].
  - apply wp_bind, wp_sch. unfold dequeue. cbn [last]. apply wp_ret, wp_bind, (wp_put_chan _ (CH [] (chan_name ch))); [by destruct st|].
    cbn [fst snd]. rewrite decide_False by (intros Hx; by apply Hx). apply wp_ret. split; [|by destruct st].
    destruct st as [c t]. by apply woken_channels, woken_nil.
  - assert (Hp : p ∈ q ++ [p]) by set_solver.
    apply wp_bind, wp_sch, wp_dequeue_snoc; [apply Ha|]. apply wp_bind; eapply wp_put_chan; [exact Hch|]. cbn [fst snd].
    rewrite decide_True by (eapply asleep_nonnull; [apply (cr_wf _ _ Hc)|exact Ha|done]).
    apply wp_bind. eapply wp_mono; [by apply (wake_last_spec n chan (CH (q ++ [p]) (chan_name ch)))|].
    intros _ st' (Hw & Hchs & Ha'). rewrite length_app in Hf. cbn in Hf.
    eapply wp_mono; [apply (IH st' fuel)|].
    + apply Hw.
    + rewrite Hchs. by rewrite lookup_insert_eq.
    + done.
    + lia.
    + intros _ st2 [Hw2 Hchs2]. split.
      * destruct (woken_trans _ _ _ _ _ _ Hw Hw2) as [A1 A2 A3 A4]. constructor; [done..| |done].
        eapply evolve_iff; [|exact A3]. intros x. cbn. set_solver.
      * by rewrite Hchs2, Hchs, insert_insert_eq.
Qed.
Lemma wakeup_all_spec n chan ch st :
  ok_in n st.2.1 → chan ≠ NULL → channels st.1 !! chan = Some ch → asleep st.2.1 (queue ch) →
  wp (wakeup_all chan) (λ _ st', ok_in n st'.2.1 ∧ cpu_proc st'.2.1 = cpu_proc st.2.1 ∧
    evolve st.2.1 st'.2.1 (λ x, blocked st.2.1 x ∧ x ∉ queue ch) ∧
    ∃ cs, st'.1 = CONC (guards st.1) (<[chan := CH [] (chan_name ch)]> (channels st.1))
                    (semaphores st.1) (sleeplocks st.1) cs) st.
Proof.
  intros Hok Hn Hch Ha. unfold wakeup_all. rewrite decide_False by done.
  pose proof (ok_in_crit _ _ Hok) as Hc.
  apply wp_bind, wp_sch, wp_acquire_qlock; [apply (ok_lock _ (proj1 Hok))|].
  apply wp_bind, (wp_get_chan _ ch); [done|]. apply wp_bind.
  eapply wp_mono; [apply (wake_loop_spec (n + 1) chan ch (queue ch)); [done| |done|lia]|].
  { cbn. by destruct ch. }
  intros _ st' [[A1 A2 A3 (cs & A4)] Hchs]. apply wp_sch, wp_release_qlock; [apply (cr_lock _ _ A1)|]. cbn [fst snd].
  split_and!; [by apply crit_ok_in|done|by apply evolve_lock|]. exists cs. by rewrite A4, Hchs.
Qed.
Lemma wakeup_one_spec n chan ch st q p :
  ok_in n st.2.1 → chan ≠ NULL → channels st.1 !! chan = Some ch → asleep st.2.1 (queue ch) → queue ch = q ++ [p] →
  wp (wakeup_one chan) (λ _ st', ok_in n st'.2.1 ∧ cpu_proc st'.2.1 = cpu_proc st.2.1 ∧
    evolve st.2.1 st'.2.1 (λ x, blocked st.2.1 x ∧ x ≠ p) ∧
    ∃ cs, st'.1 = CONC (guards st.1) (<[chan := CH q (chan_name ch)]> (channels st.1))
                    (semaphores st.1) (sleeplocks st.1) cs) st.
Proof.
  intros Hok Hn Hch Ha Hq. unfold wakeup_one. rewrite decide_False by done.
  pose proof (ok_in_crit _ _ Hok) as Hc.
  apply wp_bind, wp_sch, wp_acquire_qlock; [apply (ok_lock _ (proj1 Hok))|].
  apply wp_bind, (wp_get_chan _ ch); [done|].
  assert (Hp : p ∈ q ++ [p]) by set_solver. rewrite Hq in *.
  apply wp_bind, wp_sch, wp_dequeue_snoc; [apply Ha|]. apply wp_bind; eapply wp_put_chan; [exact Hch|]. cbn [fst snd].
  apply wp_bind, wp_when; intros Hb.
  2:{ apply bool_decide_eq_false in Hb. destruct Hb. eapply asleep_nonnull; [apply (ok_wf _ (proj1 Hok))|exact Ha|done]. }
  eapply wp_mono; [by apply (wake_last_spec (n + 1) chan ch q p (st.1, (lock st.2.1, st.2.2)))|].
  intros _ st' ([A1 A2 A3 (cs & A4)] & Hchs & _). apply wp_sch, wp_release_qlock; [apply (cr_lock _ _ A1)|]. cbn [fst snd].
  split_and!; [by apply crit_ok_in|done| |].
  - eapply evolve_iff; [|apply (evolve_lock _ _ _ A3)]. intros x. cbn. by rewrite list_elem_of_singleton.
  - exists cs. by rewrite A4, Hchs.
Qed.
End ops.
