(* ===== verification/ConcSys.v ===== *)
(** * The system of processes that use semaphores and sleep locks

    The operations of Conc.v on a state with all locks free, and the system
    they make up: processes that call them, clock interrupts, interrupt
    handlers that signal, and the scheduler, interleaved wherever interrupts
    are enabled. [holders], [credits], [waits] and [passes] record the history
    of the calls and are not read by the system. *)

From S2P Require Import Prelude Queue Sched SchedSpec Conc ConcSpec.

(** The state with the spin lock of object [o] taken. *)
Definition hold {E} (o : Z) (st : conc * (sched_state * E)) : conc * (sched_state * E) :=
  (set_guards (<[lk_of o := true]> (guards st.1)) st.1, (set_ncli (ncli st.2.1 + 1) st.2.1, st.2.2)).

Section ops.
Context {E : Type} `{HS : SchedMem E}.
Notation ST := (conc * (sched_state * E))%type.
Implicit Types st : ST.
Notation ok := (sched_ok (E:=E)).

(** Object [o] with its spin lock free, and its channel. *)
Record obj_ok (o : Z) (ch : Channel) (st : ST) : Prop := {
  ob_guard : guards st.1 !! lk_of o = Some false;
  ob_chan : channels st.1 !! chan_of o = Some ch;
  ob_pos : 0 < o;
  ob_asleep : asleep st.2.1 (queue ch)
}.
(** Process [p] on the CPU, not in the queue. *)
Definition runs (p : Z) (e : Env) (s : sched_state) : Prop :=
  ok s ∧ cpu_proc s = p ∧ p ≠ NULL ∧ envs s !! p = Some e.
(** [p] has gone to sleep on object [o]. *)
Definition slept (o : Z) (ch : Channel) (p : Z) (st st' : ST) : Prop :=
  ok st'.2.1 ∧ evolve st.2.1 st'.2.1 (λ x, blocked st.2.1 x ∨ x = p) ∧
  ∃ cs, st'.1 = CONC (guards st.1) (<[chan_of o := CH (p :: queue ch) (chan_name ch)]> (channels st.1))
                  (semaphores st.1) (sleeplocks st.1) cs.
(** The processes of [W] have left the queue of object [o], which is now [q]. *)
Definition awake (o : Z) (ch : Channel) (q W : list Z) (st st' : ST) : Prop :=
  ok st'.2.1 ∧ cpu_proc st'.2.1 = cpu_proc st.2.1 ∧
  evolve st.2.1 st'.2.1 (λ x, blocked st.2.1 x ∧ x ∉ W) ∧
  ∃ cs, st'.1 = CONC (guards st.1) (<[chan_of o := CH q (chan_name ch)]> (channels st.1))
                  (semaphores st.1) (sleeplocks st.1) cs.

Lemma release_hold o st :
  guards st.1 !! lk_of o = Some false →
  (set_guards (<[lk_of o := false]> (guards (hold o st).1)) (hold o st).1,
    (set_ncli (ncli (hold o st).2.1 - 1) (hold o st).2.1, (hold o st).2.2)) = st.
Proof.
  intros Hg. unfold hold, set_guards, set_ncli. cbn. rewrite insert_insert_eq, insert_id by done.
  replace (ncli st.2.1 + 1 - 1) with (ncli st.2.1) by lia. destruct st as [[] [[] ?]]. done.
Qed.
Lemma wp_acquire_hold o Q st : guards st.1 !! lk_of o = Some false → Q tt (hold o st) → wp (acquire_guard (lk_of o)) Q st.
Proof. intros Hg HQ. by apply wp_acquire_guard. Qed.
Lemma wp_release_hold o Q st : guards st.1 !! lk_of o = Some false → Q tt st → wp (release_guard (lk_of o)) Q (hold o st).
Proof.
  intros Hg HQ. apply wp_release_guard; [apply lookup_insert_eq|]. by rewrite release_hold.
Qed.
Lemma runs_not_blocked p e s : runs p e s → ¬ blocked s p.
Proof.
  intros (Hok & Hc & Hn & He) (e' & He' & Hs). destruct (ok_cur _ Hok) as [|(e2 & He2 & Hs2)]; [congruence|].
  rewrite Hc in He2. simplify_eq. rewrite Hs in Hs2. discriminate.
Qed.
Lemma runs_of s : ok s → cpu_proc s ≠ NULL → ∃ e, runs (cpu_proc s) e s.
Proof. intros Hok Hn. destruct (ok_cur _ Hok) as [|(e & He & _)]; [done|]. by exists e. Qed.

Lemma sleep_hold_spec o ch p e st :
  obj_ok o ch st → runs p e st.2.1 →
  wp (sleep_enter (chan_of o) (lk_of o)) (λ _ st', slept o ch p st st') (hold o st).
Proof.
  intros [Hg Hch Ho [_ Ha]] Hr. pose proof (runs_not_blocked _ _ _ Hr) as Hnb. destruct Hr as (Hok & Hc & Hn & He).
  eapply wp_mono; [apply (sleep_enter_spec _ _ p ch)|].
  - apply lookup_insert_eq.
  - unfold lk_of, NULL. lia.
  - done.
  - intros Hin. by apply Hnb, Ha.
  - cbn. rewrite (proj2 (ok_lock _ Hok)). by eapply ok_in_set, ok_ok_in.
  - done.
  - done.
  - intros r st' (Hok' & Hev & Hst). split_and!; [done| |].
    + destruct Hev as [H1 H2]. constructor; [exact H1|exact H2].
    + rewrite Hst. eexists. cbn. by rewrite insert_insert_eq, insert_id.
Qed.

Lemma wait_spec k sm ch p e st :
  obj_ok k ch st → runs p e st.2.1 → semaphores st.1 !! k = Some sm → in_int (count sm - 1) = true →
  let st1 := (set_semaphores (<[k := KSEM (count sm - 1) (sem_name sm)]> (semaphores st.1)) st.1, st.2) in
  wp (wait_ksemaphore k) (λ o st', match o with
    | Done => 0 ≤ count sm - 1 ∧ st' = st1
    | Suspended K _ => count sm - 1 < 0 ∧ K = K_ksemaphore p k ∧ slept k ch p st1 st'
    end) st.
Proof.
  intros [Hg Hch Ho Ha] Hr Hk Hi st1. unfold wait_ksemaphore.
  apply wp_bind, wp_acquire_hold; [done|]. apply wp_bind, (wp_add_count _ sm); [done|done|].
  change (count sm + -1) with (count sm - 1).
  change (set_semaphores _ (hold k st).1, (hold k st).2) with (hold k st1).
  case_decide as Hc.
  - apply wp_bind, wp_get_cpu_proc. apply wp_bind.
    eapply wp_mono; [by apply (sleep_hold_spec k ch p e st1)|]. intros r st' Hs. apply wp_ret.
    split_and!; [done| |done]. f_equal. apply Hr.
  - apply wp_bind, wp_release_hold; [done|]. apply wp_ret. split; [lia|done].
Qed.

Lemma signal_spec k sm ch st :
  obj_ok k ch st → ok st.2.1 → semaphores st.1 !! k = Some sm → in_int (count sm + 1) = true →
  let st1 := (set_semaphores (<[k := KSEM (count sm + 1) (sem_name sm)]> (semaphores st.1)) st.1, st.2) in
  (count sm + 1 ≤ 0 → queue ch ≠ []) →
  wp (signal_ksemaphore k) (λ _ st',
    (0 < count sm + 1 ∧ st' = st1) ∨
    (count sm + 1 ≤ 0 ∧ ∃ q p, queue ch = q ++ [p] ∧ awake k ch q [p] st1 st')) st.
Proof.
  intros [Hg Hch Ho Ha] Hok Hk Hi st1 Hq. unfold signal_ksemaphore.
  apply wp_bind, wp_acquire_hold; [done|]. apply wp_bind, (wp_add_count _ sm); [done|done|].
  change (set_semaphores _ (hold k st).1, (hold k st).2) with (hold k st1).
  apply wp_bind, wp_when; intros Hc.
  - apply bool_decide_eq_true in Hc. destruct (queue ch) as [|p q _] eqn:Heq using rev_ind; [by destruct Hq|].
    assert (Hok1 : ok_in (E:=E) 1 (hold k st1).2.1).
    { cbn. rewrite (proj2 (ok_lock _ Hok)). by eapply ok_in_set, ok_ok_in. }
    eapply wp_mono; [apply (wakeup_one_spec 1 (chan_of k) ch _ q p Hok1); [|done| |done]|].
    + unfold chan_of, NULL. lia.
    + by rewrite Heq.
    + intros _ st' (Hok' & Hcpu & Hev & cs & Hst).
      apply wp_release_guard; [rewrite Hst; apply lookup_insert_eq|]. right. split; [done|]. exists q, p. split; [done|].
      split_and!; [by apply ok_in_leave|done| |].
      * apply (evolve_ncli _ _ (ncli st.2.1 + 1)). eapply evolve_iff; [|exact Hev]. intros x. cbn.
        by rewrite list_elem_of_singleton.
      * rewrite Hst. eexists. cbn. by rewrite insert_insert_eq, insert_id.
  - apply bool_decide_eq_false in Hc. apply wp_release_hold; [done|]. left. split; [lia|done].
Qed.

Lemma acquire_loop_spec l k ch p e st :
  obj_ok l ch st → runs p e st.2.1 → sleeplocks st.1 !! l = Some k →
  wp (acquire_loop l) (λ o st', match o with
    | Done => locked k = 0 ∧
        st' = (set_sleeplocks (<[l := SLK 1 (lock_name k) (env_id e)]> (sleeplocks st.1)) st.1, st.2)
    | Suspended K _ => locked k ≠ 0 ∧ K = K_sleeplock p l ∧ slept l ch p st st'
    end) (hold l st).
Proof.
  intros Hobj Hr Hk. unfold acquire_loop. apply wp_bind, (wp_get_slk _ k); [done|]. case_decide as Hl.
  - apply wp_bind, wp_get_cpu_proc. apply wp_bind.
    eapply wp_mono; [by apply (sleep_hold_spec l ch p e st)|]. intros r st' Hs. apply wp_ret.
    split_and!; [done| |done]. f_equal. apply Hr.
  - apply wp_bind, (wp_put_slk _ k); [done|]. apply wp_bind, wp_get_cpu_proc.
    apply wp_bind, (wp_env_of _ e); [cbn; destruct Hr as (_ & -> & _ & He); exact He|].
    apply wp_bind, (wp_put_slk _ (SLK 1 (lock_name k) (pid k))); [apply lookup_insert_eq|]. cbn [fst snd lock_name].
    set (st1 := (set_sleeplocks (<[l := SLK 1 (lock_name k) (env_id e)]> (sleeplocks st.1)) st.1, st.2)).
    match goal with |- wp _ _ ?x => replace x with (hold l st1) end.
    2:{ unfold hold, st1, set_sleeplocks, set_guards. cbn. by rewrite insert_insert_eq. }
    apply wp_bind, wp_release_hold; [apply Hobj|]. apply wp_ret. split; [|done]. by destruct (decide (locked k = 0)).
Qed.

Lemma release_sleeplock_spec l k ch st :
  obj_ok l ch st → ok st.2.1 → sleeplocks st.1 !! l = Some k →
  wp (release_sleeplock l) (λ _ st', awake l ch [] (queue ch)
    (set_sleeplocks (<[l := SLK 0 (lock_name k) 0]> (sleeplocks st.1)) st.1, st.2) st') st.
Proof.
  intros [Hg Hch Ho Ha] Hok Hk. set (st1 := (set_sleeplocks _ _, _)). unfold release_sleeplock.
  apply wp_bind, wp_acquire_hold; [done|]. apply wp_bind, (wp_put_slk _ k); [done|].
  change (set_sleeplocks _ (hold l st).1, (hold l st).2) with (hold l st1).
  assert (Hok1 : ok_in (E:=E) 1 (hold l st1).2.1).
  { cbn. rewrite (proj2 (ok_lock _ Hok)). by eapply ok_in_set, ok_ok_in. }
  apply wp_bind. eapply wp_mono; [apply (wakeup_all_spec 1 (chan_of l) ch _ Hok1); [|done|done]|].
  - unfold chan_of, NULL. lia.
  - intros _ st' (Hok' & Hcpu & Hev & cs & Hst).
    apply wp_release_guard; [rewrite Hst; apply lookup_insert_eq|].
    split_and!; [by apply ok_in_leave|done| |].
    + by apply (evolve_ncli _ _ (ncli st.2.1 + 1)).
    + rewrite Hst. eexists. cbn. by rewrite insert_insert_eq, insert_id.
Qed.
Lemma holding_sleeplock_spec l k p e st :
  guards st.1 !! lk_of l = Some false → runs p e st.2.1 → sleeplocks st.1 !! l = Some k →
  holding_sleeplock l st = Ok (bool_decide (locked k ≠ 0 ∧ pid k = env_id e)) st.
Proof.
  intros Hg (_ & Hc & _ & He) Hk.
  assert (Hw : wp (holding_sleeplock l) (λ r st', r = bool_decide (locked k ≠ 0 ∧ pid k = env_id e) ∧ st' = st) st).
  { unfold holding_sleeplock. apply wp_bind, wp_acquire_hold; [done|]. apply wp_bind, (wp_get_slk _ k); [done|].
    apply wp_bind. case_decide as Hl.
    - apply wp_ret, wp_bind, wp_release_hold; [done|]. apply wp_ret. split; [|done]. symmetry. apply bool_decide_eq_false. tauto.
    - apply wp_bind, wp_get_cpu_proc. apply wp_bind, (wp_env_of _ e); [cbn; by rewrite Hc|]. apply wp_ret.
      apply wp_bind, wp_release_hold; [done|]. apply wp_ret. split; [|done]. apply bool_decide_ext. tauto. }
  apply wp_Ok in Hw as (? & ? & ? & -> & ->). done.
Qed.
End ops.

(** ** The system *)
#[global] Instance cont_eq_dec : EqDecision cont.
Proof. solve_decision. Defined.
Definition cont_env (k : cont) : Z := match k with K_sleeplock p _ => p | K_ksemaphore p _ => p end.
Definition cont_obj (k : cont) : Z := match k with K_sleeplock _ l => l | K_ksemaphore _ s => s end.

(** [conts] are the processes inside a call of [sleep]; [holders] the pairs of a
    sleep lock and a process that has acquired and not released it; [credits]
    counts the initial value and the signals of a semaphore, [waits] the waits
    begun and [passes] the waits that have returned. *)
Record sys (E : Type) := SYS {
  core : conc * (sched_state * E);
  conts : gmap Z cont;
  holders : gset (Z * Z);
  credits : gmap Z Z;
  waits : gmap Z Z;
  passes : gmap Z Z
}.
Arguments SYS {E} _ _ _ _ _ _.
Arguments core {E} _.
Arguments conts {E} _.
Arguments holders {E} _.
Arguments credits {E} _.
Arguments waits {E} _.
Arguments passes {E} _.

Inductive event :=
| EvInitLock (l : Z) (n : string)
| EvInitSem (k value : Z) (n : string)
| EvAcquire (l : Z)
| EvRelease (l : Z)
| EvWait (k : Z)
| EvSignal (k : Z)
| EvResume
| EvTick
| EvIdle.

Section system.
Context {E : Type} `{HS : SchedMem E}.
Notation ST := (conc * (sched_state * E))%type.
Notation Y := (M (sys E)).
Implicit Types y : sys E.

Definition set_core (c : ST) y : sys E := SYS c (conts y) (holders y) (credits y) (waits y) (passes y).
Definition set_conts (c : gmap Z cont) y : sys E := SYS (core y) c (holders y) (credits y) (waits y) (passes y).
Definition set_holders (h : gset (Z * Z)) y : sys E := SYS (core y) (conts y) h (credits y) (waits y) (passes y).
Definition bump (m : gmap Z Z) (k : Z) : gmap Z Z := <[k := m !!! k + 1]> m.
Definition bump_credits (k : Z) y : sys E := SYS (core y) (conts y) (holders y) (bump (credits y) k) (waits y) (passes y).
Definition bump_waits (k : Z) y : sys E := SYS (core y) (conts y) (holders y) (credits y) (bump (waits y) k) (passes y).
Definition bump_passes (k : Z) y : sys E := SYS (core y) (conts y) (holders y) (credits y) (waits y) (bump (passes y) k).
Definition start_sem (k v : Z) y : sys E :=
  SYS (core y) (conts y) (holders y) (<[k := v]> (credits y)) (<[k := 0]> (waits y)) (<[k := 0]> (passes y)).
Definition on_core {A} (c : M ST A) : Y A := zoom core set_core c.

(** The call [k] has returned, or its process sleeps. *)
Definition settle (k : cont) (o : outcome) : Y unit :=
  match o with
  | Done => match k with
            | K_sleeplock p l => modify (λ y, set_holders ({[(l, p)]} ∪ holders y) y)
            | K_ksemaphore _ s => modify (bump_passes s)
            end
  | Suspended k' _ => modify (λ y, set_conts (<[cont_env k' := k']> (conts y)) y)
  end.
Definition exec (ev : event) : Y unit :=
  match ev with
  | EvInitLock l n => on_core (init_sleeplock l n)
  | EvInitSem k v n => on_core (init_ksemaphore k v n) ;; modify (start_sem k v)
  | EvAcquire l =>
      p ← on_core get_cpu_proc; o ← on_core (acquire_sleeplock l); settle (K_sleeplock p l) o
  | EvRelease l =>
      p ← on_core get_cpu_proc; on_core (release_sleeplock l) ;;
      modify (λ y, set_holders (holders y ∖ {[(l, p)]}) y)
  | EvWait k =>
      p ← on_core get_cpu_proc; o ← on_core (wait_ksemaphore k);
      modify (bump_waits k) ;; settle (K_ksemaphore p k) o
  | EvSignal k => on_core (signal_ksemaphore k) ;; modify (bump_credits k)
  | EvResume =>
      p ← on_core get_cpu_proc; cs ← gets conts; k ← unwrap (cs !! p);
      modify (λ y, set_conts (delete p (conts y)) y) ;;
      o ← on_core (resume k); settle k o
  | EvTick => on_core (sch clock_interrupt_handler) ≫= λ _, mret ()
  | EvIdle => on_core (sch (r ← scheduler_outer; switched r))
  end.

(** The process on the CPU runs its own code. *)
Definition free_to_call y : Prop := cpu_proc (core y).2.1 ≠ NULL ∧ conts y !! cpu_proc (core y).2.1 = None.
Definition is_obj (o : Z) (c : conc) : Prop := is_Some (sleeplocks c !! o) ∨ is_Some (semaphores c !! o).
(** What the callers see to: objects are initialised once, at an address, with
    names that fit; a lock is released by the process that has it; the counts
    stay in the range of [int]. *)
Definition ev_pre (ev : event) y : Prop :=
  let c := (core y).1 in
  match ev with
  | EvInitLock l n => 0 < l ∧ ¬ is_obj l c ∧ (String.length n < 44)%nat
  | EvInitSem k v n => 0 < k ∧ ¬ is_obj k c ∧ 0 ≤ v ∧ (String.length n < 64)%nat
  | EvAcquire l => free_to_call y ∧ is_Some (sleeplocks c !! l)
  | EvRelease l => free_to_call y ∧ is_Some (sleeplocks c !! l) ∧ (l, cpu_proc (core y).2.1) ∈ holders y
  | EvWait k => free_to_call y ∧ ∃ sm, semaphores c !! k = Some sm ∧ in_int (count sm - 1) = true
  | EvSignal k => ∃ sm, semaphores c !! k = Some sm ∧ in_int (count sm + 1) = true
  | EvResume => cpu_proc (core y).2.1 ≠ NULL ∧ is_Some (conts y !! cpu_proc (core y).2.1)
  | EvTick => cpu_proc (core y).2.1 ≠ NULL
  | EvIdle => cpu_proc (core y).2.1 = NULL
  end.
Inductive run y : sys E → Prop :=
| run_refl : run y y
| run_step y1 y2 ev : run y y1 → ev_pre ev y1 → exec ev y1 = Ok tt y2 → run y y2.

(** Nothing is initialised yet and nobody sleeps. *)
Definition start (t : sched_state * E) : sys E := SYS (CONC ∅ ∅ ∅ ∅ ∅, t) ∅ ∅ ∅ ∅ ∅.
End system.

(** ** The invariant *)
(** The calls of [wait_ksemaphore] of semaphore [k] in progress. *)
Definition pending (k : Z) (cs : gmap Z cont) : nat :=
  size (filter (λ x : Z * cont, x.2 = K_ksemaphore x.1 k) cs).
(** Who sleeps where. *)
Record sleepers (c : conc) (s : sched_state) (cs : gmap Z cont) : Prop := {
  sl_queue : ∀ a ch, channels c !! a = Some ch →
    NoDup (queue ch) ∧ ∀ p, p ∈ queue ch ↔ blocked s p ∧ ∃ k, cs !! p = Some k ∧ chan_of (cont_obj k) = a;
  sl_cont : ∀ p k, cs !! p = Some k → cont_env k = p ∧
    match k with K_sleeplock _ l => is_Some (sleeplocks c !! l) | K_ksemaphore _ m => is_Some (semaphores c !! m) end;
  sl_blocked : ∀ p, blocked s p → is_Some (cs !! p)
}.
Record objects (c : conc) : Prop := {
  oj_guards : ∀ l b, guards c !! l = Some b → b = false;
  oj_obj : ∀ o, is_obj o c → 0 < o ∧ guards c !! lk_of o = Some false ∧ is_Some (channels c !! chan_of o);
  oj_disj : ∀ o, is_Some (sleeplocks c !! o) → semaphores c !! o = None
}.
Definition queue_at (c : conc) (o : Z) : list Z := from_option queue [] (channels c !! chan_of o).
(** A sleep lock is free and nobody waits for it, or one process has it. *)
Definition slk_ok (c : conc) (s : sched_state) (h : gset (Z * Z)) (l : Z) (k : sleeplock) : Prop :=
  (locked k = 0 ∧ (∀ p, (l, p) ∉ h) ∧ queue_at c l = []) ∨
  (locked k = 1 ∧ ∃ p, (∀ q, (l, q) ∈ h ↔ q = p) ∧ env_id <$> envs s !! p = Some (pid k)).
Definition sem_ok (c : conc) (cs : gmap Z cont) (cr w pa : gmap Z Z) (k : Z) (sm : ksemaphore) : Prop :=
  Z.of_nat (length (queue_at c k)) = Z.max 0 (- count sm) ∧
  count sm = cr !!! k - w !!! k ∧ w !!! k = pa !!! k + Z.of_nat (pending k cs).
Record sys_inv {E} `{SchedMem E} (y : sys E) : Prop := {
  iv_ok : sched_ok (E:=E) (core y).2.1;
  iv_obj : objects (core y).1;
  iv_sleep : sleepers (core y).1 (core y).2.1 (conts y);
  iv_holders : ∀ l p, (l, p) ∈ holders y → is_Some (sleeplocks (core y).1 !! l);
  iv_slk : ∀ l k, sleeplocks (core y).1 !! l = Some k → slk_ok (core y).1 (core y).2.1 (holders y) l k;
  iv_sem : ∀ k sm, semaphores (core y).1 !! k = Some sm →
    sem_ok (core y).1 (conts y) (credits y) (waits y) (passes y) k sm
}.
