(* ===== verification/ConcInv.v ===== *)
(** * The invariant of the system of semaphores and sleep locks

    Every event of the system of ConcSys.v returns and keeps the invariant, and
    what it does to the queue of a semaphore. *)

From S2P Require Import Prelude Queue Sched SchedSpec Conc ConcSpec ConcSys.

(** ** Single changes *)
Lemma queue_at_insert c c' o q n l :
  channels c' = <[chan_of o := CH q n]> (channels c) → queue_at c' l = if decide (l = o) then q else queue_at c l.
Proof.
  intros Hc. unfold queue_at. rewrite Hc. case_decide as Hl.
  - subst. by rewrite lookup_insert_eq.
  - rewrite lookup_insert_ne; [done|]. unfold chan_of. lia.
Qed.
Lemma queue_at_conc c g sm sl cs o q n l :
  queue_at (CONC g (<[chan_of o := CH q n]> (channels c)) sm sl cs) l = if decide (l = o) then q else queue_at c l.
Proof. by eapply queue_at_insert. Qed.
Lemma queue_at_eq c o ch : channels c !! chan_of o = Some ch → queue_at c o = queue ch.
Proof. unfold queue_at. by intros ->. Qed.

Lemma pending_insert k p K cs :
  cs !! p = None → pending k (<[p := K]> cs) = (pending k cs + if decide (K = K_ksemaphore p k) then 1 else 0)%nat.
Proof.
  intros Hp. unfold pending. case_decide as HK.
  - rewrite map_filter_insert_True by done. rewrite map_size_insert_None; [lia|].
    apply map_lookup_filter_None. by left.
  - rewrite map_filter_insert_not' by (simpl; naive_solver). lia.
Qed.
Lemma pending_delete k p K cs :
  cs !! p = Some K → pending k cs = (pending k (delete p cs) + if decide (K = K_ksemaphore p k) then 1 else 0)%nat.
Proof. intros Hp. rewrite <- (pending_insert k p K) by apply lookup_delete_eq. by rewrite insert_delete_id. Qed.

(** The keys and the spin locks are those of [c]. *)
Record same_objects (c c' : conc) : Prop := {
  so_guards : guards c' = guards c;
  so_chan : ∀ a, is_Some (channels c !! a) → is_Some (channels c' !! a);
  so_slk : ∀ o, is_Some (sleeplocks c' !! o) ↔ is_Some (sleeplocks c !! o);
  so_sem : ∀ o, is_Some (semaphores c' !! o) ↔ is_Some (semaphores c !! o)
}.
Lemma objects_same c c' : same_objects c c' → objects c → objects c'.
Proof.
  intros [H1 H2 H3 H4] [A1 A2 A3]. constructor.
  - by rewrite H1.
  - intros o Ho. destruct (A2 o) as (? & ? & ?).
    { destruct Ho; [left; by apply H3|right; by apply H4]. }
    rewrite H1. auto.
  - intros o Ho. destruct (semaphores c' !! o) eqn:He; [|done].
    assert (is_Some (semaphores c !! o)) as [? Hs] by (apply H4; eauto). apply H3, A3 in Ho. congruence.
Qed.
Lemma insert_is_Some {A} (m : gmap Z A) i j x : is_Some (m !! j) → is_Some (<[i := x]> m !! j).
Proof.
  intros Hj. destruct (decide (i = j)) as [->|]; [rewrite lookup_insert_eq; eauto|by rewrite lookup_insert_ne].
Qed.
Lemma insert_is_Some_iff {A} (m : gmap Z A) i j x : is_Some (m !! i) → is_Some (<[i := x]> m !! j) ↔ is_Some (m !! j).
Proof.
  intros Hi. destruct (decide (i = j)) as [->|]; [rewrite lookup_insert_eq; naive_solver|by rewrite lookup_insert_ne].
Qed.

(** ** Who sleeps where *)
Section sleepers.
Implicit Types (s : sched_state) (c : conc) (cs : gmap Z cont).

Lemma sleepers_cont c c' cs :
  (∀ o, is_Some (sleeplocks c !! o) → is_Some (sleeplocks c' !! o)) →
  (∀ o, is_Some (semaphores c !! o) → is_Some (semaphores c' !! o)) →
  (∀ p k, cs !! p = Some k → cont_env k = p ∧
    match k with K_sleeplock _ l => is_Some (sleeplocks c !! l) | K_ksemaphore _ m => is_Some (semaphores c !! m) end) →
  (∀ p k, cs !! p = Some k → cont_env k = p ∧
    match k with K_sleeplock _ l => is_Some (sleeplocks c' !! l) | K_ksemaphore _ m => is_Some (semaphores c' !! m) end).
Proof. intros H1 H2 H p k Hk. destruct (H p k Hk) as [? Hx]. split; [done|]. destruct k; auto. Qed.

Lemma sleepers_same c c' s s' cs :
  channels c' = channels c → (∀ o, is_Some (sleeplocks c !! o) → is_Some (sleeplocks c' !! o)) →
  (∀ o, is_Some (semaphores c !! o) → is_Some (semaphores c' !! o)) →
  evolve s s' (blocked s) → sleepers c s cs → sleepers c' s' cs.
Proof.
  intros H1 H2 H3 [_ Hb] [A1 A2 A3]. constructor.
  - intros a ch. rewrite H1. intros Hch. destruct (A1 a ch Hch) as [? Hq]. split; [done|].
    intros p. rewrite Hq. unfold blocked at 2. by rewrite Hb.
  - by eapply sleepers_cont.
  - intros p Hp. apply A3. by apply Hb.
Qed.
Lemma sleepers_delete c s cs p : ¬ blocked s p → sleepers c s cs → sleepers c s (delete p cs).
Proof.
  intros Hp [A1 A2 A3]. constructor.
  - intros a ch Hch. destruct (A1 a ch Hch) as [? Hq]. split; [done|]. intros x. rewrite Hq.
    destruct (decide (x = p)) as [->|Hx]; [tauto|]. by rewrite lookup_delete_ne.
  - intros x k [Hx Hk]%lookup_delete_Some. by apply A2.
  - intros x Hx. rewrite lookup_delete_ne; [by apply A3|]. by intros ->.
Qed.
Lemma sleepers_sleep c c' s s' cs p k ch :
  ¬ blocked s p → cs !! p = None → cont_env k = p → channels c !! chan_of (cont_obj k) = Some ch →
  match k with K_sleeplock _ l => is_Some (sleeplocks c !! l) | K_ksemaphore _ m => is_Some (semaphores c !! m) end →
  channels c' = <[chan_of (cont_obj k) := CH (p :: queue ch) (chan_name ch)]> (channels c) →
  (∀ o, is_Some (sleeplocks c !! o) → is_Some (sleeplocks c' !! o)) →
  (∀ o, is_Some (semaphores c !! o) → is_Some (semaphores c' !! o)) →
  evolve s s' (λ x, blocked s x ∨ x = p) → sleepers c s cs → sleepers c' s' (<[p := k]> cs).
Proof.
  intros Hp Hcs Hk Hch Hobj Hc' H2 H3 [_ Hb] [A1 A2 A3].
  assert (Hx : ∀ x a, (blocked s' x ∧ ∃ k', <[p := k]> cs !! x = Some k' ∧ chan_of (cont_obj k') = a) ↔
     (x = p ∧ chan_of (cont_obj k) = a) ∨ (blocked s x ∧ ∃ k', cs !! x = Some k' ∧ chan_of (cont_obj k') = a)).
  { intros x a. unfold blocked at 1. rewrite Hb. destruct (decide (x = p)) as [->|Hne].
    - rewrite lookup_insert_eq, Hcs. naive_solver.
    - rewrite lookup_insert_ne by done. naive_solver. }
  constructor.
  - intros a ch'. rewrite Hc'. intros [[<- <-]|[Hne Ha]]%lookup_insert_Some; cbn [queue].
    + destruct (A1 _ _ Hch) as [Hnd Hq]. split.
      * constructor; [|done]. rewrite Hq. tauto.
      * intros x. rewrite Hx, elem_of_cons, Hq. tauto.
    + destruct (A1 _ _ Ha) as [Hnd Hq]. split; [done|]. intros x. rewrite Hx, Hq. naive_solver.
  - apply (sleepers_cont c c'); [done|done|]. intros x k' [[<- <-]|[Hne Hx']]%lookup_insert_Some; [done|by apply A2].
  - intros x Hx'. destruct (decide (x = p)) as [->|Hne]; [rewrite lookup_insert_eq; eauto|].
    rewrite lookup_insert_ne by done. apply A3. by destruct (proj1 (Hb x) Hx').
Qed.
Lemma sleepers_wake c c' s s' cs o ch q W :
  channels c !! chan_of o = Some ch → queue ch = q ++ W →
  channels c' = <[chan_of o := CH q (chan_name ch)]> (channels c) →
  (∀ o, is_Some (sleeplocks c !! o) → is_Some (sleeplocks c' !! o)) →
  (∀ o, is_Some (semaphores c !! o) → is_Some (semaphores c' !! o)) →
  evolve s s' (λ x, blocked s x ∧ x ∉ W) → sleepers c s cs → sleepers c' s' cs.
Proof.
  intros Hch HqW Hc' H2 H3 [_ Hb] [A1 A2 A3]. destruct (A1 _ _ Hch) as [Hnd Hq]. rewrite HqW in Hnd, Hq.
  apply NoDup_app in Hnd as (Hnd & Hd & _).
  assert (HW : ∀ x, x ∈ W → ∃ k, cs !! x = Some k ∧ chan_of (cont_obj k) = chan_of o).
  { intros x Hx. apply Hq. apply elem_of_app. by right. }
  constructor.
  - intros a ch'. rewrite Hc'. intros [[<- <-]|[Hne Ha]]%lookup_insert_Some; cbn [queue].
    + split; [done|]. intros x. unfold blocked. rewrite Hb. pose proof (Hq x) as Hqx. rewrite elem_of_app in Hqx.
      pose proof (Hd x). tauto.
    + destruct (A1 _ _ Ha) as [Hnd' Hq']. split; [done|]. intros x. rewrite Hq'. unfold blocked at 2. rewrite Hb. split.
      * intros (Hbx & k & Hk & Hka). split; [split; [done|]|by exists k].
        intros HxW. destruct (HW x HxW) as (k' & Hk' & ?). congruence.
      * tauto.
  - by apply (sleepers_cont c c').
  - intros x Hx. apply A3. by apply Hb.
Qed.
End sleepers.

(** ** The objects *)
Lemma slk_ok_frame c c' s s' h h' l k :
  (locked k = 0 → queue_at c l = [] → queue_at c' l = []) → (∀ p, (l, p) ∈ h' ↔ (l, p) ∈ h) →
  (∀ p, env_id <$> envs s' !! p = env_id <$> envs s !! p) → slk_ok c s h l k → slk_ok c' s' h' l k.
Proof.
  intros Hq Hh Hid [(H1 & H2 & H3)|(H1 & p & H2 & H3)]; [left|right].
  - split_and!; [done| |by apply Hq]. intros p. by rewrite Hh.
  - split; [done|]. exists p. split; [intros q; by rewrite Hh|by rewrite Hid].
Qed.
Lemma sem_ok_frame c c' cs cs' cr w pa k sm :
  queue_at c' k = queue_at c k → pending k cs' = pending k cs → sem_ok c cs cr w pa k sm → sem_ok c' cs' cr w pa k sm.
Proof. unfold sem_ok. by intros -> ->. Qed.
Lemma bump_eq m k : bump m k !!! k = m !!! k + 1.
Proof. unfold bump. by rewrite lookup_total_insert_eq. Qed.
Lemma bump_ne m k j : j ≠ k → bump m k !!! j = m !!! j.
Proof. intros. unfold bump. by rewrite lookup_total_insert_ne. Qed.

Section system.
Context {E : Type} `{HS : SchedMem E}.
Notation ST := (conc * (sched_state * E))%type.
Notation Y := (M (sys E)).
Implicit Types y : sys E.
Implicit Types st : ST.
Notation ok := (sched_ok (E:=E)).
Notation inv := (sys_inv (E:=E)).

Lemma wp_on_core {A} (c : M ST A) Q y : wp c (λ a t, Q a (set_core t y)) (core y) → wp (on_core c) Q y.
Proof. unfold wp, on_core, zoom. by destruct (c (core y)). Qed.
Lemma wp_on_core_proc Q y : Q (cpu_proc (core y).2.1) y → wp (on_core get_cpu_proc) Q y.
Proof. intros HQ. apply wp_on_core, wp_get_cpu_proc. by destruct y. Qed.

Lemma inv_obj_ok y o : inv y → is_obj o (core y).1 → ∃ ch, obj_ok o ch (core y).
Proof.
  intros [_ Ho Hsl _ _ _] Hobj. destruct (oj_obj _ Ho o Hobj) as (Hpos & Hg & ch & Hch). exists ch.
  constructor; [done..|]. destruct (sl_queue _ _ _ Hsl _ _ Hch) as [Hnd Hq]. split; [done|].
  intros p Hp. by apply Hq.
Qed.
(** A change after which the scheduler, the sleepers and the keys are right. *)
Lemma inv_step y y' P :
  inv y → ok (core y').2.1 → same_objects (core y).1 (core y').1 →
  evolve (core y).2.1 (core y').2.1 P → sleepers (core y').1 (core y').2.1 (conts y') →
  (∀ l p, (l, p) ∈ holders y' → is_Some (sleeplocks (core y).1 !! l)) →
  (∀ l k', sleeplocks (core y').1 !! l = Some k' → slk_ok (core y').1 (core y').2.1 (holders y') l k') →
  (∀ k sm', semaphores (core y').1 !! k = Some sm' →
     sem_ok (core y').1 (conts y') (credits y') (waits y') (passes y') k sm') → inv y'.
Proof.
  intros [A1 A2 A3 A4 A5 A6] Hok Hso Hev Hsl Hh Hslk Hsem. constructor; try done.
  - by eapply objects_same.
  - intros l p Hlp. apply (so_slk _ _ Hso). by eapply Hh.
Qed.

(** [acquire_sleeplock] has run to its end or to its [sleep]. *)
Lemma sleeplock_settle y p e l k ch o st' :
  inv y → runs p e (core y).2.1 → conts y !! p = None → sleeplocks (core y).1 !! l = Some k → obj_ok l ch (core y) →
  match o with
  | Done => locked k = 0 ∧ st' = (set_sleeplocks (<[l := SLK 1 (lock_name k) (env_id e)]> (sleeplocks (core y).1)) (core y).1, (core y).2)
  | Suspended K _ => locked k ≠ 0 ∧ K = K_sleeplock p l ∧ slept l ch p (core y) st'
  end →
  wp (settle (K_sleeplock p l) o) (λ _ y', inv y') (set_core st' y).
Proof.
  intros Hinv Hr Hcp Hk Hobj Ho. pose proof Hinv as [A1 A2 A3 A4 A5 A6].
  assert (Hl : is_Some (sleeplocks (core y).1 !! l)) by eauto.
  destruct o as [|K r]; cbn [settle].
  - destruct Ho as [Hl0 ->]. apply wp_modify.
    assert (Hso : ∀ o, is_Some (<[l := SLK 1 (lock_name k) (env_id e)]> (sleeplocks (core y).1) !! o) ↔
      is_Some (sleeplocks (core y).1 !! o)) by (intros o; by apply insert_is_Some_iff).
    destruct (A5 l k Hk) as [(_ & Hnh & Hq)|[? _]]; [|congruence].
    eapply (inv_step y _ _ Hinv); [exact A1| |apply evolve_refl| | | |]; cbn.
    + constructor; cbn; done.
    + eapply sleepers_same; [..|exact A3]; [done| |done|apply evolve_refl]. intros o. cbn. by rewrite Hso.
    + intros l' p' [Hin|Hin]%elem_of_union; [|by eapply A4].
      apply elem_of_singleton in Hin. by injection Hin as -> ->.
    + intros l' k' [[<- <-]|[Hne Hk']]%lookup_insert_Some.
      * right. split; [done|]. exists p. split.
        -- intros q. rewrite elem_of_union, elem_of_singleton. pose proof (Hnh q). naive_solver.
        -- destruct Hr as (_ & _ & _ & He). cbn. by rewrite He.
      * eapply slk_ok_frame; [| | |by apply A5]; [done| |done].
        intros q. rewrite elem_of_union, elem_of_singleton. naive_solver.
    + intros m sm Hm. by apply A6.
  - destruct Ho as (Hl0 & -> & Hok' & Hev & cs & Hst). apply wp_modify.
    pose proof (runs_not_blocked _ _ _ Hr) as Hnb.
    eapply (inv_step y _ _ Hinv); [exact Hok'| |exact Hev| |exact A4| |]; cbn; rewrite Hst; cbn.
    + constructor; cbn; try done. intros a. apply insert_is_Some.
    + eapply (sleepers_sleep _ _ _ _ _ p (K_sleeplock p l) ch); [done|done|done|apply Hobj|done|done|done|done|exact Hev|exact A3].
    + intros l' k' Hk'. eapply slk_ok_frame; [| |apply Hev|by apply A5]; [|done].
      intros Hk0 Hq. rewrite queue_at_conc. case_decide as Hll; [|done].
      subst l'. rewrite Hk in Hk'. by injection Hk' as <-.
    + intros m sm Hm. eapply sem_ok_frame; [| |by apply A6].
      * rewrite queue_at_conc. rewrite decide_False; [done|].
        intros ->. rewrite (oj_disj _ A2 l Hl) in Hm. done.
      * rewrite pending_insert by done. rewrite decide_False by done. lia.
Qed.

Lemma semaphore_settle y p e m sm ch o st' :
  inv y → runs p e (core y).2.1 → conts y !! p = None → semaphores (core y).1 !! m = Some sm → obj_ok m ch (core y) →
  let st1 := (set_semaphores (<[m := KSEM (count sm - 1) (sem_name sm)]> (semaphores (core y).1)) (core y).1, (core y).2) in
  match o with
  | Done => 0 ≤ count sm - 1 ∧ st' = st1
  | Suspended K _ => count sm - 1 < 0 ∧ K = K_ksemaphore p m ∧ slept m ch p st1 st'
  end →
  wp (settle (K_ksemaphore p m) o) (λ _ y', inv y') (bump_waits m (set_core st' y)).
Proof.
  intros Hinv Hr Hcp Hm Hobj st1 Ho. pose proof Hinv as [A1 A2 A3 A4 A5 A6].
  assert (Hmo : is_Some (semaphores (core y).1 !! m)) by eauto.
  assert (Hso : ∀ o, is_Some (<[m := KSEM (count sm - 1) (sem_name sm)]> (semaphores (core y).1) !! o) ↔
      is_Some (semaphores (core y).1 !! o)) by (intros x; by apply insert_is_Some_iff).
  destruct (A6 m sm Hm) as (Hq & Hcount & Hw). rewrite (queue_at_eq _ _ ch) in Hq by apply Hobj.
  destruct o as [|K r]; cbn [settle].
  - destruct Ho as [Hc ->]. apply wp_modify. eapply (inv_step y _ _ Hinv); [exact A1| |apply evolve_refl| |exact A4| |]; cbn.
    + constructor; cbn; done.
    + eapply sleepers_same; [..|exact A3]; [done|done| |apply evolve_refl]. intros o. cbn. by rewrite Hso.
    + intros l k Hk. by eapply slk_ok_frame; [| | |by apply A5].
    + intros m' sm' [[<- <-]|[Hne Hm']]%lookup_insert_Some; unfold sem_ok; cbn [count].
      * rewrite !bump_eq. change (queue_at _ m) with (queue_at (core y).1 m). rewrite (queue_at_eq _ _ ch) by apply Hobj. lia.
      * rewrite !bump_ne by done. by apply A6.
  - destruct Ho as (Hc & -> & Hok' & Hev & cs & Hst). apply wp_modify.
    pose proof (runs_not_blocked _ _ _ Hr) as Hnb.
    eapply (inv_step y _ _ Hinv); [exact Hok'| |exact Hev| |exact A4| |]; cbn; rewrite Hst; cbn.
    + constructor; cbn; [done| |done|done]. intros a. apply insert_is_Some.
    + eapply (sleepers_sleep _ _ _ _ _ p (K_ksemaphore p m) ch); [done|done|done|apply Hobj|done|done|done| |exact Hev|exact A3].
      intros o. cbn. by rewrite Hso.
    + intros l k Hk. eapply slk_ok_frame; [| |apply Hev|by apply A5]; [|done].
      intros Hk0 Hql. rewrite queue_at_conc. case_decide as Hll; [|done].
      subst l. rewrite (oj_disj _ A2 m) in Hm by eauto. done.
    + intros m' sm' [[<- <-]|[Hne Hm']]%lookup_insert_Some; unfold sem_ok; cbn [count].
      * rewrite queue_at_conc, decide_True by done. rewrite bump_eq.
        rewrite pending_insert, decide_True by done. cbn [length]. lia.
      * destruct (A6 m' sm' Hm') as (Hq' & Hcount' & Hw').
        rewrite queue_at_conc, decide_False by done. rewrite bump_ne by done.
        rewrite pending_insert, decide_False by (done || congruence). cbn. split_and!; [exact Hq'|lia|lia].
Qed.

(** ** The events *)
(** Only the scheduler's state changes. *)
Lemma inv_sched y t :
  inv y → ok t.1 → evolve (core y).2.1 t.1 (blocked (core y).2.1) → inv (set_core ((core y).1, t) y).
Proof.
  intros Hinv Hok Hev. pose proof Hinv as [A1 A2 A3 A4 A5 A6].
  eapply (inv_step y _ _ Hinv); [exact Hok|by constructor|exact Hev| |exact A4| |exact A6]; cbn.
  - by eapply sleepers_same; [..|exact A3].
  - intros l k Hk. by eapply slk_ok_frame; [| |apply Hev|by apply A5].
Qed.
Lemma tick_inv `{!SchedMemLaws E} y :
  inv y → cpu_proc (core y).2.1 ≠ NULL → wp (exec EvTick) (λ _ y', inv y') y.
Proof.
  intros Hinv Hn. apply wp_bind, wp_on_core, wp_sch. pose proof (iv_ok _ Hinv) as Hok.
  eapply wp_mono; [by apply clock_spec|]. cbn. intros r t [Hok' (r' & _ & Ht)]. apply wp_ret.
  apply inv_sched; [done|done|]. by eapply tick_evolve.
Qed.
Lemma idle_inv y : inv y → cpu_proc (core y).2.1 = NULL → wp (exec EvIdle) (λ _ y', inv y') y.
Proof.
  intros Hinv Hc. apply wp_on_core, wp_sch. pose proof (iv_ok _ Hinv) as Hok. set (s := (core y).2.1) in *.
  assert (Hwf1 : sched_wf (E:=E) (lock s)) by (eapply wf_frame; [..|apply Hok]; done).
  assert (Hc1 : cur_ready (lock s)) by (by left).
  apply wp_bind. unfold scheduler_outer. apply wp_bind, wp_acquire_qlock; [apply (ok_lock _ Hok)|].
  eapply wp_mono; [by apply scheduler_round_spec|]. cbn [fst snd]. intros r t [Hr Hm].
  eapply (wp_switched (lock s)); [exact Hr|done|]. intros t' Hd _.
  apply inv_sched; [done| |].
  - eapply dispatched_ok; [exact Hwf1|exact Hc1| | |exact Hd].
    + cbn. by rewrite (proj2 (ok_lock _ Hok)).
    + intros p Hp. left. by apply (ok_stray _ Hok).
  - destruct (dispatched_evolve _ _ _ Hwf1 Hc1 Hd) as [H1 H2]. constructor; [exact H1|exact H2].
Qed.

Lemma acquire_inv y l :
  inv y → ev_pre (EvAcquire l) y → wp (exec (EvAcquire l)) (λ _ y', inv y') y.
Proof.
  intros Hinv [[Hn Hcp] [k Hk]]. pose proof (iv_ok _ Hinv) as Hok.
  destruct (runs_of _ Hok Hn) as [e Hr]. destruct (inv_obj_ok y l Hinv) as [ch Hobj]; [left; eauto|].
  cbn [exec]. apply wp_bind, wp_on_core_proc, wp_bind, wp_on_core. unfold acquire_sleeplock.
  apply wp_bind, wp_acquire_hold; [apply Hobj|].
  eapply wp_mono; [by eapply (acquire_loop_spec l k ch)|]. intros o st' Ho.
  by eapply (sleeplock_settle y).
Qed.
Lemma wait_inv y k :
  inv y → ev_pre (EvWait k) y → wp (exec (EvWait k)) (λ _ y', inv y') y.
Proof.
  intros Hinv [[Hn Hcp] (sm & Hk & Hi)]. pose proof (iv_ok _ Hinv) as Hok.
  destruct (runs_of _ Hok Hn) as [e Hr]. destruct (inv_obj_ok y k Hinv) as [ch Hobj]; [right; eauto|].
  cbn [exec]. apply wp_bind, wp_on_core_proc, wp_bind, wp_on_core.
  eapply wp_mono; [by eapply (wait_spec k sm ch)|]. intros o st' Ho.
  apply wp_bind, wp_modify. by eapply (semaphore_settle y).
Qed.

(** The processes [W] of the queue of object [o] are woken; [c1] is the object's new state. *)
Lemma awake_inv y c1 o ch q W st' y' :
  inv y → obj_ok o ch (core y) → queue ch = q ++ W → awake o ch q W (c1, (core y).2) st' →
  guards c1 = guards (core y).1 → channels c1 = channels (core y).1 →
  (∀ x, is_Some (sleeplocks c1 !! x) ↔ is_Some (sleeplocks (core y).1 !! x)) →
  (∀ x, is_Some (semaphores c1 !! x) ↔ is_Some (semaphores (core y).1 !! x)) →
  core y' = st' → conts y' = conts y →
  (∀ l p, (l, p) ∈ holders y' → is_Some (sleeplocks (core y).1 !! l)) →
  (∀ l k', sleeplocks c1 !! l = Some k' → slk_ok st'.1 st'.2.1 (holders y') l k') →
  (∀ k sm', semaphores c1 !! k = Some sm' →
     sem_ok st'.1 (conts y) (credits y') (waits y') (passes y') k sm') → inv y'.
Proof.
  intros Hinv Hobj Hq (Hok & Hcpu & Hev & cs & Hst) Hg Hc Hsl Hsm Hcore Hconts Hh Hslk Hsem.
  eapply (inv_step y _ _ Hinv); rewrite ?Hcore, ?Hconts; [done| |exact Hev| |done| |].
  - rewrite Hst. constructor; cbn; [done| |done|done]. intros a. rewrite Hc. apply insert_is_Some.
  - eapply sleepers_wake; [apply Hobj|exact Hq| | | |exact Hev|apply Hinv]; rewrite Hst; cbn; [by rewrite Hc|..].
    + intros x. by rewrite Hsl.
    + intros x. by rewrite Hsm.
  - intros l k'. rewrite Hst at 1. apply Hslk.
  - intros k sm'. rewrite Hst at 1. apply Hsem.
Qed.
Lemma awake_queue_at c1 o ch q W t st' x :
  awake o ch q W (c1, t) st' → queue_at st'.1 x = if decide (x = o) then q else queue_at c1 x.
Proof. intros (_ & _ & _ & cs & Hst). cbn in Hst. rewrite Hst. by rewrite queue_at_conc. Qed.

Lemma release_inv y l :
  inv y → ev_pre (EvRelease l) y → wp (exec (EvRelease l)) (λ _ y', inv y') y.
Proof.
  intros Hinv (Hf & [k Hk] & Hh). pose proof Hinv as [A1 A2 A3 A4 A5 A6].
  destruct (inv_obj_ok y l Hinv) as [ch Hobj]; [left; eauto|].
  cbn [exec]. apply wp_bind, wp_on_core_proc, wp_bind, wp_on_core.
  eapply wp_mono; [by apply (release_sleeplock_spec l k ch)|]. cbv beta. intros _ st' Haw. apply wp_modify.
  pose proof (λ x, awake_queue_at _ _ _ _ _ _ _ x Haw) as Hqa.
  assert (Hown : ∀ q, (l, q) ∈ holders y ↔ q = cpu_proc (core y).2.1).
  { destruct (A5 l k Hk) as [(_ & Hx & _)|(_ & p & Hp & _)]; [by destruct (Hx _ Hh)|].
    intros q. rewrite Hp. apply Hp in Hh. by subst. }
  assert (Hev : ∀ p, env_id <$> envs st'.2.1 !! p = env_id <$> envs (core y).2.1 !! p) by apply Haw.
  eapply (awake_inv y _ l ch [] (queue ch) st'); [done|done|done|exact Haw|done|done| |done|done|done| | |].
  - intros x. apply insert_is_Some_iff. eauto.
  - intros l' p'. cbn. intros [Hin _]%elem_of_difference. by eapply A4.
  - intros l' k'. cbn [sleeplocks set_sleeplocks]. intros [[<- <-]|[Hne Hk']]%lookup_insert_Some; cbn [holders set_holders].
    + left. split_and!; [done| |by rewrite Hqa, decide_True].
      intros q. cbn. rewrite elem_of_difference, elem_of_singleton, Hown. naive_solver.
    + eapply slk_ok_frame; [| |exact Hev|by apply A5].
      * intros _ Hq. by rewrite Hqa, decide_False.
      * intros q. cbn. rewrite elem_of_difference, elem_of_singleton. naive_solver.
  - intros m sm Hm. eapply sem_ok_frame; [| |by apply A6]; [|done]. rewrite Hqa. case_decide as Hml; [|done].
    subst m. cbn in Hm. rewrite (oj_disj _ A2 l) in Hm by eauto. done.
Qed.

Lemma signal_inv y k :
  inv y → ev_pre (EvSignal k) y → wp (exec (EvSignal k)) (λ _ y', inv y') y.
Proof.
  intros Hinv (sm & Hk & Hi). pose proof Hinv as [A1 A2 A3 A4 A5 A6].
  destruct (inv_obj_ok y k Hinv) as [ch Hobj]; [right; eauto|].
  assert (Hso : ∀ o, is_Some (<[k := KSEM (count sm + 1) (sem_name sm)]> (semaphores (core y).1) !! o) ↔
      is_Some (semaphores (core y).1 !! o)) by (intros x; apply insert_is_Some_iff; eauto).
  destruct (A6 k sm Hk) as (Hq & Hcount & Hw). rewrite (queue_at_eq _ _ ch) in Hq by apply Hobj.
  cbn [exec]. apply wp_bind, wp_on_core.
  eapply wp_mono; [apply (signal_spec k sm ch); [done..|]|].
  { intros Hc Hn. rewrite Hn in Hq. cbn in Hq. lia. }
  intros _ st' [[Hc ->]|(Hc & q & p & Hqe & Haw)]; apply wp_modify.
  - eapply (inv_step y _ _ Hinv); [exact A1| |apply evolve_refl| |exact A4| |]; cbn.
    + constructor; cbn; done.
    + eapply sleepers_same; [..|exact A3]; [done|done| |apply evolve_refl]. intros o. cbn. by rewrite Hso.
    + intros l k' Hk'. by eapply slk_ok_frame; [| | |by apply A5].
    + intros m sm' [[<- <-]|[Hne Hm']]%lookup_insert_Some; unfold sem_ok; cbn [count].
      * rewrite bump_eq. change (queue_at _ k) with (queue_at (core y).1 k). rewrite (queue_at_eq _ _ ch) by apply Hobj. lia.
      * rewrite bump_ne by done. by apply A6.
  - pose proof (λ x, awake_queue_at _ _ _ _ _ _ _ x Haw) as Hqa.
    assert (Hev : ∀ p, env_id <$> envs st'.2.1 !! p = env_id <$> envs (core y).2.1 !! p) by apply Haw.
    eapply (awake_inv y _ k ch q [p] st'); [done|done|done|exact Haw|done|done|done| |done|done|exact A4| |].
    + done.
    + intros l k' Hk'. eapply slk_ok_frame; [| |exact Hev|by apply A5]; [|done].
      intros _ Hql. rewrite Hqa, decide_False; [done|]. intros ->. cbn in Hk'.
      rewrite (oj_disj _ A2 k) in Hk by eauto. done.
    + intros m sm'. cbn [semaphores set_semaphores]. intros [[<- <-]|[Hne Hm']]%lookup_insert_Some; unfold sem_ok; cbn [count].
      * rewrite Hqa, decide_True by done. cbn. rewrite bump_eq. rewrite Hqe, length_app in Hq. cbn in Hq. lia.
      * rewrite Hqa, decide_False by done. cbn. rewrite bump_ne by done. by apply A6.
Qed.

(** The end of [sleep]: the guard is taken again. *)
Lemma wp_sleep_exit p o ch st Q :
  obj_ok o ch st → Q tt (hold o (set_env_channel (<[p := NULL]> (env_channel st.1)) st.1, st.2)) →
  wp (sleep_exit p (lk_of o)) Q st.
Proof.
  intros Hobj HQ. unfold sleep_exit. apply wp_bind, wp_acquire_hold; [apply Hobj|]. by apply wp_set_channel.
Qed.
(** The process on the CPU leaves [sleep]. *)
Lemma inv_leave y p e k :
  inv y → runs p e (core y).2.1 → conts y !! p = Some k →
  inv (match k with K_sleeplock _ _ => set_conts (delete p (conts y)) y
       | K_ksemaphore _ m => bump_passes m (set_conts (delete p (conts y)) y) end).
Proof.
  intros Hinv Hr Hk. pose proof Hinv as [A1 A2 A3 A4 A5 A6]. pose proof (runs_not_blocked _ _ _ Hr) as Hnb.
  assert (Hsl : sleepers (core y).1 (core y).2.1 (delete p (conts y))) by (by apply sleepers_delete).
  destruct (sl_cont _ _ _ A3 _ _ Hk) as [Hp _].
  destruct k as [p' l|p' m]; (eapply (inv_step y _ _ Hinv); [exact A1|by constructor|apply evolve_refl|exact Hsl|exact A4|exact A5|]).
  - intros m sm Hm. eapply sem_ok_frame; [done| |by apply A6]. cbn.
    rewrite (pending_delete m p _ _ Hk), decide_False by done. lia.
  - intros m' sm Hm. destruct (A6 m' sm Hm) as (Hq & Hc & Hw). unfold sem_ok. cbn.
    rewrite (pending_delete m' p _ _ Hk) in Hw. cbn in Hp. subst p'.
    split_and!; [done|done|]. case_decide as Hd.
    + injection Hd as ->. rewrite bump_eq. lia.
    + rewrite bump_ne by congruence. lia.
Qed.
Lemma inv_env_channel y x : inv y → inv (set_core (set_env_channel x (core y).1, (core y).2) y).
Proof. by intros [A1 [] [] A4 A5 A6]. Qed.
Lemma resume_inv y : inv y → ev_pre EvResume y → wp (exec EvResume) (λ _ y', inv y') y.
Proof.
  intros Hinv (Hn & k & Hk). pose proof (iv_ok _ Hinv) as Hok.
  destruct (runs_of _ Hok Hn) as [e Hr]. set (p := cpu_proc (core y).2.1) in *.
  destruct (sl_cont _ _ _ (iv_sleep _ Hinv) _ _ Hk) as [Hp Hobj].
  pose proof (inv_leave y p e k Hinv Hr Hk) as Hinv'.
  assert (is_obj (cont_obj k) (core y).1) as Ho by (destruct k; [by left|by right]).
  destruct (inv_obj_ok y _ Hinv Ho) as [ch Hch].
  cbn [exec]. apply wp_bind, wp_on_core_proc, wp_bind, wp_gets, wp_bind, (wp_unwrap _ k); [done|].
  apply wp_bind, wp_modify, wp_bind, wp_on_core. fold p. cbn [core set_conts].
  apply (inv_env_channel _ (<[p := NULL]> (env_channel (core y).1))) in Hinv'.
  set (st1 := (set_env_channel (<[p := NULL]> (env_channel (core y).1)) (core y).1, (core y).2)).
  destruct k as [p' l|p' m]; cbn in Hp; subst p'; cbn [cont_obj] in *; unfold resume.
  - destruct Hobj as [k Hkl]. apply wp_bind. eapply wp_sleep_exit; [exact Hch|]. fold st1.
    assert (Hch1 : obj_ok l ch st1) by (by destruct Hch).
    eapply wp_mono; [by eapply (acquire_loop_spec l k ch p e st1)|]. cbv beta. intros o st' Ho'.
    apply (sleeplock_settle _ p e l k ch o st') in Hinv'; [done|done|apply lookup_delete_eq|done|done|done].
  - apply wp_bind. eapply wp_sleep_exit; [exact Hch|]. fold st1.
    assert (Hch1 : obj_ok m ch st1) by (by destruct Hch).
    apply wp_bind, wp_release_hold; [apply Hch1|]. apply wp_ret. cbn [settle]. apply wp_modify. exact Hinv'.
Qed.

(** The initialisation of an object. *)
Lemma wp_strcpy_name n Q st : (String.length n < 64)%nat → Q tt st → wp (strcpy_name n) Q st.
Proof. intros Hn HQ. unfold strcpy_name. rewrite decide_True by done. by apply wp_ret. Qed.
Lemma length_append s t : String.length (s +:+ t) = (String.length s + String.length t)%nat.
Proof. induction s as [|c s IH]; simpl; [done|]. f_equal. exact IH. Qed.
Lemma new_object y o c1 c' n :
  inv y → 0 < o → ¬ is_obj o (core y).1 →
  guards c' = <[lk_of o := false]> (guards (core y).1) →
  channels c' = <[chan_of o := CH [] n]> (channels (core y).1) →
  c1 = c' → (∀ x, x ≠ o → sleeplocks c' !! x = sleeplocks (core y).1 !! x) →
  (∀ x, x ≠ o → semaphores c' !! x = semaphores (core y).1 !! x) →
  (is_Some (sleeplocks c' !! o) → semaphores c' !! o = None) →
  objects c1 ∧ sleepers c1 (core y).2.1 (conts y) ∧ (∀ x, x ≠ o → queue_at c1 x = queue_at (core y).1 x) ∧
  queue_at c1 o = [] ∧ pending o (conts y) = 0%nat ∧ (∀ p, (o, p) ∉ holders y).
Proof.
  intros [A1 [B1 B2 B3] [C1 C2 C3] A4 A5 A6] Ho Hno Hg Hc -> Hsl Hsm Hd.
  assert (Hkey : ∀ x, is_obj x (core y).1 → x ≠ o) by (by intros x Hx ->).
  assert (Hcont : ∀ p k, conts y !! p = Some k → is_obj (cont_obj k) (core y).1).
  { intros p k Hk. destruct (C2 p k Hk) as [_ Hx]. destruct k; [by left|by right]. }
  split_and!.
  - constructor.
    + intros l b. rewrite Hg. intros [[_ <-]|[_ Hl]]%lookup_insert_Some; [done|by eapply B1].
    + intros x Hx. rewrite Hg, Hc. destruct (decide (x = o)) as [->|Hne].
      { split; [done|]. rewrite !lookup_insert_eq. eauto. }
      unfold lk_of, chan_of. rewrite !lookup_insert_ne by lia. apply B2.
      destruct Hx as [Hx|Hx]; [left; by rewrite <- Hsl|right; by rewrite <- Hsm].
    + intros x Hx. destruct (decide (x = o)) as [->|Hne]; [by apply Hd|]. rewrite Hsm by done. apply B3. by rewrite <- Hsl.
  - constructor.
    + intros a ch. rewrite Hc. intros [[<- <-]|[Hne Ha]]%lookup_insert_Some; [|by apply C1]. cbn. split; [constructor|].
      intros p. split; [intros Hp; by apply not_elem_of_nil in Hp|]. intros (_ & k & Hk & Hka).
      destruct (Hkey _ (Hcont p k Hk)). unfold chan_of in Hka. lia.
    + intros p k Hk. destruct (C2 p k Hk) as [Hp Hx]. split; [done|]. pose proof (Hkey _ (Hcont p k Hk)) as Hne.
      destruct k; cbn in Hne; [by rewrite Hsl|by rewrite Hsm].
    + done.
  - intros x Hne. unfold queue_at. rewrite Hc, lookup_insert_ne; [done|]. unfold chan_of. lia.
  - unfold queue_at. rewrite Hc. by rewrite lookup_insert_eq.
  - apply map_size_empty_iff, map_empty. intros p. apply map_lookup_filter_None. right.
    intros k Hk Hkk. cbn in Hkk. subst k. by destruct (Hkey _ (Hcont _ _ Hk)).
  - intros p Hp. apply Hno. left. by eapply A4.
Qed.
Lemma init_lock_inv y l n :
  inv y → ev_pre (EvInitLock l n) y → wp (exec (EvInitLock l n)) (λ _ y', inv y') y.
Proof.
  intros Hinv (Hl & Hno & Hlen). apply wp_on_core. unfold init_sleeplock, init_channel, init_guard.
  apply wp_bind, wp_bind, wp_strcpy_name; [cbn; lia|]. apply wp_cset.
  apply wp_bind, wp_bind, wp_strcpy_name; [rewrite length_append; cbn; lia|]. apply wp_cset.
  apply wp_bind, wp_strcpy_name; [lia|]. apply wp_cset. cbn [fst snd].
  set (c' := set_sleeplocks _ _).
  destruct (new_object y l c' c' "sleep lock channel" Hinv Hl Hno) as (H1 & H2 & H3 & H4 & H5 & H6); try done.
  - intros x Hx. unfold c'. cbn. by rewrite lookup_insert_ne.
  - intros _. cbn. destruct (semaphores (core y).1 !! l) eqn:He; [|done]. destruct Hno. right. eauto.
  - destruct Hinv as [A1 A2 A3 A4 A5 A6]. constructor; cbn; [done|exact H1|exact H2| | |].
    + intros l' p Hp. apply insert_is_Some. by eapply A4.
    + intros l' k [[<- <-]|[Hne Hk]]%lookup_insert_Some; [by left|].
      eapply slk_ok_frame; [| | |by apply A5]; [|done|done]. intros _ Hq. by rewrite H3.
    + intros m sm Hm. eapply sem_ok_frame; [| |by apply A6]; [|done]. apply H3. intros ->. apply Hno. right. cbn in Hm. eauto.
Qed.
Lemma init_sem_inv y k v n :
  inv y → ev_pre (EvInitSem k v n) y → wp (exec (EvInitSem k v n)) (λ _ y', inv y') y.
Proof.
  intros Hinv (Hl & Hno & Hv & Hlen). cbn [exec]. apply wp_bind, wp_on_core. unfold init_ksemaphore, init_channel, init_guard.
  apply wp_bind, wp_bind, wp_strcpy_name; [cbn; lia|]. apply wp_cset.
  apply wp_bind, wp_bind, wp_strcpy_name; [cbn; lia|]. apply wp_cset.
  apply wp_bind, wp_strcpy_name; [lia|]. apply wp_cset. cbn [fst snd]. apply wp_modify.
  set (c' := set_semaphores _ _).
  destruct (new_object y k c' c' "ksemaphore channel" Hinv Hl Hno) as (H1 & H2 & H3 & H4 & H5 & H6); try done.
  - intros x Hx. unfold c'. cbn. by rewrite lookup_insert_ne.
  - intros Hs. destruct Hno. by left.
  - destruct Hinv as [A1 A2 A3 A4 A5 A6]. constructor; cbn; [done|exact H1|exact H2|exact A4| |].
    + intros l' s Hs. eapply slk_ok_frame; [| | |by apply A5]; [|done|done]. intros _ Hq. rewrite H3; [done|].
      intros ->. apply Hno. left. cbn in Hs. eauto.
    + intros m sm [[<- <-]|[Hne Hm]]%lookup_insert_Some; unfold sem_ok; cbn [count].
      * rewrite H4, H5, !lookup_total_insert_eq. cbn. lia.
      * rewrite H3 by done. rewrite !lookup_total_insert_ne by done. by apply A6.
Qed.

Lemma exec_inv `{!SchedMemLaws E} ev y : inv y → ev_pre ev y → wp (exec ev) (λ _ y', inv y') y.
Proof.
  intros Hinv Hpre. destruct ev.
  - by apply init_lock_inv.
  - by apply init_sem_inv.
  - by apply acquire_inv.
  - by apply release_inv.
  - by apply wait_inv.
  - by apply signal_inv.
  - by apply resume_inv.
  - by apply tick_inv.
  - by apply idle_inv.
Qed.
Lemma start_inv t : ok t.1 → (∀ p, ¬ blocked t.1 p) → inv (start t).
Proof.
  intros Hok Hnb. constructor; cbn; try done.
  - constructor; cbn; try done. intros o [[]|[]]; done.
  - constructor; cbn; try done. intros p Hp. by destruct (Hnb p).
Qed.
Lemma run_inv `{!SchedMemLaws E} y y' : inv y → run y y' → inv y'.
Proof.
  intros Hinv Hr. induction Hr as [|y1 y2 ev _ IH Hpre Hex]; [done|].
  pose proof (exec_inv ev y1 IH Hpre) as Hw. unfold wp in Hw. by rewrite Hex in Hw.
Qed.

(** ** The queue of an object *)
(** One event: nothing happens to it, or a process joins at the head, or a
    signal takes the process at the end, or a release takes all. *)
Definition queue_step (ev : event) (k : Z) (q q' : list Z) : Prop :=
  match ev with EvSignal k' => if decide (k' = k) then q = q' ∧ q = [] ∨ ∃ p, q = q' ++ [p] else q' = q
  | EvRelease l => if decide (l = k) then q' = [] else q' = q
  | _ => q' = q ∨ ∃ p, q' = p :: q end.
Lemma slept_queue o ch p st st' k :
  obj_ok o ch st → slept o ch p st st' → queue_at st'.1 k = queue_at st.1 k ∨ ∃ x, queue_at st'.1 k = x :: queue_at st.1 k.
Proof.
  intros Hobj (_ & _ & cs & ->). rewrite queue_at_conc. case_decide as Hk; [|by left]. right. exists p. subst.
  by rewrite (queue_at_eq _ _ ch) by apply Hobj.
Qed.
Lemma settle_queue k o y Q :
  (∀ y', (core y').1 = (core y).1 → Q y') → wp (settle k o) (λ _ y', Q y') y.
Proof. intros HQ. destruct o, k; by apply wp_modify, HQ. Qed.
Lemma acquire_queue y p e l kl ch k :
  obj_ok l ch (core y) → runs p e (core y).2.1 → sleeplocks (core y).1 !! l = Some kl →
  wp (acquire_loop l) (λ _ st', queue_at st'.1 k = queue_at (core y).1 k ∨
     ∃ x, queue_at st'.1 k = x :: queue_at (core y).1 k) (hold l (core y)).
Proof.
  intros Hobj Hr Hl. eapply wp_mono; [by eapply acquire_loop_spec|]. cbv beta. intros [|K r] st'.
  - intros [_ ->]. by left.
  - intros (_ & _ & Hs). by eapply slept_queue.
Qed.
Lemma on_core_sch {A} (c : M (sched_state * E) A) y a y' : on_core (sch c) y = Ok a y' → (core y').1 = (core y).1.
Proof. unfold on_core, sch, zoom. destruct (c (core y).2); [|done..]. by intros [= _ <-]. Qed.
Lemma init_queue_at y o n c' k :
  ¬ is_obj o (core y).1 → is_obj k (core y).1 →
  channels c' = <[chan_of o := CH [] n]> (channels (core y).1) → queue_at c' k = queue_at (core y).1 k.
Proof.
  intros Ho Hk Hc. rewrite (queue_at_insert _ _ _ _ _ _ Hc). by rewrite decide_False by (intros ->; by destruct Ho).
Qed.
Lemma exec_queue `{!SchedMemLaws E} ev y k :
  inv y → ev_pre ev y → is_obj k (core y).1 →
  wp (exec ev) (λ _ y', queue_step ev k (queue_at (core y).1 k) (queue_at (core y').1 k)) y.
Proof.
  intros Hinv Hpre Hk. pose proof Hinv as [A1 A2 A3 A4 A5 A6]. destruct ev as [l n|m v n|l|l|m|m| | |]; cbn [exec].
  - destruct Hpre as (Hl & Hno & Hlen). apply wp_on_core. unfold init_sleeplock, init_channel, init_guard.
    apply wp_bind, wp_bind, wp_strcpy_name; [cbn; lia|]. apply wp_cset.
    apply wp_bind, wp_bind, wp_strcpy_name; [rewrite length_append; cbn; lia|]. apply wp_cset.
    apply wp_bind, wp_strcpy_name; [lia|]. apply wp_cset. left. by eapply init_queue_at.
  - destruct Hpre as (Hl & Hno & Hv & Hlen). apply wp_bind, wp_on_core. unfold init_ksemaphore, init_channel, init_guard.
    apply wp_bind, wp_bind, wp_strcpy_name; [cbn; lia|]. apply wp_cset.
    apply wp_bind, wp_bind, wp_strcpy_name; [cbn; lia|]. apply wp_cset.
    apply wp_bind, wp_strcpy_name; [lia|]. apply wp_cset, wp_modify. left. by eapply init_queue_at.
  - destruct Hpre as [[Hn Hcp] [kl Hkl]]. destruct (runs_of _ A1 Hn) as [e Hr].
    destruct (inv_obj_ok y l Hinv) as [ch Hobj]; [left; eauto|].
    apply wp_bind, wp_on_core_proc, wp_bind, wp_on_core. unfold acquire_sleeplock.
    apply wp_bind, wp_acquire_hold; [apply Hobj|].
    eapply wp_mono; [by eapply (acquire_queue y _ e l kl ch k)|]. cbv beta. intros o st' Hq.
    apply settle_queue. intros y' ->. exact Hq.
  - destruct Hpre as (Hf & [kl Hkl] & Hh). destruct (inv_obj_ok y l Hinv) as [ch Hobj]; [left; eauto|].
    apply wp_bind, wp_on_core_proc, wp_bind, wp_on_core.
    eapply wp_mono; [by apply (release_sleeplock_spec l kl ch)|]. cbv beta. intros _ st' Haw. apply wp_modify.
    cbn [core set_holders set_core queue_step]. rewrite (awake_queue_at _ _ _ _ _ _ _ _ Haw).
    destruct (decide (l = k)) as [->|Hlk]; [by rewrite decide_True|by rewrite decide_False].
  - destruct Hpre as [[Hn Hcp] (sm & Hm & Hi)]. destruct (runs_of _ A1 Hn) as [e Hr].
    destruct (inv_obj_ok y m Hinv) as [ch Hobj]; [right; eauto|].
    apply wp_bind, wp_on_core_proc, wp_bind, wp_on_core.
    eapply wp_mono; [by eapply (wait_spec m sm ch)|]. cbv beta. intros o st' Ho. apply wp_bind, wp_modify.
    apply settle_queue. intros y' ->. cbn [core bump_waits set_core]. destruct o as [|K r].
    + destruct Ho as [_ ->]. by left.
    + destruct Ho as (_ & _ & Hs). eapply slept_queue in Hs; [exact Hs|]. by destruct Hobj.
  - destruct Hpre as (sm & Hm & Hi). destruct (inv_obj_ok y m Hinv) as [ch Hobj]; [right; eauto|].
    destruct (A6 m sm Hm) as (Hq & _). pose proof (queue_at_eq _ _ ch (ob_chan _ _ _ Hobj)) as Hqm. rewrite Hqm in Hq.
    apply wp_bind, wp_on_core. eapply wp_mono; [apply (signal_spec m sm ch); [done..|]|].
    { intros Hc Hn. rewrite Hn in Hq. cbn in Hq. lia. }
    intros _ st' [[Hc ->]|(Hc & q & p & Hqe & Haw)]; apply wp_modify; cbn [queue_step core bump_credits set_core].
    + case_decide; [|done]. subst. left. change (queue_at _ k) with (queue_at (core y).1 k) at 2. rewrite Hqm.
      split; [done|]. apply length_zero_iff_nil. lia.
    + rewrite (awake_queue_at _ _ _ _ _ _ _ _ Haw). case_decide as Hmk.
      * subst. right. exists p. by rewrite decide_True, Hqm.
      * by rewrite decide_False.
  - destruct Hpre as (Hn & K & HK). destruct (runs_of _ A1 Hn) as [e Hr]. set (p := cpu_proc (core y).2.1) in *.
    destruct (sl_cont _ _ _ A3 _ _ HK) as [Hp Hobj].
    assert (is_obj (cont_obj K) (core y).1) as Ho by (destruct K; [by left|by right]).
    destruct (inv_obj_ok y _ Hinv Ho) as [ch Hch].
    apply wp_bind, wp_on_core_proc, wp_bind, wp_gets, wp_bind, (wp_unwrap _ K); [done|].
    apply wp_bind, wp_modify, wp_bind, wp_on_core. fold p. cbn [core set_conts].
    set (st1 := (set_env_channel (<[p := NULL]> (env_channel (core y).1)) (core y).1, (core y).2)).
    destruct K as [p' l|p' m]; cbn in Hp; subst p'; cbn [cont_obj] in *; unfold resume;
      (apply wp_bind; eapply wp_sleep_exit; [exact Hch|]; fold st1).
    + destruct Hobj as [kl Hkl]. pose proof (acquire_queue (set_core st1 y) p e l kl ch k) as Haq.
      eapply wp_mono; [apply Haq; [by destruct Hch|done|done]|]. cbv beta. intros o st' Hq.
      apply settle_queue. intros y' ->. exact Hq.
    + apply wp_bind, wp_release_hold; [apply Hch|]. apply wp_ret. apply settle_queue. intros y' ->. by left.
  - apply wp_bind, wp_on_core, wp_sch. eapply wp_mono; [by apply clock_spec|]. cbv beta. intros r t _. apply wp_ret. by left.
  - apply (idle_inv y Hinv), wp_Ok in Hpre as ([] & y' & Hex & _). unfold wp. cbn [exec] in Hex. rewrite Hex.
    left. by rewrite (on_core_sch _ _ _ _ Hex).
Qed.
End system.
