(* ===== verification/ConcThm.v ===== *)
(** * What semaphores and sleep locks promise

    In every state that the processes, the clock and the interrupt handlers can
    reach: no operation fails, at most one process has a sleep lock, a
    semaphore is passed no more often than its value and the signals allow, no
    process sleeps on an object that is free, and none is overtaken for ever. *)

From S2P Require Import Prelude Queue Sched SchedSpec SchedThm Conc ConcSpec ConcSys ConcInv.

(** The processes that went to sleep before [p]. *)
Fixpoint ahead (p : Z) (q : list Z) : list Z :=
  match q with [] => [] | x :: q => if decide (x = p) then q else ahead p q end.
Lemma ahead_snoc p q x : p ∈ q → ahead p (q ++ [x]) = ahead p q ++ [x].
Proof.
  induction q as [|z q IH]; intros Hp; [by apply not_elem_of_nil in Hp|]. cbn. case_decide; [done|].
  apply IH. set_solver.
Qed.
Definition is_signal (k : Z) (ev : event) : bool :=
  match ev with EvSignal k' => bool_decide (k' = k) | _ => false end.

Section theorems.
Context {E : Type} `{HS : SchedMem E} `{HL : !SchedMemLaws E}.
Implicit Types y : sys E.
Notation ok := (sched_ok (E:=E)).

(** A run of the system in which [p] sleeps on semaphore [k] throughout, with
    the number of signals of [k]. *)
Inductive sleeps_through (p k : Z) y : nat → sys E → Prop :=
| doze_refl : p ∈ queue_at (core y).1 k → sleeps_through p k y 0 y
| doze_step n y1 y2 ev :
    sleeps_through p k y n y1 → ev_pre ev y1 → exec ev y1 = Ok tt y2 → p ∈ queue_at (core y2).1 k →
    sleeps_through p k y (n + if is_signal k ev then 1 else 0) y2.

Lemma reach t y : ok t.1 → (∀ p, ¬ blocked t.1 p) → run (start t) y → sys_inv y.
Proof. intros Hok Hb Hr. eapply run_inv; [|exact Hr]. by apply start_inv. Qed.
Lemma queue_at_blocked y o p :
  sys_inv y → p ∈ queue_at (core y).1 o ↔
    blocked (core y).2.1 p ∧ ∃ k, conts y !! p = Some k ∧ cont_obj k = o.
Proof.
  intros [A1 A2 A3 A4 A5 A6]. unfold queue_at. split.
  - destruct (channels (core y).1 !! chan_of o) as [ch|] eqn:Hch; cbn; [|intros Hp; by apply not_elem_of_nil in Hp].
    intros Hp. apply (sl_queue _ _ _ A3 _ _ Hch) in Hp as (Hb & k & Hk & Hko). split; [done|]. exists k. split; [done|].
    unfold chan_of in Hko. lia.
  - intros (Hb & k & Hk & <-). destruct (sl_cont _ _ _ A3 _ _ Hk) as [_ Hobj].
    destruct (oj_obj _ A2 (cont_obj k)) as (_ & _ & ch & Hch); [destruct k; [by left|by right]|].
    rewrite Hch. cbn. apply (sl_queue _ _ _ A3 _ _ Hch). eauto.
Qed.
Lemma queue_at_NoDup y o : sys_inv y → NoDup (queue_at (core y).1 o).
Proof.
  intros [A1 A2 A3 A4 A5 A6]. unfold queue_at. destruct (channels _ !! chan_of o) as [ch|] eqn:Hch; cbn; [|constructor].
  apply (sl_queue _ _ _ A3 _ _ Hch).
Qed.

(** C4: in every state that processes using sleep locks and semaphores, clock
    ticks, signalling interrupt handlers and the idle scheduler reach, in any
    interleaving, every further operation returns: no spin lock is taken twice
    or released when free, [sched] is never called with another lock held, no
    process is put in a queue twice. Between operations every spin lock is
    free, the scheduler's invariant holds, and the blocked processes are those
    in the queue of one object. *)
Theorem concurrency_safe t y :
  ok t.1 → (∀ p, ¬ blocked t.1 p) → run (start t) y →
  (∀ ev, ev_pre ev y → ∃ y', exec ev y = Ok tt y') ∧ ok (core y).2.1 ∧
  (∀ l b, guards (core y).1 !! l = Some b → b = false) ∧
  (∀ p, blocked (core y).2.1 p ↔ ∃ o, p ∈ queue_at (core y).1 o) ∧
  (∀ o o' p, p ∈ queue_at (core y).1 o → p ∈ queue_at (core y).1 o' → o = o').
Proof.
  intros Hok Hb Hr. pose proof (reach _ _ Hok Hb Hr) as Hinv. split_and!.
  - intros ev Hpre. pose proof (exec_inv ev y Hinv Hpre) as Hw. apply wp_Ok in Hw as ([] & y' & ? & _). eauto.
  - apply Hinv.
  - apply Hinv.
  - intros p. split.
    + intros Hp. destruct (sl_blocked _ _ _ (iv_sleep _ Hinv) p Hp) as [k Hk]. exists (cont_obj k).
      apply queue_at_blocked; eauto.
    + intros [o Ho]. by apply queue_at_blocked in Ho as [? _].
  - intros o o' p (_ & k & Hk & <-)%queue_at_blocked (_ & k' & Hk' & <-)%queue_at_blocked; [congruence|done|done].
Qed.

(** C23: mutual exclusion. In every reachable state at most one process has
    acquired a sleep lock and not released it; the lock is marked as taken,
    with that process's id, exactly when there is one, and processes wait for
    the lock only while it is taken: no wakeup is lost. *)
Theorem sleeplock_exclusive t y l k :
  ok t.1 → (∀ p, ¬ blocked t.1 p) → run (start t) y → sleeplocks (core y).1 !! l = Some k →
  (∀ p q, (l, p) ∈ holders y → (l, q) ∈ holders y → p = q) ∧
  (∀ p, (l, p) ∈ holders y → env_id <$> envs (core y).2.1 !! p = Some (pid k)) ∧
  (locked k = 0 ↔ ∀ p, (l, p) ∉ holders y) ∧ (queue_at (core y).1 l ≠ [] → locked k = 1).
Proof.
  intros Hok Hb Hr Hk. pose proof (reach _ _ Hok Hb Hr) as Hinv.
  destruct (iv_slk _ Hinv l k Hk) as [(H1 & H2 & H3)|(H1 & p & H2 & H3)].
  - split_and!; [intros p q Hp; by destruct (H2 p)|intros p Hp; by destruct (H2 p)|done|done].
  - split_and!.
    + intros q q' Hq Hq'. apply H2 in Hq, Hq'. congruence.
    + intros q Hq. apply H2 in Hq. by subst.
    + split; [lia|]. intros Hn. destruct (Hn p). by apply H2.
    + done.
Qed.

(** C24: in every reachable state the waits on a semaphore that have returned
    are at most its initial value plus the signals so far, as many processes
    sleep on it as its count is below zero, and while one sleeps every signal
    has been passed on to a waiting process. *)
Theorem ksemaphore_correct t y k sm :
  ok t.1 → (∀ p, ¬ blocked t.1 p) → run (start t) y → semaphores (core y).1 !! k = Some sm →
  passes y !!! k ≤ credits y !!! k ∧
  Z.of_nat (length (queue_at (core y).1 k)) = Z.max 0 (- count sm) ∧
  (queue_at (core y).1 k ≠ [] →
     credits y !!! k = passes y !!! k + (Z.of_nat (pending k (conts y)) - Z.of_nat (length (queue_at (core y).1 k)))).
Proof.
  intros Hok Hb Hr Hk. pose proof (reach _ _ Hok Hb Hr) as Hinv.
  destruct (iv_sem _ Hinv k sm Hk) as (Hq & Hc & Hw).
  assert (Hle : (length (queue_at (core y).1 k) ≤ pending k (conts y))%nat).
  { unfold pending. rewrite <- size_dom. rewrite <- (size_list_to_set (C:=gset Z)) by (by apply queue_at_NoDup).
    apply subseteq_size. intros p Hp. apply elem_of_list_to_set in Hp.
    apply queue_at_blocked in Hp as (_ & K & HK & Ho); [|done].
    destruct (sl_cont _ _ _ (iv_sleep _ Hinv) _ _ HK) as [He Hobj].
    apply elem_of_dom. exists K. apply map_lookup_filter_Some. split; [done|]. cbn.
    destruct K as [p' l|p' m]; cbn in *; subst; [|done].
    rewrite (oj_disj _ (iv_obj _ Hinv) k) in Hk by done. done. }
  split_and!; [lia|done|]. intros Hne. destruct (queue_at (core y).1 k) as [|x q]; [done|]. cbn in *. lia.
Qed.

(** C25: no process is overtaken for ever. Whatever else happens, a process
    sleeps through at most as many signals of its semaphore as processes went
    to sleep there before it. *)
Theorem ksemaphore_fair t y p k n y' :
  ok t.1 → (∀ p, ¬ blocked t.1 p) → run (start t) y →
  sleeps_through p k y n y' → (n ≤ length (ahead p (queue_at (core y).1 k)))%nat.
Proof.
  intros Hok Hb Hr Hd. pose proof (reach _ _ Hok Hb Hr) as Hinv.
  cut (p ∈ queue_at (core y').1 k ∧ sys_inv y' ∧
       (n + length (ahead p (queue_at (core y').1 k)) ≤ length (ahead p (queue_at (core y).1 k)))%nat); [lia|].
  induction Hd as [Hp|n y1 y2 ev Hd IH Hpre Hex Hp]; [split_and!; [done|done|lia]|].
  destruct IH as (Hp1 & Hinv1 & Hle).
  assert (Hk1 : is_obj k (core y1).1).
  { apply queue_at_blocked in Hp1 as (_ & K & HK & <-); [|done].
    destruct (sl_cont _ _ _ (iv_sleep _ Hinv1) _ _ HK) as [_ Hobj]. destruct K; [by left|by right]. }
  pose proof (exec_inv ev y1 Hinv1 Hpre) as Hi. pose proof (exec_queue ev y1 k Hinv1 Hpre Hk1) as Hq.
  unfold wp in Hi, Hq. rewrite Hex in Hi, Hq. split_and!; [done|done|].
  pose proof (queue_at_NoDup y2 k Hi) as Hnd.
  set (q1 := queue_at (core y1).1 k) in *. set (q2 := queue_at (core y2).1 k) in *.
  assert (Hjoin : q2 = q1 ∨ (∃ x, q2 = x :: q1) → ahead p q2 = ahead p q1).
  { intros [->|[x Hx]]; [done|]. rewrite Hx in Hnd |- *. apply NoDup_cons in Hnd as [Hxq _]. cbn.
    rewrite decide_False; [done|]. by intros ->. }
  destruct ev as [| | |l| |k'| | |]; cbn [queue_step is_signal] in *; try (rewrite (Hjoin Hq); lia).
  - case_decide; [|rewrite Hq; lia]. rewrite Hq in Hp. by apply not_elem_of_nil in Hp.
  - case_decide as Hkk; [|rewrite bool_decide_false by done; rewrite Hq; lia].
    rewrite bool_decide_true by done. destruct Hq as [[Hq Hq0]|[x Hq]].
    + rewrite <- Hq, Hq0 in Hp. by apply not_elem_of_nil in Hp.
    + rewrite Hq, ahead_snoc, length_app in Hle by done. cbn in Hle. lia.
Qed.
End theorems.

(** ** A concrete run *)
Notation perms := (gmap (Z * Z) Z).
Definition next (ev : event) (y : sys perms) : sys perms :=
  match exec ev y with Ok _ y' => y' | _ => y end.
Definition ex_events : list event :=
  [EvInitLock 8192 "m"; EvInitSem 16384 0 "s"; EvWait 16384; EvAcquire 8192; EvSignal 16384; EvTick; EvResume; EvAcquire 8192].
(** Two processes sleep on a semaphore, and an interrupt handler signals it. *)
Definition ex_sleepers : list event := [EvInitSem 16384 0 "s"; EvWait 16384; EvWait 16384; EvSignal 16384].
Definition ex_run_to (evs : list event) (n : nat) : sys perms :=
  foldl (λ y ev, next ev y) (start (ex_sched, ∅)) (take n evs).
Example ex_final :
  let y := ex_run_to ex_events 8 in
  queue_at (core y).1 8192 = [4096] ∧ holders y = {[(8192, 4608)]} ∧ passes y !!! 16384 = 1 ∧ credits y !!! 16384 = 1 ∧
  cpu_proc (core y).2.1 = 4608 ∧ queue_at (core (ex_run_to ex_sleepers 3)).1 16384 = [4608; 4096] ∧
  queue_at (core (ex_run_to ex_sleepers 4)).1 16384 = [4608].
Proof. vm_compute. done. Qed.
Lemma ex_start : sched_ok (E:=perms) ex_sched ∧ ∀ p, ¬ blocked ex_sched p.
Proof.
  split; [exact ex_ok|]. intros p (e & He & Hs). apply ex_envs_inv in He.
  destruct He as [[_ ->]|[[_ ->]|[[_ ->]|[_ ->]]]]; discriminate.
Qed.
Ltac ex_pre :=
  lazymatch goal with
  | |- ev_pre _ _ => cbn [ev_pre]; ex_pre
  | |- _ ∧ _ => split; ex_pre
  | |- free_to_call _ => unfold free_to_call; ex_pre
  | |- ¬ is_obj _ _ => let Hx := fresh in intros [[? Hx]|[? Hx]]; vm_compute in Hx; discriminate
  | |- ∃ _, _ ∧ _ => eexists; split; [vm_compute; reflexivity|vm_compute; reflexivity]
  | |- is_Some _ => eexists; vm_compute; reflexivity
  | |- _ = _ => vm_compute; reflexivity
  | |- _ => vm_compute; first [done | lia]
  end.
Lemma ex_step evs n ev :
  evs !! n = Some ev → run (start (ex_sched, ∅)) (ex_run_to evs n) → ev_pre ev (ex_run_to evs n) →
  exec ev (ex_run_to evs n) = Ok tt (next ev (ex_run_to evs n)) → run (start (ex_sched, ∅)) (ex_run_to evs (S n)).
Proof.
  intros Hev Hr Hpre Hex. unfold ex_run_to at 1. rewrite (take_S_r _ _ _ Hev), foldl_app. cbn.
  by eapply run_step.
Qed.
Ltac ex_runs := repeat (eapply ex_step; [reflexivity| |ex_pre|vm_compute; reflexivity]); apply run_refl.
Lemma ex_run_events : run (start (ex_sched, ∅)) (ex_run_to ex_events 8).
Proof. ex_runs. Qed.
Lemma ex_run_sleepers : run (start (ex_sched, ∅)) (ex_run_to ex_sleepers 3).
Proof. ex_runs. Qed.

Lemma concurrency_safe_witness : ∃ y', exec (EvRelease 8192) (ex_run_to ex_events 8) = Ok tt y'.
Proof.
  destruct (concurrency_safe (ex_sched, ∅) (ex_run_to ex_events 8) (proj1 ex_start) (proj2 ex_start) ex_run_events)
    as (Hgo & _). apply (Hgo (EvRelease 8192)). ex_pre.
Defined.
Lemma sleeplock_exclusive_witness :
  let y := ex_run_to ex_events 8 in (8192, 4608) ∈ holders y ∧ env_id <$> envs (core y).2.1 !! 4608 = Some 5.
Proof.
  destruct (sleeplock_exclusive (ex_sched, ∅) (ex_run_to ex_events 8) 8192 (SLK 1 "m" 5)
    (proj1 ex_start) (proj2 ex_start) ex_run_events) as (_ & Hid & _); [vm_compute; reflexivity|].
  assert (Hin : (8192, 4608) ∈ holders (ex_run_to ex_events 8)).
  { rewrite (proj1 (proj2 ex_final)). by apply elem_of_singleton. }
  split; [exact Hin|]. exact (Hid 4608 Hin).
Defined.
Lemma ksemaphore_correct_witness : passes (ex_run_to ex_events 8) !!! 16384 ≤ 1.
Proof.
  destruct (ksemaphore_correct (ex_sched, ∅) (ex_run_to ex_events 8) 16384 (KSEM 0 "s")
    (proj1 ex_start) (proj2 ex_start) ex_run_events) as (Hle & _); [vm_compute; reflexivity|].
  etransitivity; [exact Hle|]. vm_compute. discriminate.
Defined.
Lemma ksemaphore_fair_witness : (1 ≤ length (ahead 4608 (queue_at (core (ex_run_to ex_sleepers 3)).1 16384)))%nat.
Proof.
  apply (ksemaphore_fair (ex_sched, ∅) (ex_run_to ex_sleepers 3) 4608 16384 1 (ex_run_to ex_sleepers 4)
    (proj1 ex_start) (proj2 ex_start) ex_run_sleepers).
  apply (doze_step 4608 16384 _ 0 (ex_run_to ex_sleepers 3) _ (EvSignal 16384)).
  - apply doze_refl. apply list_elem_of_In. vm_compute. by left.
  - ex_pre.
  - vm_compute. reflexivity.
  - apply list_elem_of_In. vm_compute. by left.
Defined.
