(* ===== verification/SpinThm.v ===== *)
(** * The spin locks implement the locks of the models above them

    Sched.v, Conc.v and the other components take a spin lock as a flag and
    count [ncli]. Here the spin locks of Spinlock.v, with the interrupt flag, the
    nesting of [pushcli] and the exchange loop, are shown to behave so, and to
    give the interrupt flag back as they found it. *)

From S2P Require Import Prelude Queue Spinlock Sched SchedSpec SchedThm Conc ConcSpec.

(** [n] calls of [pushcli] are open; the flag was [f] before the first. *)
Definition cli_ok (m : machine) (n f : Z) : Prop :=
  Spinlock.ncli (cpu0 m) = n ∧ 0 ≤ n ∧ (f = 0 ∨ f = FL_IF) ∧
  if decide (n = 0) then Z.land (eflags m) FL_IF = f else Z.land (eflags m) FL_IF = 0 ∧ intena (cpu0 m) = f.

Lemma land_cli e : Z.land (Z.ldiff e FL_IF) FL_IF = 0.
Proof. apply Z.bits_inj'. intros i Hi. rewrite Z.land_spec, Z.ldiff_spec, Z.bits_0. by destruct (Z.testbit FL_IF i), (Z.testbit e i). Qed.
Lemma land_sti e : Z.land (Z.lor e FL_IF) FL_IF = FL_IF.
Proof. apply Z.bits_inj'. intros i Hi. rewrite Z.land_spec, Z.lor_spec. by destruct (Z.testbit FL_IF i), (Z.testbit e i). Qed.

Section spin.
Context `{St : Stack}.
Implicit Types m : machine.

(** Only the flag and the nesting change. *)
Definition cli_frame m m' : Prop :=
  spinlocks m' = spinlocks m ∧ Spinlock.proc (cpu0 m') = Spinlock.proc (cpu0 m) ∧ stack (cpu0 m') = stack (cpu0 m).
Lemma wp_pushcli m n f Q :
  cli_ok m n f → n < 2147483647 → (∀ m', cli_ok m' (n + 1) f → cli_frame m m' → Q tt m') → wp pushcli Q m.
Proof.
  intros (Hn & Hn0 & Hf & Hif) Hb HQ. unfold pushcli, read_eflags, cli, upd_cpu.
  apply wp_bind, wp_gets, wp_bind, wp_modify, wp_bind, wp_gets. cbn [cpu0 set_eflags]. rewrite Hn.
  apply wp_bind, wp_when; intros Hz; apply wp_modify; cbn [cpu0 set_eflags set_cpu].
  - apply bool_decide_eq_true in Hz. rewrite decide_True in Hif by done. apply HQ; [|done].
    unfold cli_ok. cbn. rewrite Hn, i32_small by lia. rewrite decide_False by lia.
    split_and!; [done|lia|done|apply land_cli|done].
  - apply bool_decide_eq_false in Hz. rewrite decide_False in Hif by done. apply HQ; [|done].
    unfold cli_ok. cbn. rewrite Hn, i32_small by lia. rewrite decide_False by lia.
    split_and!; [done|lia|done|apply land_cli|apply Hif].
Qed.
Lemma wp_popcli m n f Q :
  cli_ok m (n + 1) f → 0 ≤ n < 2147483647 → (∀ m', cli_ok m' n f → cli_frame m m' → Q tt m') → wp popcli Q m.
Proof.
  intros (Hn & Hn0 & Hf & Hif) Hb HQ. rewrite decide_False in Hif by lia. destruct Hif as [Hif Hi].
  unfold popcli, read_eflags, sti, upd_cpu.
  apply wp_bind, wp_gets, wp_bind, wp_assert; [by apply bool_decide_eq_true|].
  apply wp_bind, wp_modify, wp_bind, wp_gets. cbn [cpu0 set_cpu Spinlock.ncli Spinlock.set_ncli].
  rewrite Hn. replace (n + 1 - 1) with n by lia. rewrite i32_small by lia. rewrite decide_False by lia.
  apply wp_when; intros Hz.
  - apply andb_true_iff in Hz as [Hz Hz']. apply bool_decide_eq_true in Hz, Hz'. apply wp_modify, HQ; [|done].
    unfold cli_ok. cbn in Hz' |- *. rewrite decide_True by done. rewrite land_sti.
    split_and!; [done|lia|done|]. rewrite Hi in Hz'. by destruct Hf.
  - apply HQ; [|done]. unfold cli_ok. cbn. split_and!; [done|lia|done|]. case_decide as Hn'; [|done].
    rewrite bool_decide_true in Hz by done. cbn in Hz. apply bool_decide_eq_false, dec_stable in Hz. congruence.
Qed.
Lemma wp_get_proc m n f Q :
  cli_ok m n f → n < 2147483647 → (∀ m', cli_ok m' n f → cli_frame m m' → Q (Spinlock.proc (cpu0 m)) m') →
  wp Spinlock.get_cpu_proc Q m.
Proof.
  intros Hc Hb HQ. unfold Spinlock.get_cpu_proc. apply wp_bind. eapply wp_pushcli; [exact Hc|done|].
  intros m1 H1 (A1 & A2 & A3). apply wp_bind, wp_gets, wp_bind. eapply wp_popcli; [exact H1|destruct Hc; lia|].
  intros m2 H2 (B1 & B2 & B3). apply wp_ret. rewrite A2. apply HQ; [done|]. split_and!; congruence.
Qed.
Lemma wp_get_lock m l k Q : spinlocks m !! l = Some k → Q k m → wp (get_lock l) Q m.
Proof. intros Hl HQ. unfold get_lock. apply wp_bind, wp_gets. by apply (wp_unwrap _ k). Qed.
Lemma wp_holding m n f l k Q :
  cli_ok m n f → n < 2147483647 → spinlocks m !! l = Some k →
  (∀ m', cli_ok m' n f → cli_frame m m' → Q (bool_decide (Spinlock.locked k ≠ 0) && bool_decide (lock_cpu k = CPUS)) m') →
  wp (holding_kspinlock l) Q m.
Proof.
  intros Hc Hb Hl HQ. unfold holding_kspinlock. apply wp_bind. eapply wp_pushcli; [exact Hc|done|].
  intros m1 H1 (A1 & A2 & A3). apply wp_bind, (wp_get_lock _ _ k); [by rewrite A1|].
  apply wp_bind. eapply wp_popcli; [exact H1|destruct Hc; lia|].
  intros m2 H2 (B1 & B2 & B3). apply wp_ret, HQ; [done|]. split_and!; congruence.
Qed.

(** A lock that is held by the one CPU, or free. *)
Definition lock_state (k : kspinlock) (held : bool) : Prop :=
  if held then Spinlock.locked k = 1 ∧ lock_cpu k = CPUS else Spinlock.locked k = 0.
Lemma lock_state_held k held :
  lock_state k held → bool_decide (Spinlock.locked k ≠ 0) && bool_decide (lock_cpu k = CPUS) = held.
Proof. unfold lock_state. destruct held; [intros [-> ->]; by rewrite !bool_decide_true|by intros ->]. Qed.

Lemma wp_put_lock m l k Q : Q tt (Spinlock.set_locks (<[l := k]> (spinlocks m)) m) → wp (put_lock l k) Q m.
Proof. done. Qed.
Lemma cli_ok_locks m n f x : cli_ok m n f → cli_ok (Spinlock.set_locks x m) n f.
Proof. done. Qed.
(** The call stack is written, and nothing else. *)
Lemma wp_record_pcs {B} m n f l k (c : list Z * Z → M machine B) Q :
  cli_ok m n f → n < 2147483647 → spinlocks m !! l = Some k →
  (∀ r m', cli_ok m' n f → cli_frame m m' → wp (c r) Q m') →
  wp (v ← gets arg_address; r ← getcallerpcs v; c r) Q m.
Proof.
  intros Hc Hb Hl HQ. apply wp_bind, wp_gets, wp_bind. unfold getcallerpcs. apply wp_bind.
  eapply wp_get_proc; [exact Hc|done|]. intros m1 H1 HA. apply wp_bind, wp_get. by apply wp_ret, HQ.
Qed.

(** [fuel] 1 is enough: on one CPU nothing is ever spun on. *)
Lemma acquire_free m n f l k fuel :
  cli_ok m n f → n < 2147483640 → spinlocks m !! l = Some k → lock_state k false → (0 < fuel)%nat →
  wp (acquire_kspinlock fuel l) (λ _ m', cli_ok m' (n + 1) f ∧ Spinlock.proc (cpu0 m') = Spinlock.proc (cpu0 m) ∧
    ∃ k', lock_state k' true ∧ spinlocks m' = <[l := k']> (spinlocks m)) m.
Proof.
  intros Hc Hb Hl Hk Hf. unfold acquire_kspinlock. apply wp_bind. eapply wp_holding; [exact Hc|lia|done|].
  rewrite (lock_state_held _ _ Hk). intros m1 H1 (A1 & A2 & A3). cbn.
  apply wp_bind. eapply wp_pushcli; [exact H1|lia|]. intros m2 H2 (B1 & B2 & B3).
  apply wp_bind. eapply wp_get_proc; [exact H2|lia|]. intros m3 H3 (C1 & C2 & C3).
  assert (Hl3 : spinlocks m3 !! l = Some k) by (by rewrite C1, B1, A1).
  destruct fuel as [|fuel]; [lia|]. cbn [spin]. unfold xchg.
  apply wp_bind, wp_bind, wp_bind, (wp_get_lock _ _ k); [done|]. apply wp_bind, wp_put_lock, wp_ret.
  rewrite Hk. rewrite decide_False by (intros Hx; by apply Hx). apply wp_ret.
  apply wp_bind. eapply wp_get_lock; [apply lookup_insert_eq|]. apply wp_bind, wp_put_lock.
  cbn [spinlocks Spinlock.set_locks Spinlock.locked name pcs lock_cpu].
  eapply (wp_record_pcs _ (n + 1) f); [by apply cli_ok_locks, cli_ok_locks|lia|apply lookup_insert_eq|].
  intros r m4 H4 (D1 & D2 & D3). cbn in D1, D2.
  apply wp_bind. eapply wp_get_lock; [rewrite D1; apply lookup_insert_eq|]. apply wp_put_lock.
  split_and!; [done|cbn; congruence|]. eexists. split; [|cbn; rewrite D1, !insert_insert_eq, C1, B1, A1; reflexivity].
  done.
Qed.
Lemma acquire_held m n f l k fuel :
  cli_ok m n f → n < 2147483640 → spinlocks m !! l = Some k → lock_state k true → panics (acquire_kspinlock fuel l) m.
Proof.
  intros Hc Hb Hl Hk. unfold acquire_kspinlock. apply panics_r. eapply wp_holding; [exact Hc|lia|done|].
  rewrite (lock_state_held _ _ Hk). intros m1 H1 _. apply panics_panic.
Qed.
Lemma release_held m n f l k :
  cli_ok m (n + 1) f → 0 ≤ n < 2147483640 → spinlocks m !! l = Some k → lock_state k true →
  wp (release_kspinlock l) (λ _ m', cli_ok m' n f ∧ Spinlock.proc (cpu0 m') = Spinlock.proc (cpu0 m) ∧
    ∃ k', lock_state k' false ∧ spinlocks m' = <[l := k']> (spinlocks m)) m.
Proof.
  intros Hc Hb Hl Hk. unfold release_kspinlock. apply wp_bind. eapply wp_holding; [exact Hc|lia|done|].
  rewrite (lock_state_held _ _ Hk). intros m1 H1 (A1 & A2 & A3). cbn [negb].
  apply wp_bind, (wp_get_lock _ _ k); [by rewrite A1|]. apply wp_bind, wp_put_lock.
  apply wp_bind. eapply wp_get_lock; [apply lookup_insert_eq|]. apply wp_bind, wp_put_lock.
  apply wp_bind. eapply wp_get_proc; [by apply cli_ok_locks, cli_ok_locks|lia|]. intros m2 H2 (B1 & B2 & B3).
  cbn in B1, B2. eapply wp_popcli; [exact H2|lia|]. intros m3 H3 (C1 & C2 & C3).
  split_and!; [done|congruence|]. eexists. split; [|rewrite C1, B1, insert_insert_eq, A1; reflexivity]. done.
Qed.
Lemma release_free m n f l k :
  cli_ok m n f → n < 2147483640 → spinlocks m !! l = Some k → lock_state k false → panics (release_kspinlock l) m.
Proof.
  intros Hc Hb Hl Hk. unfold release_kspinlock. apply panics_r. eapply wp_holding; [exact Hc|lia|done|].
  rewrite (lock_state_held _ _ Hk). intros m1 H1 (A1 & A2 & A3). cbn [negb]. apply panics_r.
  unfold printcallstack. eapply (wp_record_pcs _ n f); [exact H1|lia|by rewrite A1|].
  intros r m2 H2 (B1 & B2 & B3). apply wp_bind, (wp_get_lock _ _ k); [by rewrite B1, A1|].
  apply wp_put_lock, panics_panic.
Qed.
End spin.

(** ** Refinement *)
(** The locks of [g] that are held. *)
Definition held_in (g : gmap Z bool) : nat := size (filter (λ x : Z * bool, x.2 = true) g).
Lemma held_true g l : g !! l = Some false → held_in (<[l := true]> g) = S (held_in g).
Proof.
  intros Hl. unfold held_in. rewrite map_filter_insert_True by done. apply map_size_insert_None.
  apply map_lookup_filter_None. right. intros b Hb. cbn. congruence.
Qed.
Lemma held_false g l : g !! l = Some true → held_in g = S (held_in (<[l := false]> g)).
Proof.
  intros Hl. rewrite <- (held_true (<[l := false]> g) l) by apply lookup_insert_eq.
  by rewrite insert_insert_eq, insert_id.
Qed.

Section refinement.
Context `{St : Stack} {E : Type} `{HS : SchedMem E}.
Notation ST := (conc * (sched_state * E))%type.
Implicit Types m : machine.
Implicit Types st : ST.
(** The address of [ProcessQueues.qlock]. *)
Variable qaddr : Z.

(** Machine [m] implements the state [st] of the models; interrupts were [f]
    outside of all locks. *)
Record implements (m : machine) (st : ST) (f : Z) : Prop := {
  im_cli : cli_ok m (Sched.ncli st.2.1) f;
  im_proc : Spinlock.proc (cpu0 m) = cpu_proc st.2.1;
  im_guards : ∀ l b, guards st.1 !! l = Some b → ∃ k, spinlocks m !! l = Some k ∧ lock_state k b;
  im_qlock : ∃ k, spinlocks m !! qaddr = Some k ∧ lock_state k (qlock st.2.1);
  im_apart : guards st.1 !! qaddr = None;
  im_count : Sched.ncli st.2.1 = Z.of_nat (held_in (guards st.1)) + Z.b2z (qlock st.2.1)
}.
(** The code does what the model says: it returns where the model returns, in
    a state that implements the model's, and panics where the model panics. *)
Definition refines (c : M machine unit) (a : M ST unit) (m : machine) (st : ST) (f : Z) : Prop :=
  match a st with
  | Ok _ st' => wp c (λ _ m', implements m' st' f) m
  | Panic _ => panics c m
  | _ => False
  end.

Lemma implements_guard m st f l b m' n :
  implements m st f → is_Some (guards st.1 !! l) → cli_ok m' n f → Spinlock.proc (cpu0 m') = Spinlock.proc (cpu0 m) →
  (∃ k', lock_state k' b ∧ spinlocks m' = <[l := k']> (spinlocks m)) →
  n = Z.of_nat (held_in (<[l := b]> (guards st.1))) + Z.b2z (qlock st.2.1) →
  implements m' (set_guards (<[l := b]> (guards st.1)) st.1, (Sched.set_ncli n st.2.1, st.2.2)) f.
Proof.
  intros [A1 A2 A3 (kq & A4 & A4') A5 A6] Hl Hc Hp (k' & Hk' & Hm') Hn.
  assert (qaddr ≠ l) as Hne by (intros <-; rewrite A5 in Hl; by destruct Hl).
  constructor; cbn; [done|congruence| | | |done].
  - intros l' b'. rewrite Hm'. intros [[<- <-]|[Hll Hb']]%lookup_insert_Some.
    + exists k'. by rewrite lookup_insert_eq.
    + rewrite lookup_insert_ne by done. by apply A3.
  - exists kq. by rewrite Hm', lookup_insert_ne.
  - by rewrite lookup_insert_ne.
Qed.
Lemma implements_qlock m st f b m' n :
  implements m st f → cli_ok m' n f → Spinlock.proc (cpu0 m') = Spinlock.proc (cpu0 m) →
  (∃ k', lock_state k' b ∧ spinlocks m' = <[qaddr := k']> (spinlocks m)) →
  n = Z.of_nat (held_in (guards st.1)) + Z.b2z b →
  implements m' (st.1, (Sched.set_ncli n (set_qlock b st.2.1), st.2.2)) f.
Proof.
  intros [A1 A2 A3 A4 A5 A6] Hc Hp (k' & Hk' & Hm') Hn. constructor; cbn; [done|congruence| | |done|done].
  - intros l b' Hb'. rewrite Hm', lookup_insert_ne; [by apply A3|]. intros ->. congruence.
  - exists k'. by rewrite Hm', lookup_insert_eq.
Qed.
Lemma refine_acquire_guard m st f l b fuel :
  implements m st f → Sched.ncli st.2.1 < 2147483640 → (0 < fuel)%nat → guards st.1 !! l = Some b →
  refines (acquire_kspinlock fuel l) (acquire_guard l) m st f.
Proof.
  intros Him Hb Hf Hl. destruct (im_guards _ _ _ Him l b Hl) as (k & Hk & Hkb). unfold refines, acquire_guard, cget, gets.
  unfold mbind at 1, M_bind at 1. unfold mbind at 1, M_bind at 1. rewrite Hl. cbn [unwrap mret M_ret].
  destruct b; cbn.
  - eapply acquire_held; [apply Him|done|done|done].
  - eapply wp_mono; [by eapply acquire_free; [apply Him|..]|]. intros _ m' (Hc & Hp & Hm'). cbn in *.
    eapply implements_guard; [done|by eauto|done|done|done|]. rewrite held_true by done.
    rewrite (im_count _ _ _ Him). lia.
Qed.
Lemma refine_release_guard m st f l b :
  implements m st f → Sched.ncli st.2.1 < 2147483640 → guards st.1 !! l = Some b →
  refines (release_kspinlock l) (release_guard l) m st f.
Proof.
  intros Him Hb Hl. destruct (im_guards _ _ _ Him l b Hl) as (k & Hk & Hkb). unfold refines, release_guard, cget, gets.
  unfold mbind at 1, M_bind at 1. unfold mbind at 1, M_bind at 1. rewrite Hl. cbn [unwrap mret M_ret].
  pose proof (im_count _ _ _ Him) as Hn. destruct b; cbn.
  - rewrite (held_false _ _ Hl) in Hn.
    assert (Hc : cli_ok m ((Sched.ncli st.2.1 - 1) + 1) f).
    { replace (_ - 1 + 1) with (Sched.ncli st.2.1) by lia. apply Him. }
    eapply wp_mono; [eapply release_held; [exact Hc|destruct (qlock st.2.1); cbn in *; lia|done|done]|].
    intros _ m' (Hc' & Hp & Hm'). cbn in *. eapply implements_guard; [done|by eauto|done|done|done|]. lia.
  - eapply release_free; [apply Him|done|done|done].
Qed.
Lemma refine_acquire_qlock m st f fuel :
  implements m st f → Sched.ncli st.2.1 < 2147483640 → (0 < fuel)%nat →
  refines (acquire_kspinlock fuel qaddr) (sch acquire_qlock) m st f.
Proof.
  intros Him Hb Hf. destruct (im_qlock _ _ _ Him) as (k & Hk & Hkb).
  unfold refines, sch, zoom, acquire_qlock, sget, gets. unfold mbind at 1, M_bind at 1.
  pose proof (im_count _ _ _ Him) as Hn. destruct (qlock st.2.1) eqn:Hq; cbn.
  - eapply acquire_held; [apply Him|done|done|done].
  - eapply wp_mono; [by eapply acquire_free; [apply Him|..]|]. intros _ m' (Hc & Hp & Hm'). cbn in *.
    eapply (implements_qlock m st); [done|done|done|done|]. cbn. lia.
Qed.
Lemma refine_release_qlock m st f :
  implements m st f → Sched.ncli st.2.1 < 2147483640 →
  refines (release_kspinlock qaddr) (sch release_qlock) m st f.
Proof.
  intros Him Hb. destruct (im_qlock _ _ _ Him) as (k & Hk & Hkb).
  unfold refines, sch, zoom, release_qlock, sget, gets. unfold mbind at 1, M_bind at 1.
  pose proof (im_count _ _ _ Him) as Hn. destruct (qlock st.2.1) eqn:Hq; cbn.
  - assert (Hc : cli_ok m ((Sched.ncli st.2.1 - 1) + 1) f).
    { replace (_ - 1 + 1) with (Sched.ncli st.2.1) by lia. apply Him. }
    eapply wp_mono; [eapply release_held; [exact Hc|cbn in *; lia|done|done]|].
    intros _ m' (Hc' & Hp & Hm'). cbn in *. eapply (implements_qlock m st); [done|done|done|done|]. cbn. lia.
  - eapply release_free; [apply Him|done|done|done].
Qed.

(** C26: the spin locks refine the locks that the scheduler, the semaphores and
    the sleep locks are modelled with. [acquire_kspinlock] and
    [release_kspinlock], on any lock and in any nesting, return or panic as the
    model says, and never spin: on the one CPU a lock that is taken is found to
    be its own. Interrupts are off while a lock is held, and are as they were
    before the first lock when the last is released. *)
Theorem spinlock_refinement m st f fuel :
  implements m st f → Sched.ncli st.2.1 < 2147483640 → (0 < fuel)%nat →
  (∀ l b, guards st.1 !! l = Some b →
     refines (acquire_kspinlock fuel l) (acquire_guard l) m st f ∧
     refines (release_kspinlock l) (release_guard l) m st f) ∧
  refines (acquire_kspinlock fuel qaddr) (sch acquire_qlock) m st f ∧
  refines (release_kspinlock qaddr) (sch release_qlock) m st f ∧
  wp Spinlock.get_cpu_proc (λ p m', p = cpu_proc st.2.1 ∧ implements m' st f) m ∧
  Z.land (eflags m) FL_IF = if decide (held_in (guards st.1) = 0%nat ∧ qlock st.2.1 = false) then f else 0.
Proof.
  intros Him Hb Hf. split_and!.
  - intros l b Hl. split; [by eapply refine_acquire_guard|by eapply refine_release_guard].
  - by apply refine_acquire_qlock.
  - by apply refine_release_qlock.
  - eapply wp_get_proc; [apply Him|lia|]. intros m' Hc (B1 & B2 & B3). split; [apply Him|].
    destruct Him as [A1 A2 A3 A4 A5 A6]. constructor; try done; [congruence|by rewrite B1|by rewrite B1].
  - destruct (im_cli _ _ _ Him) as (_ & _ & _ & Hif). pose proof (im_count _ _ _ Him) as Hn.
    destruct (decide (held_in (guards st.1) = 0%nat ∧ qlock st.2.1 = false)) as [[Hh Hq]|Hh].
    + rewrite Hh, Hq in Hn. cbn in Hn. by rewrite decide_True in Hif by lia.
    + rewrite decide_False in Hif; [apply Hif|]. intros Hz. destruct Hh.
      destruct (qlock st.2.1); cbn in Hn; split; (lia || done).
Qed.
End refinement.

(** A machine with interrupts on, the queue lock and one free lock. *)
Definition ex_stack : Stack := {|
  CPUS := 4027000000; arg_address := λ _, 4022300000; word_at := λ _ a, if decide (a = 4022299992) then 4022299996 else 0;
  env_kstack := λ _, 4000000000 |}.
Definition ex_machine : machine :=
  MACH 514 (CPU 0 0 4096 0 1 4022000000 1)
    (<[20 := KSL 0 "l" 0 (replicate 10 0)]> (<[40 := KSL 0 "q" 0 (replicate 10 0)]> ∅)).
Definition ex_locks : conc * (sched_state * gmap (Z * Z) Z) := (CONC (<[20 := false]> ∅) ∅ ∅ ∅ ∅, (ex_sched, ∅)).
Lemma spinlock_refinement_witness :
  panics (release_kspinlock (H:=ex_stack) 20) ex_machine ∧
  ∃ m', acquire_kspinlock (H:=ex_stack) 1 20 ex_machine = Ok tt m'.
Proof.
  assert (Him : implements (St:=ex_stack) 40 ex_machine ex_locks 512).
  { constructor; try done.
    - split_and!; [done|by vm_compute|by right|done].
    - cbn. intros l b [[<- <-]|[_ Hl]]%lookup_insert_Some; [|by rewrite lookup_empty in Hl]. by eexists.
    - by eexists. }
  destruct (spinlock_refinement (St:=ex_stack) 40 ex_machine ex_locks 512 1 Him) as (Hg & _); [by vm_compute|lia|].
  destruct (Hg 20 false) as [Ha Hr]; [by vm_compute|]. unfold refines in Ha, Hr. split.
  - destruct (release_guard 20 ex_locks) as [[] ?|?| |] eqn:Heq; [vm_compute in Heq; discriminate|exact Hr|done..].
  - destruct (acquire_guard 20 ex_locks) as [[] ?|?| |] eqn:Heq; [|vm_compute in Heq; discriminate|done..].
    apply wp_Ok in Ha as ([] & m' & Hm' & _). by exists m'.
Defined.
