(* ===== verification/Ide.v ===== *)
(** * The disk driver (lib/disk.c)

    The driver of the ATA disk with programmed input and output: the wait for
    the device, the command registers and the transfer of sectors over the data
    port. The port instructions (inc/x86.h) and the device behind them are
    parameters; [AtaDevice] states what the ATA standard says of the device as
    its registers are written and its sectors transferred. With
    [DISK_IO_METHOD] equal to [PROGRAMMED_IO] the critical section around a
    transfer is empty. *)

From S2P Require Import Prelude.

Definition SECTSIZE : Z := 512.
Definition IDE_BSY : Z := 128.
Definition IDE_DRDY : Z := 64.
Definition IDE_DF : Z := 32.
Definition IDE_ERR : Z := 1.
Definition diskno : Z := 0.
Definition DATA_PORT : Z := 496.   (* 0x1F0 *)
Definition COUNT_PORT : Z := 498.  (* 0x1F2 *)
Definition LBA0_PORT : Z := 499.
Definition LBA1_PORT : Z := 500.
Definition LBA2_PORT : Z := 501.
Definition DEVICE_PORT : Z := 502.
Definition STATUS_PORT : Z := 503. (* 0x1F7: status when read, command when written *)
Definition READ_SECTORS : Z := 32.  (* 0x20 *)
Definition WRITE_SECTORS : Z := 48. (* 0x30 *)

(** The port instructions of the processor (inc/x86.h). *)
Class Ports (S : Type) := {
  inb : Z → M S Z;
  outb : Z → Z → M S unit;
  insl : Z → Z → Z → M S unit;
  outsl : Z → Z → Z → M S unit
}.

Section driver.
Context {S : Type} `{Ports S}.

(** [while (((r = inb(0x1F7)) & (IDE_BSY|IDE_DRDY)) != IDE_DRDY)]. *)
Fixpoint wait_loop (fuel : nat) : M S Z :=
  match fuel with
  | O => nofuel
  | Datatypes.S fuel =>
      r ← inb STATUS_PORT;
      if decide (Z.land r (Z.lor IDE_BSY IDE_DRDY) ≠ IDE_DRDY) then wait_loop fuel else mret r
  end.
Definition ide_wait_ready (fuel : nat) (check_error : bool) : M S Z :=
  r ← wait_loop fuel;
  if check_error && bool_decide (Z.land r (Z.lor IDE_DF IDE_ERR) ≠ 0) then panic else mret 0.

(** The six register writes that start a command; [uint8] operands. *)
Definition ide_command (secno nsecs cmd : Z) : M S unit :=
  outb COUNT_PORT (w8 nsecs) ;;
  outb LBA0_PORT (Z.land secno 255) ;;
  outb LBA1_PORT (Z.land (Z.shiftr secno 8) 255) ;;
  outb LBA2_PORT (Z.land (Z.shiftr secno 16) 255) ;;
  outb DEVICE_PORT (Z.lor (Z.lor 224 (Z.shiftl (Z.land diskno 1) 4)) (Z.land (Z.shiftr secno 24) 15)) ;;
  outb STATUS_PORT cmd.
(** [for (; nsecs > 0; nsecs--, dst += SECTSIZE)]. *)
Fixpoint transfer_loop (fuel : nat) (move : Z → M S unit) (nsecs : nat) (addr : Z) : M S Z :=
  match nsecs with
  | O => mret 0
  | Datatypes.S nsecs =>
      r ← ide_wait_ready fuel true;
      if decide (r < 0) then panic else
      move addr ;;
      transfer_loop fuel move nsecs (w32 (addr + SECTSIZE))
  end.
Definition ide_read (fuel : nat) (secno dst nsecs : Z) : M S Z :=
  assert_ (bool_decide (nsecs ≤ 256)) ;;
  _ ← ide_wait_ready fuel false;
  ide_command secno nsecs READ_SECTORS ;;
  transfer_loop fuel (λ a, insl DATA_PORT a (SECTSIZE / 4)) (Z.to_nat nsecs) dst.
Definition ide_write (fuel : nat) (secno src nsecs : Z) : M S Z :=
  assert_ (bool_decide (nsecs ≤ 256)) ;;
  _ ← ide_wait_ready fuel false;
  ide_command secno nsecs WRITE_SECTORS ;;
  transfer_loop fuel (λ a, outsl DATA_PORT a (SECTSIZE / 4)) (Z.to_nat nsecs) src.
End driver.

(** ** The device *)

(** The registers, the transfer under way (command, next sector, sectors left)
    and the contents of the disk. *)
Record ata (sector : Type) := ATA {
  regs : gmap Z Z;
  transfer : option (Z * Z * nat);
  sectors : Z → sector
}.
Arguments ATA {sector}. Arguments regs {sector}. Arguments transfer {sector}. Arguments sectors {sector}.

Section device.
Context {sector : Type}.
Implicit Types a : ata sector.

Definition reg (p : Z) (a : ata sector) : Z := default 0 (regs a !! p).
(** The sector number in the registers and their sector count, where 0 means 256. *)
Definition lba (a : ata sector) : Z :=
  reg LBA0_PORT a + 256 * reg LBA1_PORT a + 65536 * reg LBA2_PORT a + 16777216 * (reg DEVICE_PORT a `mod` 16).
Definition sector_count (a : ata sector) : nat :=
  if decide (reg COUNT_PORT a = 0) then 256%nat else Z.to_nat (reg COUNT_PORT a).
Definition ata_outb (p v : Z) (a : ata sector) : ata sector :=
  if decide (p = STATUS_PORT) then ATA (regs a) (Some (v, lba a, sector_count a)) (sectors a)
  else ATA (<[p := v]> (regs a)) (transfer a) (sectors a).
Definition after_sector (cmd n : Z) (left_ : nat) : option (Z * Z * nat) :=
  if decide (left_ = 0%nat) then None else Some (cmd, n + 1, left_).
Definition set_sector (n : Z) (x : sector) (f : Z → sector) (k : Z) : sector :=
  if decide (k = n) then x else f k.
End device.

Definition ready_status (r : Z) : Prop := Z.land r (Z.lor IDE_BSY IDE_DRDY) = IDE_DRDY.
Definition no_error (r : Z) : Prop := Z.land r (Z.lor IDE_DF IDE_ERR) = 0.
Definition same_page (a b : Z) : Prop := a `div` PAGE_SIZE = b `div` PAGE_SIZE.
#[export] Instance same_page_equiv : Equivalence same_page.
Proof. unfold same_page. split; [done|by intros ??|intros ??? -> ->; done]. Qed.

(** A machine with a working ATA disk at the ports. [mem_at a] is the 512 bytes
    at the address [a] as the processor reads them; [io_keep a s s'] allows what
    the transfer of a part of the page of [a] does to the rest of the state (the
    processor marks the page accessed or modified). The device answers within
    [busy] polls. *)
Class AtaDevice (S : Type) {PS : Ports S} (sector : Type) := {
  dev : S → ata sector;
  mem_at : Z → S → sector;
  accessible : Z → S → Prop;
  io_keep : Z → S → S → Prop;
  polls : S → nat;
  busy : nat
}.
Class AtaLaws (S : Type) {PS : Ports S} (sector : Type) {AD : AtaDevice S sector} : Prop := {
  #[global] io_keep_pre a :: PreOrder (io_keep a);
  io_keep_page a b s s' : same_page a b → io_keep a s s' → io_keep b s s';
  accessible_keep a s s' : io_keep a s s' → accessible a s → accessible a s';
  accessible_page a b s : same_page a b → accessible a s → accessible b s;
  polls_bound s : (polls s < busy)%nat;
  inb_law s : ∃ r s', inb STATUS_PORT s = Ok r s' ∧ dev s' = dev s ∧
    (∀ a, mem_at a s' = mem_at a s ∧ io_keep a s s') ∧
    (ready_status r ∧ no_error r ∨ ¬ ready_status r ∧ (polls s' < polls s)%nat);
  outb_law p v s : transfer (dev s) = None → wp (outb p v) (λ _ s', dev s' = ata_outb p v (dev s) ∧
    ∀ a, mem_at a s' = mem_at a s ∧ io_keep a s s') s;
  outsl_law a n k s : transfer (dev s) = Some (WRITE_SECTORS, n, Datatypes.S k) → accessible a s →
    wp (outsl DATA_PORT a 128) (λ _ s',
      dev s' = ATA (regs (dev s)) (after_sector WRITE_SECTORS n k) (set_sector n (mem_at a s) (sectors (dev s))) ∧
      io_keep a s s' ∧ ∀ b, same_page a b → mem_at b s' = mem_at b s) s;
  insl_law a n k s : transfer (dev s) = Some (READ_SECTORS, n, Datatypes.S k) → accessible a s →
    wp (insl DATA_PORT a 128) (λ _ s',
      dev s' = ATA (regs (dev s)) (after_sector READ_SECTORS n k) (sectors (dev s)) ∧
      io_keep a s s' ∧ mem_at a s' = sectors (dev s) n ∧
      ∀ b, same_page a b → b + SECTSIZE ≤ a ∨ a + SECTSIZE ≤ b → mem_at b s' = mem_at b s) s
}.

Section correct.
Context {S : Type} {PS : Ports S} {sector : Type} {AD : AtaDevice S sector} {AL : AtaLaws S sector}.
Implicit Types s : S.

(** What a step that only talks to the device leaves alone. *)
Definition quiet (s s' : S) : Prop := ∀ a, mem_at a s' = mem_at a s ∧ io_keep a s s'.
#[local] Instance quiet_pre : PreOrder quiet.
Proof.
  split.
  - intros s a. done.
  - intros s1 s2 s3 H1 H2 a. destruct (H1 a) as [Hm1 Hk1], (H2 a) as [Hm2 Hk2].
    split; [by rewrite Hm2|by etrans].
Qed.

Lemma wp_wait_loop fuel s (Q : Z → S → Prop) :
  (polls s < fuel)%nat →
  (∀ r s', ready_status r → no_error r → dev s' = dev s → quiet s s' → Q r s') →
  wp (wait_loop fuel) Q s.
Proof.
  revert s Q. induction fuel as [|fuel IH]; intros s Q Hf HQ; [lia|]. cbn [wait_loop].
  destruct (inb_law s) as (r & s1 & Hin & Hd & Hq & Hr).
  unfold wp. rewrite (bind_Ok _ _ _ _ _ Hin). fold (wp (S := S) (A := Z)).
  destruct Hr as [[Hr He]|[Hr Hp]].
  - rewrite decide_False by (by intros ?). by apply HQ.
  - rewrite decide_True by done. apply IH; [lia|]. intros r' s' ?? Hd' Hq'. apply HQ; [done..|congruence|]. by etrans.
Qed.
Lemma wp_ide_wait_ready fuel check s (Q : Z → S → Prop) :
  (busy ≤ fuel)%nat → (∀ s', dev s' = dev s → quiet s s' → Q 0 s') → wp (ide_wait_ready fuel check) Q s.
Proof.
  intros Hf HQ. apply wp_bind. apply wp_wait_loop; [pose proof (polls_bound s); lia|].
  intros r s' _ He Hd Hq. rewrite (bool_decide_false (Z.land _ _ ≠ 0)) by (by intros ?).
  rewrite andb_false_r. apply wp_ret. by apply HQ.
Qed.

Lemma wp_outb p v s (Q : unit → S → Prop) :
  transfer (dev s) = None → (∀ s', dev s' = ata_outb p v (dev s) → quiet s s' → Q tt s') → wp (outb p v) Q s.
Proof. intros Ht HQ. eapply wp_mono; [by apply outb_law|]. intros [] s' [Hd Hq]. by apply HQ. Qed.

(** The sector number survives its way through the registers. *)
Lemma lba_bytes secno : 0 ≤ secno < 268435456 →
  Z.land secno 255 + 256 * Z.land (Z.shiftr secno 8) 255 + 65536 * Z.land (Z.shiftr secno 16) 255
  + 16777216 * (Z.lor (Z.lor 224 (Z.shiftl (Z.land diskno 1) 4)) (Z.land (Z.shiftr secno 24) 15) `mod` 16) = secno.
Proof.
  intros Hs.
  assert (Hlow : Z.lor (Z.lor 224 (Z.shiftl (Z.land diskno 1) 4)) (Z.land (Z.shiftr secno 24) 15) `mod` 16
    = Z.land (Z.shiftr secno 24) 15).
  { change (Z.lor 224 (Z.shiftl (Z.land diskno 1) 4)) with 224. change 16 with (2 ^ 4).
    rewrite <- Z.land_ones by lia. rewrite Z.land_lor_distr_l. change (Z.land 224 (Z.ones 4)) with 0.
    rewrite Z.lor_0_l. change (Z.ones 4) with 15. by rewrite <- Z.land_assoc. }
  rewrite Hlow. change 255 with (Z.ones 8). change 15 with (Z.ones 4).
  rewrite !Z.land_ones, !Z.shiftr_div_pow2 by lia.
  change (2 ^ 8) with 256. change (2 ^ 16) with (256 * 256). change (2 ^ 24) with (256 * 256 * 256). change (2 ^ 4) with 16.
  rewrite <- !Z.div_div by lia.
  pose proof (Z.div_mod secno 256 ltac:(lia)). pose proof (Z.div_mod (secno `div` 256) 256 ltac:(lia)).
  pose proof (Z.div_mod (secno `div` 256 `div` 256) 256 ltac:(lia)).
  assert (secno `div` 256 `div` 256 `div` 256 < 16).
  { rewrite !Z.div_div by lia. apply Z.div_lt_upper_bound; lia. }
  assert (0 ≤ secno `div` 256 `div` 256 `div` 256) by (rewrite !Z.div_div by lia; apply Z.div_pos; lia).
  rewrite (Z.mod_small (secno `div` 256 `div` 256 `div` 256) 16) by lia. lia.
Qed.
Lemma wp_ide_command secno nsecs cmd s (Q : unit → S → Prop) :
  transfer (dev s) = None → 0 ≤ secno < 268435456 → 1 ≤ nsecs ≤ 255 →
  (∀ s', transfer (dev s') = Some (cmd, secno, Z.to_nat nsecs) → sectors (dev s') = sectors (dev s) → quiet s s' → Q tt s') →
  wp (ide_command secno nsecs cmd) Q s.
Proof.
  intros Ht Hsec Hn HQ. unfold ide_command. rewrite (w8_small nsecs) by lia.
  apply wp_bind, wp_outb; [done|]. intros s1 Hd1 Hq1.
  apply wp_bind, wp_outb; [by rewrite Hd1|]. intros s2 Hd2 Hq2.
  apply wp_bind, wp_outb; [by rewrite Hd2, Hd1|]. intros s3 Hd3 Hq3.
  apply wp_bind, wp_outb; [by rewrite Hd3, Hd2, Hd1|]. intros s4 Hd4 Hq4.
  apply wp_bind, wp_outb; [by rewrite Hd4, Hd3, Hd2, Hd1|]. intros s5 Hd5 Hq5.
  apply wp_outb; [by rewrite Hd5, Hd4, Hd3, Hd2, Hd1|]. intros s6 Hd6 Hq6.
  rewrite Hd5, Hd4, Hd3, Hd2, Hd1 in Hd6.
  unfold ata_outb in Hd6. rewrite decide_True in Hd6 by done. rewrite !decide_False in Hd6 by done.
  cbn [regs transfer sectors] in Hd6. apply HQ.
  - rewrite Hd6. cbn [transfer].
    match goal with |- Some (_, lba ?x, sector_count ?y) = _ =>
      assert (lba x = secno) as ->; [|assert (sector_count y = Z.to_nat nsecs) as ->; [|done]] end.
    + unfold lba, reg. cbn [regs].
      repeat first [rewrite lookup_insert_eq|rewrite lookup_insert_ne by done]. by apply lba_bytes.
    + unfold sector_count, reg. cbn [regs]. rewrite !lookup_insert_ne by done. rewrite lookup_insert_eq. cbn.
      rewrite decide_False by lia. done.
  - by rewrite Hd6.
  - etrans; [exact Hq1|]. etrans; [exact Hq2|]. etrans; [exact Hq3|]. etrans; [exact Hq4|]. by etrans.
Qed.

(** The transfer of [k] sectors from sector [n] on, at the addresses from [a]
    on, inside the page at [base]. *)
Definition pending (cmd n : Z) (k : nat) : option (Z * Z * nat) :=
  if decide (k = 0%nat) then None else Some (cmd, n, k).
Definition page_base (base : Z) : Prop := (PAGE_SIZE | base) ∧ 0 ≤ base ∧ base + PAGE_SIZE < 4294967296.
Lemma base_same_page base a : page_base base → base ≤ a < base + PAGE_SIZE → same_page base a.
Proof.
  unfold page_base, same_page, PAGE_SIZE. intros ((q & ->) & _) Ha.
  rewrite Z.div_mul by lia. apply (Z.div_unique_pos _ _ _ (a - q * 4096)); lia.
Qed.
Lemma in_page base a b : page_base base → base ≤ a < base + PAGE_SIZE → base ≤ b < base + PAGE_SIZE → same_page a b.
Proof. intros Hp Ha Hb. unfold same_page. by rewrite <- (base_same_page base a), (base_same_page base b). Qed.
Lemma wp_write_loop fuel base : (busy ≤ fuel)%nat → page_base base →
  ∀ k n a s (Q : Z → S → Prop), base ≤ a → a + SECTSIZE * Z.of_nat k ≤ base + PAGE_SIZE →
  transfer (dev s) = pending WRITE_SECTORS n k → accessible base s →
  (∀ s', transfer (dev s') = None → io_keep base s s' → (∀ b, same_page base b → mem_at b s' = mem_at b s) →
    (∀ j, sectors (dev s') j =
       if decide (n ≤ j < n + Z.of_nat k) then mem_at (a + SECTSIZE * (j - n)) s else sectors (dev s) j) → Q 0 s') →
  wp (transfer_loop fuel (λ a, outsl DATA_PORT a (SECTSIZE / 4)) k a) Q s.
Proof.
  intros Hf Hb k. induction k as [|k IH]; intros n a s Q Ha Hk Ht Hacc HQ; cbn [transfer_loop].
  { apply wp_ret. apply HQ; [done|done|done|]. intros j. by rewrite decide_False by lia. }
  unfold SECTSIZE, PAGE_SIZE in *. apply wp_bind, wp_ide_wait_ready; [done|]. intros s1 Hd1 Hq1.
  rewrite decide_False by lia. pose proof (base_same_page base a Hb ltac:(unfold PAGE_SIZE; lia)) as Hsp.
  apply wp_bind. eapply wp_mono.
  { apply (outsl_law a n k); [by rewrite Hd1, Ht|]. eapply accessible_page; [done|].
    eapply accessible_keep; [apply Hq1|done]. }
  intros [] s2 (Hd2 & Hk2 & Hm2). assert (io_keep base s1 s2) as Hkb by (by eapply io_keep_page; [symmetry|]).
  destruct k as [|k].
  - cbn [transfer_loop]. apply wp_ret. apply HQ.
    + by rewrite Hd2.
    + etrans; [apply Hq1|done].
    + intros b Hsb. rewrite Hm2 by (by etrans; [symmetry|]). apply Hq1.
    + intros j. rewrite Hd2, Hd1. cbn. unfold set_sector. rewrite (proj1 (Hq1 a)).
      destruct (decide (j = n)) as [->|]; [rewrite decide_True by lia; f_equal; lia|by rewrite decide_False by lia].
  - unfold page_base, PAGE_SIZE in Hb. rewrite w32_small by lia. apply (IH (n + 1)); [lia|lia| |..].
    + rewrite Hd2. done.
    + eapply accessible_keep; [done|]. eapply accessible_keep; [apply Hq1|done].
    + intros s' Ht' Hk' Hm' Hs'. apply HQ; [done| | |].
      * etrans; [apply Hq1|]. by etrans.
      * intros b Hsb. rewrite Hm' by done. rewrite Hm2 by (by etrans; [symmetry|]). apply Hq1.
      * intros j. rewrite Hs', Hd2, Hd1. cbn [sectors]. unfold set_sector. rewrite (proj1 (Hq1 a)).
        destruct (decide (j = n)) as [->|Hne].
        { rewrite decide_False by lia. rewrite decide_True by lia. f_equal. lia. }
        destruct (decide (n + 1 ≤ j < n + 1 + Z.of_nat (Datatypes.S k))).
        { rewrite decide_True by lia. replace (a + 512 + 512 * (j - (n + 1))) with (a + 512 * (j - n)) by lia.
          rewrite Hm2; [apply Hq1|]. eapply in_page; [split; [apply Hb|unfold PAGE_SIZE; lia]|unfold PAGE_SIZE; lia..]. }
        by rewrite decide_False by lia.
Qed.
Lemma wp_read_loop fuel base : (busy ≤ fuel)%nat → page_base base →
  ∀ k n a s (Q : Z → S → Prop), base ≤ a → a + SECTSIZE * Z.of_nat k ≤ base + PAGE_SIZE →
  transfer (dev s) = pending READ_SECTORS n k → accessible base s →
  (∀ s', transfer (dev s') = None → io_keep base s s' → sectors (dev s') = sectors (dev s) →
    (∀ j, 0 ≤ j < Z.of_nat k → mem_at (a + SECTSIZE * j) s' = sectors (dev s) (n + j)) →
    (∀ b, same_page base b → b + SECTSIZE ≤ a → mem_at b s' = mem_at b s) → Q 0 s') →
  wp (transfer_loop fuel (λ a, insl DATA_PORT a (SECTSIZE / 4)) k a) Q s.
Proof.
  intros Hf Hb k. induction k as [|k IH]; intros n a s Q Ha Hk Ht Hacc HQ; cbn [transfer_loop].
  { apply wp_ret. apply HQ; try done. intros j. lia. }
  unfold SECTSIZE, PAGE_SIZE in *. apply wp_bind, wp_ide_wait_ready; [done|]. intros s1 Hd1 Hq1.
  rewrite decide_False by lia. pose proof (base_same_page base a Hb ltac:(unfold PAGE_SIZE; lia)) as Hsp.
  apply wp_bind. eapply wp_mono.
  { apply (insl_law a n k); [by rewrite Hd1, Ht|]. eapply accessible_page; [done|].
    eapply accessible_keep; [apply Hq1|done]. }
  intros [] s2 (Hd2 & Hk2 & Ha2 & Hm2). assert (io_keep base s1 s2) as Hkb by (by eapply io_keep_page; [symmetry|]).
  unfold SECTSIZE in Hm2. destruct k as [|k].
  - cbn [transfer_loop]. apply wp_ret. apply HQ.
    + by rewrite Hd2.
    + etrans; [apply Hq1|done].
    + rewrite Hd2. cbn. by rewrite Hd1.
    + intros j Hj. assert (j = 0) as -> by lia. rewrite !Z.add_0_r, Ha2. by rewrite Hd1.
    + intros b Hsb Hlt. rewrite Hm2; [apply Hq1|by etrans; [symmetry|]|lia].
  - unfold page_base, PAGE_SIZE in Hb. rewrite w32_small by lia. apply (IH (n + 1)); [lia|lia| |..].
    + by rewrite Hd2.
    + eapply accessible_keep; [done|]. eapply accessible_keep; [apply Hq1|done].
    + intros s' Ht' Hk' Hs' Hd' Hm'. rewrite Hd2 in Hs', Hd'. cbn in Hs', Hd'. rewrite Hd1 in Hs', Hd'. apply HQ; [done| |done|..].
      * etrans; [apply Hq1|]. by etrans.
      * intros j Hj. destruct (decide (j = 0)) as [->|].
        { rewrite !Z.add_0_r. rewrite Hm' by (done || lia). by rewrite Ha2, Hd1. }
        replace (a + 512 * j) with (a + 512 + 512 * (j - 1)) by lia. rewrite Hd' by lia. f_equal. lia.
      * intros b Hsb Hlt. rewrite Hm' by (done || lia). rewrite Hm2; [apply Hq1|by etrans; [symmetry|]|lia].
Qed.

(** ** The transfer of a page *)
Definition page_at (va : Z) (s : S) : list sector := map (λ j, mem_at (va + SECTSIZE * j) s) (seqZ 0 8).
Definition page_on_disk (secno : Z) (s : S) : list sector := map (λ j, sectors (dev s) (secno + j)) (seqZ 0 8).
Definition idle (s : S) : Prop := transfer (dev s) = None.

Lemma wp_ide_write fuel secno va s (Q : Z → S → Prop) :
  (busy ≤ fuel)%nat → page_base va → 0 ≤ secno < 268435448 → idle s → accessible va s →
  (∀ s', idle s' → io_keep va s s' → page_at va s' = page_at va s → page_on_disk secno s' = page_at va s →
    (∀ j, j < secno ∨ secno + 8 ≤ j → sectors (dev s') j = sectors (dev s) j) → Q 0 s') →
  wp (ide_write fuel secno va 8) Q s.
Proof.
  intros Hf Hb Hsec Hi Hacc HQ. unfold ide_write. apply wp_bind, wp_assert; [done|].
  apply wp_bind, wp_ide_wait_ready; [done|]. intros s1 Hd1 Hq1.
  apply wp_bind, wp_ide_command; [by rewrite Hd1|lia|lia|]. intros s2 Ht2 Hs2 Hq2.
  assert (Hq : quiet s s2) by (by etrans). rewrite Hd1 in Hs2.
  apply (wp_write_loop fuel va Hf Hb _ secno); [lia|unfold SECTSIZE, PAGE_SIZE; lia|done| |].
  { eapply accessible_keep; [apply Hq|done]. }
  assert (Hin : ∀ j, j ∈ seqZ 0 8 → same_page va (va + SECTSIZE * j)).
  { intros j Hj%elem_of_seqZ. apply base_same_page; [done|]. unfold SECTSIZE, PAGE_SIZE. lia. }
  intros s' Ht' Hk' Hm' Hs'. apply HQ; [done| | | |].
  - etrans; [apply Hq|done].
  - apply map_ext_in. intros j Hj%list_elem_of_In. rewrite Hm' by (by apply Hin). apply Hq.
  - apply map_ext_in. intros j Hj%list_elem_of_In. pose proof Hj as Hj'%elem_of_seqZ. rewrite Hs', decide_True by lia.
    replace (secno + j - secno) with j by lia. apply Hq.
  - intros j Hj. rewrite Hs', decide_False by lia. by rewrite Hs2.
Qed.
Lemma wp_ide_read fuel secno va s (Q : Z → S → Prop) :
  (busy ≤ fuel)%nat → page_base va → 0 ≤ secno < 268435448 → idle s → accessible va s →
  (∀ s', idle s' → io_keep va s s' → page_at va s' = page_on_disk secno s → sectors (dev s') = sectors (dev s) → Q 0 s') →
  wp (ide_read fuel secno va 8) Q s.
Proof.
  intros Hf Hb Hsec Hi Hacc HQ. unfold ide_read. apply wp_bind, wp_assert; [done|].
  apply wp_bind, wp_ide_wait_ready; [done|]. intros s1 Hd1 Hq1.
  apply wp_bind, wp_ide_command; [by rewrite Hd1|lia|lia|]. intros s2 Ht2 Hs2 Hq2.
  assert (Hq : quiet s s2) by (by etrans). rewrite Hd1 in Hs2.
  apply (wp_read_loop fuel va Hf Hb _ secno); [lia|unfold SECTSIZE, PAGE_SIZE; lia|done| |].
  { eapply accessible_keep; [apply Hq|done]. }
  intros s' Ht' Hk' Hs' Hm' _. apply HQ; [done| | |congruence].
  - etrans; [apply Hq|done].
  - apply map_ext_in. intros j Hj%list_elem_of_In%elem_of_seqZ. rewrite Hm' by lia. by rewrite Hs2.
Qed.

(** C28: A page written to the disk is what a later read of the same sectors brings
    to any buffer; both transfers return 0 whatever the device's delays, and no
    other sector changes. *)
Theorem ide_write_read fuel secno va dst s :
  (busy ≤ fuel)%nat → page_base va → page_base dst → 0 ≤ secno < 268435448 → idle s →
  accessible va s → (∀ s', io_keep va s s' → accessible dst s') →
  wp (r1 ← ide_write fuel secno va 8; r2 ← ide_read fuel secno dst 8; mret (r1, r2)) (λ r s',
    r = (0, 0) ∧ idle s' ∧ page_at dst s' = page_at va s ∧
    ∀ j, j < secno ∨ secno + 8 ≤ j → sectors (dev s') j = sectors (dev s) j) s.
Proof.
  intros Hf Hva Hdst Hsec Hi Ha Hd. apply wp_bind, wp_ide_write; [done..|]. intros s1 Hi1 Hk1 _ Hdisk Hother.
  apply wp_bind, wp_ide_read; [done..|by apply Hd|]. intros s2 Hi2 _ Hpage Hs2. apply wp_ret.
  split_and!; [done|done|by rewrite Hpage, Hdisk|]. intros j Hj. rewrite Hs2. by apply Hother.
Qed.
End correct.

(** ** A disk

    The device of the standard by itself: busy for one poll after each command,
    with a memory of sectors, as a component of a larger state. It shows that
    the laws of [AtaLaws] can hold, and runs the driver on concrete sectors. *)
Record hw := HW { h_ata : ata Z; h_busy : bool; h_mem : Z → Z }.
Class Hardware (S : Type) := { get_hw : S → hw; put_hw : hw → S → S }.
Class HardwareLaws (S : Type) `{Hardware S} : Prop := {
  get_put x s : get_hw (put_hw x s) = x;
  put_get s : put_hw (get_hw s) s = s;
  put_put x y s : put_hw x (put_hw y s) = put_hw x s
}.
Section hardware.
Context {S : Type} {HS : Hardware S} {HL : HardwareLaws S}.
Implicit Types s : S.

Definition hw_inb (p : Z) (h : hw) : result hw Z :=
  if decide (p = STATUS_PORT) then
    if h_busy h then Ok IDE_BSY (HW (h_ata h) false (h_mem h)) else Ok IDE_DRDY h
  else Undef.
Definition hw_outb (p v : Z) (h : hw) : result hw unit :=
  Ok tt (HW (ata_outb p v (h_ata h)) (bool_decide (p = STATUS_PORT)) (h_mem h)).
Definition hw_data (wr : bool) (a : Z) (h : hw) : result hw unit :=
  let d := h_ata h in
  match transfer d with
  | Some (cmd, n, Datatypes.S k) =>
      if wr then
        Ok tt (HW (ATA (regs d) (after_sector cmd n k) (set_sector n (h_mem h a) (sectors d))) true (h_mem h))
      else
        Ok tt (HW (ATA (regs d) (after_sector cmd n k) (sectors d)) true (set_sector a (sectors d n) (h_mem h)))
  | _ => Undef
  end.
#[export] Instance hw_ports : Ports S := {|
  inb p := zoom get_hw put_hw (hw_inb p);
  outb p v := zoom get_hw put_hw (hw_outb p v);
  insl p a n := zoom get_hw put_hw (hw_data false a);
  outsl p a n := zoom get_hw put_hw (hw_data true a)
|}.
#[export] Instance hw_device : AtaDevice S Z := {|
  dev s := h_ata (get_hw s);
  mem_at a s := h_mem (get_hw s) a;
  accessible _ _ := True;
  io_keep _ s s' := ∃ x, s' = put_hw x s;
  polls s := if h_busy (get_hw s) then 1%nat else 0%nat;
  busy := 2%nat
|}.
#[export] Instance hw_laws : AtaLaws S Z.
Proof.
  split.
  - split.
    + intros s. exists (get_hw s). by rewrite put_get.
    + intros ??? [x ->] [y ->]. exists y. by rewrite put_put.
  - done.
  - done.
  - done.
  - intros s. cbn. by destruct (h_busy _); lia.
  - intros s. cbn. unfold zoom, hw_inb. rewrite decide_True by done. destruct (h_busy (get_hw s)) eqn:Hb.
    + eexists _, _. split; [done|]. rewrite !get_put. split_and!; [done|intros a; split; [done|by eexists]|].
      right. split; [by vm_compute|]. cbn. lia.
    + eexists _, _. split; [done|]. rewrite put_get. split_and!; [done|intros a; split; [done|]|by left].
      exists (get_hw s). by rewrite put_get.
  - intros p v s Ht. unfold wp. cbn. rewrite get_put. split; [done|]. intros a. split; [done|by eexists].
  - intros a n k s Ht _. cbn in Ht. unfold wp. cbn. unfold zoom, hw_data. rewrite Ht. rewrite get_put. cbn.
    split_and!; [done|by eexists|done].
  - intros a n k s Ht _. cbn in Ht. unfold wp. cbn. unfold zoom, hw_data. rewrite Ht. rewrite get_put. cbn.
    unfold set_sector, SECTSIZE. split_and!; [done|by eexists|by rewrite decide_True|].
    intros b _ Hb. by rewrite decide_False by lia.
Qed.
End hardware.

#[local] Instance hw_self : Hardware hw := {| get_hw h := h; put_hw x _ := x |}.
#[local] Instance hw_self_laws : HardwareLaws hw.
Proof. by split. Qed.
Definition w_hw : hw := HW (ATA ∅ None (λ n, n)) true (λ a, 2 * a).
Lemma ide_write_read_witness :
  wp (r1 ← ide_write 2 40968 4096 8; r2 ← ide_read 2 40968 8192 8; mret (r1, r2)) (λ r s',
    r = (0, 0) ∧ idle s' ∧ page_at 8192 s' = page_at 4096 w_hw ∧
    ∀ j, j < 40968 ∨ 40968 + 8 ≤ j → sectors (dev s') j = sectors (dev w_hw) j) w_hw.
Proof.
  apply (ide_write_read 2 40968 4096 8192 w_hw); try done. split; [by exists 2|done].
Defined.
