(* ===== verification/PageFile.v ===== *)
(** * The page file (kern/disk/pagefile_manager.c, kern/disk/pagefile_manager.h)

    The frames of the page file with their free list, and the two-level disk page
    tables of every environment, which say in which disk frame a page is. Disk
    page directories and tables are pages of the kernel heap, arrays of 1024
    words named by their addresses. The file is written and read through the
    driver of Ide.v, at virtual addresses of the running environment. *)

From S2P Require Import Prelude Queue Paging Ide.

Definition SECTOR_SIZE : Z := 512.
Definition PAGE_FILE_START_SECTOR : Z := 20 * 1048576 / SECTOR_SIZE.
Definition SECTOR_PER_PAGE : Z := PAGE_SIZE / SECTOR_SIZE.
Definition PAGE_FILE_SIZE : Z := 520 * 1048576.
Definition PAGES_PER_FILE : Z := PAGE_FILE_SIZE / PAGE_SIZE.
Definition E_NO_PAGE_FILE_SPACE : Z := -8.
Definition E_PAGE_NOT_EXIST_IN_PF : Z := -9.
Definition E_TABLE_NOT_EXIST_IN_PF : Z := -10.
Definition E_NO_VM : Z := -20.
Definition USER_HEAP_START : Z := 2147483648. (* 0x80000000 *)
Definition USER_HEAP_MAX : Z := 2684354560.   (* 0xA0000000 *)
Definition USTACKTOP : Z := USER_TOP - 2 * PAGE_SIZE.
Definition USER_PAGES_WS_MAX : Z := w32 (USER_HEAP_MAX + w32 (24 * USER_TOP) / PAGE_SIZE).
Definition USTACKBOTTOM : Z := ROUNDUP USER_PAGES_WS_MAX PAGE_SIZE.

(** The fields of a [struct Env] that the page file uses. *)
Record penv := PENV {
  env_page_directory : Z;
  disk_env_pgdir : Z;
  disk_env_pgdir_PA : Z;
  disk_env_tabledir : Z;
  disk_env_tabledir_PA : Z;
  nNewPageAdded : Z;
  nPageIn : Z;
  nPageOut : Z;
  initNumStackPages : Z
}.
Definition set_pgdir (d pa : Z) (x : penv) : penv :=
  PENV (env_page_directory x) d pa (disk_env_tabledir x) (disk_env_tabledir_PA x)
    (nNewPageAdded x) (nPageIn x) (nPageOut x) (initNumStackPages x).
Definition set_tabledir (d pa : Z) (x : penv) : penv :=
  PENV (env_page_directory x) (disk_env_pgdir x) (disk_env_pgdir_PA x) d pa
    (nNewPageAdded x) (nPageIn x) (nPageOut x) (initNumStackPages x).
(** [nNewPageAdded], [nPageIn] and [nPageOut] plus [a], [i] and [o]. *)
Definition count_pages (a i o : Z) (x : penv) : penv :=
  PENV (env_page_directory x) (disk_env_pgdir x) (disk_env_pgdir_PA x) (disk_env_tabledir x) (disk_env_tabledir_PA x)
    (w32 (nNewPageAdded x + a)) (w32 (nPageIn x + i)) (w32 (nPageOut x + o)) (initNumStackPages x).

(** Environments by address; disk frames by their index in [disk_frames_info]. *)
Record pfile := PFILE {
  disk_frames_info : list FrameInfo;
  disk_free_frame_list : list Z;
  dfllock : bool;
  penvs : gmap Z penv;
  disk_tables : gmap Z (list Z);
  ptr_zero_page : Z
}.
Definition set_disk_frames (x : list FrameInfo) (f : pfile) : pfile :=
  PFILE x (disk_free_frame_list f) (dfllock f) (penvs f) (disk_tables f) (ptr_zero_page f).
Definition set_disk_free (x : list Z) (f : pfile) : pfile :=
  PFILE (disk_frames_info f) x (dfllock f) (penvs f) (disk_tables f) (ptr_zero_page f).
Definition set_dfllock (x : bool) (f : pfile) : pfile :=
  PFILE (disk_frames_info f) (disk_free_frame_list f) x (penvs f) (disk_tables f) (ptr_zero_page f).
Definition set_penvs (x : gmap Z penv) (f : pfile) : pfile :=
  PFILE (disk_frames_info f) (disk_free_frame_list f) (dfllock f) x (disk_tables f) (ptr_zero_page f).
Definition set_disk_tables (x : gmap Z (list Z)) (f : pfile) : pfile :=
  PFILE (disk_frames_info f) (disk_free_frame_list f) (dfllock f) (penvs f) x (ptr_zero_page f).

Section code.
Context {X : Type} `{PageEnv (pfile * X)} `{Ports (mm * (pfile * X))}.
Notation PF := (M (mm * (pfile * X))).
(** How often the driver polls the disk at most. *)
Context (fuel : nat).

Definition pget {A} (f : pfile → A) : PF A := gets (λ s, f s.2.1).
Definition pset (f : pfile → pfile) : PF unit := modify (λ s, (s.1, (f s.2.1, s.2.2))).
Definition get_penv (e : Z) : PF penv := m ← pget penvs; unwrap (m !! e).
Definition upd_penv (e : Z) (f : penv → penv) : PF unit :=
  x ← get_penv e; pset (λ p, set_penvs (<[e := f x]> (penvs p)) p).
(** [t[i]] of a disk page directory or table. *)
Definition dentry (t i : Z) : PF Z :=
  a ← pget disk_tables; l ← unwrap (a !! t); unwrap (l !! Z.to_nat i).
Definition set_dentry (t i v : Z) : PF unit :=
  a ← pget disk_tables; l ← unwrap (a !! t);
  _ ← unwrap (l !! Z.to_nat i);
  pset (set_disk_tables (<[t := <[Z.to_nat i := w32 v]> l]> a)).
(** [memset(t, 0, PAGE_SIZE)]. *)
Definition new_disk_table (t : Z) : PF unit :=
  pset (λ f, set_disk_tables (<[t := replicate 1024 0]> (disk_tables f)) f).

Definition disk_sector (dfn : Z) : Z := w32 (PAGE_FILE_START_SECTOR + w32 (dfn * SECTOR_PER_PAGE)).
Definition read_disk_page (dfn va : Z) : PF Z := ide_read fuel (disk_sector dfn) va SECTOR_PER_PAGE.
Definition write_disk_page (dfn va : Z) : PF Z :=
  success ← ide_write fuel (disk_sector dfn) va SECTOR_PER_PAGE;
  if decide (success ≠ 0) then panic else mret success.

(** ** Disk frames *)
Definition acquire_dfllock : PF unit := h ← pget dfllock; assert_ (negb h) ;; pset (set_dfllock true).
Definition release_dfllock : PF unit := h ← pget dfllock; assert_ h ;; pset (set_dfllock false).
Definition initialize_disk_frame (i : Z) : PF unit :=
  l ← pget disk_frames_info;
  _ ← unwrap (l !! Z.to_nat i);
  pset (λ f, set_disk_frames (<[Z.to_nat i := zero_frame]> (disk_frames_info f)) f).
Definition give_disk_frame (i : Z) : PF unit :=
  l ← pget disk_free_frame_list; l' ← lq_insert_head i l; pset (set_disk_free l').
Definition initialize_disk_page_file : PF unit :=
  pset (set_disk_free []) ;;
  mfor (seqZ 1 (PAGES_PER_FILE - 1)) (λ i, initialize_disk_frame i ;; give_disk_frame i) ;;
  pset (set_dfllock false).
Definition to_disk_frame_number (fi : Z) : Z := w32 fi.
(** The return code and [*dfn]. *)
Definition allocate_disk_frame : PF (Z * Z) :=
  acquire_dfllock ;;
  l ← pget disk_free_frame_list;
  r ← (match l with
       | [] => mret (E_NO_PAGE_FILE_SPACE, 0)
       | fi :: _ =>
           l' ← lq_remove fi l;
           pset (set_disk_free l') ;;
           initialize_disk_frame fi ;;
           mret (0, to_disk_frame_number fi)
       end);
  release_dfllock ;;
  mret r.
Definition free_disk_frame (dfn : Z) : PF unit :=
  if decide (dfn = 0) then mret () else
  acquire_dfllock ;;
  l ← pget disk_frames_info;
  _ ← unwrap (l !! Z.to_nat dfn);
  give_disk_frame dfn ;;
  release_dfllock.

(** ** Disk page tables *)
(** The return code and [*ptr_disk_page_table]. *)
Definition get_disk_page_table (dir va : Z) (create : bool) : PF (Z * Z) :=
  pde ← dentry dir (PDX va);
  t ← table_address va pde;
  if decide (pde = 0) then
    if create then
      t ← kmalloc PAGE_SIZE;
      if decide (t = NULL) then mret (E_NO_VM, NULL) else
      pa ← gets (kheap_physical_address t);
      set_dentry dir (PDX va) (CONSTRUCT_ENTRY pa PERM_PRESENT) ;;
      new_disk_table t ;;
      mret (0, t)
    else mret (0, NULL)
  else mret (0, t).
Definition get_disk_page_directory (e : Z) : PF Z :=
  x ← get_penv e;
  if decide (disk_env_pgdir x = NULL) then
    d ← kmalloc PAGE_SIZE;
    if decide (d = NULL) then mret E_NO_VM else
    pa ← gets (kheap_physical_address d);
    upd_penv e (set_pgdir d pa) ;;
    new_disk_table d ;;
    mret 0
  else mret 0.
Definition get_disk_table_directory (e : Z) : PF Z :=
  x ← get_penv e;
  if decide (disk_env_tabledir x = NULL) then
    d ← kmalloc PAGE_SIZE;
    if decide (d = NULL) then mret E_NO_VM else
    pa ← gets (kheap_physical_address d);
    upd_penv e (set_tabledir d pa) ;;
    new_disk_table d ;;
    mret 0
  else mret 0.

(** ** Pages *)
(** The first lines of [pf_add_empty_env_page] and [pf_add_env_page]: the disk
    frame of a page, a new one if the page has none. *)
Definition env_page_frame (e va : Z) : PF (option Z) :=
  assert_ (bool_decide (va < KERNEL_BASE)) ;;
  _ ← get_disk_page_directory e;
  x ← get_penv e;
  r ← get_disk_page_table (disk_env_pgdir x) va true;
  dfn ← dentry r.2 (PTX va);
  if decide (dfn = 0) then
    a ← allocate_disk_frame;
    if decide (a.1 = E_NO_PAGE_FILE_SPACE) then mret None
    else set_dentry r.2 (PTX va) a.2 ;; mret (Some a.2)
  else mret (Some dfn).
Definition pf_add_env_page (e va dataSrc : Z) : PF Z :=
  d ← env_page_frame e va;
  match d with
  | None => mret E_NO_PAGE_FILE_SPACE
  | Some dfn => write_disk_page dfn dataSrc
  end.
Definition pf_add_empty_env_page (e va : Z) (initializeByZero : bool) : PF Z :=
  if initializeByZero then
    x ← get_penv e;
    when (bool_decide (USTACKBOTTOM < va) && bool_decide (va < w32 (USTACKTOP - initNumStackPages x * PAGE_SIZE)))
      (upd_penv e (count_pages 1 0 0)) ;;
    z ← pget ptr_zero_page;
    pf_add_env_page e va z
  else
    d ← env_page_frame e va;
    match d with
    | None => mret E_NO_PAGE_FILE_SPACE
    | Some _ => mret 0
    end.

(** Whether the page has no disk frame, the condition on line 285. *)
Definition not_in_file (dir va : Z) : PF bool :=
  r ← get_disk_page_table dir va false;
  if decide (r.2 = NULL) then mret true
  else dfn ← dentry r.2 (PTX va); mret (bool_decide (dfn = 0)).
(** The write of a mapped page, with its present bit set meanwhile. *)
Definition write_mapped_page (dir va dfn : Z) : PF Z :=
  p ← get_page_table dir va;
  e ← entry p.2 (PTX va);
  let origPerms := Z.land e 4095 in
  when (bool_decide (Z.land origPerms PERM_PRESENT = 0))
    (e ← entry p.2 (PTX va); set_entry p.2 (PTX va) (Z.lor e PERM_PRESENT)) ;;
  ret ← write_disk_page dfn (ROUNDDOWN va PAGE_SIZE);
  e ← entry p.2 (PTX va); set_entry p.2 (PTX va) (Z.land e 4294963200) ;;
  e ← entry p.2 (PTX va); set_entry p.2 (PTX va) (Z.lor e origPerms) ;;
  e ← entry p.2 (PTX va); set_entry p.2 (PTX va) (Z.land e (Z.lnot PERM_MODIFIED)) ;;
  mret ret.
(** The frame of the page is not used when USE_KHEAP is on. *)
Definition pf_update_env_page (e va : Z) (modified_page_frame_info : option Z) : PF Z :=
  assert_ (bool_decide (va < KERNEL_BASE)) ;;
  _ ← get_disk_page_directory e;
  x ← get_penv e;
  missing ← not_in_file (disk_env_pgdir x) va;
  when missing
    (if decide (USER_HEAP_START ≤ va < USER_HEAP_MAX ∨ USTACKBOTTOM ≤ va < USTACKTOP) then
       ret ← pf_add_empty_env_page e va false;
       if decide (ret = E_NO_PAGE_FILE_SPACE) then panic
       else upd_penv e (count_pages 1 0 0)
     else panic) ;;
  x ← get_penv e;
  r ← get_disk_page_table (disk_env_pgdir x) va false;
  dfn ← dentry r.2 (PTX va);
  ret ← write_mapped_page (env_page_directory x) va dfn;
  upd_penv e (count_pages 0 0 1) ;;
  mret ret.
Definition pf_read_env_page (e virtual_address : Z) : PF Z :=
  let va := ROUNDDOWN virtual_address PAGE_SIZE in
  x ← get_penv e;
  if decide (disk_env_pgdir x = 0) then mret E_PAGE_NOT_EXIST_IN_PF else
  r ← get_disk_page_table (disk_env_pgdir x) va false;
  if decide (r.2 = 0) then mret E_PAGE_NOT_EXIST_IN_PF else
  dfn ← dentry r.2 (PTX va);
  if decide (dfn = 0) then mret E_PAGE_NOT_EXIST_IN_PF else
  disk_read_error ← read_disk_page dfn va;
  pt_set_page_permissions (env_page_directory x) va 0 PERM_MODIFIED ;;
  upd_penv e (count_pages 0 1 0) ;;
  mret disk_read_error.
(** Clearing an entry and giving its frame back. *)
Definition clear_slot (t i : Z) : PF unit :=
  dfn ← dentry t i;
  set_dentry t i 0 ;;
  free_disk_frame dfn.
Definition pf_remove_env_page (e va : Z) : PF unit :=
  x ← get_penv e;
  if decide (disk_env_pgdir x = 0) then mret () else
  r ← get_disk_page_table (disk_env_pgdir x) va false;
  if decide (r.2 = 0) then mret () else clear_slot r.2 (PTX va).

(** ** The tables of an environment in the page file *)
Definition __pf_write_env_table (e va tableKVirtualAddress : Z) : PF Z :=
  assert_ (bool_decide (va < KERNEL_BASE)) ;;
  _ ← get_disk_table_directory e;
  x ← get_penv e;
  dfn ← dentry (disk_env_tabledir x) (PDX va);
  if decide (dfn = 0) then
    a ← allocate_disk_frame;
    if decide (a.1 = E_NO_PAGE_FILE_SPACE) then mret E_NO_PAGE_FILE_SPACE
    else set_dentry (disk_env_tabledir x) (PDX va) a.2 ;; write_disk_page a.2 tableKVirtualAddress
  else write_disk_page dfn tableKVirtualAddress.
Definition __pf_read_env_table (e va tableKVirtualAddress : Z) : PF Z :=
  x ← get_penv e;
  if decide (disk_env_tabledir x = 0) then mret E_TABLE_NOT_EXIST_IN_PF else
  dfn ← dentry (disk_env_tabledir x) (PDX va);
  if decide (dfn = 0) then mret E_TABLE_NOT_EXIST_IN_PF else
  read_disk_page dfn tableKVirtualAddress.
Definition __pf_remove_env_all_tables (e : Z) : PF unit :=
  x ← get_penv e;
  if decide (disk_env_tabledir x = 0) then mret () else
  mfor (seqZ 0 (PDX USER_TOP)) (clear_slot (disk_env_tabledir x)).
Definition __pf_remove_env_table (e va : Z) : PF unit :=
  x ← get_penv e;
  if decide (disk_env_tabledir x = 0) then mret () else clear_slot (disk_env_tabledir x) (PDX va).

(** ** The end of an environment *)
(** [kfree] of a disk directory or table. *)
Definition drop_disk_table (t : Z) : PF unit :=
  kfree t ;; pset (λ f, set_disk_tables (delete t (disk_tables f)) f).
Definition pf_free_table (dir pdeno : Z) : PF unit :=
  pde ← dentry dir pdeno;
  if decide (Z.land pde PERM_PRESENT = 0) then mret () else
  pt ← gets (kheap_virtual_address (EXTRACT_ADDRESS pde));
  mfor (seqZ 0 1024) (clear_slot pt) ;;
  set_dentry dir pdeno 0 ;;
  drop_disk_table pt.
Definition pf_free_env (e : Z) : PF unit :=
  x ← get_penv e;
  mfor (seqZ 0 (PDX USER_TOP)) (pf_free_table (disk_env_pgdir x)) ;;
  drop_disk_table (disk_env_pgdir x) ;;
  upd_penv e (set_pgdir 0 0) ;;
  if decide (disk_env_tabledir x = 0) then mret () else
  __pf_remove_env_all_tables e ;;
  drop_disk_table (disk_env_tabledir x) ;;
  upd_penv e (set_tabledir 0 0).

(** ** Counting *)
Fixpoint count_used (l : list Z) : Z :=
  match l with [] => 0 | d :: l => (if decide (d ≠ 0) then 1 else 0) + count_used l end.
Definition count_table (dir : Z) (acc pdIndex : Z) : PF Z :=
  pde ← dentry dir pdIndex;
  if decide (Z.land pde PERM_PRESENT = 0) then mret acc else
  pt ← gets (kheap_virtual_address (EXTRACT_ADDRESS pde));
  a ← pget disk_tables; l ← unwrap (a !! pt);
  mret (w32 (acc + count_used l)).
Fixpoint count_tables (dir : Z) (l : list Z) (acc : Z) : PF Z :=
  match l with [] => mret acc | i :: l => acc ← count_table dir acc i; count_tables dir l acc end.
Definition pf_calculate_allocated_pages (e : Z) : PF Z :=
  x ← get_penv e;
  r ← count_tables (disk_env_pgdir x) (seqZ 0 (PDX USER_TOP)) 0;
  mret (i32 r).
Definition pf_calculate_free_frames : PF Z :=
  acquire_dfllock ;;
  l ← pget disk_free_frame_list;
  release_dfllock ;;
  mret (i32 (w32 (Z.of_nat (length l)))).
End code.
