(* ===== verification/PageFileSpec.v ===== *)
(** * The page file: layout, invariant and lemmas

    The page file as a finite map. A [layout] says where the disk directories and
    tables of the environments are; the invariant [pf_inv] ties it to the
    environments, keeps the tables apart and says that every disk frame is either
    free or in exactly one entry. The lemmas follow the operations of PageFile.v
    step by step. *)

From S2P Require Import Prelude Queue Paging PagingSpec Ide PageFile.

(** The bits of an entry but for the accessed and modified bits. *)
Definition FRAME_BITS : Z := 4294967199. (* 0xFFFFFF9F *)
(** The processor has marked the page of [va] accessed or modified, in its page
    table [t] and in the directory. *)
Definition mark (t i b : Z) (a : gmap Z (list Z)) : gmap Z (list Z) :=
  match a !! t with
  | Some T => <[t := <[Z.to_nat i := Z.lor (T !!! Z.to_nat i) b]> T]> a
  | None => a
  end.
Definition mark_bits (b : Z) : Prop := b = 0 ∨ b = PERM_USED ∨ b = PERM_MODIFIED ∨ b = Z.lor PERM_USED PERM_MODIFIED.
Definition marked (dir t va : Z) (m m' : mm) : Prop :=
  ∃ b1 b2, mark_bits b1 ∧ mark_bits b2 ∧
    m' = set_arrays (mark t (PTX va) b2 (mark dir (PDX va) b1 (arrays m))) m.

(** What the page file needs of the kernel heap and of the memory behind the
    ports. [kpage t p s]: the page of the kernel heap at [t] is allocated and on
    the frame at the physical address [p]; [heap_room n s]: [n] more pages can be
    allocated; [cr3]: the page directory of the running environment; [keep]: what
    a call of the kernel heap leaves alone. *)
Class World (X sector : Type) {PE : PageEnv (pfile * X)} {PS : Ports (mm * (pfile * X))}
    {AD : AtaDevice (mm * (pfile * X)) sector} := {
  kpage : Z → Z → mm * (pfile * X) → Prop;
  heap_room : nat → mm * (pfile * X) → Prop;
  cr3 : mm * (pfile * X) → Z;
  keep : mm * (pfile * X) → mm * (pfile * X) → Prop
}.
Class WorldLaws (X sector : Type) {PE : PageEnv (pfile * X)} {PS : Ports (mm * (pfile * X))}
    {AD : AtaDevice (mm * (pfile * X)) sector} {WD : World X sector} : Prop := {
  #[global] world_ata :: AtaLaws (mm * (pfile * X)) sector;
  #[global] keep_pre :: PreOrder keep;
  keep_pf m f f' x : keep (m, (f, x)) (m, (f', x));
  keep_io s s' : keep s s' → dev s' = dev s ∧
    ∀ a, accessible a s → accessible a s' ∧ mem_at a s' = mem_at a s;
  kpage_pf t p m f f' x : kpage t p (m, (f, x)) → kpage t p (m, (f', x));
  room_pf n m f f' x : heap_room n (m, (f, x)) → heap_room n (m, (f', x));
  kpage_io a t p s s' : io_keep a s s' → kpage t p s → kpage t p s';
  room_zero s : heap_room 0 s;
  room_mono n s : heap_room (S n) s → heap_room n s;
  room_io a n s s' : io_keep a s s' → heap_room n s → heap_room n s';
  pf_io a s s' : io_keep a s s' → s'.2.1 = s.2.1;
  mm_io a t s s' : io_keep a s s' → resolves (cr3 s) a t s → marked (cr3 s) t a s.1 s'.1 ∧
    ∀ pa, kheap_virtual_address pa s' = kheap_virtual_address pa s;
  keep_user dir va t s s' : keep s s' → 0 ≤ va < USER_TOP → resolves dir va t s →
    resolves dir va t s' ∧ arrays s'.1 !! t = arrays s.1 !! t;
  keep_cr3 s s' : keep s s' → cr3 s' = cr3 s;
  pte_keep dir va t e s s' : resolves dir va t s → 0 ≤ va < USER_TOP → s' = (set_pte t va e s.1, s.2) →
    dev s' = dev s ∧ (∀ t p, kpage t p s → kpage t p s') ∧ (∀ n, heap_room n s → heap_room n s') ∧
    (Z.land e FRAME_BITS = Z.land (pte_of t va s.1) FRAME_BITS → ∀ a, mem_at a s' = mem_at a s ∧ (accessible a s → accessible a s'));
  kpage_va t p s : kpage t p s → kheap_virtual_address p s = t ∧ t ≠ NULL ∧ 0 ≤ p < 4294967296 ∧ (4096 | p);
  kmalloc_law n s : heap_room (S n) s → wp (kmalloc PAGE_SIZE) (λ t s',
    (∃ p, kpage t p s' ∧ kheap_physical_address t s' = p) ∧ (∀ p, ¬ kpage t p s) ∧
    (∀ t' p', kpage t' p' s → kpage t' p' s') ∧ heap_room n s' ∧ s'.2.1 = s.2.1 ∧ keep s s') s;
  kfree_law t p s : kpage t p s → wp (kfree t) (λ _ s',
    (∀ t' p', t' ≠ t → kpage t' p' s → kpage t' p' s') ∧ (∀ n, heap_room n s → heap_room n s') ∧
    s'.2.1 = s.2.1 ∧ keep s s') s
}.

(** ** The layout *)

(** The tables of an environment [e]: [(e, i)] with [0 ≤ i < USER_TABLES] is its i-th
    disk page table, [(e, -1)] its disk page directory, [(e, -2)] its table
    directory. A slot [(e, q)] is an entry that holds a disk frame number: page [q]
    of the address space, or for [q < 0] the page table number [-1 - q]. *)
Notation layout := (gmap (Z * Z) Z).
Definition PGDIR : Z := -1.
Definition TABLEDIR : Z := -2.
Definition slot_table (q : Z) : Z := if decide (q < 0) then TABLEDIR else q `div` 1024.
Definition slot_index (q : Z) : Z := if decide (q < 0) then -1 - q else q `mod` 1024.
Definition USER_TABLES : Z := 955. (* PDX(USER_TOP) *)
Definition slot_ok (q : Z) : Prop := - USER_TABLES ≤ q < USER_TABLES * 1024.
Definition words (t : Z) (f : pfile) : list Z := default [] (disk_tables f !! t).
Definition word (t i : Z) (f : pfile) : Z := words t f !!! Z.to_nat i.
Definition dfn (L : layout) (f : pfile) (e q : Z) : Z :=
  match L !! (e, slot_table q) with
  | Some t => word t (slot_index q) f
  | None => 0
  end.
Definition num_disk_frames (f : pfile) : Z := Z.of_nat (length (disk_frames_info f)).

Section inv.
Context {X sector : Type} {PE : PageEnv (pfile * X)} {PS : Ports (mm * (pfile * X))}
  {AD : AtaDevice (mm * (pfile * X)) sector} {WD : World X sector} {WL : WorldLaws X sector}.
Implicit Types s : mm * (pfile * X).
Implicit Types f : pfile.
Implicit Types L : layout.

(** The part about the tables. *)
Record tables_inv L s : Prop := {
  ti_key e k t : L !! (e, k) = Some t → -2 ≤ k < USER_TABLES ∧ is_Some (penvs s.2.1 !! e);
  ti_inj k k' t : L !! k = Some t → L !! k' = Some t → k = k';
  ti_page k t : L !! k = Some t → (∃ p, kpage t p s) ∧
    ∃ T, disk_tables s.2.1 !! t = Some T ∧ length T = 1024%nat;
  ti_env e x : penvs s.2.1 !! e = Some x →
    disk_env_pgdir x = default NULL (L !! (e, PGDIR)) ∧ disk_env_tabledir x = default NULL (L !! (e, TABLEDIR));
  ti_pde e D i : L !! (e, PGDIR) = Some D → 0 ≤ i < 1024 →
    match L !! (e, i) with
    | Some t => ∃ p, kpage t p s ∧ word D i s.2.1 = CONSTRUCT_ENTRY p PERM_PRESENT
    | None => word D i s.2.1 = 0
    end;
  ti_dir e i t : 0 ≤ i < 1024 → L !! (e, i) = Some t → is_Some (L !! (e, PGDIR))
}.
(** The part about the disk frames: [1 .. N-1] are free or in one slot. *)
Record frames_inv L f : Prop := {
  fi_n : num_disk_frames f ≤ PAGES_PER_FILE;
  fi_lock : dfllock f = false;
  fi_nodup : NoDup (disk_free_frame_list f);
  fi_free d : d ∈ disk_free_frame_list f → 1 ≤ d < num_disk_frames f;
  fi_slot e q : slot_ok q → dfn L f e q = 0 ∨
    1 ≤ dfn L f e q < num_disk_frames f ∧ dfn L f e q ∉ disk_free_frame_list f;
  fi_inj e q e' q' : slot_ok q → slot_ok q' → dfn L f e q = dfn L f e' q' → dfn L f e q ≠ 0 → (e, q) = (e', q');
  fi_all d : 1 ≤ d < num_disk_frames f → d ∉ disk_free_frame_list f → ∃ e q, slot_ok q ∧ dfn L f e q = d
}.
Definition pf_inv L s : Prop := tables_inv L s ∧ frames_inv L s.2.1 ∧ idle s.

(** ** Slots *)
Lemma slot_table_range q : slot_ok q → -2 ≤ slot_table q < USER_TABLES ∧ slot_table q ≠ PGDIR.
Proof.
  unfold slot_ok, slot_table, TABLEDIR, PGDIR, USER_TABLES. intros Hq. case_decide; [lia|].
  pose proof (Z.div_pos q 1024 ltac:(lia) ltac:(lia)). pose proof (Z.div_lt_upper_bound q 1024 955 ltac:(lia) ltac:(lia)). lia.
Qed.
Lemma slot_index_range q : slot_ok q → 0 ≤ slot_index q < 1024.
Proof. unfold slot_ok, slot_index, USER_TABLES. intros Hq. case_decide; [lia|]. apply Z.mod_pos_bound. lia. Qed.
Lemma slot_eq q q' : slot_ok q → slot_ok q' → slot_table q = slot_table q' → slot_index q = slot_index q' → q = q'.
Proof.
  unfold slot_ok, slot_table, slot_index, TABLEDIR. intros Hq Hq'.
  pose proof (Z.div_mod q 1024 ltac:(lia)). pose proof (Z.div_mod q' 1024 ltac:(lia)).
  destruct (decide (q < 0)), (decide (q' < 0)); [lia| | |lia].
  - pose proof (Z.div_pos q' 1024 ltac:(lia) ltac:(lia)). lia.
  - pose proof (Z.div_pos q 1024 ltac:(lia) ltac:(lia)). lia.
Qed.
(** The slot of entry [i] of page table [k], and of entry [i] of the table directory. *)
Lemma table_slot k i : 0 ≤ k < USER_TABLES → 0 ≤ i < 1024 →
  slot_ok (k * 1024 + i) ∧ slot_table (k * 1024 + i) = k ∧ slot_index (k * 1024 + i) = i.
Proof.
  unfold USER_TABLES, slot_ok, slot_table, slot_index. intros Hk Hi. rewrite !decide_False by lia. split; [unfold USER_TABLES; lia|].
  rewrite (Z.add_comm (k * 1024)), Z.div_add, Z.mod_add by lia. rewrite Z.div_small, Z.mod_small by lia. lia.
Qed.
Lemma tabledir_slot i : 0 ≤ i < USER_TABLES → slot_ok (-1 - i) ∧ slot_table (-1 - i) = TABLEDIR ∧ slot_index (-1 - i) = i.
Proof.
  unfold USER_TABLES, slot_ok, slot_table, slot_index. intros Hi. rewrite !decide_True by lia. unfold USER_TABLES. lia.
Qed.
Definition page_slot (va : Z) : Z := va `div` 4096.
Lemma page_slot_ok va : 0 ≤ va < USER_TOP → slot_ok (page_slot va) ∧
  slot_table (page_slot va) = PDX va ∧ slot_index (page_slot va) = PTX va ∧ 0 ≤ PDX va < 1024 ∧ 0 ≤ PTX va < 1024 ∧ PDX va < USER_TABLES.
Proof.
  intros Hva. unfold USER_TOP in Hva. unfold page_slot, slot_ok, slot_table, slot_index, PDX, PTX, USER_TABLES. rewrite w32_small by lia.
  change 1023 with (Z.ones 10). rewrite !Z.land_ones, !Z.shiftr_div_pow2 by lia.
  change (2 ^ 22) with (4096 * 1024). change (2 ^ 12) with 4096. change (2 ^ 10) with 1024.
  rewrite <- Z.div_div by lia.
  pose proof (Z.div_pos va 4096 ltac:(lia) ltac:(lia)). pose proof (Z.div_lt_upper_bound va 4096 977920 ltac:(lia) ltac:(lia)).
  pose proof (Z.div_pos (va `div` 4096) 1024 ltac:(lia) ltac:(lia)).
  pose proof (Z.div_lt_upper_bound (va `div` 4096) 1024 955 ltac:(lia) ltac:(lia)).
  rewrite !decide_False by lia. rewrite (Z.mod_small (va `div` 4096 `div` 1024)) by lia.
  pose proof (Z.mod_pos_bound (va `div` 4096) 1024 ltac:(lia)). lia.
Qed.
Lemma present_entry p : 0 ≤ p < 4294967296 → (4096 | p) →
  CONSTRUCT_ENTRY p PERM_PRESENT ≠ 0 ∧ EXTRACT_ADDRESS (CONSTRUCT_ENTRY p PERM_PRESENT) = p ∧
  0 ≤ CONSTRUCT_ENTRY p PERM_PRESENT < 4294967296 ∧ Z.land (CONSTRUCT_ENTRY p PERM_PRESENT) PERM_PRESENT ≠ 0.
Proof.
  intros Hp [k ->]. assert (Hk : 0 ≤ k < 1048576) by lia.
  assert (to_physical_address k = k * 4096) as Hpa.
  { unfold to_physical_address. rewrite Z.shiftl_mul_pow2 by lia. change (2 ^ 12) with 4096. by apply w32_small. }
  rewrite <- Hpa. unfold PERM_PRESENT. rewrite CONSTRUCT_entry by lia.
  destruct (entry_parts k 1) as (_ & He & _); [lia..|]. split_and!; [lia|done|lia|lia|].
  change 1 with (Z.ones 1). rewrite Z.land_ones by lia. change (Z.ones 1) with 1. change (2 ^ 1) with 2.
  replace (4096 * k + 1) with (1 + (2048 * k) * 2) by lia. rewrite Z.mod_add by lia. done.
Qed.

(** ** Steps that change no word *)

(** [f'] has the words of [f] in the tables of [L]. *)
Definition same_words L f f' : Prop := ∀ e q, slot_ok q → dfn L f' e q = dfn L f e q.
Lemma frames_inv_step L L' f f' :
  frames_inv L f → length (disk_frames_info f') = length (disk_frames_info f) →
  disk_free_frame_list f' = disk_free_frame_list f → dfllock f' = dfllock f →
  (∀ e q, slot_ok q → dfn L' f' e q = dfn L f e q) → frames_inv L' f'.
Proof.
  intros [] Hn Hf Hl Hd. unfold num_disk_frames in *. split; unfold num_disk_frames; rewrite ?Hn, ?Hf, ?Hl; try done.
  - intros e q Hq. rewrite Hd by done. by apply fi_slot0.
  - intros e q e' q' Hq Hq'. rewrite !Hd by done. by apply fi_inj0.
  - intros d Hd1 Hd2. destruct (fi_all0 d Hd1 Hd2) as (e & q & Hq & Heq). exists e, q. by rewrite Hd.
Qed.
Lemma tables_inv_step L s s' :
  tables_inv L s → penvs s'.2.1 = penvs s.2.1 → disk_tables s'.2.1 = disk_tables s.2.1 →
  (∀ k t p, L !! k = Some t → kpage t p s → kpage t p s') → tables_inv L s'.
Proof.
  intros [] He Ht Hk. unfold word, words in *. split; unfold word, words; rewrite ?He, ?Ht; try done.
  - intros k t HL. destruct (ti_page0 k t HL) as [[p Hp] HT]. split; [|done]. exists p. by eapply Hk.
  - intros e D i HD Hi. specialize (ti_pde0 e D i HD Hi). destruct (L !! (e, i)) as [t|] eqn:HL; [|done].
    destruct ti_pde0 as (p & Hp & Hw). exists p. split; [by eapply Hk|done].
Qed.
Lemma dfn_step L f f' e q : disk_tables f' = disk_tables f → dfn L f' e q = dfn L f e q.
Proof. intros H. unfold dfn, word, words. by rewrite H. Qed.
(** A step of the device or of the kernel heap. *)
Lemma pf_inv_io L a s s' : pf_inv L s → io_keep a s s' → idle s' → pf_inv L s'.
Proof.
  intros (Ht & Hf & _) Hio Hi. pose proof (pf_io a s s' Hio) as Hpf. split_and!; [|by rewrite Hpf|done].
  eapply tables_inv_step; [done|by rewrite Hpf..|]. intros k t p _. by apply (kpage_io a).
Qed.
Lemma pf_inv_keep L s s' : pf_inv L s → keep s s' → s'.2.1 = s.2.1 → (∀ k t p, L !! k = Some t → kpage t p s → kpage t p s') → pf_inv L s'.
Proof.
  intros (Ht & Hf & Hi) Hk Hpf Hp. destruct (keep_io _ _ Hk) as [Hd _]. split_and!; [|by rewrite Hpf|unfold idle; by rewrite Hd].
  eapply tables_inv_step; [done|by rewrite Hpf..|done].
Qed.

(** ** Symbolic execution *)
Lemma wp_pget {A} (g : pfile → A) Q s : Q (g s.2.1) s → wp (pget g) Q s.
Proof. done. Qed.
Lemma wp_pset g Q s : Q tt (s.1, (g s.2.1, s.2.2)) → wp (pset (X := X) g) Q s.
Proof. done. Qed.
Lemma wp_get_penv e x Q s : penvs s.2.1 !! e = Some x → Q x s → wp (get_penv e) Q s.
Proof. intros He HQ. apply wp_bind, wp_pget. by eapply wp_unwrap. Qed.
Lemma wp_upd_penv e g x Q s :
  penvs s.2.1 !! e = Some x → Q tt (s.1, (set_penvs (<[e := g x]> (penvs s.2.1)) s.2.1, s.2.2)) → wp (upd_penv e g) Q s.
Proof. intros He HQ. apply wp_bind. eapply wp_get_penv; [done|]. by apply wp_pset. Qed.
Lemma wp_dentry t i T Q s :
  disk_tables s.2.1 !! t = Some T → length T = 1024%nat → 0 ≤ i < 1024 → Q (word t i s.2.1) s → wp (dentry t i) Q s.
Proof.
  intros HT Hlen Hi HQ. apply wp_bind, wp_pget. apply wp_bind. eapply wp_unwrap; [done|]. eapply wp_unwrap; [|done].
  unfold word, words. rewrite HT. apply list_lookup_lookup_total_lt. cbn. lia.
Qed.
Definition put_word (t i v : Z) (f : pfile) : pfile :=
  set_disk_tables (<[t := <[Z.to_nat i := v]> (words t f)]> (disk_tables f)) f.
Lemma wp_set_dentry t i v T Q s :
  disk_tables s.2.1 !! t = Some T → length T = 1024%nat → 0 ≤ i < 1024 → 0 ≤ v < 4294967296 →
  Q tt (s.1, (put_word t i v s.2.1, s.2.2)) → wp (set_dentry t i v) Q s.
Proof.
  intros HT Hlen Hi Hv HQ. apply wp_bind, wp_pget. apply wp_bind. eapply wp_unwrap; [done|].
  destruct (lookup_lt_is_Some_2 T (Z.to_nat i)) as [e He]; [lia|].
  apply wp_bind. eapply wp_unwrap; [done|]. apply wp_pset. rewrite w32_small by done.
  unfold put_word, words in HQ. by rewrite HT in HQ.
Qed.
Lemma word_put t i v t' i' T f :
  disk_tables f !! t = Some T → length T = 1024%nat → 0 ≤ i < 1024 → 0 ≤ i' < 1024 →
  word t' i' (put_word t i v f) = if decide (t' = t ∧ i' = i) then v else word t' i' f.
Proof.
  intros HT Hlen Hi Hi'. unfold word, words, put_word. cbn. unfold words. rewrite HT. cbn.
  destruct (decide (t' = t)) as [->|Hne].
  - rewrite lookup_insert_eq, HT. cbn. destruct (decide (i' = i)) as [->|Hne].
    + rewrite decide_True by done. apply list_lookup_total_insert_eq. lia.
    + rewrite decide_False by tauto. apply list_lookup_total_insert_ne. lia.
  - rewrite lookup_insert_ne by done. by rewrite decide_False by tauto.
Qed.

(** ** New tables *)

(** The environments, their address spaces and the size of the page file stay. *)
Record evolves f f' : Prop := {
  ev_env e : match penvs f !! e with
             | Some x => ∃ x', penvs f' !! e = Some x' ∧ env_page_directory x' = env_page_directory x ∧
                 initNumStackPages x' = initNumStackPages x
             | None => penvs f' !! e = None
             end;
  ev_frames : length (disk_frames_info f') = length (disk_frames_info f);
  ev_zero : ptr_zero_page f' = ptr_zero_page f
}.
#[export] Instance evolves_pre : PreOrder evolves.
Proof.
  split.
  - intros f. split; [|done|done]. intros e. destruct (penvs f !! e); eauto.
  - intros f g h [E1 F1 Z1] [E2 F2 Z2]. split; [|congruence|congruence]. intros e. specialize (E1 e). specialize (E2 e).
    destruct (penvs f !! e) as [x|]; [|by rewrite E1 in E2].
    destruct E1 as (y & Hy & ? & ?). rewrite Hy in E2. destruct E2 as (z & Hz & ? & ?). exists z. split_and!; congruence.
Qed.
Lemma evolves_tables f t : evolves f (set_disk_tables t f).
Proof. split; [|done|done]. intros e. cbn. destruct (penvs f !! e); eauto. Qed.
Lemma evolves_upd f e x g : penvs f !! e = Some x → env_page_directory (g x) = env_page_directory x →
  initNumStackPages (g x) = initNumStackPages x → evolves f (set_penvs (<[e := g x]> (penvs f)) f).
Proof.
  intros He Hg Hi. split; [|done|done]. intros e'. cbn. destruct (decide (e' = e)) as [->|].
  - rewrite He, lookup_insert_eq. eauto.
  - rewrite lookup_insert_ne by done. destruct (penvs f !! e'); eauto.
Qed.

(** The tables of [L] are all in [L']. *)
Definition layout_le L L' : Prop := ∀ k t, L !! k = Some t → L' !! k = Some t.
Definition need L (k : Z * Z) : nat := match L !! k with Some _ => 0 | None => 1 end.

Definition fresh_table L (t : Z) : Prop := ∀ k, L !! k ≠ Some t.
Lemma fresh_kpage L s t : tables_inv L s → (∀ p, ¬ kpage t p s) → fresh_table L t.
Proof. intros HL Hn k Hk. destruct (ti_page _ _ HL k t Hk) as [[p Hp] _]. by eapply Hn. Qed.
Lemma word_new t t' i f : word t' i (set_disk_tables (<[t := replicate 1024 0]> (disk_tables f)) f)
  = if decide (t' = t) then replicate 1024 0 !!! Z.to_nat i else word t' i f.
Proof.
  unfold word, words. cbn. case_decide as Ht; [subst; by rewrite lookup_insert_eq|by rewrite lookup_insert_ne].
Qed.
Lemma zero_word i : 0 ≤ i < 1024 → replicate 1024 (0 : Z) !!! Z.to_nat i = 0.
Proof. intros. apply lookup_total_replicate_2. lia. Qed.
Lemma dfn_new L f f' e k t e' q :
  L !! (e, k) = None → fresh_table L t → slot_ok q →
  (∀ t' i, t' ≠ t → fresh_table L t' ∨ (∃ k, L !! k = Some t' ∧ k.2 ≠ PGDIR) → word t' i f' = word t' i f) →
  (∀ i, 0 ≤ i < 1024 → word t i f' = 0) →
  dfn (<[(e, k) := t]> L) f' e' q = dfn L f e' q.
Proof.
  intros HL Hfr Hq Hw Hz. unfold dfn. destruct (decide ((e', slot_table q) = (e, k))) as [Heq|Hne].
  - rewrite Heq, lookup_insert_eq, HL. apply Hz. by apply slot_index_range.
  - rewrite lookup_insert_ne by done. destruct (L !! (e', slot_table q)) as [t'|] eqn:HL'; [|done].
    apply Hw; [intros ->; by eapply Hfr|]. right. eexists. split; [done|]. cbn. by apply slot_table_range.
Qed.

(** The common body of [get_disk_page_directory] and [get_disk_table_directory]. *)
Definition directory_body (getd : penv → Z) (setd : Z → Z → penv → penv) (e : Z) : M (mm * (pfile * X)) Z :=
  x ← get_penv e;
  if decide (getd x = NULL) then
    d ← kmalloc PAGE_SIZE;
    if decide (d = NULL) then mret E_NO_VM else
    pa ← gets (kheap_physical_address d);
    upd_penv e (setd d pa) ;;
    new_disk_table d ;;
    mret 0
  else mret 0.
Definition directory_of (k : Z) (getd : penv → Z) (setd : Z → Z → penv → penv) : Prop :=
  k = PGDIR ∧ getd = disk_env_pgdir ∧ setd = set_pgdir ∨ k = TABLEDIR ∧ getd = disk_env_tabledir ∧ setd = set_tabledir.
Lemma wp_directory k getd setd L e x s (Q : Z → mm * (pfile * X) → Prop) (n : nat) :
  directory_of k getd setd →
  pf_inv L s → penvs s.2.1 !! e = Some x → heap_room (need L (e, k) + n) s →
  (∀ L' d s' x', pf_inv L' s' → layout_le L L' → L' !! (e, k) = Some d → (∀ i, 0 ≤ i → L' !! (e, i) = L !! (e, i)) →
    penvs s'.2.1 !! e = Some x' → getd x' = d → (∀ e q, slot_ok q → dfn L' s'.2.1 e q = dfn L s.2.1 e q) →
    disk_free_frame_list s'.2.1 = disk_free_frame_list s.2.1 →
    keep s s' → evolves s.2.1 s'.2.1 → heap_room n s' → Q 0 s') →
  wp (directory_body getd setd e) Q s.
Proof.
  intros Hk (HL & HF & Hidle) He Hroom HQ. unfold directory_body. apply wp_bind. eapply wp_get_penv; [done|].
  assert (Hkr : k = PGDIR ∨ k = TABLEDIR) by (destruct Hk as [(-> & _)|(-> & _)]; tauto). unfold PGDIR, TABLEDIR in Hkr.
  assert (Hdir : getd x = default NULL (L !! (e, k))).
  { destruct (ti_env _ _ HL e x He). by destruct Hk as [(-> & -> & _)|(-> & -> & _)]. }
  unfold need in Hroom. destruct (L !! (e, k)) as [d|] eqn:Hd.
  { destruct (ti_page _ _ HL _ _ Hd) as [[p Hp] _]. destruct (kpage_va _ _ _ Hp) as (_ & Hnn & _).
    rewrite decide_False by (rewrite Hdir; cbn; done). apply wp_ret. by apply (HQ L d s x); [split_and!|by intros ??|..]. }
  rewrite decide_True by (rewrite Hdir; done). apply wp_bind. eapply wp_mono; [by apply (kmalloc_law n)|].
  intros t s1 ((p & Hp & Hpa) & Hfresh & Hkp & Hroom1 & Hpf & Hkeep). destruct (kpage_va _ _ _ Hp) as (_ & Hnn & _ & _).
  rewrite decide_False by done. apply wp_bind, wp_gets. rewrite Hpa. destruct s1 as [m1 [f1 x1]]. cbn in Hpf. subst f1.
  apply wp_bind. eapply wp_upd_penv; [done|]. cbn [fst snd]. apply wp_bind, wp_pset. cbn [fst snd]. apply wp_ret.
  pose proof (fresh_kpage L s t HL Hfresh) as Hfr.
  set (f' := set_disk_tables _ _). set (f := s.2.1) in *.
  assert (Hget : getd (setd t p x) = t ∧ env_page_directory (setd t p x) = env_page_directory x ∧
    initNumStackPages (setd t p x) = initNumStackPages x).
  { by destruct Hk as [(_ & -> & ->)|(_ & -> & ->)]. }
  assert (Hword : ∀ t' i, t' ≠ t → word t' i f' = word t' i f) by (intros t' i Hne; unfold f'; by rewrite word_new, decide_False).
  assert (Hzero : ∀ i, 0 ≤ i < 1024 → word t i f' = 0) by (intros i Hi; unfold f'; rewrite word_new, decide_True by done; by apply zero_word).
  assert (Hdfn : ∀ e' q, slot_ok q → dfn (<[(e, k) := t]> L) f' e' q = dfn L f e' q).
  { intros e' q Hq. apply dfn_new; [done|done|done|by intros; apply Hword|done]. }
  apply (HQ (<[(e, k) := t]> L) t (m1, (f', x1)) (setd t p x)).
  - split_and!.
    + split.
      * intros e' k' t' Hk'. cbn. rewrite lookup_insert_is_Some. destruct (decide ((e', k') = (e, k))) as [Heq|Hne].
        { injection Heq as -> ->. unfold USER_TABLES. split; [lia|by left]. }
        rewrite lookup_insert_ne in Hk' by done. destruct (ti_key _ _ HL e' k' t' Hk') as [Hr Hex]. split; [done|].
        destruct (decide (e = e')); [by left|by right].
      * intros k1 k2 t'. rewrite !lookup_insert_Some. intros [[<- <-]|[Hne Hk1]] [[<- Heq]|[Hne' Hk2]]; [done| | |by eapply ti_inj].
        { exfalso. by eapply Hfr. } { exfalso. subst t'. by eapply Hfr. }
      * intros k' t' Hk'. apply lookup_insert_Some in Hk' as [[<- <-]|[Hne Hk']].
        { split; [exists p; by eapply kpage_pf|]. exists (replicate 1024 0). cbn. by rewrite lookup_insert_eq. }
        destruct (ti_page _ _ HL _ _ Hk') as [[p' Hp'] HT]. split; [exists p'; eapply kpage_pf; by apply Hkp|].
        cbn. rewrite lookup_insert_ne; [done|]. intros ->. by eapply Hfr.
      * intros e' x' He'. cbn in He'. apply lookup_insert_Some in He' as [[<- <-]|[Hne He']].
        { destruct (ti_env _ _ HL e x He) as [H1 H2].
          destruct Hk as [(-> & -> & ->)|(-> & -> & ->)]; rewrite lookup_insert_eq, lookup_insert_ne by (unfold PGDIR, TABLEDIR; congruence); done. }
        rewrite !lookup_insert_ne by congruence. by apply (ti_env _ _ HL).
      * intros e' D i HD Hi. rewrite (lookup_insert_ne _ (e, k) (e', i)) by (intros [= ? ?]; lia). cbn [fst snd].
        destruct (decide ((e', PGDIR) = (e, k))) as [Heq|Hne].
        { injection Heq as -> Hkp'. rewrite <- Hkp', lookup_insert_eq in HD. injection HD as <-.
          destruct (L !! (e, i)) as [t'|] eqn:Hi'; [|by apply Hzero].
          destruct (ti_dir _ _ HL e i t' Hi Hi') as [? Hs]. rewrite Hkp' in Hs. congruence. }
        rewrite lookup_insert_ne in HD by congruence. pose proof (ti_pde _ _ HL e' D i HD Hi) as Hpde.
        rewrite Hword by (intros ->; by eapply Hfr).
        destruct (L !! (e', i)); [|done]. destruct Hpde as (p' & Hp' & Hw). exists p'. split; [eapply kpage_pf; by apply Hkp|done].
      * intros e' i t' Hi Ht'. rewrite lookup_insert_is_Some.
        rewrite lookup_insert_ne in Ht' by (intros [= ? ?]; lia). destruct (decide ((e, k) = (e', PGDIR))); [by left|right].
        split; [done|]. by eapply (ti_dir _ _ HL).
    + by eapply frames_inv_step.
    + unfold idle in *. destruct (keep_io _ _ (keep_pf m1 f f' x1)) as [-> _]. by destruct (keep_io _ _ Hkeep) as [-> _].
  - intros k' t' Hk'. destruct (decide (k' = (e, k))) as [->|]; [congruence|]. by rewrite lookup_insert_ne.
  - by rewrite lookup_insert_eq.
  - intros i Hi. rewrite lookup_insert_ne; [done|]. intros [= ?]. lia.
  - cbn. by rewrite lookup_insert_eq.
  - apply Hget.
  - exact Hdfn.
  - done.
  - etrans; [exact Hkeep|apply keep_pf].
  - etrans; [|apply evolves_tables]. apply (evolves_upd f e x); [done|apply Hget..].
  - by eapply room_pf.
Qed.
Lemma wp_page_directory L e x s (Q : Z → mm * (pfile * X) → Prop) (n : nat) :
  pf_inv L s → penvs s.2.1 !! e = Some x → heap_room (need L (e, PGDIR) + n) s →
  (∀ L' d s' x', pf_inv L' s' → layout_le L L' → L' !! (e, PGDIR) = Some d → (∀ i, 0 ≤ i → L' !! (e, i) = L !! (e, i)) →
    penvs s'.2.1 !! e = Some x' → disk_env_pgdir x' = d → (∀ e q, slot_ok q → dfn L' s'.2.1 e q = dfn L s.2.1 e q) →
    disk_free_frame_list s'.2.1 = disk_free_frame_list s.2.1 →
    keep s s' → evolves s.2.1 s'.2.1 → heap_room n s' → Q 0 s') →
  wp (get_disk_page_directory e) Q s.
Proof. intros HI He Hr HQ. eapply (wp_directory PGDIR disk_env_pgdir set_pgdir); [by left|done|done|done|exact HQ]. Qed.

Lemma user_check_pf va : 0 ≤ va < USER_TOP → CHECK_IF_KERNEL_ADDRESS va = false.
Proof.
  intros [? Hlt]. apply bool_decide_eq_false. unfold USER_TOP in *. rewrite w32_small by lia. lia.
Qed.
Lemma wp_table_address va pde s (Q : Z → mm * (pfile * X) → Prop) :
  0 ≤ va < USER_TOP → Q (kheap_virtual_address (EXTRACT_ADDRESS pde) s) s → wp (table_address va pde) Q s.
Proof. intros Hva HQ. unfold table_address. rewrite user_check_pf by done. by apply wp_gets. Qed.
(** A page table that is there. *)
Lemma wp_find_table L e d va create s (Q : Z * Z → mm * (pfile * X) → Prop) t :
  tables_inv L s → L !! (e, PGDIR) = Some d → 0 ≤ va < USER_TOP → L !! (e, PDX va) = Some t →
  Q (0, t) s → wp (get_disk_page_table d va create) Q s.
Proof.
  intros HL Hd Hva Ht HQ. destruct (page_slot_ok va Hva) as (_ & _ & _ & HP & _).
  destruct (ti_page _ _ HL _ _ Hd) as [_ (D & HD & Hlen)].
  pose proof (ti_pde _ _ HL e d (PDX va) Hd HP) as Hpde. rewrite Ht in Hpde. destruct Hpde as (p & Hp & Hw).
  destruct (kpage_va _ _ _ Hp) as (Hkva & Hnn & Hpr & Hpa). destruct (present_entry p Hpr Hpa) as (Hne & Hex & _).
  apply wp_bind. eapply wp_dentry; [done|done|done|]. rewrite Hw. apply wp_bind, wp_table_address; [done|].
  rewrite decide_False by done. apply wp_ret. by rewrite Hex, Hkva.
Qed.
Lemma wp_no_table L e d va s (Q : Z * Z → mm * (pfile * X) → Prop) :
  tables_inv L s → L !! (e, PGDIR) = Some d → 0 ≤ va < USER_TOP → L !! (e, PDX va) = None →
  Q (0, NULL) s → wp (get_disk_page_table d va false) Q s.
Proof.
  intros HL Hd Hva Ht HQ. destruct (page_slot_ok va Hva) as (_ & _ & _ & HP & _).
  destruct (ti_page _ _ HL _ _ Hd) as [_ (D & HD & Hlen)].
  pose proof (ti_pde _ _ HL e d (PDX va) Hd HP) as Hpde. rewrite Ht in Hpde.
  apply wp_bind. eapply wp_dentry; [done|done|done|]. rewrite Hpde. apply wp_bind, wp_table_address; [done|].
  rewrite decide_True by done. by apply wp_ret.
Qed.
Lemma wp_page_table L e d va s (Q : Z * Z → mm * (pfile * X) → Prop) (n : nat) :
  pf_inv L s → L !! (e, PGDIR) = Some d → 0 ≤ va < USER_TOP → heap_room (need L (e, PDX va) + n) s →
  (∀ L' t s', pf_inv L' s' → layout_le L L' → L' !! (e, PDX va) = Some t →
    penvs s'.2.1 = penvs s.2.1 → (∀ e q, slot_ok q → dfn L' s'.2.1 e q = dfn L s.2.1 e q) →
    disk_free_frame_list s'.2.1 = disk_free_frame_list s.2.1 →
    keep s s' → evolves s.2.1 s'.2.1 → heap_room n s' → Q (0, t) s') →
  wp (get_disk_page_table d va true) Q s.
Proof.
  intros (HL & HF & Hidle) Hd Hva Hroom HQ. unfold need in Hroom. destruct (L !! (e, PDX va)) as [t|] eqn:Ht.
  { eapply wp_find_table; [done|done|done|done|]. by apply (HQ L t s); [split_and!|by intros ??|..]. }
  destruct (page_slot_ok va Hva) as (_ & _ & _ & HP & _ & HPU). set (i := PDX va) in *.
  destruct (ti_page _ _ HL _ _ Hd) as [_ (D & HD & Hlen)].
  pose proof (ti_pde _ _ HL e d i Hd HP) as Hpde. rewrite Ht in Hpde.
  apply wp_bind. eapply wp_dentry; [done|done|done|]. fold i. rewrite Hpde. apply wp_bind, wp_table_address; [done|].
  rewrite decide_True by done. apply wp_bind. eapply wp_mono; [by apply (kmalloc_law n)|].
  intros t s1 ((p & Hp & Hpa) & Hfresh & Hkp & Hroom1 & Hpf & Hkeep). destruct (kpage_va _ _ _ Hp) as (_ & Hnn & Hpr & Hpal).
  destruct (present_entry p Hpr Hpal) as (_ & _ & Her & _).
  rewrite decide_False by done. apply wp_bind, wp_gets. rewrite Hpa. destruct s1 as [m1 [f1 x1]]. cbn in Hpf. subst f1.
  apply wp_bind. eapply wp_set_dentry; [done|done|done|done|]. cbn [fst snd]. apply wp_bind, wp_pset. cbn [fst snd]. apply wp_ret.
  pose proof (fresh_kpage L s t HL Hfresh) as Hfr. set (f := s.2.1) in *.
  set (f' := set_disk_tables _ (put_word _ _ _ _)).
  assert (Hword : ∀ t' j, t' ≠ t → 0 ≤ j < 1024 →
    word t' j f' = if decide (t' = d ∧ j = i) then CONSTRUCT_ENTRY p PERM_PRESENT else word t' j f).
  { intros t' j Hne Hj. unfold f'. rewrite word_new, decide_False by done. by eapply word_put. }
  assert (Hdk : ∀ k, L !! k = Some d → k = (e, PGDIR)) by (intros k Hk; by eapply (ti_inj _ _ HL)).
  assert (Hdfn : ∀ e' q, slot_ok q → dfn (<[(e, i) := t]> L) f' e' q = dfn L f e' q).
  { intros e' q Hq. unfold dfn. destruct (decide ((e', slot_table q) = (e, i))) as [Heq|Hne].
    - rewrite Heq, lookup_insert_eq, Ht. unfold f'. rewrite word_new, decide_True by done.
      apply zero_word. by apply slot_index_range.
    - rewrite lookup_insert_ne by done. destruct (L !! (e', slot_table q)) as [t'|] eqn:HL'; [|done].
      rewrite Hword; [|intros ->; by eapply Hfr|by apply slot_index_range]. rewrite decide_False; [done|].
      intros [-> _]. destruct (slot_table_range q Hq) as [_ Hnp]. apply Hdk in HL'. congruence. }
  apply (HQ (<[(e, i) := t]> L) t (m1, (f', x1))).
  - split_and!.
    + split.
      * intros e' k t' Hk. cbn. apply lookup_insert_Some in Hk as [[Heq <-]|[_ Hk]]; [|by apply (ti_key _ _ HL e' k t')].
        injection Heq as <- <-. split; [lia|]. by apply (ti_key _ _ HL e PGDIR d).
      * intros k k' t'. rewrite !lookup_insert_Some. intros [[<- <-]|[Hne Hk]] [[<- Heq]|[Hne' Hk']]; [done| | |by eapply ti_inj].
        { exfalso. by eapply Hfr. } { exfalso. subst t'. by eapply Hfr. }
      * intros k t' Hk. apply lookup_insert_Some in Hk as [[<- <-]|[Hne Hk]].
        { split; [exists p; by eapply kpage_pf|]. exists (replicate 1024 0). cbn. by rewrite lookup_insert_eq. }
        destruct (ti_page _ _ HL _ _ Hk) as [[p' Hp'] (T & HT & HlT)]. split; [exists p'; eapply kpage_pf; by apply Hkp|].
        cbn. rewrite lookup_insert_ne by (intros ->; by eapply Hfr). destruct (decide (t' = d)) as [->|Hne'].
        { rewrite lookup_insert_eq. eexists. split; [done|]. rewrite length_insert. unfold words. by rewrite HD. }
        rewrite lookup_insert_ne by done. eauto.
      * intros e' x' He'. rewrite !(lookup_insert_ne _ (e, i)) by (unfold PGDIR, TABLEDIR; intros [= ? ?]; lia).
        by apply (ti_env _ _ HL).
      * intros e' D' j HD' Hj. unfold PGDIR in *. rewrite lookup_insert_ne in HD' by (intros [= ? ?]; lia).
        cbn [fst snd]. rewrite Hword by (done || (intros ->; by eapply Hfr)).
        destruct (decide ((e, i) = (e', j))) as [Heq|Hne].
        { injection Heq as <- <-. rewrite lookup_insert_eq. assert (D' = d) as -> by congruence. rewrite decide_True by done.
          exists p. split; [by eapply kpage_pf|done]. }
        rewrite lookup_insert_ne by done. rewrite decide_False.
        2:{ intros [-> ->]. apply Hdk in HD'. congruence. }
        pose proof (ti_pde _ _ HL e' D' j HD' Hj) as Hpde'. destruct (L !! (e', j)); [|done].
        destruct Hpde' as (p' & Hp' & Hw). exists p'. split; [eapply kpage_pf; by apply Hkp|done].
      * intros e' j t' Hj Ht'. unfold PGDIR in *. rewrite lookup_insert_ne by (intros [= ? ?]; lia).
        apply lookup_insert_Some in Ht' as [[Heq <-]|[_ Ht']]; [|by eapply (ti_dir _ _ HL)]. injection Heq as <- <-. by eexists.
    + by eapply frames_inv_step.
    + unfold idle in *. destruct (keep_io _ _ (keep_pf m1 f f' x1)) as [-> _]. by destruct (keep_io _ _ Hkeep) as [-> _].
  - intros k t' Hk. destruct (decide (k = (e, i))) as [->|]; [congruence|]. by rewrite lookup_insert_ne.
  - by rewrite lookup_insert_eq.
  - done.
  - exact Hdfn.
  - done.
  - etrans; [exact Hkeep|apply keep_pf].
  - split; [|done|done]. intros e'. cbn. destruct (penvs f !! e'); eauto.
  - by eapply room_pf.
Qed.

(** ** Filling and clearing a slot *)
Lemma slot_words L s e q t : tables_inv L s → L !! (e, slot_table q) = Some t →
  ∃ T, disk_tables s.2.1 !! t = Some T ∧ length T = 1024%nat.
Proof. intros HL Ht. by apply (ti_page _ _ HL _ _ Ht). Qed.
Lemma dfn_put L s e q t v e' q' :
  tables_inv L s → slot_ok q → slot_ok q' → L !! (e, slot_table q) = Some t →
  dfn L (put_word t (slot_index q) v s.2.1) e' q' = if decide ((e', q') = (e, q)) then v else dfn L s.2.1 e' q'.
Proof.
  intros HL Hq Hq' Ht. destruct (slot_words _ _ _ _ _ HL Ht) as (T & HT & Hlen).
  pose proof (slot_index_range q Hq). pose proof (slot_index_range q' Hq'). unfold dfn.
  destruct (L !! (e', slot_table q')) as [t'|] eqn:Ht'.
  - erewrite word_put by done. destruct (decide ((e', q') = (e, q))) as [Heq|Hne].
    + injection Heq as -> ->. rewrite decide_True; [done|]. split; [congruence|done].
    + rewrite decide_False; [done|]. intros [-> Hi]. apply Hne.
      pose proof (ti_inj _ _ HL _ _ _ Ht Ht') as Heq. injection Heq as <- Hst. f_equal. by apply slot_eq.
  - rewrite decide_False; [done|]. intros [= -> ->]. congruence.
Qed.
Lemma tables_put L s e q t v f' :
  tables_inv L s → slot_ok q → L !! (e, slot_table q) = Some t →
  penvs f' = penvs s.2.1 → disk_tables f' = disk_tables (put_word t (slot_index q) v s.2.1) →
  tables_inv L (s.1, (f', s.2.2)).
Proof.
  intros HL Hq Ht He Hd. destruct (slot_words _ _ _ _ _ HL Ht) as (T & HT & Hlen).
  pose proof (slot_index_range q Hq) as Hi. destruct s as [m [f x]]. cbn [fst snd] in *.
  apply (tables_inv_step L (m, (put_word t (slot_index q) v f, x))); [|done|done|intros k t' p _; apply kpage_pf].
  split; cbn [fst snd].
  - apply HL.
  - apply HL.
  - intros k t' Hk. destruct (ti_page _ _ HL k t' Hk) as [[p Hp] (T' & HT' & Hlen')].
    split; [exists p; by eapply kpage_pf|]. cbn. destruct (decide (t' = t)) as [->|Hne].
    + rewrite lookup_insert_eq. eexists. split; [done|]. rewrite length_insert. unfold words. by rewrite HT.
    + rewrite lookup_insert_ne by done. eauto.
  - apply HL.
  - intros e' D i HD Hir. pose proof (ti_pde _ _ HL e' D i HD Hir) as Hpde. cbn [fst snd] in Hpde.
    erewrite word_put by done. rewrite decide_False.
    2:{ intros [-> _]. pose proof (ti_inj _ _ HL _ _ _ Ht HD) as Heq. injection Heq as -> Hs.
        by destruct (slot_table_range q Hq). }
    destruct (L !! (e', i)); [|done]. destruct Hpde as (p & Hp & Hw). exists p. split; [by eapply kpage_pf|done].
  - apply HL.
Qed.
Lemma idle_pf m f f' x : idle (m, (f, x)) → idle (m, (f', x)).
Proof. unfold idle. by destruct (keep_io _ _ (keep_pf m f f' x)) as [-> _]. Qed.

Lemma fi_zero L f : frames_inv L f → disk_free_frame_list f ≠ [] → (0 < length (disk_frames_info f))%nat.
Proof.
  intros HF Hf. destruct (disk_free_frame_list f) as [|d l] eqn:Heq; [done|].
  destruct (fi_free _ _ HF d) as [? Hd]; [rewrite Heq; by left|]. unfold num_disk_frames in Hd. lia.
Qed.
Lemma wp_allocate_disk_frame s (Q : Z * Z → mm * (pfile * X) → Prop) :
  dfllock s.2.1 = false → NoDup (disk_free_frame_list s.2.1) →
  (∀ d, d ∈ disk_free_frame_list s.2.1 → 1 ≤ d < num_disk_frames s.2.1) → num_disk_frames s.2.1 ≤ PAGES_PER_FILE →
  match disk_free_frame_list s.2.1 with
  | [] => Q (E_NO_PAGE_FILE_SPACE, 0) s
  | d :: l => Q (0, d) (s.1, (set_disk_frames (<[Z.to_nat d := zero_frame]> (disk_frames_info s.2.1)) (set_disk_free l s.2.1), s.2.2))
  end →
  wp allocate_disk_frame Q s.
Proof.
  destruct s as [m [f x]]. cbn [fst snd]. intros Hl Hnd Hr Hn HQ. unfold allocate_disk_frame, acquire_dfllock, release_dfllock.
  apply wp_bind, wp_bind, wp_pget, wp_bind, wp_assert; [cbn; by rewrite Hl|]. apply wp_pset. cbn [fst snd].
  apply wp_bind, wp_pget. cbn [fst snd disk_free_frame_list set_dfllock].
  destruct f as [fr fl lk pe dt z]. cbn in *. subst lk. destruct fl as [|d l].
  - apply wp_bind, wp_ret. apply wp_bind, wp_bind, wp_pget, wp_bind, wp_assert; [done|]. apply wp_pset, wp_ret. exact HQ.
  - apply NoDup_cons in Hnd as [Hni _]. destruct (Hr d) as [? Hlt]; [by left|].
    apply wp_bind, wp_bind, wp_Ok. exists l. eexists. split; [by apply lq_remove_hd|].
    apply wp_bind, wp_pset. apply wp_bind. unfold initialize_disk_frame. apply wp_bind, wp_pget. cbn.
    destruct (lookup_lt_is_Some_2 fr (Z.to_nat d)) as [y Hy]; [unfold num_disk_frames in *; cbn in *; lia|].
    apply wp_bind. eapply wp_unwrap; [exact Hy|]. apply wp_pset. apply wp_ret.
    unfold to_disk_frame_number. rewrite w32_small by (change PAGES_PER_FILE with 133120 in *; lia). exact HQ.
Qed.
(** A free disk frame goes into an empty slot. *)
Lemma fill_slot L e q t d l s f4 :
  pf_inv L s → slot_ok q → L !! (e, slot_table q) = Some t → dfn L s.2.1 e q = 0 → disk_free_frame_list s.2.1 = d :: l →
  f4 = put_word t (slot_index q) d (set_disk_frames (<[Z.to_nat d := zero_frame]> (disk_frames_info s.2.1)) (set_disk_free l s.2.1)) →
  pf_inv L (s.1, (f4, s.2.2)) ∧ 1 ≤ d < num_disk_frames s.2.1 ∧
  ∀ e' q', slot_ok q' → dfn L f4 e' q' = if decide ((e', q') = (e, q)) then d else dfn L s.2.1 e' q'.
Proof.
  intros (HL & HF & Hid) Hq Htq H0 Hfl ->. set (f4 := put_word _ _ _ _).
  pose proof (fi_nodup _ _ HF) as Hnd. rewrite Hfl in Hnd. apply NoDup_cons in Hnd as [Hni Hnd].
  destruct (fi_free _ _ HF d) as [Hd1 Hd2]; [rewrite Hfl; by left|].
  assert (HN : num_disk_frames f4 = num_disk_frames s.2.1) by (unfold num_disk_frames, f4; cbn; by rewrite length_insert).
  assert (Hfl4 : disk_free_frame_list f4 = l) by done.
  assert (Hdfn4 : ∀ e' q', slot_ok q' → dfn L f4 e' q' = if decide ((e', q') = (e, q)) then d else dfn L s.2.1 e' q').
  { intros e' q' Hq'. rewrite <- (dfn_put L s e q t d) by done. by apply dfn_step. }
  split_and!; [|lia|lia|done]. split_and!; cbn [fst snd].
  - by eapply (tables_put L s e q t d).
  - split; rewrite ?HN, ?Hfl4; try done; try apply HF.
    + intros d' Hd'. apply (fi_free _ _ HF). rewrite Hfl. by right.
    + intros e' q' Hq'. rewrite Hdfn4 by done.
      case_decide; [right; split; [exact (conj Hd1 Hd2)|done]|].
      destruct (fi_slot _ _ HF e' q' Hq') as [|[? Hni']]; [by left|right]. split; [done|]. rewrite Hfl in Hni'. set_solver.
    + assert (Hd : ∀ e' q', slot_ok q' → dfn L s.2.1 e' q' ≠ d).
      { intros e' q' Hq' Heq. destruct (fi_slot _ _ HF e' q' Hq') as [|[_ Hni']]; [lia|]. rewrite Hfl, Heq in Hni'. set_solver. }
      intros e1 q1 e2 q2 Hq1 Hq2. rewrite !Hdfn4 by done. repeat case_decide; intros Heq Hne; [congruence| | |by eapply (fi_inj _ _ HF)].
      * exfalso. by eapply (Hd e2 q2).
      * exfalso. by eapply (Hd e1 q1).
    + intros d' Hd' Hni'. destruct (decide (d' = d)) as [->|Hne].
      * exists e, q. split; [done|]. rewrite Hdfn4 by done. by rewrite decide_True.
      * destruct (fi_all _ _ HF d' Hd') as (e' & q' & Hq' & Heq); [rewrite Hfl; set_solver|].
        exists e', q'. split; [done|]. rewrite Hdfn4 by done. rewrite decide_False; [done|]. intros [= -> ->]. lia.
  - destruct s as [m [f x]]. by eapply idle_pf.
Qed.
Lemma wp_fill_slot {B} L e q t s (kn : M (mm * (pfile * X)) B) ks (Q : B → mm * (pfile * X) → Prop) :
  pf_inv L s → slot_ok q → L !! (e, slot_table q) = Some t → dfn L s.2.1 e q = 0 →
  (disk_free_frame_list s.2.1 = [] → wp kn Q s) →
  (∀ s' d, pf_inv L s' → dfn L s'.2.1 e q = d → 1 ≤ d < num_disk_frames s.2.1 →
    (∀ e' q', slot_ok q' → (e', q') ≠ (e, q) → dfn L s'.2.1 e' q' = dfn L s.2.1 e' q') →
    disk_free_frame_list s.2.1 = d :: disk_free_frame_list s'.2.1 → penvs s'.2.1 = penvs s.2.1 →
    keep s s' → evolves s.2.1 s'.2.1 → (∀ n, heap_room n s → heap_room n s') → wp (ks d) Q s') →
  wp (a ← allocate_disk_frame;
      if decide (a.1 = E_NO_PAGE_FILE_SPACE) then kn else set_dentry t (slot_index q) a.2 ;; ks a.2) Q s.
Proof.
  intros HI Hq Htq H0 HN HS. pose proof HI as (HL & HF & Hid). destruct (slot_words _ _ _ _ _ HL Htq) as (T & HT & Hlen).
  apply wp_bind, wp_allocate_disk_frame; [apply HF|apply HF|apply HF|apply HF|].
  destruct (disk_free_frame_list s.2.1) as [|d l] eqn:Hfl; [rewrite decide_True by done; by apply HN|].
  destruct (fill_slot L e q t d l s _ HI Hq Htq H0 Hfl eq_refl) as (HI4 & Hd & Hdfn4).
  assert (HN' : num_disk_frames s.2.1 ≤ 133120) by (etrans; [apply HF|done]).
  cbn [fst snd]. rewrite decide_False by done. apply wp_bind.
  eapply (wp_set_dentry t (slot_index q) d T); [done|done|by apply slot_index_range|lia|]. cbn [fst snd].
  set (f4 := put_word _ _ _ _) in *. apply (HS (s.1, (f4, s.2.2))); cbn [fst snd]; try done.
  - rewrite Hdfn4 by done. by rewrite decide_True.
  - intros e' q' Hq' Hne. rewrite Hdfn4 by done. by rewrite decide_False.
  - destruct s as [m2 [f2 x2]]. apply keep_pf.
  - split; [|by unfold f4; cbn; rewrite length_insert|done]. intros e'. unfold f4. cbn. destruct (penvs s.2.1 !! e'); eauto.
  - intros n. destruct s as [m2 [f2 x2]]. by apply room_pf.
Qed.
Lemma wp_env_page_frame L e x va s (Q : option Z → mm * (pfile * X) → Prop) n :
  pf_inv L s → penvs s.2.1 !! e = Some x → 0 ≤ va < USER_TOP →
  heap_room (need L (e, PGDIR) + (need L (e, PDX va) + n)) s →
  (∀ L' s', pf_inv L' s' → layout_le L L' → keep s s' → evolves s.2.1 s'.2.1 → heap_room n s' →
    (dfn L s.2.1 e (page_slot va) = 0 → disk_free_frame_list s.2.1 = [] →
      (∀ e' q, slot_ok q → dfn L' s'.2.1 e' q = dfn L s.2.1 e' q) → Q None s') ∧
    (∀ d, dfn L' s'.2.1 e (page_slot va) = d → 1 ≤ d < num_disk_frames s.2.1 →
      (∃ D t, L' !! (e, PGDIR) = Some D ∧ L' !! (e, PDX va) = Some t) →
      (∀ e' q, slot_ok q → (e', q) ≠ (e, page_slot va) → dfn L' s'.2.1 e' q = dfn L s.2.1 e' q) →
      (if decide (dfn L s.2.1 e (page_slot va) = 0) then disk_free_frame_list s.2.1 = d :: disk_free_frame_list s'.2.1
       else d = dfn L s.2.1 e (page_slot va) ∧ disk_free_frame_list s'.2.1 = disk_free_frame_list s.2.1) → Q (Some d) s')) →
  wp (env_page_frame e va) Q s.
Proof.
  intros HI He Hva Hroom HQ. unfold env_page_frame.
  destruct (page_slot_ok va) as (Hq & Hst & Hsi & HP & HT & _); [done|].
  apply wp_bind, wp_assert; [apply bool_decide_eq_true; unfold USER_TOP, KERNEL_BASE in *; lia|].
  apply wp_bind. eapply wp_page_directory; [done|done|exact Hroom|].
  intros L1 D s1 x1 HI1 Hle1 HD Hsame1 He1 Hpg1 Hdfn1 Hfree1 Hkeep1 Hev1 Hroom1.
  apply wp_bind. eapply wp_get_penv; [done|]. rewrite Hpg1.
  apply wp_bind. eapply (wp_page_table L1 e D va); [done|done|done| |].
  { unfold need in *. rewrite (Hsame1 (PDX va)) by lia. exact Hroom1. }
  intros L2 t s2 HI2 Hle2 Ht Hpe2 Hdfn2 Hfree2 Hkeep2 Hev2 Hroom2. cbn [snd].
  assert (Hle : layout_le L L2) by (intros k t' Hk; by apply Hle2, Hle1).
  assert (Hkeep : keep s s2) by (by etrans). assert (Hev : evolves s.2.1 s2.2.1) by (by etrans).
  assert (Hdfn : ∀ e' q, slot_ok q → dfn L2 s2.2.1 e' q = dfn L s.2.1 e' q) by (intros; by rewrite Hdfn2, Hdfn1).
  assert (Hfree : disk_free_frame_list s2.2.1 = disk_free_frame_list s.2.1) by congruence.
  pose proof HI2 as (HL2 & HF2 & Hid2). destruct (ti_page _ _ HL2 _ _ Ht) as [_ (T & HTt & Hlen)].
  assert (Htq : L2 !! (e, slot_table (page_slot va)) = Some t) by (by rewrite Hst).
  assert (Hw : word t (PTX va) s2.2.1 = dfn L s.2.1 e (page_slot va)).
  { rewrite <- Hdfn by done. unfold dfn. by rewrite Htq, Hsi. }
  assert (HND : num_disk_frames s.2.1 = num_disk_frames s2.2.1) by (unfold num_disk_frames; by rewrite (ev_frames _ _ Hev)).
  assert (HDt : ∃ D t, L2 !! (e, PGDIR) = Some D ∧ L2 !! (e, PDX va) = Some t) by (exists D, t; split; [by apply Hle2|done]).
  apply wp_bind. eapply wp_dentry; [done|done|done|]. rewrite Hw. destruct (decide (dfn L s.2.1 e (page_slot va) = 0)) as [H0|Hn0].
  - rewrite <- Hsi. apply (wp_fill_slot L2 e (page_slot va) t s2 (mret None) (λ d, mret (Some d))); [done|done|done|by rewrite Hdfn| |].
    { intros Hfl. apply wp_ret. apply (HQ L2 s2); done || by rewrite <- Hfree. }
    intros s4 d HI4 Hd Hr4 Ho4 Hfr4 _ Hk4 Hev4 Hrm4. apply wp_ret.
    apply (HQ L2 s4); [done|done|by etrans|by etrans|by apply Hrm4|done|lia|done| |].
    + intros e' q' Hq' Hne. rewrite Ho4 by done. by apply Hdfn.
    + by rewrite <- Hfree.
  - apply wp_ret. destruct (fi_slot _ _ HF2 e (page_slot va) Hq) as [H0|[Hr _]]; [by rewrite Hdfn in H0|].
    rewrite Hdfn in Hr by done. apply (HQ L2 s2); try done; [|lia|].
    + by apply Hdfn.
    + intros e' q' Hq' _. by apply Hdfn.
Qed.
End inv.
