(* ===== verification/PageFileOps.v ===== *)
(** * The page file: what every operation does

    The contents of a slot, and the effect of each operation of PageFile.v on the
    contents of all slots, in every case. *)

From S2P Require Import Prelude Queue Paging PagingSpec Ide PageFile PageFileSpec.

Section ops.
Context {X sector : Type} {PE : PageEnv (pfile * X)} {PS : Ports (mm * (pfile * X))}
  {AD : AtaDevice (mm * (pfile * X)) sector} {WD : World X sector} {WL : WorldLaws X sector}.
Context (fuel : nat).
Implicit Types s : mm * (pfile * X).
Implicit Types f : pfile.
Implicit Types L : layout.

(** The contents of a slot: what lies in its disk frame. *)
Definition cont L s (e q : Z) : option (list sector) :=
  if decide (dfn L s.2.1 e q = 0) then None else Some (page_on_disk (disk_sector (dfn L s.2.1 e q)) s).

Lemma disk_sector_eq d : 0 ≤ d < 133120 → disk_sector d = 40960 + 8 * d.
Proof.
  intros Hd. unfold disk_sector. change SECTOR_PER_PAGE with 8. change PAGE_FILE_START_SECTOR with 40960.
  rewrite (w32_small (d * 8)) by lia. rewrite w32_small; lia.
Qed.
Lemma slot_frame L f e q : frames_inv L f → slot_ok q → dfn L f e q ≠ 0 → 1 ≤ dfn L f e q < 133120.
Proof.
  intros HF Hq Hne. destruct (fi_slot _ _ HF e q Hq) as [?|[Hr _]]; [done|]. pose proof (fi_n _ _ HF) as Hn.
  change PAGES_PER_FILE with 133120 in Hn. lia.
Qed.
Lemma page_on_disk_dev n s s' : (∀ j, 0 ≤ j < 8 → sectors (dev s') (n + j) = sectors (dev s) (n + j)) →
  page_on_disk n s' = page_on_disk n s.
Proof. intros H. apply map_ext_in. intros j Hj%list_elem_of_In%elem_of_seqZ. apply H. lia. Qed.
(** Steps that change no word and nothing on the disk. *)
Lemma cont_same L L' s s' e q :
  dfn L' s'.2.1 e q = dfn L s.2.1 e q → dev s' = dev s → cont L' s' e q = cont L s e q.
Proof.
  intros Hd Hdev. unfold cont. rewrite Hd. case_decide; [done|]. f_equal. apply page_on_disk_dev. by rewrite Hdev.
Qed.

(** ** Transfers *)
Lemma wp_write_page L e q va s (Q : Z → mm * (pfile * X) → Prop) :
  (busy ≤ fuel)%nat →
  pf_inv L s → slot_ok q → dfn L s.2.1 e q ≠ 0 → page_base va → accessible va s →
  (∀ s', pf_inv L s' → io_keep va s s' → page_at va s' = page_at va s →
    (∀ e' q', slot_ok q' → cont L s' e' q' = if decide ((e', q') = (e, q)) then Some (page_at va s) else cont L s e' q') → Q 0 s') →
  wp (write_disk_page fuel (dfn L s.2.1 e q) va) Q s.
Proof.
  intros Hfuel HI Hq Hne Hb Hacc HQ. pose proof HI as (HL & HF & Hid).
  pose proof (slot_frame _ _ e q HF Hq Hne) as Hr. set (d := dfn L s.2.1 e q) in *.
  unfold write_disk_page. apply wp_bind. change SECTOR_PER_PAGE with 8.
  apply wp_ide_write; [done|done|rewrite disk_sector_eq; lia|done|done|].
  intros s' Hid' Hio Hpage Hdisk Hother. rewrite decide_False by lia. apply wp_ret. apply HQ; [|done|done|].
  - by eapply pf_inv_io.
  - intros e' q' Hq'. assert (Hd' : dfn L s'.2.1 e' q' = dfn L s.2.1 e' q') by (by rewrite (pf_io _ _ _ Hio)).
    unfold cont. rewrite Hd'. destruct (decide ((e', q') = (e, q))) as [Heq|Hneq].
    + injection Heq as -> ->. fold d. rewrite decide_False by done. by rewrite Hdisk.
    + destruct (decide (dfn L s.2.1 e' q' = 0)) as [|Hne']; [done|]. f_equal. apply page_on_disk_dev. intros j Hj.
      apply Hother. pose proof (slot_frame _ _ e' q' HF Hq' Hne') as Hr'.
      assert (dfn L s.2.1 e' q' ≠ d) as Hdd.
      { intros Heq. apply Hneq. by apply (fi_inj _ _ HF). }
      rewrite !disk_sector_eq by lia. lia.
Qed.
Lemma wp_read_page L e q va s (Q : Z → mm * (pfile * X) → Prop) :
  (busy ≤ fuel)%nat →
  pf_inv L s → slot_ok q → dfn L s.2.1 e q ≠ 0 → page_base va → accessible va s →
  (∀ s', pf_inv L s' → io_keep va s s' → Some (page_at va s') = cont L s e q →
    (∀ e' q', slot_ok q' → cont L s' e' q' = cont L s e' q') → Q 0 s') →
  wp (read_disk_page fuel (dfn L s.2.1 e q) va) Q s.
Proof.
  intros Hfuel HI Hq Hne Hb Hacc HQ. pose proof HI as (HL & HF & Hid).
  pose proof (slot_frame _ _ e q HF Hq Hne) as Hr. set (d := dfn L s.2.1 e q) in *.
  unfold read_disk_page. change SECTOR_PER_PAGE with 8.
  apply wp_ide_read; [done|done|rewrite disk_sector_eq; lia|done|done|].
  intros s' Hid' Hio Hpage Hdisk. apply HQ; [by eapply pf_inv_io|done| |].
  - unfold cont. fold d. rewrite decide_False by done. by rewrite Hpage.
  - intros e' q' _. unfold cont. rewrite (pf_io _ _ _ Hio). case_decide; [done|]. f_equal.
    apply page_on_disk_dev. by rewrite Hdisk.
Qed.

(** ** Adding a page *)
Definition no_space L s (e q : Z) : Prop := dfn L s.2.1 e q = 0 ∧ disk_free_frame_list s.2.1 = [].
Definition room_for L s (e va : Z) (n : nat) : Prop := heap_room (need L (e, PGDIR) + (need L (e, PDX va) + n)) s.
(** How many disk frames are free after the page got its frame. *)
Definition taken L s (e q : Z) s' : Prop :=
  length (disk_free_frame_list s.2.1) =
  ((if decide (dfn L s.2.1 e q = 0%Z) then 1 else 0) + length (disk_free_frame_list s'.2.1))%nat.

Lemma wp_frame_for L e x va s (Q : option Z → mm * (pfile * X) → Prop) n :
  pf_inv L s → penvs s.2.1 !! e = Some x → 0 ≤ va < USER_TOP → room_for L s e va n →
  (∀ L' s', pf_inv L' s' → layout_le L L' → keep s s' → evolves s.2.1 s'.2.1 → heap_room n s' →
    (no_space L s e (page_slot va) → (∀ e' q, slot_ok q → cont L' s' e' q = cont L s e' q) →
       disk_free_frame_list s'.2.1 = [] → Q None s') ∧
    (¬ no_space L s e (page_slot va) → dfn L' s'.2.1 e (page_slot va) ≠ 0 →
      (∃ D t, L' !! (e, PGDIR) = Some D ∧ L' !! (e, PDX va) = Some t) →
      (∀ e' q, slot_ok q → (e', q) ≠ (e, page_slot va) → cont L' s' e' q = cont L s e' q) →
      (dfn L s.2.1 e (page_slot va) ≠ 0 → cont L' s' e (page_slot va) = cont L s e (page_slot va)) →
      taken L s e (page_slot va) s' → Q (Some (dfn L' s'.2.1 e (page_slot va))) s')) →
  wp (env_page_frame e va) Q s.
Proof.
  intros HI He Hva Hroom HQ. eapply wp_env_page_frame; [done..|].
  intros L' s' HI' Hle Hkeep Hev Hroom'. destruct (HQ L' s' HI' Hle Hkeep Hev Hroom') as [HN HS].
  destruct (keep_io _ _ Hkeep) as [Hdev _]. split.
  - intros H0 Hf Hd. apply HN; [done| |].
    + intros e' q Hq. apply cont_same; [by apply Hd|done].
    + destruct HI' as (_ & HF' & _). destruct (disk_free_frame_list s'.2.1) as [|d l] eqn:Hfl; [done|]. exfalso.
      destruct (fi_free _ _ HF' d) as [Hd1 Hd2]; [rewrite Hfl; by left|].
      destruct HI as (_ & HF & _). unfold num_disk_frames in *. rewrite (ev_frames _ _ Hev) in Hd2.
      destruct (fi_all _ _ HF d) as (e' & q & Hq & Heq); [done|rewrite Hf; set_solver|].
      destruct (fi_slot _ _ HF' e' q Hq) as [H0'|[_ Hni]]; rewrite Hd in * by done; [lia|].
      rewrite Hfl, Heq in Hni. set_solver.
  - intros d Hd Hr HDt Ho Hcase. rewrite <- Hd. apply HS; [|lia|done| | |].
    + intros [H0 Hf]. rewrite decide_True in Hcase by done. by rewrite Hf in Hcase.
    + intros e' q Hq Hne. apply cont_same; [by apply Ho|done].
    + intros Hne. rewrite decide_False in Hcase by done. apply cont_same; [|done]. destruct Hcase. congruence.
    + unfold taken. destruct (decide _); [by rewrite Hcase|]. by destruct Hcase as [_ ->].
Qed.

(** The relation between the states around an operation that only talks to the
    kernel heap and, at the page of [a], to the disk. *)
Definition pf_effect (a : Z) s s' : Prop :=
  ∃ s1, keep s s1 ∧ io_keep a s1 s' ∧ evolves s.2.1 s'.2.1.
Lemma wp_pf_add_env_page L e x va src s (Q : Z → mm * (pfile * X) → Prop) n :
  (busy ≤ fuel)%nat →
  pf_inv L s → penvs s.2.1 !! e = Some x → 0 ≤ va < USER_TOP → room_for L s e va n → page_base src → accessible src s →
  (∀ L' s', pf_inv L' s' → layout_le L L' → pf_effect src s s' →
    (no_space L s e (page_slot va) → (∀ e' q, slot_ok q → cont L' s' e' q = cont L s e' q) →
      disk_free_frame_list s'.2.1 = [] → Q E_NO_PAGE_FILE_SPACE s') ∧
    (¬ no_space L s e (page_slot va) →
      (∀ e' q, slot_ok q → cont L' s' e' q =
         if decide ((e', q) = (e, page_slot va)) then Some (page_at src s) else cont L s e' q) →
      taken L s e (page_slot va) s' → Q 0 s')) →
  wp (pf_add_env_page fuel e va src) Q s.
Proof.
  intros Hfuel HI He Hva Hroom Hb Hacc HQ. destruct (page_slot_ok va) as (Hq & _); [done|].
  apply wp_bind. eapply wp_frame_for; [done..|].
  intros L1 s1 HI1 Hle1 Hkeep1 Hev1 _. destruct (keep_io _ _ Hkeep1) as [Hdev Hmem]. split.
  - intros Hn Hc Hf. apply wp_ret. apply (HQ L1 s1); try done. exists s1. split_and!; done.
  - intros Hn Hd _ Ho _ Htk. destruct (Hmem src Hacc) as [Hacc1 _].
    assert (Hpage : page_at src s1 = page_at src s).
    { apply map_ext_in. intros j Hj%list_elem_of_In%elem_of_seqZ. apply Hmem. eapply accessible_page; [|exact Hacc].
      apply base_same_page; [done|]. unfold SECTSIZE, PAGE_SIZE. lia. }
    apply wp_write_page; [done..|]. intros s2 HI2 Hio2 _ Hc2.
    apply (HQ L1 s2); [done|done| |done| |].
    + exists s1. split_and!; [done|done|]. by rewrite (pf_io _ _ _ Hio2).
    + intros e' q Hq'. rewrite Hc2 by done. rewrite Hpage. case_decide; [done|]. by apply Ho.
    + unfold taken in *. by rewrite (pf_io _ _ _ Hio2).
Qed.

(** ** Page table entries *)
Lemma mark_lor a b : mark_bits a → mark_bits b → mark_bits (Z.lor a b).
Proof. unfold mark_bits. intros [->|[->|[->| ->]]] [->|[->|[->| ->]]]; cbn; tauto. Qed.
Lemma mark_high b k : mark_bits b → 12 ≤ k → Z.testbit b k = false.
Proof.
  intros Hb Hk. apply testbit_small; [lia|].
  pose proof (Z.pow_le_mono_r 2 12 k ltac:(lia) ltac:(lia)). change (2 ^ 12) with 4096 in *.
  assert (0 ≤ b < 4096); [|lia].
  destruct Hb as [->|[->|[->| ->]]]; [|change PERM_USED with 32|change PERM_MODIFIED with 64|change (Z.lor PERM_USED PERM_MODIFIED) with 96]; lia.
Qed.
Lemma mark_present b : mark_bits b → Z.testbit b 0 = false.
Proof. intros [->|[->|[->| ->]]]; done. Qed.
Lemma w32_testbit x k : 0 ≤ k → Z.testbit (w32 x) k = if decide (k < 32) then Z.testbit x k else false.
Proof.
  intros Hk. unfold w32. change 4294967296 with (2 ^ 32). case_decide.
  - by rewrite Z.mod_pow2_bits_low.
  - by rewrite Z.mod_pow2_bits_high by lia.
Qed.
Lemma ones_testbit n k : 0 ≤ n → 0 ≤ k → Z.testbit (Z.ones n) k = bool_decide (k < n).
Proof.
  intros Hn Hk. case_bool_decide; [by apply Z.ones_spec_low|apply Z.ones_spec_high; lia].
Qed.
Lemma restore_entry e b : 0 ≤ e < 4294967296 → mark_bits b →
  w32 (Z.land (w32 (Z.lor (w32 (Z.land (Z.lor e b) 4294963200)) (Z.land e 4095))) (Z.lnot PERM_MODIFIED)) = Z.ldiff e PERM_MODIFIED.
Proof.
  intros He Hb. change 4294963200 with (Z.ldiff (Z.ones 32) (Z.ones 12)). change 4095 with (Z.ones 12).
  apply Z.bits_inj'. intros k Hk. rewrite w32_testbit, Z.land_spec, w32_testbit, Z.lor_spec, w32_testbit by done.
  rewrite !Z.land_spec, Z.lor_spec, !Z.ldiff_spec, Z.lnot_spec, !ones_testbit by lia.
  destruct (decide (k < 32)) as [Hlt|Hge].
  - rewrite (bool_decide_true (k < 32)) by done. destruct (decide (k < 12)).
    + rewrite (bool_decide_true (k < 12)) by done. destruct (Z.testbit e k), (Z.testbit b k), (Z.testbit PERM_MODIFIED k); done.
    + rewrite (bool_decide_false (k < 12)) by done. rewrite (mark_high b k) by (done || lia).
      destruct (Z.testbit e k), (Z.testbit PERM_MODIFIED k); done.
  - rewrite (testbit_small e k); [done|lia|]. pose proof (Z.pow_le_mono_r 2 32 k ltac:(lia) ltac:(lia)).
    change (2 ^ 32) with 4294967296 in *. lia.
Qed.

(** The page table of a page after its page was marked. *)
Lemma mark_lookup a t i b t' T :
  a !! t' = Some T → ∃ T', mark t i b a !! t' = Some T' ∧ length T' = length T ∧
    ∀ k, T' !! k = if decide (t' = t ∧ k = Z.to_nat i) then (λ e, Z.lor e b) <$> T !! k else T !! k.
Proof.
  intros HT. unfold mark. destruct (a !! t) as [T0|] eqn:H0.
  - destruct (decide (t' = t)) as [->|Hne].
    + assert (T0 = T) as -> by congruence. rewrite lookup_insert_eq. eexists. split; [done|]. rewrite length_insert. split; [done|].
      intros k. destruct (decide (k = Z.to_nat i)) as [->|Hk].
      * rewrite decide_True by done. destruct (T !! Z.to_nat i) as [e|] eqn:He; cbn.
        { rewrite list_lookup_insert_eq by (by eapply lookup_lt_Some). do 2 f_equal. by apply list_lookup_total_correct. }
        apply lookup_ge_None_2. rewrite length_insert. by apply lookup_ge_None_1.
      * rewrite decide_False by tauto. by rewrite list_lookup_insert_ne.
    + rewrite lookup_insert_ne by done. exists T. split_and!; [done..|]. intros k. by rewrite decide_False by tauto.
  - exists T. split_and!; [done..|]. intros k. rewrite decide_False; [done|]. intros [-> _]. congruence.
Qed.
Lemma marked_lookup dir t va m m' t' T : marked dir t va m m' → arrays m !! t' = Some T →
  ∃ T', arrays m' !! t' = Some T' ∧ length T' = length T ∧ ∀ k e, T !! k = Some e → ∃ b, mark_bits b ∧ T' !! k = Some (Z.lor e b).
Proof.
  intros (b1 & b2 & Hb1 & Hb2 & ->) HT. cbn.
  destruct (mark_lookup _ dir (PDX va) b1 t' T HT) as (T1 & HT1 & Hl1 & Hk1).
  destruct (mark_lookup _ t (PTX va) b2 t' T1 HT1) as (T2 & HT2 & Hl2 & Hk2).
  exists T2. split_and!; [done|congruence|]. intros k e He. rewrite Hk2, Hk1, He.
  assert (mark_bits 0) by (by left).
  destruct (decide (t' = t ∧ k = Z.to_nat (PTX va))), (decide (t' = dir ∧ k = Z.to_nat (PDX va))); cbn.
  - eexists. split; [by apply mark_lor, Hb2; exact Hb1|]. by rewrite Z.lor_assoc.
  - by exists b2.
  - by exists b1.
  - exists 0. by rewrite Z.lor_0_r.
Qed.
Lemma EXTRACT_mark e b : mark_bits b → EXTRACT_ADDRESS (Z.lor e b) = EXTRACT_ADDRESS e.
Proof.
  intros Hb. unfold EXTRACT_ADDRESS. change 4095 with (Z.ones 12). apply Z.bits_inj'. intros k Hk.
  rewrite !Z.land_spec, !w32_testbit, Z.lor_spec, Z.lnot_spec, ones_testbit by lia.
  destruct (decide (k < 12)).
  - rewrite bool_decide_true by done. by rewrite !andb_false_r.
  - rewrite (mark_high b k) by (done || lia). by rewrite orb_false_r.
Qed.
Lemma present_mark e b : mark_bits b → Z.land e PERM_PRESENT = PERM_PRESENT → Z.land (Z.lor e b) PERM_PRESENT = PERM_PRESENT.
Proof.
  intros Hb He. rewrite Z.land_lor_distr_l, He. assert (Z.land b PERM_PRESENT = 0) as ->; [|done].
  destruct Hb as [->|[->|[->| ->]]]; done.
Qed.
Lemma resolves_io a t s s' : io_keep a s s' → resolves (cr3 s) a t s → resolves (cr3 s) a t s'.
Proof.
  intros Hio Hres. destruct (mm_io a t s s' Hio Hres) as [Hm Hkva]. destruct Hres as (Hnn & D & pde & HD & Hpde & Hp & Hk).
  split; [done|]. destruct (marked_lookup _ _ _ _ _ _ _ Hm HD) as (D' & HD' & _ & Hk').
  destruct (Hk' _ _ Hpde) as (b & Hb & Hpde'). exists D', (Z.lor pde b). split_and!; [done|done|by apply present_mark|].
  rewrite EXTRACT_mark by done. destruct Hm as (? & ? & _ & _ & Heq).
  destruct (CHECK_IF_KERNEL_ADDRESS a); [by rewrite Heq|]. by rewrite Hkva.
Qed.

Lemma page_base_round va : 0 ≤ va < USER_TOP → page_base (ROUNDDOWN va PAGE_SIZE) ∧ page_slot (ROUNDDOWN va PAGE_SIZE) = page_slot va ∧
  0 ≤ ROUNDDOWN va PAGE_SIZE < USER_TOP.
Proof.
  unfold USER_TOP, page_base, PAGE_SIZE, page_slot. intros Hva. destruct (ROUNDDOWN_spec va 4096) as ((k & Hk) & Hr & H0); [lia..|].
  split_and!; [by exists k|lia|lia| |lia|lia]. rewrite Hk in *. rewrite Z.div_mul by lia. apply (Z.div_unique_pos _ _ _ (va - k * 4096)); lia.
Qed.
Lemma same_slot va va' : 0 ≤ va < USER_TOP → 0 ≤ va' < USER_TOP → page_slot va = page_slot va' → PDX va = PDX va' ∧ PTX va = PTX va'.
Proof.
  intros Hva Hva' Heq. destruct (page_slot_ok va) as (_ & <- & <- & _); [done|].
  destruct (page_slot_ok va') as (_ & <- & <- & _); [done|]. by rewrite Heq.
Qed.
Lemma resolves_page dir va va' t s : 0 ≤ va < USER_TOP → 0 ≤ va' < USER_TOP → page_slot va = page_slot va' →
  resolves dir va t s → resolves dir va' t s.
Proof.
  intros Hva Hva' Heq. destruct (same_slot va va' Hva Hva' Heq) as [HD _]. unfold resolves.
  by rewrite !user_check_pf, HD.
Qed.

(** The words of the page table of a resolved page. *)
Definition has_page dir va t s : Prop :=
  resolves dir va t s ∧ ∃ T, arrays s.1 !! t = Some T ∧ length T = 1024%nat ∧ 0 ≤ pte_of t va s.1 < 4294967296.
Lemma table_word dir va t s : has_page dir va t s → ∃ T, arrays s.1 !! t = Some T ∧ length T = 1024%nat ∧
  T !! Z.to_nat (PTX va) = Some (pte_of t va s.1).
Proof.
  intros (_ & T & HT & Hlen & _). exists T. split_and!; [done..|]. unfold pte_of, table_at. rewrite HT. cbn.
  apply list_lookup_lookup_total_lt. pose proof (PTX_range va). lia.
Qed.
Lemma set_pte_set_pte t va e e' m : set_pte t va e' (set_pte t va e m) = set_pte t va e' m.
Proof.
  unfold set_pte. destruct m. unfold set_arrays. cbn. f_equal. rewrite insert_insert_eq. f_equal.
  unfold table_at. rewrite lookup_insert_eq. cbn. by rewrite list_insert_insert_eq.
Qed.
Lemma set_pte_lookup t va e m T : arrays m !! t = Some T → length T = 1024%nat →
  arrays (set_pte t va e m) !! t = Some (<[Z.to_nat (PTX va) := e]> T) ∧ pte_of t va (set_pte t va e m) = e.
Proof.
  intros HT Hlen. pose proof (PTX_range va). unfold set_pte, pte_of, table_at. cbn. rewrite lookup_insert_eq, HT. cbn.
  split; [done|]. apply list_lookup_total_insert_eq. lia.
Qed.
(** One read and write of the entry. *)
Lemma wp_change_entry t va g T s (Q : unit → mm * (pfile * X) → Prop) :
  arrays s.1 !! t = Some T → length T = 1024%nat →
  Q tt (set_pte t va (w32 (g (pte_of t va s.1))) s.1, s.2) →
  wp (e ← entry t (PTX va); set_entry t (PTX va) (g e)) Q s.
Proof.
  intros HT Hlen HQ. pose proof (PTX_range va). destruct (lookup_lt_is_Some_2 T (Z.to_nat (PTX va))) as [e He]; [lia|].
  assert (Hpte : pte_of t va s.1 = e) by (unfold pte_of, table_at; rewrite HT; by apply list_lookup_total_correct).
  apply wp_bind. eapply wp_entry; [done|done|]. eapply wp_set_entry; [done|done|]. cbv beta in HQ.
  unfold set_pte, table_at in HQ. rewrite HT, Hpte in HQ. exact HQ.
Qed.

(** ** Counting pages *)
Lemma pf_inv_penvs L s e x x' :
  pf_inv L s → penvs s.2.1 !! e = Some x → disk_env_pgdir x' = disk_env_pgdir x → disk_env_tabledir x' = disk_env_tabledir x →
  pf_inv L (s.1, (set_penvs (<[e := x']> (penvs s.2.1)) s.2.1, s.2.2)).
Proof.
  intros (HL & HF & Hid) He Hp Ht. destruct s as [m [f y]]. cbn [fst snd] in *. split_and!.
  - split; cbn [fst snd].
    + intros e' k t Hk. destruct (ti_key _ _ HL e' k t Hk) as [? Hs]. split; [done|]. cbn. apply lookup_insert_is_Some.
      destruct (decide (e = e')); [by left|by right].
    + apply HL.
    + intros k t Hk. destruct (ti_page _ _ HL k t Hk) as [[p Hpg] HT]. split; [exists p; by eapply kpage_pf|done].
    + intros e' y'. cbn. intros [[<- <-]|[_ He']]%lookup_insert_Some; [|by apply (ti_env _ _ HL)].
      rewrite Hp, Ht. by apply (ti_env _ _ HL).
    + intros e' D i HD Hi. pose proof (ti_pde _ _ HL e' D i HD Hi) as Hpde. destruct (L !! (e', i)); [|done].
      destruct Hpde as (p & Hpg & Hw). exists p. split; [by eapply kpage_pf|done].
    + apply HL.
  - by eapply frames_inv_step.
  - by eapply idle_pf.
Qed.
Lemma wp_count L e x s a i o (Q : unit → mm * (pfile * X) → Prop) :
  pf_inv L s → penvs s.2.1 !! e = Some x →
  (∀ s' x', pf_inv L s' → s'.1 = s.1 → s'.2.2 = s.2.2 → penvs s'.2.1 !! e = Some x' → env_page_directory x' = env_page_directory x →
    disk_env_pgdir x' = disk_env_pgdir x →
    (∀ e' q, dfn L s'.2.1 e' q = dfn L s.2.1 e' q) → (∀ e' q, cont L s' e' q = cont L s e' q) →
    disk_free_frame_list s'.2.1 = disk_free_frame_list s.2.1 → keep s s' → evolves s.2.1 s'.2.1 → Q tt s') →
  wp (upd_penv e (count_pages a i o)) Q s.
Proof.
  intros HI He HQ. eapply wp_upd_penv; [done|]. destruct s as [m [f y]]. cbn [fst snd] in *.
  set (f' := set_penvs _ f). assert (Hk : keep (m, (f, y)) (m, (f', y))) by apply keep_pf.
  apply (HQ (m, (f', y)) (count_pages a i o x)); try done.
  - by apply (pf_inv_penvs L (m, (f, y)) e x).
  - cbn. by rewrite lookup_insert_eq.
  - intros e' q. apply cont_same; [done|]. by destruct (keep_io _ _ Hk).
  - by apply (evolves_upd f e x).
Qed.

(** ** Writing a page back *)

(** The page of [va] of the running environment [e] is mapped, by table [t]. *)
Record mapped_page (e : Z) (x : penv) (va t : Z) s : Prop := {
  mp_env : penvs s.2.1 !! e = Some x;
  mp_user : 0 ≤ va < USER_TOP;
  mp_dir : cr3 s = env_page_directory x;
  mp_page : has_page (cr3 s) va t s;
  mp_present : Z.land (pte_of t va s.1) PERM_PRESENT ≠ 0;
  mp_access : accessible (ROUNDDOWN va PAGE_SIZE) s
}.
Lemma keep_mapped e x x' va t s s' : mapped_page e x va t s → keep s s' → penvs s'.2.1 !! e = Some x' →
  env_page_directory x' = env_page_directory x → mapped_page e x' va t s' ∧ pte_of t va s'.1 = pte_of t va s.1 ∧
    page_at (ROUNDDOWN va PAGE_SIZE) s' = page_at (ROUNDDOWN va PAGE_SIZE) s.
Proof.
  intros [He Hu Hd [Hres (T & HT & Hlen & Hr)] Hp Ha] Hk He' Hdir. pose proof (keep_cr3 _ _ Hk) as Hcr.
  destruct (keep_user _ _ _ _ _ Hk Hu Hres) as [Hres' HT']. destruct (keep_io _ _ Hk) as [_ Hmem].
  assert (Hpte : pte_of t va s'.1 = pte_of t va s.1) by (unfold pte_of, table_at; by rewrite HT').
  destruct (page_base_round va Hu) as (Hb & _).
  split_and!; [split; rewrite ?Hcr, ?Hpte; try done| |].
  - congruence.
  - split; [done|]. exists T. by rewrite HT', Hpte.
  - by apply Hmem.
  - done.
  - apply map_ext_in. intros j Hj%list_elem_of_In%elem_of_seqZ. apply Hmem. eapply accessible_page; [|exact Ha].
    apply base_same_page; [done|]. unfold SECTSIZE, PAGE_SIZE. lia.
Qed.
(** The device has marked the page of a mapped page. *)
Lemma io_mapped va t s s' : 0 ≤ va < USER_TOP → has_page (cr3 s) va t s → io_keep (ROUNDDOWN va PAGE_SIZE) s s' →
  resolves (cr3 s) va t s' ∧ ∃ T' b, arrays s'.1 !! t = Some T' ∧ length T' = 1024%nat ∧ mark_bits b ∧
    pte_of t va s'.1 = Z.lor (pte_of t va s.1) b.
Proof.
  intros Hu Hpg Hio. pose proof Hpg as [Hres _]. destruct (page_base_round va Hu) as (_ & Hsl & Hu').
  assert (Hres' : resolves (cr3 s) (ROUNDDOWN va PAGE_SIZE) t s) by (eapply resolves_page; [exact Hu|exact Hu'|by symmetry|exact Hres]).
  split; [eapply resolves_page; [exact Hu'|done|done|]; by eapply resolves_io|].
  destruct (table_word _ _ _ _ Hpg) as (T & HT & Hlen & He). destruct (mm_io _ _ _ _ Hio Hres') as [Hm _].
  destruct (marked_lookup _ _ _ _ _ _ _ Hm HT) as (T' & HT' & Hlen' & Hk). destruct (Hk _ _ He) as (b & Hb & He').
  exists T', b. split_and!; [done|congruence|done|]. unfold pte_of at 1, table_at. rewrite HT'. by apply list_lookup_total_correct.
Qed.
(** The states around a write back or a read of the page of [va]: the kernel
    heap and the disk work, then the entry of the page becomes [g] of itself. *)
Definition page_effect (va t : Z) (g : Z → Z) s s' : Prop :=
  ∃ s1 s2, keep s s1 ∧ io_keep (ROUNDDOWN va PAGE_SIZE) s1 s2 ∧ evolves s.2.1 s'.2.1 ∧
    has_page (cr3 s) va t s1 ∧ pte_of t va s1.1 = pte_of t va s.1 ∧
    s'.1 = set_pte t va (g (pte_of t va s2.1)) s2.1 ∧ s'.2.2 = s2.2.2.
Lemma pf_inv_pte L dir va t e s : pf_inv L s → resolves dir va t s → 0 ≤ va < USER_TOP →
  let s' := (set_pte t va e s.1, s.2) in pf_inv L s' ∧ ∀ e' q, cont L s' e' q = cont L s e' q.
Proof.
  intros (HL & HF & Hid) Hres Hu s'. destruct (pte_keep _ _ _ e s s' Hres Hu eq_refl) as (Hdev & Hkp & _ & _). split.
  - split_and!; [|done|unfold idle; by rewrite Hdev]. eapply tables_inv_step; [done|done|done|]. intros. by apply Hkp.
  - intros e' q. by apply cont_same.
Qed.

Lemma wp_write_mapped_page L e x va t q s (Q : Z → mm * (pfile * X) → Prop) eq :
  (busy ≤ fuel)%nat →
  pf_inv L s → mapped_page e x va t s → slot_ok q → dfn L s.2.1 eq q ≠ 0 →
  (∀ s', pf_inv L s' → s'.2.1 = s.2.1 →
    (∀ e' q', slot_ok q' → cont L s' e' q' = if decide ((e', q') = (eq, q)) then Some (page_at (ROUNDDOWN va PAGE_SIZE) s) else cont L s e' q') →
    (∃ s2, io_keep (ROUNDDOWN va PAGE_SIZE) s s2 ∧ s' = (set_pte t va (Z.ldiff (pte_of t va s.1) PERM_MODIFIED) s2.1, s2.2)) → Q 0 s') →
  wp (write_mapped_page fuel (env_page_directory x) va (dfn L s.2.1 eq q)) Q s.
Proof.
  intros Hfuel HI [He Hu Hd Hpg Hp Ha] Hq Hne HQ. destruct (page_base_round va Hu) as (Hb & _).
  pose proof Hpg as [Hres (_ & _ & _ & Hr)]. destruct (table_word _ _ _ _ Hpg) as (T & HT & Hlen & Hpte).
  unfold write_mapped_page. rewrite <- Hd. apply wp_bind. eapply wp_get_page_table; [done|]. cbn [snd].
  apply wp_bind. eapply wp_entry; [done|done|]. set (pt := pte_of t va s.1) in *.
  assert (Hpp : Z.land (Z.land pt 4095) PERM_PRESENT ≠ 0) by (rewrite <- Z.land_assoc; exact Hp).
  rewrite bool_decide_false by done. apply wp_bind, wp_ret. apply wp_bind.
  apply wp_write_page; [done..|]. intros s2 HI2 Hio Hpage2 Hc2.
  destruct (io_mapped va t s s2 Hu Hpg Hio) as (Hres2 & T2 & b & HT2 & Hlen2 & Hb2 & Hpte2). fold pt in Hpte2.
  apply wp_assoc, wp_bind. eapply (wp_change_entry t va (λ e, Z.land e 4294963200)); [done|done|].
  destruct (set_pte_lookup t va (w32 (Z.land (pte_of t va s2.1) 4294963200)) s2.1 T2 HT2 Hlen2) as [HT3 Hp3].
  apply wp_assoc, wp_bind. eapply (wp_change_entry t va (λ e, Z.lor e (Z.land pt 4095))); [done|by rewrite length_insert|].
  cbn [fst snd]. rewrite Hp3, set_pte_set_pte.
  match goal with |- context [set_pte t va ?v s2.1] => destruct (set_pte_lookup t va v s2.1 T2 HT2 Hlen2) as [HT4 Hp4] end.
  apply wp_assoc, wp_bind. eapply (wp_change_entry t va (λ e, Z.land e (Z.lnot PERM_MODIFIED))); [done|by rewrite length_insert|].
  cbn [fst snd]. rewrite Hp4, set_pte_set_pte, Hpte2, restore_entry by done. apply wp_ret.
  destruct (pf_inv_pte L (cr3 s) va t (Z.ldiff pt PERM_MODIFIED) s2 HI2 Hres2 Hu) as [HI3 Hc3].
  apply HQ; [done|by apply pf_io in Hio| |by exists s2].
  intros e' q' Hq'. rewrite Hc3. by apply Hc2.
Qed.

(** Finding the frame of a page. *)
Lemma wp_not_in_file L e D va s (Q : bool → mm * (pfile * X) → Prop) :
  tables_inv L s → L !! (e, PGDIR) = Some D → 0 ≤ va < USER_TOP →
  Q (bool_decide (dfn L s.2.1 e (page_slot va) = 0)) s → wp (not_in_file D va) Q s.
Proof.
  intros HL HD Hu HQ. destruct (page_slot_ok va) as (_ & Hst & Hsi & HP & HT & _); [done|].
  unfold not_in_file. apply wp_bind. unfold dfn in HQ. rewrite Hst, Hsi in HQ. destruct (L !! (e, PDX va)) as [t|] eqn:Ht.
  - eapply wp_find_table; [done..|]. destruct (ti_page _ _ HL _ _ Ht) as [[p Hp] (T & HTt & Hlen)].
    destruct (kpage_va _ _ _ Hp) as (_ & Hnn & _). cbn [snd]. rewrite decide_False by done.
    apply wp_bind. eapply wp_dentry; [done..|]. by apply wp_ret.
  - eapply wp_no_table; [done..|]. cbn [snd]. rewrite decide_True by done. by apply wp_ret.
Qed.
Lemma wp_slot_word L e D t va s create (Q : Z → mm * (pfile * X) → Prop) :
  tables_inv L s → L !! (e, PGDIR) = Some D → L !! (e, PDX va) = Some t → 0 ≤ va < USER_TOP →
  Q (dfn L s.2.1 e (page_slot va)) s →
  wp (r ← get_disk_page_table D va create; dentry r.2 (PTX va)) Q s.
Proof.
  intros HL HD Ht Hu HQ. destruct (page_slot_ok va) as (_ & Hst & Hsi & HP & HT & _); [done|].
  apply wp_bind. eapply wp_find_table; [done..|]. destruct (ti_page _ _ HL _ _ Ht) as [_ (T & HTt & Hlen)]. cbn [snd].
  eapply wp_dentry; [done..|]. unfold dfn in HQ. by rewrite Hst, Hsi, Ht in HQ.
Qed.
Lemma slot_tables L s e q : tables_inv L s → 0 ≤ q → slot_ok q → dfn L s.2.1 e q ≠ 0 →
  ∃ D t, L !! (e, PGDIR) = Some D ∧ L !! (e, slot_table q) = Some t.
Proof.
  intros HL Hq Hok Hne. unfold dfn in Hne. destruct (L !! (e, slot_table q)) as [t|] eqn:Ht; [|done].
  destruct (slot_table_range q Hok) as [Hr _]. destruct (ti_dir _ _ HL e (slot_table q) t) as [D HD].
  { unfold slot_table, USER_TABLES in *. rewrite decide_False in * by lia. pose proof (Z.div_pos q 1024 ltac:(lia) ltac:(lia)). lia. }
  { done. } by exists D, t.
Qed.

(** The addresses where [pf_update_env_page] may add a page. *)
Definition growable (va : Z) : Prop := USER_HEAP_START ≤ va < USER_HEAP_MAX ∨ USTACKBOTTOM ≤ va < USTACKTOP.
(** The last lines of [pf_update_env_page], when the page has its frame. *)
Lemma wp_update_tail L e x va t s (Q : Z → mm * (pfile * X) → Prop) D td :
  (busy ≤ fuel)%nat →
  pf_inv L s → mapped_page e x va t s → L !! (e, PGDIR) = Some D → L !! (e, PDX va) = Some td →
  dfn L s.2.1 e (page_slot va) ≠ 0 →
  (∀ s', pf_inv L s' → disk_free_frame_list s'.2.1 = disk_free_frame_list s.2.1 →
    (∀ e' q', slot_ok q' → cont L s' e' q' =
      if decide ((e', q') = (e, page_slot va)) then Some (page_at (ROUNDDOWN va PAGE_SIZE) s) else cont L s e' q') →
    page_effect va t (λ _, Z.ldiff (pte_of t va s.1) PERM_MODIFIED) s s' → Q 0 s') →
  wp (x ← get_penv e;
      r ← get_disk_page_table (disk_env_pgdir x) va false;
      dfn ← dentry r.2 (PTX va);
      ret ← write_mapped_page fuel (env_page_directory x) va dfn;
      upd_penv e (count_pages 0 0 1) ;;
      mret ret) Q s.
Proof.
  intros Hfuel HI Hmp HD Htd Hne HQ. pose proof Hmp as [He Hu _ Hpg _ _]. pose proof HI as (HL & _).
  destruct (page_slot_ok va) as (Hq & _); [done|].
  apply wp_bind. eapply wp_get_penv; [done|]. destruct (ti_env _ _ HL e x He) as [Hdir _]. rewrite Hdir, HD. cbn [default id].
  apply wp_assoc, wp_bind. eapply wp_slot_word; [done..|].
  apply wp_bind. eapply wp_write_mapped_page; [done..|]. intros s1 HI1 Hpf1 Hc1 (s2 & Hio & Hs1).
  apply wp_bind. eapply (wp_count L e x); [done|by rewrite Hpf1|].
  intros s3 x3 HI3 Hm3 Hx3 _ _ _ _ Hc3 Hfr3 _ Hev3. apply wp_ret. apply HQ; [done|by rewrite Hfr3, Hpf1| |].
  - intros e' q' Hq'. rewrite Hc3. by apply Hc1.
  - exists s, s2. split_and!; [done|done|by rewrite <- Hpf1|done|done| |].
    + by rewrite Hm3, Hs1.
    + by rewrite Hx3, Hs1.
Qed.
Lemma wp_pf_update_env_page L e x va t fi s (Q : Z → mm * (pfile * X) → Prop) :
  (busy ≤ fuel)%nat →
  pf_inv L s → mapped_page e x va t s → room_for L s e va 0 →
  dfn L s.2.1 e (page_slot va) ≠ 0 ∨ growable va ∧ disk_free_frame_list s.2.1 ≠ [] →
  (∀ L' s', pf_inv L' s' → layout_le L L' →
    (∀ e' q, slot_ok q → cont L' s' e' q =
      if decide ((e', q) = (e, page_slot va)) then Some (page_at (ROUNDDOWN va PAGE_SIZE) s) else cont L s e' q) →
    taken L s e (page_slot va) s' →
    page_effect va t (λ _, Z.ldiff (pte_of t va s.1) PERM_MODIFIED) s s' → Q 0 s') →
  wp (pf_update_env_page fuel e va fi) Q s.
Proof.
  intros Hfuel HI Hmp Hroom Hcase HQ. pose proof Hmp as [He Hu _ _ _ _].
  destruct (page_slot_ok va) as (Hq & Hst & _ & HP & _); [done|].
  unfold pf_update_env_page. apply wp_bind, wp_assert; [apply bool_decide_eq_true; unfold USER_TOP, KERNEL_BASE in *; lia|].
  apply wp_bind. eapply wp_page_directory; [done|done|exact Hroom|].
  intros L1 D s1 x1 HI1 Hle1 HD Hsame1 He1 Hpg1 Hdfn1 Hfree1 Hkeep1 Hev1 Hroom1.
  assert (Hx1 : env_page_directory x1 = env_page_directory x).
  { pose proof (ev_env _ _ Hev1 e) as H1. rewrite He in H1. destruct H1 as (x' & Hx' & ? & _). congruence. }
  destruct (keep_mapped _ _ _ _ _ _ _ Hmp Hkeep1 He1 Hx1) as (Hmp1 & Hpte1 & Hpage1).
  destruct (keep_io _ _ Hkeep1) as [Hdev1 _].
  assert (Hc1 : ∀ e' q, slot_ok q → cont L1 s1 e' q = cont L s e' q) by (intros; apply cont_same; [by apply Hdfn1|done]).
  apply wp_bind. eapply wp_get_penv; [done|]. rewrite Hpg1.
  apply wp_bind. eapply wp_not_in_file; [apply HI1|done|done|]. rewrite Hdfn1 by done.
  case_bool_decide as H0; cbn [when].
  - destruct Hcase as [?|[Hg Hf]]; [done|]. apply wp_bind. rewrite decide_True by done. apply wp_bind.
    unfold pf_add_empty_env_page. apply wp_bind. eapply wp_frame_for; [done|done|done| |].
    { unfold room_for in *. unfold need at 1. rewrite HD. unfold need in *. rewrite (Hsame1 (PDX va)) by lia. exact Hroom1. }
    intros L2 s2 HI2 Hle2 Hkeep2 Hev2 _. split.
    { intros [_ Hn]. by rewrite Hfree1 in Hn. }
    intros _ Hne2 (D2 & td & HD2 & Htd) Ho2 _ Htk2. apply wp_ret. rewrite decide_False by done.
    pose proof (ev_env _ _ Hev2 e) as Hx2. rewrite He1 in Hx2. destruct Hx2 as (x2 & He2 & Hx2 & _).
    eapply (wp_count L2 e x2); [done|done|]. intros s3 x3 HI3 Hm3 Hx3 He3 Hd3 _ Hdf3 Hc3 Hfr3 Hkeep3 Hev3.
    assert (Hkeep : keep s1 s3) by (by etrans).
    destruct (keep_mapped _ _ x3 _ _ _ s3 Hmp1 Hkeep He3) as (Hmp3 & Hpte3 & Hpage3); [congruence|].
    eapply (wp_update_tail L2 e x3 va t s3 Q D2 td); [done|done|done|done|done|by rewrite Hdf3|].
    intros s4 HI4 Hfr4 Hc4 Heff. apply (HQ L2 s4); [done|by intros k t' Hk; apply Hle2, Hle1| | |].
    + intros e' q Hq'. rewrite Hc4 by done. rewrite Hpage3, Hpage1. destruct (decide _) as [|Hne]; [done|].
      rewrite Hc3, Ho2 by done. by apply Hc1.
    + unfold taken in *. rewrite decide_True by done. rewrite Hdfn1 in Htk2 by done. rewrite decide_True in Htk2 by done.
      rewrite Hfr4, Hfr3, <- Hfree1. exact Htk2.
    + destruct Heff as (s5 & s6 & Hk5 & Hio6 & Hev6 & Hpg5 & Hp5 & Hm & Hx'). exists s5, s6.
      split_and!; [|done|by repeat (etrans; [eassumption|])| | |by rewrite Hpte3, Hpte1 in Hm|done].
      * etrans; [exact Hkeep1|]. by etrans.
      * by rewrite (keep_cr3 _ _ Hkeep), (keep_cr3 _ _ Hkeep1) in Hpg5.
      * by rewrite Hp5, Hpte3, Hpte1.
  - destruct HI1 as (HL1 & HI1'). destruct (slot_tables L1 s1 e (page_slot va) HL1) as (D' & td & HD' & Htd).
    { apply Z.div_pos; [apply Hu|lia]. } { done. } { by rewrite Hdfn1. } rewrite Hst in Htd.
    apply wp_bind, wp_ret. eapply (wp_update_tail L1 e x1 va t s1 Q D' td); [done|by split|done|done|done|by rewrite Hdfn1|].
    intros s4 HI4 Hfr4 Hc4 Heff. apply (HQ L1 s4); [done|done| | |].
    + intros e' q Hq'. rewrite Hc4 by done. rewrite Hpage1. destruct (decide _) as [|Hne]; [done|]. by apply Hc1.
    + unfold taken. rewrite decide_False by done. by rewrite Hfr4, Hfree1.
    + destruct Heff as (s5 & s6 & Hk5 & Hio6 & Hev6 & Hpg5 & Hp5 & Hm & Hx'). exists s5, s6.
      split_and!; [by etrans|done|by etrans| | |by rewrite Hpte1 in Hm|done].
      * by rewrite (keep_cr3 _ _ Hkeep1) in Hpg5.
      * by rewrite Hp5, Hpte1.
Qed.

(** A page that may not be added, or finds the page file full, ends the kernel. *)
Lemma pf_update_env_page_panics L e x va t fi s :
  pf_inv L s → mapped_page e x va t s → room_for L s e va 0 →
  dfn L s.2.1 e (page_slot va) = 0 → ¬ growable va ∨ disk_free_frame_list s.2.1 = [] →
  panics (pf_update_env_page fuel e va fi) s.
Proof.
  intros HI Hmp Hroom H0 Hcase. pose proof Hmp as [He Hu _ _ _ _].
  destruct (page_slot_ok va) as (Hq & Hst & _ & HP & _); [done|].
  unfold pf_update_env_page. apply panics_r, wp_assert; [apply bool_decide_eq_true; unfold USER_TOP, KERNEL_BASE in *; lia|].
  apply panics_r. eapply wp_page_directory; [done|done|exact Hroom|].
  intros L1 D s1 x1 HI1 Hle1 HD Hsame1 He1 Hpg1 Hdfn1 Hfree1 Hkeep1 Hev1 Hroom1.
  apply panics_r. eapply wp_get_penv; [done|]. rewrite Hpg1.
  apply panics_r. eapply wp_not_in_file; [apply HI1|done|done|]. rewrite Hdfn1 by done.
  rewrite bool_decide_true by done. cbn [when]. apply panics_l.
  destruct (decide (growable va)) as [Hg|Hg]; unfold growable in Hg.
  2:{ rewrite decide_False by done. apply panics_panic. }
  rewrite decide_True by done. destruct Hcase as [?|Hf]; [done|]. apply panics_r. unfold pf_add_empty_env_page.
  apply wp_bind. eapply wp_frame_for; [done|done|done| |].
  { unfold room_for in *. unfold need at 1. rewrite HD. unfold need in *. rewrite (Hsame1 (PDX va)) by lia. exact Hroom1. }
  intros L2 s2 HI2 Hle2 Hkeep2 Hev2 _. split.
  - intros _ _ _. apply wp_ret. rewrite decide_True by done. apply panics_panic.
  - intros Hn. exfalso. apply Hn. split; [by rewrite Hdfn1|congruence].
Qed.

(** ** Reading a page *)
Lemma wp_set_perms dir va set clear t T s (Q : unit → mm * (pfile * X) → Prop) :
  resolves dir va t s → arrays s.1 !! t = Some T → length T = 1024%nat →
  Q tt (set_pte t va (w32 (Z.land (w32 (Z.lor (pte_of t va s.1) set)) (Z.lnot clear))) s.1, s.2) →
  wp (pt_set_page_permissions dir va set clear) Q s.
Proof.
  intros Hres HT Hlen HQ. unfold pt_set_page_permissions. apply wp_bind. eapply wp_get_page_table; [done|].
  cbn [snd]. rewrite decide_True by apply Hres.
  apply wp_assoc, wp_bind. eapply (wp_change_entry t va (λ e, Z.lor e set)); [done|done|].
  match goal with |- context [set_pte t va ?v s.1] => destruct (set_pte_lookup t va v s.1 T HT Hlen) as [HT' Hp'] end.
  eapply (wp_change_entry t va (λ e, Z.land e (Z.lnot clear))); [done|by rewrite length_insert|].
  cbn [fst snd]. by rewrite Hp', set_pte_set_pte.
Qed.
Lemma clear_bits e : Z.land (Z.ldiff e PERM_MODIFIED) FRAME_BITS = Z.land e FRAME_BITS.
Proof.
  apply Z.bits_inj'. intros k Hk. rewrite !Z.land_spec, Z.ldiff_spec.
  destruct (Z.testbit PERM_MODIFIED k) eqn:Hm; [|by rewrite andb_true_r].
  assert (Z.testbit FRAME_BITS k = false) as ->; [|by rewrite !andb_false_r].
  change PERM_MODIFIED with (2 ^ 6) in Hm. rewrite Z.pow2_bits_eqb in Hm by lia. apply Z.eqb_eq in Hm as <-. done.
Qed.
Lemma read_entry e b : 0 ≤ e < 4294967296 → mark_bits b →
  w32 (Z.land (w32 (Z.lor (Z.lor e b) 0)) (Z.lnot PERM_MODIFIED)) = Z.ldiff (Z.lor e b) PERM_MODIFIED.
Proof.
  intros He Hb. rewrite Z.lor_0_r, <- Z.ldiff_land.
  assert (Hr : 0 ≤ Z.lor e b < 2 ^ 32).
  { apply lor_small_bits; [lia|exact He|]. destruct Hb as [->|[->|[->| ->]]]; vm_compute; intuition congruence. }
  rewrite (w32_small (Z.lor e b)) by exact Hr. apply w32_small. by apply (ldiff_small_bits _ _ 32).
Qed.
Lemma wp_pf_read_env_page L e x va t s (Q : Z → mm * (pfile * X) → Prop) :
  (busy ≤ fuel)%nat →
  pf_inv L s → mapped_page e x va t s →
  (cont L s e (page_slot va) = None → Q E_PAGE_NOT_EXIST_IN_PF s) →
  (∀ s', pf_inv L s' → (∀ e' q, slot_ok q → cont L s' e' q = cont L s e' q) →
    Some (page_at (ROUNDDOWN va PAGE_SIZE) s') = cont L s e (page_slot va) →
    disk_free_frame_list s'.2.1 = disk_free_frame_list s.2.1 →
    page_effect va t (λ e, Z.ldiff e PERM_MODIFIED) s s' → Q 0 s') →
  wp (pf_read_env_page fuel e va) Q s.
Proof.
  intros Hfuel HI Hmp HN HS. pose proof Hmp as [He Hu Hd Hpg _ Ha]. pose proof HI as (HL & HF & Hid).
  destruct (page_base_round va Hu) as (Hb & Hsl & Hu'). set (a := ROUNDDOWN va PAGE_SIZE) in *.
  destruct (page_slot_ok a) as (Hq & Hst & Hsi & HP & HT & _); [done|].
  unfold pf_read_env_page. fold a. apply wp_bind. eapply wp_get_penv; [done|].
  destruct (ti_env _ _ HL e x He) as [Hdir _]. rewrite Hdir. unfold cont in HN. rewrite <- Hsl in HN. unfold dfn in HN. rewrite Hst, Hsi in HN.
  destruct (L !! (e, PGDIR)) as [D|] eqn:HD; cbn [default id].
  2:{ rewrite decide_True by done. apply wp_ret. destruct (L !! (e, PDX a)) as [td|] eqn:Htd; [|by apply HN].
      destruct (ti_dir _ _ HL e (PDX a) td HP Htd). congruence. }
  destruct (ti_page _ _ HL _ _ HD) as [[p Hp] _]. destruct (kpage_va _ _ _ Hp) as (_ & Hnn & _). rewrite decide_False by done.
  destruct (L !! (e, PDX a)) as [td|] eqn:Htd.
  2:{ apply wp_bind. eapply wp_no_table; [done..|]. cbn [snd]. rewrite decide_True by done. apply wp_ret. by apply HN. }
  apply wp_bind. eapply wp_find_table; [done..|]. cbn [snd].
  destruct (ti_page _ _ HL _ _ Htd) as [[p' Hp'] (T & HTt & Hlen)]. destruct (kpage_va _ _ _ Hp') as (_ & Hnn' & _).
  rewrite decide_False by done. apply wp_bind. eapply wp_dentry; [done..|].
  assert (Hw : word td (PTX a) s.2.1 = dfn L s.2.1 e (page_slot a)) by (unfold dfn; by rewrite Hst, Hsi, Htd).
  rewrite Hw in *. destruct (decide (dfn L s.2.1 e (page_slot a) = 0)) as [H0|Hne]; [apply wp_ret; by apply HN|].
  apply wp_bind. apply wp_read_page; [done..|]. intros s1 HI1 Hio Hdata Hc1.
  destruct (io_mapped va t s s1 Hu Hpg Hio) as (Hres1 & T1 & b & HT1 & Hlen1 & Hb1 & Hpte1).
  destruct (same_slot va a Hu Hu' (eq_sym Hsl)) as [HDa HTa]. rewrite <- Hd. apply wp_bind.
  eapply (wp_set_perms (cr3 s) a 0 PERM_MODIFIED t T1); [by eapply (resolves_page _ va a)|done|done|].
  assert (Hpa : ∀ m, pte_of t a m = pte_of t va m) by (intros m; unfold pte_of; by rewrite HTa).
  assert (Hsa : ∀ v m, set_pte t a v m = set_pte t va v m) by (intros v m; unfold set_pte; by rewrite HTa).
  rewrite Hpa, Hsa, Hpte1. destruct Hpg as [Hres (T0 & HT0 & Hl0 & Hr0)].
  rewrite read_entry by done. rewrite <- Hpte1.
  set (v := Z.ldiff (pte_of t va s1.1) PERM_MODIFIED). set (s2 := (set_pte t va v s1.1, s1.2)).
  destruct (pf_inv_pte L (cr3 s) va t v s1 HI1 Hres1 Hu) as [HI2 Hc2]. fold s2 in HI2, Hc2.
  destruct (pte_keep (cr3 s) va t v s1 s2 Hres1 Hu eq_refl) as (_ & _ & _ & Hmem).
  assert (Hpf : s2.2.1 = s.2.1) by (cbn; by apply pf_io in Hio).
  apply wp_bind. eapply (wp_count L e x); [done|by rewrite Hpf|].
  intros s3 x3 HI3 Hm3 Hx3 _ _ _ _ Hc3 Hfr3 Hk3 Hev3. apply wp_ret. apply HS; [done| | |by rewrite Hfr3, Hpf|].
  - intros e' q Hq'. rewrite Hc3, Hc2. by apply Hc1.
  - rewrite <- Hsl. rewrite <- Hdata. f_equal. apply map_ext_in. intros j Hj%list_elem_of_In%elem_of_seqZ.
    assert (Hacc : accessible (a + SECTSIZE * j) s1).
    { eapply accessible_keep; [eapply io_keep_page; [|exact Hio]|eapply accessible_page; [|exact Ha]];
        (apply base_same_page; [done|unfold SECTSIZE, PAGE_SIZE; lia]). }
    destruct (Hmem (clear_bits _) (a + SECTSIZE * j)) as [Hm2 Ha2]. rewrite <- Hm2.
    destruct (keep_io _ _ Hk3) as [_ Hk]. by apply Hk, Ha2.
  - exists s, s1. split_and!; [done|done|by rewrite <- Hpf|by split; [|exists T0]|done| |].
    + by rewrite Hm3.
    + by rewrite Hx3.
Qed.
End ops.
