(* ===== verification/PageFileEnd.v ===== *)
(** * The page file: removal, the tables of an environment, counting

    Clearing slots one by one, as [pf_remove_env_page], [pf_free_env] and the
    functions on the table directory do; the initial page file; the two counts. *)

From S2P Require Import Prelude Queue Paging PagingSpec Ide PageFile PageFileSpec PageFileOps.

Section end_of_env.
Context {X sector : Type} {PE : PageEnv (pfile * X)} {PS : Ports (mm * (pfile * X))}
  {AD : AtaDevice (mm * (pfile * X)) sector} {WD : World X sector} {WL : WorldLaws X sector}.
Implicit Types s : mm * (pfile * X).
Implicit Types f : pfile.
Implicit Types L : layout.

(** ** Clearing a slot *)
Definition one_if (b : bool) : nat := if b then 1 else 0.
(** [s'] is [s] but for the words and lists of the page file; [n] more disk
    frames are free. *)
Record quiet_step s s' (n : nat) : Prop := {
  qs_mm : s'.1 = s.1;
  qs_x : s'.2.2 = s.2.2;
  qs_penvs : penvs s'.2.1 = penvs s.2.1;
  qs_frames : length (disk_frames_info s'.2.1) = length (disk_frames_info s.2.1);
  qs_zero : ptr_zero_page s'.2.1 = ptr_zero_page s.2.1;
  qs_dom t : is_Some (disk_tables s.2.1 !! t) ↔ is_Some (disk_tables s'.2.1 !! t);
  qs_free : length (disk_free_frame_list s'.2.1) = (n + length (disk_free_frame_list s.2.1))%nat
}.
Lemma quiet_step_trans s1 s2 s3 n k : quiet_step s1 s2 n → quiet_step s2 s3 k → quiet_step s1 s3 (k + n)%nat.
Proof. intros [] []. split; try congruence; [|lia]. intros t. by rewrite qs_dom0. Qed.
Lemma quiet_keep s s' n : quiet_step s s' n → keep s s'.
Proof.
  destruct s as [m [f x]], s' as [m' [f' x']]. intros [Hm Hx _ _ _ _]. cbn in *. subst. apply keep_pf.
Qed.
Lemma quiet_evolves s s' n : quiet_step s s' n → evolves s.2.1 s'.2.1.
Proof. intros []. split; [|done|done]. intros e. rewrite qs_penvs0. destruct (penvs s.2.1 !! e); eauto. Qed.

Lemma frames_clear L f f' e q :
  frames_inv L f → slot_ok q → dfn L f e q ≠ 0 →
  num_disk_frames f' = num_disk_frames f → dfllock f' = false → disk_free_frame_list f' = dfn L f e q :: disk_free_frame_list f →
  (∀ e' q', slot_ok q' → dfn L f' e' q' = if decide ((e', q') = (e, q)) then 0 else dfn L f e' q') →
  frames_inv L f'.
Proof.
  intros HF Hq Hne Hn Hl Hfr Hd. destruct (fi_slot _ _ HF e q Hq) as [?|[Hr Hni]]; [done|]. split; rewrite ?Hn, ?Hfr.
  - apply HF.
  - done.
  - apply NoDup_cons. split; [done|apply HF].
  - intros d [->|Hin]%elem_of_cons; [done|by apply (fi_free _ _ HF)].
  - intros e' q' Hq'. rewrite Hd by done. destruct (decide _) as [|Hneq]; [by left|].
    destruct (fi_slot _ _ HF e' q' Hq') as [|[Hr' Hni']]; [by left|right]. split; [done|]. rewrite elem_of_cons. intros [Heq|]; [|done].
    apply Hneq. apply (fi_inj _ _ HF); [done|done|done|lia].
  - intros e1 q1 e2 q2 Hq1 Hq2. rewrite !Hd by done. destruct (decide ((e1, q1) = (e, q))); [done|].
    destruct (decide ((e2, q2) = (e, q))); [congruence|]. by apply (fi_inj _ _ HF).
  - intros d Hdr Hdn. rewrite elem_of_cons in Hdn.
    destruct (fi_all _ _ HF d) as (e' & q' & Hq' & Heq); [done|by intros ?; apply Hdn; right|]. exists e', q'. split; [done|]. rewrite Hd by done.
    rewrite decide_False; [done|]. intros [= -> ->]. apply Hdn. by left.
Qed.
Lemma wp_clear_slot L e q t s (Q : unit → mm * (pfile * X) → Prop) :
  pf_inv L s → slot_ok q → L !! (e, slot_table q) = Some t →
  (∀ s', pf_inv L s' → quiet_step s s' (one_if (bool_decide (dfn L s.2.1 e q ≠ 0))) →
    (∀ e' q', slot_ok q' → dfn L s'.2.1 e' q' = if decide ((e', q') = (e, q)) then 0 else dfn L s.2.1 e' q') → Q tt s') →
  wp (clear_slot t (slot_index q)) Q s.
Proof.
  intros HI Hq Ht HQ. pose proof HI as (HL & HF & Hid). destruct (slot_words _ _ _ _ _ HL Ht) as (T & HT & Hlen).
  pose proof (slot_index_range q Hq) as Hi. unfold clear_slot. apply wp_bind. eapply wp_dentry; [done..|].
  assert (Hw : word t (slot_index q) s.2.1 = dfn L s.2.1 e q) by (unfold dfn; by rewrite Ht). rewrite Hw. clear Hw.
  apply wp_bind. eapply wp_set_dentry; [done|done|done|lia|]. set (f1 := put_word _ _ _ _).
  assert (Hd1 : ∀ e' q', slot_ok q' → dfn L f1 e' q' = if decide ((e', q') = (e, q)) then 0 else dfn L s.2.1 e' q')
    by (intros; by apply dfn_put).
  assert (Hdom : ∀ t', is_Some (disk_tables s.2.1 !! t') ↔ is_Some (disk_tables f1 !! t')).
  { intros t'. unfold f1. cbn. rewrite lookup_insert_is_Some. destruct (decide (t = t')) as [<-|]; [|naive_solver].
    rewrite HT. naive_solver. }
  unfold free_disk_frame. destruct (decide (dfn L s.2.1 e q = 0)) as [H0|Hne].
  - apply wp_ret. apply HQ.
    + split_and!.
      * by apply (tables_put L s e q t 0).
      * eapply frames_inv_step; [exact HF|done|done|done|]. intros e' q' Hq'. cbn [fst snd]. rewrite Hd1 by done.
        destruct (decide _) as [[= -> ->]|]; [by rewrite H0|done].
      * destruct s as [m [f x]]. by eapply idle_pf.
    + rewrite bool_decide_false by tauto. split; done.
    + exact Hd1.
  - destruct (slot_frame _ _ e q HF Hq Hne) as [Hr _]. destruct (fi_slot _ _ HF e q Hq) as [?|[Hrng Hni]]; [done|].
    set (d := dfn L s.2.1 e q) in *. set (f2 := set_disk_free (d :: disk_free_frame_list s.2.1) f1).
    assert (Hlk : dfllock s.2.1 = false) by apply HF.
    destruct (lookup_lt_is_Some_2 (disk_frames_info s.2.1) (Z.to_nat d)) as [y Hy]; [unfold num_disk_frames in Hrng; lia|].
    apply wp_bind, wp_bind, wp_pget, wp_bind, wp_assert; [by cbn; rewrite Hlk|]. apply wp_pset.
    apply wp_bind, wp_pget. apply wp_bind. eapply wp_unwrap; [exact Hy|].
    apply wp_bind, wp_bind, wp_pget, wp_bind, wp_Ok. exists (d :: disk_free_frame_list s.2.1). eexists.
    split; [by apply lq_insert_head_run|]. apply wp_pset. apply wp_bind, wp_pget, wp_bind, wp_assert; [done|]. apply wp_pset.
    cbn [fst snd]. match goal with |- Q tt (_, (?f, _)) => assert (Hf : f = f2) end.
    { unfold f2, f1, put_word. destruct s as [m [f x]]. cbn in *. destruct f. cbn in *. by subst. }
    rewrite Hf. apply HQ.
    + split_and!.
      * by apply (tables_put L s e q t 0).
      * eapply (frames_clear L s.2.1 f2 e q); [done..|]. intros e' q' Hq'. rewrite <- Hd1 by done. by apply dfn_step.
      * destruct s as [m [f x]]. by eapply idle_pf.
    + rewrite bool_decide_true by done. split; done.
    + intros e' q' Hq'. cbn [fst snd]. rewrite <- Hd1 by done. by apply dfn_step.
Qed.
Lemma cont_quiet L s s' n e q : quiet_step s s' n → dfn L s'.2.1 e q = dfn L s.2.1 e q → cont L s' e q = cont L s e q.
Proof. intros Hq Hd. apply cont_same; [done|]. by destruct (keep_io _ _ (quiet_keep _ _ _ Hq)). Qed.
Lemma cont_none L s e q : cont L s e q = None ↔ dfn L s.2.1 e q = 0.
Proof. unfold cont. by case_decide. Qed.

(** ** Removing a page *)
Lemma wp_pf_remove_env_page L e x va s (Q : unit → mm * (pfile * X) → Prop) :
  pf_inv L s → penvs s.2.1 !! e = Some x → 0 ≤ va < USER_TOP →
  (∀ s', pf_inv L s' → quiet_step s s' (one_if (bool_decide (cont L s e (page_slot va) ≠ None))) →
    (∀ e' q, slot_ok q → cont L s' e' q = if decide ((e', q) = (e, page_slot va)) then None else cont L s e' q) → Q tt s') →
  wp (pf_remove_env_page e va) Q s.
Proof.
  intros HI He Hu HQ. pose proof HI as (HL & HF & Hid).
  destruct (page_slot_ok va) as (Hq & Hst & Hsi & HP & HT & _); [done|].
  assert (Hnone : dfn L s.2.1 e (page_slot va) = 0 → Q tt s).
  { intros H0. apply HQ; [done| |].
    - rewrite bool_decide_false; [by split|]. intros Hn. apply Hn. by apply cont_none.
    - intros e' q Hq'. destruct (decide _) as [[= -> ->]|]; [|done]. by apply cont_none. }
  unfold pf_remove_env_page. apply wp_bind. eapply wp_get_penv; [done|]. destruct (ti_env _ _ HL e x He) as [Hdir _]. rewrite Hdir.
  destruct (L !! (e, PDX va)) as [t|] eqn:Ht.
  - destruct (ti_dir _ _ HL e (PDX va) t HP Ht) as [D HD]. rewrite HD. cbn [default id].
    destruct (ti_page _ _ HL _ _ HD) as [[p Hp] _]. destruct (kpage_va _ _ _ Hp) as (_ & Hnn & _). rewrite decide_False by done.
    apply wp_bind. eapply wp_find_table; [done..|]. cbn [snd].
    destruct (ti_page _ _ HL _ _ Ht) as [[p' Hp'] _]. destruct (kpage_va _ _ _ Hp') as (_ & Hnn' & _). rewrite decide_False by done.
    rewrite <- Hsi. rewrite <- Hst in Ht. eapply wp_clear_slot; [done..|]. intros s' HI' Hqs Hd. apply HQ; [done| |].
    + by rewrite (bool_decide_ext (cont L s e (page_slot va) ≠ None) (dfn L s.2.1 e (page_slot va) ≠ 0)) by (by rewrite cont_none).
    + intros e' q Hq'. specialize (Hd e' q Hq'). destruct (decide _); [by apply cont_none|]. by eapply cont_quiet.
  - assert (H0 : dfn L s.2.1 e (page_slot va) = 0) by (unfold dfn; by rewrite Hst, Ht).
    destruct (L !! (e, PGDIR)) as [D|] eqn:HD; cbn [default id].
    + destruct (ti_page _ _ HL _ _ HD) as [[p Hp] _]. destruct (kpage_va _ _ _ Hp) as (_ & Hnn & _). rewrite decide_False by done.
      apply wp_bind. eapply wp_no_table; [done..|]. cbn [snd]. rewrite decide_True by done. apply wp_ret. by apply Hnone.
    + rewrite decide_True by done. apply wp_ret. by apply Hnone.
Qed.

(** ** Clearing the slots of a table *)
Lemma wp_clear_slots L e k t (sl : Z → Z) l s (Q : unit → mm * (pfile * X) → Prop) :
  pf_inv L s → L !! (e, k) = Some t →
  (∀ i, i ∈ l → slot_ok (sl i) ∧ slot_table (sl i) = k ∧ slot_index (sl i) = i) →
  (∀ s' n, pf_inv L s' → quiet_step s s' n →
    (∀ e' q, slot_ok q → dfn L s'.2.1 e' q =
      if decide (e' = e ∧ slot_table q = k ∧ slot_index q ∈ l) then 0 else dfn L s.2.1 e' q) → Q tt s') →
  wp (mfor l (clear_slot t)) Q s.
Proof.
  revert s Q. induction l as [|i l IH]; intros s Q HI Ht Hsl HQ; cbn [mfor].
  { apply wp_ret. apply (HQ s 0%nat); [done|by split|]. intros e' q Hq. rewrite decide_False; [done|]. intros (_ & _ & Hin). set_solver. }
  destruct (Hsl i) as (Hok & Hst & Hsi); [by left|]. apply wp_bind. rewrite <- Hsi at 1.
  eapply (wp_clear_slot L e (sl i)); [done|done|by rewrite Hst|].
  intros s1 HI1 Hq1 Hd1. apply IH; [done|done|by intros; apply Hsl; right|].
  intros s2 n HI2 Hq2 Hd2. eapply HQ; [done|by eapply quiet_step_trans|]. intros e' q Hq. rewrite Hd2, Hd1 by done.
  destruct (decide (e' = e ∧ slot_table q = k ∧ slot_index q ∈ l)) as [(-> & -> & ?)|Hn].
  { rewrite decide_True; [done|]. split_and!; [done|done|by right]. }
  destruct (decide ((e', q) = (e, sl i))) as [[= -> ->]|Hne].
  { rewrite decide_True; [done|]. split_and!; [done|done|rewrite Hsi; by left]. }
  rewrite decide_False; [done|]. intros (-> & Hk & [Hi|Hi]%elem_of_cons); [|tauto]. apply Hne. f_equal. apply slot_eq; congruence.
Qed.

(** ** Giving a table back *)
Lemma tables_delete L k0 t s s' :
  tables_inv L s → L !! k0 = Some t →
  (∀ t' p, t' ≠ t → kpage t' p s → kpage t' p s') →
  (∀ e, is_Some (penvs s.2.1 !! e) → is_Some (penvs s'.2.1 !! e)) →
  (∀ e x, penvs s'.2.1 !! e = Some x → disk_env_pgdir x = default NULL (delete k0 L !! (e, PGDIR)) ∧
     disk_env_tabledir x = default NULL (delete k0 L !! (e, TABLEDIR))) →
  (∀ t' T, t' ≠ t → disk_tables s.2.1 !! t' = Some T → length T = 1024%nat →
     ∃ T', disk_tables s'.2.1 !! t' = Some T' ∧ length T' = 1024%nat) →
  (∀ e D i, L !! (e, PGDIR) = Some D → D ≠ t → 0 ≤ i < 1024 →
     word D i s'.2.1 = if decide ((e, i) = k0) then 0 else word D i s.2.1) →
  (k0.2 = PGDIR → ∀ i, 0 ≤ i < 1024 → L !! (k0.1, i) = None) →
  tables_inv (delete k0 L) s'.
Proof.
  intros HL Ht Hkp Hdom Henv Htab Hword Hdir.
  assert (Hoth : ∀ k t', delete k0 L !! k = Some t' → L !! k = Some t' ∧ t' ≠ t ∧ k ≠ k0).
  { intros k t' [Hne Hk]%lookup_delete_Some. split_and!; [done| |done]. intros ->. apply Hne. by eapply (ti_inj _ _ HL). }
  split.
  - intros e k t' (Hk & _)%Hoth. destruct (ti_key _ _ HL e k t' Hk) as [? ?]. split; [done|]. by apply Hdom.
  - intros k k' t' (Hk & _)%Hoth (Hk' & _)%Hoth. by eapply (ti_inj _ _ HL).
  - intros k t' (Hk & Hne & _)%Hoth. destruct (ti_page _ _ HL k t' Hk) as [[p Hp] (T & HT & Hlen)].
    split; [exists p; by apply Hkp|]. by eapply Htab.
  - done.
  - intros e D i HD Hi. apply Hoth in HD as (HD & Hne & HkD). rewrite (Hword e D i) by done.
    pose proof (ti_pde _ _ HL e D i HD Hi) as Hpde. destruct (decide ((e, i) = k0)) as [<-|Hk].
    { by rewrite lookup_delete_eq. }
    rewrite lookup_delete_ne by done. destruct (L !! (e, i)) as [t'|] eqn:Hi'; [|done].
    destruct Hpde as (p & Hp & Hw). exists p. split; [|done]. apply Hkp; [|done]. intros ->. apply Hk. symmetry. by eapply (ti_inj _ _ HL).
  - intros e i t' Hi (Hk & Hne & HkD)%Hoth. destruct (ti_dir _ _ HL e i t' Hi Hk) as [D HD]. exists D.
    rewrite lookup_delete_ne; [done|]. intros ->. cbn in Hdir. rewrite Hdir in Hk by done. done.
Qed.
Lemma dfn_delete L k0 t f f' e q :
  L !! k0 = Some t → slot_ok q → (∀ k t', L !! k = Some t' → k ≠ k0 → k.2 ≠ PGDIR → ∀ i, 0 ≤ i < 1024 → word t' i f' = word t' i f) →
  (k0.2 = slot_table q → k0.1 = e → dfn L f e q = 0) → dfn (delete k0 L) f' e q = dfn L f e q.
Proof.
  intros Ht Hq Hw Hz. unfold dfn in *. destruct (decide (k0 = (e, slot_table q))) as [->|Hne].
  - rewrite lookup_delete_eq. symmetry. by apply Hz.
  - rewrite lookup_delete_ne by done. destruct (L !! (e, slot_table q)) as [t'|] eqn:Ht'; [|done].
    eapply Hw; [done|done| |by apply slot_index_range]. cbn. by apply slot_table_range.
Qed.

Lemma word_delete t t' i f : t' ≠ t → word t' i (set_disk_tables (delete t (disk_tables f)) f) = word t' i f.
Proof. intros Hne. unfold word, words. cbn. by rewrite lookup_delete_ne. Qed.

Lemma wp_pf_free_table L e D i s (Q : unit → mm * (pfile * X) → Prop) :
  pf_inv L s → L !! (e, PGDIR) = Some D → 0 ≤ i < USER_TABLES →
  (∀ s', pf_inv (delete (e, i) L) s' → keep s s' → evolves s.2.1 s'.2.1 → penvs s'.2.1 = penvs s.2.1 →
    (length (disk_free_frame_list s.2.1) ≤ length (disk_free_frame_list s'.2.1))%nat →
    (∀ e' q, slot_ok q → dfn (delete (e, i) L) s'.2.1 e' q =
      if decide (e' = e ∧ slot_table q = i) then 0 else dfn L s.2.1 e' q) → Q tt s') →
  wp (pf_free_table D i) Q s.
Proof.
  intros HI HD Hi HQ. pose proof HI as (HL & HF & Hid). unfold USER_TABLES in Hi.
  destruct (ti_page _ _ HL _ _ HD) as [[pD HpD] (TD & HTD & HlD)].
  pose proof (ti_pde _ _ HL e D i HD ltac:(lia)) as Hpde.
  apply wp_bind. eapply wp_dentry; [done|done|lia|]. destruct (L !! (e, i)) as [t|] eqn:Ht.
  2:{ rewrite Hpde, decide_True by done. apply wp_ret. rewrite delete_id in HQ by done. apply HQ; try done.
      intros e' q Hq. destruct (decide _) as [[-> <-]|]; [|done]. unfold dfn. by rewrite Ht. }
  destruct Hpde as (p & Hp & Hw). destruct (kpage_va _ _ _ Hp) as (Hkva & Hnn & Hpr & Hpal).
  destruct (present_entry p Hpr Hpal) as (_ & Hex & _ & Hpres). rewrite Hw, decide_False by done.
  apply wp_bind, wp_gets. rewrite Hex, Hkva. apply wp_bind.
  apply (wp_clear_slots L e i t (λ j, i * 1024 + j)); [done|done| |].
  { intros j Hj%elem_of_seqZ. apply table_slot; unfold USER_TABLES; lia. }
  intros s1 n HI1 Hq1 Hd1. destruct HI1 as (HL1 & HF1 & Hid1).
  assert (HDt : D ≠ t). { intros ->. pose proof (ti_inj _ _ HL _ _ _ HD Ht) as [= <-]. unfold PGDIR in *. lia. }
  destruct (ti_page _ _ HL1 _ _ HD) as [_ (T1 & HT1 & Hl1)].
  apply wp_bind. eapply wp_set_dentry; [done|done|lia|lia|]. destruct s1 as [m1 [f1 x1]]. cbn [fst snd] in *.
  set (f2 := put_word D i 0 f1). destruct (ti_page _ _ HL1 _ _ Ht) as [[p1 Hp1] _].
  apply wp_bind. eapply wp_mono; [eapply (kfree_law t p1); by eapply kpage_pf|].
  intros [] s3 (Hkp3 & _ & Hpf3 & Hkeep3). apply wp_pset. destruct s3 as [m3 [f3 x3]]. cbn [fst snd] in *. subst f3.
  set (f4 := set_disk_tables _ _).
  assert (Hk14 : keep s (m3, (f4, x3))).
  { etrans; [by eapply quiet_keep|]. etrans; [apply (keep_pf m1 f1 f2 x1)|]. etrans; [exact Hkeep3|apply keep_pf]. }
  assert (Hword : ∀ t' j, t' ≠ t → 0 ≤ j < 1024 → word t' j f4 = if decide (t' = D ∧ j = i) then 0 else word t' j f1).
  { intros t' j Hne Hj. unfold f4. rewrite word_delete by done. apply (word_put D i 0 t' j T1); done || lia. }
  assert (Hdfn : ∀ e' q, slot_ok q → dfn (delete (e, i) L) f4 e' q = dfn L f1 e' q).
  { intros e' q Hq. eapply (dfn_delete L (e, i)); [done|done| |].
    - intros k t' Hk Hne Hnd j Hj. rewrite Hword; [| |done].
      + rewrite decide_False; [done|]. intros [-> _]. apply Hnd. by rewrite (ti_inj _ _ HL _ _ _ Hk HD).
      + intros ->. apply Hne. by eapply (ti_inj _ _ HL).
    - cbn. intros Hiq <-. rewrite Hd1 by done. rewrite decide_True; [done|]. split_and!; [done|done|].
      apply elem_of_seqZ. by apply slot_index_range. }
  apply HQ.
  - split_and!.
    + eapply (tables_delete L (e, i) t (m1, (f1, x1))); [done|done|..]; cbn [fst snd].
      * intros t' p' Hne Hpg. eapply kpage_pf, Hkp3; [done|]. by eapply kpage_pf.
      * done.
      * intros e' x' Hx'. rewrite !lookup_delete_ne by (unfold PGDIR, TABLEDIR; intros [= ? ?]; lia).
        by apply (ti_env _ _ HL1).
      * intros t' T' Hne HT' Hl'. unfold f4. cbn. rewrite lookup_delete_ne by done. destruct (decide (t' = D)) as [->|].
        { rewrite lookup_insert_eq. eexists. split; [done|]. rewrite length_insert. unfold words. by rewrite HT1. }
        rewrite lookup_insert_ne by done. eauto.
      * intros e' D' j HD' Hne Hj. rewrite Hword by done. destruct (decide ((e', j) = (e, i))) as [[= -> ->]|Hneq].
        { rewrite decide_True; [done|]. split; [congruence|done]. }
        rewrite decide_False; [done|]. intros [-> ->]. apply Hneq. by pose proof (ti_inj _ _ HL _ _ _ HD' HD) as [= ->].
      * cbn. unfold PGDIR. lia.
    + by eapply frames_inv_step.
    + unfold idle in *. destruct (keep_io _ _ Hk14) as [-> _]. done.
  - done.
  - etrans; [by eapply quiet_evolves|]. cbn. split; [|done|done]. intros e'. cbn. destruct (penvs f1 !! e'); eauto.
  - cbn. by rewrite <- (qs_penvs _ _ _ Hq1).
  - pose proof (qs_free _ _ _ Hq1) as Hfree. cbn in Hfree |- *. lia.
  - intros e' q Hq. cbn [fst snd]. rewrite Hdfn by done. rewrite Hd1 by done.
    pose proof (slot_index_range q Hq). destruct (decide (e' = e ∧ slot_table q = i)) as [[-> <-]|Hn].
    + rewrite decide_True; [done|]. split_and!; [done|done|]. by apply elem_of_seqZ.
    + rewrite decide_False; [done|]. tauto.
Qed.

(** ** The end of an environment *)
Lemma wp_free_tables L e D l s (Q : unit → mm * (pfile * X) → Prop) :
  pf_inv L s → L !! (e, PGDIR) = Some D → (∀ i, i ∈ l → 0 ≤ i < USER_TABLES) →
  (∀ L' s', pf_inv L' s' → (∀ k, L' !! k = if decide (k.1 = e ∧ k.2 ∈ l) then None else L !! k) →
    keep s s' → evolves s.2.1 s'.2.1 → penvs s'.2.1 = penvs s.2.1 →
    (length (disk_free_frame_list s.2.1) ≤ length (disk_free_frame_list s'.2.1))%nat →
    (∀ e' q, slot_ok q → dfn L' s'.2.1 e' q = if decide (e' = e ∧ slot_table q ∈ l) then 0 else dfn L s.2.1 e' q) → Q tt s') →
  wp (mfor l (pf_free_table D)) Q s.
Proof.
  revert L s Q. induction l as [|i l IH]; intros L s Q HI HD Hl HQ; cbn [mfor].
  { apply wp_ret. apply (HQ L s); try done.
    - intros k. rewrite decide_False; [done|]. intros [_ Hin]. set_solver.
    - intros e' q _. rewrite decide_False; [done|]. intros [_ Hin]. set_solver. }
  apply wp_bind. eapply wp_pf_free_table; [done|done|apply Hl; by left|].
  intros s1 HI1 Hk1 Hev1 Hpe1 Hfr1 Hd1. pose proof (Hl i ltac:(by left)) as Hi.
  assert (HDk : (e, i) ≠ (e, PGDIR)) by (unfold PGDIR; intros [= ?]; lia).
  eapply IH; [done|by rewrite lookup_delete_ne|by intros; apply Hl; right|].
  intros L2 s2 HI2 HL2 Hk2 Hev2 Hpe2 Hfr2 Hd2. apply (HQ L2 s2); [done| |by etrans|by etrans|congruence|lia|].
  - intros k. rewrite HL2. destruct (decide (k.1 = e ∧ k.2 ∈ l)) as [[? ?]|Hn].
    { rewrite decide_True; [done|]. split; [done|by right]. }
    destruct (decide (k = (e, i))) as [->|Hne].
    { rewrite lookup_delete_eq, decide_True; [done|]. split; [done|by left]. }
    rewrite lookup_delete_ne by done. rewrite decide_False; [done|]. intros [<- [<-|?]%elem_of_cons]; [by destruct k|tauto].
  - intros e' q Hq. rewrite Hd2, Hd1 by done. destruct (decide (e' = e ∧ slot_table q ∈ l)) as [[-> ?]|Hn].
    { rewrite decide_True; [done|]. split; [done|by right]. }
    destruct (decide (e' = e ∧ slot_table q = i)) as [[-> <-]|Hn'].
    { rewrite decide_True; [done|]. split; [done|by left]. }
    rewrite decide_False; [done|]. intros [-> [?|?]%elem_of_cons]; tauto.
Qed.
(** The directory ([k = PGDIR]) or the table directory is given back. *)
Lemma wp_drop_directory L e x k t s (g : penv → penv) (Q : unit → mm * (pfile * X) → Prop) :
  pf_inv L s → penvs s.2.1 !! e = Some x → L !! (e, k) = Some t →
  (k = PGDIR ∧ g = set_pgdir 0 0 ∧ (∀ i, 0 ≤ i < 1024 → L !! (e, i) = None)) ∨ (k = TABLEDIR ∧ g = set_tabledir 0 0) →
  (∀ q, slot_ok q → slot_table q = k → dfn L s.2.1 e q = 0) →
  (∀ s', pf_inv (delete (e, k) L) s' → keep s s' → evolves s.2.1 s'.2.1 → penvs s'.2.1 = <[e := g x]> (penvs s.2.1) →
    disk_free_frame_list s'.2.1 = disk_free_frame_list s.2.1 →
    (∀ e' q, slot_ok q → dfn (delete (e, k) L) s'.2.1 e' q = dfn L s.2.1 e' q) → Q tt s') →
  wp (drop_disk_table t ;; upd_penv e g) Q s.
Proof.
  intros HI He Ht Hg Hz HQ. pose proof HI as (HL & HF & Hid). destruct s as [m [f y]]. cbn [fst snd] in *.
  destruct (ti_page _ _ HL _ _ Ht) as [[p Hp] _]. unfold drop_disk_table. apply wp_bind, wp_bind.
  eapply wp_mono; [by eapply kfree_law|]. intros [] s1 (Hkp & _ & Hpf & Hkeep). destruct s1 as [m1 [f1 y1]]. cbn in Hpf. subst f1.
  apply wp_pset. cbn [fst snd]. eapply wp_upd_penv; [done|]. cbn [fst snd]. set (f' := set_penvs _ _).
  assert (Hkeep' : keep (m, (f, y)) (m1, (f', y1))) by (etrans; [exact Hkeep|apply keep_pf]).
  assert (Hword : ∀ t' j, t' ≠ t → word t' j f' = word t' j f).
  { intros t' j Hne. etrans; [|by apply (word_delete t t' j f)]. done. }
  assert (Hdfn : ∀ e' q, slot_ok q → dfn (delete (e, k) L) f' e' q = dfn L f e' q).
  { intros e' q Hq. eapply (dfn_delete L (e, k)); [done|done| |].
    - intros k' t' Hk' Hne _ j Hj. apply Hword. intros ->. apply Hne. by eapply (ti_inj _ _ HL).
    - cbn. intros Hk <-. by apply Hz. }
  destruct (ti_env _ _ HL e x He) as [Hpd Htd].
  assert (Hgx : env_page_directory (g x) = env_page_directory x ∧ initNumStackPages (g x) = initNumStackPages x).
  { destruct Hg as [(_ & -> & _)|[_ ->]]; done. }
  apply HQ.
  - split_and!.
    + eapply (tables_delete L (e, k) t (m, (f, y))); [done|done|..]; cbn [fst snd].
      * intros t' p' Hne Hpg. eapply kpage_pf. by apply Hkp.
      * intros e' Hs. cbn. apply lookup_insert_is_Some. destruct (decide (e = e')); [by left|by right].
      * intros e' x'. cbn. intros [[<- <-]|[Hne He']]%lookup_insert_Some.
        { destruct Hg as [(-> & -> & _)|[-> ->]]; cbn; rewrite lookup_delete_eq, lookup_delete_ne by (unfold PGDIR, TABLEDIR; congruence); done. }
        rewrite !lookup_delete_ne by congruence. by apply (ti_env _ _ HL).
      * intros t' T' Hne HT' Hl'. cbn. rewrite lookup_delete_ne by done. eauto.
      * intros e' D' j HD' Hne Hj. rewrite Hword by done. rewrite decide_False; [done|].
        intros [= -> <-]. destruct Hg as [(-> & _)|[-> _]]; unfold PGDIR, TABLEDIR in *; lia.
      * cbn. intros -> i Hi. destruct Hg as [(_ & _ & Hn)|[Hk _]]; [by apply Hn|by unfold PGDIR, TABLEDIR in Hk].
    + by eapply frames_inv_step.
    + unfold idle in *. destruct (keep_io _ _ Hkeep') as [-> _]. done.
  - done.
  - cbn. etrans; [apply (evolves_tables f (delete t (disk_tables f)))|].
    apply (evolves_upd (set_disk_tables (delete t (disk_tables f)) f) e x g); [done|apply Hgx..].
  - done.
  - done.
  - exact Hdfn.
Qed.
Lemma evolves_get f f' e x : evolves f f' → penvs f !! e = Some x → ∃ x', penvs f' !! e = Some x'.
Proof. intros Hev He. pose proof (ev_env _ _ Hev e) as H. rewrite He in H. destruct H as (x' & ? & _). eauto. Qed.

Lemma wp_all_tables L e x s (Q : unit → mm * (pfile * X) → Prop) :
  pf_inv L s → penvs s.2.1 !! e = Some x →
  (∀ s' n, pf_inv L s' → quiet_step s s' n →
    (∀ e' q, slot_ok q → dfn L s'.2.1 e' q = if decide (e' = e ∧ q < 0) then 0 else dfn L s.2.1 e' q) → Q tt s') →
  wp (__pf_remove_env_all_tables e) Q s.
Proof.
  intros HI He HQ. pose proof HI as (HL & HF & Hid). unfold __pf_remove_env_all_tables. apply wp_bind. eapply wp_get_penv; [done|].
  destruct (ti_env _ _ HL e x He) as [_ Htd]. rewrite Htd. destruct (L !! (e, TABLEDIR)) as [t|] eqn:Ht; cbn [default id].
  - destruct (ti_page _ _ HL _ _ Ht) as [[p Hp] _]. destruct (kpage_va _ _ _ Hp) as (_ & Hnn & _). rewrite decide_False by done.
    change (PDX USER_TOP) with USER_TABLES. eapply (wp_clear_slots L e TABLEDIR t (λ i, -1 - i)); [done|done| |].
    { intros i Hi%elem_of_seqZ. apply tabledir_slot. lia. }
    intros s' n HI' Hqs Hd. eapply HQ; [done|done|]. intros e' q Hq. rewrite Hd by done.
    destruct (decide (e' = e ∧ q < 0)) as [[-> Hlt]|Hn].
    + rewrite decide_True; [done|]. unfold slot_ok, USER_TABLES in Hq. unfold slot_table, slot_index. rewrite !decide_True by done.
      split_and!; [done|done|]. apply elem_of_seqZ. unfold USER_TABLES. lia.
    + rewrite decide_False; [done|]. intros (-> & Hst & _). unfold slot_table in Hst. case_decide; [tauto|].
      unfold TABLEDIR in Hst. pose proof (Z.div_pos q 1024 ltac:(lia) ltac:(lia)). lia.
  - rewrite decide_True by done. apply wp_ret. apply (HQ s 0%nat); [done|by split|]. intros e' q Hq.
    destruct (decide _) as [[-> Hlt]|]; [|done]. unfold dfn, slot_table. by rewrite decide_True, Ht.
Qed.
Lemma wp_pf_free_env L e x D s (Q : unit → mm * (pfile * X) → Prop) :
  pf_inv L s → penvs s.2.1 !! e = Some x → L !! (e, PGDIR) = Some D →
  (∀ L' s', pf_inv L' s' → (∀ e' k, L' !! (e', k) = if decide (e' = e) then None else L !! (e', k)) →
    keep s s' → evolves s.2.1 s'.2.1 →
    (∀ e' q, slot_ok q → cont L' s' e' q = if decide (e' = e) then None else cont L s e' q) → Q tt s') →
  wp (pf_free_env e) Q s.
Proof.
  intros HI He HD HQ. pose proof HI as (HL & HF & Hid). unfold pf_free_env. apply wp_bind. eapply wp_get_penv; [done|].
  destruct (ti_env _ _ HL e x He) as [Hpd Htd]. rewrite Hpd, HD. cbn [default id].
  apply wp_bind. eapply wp_free_tables; [done|done| |].
  { change (PDX USER_TOP) with USER_TABLES. intros i Hi%elem_of_seqZ. lia. }
  change (PDX USER_TOP) with USER_TABLES. intros L1 s1 HI1 HL1 Hk1 Hev1 Hpe1 _ Hd1.
  assert (Hin : ∀ i, i ∈ seqZ 0 USER_TABLES ↔ 0 ≤ i < USER_TABLES) by (intros; rewrite elem_of_seqZ; lia).
  assert (He1 : penvs s1.2.1 !! e = Some x) by (by rewrite Hpe1).
  apply wp_assoc, wp_bind. eapply (wp_drop_directory L1 e x PGDIR D); [done|done| | | |].
  { rewrite HL1, decide_False; [done|]. cbn. rewrite Hin. unfold PGDIR. lia. }
  { left. split_and!; [done|done|]. intros i Hi. rewrite HL1. cbn. case_decide as Hc; [done|].
    destruct (L !! (e, i)) as [t|] eqn:Ht; [|done]. exfalso. apply Hc. split; [done|]. apply Hin.
    destruct (ti_key _ _ HL e i t Ht). lia. }
  { intros q Hq Hst. by destruct (slot_table_range q Hq). }
  intros s2 HI2 Hk2 Hev2 Hpe2 _ Hd2. set (L2 := delete (e, PGDIR) L1) in *.
  assert (He2 : penvs s2.2.1 !! e = Some (set_pgdir 0 0 x)) by (rewrite Hpe2; by rewrite lookup_insert_eq).
  assert (HT : ∀ e' k, L2 !! (e', k) = if decide (e' = e ∧ k ≠ TABLEDIR) then None else L !! (e', k)).
  { intros e' k. unfold L2. destruct (decide ((e', k) = (e, PGDIR))) as [[= -> ->]|Hne].
    { rewrite lookup_delete_eq, decide_True; done. }
    rewrite lookup_delete_ne by done. rewrite HL1. cbn. destruct (decide (e' = e ∧ k ∈ seqZ 0 USER_TABLES)) as [[-> Hi]|Hn].
    { rewrite decide_True; [done|]. split; [done|]. apply Hin in Hi. unfold TABLEDIR. lia. }
    destruct (decide (e' = e ∧ k ≠ TABLEDIR)) as [[-> Hk]|]; [|done]. destruct (L !! (e, k)) as [t|] eqn:Ht; [|done]. exfalso. apply Hn.
    split; [done|]. apply Hin. destruct (ti_key _ _ HL e k t Ht) as [Hr _]. unfold PGDIR, TABLEDIR in *.
    assert (k ≠ -1) by (by intros ->). lia. }
  assert (Hd : ∀ e' q, slot_ok q → dfn L2 s2.2.1 e' q = if decide (e' = e ∧ 0 ≤ q) then 0 else dfn L s.2.1 e' q).
  { intros e' q Hq. rewrite Hd2, Hd1 by done. destruct (decide (e' = e ∧ 0 ≤ q)) as [[-> H0]|Hn].
    - rewrite decide_True; [done|]. split; [done|]. apply Hin. destruct (slot_table_range q Hq) as [Hr _].
      unfold slot_table in *. rewrite decide_False in * by lia. pose proof (Z.div_pos q 1024 ltac:(lia) ltac:(lia)). lia.
    - rewrite decide_False; [done|]. intros [-> Hi%Hin]. unfold slot_table in Hi. case_decide; [unfold TABLEDIR in Hi; lia|]. apply Hn. lia. }
  assert (Hk02 : keep s s2) by (by etrans). assert (Hev02 : evolves s.2.1 s2.2.1) by (by etrans).
  rewrite Htd. destruct (L !! (e, TABLEDIR)) as [td|] eqn:HTD; cbn [default id].
  - destruct (ti_page _ _ HL _ _ HTD) as [[p Hp] _]. destruct (kpage_va _ _ _ Hp) as (_ & Hnn & _). rewrite decide_False by done.
    apply wp_bind. eapply wp_all_tables; [done|done|]. intros s3 n HI3 Hq3 Hd3.
    assert (He3 : penvs s3.2.1 !! e = Some (set_pgdir 0 0 x)) by (by rewrite (qs_penvs _ _ _ Hq3)).
    eapply (wp_drop_directory L2 e _ TABLEDIR td); [done|done| |by right| |].
    { rewrite HT, decide_False; [done|]. tauto. }
    { intros q Hq Hst. rewrite Hd3 by done. rewrite decide_True; [done|]. split; [done|]. unfold slot_table in Hst. case_decide; [done|].
      unfold TABLEDIR in Hst. pose proof (Z.div_pos q 1024 ltac:(lia) ltac:(lia)). lia. }
    intros s4 HI4 Hk4 Hev4 _ _ Hd4.
    assert (Hk04 : keep s s4) by (etrans; [exact Hk02|]; etrans; [by eapply quiet_keep|done]).
    eapply HQ; [exact HI4| |done| |].
    + intros e' k. destruct (decide ((e', k) = (e, TABLEDIR))) as [[= -> ->]|Hne]; [by rewrite lookup_delete_eq, decide_True|].
      rewrite lookup_delete_ne by done. rewrite HT. destruct (decide (e' = e)) as [->|].
      * rewrite decide_True; [done|]. split; [done|]. by intros ->.
      * rewrite decide_False; [done|]. tauto.
    + etrans; [exact Hev02|]. etrans; [by eapply quiet_evolves|done].
    + intros e' q Hq. destruct (keep_io _ _ Hk04) as [Hdev _].
      assert (Hdd : dfn (delete (e, TABLEDIR) L2) s4.2.1 e' q = if decide (e' = e) then 0 else dfn L s.2.1 e' q).
      { rewrite Hd4, Hd3, Hd by done. destruct (decide (e' = e)) as [->|].
        - destruct (decide (q < 0)); [by rewrite decide_True|]. rewrite decide_False by lia. by rewrite decide_True by lia.
        - rewrite !decide_False by tauto. done. }
      destruct (decide (e' = e)); [by apply cont_none|]. by apply cont_same.
  - rewrite decide_True by done. apply wp_ret. eapply HQ; [exact HI2| |done|done|].
    + intros e' k. rewrite HT. destruct (decide (e' = e)) as [->|].
      * destruct (decide (k = TABLEDIR)) as [->|]; [rewrite decide_False; [done|tauto]|by rewrite decide_True].
      * rewrite decide_False; [done|]. tauto.
    + intros e' q Hq. destruct (keep_io _ _ Hk02) as [Hdev _].
      assert (Hdd : dfn L2 s2.2.1 e' q = if decide (e' = e) then 0 else dfn L s.2.1 e' q).
      { rewrite Hd by done. destruct (decide (e' = e)) as [->|].
        - destruct (decide (0 ≤ q)); [by rewrite decide_True|]. rewrite decide_False by tauto.
          unfold dfn, slot_table. by rewrite decide_True, HTD by lia.
        - rewrite decide_False; [done|]. tauto. }
      destruct (decide (e' = e)); [by apply cont_none|]. by apply cont_same.
Qed.

(** ** The tables of an environment *)
Context (fuel : nat).
Definition table_key (va : Z) : Z := -1 - PDX va.
Lemma table_key_ok va : 0 ≤ va < USER_TOP → slot_ok (table_key va) ∧ slot_table (table_key va) = TABLEDIR ∧
  slot_index (table_key va) = PDX va ∧ 0 ≤ PDX va < 1024.
Proof.
  intros Hu. destruct (page_slot_ok va Hu) as (_ & _ & _ & HP & _ & HPU).
  destruct (tabledir_slot (PDX va)) as (H1 & H2 & H3); [lia|]. done.
Qed.
Lemma page_at_keep va s s' : page_base va → accessible va s → keep s s' → accessible va s' ∧ page_at va s' = page_at va s.
Proof.
  intros Hb Ha Hk. destruct (keep_io _ _ Hk) as [_ Hm]. split; [by apply Hm|].
  apply map_ext_in. intros j Hj%list_elem_of_In%elem_of_seqZ. apply Hm. eapply accessible_page; [|exact Ha].
  apply base_same_page; [done|]. unfold SECTSIZE, PAGE_SIZE. lia.
Qed.
Lemma wp_pf_write_env_table L e x va src s (Q : Z → mm * (pfile * X) → Prop) :
  (busy ≤ fuel)%nat → pf_inv L s → penvs s.2.1 !! e = Some x → 0 ≤ va < USER_TOP → heap_room (need L (e, TABLEDIR)) s →
  page_base src → accessible src s →
  (∀ L' s', pf_inv L' s' → pf_effect src s s' →
    (no_space L s e (table_key va) → (∀ e' q, slot_ok q → cont L' s' e' q = cont L s e' q) → Q E_NO_PAGE_FILE_SPACE s') ∧
    (¬ no_space L s e (table_key va) →
      (∀ e' q, slot_ok q → cont L' s' e' q =
         if decide ((e', q) = (e, table_key va)) then Some (page_at src s) else cont L s e' q) → Q 0 s')) →
  wp (__pf_write_env_table fuel e va src) Q s.
Proof.
  intros Hfuel HI He Hu Hroom Hb Hacc HQ. destruct (table_key_ok va Hu) as (Hq & Hst & Hsi & HP). set (q := table_key va) in *.
  unfold __pf_write_env_table. apply wp_bind, wp_assert; [apply bool_decide_eq_true; unfold USER_TOP, KERNEL_BASE in *; lia|].
  apply wp_bind. eapply (wp_directory TABLEDIR disk_env_tabledir set_tabledir L e x s _ 0); [by right|done|done|by rewrite Nat.add_0_r|].
  intros L1 D s1 x1 HI1 Hle1 HD _ He1 Hpg1 Hdfn1 Hfree1 Hkeep1 Hev1 _.
  destruct (page_at_keep src s s1 Hb Hacc Hkeep1) as [Hacc1 Hpage1]. destruct (keep_io _ _ Hkeep1) as [Hdev1 _].
  assert (Hc1 : ∀ e' q, slot_ok q → cont L1 s1 e' q = cont L s e' q) by (intros; apply cont_same; [by apply Hdfn1|done]).
  apply wp_bind. eapply wp_get_penv; [done|]. rewrite Hpg1. destruct HI1 as (HL1 & HF1 & Hid1).
  destruct (ti_page _ _ HL1 _ _ HD) as [_ (T & HT & Hlen)]. apply wp_bind. eapply wp_dentry; [done..|].
  assert (HDq : L1 !! (e, slot_table q) = Some D) by (by rewrite Hst).
  assert (Hw : word D (PDX va) s1.2.1 = dfn L1 s1.2.1 e q) by (unfold dfn; by rewrite HDq, Hsi).
  rewrite Hw. destruct (decide (dfn L1 s1.2.1 e q = 0)) as [H0|Hne].
  - rewrite <- Hsi.
    apply (wp_fill_slot L1 e q D s1 (mret E_NO_PAGE_FILE_SPACE) (λ d, write_disk_page fuel d src)); [by split_and!|done|done|done| |].
    { intros Hfl. apply wp_ret. apply (HQ L1 s1); [by split_and!|exists s1; by split_and!| |done]. split; [by rewrite <- Hdfn1|congruence]. }
    intros s2 d HI2 <- Hr2 Ho2 Hfr2 _ Hk2 Hev2 _. destruct (page_at_keep src s1 s2 Hb Hacc1 Hk2) as [Hacc2 Hpage2].
    destruct (keep_io _ _ Hk2) as [Hdev2 _].
    apply wp_write_page; [done|done|done|lia|done|done|]. intros s3 HI3 Hio3 _ Hc3. apply (HQ L1 s3); [done| | |].
    + exists s2. split_and!; [by etrans|done|]. rewrite (pf_io _ _ _ Hio3). by etrans.
    + intros [_ Hf]. rewrite Hfree1, Hf in Hfr2. done.
    + intros e' q' Hq'. rewrite Hc3 by done. rewrite Hpage2, Hpage1. destruct (decide _) as [|Hne]; [done|].
      rewrite <- Hc1 by done. apply cont_same; [by apply Ho2|done].
  - apply wp_write_page; [done|by split_and!|done..|]. intros s3 HI3 Hio3 _ Hc3. apply (HQ L1 s3); [done| | |].
    + exists s1. split_and!; [done|done|]. by rewrite (pf_io _ _ _ Hio3).
    + intros [H0 _]. by rewrite Hdfn1 in Hne.
    + intros e' q' Hq'. rewrite Hc3 by done. rewrite Hpage1. destruct (decide _); [done|]. by apply Hc1.
Qed.
Lemma wp_pf_read_env_table L e x va dst s (Q : Z → mm * (pfile * X) → Prop) :
  (busy ≤ fuel)%nat → pf_inv L s → penvs s.2.1 !! e = Some x → 0 ≤ va < USER_TOP → page_base dst → accessible dst s →
  (cont L s e (table_key va) = None → Q E_TABLE_NOT_EXIST_IN_PF s) →
  (∀ s', pf_inv L s' → pf_effect dst s s' → Some (page_at dst s') = cont L s e (table_key va) →
    (∀ e' q, slot_ok q → cont L s' e' q = cont L s e' q) → Q 0 s') →
  wp (__pf_read_env_table fuel e va dst) Q s.
Proof.
  intros Hfuel HI He Hu Hb Hacc HN HS. pose proof HI as (HL & HF & Hid).
  destruct (table_key_ok va Hu) as (Hq & Hst & Hsi & HP). set (q := table_key va) in *.
  unfold __pf_read_env_table. apply wp_bind. eapply wp_get_penv; [done|]. destruct (ti_env _ _ HL e x He) as [_ Htd]. rewrite Htd.
  destruct (L !! (e, TABLEDIR)) as [D|] eqn:HD; cbn [default id].
  - destruct (ti_page _ _ HL _ _ HD) as [[p Hp] (T & HT & Hlen)]. destruct (kpage_va _ _ _ Hp) as (_ & Hnn & _).
    rewrite decide_False by done. apply wp_bind. eapply wp_dentry; [done..|].
    assert (Hw : word D (PDX va) s.2.1 = dfn L s.2.1 e q) by (unfold dfn; by rewrite Hst, HD, Hsi).
    rewrite Hw. destruct (decide (dfn L s.2.1 e q = 0)) as [H0|Hne]; [apply wp_ret, HN; by apply cont_none|].
    apply wp_read_page; [done..|]. intros s1 HI1 Hio Hdata Hc1. apply HS; [done| |done|done].
    exists s. split_and!; [done|done|]. by rewrite (pf_io _ _ _ Hio).
  - rewrite decide_True by done. apply wp_ret, HN, cont_none. unfold dfn. by rewrite Hst, HD.
Qed.
Lemma wp_pf_remove_env_table L e x va s (Q : unit → mm * (pfile * X) → Prop) :
  pf_inv L s → penvs s.2.1 !! e = Some x → 0 ≤ va < USER_TOP →
  (∀ s' n, pf_inv L s' → quiet_step s s' n →
    (∀ e' q, slot_ok q → cont L s' e' q = if decide ((e', q) = (e, table_key va)) then None else cont L s e' q) → Q tt s') →
  wp (__pf_remove_env_table e va) Q s.
Proof.
  intros HI He Hu HQ. pose proof HI as (HL & HF & Hid).
  destruct (table_key_ok va Hu) as (Hq & Hst & Hsi & HP). set (q := table_key va) in *.
  unfold __pf_remove_env_table. apply wp_bind. eapply wp_get_penv; [done|]. destruct (ti_env _ _ HL e x He) as [_ Htd]. rewrite Htd.
  destruct (L !! (e, TABLEDIR)) as [D|] eqn:HD; cbn [default id].
  - destruct (ti_page _ _ HL _ _ HD) as [[p Hp] _]. destruct (kpage_va _ _ _ Hp) as (_ & Hnn & _).
    rewrite decide_False by done. rewrite <- Hsi. rewrite <- Hst in HD. eapply wp_clear_slot; [done..|].
    intros s' HI' Hqs Hd. eapply HQ; [done|done|]. intros e' q' Hq'. specialize (Hd e' q' Hq').
    destruct (decide _); [by apply cont_none|]. by eapply cont_quiet.
  - rewrite decide_True by done. apply wp_ret. apply (HQ s 0%nat); [done|by split|]. intros e' q' Hq'.
    destruct (decide _) as [[= -> ->]|]; [|done]. apply cont_none. unfold dfn. by rewrite Hst, HD.
Qed.

(** ** Counting *)
Lemma wp_pf_calculate_free_frames L s (Q : Z → mm * (pfile * X) → Prop) :
  pf_inv L s → Q (Z.of_nat (length (disk_free_frame_list s.2.1))) s → wp pf_calculate_free_frames Q s.
Proof.
  destruct s as [m [f x]]. cbn [fst snd]. intros (HL & HF & Hid) HQ. cbn in HF. pose proof (fi_lock _ _ HF) as Hl.
  assert (Hlen : Z.of_nat (length (disk_free_frame_list f)) ≤ 133120).
  { assert (Hsub : (length (disk_free_frame_list f) ≤ length (seqZ 1 133120))%nat).
    { apply submseteq_length, NoDup_submseteq; [apply HF|]. intros d Hd. apply elem_of_seqZ.
      destruct (fi_free _ _ HF d Hd) as [? ?]. pose proof (fi_n _ _ HF) as Hn. change PAGES_PER_FILE with 133120 in Hn. lia. }
    rewrite length_seqZ in Hsub. lia. }
  unfold pf_calculate_free_frames. apply wp_bind, wp_bind, wp_pget, wp_bind, wp_assert; [cbn; by rewrite Hl|]. apply wp_pset.
  apply wp_bind, wp_pget. apply wp_bind, wp_bind, wp_pget, wp_bind, wp_assert; [done|]. apply wp_pset, wp_ret. cbn [fst snd disk_free_frame_list set_dfllock].
  rewrite w32_small, i32_small by lia. destruct f. cbn in *. by subst.
Qed.
End end_of_env.
