(* ===== verification/PageFileThm.v ===== *)
(** * The page file is a finite map of pages

    The contract of the page file: a finite map from slots (the pages and the
    tables of the environments) to their contents, of at most as many slots as
    there are disk frames. Every operation of PageFile.v computes what the map
    says, whichever disk tables and frames carry it. *)

From S2P Require Import Prelude Queue Paging PagingSpec Ide PageFile PageFileSpec PageFileOps PageFileEnd.

(** The abstract page file. *)
Notation file sector := (gmap (Z * Z) (list sector)).

Section refinement.
Context {X sector : Type} {PE : PageEnv (pfile * X)} {PS : Ports (mm * (pfile * X))}
  {AD : AtaDevice (mm * (pfile * X)) sector} {WD : World X sector} {WL : WorldLaws X sector}.
Context (fuel : nat).
Implicit Types s : mm * (pfile * X).
Implicit Types L : layout.

Implicit Types F : file sector.
Definition capacity s : nat := length (disk_frames_info s.2.1) - 1.
Definition slot_ok_dec q : Decision (slot_ok q) := and_dec _ _.
#[local] Existing Instance slot_ok_dec.
Definition file_at L F s : Prop :=
  pf_inv L s ∧ ∀ e q, F !! (e, q) = if decide (slot_ok q) then cont L s e q else None.
Definition file_rel F s : Prop := ∃ L, file_at L F s.

(** Every disk frame is free or holds exactly one slot. *)
Lemma file_size L F s : file_at L F s → (size F + length (disk_free_frame_list s.2.1))%nat = capacity s.
Proof.
  intros [(HL & HF & _) Hrel]. unfold capacity.
  set (num := λ k : Z * Z, dfn L s.2.1 k.1 k.2). set (ks := (map_to_list F).*1).
  assert (Hin : ∀ k, k ∈ ks ↔ slot_ok k.2 ∧ num k ≠ 0).
  { intros [e q]. unfold ks. rewrite list_elem_of_fmap. split.
    - intros ([k d] & Heq & Hk%elem_of_map_to_list). cbn in Heq. subst k. cbn. rewrite Hrel in Hk. destruct (decide (slot_ok q)); [|done].
      split; [done|]. unfold num. cbn. intros H0. apply cont_none in H0. congruence.
    - intros [Hok Hne]. cbn in *. destruct (F !! (e, q)) as [d|] eqn:Hd.
      { exists ((e, q), d). split; [done|]. by apply elem_of_map_to_list. }
      rewrite Hrel, decide_True in Hd by done. by apply cont_none in Hd. }
  assert (Hperm : num <$> ks ++ [] ≡ₚ filter (λ d, d ∉ disk_free_frame_list s.2.1) (seqZ 1 (num_disk_frames s.2.1 - 1))).
  { rewrite app_nil_r. apply NoDup_Permutation.
    - apply NoDup_fmap_2_strong; [|apply NoDup_fst_map_to_list]. intros [e q] [e' q'] [Hok Hne]%Hin [Hok' _]%Hin Heq.
      by apply (fi_inj _ _ HF).
    - apply NoDup_filter, NoDup_seqZ.
    - intros d. rewrite list_elem_of_fmap, list_elem_of_filter, elem_of_seqZ. split.
      + intros ([e q] & -> & [Hok Hne]%Hin). unfold num in *. cbn in *.
        destruct (fi_slot _ _ HF e q Hok) as [?|[? ?]]; [done|]. split; [done|lia].
      + intros [Hni Hr]. destruct (fi_all _ _ HF d) as (e & q & Hok & Heq); [lia|done|].
        exists (e, q). split; [done|]. apply Hin. split; [done|]. unfold num. cbn. lia. }
  assert (Hsize : size F = length (filter (λ d, d ∉ disk_free_frame_list s.2.1) (seqZ 1 (num_disk_frames s.2.1 - 1)))).
  { rewrite <- Hperm. rewrite app_nil_r, length_fmap. unfold ks. rewrite length_fmap. by rewrite length_map_to_list. }
  assert (Hfree : disk_free_frame_list s.2.1 ≡ₚ filter (λ d, d ∈ disk_free_frame_list s.2.1) (seqZ 1 (num_disk_frames s.2.1 - 1))).
  { apply NoDup_Permutation; [apply HF|apply NoDup_filter, NoDup_seqZ|]. intros d. rewrite list_elem_of_filter, elem_of_seqZ.
    split; [|tauto]. intros Hd. split; [done|]. pose proof (fi_free _ _ HF d Hd). lia. }
  rewrite Hsize, (Permutation_length Hfree), Nat.add_comm, <- length_app.
  rewrite (filter_app_complement (λ d, d ∈ disk_free_frame_list s.2.1)). rewrite length_seqZ. unfold num_disk_frames. lia.
Qed.

Lemma file_lookup L F s e q : file_at L F s → slot_ok q → F !! (e, q) = cont L s e q.
Proof. intros [_ Hrel] Hq. by rewrite Hrel, decide_True. Qed.
(** There is no disk frame for a new slot [k]. *)
Definition full (k : Z * Z) F s : Prop := F !! k = None ∧ size F = capacity s.
#[local] Instance full_dec k F s : Decision (full k F s) := and_dec _ _.
Lemma full_no_space L F s e q : file_at L F s → slot_ok q → no_space L s e q ↔ full (e, q) F s.
Proof.
  intros HF Hq. unfold no_space, full. rewrite (file_lookup L F s e q HF Hq), <- (file_size L F s HF), cont_none.
  assert (disk_free_frame_list s.2.1 = [] ↔ length (disk_free_frame_list s.2.1) = 0%nat) as Hl by (split; [by intros ->|by intros ?%length_zero_iff_nil]).
  rewrite Hl. split; intros [? ?]; (split; [done|lia]).
Qed.
(** From the contents of all slots to the finite map. *)
Lemma file_keep L L' F s s' : file_at L F s → pf_inv L' s' → (∀ e q, slot_ok q → cont L' s' e q = cont L s e q) → file_at L' F s'.
Proof. intros [_ HF] HI Hc. split; [done|]. intros e q. rewrite HF. destruct (decide (slot_ok q)); [|done]. by rewrite Hc. Qed.
Lemma file_insert L L' F s s' e q d : file_at L F s → pf_inv L' s' → slot_ok q →
  (∀ e' q', slot_ok q' → cont L' s' e' q' = if decide ((e', q') = (e, q)) then Some d else cont L s e' q') →
  file_at L' (<[(e, q) := d]> F) s'.
Proof.
  intros [_ HF] HI Hq Hc. split; [done|]. intros e' q'. destruct (decide ((e', q') = (e, q))) as [[= -> ->]|Hne].
  - rewrite lookup_insert_eq, decide_True, Hc by done. by rewrite decide_True.
  - rewrite lookup_insert_ne by done. rewrite HF. destruct (decide (slot_ok q')); [|done]. rewrite Hc by done. by rewrite decide_False.
Qed.
Lemma file_delete L L' F s s' e q : file_at L F s → pf_inv L' s' → slot_ok q →
  (∀ e' q', slot_ok q' → cont L' s' e' q' = if decide ((e', q') = (e, q)) then None else cont L s e' q') →
  file_at L' (delete (e, q) F) s'.
Proof.
  intros [_ HF] HI Hq Hc. split; [done|]. intros e' q'. destruct (decide ((e', q') = (e, q))) as [[= -> ->]|Hne].
  - rewrite lookup_delete_eq, decide_True, Hc by done. by rewrite decide_True.
  - rewrite lookup_delete_ne by done. rewrite HF. destruct (decide (slot_ok q')); [|done]. rewrite Hc by done. by rewrite decide_False.
Qed.
Lemma file_filter (P : Z * Z → Prop) `{!∀ k, Decision (P k)} L L' F s s' : file_at L F s → pf_inv L' s' →
  (∀ e q, slot_ok q → cont L' s' e q = if decide (P (e, q)) then cont L s e q else None) →
  file_at L' (filter (λ kv, P kv.1) F) s'.
Proof.
  intros [_ HF] HI Hc. split; [done|]. intros e q. apply option_eq. intros d. rewrite map_lookup_filter_Some, HF. cbn.
  destruct (decide (slot_ok q)) as [Hq|]; [|naive_solver]. rewrite Hc by done. destruct (decide (P (e, q))); naive_solver.
Qed.

(** ** The calls of the page file *)
Inductive call : Type :=
| AddPage (e va src : Z)
| AddEmptyPage (e va : Z) (initializeByZero : bool)
| UpdatePage (e va : Z) (fi : option Z)
| ReadPage (e va : Z)
| RemovePage (e va : Z)
| WriteTable (e va src : Z)
| ReadTable (e va dst : Z)
| RemoveTable (e va : Z)
| RemoveTables (e : Z)
| FreeEnv (e : Z)
| FreeFrames
| AllocatedPages (e : Z).
Definition run (c : call) : M (mm * (pfile * X)) Z :=
  match c with
  | AddPage e va src => pf_add_env_page fuel e va src
  | AddEmptyPage e va z => pf_add_empty_env_page fuel e va z
  | UpdatePage e va fi => pf_update_env_page fuel e va fi
  | ReadPage e va => pf_read_env_page fuel e va
  | RemovePage e va => pf_remove_env_page e va ;; mret 0
  | WriteTable e va src => __pf_write_env_table fuel e va src
  | ReadTable e va dst => __pf_read_env_table fuel e va dst
  | RemoveTable e va => __pf_remove_env_table e va ;; mret 0
  | RemoveTables e => __pf_remove_env_all_tables e ;; mret 0
  | FreeEnv e => pf_free_env e ;; mret 0
  | FreeFrames => pf_calculate_free_frames
  | AllocatedPages e => pf_calculate_allocated_pages e
  end.
(** When a call is allowed: the environment exists, the address is a user
    address, the buffer is an accessible page, the kernel heap has room for a
    directory and a table. A page that is written back or read is mapped by the
    running environment. *)
Definition is_env (e : Z) s : Prop := is_Some (penvs s.2.1 !! e).
Definition is_user (va : Z) : Prop := 0 ≤ va < USER_TOP.
Definition buffer (a : Z) s : Prop := page_base a ∧ accessible a s.
Definition has_directory (e : Z) s : Prop := ∃ x, penvs s.2.1 !! e = Some x ∧ disk_env_pgdir x ≠ NULL.
Definition allowed (c : call) F s : Prop :=
  match c with
  | AddPage e va src => is_env e s ∧ is_user va ∧ heap_room 2 s ∧ buffer src s
  | AddEmptyPage e va z => is_env e s ∧ is_user va ∧ heap_room 2 s ∧ (z = true → buffer (ptr_zero_page s.2.1) s)
  | UpdatePage e va _ => (∃ x t, mapped_page e x va t s) ∧ heap_room 2 s ∧
      (F !! (e, page_slot va) = None → growable va ∧ size F ≠ capacity s)
  | ReadPage e va => ∃ x t, mapped_page e x va t s
  | RemovePage e va => is_env e s ∧ is_user va
  | WriteTable e va src => is_env e s ∧ is_user va ∧ heap_room 2 s ∧ buffer src s
  | ReadTable e va dst => is_env e s ∧ is_user va ∧ buffer dst s
  | RemoveTable e va => is_env e s ∧ is_user va
  | RemoveTables e => is_env e s
  | FreeEnv e => has_directory e s
  | FreeFrames => True
  | AllocatedPages e => has_directory e s
  end.
(** Storing [d] at [k]: the result and the new map. *)
Definition store (k : Z * Z) (d : list sector) F s : Z * file sector :=
  if decide (full k F s) then (E_NO_PAGE_FILE_SPACE, F) else (0, <[k := d]> F).
Definition entries (P : Z * Z → Prop) `{!∀ k, Decision (P k)} F : file sector := filter (λ kv, P kv.1) F.
(** What a call returns and what it does to the finite map. *)
Definition spec (c : call) F s (r : Z) F' s' : Prop :=
  match c with
  | AddPage e va src => (r, F') = store (e, page_slot va) (page_at src s) F s
  | AddEmptyPage e va true => (r, F') = store (e, page_slot va) (page_at (ptr_zero_page s.2.1) s) F s
  | AddEmptyPage e va false =>
      ∃ d, (r, F') = store (e, page_slot va) d F s ∧ (∀ d', F !! (e, page_slot va) = Some d' → d = d')
  | UpdatePage e va _ => (r, F') = (0, <[(e, page_slot va) := page_at (ROUNDDOWN va PAGE_SIZE) s]> F)
  | ReadPage e va =>
      F' = F ∧ match F !! (e, page_slot va) with
               | Some d => r = 0 ∧ page_at (ROUNDDOWN va PAGE_SIZE) s' = d
               | None => r = E_PAGE_NOT_EXIST_IN_PF ∧ s' = s
               end
  | RemovePage e va => (r, F') = (0, delete (e, page_slot va) F)
  | WriteTable e va src => (r, F') = store (e, table_key va) (page_at src s) F s
  | ReadTable e va dst =>
      F' = F ∧ match F !! (e, table_key va) with
               | Some d => r = 0 ∧ page_at dst s' = d
               | None => r = E_TABLE_NOT_EXIST_IN_PF ∧ s' = s
               end
  | RemoveTable e va => (r, F') = (0, delete (e, table_key va) F)
  | RemoveTables e => (r, F') = (0, entries (λ k, ¬ (k.1 = e ∧ k.2 < 0)) F)
  | FreeEnv e => (r, F') = (0, entries (λ k, k.1 ≠ e) F)
  | FreeFrames => (r, F') = (Z.of_nat (capacity s - size F), F)
  | AllocatedPages e => (r, F') = (Z.of_nat (size (entries (λ k, k.1 = e ∧ 0 ≤ k.2) F)), F)
  end.

(** ** Every call does what the map says *)
Definition correct (c : call) : Prop := ∀ F s, file_rel F s → allowed c F s →
  wp (run c) (λ r s', ∃ F', file_rel F' s' ∧ spec c F s r F' s' ∧ evolves s.2.1 s'.2.1) s.
Lemma room_le n k s : (k ≤ n)%nat → heap_room n s → heap_room k s.
Proof. intros Hle. induction Hle as [|n Hle IH]; [done|]. intros H. by apply IH, room_mono. Qed.
Lemma room_two L s e va : heap_room 2 s → room_for L s e va 0.
Proof. apply room_le. unfold need. destruct (L !! (e, PGDIR)), (L !! (e, PDX va)); lia. Qed.
Lemma effect_evolves a s s' : pf_effect a s s' → evolves s.2.1 s'.2.1.
Proof. by intros (? & _ & _ & ?). Qed.
Lemma store_full k d F s : full k F s → store k d F s = (E_NO_PAGE_FILE_SPACE, F).
Proof. intros. unfold store. by rewrite decide_True. Qed.
Lemma store_room k d F s : ¬ full k F s → store k d F s = (0, <[k := d]> F).
Proof. intros. unfold store. by rewrite decide_False. Qed.
Lemma store_capacity k d F s s' : capacity s' = capacity s → store k d F s' = store k d F s.
Proof.
  intros Hc. unfold store. destruct (decide (full k F s')) as [Hf|Hf], (decide (full k F s)) as [Hf'|Hf']; try done;
    unfold full in *; rewrite Hc in Hf; tauto.
Qed.
Lemma page_slot_valid va : is_user va → slot_ok (page_slot va).
Proof. intros Hu. by destruct (page_slot_ok va Hu). Qed.
Lemma table_key_valid va : is_user va → slot_ok (table_key va).
Proof. intros Hu. by destruct (table_key_ok va Hu). Qed.

Lemma run_add e va src F s (Q : Z → mm * (pfile * X) → Prop) L :
  (busy ≤ fuel)%nat → file_at L F s → is_env e s → is_user va → heap_room 2 s → buffer src s →
  (∀ r s' F', file_rel F' s' → (r, F') = store (e, page_slot va) (page_at src s) F s → evolves s.2.1 s'.2.1 → Q r s') →
  wp (pf_add_env_page fuel e va src) Q s.
Proof.
  intros Hfuel HF [x He] Hu Hroom [Hb Ha] HQ. pose proof (page_slot_valid va Hu) as Hq.
  eapply (wp_pf_add_env_page fuel L e x); [done|apply HF|done|done|by apply room_two|done|done|].
  intros L' s' HI' Hle Heff. split.
  - intros Hn Hc _. apply (HQ _ _ F); [exists L'; by eapply file_keep| |by eapply effect_evolves].
    symmetry. apply store_full. by apply (full_no_space L).
  - intros Hn Hc _. apply (HQ _ _ (<[(e, page_slot va) := page_at src s]> F)); [exists L'; by eapply file_insert| |by eapply effect_evolves].
    symmetry. apply store_room. by rewrite <- (full_no_space L).
Qed.
Lemma add_correct e va src : (busy ≤ fuel)%nat → correct (AddPage e va src).
Proof.
  intros Hfuel F s [L HF] (He & Hu & Hr & Hb). eapply run_add; [done..|]. intros r s' F' HF' Hst Hev. by exists F'.
Qed.
Lemma add_zero_correct e va : (busy ≤ fuel)%nat → correct (AddEmptyPage e va true).
Proof.
  intros Hfuel F s [L HF] (He & Hu & Hroom & Hb). specialize (Hb eq_refl). destruct He as [x He]. cbn [run pf_add_empty_env_page].
  apply wp_bind. eapply wp_get_penv; [done|]. apply wp_bind.
  set (z := ptr_zero_page s.2.1) in *.
  assert (Hgo : ∀ s1, file_at L F s1 → is_env e s1 → heap_room 2 s1 → buffer z s1 → page_at z s1 = page_at z s → capacity s1 = capacity s →
    ptr_zero_page s1.2.1 = z → evolves s.2.1 s1.2.1 →
    wp (y ← pget ptr_zero_page; pf_add_env_page fuel e va y) (λ r s', ∃ F', file_rel F' s' ∧ spec (AddEmptyPage e va true) F s r F' s' ∧ evolves s.2.1 s'.2.1) s1).
  { intros s1 HF1 He1 Hr1 Hb1 Hp1 Hc1 Hz1 Hev1. apply wp_bind, wp_pget. rewrite Hz1. eapply run_add; [done..|].
    intros r s' F' HF' Hst Hev. exists F'. split; [done|]. split; [|by etrans]. cbn [spec]. fold z. rewrite <- Hp1.
    rewrite Hst. by apply store_capacity. }
  match goal with |- wp (when ?b _) _ _ => destruct b end; cbn [when].
  - destruct HF as [HI HF]. eapply (wp_count L e x); [done|done|].
    intros s1 x1 HI1 Hm1 Hx1 He1 _ _ _ Hc1 _ Hk1 Hev1. destruct (page_at_keep z s s1) as [Ha1 Hp1]; [apply Hb|apply Hb|done|].
    destruct s as [m [f y]], s1 as [m1 [f1 y1]]. cbn in Hm1, Hx1. subst m1 y1.
    apply Hgo; [|by eexists|by eapply room_pf|split; [apply Hb|done]|done| | |done].
    + eapply file_keep; [exact (conj HI HF)|done|]. intros. apply Hc1.
    + unfold capacity. by rewrite (ev_frames _ _ Hev1).
    + by rewrite (ev_zero _ _ Hev1).
  - apply wp_ret. apply Hgo; [done|by exists x|done..].
Qed.
Lemma add_empty_correct e va : correct (AddEmptyPage e va false).
Proof.
  intros F s [L HF] ([x He] & Hu & Hroom & _). pose proof (page_slot_valid va Hu) as Hq. cbn [run pf_add_empty_env_page].
  apply wp_bind. eapply wp_frame_for; [apply HF|done|done|by apply room_two|]. intros L' s' HI' Hle Hk Hev _. split.
  - intros Hn Hc _. apply wp_ret. exists F. split; [exists L'; by eapply file_keep|]. split; [|done]. cbn [spec].
    destruct (F !! (e, page_slot va)) as [d|] eqn:Hd.
    { rewrite (file_lookup L F s) in Hd by done. destruct Hn as [H0 _]. apply cont_none in H0. congruence. }
    exists []. split; [|done]. symmetry. apply store_full. by apply (full_no_space L).
  - intros Hn Hne _ Ho Hsame _. apply wp_ret. destruct (cont L' s' e (page_slot va)) as [d|] eqn:Hd; [|by apply cont_none in Hd].
    exists (<[(e, page_slot va) := d]> F). split; [|split; [|done]].
    + exists L'. eapply file_insert; [done..|]. intros e' q' Hq'. destruct (decide _) as [[= -> ->]|Hneq]; [done|by apply Ho].
    + exists d. split; [symmetry; apply store_room; by rewrite <- (full_no_space L)|].
      intros d' Hd'. rewrite (file_lookup L F s) in Hd' by done. rewrite Hd' in Hsame.
      assert (Some d = Some d') as [= ->]; [|done]. apply Hsame. intros H0. apply cont_none in H0. congruence.
Qed.
Lemma page_effect_evolves va t g s s' : page_effect va t g s s' → evolves s.2.1 s'.2.1.
Proof. by intros (? & ? & _ & _ & ? & _). Qed.
Lemma update_correct e va fi : (busy ≤ fuel)%nat → correct (UpdatePage e va fi).
Proof.
  intros Hfuel F s [L HF] ((x & t & Hmp) & Hroom & Hspace). pose proof (mp_user _ _ _ _ _ Hmp) as Hu. pose proof (page_slot_valid va Hu) as Hq.
  eapply (wp_pf_update_env_page fuel L e x va t); [done|apply HF|done|by apply room_two| |].
  - rewrite (file_lookup L F s), cont_none in Hspace by done.
    destruct (decide (dfn L s.2.1 e (page_slot va) = 0)) as [H0|]; [right|by left]. destruct (Hspace H0) as [Hg Hs]. split; [done|].
    intros Hf. apply Hs. pose proof (file_size L F s HF) as Hsz. rewrite Hf in Hsz. cbn in Hsz. lia.
  - intros L' s' HI' Hle Hc _ Heff. eexists. split; [exists L'; by eapply file_insert|]. split; [done|by eapply page_effect_evolves].
Qed.
Lemma read_correct e va : (busy ≤ fuel)%nat → correct (ReadPage e va).
Proof.
  intros Hfuel F s [L HF] (x & t & Hmp). pose proof (page_slot_valid va (mp_user _ _ _ _ _ Hmp)) as Hq.
  eapply (wp_pf_read_env_page fuel L e x va t); [done|apply HF|done|..].
  - intros Hn. exists F. split; [by exists L|]. split; [|done]. cbn [spec]. by rewrite (file_lookup L F s), Hn.
  - intros s' HI' Hc Hd _ Heff. exists F. split; [exists L; by eapply file_keep|]. split; [|by eapply page_effect_evolves].
    cbn [spec]. by rewrite (file_lookup L F s), <- Hd.
Qed.
Lemma remove_correct e va : correct (RemovePage e va).
Proof.
  intros F s [L HF] ([x He] & Hu). pose proof (page_slot_valid va Hu) as Hq. cbn [run]. apply wp_bind.
  eapply (wp_pf_remove_env_page L e x); [apply HF|done|done|]. intros s' HI' Hqs Hc. apply wp_ret. eexists.
  split; [exists L; by eapply file_delete|]. split; [done|by eapply quiet_evolves].
Qed.
Lemma write_table_correct e va src : (busy ≤ fuel)%nat → correct (WriteTable e va src).
Proof.
  intros Hfuel F s [L HF] ([x He] & Hu & Hroom & Hb & Ha). pose proof (table_key_valid va Hu) as Hq. cbn [run].
  eapply (wp_pf_write_env_table fuel L e x); [done|apply HF|done|done| |done|done|].
  { eapply room_le; [|done]. unfold need. destruct (L !! (e, TABLEDIR)); lia. }
  intros L' s' HI' Heff. split.
  - intros Hn Hc. exists F. split; [exists L'; by eapply file_keep|]. split; [|by eapply effect_evolves].
    symmetry. apply store_full. by apply (full_no_space L).
  - intros Hn Hc. eexists. split; [exists L'; by eapply file_insert|]. split; [|by eapply effect_evolves].
    symmetry. apply store_room. by rewrite <- (full_no_space L).
Qed.
Lemma read_table_correct e va dst : (busy ≤ fuel)%nat → correct (ReadTable e va dst).
Proof.
  intros Hfuel F s [L HF] ([x He] & Hu & Hb & Ha). pose proof (table_key_valid va Hu) as Hq.
  eapply (wp_pf_read_env_table fuel L e x); [done|apply HF|done|done|done|done|..].
  - intros Hn. exists F. split; [by exists L|]. split; [|done]. cbn [spec]. by rewrite (file_lookup L F s), Hn.
  - intros s' HI' Heff Hd Hc. exists F. split; [exists L; by eapply file_keep|]. split; [|by eapply effect_evolves].
    cbn [spec]. by rewrite (file_lookup L F s), <- Hd.
Qed.
Lemma remove_table_correct e va : correct (RemoveTable e va).
Proof.
  intros F s [L HF] ([x He] & Hu). pose proof (table_key_valid va Hu) as Hq. cbn [run]. apply wp_bind.
  eapply (wp_pf_remove_env_table L e x); [apply HF|done|done|]. intros s' n HI' Hqs Hc. apply wp_ret. eexists.
  split; [exists L; by eapply file_delete|]. split; [done|by eapply quiet_evolves].
Qed.
Lemma remove_tables_correct e : correct (RemoveTables e).
Proof.
  intros F s [L HF] [x He]. cbn [run]. apply wp_bind.
  eapply (wp_all_tables L e x); [apply HF|done|]. intros s' n HI' Hqs Hd. apply wp_ret. eexists.
  split; [exists L; eapply (file_filter (λ k, ¬ (k.1 = e ∧ k.2 < 0))); [done|done|]|split; [done|by eapply quiet_evolves]].
  intros e' q Hq. specialize (Hd e' q Hq). cbn. destruct (decide (e' = e ∧ q < 0)) as [Hc|Hc].
  - rewrite decide_False by tauto. by apply cont_none.
  - rewrite decide_True by tauto. by eapply cont_quiet.
Qed.
Lemma free_env_correct e : correct (FreeEnv e).
Proof.
  intros F s [L HF] (x & He & Hd). cbn [run]. apply wp_bind. pose proof HF as [(HL & _) _].
  destruct (ti_env _ _ HL e x He) as [Hpd _]. destruct (L !! (e, PGDIR)) as [D|] eqn:HD; [|by rewrite Hpd in Hd].
  eapply (wp_pf_free_env L e x D); [apply HF|done|done|]. intros L' s' HI' _ Hk Hev Hc. apply wp_ret. eexists.
  split; [exists L'; eapply (file_filter (λ k, k.1 ≠ e)); [done|done|]|by split].
  intros e' q Hq. rewrite Hc by done. cbn. destruct (decide (e' = e)); [by rewrite decide_False by tauto|by rewrite decide_True].
Qed.
Lemma free_frames_correct : correct FreeFrames.
Proof.
  intros F s [L HF] _. cbn [run]. eapply (wp_pf_calculate_free_frames L); [apply HF|]. exists F.
  split; [by exists L|]. split; [|done]. cbn [spec]. rewrite <- (file_size L F s HF). f_equal. lia.
Qed.

(** ** Counting the pages of an environment *)
Lemma count_used_fmap (g : Z → Z) l : count_used (g <$> l) = Z.of_nat (length (filter (λ q, g q ≠ 0) l)).
Proof.
  induction l as [|q l IH]; [done|]. cbn [fmap list_fmap count_used]. rewrite filter_cons, IH.
  destruct (decide (g q ≠ 0)); cbn [length]; lia.
Qed.
(** The pages of [e] with a disk frame among the first [i] tables. *)
Definition count_upto L (f : pfile) (e i : Z) : Z := Z.of_nat (length (filter (λ q, dfn L f e q ≠ 0) (seqZ 0 (i * 1024)))).
Lemma count_upto_step L f e i : 0 ≤ i →
  count_upto L f e (i + 1) = count_upto L f e i + Z.of_nat (length (filter (λ q, dfn L f e q ≠ 0) (seqZ (i * 1024) 1024))).
Proof.
  intros Hi. unfold count_upto. rewrite Z.mul_add_distr_r, Z.mul_1_l, seqZ_app, filter_app, length_app by lia.
  rewrite Z.add_0_l. lia.
Qed.
Lemma count_upto_range L f e i : 0 ≤ i ≤ USER_TABLES → 0 ≤ count_upto L f e i ≤ 977920.
Proof.
  unfold USER_TABLES, count_upto. intros Hi. split; [lia|]. pose proof (length_filter (λ q, dfn L f e q ≠ 0) (seqZ 0 (i * 1024))) as Hl.
  rewrite length_seqZ in Hl. lia.
Qed.
Lemma wp_count_table L e D i s : pf_inv L s → L !! (e, PGDIR) = Some D → 0 ≤ i < USER_TABLES →
  wp (count_table D (count_upto L s.2.1 e i) i) (λ r s', r = count_upto L s.2.1 e (i + 1) ∧ s' = s) s.
Proof.
  intros (HL & HF & _) HD Hi. pose proof (count_upto_range L s.2.1 e (i + 1) ltac:(lia)) as Hr.
  rewrite count_upto_step in * by lia. unfold USER_TABLES in Hi.
  destruct (ti_page _ _ HL _ _ HD) as [_ (TD & HTD & HlD)]. pose proof (ti_pde _ _ HL e D i HD ltac:(lia)) as Hpde.
  assert (Hst : ∀ q, q ∈ seqZ (i * 1024) 1024 → slot_table q = i ∧ slot_index q = q - i * 1024).
  { intros q Hq%elem_of_seqZ. destruct (table_slot i (q - i * 1024)) as (_ & H1 & H2); [unfold USER_TABLES; lia|lia|].
    by replace (i * 1024 + (q - i * 1024)) with q in H1, H2 by lia. }
  unfold count_table. apply wp_bind. eapply wp_dentry; [done|done|lia|]. destruct (L !! (e, i)) as [t|] eqn:Ht.
  - destruct Hpde as (p & Hp & Hw). destruct (kpage_va _ _ _ Hp) as (Hkva & Hnn & Hpr & Hpal).
    destruct (present_entry p Hpr Hpal) as (_ & Hex & _ & Hpres). rewrite Hw, decide_False by done.
    apply wp_bind, wp_gets. rewrite Hex, Hkva. destruct (ti_page _ _ HL _ _ Ht) as [_ (T & HT & Hlen)].
    apply wp_bind, wp_pget. apply wp_bind. eapply wp_unwrap; [done|]. apply wp_ret. split; [|done].
    assert (T = dfn L s.2.1 e <$> seqZ (i * 1024) 1024) as ->.
    { apply list_eq_same_length with 1024%nat; [by rewrite length_fmap, length_seqZ|done|]. intros k x y Hk Hx Hy.
      rewrite list_lookup_fmap, lookup_seqZ_lt in Hy by lia. cbn in Hy. injection Hy as <-.
      destruct (Hst (i * 1024 + Z.of_nat k)) as [H1 H2]; [apply elem_of_seqZ; lia|].
      unfold dfn. rewrite H1, Ht, H2. unfold word, words. rewrite HT. cbn. symmetry. apply list_lookup_total_correct.
      rewrite <- Hx. f_equal. lia. }
    rewrite count_used_fmap. apply w32_small. lia.
  - rewrite Hpde, decide_True by done. apply wp_ret. split; [|done]. rewrite filter_none; [cbn; lia|].
    intros q Hq Hne. apply Hne. unfold dfn. destruct (Hst q Hq) as [-> _]. by rewrite Ht.
Qed.
Lemma wp_count_tables L e D n i s : pf_inv L s → L !! (e, PGDIR) = Some D → 0 ≤ i → i + Z.of_nat n = USER_TABLES →
  wp (count_tables D (seqZ i (Z.of_nat n)) (count_upto L s.2.1 e i)) (λ r s', r = count_upto L s.2.1 e USER_TABLES ∧ s' = s) s.
Proof.
  revert i. induction n as [|n IH]; intros i HI HD Hi Hn.
  - cbn. apply wp_ret. split; [|done]. f_equal. lia.
  - rewrite seqZ_cons by lia. cbn [count_tables]. apply wp_bind. eapply wp_mono; [apply wp_count_table; [done|done|lia]|].
    intros r s' [-> ->]. replace (Z.pred (Z.of_nat (S n))) with (Z.of_nat n) by lia. change (Z.succ i) with (i + 1).
    apply IH; [done|done|lia|lia].
Qed.
Lemma file_pages L F s e : file_at L F s →
  Z.of_nat (size (entries (λ k, k.1 = e ∧ 0 ≤ k.2) F)) = count_upto L s.2.1 e USER_TABLES.
Proof.
  intros HF. unfold count_upto. f_equal. set (G := entries _ F).
  rewrite <- length_map_to_list, <- (length_fmap fst), <- (length_fmap (λ q, (e, q)) (filter _ _)).
  apply Permutation_length, NoDup_Permutation.
  - apply NoDup_fst_map_to_list.
  - apply NoDup_fmap_2; [by intros ?? [=]|]. apply NoDup_filter, NoDup_seqZ.
  - intros [e' q]. rewrite !list_elem_of_fmap. split.
    + intros ([k d] & Hk & Hin%elem_of_map_to_list). cbn in Hk. subst k.
      apply map_lookup_filter_Some in Hin as [Hd [He Hq]]. cbn in He, Hq. subst e'.
      destruct HF as [_ HF]. rewrite HF in Hd. destruct (decide (slot_ok q)) as [Hok|]; [|done].
      exists q. split; [done|]. apply list_elem_of_filter. split.
      * intros H0. apply cont_none in H0. congruence.
      * apply elem_of_seqZ. unfold slot_ok in Hok. lia.
    + intros (q' & [= -> ->] & [Hne Hq]%list_elem_of_filter). apply elem_of_seqZ in Hq.
      assert (Hok : slot_ok q') by (unfold slot_ok, USER_TABLES in *; lia).
      destruct (cont L s e q') as [d|] eqn:Hd; [|by apply cont_none in Hd].
      exists ((e, q'), d). split; [done|]. apply elem_of_map_to_list, map_lookup_filter_Some.
      split; [by rewrite (file_lookup L F s)|]. cbn. lia.
Qed.
Lemma allocated_correct e : correct (AllocatedPages e).
Proof.
  intros F s [L HF] (x & He & Hd). cbn [run]. pose proof HF as [HI _]. pose proof HI as (HL & _).
  destruct (ti_env _ _ HL e x He) as [Hpd _]. destruct (L !! (e, PGDIR)) as [D|] eqn:HD; [|by rewrite Hpd in Hd].
  unfold pf_calculate_allocated_pages. apply wp_bind. eapply wp_get_penv; [done|]. rewrite Hpd. cbn [default id].
  change (PDX USER_TOP) with (Z.of_nat (Z.to_nat USER_TABLES)).
  apply wp_bind. eapply wp_mono; [apply (wp_count_tables L e D (Z.to_nat USER_TABLES) 0); [done|done|lia|done]|].
  intros r s' [-> ->]. apply wp_ret. exists F. split; [by exists L|]. split; [|done]. cbn [spec].
  pose proof (count_upto_range L s.2.1 e USER_TABLES ltac:(unfold USER_TABLES; lia)).
  rewrite i32_small by lia. by rewrite (file_pages L F s e HF).
Qed.

Lemma call_correct c : (busy ≤ fuel)%nat → correct c.
Proof.
  intros Hfuel. destruct c as [| ? ? []| | | | | | | | | | ].
  - by apply add_correct.
  - by apply add_zero_correct.
  - apply add_empty_correct.
  - by apply update_correct.
  - by apply read_correct.
  - apply remove_correct.
  - by apply write_table_correct.
  - by apply read_table_correct.
  - apply remove_table_correct.
  - apply remove_tables_correct.
  - apply free_env_correct.
  - apply free_frames_correct.
  - apply allocated_correct.
Qed.

(** ** The initial page file *)
Record init_rel s (l : list Z) (f : pfile) : Prop := {
  ir_frames : length (disk_frames_info f) = length (disk_frames_info s.2.1);
  ir_penvs : penvs f = penvs s.2.1;
  ir_nodup : NoDup (disk_free_frame_list f);
  ir_free d : d ∈ disk_free_frame_list f ↔ 1 ≤ d < PAGES_PER_FILE ∧ d ∉ l
}.
Lemma wp_init_frame i l s s1 (Q : unit → mm * (pfile * X) → Prop) :
  num_disk_frames s.2.1 = PAGES_PER_FILE → init_rel s (i :: l) s1.2.1 → 1 ≤ i < PAGES_PER_FILE → i ∉ l →
  (∀ f', init_rel s l f' → Q tt (s1.1, (f', s1.2.2))) →
  wp (initialize_disk_frame i ;; give_disk_frame i) Q s1.
Proof.
  intros Hn [Hfr Hpe Hnd Hf] Hi Hni HQ. destruct s1 as [m1 [f1 x1]]. cbn [fst snd] in *.
  destruct (lookup_lt_is_Some_2 (disk_frames_info f1) (Z.to_nat i)) as [y Hy]; [unfold num_disk_frames in Hn; lia|].
  unfold initialize_disk_frame, give_disk_frame. apply wp_bind, wp_bind, wp_pget, wp_bind. eapply wp_unwrap; [exact Hy|]. apply wp_pset.
  apply wp_bind, wp_pget. apply wp_bind, wp_Ok. exists (i :: disk_free_frame_list f1). eexists. split.
  { apply lq_insert_head_run. cbn. rewrite Hf. intros [_ Hn']. apply Hn'. by left. }
  apply wp_pset. apply (HQ (set_disk_free (i :: disk_free_frame_list f1) (set_disk_frames (<[Z.to_nat i := zero_frame]> (disk_frames_info f1)) f1))).
  split; cbn.
  - by rewrite length_insert.
  - done.
  - apply NoDup_cons. split; [|done]. rewrite Hf. intros [_ Hn']. apply Hn'. by left.
  - intros d. rewrite !elem_of_cons, Hf, elem_of_cons. split.
    + intros [->|[? Hn']]; [done|]. split; [done|]. intros ?. apply Hn'. by right.
    + intros [Hd Hdl]. destruct (decide (d = i)) as [|Hne]; [by left|right]. split; [done|]. by intros [?|?].
Qed.
Lemma wp_initialize_disk_page_file s (Q : unit → mm * (pfile * X) → Prop) :
  num_disk_frames s.2.1 = PAGES_PER_FILE →
  (∀ f', init_rel s [] f' → dfllock f' = false → Q tt (s.1, (f', s.2.2))) →
  wp initialize_disk_page_file Q s.
Proof.
  intros Hn HQ. unfold initialize_disk_page_file. apply wp_bind, wp_pset. apply wp_bind.
  apply (wp_mfor (λ l s1, NoDup l ∧ (∀ i, i ∈ l → 1 ≤ i < PAGES_PER_FILE) ∧ s1.1 = s.1 ∧ s1.2.2 = s.2.2 ∧ init_rel s l s1.2.1)).
  - split_and!; [apply NoDup_seqZ| |done|done|].
    + intros i Hi%elem_of_seqZ. lia.
    + split; cbn; [done|done|apply NoDup_nil_2|]. intros d. rewrite elem_of_seqZ. split; [set_solver|]. intros [? Hd]. exfalso. apply Hd. lia.
  - intros i l s1 (Hnd & Hr & Hm & Hx & HI). apply NoDup_cons in Hnd as [Hni Hnd].
    eapply wp_init_frame; [done|exact HI|apply Hr; by left|done|]. intros f' HI'. cbn. split_and!; [done|intros; apply Hr; by right|done..].
  - intros s1 (_ & _ & Hm & Hx & HI). apply wp_pset. destruct s1 as [m1 [f1 x1]]. cbn in *. subst m1 x1.
    apply HQ; [|done]. destruct HI. by split.
Qed.

(** [initialize_disk_page_file] returns, for a table of descriptors of the
    size of the page file and environments without disk tables, and what it leaves
    is the empty map with all frames but number 0 free. *)
Theorem initialize_disk_page_file_correct s :
  num_disk_frames s.2.1 = PAGES_PER_FILE → idle s →
  (∀ e x, penvs s.2.1 !! e = Some x → disk_env_pgdir x = NULL ∧ disk_env_tabledir x = NULL) →
  wp initialize_disk_page_file (λ _ s', file_rel ∅ s' ∧
    Z.of_nat (length (disk_free_frame_list s'.2.1)) = PAGES_PER_FILE - 1) s.
Proof.
  intros Hn Hid He. apply wp_initialize_disk_page_file; [done|]. intros f' [Hfr Hpe Hnd Hf] Hl.
  assert (Hn' : num_disk_frames f' = PAGES_PER_FILE) by (unfold num_disk_frames in *; by rewrite Hfr).
  assert (HF : file_at ∅ ∅ (s.1, (f', s.2.2))).
  { split; [split_and!|].
    - split; cbn [fst snd]; try done. intros e x. rewrite Hpe. apply He.
    - split; cbn [fst snd]; rewrite ?Hn'; try done.
      + intros d Hd. by apply Hf.
      + intros e q _. by left.
      + intros d Hd Hni. exfalso. apply Hni, Hf. set_solver.
    - destruct s as [m [f x]]. by eapply idle_pf.
    - intros e q. rewrite lookup_empty. by destruct (decide (slot_ok q)). }
  split; [by exists ∅|]. pose proof (file_size _ _ _ HF) as Hsz. unfold capacity in Hsz. cbn [fst snd] in *.
  rewrite map_size_empty in Hsz. unfold num_disk_frames in Hn'. change PAGES_PER_FILE with 133120 in *. lia.
Qed.


(** C27: A page that is written back without an entry in the page file stops the
    kernel when it lies outside the user heap and stack, or when no disk frame is
    left. *)
Theorem update_env_page_panics e x va t fi F s :
  file_rel F s → mapped_page e x va t s → heap_room 2 s → F !! (e, page_slot va) = None →
  ¬ growable va ∨ size F = capacity s → panics (pf_update_env_page fuel e va fi) s.
Proof.
  intros [L HF] Hmp Hroom Hn Hcase. pose proof (page_slot_valid va (mp_user _ _ _ _ _ Hmp)) as Hq.
  rewrite (file_lookup L F s), cont_none in Hn by done.
  eapply (pf_update_env_page_panics fuel L e x va t); [apply HF|done|by apply room_two|done|].
  destruct Hcase as [|Hs]; [by left|right]. pose proof (file_size L F s HF) as Hsz.
  apply length_zero_iff_nil. lia.
Qed.
End refinement.
