(* ===== verification/PageFileWorld.v ===== *)
(** * The page file on a small machine

    A kernel heap of a few pages at fixed frames and the disk of Ide.v, as an
    instance of what the page file needs, and runs of the theorems of
    PageFileThm.v on it. *)

From S2P Require Import Prelude Queue Paging PagingSpec Ide PageFile PageFileSpec PageFileOps PageFileEnd PageFileThm.

(** The kernel heap page at [t] is on the frame at [t - HEAP_BASE]. *)
Definition HEAP_BASE : Z := 4127195136. (* 0xF6000000 *)
Record small := SMALL { x_hw : hw; x_free : list Z; x_used : gset Z }.
Notation St := (mm * (pfile * small))%type.
Definition set_hw (h : hw) (s : St) : St := (s.1, (s.2.1, SMALL h (x_free s.2.2) (x_used s.2.2))).
#[export] Instance small_hw : Hardware St := {| get_hw s := x_hw s.2.2; put_hw := set_hw |}.
#[export] Instance small_hw_laws : HardwareLaws St.
Proof. split; [done|by intros [? [? []]]|done]. Qed.
Definition small_kmalloc (size : Z) : M St Z := λ s,
  match x_free s.2.2 with
  | [] => Ok 0 s
  | t :: l => Ok t (s.1, (s.2.1, SMALL (x_hw s.2.2) l ({[t]} ∪ x_used s.2.2)))
  end.
Definition small_kfree (t : Z) : M St unit := λ s,
  Ok tt (s.1, (s.2.1, SMALL (x_hw s.2.2) (x_free s.2.2) (x_used s.2.2 ∖ {[t]}))).
#[export] Instance small_env : PageEnv (pfile * small) := {|
  kmalloc := small_kmalloc;
  kfree := small_kfree;
  kheap_virtual_address p _ := p + HEAP_BASE;
  kheap_physical_address t _ := t - HEAP_BASE;
  fault_handler := panic;
  zero_page _ s := s
|}.
Definition heap_address (t : Z) : Prop := HEAP_BASE ≤ t < 4294967296 ∧ (4096 | t).
#[export] Instance small_world : World small Z := {|
  kpage t p s := t ∈ x_used s.2.2 ∧ heap_address t ∧ p = t - HEAP_BASE;
  heap_room n s := (n ≤ length (x_free s.2.2))%nat ∧ NoDup (x_free s.2.2) ∧
    (∀ t, t ∈ x_free s.2.2 → heap_address t ∧ t ∉ x_used s.2.2) ∨ n = 0%nat;
  cr3 _ := 100;
  keep s s' := s'.1 = s.1 ∧ x_hw s'.2.2 = x_hw s.2.2
|}.

Lemma mark_zero t i a : mark t i 0 a = a.
Proof.
  unfold mark. destruct (a !! t) as [T|] eqn:HT; [|done]. rewrite Z.lor_0_r.
  destruct (T !! Z.to_nat i) as [e|] eqn:He.
  - rewrite (list_lookup_total_correct _ _ _ He), list_insert_id by done. by apply insert_id.
  - rewrite list_insert_ge by (by apply lookup_ge_None_1). by apply insert_id.
Qed.
Lemma small_kmalloc_law n (s : St) : heap_room (S n) s → wp (small_kmalloc PAGE_SIZE) (λ t s',
    (∃ p, kpage t p s' ∧ kheap_physical_address t s' = p) ∧ (∀ p, ¬ kpage t p s) ∧
    (∀ t' p', kpage t' p' s → kpage t' p' s') ∧ heap_room n s' ∧ s'.2.1 = s.2.1 ∧ keep s s') s.
Proof.
  destruct s as [m [f [h fr us]]]. intros [(Hlen & Hnd & Hf)|?]; [|done]. cbn in *. unfold small_kmalloc, wp. cbn.
  destruct fr as [|t l]; [cbn in Hlen; lia|]. cbn in *. apply NoDup_cons in Hnd as [Hni Hnd].
  destruct (Hf t) as [Ha Hu]; [by left|]. split_and!; [|by intros p (? & _)| |left|done..].
  - exists (t - HEAP_BASE). split_and!; [set_solver|done..].
  - intros t' p' (? & ? & ?). split_and!; [set_solver|done..].
  - split_and!; [lia|done|]. intros t' Ht'. destruct (Hf t') as [? ?]; [by right|]. split; [done|]. assert (t' ≠ t) by (by intros ->). set_solver.
Qed.
#[export] Instance small_laws : WorldLaws small Z.
Proof.
  split.
  - apply _.
  - split; [done|]. intros s1 s2 s3 [H1 H2] [H3 H4]. split; congruence.
  - done.
  - intros s s' [Hm Hh]. cbn. rewrite Hh. split; [done|]. by intros a _.
  - done.
  - done.
  - intros a t p s s' [x ->]. done.
  - intros s. by right.
  - intros n s [(? & ? & ?)|?]; [|done]. left. split_and!; [lia|done..].
  - intros a n s s' [x ->]. done.
  - intros a s s' [x ->]. done.
  - intros a t s s' [x ->] Hres. split; [|done]. exists 0, 0. split_and!; [by left|by left|]. rewrite !mark_zero. by destruct s as [[] ?].
  - intros dir va t s s' [Hm Hh] Hva Hres. unfold resolves in *. rewrite Hm. split; [exact Hres|done].
  - done.
  - intros dir va t e s s' Hres Hva ->. done.
  - intros t p s (Hu & [Hr [k Hk]] & ->). cbn. unfold HEAP_BASE, NULL in *. split_and!; [lia|lia|lia|lia|].
    exists (k - 1007616 + 0). lia.
  - intros n s. apply small_kmalloc_law.
  - intros t p s (Hu & Ha & ->). unfold wp. cbn. split_and!; [|by intros n [(? & ? & Hf)|?]; [left; split_and!; [done..|]; intros t' Ht'; destruct (Hf t' Ht'); split; [done|set_solver]|right]|done..].
    intros t' p' Hne (? & ? & ?). split_and!; [set_solver|done..].
Qed.

(** An environment that has nothing in the page file, with the page at
    [USER_HEAP_START] mapped on frame 5; four disk frames. *)
Definition w_table : Z := 4127326208. (* HEAP_BASE + 0x20000 *)
Definition w_env : penv := PENV 100 0 0 0 0 0 0 0 1.
Definition w_pte : Z := 20583. (* frame 5, present, writeable, user, used, modified *)
Definition w_mm : mm :=
  MM (replicate 8 zero_frame) [] [] false
    {[100 := <[512%nat := 131079]> (replicate 1024 0); w_table := <[0%nat := w_pte]> (replicate 1024 0)]} 0 0.
Definition w_pfile : pfile := PFILE (replicate 4 zero_frame) [3; 2; 1] false {[7 := w_env]} ∅ 4096.
Definition w_small : small := SMALL (HW (ATA ∅ None (λ _, 0)) false (λ a, a)) [HEAP_BASE + 65536; HEAP_BASE + 69632] ∅.
Definition w_state : St := (w_mm, (w_pfile, w_small)).
Lemma w_file : file_rel ∅ w_state.
Proof.
  exists ∅. split; [split_and!|].
  - split; cbn; try done. intros e x Hx. apply lookup_singleton_Some in Hx as [<- <-]. done.
  - split; cbn; try done.
    + apply (bool_decide_unpack _). by vm_compute.
    + intros d Hd. unfold num_disk_frames. cbn. set_unfold in Hd. lia.
    + by left.
    + intros d Hd Hni. unfold num_disk_frames in Hd. cbn in Hd. exfalso. apply Hni. set_unfold. lia.
  - done.
  - intros e q. rewrite lookup_empty. by destruct (decide (slot_ok q)).
Qed.
Lemma w_room_pf : heap_room 2 w_state.
Proof.
  left. cbn. split_and!; [lia|apply (bool_decide_unpack _); by vm_compute|].
  intros t Ht. split; [|set_solver]. set_unfold in Ht. unfold heap_address, HEAP_BASE in *.
  destruct Ht as [->|[->|[]]]; (split; [lia|]); [exists 1007632|exists 1007633]; lia.
Qed.
Lemma w_resolves_pf : resolves 100 USER_HEAP_START w_table w_state.
Proof.
  split; [done|]. eexists _, 131079. split_and!; [vm_compute; reflexivity|vm_compute; reflexivity|done|].
  rewrite user_check_pf by (unfold USER_HEAP_START, USER_TOP; lia). done.
Qed.
Lemma w_mapped : mapped_page 7 w_env USER_HEAP_START w_table w_state.
Proof.
  split; try done.
  split; [exact w_resolves_pf|]. eexists. split_and!; [vm_compute; reflexivity|done|by vm_compute|by vm_compute].
Qed.
(** A page file that was never initialised. *)
Definition w_blank : St :=
  (w_mm, (PFILE (replicate (Z.to_nat PAGES_PER_FILE) zero_frame) [] true {[7 := w_env]} ∅ 4096, w_small)).
Lemma initialize_disk_page_file_correct_witness :
  wp initialize_disk_page_file (λ _ s', file_rel ∅ s' ∧
    Z.of_nat (length (disk_free_frame_list s'.2.1)) = PAGES_PER_FILE - 1) w_blank.
Proof.
  apply (initialize_disk_page_file_correct w_blank).
  - unfold num_disk_frames, w_blank. cbn [fst snd disk_frames_info]. rewrite length_replicate. apply Z2Nat.id. by vm_compute.
  - done.
  - intros e x Hx. cbn in Hx. apply lookup_singleton_Some in Hx as [<- <-]. done.
Defined.
(** The same environment when every disk frame is taken. *)
Definition w_full : St :=
  (w_mm, (PFILE (replicate 1 zero_frame) [] false {[7 := w_env]} ∅ 4096, w_small)).
Lemma w_full_file : file_rel ∅ w_full.
Proof.
  exists ∅. split; [split_and!|].
  - split; cbn; try done. intros e x Hx. apply lookup_singleton_Some in Hx as [<- <-]. done.
  - split; cbn; try done.
    + apply NoDup_nil_2.
    + intros d Hd. set_solver.
    + by left.
    + intros d Hd _. unfold num_disk_frames in Hd. cbn in Hd. lia.
  - done.
  - intros e q. rewrite lookup_empty. by destruct (decide (slot_ok q)).
Qed.
Lemma update_env_page_panics_witness :
  size (∅ : file Z) = capacity w_full ∧ panics (pf_update_env_page 2 7 USER_HEAP_START None) w_full.
Proof.
  split; [done|]. apply (update_env_page_panics 2 7 w_env USER_HEAP_START w_table None ∅ w_full).
  - exact w_full_file.
  - split; try done. split; [|eexists; split_and!; [vm_compute; reflexivity|done|by vm_compute|by vm_compute]].
    split; [done|]. eexists _, 131079. split_and!; [vm_compute; reflexivity|vm_compute; reflexivity|done|].
    rewrite user_check_pf by (unfold USER_HEAP_START, USER_TOP; lia). done.
  - left. cbn. split_and!; [lia|apply (bool_decide_unpack _); by vm_compute|].
    intros t Ht. split; [|set_solver]. set_unfold in Ht. unfold heap_address, HEAP_BASE in *.
    destruct Ht as [->|[->|[]]]; (split; [lia|]); [exists 1007632|exists 1007633]; lia.
  - done.
  - by right.
Defined.
