(* ===== verification/CString.v ===== *)
(** * Strings and memory blocks (lib/string.c)

    The functions of the kernel's and the users' C library on a byte-addressed
    memory: a byte is a number below 256, an address that is not in the map is
    not accessible. [char] is signed, [long] has 32 bits, pointers wrap at 2^32,
    and signed overflow wraps as in the code that the compiler is told to make.
    Loops over strings have no bound in C and take fuel. *)

From S2P Require Import Prelude.

Notation bmem := (gmap Z Z).
Definition i8 (x : Z) : Z := if decide (x < 128) then x else x - 256.
Definition MAX_ARGUMENTS : Z := 16.

Definition load (p : Z) : M bmem Z := m ← get; unwrap (m !! w32 p).
Definition store (p v : Z) : M bmem unit :=
  m ← get; _ ← unwrap (m !! w32 p); modify (λ m, <[w32 p := w8 v]> m).
(** Accesses of [uint64] words: eight bytes, the lowest first. *)
Definition block : list Z := seqZ 0 8.
Fixpoint load_bytes (p : Z) (l : list Z) : M bmem (list Z) :=
  match l with
  | [] => mret []
  | i :: l => x ← load (p + i); xs ← load_bytes p l; mret (x :: xs)
  end.
Fixpoint store_bytes (p : Z) (xs : list Z) : M bmem unit :=
  match xs with
  | [] => mret ()
  | x :: xs => store p x ;; store_bytes (w32 (p + 1)) xs
  end.
Definition load64 (p : Z) : M bmem (list Z) := load_bytes p block.
Definition store64 (p : Z) (xs : list Z) : M bmem unit := store_bytes p xs.
(** The bytes of a number of 64 bits. *)
Definition bytes64 (x : Z) : list Z := map (λ i, Z.land (Z.shiftr x (8 * i)) 255) block.

(** ** Lengths and copies of strings *)
Fixpoint strlen_loop (fuel : nat) (s n : Z) : M bmem Z :=
  match fuel with
  | O => nofuel
  | S fuel => c ← load s; if decide (c = 0) then mret n else strlen_loop fuel (w32 (s + 1)) (i32 (n + 1))
  end.
Definition strlen (fuel : nat) (s : Z) : M bmem Z := strlen_loop fuel s 0.
Fixpoint strnlen_loop (size : nat) (s n : Z) : M bmem Z :=
  match size with
  | O => mret n
  | S size => c ← load s; if decide (c = 0) then mret n else strnlen_loop size (w32 (s + 1)) (i32 (n + 1))
  end.
Definition strnlen (s size : Z) : M bmem Z := strnlen_loop (Z.to_nat size) s 0.
Fixpoint strcpy_loop (fuel : nat) (dst src : Z) : M bmem unit :=
  match fuel with
  | O => nofuel
  | S fuel =>
      c ← load src;
      store dst c ;;
      if decide (c = 0) then mret () else strcpy_loop fuel (w32 (dst + 1)) (w32 (src + 1))
  end.
Definition strcpy (fuel : nat) (dst src : Z) : M bmem Z := strcpy_loop fuel dst src ;; mret dst.
Fixpoint strncpy_loop (size : nat) (dst src : Z) : M bmem unit :=
  match size with
  | O => mret ()
  | S size =>
      c ← load src;
      store dst c ;;
      c ← load src;
      strncpy_loop size (w32 (dst + 1)) (if decide (c = 0) then src else w32 (src + 1))
  end.
Definition strncpy (dst src size : Z) : M bmem Z := strncpy_loop (Z.to_nat size) dst src ;; mret dst.
Fixpoint strlcpy_loop (size : nat) (dst src : Z) : M bmem Z :=
  match size with
  | O => mret dst
  | S size =>
      c ← load src;
      if decide (c = 0) then mret dst else
      store dst c ;;
      strlcpy_loop size (w32 (dst + 1)) (w32 (src + 1))
  end.
Definition strlcpy (dst src size : Z) : M bmem Z :=
  if decide (size = 0) then mret 0 else
  d ← strlcpy_loop (Z.to_nat (size - 1)) dst src;
  store d 0 ;;
  mret (w32 (d - dst)).

(** ** Comparison and search *)
(** [strcmp] of the strings that two readers give, byte by byte. *)
Section compare.
Context {S : Type} (ldp ldq : Z → M S Z).
Fixpoint compare_loop (fuel : nat) (p q : Z) : M S Z :=
  match fuel with
  | O => nofuel
  | Datatypes.S fuel =>
      c ← ldp p;
      d ← ldq q;
      if decide (c ≠ 0 ∧ c = d) then compare_loop fuel (w32 (p + 1)) (w32 (q + 1)) else mret (c - d)
  end.
End compare.
Definition strcmp (fuel : nat) (p q : Z) : M bmem Z := compare_loop load load fuel p q.
Fixpoint strncmp (p q : Z) (n : nat) : M bmem Z :=
  match n with
  | O => mret 0
  | S n =>
      c ← load p;
      d ← load q;
      if decide (c ≠ 0 ∧ c = d) then strncmp (w32 (p + 1)) (w32 (q + 1)) n else mret (c - d)
  end.
(** The position where the loops of [strchr] and [strfind] stop. *)
Fixpoint strfind (fuel : nat) (s c : Z) : M bmem Z :=
  match fuel with
  | O => nofuel
  | S fuel => x ← load s; if decide (x = 0 ∨ x = c) then mret s else strfind fuel (w32 (s + 1)) c
  end.
Definition strchr (fuel : nat) (s c : Z) : M bmem Z :=
  p ← strfind fuel s c; x ← load p; mret (if decide (x = 0) then 0 else p).

(** ** Blocks *)
(** [while (n >= 8) *p64++ = data_block, n -= 8] and the bytes that are left. *)
Fixpoint memset_blocks (k : nat) (p block : Z) : M bmem Z :=
  match k with O => mret p | S k => store64 p (bytes64 block) ;; memset_blocks k (w32 (p + 8)) block end.
Fixpoint memset_bytes (n : nat) (p c : Z) : M bmem unit :=
  match n with O => mret () | S n => store p c ;; memset_bytes n (w32 (p + 1)) c end.
Definition data_block (c : Z) : Z :=
  let or_shift b n := Z.lor b (Z.shiftl b n `mod` 2 ^ 64) in
  or_shift (or_shift (or_shift (c `mod` 2 ^ 64) 8) 16) 32.
Definition memset (v c n : Z) : M bmem Z :=
  p ← memset_blocks (Z.to_nat (n `div` 8)) v (data_block c);
  memset_bytes (Z.to_nat (n `mod` 8)) p c ;;
  mret v.
Fixpoint memcpy_blocks (k : nat) (d s : Z) : M bmem (Z * Z) :=
  match k with
  | O => mret (d, s)
  | S k => x ← load64 s; store64 d x ;; memcpy_blocks k (w32 (d + 8)) (w32 (s + 8))
  end.
Fixpoint copy_up (n : nat) (d s : Z) : M bmem unit :=
  match n with
  | O => mret ()
  | S n => x ← load s; store d x ;; copy_up n (w32 (d + 1)) (w32 (s + 1))
  end.
Fixpoint copy_down (n : nat) (d s : Z) : M bmem unit :=
  match n with
  | O => mret ()
  | S n => x ← load (w32 (s - 1)); store (w32 (d - 1)) x ;; copy_down n (w32 (d - 1)) (w32 (s - 1))
  end.
Definition memcpy (dst src n : Z) : M bmem Z :=
  r ← memcpy_blocks (Z.to_nat (n `div` 8)) dst src;
  copy_up (Z.to_nat (n `mod` 8)) r.1 r.2 ;;
  mret dst.
Definition memmove (dst src n : Z) : M bmem Z :=
  (if decide (src < dst ∧ dst < w32 (src + n))
   then copy_down (Z.to_nat n) (w32 (dst + n)) (w32 (src + n))
   else copy_up (Z.to_nat n) dst src) ;;
  mret dst.
Fixpoint memcmp (v1 v2 : Z) (n : nat) : M bmem Z :=
  match n with
  | O => mret 0
  | S n =>
      x ← load v1;
      y ← load v2;
      if decide (x ≠ y) then mret (x - y) else memcmp (w32 (v1 + 1)) (w32 (v2 + 1)) n
  end.
(** [s < ends] with [ends] the address after the block. *)
Fixpoint memfind_loop (n : nat) (s ends c : Z) : M bmem Z :=
  match n with
  | O => mret s
  | S n =>
      if decide (s < ends) then
        x ← load s;
        if decide (x = w8 c) then mret s else memfind_loop n (w32 (s + 1)) ends c
      else mret s
  end.
Definition memfind (s c n : Z) : M bmem Z := memfind_loop (Z.to_nat n) s (w32 (s + n)) c.

(** ** Numbers *)
Definition is_blank (c : Z) : Prop := c = 32 ∨ c = 9.
#[global] Instance is_blank_dec c : Decision (is_blank c).
Proof. unfold is_blank. apply _. Defined.
Fixpoint skip_blanks (fuel : nat) (s : Z) : M bmem Z :=
  match fuel with
  | O => nofuel
  | S fuel => c ← load s; if decide (is_blank c) then skip_blanks fuel (w32 (s + 1)) else mret s
  end.
(** The value of a character as a digit. *)
Definition digit (ch : Z) : option Z :=
  let c := i8 ch in
  if decide (48 ≤ c ≤ 57) then Some (c - 48) else
  if decide (97 ≤ c ≤ 122) then Some (c - 97 + 10) else
  if decide (65 ≤ c ≤ 90) then Some (c - 65 + 10) else None.
Fixpoint strtol_loop (fuel : nat) (s val base : Z) : M bmem (Z * Z) :=
  match fuel with
  | O => nofuel
  | S fuel =>
      c ← load s;
      match digit c with
      | None => mret (s, val)
      | Some dig =>
          if decide (base ≤ dig) then mret (s, val)
          else strtol_loop fuel (w32 (s + 1)) (i32 (i32 (val * base) + dig)) base
      end
  end.
(** The start of the digits and the base they are in. *)
Definition base_prefix (s base : Z) : M bmem (Z * Z) :=
  c ← load s;
  d ← (if decide ((base = 0 ∨ base = 16) ∧ c = 48) then load (w32 (s + 1)) else mret 0);
  mret (if decide ((base = 0 ∨ base = 16) ∧ c = 48 ∧ d = 120) then (w32 (s + 2), 16)
        else if decide (base = 0 ∧ c = 48) then (w32 (s + 1), 8)
        else if decide (base = 0) then (s, 10) else (s, base)).
(** The value and [*endptr]. *)
Definition strtol (fuel : nat) (s base : Z) : M bmem (Z * Z) :=
  s ← skip_blanks fuel s;
  c ← load s;
  let neg := bool_decide (c = 45) in
  b ← base_prefix (if decide (c = 43 ∨ c = 45) then w32 (s + 1) else s) base;
  r ← strtol_loop fuel b.1 0 b.2;
  mret (if neg then i32 (- r.2) else r.2, r.1).
(** [do ... while (value != 0)]; a number of 32 bits has at most ten digits. *)
Fixpoint put_digits (fuel : nat) (value str s : Z) : M bmem Z :=
  match fuel with
  | O => nofuel
  | S fuel =>
      store (w32 (str + s)) (Z.rem value 10 + 48) ;;
      if decide (Z.quot value 10 = 0) then mret (s + 1) else put_digits fuel (Z.quot value 10) str (s + 1)
  end.
Fixpoint reverse_loop (fuel : nat) (str start end_ : Z) : M bmem unit :=
  match fuel with
  | O => nofuel
  | S fuel =>
      if decide (start < end_) then
        tmp ← load (w32 (str + start));
        x ← load (w32 (str + end_));
        store (w32 (str + start)) x ;;
        store (w32 (str + end_)) tmp ;;
        reverse_loop fuel str (start + 1) (end_ - 1)
      else mret ()
  end.
Definition ltostr (value str : Z) : M bmem unit :=
  let neg := bool_decide (value < 0) in
  when neg (store str 45) ;;
  let value := if neg then i32 (- value) else value in
  s ← put_digits 10 value str (if neg then 1 else 0);
  reverse_loop 6 str (if neg then 1 else 0) (s - 1) ;;
  store (w32 (str + s)) 0.

(** ** Concatenation, splitting, lower case *)
(** [for (i = 0; i < len; i++) final[s++] = str[i]]. *)
Definition strcconcat (fuel : nat) (str1 str2 final : Z) : M bmem unit :=
  len1 ← strlen fuel str1;
  len2 ← strlen fuel str2;
  copy_up (Z.to_nat len1) final str1 ;;
  copy_up (Z.to_nat len2) (w32 (final + len1)) str2 ;;
  store (w32 (final + len1 + len2)) 0.
Fixpoint str2lower_loop (fuel : nat) (dst src i : Z) : M bmem unit :=
  match fuel with
  | O => nofuel
  | S fuel' =>
      n ← strlen fuel src;
      if decide (i < n) then
        c ← load (w32 (src + i));
        store (w32 (dst + i)) c ;;
        when (bool_decide (65 ≤ i8 c ≤ 90)) (x ← load (w32 (dst + i)); store (w32 (dst + i)) (x + 32)) ;;
        str2lower_loop fuel' dst src (i + 1)
      else mret ()
  end.
(** The destination gets no terminating zero. *)
Definition str2lower (fuel : nat) (dst src : Z) : M bmem Z := str2lower_loop fuel dst src 0 ;; mret dst.
(** [while ( *string && strchr(SPLIT_CHARS, *string)) *string++ = 0]. *)
Fixpoint trim_loop (fuel : nat) (string chars : Z) : M bmem Z :=
  match fuel with
  | O => nofuel
  | S fuel' =>
      c ← load string;
      if decide (c = 0) then mret string else
      p ← strchr fuel chars c;
      if decide (p = 0) then mret string else store string 0 ;; trim_loop fuel' (w32 (string + 1)) chars
  end.
Fixpoint scan_loop (fuel : nat) (string chars : Z) : M bmem Z :=
  match fuel with
  | O => nofuel
  | S fuel' =>
      c ← load string;
      if decide (c = 0) then mret string else
      p ← strchr fuel chars c;
      if decide (p = 0) then scan_loop fuel' (w32 (string + 1)) chars else mret string
  end.
(** [argv] is the caller's array of pointers; the result is the return code, the
    array and [*argc]. *)
Definition set_arg (argv : list Z) (i : nat) (v : Z) : M bmem (list Z) :=
  _ ← unwrap (argv !! i); mret (<[i := v]> argv).
Fixpoint strsplit_loop (fuel : nat) (string chars : Z) (argv : list Z) (argc : nat) : M bmem (Z * list Z * nat) :=
  match fuel with
  | O => nofuel
  | S fuel' =>
      string ← trim_loop fuel string chars;
      c ← load string;
      if decide (c = 0) then argv ← set_arg argv argc 0; mret (1, argv, argc) else
      if decide (Z.of_nat argc = MAX_ARGUMENTS - 1) then mret (0, argv, argc) else
      argv ← set_arg argv argc string;
      string ← scan_loop fuel string chars;
      strsplit_loop fuel' string chars argv (S argc)
  end.
Definition strsplit (fuel : nat) (string chars : Z) (argv : list Z) : M bmem (Z * list Z * nat) :=
  argv ← set_arg argv 0 0;
  strsplit_loop fuel string chars argv 0.
