(* ===== verification/CStringSpec.v ===== *)
(** * What the string and memory functions do (lib/string.c)

    The bytes of memory at an address as a list, and each function of CString.v
    as an operation on such lists: block copies on any overlap they support,
    string functions on zero-terminated strings, numbers and their digits, and
    the arguments of a command line. *)

From S2P Require Import Prelude Queue CString.

(** ** Bytes in memory *)
Definition at_ (p : Z) (l : list Z) (m : bmem) : Prop :=
  ∀ i x, l !! i = Some x → m !! (p + Z.of_nat i) = Some x.
Definition access (p n : Z) (m : bmem) : Prop := ∀ a, p ≤ a < p + n → is_Some (m !! a).
Fixpoint put (p : Z) (l : list Z) (m : bmem) : bmem :=
  match l with [] => m | x :: l => put (p + 1) l (<[p := x]> m) end.
Notation is_byte := (λ x, 0 ≤ x < 256).
Notation bytes := (Forall is_byte).
Notation size l := (Z.of_nat (length l)).
(** The block of [n] bytes at [p] does not reach over the end of memory. *)
Definition in_range (p n : Z) : Prop := 0 ≤ p ∧ p + n ≤ 4294967296.

Lemma w32_add_r x d : w32 (x + w32 d) = w32 (x + d).
Proof. by rewrite Z.add_comm, w32_add_l, Z.add_comm. Qed.
Lemma w32_sub_l x d : w32 (w32 x - d) = w32 (x - d).
Proof. by rewrite <- !Z.add_opp_r, w32_add_l. Qed.
Lemma w32_idemp x : w32 (w32 x) = w32 x.
Proof. unfold w32. by rewrite Z.mod_mod by lia. Qed.

Lemma lookup_put l p m a :
  put p l m !! a = if decide (p ≤ a < p + size l) then l !! Z.to_nat (a - p) else m !! a.
Proof.
  revert p m. induction l as [|x l IH]; intros p m; cbn [put length].
  - by rewrite decide_False by lia.
  - rewrite IH. destruct (decide (a = p)) as [->|Hne].
    + rewrite decide_False by lia. rewrite decide_True by lia. rewrite Z.sub_diag. cbn. by rewrite lookup_insert_eq.
    + rewrite lookup_insert_ne by lia. case_decide; case_decide; try lia; [|done].
      replace (Z.to_nat (a - p)) with (S (Z.to_nat (a - (p + 1)))) by lia. done.
Qed.
Lemma lookup_put_out l p m a : ¬ p ≤ a < p + size l → put p l m !! a = m !! a.
Proof. intros Ha. rewrite lookup_put. by rewrite decide_False by done. Qed.
Lemma put_app l1 l2 p m : put p (l1 ++ l2) m = put (p + size l1) l2 (put p l1 m).
Proof.
  revert p m. induction l1 as [|x l1 IH]; intros p m; cbn [app put length]; [by rewrite Z.add_0_r|].
  rewrite IH. f_equal. lia.
Qed.
(** A byte written before the block is as good as one written after it. *)
Lemma put_insert l p m a x : ¬ p ≤ a < p + size l → put p l (<[a := x]> m) = <[a := x]> (put p l m).
Proof.
  intros Ha. apply map_eq. intros b. rewrite lookup_put. destruct (decide (a = b)) as [->|Hne].
  - rewrite decide_False by done. by rewrite !lookup_insert_eq.
  - rewrite !lookup_insert_ne, lookup_put by done. done.
Qed.
Lemma put_snoc l x p m : put p (l ++ [x]) m = put p l (<[p + size l := x]> m).
Proof. rewrite put_app. cbn. rewrite put_insert by lia. done. Qed.

Lemma at_nil p m : at_ p [] m.
Proof. intros i x. by rewrite lookup_nil. Qed.
Lemma at_cons p x l m : at_ p (x :: l) m ↔ m !! p = Some x ∧ at_ (p + 1) l m.
Proof.
  split.
  - intros H. split; [by rewrite <- (H 0%nat x eq_refl), Z.add_0_r|].
    intros i y Hi. rewrite <- (H (S i) y Hi). f_equal. lia.
  - intros [Hx Hl] [|i] y Hi; cbn in Hi; simplify_eq; [by rewrite Z.add_0_r|].
    rewrite <- (Hl i y Hi). f_equal. lia.
Qed.
Lemma at_app p l1 l2 m : at_ p (l1 ++ l2) m ↔ at_ p l1 m ∧ at_ (p + size l1) l2 m.
Proof.
  revert p. induction l1 as [|x l1 IH]; intros p; cbn [app length].
  - rewrite Z.add_0_r. split; [intros ?; split; [apply at_nil|done]|tauto].
  - rewrite !at_cons, IH. replace (p + Z.of_nat (S (length l1))) with (p + 1 + size l1) by lia. tauto.
Qed.
Lemma at_put p l m : at_ p l (put p l m).
Proof. intros i x Hi. rewrite lookup_put. apply lookup_lt_Some in Hi as Hl. rewrite decide_True by lia. rewrite <- Hi. f_equal. lia. Qed.
Lemma at_put_out p l q l' m : (p + size l ≤ q ∨ q + size l' ≤ p) → at_ p l m → at_ p l (put q l' m).
Proof.
  intros Hd H i x Hi. apply lookup_lt_Some in Hi as Hl. rewrite lookup_put_out by lia. by apply H.
Qed.
Lemma at_insert_out p l a x m : ¬ p ≤ a < p + size l → at_ p l m → at_ p l (<[a := x]> m).
Proof. intros Ha H i y Hi. apply lookup_lt_Some in Hi as Hl. rewrite lookup_insert_ne by lia. by apply H. Qed.
Lemma at_access p l m : at_ p l m → access p (size l) m.
Proof.
  intros H a Ha. destruct (lookup_lt_is_Some_2 l (Z.to_nat (a - p))) as [x Hx]; [lia|].
  exists x. rewrite <- (H _ x Hx). f_equal. lia.
Qed.
Lemma access_put p n q l m : access p n m → access p n (put q l m).
Proof.
  intros H a Ha. rewrite lookup_put. case_decide; [apply lookup_lt_is_Some_2; lia|by apply H].
Qed.
Lemma access_insert p n a x m : access p n m → access p n (<[a := x]> m).
Proof. intros H b Hb. destruct (decide (a = b)) as [->|]; [by rewrite lookup_insert_eq|by rewrite lookup_insert_ne; [apply H|]]. Qed.
Lemma access_sub p n q k m : access p n m → p ≤ q → q + k ≤ p + n → access q k m.
Proof. intros H ?? a Ha. apply H. lia. Qed.
#[export] Hint Resolve at_nil at_put at_put_out at_insert_out access_put access_insert : fos.

(** ** Loads and stores *)
Lemma wp_load p x Q m : m !! w32 p = Some x → Q x m → wp (load p) Q m.
Proof. intros Hx HQ. apply wp_bind, wp_get. by apply wp_unwrap with x. Qed.
Lemma wp_store p v Q m : is_Some (m !! w32 p) → Q () (<[w32 p := w8 v]> m) → wp (store p v) Q m.
Proof. intros [x Hx] HQ. apply wp_bind, wp_get, wp_bind. by apply wp_unwrap with x. Qed.
(** At the first byte of a block. *)
Lemma wp_load_head p x l Q m : at_ p (x :: l) m → in_range p (size (x :: l)) → Q x m → wp (load (w32 p)) Q m.
Proof.
  intros [Hx _]%at_cons [Hp Hr] HQ. cbn [length] in Hr. apply wp_load with x; [|done]. rewrite w32_idemp, w32_small by lia. done.
Qed.
Lemma wp_store_in p n v Q m :
  access p n m → 0 < n → in_range p n → Q () (<[p := w8 v]> m) → wp (store (w32 p) v) Q m.
Proof.
  intros Ha Hn [Hp Hr] HQ. assert (w32 (w32 p) = p) as Hw by (rewrite w32_idemp; apply w32_small; lia).
  apply wp_store; rewrite Hw; [apply Ha; lia|done].
Qed.

(** ** Copies *)
Lemma w8_byte x : is_byte x → w8 x = x.
Proof. apply w8_small. Qed.
Lemma wp_copy_up l d s Q m :
  at_ s l m → bytes l → access d (size l) m → in_range s (size l) → in_range d (size l) →
  (d ≤ s ∨ s + size l ≤ d) → Q () (put d l m) → wp (copy_up (length l) (w32 d) (w32 s)) Q m.
Proof.
  revert d s m. induction l as [|x l IH]; intros d s m Hs Hl Hd Hrs Hrd Ho HQ; [by apply wp_ret|].
  cbn [length copy_up]. inversion Hl as [|?? Hx Hl']; subst. unfold in_range in *. cbn [length] in *.
  apply wp_bind, wp_load_head with x l; [done..|].
  apply wp_bind, wp_store_in with (size (x :: l)); cbn [length]; [done|lia|done|]. rewrite (w8_byte x Hx), !w32_add_l.
  apply at_cons in Hs as [_ Hs]. apply IH; [|done| |lia|lia|lia|done].
  - apply at_insert_out; [lia|done].
  - apply access_insert. eapply access_sub; [done|lia..].
Qed.
Lemma wp_copy_down l d s Q m :
  at_ s l m → bytes l → access d (size l) m → in_range s (size l) → in_range d (size l) →
  (s ≤ d ∨ d + size l ≤ s) → Q () (put d l m) →
  wp (copy_down (length l) (w32 (d + size l)) (w32 (s + size l))) Q m.
Proof.
  revert m. induction l as [|x l IH] using rev_ind; intros m Hs Hl Hd Hrs Hrd Ho HQ; [by apply wp_ret|].
  rewrite length_app, Nat.add_1_r in *. cbn [copy_down]. unfold in_range in *.
  apply Forall_app in Hl as [Hl [Hx _]%Forall_cons]. apply at_app in Hs as [Hs [Hsx _]%at_cons].
  replace (w32 (w32 (s + Z.of_nat (S (length l))) - 1)) with (s + size l) by (rewrite w32_sub_l, w32_small by lia; lia).
  replace (w32 (w32 (d + Z.of_nat (S (length l))) - 1)) with (d + size l) by (rewrite w32_sub_l, w32_small by lia; lia).
  apply wp_bind, wp_load with x; [by rewrite w32_small by lia|].
  assert (w32 (d + size l) = d + size l) as Hw by (apply w32_small; lia).
  apply wp_bind, wp_store; [rewrite Hw; apply Hd; lia|]. rewrite Hw, (w8_byte x Hx).
  replace (copy_down (length l) (d + size l) (s + size l)) with (copy_down (length l) (w32 (d + size l)) (w32 (s + size l)))
    by (rewrite !w32_small by lia; done).
  apply IH; [|done| |lia|lia|lia|by rewrite <- put_snoc].
  - apply at_insert_out; [lia|done].
  - apply access_insert. eapply access_sub; [done|lia..].
Qed.
(** [memmove] of blocks that overlap in any way. *)
Lemma wp_memmove l dst src Q m :
  at_ src l m → bytes l → access dst (size l) m → in_range src (size l + 1) → in_range dst (size l) →
  Q dst (put dst l m) → wp (memmove dst src (size l)) Q m.
Proof.
  intros Hs Hl Hd Hrs Hrd HQ. unfold memmove, in_range in *. apply wp_bind. rewrite Nat2Z.id, (w32_small (src + size l)) by lia.
  destruct (decide (src < dst ∧ dst < src + size l)) as [[H1 H2]|Hno].
  - rewrite <- (w32_small (src + size l)) by lia. apply wp_copy_down; unfold in_range; try done; lia.
  - destruct (decide (length l = 0%nat)) as [H0|H0].
    { apply nil_length_inv in H0 as ->. by apply wp_ret, wp_ret. }
    rewrite <- (w32_small dst) at 1 by lia. rewrite <- (w32_small src) by lia.
    apply wp_copy_up; unfold in_range; try done; lia.
Qed.

(** Blocks of eight bytes. *)
Lemma split_at {A} n (l : list A) : (n ≤ length l)%nat → ∃ l1 l2, l = l1 ++ l2 ∧ length l1 = n.
Proof. intros Hn. exists (take n l), (drop n l). by rewrite take_drop, length_take_le. Qed.
Lemma wp_load_bytes l p i Q m :
  at_ (p + i) l m → in_range (p + i) (size l) → Q l m → wp (load_bytes (w32 p) (seqZ i (size l))) Q m.
Proof.
  revert i Q. induction l as [|x l IH]; intros i Q Hl Hr HQ; [by apply wp_ret|].
  cbn [length]. rewrite seqZ_cons by lia. cbn [load_bytes]. unfold in_range in *. cbn [length] in Hr.
  apply at_cons in Hl as [Hx Hl].
  apply wp_bind, wp_load with x; [by rewrite w32_add_l, w32_small by lia|].
  apply wp_bind. replace (Z.pred (Z.of_nat (S (length l)))) with (size l) by lia.
  apply IH; [|lia|by apply wp_ret]. by replace (p + Z.succ i) with (p + i + 1) by lia.
Qed.
Lemma wp_store_bytes l p Q m :
  bytes l → access p (size l) m → in_range p (size l) → Q () (put p l m) → wp (store_bytes (w32 p) l) Q m.
Proof.
  revert p m. induction l as [|x l IH]; intros p m Hl Hp Hr HQ; [by apply wp_ret|].
  inversion Hl as [|?? Hx Hl']; subst. unfold in_range in *. cbn [length store_bytes] in *.
  apply wp_bind, wp_store_in with (size (x :: l)); cbn [length]; [done|lia|done|]. rewrite (w8_byte x Hx), w32_add_l.
  apply IH; [done| |lia|done]. apply access_insert. eapply access_sub; [done|lia..].
Qed.
(** One round of the block loop of [memcpy]. *)
Lemma wp_copy_block l d s Q m :
  length l = 8%nat → at_ s l m → bytes l → access d 8 m → in_range s 8 → in_range d 8 →
  Q () (put d l m) → wp (x ← load64 (w32 s); store64 (w32 d) x) Q m.
Proof.
  intros H8 Hs Hl Hd Hrs Hrd HQ. unfold load64, store64, block. replace 8 with (size l) in * by (rewrite H8; done).
  apply wp_bind, wp_load_bytes; [by rewrite Z.add_0_r|by rewrite Z.add_0_r|]. by apply wp_store_bytes.
Qed.
Lemma wp_memcpy_blocks k l d s Q m :
  length l = (8 * k)%nat → at_ s l m → bytes l → access d (size l) m → in_range s (size l) → in_range d (size l) →
  (d ≤ s ∨ s + size l ≤ d) → Q (w32 (d + size l), w32 (s + size l)) (put d l m) →
  wp (memcpy_blocks k (w32 d) (w32 s)) Q m.
Proof.
  revert l d s m. induction k as [|k IH]; intros l d s m Hk Hs Hl Hd Hrs Hrd Ho HQ.
  { apply nil_length_inv in Hk as ->. cbn in *. rewrite !Z.add_0_r in HQ. by apply wp_ret. }
  destruct (split_at 8 l) as (l1 & l2 & -> & H1); [lia|].
  rewrite length_app in *. apply Forall_app in Hl as [Hl1 Hl2]. apply at_app in Hs as [Hs1 Hs2]. unfold in_range in *.
  cbn [memcpy_blocks]. change (x ← ?c; ?f x ;; ?k) with (x ← c; f x ;; k). apply wp_assoc.
  rewrite put_app in HQ. rewrite H1 in *.
  assert (wp (_ ← (x ← load64 (w32 s); store64 (w32 d) x); memcpy_blocks k (w32 (w32 d + 8)) (w32 (w32 s + 8))) Q m).
  { apply wp_bind, wp_copy_block with l1; unfold in_range; [done|done|done|eapply access_sub; [done|lia..]|lia|lia|].
    rewrite !w32_add_l. apply IH with l2; unfold in_range; [lia| |done| |lia|lia|lia|].
    - apply at_put_out; [lia|done].
    - apply access_put. eapply access_sub; [done|lia..].
    - replace (d + 8 + size l2) with (d + Z.of_nat (8 + length l2)) by lia.
      replace (s + 8 + size l2) with (s + Z.of_nat (8 + length l2)) by lia. done. }
  unfold wp, mbind, M_bind in *. by destruct (load64 _ _).
Qed.
(** [memcpy] of blocks where a forward copy does not overwrite what it still reads. *)
Lemma wp_memcpy l dst src Q m :
  at_ src l m → bytes l → access dst (size l) m → in_range src (size l) → in_range dst (size l) →
  (dst ≤ src ∨ src + size l ≤ dst) → w32 dst = dst → w32 src = src → Q dst (put dst l m) →
  wp (memcpy dst src (size l)) Q m.
Proof.
  intros Hs Hl Hd Hrs Hrd Ho Hwd Hws HQ. unfold memcpy.
  pose proof (Z.div_mod (size l) 8 ltac:(lia)) as Hdm. pose proof (Z.mod_pos_bound (size l) 8 ltac:(lia)) as Hmb.
  set (k := Z.to_nat (size l `div` 8)). set (r := Z.to_nat (size l `mod` 8)).
  assert (length l = 8 * k + r)%nat as Hk by (unfold k, r; lia).
  destruct (split_at (8 * k) l) as (l1 & l2 & -> & H1); [lia|]. clearbody k r.
  rewrite length_app in *. assert (length l2 = r) as H2 by lia.
  apply Forall_app in Hl as [Hl1 Hl2]. apply at_app in Hs as [Hs1 Hs2]. unfold in_range in *. rewrite put_app in HQ.
  rewrite <- Hwd, <- Hws. apply wp_bind, wp_memcpy_blocks with l1; unfold in_range; try done; [eapply access_sub; [done|lia..]|lia..|].
  cbn [fst snd]. apply wp_bind. rewrite <- H2. apply wp_copy_up; unfold in_range; try done; try lia.
  - apply at_put_out; [lia|done].
  - apply access_put. eapply access_sub; [done|lia..].
  - apply wp_ret. by rewrite Hwd.
Qed.

(** ** Filling a block *)
Lemma data_block_bytes c : is_byte c → bytes64 (data_block c) = replicate 8 c.
Proof.
  intros Hc. assert (Forall (λ c, bytes64 (data_block c) = replicate 8 c) (seqZ 0 256)) as H.
  { apply (bool_decide_unpack _). by vm_compute. }
  rewrite Forall_forall in H. apply H. apply elem_of_seqZ. cbn in *. lia.
Qed.
Lemma bytes_replicate n c : is_byte c → bytes (replicate n c).
Proof. intros Hc. apply Forall_replicate. done. Qed.
Lemma wp_memset_blocks k p c Q m :
  is_byte c → access p (8 * Z.of_nat k) m → in_range p (8 * Z.of_nat k) →
  Q (w32 (p + 8 * Z.of_nat k)) (put p (replicate (8 * k) c) m) → wp (memset_blocks k (w32 p) (data_block c)) Q m.
Proof.
  intros Hc. revert p m. induction k as [|k IH]; intros p m Hp Hr HQ.
  { cbn in HQ. rewrite Z.add_0_r in HQ. by apply wp_ret. }
  cbn [memset_blocks]. rewrite data_block_bytes by done. unfold in_range in *.
  replace (8 * S k)%nat with (8 + 8 * k)%nat in HQ by lia. rewrite replicate_add, put_app, length_replicate in HQ.
  apply wp_bind, wp_store_bytes.
  - by apply bytes_replicate.
  - rewrite length_replicate. eapply access_sub; [done|lia..].
  - rewrite length_replicate. unfold in_range. lia.
  - rewrite w32_add_l. apply IH; unfold in_range; [|lia|].
    + apply access_put. eapply access_sub; [done|lia..].
    + replace (p + 8 + 8 * Z.of_nat k) with (p + 8 * Z.of_nat (S k)) by lia. done.
Qed.
Lemma wp_memset_bytes n p c Q m :
  access p (Z.of_nat n) m → in_range p (Z.of_nat n) → Q () (put p (replicate n (w8 c)) m) →
  wp (memset_bytes n (w32 p) c) Q m.
Proof.
  revert p m. induction n as [|n IH]; intros p m Hp Hr HQ; [by apply wp_ret|].
  cbn [memset_bytes replicate put] in *. unfold in_range in *.
  apply wp_bind, wp_store_in with (Z.of_nat (S n)); [done|lia|done|]. rewrite w32_add_l.
  apply IH; [|unfold in_range; lia|done]. apply access_insert. eapply access_sub; [done|lia..].
Qed.
Lemma wp_memset v c n Q m :
  is_byte c → 0 ≤ n → access v n m → in_range v n → w32 v = v →
  Q v (put v (replicate (Z.to_nat n) c) m) → wp (memset v c n) Q m.
Proof.
  intros Hc Hn Hv Hr Hw HQ. unfold memset, in_range in *.
  pose proof (Z.div_mod n 8 ltac:(lia)) as Hdm. pose proof (Z.mod_pos_bound n 8 ltac:(lia)) as Hmb.
  assert (0 ≤ n `div` 8) by (apply Z.div_pos; lia).
  set (k := Z.to_nat (n `div` 8)). set (r := Z.to_nat (n `mod` 8)).
  replace (Z.to_nat n) with (8 * k + r)%nat in HQ by lia. rewrite replicate_add, put_app, length_replicate in HQ.
  rewrite <- Hw at 1. apply wp_bind, wp_memset_blocks; unfold in_range; [done|eapply access_sub; [done|lia..]|lia|].
  apply wp_bind. apply wp_memset_bytes; unfold in_range; [|lia|].
  - apply access_put. eapply access_sub; [done|lia..].
  - apply wp_ret. rewrite w8_byte by done. replace (v + 8 * Z.of_nat k) with (v + Z.of_nat (8 * k)) by lia. done.
Qed.
(** A fill with a number that is not a byte differs between the block loop and the
    byte loop: the blocks get the disjunction of the number's shifts. *)
Lemma memset_not_a_byte : bytes64 (data_block 258) = [2; 3; 3; 3; 3; 3; 3; 3].
Proof. by vm_compute. Qed.

(** ** Comparing and searching blocks *)
Fixpoint first_difference (l1 l2 : list Z) : Z :=
  match l1, l2 with
  | x :: l1, y :: l2 => if decide (x = y) then first_difference l1 l2 else x - y
  | _, _ => 0
  end.
Lemma first_difference_zero l1 l2 : length l1 = length l2 → first_difference l1 l2 = 0 ↔ l1 = l2.
Proof.
  revert l2. induction l1 as [|x l1 IH]; intros [|y l2] Hl; simplify_eq/=; [done|].
  case_decide as Hxy; [subst; rewrite IH by done; naive_solver|]. split; [lia|naive_solver].
Qed.
Lemma wp_memcmp l1 l2 p q Q m :
  length l1 = length l2 → at_ p l1 m → at_ q l2 m → in_range p (size l1) → in_range q (size l1) →
  Q (first_difference l1 l2) m → wp (memcmp (w32 p) (w32 q) (length l1)) Q m.
Proof.
  revert l2 p q. induction l1 as [|x l1 IH]; intros [|y l2] p q Hl Hp Hq Hrp Hrq HQ; try done.
  cbn [length memcmp first_difference] in *. unfold in_range in *.
  apply wp_bind, wp_load_head with x l1; [done|unfold in_range; cbn in *; lia|].
  apply wp_bind, wp_load_head with y l2; [done|unfold in_range; cbn in *; lia|].
  apply at_cons in Hp as [_ Hp]. apply at_cons in Hq as [_ Hq].
  destruct (decide (x ≠ y)) as [Hne|Heq].
  - apply wp_ret. by rewrite decide_False in HQ by done.
  - rewrite !w32_add_l. apply IH with l2; unfold in_range; try done; try lia. rewrite decide_True in HQ by lia. done.
Qed.
Fixpoint prefix_until (P : Z → bool) (l : list Z) : list Z :=
  match l with [] => [] | x :: l => if P x then [] else x :: prefix_until P l end.
Lemma wp_memfind l s c Q m :
  at_ s l m → in_range s (size l + 1) →
  Q (s + size (prefix_until (λ x, bool_decide (x = w8 c)) l)) m → wp (memfind s c (size l)) Q m.
Proof.
  intros Hs Hr HQ. unfold memfind, in_range in *. rewrite Nat2Z.id, w32_small by lia.
  assert (s + size l = s + size l) as He by done. revert He. generalize (s + size l) at 1 3. intros ends He.
  revert s Hs Hr HQ He. induction l as [|x l IH]; intros s Hs Hr HQ He; cbn [length memfind_loop prefix_until] in *.
  { rewrite Z.add_0_r in HQ. by apply wp_ret. }
  rewrite decide_True by lia. apply at_cons in Hs as [Hx Hs].
  apply wp_bind, wp_load with x; [by rewrite w32_small by lia|].
  destruct (decide (x = w8 c)) as [Heq|Hne].
  - rewrite bool_decide_true in HQ by done. rewrite Z.add_0_r in HQ. by apply wp_ret.
  - rewrite bool_decide_false in HQ by done. rewrite w32_small by lia. apply IH; try done; try lia.
    cbn [length] in HQ. replace (s + 1 + size (prefix_until (λ x, bool_decide (x = w8 c)) l)) with
      (s + Z.of_nat (S (length (prefix_until (λ x, bool_decide (x = w8 c)) l)))) by lia. done.
Qed.

(** ** Strings *)
Definition chars (s : list Z) : Prop := Forall (λ x, 0 < x < 256) s.
(** The string [s] with its terminator at [p]. *)
Definition cstr (p : Z) (s : list Z) (m : bmem) : Prop := at_ p (s ++ [0]) m ∧ chars s ∧ in_range p (size s + 1).
Lemma chars_bytes s : chars s → bytes (s ++ [0]).
Proof. intros H. apply Forall_app. split; [eapply Forall_impl; [done|intros; cbn in *; lia]|by repeat constructor]. Qed.
Lemma cstr_nil p m : cstr p [] m → wp (load (w32 p)) (λ c m', c = 0 ∧ m' = m) m.
Proof. intros (H & _ & Hr). by eapply wp_load_head. Qed.
Lemma cstr_cons p x s m : cstr p (x :: s) m → m !! p = Some x ∧ 0 < x < 256 ∧ cstr (p + 1) s m ∧ 0 ≤ p < 4294967295.
Proof.
  intros (H & Hc & Hr). apply at_cons in H as [Hx H]. inversion Hc; subst. unfold cstr, in_range in *. cbn [length] in Hr.
  split_and!; try done; lia.
Qed.
Lemma wp_load_zero p Q m : cstr p [] m → Q 0 m → wp (load (w32 p)) Q m.
Proof. intros (H & _ & Hr) HQ. by eapply wp_load_head. Qed.
Lemma wp_load_char p x s Q m : cstr p (x :: s) m → Q x m → wp (load (w32 p)) Q m.
Proof. intros (H & _ & Hr) HQ. eapply wp_load_head; [done| |done]. unfold in_range in *. cbn in *. rewrite length_app. cbn. lia. Qed.

Lemma wp_strlen_loop fuel p s n Q m :
  cstr p s m → (length s < fuel)%nat → 0 ≤ n → n + size s < 2147483648 → Q (n + size s) m →
  wp (strlen_loop fuel (w32 p) n) Q m.
Proof.
  revert fuel p n. induction s as [|x s IH]; intros [|fuel] p n Hs Hf Hn Hb HQ; cbn [length strlen_loop] in *; try lia.
  - apply wp_bind, wp_load_zero; [done|]. rewrite decide_True by done. rewrite Z.add_0_r in HQ. by apply wp_ret.
  - apply wp_bind, wp_load_char with x s; [done|]. apply cstr_cons in Hs as (_ & Hx & Hs & _).
    rewrite decide_False by lia. rewrite w32_add_l, i32_small by lia. apply IH; try done; try lia.
    by replace (n + 1 + size s) with (n + Z.of_nat (S (length s))) by lia.
Qed.
Lemma wp_strlen fuel p s Q m :
  cstr p s m → (length s < fuel)%nat → size s < 2147483648 → w32 p = p → Q (size s) m → wp (strlen fuel p) Q m.
Proof. intros. unfold strlen. replace p with (w32 p) by done. by apply wp_strlen_loop with s. Qed.
Lemma wp_strnlen_loop k p s n Q m :
  cstr p s m → 0 ≤ n → n + size s < 2147483648 → Q (n + Z.min (Z.of_nat k) (size s)) m →
  wp (strnlen_loop k (w32 p) n) Q m.
Proof.
  revert s p n. induction k as [|k IH]; intros [|x s] p n Hs Hn Hb HQ; cbn [length strnlen_loop] in *;
    try (apply wp_ret; rewrite Z.min_l, Z.add_0_r in HQ by lia; done).
  - apply wp_bind, wp_load_zero; [done|]. rewrite decide_True by done.
    rewrite Z.min_r, Z.add_0_r in HQ by lia. by apply wp_ret.
  - apply wp_bind, wp_load_char with x s; [done|]. apply cstr_cons in Hs as (_ & Hx & Hs & _).
    rewrite decide_False by lia. rewrite w32_add_l, i32_small by lia. apply IH with s; try done; try lia.
    by replace (n + 1 + Z.min (Z.of_nat k) (size s)) with (n + Z.min (Z.of_nat (S k)) (Z.of_nat (S (length s)))) by lia.
Qed.
Lemma wp_strnlen p s n Q m :
  cstr p s m → 0 ≤ n → size s < 2147483648 → w32 p = p → Q (Z.min n (size s)) m → wp (strnlen p n) Q m.
Proof.
  intros Hs Hn Hb Hw HQ. unfold strnlen. replace p with (w32 p) by done. apply wp_strnlen_loop with s; [done|lia..|].
  by rewrite Z2Nat.id by lia.
Qed.
Lemma cstr_insert_out p s a x m : ¬ p ≤ a < p + size s + 1 → cstr p s m → cstr p s (<[a := x]> m).
Proof. intros Ha (H & Hc & Hr). split_and!; [|done..]. apply at_insert_out; [|done]. rewrite length_app. cbn. lia. Qed.
Lemma cstr_put_out p s q l m : (p + size s + 1 ≤ q ∨ q + size l ≤ p) → cstr p s m → cstr p s (put q l m).
Proof. intros Hd (H & Hc & Hr). split_and!; [|done..]. apply at_put_out; [|done]. rewrite length_app. cbn. lia. Qed.
Lemma cstr_put p s m : chars s → in_range p (size s + 1) → cstr p s (put p (s ++ [0]) m).
Proof. intros. split_and!; [apply at_put|done..]. Qed.
Lemma cstr_access p s m : cstr p s m → access p (size s + 1) m.
Proof. intros (H & _). apply at_access in H. rewrite length_app, Nat2Z.inj_add in H. done. Qed.

Lemma wp_strcpy_loop fuel s d p Q m :
  cstr p s m → (length s < fuel)%nat → access d (size s + 1) m → in_range d (size s + 1) →
  (d ≤ p ∨ p + size s + 1 ≤ d) → Q () (put d (s ++ [0]) m) → wp (strcpy_loop fuel (w32 d) (w32 p)) Q m.
Proof.
  revert fuel d p m. induction s as [|x s IH]; intros [|fuel] d p m Hs Hf Hd Hr Ho HQ; cbn [length strcpy_loop] in *; try lia.
  - apply wp_bind, wp_load_zero; [done|]. apply wp_bind, wp_store_in with 1; [done|lia|done|].
    rewrite decide_True by done. by apply wp_ret.
  - apply wp_bind, wp_load_char with x s; [done|]. apply cstr_cons in Hs as (_ & Hx & Hs & Hp). unfold in_range in *.
    apply wp_bind, wp_store_in with (Z.of_nat (S (length s)) + 1); [done|lia|done|].
    rewrite decide_False by lia. rewrite !w32_add_l, (w8_byte x) by lia. apply IH; unfold in_range; try lia.
    + apply cstr_insert_out; [lia|done].
    + apply access_insert. eapply access_sub; [done|lia..].
    + done.
Qed.
Lemma wp_strcpy fuel s dst src Q m :
  cstr src s m → (length s < fuel)%nat → access dst (size s + 1) m → in_range dst (size s + 1) →
  (dst ≤ src ∨ src + size s + 1 ≤ dst) → Q dst (put dst (s ++ [0]) m) → wp (strcpy fuel dst src) Q m.
Proof.
  intros Hs Hf Hd Hr Ho HQ. unfold strcpy. apply wp_bind.
  assert (w32 dst = dst) as Hw1 by (apply w32_small; unfold in_range in Hr; lia).
  assert (w32 src = src) as Hw2 by (destruct Hs as (_ & _ & Hr2); apply w32_small; unfold in_range in Hr2; lia).
  rewrite <- Hw1 at 1. rewrite <- Hw2. by apply wp_strcpy_loop with s.
Qed.
(** [strncpy] writes [n] bytes: the string cut off, or padded with zeros. *)
Definition padded (n : nat) (s : list Z) : list Z := take n (s ++ replicate n 0).
Lemma length_padded n s : length (padded n s) = n.
Proof. unfold padded. rewrite length_take, length_app, length_replicate. lia. Qed.
Lemma padded_nil n : padded n [] = replicate n 0.
Proof. unfold padded. cbn. apply take_ge. by rewrite length_replicate. Qed.
Lemma padded_cons n x s : padded (S n) (x :: s) = x :: padded n s.
Proof.
  unfold padded. cbn [app firstn]. f_equal. rewrite <- (Nat.add_1_r n), replicate_add, app_assoc.
  rewrite take_app_le; [done|rewrite length_app, length_replicate; lia].
Qed.
Lemma wp_strncpy_loop n s d p Q m :
  cstr p s m → access d (Z.of_nat n) m → in_range d (Z.of_nat n) →
  (d + Z.of_nat n ≤ p ∨ p + size s + 1 ≤ d) → Q () (put d (padded n s) m) →
  wp (strncpy_loop n (w32 d) (w32 p)) Q m.
Proof.
  revert s d p m. induction n as [|n IH]; intros s d p m Hs Hd Hr Ho HQ; [by apply wp_ret|].
  cbn [strncpy_loop]. unfold in_range in *. destruct s as [|x s]; cbn [length] in *.
  - apply wp_bind, wp_load_zero; [done|]. apply wp_bind, wp_store_in with (Z.of_nat (S n)); [done|lia|done|].
    assert (cstr p [] (<[d := w8 0]> m)) by (apply cstr_insert_out; [cbn; lia|done]).
    apply wp_bind, wp_load_zero; [done|]. rewrite decide_True by done. rewrite w32_add_l.
    apply IH with []; unfold in_range; cbn [length]; [done| |lia|lia|by rewrite !padded_nil in *].
    apply access_insert. eapply access_sub; [done|lia..].
  - apply wp_bind, wp_load_char with x s; [done|]. apply wp_bind, wp_store_in with (Z.of_nat (S n)); [done|lia|done|].
    assert (cstr p (x :: s) (<[d := w8 x]> m)) as Hs' by (apply cstr_insert_out; [cbn; lia|done]).
    apply wp_bind, wp_load_char with x s; [done|].
    apply cstr_cons in Hs as (_ & Hx & _ & _). apply cstr_cons in Hs' as (_ & _ & Hs' & Hp').
    rewrite decide_False by lia. rewrite !w32_add_l. rewrite (w8_byte x) in * by lia.
    rewrite padded_cons in HQ. apply IH with s; unfold in_range; try done; try lia.
    apply access_insert. eapply access_sub; [done|lia..].
Qed.
Lemma wp_strncpy n s dst src Q m :
  cstr src s m → access dst n m → in_range dst n → 0 ≤ n → w32 dst = dst →
  (dst + n ≤ src ∨ src + size s + 1 ≤ dst) → Q dst (put dst (padded (Z.to_nat n) s) m) → wp (strncpy dst src n) Q m.
Proof.
  intros Hs Hd Hr Hn Hw1 Ho HQ. unfold strncpy. apply wp_bind.
  assert (w32 src = src) as Hw2 by (destruct Hs as (_ & _ & Hr2); apply w32_small; unfold in_range in Hr2; lia).
  rewrite <- Hw1 at 1. rewrite <- Hw2. apply wp_strncpy_loop with s; rewrite ?Z2Nat.id by done; try done.
Qed.
Lemma wp_strlcpy_loop n s d p Q m :
  cstr p s m → access d (Z.of_nat n) m → in_range d (Z.of_nat n) →
  (d ≤ p ∨ p + size s + 1 ≤ d) → Q (w32 (d + size (take n s))) (put d (take n s) m) →
  wp (strlcpy_loop n (w32 d) (w32 p)) Q m.
Proof.
  revert s d p m. induction n as [|n IH]; intros s d p m Hs Hd Hr Ho HQ.
  { apply wp_ret. cbn in HQ. by rewrite Z.add_0_r in HQ. }
  cbn [strlcpy_loop]. unfold in_range in *. destruct s as [|x s]; cbn [length firstn put] in *.
  - apply wp_bind, wp_load_zero; [done|]. rewrite decide_True by done. apply wp_ret. by rewrite Z.add_0_r in HQ.
  - apply wp_bind, wp_load_char with x s; [done|]. apply cstr_cons in Hs as (_ & Hx & Hs & Hp).
    rewrite decide_False by lia. apply wp_bind, wp_store_in with (Z.of_nat (S n)); [done|lia|done|].
    rewrite !w32_add_l, (w8_byte x) by lia. apply IH with s; unfold in_range; try lia.
    + apply cstr_insert_out; [lia|done].
    + apply access_insert. eapply access_sub; [done|lia..].
    + by replace (d + 1 + size (take n s)) with (d + Z.of_nat (S (length (take n s)))) by lia.
Qed.
(** [strlcpy] always terminates the copy, and returns its length. *)
Lemma wp_strlcpy n s dst src Q m :
  cstr src s m → access dst n m → in_range dst n → 0 < n →
  (dst + n ≤ src ∨ src + size s + 1 ≤ dst) →
  (let c := take (Z.to_nat (n - 1)) s in Q (size c) (put dst (c ++ [0]) m)) → wp (strlcpy dst src n) Q m.
Proof.
  intros Hs Hd Hr Hn Ho HQ. unfold strlcpy. rewrite decide_False by lia. apply wp_bind. unfold in_range in *.
  assert (w32 dst = dst) as Hw1 by (apply w32_small; lia).
  assert (w32 src = src) as Hw2 by (destruct Hs as (_ & _ & Hr2); apply w32_small; unfold in_range in Hr2; lia).
  rewrite <- Hw1 at 1. rewrite <- Hw2. set (k := Z.to_nat (n - 1)) in *.
  assert (size (take k s) ≤ n - 1) as Hk by (rewrite length_take; lia).
  apply wp_strlcpy_loop with s; unfold in_range; rewrite ?Z2Nat.id by lia; try done; try lia.
  - eapply access_sub; [done|lia..].
  - apply wp_bind, wp_store_in with 1; unfold in_range; [|lia|lia|].
    + apply access_put. eapply access_sub; [done|lia..].
    + apply wp_ret. rewrite w32_sub_l. replace (dst + size (take k s) - dst) with (size (take k s)) by lia.
      rewrite w32_small by lia. cbn in HQ. by rewrite put_app in HQ.
Qed.

(** ** Comparing and searching strings *)
(** What [strcmp] finds in two arrays of bytes; nothing when it runs over the end of one. *)
Fixpoint compare_list (l1 l2 : list Z) : option Z :=
  match l1, l2 with
  | x :: l1, y :: l2 => if decide (x ≠ 0 ∧ x = y) then compare_list l1 l2 else Some (x - y)
  | _, _ => None
  end.
Definition reads {S} (ld : Z → M S Z) (p : Z) (l : list Z) (st : S) : Prop :=
  ∀ i x Q, l !! i = Some x → Q x st → wp (ld (w32 (p + Z.of_nat i))) Q st.
Lemma reads_tail {S} (ld : Z → M S Z) p x l st : reads ld p (x :: l) st → reads ld (p + 1) l st.
Proof. intros H i y Q Hi HQ. replace (p + 1 + Z.of_nat i) with (p + Z.of_nat (Datatypes.S i)) by lia. by apply H with y. Qed.
Lemma reads_head {S} (ld : Z → M S Z) p x l st Q : reads ld p (x :: l) st → Q x st → wp (ld (w32 p)) Q st.
Proof. intros H HQ. replace p with (p + Z.of_nat 0) by lia. by apply H with x. Qed.
Lemma wp_compare_loop {S} (ldp ldq : Z → M S Z) fuel l1 l2 p q d Q st :
  compare_list l1 l2 = Some d → reads ldp p l1 st → reads ldq q l2 st → (length l1 ≤ fuel)%nat → Q d st →
  wp (compare_loop ldp ldq fuel (w32 p) (w32 q)) Q st.
Proof.
  revert l1 l2 p q. induction fuel as [|fuel IH]; intros [|x l1] [|y l2] p q Hc Hp Hq Hf HQ; cbn in Hc, Hf; simplify_eq; try lia.
  cbn [compare_loop]. apply wp_bind, reads_head with x l1; [done|]. apply wp_bind, reads_head with y l2; [done|].
  destruct (decide (x ≠ 0 ∧ x = y)) as [Hxy|Hxy]; simplify_eq; [|by apply wp_ret].
  rewrite !w32_add_l. apply IH with l1 l2; [done|by apply reads_tail in Hp|by apply reads_tail in Hq|lia|done].
Qed.
Lemma at_reads p l m : at_ p l m → in_range p (size l) → reads load p l m.
Proof.
  intros Hl Hr i x Q Hi HQ. apply lookup_lt_Some in Hi as Hlt. unfold in_range in Hr.
  apply wp_load with x; [|done]. rewrite w32_idemp, w32_small by lia. by apply Hl.
Qed.
Lemma cstr_reads p s m : cstr p s m → reads load p (s ++ [0]) m.
Proof. intros (H & _ & Hr). apply at_reads; [done|]. by rewrite length_app, Nat2Z.inj_add. Qed.
(** The first difference of two strings, zero when they are equal. *)
Fixpoint strdiff (s1 s2 : list Z) : Z :=
  match s1, s2 with
  | x :: s1, y :: s2 => if decide (x = y) then strdiff s1 s2 else x - y
  | x :: _, [] => x
  | [], y :: _ => - y
  | [], [] => 0
  end.
Lemma strdiff_zero s1 s2 : chars s1 → chars s2 → strdiff s1 s2 = 0 ↔ s1 = s2.
Proof.
  revert s2. induction s1 as [|x s1 IH]; intros [|y s2] H1 H2; inversion H1; inversion H2; subst; cbn; try (split; [lia|done]); [done|].
  case_decide as Hxy; [subst; rewrite IH by done; naive_solver|]. split; [lia|naive_solver].
Qed.
(** The strings may be in arrays that hold more than the string. *)
Lemma compare_list_strings s1 s2 t1 t2 :
  chars s1 → chars s2 → compare_list (s1 ++ 0 :: t1) (s2 ++ 0 :: t2) = Some (strdiff s1 s2).
Proof.
  revert s2. induction s1 as [|x s1 IH]; intros [|y s2] H1 H2; inversion H1; inversion H2; subst; cbn [app compare_list strdiff].
  - by rewrite decide_False by lia.
  - by rewrite decide_False by lia.
  - rewrite decide_False by lia. f_equal. lia.
  - destruct (decide (x = y)) as [->|Hxy]; [rewrite decide_True by (split; [lia|done]); by apply IH|by rewrite decide_False by lia].
Qed.
Lemma wp_strcmp fuel s1 s2 p q Q m :
  cstr p s1 m → cstr q s2 m → (length s1 < fuel)%nat → w32 p = p → w32 q = q → Q (strdiff s1 s2) m →
  wp (strcmp fuel p q) Q m.
Proof.
  intros H1 H2 Hf Hp Hq HQ. unfold strcmp. rewrite <- Hp, <- Hq.
  apply wp_compare_loop with (s1 ++ [0]) (s2 ++ [0]) (strdiff s1 s2); [|by apply cstr_reads..| |done].
  - apply compare_list_strings; [apply H1|apply H2].
  - rewrite length_app. cbn. lia.
Qed.
Lemma wp_strncmp n s1 s2 p q Q m :
  cstr p s1 m → cstr q s2 m → Q (strdiff (take n s1) (take n s2)) m → wp (strncmp (w32 p) (w32 q) n) Q m.
Proof.
  revert s1 s2 p q. induction n as [|n IH]; intros s1 s2 p q H1 H2 HQ; [by apply wp_ret|]. cbn [strncmp].
  destruct s1 as [|x s1], s2 as [|y s2]; cbn [firstn strdiff] in *;
    (apply wp_bind; first [apply wp_load_zero; [done|]|apply wp_load_char with x s1; [done|]];
     apply wp_bind; first [apply wp_load_zero; [done|]|apply wp_load_char with y s2; [done|]]);
    try apply cstr_cons in H1 as (_ & Hx & H1 & _); try apply cstr_cons in H2 as (_ & Hy & H2 & _).
  - by rewrite decide_False by lia.
  - rewrite decide_False by lia. apply wp_ret. by replace (0 - y) with (- y) by lia.
  - rewrite decide_False by lia. apply wp_ret. by replace (x - 0) with x by lia.
  - destruct (decide (x = y)) as [->|Hxy].
    + rewrite decide_True by (split; [lia|done]). rewrite !w32_add_l. by apply IH with s1 s2.
    + rewrite decide_False by lia. by apply wp_ret.
Qed.
Lemma wp_strfind fuel s p c Q m :
  cstr p s m → (length s < fuel)%nat → Q (w32 (p + size (prefix_until (λ x, bool_decide (x = c)) s))) m →
  wp (strfind fuel (w32 p) c) Q m.
Proof.
  revert s p. induction fuel as [|fuel IH]; intros [|x s] p Hs Hf HQ; cbn [length strfind prefix_until] in *; try lia.
  - apply wp_bind, wp_load_zero; [done|]. rewrite decide_True by (by left). apply wp_ret. by rewrite Z.add_0_r in HQ.
  - apply wp_bind, wp_load_char with x s; [done|]. apply cstr_cons in Hs as (_ & Hx & Hs & _).
    destruct (decide (x = c)) as [->|Hxc].
    + rewrite decide_True by (by right). rewrite bool_decide_true in HQ by done. apply wp_ret. by rewrite Z.add_0_r in HQ.
    + rewrite decide_False by lia. rewrite bool_decide_false in HQ by done. rewrite w32_add_l. apply IH with s; [done|lia|].
      cbn [length] in HQ. by replace (p + 1 + size (prefix_until (λ x0, bool_decide (x0 = c)) s)) with
        (p + Z.of_nat (S (length (prefix_until (λ x0, bool_decide (x0 = c)) s)))) by lia.
Qed.
(** [strchr] finds the characters of the string and nothing else. *)
Lemma wp_strchr fuel s p c Q m :
  cstr p s m → (length s < fuel)%nat → 0 < p → c ≠ 0 →
  (∀ r, r ≠ 0 ↔ c ∈ s → Q r m) → wp (strchr fuel (w32 p) c) Q m.
Proof.
  intros Hs Hf Hp Hc HQ. unfold strchr. apply wp_bind, wp_strfind with s; [done..|].
  assert (∃ x, m !! (p + size (prefix_until (λ x, bool_decide (x = c)) s)) = Some x ∧ (x ≠ 0 ↔ c ∈ s) ∧
    p + size (prefix_until (λ x, bool_decide (x = c)) s) < 4294967296) as (x & Hx & Hin & Hr).
  { clear HQ Hf. revert p Hp Hs. induction s as [|x s IH]; intros p Hp Hs; cbn [prefix_until].
    - exists 0. destruct Hs as (Hz & _ & Hr). apply at_cons in Hz as [Hz _]. rewrite Z.add_0_r.
      unfold in_range in Hr. cbn in Hr. split_and!; [done|split; [done|by intros ?%elem_of_nil]|lia].
    - apply cstr_cons in Hs as (Hx & Hx0 & Hs & Hpr). case_bool_decide as Hxc; cbn [length].
      + exists x. rewrite Z.add_0_r. split_and!; [done|split; [intros _; subst; by left|lia]|lia].
      + destruct (IH (p + 1)) as (y & Hy & Hiff & Hlt); [lia|done|]. exists y.
        rewrite Nat2Z.inj_succ. replace (p + Z.succ (size (prefix_until (λ x, bool_decide (x = c)) s))) with
          (p + 1 + size (prefix_until (λ x, bool_decide (x = c)) s)) by lia.
        split_and!; [done| |done]. rewrite Hiff, elem_of_cons. naive_solver. }
  apply wp_bind, wp_load with x.
  - rewrite w32_idemp, w32_small by lia. done.
  - apply wp_ret. apply HQ. rewrite w32_small by lia. case_decide; [|rewrite <- Hin; split; [done|lia]].
    subst. rewrite <- Hin. naive_solver.
Qed.

(** C31: [memmove] copies a block to where it overlaps the block in any way, [memcpy]
    does so when a forward copy is possible; both leave exactly the bytes of the
    block at the destination, change nothing else and return the destination. *)
Theorem block_copies_correct l dst src m :
  at_ src l m → bytes l → access dst (size l) m → 0 ≤ src → src + size l < 4294967296 →
  0 ≤ dst < 4294967296 → dst + size l ≤ 4294967296 →
  wp (memmove dst src (size l)) (λ r m', r = dst ∧ m' = put dst l m) m ∧
  ((dst ≤ src ∨ src + size l ≤ dst) → wp (memcpy dst src (size l)) (λ r m', r = dst ∧ m' = put dst l m) m).
Proof.
  intros Hs Hl Hd H1 H2 H3 H4. split; [|intros Ho].
  - apply wp_memmove; unfold in_range; try done; lia.
  - apply wp_memcpy; unfold in_range; try done; try lia; apply w32_small; lia.
Qed.
Definition w_block : list Z := seqZ 10 20.
Definition w_copy : bmem := put 4100 w_block (put 4096 (replicate 32 0) ∅).
Lemma block_copies_correct_witness :
  wp (memmove 4103 4100 (size w_block)) (λ r m', r = 4103 ∧ m' = put 4103 w_block w_copy) w_copy ∧
  wp (memcpy 4097 4100 (size w_block)) (λ r m', r = 4097 ∧ m' = put 4097 w_block w_copy) w_copy.
Proof.
  assert (at_ 4100 w_block w_copy) as Hs by apply at_put.
  assert (bytes w_block) as Hb by (apply Forall_forall; intros x Hx%elem_of_seqZ; cbn; lia).
  assert (access 4096 32 w_copy) as Ha.
  { apply access_put. exact (at_access 4096 (replicate 32 0) _ (at_put 4096 (replicate 32 0) ∅)). }
  assert (access 4103 (size w_block) w_copy ∧ access 4097 (size w_block) w_copy) as [H1 H2]
    by (split; (eapply access_sub; [exact Ha|vm_compute; done..])).
  split.
  - refine (proj1 (block_copies_correct w_block 4103 4100 w_copy Hs Hb H1 _ _ _ _)); (vm_compute; intuition done).
  - refine (proj2 (block_copies_correct w_block 4097 4100 w_copy Hs Hb H2 _ _ _ _) _); (vm_compute; intuition done).
Defined.
