(* ===== verification/CStringNum.v ===== *)
(** * Numbers in strings (lib/string.c: strtol, ltostr)

    [strtol] reads a number of any base with its sign and prefix, [ltostr] writes
    one in decimal, and reading what was written gives the number back. *)

From S2P Require Import Prelude Queue CString CStringSpec.

(** ** [strtol] *)
Definition is_digit (base c : Z) : Prop := ∃ d, digit c = Some d ∧ d < base.
Definition digit_value (c : Z) : Z := default 0 (digit c).
(** The number that digits denote after [val]. *)
Definition number (base val : Z) (ds : list Z) : Z := foldl (λ v c, v * base + digit_value c) val ds.
(** How many characters the prefix has, and the base it gives. *)
Definition prefix_of (base : Z) (l : list Z) : nat * Z :=
  if decide (base = 0 ∨ base = 16) then
    match l with
    | 48 :: 120 :: _ => (2%nat, 16)
    | 48 :: _ => if decide (base = 0) then (1%nat, 8) else (0%nat, 16)
    | _ => if decide (base = 0) then (0%nat, 10) else (0%nat, 16)
    end
  else (0%nat, base).
Lemma prefix_of_10 l : prefix_of 10 l = (0%nat, 10).
Proof. unfold prefix_of. by rewrite decide_False by lia. Qed.
Definition sign_of (neg : bool) (v : Z) : Z := if neg then - v else v.

Lemma number_cons base val c ds : number base val (c :: ds) = number base (val * base + digit_value c) ds.
Proof. done. Qed.
Lemma number_snoc base val ds c : number base val (ds ++ [c]) = number base val ds * base + digit_value c.
Proof. unfold number. by rewrite foldl_app. Qed.
Lemma digit_range c d : digit c = Some d → 0 ≤ d < 36.
Proof. unfold digit. intros H. repeat case_decide; simplify_eq; lia. Qed.
Lemma number_mono base val ds : 0 < base → 0 ≤ val → val ≤ number base val ds.
Proof.
  intros Hb. revert val. induction ds as [|c ds IH]; intros val Hv; cbn; [lia|].
  assert (0 ≤ digit_value c) by (unfold digit_value; destruct (digit c) eqn:E; cbn; [apply digit_range in E|]; lia).
  assert (val ≤ val * base) by nia.
  specialize (IH (val * base + digit_value c) ltac:(lia)). unfold number in *. lia.
Qed.
Lemma wp_strtol_loop fuel ds c rest p val base Q m :
  at_ p (ds ++ c :: rest) m → in_range p (size ds + 1) → Forall (is_digit base) ds → ¬ is_digit base c →
  0 < base → 0 ≤ val → number base val ds < 2147483648 → (length ds < fuel)%nat →
  Q (w32 (p + size ds), number base val ds) m → wp (strtol_loop fuel (w32 p) val base) Q m.
Proof.
  revert fuel p val. induction ds as [|x ds IH]; intros [|fuel] p val Hat Hr Hds Hc Hb Hv Hn Hf HQ;
    cbn [length strtol_loop app] in *; try lia; apply at_cons in Hat as [Hx Hat]; unfold in_range in *.
  - apply wp_bind, wp_load with c; [by rewrite w32_idemp, w32_small by lia|]. rewrite Z.add_0_r in HQ.
    destruct (digit c) as [d|] eqn:Hd; [|by apply wp_ret]. rewrite decide_True; [by apply wp_ret|].
    destruct (decide (base ≤ d)); [done|]. destruct Hc. exists d. split; [done|lia].
  - apply wp_bind, wp_load with x; [by rewrite w32_idemp, w32_small by lia|].
    inversion Hds as [|?? (d & Hd & Hdb) Hds']; subst. rewrite Hd, decide_False by lia.
    pose proof (digit_range _ _ Hd). assert (0 ≤ val * base) by nia.
    rewrite number_cons in Hn, HQ. unfold digit_value in Hn, HQ. rewrite Hd in Hn, HQ. change (default 0 (Some d)) with d in *.
    pose proof (number_mono base (val * base + d) ds Hb ltac:(lia)) as Hm.
    rewrite (i32_small (val * base)), i32_small, w32_add_l by lia. apply IH; try done; try lia.
    by replace (p + 1 + size ds) with (p + Z.of_nat (S (length ds))) by lia.
Qed.
Lemma wp_skip_blanks fuel bl c rest p Q m :
  at_ p (bl ++ c :: rest) m → in_range p (size bl + 1) → Forall is_blank bl → ¬ is_blank c →
  (length bl < fuel)%nat → Q (w32 (p + size bl)) m → wp (skip_blanks fuel (w32 p)) Q m.
Proof.
  revert fuel p. induction bl as [|x bl IH]; intros [|fuel] p Hat Hr Hbl Hc Hf HQ;
    cbn [length skip_blanks app] in *; try lia; apply at_cons in Hat as [Hx Hat]; unfold in_range in *.
  - apply wp_bind, wp_load with c; [by rewrite w32_idemp, w32_small by lia|]. rewrite Z.add_0_r in HQ.
    rewrite decide_False by done. by apply wp_ret.
  - apply wp_bind, wp_load with x; [by rewrite w32_idemp, w32_small by lia|].
    inversion Hbl; subst. rewrite decide_True by done. rewrite w32_add_l. apply IH; try done; try lia.
    by replace (p + 1 + size bl) with (p + Z.of_nat (S (length bl))) by lia.
Qed.
Lemma wp_base_prefix l p base Q m :
  at_ p l m → l ≠ [] → (base = 0 ∨ base = 16 → head l = Some 48 → (2 ≤ length l)%nat) → in_range p (size l) →
  Q (w32 (p + Z.of_nat (prefix_of base l).1), (prefix_of base l).2) m → wp (base_prefix (w32 p) base) Q m.
Proof.
  intros Hat Hl H2 Hr HQ. unfold in_range in Hr. destruct l as [|c l]; [done|]. apply at_cons in Hat as [Hc Hat]. cbn in Hr.
  unfold base_prefix. apply wp_bind, wp_load with c; [by rewrite w32_idemp, w32_small by lia|]. apply wp_bind.
  unfold prefix_of in HQ. destruct (decide (base = 0 ∨ base = 16)) as [Hb|Hb].
  - destruct (decide (c = 48)) as [->|Hne].
    + rewrite decide_True by done. destruct l as [|d l]; [specialize (H2 Hb eq_refl); cbn in H2; lia|].
      apply at_cons in Hat as [Hd _]. cbn in Hr. apply wp_load with d; [by rewrite w32_add_l, w32_idemp, w32_small by lia|]. apply wp_ret.
      destruct (decide (d = 120)) as [->|Hd120].
      * rewrite decide_True by done. by rewrite w32_add_l.
      * rewrite decide_False by naive_solver.
        assert ((match d with 120 => (2%nat, 16) | _ => if decide (base = 0) then (1%nat, 8) else (0%nat, 16) end) =
          (if decide (base = 0) then (1%nat, 8) else (0%nat, 16))) as He.
        { destruct d as [|d|d]; try done. repeat (destruct d as [d|d|]; try done). }
        cbn in HQ. rewrite He in HQ. destruct Hb as [->| ->]; cbn in *; rewrite ?w32_add_l; [done|].
        by rewrite Z.add_0_r in HQ.
    + rewrite decide_False by naive_solver. apply wp_ret, wp_ret.
      rewrite !decide_False by naive_solver.
      assert ((match c with 48 => match l with 120 :: _ => (2%nat, 16) | _ => if decide (base = 0) then (1%nat, 8) else (0%nat, 16) end
                | _ => if decide (base = 0) then (0%nat, 10) else (0%nat, 16) end) =
          (if decide (base = 0) then (0%nat, 10) else (0%nat, 16))) as He.
      { destruct c as [|c|c]; try done. repeat (destruct c as [c|c|]; try done). }
      cbn in HQ. rewrite He in HQ. destruct Hb as [->| ->]; cbn in *; by rewrite Z.add_0_r in HQ.
  - rewrite decide_False by naive_solver. apply wp_ret, wp_ret. rewrite !decide_False by naive_solver.
    cbn in HQ. by rewrite Z.add_0_r in HQ.
Qed.
Inductive signed_start : list Z → bool → list Z → Prop :=
| unsigned_start c r : c ≠ 43 → c ≠ 45 → signed_start (c :: r) false (c :: r)
| plus_start l : signed_start (43 :: l) false l
| minus_start l : signed_start (45 :: l) true l.
Lemma wp_strtol fuel bl l neg l' ds c rest p base Q m :
  at_ p (bl ++ l) m → in_range p (size (bl ++ l)) → Forall is_blank bl → head l ≠ Some 32 → head l ≠ Some 9 →
  signed_start l neg l' → (base = 0 ∨ base = 16 → head l' = Some 48 → (2 ≤ length l')%nat) →
  drop (prefix_of base l').1 l' = ds ++ c :: rest →
  let b := (prefix_of base l').2 in
  0 < b → Forall (is_digit b) ds → ¬ is_digit b c → number b 0 ds < 2147483648 →
  (length (bl ++ l) ≤ fuel)%nat →
  Q (sign_of neg (number b 0 ds), w32 (p + size (bl ++ l) - size (c :: rest))) m →
  wp (strtol fuel (w32 p) base) Q m.
Proof.
  intros Hat Hr Hbl Hb1 Hb2 Hsg Hp2 Hdr b Hb Hds Hc Hn Hf HQ. unfold strtol. unfold in_range in *.
  apply at_app in Hat as [Hat1 Hat2]. rewrite length_app in *.
  assert (∃ h t, l = h :: t) as (h & t & ->) by (destruct Hsg; eauto).
  assert (¬ is_blank h) as Hh by (unfold is_blank; cbn in *; intros [->| ->]; done).
  assert (l' ≠ []) as Hl' by (intros Hn0; rewrite Hn0, drop_nil in Hdr; by destruct ds).
  apply wp_bind, wp_skip_blanks with bl h t; unfold in_range; [by apply at_app|cbn in *; lia|done|done|cbn in *; lia|].
  apply wp_bind, wp_load_head with h t; [done|unfold in_range; lia|]. apply wp_bind.
  set (q := if decide (h = 43 ∨ h = 45) then p + size bl + 1 else p + size bl).
  assert (at_ q l' m ∧ q + size l' = p + Z.of_nat (length bl + length (h :: t)) ∧ p + size bl ≤ q ∧
    bool_decide (h = 45) = neg) as (Hq & Hql & Hq0 & Hneg).
  { unfold q. inversion Hsg; subst.
    - rewrite decide_False by lia. rewrite bool_decide_false by done. split_and!; [done|lia..|done].
    - rewrite decide_True by lia. apply at_cons in Hat2 as [_ Hat2]. cbn [length]. split_and!; [done|lia..|done].
    - rewrite decide_True by lia. apply at_cons in Hat2 as [_ Hat2]. cbn [length]. split_and!; [done|lia..|done]. }
  replace (if decide (h = 43 ∨ h = 45) then w32 (w32 (p + size bl) + 1) else w32 (p + size bl)) with (w32 q)
    by (unfold q; destruct (decide (h = 43 ∨ h = 45)); [by rewrite w32_add_l|done]).
  assert (size l' = Z.of_nat (prefix_of base l').1 + size (ds ++ c :: rest)) as Hlen.
  { rewrite <- Hdr, length_drop. assert ((prefix_of base l').1 < length l')%nat; [|lia].
    apply (f_equal length) in Hdr. rewrite length_drop, length_app in Hdr. cbn in Hdr. lia. }
  rewrite length_app in Hlen. cbn [length] in Hlen.
  apply wp_base_prefix with l'; [done|done|done|unfold in_range; lia|]. cbn [fst snd]. fold b. apply wp_bind.
  apply wp_strtol_loop with ds c rest; unfold in_range; try done; try lia.
  - rewrite <- Hdr. rewrite <- (take_drop (prefix_of base l').1 l') in Hq. apply at_app in Hq as [_ Hq].
    rewrite length_take_le in Hq by lia. done.
  - apply wp_ret. cbn [fst snd]. rewrite Hneg.
    replace (if neg then i32 (- number b 0 ds) else number b 0 ds) with (sign_of neg (number b 0 ds)).
    + replace (q + Z.of_nat (prefix_of base l').1 + size ds) with (p + Z.of_nat (length bl + length (h :: t)) - size (c :: rest));
        [done|cbn [length] in *; lia].
    + pose proof (number_mono b 0 ds Hb ltac:(lia)). unfold sign_of. destruct neg; [by rewrite i32_small by lia|done].
Qed.

(** ** [ltostr] *)
(** The decimal digits of a number, the lowest first. *)
Fixpoint rev_digits (fuel : nat) (v : Z) : list Z :=
  match fuel with
  | O => []
  | S fuel => v `mod` 10 + 48 :: if decide (v `div` 10 = 0) then [] else rev_digits fuel (v `div` 10)
  end.
Definition decimal (v : Z) : list Z := reverse (rev_digits 10 v).
Definition signed_decimal (v : Z) : list Z := if decide (v < 0) then 45 :: decimal (- v) else decimal v.
Lemma rev_digits_chars fuel v : Forall (λ c, 48 ≤ c ≤ 57) (rev_digits fuel v).
Proof.
  revert v. induction fuel as [|fuel IH]; intros v; cbn; [constructor|].
  pose proof (Z.mod_pos_bound v 10 ltac:(lia)). constructor; [lia|]. case_decide; [constructor|apply IH].
Qed.
Lemma length_rev_digits fuel v : (length (rev_digits fuel v) ≤ fuel)%nat.
Proof. revert v. induction fuel as [|fuel IH]; intros v; cbn; [lia|]. case_decide; cbn; [lia|]. specialize (IH (v `div` 10)). lia. Qed.
Lemma decimal_chars v : Forall (λ c, 48 ≤ c ≤ 57) (decimal v).
Proof. apply Forall_reverse, rev_digits_chars. Qed.
Lemma decimal_nonempty v : decimal v ≠ [].
Proof.
  unfold decimal. intros H. apply (f_equal reverse) in H. rewrite reverse_involutive in H. done.
Qed.
Lemma digit_decimal c : 48 ≤ c ≤ 57 → digit c = Some (c - 48).
Proof. intros Hc. unfold digit, i8. rewrite (decide_True (P:=c < 128)) by lia. by rewrite decide_True by done. Qed.
Lemma number_rev_digits fuel v :
  0 ≤ v < 10 ^ Z.of_nat fuel → number 10 0 (reverse (rev_digits fuel v)) = v.
Proof.
  revert v. induction fuel as [|fuel IH]; intros v Hv; cbn [rev_digits]; [cbn in *; lia|].
  pose proof (Z.mod_pos_bound v 10 ltac:(lia)). pose proof (Z.div_mod v 10 ltac:(lia)).
  rewrite reverse_cons, number_snoc. replace (digit_value (v `mod` 10 + 48)) with (v `mod` 10)
    by (unfold digit_value; rewrite digit_decimal by lia; cbn; lia).
  case_decide as Hz; [cbn; lia|].
  rewrite IH; [lia|]. rewrite Nat2Z.inj_succ, Z.pow_succ_r in Hv by lia.
  split; [apply Z.div_pos; lia|apply Z.div_lt_upper_bound; lia].
Qed.
Lemma wp_put_digits fuel v str s Q m :
  (0 < fuel)%nat → 0 ≤ v < 10 ^ Z.of_nat fuel → access (str + s) (Z.of_nat fuel) m → in_range (str + s) (Z.of_nat fuel) →
  Q (s + size (rev_digits fuel v)) (put (str + s) (rev_digits fuel v) m) → wp (put_digits fuel v str s) Q m.
Proof.
  revert v s m. induction fuel as [|fuel IH]; intros v s m Hf Hv Ha Hr HQ; [lia|]. cbn [put_digits].
  pose proof (Z.mod_pos_bound v 10 ltac:(lia)). rewrite Z.rem_mod_nonneg, Z.quot_div_nonneg by lia. unfold in_range in *.
  apply wp_bind, wp_store_in with (Z.of_nat (S fuel)); [done|lia|done|]. cbn [rev_digits put length] in HQ.
  rewrite w8_small by lia. case_decide as Hz; [by apply wp_ret|].
  replace (str + s + 1) with (str + (s + 1)) in * by lia.
  assert (0 ≤ v `div` 10) by (apply Z.div_pos; lia).
  assert (v `div` 10 < 10 ^ Z.of_nat fuel) as Hlt
    by (rewrite Nat2Z.inj_succ, Z.pow_succ_r in Hv by lia; apply Z.div_lt_upper_bound; lia).
  apply IH; unfold in_range; [|lia|apply access_insert; eapply access_sub; [done|lia..]|lia|].
  - destruct fuel; [cbn in Hlt; lia|lia].
  - replace (s + 1 + size (rev_digits fuel (v `div` 10))) with (s + Z.of_nat (S (length (rev_digits fuel (v `div` 10))))) by lia. done.
Qed.
(** Exchanging the ends of a block and reversing what is between them. *)
Lemma put_swap p x y l m :
  put (p + 1) (reverse l) (<[p + 1 + size l := x]> (<[p := y]> m)) = put p (reverse (x :: l ++ [y])) m.
Proof.
  rewrite reverse_cons, reverse_snoc. cbn [app put].
  rewrite put_snoc, length_reverse. done.
Qed.
Lemma wp_reverse_loop fuel l str i Q m :
  at_ (str + i) l m → bytes l → in_range (str + i) (size l) → (length l < 2 * fuel)%nat →
  Q () (put (str + i) (reverse l) m) → wp (reverse_loop fuel str i (i + size l - 1)) Q m.
Proof.
  revert l i m. induction fuel as [|fuel IH]; intros l i m Hat Hl Hr Hf HQ; [lia|]. cbn [reverse_loop].
  destruct l as [|x l]; [rewrite decide_False by (cbn; lia); by apply wp_ret|].
  destruct l as [|y l _] using rev_ind.
  { rewrite decide_False by (cbn; lia). apply wp_ret. apply at_cons in Hat as [Hx _]. cbn in HQ. by rewrite insert_id in HQ. }
  unfold in_range in *. cbn [length] in *. rewrite length_app in *. cbn [length] in *. rewrite decide_True by lia.
  apply at_cons in Hat as [Hx Hat]. apply at_app in Hat as [Hat [Hy _]%at_cons].
  inversion Hl as [|?? Hbx Hl']; subst. apply Forall_app in Hl' as [Hl' [Hby _]%Forall_cons].
  replace (i + Z.of_nat (S (length l + 1)) - 1) with (i + 1 + size l) by lia.
  assert (w32 (str + i) = str + i) as Hw1 by (apply w32_small; lia).
  assert (w32 (str + (i + 1 + size l)) = str + i + 1 + size l) as Hw2 by (rewrite w32_small by lia; lia).
  apply wp_bind, wp_load with x; [by rewrite w32_idemp, Hw1|].
  apply wp_bind, wp_load with y; [by rewrite w32_idemp, Hw2|].
  apply wp_bind, wp_store; [by rewrite w32_idemp, Hw1; eexists|]. rewrite w32_idemp, Hw1, (w8_byte y Hby).
  apply wp_bind, wp_store; [rewrite w32_idemp, Hw2, lookup_insert_ne by lia; by eexists|].
  rewrite w32_idemp, Hw2, (w8_byte x Hbx).
  replace (i + 1 + size l - 1) with (i + 1 + size l - 1) by done.
  apply (IH l (i + 1)); replace (str + (i + 1)) with (str + i + 1) by lia; unfold in_range; [|done|lia|lia|].
  - apply at_insert_out; [lia|]. apply at_insert_out; [lia|done].
  - by rewrite put_swap.
Qed.
(** Writing a block again where it was written. *)
Lemma put_put p l1 l2 m : length l1 = length l2 → put p l2 (put p l1 m) = put p l2 m.
Proof.
  intros Hl. apply map_eq. intros a. rewrite !lookup_put. rewrite Hl. case_decide; [done|done].
Qed.
Lemma wp_ltostr v str Q m :
  -2147483648 < v < 2147483648 → access str 12 m → in_range str 12 →
  Q () (put str (signed_decimal v ++ [0]) m) → wp (ltostr v str) Q m.
Proof.
  intros Hv Ha Hr HQ. unfold ltostr, in_range in *.
  set (k := if bool_decide (v < 0) then 1 else 0). set (w := if bool_decide (v < 0) then i32 (- v) else v).
  set (m1 := if bool_decide (v < 0) then <[str := 45]> m else m).
  assert (access str 12 m1) as Ha1 by (unfold m1; case_bool_decide; [by apply access_insert|done]).
  assert (w = Z.abs v) as Hw by (unfold w; case_bool_decide; [rewrite i32_small by lia|]; lia).
  assert (k = 0 ∨ k = 1) as Hk by (unfold k; case_bool_decide; lia).
  assert (put str (signed_decimal v ++ [0]) m = put (str + k) (decimal w ++ [0]) m1) as Heq.
  { unfold signed_decimal, m1, k. rewrite Hw. destruct (decide (v < 0)).
    - rewrite bool_decide_true by done. by replace (Z.abs v) with (- v) by lia.
    - rewrite bool_decide_false by done. by rewrite Z.add_0_r, Z.abs_eq by lia. }
  rewrite Heq in HQ. clear Heq.
  assert (wp (s ← put_digits 10 w str k; reverse_loop 6 str k (s - 1) ;; store (w32 (str + s)) 0) Q m1) as Hgo.
  { pose proof (length_rev_digits 10 w) as Hlen. apply wp_bind, wp_put_digits; unfold in_range; [lia|lia| |lia|].
    { eapply access_sub; [done|lia..]. }
    apply wp_bind, wp_reverse_loop; unfold in_range.
    - apply at_put.
    - eapply Forall_impl; [apply rev_digits_chars|cbn; lia].
    - lia.
    - lia.
    - rewrite put_put by (by rewrite length_reverse). fold (decimal w).
      assert (length (decimal w) = length (rev_digits 10 w)) as Hdl by apply length_reverse.
      rewrite Z.add_assoc. apply wp_store_in with 1; [|lia|unfold in_range; lia|].
      + apply access_put. eapply access_sub; [done|lia..].
      + rewrite put_app, Hdl in HQ. apply HQ. }
  unfold when, m1, k, w in Hgo |- *. case_bool_decide; [|done].
  apply wp_bind. rewrite <- (w32_small str) by lia. apply wp_store_in with 12; unfold in_range; [done|lia|lia|].
  rewrite (w32_small str) by lia. done.
Qed.

(** [strtol] reads back what [ltostr] writes, and stops at the terminator. *)
Lemma signed_decimal_start v : 0 ≤ Z.abs v < 2147483648 → signed_start (signed_decimal v) (bool_decide (v < 0)) (decimal (Z.abs v)).
Proof.
  intros Hv. unfold signed_decimal. case_decide as Hn.
  - rewrite bool_decide_true by done. rewrite Z.abs_neq by lia. constructor.
  - rewrite bool_decide_false by done. rewrite Z.abs_eq by lia.
    pose proof (decimal_chars v) as Hc. pose proof (decimal_nonempty v). destruct (decimal v) as [|c r]; [done|].
    inversion Hc; subst. constructor; lia.
Qed.
(** C30: [strtol] of the string that [ltostr] wrote gives the number back, for every
    number of 32 bits but the smallest; both stay within 12 bytes and leave the
    rest of memory alone, and the end pointer is at the terminating zero. *)
Theorem ltostr_strtol_roundtrip v str m :
  -2147483648 < v < 2147483648 → access str 12 m → in_range str 12 →
  wp (ltostr v str ;; strtol 12 str 10) (λ r m',
    r = (v, str + size (signed_decimal v)) ∧ cstr str (signed_decimal v) m' ∧
    ∀ a, ¬ str ≤ a < str + 12 → m' !! a = m !! a) m.
Proof.
  intros Hv Ha Hr. apply wp_bind, wp_ltostr; [done..|]. unfold in_range in *.
  pose proof (length_rev_digits 10 (Z.abs v)) as Hd. pose proof (signed_decimal_start v ltac:(lia)) as Hst.
  assert (length (decimal (Z.abs v)) ≤ 10)%nat as Hdl by (unfold decimal; by rewrite length_reverse).
  assert (length (signed_decimal v) ≤ 11)%nat as Hl by (unfold signed_decimal; destruct (decide (v < 0));
    [rewrite Z.abs_neq in Hdl by lia|rewrite Z.abs_eq in Hdl by lia]; cbn [length]; lia).
  pose proof (decimal_chars (Z.abs v)) as Hc. set (m' := put str (signed_decimal v ++ [0]) m).
  assert (chars (signed_decimal v)) as Hch.
  { unfold signed_decimal. destruct (decide (v < 0)); [constructor; [lia|]|]; (eapply Forall_impl; [apply decimal_chars|cbn; lia]). }
  assert (wp (strtol 12 (w32 str) 10) (λ r m'', r = (v, w32 (str + size (signed_decimal v))) ∧ m'' = m') m') as Hs.
  { apply wp_strtol with [] (signed_decimal v ++ [0]) (bool_decide (v < 0)) (decimal (Z.abs v) ++ [0]) (decimal (Z.abs v)) 0 [];
      rewrite ?prefix_of_10; cbn [app fst snd].
    - apply at_put.
    - unfold in_range. rewrite length_app. cbn. lia.
    - constructor.
    - intros He. destruct Hst; inversion Hc; cbn in *; simplify_eq; lia.
    - intros He. destruct Hst; inversion Hc; cbn in *; simplify_eq; lia.
    - inversion Hst; cbn; constructor; done.
    - by intros [?|?].
    - done.
    - done.
    - eapply Forall_impl; [exact Hc|]. intros c Hcc. exists (c - 48). split; [by apply digit_decimal|cbn in *; lia].
    - intros (d & Hdd & _). vm_compute in Hdd. done.
    - unfold decimal. rewrite number_rev_digits by lia. lia.
    - rewrite length_app. cbn. lia.
    - split; [|done]. unfold decimal at 1. rewrite number_rev_digits by lia.
      f_equal; [unfold sign_of; case_bool_decide; lia|]. rewrite length_app. cbn. f_equal. lia. }
  rewrite (w32_small str), (w32_small (str + _)) in Hs by lia. eapply wp_mono; [exact Hs|]. intros r m'' [-> ->].
  split_and!; [done| |].
  - apply cstr_put; [done|unfold in_range; lia].
  - intros a Hna. unfold m'. rewrite lookup_put_out; [done|]. rewrite length_app. cbn. lia.
Qed.
(** For the smallest number [value * -1] wraps and the remainders are negative. *)
Definition w_blank : bmem := put 4096 (replicate 16 0) ∅.
Lemma ltostr_smallest : wp (ltostr (-2147483648) 4096) (λ _ m, m !! 4097 = Some 46 ∧ m !! 4098 = Some 47) w_blank.
Proof. split; by vm_compute. Qed.
Lemma ltostr_strtol_roundtrip_witness :
  wp (ltostr (-1234567) 4096 ;; strtol 12 4096 10) (λ r m',
    r = (-1234567, 4096 + size (signed_decimal (-1234567))) ∧ cstr 4096 (signed_decimal (-1234567)) m' ∧
    ∀ a, ¬ 4096 ≤ a < 4096 + 12 → m' !! a = w_blank !! a) w_blank.
Proof.
  apply (ltostr_strtol_roundtrip (-1234567) 4096 w_blank); [lia| |unfold in_range; lia].
  eapply access_sub; [exact (at_access 4096 (replicate 16 0) w_blank (at_put 4096 (replicate 16 0) ∅))|cbn; lia..].
Defined.
