(* ===== verification/CStringArgs.v ===== *)
(** * Splitting a command line (lib/string.c: strsplit)

    The words of a string are its longest runs of characters that are not
    separators. [strsplit] leaves each of the first fifteen as a string of its own
    and its address in the argument array. *)

From S2P Require Import Prelude Queue CString CStringSpec.

Section words.
(** The separators. *)
Context (t : list Z).
Notation sep c := (c ∈ t).

(** The words of [s] with their addresses, when [s] is at [pos]. *)
Fixpoint words (pos : Z) (s : list Z) : list (Z * list Z) :=
  match s with
  | [] => []
  | c :: s =>
      let r := words (pos + 1) s in
      if decide (sep c) then r else
      match s, r with
      | d :: _, (_, w) :: r' => if decide (sep d) then (pos, [c]) :: r else (pos, c :: w) :: r'
      | _, _ => (pos, [c]) :: r
      end
  end.
(** A string with its separators replaced by terminators. *)
Definition blanked (s : list Z) : list Z := map (λ c, if decide (sep c) then 0 else c) s.

Lemma words_sep a pos s : Forall (λ c, sep c) a → words pos (a ++ s) = words (pos + size a) s.
Proof.
  intros Ha. revert pos. induction Ha as [|c a Hc _ IH]; intros pos; cbn [app words length]; [by rewrite Z.add_0_r|].
  rewrite decide_True by done. rewrite IH. f_equal. lia.
Qed.
Definition ends_word (s : list Z) : Prop := match s with [] => True | d :: _ => sep d end.
Lemma words_word w pos s :
  w ≠ [] → Forall (λ c, ¬ sep c) w → ends_word s → words pos (w ++ s) = (pos, w) :: words (pos + size w) s.
Proof.
  intros Hne Hw Hs. revert pos. induction Hw as [|c w Hc Hw IH]; intros pos; [done|].
  cbn [app words length]. rewrite decide_False by done. destruct w as [|d w]; cbn [app].
  - cbv zeta. destruct s as [|d s]; [done|]. cbn [ends_word] in Hs.
    change (Z.of_nat (S (length []))) with 1. destruct (words (pos + 1) (d :: s)) as [|[]]; [done|]. by rewrite decide_True by done.
  - inversion Hw; subst.
    change (d :: w ++ s) with ((d :: w) ++ s). rewrite IH by done. rewrite (decide_False (P := sep d)) by done.
    do 2 f_equal. cbn [length]. lia.
Qed.
Lemma blanked_sep a : Forall (λ c, sep c) a → blanked a = replicate (length a) 0.
Proof. induction 1 as [|c a Hc _ IH]; cbn; [done|]. rewrite decide_True by done. by f_equal. Qed.
Lemma blanked_word w : Forall (λ c, ¬ sep c) w → blanked w = w.
Proof. induction 1 as [|c a Hc _ IH]; cbn; [done|]. rewrite decide_False by done. by f_equal. Qed.
Lemma blanked_app a b : blanked (a ++ b) = blanked a ++ blanked b.
Proof. apply map_app. Qed.
Lemma length_blanked s : length (blanked s) = length s.
Proof. apply length_map. Qed.
(** A string is separators, then a word, then the rest. *)
Lemma span_word (P : Z → Prop) `{!∀ c, Decision (P c)} (s : list Z) :
  ∃ a r, s = a ++ r ∧ Forall P a ∧ match r with [] => True | d :: _ => ¬ P d end.
Proof.
  induction s as [|c s (a & r & -> & Ha & Hr)]; [by exists [], []|].
  destruct (decide (P c)); [exists (c :: a), r; by split_and!; [|constructor|]|exists [], (c :: a ++ r); by split_and!].
Qed.
Lemma words_nil_inv s pos : words pos s = [] → Forall (λ c, sep c) s.
Proof.
  revert pos. induction s as [|c s IH]; intros pos; [done|]. cbn. destruct (decide (sep c)) as [Hc|Hc].
  - intros H. constructor; [done|]. by eapply IH.
  - destruct s; [done|]. destruct (words _ _) as [|[]]; [done|]. by destruct (decide _).
Qed.
(** The words are not empty and lie where their addresses say. *)
Lemma words_at s pos i a w :
  chars s → words pos s !! i = Some (a, w) → ∃ u v, s = u ++ w ++ v ∧ a = pos + size u ∧ w ≠ [] ∧ Forall (λ c, ¬ sep c) w ∧ ends_word v.
Proof.
  intros Hs. remember (length s) as n eqn:Hn. revert s pos i Hs Hn.
  induction (lt_wf n) as [n _ IH]. intros s pos i Hs -> Hi.
  destruct (span_word (λ c, sep c) s) as (b & r & -> & Hb & Hr).
  rewrite words_sep in Hi by done. destruct (span_word (λ c, ¬ sep c) r) as (x & y & -> & Hx & Hy).
  assert (ends_word y) as Hey by (destruct y as [|d y]; [done|by apply dec_stable in Hy]).
  destruct x as [|c x].
  { destruct y as [|d y]; [done|]. cbn in Hr, Hey. done. }
  rewrite words_word in Hi by done. destruct i as [|i]; cbn [lookup list_lookup] in Hi.
  - injection Hi as <- <-. exists b, y. by split_and!.
  - apply Forall_app in Hs as [_ [_ Hs]%Forall_app].
    assert (length y < length (b ++ (c :: x) ++ y))%nat as Hlt by (rewrite !length_app; cbn; lia).
    destruct (IH (length y) Hlt y _ i Hs eq_refl Hi) as (u & v & -> & -> & Hw).
    exists (b ++ (c :: x) ++ u), v. rewrite <- !app_assoc. split_and!; [done| |apply Hw..].
    rewrite !length_app. lia.
Qed.
End words.

(** ** The loops *)
Lemma put_same p l m : at_ p l m → put p l m = m.
Proof.
  intros H. apply map_eq. intros a. rewrite lookup_put. case_decide; [|done].
  destruct (lookup_lt_is_Some_2 l (Z.to_nat (a - p))) as [x Hx]; [lia|]. rewrite Hx. rewrite <- (H _ _ Hx). f_equal. lia.
Qed.
Lemma cstr_drop p a s m : cstr p (a ++ s) m → cstr (p + size a) s m ∧ at_ p a m ∧ in_range p (size a) ∧ w32 (p + size a) = p + size a.
Proof.
  intros (H & Hc & Hr). rewrite <- app_assoc in H. apply at_app in H as [Ha Hs]. apply Forall_app in Hc as [_ Hc].
  unfold cstr, in_range in *. rewrite length_app in Hr. split_and!; try done; try lia. apply w32_small. lia.
Qed.
Section loops.
(** The separators [t] are a string at [q]. *)
Context (q : Z) (t : list Z) (Hq0 : 0 < q).
Notation sep c := (c ∈ t).

Lemma wp_trim_loop fuel a s p Q m :
  cstr p (a ++ s) m → cstr q t m → (q + size t + 1 ≤ p ∨ p + size (a ++ s) + 1 ≤ q) →
  (length (a ++ s) + length t < fuel)%nat → Forall (λ c, sep c) a → match s with [] => True | d :: _ => ¬ sep d end →
  Q (w32 (p + size a)) (put p (replicate (length a) 0) m) → wp (trim_loop fuel (w32 p) (w32 q)) Q m.
Proof using Hq0.
  revert a p m. induction fuel as [|fuel IH]; intros a p m Hs Ht Hd Hf Ha Hsep HQ; [lia|]. cbn [trim_loop].
  destruct a as [|c a].
  - cbn [length app replicate put] in *. rewrite Z.add_0_r in HQ. destruct s as [|c s].
    + apply wp_bind, wp_load_zero; [done|]. rewrite decide_True by done. by apply wp_ret.
    + apply wp_bind, wp_load_char with c s; [done|]. apply cstr_cons in Hs as (_ & Hc & _). rewrite decide_False by lia.
      apply wp_bind, wp_strchr with t; [done|lia|done|lia|]. intros r Hr. rewrite decide_True; [by apply wp_ret|].
      destruct (decide (r = 0)); [done|]. tauto.
  - inversion Ha as [|?? Hca Ha']; subst. rewrite <- app_comm_cons in Hs. cbn [app length replicate put] in *.
    apply wp_bind, wp_load_char with c (a ++ s); [done|]. apply cstr_access in Hs as Hacc. apply cstr_cons in Hs as (_ & Hc & Hs & Hp).
    rewrite decide_False by lia. apply wp_bind, wp_strchr with t; [done|lia|done|lia|]. intros r Hr. rewrite decide_False by tauto.
    apply wp_bind, wp_store_in with 1; [|lia|unfold in_range; lia|].
    { eapply access_sub; [exact Hacc|lia|]. cbn [length]. lia. }
    rewrite w32_add_l, w8_small by lia. apply IH with a; try done; try lia.
    + apply cstr_insert_out; [lia|done].
    + apply cstr_insert_out; [lia|done].
    + by replace (p + 1 + size a) with (p + Z.of_nat (S (length a))) by lia.
Qed.
Lemma wp_scan_loop fuel w s p Q m :
  cstr p (w ++ s) m → cstr q t m → (length (w ++ s) + length t < fuel)%nat → Forall (λ c, ¬ sep c) w → ends_word t s →
  Q (w32 (p + size w)) m → wp (scan_loop fuel (w32 p) (w32 q)) Q m.
Proof using Hq0.
  revert w p. induction fuel as [|fuel IH]; intros w p Hs Ht Hf Hw Hend HQ; [lia|]. cbn [scan_loop].
  destruct w as [|c w].
  - cbn [length app] in *. rewrite Z.add_0_r in HQ. destruct s as [|c s].
    + apply wp_bind, wp_load_zero; [done|]. rewrite decide_True by done. by apply wp_ret.
    + apply wp_bind, wp_load_char with c s; [done|]. apply cstr_cons in Hs as (_ & Hc & _). rewrite decide_False by lia.
      apply wp_bind, wp_strchr with t; [done|lia|done|lia|]. intros r Hr. cbn in Hend. rewrite decide_False by tauto. by apply wp_ret.
  - inversion Hw as [|?? Hcw Hw']; subst. rewrite <- app_comm_cons in Hs. cbn [app length] in *.
    apply wp_bind, wp_load_char with c (w ++ s); [done|]. apply cstr_cons in Hs as (_ & Hc & Hs & Hp).
    rewrite decide_False by lia. apply wp_bind, wp_strchr with t; [done|lia|done|lia|]. intros r Hr.
    rewrite decide_True by (destruct (decide (r = 0)); [done|tauto]).
    rewrite w32_add_l. apply IH with w; try done; try lia.
    by replace (p + 1 + size w) with (p + Z.of_nat (S (length w))) by lia.
Qed.
Lemma wp_set_arg argv i v Q m : (i < length argv)%nat → Q (<[i := v]> argv) m → wp (set_arg argv i v) Q m.
Proof. intros Hi HQ. destruct (lookup_lt_is_Some_2 argv i Hi) as [x Hx]. apply wp_bind. by apply wp_unwrap with x. Qed.
(** The result with room for [room] more words: the words that fit, and how much
    of the string was visited. *)
Definition split_result (room argc : nat) (ws : list (Z * list Z)) (argv : list Z) : Z * list Z * nat :=
  match ws !! room with
  | None => (1, list_inserts argc (map fst ws ++ [0]) argv, (argc + length ws)%nat)
  | Some _ => (0, list_inserts argc (map fst (take room ws)) argv, (argc + room)%nat)
  end.
Definition visited (room : nat) (pos : Z) (s : list Z) : list Z :=
  match words t pos s !! room with None => s | Some (a, _) => take (Z.to_nat (a - pos)) s end.
Lemma visited_step room pos a w s :
  Forall (λ c, sep c) a → w ≠ [] → Forall (λ c, ¬ sep c) w → ends_word t s → chars s →
  visited (S room) pos (a ++ w ++ s) = a ++ w ++ visited room (pos + size a + size w) s.
Proof.
  intros Ha Hne Hw Hs Hc. unfold visited. rewrite words_sep, words_word by done. cbn [lookup list_lookup].
  change (list_lookup room ?l) with (l !! room). destruct (words _ _ _ !! room) as [[b x]|] eqn:Hx; [|done].
  apply words_at in Hx as (u & v & -> & -> & _); [|done].
  replace (Z.to_nat (pos + size a + size w + size u - pos)) with (length a + (length w + length u))%nat by lia.
  rewrite !take_app_add. do 2 f_equal. f_equal. lia.
Qed.
Lemma wp_strsplit_loop fuel s p argv argc Q m :
  cstr p s m → cstr q t m → (q + size t + 1 ≤ p ∨ p + size s + 1 ≤ q) → (length s + length t < fuel)%nat →
  length argv = 16%nat → (argc ≤ 15)%nat →
  Q (split_result (15 - argc) argc (words t p s) argv) (put p (blanked t (visited (15 - argc) p s)) m) →
  wp (strsplit_loop fuel (w32 p) (w32 q) argv argc) Q m.
Proof using Hq0.
  revert s p argv argc m. induction fuel as [|fuel IH]; intros s p argv argc m Hs Ht Hd Hf Hl Hargc HQ; [lia|]. cbn [strsplit_loop].
  destruct (span_word (λ c, sep c) s) as (a & r & -> & Ha & Hr).
  apply wp_bind, wp_trim_loop with a r; [done..|]. set (m1 := put p (replicate (length a) 0) m).
  pose proof (cstr_drop _ _ _ _ Hs) as (Hr1 & Hata & Hra & Hwa).
  assert (cstr (p + size a) r m1) as Hrm by (apply cstr_put_out; [rewrite length_replicate; lia|done]).
  assert (cstr q t m1) as Htm by (apply cstr_put_out; [rewrite length_replicate, length_app in *; lia|done]).
  destruct (span_word (λ c, ¬ sep c) r) as (w & r2 & -> & Hw & Hr2).
  assert (ends_word t r2) as Hend by (destruct r2; [done|by apply dec_stable in Hr2]).
  destruct w as [|c w].
  { destruct r2 as [|d r2]; [|done]. cbn [app] in *. apply wp_bind, wp_load_zero; [done|]. rewrite decide_True by done.
    apply wp_bind, wp_set_arg; [lia|]. apply wp_ret. unfold split_result, visited in HQ.
    rewrite words_sep in HQ by done. cbn [words] in HQ. rewrite lookup_nil in HQ. cbn [map app list_inserts length] in HQ.
    rewrite Nat.add_0_r, app_nil_r, blanked_sep in HQ by done. done. }
  apply wp_bind, wp_load_char with c (w ++ r2); [done|]. apply cstr_cons in Hrm as Hcons. destruct Hcons as (_ & Hc & _).
  rewrite decide_False by lia. unfold MAX_ARGUMENTS.
  destruct (decide (Z.of_nat argc = 16 - 1)) as [H15|H15].
  { apply wp_ret. replace (15 - argc)%nat with 0%nat in HQ by lia. unfold split_result, visited in HQ.
    rewrite words_sep, words_word in HQ by done. cbn [lookup list_lookup firstn map list_inserts] in HQ.
    replace (Z.to_nat (p + size a - p)) with (length a) in HQ by lia.
    rewrite take_app_length, blanked_sep, Nat.add_0_r in HQ by done. done. }
  apply wp_bind, wp_set_arg; [lia|]. apply wp_bind.
  apply wp_scan_loop with (c :: w) r2; [done|done| |done|done|]. { rewrite !length_app in *. lia. }
  pose proof (cstr_drop _ _ _ _ Hrm) as (Hr2m & Hatw & Hrw & Hww).
  set (p2 := p + size a + size (c :: w)) in *.
  assert (chars r2) as Hcr2 by apply Hr2m.
  apply IH with r2; try done.
  - rewrite !length_app in Hd. lia.
  - rewrite !length_app in Hf. cbn [length] in Hf. lia.
  - by rewrite length_insert.
  - lia.
  - replace (15 - argc)%nat with (S (15 - S argc)) in HQ by lia.
    rewrite visited_step in HQ by done. fold p2 in HQ. rewrite !blanked_app, blanked_sep, blanked_word, !put_app in HQ by done.
    rewrite length_replicate in HQ. fold m1 in HQ. rewrite (put_same (p + size a) (c :: w)) in HQ by done. fold p2 in HQ.
    unfold split_result in *. rewrite words_sep, words_word in HQ by done. fold p2 in HQ.
    cbn [lookup list_lookup] in HQ. change (list_lookup ?k ?l) with (l !! k) in HQ. rewrite Hwa.
    destruct (words t p2 r2 !! (15 - S argc)%nat); cbn [map fst app list_inserts firstn length] in HQ.
    + replace (S argc + (15 - S argc))%nat with (argc + S (15 - S argc))%nat by lia. rewrite <- list_insert_inserts_lt by lia. done.
    + replace (S argc + length (words t p2 r2))%nat with (argc + S (length (words t p2 r2)))%nat by lia.
      rewrite <- list_insert_inserts_lt by lia. done.
Qed.
End loops.

(** ** The arguments *)
Section args.
Context (t : list Z).
Notation sep c := (c ∈ t).
Lemma words_ordered s pos i j a w b x :
  chars s → words t pos s !! i = Some (a, w) → words t pos s !! j = Some (b, x) → (i < j)%nat → a + size w < b.
Proof.
  intros Hs. remember (length s) as n eqn:Hn. revert s pos i j Hs Hn.
  induction (lt_wf n) as [n _ IH]. intros s pos i j Hs -> Hi Hj Hij.
  destruct (span_word (λ c, sep c) s) as (e & r & -> & He & Hr).
  rewrite words_sep in Hi, Hj by done. destruct (span_word (λ c, ¬ sep c) r) as (y & z & -> & Hy & Hz).
  assert (ends_word t z) as Hez by (destruct z as [|d z]; [done|by apply dec_stable in Hz]).
  destruct y as [|c y].
  { destruct z as [|d z]; [done|]. cbn in Hr, Hez. done. }
  rewrite words_word in Hi, Hj by done. apply Forall_app in Hs as [_ [_ Hs]%Forall_app].
  destruct j as [|j]; [lia|]. cbn [lookup list_lookup] in Hi, Hj. destruct i as [|i]; cbn [lookup list_lookup] in Hi.
  - injection Hi as <- <-. apply words_at in Hj as (u & v & -> & -> & Hne & Hx & _); [|done].
    destruct u as [|d u]; [|cbn [length]; lia]. destruct x as [|d x]; [done|]. by inversion Hx.
  - assert (length z < length (e ++ (c :: y) ++ z))%nat as Hlt by (rewrite !length_app; cbn; lia).
    eapply (IH (length z) Hlt z _ i j Hs eq_refl Hi Hj). lia.
Qed.
(** What is visited reaches over the end of each word that is reported. *)
Lemma visited_covers room p u w v i :
  chars (u ++ w ++ v) → words t p (u ++ w ++ v) !! i = Some (p + size u, w) → (i < room)%nat →
  ∃ k, visited t room p (u ++ w ++ v) = take k (u ++ w ++ v) ∧ (length u + length w < k ∨ length (u ++ w ++ v) ≤ k)%nat.
Proof.
  intros Hc Hi Hlt. unfold visited. destruct (words t p _ !! room) as [[b x]|] eqn:Hx.
  - exists (Z.to_nat (b - p)). split; [done|left]. assert (p + size u + size w < b) by (eapply words_ordered; done). lia.
  - exists (length (u ++ w ++ v)). split; [by rewrite take_ge by lia|lia].
Qed.
Lemma lookup_blanked s i : blanked t s !! i = (λ c, if decide (sep c) then 0 else c) <$> s !! i.
Proof. apply list_lookup_fmap. Qed.
(** In the blanked memory every reported word is a string. *)
Lemma word_is_string room p s m i a w :
  cstr p s m → words t p s !! i = Some (a, w) → (i < room)%nat → cstr a w (put p (blanked t (visited t room p s)) m).
Proof.
  intros (Hat & Hc & Hr) Hi Hlt. apply words_at in Hi as Hw; [|done]. destruct Hw as (u & v & -> & -> & Hne & Hw & Hv).
  destruct (visited_covers room p u w v i Hc Hi Hlt) as (k & -> & Hk).
  apply Forall_app in Hc as [Hcu [Hcw Hcv]%Forall_app]. unfold in_range in Hr. rewrite !length_app in *.
  split_and!; [|done|unfold in_range; lia].
  intros j x Hj. rewrite lookup_put, length_blanked, length_take, !length_app.
  assert (m !! (p + size u + Z.of_nat j) = ((u ++ w ++ v) ++ [0]) !! (length u + j)%nat) as Hm.
  { destruct (lookup_lt_is_Some_2 ((u ++ w ++ v) ++ [0]) (length u + j)) as [y Hy].
    - apply lookup_lt_Some in Hj. rewrite !length_app in *. cbn in *. lia.
    - rewrite Hy. rewrite <- (Hat _ _ Hy). f_equal. lia. }
  destruct (decide (j < length w)%nat) as [Hjw|Hjw].
  - rewrite lookup_app_l in Hj by done. rewrite decide_True by lia.
    replace (Z.to_nat (p + size u + Z.of_nat j - p)) with (length u + j)%nat by lia.
    rewrite lookup_blanked, lookup_take_lt by lia. rewrite lookup_app_r by lia.
    replace (length u + j - length u)%nat with j by lia. rewrite lookup_app_l by done. rewrite Hj. cbn.
    rewrite decide_False; [done|]. rewrite Forall_forall in Hw. apply Hw. by eapply list_elem_of_lookup_2.
  - assert (j = length w) as ->. { apply lookup_lt_Some in Hj. rewrite length_app in Hj. cbn in Hj. lia. }
    rewrite lookup_app_r, Nat.sub_diag in Hj by lia. cbn in Hj. simplify_eq.
    destruct v as [|d v]; cbn [length] in *.
    + rewrite decide_False by lia. rewrite Hm, lookup_app_r by (rewrite !length_app; cbn; lia).
      rewrite !length_app. cbn. by replace (length u + length w - (length u + (length w + 0)))%nat with 0%nat by lia.
    + rewrite decide_True by lia. replace (Z.to_nat (p + size u + size w - p)) with (length u + length w)%nat by lia.
      rewrite lookup_blanked, lookup_take_lt by lia. rewrite lookup_app_r by lia.
      replace (length u + length w - length u)%nat with (length w) by lia.
      rewrite lookup_app_r, Nat.sub_diag by lia. cbn. by rewrite decide_True by done.
Qed.
End args.

(** C29: [strsplit] puts the addresses of the words of the string in the argument
    array in order: all of them and a null pointer with result 1 when there are at
    most fifteen, else the first fifteen with result 0. Each word it reports is a
    zero-terminated string at its address, and no byte outside the string changes. *)
Theorem strsplit_correct fuel s t p q argv m :
  cstr p s m → cstr q t m → 0 < q → (q + size t + 1 ≤ p ∨ p + size s + 1 ≤ q) →
  (length s + length t < fuel)%nat → length argv = 16%nat →
  wp (strsplit fuel p q argv) (λ r m',
    let ws := words t p s in
    r = (if decide (length ws ≤ 15)%nat
         then (1, list_inserts 0 (map fst ws ++ [0]) argv, length ws)
         else (0, list_inserts 0 (map fst (take 15 ws)) argv, 15%nat)) ∧
    (∀ i a w, ws !! i = Some (a, w) → (i < 15)%nat → cstr a w m') ∧
    ∀ a, ¬ p ≤ a < p + size s → m' !! a = m !! a) m.
Proof.
  intros Hs Ht Hq Hd Hf Hl. unfold strsplit. apply wp_bind, wp_set_arg; [lia|].
  assert (w32 p = p) as Hwp by (destruct Hs as (_ & _ & Hr); unfold in_range in Hr; apply w32_small; lia).
  assert (w32 q = q) as Hwq by (destruct Ht as (_ & _ & Hr); unfold in_range in Hr; apply w32_small; lia).
  rewrite <- Hwp at 1. rewrite <- Hwq. apply wp_strsplit_loop with t s; try done; [by rewrite length_insert|lia|].
  replace (15 - 0)%nat with 15%nat by lia. split_and!.
  - unfold split_result. destruct (words t p s) as [|[a w] ws] eqn:Hw; cbn [lookup list_lookup].
    + cbn. by rewrite list_insert_insert_eq.
    + change (list_lookup 14%nat ws) with (ws !! 14%nat). destruct (ws !! 14%nat) as [x|] eqn:Hx.
      * apply lookup_lt_Some in Hx. rewrite decide_False by (cbn; lia). cbn [map firstn list_inserts fst app length].
        rewrite <- list_insert_inserts_lt by lia.
        by rewrite list_insert_insert_eq.
      * apply lookup_ge_None in Hx. rewrite decide_True by (cbn; lia). cbn [map list_inserts fst app length].
        rewrite <- list_insert_inserts_lt by lia.
        by rewrite list_insert_insert_eq.
  - intros i a w Hi Hlt. by eapply word_is_string.
  - intros a Ha. rewrite lookup_put_out; [done|]. rewrite length_blanked.
    assert (length (visited t 15 p s) ≤ length s)%nat; [|lia]. unfold visited.
    destruct (words t p s !! 15%nat) as [[b x]|]; [rewrite length_take; lia|lia].
Qed.
(** "  ls -a" split at blanks. *)
Definition w_line : list Z := [32; 32; 108; 115; 32; 45; 97].
Definition w_seps : list Z := [32; 9].
Definition w_mem : bmem := put 4096 (w_line ++ [0]) (put 8192 (w_seps ++ [0]) ∅).
Lemma strsplit_correct_witness :
  wp (strsplit 16 4096 8192 (replicate 16 7)) (λ r m',
    let ws := words w_seps 4096 w_line in
    r = (if decide (length ws ≤ 15)%nat
         then (1, list_inserts 0 (map fst ws ++ [0]) (replicate 16 7), length ws)
         else (0, list_inserts 0 (map fst (take 15 ws)) (replicate 16 7), 15%nat)) ∧
    (∀ i a w, ws !! i = Some (a, w) → (i < 15)%nat → cstr a w m') ∧
    ∀ a, ¬ 4096 ≤ a < 4096 + size w_line → m' !! a = w_mem !! a) w_mem ∧
  words w_seps 4096 w_line = [(4098, [108; 115]); (4101, [45; 97])].
Proof.
  split; [|reflexivity]. apply (strsplit_correct 16 w_line w_seps 4096 8192 (replicate 16 7) w_mem).
  - apply cstr_put; [repeat constructor|]. unfold in_range. cbn. lia.
  - apply cstr_put_out; [cbn; lia|]. apply cstr_put; [repeat constructor|]. unfold in_range. cbn. lia.
  - lia.
  - cbn. lia.
  - cbn. lia.
  - done.
Defined.
