(* ===== verification/Spaces.v ===== *)
(** * Several address spaces

    The page tables of a set of environments on one frame table: mapping a page of
    one of them, on a frame of its own or on a frame that is mapped elsewhere too,
    leaves the other pages of all environments alone and counts the reference. *)

From S2P Require Import Prelude Queue Paging PagingSpec PagingThm WorkingSet VMSpec FaultSpec VMPaging.

Section spaces.
Context {E : Type} {PE : PageEnv E} {PO : PageEnvOk E}.
(** The page tables in use, the references that are not entries of theirs, and
    the directories. *)
Context (TS : gset Z) (pins : Z → nat) (dirs : gset Z).
Implicit Types s : mm * E.
(** The descriptors of this file are those of the page tables. *)
Notation references := Paging.references.

Record spaces_ok (A : gset Z) s : Prop := {
  sp_mm : mm_inv TS pins A s.1;
  sp_space d : d ∈ dirs → space_ok TS pins d s;
  sp_apart d d' va va' : d ∈ dirs → d' ∈ dirs → user va → user va' → has_table d va s → has_table d' va' s →
    ptab d va s = ptab d' va' s → d = d'
}.
(** The entry of page [va] in the space of directory [d], and the references to a frame. *)
Definition upte (d va : Z) s : Z := if decide (has_table d va s) then pte_of (ptab d va s) va s.1 else 0.
Definition frefs (i : Z) s : Z := default 0 (references <$> frames_info s.1 !! Z.to_nat i).
Definition mapped_somewhere (i : Z) s : Prop := (0 < count_refs (arrays s.1) TS i)%nat.
(** No page of any space changes but those with [P]. *)
Definition same_pages (P : Z → Z → Prop) s s' : Prop :=
  ∀ d va, d ∈ dirs → user va → (has_table d va s' ↔ has_table d va s) ∧ (¬ P d va → upte d va s' = upte d va s).

Lemma upte_tabled d va s : has_table d va s → upte d va s = pte_of (ptab d va s) va s.1.
Proof. intros. unfold upte. by rewrite decide_True. Qed.
Lemma frefs_lookup i s x : frames_info s.1 !! Z.to_nat i = Some x → frefs i s = references x.
Proof. intros Hx. unfold frefs. by rewrite Hx. Qed.
Lemma space_tab_in A d va s : spaces_ok A s → d ∈ dirs → user va → has_table d va s → ptab d va s ∈ TS ∧ ptab d va s ∉ dirs.
Proof.
  intros Hs Hd Hu Ht. destruct (so_table _ _ _ _ (sp_space _ _ Hs d Hd) va Hu Ht) as (Hin & _). split; [done|].
  intros Hn. by destruct (so_dir _ _ _ _ (sp_space _ _ Hs _ Hn)).
Qed.
Lemma upte_page d va va' s : user va → user va' → page va = page va' → upte d va s = upte d va' s.
Proof.
  intros Hu Hu' Hp. destruct (page_indices va va' Hu Hu' Hp) as [HD HT].
  assert (pde_of d va s.1 = pde_of d va' s.1) as Hpde by (unfold pde_of; by rewrite HD).
  assert (has_table d va s ↔ has_table d va' s) as Hht by (unfold has_table; by rewrite Hpde).
  assert (ptab d va s = ptab d va' s) as Htab by (unfold ptab; by rewrite Hpde). destruct (decide (has_table d va s)) as [Ht|Ht].
  - rewrite !upte_tabled by (done || by apply Hht). unfold pte_of. by rewrite Htab, HT.
  - unfold upte. rewrite !decide_False; [done|by rewrite <- Hht|done].
Qed.
Lemma same_pages_tr P1 P2 s1 s2 s3 :
  same_pages P1 s1 s2 → same_pages P2 s2 s3 → same_pages (λ d va, P1 d va ∨ P2 d va) s1 s3.
Proof.
  intros H1 H2 d va Hd Hu. destruct (H1 d va Hd Hu) as [Ht1 Hp1], (H2 d va Hd Hu) as [Ht2 Hp2].
  split; [by rewrite Ht2|]. intros Hn. rewrite Hp2, Hp1 by tauto. done.
Qed.

(** A step that changes tables only inside and keeps the frames of tables. *)
Lemma spaces_step A A' s s' :
  spaces_ok A s → mm_inv TS pins A' s'.1 → s'.2 = s.2 → (∀ d, d ∈ dirs → arrays s'.1 !! d = arrays s.1 !! d) →
  (∀ i, 0 ≤ i → (0 < pins i)%nat → count_refs (arrays s.1) TS i = 0%nat →
     frames_info s'.1 !! Z.to_nat i = frames_info s.1 !! Z.to_nat i ∧ count_refs (arrays s'.1) TS i = 0%nat) →
  spaces_ok A' s' ∧ ∀ d, d ∈ dirs → (∀ va, has_table d va s' ↔ has_table d va s) ∧
    ∀ va, user va → has_table d va s → ptab d va s' = ptab d va s.
Proof.
  intros Hs Hmm HE Hdirs Hfr.
  assert (Hst : ∀ d, d ∈ dirs → space_ok TS pins d s' ∧ (∀ va, has_table d va s' ↔ has_table d va s) ∧
    ∀ va, user va → has_table d va s → ptab d va s' = ptab d va s).
  { intros d Hd. apply space_step; try done; [by apply Hs|by apply Hdirs]. }
  split; [|intros d Hd; by apply Hst]. split; [done|by intros; apply Hst|].
  intros d d' va va' Hd Hd' Hu Hu' Ht Ht'. destruct (Hst d Hd) as (_ & H1 & H2), (Hst d' Hd') as (_ & H1' & H2').
  rewrite H1 in Ht. rewrite H1' in Ht'. rewrite H2, H2' by done. by apply (sp_apart _ _ Hs).
Qed.

Lemma wp_spaces_alloc A fi rest s (Q : Z * Z → mm * E → Prop) :
  spaces_ok A s → free_frame_list s.1 = fi :: rest →
  (∀ s', spaces_ok ({[fi]} ∪ A) s' → fi ∉ A → 0 ≤ fi → s'.2 = s.2 → free_frame_list s'.1 = rest →
     same_pages (λ _ _, False) s s' → arrays s'.1 = arrays s.1 → number_of_frames s'.1 = number_of_frames s.1 →
     (∀ i, frefs i s' = frefs i s) → Q (0, fi) s') →
  wp Paging.allocate_frame Q s.
Proof.
  intros Hs Hfree HQ. pose proof (sp_mm _ _ Hs) as HI. destruct (rel_pop _ _ _ _ _ _ HI Hfree) as (HI' & Hni & Hfi & x & Hx & Hx0).
  assert (HA : fi ∉ A) by (apply (inv_free _ _ _ _ HI); rewrite Hfree; by left).
  eapply wp_allocate_frame; [apply HI|exact Hfree|exact Hni|exact Hx|]. set (m' := set_free_list _ _) in *.
  destruct (spaces_step A ({[fi]} ∪ A) s (m', s.2) Hs HI') as [Hs' Hst]; [done|done| |].
  { intros i Hi Hp Hc. split; [|done]. cbn. apply list_lookup_insert_ne. intros Heq. apply Z2Nat.inj in Heq; [|done..].
    destruct (pinned_not_free TS pins A i s.1 HI Hp) as [Hn _]. apply Hn. rewrite Hfree, <- Heq. by left. }
  apply HQ; try done.
  - intros d va Hd Hu. destruct (Hst d Hd) as [Hht Htab]. split; [apply Hht|]. intros _. destruct (decide (has_table d va s)) as [Ht|Ht].
    + rewrite !upte_tabled by (done || by apply Hht). by rewrite Htab.
    + unfold upte. rewrite !decide_False; [done|done|by rewrite Hht].
  - unfold number_of_frames. cbn. by rewrite length_insert.
  - intros i. unfold frefs. cbn. pose proof (lookup_lt_Some _ _ _ Hx). destruct (decide (Z.to_nat i = Z.to_nat fi)) as [->|Hne].
    + rewrite list_lookup_insert_eq, Hx by done. cbn. by rewrite Hx0.
    + by rewrite list_lookup_insert_ne by done.
Qed.

(** Mapping a page that is not mapped. The frame may be a new one or have mappings. *)
Lemma wp_spaces_map A d fi va perm s (Q : Z → mm * E → Prop) :
  spaces_ok A s → d ∈ dirs → user va → has_table d va s → maps (upte d va s) = false →
  0 ≤ fi < number_of_frames s.1 → frefs fi s + 1 < 65536 → fi ∈ A ∨ mapped_somewhere fi s →
  0 ≤ perm < 4096 → Z.land perm PERM_BUFFERED = 0 →
  (∀ s', spaces_ok (A ∖ {[fi]}) s' → s'.2 = s.2 → same_pages (λ d' va', d' = d ∧ page va' = page va) s s' →
     PPN (upte d va s') = fi → maps (upte d va s') = true →
     Z.land (upte d va s') 4095 = mapped_bits (upte d va s) perm →
     free_frame_list s'.1 = free_frame_list s.1 → number_of_frames s'.1 = number_of_frames s.1 →
     (∀ i, frefs i s' = frefs i s + (if decide (Z.to_nat i = Z.to_nat fi) then 1 else 0)) →
     (∀ i, mapped_somewhere i s → mapped_somewhere i s') → mapped_somewhere fi s' → Q 0 s') →
  wp (Paging.map_frame d fi va perm) Q s.
Proof.
  intros Hs Hd Hu Ht Hm Hfi Hrefs Hlive Hp Hpb HQ. pose proof (sp_mm _ _ Hs) as HI. pose proof (sp_space _ _ Hs d Hd) as Hsd.
  destruct (space_tab_in A d va s Hs Hd Hu Ht) as [Hin Hnd]. rewrite upte_tabled in * by done.
  set (t := ptab d va s) in *. set (e := pte_of t va s.1) in *. unfold number_of_frames in Hfi.
  destruct (lookup_lt_is_Some_2 (frames_info s.1) (Z.to_nat fi) ltac:(lia)) as [x Hx]. pose proof (lookup_lt_Some _ _ _ Hx) as Hlt.
  rewrite (frefs_lookup fi s x Hx) in Hrefs.
  assert (Hcounted : ∀ i, mapped_somewhere i s → (0 < count_refs (arrays s.1) TS i)%nat) by done.
  assert (Hx0 : references x = 0 → fi ∈ A).
  { intros H0. destruct Hlive as [|Hc]; [done|]. destruct (inv_refs _ _ _ _ HI fi x ltac:(lia) Hx) as [Hr _].
    unfold mapped_somewhere in Hc. lia. }
  assert (Hpin : ∀ i, 0 ≤ i → (0 < pins i)%nat → count_refs (arrays s.1) TS i = 0%nat → i ≠ fi).
  { intros i Hi Hpi Hc ->. destruct Hlive as [HA|Hl]; [by destruct (pinned_not_free TS pins A fi s.1 HI Hpi)|].
    unfold mapped_somewhere in Hl. lia. }
  eapply (wp_map_frame TS (λ i, Z.of_nat (pins i)) A d fi va perm t x);
    [exact HI|apply pins_nonneg|exact Hin|by eapply space_resolves|lia|exact Hx|lia|done|done|done| |].
  { fold e. unfold maps_frame. rewrite Hm. done. }
  intros m m' _ Hmm (z & Hz & Hm'eq) HI'. fold e in Hmm. rewrite Hm in Hmm. subst m. rewrite Hx in Hz. injection Hz as <-.
  fold e in Hm'eq. set (e' := CONSTRUCT_ENTRY (to_physical_address fi) (mapped_bits e perm)) in *.
  destruct (rel_pte _ _ _ _ t va HI Hin) as (T & HT & He & Hok). fold e in He, Hok.
  destruct (entry_ok_mapped (number_of_frames s.1) e fi perm) as (Hok' & Hm' & HP & Hw & _ & HL);
    [apply HI|apply Hok|apply Hok|unfold number_of_frames; lia|done|done|]. fold e' in Hok', Hm', HP, Hw, HL.
  assert (Hcnt : ∀ i, (count_refs (arrays m') TS i = count_refs (arrays s.1) TS i + (if maps_frame i e' then 1 else 0))%nat).
  { intros i. rewrite Hm'eq. cbn. unfold table_at. rewrite HT. cbn.
    pose proof (count_refs_insert (arrays s.1) TS i t T _ _ e' Hin HT He) as Hc. unfold maps_frame at 1 in Hc. rewrite Hm in Hc. cbn in Hc. lia. }
  destruct (spaces_step A (A ∖ {[fi]}) s (m', s.2) Hs HI') as [Hs' Hst]; [done| | |].
  { intros d' Hd'. rewrite Hm'eq. cbn. rewrite lookup_insert_ne; [done|]. intros ->. done. }
  { intros i Hi Hpi Hc. pose proof (Hpin i Hi Hpi Hc) as Hne. cbn [fst]. split.
    - rewrite Hm'eq. cbn. apply list_lookup_insert_ne. lia.
    - rewrite Hcnt, Hc. unfold maps_frame. rewrite Hm', HP, bool_decide_false by done. done. }
  destruct (Hst d Hd) as [Hht Htab].
  assert (Hnew : upte d va (m', s.2) = e').
  { rewrite upte_tabled by (by apply Hht). rewrite Htab by done. fold t. cbn [fst]. rewrite Hm'eq. apply (pte_set_pte TS (λ i, Z.of_nat (pins i)) A s.1 t va e' HI Hin). }
  apply HQ; cbn [fst snd]; rewrite ?Hnew; try done.
  - intros d' va' Hd' Hu'. destruct (Hst d' Hd') as [Hht' Htab']. split; [apply Hht'|]. intros Hne.
    destruct (decide (has_table d' va' s)) as [Ht'|Ht'].
    + rewrite !upte_tabled by (done || by apply Hht'). rewrite Htab' by done. cbn [fst]. rewrite Hm'eq.
      apply (pte_set_other t va e' (ptab d' va' s) va' s.1).
      destruct (decide (ptab d' va' s = t)) as [Heq|]; [|by left]. right. intros HPT. apply Hne.
      assert (d' = d) as -> by exact (sp_apart _ _ Hs d' d va' va Hd' Hd Hu' Hu Ht' Ht Heq). split; [done|].
      apply page_of_indices; [done|done| |done]. exact (so_inj _ _ _ _ Hsd va' va Hu' Hu Ht' Ht Heq).
    + unfold upte. rewrite !decide_False; [done|done|by rewrite Hht'].
  - by rewrite Hm'eq.
  - rewrite Hm'eq. unfold number_of_frames. cbn. by rewrite length_insert.
  - intros i. unfold frefs. cbn [fst]. rewrite Hm'eq. cbn. case_decide as Hi.
    + rewrite Hi, list_lookup_insert_eq, Hx by done. done.
    + rewrite list_lookup_insert_ne by done. lia.
  - intros i Hi. unfold mapped_somewhere in *. cbn [fst]. rewrite Hcnt. lia.
  - unfold mapped_somewhere. cbn [fst]. rewrite Hcnt. unfold maps_frame. rewrite Hm', HP, bool_decide_true by done. cbn. lia.
Qed.
End spaces.
