(* ===== verification/Share.v ===== *)
(** * Shared memory objects (kern/mem/shared_memory_manager.c)

    The list of shared objects, each with a name, the environment that owns it
    and the frames of its pages. An object is named by its address in the kernel
    heap; [framesStorage] is the address of its array of frames. Names are
    strings in the memory of the caller; the name in an object is an array of 64
    bytes. The directory of the running environment is an argument [myenv]. *)

From S2P Require Import Prelude Queue CString Paging.

Definition E_NO_SHARE : Z := -14.
Definition E_SHARED_MEM_EXISTS : Z := -15.
Definition E_SHARED_MEM_NOT_EXISTS : Z := -16.
Definition SHARE_SIZE : Z := 96.       (* sizeof(struct Share) *)
Definition POINTER_SIZE : Z := 4.

Record Share := SHARE {
  ID : Z;
  ownerID : Z;
  name : list Z;             (* char name[64] *)
  share_size : Z;            (* int *)
  share_references : Z;
  isWritable : Z;
  framesStorage : Z
}.
Record shares := SHARES {
  shares_list : list Z;
  shareslock : bool;
  objects : gmap Z Share;
  storages : gmap Z (list Z);
  caller_memory : bmem
}.
Definition set_shares_list (x : list Z) (h : shares) : shares :=
  SHARES x (shareslock h) (objects h) (storages h) (caller_memory h).
Definition set_shareslock (x : bool) (h : shares) : shares :=
  SHARES (shares_list h) x (objects h) (storages h) (caller_memory h).
Definition set_objects (x : gmap Z Share) (h : shares) : shares :=
  SHARES (shares_list h) (shareslock h) x (storages h) (caller_memory h).
Definition set_storages (x : gmap Z (list Z)) (h : shares) : shares :=
  SHARES (shares_list h) (shareslock h) (objects h) x (caller_memory h).
Definition set_ID (i : Z) (o : Share) : Share :=
  SHARE i (ownerID o) (name o) (share_size o) (share_references o) (isWritable o) (framesStorage o).
Definition add_reference (o : Share) : Share :=
  SHARE (ID o) (ownerID o) (name o) (share_size o) (w32 (share_references o + 1)) (isWritable o) (framesStorage o).

(** The contents of fresh memory: the ID that a new object has before it is set. *)
Class Fresh (E : Type) := fresh_word : Z → mm * E → Z.

Section code.
Context {X : Type} `{PageEnv (shares * X)} `{Fresh (shares * X)}.
Notation SH := (M (mm * (shares * X))).
(** The number of characters of names that a comparison visits at most. *)
Context (fuel : nat).

Definition sget {A} (f : shares → A) : SH A := gets (λ s, f s.2.1).
Definition sset (f : shares → shares) : SH unit := modify (λ s, (s.1, (f s.2.1, s.2.2))).
Definition get_share (p : Z) : SH Share := m ← sget objects; unwrap (m !! p).
Definition upd_share (p : Z) (f : Share → Share) : SH unit :=
  o ← get_share p; sset (λ h, set_objects (<[p := f o]> (objects h)) h).
(** A character of the caller's string, and of the name of an object. *)
Definition caller_char (p : Z) : SH Z := m ← sget caller_memory; unwrap (m !! w32 p).
Definition name_char (l : list Z) (i : Z) : SH Z := unwrap (l !! Z.to_nat i).

Definition holding_shareslock : SH bool := sget shareslock.
Definition acquire_shareslock : SH unit := h ← sget shareslock; assert_ (negb h) ;; sset (set_shareslock true).
Definition release_shareslock : SH unit := h ← sget shareslock; assert_ h ;; sset (set_shareslock false).

Definition sharing_init : SH unit := sset (set_shares_list []) ;; sset (set_shareslock false).
(** [LIST_FOREACH] with the test of [find_share]. *)
Fixpoint find_loop (ownerID_ name_ : Z) (l : list Z) : SH Z :=
  match l with
  | [] => mret NULL
  | shr :: l =>
      o ← get_share shr;
      if decide (ownerID o = ownerID_) then
        c ← compare_loop caller_char (name_char (name o)) fuel name_ 0;
        if decide (c = 0) then mret shr else find_loop ownerID_ name_ l
      else find_loop ownerID_ name_ l
  end.
Definition find_share (ownerID_ name_ : Z) : SH Z :=
  wasHeld ← holding_shareslock;
  when (negb wasHeld) acquire_shareslock ;;
  l ← sget shares_list;
  ret ← find_loop ownerID_ name_ l;
  when (negb wasHeld) release_shareslock ;;
  mret ret.
Definition size_of_shared_object (ownerID_ shareName : Z) : SH Z :=
  ptr_share ← find_share ownerID_ shareName;
  if decide (ptr_share = NULL) then mret E_SHARED_MEM_NOT_EXISTS
  else o ← get_share ptr_share; mret (share_size o).

(** [strncpy(ostazShared->name, shareName, 64)]: the characters that are written. *)
Fixpoint copy_name (n : nat) (src : Z) : SH (list Z) :=
  match n with
  | O => mret []
  | S n =>
      c ← caller_char src;
      r ← copy_name n (if decide (c = 0) then src else w32 (src + 1));
      mret (c :: r)
  end.
Definition frames_of (size : Z) : Z := ROUNDUP size PAGE_SIZE / PAGE_SIZE.
Definition alloc_share (ownerID_ shareName size isWritable_ : Z) : SH Z :=
  acquire_shareslock ;;
  p ← kmalloc SHARE_SIZE;
  release_shareslock ;;
  if decide (p = NULL) then undef else   (* ostazShared->ownerID *)
  i ← gets (fresh_word p);
  n ← copy_name 64 shareName;
  sset (λ h, set_objects (<[p := SHARE i ownerID_ n (i32 size) 1 (w8 isWritable_) NULL]> (objects h)) h) ;;
  let framesNum := frames_of size in
  a ← kmalloc (w32 (POINTER_SIZE * framesNum));
  upd_share p (λ o, SHARE (ID o) (ownerID o) (name o) (share_size o) (share_references o) (isWritable o) a) ;;
  if decide (a = NULL) then
    acquire_shareslock ;;
    kfree p ;;
    sset (λ h, set_objects (delete p (objects h)) h) ;;
    release_shareslock ;;
    mret NULL
  else
    sset (λ h, set_storages (<[a := replicate (Z.to_nat framesNum) 0]> (storages h)) h) ;;
    mret p.

(** [framesStorage[i]]. *)
Definition stored_frame (a : Z) (i : nat) : SH Z :=
  m ← sget storages; l ← unwrap (m !! a); unwrap (l !! i).
Definition store_frame (a : Z) (i : nat) (fi : Z) : SH unit :=
  m ← sget storages; l ← unwrap (m !! a); _ ← unwrap (l !! i);
  sset (λ h, set_storages (<[a := <[i := fi]> l]> (storages h)) h).
(** [for (i = 0; i < neededPages; i++)]: false when the loop returns early. *)
Fixpoint create_loop (myenv p va : Z) (n i : nat) : SH bool :=
  match n with
  | O => mret true
  | S n =>
      r ← allocate_frame;
      if decide (r.1 < 0) then mret false else
      k ← map_frame myenv r.2 va (Z.lor PERM_USER PERM_WRITEABLE);
      if decide (k < 0) then mret false else
      o ← get_share p;
      store_frame (framesStorage o) i r.2 ;;
      create_loop myenv p (w32 (va + PAGE_SIZE)) n (S i)
  end.
Definition create_shared_object (myenv ownerID_ shareName size isWritable_ virtual_address : Z) : SH Z :=
  q ← find_share ownerID_ shareName;
  if decide (q ≠ NULL) then mret E_SHARED_MEM_EXISTS else
  p ← alloc_share ownerID_ shareName size isWritable_;
  if decide (p = NULL) then mret E_NO_SHARE else
  acquire_shareslock ;;
  l ← sget shares_list;
  l' ← lq_insert_head p l;
  sset (set_shares_list l') ;;
  release_shareslock ;;
  upd_share p (set_ID (Z.land (w32 virtual_address) 2147483647)) ;;
  b ← create_loop myenv p (w32 virtual_address) (Z.to_nat (frames_of size)) 0;
  if (b : bool) then o ← get_share p; mret (ID o) else mret E_NO_SHARE.

(** [LIST_FOREACH_SAFE] with the test of [get_shared_object]. *)
Fixpoint get_loop (ownerID_ shareName : Z) (l : list Z) : SH Z :=
  match l with
  | [] => mret NULL
  | shr :: l =>
      o ← get_share shr;
      if decide (ownerID o = ownerID_) then
        c ← compare_loop (name_char (name o)) caller_char fuel 0 shareName;
        if decide (c = 0) then upd_share shr add_reference ;; mret shr else get_loop ownerID_ shareName l
      else get_loop ownerID_ shareName l
  end.
Fixpoint map_loop (myenv a va permission : Z) (n i : nat) : SH bool :=
  match n with
  | O => mret true
  | S n =>
      fi ← stored_frame a i;
      k ← map_frame myenv fi va permission;
      if decide (k < 0) then mret false else map_loop myenv a (w32 (va + PAGE_SIZE)) permission n (S i)
  end.
Definition get_shared_object (myenv ownerID_ shareName virtual_address : Z) : SH Z :=
  acquire_shareslock ;;
  l ← sget shares_list;
  p ← get_loop ownerID_ shareName l;
  release_shareslock ;;
  if decide (p = NULL) then mret E_SHARED_MEM_NOT_EXISTS else
  o ← get_share p;
  let permission := if decide (isWritable o ≠ 0) then Z.lor PERM_USER PERM_WRITEABLE else PERM_USER in
  b ← map_loop myenv (framesStorage o) (w32 virtual_address) permission (Z.to_nat (frames_of (share_size o))) 0;
  if (b : bool) then mret (ID o) else mret E_SHARED_MEM_NOT_EXISTS.

(** Not written yet. *)
Definition free_share (ptrShare : Z) : SH unit := panic.
Definition delete_shared_object (sharedObjectID startVA : Z) : SH Z := panic.
End code.
