(* ===== verification/ShareSpec.v ===== *)
(** * Shared memory: invariant and lemmas

    What the shared objects need of the kernel heap, the invariant of their list,
    and the loops of Share.v: the search by owner and name, and the mapping of an
    object's pages in one address space. *)

From S2P Require Import Prelude Queue CString CStringSpec Paging PagingSpec PagingThm VMSpec VMPaging Spaces Share.

Lemma take_back (fi : Z) (A : gset Z) : fi ∉ A → ({[fi]} ∪ A) ∖ {[fi]} = A.
Proof. set_solver. Qed.
Lemma not_taken (fi : Z) (A : gset Z) : fi ∉ A → A ∖ {[fi]} = A.
Proof. set_solver. Qed.

Section share.
Context {X : Type} {PE : PageEnv (shares * X)} {PO : PageEnvOk (shares * X)} {FR : Fresh (shares * X)}.
Context (TS : gset Z) (pins : Z → nat) (dirs : gset Z).
Implicit Types s : mm * (shares * X).
Implicit Types h : shares.
Notation upte := (upte (PE := PE)).
Notation spaces_ok := (spaces_ok TS pins dirs).
Notation same_pages := (same_pages dirs).
Notation mapped_somewhere := (mapped_somewhere TS).

(** The kernel heap: the addresses of its objects, what an allocation may take
    from the free frames, and whether it succeeds. *)
Class ShareHeap := {
  heap_live : X → gset Z;
  heap_cost : Z → nat;
  can_alloc : Z → X → Prop
}.
(** A call of the kernel heap changes no page of an environment and no object. *)
Record world_step s s' : Prop := {
  ws_spaces A : spaces_ok A s → spaces_ok A s';
  ws_pages : same_pages (λ _ _, False) s s';
  ws_num : number_of_frames s'.1 = number_of_frames s.1;
  ws_frames i : mapped_somewhere i s → mapped_somewhere i s' ∧ frefs i s' = frefs i s
}.
Definition heap_step s s' : Prop := world_step s s' ∧ s'.2.1 = s.2.1.
Class ShareLaws {SW : ShareHeap} : Prop := {
  kva_shares pa m h h' x : kheap_virtual_address pa (m, (h, x)) = kheap_virtual_address pa (m, (h', x));
  kmalloc_law n s : wp (Paging.kmalloc n) (λ p s', heap_step s s' ∧
    (length (free_frame_list s.1) ≤ length (free_frame_list s'.1) + heap_cost n)%nat ∧
    (can_alloc n s.2.2 → p ≠ NULL) ∧
    heap_live s'.2.2 = (if decide (p = NULL) then heap_live s.2.2 else {[p]} ∪ heap_live s.2.2) ∧
    (p ≠ NULL → p ∉ heap_live s.2.2)) s;
  kfree_law p s : p ∈ heap_live s.2.2 → wp (Paging.kfree p) (λ _ s', heap_step s s' ∧
    heap_live s'.2.2 = heap_live s.2.2 ∖ {[p]}) s
}.
Context {SW : ShareHeap} {SL : ShareLaws}.

(** ** The invariant of the objects *)
Record object_ok h (x : X) (p : Z) (o : Share) : Prop := {
  oo_name : ∃ n, chars n ∧ (length n < 64)%nat ∧ name o = padded 64 n;
  oo_live : p ≠ NULL ∧ p ∈ heap_live x ∧ framesStorage o ∈ heap_live x;
  oo_frames : ∃ fs, storages h !! framesStorage o = Some fs ∧ length fs = Z.to_nat (frames_of (share_size o))
}.
Record shares_ok h (x : X) : Prop := {
  sh_lock : shareslock h = false;
  sh_nodup : NoDup (shares_list h);
  sh_list p : p ∈ shares_list h ↔ is_Some (objects h !! p);
  sh_object p o : objects h !! p = Some o → object_ok h x p o;
  sh_key p q o o' : objects h !! p = Some o → objects h !! q = Some o' →
    ownerID o = ownerID o' → name o = name o' → p = q;
  sh_store p q o o' : objects h !! p = Some o → objects h !! q = Some o' → framesStorage o = framesStorage o' → p = q;
  sh_stored a fs : storages h !! a = Some fs → a ∈ heap_live x
}.
(** The object of an owner with a name. *)
Fixpoint find_object h (owner : Z) (nm : list Z) (l : list Z) : option Z :=
  match l with
  | [] => None
  | p :: l =>
      match objects h !! p with
      | Some o => if decide (ownerID o = owner ∧ name o = nm) then Some p else find_object h owner nm l
      | None => find_object h owner nm l
      end
  end.
Definition lookup_object h owner n : option Z := find_object h owner (padded 64 n) (shares_list h).

(** ** State *)
Lemma ptab_shares d va m h h' x : ptab d va (m, (h, x)) = ptab d va (m, (h', x)).
Proof. unfold ptab. apply kva_shares. Qed.
Lemma upte_shares d va m h h' x : upte d va (m, (h, x)) = upte d va (m, (h', x)).
Proof. unfold Spaces.upte, has_table. rewrite (ptab_shares d va m h h' x). done. Qed.
Lemma spaces_shares A m h h' x : spaces_ok A (m, (h, x)) → spaces_ok A (m, (h', x)).
Proof.
  intros [Hmm Hsp Hap]. split; [done| |].
  - intros d Hd. destruct (Hsp d Hd) as [H1 H2 H3]. split; [done| |].
    + intros va Hu Ht. rewrite <- (ptab_shares d va m h h' x). by apply H2.
    + intros va va' Hu Hu' Ht Ht'. rewrite <- (ptab_shares d va m h h' x), <- (ptab_shares d va' m h h' x). by apply H3.
  - intros d d' va va' Hd Hd' Hu Hu' Ht Ht'. rewrite <- (ptab_shares d va m h h' x), <- (ptab_shares d' va' m h h' x). by apply Hap.
Qed.
Lemma same_pages_shares P m h h' x : same_pages P (m, (h, x)) (m, (h', x)).
Proof. intros d va Hd Hu. split; [done|]. intros _. apply upte_shares. Qed.
#[export] Instance world_step_pre : PreOrder world_step.
Proof.
  split.
  - intros s. split; [done|done|done|done].
  - intros s1 s2 s3 [H1 H2 H3 H4] [H1' H2' H3' H4']. split.
    + intros A HA. by apply H1', H1.
    + intros d va Hd Hu. destruct (H2 d va Hd Hu) as [Ht Hp], (H2' d va Hd Hu) as [Ht' Hp'].
      split; [by rewrite Ht'|]. intros Hn. by rewrite Hp', Hp.
    + congruence.
    + intros i Hi. destruct (H4 i Hi) as [H5 H6], (H4' i H5) as [H7 H8]. split; [done|congruence].
Qed.
Lemma world_step_shares h' s : world_step s (s.1, (h', s.2.2)).
Proof.
  destruct s as [m [h x]]. split; [|apply same_pages_shares|done|done]. intros A. apply spaces_shares.
Qed.
Lemma wp_shget {A} (f : shares → A) (Q : A → _ → Prop) s : Q (f s.2.1) s → wp (sget f) Q s.
Proof. done. Qed.
Lemma wp_shset f (Q : unit → _ → Prop) s : Q tt (s.1, (f s.2.1, s.2.2)) → wp (sset f) Q s.
Proof. done. Qed.
Lemma wp_get_share p o (Q : Share → _ → Prop) s : objects s.2.1 !! p = Some o → Q o s → wp (get_share p) Q s.
Proof. intros Ho HQ. apply wp_bind, wp_shget. by apply wp_unwrap with o. Qed.
Lemma wp_upd_share p f o (Q : unit → _ → Prop) s :
  objects s.2.1 !! p = Some o → Q tt (s.1, (set_objects (<[p := f o]> (objects s.2.1)) s.2.1, s.2.2)) → wp (upd_share p f) Q s.
Proof. intros Ho HQ. apply wp_bind, wp_get_share with o; [done|]. by apply wp_shset. Qed.
Lemma wp_acquire_shares (Q : unit → _ → Prop) s :
  shareslock s.2.1 = false → Q tt (s.1, (set_shareslock true s.2.1, s.2.2)) → wp acquire_shareslock Q s.
Proof. intros Hl HQ. apply wp_bind, wp_shget, wp_bind. rewrite Hl. apply wp_assert; [done|]. by apply wp_shset. Qed.
Lemma wp_release_shares (Q : unit → _ → Prop) s :
  shareslock s.2.1 = true → Q tt (s.1, (set_shareslock false s.2.1, s.2.2)) → wp release_shareslock Q s.
Proof. intros Hl HQ. apply wp_bind, wp_shget, wp_bind. rewrite Hl. apply wp_assert; [done|]. by apply wp_shset. Qed.
Lemma set_lock_back h : shareslock h = false → set_shareslock false (set_shareslock true h) = h.
Proof. by destruct h; cbn; intros ->. Qed.

(** ** Names *)
Lemma padded_split n : (length n < 64)%nat → ∃ t, padded 64 n = n ++ 0 :: t.
Proof.
  intros Hn. exists (replicate (64 - length n - 1) 0). unfold padded.
  replace 64%nat with (length n + S (64 - length n - 1))%nat at 1 2 by lia.
  rewrite take_app_add. f_equal. rewrite take_replicate. by rewrite Nat.min_l by lia.
Qed.
Lemma padded_inj n n' : chars n → chars n' → (length n < 64)%nat → (length n' < 64)%nat → padded 64 n = padded 64 n' → n = n'.
Proof.
  intros Hc Hc' Hl Hl' He. destruct (padded_split n Hl) as [t Ht], (padded_split n' Hl') as [t' Ht'].
  apply (strdiff_zero n n' Hc Hc'). pose proof (compare_list_strings n n' t t' Hc Hc') as H1. rewrite <- Ht, <- Ht', <- He, Ht in H1.
  rewrite (compare_list_strings n n t t Hc Hc) in H1. injection H1 as <-. by apply strdiff_zero.
Qed.
Lemma caller_reads nm n s : cstr nm n (caller_memory s.2.1) → reads caller_char nm (n ++ [0]) s.
Proof.
  intros (H & _ & Hr) i x Q Hi HQ. apply lookup_lt_Some in Hi as Hlt. rewrite length_app in Hlt. cbn in Hlt. unfold in_range in Hr.
  apply wp_bind, wp_shget. apply wp_unwrap with x; [|done]. rewrite w32_idemp, w32_small by lia. by apply H.
Qed.
Lemma name_reads l l' s : (length l ≤ 64)%nat → reads (name_char (X := X) (l ++ l')) 0 l s.
Proof.
  intros Hl i x Q Hi HQ. apply lookup_lt_Some in Hi as Hlt. apply wp_unwrap with x; [|done].
  rewrite Z.add_0_l, w32_small, Nat2Z.id by lia. by rewrite lookup_app_l.
Qed.
(** Both comparisons of a name of the caller with the name of an object. *)
Lemma wp_compare_find fuel nm n n' (Q : Z → _ → Prop) s :
  (64 ≤ fuel)%nat → cstr nm n (caller_memory s.2.1) → (length n < 64)%nat → chars n' → (length n' < 64)%nat →
  (∀ c, c = 0 ↔ n' = n → Q c s) → wp (compare_loop caller_char (name_char (padded 64 n')) fuel nm 0) Q s.
Proof.
  intros Hf Hn Hl Hc' Hl' HQ. destruct (padded_split n' Hl') as [t ->]. pose proof Hn as (_ & Hc & Hr). unfold in_range in Hr.
  replace nm with (w32 nm) by (apply w32_small; lia).
  change (wp (compare_loop caller_char (name_char (n' ++ 0 :: t)) fuel (w32 nm) (w32 0)) Q s).
  apply wp_compare_loop with (n ++ [0]) (n' ++ [0]) (strdiff n n').
  - by apply compare_list_strings.
  - by apply caller_reads.
  - replace (n' ++ 0 :: t) with ((n' ++ [0]) ++ t) by (by rewrite <- app_assoc). apply (name_reads (n' ++ [0]) t). rewrite length_app. cbn. lia.
  - rewrite length_app. cbn. lia.
  - apply HQ. rewrite strdiff_zero by done. naive_solver.
Qed.
Lemma wp_compare_get fuel nm n n' (Q : Z → _ → Prop) s :
  (64 ≤ fuel)%nat → cstr nm n (caller_memory s.2.1) → (length n < 64)%nat → chars n' → (length n' < 64)%nat →
  (∀ c, c = 0 ↔ n' = n → Q c s) → wp (compare_loop (name_char (padded 64 n')) caller_char fuel 0 nm) Q s.
Proof.
  intros Hf Hn Hl Hc' Hl' HQ. destruct (padded_split n' Hl') as [t ->]. pose proof Hn as (_ & Hc & Hr). unfold in_range in Hr.
  replace nm with (w32 nm) by (apply w32_small; lia).
  change (wp (compare_loop (name_char (n' ++ 0 :: t)) caller_char fuel (w32 0) (w32 nm)) Q s).
  apply wp_compare_loop with (n' ++ [0]) (n ++ [0]) (strdiff n' n).
  - by apply compare_list_strings.
  - replace (n' ++ 0 :: t) with ((n' ++ [0]) ++ t) by (by rewrite <- app_assoc). apply (name_reads (n' ++ [0]) t). rewrite length_app. cbn. lia.
  - by apply caller_reads.
  - rewrite length_app. cbn. lia.
  - apply HQ. rewrite strdiff_zero by done. naive_solver.
Qed.
(** [strncpy] into the name of an object. *)
Lemma wp_copy_name k n p (Q : list Z → _ → Prop) s :
  cstr p n (caller_memory s.2.1) → Q (padded k n) s → wp (copy_name k (w32 p)) Q s.
Proof.
  revert n p Q. induction k as [|k IH]; intros n p Q Hn HQ; [by apply wp_ret|]. cbn [copy_name].
  pose proof (caller_reads p n s Hn) as Hread. apply wp_bind. destruct n as [|c n].
  - apply (reads_head _ p 0 []); [done|]. rewrite decide_True by done. apply wp_bind, IH with []; [done|]. apply wp_ret.
    rewrite padded_nil in *. done.
  - apply (reads_head _ p c (n ++ [0])); [done|]. apply cstr_cons in Hn as (_ & Hc & Hn & _). rewrite decide_False by lia.
    rewrite w32_add_l. apply wp_bind, IH with n; [done|]. apply wp_ret. by rewrite padded_cons in HQ.
Qed.

(** ** The search *)
Lemma find_object_some h owner nm l p :
  find_object h owner nm l = Some p → p ∈ l ∧ ∃ o, objects h !! p = Some o ∧ ownerID o = owner ∧ name o = nm.
Proof.
  induction l as [|q l IH]; cbn; [done|]. destruct (objects h !! q) as [o|] eqn:Ho; [destruct (decide _) as [[H1 H2]|]|].
  - intros [= ->]. split; [by left|]. by exists o.
  - intros [? ?]%IH. split; [by right|done].
  - intros [? ?]%IH. split; [by right|done].
Qed.
Lemma find_object_none h owner nm l p o :
  find_object h owner nm l = None → p ∈ l → objects h !! p = Some o → ¬ (ownerID o = owner ∧ name o = nm).
Proof.
  induction l as [|q l IH]; cbn; [by intros _ ?%elem_of_nil|].
  intros Hf [->|Hp]%elem_of_cons Ho; [rewrite Ho in Hf; by destruct (decide _)|].
  apply IH; [|done|done]. destruct (objects h !! q); [by destruct (decide _)|done].
Qed.
Definition named h (l : list Z) : Prop :=
  ∀ p, p ∈ l → p ≠ NULL ∧ ∃ o n, objects h !! p = Some o ∧ chars n ∧ (length n < 64)%nat ∧ name o = padded 64 n.
Lemma shares_named h x : shares_ok h x → named h (shares_list h).
Proof.
  intros Hok p Hp. destruct (proj1 (sh_list _ _ Hok p) Hp) as [o Ho]. pose proof (sh_object _ _ Hok p o Ho) as [(n & Hn) Hl _].
  split; [apply Hl|]. exists o, n. tauto.
Qed.
Lemma wp_find_loop fuel owner nm n l (Q : Z → _ → Prop) s :
  (64 ≤ fuel)%nat → named s.2.1 l → cstr nm n (caller_memory s.2.1) → (length n < 64)%nat →
  Q (default NULL (find_object s.2.1 owner (padded 64 n) l)) s → wp (find_loop fuel owner nm l) Q s.
Proof.
  intros Hf Hl Hn Hlen HQ. induction l as [|p l IH]; [by apply wp_ret|]. cbn [find_loop find_object] in *.
  destruct (Hl p) as (Hp0 & o & n' & Ho & Hc' & Hl' & Hname); [by left|]. rewrite Ho, Hname in HQ.
  assert (named s.2.1 l) as Hl2 by (intros q Hq; apply Hl; by right).
  apply wp_bind, wp_get_share with o; [done|]. destruct (decide (ownerID o = owner)) as [Howner|Howner].
  - rewrite Hname. apply wp_bind, (wp_compare_find _ nm n n'); [done..|]. intros c Hc. destruct (decide (c = 0)) as [H0|H0].
    + apply Hc in H0 as ->. rewrite decide_True in HQ by done. by apply wp_ret.
    + apply IH; [done|]. rewrite decide_False in HQ; [done|]. intros [_ He].
      apply padded_inj in He; [tauto|done|apply Hn|done|done].
  - apply IH; [done|]. by rewrite decide_False in HQ by tauto.
Qed.
Lemma wp_find_share fuel owner nm n (Q : Z → _ → Prop) s :
  (64 ≤ fuel)%nat → shares_ok s.2.1 s.2.2 → cstr nm n (caller_memory s.2.1) → (length n < 64)%nat →
  Q (default NULL (lookup_object s.2.1 owner n)) s → wp (find_share fuel owner nm) Q s.
Proof.
  intros Hf Hok Hn Hlen HQ. unfold find_share, holding_shareslock. pose proof (sh_lock _ _ Hok) as Hl.
  apply wp_bind, wp_shget. rewrite Hl. cbn [negb when]. apply wp_bind, wp_acquire_shares; [done|].
  set (s1 := (s.1, (set_shareslock true s.2.1, s.2.2))). apply wp_bind, wp_shget, wp_bind.
  apply wp_find_loop with n; try done.
  - exact (shares_named _ _ Hok).
  - apply wp_bind, wp_release_shares; [done|]. apply wp_ret.
    assert ((s1.1, (set_shareslock false s1.2.1, s1.2.2)) = s) as -> by (unfold s1; cbn; rewrite set_lock_back by done; by destruct s as [? []]).
    change (find_object s1.2.1) with (find_object (set_shareslock true s.2.1)).
    assert (∀ l, find_object (set_shareslock true s.2.1) owner (padded 64 n) l = find_object s.2.1 owner (padded 64 n) l) as ->; [|done].
    intros l. induction l as [|p l IH]; [done|]. cbn. by rewrite IH.
Qed.
(** The loop of [get_shared_object] counts the reference on the way. *)
Lemma wp_get_loop fuel owner nm n l (Q : Z → _ → Prop) s :
  (64 ≤ fuel)%nat → named s.2.1 l → cstr nm n (caller_memory s.2.1) → (length n < 64)%nat →
  match find_object s.2.1 owner (padded 64 n) l with
  | None => Q NULL s
  | Some p => ∀ o, objects s.2.1 !! p = Some o → Q p (s.1, (set_objects (<[p := add_reference o]> (objects s.2.1)) s.2.1, s.2.2))
  end → wp (get_loop fuel owner nm l) Q s.
Proof.
  intros Hf Hl Hn Hlen HQ. induction l as [|p l IH]; [by apply wp_ret|]. cbn [get_loop find_object] in *.
  destruct (Hl p) as (Hp0 & o & n' & Ho & Hc' & Hl' & Hname); [by left|]. rewrite Ho, Hname in HQ.
  assert (named s.2.1 l) as Hl2 by (intros q Hq; apply Hl; by right).
  apply wp_bind, wp_get_share with o; [done|]. destruct (decide (ownerID o = owner)) as [Howner|Howner].
  - rewrite Hname. apply wp_bind, (wp_compare_get _ nm n n'); [done..|]. intros c Hc. destruct (decide (c = 0)) as [H0|H0].
    + apply Hc in H0 as ->. rewrite decide_True in HQ by done. apply wp_bind, wp_upd_share with o; [done|]. apply wp_ret. by apply HQ.
    + apply IH; [done|]. rewrite decide_False in HQ; [done|]. intros [_ He].
      apply padded_inj in He; [tauto|done|apply Hn|done|done].
  - apply IH; [done|]. by rewrite decide_False in HQ by tauto.
Qed.

(** ** Mapping the pages of an object *)

(** [k] pages from [va] can be mapped: they have tables and are not mapped. *)
Definition pages_free (d va : Z) (k : nat) s : Prop :=
  ∀ j, 0 ≤ j < Z.of_nat k → user (va + PAGE_SIZE * j) ∧ has_table d (va + PAGE_SIZE * j) s ∧ maps (upte d (va + PAGE_SIZE * j) s) = false.
Definition in_pages (d va : Z) (k : nat) (d' va' : Z) : Prop :=
  d' = d ∧ ∃ j, 0 ≤ j < Z.of_nat k ∧ page va' = page (va + PAGE_SIZE * j).
(** They are mapped on the frames [fs], with the permissions [perm]. *)
Definition pages_mapped (d va perm : Z) (fs : list Z) s s' : Prop :=
  ∀ j fi, fs !! j = Some fi →
    let w := va + PAGE_SIZE * Z.of_nat j in
    PPN (upte d w s') = fi ∧ maps (upte d w s') = true ∧ Z.land (upte d w s') 4095 = mapped_bits (upte d w s) perm ∧
    mapped_somewhere fi s' ∧ 0 ≤ fi < number_of_frames s'.1.
Lemma page_add va j : page (va + PAGE_SIZE * j) = page va + j.
Proof. unfold page, PAGE_SIZE. rewrite (Z.mul_comm 4096 j), Z.div_add by lia. done. Qed.
Lemma pages_free_step P d va k s s' :
  d ∈ dirs → same_pages P s s' → (∀ j, 0 ≤ j < Z.of_nat k → ¬ P d (va + PAGE_SIZE * j)) → pages_free d va k s → pages_free d va k s'.
Proof.
  intros Hd Hsame HP Hfree j Hj. destruct (Hfree j Hj) as (Hu & Ht & Hm). destruct (Hsame d _ Hd Hu) as [Ht' Hp'].
  split_and!; [done|by apply Ht'|]. by rewrite Hp' by (by apply HP).
Qed.
Lemma pages_free_tail d va k s : pages_free d va (S k) s → pages_free d (va + PAGE_SIZE) k s.
Proof.
  intros Hfree j Hj. replace (va + PAGE_SIZE + PAGE_SIZE * j) with (va + PAGE_SIZE * (j + 1)) by lia. apply Hfree. lia.
Qed.
Lemma pages_free_head d va k s : pages_free d va (S k) s → user va ∧ has_table d va s ∧ maps (upte d va s) = false.
Proof. intros Hfree. specialize (Hfree 0 ltac:(lia)). by rewrite Z.mul_0_r, Z.add_0_r in Hfree. Qed.
(** One page and then the rest, when the rest leaves the page and the frames that are mapped. *)
Lemma pages_mapped_cons d va perm fi fs s s1 s2 :
  d ∈ dirs → pages_free d va (S (length fs)) s →
  same_pages (λ d' va', d' = d ∧ page va' = page va) s s1 →
  same_pages (in_pages d (va + PAGE_SIZE) (length fs)) s1 s2 →
  PPN (upte d va s1) = fi → maps (upte d va s1) = true → Z.land (upte d va s1) 4095 = mapped_bits (upte d va s) perm →
  mapped_somewhere fi s2 → 0 ≤ fi < number_of_frames s2.1 →
  pages_mapped d (va + PAGE_SIZE) perm fs s1 s2 →
  pages_mapped d va perm (fi :: fs) s s2 ∧ same_pages (in_pages d va (S (length fs))) s s2.
Proof.
  intros Hd Hfree H1 H2 HP Hm Hb Hms Hn Hrest. destruct (pages_free_head _ _ _ _ Hfree) as (Hu & Ht & _).
  assert (Hkeep : upte d va s2 = upte d va s1).
  { apply H2; [done|done|]. intros (_ & j & Hj & Hpg). replace (va + PAGE_SIZE + PAGE_SIZE * j) with (va + PAGE_SIZE * (j + 1)) in Hpg by lia.
    rewrite page_add in Hpg. lia. }
  split.
  - intros [|j] fi' Hj; cbn in Hj; simplify_eq.
    + cbv zeta. rewrite Z.mul_0_r, Z.add_0_r, Hkeep. done.
    + apply lookup_lt_Some in Hj as Hlt. destruct (Hrest j fi' Hj) as (H3 & H4 & H5 & H6).
      cbv zeta. replace (va + PAGE_SIZE * Z.of_nat (S j)) with (va + PAGE_SIZE + PAGE_SIZE * Z.of_nat j) by lia.
      destruct (pages_free_tail _ _ _ _ Hfree (Z.of_nat j) ltac:(lia)) as (Hu' & _). destruct (H1 d _ Hd Hu') as [_ He].
      rewrite He in H5; [done|]. intros [_ Hpg]. replace (va + PAGE_SIZE + PAGE_SIZE * Z.of_nat j) with (va + PAGE_SIZE * (Z.of_nat j + 1)) in Hpg by lia.
      rewrite page_add in Hpg. lia.
  - intros d' va' Hd' Hu'. destruct (H1 d' va' Hd' Hu') as [Ht1 He1], (H2 d' va' Hd' Hu') as [Ht2 He2].
    split; [by rewrite Ht2|]. intros Hnot. rewrite He2, He1; [done| |].
    + intros [-> Hpg]. apply Hnot. split; [done|]. exists 0. split; [lia|]. by rewrite Z.mul_0_r, Z.add_0_r.
    + intros [-> (j & Hj & Hpg)]. apply Hnot. split; [done|]. exists (j + 1). split; [lia|].
      by replace (va + PAGE_SIZE * (j + 1)) with (va + PAGE_SIZE + PAGE_SIZE * j) by lia.
Qed.
Lemma first_frame k (fl : list Z) : (S k ≤ length fl)%nat → ∃ fi rest, fl = fi :: rest ∧ (k ≤ length rest)%nat.
Proof. destruct fl as [|fi rest]; cbn; [lia|]. intros. exists fi, rest. split; [done|lia]. Qed.
Lemma w32_page va k s d j : pages_free d va k s → 0 ≤ j < Z.of_nat k → w32 (va + PAGE_SIZE * j) = va + PAGE_SIZE * j.
Proof. intros Hf Hj. destruct (Hf j Hj) as ([Hr Hlt] & _). unfold USER_TOP in Hlt. apply w32_small. lia. Qed.
(** The frames of a list are counted often enough to take [k] more references. *)
Definition occurrences (i : Z) (fs : list Z) : Z := size (filter (λ f, f = i) fs).
Lemma occurrences_cons i f fs : occurrences i (f :: fs) = (if decide (f = i) then 1 else 0) + occurrences i fs.
Proof. unfold occurrences. rewrite filter_cons. case_decide; cbn [length]; lia. Qed.
Lemma occurrences_in i fs : NoDup fs → i ∈ fs → occurrences i fs = 1.
Proof.
  induction 1 as [|f fs Hf _ IH]; [by intros ?%elem_of_nil|]. rewrite elem_of_cons, occurrences_cons. intros [->|Hi].
  - rewrite decide_True by done. unfold occurrences. rewrite filter_none; [done|]. intros x Hx ->. done.
  - rewrite decide_False by (by intros ->). by apply IH.
Qed.
Definition takes_references (k : Z) (fs : list Z) s : Prop :=
  ∀ fi, fi ∈ fs → 0 ≤ fi < number_of_frames s.1 ∧ mapped_somewhere fi s ∧ frefs fi s + k < 65536.
Lemma wp_map_loop d a perm pre fs va A s (Q : bool → _ → Prop) :
  storages s.2.1 !! a = Some (pre ++ fs) → spaces_ok A s → d ∈ dirs → pages_free d va (length fs) s →
  takes_references (size fs) fs s → 0 ≤ perm < 4096 → Z.land perm PERM_BUFFERED = 0 → (∀ fi, fi ∈ fs → fi ∉ A) →
  (∀ s', spaces_ok A s' → s'.2 = s.2 → same_pages (in_pages d va (length fs)) s s' → pages_mapped d va perm fs s s' →
     (∀ i, mapped_somewhere i s → mapped_somewhere i s') → number_of_frames s'.1 = number_of_frames s.1 →
     (∀ i, 0 ≤ i → frefs i s' = frefs i s + occurrences i fs) → Q true s') →
  wp (map_loop d a (w32 va) perm (length fs) (length pre)) Q s.
Proof.
  revert pre va s Q. induction fs as [|fi fs IH]; intros pre va s Q Hst Hs Hd Hfree Htake Hp Hpb HA HQ.
  { apply wp_ret. apply HQ; try done. intros i _. unfold occurrences. cbn. lia. }
  cbn [length map_loop]. apply wp_bind, wp_bind, wp_shget, wp_bind. apply wp_unwrap with (pre ++ fi :: fs); [done|].
  apply wp_unwrap with fi; [by rewrite lookup_app_r, Nat.sub_diag by lia|].
  destruct (pages_free_head _ _ _ _ Hfree) as (Hu & Ht & Hm). destruct (Htake fi) as (Hfi & Hms & Hrefs); [by left|].
  assert (w32 va = va) as Hw by (destruct Hu as [? Hlt]; unfold USER_TOP in Hlt; apply w32_small; lia). rewrite Hw.
  cbn [length] in Hrefs. apply wp_bind.
  apply (wp_spaces_map TS pins dirs A d fi va perm s); try done; [lia|by right|].
  intros s1 Hs1 He1 Hsame HP Hmp Hb Hfl Hn Hfr Hms1 Hmfi. rewrite decide_False by lia.
  rewrite not_taken in Hs1 by (apply HA; by left).
  replace (S (length pre)) with (length (pre ++ [fi])) by (rewrite length_app; cbn; lia).
  assert (Hfree1 : pages_free d (va + PAGE_SIZE) (length fs) s1).
  { eapply pages_free_step; [exact Hd|exact Hsame| |by apply pages_free_tail].
    intros j Hj [_ Hpg]. replace (va + PAGE_SIZE + PAGE_SIZE * j) with (va + PAGE_SIZE * (j + 1)) in Hpg by lia. rewrite page_add in Hpg. lia. }
  apply IH; try done.
  - rewrite He1, <- app_assoc. done.
  - intros f Hf. destruct (Htake f) as (H1 & H2 & H3); [by right|]. rewrite Hn. split_and!; [lia|lia|by apply Hms1|].
    rewrite Hfr. cbn [length] in H3. case_decide; lia.
  - intros f Hf. apply HA. by right.
  - intros s' Hs' He' Hsame' Hmapped' Hms' Hn' Hfr'.
    destruct (pages_mapped_cons d va perm fi fs s s1 s' Hd Hfree Hsame Hsame' HP Hmp Hb) as [H1 H2]; [by apply Hms'|by rewrite Hn', Hn|done|].
    apply HQ; try done; [congruence|naive_solver|congruence|].
    intros i Hi. rewrite Hfr', Hfr, occurrences_cons by done. repeat case_decide; lia.
Qed.
(** The state with the frames of the storage at [a] replaced. *)
Definition with_storage (a : Z) (fs : list Z) s : mm * (shares * X) :=
  (s.1, (set_storages (<[a := fs]> (storages s.2.1)) s.2.1, s.2.2)).
Lemma wp_create_loop d p o k pre rest va A s (Q : bool → _ → Prop) :
  objects s.2.1 !! p = Some o → storages s.2.1 !! framesStorage o = Some (pre ++ rest) → length rest = k →
  spaces_ok A s → d ∈ dirs → pages_free d va k s → (k ≤ length (free_frame_list s.1))%nat →
  (∀ fs s', length fs = k → spaces_ok A s' → s'.2 = (with_storage (framesStorage o) (pre ++ fs) s).2 →
     same_pages (in_pages d va k) s s' → pages_mapped d va (Z.lor PERM_USER PERM_WRITEABLE) fs s s' →
     (∀ fi, fi ∈ fs → frefs fi s' = 1 ∧ fi ∈ free_frame_list s.1) → NoDup fs →
     (∀ i, 0 ≤ i → i ∉ free_frame_list s.1 → frefs i s' = frefs i s) →
     (∀ i, mapped_somewhere i s → mapped_somewhere i s') → number_of_frames s'.1 = number_of_frames s.1 → Q true s') →
  wp (create_loop d p (w32 va) k (length pre)) Q s.
Proof.
  revert pre rest va s Q. induction k as [|k IH]; intros pre rest va s Q Ho Hst Hlr Hs Hd Hfree Hroom HQ.
  { apply nil_length_inv in Hlr as ->. apply wp_ret. apply (HQ []); try done.
    - unfold with_storage. cbn. rewrite insert_id by done. by destruct s as [? [[] ?]].
    - by intros fi ?%elem_of_nil.
    - constructor. }
  destruct rest as [|r rest]; [done|]. injection Hlr as Hlr. cbn [create_loop].
  destruct (first_frame k (free_frame_list s.1) Hroom) as (fi & fl & Hfl & Hlen).
  apply wp_bind. apply (wp_spaces_alloc TS pins dirs A fi fl s); [done|done|].
  intros s1 Hs1 HfA Hfi0 He1 Hfl1 Hsame1 Harr1 Hn1 Hfr1. cbn [fst snd]. rewrite decide_False by lia.
  destruct (pages_free_head _ _ _ _ Hfree) as (Hu & Ht & Hm).
  destruct (Hsame1 d va Hd Hu) as [Ht1 Hp1]. specialize (Hp1 (λ f, f)).
  assert (w32 va = va) as Hw by (destruct Hu as [? Hlt]; unfold USER_TOP in Hlt; apply w32_small; lia). rewrite Hw.
  assert (Hin : fi ∈ {[fi]} ∪ A) by (apply elem_of_union_l; by apply elem_of_singleton).
  destruct (inv_alloc _ _ _ _ (sp_mm _ _ _ _ _ Hs1) fi Hin) as (_ & y & Hy & Hy0).
  apply wp_bind. apply (wp_spaces_map TS pins dirs ({[fi]} ∪ A) d fi va (Z.lor PERM_USER PERM_WRITEABLE) s1); try done.
  { by apply Ht1. } { by rewrite Hp1. }
  { apply lookup_lt_Some in Hy. unfold number_of_frames. lia. }
  { rewrite (frefs_lookup fi s1 y Hy). lia. } { by left. }
  intros s2 Hs2 He2 Hsame2 HP Hmp Hb Hfl2 Hn2 Hfr2 Hms2 Hmfi. rewrite decide_False by lia.
  rewrite (take_back fi A HfA) in Hs2.
  apply wp_bind, wp_get_share with o; [by rewrite He2, He1|].
  apply wp_bind. unfold store_frame. apply wp_bind, wp_shget, wp_bind.
  apply wp_unwrap with (pre ++ r :: rest); [by rewrite He2, He1|]. apply wp_bind.
  apply wp_unwrap with r; [by rewrite lookup_app_r, Nat.sub_diag by lia|]. apply wp_shset.
  set (s3 := (s2.1, _)). assert (Hs3 : s3 = with_storage (framesStorage o) ((pre ++ [fi]) ++ rest) s2).
  { unfold s3, with_storage. do 3 f_equal. f_equal. rewrite <- app_assoc. cbn. rewrite insert_app_r_alt, Nat.sub_diag by lia. done. }
  rewrite Hs3. clear Hs3 s3. set (s3 := with_storage _ _ s2).
  assert (Hs3 : spaces_ok A s3) by (destruct s2 as [m2 [h2 x2]]; by eapply spaces_shares).
  assert (Hsame3 : same_pages (λ d' va', d' = d ∧ page va' = page va) s s3).
  { assert (same_pages (λ _ _, False) s2 s3) as H3 by (destruct s2 as [m2 [h2 x2]]; apply same_pages_shares).
    assert (same_pages (λ d' va', (False ∨ (d' = d ∧ page va' = page va)) ∨ False) s s3) as H4
      by exact (same_pages_tr pins dirs _ _ _ _ _ (same_pages_tr pins dirs _ _ _ _ _ Hsame1 Hsame2) H3).
    intros d' va' Hd' Hu'. destruct (H4 d' va' Hd' Hu') as [H5 H6]. split; [done|]. intros Hn. apply H6. tauto. }
  assert (Hupte3 : ∀ d' va', upte d' va' s3 = upte d' va' s2) by (intros; unfold s3; destruct s2 as [m2 [h2 x2]]; apply upte_shares).
  assert (Hfree3 : pages_free d (va + PAGE_SIZE) k s3).
  { eapply pages_free_step; [exact Hd|exact Hsame3| |by apply pages_free_tail].
    intros j Hj [_ Hpg]. replace (va + PAGE_SIZE + PAGE_SIZE * j) with (va + PAGE_SIZE * (j + 1)) in Hpg by lia. rewrite page_add in Hpg. lia. }
  replace (S (length pre)) with (length (pre ++ [fi])) by (rewrite length_app; cbn; lia).
  apply (IH (pre ++ [fi]) rest); try done.
  - unfold s3, with_storage. cbn. by rewrite He2, He1.
  - unfold s3, with_storage. cbn. by rewrite lookup_insert_eq.
  - unfold s3, with_storage. cbn [fst]. rewrite Hfl2, Hfl1. lia.
  - intros fs s' Hlf Hs' He' Hsame' Hmapped' Hrefs' Hnd' Hother' Hms' Hn'.
    assert (Hfl3 : free_frame_list s3.1 = fl) by (unfold s3, with_storage; cbn [fst]; by rewrite Hfl2).
    assert (Hnodup : fi ∉ fl).
    { pose proof (inv_nodup _ _ _ _ (sp_mm _ _ _ _ _ Hs)) as Hnd. rewrite Hfl in Hnd. by apply NoDup_cons in Hnd as [? _]. }
    assert (Hfi3 : frefs fi s3 = 1).
    { unfold s3, with_storage, frefs. cbn [fst]. fold (frefs fi s2). rewrite Hfr2, decide_True by done. rewrite (frefs_lookup fi s1 y Hy). lia. }
    assert (Hs2' : ∀ i, mapped_somewhere i s → mapped_somewhere i s2).
    { intros i Hi. apply Hms2. unfold Spaces.mapped_somewhere. by rewrite Harr1. }
    rewrite <- Hlf in Hfree, Hsame'.
    destruct (pages_mapped_cons d va (Z.lor PERM_USER PERM_WRITEABLE) fi fs s s3 s' Hd Hfree Hsame3 Hsame') as [H1 H2];
      rewrite ?Hupte3; [done|done|by rewrite Hb, Hp1|by apply Hms'| |done|].
    { rewrite Hn'. unfold s3, with_storage. cbn [fst]. rewrite Hn2. apply lookup_lt_Some in Hy. unfold number_of_frames. lia. }
    rewrite <- Hlf in *. apply (HQ (fi :: fs)); try done.
    + rewrite He'. unfold s3, with_storage. cbn. rewrite He2, He1. unfold set_storages. cbn.
      rewrite insert_insert_eq, <- app_assoc. done.
    + intros f [->|Hf]%elem_of_cons.
      * rewrite Hother', Hfl by (by rewrite ?Hfl3). split; [done|by left].
      * destruct (Hrefs' f Hf) as [? Hfin]. split; [done|]. rewrite Hfl. right. by rewrite <- Hfl3.
    + apply NoDup_cons. split; [|done]. intros Hf. destruct (Hrefs' fi Hf) as [_ Hfin]. by rewrite Hfl3 in Hfin.
    + intros i Hi Hni. rewrite Hfl in Hni. apply not_elem_of_cons in Hni as [Hne Hni]. rewrite Hother' by (by rewrite ?Hfl3).
      unfold s3, with_storage, frefs. cbn [fst]. fold (frefs i s2). rewrite Hfr2, decide_False by lia. rewrite Hfr1. unfold frefs. lia.
    + intros i Hi. by apply Hms', Hs2'.
    + rewrite Hn'. unfold s3, with_storage. cbn [fst]. by rewrite Hn2.
Qed.

(** ** A new object *)
Definition new_object (i owner : Z) (n : list Z) (sz w a : Z) : Share := SHARE i owner (padded 64 n) (i32 sz) 1 (w8 w) a.
Definition with_object (p a : Z) (o : Share) (k : nat) h : shares :=
  set_storages (<[a := replicate k 0]> (storages h)) (set_objects (<[p := o]> (objects h)) h).
Lemma shares_fresh h x p : shares_ok h x → p ∉ heap_live x → objects h !! p = None ∧ storages h !! p = None.
Proof.
  intros Hok Hp. split.
  - destruct (objects h !! p) as [o|] eqn:Ho; [|done]. destruct (oo_live _ _ _ _ (sh_object _ _ Hok p o Ho)) as (_ & Hl & _). done.
  - destruct (storages h !! p) as [fs|] eqn:Hfs; [|done]. by apply (sh_stored _ _ Hok) in Hfs.
Qed.
Lemma wp_alloc_share owner nm n sz w s (Q : Z → _ → Prop) :
  shares_ok s.2.1 s.2.2 → cstr nm n (caller_memory s.2.1) → w32 nm = nm → can_alloc SHARE_SIZE s.2.2 →
  (∀ s', world_step s s' → s'.2.1 = s.2.1 → heap_live s'.2.2 = heap_live s.2.2 → Q NULL s') →
  (∀ p a i s', world_step s s' → p ≠ NULL → a ≠ NULL → p ≠ a → p ∉ heap_live s.2.2 → a ∉ heap_live s.2.2 →
     s'.2.1 = with_object p a (new_object i owner n sz w a) (Z.to_nat (frames_of sz)) s.2.1 →
     heap_live s'.2.2 = {[a]} ∪ ({[p]} ∪ heap_live s.2.2) →
     (length (free_frame_list s.1) ≤ length (free_frame_list s'.1) + heap_cost SHARE_SIZE + heap_cost (w32 (POINTER_SIZE * frames_of sz)))%nat →
     Q p s') →
  wp (alloc_share owner nm sz w) Q s.
Proof.
  intros Hok Hn Hw Hcan HQ0 HQ1. unfold alloc_share. pose proof (sh_lock _ _ Hok) as Hl.
  apply wp_bind, wp_acquire_shares; [done|]. set (s1 := (s.1, (set_shareslock true s.2.1, s.2.2))).
  assert (world_step s s1) as Hst1 by apply world_step_shares.
  apply wp_bind. eapply wp_mono; [apply kmalloc_law|]. intros p s2 ([Hst2 Hsh2] & Hcost2 & Hc2 & Hlive2 & Hfresh2).
  specialize (Hc2 Hcan). specialize (Hfresh2 Hc2). rewrite decide_False in Hlive2 by done.
  apply wp_bind, wp_release_shares; [by rewrite Hsh2|]. set (s3 := (s2.1, (set_shareslock false s2.2.1, s2.2.2))).
  assert (Hsh3 : s3.2.1 = s.2.1) by (unfold s3; cbn; rewrite Hsh2; by apply set_lock_back).
  assert (world_step s s3) as Hst3 by (etrans; [exact Hst1|etrans; [exact Hst2|apply world_step_shares]]).
  rewrite decide_False by done. apply wp_bind, wp_gets, wp_bind. set (i := fresh_word p s3).
  assert (wp (copy_name 64 nm) (λ l s', l = padded 64 n ∧ s' = s3) s3) as Hcopy.
  { rewrite <- Hw. apply wp_copy_name with n; [by rewrite Hsh3|done]. }
  eapply wp_mono; [exact Hcopy|]. intros l s' [-> ->]. apply wp_bind, wp_shset. set (s4 := (s3.1, _)).
  assert (world_step s s4) as Hst4 by (etrans; [exact Hst3|apply world_step_shares]).
  apply wp_bind. eapply wp_mono; [apply kmalloc_law|]. intros a s5 ([Hst5 Hsh5] & Hcost5 & _ & Hlive5 & Hfresh5).
  assert (world_step s s5) as Hst5' by (by etrans).
  set (o := SHARE i owner (padded 64 n) (i32 sz) 1 (w8 w) NULL) in *.
  assert (Hsh5' : s5.2.1 = set_objects (<[p := o]> (objects s.2.1)) s.2.1) by (rewrite Hsh5; unfold s4; cbn [fst snd]; by rewrite Hsh3).
  apply wp_bind, wp_upd_share with o; [rewrite Hsh5'; apply lookup_insert_eq|]. cbn [ID ownerID name share_size share_references isWritable o].
  fold (new_object i owner n sz w a). set (s6 := (s5.1, _)).
  assert (Hsh6 : s6.2.1 = set_objects (<[p := new_object i owner n sz w a]> (objects s.2.1)) s.2.1).
  { unfold s6. cbn. rewrite Hsh5'. unfold set_objects. cbn. by rewrite insert_insert_eq. }
  assert (world_step s s6) as Hst6 by (etrans; [exact Hst5'|apply world_step_shares]).
  cbn in Hfresh2. destruct (shares_fresh _ _ p Hok Hfresh2) as [Hpn _].
  change (heap_live s4.2.2) with (heap_live s2.2.2) in *. rewrite Hlive2 in Hlive5, Hfresh5. cbn [fst snd] in Hlive5, Hfresh5.
  destruct (decide (a = NULL)) as [->|Ha].
  - apply wp_bind, wp_acquire_shares; [rewrite Hsh6; exact Hl|]. set (s7 := (s6.1, _)).
    apply wp_bind. eapply wp_mono; [apply (kfree_law p s7)|].
    { unfold s7, s6. cbn. rewrite Hlive5. apply elem_of_union_l. by apply elem_of_singleton. }
    intros _ s8 ([Hst8 Hsh8] & Hlive8). apply wp_bind, wp_shset.
    apply wp_bind, wp_release_shares; [cbn; by rewrite Hsh8|]. apply wp_ret. apply HQ0; cbn.
    + etrans; [exact Hst6|]. etrans; [apply (world_step_shares (set_shareslock true s6.2.1) s6)|].
      etrans; [exact Hst8|]. apply (world_step_shares _ s8).
    + rewrite Hsh8. unfold s7. cbn [snd fst]. rewrite Hsh6. clear -Hl Hpn.
      destruct s.2.1 as [ls lk ob st cm]. unfold set_shareslock, set_objects. cbn in Hl, Hpn |- *.
      rewrite delete_insert_eq, delete_id by done. by rewrite Hl.
    + rewrite Hlive8. unfold s7, s6. cbn. rewrite Hlive5. rewrite difference_union_distr_l_L, difference_diag_L, left_id_L by apply _.
      by apply not_taken.
  - specialize (Hfresh5 Ha). apply not_elem_of_union in Hfresh5 as [Hap Hfa].
    apply wp_bind, wp_shset, wp_ret. apply (HQ1 p a i); try done.
    + etrans; [exact Hst6|apply world_step_shares].
    + intros ->. apply Hap. by apply elem_of_singleton.
    + cbn [fst snd]. by rewrite Hsh6.
    + cbn. unfold s4, s3, s1 in *. cbn [fst snd] in *. lia.
Qed.
End share.
