(* ===== verification/ShareThm.v ===== *)
(** * Shared memory: the theorems

    Creating and getting a shared object: the list of objects as a map from owners
    and names, the pages of the caller, and the memory that two environments share
    through an object. *)

From S2P Require Import Prelude Queue CString CStringSpec Paging PagingSpec PagingThm VMSpec VMPaging Spaces Share ShareSpec.

Section share.
Context {X : Type} {PE : PageEnv (shares * X)} {PO : PageEnvOk (shares * X)} {FR : Fresh (shares * X)}.
Context (TS : gset Z) (pins : Z → nat) (dirs : gset Z).
Context {SW : ShareHeap (X := X)} {SL : ShareLaws TS pins dirs}.
Implicit Types s : mm * (shares * X).
Implicit Types h : shares.
Notation upte := (upte (PE := PE)).
Notation spaces_ok := (spaces_ok TS pins dirs).
Notation same_pages := (same_pages dirs).
Notation mapped_somewhere := (mapped_somewhere TS).
Notation pages_mapped := (pages_mapped TS).
Notation pages_free := (pages_free (PE := PE)).
Notation world_step := (world_step TS pins dirs).
Notation takes_references := (takes_references TS).

Lemma lookup_object_objects h h' owner n :
  shares_list h' = shares_list h → (∀ p, objects h' !! p = objects h !! p) → lookup_object h' owner n = lookup_object h owner n.
Proof.
  intros Hl Ho. unfold lookup_object. rewrite Hl. clear Hl. induction (shares_list h) as [|p l IH]; [done|]. cbn. by rewrite Ho, IH.
Qed.
Lemma lookup_object_some h owner n p :
  lookup_object h owner n = Some p → p ∈ shares_list h ∧ ∃ o, objects h !! p = Some o ∧ ownerID o = owner ∧ name o = padded 64 n.
Proof. apply find_object_some. Qed.
(** The object is what its key finds. *)
Lemma lookup_object_key h x owner n p o :
  shares_ok h x → objects h !! p = Some o → ownerID o = owner → name o = padded 64 n → lookup_object h owner n = Some p.
Proof.
  intros Hok Ho Hw Hn. destruct (lookup_object h owner n) as [q|] eqn:Hl.
  - destruct (lookup_object_some _ _ _ _ Hl) as (_ & o' & Ho' & Hw' & Hn'). f_equal.
    eapply (sh_key _ _ Hok q p o' o); [done|done|congruence|congruence].
  - exfalso. eapply (find_object_none h owner (padded 64 n) (shares_list h) p o); [exact Hl| |done|done].
    apply (sh_list _ _ Hok). by exists o.
Qed.

(** ** The list with a new object *)
Definition with_new (p a : Z) (o : Share) (fs : list Z) h : shares :=
  SHARES (p :: shares_list h) (shareslock h) (<[p := o]> (objects h)) (<[a := fs]> (storages h)) (caller_memory h).
Lemma shares_ok_new h x x' p a o fs owner n :
  shares_ok h x → p ≠ NULL → p ≠ a → p ∉ heap_live x → a ∉ heap_live x → heap_live x' = {[a]} ∪ ({[p]} ∪ heap_live x) →
  chars n → (length n < 64)%nat → name o = padded 64 n → ownerID o = owner → framesStorage o = a →
  length fs = Z.to_nat (frames_of (share_size o)) → lookup_object h owner n = None →
  shares_ok (with_new p a o fs h) x'.
Proof.
  intros Hok Hp Hpa Hpf Haf Hlive Hc Hl Hn Hw Ha Hfs Hnone. destruct (shares_fresh h x p Hok Hpf) as [Hpo Hps].
  assert (Hpl : p ∉ shares_list h) by (rewrite (sh_list _ _ Hok), Hpo; by intros [? ?]).
  assert (Hsub : ∀ q, q ∈ heap_live x → q ∈ heap_live x') by (intros q Hq; rewrite Hlive; set_solver).
  assert (Hold : ∀ q o', objects h !! q = Some o' → q ≠ p ∧ framesStorage o' ≠ a ∧ framesStorage o' ≠ p).
  { intros q o' Ho'. destruct (oo_live _ _ _ _ (sh_object _ _ Hok q o' Ho')) as (_ & H1 & H2). split_and!; congruence. }
  split; cbn.
  - apply Hok.
  - constructor; [done|apply Hok].
  - intros q. rewrite elem_of_cons, lookup_insert_is_Some', (sh_list _ _ Hok). naive_solver.
  - intros q o' Ho'. apply lookup_insert_Some in Ho' as [[<- <-]|[Hne Ho']].
    + split; [by exists n|rewrite Ha, Hlive; set_solver|]. exists fs. cbn. by rewrite Ha, lookup_insert_eq.
    + destruct (sh_object _ _ Hok q o' Ho') as [H1 (H2 & H3 & H4) (gs & Hgs & Hlen)]. destruct (Hold q o' Ho') as (_ & Hna & _).
      split; [done|by split_and!; [|apply Hsub..]|]. exists gs. cbn. by rewrite lookup_insert_ne.
  - intros q q' o1 o2 H1 H2 Hw12 Hn12. apply lookup_insert_Some in H1 as [[<- <-]|[Hne H1]]; apply lookup_insert_Some in H2 as [[<- <-]|[Hne' H2]]; try done.
    + exfalso. eapply (find_object_none h owner (padded 64 n)); [exact Hnone|apply (sh_list _ _ Hok); by exists o2|exact H2|]. split; congruence.
    + exfalso. eapply (find_object_none h owner (padded 64 n)); [exact Hnone|apply (sh_list _ _ Hok); by exists o1|exact H1|]. split; congruence.
    + by eapply (sh_key _ _ Hok).
  - intros q q' o1 o2 H1 H2 Hst. apply lookup_insert_Some in H1 as [[<- <-]|[Hne H1]]; apply lookup_insert_Some in H2 as [[<- <-]|[Hne' H2]]; try done.
    + destruct (Hold q' o2 H2) as (_ & ? & _). congruence.
    + destruct (Hold q o1 H1) as (_ & ? & _). congruence.
    + by eapply (sh_store _ _ Hok).
  - intros b gs Hb. apply lookup_insert_Some in Hb as [[<- <-]|[Hne Hb]]; [rewrite Hlive; set_solver|]. apply Hsub. by eapply (sh_stored _ _ Hok).
Qed.
Lemma lookup_object_new h p a o fs owner n :
  p ∉ shares_list h → (ownerID o, name o) ≠ (owner, padded 64 n) →
  lookup_object (with_new p a o fs h) owner n = lookup_object h owner n.
Proof.
  intros Hp Hne. unfold lookup_object. cbn. rewrite lookup_insert_eq. rewrite decide_False by (intros [H1 H2]; apply Hne; by rewrite H1, H2).
  revert Hp. induction (shares_list h) as [|q l IH]; intros Hp; [done|]. apply not_elem_of_cons in Hp as [Hq Hp]. cbn.
  rewrite lookup_insert_ne by done. by rewrite IH.
Qed.
Lemma pages_free_world d va k s s' : d ∈ dirs → same_pages (λ _ _, False) s s' → pages_free d va k s → pages_free d va k s'.
Proof. intros Hd Hs. eapply pages_free_step; [done|exact Hs|]. intros j _ []. Qed.
(** The pages before and after the steps that change none. *)
Lemma pages_mapped_world d va perm fs s s1 s' :
  d ∈ dirs → (∀ j, 0 ≤ j < size fs → user (va + PAGE_SIZE * j)) → same_pages (λ _ _, False) s s1 →
  pages_mapped d va perm fs s1 s' → pages_mapped d va perm fs s s'.
Proof.
  intros Hd Hu Hs Hm j fi Hj. destruct (Hm j fi Hj) as (H1 & H2 & H3 & H4). apply lookup_lt_Some in Hj.
  destruct (Hs d _ Hd (Hu (Z.of_nat j) ltac:(lia))) as [_ He]. cbv zeta in *. rewrite He in H3 by tauto. done.
Qed.

(** ** Creating *)
Definition MAX_SHARE : Z := 2147479552. (* 2^31 - PAGE_SIZE *)
Lemma frames_of_bound sz : 0 ≤ sz < MAX_SHARE → i32 sz = sz ∧ 0 ≤ frames_of sz ≤ 524288.
Proof.
  unfold MAX_SHARE. intros Hsz. split; [by apply i32_small; lia|]. unfold frames_of, PAGE_SIZE.
  destruct (ROUNDUP_spec sz 4096) as ([k Hk] & Hr); [lia..|]. rewrite Hk, Z.div_mul by lia. lia.
Qed.
Definition create_room (n : Z) s : Prop :=
  can_alloc SHARE_SIZE s.2.2 ∧
  (heap_cost SHARE_SIZE + heap_cost (w32 (POINTER_SIZE * n)) + Z.to_nat n ≤ length (free_frame_list s.1))%nat.
(** What a new object is, and what its creator sees. *)
Definition created (d owner : Z) (n : list Z) (sz w va : Z) (p a : Z) (fs : list Z) s s' : Prop :=
  s'.2.1 = with_new p a (new_object (Z.land va 2147483647) owner n sz w a) fs s.2.1 ∧
  p ∉ shares_list s.2.1 ∧ length fs = Z.to_nat (frames_of sz) ∧
  pages_mapped d va (Z.lor PERM_USER PERM_WRITEABLE) fs s s' ∧
  same_pages (in_pages d va (length fs)) s s' ∧ NoDup fs ∧ ∀ fi, fi ∈ fs → frefs fi s' = 1.
Lemma wp_create_shared fuel A d owner nm n sz w va s (Q : Z → _ → Prop) :
  (64 ≤ fuel)%nat → spaces_ok A s → shares_ok s.2.1 s.2.2 → d ∈ dirs →
  cstr nm n (caller_memory s.2.1) → (length n < 64)%nat → 0 ≤ sz < MAX_SHARE → 0 ≤ va < 4294967296 →
  (lookup_object s.2.1 owner n = None → pages_free d va (Z.to_nat (frames_of sz)) s ∧ create_room (frames_of sz) s) →
  match lookup_object s.2.1 owner n with
  | Some _ => Q E_SHARED_MEM_EXISTS s
  | None =>
      (∀ s', world_step s s' → s'.2.1 = s.2.1 → shares_ok s'.2.1 s'.2.2 → Q E_NO_SHARE s') ∧
      ∀ p a fs s', spaces_ok A s' → shares_ok s'.2.1 s'.2.2 → number_of_frames s'.1 = number_of_frames s.1 →
        created d owner n sz w va p a fs s s' → Q (Z.land va 2147483647) s'
  end → wp (create_shared_object fuel d owner nm sz w va) Q s.
Proof.
  intros Hf Hs Hok Hd Hn Hl Hsz Hva Hready HQ. destruct (frames_of_bound sz Hsz) as [Hi32 Hfr].
  pose proof Hn as (_ & Hc & Hr). unfold in_range in Hr.
  unfold create_shared_object. apply wp_bind, (wp_find_share _ owner nm n); [done..|].
  destruct (lookup_object s.2.1 owner n) as [q|] eqn:Hlook; cbn [default].
  { destruct (lookup_object_some _ _ _ _ Hlook) as [Hin _]. destruct (shares_named _ _ Hok q Hin) as [Hq0 _].
    change (id q) with q. rewrite decide_True by done. by apply wp_ret. }
  destruct HQ as [HQ0 HQ1]. destruct (Hready eq_refl) as [Hfree [Hcan Hroom]]. change (decide (NULL ≠ NULL)) with (decide (0 ≠ 0)). rewrite decide_False by lia.
  apply wp_bind, (wp_alloc_share TS pins dirs owner nm n sz w s); [done|done|apply w32_small; lia|done| |].
  { intros s' Hst Hsh Hlive. rewrite decide_True by done. apply wp_ret, HQ0; [done|done|]. rewrite Hsh.
    destruct Hok as [H1 H2 H3 H4 H5 H6 H7]. split; try done; [|by rewrite Hlive].
    intros p o Ho. destruct (H4 p o Ho) as [? (? & ? & ?) ?]. split; rewrite ?Hlive; done. }
  intros p a i s1 Hst1 Hp Ha Hpa Hpf Haf Hsh1 Hlive1 Hfl1. rewrite decide_False by done.
  destruct (shares_fresh _ _ p Hok Hpf) as [Hpo _].
  assert (Hpl : p ∉ shares_list s.2.1) by (rewrite (sh_list _ _ Hok), Hpo; by intros [? ?]).
  set (k := Z.to_nat (frames_of sz)) in *. set (o0 := new_object i owner n sz w a) in *.
  set (o1 := new_object (Z.land va 2147483647) owner n sz w a).
  apply wp_bind, wp_acquire_shares; [rewrite Hsh1; apply Hok|]. set (s2 := (s1.1, _)).
  apply wp_bind, wp_shget. apply wp_bind. unfold s2 at 1. cbn [fst snd].
  change (shares_list (set_shareslock true s1.2.1)) with (shares_list s1.2.1).
  replace (shares_list s1.2.1) with (shares_list s.2.1) by (by rewrite Hsh1).
  unfold wp at 1. rewrite lq_insert_head_run by done. apply wp_bind, wp_shset, wp_bind, wp_release_shares; [done|].
  set (s3 := (_, _)). assert (Hsh3 : s3.2.1 = set_shares_list (p :: shares_list s.2.1) s1.2.1).
  { unfold s3, s2. cbn [fst snd]. unfold set_shareslock, set_shares_list. cbn. rewrite Hsh1. cbn. by rewrite (sh_lock _ _ Hok). }
  apply wp_bind, wp_upd_share with o0; [rewrite Hsh3, Hsh1; apply lookup_insert_eq|]. set (s4 := (s3.1, _)).
  assert (Hsh4 : s4.2.1 = with_new p a o1 (replicate k 0) s.2.1).
  { unfold s4. cbn [fst snd]. rewrite Hsh3, Hsh1. unfold set_objects, set_shares_list, with_object, with_new. cbn.
    rewrite insert_insert_eq. rewrite (w32_small va) by done. done. }
  assert (Hst4 : world_step s s4).
  { etrans; [exact Hst1|]. exact (world_step_shares TS pins dirs s4.2.1 s1). }
  assert (s4.2.2 = s1.2.2 ∧ s4.1 = s1.1) as [Hx4 Hm4] by done.
  clearbody s4. clear s3 Hsh3 s2 Hi32.
  apply wp_bind. rewrite (w32_small va) by done. rewrite <- (w32_small va) at 1 by done.
  apply (wp_create_loop TS pins dirs d p o1 k [] (replicate k 0) va A s4).
  - rewrite Hsh4. apply lookup_insert_eq.
  - rewrite Hsh4. cbn. apply lookup_insert_eq.
  - apply length_replicate.
  - by apply (ws_spaces _ _ _ _ _ Hst4).
  - done.
  - eapply pages_free_world; [done|apply Hst4|done].
  - rewrite Hm4. lia.
  - intros fs s' Hlen Hs' He' Hsame Hmapped Hrefs Hnd _ _ Hnum. cbn [app] in *.
    assert (Hsh' : s'.2.1 = with_new p a o1 fs s.2.1).
    { rewrite He'. unfold with_storage. cbn [fst snd]. rewrite Hsh4. unfold with_new, set_storages. cbn. by rewrite insert_insert_eq. }
    assert (Hx' : s'.2.2 = s1.2.2) by (rewrite He'; unfold with_storage; cbn; done).
    apply wp_bind, wp_get_share with o1; [rewrite Hsh'; apply lookup_insert_eq|]. apply wp_ret.
    apply (HQ1 p a fs); [done| | |].
    + rewrite Hsh'. apply (shares_ok_new s.2.1 s.2.2 s'.2.2 p a o1 fs owner n); try done; [by rewrite Hx'|].
      cbn. by destruct (frames_of_bound sz Hsz) as [-> _].
    + rewrite Hnum. apply Hst4.
    + split_and!; try done.
      * eapply pages_mapped_world; [done| |apply Hst4|exact Hmapped]. intros j Hj. apply Hfree. lia.
      * intros d' va' Hd' Hu'. destruct (ws_pages _ _ _ _ _ Hst4 d' va' Hd' Hu') as [H1 H2], (Hsame d' va' Hd' Hu') as [H3 H4].
        split; [by rewrite H3|]. intros Hno. rewrite H4, H2; [done|tauto|]. by rewrite <- Hlen.
      * intros fi Hfi. by apply Hrefs.
Qed.

(** ** Getting *)
Definition got_perm (o : Share) : Z := if decide (isWritable o ≠ 0) then Z.lor PERM_USER PERM_WRITEABLE else PERM_USER.
Lemma shares_ok_reference h x p o :
  shares_ok h x → objects h !! p = Some o → shares_ok (set_objects (<[p := add_reference o]> (objects h)) h) x.
Proof.
  intros [H1 H2 H3 H4 H5 H6 H7] Ho.
  assert (Hold : ∀ q o', <[p := add_reference o]> (objects h) !! q = Some o' →
    ∃ o2, objects h !! q = Some o2 ∧ ownerID o' = ownerID o2 ∧ name o' = name o2 ∧ framesStorage o' = framesStorage o2 ∧ share_size o' = share_size o2).
  { intros q o' Hq. apply lookup_insert_Some in Hq as [[<- <-]|[_ Hq]]; [by exists o|by exists o']. }
  split; cbn; try done.
  - intros q. rewrite H3, lookup_insert_is_Some'. split; [by right|]. intros [<-|?]; [by exists o|done].
  - intros q o' Hq. destruct (Hold q o' Hq) as (o2 & Ho2 & E1 & E2 & E3 & E4). destruct (H4 q o2 Ho2) as [A1 A2 A3].
    split; cbn; rewrite ?E1, ?E2, ?E3, ?E4; done.
  - intros q q' o1 o2 Hq Hq' Ew En. destruct (Hold q o1 Hq) as (? & ? & E1 & E2 & _), (Hold q' o2 Hq') as (? & ? & E1' & E2' & _).
    eapply H5; [done|done|congruence|congruence].
  - intros q q' o1 o2 Hq Hq' Es. destruct (Hold q o1 Hq) as (? & ? & _ & _ & E1 & _), (Hold q' o2 Hq') as (? & ? & _ & _ & E1' & _).
    eapply H6; [done|done|congruence].
Qed.
Lemma mapped_not_allocated A s fi : spaces_ok A s → mapped_somewhere fi s → fi ∉ A.
Proof.
  intros Hs Hm HA. destruct (inv_alloc _ _ _ _ (sp_mm _ _ _ _ _ Hs) fi HA) as (Hi & y & Hy & Hy0).
  destruct (inv_refs _ _ _ _ (sp_mm _ _ _ _ _ Hs) fi y Hi Hy) as [Hr _]. unfold Spaces.mapped_somewhere in Hm. lia.
Qed.
Lemma wp_get_shared fuel A d owner nm n va s (Q : Z → _ → Prop) :
  (64 ≤ fuel)%nat → spaces_ok A s → shares_ok s.2.1 s.2.2 → d ∈ dirs →
  cstr nm n (caller_memory s.2.1) → (length n < 64)%nat → 0 ≤ va < 4294967296 →
  match lookup_object s.2.1 owner n with
  | None => Q E_SHARED_MEM_NOT_EXISTS s
  | Some p => ∃ o fs, objects s.2.1 !! p = Some o ∧ storages s.2.1 !! framesStorage o = Some fs ∧
      pages_free d va (length fs) s ∧ takes_references (size fs) fs s ∧
      ∀ s', spaces_ok A s' → shares_ok s'.2.1 s'.2.2 →
        s'.2.1 = set_objects (<[p := add_reference o]> (objects s.2.1)) s.2.1 →
        same_pages (in_pages d va (length fs)) s s' → pages_mapped d va (got_perm o) fs s s' →
        (∀ i, 0 ≤ i → frefs i s' = frefs i s + occurrences i fs) → Q (ID o) s'
  end → wp (get_shared_object fuel d owner nm va) Q s.
Proof.
  intros Hf Hs Hok Hd Hn Hl Hva HQ. unfold get_shared_object. pose proof (sh_lock _ _ Hok) as Hlock.
  apply wp_bind, wp_acquire_shares; [done|]. set (s1 := (s.1, (set_shareslock true s.2.1, s.2.2))).
  apply wp_bind, wp_shget, wp_bind. apply (wp_get_loop _ owner nm n); [done| |done|done|].
  { exact (shares_named _ _ Hok). }
  change (shares_list s1.2.1) with (shares_list s.2.1).
  assert (∀ l, find_object s1.2.1 owner (padded 64 n) l = find_object s.2.1 owner (padded 64 n) l) as ->.
  { intros l. induction l as [|p l IH]; [done|]. cbn [find_object]. by rewrite IH. }
  fold (lookup_object s.2.1 owner n). destruct (lookup_object s.2.1 owner n) as [p|] eqn:Hlook.
  - destruct HQ as (o & fs & Ho & Hst & Hfree & Htake & HQ). intros o' Ho'. change (objects s1.2.1) with (objects s.2.1) in Ho'.
    rewrite Ho in Ho'. injection Ho' as <-. destruct (lookup_object_some _ _ _ _ Hlook) as [Hin _].
    destruct (shares_named _ _ Hok p Hin) as [Hp0 _]. destruct (oo_frames _ _ _ _ (sh_object _ _ Hok p o Ho)) as (fs' & Hfs' & Hlen).
    rewrite Hst in Hfs'. injection Hfs' as <-.
    apply wp_bind, wp_release_shares; [done|]. rewrite decide_False by done.
    set (h2 := set_objects (<[p := add_reference o]> (objects s.2.1)) s.2.1). set (s2 := (_, _)).
    assert (Hs2 : s2 = (s.1, (h2, s.2.2))).
    { unfold s2, h2, s1. cbn [fst snd]. unfold set_shareslock, set_objects. cbn. by rewrite Hlock. }
    rewrite Hs2. clear Hs2 s2 s1. apply wp_bind, wp_get_share with (add_reference o); [apply lookup_insert_eq|].
    change (framesStorage (add_reference o)) with (framesStorage o). change (share_size (add_reference o)) with (share_size o).
    change (isWritable (add_reference o)) with (isWritable o). fold (got_perm o). cbv zeta.
    rewrite <- Hlen. rewrite (w32_small va) by done. rewrite <- (w32_small va) at 1 by done. apply wp_bind.
    assert (Hst2 : world_step s (s.1, (h2, s.2.2))) by exact (world_step_shares TS pins dirs h2 s).
    apply (wp_map_loop TS pins dirs d (framesStorage o) (got_perm o) [] fs va A).
    + done.
    + by apply (ws_spaces _ _ _ _ _ Hst2).
    + done.
    + eapply pages_free_world; [done|apply Hst2|done].
    + exact Htake.
    + unfold got_perm. by case_decide.
    + unfold got_perm. by case_decide.
    + intros fi Hfi. eapply mapped_not_allocated; [exact Hs|]. by apply Htake.
    + intros s' Hs' He' Hsame Hmapped Hms Hnum Hcount. apply wp_ret. apply HQ; try done.
      * rewrite He'. by apply shares_ok_reference.
      * by rewrite He'.
      * intros d' va' Hd' Hu'. destruct (ws_pages _ _ _ _ _ Hst2 d' va' Hd' Hu') as [H1 H2], (Hsame d' va' Hd' Hu') as [H3 H4].
        split; [by rewrite H3|]. intros Hno. by rewrite H4, H2 by tauto.
      * eapply pages_mapped_world; [done| |apply Hst2|exact Hmapped]. intros j Hj. by apply Hfree.
  - apply wp_bind, wp_release_shares; [done|]. rewrite decide_True by done. apply wp_ret.
    assert ((s1.1, (set_shareslock false s1.2.1, s1.2.2)) = s) as ->; [|done].
    unfold s1. cbn. rewrite set_lock_back by done. by destruct s as [? []].
Qed.

(** ** The theorems *)


(** C32: Memory is shared: after one environment creates an object and another gets it,
    the call returns the identifier that the creator got and each page of the
    object lies on the same frame in both environments, with two references,
    writable by the creator, and writable by the other exactly when the object
    was created so; when the object could not be created it cannot be got. *)
Theorem create_get_share_memory fuel A d1 d2 owner nm n sz w va1 va2 s :
  (64 ≤ fuel)%nat → spaces_ok A s → shares_ok s.2.1 s.2.2 → d1 ∈ dirs → d2 ∈ dirs → d1 ≠ d2 →
  cstr nm n (caller_memory s.2.1) → (length n < 64)%nat → 0 < sz < 262144000 → 0 ≤ va1 < 4294967296 → 0 ≤ va2 < 4294967296 →
  pages_free d1 va1 (Z.to_nat (frames_of sz)) s → pages_free d2 va2 (Z.to_nat (frames_of sz)) s →
  create_room (frames_of sz) s → lookup_object s.2.1 owner n = None →
  wp (r1 ← create_shared_object fuel d1 owner nm sz w va1;
      r2 ← get_shared_object fuel d2 owner nm va2; mret (r1, r2)) (λ r s',
    r = (E_NO_SHARE, E_SHARED_MEM_NOT_EXISTS) ∨
    r = (Z.land va1 2147483647, Z.land va1 2147483647) ∧ ∀ j, 0 ≤ j < frames_of sz →
      let e1 := upte d1 (va1 + PAGE_SIZE * j) s' in
      let e2 := upte d2 (va2 + PAGE_SIZE * j) s' in
      PPN e1 = PPN e2 ∧ maps e1 = true ∧ maps e2 = true ∧ frefs (PPN e1) s' = 2 ∧
      Z.land e1 4095 = mapped_bits (upte d1 (va1 + PAGE_SIZE * j) s) (Z.lor PERM_USER PERM_WRITEABLE) ∧
      Z.land e2 4095 = mapped_bits (upte d2 (va2 + PAGE_SIZE * j) s) (if decide (w8 w ≠ 0) then Z.lor PERM_USER PERM_WRITEABLE else PERM_USER)) s.
Proof.
  intros Hf Hs Hok Hd1 Hd2 Hne Hn Hl Hsz Hva1 Hva2 Hf1 Hf2 Hroom Hlook.
  assert (Hmax : 0 ≤ sz < MAX_SHARE) by (unfold MAX_SHARE; lia). destruct (frames_of_bound sz Hmax) as [Hi32 _].
  assert (Hbound : 0 ≤ frames_of sz ≤ 64000).
  { unfold frames_of, PAGE_SIZE. destruct (ROUNDUP_spec sz 4096) as ([k Hk] & Hr); [lia..|]. rewrite Hk, Z.div_mul by lia. lia. }
  apply wp_bind, (wp_create_shared fuel A d1 owner nm n sz w va1 s); try done. rewrite Hlook. split.
  - intros s1 Hst Hsh Hok1. apply wp_bind, (wp_get_shared fuel A d2 owner nm n va2 s1); try done.
    + by apply (ws_spaces _ _ _ _ _ Hst).
    + by rewrite Hsh.
    + rewrite Hsh, Hlook. apply wp_ret. by left.
  - intros p a fs s1 Hs1 Hok1 Hnum1 (Hsh & Hpl & Hlen & Hmapped & Hsame & Hnd & Hrefs).
    set (o := new_object (Z.land va1 2147483647) owner n sz w a) in *.
    assert (Ho : objects s1.2.1 !! p = Some o) by (rewrite Hsh; apply lookup_insert_eq).
    apply wp_bind, (wp_get_shared fuel A d2 owner nm n va2 s1); try done; [by rewrite Hsh|].
    rewrite (lookup_object_key s1.2.1 s1.2.2 owner n p o) by done. exists o, fs.
    assert (Hapart : ∀ k va', ¬ in_pages d1 va1 k d2 va') by (intros k va' [? _]; done).
    split_and!; [done|rewrite Hsh; apply lookup_insert_eq| | |].
    + rewrite Hlen. eapply pages_free_step; [done|exact Hsame|by intros|done].
    + intros fi Hfi. rewrite (Hrefs fi Hfi). apply list_elem_of_lookup in Hfi as [j Hj].
      destruct (Hmapped j fi Hj) as (_ & _ & _ & Hms & Hfi). split_and!; [apply Hfi|apply Hfi|done|lia].
    + intros s2 Hs2 Hok2 _ Hsame2 Hmapped2 Hcount. apply wp_ret. right. split; [done|]. intros j Hj e1 e2.
      destruct (lookup_lt_is_Some_2 fs (Z.to_nat j)) as [fi Hfj]; [lia|].
      destruct (Hmapped _ _ Hfj) as (P1 & M1 & B1 & _ & F1), (Hmapped2 _ _ Hfj) as (P2 & M2 & B2 & _).
      rewrite Z2Nat.id in * by lia. destruct (Hf1 j ltac:(lia)) as (Hu1 & _), (Hf2 j ltac:(lia)) as (Hu2 & _).
      destruct (Hsame2 d1 _ Hd1 Hu1) as [_ He1]. rewrite <- He1 in P1, M1, B1 by (intros [? _]; done).
      destruct (Hsame d2 _ Hd2 Hu2) as [_ He2]. rewrite He2 in B2 by (intros [? _]; done).
      split_and!; [by unfold e1, e2; rewrite P1, P2|done|done| |done|exact B2].
      unfold e1. rewrite P1, Hcount by lia. apply list_elem_of_lookup_2 in Hfj. rewrite (Hrefs fi Hfj), (occurrences_in fi fs Hnd Hfj). done.
Qed.
End share.
