(* ===== verification/ShareWorld.v ===== *)
(** * Shared memory on a small machine

    Two environments with one page table each, twelve free frames and a kernel heap
    that gives out fresh addresses. The assumptions of ShareSpec.v hold of it, and
    the theorems of ShareThm.v apply to a concrete object. *)

From S2P Require Import Prelude Queue CString CStringSpec Paging PagingSpec PagingThm VMSpec VMPaging Spaces Share ShareSpec ShareThm.

(** The next address of the heap and the addresses that are allocated. *)
Notation heap := (Z * gset Z)%type.
Notation st := (mm * (shares * heap))%type.
Definition heap_can (x : heap) : Prop := x.1 ≠ NULL ∧ x.1 ∉ x.2.
#[local] Instance heap_can_dec x : Decision (heap_can x).
Proof. unfold heap_can. apply _. Defined.
Definition heap_alloc (x : heap) : heap := (x.1 + 1, {[x.1]} ∪ x.2).
#[local] Instance v_env : PageEnv (shares * heap) := {|
  kmalloc _ s := let x := s.2.2 in
    if decide (heap_can x) then Ok x.1 (s.1, (s.2.1, heap_alloc x)) else Ok NULL s;
  kfree p s := Ok tt (s.1, (s.2.1, (s.2.2.1, s.2.2.2 ∖ {[p]})));
  kheap_virtual_address pa _ := pa + 1048576;
  kheap_physical_address va _ := va - 1048576;
  fault_handler := panic;
  zero_page _ s := s |}.
#[local] Instance v_env_ok : PageEnvOk (shares * heap).
Proof. by split. Qed.
#[local] Instance v_fresh : Fresh (shares * heap) := λ p _, p.
#[local] Instance v_heap : ShareHeap (X := heap) := {|
  heap_live := snd; heap_cost _ := 0%nat; can_alloc _ := heap_can |}.

Section laws.
Context (TS : gset Z) (pins : Z → nat) (dirs : gset Z).
Lemma v_spaces A (s : st) x' : spaces_ok TS pins dirs A s → spaces_ok TS pins dirs A (s.1, (s.2.1, x')).
Proof. intros [H1 H2 H3]. split; [done| |done]. intros d Hd. destruct (H2 d Hd) as [A1 A2 A3]. by split. Qed.
Lemma v_step (s : st) x' : heap_step TS pins dirs s (s.1, (s.2.1, x')).
Proof. split; [|done]. split; [|done|done|done]. intros A. apply v_spaces. Qed.
#[local] Instance v_laws : ShareLaws TS pins dirs.
Proof.
  split; [done| |].
  - intros n s. unfold wp. cbn. destruct (decide (heap_can s.2.2)) as [[H0 Hf]|Hn].
    + rewrite decide_False by done. split; [apply v_step|]. split; [cbn; lia|]. by split_and!.
    + split; [|split; [cbn; lia|by split_and!]]. pose proof (v_step s s.2.2) as Hst. by destruct s as [? []].
  - intros p s _. unfold wp. cbn. split; [apply v_step|done].
Qed.
End laws.

Definition v_t1 : Z := 1056768. (* kheap_virtual_address (8192), the table on frame 2 *)
Definition v_t2 : Z := 1060864. (* on frame 3 *)
Definition v_dir (e : Z) : list Z := <[512%nat := e]> (replicate 1024 0).
Definition v_frames : list FrameInfo := replicate 4 (FI 1 0 0 0) ++ replicate 12 zero_frame.
Definition v_mm : mm :=
  MM v_frames (seqZ 4 12) [] false
    (<[v_t1 := replicate 1024 0]> (<[v_t2 := replicate 1024 0]> (<[100 := v_dir 8199]> {[200 := v_dir 12295]}))) 0 0.
Definition v_TS : gset Z := {[v_t1; v_t2]}.
Definition v_dirs : gset Z := {[100; 200]}.
Definition v_pins (i : Z) : nat := if decide (0 ≤ i < 4) then 1%nat else 0%nat.
Definition v_shares : shares := SHARES [] false ∅ ∅ (put 4096 ([120] ++ [0]) ∅).
Definition v_st : st := (v_mm, (v_shares, (5000, ∅))).

Lemma v_table_zero t : t ∈ v_TS → arrays v_mm !! t = Some (replicate 1024 0).
Proof. unfold v_TS. rewrite elem_of_union, !elem_of_singleton. by intros [->| ->]; vm_compute. Qed.
Lemma count_in_zero i n : count_in i (replicate n 0) = 0%nat.
Proof. unfold count_in. induction n as [|n IH]; [done|]. cbn [replicate sum_list_with]. by rewrite IH. Qed.
Lemma v_count i : count_refs (arrays v_mm) v_TS i = 0%nat.
Proof.
  unfold count_refs. assert (∀ t, t ∈ base.elements v_TS → t ∈ v_TS) as Hin by (intros t; by rewrite elem_of_elements).
  induction (base.elements v_TS) as [|t l IH]; [done|]. cbn [sum_list_with]. rewrite IH by (intros t' Ht'; apply Hin; by right).
  unfold table_at. rewrite v_table_zero by (apply Hin; by left).
  change (default [] (Some (replicate 1024 0))) with (replicate 1024 0). by rewrite count_in_zero.
Qed.
Lemma v_frame i x : frames_info v_mm !! i = Some x → (i < 16)%nat ∧ references x = if decide (i < 4)%nat then 1 else 0.
Proof.
  intros Hx. apply lookup_lt_Some in Hx as Hlt. change (i < 16)%nat in Hlt. split; [done|].
  do 16 (destruct i as [|i]; [injection Hx as <-; reflexivity|]). lia.
Qed.
Lemma v_inv : mm_inv v_TS v_pins ∅ v_mm.
Proof.
  split.
  - by vm_compute.
  - intros t Ht. exists (replicate 1024 0). split_and!; [by apply v_table_zero|apply length_replicate|].
    apply Forall_replicate. by vm_compute.
  - intros i x Hi Hx. rewrite v_count. apply v_frame in Hx as [Hlt ->]. unfold v_pins.
    destruct (decide (0 ≤ i < 4)), (decide (Z.to_nat i < 4)%nat); lia.
  - apply NoDup_seqZ.
  - intros i. change (free_frame_list v_mm) with (seqZ 4 12). rewrite elem_of_seqZ. split.
    + intros Hi. split_and!; [apply not_elem_of_empty|lia|].
      destruct (lookup_lt_is_Some_2 (frames_info v_mm) (Z.to_nat i)) as [x Hx]; [change (Z.to_nat i < 16)%nat; lia|].
      exists x. split; [done|]. apply v_frame in Hx as [_ ->]. by rewrite decide_False by lia.
    + intros (_ & Hi & x & Hx & H0). apply v_frame in Hx as [Hlt Hr]. rewrite Hr in H0. case_decide; lia.
  - intros i Hi. by apply not_elem_of_empty in Hi.
  - done.
Qed.
Lemma v_pde d va : d ∈ v_dirs → pde_of d va v_mm = if decide (PDX va = 512) then (if decide (d = 100) then 8199 else 12295) else 0.
Proof.
  intros Hd. assert (∃ e, arrays v_mm !! d = Some (v_dir e) ∧ e = if decide (d = 100) then 8199 else 12295) as (e & He & <-).
  { unfold v_dirs in Hd. rewrite elem_of_union, !elem_of_singleton in Hd. destruct Hd as [->| ->]; eexists; by split; [vm_compute|]. }
  unfold pde_of, table_at. rewrite He. cbn [default]. unfold id, v_dir.
  assert (0 ≤ PDX va < 1024) as Hpdx.
  { unfold PDX. change 1023 with (Z.ones 10). rewrite Z.land_ones by lia. apply Z.mod_pos_bound. lia. }
  destruct (decide (PDX va = 512)) as [->|Hne].
  - apply list_lookup_total_insert_eq. by rewrite length_replicate; lia.
  - rewrite list_lookup_total_insert_ne by lia. apply lookup_total_replicate_2. lia.
Qed.
Lemma v_has_table d va x : d ∈ v_dirs → has_table d va (v_mm, x) (E := shares * heap) ↔ PDX va = 512.
Proof.
  intros Hd. unfold has_table. cbn [fst]. rewrite v_pde by done. destruct (decide (PDX va = 512)); [|by split].
  by destruct (decide (d = 100)).
Qed.
Lemma v_ptab d va x : d ∈ v_dirs → PDX va = 512 → ptab d va (v_mm, x) = if decide (d = 100) then v_t1 else v_t2.
Proof.
  intros Hd Hp. unfold ptab. cbn [fst]. rewrite v_pde, decide_True by done. by destruct (decide (d = 100)).
Qed.
Lemma v_spaces_ok : spaces_ok v_TS v_pins v_dirs ∅ v_st.
Proof.
  split; [exact v_inv| |].
  - intros d Hd. split.
    + unfold v_dirs, v_TS in *. rewrite elem_of_union, !elem_of_singleton in Hd. split.
      * rewrite not_elem_of_union, !not_elem_of_singleton. unfold v_t1, v_t2. lia.
      * destruct Hd as [->| ->]; eexists; (split; [by vm_compute|done]).
    + intros va Hu Ht%v_has_table; [|done]. unfold v_st. rewrite v_ptab by done. split_and!.
      * unfold v_TS. rewrite elem_of_union, !elem_of_singleton. case_decide; tauto.
      * by case_decide.
      * change (table_at (arrays v_mm) d !!! Z.to_nat (PDX va)) with (pde_of d va v_mm).
        unfold table_frame. cbn [fst]. change (table_at (arrays v_mm) d !!! Z.to_nat (PDX va)) with (pde_of d va v_mm).
        rewrite v_pde, decide_True by done. unfold v_pins. rewrite decide_True; [lia|]. case_decide; by vm_compute.
      * cbn [fst]. apply v_count.
    + intros va va' Hu Hu' Ht%v_has_table Ht'%v_has_table _; [congruence|done..].
  - intros d d' va va' Hd Hd' Hu Hu' Ht%v_has_table Ht'%v_has_table; [|done..]. unfold v_st. rewrite !v_ptab by done.
    unfold v_dirs in *. rewrite !elem_of_union, !elem_of_singleton in Hd, Hd'.
    destruct Hd as [->| ->], Hd' as [->| ->]; vm_compute; done.
Qed.
Lemma v_shares_ok : shares_ok v_shares (5000, ∅ : gset Z).
Proof.
  split; try done; try (intros; simplify_map_eq; done).
  - constructor.
  - intros p. split; [by intros ?%elem_of_nil|by intros [? ?]].
Qed.
Definition v_va : Z := 2147483648.
Lemma v_pages_free d : d ∈ v_dirs → pages_free d v_va 2 v_st.
Proof.
  intros Hd j Hj. assert (user (v_va + PAGE_SIZE * j) ∧ PDX (v_va + PAGE_SIZE * j) = 512) as [Hu Hp].
  { assert (j = 0 ∨ j = 1) as [->| ->] by lia; by vm_compute. }
  assert (has_table d (v_va + PAGE_SIZE * j) v_st) as Ht by (by apply v_has_table).
  split_and!; [done|done|]. rewrite upte_tabled by done. unfold v_st. rewrite v_ptab by done. cbn [fst].
  unfold pte_of, table_at. rewrite v_table_zero by (unfold v_TS; case_decide; set_solver). cbn [default]. unfold id.
  rewrite lookup_total_replicate_2; [done|]. pose proof (PTX_range (v_va + PAGE_SIZE * j)). lia.
Qed.
Lemma v_name : cstr 4096 [120] (caller_memory v_shares).
Proof. apply cstr_put; [by repeat constructor|]. unfold in_range. cbn. lia. Qed.
Lemma v_room : create_room (X := heap) 2 v_st.
Proof. split; [by split|vm_compute; lia]. Qed.

Lemma create_get_share_memory_witness :
  wp (r1 ← create_shared_object 64 100 7 4096 5000 1 v_va;
      r2 ← get_shared_object 64 200 7 4096 v_va; mret (r1, r2)) (λ r s',
    r = (E_NO_SHARE, E_SHARED_MEM_NOT_EXISTS) ∨ r = (0, 0) ∧ PPN (upte 100 v_va s') = PPN (upte 200 v_va s')) v_st.
Proof.
  eapply wp_mono; [apply (create_get_share_memory v_TS v_pins v_dirs (SL := v_laws v_TS v_pins v_dirs)
    64 ∅ 100 200 7 4096 [120] 5000 1 v_va v_va v_st)|].
  - lia.
  - exact v_spaces_ok.
  - exact v_shares_ok.
  - unfold v_dirs. set_solver.
  - unfold v_dirs. set_solver.
  - lia.
  - exact v_name.
  - cbn. lia.
  - lia.
  - unfold v_va. lia.
  - unfold v_va. lia.
  - apply v_pages_free. unfold v_dirs. set_solver.
  - apply v_pages_free. unfold v_dirs. set_solver.
  - exact v_room.
  - reflexivity.
  - intros r s' [->|(-> & Hj)]; [by left|right; split; [done|]].
    destruct (Hj 0 ltac:(vm_compute; done)) as (Hp & _). exact Hp.
Defined.

(** A name of 64 characters or more fills [name] without a terminator, and the next
    search for it reads over the end of the array. *)
Definition v_long : shares :=
  SHARES [5000] false {[5000 := SHARE 0 7 (padded 64 (replicate 70 120)) 1 1 1 5001]} {[5001 := [4]]}
    (put 4096 (replicate 70 120 ++ [0]) ∅).
Lemma long_name_not_terminated : find_share 80 7 4096 (v_mm, (v_long, (5002, ∅ : gset Z))) = Undef.
Proof. by vm_compute. Qed.
