(* ===== verification/Console.v ===== *)
(** * The console (kern/cons/console.c)

    The screen in text mode, the decoding of scan codes, and the circular buffer
    of input characters that the interrupt handlers fill and the readers empty.
    The devices are reached through the port instructions of Ide.v. The console
    is locked by turning the interrupts off (LCK_INT). *)

From S2P Require Import Prelude Ide.

Definition CRT_COLS : Z := 80.
Definition CRT_SIZE : Z := 2000.
Definition CONSBUFSIZE : Z := 512.
Definition KBSTATP : Z := 100.
Definition KBDATAP : Z := 96.
Definition KBS_DIB : Z := 1.
Definition COM1 : Z := 1016.
Definition KEY_HOME : Z := 224.
Definition KEY_END : Z := 225.
Definition KEY_UP : Z := 226.
Definition KEY_DN : Z := 227.
Definition KEY_LF : Z := 228.
Definition KEY_RT : Z := 229.
Definition KEY_PGUP : Z := 230.
Definition KEY_PGDN : Z := 231.
Definition KEY_INS : Z := 232.
Definition KEY_DEL : Z := 233.
Definition KEY_SPACE : Z := 255.
Definition SHIFT : Z := 1.
Definition CTL : Z := 2.
Definition ALT : Z := 4.
Definition CAPSLOCK : Z := 8.
Definition NUMLOCK : Z := 16.
Definition SCROLLLOCK : Z := 32.
Definition E0ESC : Z := 64.

(** [crt_buf] is the video memory as 16-bit cells, from the first cell of the
    screen on, for a colour adapter. *)
Record console := CON {
  cons_buf : list Z;
  rpos : Z;
  wpos : Z;
  shift : Z;
  text_length : Z;
  crt_buf : list Z;
  crt_pos : Z;
  addr_6845 : Z;
  current_text_color : Z;
  serial_exists : bool
}.
Definition set_ring (b : list Z) (r w : Z) (c : console) : console :=
  CON b r w (shift c) (text_length c) (crt_buf c) (crt_pos c) (addr_6845 c) (current_text_color c) (serial_exists c).
Definition set_shift (x : Z) (c : console) : console :=
  CON (cons_buf c) (rpos c) (wpos c) x (text_length c) (crt_buf c) (crt_pos c) (addr_6845 c) (current_text_color c) (serial_exists c).
Definition set_text_length (x : Z) (c : console) : console :=
  CON (cons_buf c) (rpos c) (wpos c) (shift c) x (crt_buf c) (crt_pos c) (addr_6845 c) (current_text_color c) (serial_exists c).
Definition set_crt_buf (x : list Z) (c : console) : console :=
  CON (cons_buf c) (rpos c) (wpos c) (shift c) (text_length c) x (crt_pos c) (addr_6845 c) (current_text_color c) (serial_exists c).
Definition set_crt_pos (x : Z) (c : console) : console :=
  CON (cons_buf c) (rpos c) (wpos c) (shift c) (text_length c) (crt_buf c) x (addr_6845 c) (current_text_color c) (serial_exists c).
Definition set_color (x : Z) (c : console) : console :=
  CON (cons_buf c) (rpos c) (wpos c) (shift c) (text_length c) (crt_buf c) (crt_pos c) (addr_6845 c) x (serial_exists c).
Definition set_serial (x : bool) (c : console) : console :=
  CON (cons_buf c) (rpos c) (wpos c) (shift c) (text_length c) (crt_buf c) (crt_pos c) (addr_6845 c) (current_text_color c) x.

(** ** The tables of scan codes *)
Definition chars (s : string) : list Z := map (λ a, Z.of_N (Ascii.N_of_ascii a)) (String.list_ascii_of_string s).
Definition NO : Z := 0.
Definition nos (n : nat) : list Z := replicate n NO.
(** A table of 256 bytes: the entries in order, then designated entries. *)
Definition table (l : list Z) (entries : list (Z * Z)) : list Z :=
  foldl (λ t e, <[Z.to_nat e.1 := e.2]> t) (take 256 (l ++ nos 256)) entries.
Definition shiftcode : list Z :=
  table [] [(29, CTL); (42, SHIFT); (54, SHIFT); (56, ALT); (157, CTL); (184, ALT)].
Definition togglecode : list Z := table [] [(58, CAPSLOCK); (69, NUMLOCK); (70, SCROLLLOCK)].
Definition navigation : list (Z * Z) :=
  [(200, KEY_UP); (201, KEY_PGUP); (203, KEY_LF); (205, KEY_RT); (207, KEY_END); (208, KEY_DN);
   (209, KEY_PGDN); (210, KEY_INS); (211, KEY_DEL)].
Definition keypad : list Z := nos 7 ++ chars "789-456+1230.".
Definition normalmap : list Z :=
  table ([NO; 27] ++ chars "1234567890-=" ++ [8; 9] ++ chars "qwertyuiop[]" ++ [10; NO] ++ chars "asdfghjkl;'`" ++ [NO]
         ++ chars "\zxcvbnm,./" ++ [NO] ++ chars "*" ++ [NO] ++ chars " " ++ nos 6 ++ keypad)
    ([(151, KEY_HOME); (156, 10); (181, 47)] ++ navigation).
Definition shiftmap : list Z :=
  table ([NO; 27] ++ chars "!@#$%^&*()_+" ++ [8; 9] ++ chars "QWERTYUIOP{}" ++ [10; NO] ++ chars "ASDFGHJKL:" ++ [34]
         ++ chars "~" ++ [NO] ++ chars "|ZXCVBNM<>?" ++ [NO] ++ chars "*" ++ [NO] ++ chars " " ++ nos 6 ++ keypad)
    ([(151, KEY_HOME); (156, 10); (181, 47)] ++ navigation).
(** [C(x)] as a byte. *)
Definition ctl (s : string) : list Z := map (λ x, w8 (x - 64)) (chars s).
Definition ctlmap : list Z :=
  table (nos 16 ++ ctl "QWERTYUIOP" ++ [NO; NO; 13; NO] ++ ctl "ASDFGHJKL" ++ nos 4 ++ ctl "\ZXCVBNM" ++ [NO; NO]
         ++ ctl "/" ++ [NO; NO])
    ([(57, KEY_SPACE); (157, NO); (151, KEY_HOME); (181, w8 (47 - 64))] ++ navigation).
Definition charcode : list (list Z) := [normalmap; shiftmap; ctlmap; ctlmap].

Section code.
Context {X : Type} `{Ports X}.
Notation C := (M (console * X)).

Definition cget {A} (f : console → A) : C A := gets (λ s, f s.1).
Definition cset (f : console → console) : C unit := modify (λ s, (f s.1, s.2)).
Definition port {A} (c : M X A) : C A := zoom snd (λ x s, (s.1, x)) c.
Definition cell (i : Z) : C Z := b ← cget crt_buf; unwrap (b !! Z.to_nat i).
Definition set_cell (i v : Z) : C unit :=
  b ← cget crt_buf; _ ← unwrap (b !! Z.to_nat i);
  cset (set_crt_buf (<[Z.to_nat i := w16 v]> b)).

(** ** The input buffer *)
Definition cons_put (c : Z) : C unit :=
  b ← cget cons_buf; r ← cget rpos; w ← cget wpos;
  _ ← unwrap (b !! Z.to_nat w);
  let w' := w32 (w + 1) in
  cset (set_ring (<[Z.to_nat w := w8 c]> b) r (if decide (w' = CONSBUFSIZE) then 0 else w')).
Fixpoint cons_intr (fuel : nat) (proc : C Z) : C unit :=
  match fuel with
  | O => nofuel
  | S fuel =>
      c ← proc;
      if decide (c = -1) then mret ()
      else when (bool_decide (c ≠ 0)) (cons_put c) ;; cons_intr fuel proc
  end.
Definition cons_getc2 : C Z :=
  r ← cget rpos; w ← cget wpos;
  if decide (r ≠ w) then
    b ← cget cons_buf;
    c ← unwrap (b !! Z.to_nat r);
    let r' := w32 (r + 1) in
    cset (set_ring b (if decide (r' = CONSBUFSIZE) then 0 else r') w) ;;
    mret c
  else mret 0.

(** ** The serial port *)
Definition serial_proc_data : C Z :=
  st ← port (inb (COM1 + 5));
  if decide (Z.land st 1 = 0) then mret (-1) else port (inb COM1).
Definition serial_intr (fuel : nat) : C unit :=
  e ← cget serial_exists; when e (cons_intr fuel serial_proc_data).
Definition serial_init : C unit :=
  port (outb (COM1 + 2) 0) ;;
  port (outb (COM1 + 3) 128) ;;
  port (outb COM1 (w8 (115200 / 9600))) ;;
  port (outb (COM1 + 1) 0) ;;
  port (outb (COM1 + 3) (Z.land 3 (Z.lnot 128))) ;;
  port (outb (COM1 + 4) 0) ;;
  port (outb (COM1 + 1) 1) ;;
  r ← port (inb (COM1 + 5));
  cset (set_serial (bool_decide (r ≠ 255))) ;;
  _ ← port (inb (COM1 + 2));
  _ ← port (inb COM1);
  mret ().

(** ** Output *)
Definition delay : C unit := mfor [132; 132; 132; 132] (λ p, _ ← port (inb p); mret ()).
Fixpoint lpt_wait (n : nat) : C unit :=
  r ← port (inb 889);
  match n with
  | O => mret ()
  | S n => if decide (Z.land r 128 = 0) then delay ;; lpt_wait n else mret ()
  end.
Definition lpt_putc (c : Z) : C unit :=
  lpt_wait 2800 ;;
  port (outb 888 (w8 c)) ;;
  port (outb 890 (Z.lor (Z.lor 8 4) 1)) ;;
  port (outb 890 8).

Definition BLANK : Z := Z.lor 1792 32. (* 0x0700 | ' ' *)
(** [memcpy] of a block of cells to a lower address and the blank last line. *)
Definition scroll : C unit :=
  b ← cget crt_buf;
  if decide (CRT_SIZE ≤ Z.of_nat (length b)) then
    let n := Z.to_nat (CRT_SIZE - CRT_COLS) in
    cset (set_crt_buf (take n (drop (Z.to_nat CRT_COLS) b) ++ drop n b)) ;;
    mfor (seqZ (CRT_SIZE - CRT_COLS) CRT_COLS) (λ i, set_cell i BLANK) ;;
    p ← cget crt_pos;
    cset (set_crt_pos (w16 (p - CRT_COLS)))
  else undef.
Definition with_color (c color : Z) : Z :=
  if decide (Z.land c (Z.lnot 255) = 0) then Z.lor c (if decide (color = 0) then 1792 else color) else c.
(** The switch over the character; [cons_putc] prints a space of a tab. *)
Definition cga_switch (cons_putc : Z → C unit) (c : Z) : C unit :=
  p ← cget crt_pos;
  let k := Z.land c 255 in
  if decide (k = 8) then
    if decide (p > 0) then
      cset (set_crt_pos (w16 (p - 1))) ;;
      set_cell (w16 (p - 1)) (Z.lor (Z.land c (Z.lnot 255)) 32)
    else mret ()
  else if decide (k = 10) then
    let p := w16 (p + CRT_COLS) in
    cset (set_text_length 0) ;;
    cset (set_crt_pos (w16 (p - p `mod` CRT_COLS)))
  else if decide (k = 13) then cset (set_crt_pos (w16 (p - p `mod` CRT_COLS)))
  else if decide (k = 9) then mfor [32; 32; 32; 32; 32] cons_putc
  else if decide (k = KEY_LF) then when (bool_decide (p > 0)) (cset (set_crt_pos (w16 (p - 1))))
  else if decide (k = KEY_RT) then when (bool_decide (p < CRT_SIZE)) (cset (set_crt_pos (w16 (p + 1))))
  else if decide (c ≠ KEY_LF ∧ c ≠ KEY_RT) then
    set_cell p c ;;
    let p := w16 (p + 1) in
    cset (set_crt_pos p) ;;
    t ← cget text_length;
    when (bool_decide (p > 1920 + t)) (cset (set_text_length (i32 (t + 1))))
  else mret ().
Definition cga_putc_with (cons_putc : Z → C unit) (c : Z) : C unit :=
  color ← cget current_text_color;
  cga_switch cons_putc (with_color c color) ;;
  p ← cget crt_pos;
  when (bool_decide (p >= CRT_SIZE)) scroll ;;
  p ← cget crt_pos;
  a ← cget addr_6845;
  port (outb a 14) ;;
  port (outb (a + 1) (w8 (Z.shiftr p 8))) ;;
  port (outb a 15) ;;
  port (outb (a + 1) (w8 p)).
(** A space is not a tab, so the inner call prints no further characters. *)
Definition cga_putc (c : Z) : C unit :=
  cga_putc_with (λ c, lpt_putc c ;; cga_putc_with (λ _, mret ()) c) c.
Definition cons_putc (c : Z) : C unit := lpt_putc c ;; cga_putc c.
Definition cputchar (c : Z) : C unit := cons_putc c.
(** The video memory is written through a pointer to 32-bit words. *)
Definition clear_screen_buffer : C unit :=
  mfor (seqZ 0 CRT_SIZE) (λ i, set_cell (2 * i) BLANK ;; set_cell (2 * i + 1) 0) ;;
  cset (set_crt_pos 0).

(** ** The keyboard *)
(** [for (i = crt_pos; ...; ++i) crt_buf[i] = crt_buf[i + 1]]. *)
Fixpoint shift_cells (n : nat) (i : Z) : C unit :=
  match n with
  | O => mret ()
  | S n => x ← cell (i + 1); set_cell i x ;; shift_cells n (i + 1)
  end.
Definition delete_key : C Z :=
  t ← cget text_length;
  if decide (t > 0) then
    p ← cget crt_pos;
    if decide (p = 1920 + t) then mret 0
    else
      cset (set_text_length (t - 1)) ;;
      shift_cells (Z.to_nat (t - 1 - (p - 1925) + 1)) p ;;
      mret KEY_DEL
  else mret 0.
Definition is_lower (c : Z) : bool := bool_decide (97 ≤ c ≤ 122).
Definition is_upper (c : Z) : bool := bool_decide (65 ≤ c ≤ 90).
Definition caps (sh c : Z) : Z :=
  if decide (Z.land sh CAPSLOCK ≠ 0) then
    if is_lower c then c - 32 else if is_upper c then c + 32 else c
  else c.
(** A key is pressed: [data] indexes the tables. The message of the reboot, which
    ConsoleThm.v shows to be out of reach, is left out. *)
Definition kbd_press (sh data : Z) : C Z :=
  m ← unwrap (shiftcode !! Z.to_nat data);
  t ← unwrap (togglecode !! Z.to_nat data);
  let sh := Z.lxor (Z.lor sh m) t in
  cset (set_shift sh) ;;
  row ← unwrap (charcode !! Z.to_nat (Z.land sh (Z.lor CTL SHIFT)));
  c ← unwrap (row !! Z.to_nat data);
  if decide (c = KEY_DEL) then delete_key
  else
    let c := caps sh c in
    if decide (i32 sh = NUMLOCK ∧ 48 ≤ c ≤ 57) then mret 0
    else if decide (c = 255) then mret 0
    else
      when (bool_decide (Z.land (Z.lnot sh) (Z.lor CTL ALT) = 0 ∧ c = KEY_DEL)) (port (outb 146 3)) ;;
      mret c.
Definition kbd_decode (data : Z) : C Z :=
  sh ← cget shift;
  if decide (data = 224) then cset (set_shift (Z.lor sh E0ESC)) ;; mret 0
  else if decide (Z.land data 128 ≠ 0) then
    let data := if decide (Z.land sh E0ESC ≠ 0) then data else Z.land data 127 in
    m ← unwrap (shiftcode !! Z.to_nat data);
    cset (set_shift (Z.land sh (w32 (Z.lnot (Z.lor m E0ESC))))) ;;
    mret 0
  else if decide (Z.land sh E0ESC ≠ 0) then kbd_press (Z.land sh (w32 (Z.lnot E0ESC))) (Z.lor data 128)
  else kbd_press sh data.
Definition kbd_proc_data : C Z :=
  st ← port (inb KBSTATP);
  if decide (Z.land st KBS_DIB = 0) then mret (-1)
  else data ← port (inb KBDATAP); kbd_decode data.
Definition kbd_intr (fuel : nat) : C unit := cons_intr fuel kbd_proc_data.
(** With LCK_INT nobody sleeps on the keyboard, so nobody is woken. *)
Definition keyboard_interrupt_handler (fuel : nat) : C unit := kbd_intr fuel.

(** ** Reading *)
Definition cons_getc (fuel : nat) : C Z := serial_intr fuel ;; kbd_intr fuel ;; cons_getc2.
Fixpoint getchar (fuel : nat) : C Z :=
  match fuel with
  | O => nofuel
  | S n => c ← cons_getc fuel; if decide (c = 0) then getchar n else mret c
  end.
End code.
