(* ===== verification/ConsoleThm.v ===== *)
(** * Theorems about the console

    The input buffer as a queue of characters, the screen as a window on an
    endless tape, and the modifier keys as a function of the keys' history. *)

From S2P Require Import Prelude Ide Console.

Section console.
Context {X : Type} {PX : Ports X}.
Notation C := (M (console * X)).
Notation St := (console * X)%type.
Implicit Types s : St.

Lemma wp_cget {A} (f : console → A) (Q : A → St → Prop) s : Q (f s.1) s → wp (cget f) Q s.
Proof. done. Qed.
Lemma wp_coset f (Q : unit → St → Prop) s : Q tt (f s.1, s.2) → wp (cset f) Q s.
Proof. done. Qed.

(** ** The input buffer *)

(** The characters of [q] wait in the buffer of [c]. *)
Record ring (c : console) (q : list Z) : Prop := {
  ring_length : length (cons_buf c) = 512%nat;
  ring_rpos : 0 ≤ rpos c < 512;
  ring_wpos : 0 ≤ wpos c < 512;
  ring_size : Z.of_nat (length q) = (wpos c - rpos c) `mod` 512;
  ring_at k : (k < length q)%nat → cons_buf c !! Z.to_nat ((rpos c + Z.of_nat k) `mod` 512) = q !! k
}.
(** A character that fills the last place makes the buffer look empty. *)
Definition push (q : list Z) (c : Z) : list Z := if decide (length q = 511%nat) then [] else q ++ [c].
Definition survivors (l : list Z) : list Z := drop (length l / 512 * 512) l.

Lemma survivors_short l : (length l < 512)%nat → survivors l = l.
Proof. intros Hl. unfold survivors. by rewrite Nat.div_small. Qed.
Lemma survivors_push q c cs : (length q < 512)%nat → survivors (push q c ++ cs) = survivors (q ++ c :: cs).
Proof.
  intros Hq. unfold push. destruct (decide _) as [Hf|Hf].
  - unfold survivors. cbn [app]. rewrite length_app. cbn [length]. rewrite Hf.
    replace (511 + S (length cs))%nat with (length cs + 1 * 512)%nat by lia. rewrite Nat.div_add by lia.
    replace ((length cs / 512 + 1) * 512)%nat with (length cs / 512 * 512 + 512)%nat by lia.
    rewrite cons_middle, app_assoc, drop_app_ge by (rewrite length_app; cbn; lia).
    f_equal. rewrite length_app. cbn. lia.
  - by rewrite <- app_assoc.
Qed.
Lemma push_length q c : (length q < 512)%nat → (length (push q c) < 512)%nat.
Proof. intros Hq. unfold push. destruct (decide _); cbn; [lia|]. rewrite length_app. cbn. lia. Qed.
Lemma ring_bound c q : ring c q → (length q < 512)%nat.
Proof. intros []. pose proof (Z.mod_pos_bound (wpos c - rpos c) 512 ltac:(lia)). lia. Qed.
Lemma mod_plus a k : 0 ≤ a < 512 → 0 ≤ k < 512 → (a + k) `mod` 512 = if decide (a + k < 512) then a + k else a + k - 512.
Proof.
  intros Ha Hk. destruct (decide _).
  - apply Z.mod_small. lia.
  - replace (a + k) with (a + k - 512 + 1 * 512) by lia. rewrite Z.mod_add by lia. rewrite Z.mod_small; lia.
Qed.
Lemma mod_minus a b : 0 ≤ a < 512 → 0 ≤ b < 512 → (a - b) `mod` 512 = if decide (b ≤ a) then a - b else a - b + 512.
Proof.
  intros Ha Hb. destruct (decide _).
  - apply Z.mod_small. lia.
  - replace (a - b) with (a - b + 512 + (-1) * 512) by lia. rewrite Z.mod_add by lia. rewrite Z.mod_small; lia.
Qed.
(** The position after [p]. *)
Lemma next_pos p : 0 ≤ p < 512 → (if decide (w32 (p + 1) = CONSBUFSIZE) then 0 else w32 (p + 1)) = (p + 1) `mod` 512.
Proof.
  intros Hp. unfold CONSBUFSIZE. rewrite w32_small by lia. rewrite mod_plus by lia.
  destruct (decide (p + 1 = 512)), (decide (p + 1 < 512)); lia.
Qed.

Lemma wp_cons_put q c (Q : unit → St → Prop) s :
  ring s.1 q → 0 ≤ c < 256 →
  (∀ b w, ring (set_ring b (rpos s.1) w s.1) (push q c) → Q tt (set_ring b (rpos s.1) w s.1, s.2)) →
  wp (cons_put c) Q s.
Proof.
  intros HR Hc HQ. pose proof (ring_bound _ _ HR) as Hb. destruct HR as [Hl Hr Hw Hs Ha].
  unfold cons_put. apply wp_bind, wp_cget, wp_bind, wp_cget, wp_bind, wp_cget.
  destruct (lookup_lt_is_Some_2 (cons_buf s.1) (Z.to_nat (wpos s.1))) as [x Hx]; [lia|].
  apply wp_bind. eapply wp_unwrap; [done|]. apply wp_coset. rewrite next_pos, w8_small by done. apply HQ.
  pose proof (mod_minus (wpos s.1) (rpos s.1) Hw Hr) as Hmm. rewrite <- Hs in Hmm.
  pose proof (mod_plus (wpos s.1) 1 Hw ltac:(lia)) as Hw1. pose proof (Z.mod_pos_bound (wpos s.1 + 1) 512 ltac:(lia)).
  split; cbn.
  - by rewrite length_insert.
  - done.
  - done.
  - rewrite mod_minus by done. unfold push. destruct (decide (length q = 511%nat)); [cbn|rewrite length_app; cbn].
    + repeat destruct (decide _) in *; lia.
    + repeat destruct (decide _) in *; lia.
  - intros k Hk. unfold push in *. destruct (decide (length q = 511%nat)) as [|Hf]; [cbn in Hk; lia|].
    rewrite length_app in Hk. cbn in Hk. rewrite mod_plus by lia.
    destruct (decide (k = length q)) as [->|Hne].
    + rewrite lookup_app_r, Nat.sub_diag by lia. cbn.
      replace (if decide (rpos s.1 + Z.of_nat (length q) < 512) then rpos s.1 + Z.of_nat (length q) else rpos s.1 + Z.of_nat (length q) - 512)
        with (wpos s.1) by (repeat destruct (decide _) in *; lia).
      rewrite list_lookup_insert_eq by lia. done.
    + rewrite lookup_app_l by lia. rewrite <- (Ha k) by lia. rewrite mod_plus by lia.
      rewrite list_lookup_insert_ne; [done|]. repeat destruct (decide _) in *; lia.
Qed.
(** What a device routine [proc] delivers: [D s] are the values it returns before
    the next -1, from the state [s]. *)
Record source (proc : C Z) (D : St → list Z) : Prop := {
  source_next s : match D s with
    | [] => ∃ s', proc s = Ok (-1) s' ∧ D s' = [] ∧ (∀ q, ring s.1 q → ring s'.1 q)
    | c :: l => ∃ s', proc s = Ok c s' ∧ D s' = l ∧ (∀ q, ring s.1 q → ring s'.1 q)
    end;
  source_ring s b w : D (set_ring b (rpos s.1) w s.1, s.2) = D s
}.
Lemma wp_cons_intr proc D fuel q s : source proc D → ring s.1 q → Forall (λ c, 0 ≤ c < 256) (D s) →
  (length (D s) < fuel)%nat →
  wp (cons_intr fuel proc) (λ _ s', D s' = [] ∧ ring s'.1 (survivors (q ++ filter (λ c, c ≠ 0) (D s)))) s.
Proof.
  intros HS. revert q s. induction fuel as [|fuel IH]; intros q s HR Hc Hf; [lia|]. cbn [cons_intr].
  pose proof (source_next _ _ HS s) as Hn. destruct (D s) as [|c l] eqn:HD.
  - destruct Hn as (s' & Hp & HD' & Hq). unfold wp. rewrite (bind_Ok _ _ _ _ _ Hp).
    rewrite decide_True by done. change (D s' = [] ∧ ring s'.1 (survivors (q ++ filter (λ c, c ≠ 0) []))).
    split; [done|]. rewrite filter_nil, app_nil_r, survivors_short by (by eapply ring_bound). by apply Hq.
  - destruct Hn as (s1 & Hp & HD1 & Hq). apply Forall_cons in Hc as [Hc Hl]. cbn in Hf.
    unfold wp. rewrite (bind_Ok _ _ _ _ _ Hp). fold (wp (S := St) (A := unit)).
    destruct (decide (c = -1)) as [->|_]; [lia|]. apply wp_bind. apply wp_when; intros H0.
    + apply bool_decide_eq_true in H0. eapply wp_cons_put; [by apply Hq|done|].
      intros b w HR1. eapply wp_mono.
      { apply (IH (push q c)); [done| |]; rewrite (source_ring _ _ HS), HD1; [done|lia]. }
      cbn beta. intros _ s' [HD' HR']. split; [done|]. rewrite (source_ring _ _ HS), HD1 in HR'.
      rewrite filter_cons_True by done. rewrite <- survivors_push; [done|by eapply ring_bound].
    + apply bool_decide_eq_false in H0. rewrite filter_cons_False by done. rewrite <- HD1.
      apply IH; [by apply Hq|by rewrite HD1|rewrite HD1; lia].
Qed.
Lemma wp_cons_getc2 q s : ring s.1 q →
  wp cons_getc2 (λ c s', match q with
    | [] => c = 0 ∧ s' = s
    | x :: q' => c = x ∧ ring s'.1 q'
    end) s.
Proof.
  intros HR. pose proof (ring_bound _ _ HR) as Hb. destruct HR as [Hl Hr Hw Hs Ha].
  pose proof (mod_minus (wpos s.1) (rpos s.1) Hw Hr) as Hmm. rewrite <- Hs in Hmm.
  unfold cons_getc2. apply wp_bind, wp_cget, wp_bind, wp_cget. destruct q as [|x q].
  - cbn in Hmm. rewrite decide_False by (intros ?; destruct (decide _) in Hmm; lia). by apply wp_ret.
  - cbn [length] in *. rewrite decide_True by (intros Heq; rewrite Heq in Hmm; destruct (decide _) in Hmm; lia).
    pose proof (Ha 0%nat ltac:(lia)) as Hx. rewrite Z.add_0_r, Z.mod_small in Hx by done. cbn in Hx.
    apply wp_bind, wp_cget. apply wp_bind. eapply wp_unwrap; [done|]. apply wp_bind, wp_coset. apply wp_ret. split; [done|].
    rewrite next_pos by done. pose proof (Z.mod_pos_bound (rpos s.1 + 1) 512 ltac:(lia)).
    pose proof (mod_plus (rpos s.1) 1 Hr ltac:(lia)) as Hr1. split; cbn; [done|done|done| |].
    + rewrite mod_minus by done. repeat destruct (decide _) in *; lia.
    + intros k Hk. specialize (Ha (S k) ltac:(lia)). change ((x :: q) !! S k) with (q !! k) in Ha. rewrite <- Ha.
      f_equal. rewrite !mod_plus by lia.
      repeat destruct (decide _) in *; lia.
Qed.

(** C34: The console's input buffer is a queue: an interrupt appends the characters
    that the device delivers (its zeros are no characters), and a reader gets the
    first one, or 0 when there is none. Nothing is lost while fewer than 512
    characters wait; each time 512 are reached, those 512 are lost. *)
Theorem console_input_queue proc D fuel q s :
  source proc D → ring s.1 q → Forall (λ c, 0 ≤ c < 256) (D s) → (length (D s) < fuel)%nat →
  wp (cons_intr fuel proc) (λ _ s', D s' = [] ∧ ring s'.1 (survivors (q ++ filter (λ c, c ≠ 0) (D s)))) s ∧
  wp cons_getc2 (λ c s', match q with
    | [] => c = 0 ∧ s' = s
    | x :: q' => c = x ∧ ring s'.1 q'
    end) s.
Proof. intros HS HR Hc Hf. split; [by apply wp_cons_intr|by apply wp_cons_getc2]. Qed.

(** ** The screen *)

(** An endless tape of cells with a cursor, of which the screen shows the 25
    lines from line [top] on. *)
Record tape := TAPE { cells : Z → Z; cursor : Z; top : Z }.
Definition put_tape (p v : Z) (f : Z → Z) (i : Z) : Z := if decide (i = p) then v else f i.
Definition type_char (color c : Z) (t : tape) : tape :=
  let c := with_color c color in
  let k := Z.land c 255 in
  let first := CRT_COLS * top t in
  let '(f, u) :=
    if decide (k = 8) then
      if decide (first < cursor t) then (put_tape (cursor t - 1) (w16 (Z.lor (Z.land c (Z.lnot 255)) 32)) (cells t), cursor t - 1)
      else (cells t, cursor t)
    else if decide (k = 10) then (cells t, CRT_COLS * (cursor t `div` CRT_COLS + 1))
    else if decide (k = 13) then (cells t, CRT_COLS * (cursor t `div` CRT_COLS))
    else if decide (k = KEY_LF) then (cells t, Z.max first (cursor t - 1))
    else if decide (k = KEY_RT) then (cells t, cursor t + 1)
    else (put_tape (cursor t) (w16 c) (cells t), cursor t + 1) in
  TAPE f u (if decide (first + CRT_SIZE ≤ u) then top t + 1 else top t).
Definition type (color c : Z) (t : tape) : tape :=
  if decide (Z.land (with_color c color) 255 = 9) then Nat.iter 5 (type_char color 32) t else type_char color c t.
Record window (c : console) (t : tape) : Prop := {
  win_size : CRT_SIZE ≤ Z.of_nat (length (crt_buf c));
  win_top : 0 ≤ top t;
  win_cursor : cursor t = CRT_COLS * top t + crt_pos c;
  win_pos : 0 ≤ crt_pos c < CRT_SIZE;
  win_cells i : 0 ≤ i < CRT_SIZE → crt_buf c !! Z.to_nat i = Some (cells t (CRT_COLS * top t + i));
  win_blank i : CRT_COLS * top t + CRT_SIZE ≤ i → cells t i = BLANK
}.
(** The port instructions always complete. *)
Class PortsTotal : Prop := {
  inb_total p (x : X) : ∃ r x', inb p x = Ok r x';
  outb_total p v (x : X) : ∃ x', outb p v x = Ok tt x'
}.
Context {PT : PortsTotal}.

Lemma wp_coinb p (Q : Z → St → Prop) s : (∀ r x, Q r (s.1, x)) → wp (port (inb p)) Q s.
Proof. intros HQ. destruct (inb_total p s.2) as (r & x & Hr). unfold wp, port, zoom. rewrite Hr. apply HQ. Qed.
Lemma wp_coutb p v (Q : unit → St → Prop) s : (∀ x, Q tt (s.1, x)) → wp (port (outb p v)) Q s.
Proof. intros HQ. destruct (outb_total p v s.2) as (x & Hr). unfold wp, port, zoom. rewrite Hr. apply HQ. Qed.
(** A computation that works on the devices only. *)
Definition quiet {A} (c : C A) : Prop := ∀ (Q : A → St → Prop) s, (∀ a x, Q a (s.1, x)) → wp c Q s.
Lemma quiet_inb p : quiet (port (inb p)).
Proof. intros Q s. apply wp_coinb. Qed.
Lemma quiet_outb p v : quiet (port (outb p v)).
Proof. intros Q s HQ. apply wp_coutb. apply HQ. Qed.
Lemma quiet_ret {A} (a : A) : quiet (mret a).
Proof. intros Q [c x] HQ. apply wp_ret, HQ. Qed.
Lemma quiet_bind {A B} (c : C A) (f : A → C B) : quiet c → (∀ a, quiet (f a)) → quiet (c ≫= f).
Proof. intros Hc Hf Q s HQ. apply wp_bind, Hc. intros a x. apply Hf. intros b y. apply HQ. Qed.
Lemma quiet_delay : quiet delay.
Proof.
  unfold delay. cbn [mfor]. repeat (apply quiet_bind; [|intros ?]); try apply quiet_inb; apply quiet_ret.
Qed.
Lemma quiet_wait n : quiet (lpt_wait n).
Proof.
  induction n as [|n IH]; cbn [lpt_wait]; (apply quiet_bind; [apply quiet_inb|intros r]); [apply quiet_ret|].
  destruct (decide _); [|apply quiet_ret]. apply quiet_bind; [apply quiet_delay|done].
Qed.
Lemma quiet_lpt c : quiet (lpt_putc c).
Proof.
  unfold lpt_putc. apply quiet_bind; [apply quiet_wait|intros _].
  repeat (apply quiet_bind; [apply quiet_outb|intros _]). apply quiet_outb.
Qed.

Lemma wp_set_cell i v (Q : unit → St → Prop) s :
  0 ≤ i < Z.of_nat (length (crt_buf s.1)) →
  Q tt (set_crt_buf (<[Z.to_nat i := w16 v]> (crt_buf s.1)) s.1, s.2) → wp (set_cell i v) Q s.
Proof.
  intros Hi HQ. unfold set_cell. apply wp_bind, wp_cget.
  destruct (lookup_lt_is_Some_2 (crt_buf s.1) (Z.to_nat i)) as [x Hx]; [lia|].
  apply wp_bind. eapply wp_unwrap; [done|]. by apply wp_coset.
Qed.
Lemma wp_blank_cells n a (Q : unit → St → Prop) s :
  0 ≤ a → a + Z.of_nat n ≤ Z.of_nat (length (crt_buf s.1)) →
  (∀ b, length b = length (crt_buf s.1) →
     (∀ i, 0 ≤ i → b !! Z.to_nat i = if decide (a ≤ i < a + Z.of_nat n) then Some BLANK else crt_buf s.1 !! Z.to_nat i) →
     Q tt (set_crt_buf b s.1, s.2)) →
  wp (mfor (seqZ a (Z.of_nat n)) (λ i, set_cell i BLANK)) Q s.
Proof.
  revert a s. induction n as [|n IH]; intros a s Ha Hn HQ.
  - cbn. apply wp_ret. destruct s as [[] x]. apply HQ; [done|]. intros i Hi. by rewrite decide_False by lia.
  - rewrite seqZ_cons by lia. cbn [mfor]. apply wp_bind, wp_set_cell; [lia|].
    replace (Z.pred (Z.of_nat (S n))) with (Z.of_nat n) by lia. apply IH; cbn; rewrite ?length_insert; [lia|lia|].
    intros b Hb Hc. apply HQ; [done|]. intros i Hi. rewrite Hc by done.
    destruct (decide (Z.succ a ≤ i < Z.succ a + Z.of_nat n)); [by rewrite decide_True by lia|].
    destruct (decide (i = a)) as [->|Hne].
    + rewrite list_lookup_insert_eq by lia. by rewrite decide_True by lia.
    + rewrite list_lookup_insert_ne by lia. by rewrite decide_False by lia.
Qed.
(** The state after a change of the video memory and the cursor. *)
Definition screen_state (b : list Z) (p : Z) (s s' : St) : Prop :=
  crt_buf s'.1 = b ∧ crt_pos s'.1 = p ∧ current_text_color s'.1 = current_text_color s.1.
Lemma wp_scroll b p (Q : unit → St → Prop) s :
  crt_buf s.1 = b → crt_pos s.1 = p → CRT_SIZE ≤ Z.of_nat (length b) → CRT_COLS ≤ p < 65536 →
  (∀ b' s', screen_state b' (p - CRT_COLS) s s' → length b' = length b →
    (∀ i, 0 ≤ i < CRT_SIZE → b' !! Z.to_nat i = if decide (i < CRT_SIZE - CRT_COLS) then b !! Z.to_nat (i + CRT_COLS) else Some BLANK) →
    Q tt s') → wp scroll Q s.
Proof.
  unfold CRT_SIZE, CRT_COLS. intros Hb Hp Hl Hr HQ. unfold scroll. apply wp_bind, wp_cget. rewrite Hb.
  rewrite decide_True by done. apply wp_bind, wp_coset. set (b1 := take _ _ ++ drop _ b).
  assert (length b1 = length b) as Hl1.
  { unfold b1. rewrite length_app, length_take, !length_drop. unfold CRT_SIZE, CRT_COLS. lia. }
  apply wp_bind. change CRT_COLS with (Z.of_nat (Z.to_nat CRT_COLS)).
  apply wp_blank_cells; [unfold CRT_SIZE, CRT_COLS; lia|cbn [fst crt_buf set_crt_buf]; rewrite Hl1; unfold CRT_SIZE, CRT_COLS; lia|].
  cbn [fst snd crt_buf set_crt_buf]. intros b2 Hl2 Hb2. apply wp_bind, wp_cget, wp_coset. cbn [fst snd crt_pos set_crt_buf].
  rewrite Hp. unfold CRT_COLS. rewrite w16_small by lia. apply (HQ b2); [by split_and!|congruence|].
  intros i Hi. rewrite Hb2 by lia. unfold CRT_SIZE, CRT_COLS.
  destruct (decide (i < 2000 - 80)).
  - rewrite decide_False by lia. unfold b1. rewrite lookup_app_l by (rewrite length_take, length_drop; unfold CRT_SIZE, CRT_COLS; lia).
    rewrite lookup_take_lt by (unfold CRT_SIZE, CRT_COLS; lia). rewrite lookup_drop. f_equal. unfold CRT_COLS. lia.
  - by rewrite decide_True by lia.
Qed.

(** The screen after the switch, before it scrolls. *)
Record mid (c : console) (first : Z) (f : Z → Z) (u : Z) : Prop := {
  mid_size : CRT_SIZE ≤ Z.of_nat (length (crt_buf c));
  mid_cursor : u = first + crt_pos c;
  mid_pos : 0 ≤ crt_pos c < CRT_SIZE + CRT_COLS;
  mid_cells i : 0 ≤ i < CRT_SIZE → crt_buf c !! Z.to_nat i = Some (f (first + i));
  mid_blank i : first + CRT_SIZE ≤ i → f i = BLANK
}.
Lemma mid_step c c' first f u u' :
  mid c first f u → crt_buf c' = crt_buf c → 0 ≤ crt_pos c' < CRT_SIZE + CRT_COLS → u' = first + crt_pos c' →
  mid c' first f u'.
Proof. intros [] Hb Hp ->. split; rewrite ?Hb; done. Qed.
Lemma mid_put c c' first f u u' p q v :
  mid c first f u → 0 ≤ p < CRT_SIZE → crt_buf c' = <[Z.to_nat p := w16 v]> (crt_buf c) →
  0 ≤ crt_pos c' < CRT_SIZE + CRT_COLS → q = first + p → u' = first + crt_pos c' →
  mid c' first (put_tape q (w16 v) f) u'.
Proof.
  intros [] Hp Hb Hc -> ->. split; rewrite ?Hb, ?length_insert; try done.
  - intros i Hi. unfold put_tape. destruct (decide (first + i = first + p)) as [Heq|Hne].
    + replace i with p by lia. by rewrite list_lookup_insert_eq by lia.
    + rewrite list_lookup_insert_ne by lia. by apply mid_cells0.
  - intros i Hi. unfold put_tape. rewrite decide_False by lia. by apply mid_blank0.
Qed.
Lemma wp_cursor (Q : unit → St → Prop) s : (∀ x, Q tt (s.1, x)) →
  wp (p ← cget crt_pos; a ← cget addr_6845; port (outb a 14) ;; port (outb (a + 1) (w8 (Z.shiftr p 8))) ;;
      port (outb a 15) ;; port (outb (a + 1) (w8 p))) Q s.
Proof.
  intros HQ. apply wp_bind, wp_cget, wp_bind, wp_cget. apply wp_bind, quiet_outb. intros _ x1.
  apply wp_bind, quiet_outb. intros _ x2. apply wp_bind, quiet_outb. intros _ x3. apply quiet_outb. intros [] x4. apply HQ.
Qed.
Lemma wp_finish c0 k f u (Q : unit → St → Prop) s :
  0 ≤ k → mid s.1 (CRT_COLS * k) f u → current_text_color s.1 = c0 →
  (∀ s', window s'.1 (TAPE f u (if decide (CRT_COLS * k + CRT_SIZE ≤ u) then k + 1 else k)) →
     current_text_color s'.1 = c0 → Q tt s') →
  wp (p ← cget crt_pos; when (bool_decide (p >= CRT_SIZE)) scroll ;;
      p ← cget crt_pos; a ← cget addr_6845; port (outb a 14) ;; port (outb (a + 1) (w8 (Z.shiftr p 8))) ;;
      port (outb a 15) ;; port (outb (a + 1) (w8 p))) Q s.
Proof.
  unfold CRT_SIZE, CRT_COLS. intros Hk [Hl Hu Hp Hc Hbl] Hcol HQ. unfold CRT_SIZE, CRT_COLS in *.
  apply wp_bind, wp_cget, wp_bind. apply wp_when; intros Hs.
  - apply bool_decide_eq_true in Hs.
    eapply wp_scroll; [done|done|done|unfold CRT_COLS; lia|]. unfold CRT_SIZE, CRT_COLS. intros b' s' (Hb' & Hp' & Hc') Hl' Hcells.
    apply wp_cursor. intros x. rewrite decide_True in HQ by lia. apply HQ; [|cbn [fst]; by rewrite Hc', Hcol].
    split; cbn [fst cells cursor top]; unfold CRT_SIZE, CRT_COLS; rewrite ?Hb', ?Hp'; try lia.
    + intros i Hi. rewrite Hcells by done. destruct (decide (i < 2000 - 80)).
      * rewrite Hc by lia. do 2 f_equal. lia.
      * rewrite Hbl by lia. done.
    + intros i Hi. apply Hbl. lia.
  - apply bool_decide_eq_false in Hs. apply wp_cursor. intros x. rewrite decide_False in HQ by lia.
    apply HQ; [|done]. split; cbn [fst cells cursor top]; unfold CRT_SIZE, CRT_COLS; try lia; try done.
Qed.
Lemma pos_line k p : 0 ≤ p → 80 * k + (p - p `mod` 80) = 80 * ((80 * k + p) `div` 80).
Proof.
  intros Hp. rewrite (Z.mul_comm 80 k), Z.div_add_l by lia. pose proof (Z.div_mod p 80 ltac:(lia)). lia.
Qed.
(** The switch over the character, on the tape. *)
Lemma wp_cga_switch putc c t (Q : unit → St → Prop) s :
  window s.1 t → Z.land c 255 ≠ 9 →
  (∀ s' f u, mid s'.1 (CRT_COLS * top t) f u → current_text_color s'.1 = current_text_color s.1 →
     (∀ color, with_color c color = c → type_char color c t = TAPE f u (if decide (CRT_COLS * top t + CRT_SIZE ≤ u) then top t + 1 else top t)) →
     Q tt s') →
  wp (cga_switch putc c) Q s.
Proof.
  intros [Hl Hk Hu Hp Hc Hbl] H9 HQ. pose proof Hp as Hp'. unfold CRT_SIZE, CRT_COLS in Hp, Hu.
  assert (Hm : mid s.1 (CRT_COLS * top t) (cells t) (cursor t)).
  { split; try done. unfold CRT_SIZE, CRT_COLS. lia. }
  unfold cga_switch. apply wp_bind, wp_cget. destruct (decide (Z.land c 255 = 8)) as [H8|H8].
  { destruct (decide (crt_pos s.1 > 0)) as [Hpos|Hpos].
    - apply wp_bind, wp_coset. rewrite w16_small by lia. apply wp_set_cell; [cbn; unfold CRT_SIZE in *; lia|].
      eapply (HQ _ (put_tape (cursor t - 1) (w16 (Z.lor (Z.land c (Z.lnot 255)) 32)) (cells t)) (cursor t - 1)).
      + eapply mid_put with (p := crt_pos s.1 - 1); [exact Hm|unfold CRT_SIZE; lia|done|cbn..]; unfold CRT_SIZE, CRT_COLS; lia.
      + done.
      + intros color Hcol. unfold type_char. rewrite Hcol, decide_True by done. unfold CRT_COLS. by rewrite decide_True by lia.
    - apply wp_ret. apply (HQ _ (cells t) (cursor t)); [done|done|]. intros color Hcol. unfold type_char.
      rewrite Hcol, decide_True by done. unfold CRT_COLS. by rewrite decide_False by lia. }
  destruct (decide (Z.land c 255 = 10)) as [H10|H10].
  { apply wp_bind, wp_coset, wp_coset. unfold CRT_COLS. rewrite (w16_small (_ + 80)) by lia.
    pose proof (Z.mod_pos_bound (crt_pos s.1 + 80) 80 ltac:(lia)) as Hmb. pose proof (Z.mod_le (crt_pos s.1 + 80) 80 ltac:(lia) ltac:(lia)).
    rewrite w16_small by lia. eapply (HQ _ (cells t) (CRT_COLS * (cursor t `div` CRT_COLS + 1))).
    - eapply mid_step; [exact Hm|done|cbn; unfold CRT_SIZE, CRT_COLS; lia|cbn; unfold CRT_COLS]. rewrite pos_line by lia. rewrite Hu.
      replace (80 * top t + (crt_pos s.1 + 80)) with (80 * top t + crt_pos s.1 + 1 * 80) by lia. by rewrite Z.div_add by lia.
    - done.
    - intros color Hcol. unfold type_char. by rewrite Hcol, decide_False, decide_True by done. }
  destruct (decide (Z.land c 255 = 13)) as [H13|H13].
  { apply wp_coset. unfold CRT_COLS. pose proof (Z.mod_pos_bound (crt_pos s.1) 80 ltac:(lia)) as Hmb.
    pose proof (Z.mod_le (crt_pos s.1) 80 ltac:(lia) ltac:(lia)). rewrite w16_small by lia.
    eapply (HQ _ (cells t) (CRT_COLS * (cursor t `div` CRT_COLS))).
    - eapply mid_step; [exact Hm|done|cbn; unfold CRT_SIZE, CRT_COLS; lia|cbn; unfold CRT_COLS]. rewrite pos_line by lia. by rewrite Hu.
    - done.
    - intros color Hcol. unfold type_char. by rewrite Hcol, !decide_False, decide_True by done. }
  rewrite decide_False by done. destruct (decide (Z.land c 255 = KEY_LF)) as [HLF|HLF].
  { assert (Ht : ∀ color, with_color c color = c → type_char color c t = TAPE (cells t) (Z.max (CRT_COLS * top t) (cursor t - 1))
       (if decide (CRT_COLS * top t + CRT_SIZE ≤ Z.max (CRT_COLS * top t) (cursor t - 1)) then top t + 1 else top t)).
    { intros color Hcol. unfold type_char. by rewrite Hcol, !decide_False, decide_True by done. }
    apply wp_when; intros Hpos.
    - apply bool_decide_eq_true in Hpos. apply wp_coset. rewrite w16_small by lia.
      eapply (HQ _ (cells t) _); [|done|exact Ht].
      eapply mid_step; [exact Hm|done|cbn; unfold CRT_SIZE, CRT_COLS; lia|cbn; unfold CRT_COLS; lia].
    - apply bool_decide_eq_false in Hpos. eapply (HQ _ (cells t) _); [|done|exact Ht].
      eapply mid_step; [exact Hm|done|unfold CRT_SIZE, CRT_COLS; lia|unfold CRT_COLS; lia]. }
  destruct (decide (Z.land c 255 = KEY_RT)) as [HRT|HRT].
  { apply wp_when; intros Hpos; [|apply bool_decide_eq_false in Hpos; unfold CRT_SIZE in *; lia].
    apply wp_coset. rewrite w16_small by lia. eapply (HQ _ (cells t) (cursor t + 1)).
    - eapply mid_step; [exact Hm|done|cbn; unfold CRT_SIZE, CRT_COLS; lia|cbn; unfold CRT_COLS; lia].
    - done.
    - intros color Hcol. unfold type_char. by rewrite Hcol, !decide_False, decide_True by done. }
  rewrite decide_True by (split; intros ->; done).
  apply wp_bind, wp_set_cell; [unfold CRT_SIZE in *; lia|]. apply wp_bind, wp_coset. rewrite w16_small by lia.
  apply wp_bind, wp_cget.
  assert (Ht : ∀ color, with_color c color = c → type_char color c t = TAPE (put_tape (cursor t) (w16 c) (cells t)) (cursor t + 1)
     (if decide (CRT_COLS * top t + CRT_SIZE ≤ cursor t + 1) then top t + 1 else top t)).
  { intros color Hcol. unfold type_char. by rewrite Hcol, !decide_False by done. }
  apply wp_when; intros _; [apply wp_coset|]; (eapply (HQ _ _ _); [|done|exact Ht]);
    (eapply mid_put with (p := crt_pos s.1); [exact Hm|done|done|cbn..]; unfold CRT_SIZE, CRT_COLS; lia).
Qed.

Lemma with_color_idem c color : with_color (with_color c color) color = with_color c color.
Proof.
  unfold with_color. set (k := if decide (color = 0) then 1792 else color).
  destruct (decide (Z.land c (Z.lnot 255) = 0)) as [Hc|Hc]; [|done || by rewrite decide_False].
  destruct (decide (Z.land (Z.lor c k) (Z.lnot 255) = 0)) as [|]; [|done]. by rewrite <- Z.lor_assoc, Z.lor_diag.
Qed.
Lemma type_char_color c color t : type_char color (with_color c color) t = type_char color c t.
Proof. unfold type_char. by rewrite with_color_idem. Qed.
Lemma space_not_tab color : Z.land (with_color 32 color) 255 ≠ 9.
Proof.
  unfold with_color. rewrite decide_True by done. intros H. apply (f_equal (λ x, Z.testbit x 5)) in H.
  rewrite Z.land_spec, Z.lor_spec in H. done.
Qed.
Lemma window_mid c t : window c t → mid c (CRT_COLS * top t) (cells t) (cursor t) ∧ ¬ CRT_COLS * top t + CRT_SIZE ≤ cursor t.
Proof. intros []. unfold CRT_COLS, CRT_SIZE in *. split; [split; unfold CRT_COLS, CRT_SIZE; done || lia|lia]. Qed.
Lemma wp_cga_char putc c color t (Q : unit → St → Prop) s :
  window s.1 t → current_text_color s.1 = color → Z.land (with_color c color) 255 ≠ 9 →
  (∀ s', window s'.1 (type_char color c t) → current_text_color s'.1 = color → Q tt s') →
  wp (cga_putc_with putc c) Q s.
Proof.
  intros HW Hcol H9 HQ. unfold cga_putc_with. apply wp_bind, wp_cget. rewrite Hcol. apply wp_bind.
  eapply wp_cga_switch; [done|done|]. intros s1 f u Hmid Hc1 Ht. rewrite Hcol in Hc1.
  eapply wp_finish; [apply (win_top _ _ HW)|exact Hmid|exact Hc1|]. rewrite <- (Ht color) by apply with_color_idem.
  rewrite type_char_color. apply HQ.
Qed.
Lemma wp_cons_putc c color t (Q : unit → St → Prop) s :
  window s.1 t → current_text_color s.1 = color →
  (∀ s', window s'.1 (type color c t) → current_text_color s'.1 = color → Q tt s') →
  wp (cons_putc c) Q s.
Proof.
  intros HW Hcol HQ. unfold cons_putc. apply wp_bind, quiet_lpt. intros _ x. unfold type in HQ.
  destruct (decide (Z.land (with_color c color) 255 = 9)) as [H9|H9]; [|by eapply wp_cga_char].
  unfold cga_putc, cga_putc_with. apply wp_bind, wp_cget. cbn [fst]. rewrite Hcol. apply wp_bind.
  unfold cga_switch. apply wp_bind, wp_cget. rewrite !decide_False by (by rewrite H9). rewrite decide_True by done.
  apply (wp_mfor (λ l s1, ∃ n, (n + length l = 5)%nat ∧ (∀ c, c ∈ l → c = 32) ∧
    window s1.1 (Nat.iter n (type_char color 32) t) ∧ current_text_color s1.1 = color)).
  - exists 0%nat. split_and!; [done| |done|done]. intros c'. rewrite !elem_of_cons, elem_of_nil. tauto.
  - intros c' l s1 (n & Hn & Hl & Hw & Hc1). assert (c' = 32) as -> by (apply Hl; by left).
    apply wp_bind, quiet_lpt. intros _ y. eapply wp_cga_char; [done|done|apply space_not_tab|].
    intros s2 Hw2 Hc2. exists (S n). cbn in Hn. split_and!; [lia| |done|done]. intros c' Hc'. apply Hl. by right.
  - intros s1 (n & Hn & _ & Hw & Hc1). assert (n = 5%nat) as -> by (cbn in Hn; lia).
    destruct (window_mid _ _ Hw) as [Hm Hlt].
    eapply wp_finish; [apply (win_top _ _ Hw)|exact Hm|exact Hc1|]. rewrite decide_False by done.
    intros s2 Hw2 Hc2. apply HQ; [|done]. by destruct (Nat.iter 5 (type_char color 32) t).
Qed.

(** C35: The screen is a window on an endless tape of lines. Every character given
    to [cons_putc], control characters, tabs and cursor keys included, acts on the
    tape at the cursor; when the cursor leaves the 25 lines that the screen shows,
    the window moves down by one line, over a blank line; the video memory is never
    accessed outside. *)
Theorem screen_refines_tape l color t s :
  window s.1 t → current_text_color s.1 = color →
  wp (mfor l cons_putc) (λ _ s', window s'.1 (foldl (λ t c, type color c t) t l)) s.
Proof.
  intros HW Hcol. revert t s HW Hcol. induction l as [|c l IH]; intros t s HW Hcol; cbn [mfor foldl].
  - by apply wp_ret.
  - apply wp_bind. eapply wp_cons_putc; [done|done|]. intros s1 Hw1 Hc1. by apply IH.
Qed.
(** Printable text is written on the tape from the cursor on. *)
Definition printable (c : Z) : Prop := 32 ≤ c < 127.
Lemma type_printable c color t : printable c → (color = 0 ∨ ∃ k, color = k * 256) →
  ∃ k, type color c t = TAPE (put_tape (cursor t) (w16 (with_color c color)) (cells t)) (cursor t + 1) k.
Proof.
  intros Hc Hcol.
  assert (Z.land (with_color c color) 255 = c) as Hk.
  { unfold with_color. destruct (decide _).
    - rewrite Z.land_lor_distr_l. change 255 with (Z.ones 8). rewrite !Z.land_ones by lia. change (2 ^ 8) with 256.
      unfold printable in Hc. rewrite (Z.mod_small c) by lia. destruct (decide (color = 0)); [by rewrite Z.lor_0_r|].
      destruct Hcol as [|[k ->]]; [done|]. by rewrite Z.mod_mul, Z.lor_0_r.
    - exfalso. unfold printable in Hc. apply n. apply Z.bits_inj'. intros j Hj.
      rewrite Z.land_spec, Z.lnot_spec, Z.bits_0 by done. destruct (decide (j < 8)).
      + assert (Z.testbit 255 j = true) as ->; [|by rewrite andb_false_r]. change 255 with (Z.ones 8). by apply Z.ones_spec_low.
      + rewrite (Z.testbit_eqb c) by done. rewrite Z.div_small; [done|]. split; [lia|].
        pose proof (Z.pow_le_mono_r 2 8 j ltac:(lia) ltac:(lia)). lia. }
  unfold printable in Hc. unfold type, type_char. rewrite !Hk. rewrite !decide_False by (unfold KEY_LF, KEY_RT; lia). by eexists.
Qed.
Lemma type_text l color t : Forall printable l → (color = 0 ∨ ∃ k, color = k * 256) →
  ∀ i c, l !! i = Some c →
  cells (foldl (λ t c, type color c t) t l) (cursor t + Z.of_nat i) = w16 (with_color c color).
Proof.
  intros Hl Hcol. assert (∀ t, cursor (foldl (λ t c, type color c t) t l) = cursor t + Z.of_nat (length l) ∧
    (∀ p, p < cursor t → cells (foldl (λ t c, type color c t) t l) p = cells t p) ∧
    ∀ i c, l !! i = Some c → cells (foldl (λ t c, type color c t) t l) (cursor t + Z.of_nat i) = w16 (with_color c color)) as H.
  { induction Hl as [|x l Hx Hl IH]; intros t1; cbn [foldl].
    - split_and!; [cbn; lia|done|intros ??; by rewrite lookup_nil].
    - destruct (type_printable x color t1 Hx Hcol) as [k ->]. destruct (IH (TAPE (put_tape (cursor t1) (w16 (with_color x color)) (cells t1)) (cursor t1 + 1) k)) as (Hu & Hlow & Hat).
      cbn [cursor cells] in *. split_and!.
      + rewrite Hu. cbn [length]. lia.
      + intros p Hp. rewrite Hlow by lia. unfold put_tape. by rewrite decide_False by lia.
      + intros [|i] c Hi; cbn in Hi.
        * injection Hi as ->. rewrite Hlow by lia. unfold put_tape. by rewrite decide_True by lia.
        * rewrite <- (Hat i c Hi). f_equal. lia. }
  intros i c Hi. by apply H.
Qed.

(** ** Clearing the screen *)

(** Every second cell of the cleared screen is a zero, not a blank, and as many
    cells behind the screen are overwritten. *)
Lemma clear_screen_cells s : 2 * CRT_SIZE ≤ Z.of_nat (length (crt_buf s.1)) →
  wp clear_screen_buffer (λ _ s', crt_pos s'.1 = 0 ∧
    ∀ i, 0 ≤ i < 2 * CRT_SIZE → crt_buf s'.1 !! Z.to_nat i = Some (if decide (i `mod` 2 = 0) then BLANK else 0)) s.
Proof.
  unfold CRT_SIZE. intros Hl. unfold clear_screen_buffer, CRT_SIZE. apply wp_bind.
  apply (wp_mfor (λ l s1, ∃ k, 0 ≤ k ≤ 2000 ∧ l = seqZ k (2000 - k) ∧ length (crt_buf s1.1) = length (crt_buf s.1) ∧
    ∀ i, 0 ≤ i < 2 * k → crt_buf s1.1 !! Z.to_nat i = Some (if decide (i `mod` 2 = 0) then BLANK else 0))).
  - exists 0. split_and!; [lia|lia|done|done|]. intros i Hi. lia.
  - intros x l s1 (k & Hk & Hx & Hl1 & Hc). destruct (decide (k = 2000)) as [->|Hne]; [done|].
    rewrite seqZ_cons in Hx by lia. injection Hx as -> ->.
    apply wp_bind, wp_set_cell; [lia|]. apply wp_set_cell; [cbn; rewrite length_insert; lia|].
    exists (k + 1). cbn [fst crt_buf set_crt_buf]. rewrite !length_insert. split_and!; [lia|lia|f_equal; lia|done|].
    intros i Hi. destruct (decide (i = 2 * k + 1)) as [->|H1].
    + rewrite list_lookup_insert_eq by (rewrite length_insert; lia).
      rewrite decide_False; [done|]. rewrite Z.add_comm, Z.mul_comm, Z.mod_add by lia. done.
    + rewrite list_lookup_insert_ne by lia. destruct (decide (i = 2 * k)) as [->|H2].
      * rewrite list_lookup_insert_eq by lia. rewrite decide_True; [done|]. by rewrite Z.mul_comm, Z.mod_mul by lia.
      * rewrite list_lookup_insert_ne by lia. apply Hc. lia.
  - intros s1 (k & Hk & Hl1 & _ & Hc). assert (k = 2000) as ->.
    { destruct (decide (k = 2000)); [done|]. rewrite seqZ_cons in Hl1 by lia. done. }
    apply wp_coset. split; [done|]. exact Hc.
Qed.

(** ** The keyboard *)
(** Decoding a scan code writes no port: the machine is never rebooted. *)
Definition no_ports {A} (c : C A) : Prop := ∀ s, match c s with Ok _ s' | Panic s' => s'.2 = s.2 | _ => True end.
Lemma no_ports_ret {A} (a : A) : no_ports (mret a).
Proof. by intros s. Qed.
Lemma no_ports_bind {A B} (c : C A) (f : A → C B) : no_ports c → (∀ a, no_ports (f a)) → no_ports (c ≫= f).
Proof.
  intros Hc Hf s. unfold mbind, M_bind. specialize (Hc s). destruct (c s) as [a s'|s'| |]; try done.
  specialize (Hf a s'). by destruct (f a s') as [b s2|s2| |]; rewrite ?Hf.
Qed.
Lemma no_ports_cget {A} (f : console → A) : no_ports (cget f).
Proof. by intros s. Qed.
Lemma no_ports_cset f : no_ports (cset f).
Proof. by intros s. Qed.
Lemma no_ports_unwrap {A} (o : option A) : no_ports (unwrap o).
Proof. by destruct o. Qed.
Lemma no_ports_shift_cells n i : no_ports (shift_cells n i).
Proof.
  revert i. induction n as [|n IH]; intros i; cbn [shift_cells]; [apply no_ports_ret|].
  unfold cell, set_cell. repeat first [apply no_ports_bind; intros|apply no_ports_cget|apply no_ports_unwrap|apply no_ports_cset|apply IH].
Qed.
Lemma no_ports_delete : no_ports delete_key.
Proof.
  unfold delete_key. apply no_ports_bind; [apply no_ports_cget|]. intros t. destruct (decide _); [|apply no_ports_ret].
  apply no_ports_bind; [apply no_ports_cget|]. intros p. destruct (decide _); [apply no_ports_ret|].
  apply no_ports_bind; [apply no_ports_cset|]. intros _. apply no_ports_bind; [apply no_ports_shift_cells|]. intros _. apply no_ports_ret.
Qed.
Lemma caps_delete sh c : c ≠ KEY_DEL → caps sh c ≠ KEY_DEL.
Proof.
  unfold caps, is_lower, is_upper, KEY_DEL. intros Hc. destruct (decide _); [|done].
  destruct (bool_decide (97 ≤ c ≤ 122)) eqn:Hl; [apply bool_decide_eq_true in Hl; lia|].
  destruct (bool_decide (65 ≤ c ≤ 90)) eqn:Hu; [apply bool_decide_eq_true in Hu; lia|done].
Qed.
Lemma no_ports_press sh data : no_ports (kbd_press sh data).
Proof.
  unfold kbd_press. do 2 (apply no_ports_bind; [apply no_ports_unwrap|intros ?]).
  apply no_ports_bind; [apply no_ports_cset|intros _]. do 2 (apply no_ports_bind; [apply no_ports_unwrap|intros ?]).
  destruct (decide (_ = KEY_DEL)) as [|Hne]; [apply no_ports_delete|]. apply (caps_delete (Z.lxor (Z.lor sh a) a0)) in Hne.
  destruct (decide _); [apply no_ports_ret|]. destruct (decide _); [apply no_ports_ret|].
  apply no_ports_bind; [|intros _; apply no_ports_ret]. rewrite bool_decide_false by tauto. apply no_ports_ret.
Qed.
Lemma kbd_decode_no_ports data : no_ports (kbd_decode data).
Proof.
  unfold kbd_decode. apply no_ports_bind; [apply no_ports_cget|intros sh].
  destruct (decide _); [apply no_ports_bind; [apply no_ports_cset|intros _; apply no_ports_ret]|].
  destruct (decide _).
  - apply no_ports_bind; [apply no_ports_unwrap|intros m]. apply no_ports_bind; [apply no_ports_cset|intros _; apply no_ports_ret].
  - destruct (decide _); apply no_ports_press.
Qed.

(** Keys are pressed and released; the scan code of a release has the top bit. *)
Inductive key := Press (k : Z) | Release (k : Z).
Definition key_number (e : key) : Z := match e with Press k | Release k => k end.
Definition scan_code (e : key) : Z := match e with Press k => k | Release k => k + 128 end.
(** Keys with a code of their own: 0xE0 is the escape code, not a release. *)
Definition simple (e : key) : Prop := 0 ≤ key_number e < 128 ∧ key_number e ≠ 96.
Definition is_press (e : key) : bool := match e with Press _ => true | Release _ => false end.
Definition is_hold (m : Z) : Prop := m = SHIFT ∨ m = CTL ∨ m = ALT.
#[local] Instance is_hold_dec m : Decision (is_hold m) := or_dec _ _.
Definition is_lock (m : Z) : Prop := m = CAPSLOCK ∨ m = NUMLOCK ∨ m = SCROLLLOCK.
(** The key [e] drives the modifier [m]. *)
Definition drives (m : Z) (e : key) : Prop :=
  shiftcode !! Z.to_nat (key_number e) = Some m ∨ togglecode !! Z.to_nat (key_number e) = Some m.
#[local] Instance drives_dec m e : Decision (drives m e) := or_dec _ _.
(** A modifier that is held: its last event was a press. A lock: it was pressed an
    odd number of times. *)
Definition modifier (m : Z) (h : list key) : bool :=
  if decide (is_hold m) then
    match last (filter (drives m) h) with Some e => is_press e | None => false end
  else Nat.odd (length (filter (λ e, drives m e ∧ is_press e) h)).
Definition bit (m sh : Z) : bool := bool_decide (Z.land sh m ≠ 0).

Definition step_shift (sh : Z) (e : key) : Z :=
  let m := default 0 (shiftcode !! Z.to_nat (key_number e)) in
  let t := default 0 (togglecode !! Z.to_nat (key_number e)) in
  match e with
  | Press _ => Z.lxor (Z.lor sh m) t
  | Release _ => Z.land sh (w32 (Z.lnot (Z.lor m E0ESC)))
  end.
Definition step_bit (m : Z) (e : key) (b : bool) : bool :=
  if decide (drives m e) then
    if decide (is_hold m) then is_press e else if is_press e then negb b else b
  else b.
Definition step_ok (sh : Z) (e : key) : bool :=
  bool_decide (0 ≤ step_shift sh e < 64) &&
  forallb (λ m, Bool.eqb (bit m (step_shift sh e)) (step_bit m e (bit m sh))) [1; 2; 4; 8; 16; 32].
Lemma step_ok_all sh e : 0 ≤ sh < 64 → simple e → step_ok sh e = true.
Proof.
  intros Hs [Hk _]. assert (H : forallb (λ sh, forallb (λ k, step_ok sh (Press k) && step_ok sh (Release k)) (seqZ 0 128)) (seqZ 0 64) = true)
    by (vm_compute; reflexivity).
  rewrite forallb_forall in H. specialize (H sh ltac:(apply list_elem_of_In, elem_of_seqZ; lia)). rewrite forallb_forall in H.
  specialize (H (key_number e) ltac:(apply list_elem_of_In, elem_of_seqZ; lia)). apply andb_prop in H as [H1 H2]. by destruct e.
Qed.
Lemma step_bits sh e m : 0 ≤ sh < 64 → simple e → is_hold m ∨ is_lock m →
  0 ≤ step_shift sh e < 64 ∧ bit m (step_shift sh e) = step_bit m e (bit m sh).
Proof.
  intros Hs He Hm. pose proof (step_ok_all sh e Hs He) as H. apply andb_prop in H as [Hr Hb].
  apply bool_decide_eq_true in Hr. split; [done|]. rewrite forallb_forall in Hb. apply eqb_prop, Hb.
  unfold is_hold, is_lock, SHIFT, CTL, ALT, CAPSLOCK, NUMLOCK, SCROLLLOCK in Hm. cbn. naive_solver.
Qed.
(** No simple key is the delete key, and all tables have an entry. *)
Definition press_ok (row : list Z) (k : Z) : bool :=
  match row !! Z.to_nat k with Some c => bool_decide (c ≠ KEY_DEL) | None => false end.
Lemma press_ok_all i k : 0 ≤ i < 4 → 0 ≤ k < 128 →
  ∃ row c, charcode !! Z.to_nat i = Some row ∧ row !! Z.to_nat k = Some c ∧ c ≠ KEY_DEL.
Proof.
  intros Hi Hk. assert (H : forallb (λ row, forallb (press_ok row) (seqZ 0 128)) charcode = true) by (vm_compute; reflexivity).
  destruct (lookup_lt_is_Some_2 charcode (Z.to_nat i)) as [row Hrow]; [change (length charcode) with 4%nat; lia|].
  rewrite forallb_forall in H. specialize (H row ltac:(apply list_elem_of_In; by eapply list_elem_of_lookup_2)).
  rewrite forallb_forall in H. specialize (H k ltac:(apply list_elem_of_In, elem_of_seqZ; lia)). unfold press_ok in H.
  destruct (row !! Z.to_nat k) as [c|] eqn:Hc; [|done]. apply bool_decide_eq_true in H. by exists row, c.
Qed.
Lemma code_tables k : 0 ≤ k < 256 → is_Some (shiftcode !! Z.to_nat k) ∧ is_Some (togglecode !! Z.to_nat k).
Proof.
  intros Hk. assert (Hl : length shiftcode = 256%nat ∧ length togglecode = 256%nat) by (split; vm_compute; reflexivity).
  destruct Hl. split; apply lookup_lt_is_Some_2; lia.
Qed.
Lemma shift_row sh : 0 ≤ Z.land sh (Z.lor CTL SHIFT) < 4.
Proof. change (Z.lor CTL SHIFT) with (Z.ones 2). rewrite Z.land_ones by lia. apply Z.mod_pos_bound. done. Qed.
Lemma no_escape sh : 0 ≤ sh < 64 → Z.land sh E0ESC = 0.
Proof.
  intros Hs. unfold E0ESC. change 64 with (2 ^ 6). apply Z.bits_inj'. intros j Hj. rewrite Z.land_spec, Z.bits_0, Z.pow2_bits_eqb by lia.
  destruct (decide (j = 6)) as [->|]; [|by rewrite (proj2 (Z.eqb_neq 6 j)), andb_false_r].
  rewrite testbit_small; [done|lia|]. cbn. lia.
Qed.
Lemma wp_key e s : simple e → 0 ≤ shift s.1 < 64 →
  wp (kbd_decode (scan_code e)) (λ _ s', shift s'.1 = step_shift (shift s.1) e) s.
Proof.
  intros [Hk H96] Hs. destruct (code_tables (key_number e) ltac:(lia)) as [[m Hm] [t Ht]].
  unfold kbd_decode. apply wp_bind, wp_cget. destruct e as [k|k]; cbn [key_number scan_code] in *.
  - rewrite decide_False by lia. rewrite decide_False.
    2:{ intros Hn. apply Hn. change 128 with (2 ^ 7). apply Z.bits_inj'. intros j Hj. rewrite Z.land_spec, Z.bits_0, Z.pow2_bits_eqb by lia.
        destruct (decide (j = 7)) as [->|]; [|by rewrite (proj2 (Z.eqb_neq 7 j)), andb_false_r]. rewrite testbit_small; [done|lia|]. cbn. lia. }
    rewrite decide_False by (rewrite no_escape by done; lia). unfold kbd_press.
    apply wp_bind. eapply wp_unwrap; [done|]. apply wp_bind. eapply wp_unwrap; [done|]. apply wp_bind, wp_coset. cbn [fst].
    set (sh := Z.lxor (Z.lor (shift s.1) m) t). assert (Hsh : sh = step_shift (shift s.1) (Press k)) by (unfold step_shift; cbn [key_number]; by rewrite Hm, Ht).
    destruct (press_ok_all (Z.land sh (Z.lor CTL SHIFT)) k (shift_row sh) ltac:(lia)) as (row & c & Hrow & Hc & Hd).
    apply wp_bind. eapply wp_unwrap; [done|]. apply wp_bind. eapply wp_unwrap; [done|]. rewrite decide_False by done.
    apply (caps_delete sh) in Hd. destruct (decide _); [by apply wp_ret|]. destruct (decide _); [by apply wp_ret|].
    apply wp_bind. rewrite bool_decide_false by tauto. by apply wp_ret, wp_ret.
  - assert (Hk128 : Z.land (k + 128) 128 ≠ 0 ∧ Z.land (k + 128) 127 = k).
    { replace (k + 128) with (Z.lor k (2 ^ 7)).
      2:{ rewrite <- Z.lxor_lor, <- Z.add_nocarry_lxor; [done|..]; apply Z.bits_inj'; intros j Hj;
          rewrite Z.land_spec, Z.bits_0, Z.pow2_bits_eqb by lia;
          (destruct (decide (j = 7)) as [->|]; [|by rewrite (proj2 (Z.eqb_neq 7 j)), andb_false_r]); (rewrite testbit_small; [done|lia|cbn; lia]). }
      change 128 with (2 ^ 7). change 127 with (Z.ones 7). rewrite Z.land_ones, Z.lor_spec || rewrite !Z.land_lor_distr_l.
      split.
      - intros H. apply (f_equal (λ x, Z.testbit x 7)) in H. rewrite Z.lor_spec, !Z.land_spec, Z.pow2_bits_true in H by lia.
        by rewrite andb_true_r, orb_true_r in H.
      - rewrite !Z.land_ones by lia. rewrite Z.mod_small by (cbn; lia). by rewrite Z.lor_0_r. }
    destruct Hk128 as [H1 H2]. rewrite decide_False by lia. rewrite decide_True by done.
    rewrite decide_False by (rewrite no_escape by done; lia). rewrite H2.
    apply wp_bind. eapply wp_unwrap; [done|]. apply wp_bind, wp_coset. apply wp_ret. unfold step_shift. cbn [key_number fst shift set_shift]. by rewrite Hm.
Qed.
Lemma modifier_snoc m h e : modifier m (h ++ [e]) = step_bit m e (modifier m h).
Proof.
  unfold modifier, step_bit. destruct (decide (is_hold m)) as [Hh|Hh].
  - rewrite filter_app. destruct (decide (drives m e)) as [Hd|Hd].
    + rewrite filter_cons_True by done. by rewrite filter_nil, last_snoc.
    + rewrite filter_cons_False by done. by rewrite filter_nil, app_nil_r.
  - rewrite filter_app, length_app. destruct (decide (drives m e)) as [Hd|Hd].
    + destruct (is_press e) eqn:Hp.
      * rewrite filter_cons_True by (rewrite Hp; done). cbn [length filter]. rewrite Nat.add_1_r, Nat.odd_succ.
        by rewrite <- Nat.negb_odd.
      * rewrite filter_cons_False by (rewrite Hp; by intros [? []]). cbn. by rewrite Nat.add_0_r.
    + rewrite filter_cons_False by tauto. cbn. by rewrite Nat.add_0_r.
Qed.
(** After any history of key presses and releases, a modifier (shift, control,
    alt) counts as held exactly when the last event of its keys was a press, and a
    lock (caps, num, scroll) is on exactly when it was pressed an odd number of
    times. *)
Theorem keyboard_modifiers h m s : Forall simple h → shift s.1 = 0 → is_hold m ∨ is_lock m →
  wp (mfor h (λ e, _ ← kbd_decode (scan_code e); mret ())) (λ _ s', bit m (shift s'.1) = modifier m h) s.
Proof.
  intros Hh Hs Hm.
  apply (wp_mfor (λ l s1, ∃ h1, h = h1 ++ l ∧ 0 ≤ shift s1.1 < 64 ∧ bit m (shift s1.1) = modifier m h1)).
  - exists []. split_and!; [done|lia|lia|]. rewrite Hs. unfold bit, modifier. cbn. by destruct (decide _).
  - intros e l s1 (h1 & -> & Hr & Hb). apply Forall_app in Hh as [_ He]. apply Forall_cons in He as [He _].
    apply wp_bind. eapply wp_mono; [by apply wp_key|]. cbn beta. intros _ s2 H2. apply wp_ret.
    destruct (step_bits (shift s1.1) e m Hr He Hm) as [Hr2 Hb2]. exists (h1 ++ [e]). rewrite <- app_assoc. split; [done|].
    rewrite H2. split; [done|]. by rewrite Hb2, Hb, modifier_snoc.
  - intros s1 (h1 & -> & _ & Hb). by rewrite app_nil_r.
Qed.
End console.

(** ** A console with a serial line *)
(** The state behind the ports is what the line has received. *)
#[export] Instance line_ports : Ports (list Z) := {|
  inb p := λ x,
    if decide (p = COM1 + 5) then Ok (match x with [] => 0 | _ => 1 end) x
    else if decide (p = COM1) then match x with [] => Ok 0 x | c :: l => Ok c l end
    else if decide (p = 889) then Ok 128 x else Ok 0 x;
  outb p v := λ x, Ok tt x;
  insl _ _ _ := panic;
  outsl _ _ _ := panic
|}.
#[export] Instance line_total : PortsTotal (X := list Z).
Proof.
  split.
  - intros p x. cbn. repeat destruct (decide _); [eexists _, _; done|destruct x; eexists _, _; done|eexists _, _; done..].
  - intros p v x. by eexists.
Qed.
Lemma line_source : source serial_proc_data (λ s : console * list Z, s.2).
Proof.
  split; [|done]. intros [c [|x l]]; cbn [fst snd].
  - eexists. split; [reflexivity|]. by split.
  - eexists. split; [reflexivity|]. by split.
Qed.
Definition w_console : console :=
  CON (replicate 512 0) 511 511 0 0 (replicate 4000 BLANK) 0 980 0 true.
Definition w_line : console * list Z := (w_console, [104; 0; 105]).
Lemma w_ring : ring w_console [].
Proof. split; cbn; [done|lia|lia|done|]. intros k Hk. lia. Qed.
Lemma console_input_queue_witness :
  wp (cons_intr 4 serial_proc_data) (λ _ s', s'.2 = [] ∧ ring s'.1 (survivors ([] ++ filter (λ c, c ≠ 0) w_line.2))) w_line ∧
  wp cons_getc2 (λ c s', c = 0 ∧ s' = w_line) w_line.
Proof.
  apply (console_input_queue serial_proc_data (λ s, s.2) 4 [] w_line); [exact line_source|exact w_ring| |cbn; lia].
  repeat constructor; lia.
Defined.
Definition w_tape : tape := TAPE (λ _, BLANK) 0 0.
Lemma w_window : window w_console w_tape.
Proof.
  split; cbn; unfold CRT_SIZE, CRT_COLS; try lia.
  intros i Hi. change (replicate 4000 BLANK !! Z.to_nat i = Some BLANK). apply lookup_replicate_2. lia.
Qed.
Lemma screen_refines_tape_witness :
  wp (mfor [104; 9; 10; 105] cons_putc)
    (λ _ s', window s'.1 (foldl (λ t c, type 0 c t) w_tape [104; 9; 10; 105])) w_line.
Proof. apply (screen_refines_tape [104; 9; 10; 105] 0 w_tape w_line); [exact w_window|done]. Defined.
(** Both shift keys, then the left one released: shift does not count as held. *)
Definition w_keys : list key := [Press 42; Press 54; Press 58; Release 42].
Lemma keyboard_modifiers_witness :
  wp (mfor w_keys (λ e, _ ← kbd_decode (scan_code e); mret ()))
    (λ _ s', bit SHIFT (shift s'.1) = modifier SHIFT w_keys) w_line.
Proof.
  apply (keyboard_modifiers w_keys SHIFT w_line); [|done|by left; left].
  repeat constructor; cbn; lia.
Defined.
Example shift_lost : modifier SHIFT w_keys = false.
Proof. reflexivity. Qed.
