(* ===== verification/Printf.v ===== *)
(** * Formatted printing (lib/printfmt.c)

    The interpretation of a format string and its arguments, one character at a
    time, for any function [putch] that takes the characters. A format is a string
    in memory and the variable arguments are the words of the argument block, as
    inc/stdarg.h walks over them; a [long long] takes two words. Loops over strings
    and digits take fuel. *)

From S2P Require Import Prelude CString Console.

Definition MAXERROR : Z := 100.
Definition E_INVAL : Z := -3.
Definition error_string : list (list Z) :=
  map chars ["unspecified error"; "bad environment"; "invalid parameter"; "out of memory";
             "out of environments"; "segmentation fault"]%string.
(** The string of the error number [err], for [err] up to [MAXERROR]. *)
Definition error_text (err : Z) : option (list Z) := if decide (err ≤ 0) then None else error_string !! Z.to_nat (err - 1).
Definition w64 (x : Z) : Z := x `mod` 18446744073709551616.
Definition i64 (x : Z) : Z := let y := w64 x in if decide (y < 9223372036854775808) then y else y - 18446744073709551616.

(** The memory that the strings are read from, the character consumer and the
    global [printProgName]. *)
Class Printer (T : Type) := {
  rd : Z → M T Z;
  putch : Z → M T unit;
  set_printProgName : Z → M T unit
}.

(** The flags of a directive. *)
Record flags := FLAGS { padc : Z; width : Z; precision : Z; lflag : Z; altflag : bool }.

Section printfmt.
Context {T : Type} `{Printer T}.
Notation P := (M T).

(** ** Numbers *)
Definition digit_char (d : Z) : P Z := unwrap (chars "0123456789abcdef" !! Z.to_nat d).
(** [while (--width > 0) putch(padc, putdat)]. *)
Definition pad (width padc : Z) : P unit := mfor (replicate (Z.to_nat (width - 1)) padc) putch.
Fixpoint printnum (fuel : nat) (num base width padc : Z) : P unit :=
  match fuel with
  | O => nofuel
  | S fuel =>
      (if decide (num >= base) then printnum fuel (num `div` base) base (i32 (width - 1)) padc
       else pad width padc) ;;
      c ← digit_char (num `mod` base);
      putch c
  end.

(** ** Variable arguments *)
Definition va_word (ap : list Z) : P (Z * list Z) :=
  match ap with [] => undef | w :: ap => mret (w, ap) end.
Definition va_long_long (ap : list Z) : P (Z * list Z) :=
  lo ← va_word ap; hi ← va_word lo.2; mret (lo.1 + 4294967296 * hi.1, hi.2).
Definition getuint (ap : list Z) (lflag : Z) : P (Z * list Z) :=
  if decide (lflag >= 2) then va_long_long ap else va_word ap.
Definition getint (ap : list Z) (lflag : Z) : P (Z * list Z) :=
  if decide (lflag >= 2) then r ← va_long_long ap; mret (i64 r.1, r.2)
  else r ← va_word ap; mret (i32 r.1, r.2).

(** ** Strings, read by [get] *)
Section string.
Context (get : Z → P Z).
(** [strnlen] of lib/string.c, whose [size] is a [uint32]. *)
Fixpoint str_nlen (fuel : nat) (p size n : Z) : P Z :=
  match fuel with
  | O => nofuel
  | S fuel =>
      if decide (size > 0) then
        c ← get p;
        if decide (c = 0) then mret n else str_nlen fuel (w32 (p + 1)) (size - 1) (i32 (n + 1))
      else mret n
  end.
(** The characters of the string; the width that is left. *)
Fixpoint put_chars (fuel : nat) (p precision width : Z) (altflag : bool) : P Z :=
  match fuel with
  | O => nofuel
  | S fuel =>
      c ← get p;
      let ch := i8 c in
      if decide (ch ≠ 0 ∧ (precision < 0 ∨ precision - 1 >= 0)) then
        (if altflag && bool_decide (ch < 32 ∨ ch > 126) then putch 63 else putch ch) ;;
        put_chars fuel (w32 (p + 1)) (if decide (precision < 0) then precision else precision - 1) (i32 (width - 1)) altflag
      else mret width
  end.
Definition put_string (fuel : nat) (p : Z) (f : flags) : P unit :=
  w ← (if decide (width f > 0 ∧ padc f ≠ 45) then
         n ← str_nlen fuel p (w32 (precision f)) 0;
         let w := i32 (width f - n) in
         mfor (replicate (Z.to_nat w) (padc f)) putch ;;
         mret (Z.min w 0)
       else mret (width f));
  w ← put_chars fuel p (precision f) w (altflag f);
  mfor (replicate (Z.to_nat w) 32) putch.
End string.
Definition literal (l : list Z) (i : Z) : P Z := unwrap ((l ++ [0]) !! Z.to_nat i).
Definition no_flags : flags := FLAGS 32 (-1) (-1) 0 false.

(** ** Directives *)
Definition print_signed (fuel : nat) (num : Z) (f : flags) : P unit :=
  if decide (num < 0) then putch 45 ;; printnum fuel (w64 (- num)) 10 (width f) (padc f)
  else printnum fuel num 10 (width f) (padc f).
(** The two calls of [printfmt], with the formats "error %d" and "%s". *)
Definition print_error (fuel : nat) (err : Z) : P unit :=
  let err := if decide (err < 0) then i32 (- err) else err in
  if decide (err < 0) then undef else
  match (if decide (err > MAXERROR) then None else error_text err) with
  | None => mfor (chars "error ") putch ;; print_signed fuel err no_flags
  | Some l => put_string (literal l) fuel 0 no_flags
  end.
(** The decimal digits of a field, from the digit [ch] on. *)
Fixpoint field_digits (fuel : nat) (fmt ch prec : Z) : P (Z * Z) :=
  match fuel with
  | O => nofuel
  | S fuel =>
      let prec := i32 (i32 (prec * 10 + ch) - 48) in
      c ← rd fmt;
      let ch := i8 c in
      if decide (ch < 48 ∨ ch > 57) then mret (fmt, prec) else field_digits fuel (w32 (fmt + 1)) ch prec
  end.
Definition process_precision (f : flags) : flags :=
  if decide (width f < 0) then FLAGS (padc f) (precision f) (-1) (lflag f) (altflag f) else f.
Definition set_precision (p : Z) (f : flags) : flags := FLAGS (padc f) (width f) p (lflag f) (altflag f).
Definition set_padc (c : Z) (f : flags) : flags := FLAGS c (width f) (precision f) (lflag f) (altflag f).
(** [for (fmt--; fmt[-1] != '%'; fmt--)]. *)
Fixpoint back_to_percent (fuel : nat) (fmt : Z) : P Z :=
  match fuel with
  | O => nofuel
  | S fuel => c ← rd (w32 (fmt - 1)); if decide (c = 37) then mret fmt else back_to_percent fuel (w32 (fmt - 1))
  end.
Definition number (fuel : nat) (num base : Z) (f : flags) : P unit := printnum fuel num base (width f) (padc f).
(** A conversion: the character after the flags, at [fmt - 1]. Returns the format
    and the arguments that are left. *)
Definition convert (fuel : nat) (ch fmt : Z) (f : flags) (ap : list Z) : P (Z * list Z) :=
  if decide (ch = 99) then r ← va_word ap; putch (i32 r.1) ;; mret (fmt, r.2)
  else if decide (ch = 101) then r ← va_word ap; print_error fuel (i32 r.1) ;; mret (fmt, r.2)
  else if decide (ch = 115) then
    r ← va_word ap;
    (if decide (r.1 = 0) then put_string (literal (chars "(null)")) fuel 0 f else put_string rd fuel r.1 f) ;;
    mret (fmt, r.2)
  else if decide (ch = 100) then r ← getint ap (lflag f); print_signed fuel r.1 f ;; mret (fmt, r.2)
  else if decide (ch = 117) then r ← getuint ap (lflag f); number fuel r.1 10 f ;; mret (fmt, r.2)
  else if decide (ch = 111) then putch 88 ;; putch 88 ;; putch 88 ;; mret (fmt, ap)
  else if decide (ch = 112) then putch 48 ;; putch 120 ;; r ← va_word ap; number fuel r.1 16 f ;; mret (fmt, r.2)
  else if decide (ch = 120) then r ← getuint ap (lflag f); number fuel r.1 16 f ;; mret (fmt, r.2)
  else if decide (ch = 37) then putch ch ;; mret (fmt, ap)
  else if decide (ch = 126) then set_printProgName 0 ;; mret (fmt, ap)
  else if decide (ch = 64) then set_printProgName 1 ;; mret (fmt, ap)
  else putch 37 ;; fmt ← back_to_percent fuel (w32 (fmt - 1)); mret (fmt, ap).
(** From [reswitch] on. *)
Fixpoint directive (fuel : nat) (fmt : Z) (f : flags) (ap : list Z) : P (Z * list Z) :=
  match fuel with
  | O => nofuel
  | S n =>
      ch ← rd fmt;
      let fmt := w32 (fmt + 1) in
      if decide (ch = 45) then directive n fmt (set_padc 45 f) ap
      else if decide (ch = 48) then directive n fmt (set_padc 48 f) ap
      else if decide (49 ≤ ch ≤ 57) then
        r ← field_digits n fmt ch 0;
        directive n r.1 (process_precision (set_precision r.2 f)) ap
      else if decide (ch = 42) then
        r ← va_word ap; directive n fmt (process_precision (set_precision (i32 r.1) f)) r.2
      else if decide (ch = 46) then
        directive n fmt (if decide (width f < 0) then FLAGS (padc f) 0 (precision f) (lflag f) (altflag f) else f) ap
      else if decide (ch = 35) then directive n fmt (FLAGS (padc f) (width f) (precision f) (lflag f) true) ap
      else if decide (ch = 108) then directive n fmt (FLAGS (padc f) (width f) (precision f) (i32 (lflag f + 1)) (altflag f)) ap
      else convert n ch fmt f ap
  end.
Fixpoint vprintfmt (fuel : nat) (fmt : Z) (ap : list Z) : P unit :=
  match fuel with
  | O => nofuel
  | S n =>
      ch ← rd fmt;
      let fmt := w32 (fmt + 1) in
      if decide (ch = 37) then r ← directive n fmt no_flags ap; vprintfmt n r.1 r.2
      else if decide (ch = 0) then mret ()
      else putch ch ;; vprintfmt n fmt ap
  end.
Definition printfmt (fuel : nat) (fmt : Z) (ap : list Z) : P unit := vprintfmt fuel fmt ap.
End printfmt.

(** ** Printing into a buffer *)
Record sprintbuf := SPB { buf : Z; ebuf : Z; cnt : Z }.
Definition set_buf (x : Z) (b : sprintbuf) : sprintbuf := SPB x (ebuf b) (cnt b).
Definition set_cnt (x : Z) (b : sprintbuf) : sprintbuf := SPB (buf b) (ebuf b) x.
Notation sprint := (bmem * sprintbuf)%type.
Definition mem_op {A B} (c : M A B) : M (A * sprintbuf) B := zoom fst (λ m s, (m, s.2)) c.
Definition sprintputch (ch : Z) : M sprint unit :=
  modify (λ s, (s.1, set_cnt (i32 (cnt s.2 + 1)) s.2)) ;;
  b ← gets snd;
  when (bool_decide (buf b < ebuf b))
    (mem_op (store (buf b) ch) ;; modify (λ s, (s.1, set_buf (w32 (buf s.2 + 1)) s.2))).
#[export] Instance sprint_printer : Printer sprint := {|
  rd p := mem_op (load p);
  putch := sprintputch;
  set_printProgName _ := mret ()
|}.
(** The buffer record is a local variable of [vsnprintf]. *)
Definition vsnprintf (fuel : nat) (buf n fmt : Z) (ap : list Z) : M bmem Z :=
  if decide (buf = 0 ∨ n < 1) then mret E_INVAL else
  λ m, match (vprintfmt fuel fmt ap ;; b ← gets snd; mem_op (store (Printf.buf b) 0) ;; mret (cnt b))
             (m, SPB buf (w32 (buf + n - 1)) 0) with
       | Ok r s => Ok r s.1
       | Panic s => Panic s.1
       | Undef => Undef
       | NoFuel => NoFuel
       end.
Definition snprintf := vsnprintf.
