(* ===== verification/PrintfThm.v ===== *)
(** * What formatted printing prints

    The characters that a format and its arguments stand for, as a function, and
    the theorem that the interpreter of Printf.v prints them; printing into a
    buffer stores as many of them as fit, with a terminator, and returns their
    number. *)

From S2P Require Import Prelude Queue CString CStringSpec Console Printf.

(** ** Numerals *)
Fixpoint digits_of (fuel : nat) (base n : Z) : list Z :=
  match fuel with
  | O => []
  | S fuel => if decide (n < base) then [n] else digits_of fuel base (n `div` base) ++ [n `mod` base]
  end.
(** The digits of a number below 2^64 in a base from 10 on. *)
Definition numeral (base n : Z) : list Z := digits_of 20 base n.
Definition value (base : Z) (ds : list Z) : Z := foldl (λ v d, v * base + d) 0 ds.
Lemma digits_of_spec fuel base n : 2 ≤ base → 0 ≤ n < base ^ Z.of_nat fuel → (0 < fuel)%nat →
  value base (digits_of fuel base n) = n ∧ Forall (λ d, 0 ≤ d < base) (digits_of fuel base n) ∧
  (1 ≤ length (digits_of fuel base n) ≤ fuel)%nat ∧ (n ≠ 0 → head (digits_of fuel base n) ≠ Some 0).
Proof.
  intros Hb. revert n. induction fuel as [|fuel IH]; intros n Hn Hf; [lia|]. cbn [digits_of].
  destruct (decide (n < base)) as [Hlt|Hge].
  - split_and!; [done|repeat constructor; lia|cbn; lia|cbn; lia|]. intros ? [=]. lia.
  - rewrite Nat2Z.inj_succ, Z.pow_succ_r in Hn by lia.
    assert (0 ≤ n `div` base) by (apply Z.div_pos; lia).
    assert (n `div` base < base ^ Z.of_nat fuel) by (apply Z.div_lt_upper_bound; lia).
    assert (0 < fuel)%nat by (destruct fuel; [cbn in *; lia|lia]).
    destruct (IH (n `div` base)) as (Hv & Hd & Hl & Hh); [lia|done|].
    pose proof (Z.mod_pos_bound n base ltac:(lia)). pose proof (Z.div_mod n base ltac:(lia)).
    split_and!.
    + unfold value in *. rewrite foldl_app. cbn. rewrite Hv. lia.
    + apply Forall_app. split; [done|]. repeat constructor; lia.
    + rewrite length_app. cbn. lia.
    + rewrite length_app. cbn. lia.
    + intros _. assert (n `div` base ≠ 0) as Hne.
      { intros Hz. rewrite Hz in *. lia. }
      specialize (Hh Hne). destruct (digits_of fuel base (n `div` base)); [cbn in Hl; lia|done].
Qed.
(** [numeral] is the numeral without leading zeros. *)
Lemma numeral_spec base n : 10 ≤ base → 0 ≤ n < 18446744073709551616 →
  value base (numeral base n) = n ∧ Forall (λ d, 0 ≤ d < base) (numeral base n) ∧
  (1 ≤ length (numeral base n) ≤ 20)%nat ∧ (n ≠ 0 → head (numeral base n) ≠ Some 0).
Proof.
  intros Hb Hn. apply digits_of_spec; [lia| |lia]. split; [lia|].
  pose proof (Z.pow_le_mono_l 10 base 20 ltac:(lia)). change (Z.of_nat 20) with 20. lia.
Qed.

(** ** The meaning of a format *)
Inductive flag := Minus | Zero | Hash | Dot | Long | Width (n : Z) | Star (n : Z).
#[export] Instance flag_eq_dec : EqDecision flag.
Proof. solve_decision. Defined.
Inductive conv :=
| Signed (z : Z) | Unsigned (z : Z) | Hex (z : Z) | Pointer (z : Z)
| Chr (c : Z) | Str (p : Z) (l : list Z) | Null | Error (e : Z)
| Octal (z : Z) | Percent | HideName | ShowName.
Inductive item := Text (c : Z) | Directive (fs : list flag) (c : conv).

Definition ascii_digit (d : Z) : Z := if decide (d < 10) then 48 + d else 87 + d.
Definition show_flag (f : flag) : list Z :=
  match f with
  | Minus => [45] | Zero => [48] | Hash => [35] | Dot => [46] | Long => [108] | Star _ => [42]
  | Width n => map ascii_digit (numeral 10 n)
  end.
Definition conv_char (c : conv) : Z :=
  match c with
  | Signed _ => 100 | Unsigned _ => 117 | Hex _ => 120 | Pointer _ => 112 | Chr _ => 99 | Str _ _ | Null => 115
  | Error _ => 101 | Octal _ => 111 | Percent => 37 | HideName => 126 | ShowName => 64
  end.
Definition show_item (i : item) : list Z :=
  match i with
  | Text c => [c]
  | Directive fs c => 37 :: concat (map show_flag fs) ++ [conv_char c]
  end.
Definition show (l : list item) : list Z := concat (map show_item l).
(** The words of the arguments. *)
Definition flag_args (f : flag) : list Z := match f with Star n => [w32 n] | _ => [] end.
Definition longs (fs : list flag) : Z := Z.of_nat (length (filter (λ f, f = Long) fs)).
Definition number_args (fs : list flag) (z : Z) : list Z :=
  if decide (longs fs >= 2) then [w32 z; w32 (z `div` 4294967296)] else [w32 z].
Definition conv_args (fs : list flag) (c : conv) : list Z :=
  match c with
  | Signed z | Unsigned z | Hex z => number_args fs z
  | Pointer z | Chr z | Error z => [w32 z]
  | Str p _ => [p]
  | Null => [0]
  | Octal _ | Percent | HideName | ShowName => []
  end.
Definition item_args (i : item) : list Z :=
  match i with Text _ => [] | Directive fs c => concat (map flag_args fs) ++ conv_args fs c end.
Definition args (l : list item) : list Z := concat (map item_args l).

(** The effect of a flag, and of all. *)
Definition apply_flag (f : flags) (x : flag) : flags :=
  match x with
  | Minus => set_padc 45 f
  | Zero => set_padc 48 f
  | Hash => FLAGS (padc f) (width f) (precision f) (lflag f) true
  | Dot => if decide (width f < 0) then FLAGS (padc f) 0 (precision f) (lflag f) (altflag f) else f
  | Long => FLAGS (padc f) (width f) (precision f) (lflag f + 1) (altflag f)
  | Width n | Star n => process_precision (set_precision n f)
  end.
Definition apply_flags (fs : list flag) : flags := foldl apply_flag no_flags fs.

(** What the code prints for a number: padded on the left, behind the sign. *)
Definition number_out (base n width padc : Z) : list Z :=
  let ds := map ascii_digit (numeral base n) in
  replicate (Z.to_nat (width - Z.of_nat (length ds))) padc ++ ds.
Definition signed_out (z width padc : Z) : list Z :=
  if decide (z < 0) then 45 :: number_out 10 (- z) width padc else number_out 10 z width padc.
(** A string, cut to the precision and padded on the left, or on the right for '-'. *)
Definition shown_char (alt : bool) (c : Z) : Z := if alt && bool_decide (i8 c < 32 ∨ i8 c > 126) then 63 else i8 c.
Definition string_text (l : list Z) (f : flags) : list Z :=
  let l := if decide (precision f < 0) then l else take (Z.to_nat (precision f)) l in
  let body := map (shown_char (altflag f)) l in
  let gap := Z.to_nat (width f - Z.of_nat (length l)) in
  if decide (padc f = 45) then body ++ replicate gap 32 else replicate gap (padc f) ++ body.
Definition error_message (e : Z) : list Z :=
  match (if decide (Z.abs e > MAXERROR) then None else error_text (Z.abs e)) with
  | Some l => l
  | None => chars "error " ++ number_out 10 (Z.abs e) 0 32
  end.
Definition conv_out (f : flags) (c : conv) : list Z :=
  match c with
  | Signed z => signed_out z (width f) (padc f)
  | Unsigned z => number_out 10 z (width f) (padc f)
  | Hex z => number_out 16 z (width f) (padc f)
  | Pointer z => [48; 120] ++ number_out 16 z (width f) (padc f)
  | Chr c => [c]
  | Str _ l => string_text l f
  | Null => string_text (chars "(null)") f
  | Error e => error_message e
  | Octal _ => [88; 88; 88]
  | Percent => [37]
  | HideName | ShowName => []
  end.
Definition out_of (i : item) : list Z :=
  match i with Text c => [c] | Directive fs c => conv_out (apply_flags fs) c end.
Definition output (l : list item) : list Z := concat (map out_of l).

(** What a directive means. A number is padded with blanks on the left, with '-' on
    the right, with '0' by zeros behind the sign; the sign counts for the width. *)
Definition padded (w padc : Z) (sign ds : list Z) : list Z :=
  let gap := Z.to_nat (w - Z.of_nat (length (sign ++ ds))) in
  if decide (padc = 45) then sign ++ ds ++ replicate gap 32
  else if decide (padc = 48) then sign ++ replicate gap 48 ++ ds
  else replicate gap padc ++ sign ++ ds.
Definition digits (base n : Z) : list Z := map ascii_digit (numeral base n).
Definition conv_text (f : flags) (c : conv) : list Z :=
  match c with
  | Signed z => padded (width f) (padc f) (if decide (z < 0) then [45] else []) (digits 10 (Z.abs z))
  | Unsigned z => padded (width f) (padc f) [] (digits 10 z)
  | Hex z => padded (width f) (padc f) [] (digits 16 z)
  | Pointer z => [48; 120] ++ padded (width f) (padc f) [] (digits 16 z)
  | Chr c => [c]
  | Str _ l => string_text l f
  | Null => string_text (chars "(null)") f
  | Error e => error_message e
  | Octal z => digits 8 z
  | Percent => [37]
  | HideName | ShowName => []
  end.
Definition text_of (i : item) : list Z :=
  match i with Text c => [c] | Directive fs c => conv_text (apply_flags fs) c end.
Definition text (l : list item) : list Z := concat (map text_of l).
(** The directives that the code prints with this meaning: '-' and '0' not together,
    no padding of a number on the right or of a negative number, no octal number. *)
Definition fits (f : flags) (base z : Z) : Prop := width f ≤ Z.of_nat (length (digits base (Z.abs z))).
Definition regular (i : item) : Prop :=
  match i with
  | Text _ => True
  | Directive fs c => let f := apply_flags fs in (Minus ∈ fs → Zero ∉ fs) ∧
      match c with
      | Signed z => z < 0 ∨ padc f = 45 → fits f 10 z
      | Unsigned z => padc f = 45 → fits f 10 z
      | Hex z | Pointer z => padc f = 45 → fits f 16 z
      | Octal _ => False
      | _ => True
      end
  end.
Lemma Z2Nat_eq0 x : Z.to_nat x = 0%nat ↔ x ≤ 0.
Proof. lia. Qed.
Lemma padded_number base n w padc : (padc = 45 → w ≤ Z.of_nat (length (digits base n))) → number_out base n w padc = padded w padc [] (digits base n).
Proof.
  unfold number_out, padded. cbn [app]. fold (digits base n). intros Hf. case_decide as Hp.
  - specialize (Hf Hp). rewrite (proj2 (Z2Nat_eq0 (w - Z.of_nat (length (digits base n))))) by lia. cbn. by rewrite app_nil_r.
  - case_decide as H0; [by rewrite H0|done].
Qed.
Lemma padded_negative base n w padc : w ≤ Z.of_nat (length (digits base n)) → 45 :: number_out base n w padc = padded w padc [45] (digits base n).
Proof.
  intros Hf. unfold number_out, padded. fold (digits base n). rewrite (proj2 (Z2Nat_eq0 (w - Z.of_nat (length (digits base n))))) by lia.
  rewrite (proj2 (Z2Nat_eq0 (w - Z.of_nat (length ([45] ++ digits base n))))) by (cbn [app length]; lia). cbn. rewrite app_nil_r. by repeat case_decide.
Qed.

(** ** Well-formed formats *)
Definition small (n : Z) : Prop := -1000000000 < n < 1000000000.
Definition flag_ok (f : flag) : Prop :=
  match f with Width n => 0 < n < 1000000000 | Star n => small n | _ => True end.
(** A '0' that follows a number would belong to it. *)
Fixpoint flags_ok (fs : list flag) : Prop :=
  match fs with
  | [] => True
  | f :: fs => flag_ok f ∧ flags_ok fs ∧
      match f, fs with Width _, (Zero | Width _) :: _ => False | _, _ => True end
  end.
Definition number_ok (signed : bool) (fs : list flag) (z : Z) : Prop :=
  let n := if decide (longs fs >= 2) then 64 else 32 in
  if signed then - 2 ^ (n - 1) < z < 2 ^ (n - 1) else 0 ≤ z < 2 ^ n.
Definition conv_ok (cm : bmem) (fs : list flag) (c : conv) : Prop :=
  match c with
  | Signed z => number_ok true fs z
  | Unsigned z | Hex z => number_ok false fs z
  | Pointer z => 0 ≤ z < 4294967296
  | Chr z | Error z => -2147483648 < z < 2147483648
  | Str p l => p ≠ 0 ∧ at_ p (l ++ [0]) cm ∧ 0 ≤ p ∧ p + size l < 4294967296 ∧
      Forall (λ c, 0 < c < 256) l ∧ size l < 1000000000
  | _ => True
  end.
Definition item_ok (cm : bmem) (i : item) : Prop :=
  match i with
  | Text c => 0 < c < 256 ∧ c ≠ 37
  | Directive fs c => flags_ok fs ∧ size fs < 1000000000 ∧ conv_ok cm fs c
  end.
Lemma regular_out cm i : item_ok cm i → regular i → out_of i = text_of i.
Proof.
  destruct i as [c|fs c]; [done|]. intros (_ & _ & Hc) [_ Hr]. cbn [out_of text_of]. destruct c as [z|z|z|z| | | | | | | |]; cbn [conv_out conv_text conv_ok] in *; try done.
  - unfold signed_out, fits in *. case_decide as Hz.
    + rewrite Z.abs_neq in * by lia. apply padded_negative. apply Hr. by left.
    + rewrite Z.abs_eq in * by lia. apply padded_number. intros Hp. apply Hr. by right.
  - unfold number_ok, fits in *. rewrite Z.abs_eq in Hr by lia. by apply padded_number.
  - unfold number_ok, fits in *. rewrite Z.abs_eq in Hr by lia. by apply padded_number.
  - unfold fits in Hr. rewrite Z.abs_eq in Hr by lia. f_equal. f_equal. by apply padded_number.
Qed.
Lemma regular_output cm items : Forall (item_ok cm) items → Forall regular items → output items = text items.
Proof.
  intros Hok Hr. unfold output, text. f_equal. induction items as [|i items IH]; [done|]. apply Forall_cons in Hok as [Hi Hok], Hr as [Hri Hr].
  cbn [map]. f_equal; [by eapply regular_out|by apply IH].
Qed.
(** Fuel that is enough for an item. *)
Definition item_fuel (i : item) : nat :=
  match i with
  | Text _ => 1
  | Directive fs c => 24 + length (concat (map show_flag fs)) +
      match c with Str _ l => length l | _ => 0 end
  end.

(** ** The printer *)
(** [I l s]: in [s] the characters [l] have been printed. The strings are in the
    memory [cm], which printing does not change. *)
Record printer_laws {T} `{Printer T} (I : list Z → T → Prop) (cm : bmem) : Prop := {
  law_rd a c l s : cm !! a = Some c → I l s → rd a s = Ok c s;
  law_put c l s : I l s → wp (putch c) (λ _ s', I (l ++ [c]) s') s;
  law_name v l s : I l s → wp (set_printProgName v) (λ _ s', I l s') s
}.

Lemma digits_of_fuel base n f k : 2 ≤ base → 0 ≤ n < base ^ Z.of_nat f → (0 < f)%nat →
  digits_of (f + k) base n = digits_of f base n.
Proof.
  intros Hb. revert n. induction f as [|f IH]; intros n Hn Hf; [lia|]. cbn [digits_of Nat.add].
  destruct (decide (n < base)); [done|]. rewrite Nat2Z.inj_succ, Z.pow_succ_r in Hn by lia.
  assert (0 ≤ n `div` base) by (apply Z.div_pos; lia). assert (n `div` base < base ^ Z.of_nat f) by (apply Z.div_lt_upper_bound; lia).
  f_equal. apply IH; [lia|]. destruct f; [cbn in *; lia|lia].
Qed.

Lemma i32_w32 x : -2147483648 ≤ x < 2147483648 → i32 (w32 x) = x.
Proof.
  intros. unfold i32, w32. rewrite Z.mod_mod by lia. destruct (decide (0 ≤ x)).
  - rewrite Z.mod_small by lia. by rewrite decide_True by lia.
  - rewrite <- (Z.mod_add x 1) by lia. rewrite Z.mod_small by lia. rewrite decide_False by lia. lia.
Qed.
Section printing.
Context {T : Type} {PR : Printer T} (I : list Z → T → Prop) (cm : bmem) (laws : printer_laws I cm).
Implicit Types s : T.

Lemma wp_rd a c l s (Q : Z → T → Prop) : cm !! a = Some c → I l s → Q c s → wp (rd a) Q s.
Proof. intros Hc HI HQ. unfold wp. by rewrite (law_rd _ _ laws a c l s). Qed.
Lemma wp_put c l s (Q : unit → T → Prop) : I l s → (∀ s', I (l ++ [c]) s' → Q () s') → wp (putch c) Q s.
Proof. intros HI HQ. eapply wp_mono; [by apply (law_put _ _ laws)|]. intros [] s' HI'. by apply HQ. Qed.
Lemma wp_puts cs l s (Q : unit → T → Prop) : I l s → (∀ s', I (l ++ cs) s' → Q () s') → wp (mfor cs putch) Q s.
Proof.
  revert l s. induction cs as [|c cs IH]; intros l s HI HQ; cbn [mfor].
  - apply wp_ret. apply HQ. by rewrite app_nil_r.
  - apply wp_bind. eapply wp_put; [done|]. intros s1 HI1. eapply IH; [done|]. intros s2 HI2. apply HQ. by rewrite <- app_assoc in HI2.
Qed.
Lemma wp_name v l s (Q : unit → T → Prop) : I l s → (∀ s', I l s' → Q () s') → wp (set_printProgName v) Q s.
Proof. intros HI HQ. eapply wp_mono; [by apply (law_name _ _ laws)|]. intros [] s' HI'. by apply HQ. Qed.

(** ** Numbers *)
Lemma wp_digit_char d s (Q : Z → T → Prop) : 0 ≤ d < 16 → Q (ascii_digit d) s → wp (digit_char d) Q s.
Proof.
  intros Hd HQ. unfold digit_char. eapply wp_unwrap; [|done].
  assert (Forall (λ d, chars "0123456789abcdef" !! Z.to_nat d = Some (ascii_digit d)) (seqZ 0 16)) as H.
  { apply (bool_decide_unpack _). by vm_compute. }
  rewrite Forall_forall in H. apply H, elem_of_seqZ. lia.
Qed.
Lemma wp_printnum fuel base n width padc l s (Q : unit → T → Prop) :
  10 ≤ base ≤ 16 → 0 ≤ n < base ^ Z.of_nat fuel → (0 < fuel < 100)%nat → -2000000000 < width - Z.of_nat fuel → width < 2000000000 → I l s →
  (∀ s', I (l ++ replicate (Z.to_nat (width - Z.of_nat (length (digits_of fuel base n)))) padc ++ map ascii_digit (digits_of fuel base n)) s' → Q () s') →
  wp (printnum fuel n base width padc) Q s.
Proof.
  intros Hb. revert n width s Q. induction fuel as [|fuel IH]; intros n width s Q Hn Hf Hw1 Hw2 HI HQ; [lia|].
  cbn [printnum digits_of] in *. pose proof (Z.mod_pos_bound n base ltac:(lia)) as Hmod.
  destruct (decide (n < base)) as [Hlt|Hge].
  - rewrite decide_False by lia. apply wp_bind. unfold pad. eapply wp_puts; [done|]. intros s1 HI1.
    apply wp_bind, wp_digit_char; [lia|]. eapply wp_put; [done|]. intros s2 HI2. apply HQ.
    rewrite Z.mod_small in HI2 by lia. rewrite <- app_assoc in HI2. exact HI2.
  - rewrite decide_True by lia. rewrite Nat2Z.inj_succ, Z.pow_succ_r in Hn by lia.
    assert (0 ≤ n `div` base) by (apply Z.div_pos; lia).
    assert (n `div` base < base ^ Z.of_nat fuel) by (apply Z.div_lt_upper_bound; lia).
    assert (0 < fuel)%nat by (destruct fuel; [cbn in *; lia|lia]).
    apply wp_bind. rewrite i32_small by lia. apply IH; [lia|lia|lia|lia|done|]. intros s1 HI1.
    apply wp_bind, wp_digit_char; [lia|]. eapply wp_put; [done|]. intros s2 HI2. apply HQ.
    rewrite length_app, map_app. cbn [length map]. rewrite <- !app_assoc in HI2.
    replace (width - Z.of_nat (length (digits_of fuel base (n `div` base)) + 1))
      with (width - 1 - Z.of_nat (length (digits_of fuel base (n `div` base)))) by lia. exact HI2.
Qed.
Lemma pow_twenty base fuel : 10 ≤ base → (20 ≤ fuel)%nat → 18446744073709551616 ≤ base ^ Z.of_nat fuel.
Proof.
  intros Hb Hf. pose proof (Z.pow_le_mono_l 10 base (Z.of_nat fuel) ltac:(lia)).
  pose proof (Z.pow_le_mono_r 10 20 (Z.of_nat fuel) ltac:(lia) ltac:(lia)). lia.
Qed.
Lemma wp_number fuel base n f l s (Q : unit → T → Prop) :
  10 ≤ base ≤ 16 → 0 ≤ n < 18446744073709551616 → (20 ≤ fuel)%nat → small (width f) → I l s →
  (∀ s', I (l ++ number_out base n (width f) (padc f)) s' → Q () s') → wp (number fuel n base f) Q s.
Proof.
  intros Hb Hn Hf Hw HI HQ. unfold small in Hw.
  assert (H20 : 0 ≤ n < base ^ Z.of_nat 20) by (split; [lia|]; pose proof (pow_twenty base 20 ltac:(lia) ltac:(lia)); lia).
  (* more fuel gives the same digits *)
  assert (Hgen : ∀ k n width s Q, 0 ≤ n < base ^ Z.of_nat 20 → -1000000100 < width < 2000000000 → I l s →
    (∀ s', I (l ++ replicate (Z.to_nat (width - Z.of_nat (length (digits_of 20 base n)))) (padc f) ++ map ascii_digit (digits_of 20 base n)) s' → Q () s') →
    wp (printnum (20 + k) n base width (padc f)) Q s).
  2:{ unfold number. replace fuel with (20 + (fuel - 20))%nat by lia. apply Hgen; [done|lia|done|].
      intros s' HI'. apply HQ. unfold number_out, numeral. by rewrite length_map. }
  intros k n' w s' Q' Hn' Hw' HI' HQ'. 
  assert (Hmono : ∀ j m w s Q, 0 ≤ m < base ^ Z.of_nat j → wp (printnum j m base w (padc f)) Q s → wp (printnum (j + k) m base w (padc f)) Q s).
  { clear - Hb. intros j. induction j as [|j IH]; intros m w s Q Hm; [done|]. cbn [printnum Nat.add].
    destruct (decide (m >= base)) as [Hge|]; [|done]. unfold wp at 1, mbind, M_bind. intros Hwp. apply wp_bind.
    rewrite Nat2Z.inj_succ, Z.pow_succ_r in Hm by lia.
    apply IH; [split; [apply Z.div_pos; lia|apply Z.div_lt_upper_bound; lia]|].
    unfold wp. destruct (printnum j (m `div` base) base (i32 (w - 1)) (padc f) s); done. }
  apply Hmono; [done|]. eapply wp_printnum; [done|done|lia|lia|lia|done|exact HQ'].
Qed.

(** ** Strings *)
(** [get] reads the terminated string [l] from [p] on. *)
Definition reads (get : Z → M T Z) (p : Z) (l : list Z) : Prop :=
  ∀ i c l' s (Q : Z → T → Prop), (l ++ [0]) !! i = Some c → I l' s → Q c s → wp (get (p + Z.of_nat i)) Q s.
Lemma reads_next get p c l : reads get p (c :: l) → reads get (p + 1) l.
Proof.
  intros H i x l' s Q Hi. replace (p + 1 + Z.of_nat i) with (p + Z.of_nat (S i)) by lia. by apply H.
Qed.
Lemma reads_memory p l : at_ p (l ++ [0]) cm → reads rd p l.
Proof. intros Hat i c l' s Q Hi HI HQ. eapply wp_rd; [by apply Hat|done|done]. Qed.
Lemma reads_literal l : reads (literal l) 0 l.
Proof. intros i c l' s Q Hi HI HQ. unfold literal. eapply wp_unwrap; [|done]. by rewrite Z.add_0_l, Nat2Z.id. Qed.
Definition char_ok (c : Z) : Prop := 0 < c < 256.
Definition cut (prec : Z) (l : list Z) : list Z := if decide (prec < 0) then l else take (Z.to_nat prec) l.

Lemma wp_str_nlen get fuel p l sz n l' s (Q : Z → T → Prop) :
  reads get p l → I l' s → Forall char_ok l → 0 ≤ p → p + size l < 4294967296 → 0 ≤ sz → 0 ≤ n → n + size l < 2147483648 →
  (length l < fuel)%nat → Q (n + Z.min sz (size l)) s → wp (str_nlen get fuel p sz n) Q s.
Proof.
  revert p l sz n. induction fuel as [|fuel IH]; intros p l sz n Hr HI Hl Hp Hpl Hs Hn Hnl Hf HQ; [lia|]. cbn [str_nlen].
  destruct (decide (sz > 0)) as [Hpos|Hpos].
  2:{ apply wp_ret. by replace (n + Z.min sz (size l)) with n in HQ by lia. }
  apply wp_bind. rewrite <- (Z.add_0_r p) at 1. change 0 with (Z.of_nat 0) at 1. destruct l as [|c l].
  - eapply (Hr 0%nat 0); [done|done|]. rewrite decide_True by done. apply wp_ret. cbn [length] in HQ. by replace (n + Z.min sz (Z.of_nat 0)) with n in HQ by lia.
  - apply Forall_cons in Hl as [Hc Hl]. unfold char_ok in Hc. cbn [length] in *.
    eapply (Hr 0%nat c); [done|done|]. rewrite decide_False by lia. rewrite w32_small, i32_small by lia.
    apply (IH (p + 1) l); [by eapply reads_next|done|done|lia|lia|lia|lia|lia|lia|].
    replace (n + 1 + Z.min (sz - 1) (size l)) with (n + Z.min sz (Z.of_nat (S (length l)))) by lia. done.
Qed.
Lemma i8_small c : 0 ≤ c < 128 → i8 c = c.
Proof. unfold i8. intros Hc. by rewrite decide_True by lia. Qed.
Lemma i8_nonzero c : char_ok c → i8 c ≠ 0.
Proof. unfold char_ok, i8. intros Hc. destruct (decide _); lia. Qed.
Lemma wp_put_chars get fuel p l prec w alt l' s (Q : Z → T → Prop) :
  reads get p l → I l' s → Forall char_ok l → 0 ≤ p → p + size l < 4294967296 → -2000000000 < w - size l → w < 2000000000 → (length l < fuel)%nat →
  (∀ s', I (l' ++ map (shown_char alt) (cut prec l)) s' → Q (w - size (cut prec l)) s') →
  wp (put_chars get fuel p prec w alt) Q s.
Proof.
  revert p l prec w l' s. induction fuel as [|fuel IH]; intros p l prec w l' s Hr HI Hl Hp Hpl Hw1 Hw2 Hf HQ; [lia|]. cbn [put_chars].
  apply wp_bind. rewrite <- (Z.add_0_r p) at 1. change 0 with (Z.of_nat 0) at 1. destruct l as [|c l].
  - eapply (Hr 0%nat 0); [done|done|]. cbv zeta. rewrite decide_False by (intros [Hz _]; by apply Hz).
    assert (cut prec [] = []) as Hc by (unfold cut; destruct (decide _); [done|apply take_nil]). rewrite Hc in HQ. cbn in HQ.
    rewrite Z.sub_0_r, app_nil_r in HQ. apply wp_ret. by apply HQ.
  - apply Forall_cons in Hl as [Hc Hl]. cbn [length] in *. eapply (Hr 0%nat c); [done|done|]. cbv zeta.
    destruct (decide (i8 c ≠ 0 ∧ (prec < 0 ∨ prec - 1 >= 0))) as [[_ Hprec]|Hn].
    + set (prec' := if decide (prec < 0) then prec else prec - 1).
      assert (Hcut : cut prec (c :: l) = c :: cut prec' l).
      { unfold cut, prec'. destruct (decide (prec < 0)) as [Hlt|Hge]; [by rewrite decide_True|].
        rewrite decide_False by lia. replace (Z.to_nat prec) with (S (Z.to_nat (prec - 1))) by lia. done. }
      rewrite Hcut in HQ. cbn [map length] in HQ. apply wp_bind.
      assert (Hput : ∀ (Q : unit → T → Prop), (∀ s', I (l' ++ [shown_char alt c]) s' → Q () s') →
        wp (if alt && bool_decide (i8 c < 32 ∨ i8 c > 126) then putch 63 else putch (i8 c)) Q s).
      { intros Q' HQ'. unfold shown_char in HQ'. destruct (alt && _); by eapply wp_put. }
      apply Hput. intros s1 HI1. rewrite w32_small, i32_small by lia.
      apply (IH (p + 1) l prec' (w - 1) (l' ++ [shown_char alt c])); [by eapply reads_next|done|done|lia|lia|lia|lia|lia|].
      intros s2 HI2. replace (w - 1 - size (cut prec' l)) with (w - Z.of_nat (S (length (cut prec' l)))) by lia.
      apply HQ. by rewrite <- app_assoc in HI2.
    + pose proof (i8_nonzero c Hc). assert (¬ prec < 0 ∧ prec = 0) as [Hp1 ->] by (split; [tauto|]; destruct (decide (prec = 0)); [done|exfalso; apply Hn; split; [done|lia]]).
      apply wp_ret. cbn in HQ. unfold cut in HQ. rewrite decide_False in HQ by done. cbn in HQ. rewrite Z.sub_0_r, app_nil_r in HQ. by apply HQ.
Qed.
Lemma length_cut prec l : size (cut prec l) = if decide (prec < 0) then size l else Z.min prec (size l).
Proof. unfold cut. destruct (decide _); [done|]. rewrite length_take. lia. Qed.
Lemma wp_put_string get fuel p l f l' s (Q : unit → T → Prop) :
  reads get p l → I l' s → Forall char_ok l → 0 ≤ p → p + size l < 4294967296 → size l < 1000000000 →
  small (width f) → small (precision f) → (length l < fuel)%nat →
  (∀ s', I (l' ++ string_text l f) s' → Q () s') → wp (put_string get fuel p f) Q s.
Proof.
  unfold small. intros Hr HI Hl Hp Hpl Hs Hw Hpr Hf HQ. unfold string_text in HQ. fold (cut (precision f) l) in HQ.
  pose proof (length_cut (precision f) l) as Hlen.
  assert (HLs : 0 ≤ size (cut (precision f) l) ≤ size l) by (rewrite Hlen; destruct (decide (precision f < 0)); lia).
  (* the string and the spaces behind it *)
  assert (Htail : ∀ w l' s, I l' s → -1000000000 < w < 1000000000 →
    (∀ s', I (l' ++ map (shown_char (altflag f)) (cut (precision f) l) ++ replicate (Z.to_nat (w - size (cut (precision f) l))) 32) s' → Q () s') →
    wp (w ← put_chars get fuel p (precision f) w (altflag f); mfor (replicate (Z.to_nat w) 32) putch) Q s).
  { intros w l1 s1 HI1 Hw1 HQ1. apply wp_bind. eapply (wp_put_chars get fuel p l); [done|done|done|lia|lia|lia|lia|done|].
    intros s2 HI2. eapply wp_puts; [done|]. intros s3 HI3. apply HQ1. by rewrite <- app_assoc in HI3. }
  set (L := cut (precision f) l) in *. clearbody L.
  unfold put_string. destruct (decide (width f > 0 ∧ padc f ≠ 45)) as [[Hpos Hpad]|Hno].
  - rewrite decide_False in HQ by done. apply wp_bind, wp_bind.
    eapply (wp_str_nlen get fuel p l (w32 (precision f))); [done|done|done|lia|lia|apply w32_range|lia|lia|done|].
    assert (Hn : 0 + Z.min (w32 (precision f)) (size l) = size L).
    { rewrite Hlen. destruct (decide (precision f < 0)) as [Hneg|Hge]; [|rewrite w32_small by lia; lia].
      assert (w32 (precision f) = precision f + 4294967296) as ->; [|lia]. unfold w32.
      rewrite <- (Z.mod_add _ 1) by lia. rewrite Z.mod_small; lia. }
    rewrite Hn, i32_small by lia. apply wp_bind. eapply wp_puts; [done|]. intros s1 HI1. apply wp_ret.
    eapply Htail; [done|lia|]. intros s2 HI2. apply HQ. rewrite <- app_assoc in HI2.
    replace (Z.to_nat (Z.min (width f - size L) 0 - size L)) with 0%nat in HI2 by lia. cbn [replicate] in HI2. by rewrite app_nil_r in HI2.
  - apply wp_bind, wp_ret. eapply Htail; [done|lia|]. intros s2 HI2. apply HQ. destruct (decide (padc f = 45)) as [|Hne]; [done|].
    assert (width f ≤ 0) by (destruct (decide (width f > 0)); [exfalso; tauto|lia]).
    replace (Z.to_nat (width f - size L)) with 0%nat in HI2 |- * by lia. cbn [replicate] in *. by rewrite app_nil_r in HI2.
Qed.

Lemma error_text_ok e l : error_text e = Some l → string_text l no_flags = l ∧ Forall char_ok l ∧ (length l < 24)%nat.
Proof.
  unfold error_text. destruct (decide (e ≤ 0)); [done|]. intros H%list_elem_of_lookup_2. revert l H. rewrite <- Forall_forall.
  apply (bool_decide_unpack _). by vm_compute.
Qed.
Lemma wp_print_signed fuel z f l s (Q : unit → T → Prop) :
  -9223372036854775808 < z < 9223372036854775808 → (20 ≤ fuel)%nat → small (width f) → I l s →
  (∀ s', I (l ++ signed_out z (width f) (padc f)) s' → Q () s') → wp (print_signed fuel z f) Q s.
Proof.
  intros Hz Hf Hw HI HQ. unfold print_signed, signed_out in *. destruct (decide (z < 0)).
  - apply wp_bind. eapply wp_put; [done|]. intros s1 HI1. unfold w64. rewrite Z.mod_small by lia.
    eapply (wp_number fuel 10 (- z) f); [lia|lia|done|done|done|]. intros s2 HI2. apply HQ. by rewrite <- app_assoc in HI2.
  - eapply (wp_number fuel 10 z f); [lia|lia|done|done|done|done].
Qed.
Lemma small_no_flags : small (width no_flags) ∧ small (precision no_flags).
Proof. unfold small, no_flags; cbn; lia. Qed.
Lemma wp_print_error fuel e l s (Q : unit → T → Prop) :
  -2147483648 < e < 2147483648 → (24 ≤ fuel)%nat → I l s →
  (∀ s', I (l ++ error_message e) s' → Q () s') → wp (print_error fuel e) Q s.
Proof.
  intros He Hf HI HQ. unfold print_error, error_message in *. destruct small_no_flags as [Hs1 Hs2].
  assert ((if decide (e < 0) then i32 (- e) else e) = Z.abs e) as -> by (destruct (decide (e < 0)); [rewrite i32_small by lia|]; lia).
  rewrite decide_False by lia. destruct (if decide (Z.abs e > MAXERROR) then None else error_text (Z.abs e)) as [m|] eqn:Hm.
  - assert (error_text (Z.abs e) = Some m) as Ht by (destruct (decide _); congruence).
    apply error_text_ok in Ht as (Htext & Hchars & Hlen).
    eapply (wp_put_string _ fuel 0 m); [apply reads_literal|done|done|lia|lia|lia|done|done|lia|].
    intros s1 HI1. apply HQ. by rewrite Htext in HI1.
  - apply wp_bind. eapply wp_puts; [done|]. intros s1 HI1. eapply wp_print_signed; [lia|lia|done|done|].
    intros s2 HI2. apply HQ. unfold signed_out in HI2. rewrite decide_False in HI2 by lia. rewrite <- app_assoc in HI2.
    unfold number_out in *. cbn [width padc no_flags] in HI2.
    replace (Z.to_nat (-1 - _)) with 0%nat in HI2 by lia. by replace (Z.to_nat (0 - _)) with 0%nat by lia.
Qed.

(** ** Flags *)
Lemma wp_field_digits ds d v c fmt fuel l s (Q : Z * Z → T → Prop) :
  Forall (λ d, 0 ≤ d < 10) (d :: ds) → 0 ≤ v → foldl (λ v d, v * 10 + d) v (d :: ds) < 1000000000 →
  at_ fmt (map ascii_digit ds ++ [c]) cm → ¬ 48 ≤ c ≤ 57 → 0 < c < 128 → 0 ≤ fmt → fmt + size ds < 4294967295 →
  (length ds < fuel)%nat → I l s → Q (fmt + size ds, foldl (λ v d, v * 10 + d) v (d :: ds)) s →
  wp (field_digits fuel fmt (48 + d) v) Q s.
Proof.
  revert d v fmt fuel. induction ds as [|d2 ds IH]; intros d v fmt fuel Hd Hv Hb Hat Hc1 Hc2 Hf1 Hf2 Hfuel HI HQ;
    (destruct fuel as [|fuel]; [cbn in Hfuel; lia|]); cbn [field_digits]; apply Forall_cons in Hd as [Hd Hds]; cbv beta in Hd.
  - cbn in Hb, HQ. cbn [map app] in Hat. apply at_cons in Hat as [Hc _]. rewrite (i32_small (v * 10 + (48 + d))), i32_small by lia.
    apply wp_bind. eapply wp_rd; [done|done|]. rewrite i8_small by lia. rewrite decide_True by lia. apply wp_ret.
    replace (v * 10 + (48 + d) - 48) with (v * 10 + d) by lia. by rewrite Z.add_0_r in HQ.
  - assert (Hmono : v * 10 + d ≤ foldl (λ v d, v * 10 + d) v (d :: d2 :: ds)).
    { change (foldl ?g v (d :: d2 :: ds)) with (foldl g (v * 10 + d) (d2 :: ds)). clear -Hds Hv Hd. assert (0 ≤ v * 10 + d) as Hx by lia. revert Hx. generalize (v * 10 + d). revert Hds.
      generalize (d2 :: ds). intros xs. induction xs as [|x xs IH]; intros Hds w Hw; [cbn; lia|]. apply Forall_cons in Hds as [Hx Hxs]. cbv beta in Hx.
      cbn [foldl]. specialize (IH Hxs (w * 10 + x) ltac:(lia)). lia. }
    apply Forall_cons in Hds as Hd2. destruct Hd2 as [Hd2 _]; cbv beta in Hd2.
    cbn [map app] in Hat. apply at_cons in Hat as [Hx Hat]. rewrite (i32_small (v * 10 + (48 + d))), i32_small by lia.
    apply wp_bind. eapply wp_rd; [done|done|].
    assert (ascii_digit d2 = 48 + d2) as -> by (unfold ascii_digit; by rewrite decide_True by lia).
    rewrite i8_small by lia. rewrite decide_False by lia. cbn [length] in *. rewrite w32_small by lia.
    replace (v * 10 + (48 + d) - 48) with (v * 10 + d) by lia.
    apply IH; [done|lia|exact Hb|done|done|done|lia|lia|lia|done|].
    replace (fmt + 1 + size ds) with (fmt + Z.of_nat (S (length ds))) by lia. exact HQ.
Qed.

Lemma conv_char_range cv : conv_char cv ∈ [37; 64; 99; 100; 101; 111; 112; 115; 117; 120; 126].
Proof. destruct cv; cbn; set_solver. Qed.
Lemma after_number fs cv n : flags_ok (Width n :: fs) → ∃ c rest,
  concat (map show_flag fs) ++ [conv_char cv] = c :: rest ∧ ¬ 48 ≤ c ≤ 57 ∧ 0 < c < 128.
Proof.
  intros (_ & _ & Hnext). destruct fs as [|f fs].
  - exists (conv_char cv), []. split; [done|]. destruct cv; cbn; lia.
  - destruct f; try done; eexists _, _; (split; [reflexivity|lia]).
Qed.
Lemma numeral_digits n : 0 < n < 1000000000 → ∃ d ds, numeral 10 n = d :: ds ∧ 0 < d < 10 ∧
  Forall (λ d, 0 ≤ d < 10) (d :: ds) ∧ foldl (λ v d, v * 10 + d) 0 (d :: ds) = n ∧ (length ds < 20)%nat.
Proof.
  intros Hn. destruct (numeral_spec 10 n) as (Hv & Hd & Hl & Hh); [lia|lia|].
  destruct (numeral 10 n) as [|d ds]; [cbn in Hl; lia|]. exists d, ds. cbn [length] in Hl. split_and!; try done; try lia.
  - apply Forall_cons in Hd as [Hd _]. specialize (Hh ltac:(lia)). cbn in Hh. assert (d ≠ 0) by congruence. lia.
  - apply Forall_cons in Hd as [Hd _]. lia.
Qed.
Lemma wp_flags K fs f cv fmt fuel ap l s (Q : Z * list Z → T → Prop) :
  let str := concat (map show_flag fs) in
  flags_ok fs → at_ fmt (str ++ [conv_char cv]) cm → 0 ≤ fmt → fmt + size str + 1 < 4294967295 →
  0 ≤ lflag f → lflag f + size fs < 2147483647 → (20 ≤ K)%nat → (K + length str < fuel)%nat → I l s →
  (∀ n, (K ≤ n)%nat → wp (convert n (conv_char cv) (fmt + size str + 1) (foldl apply_flag f fs) ap) Q s) →
  wp (directive fuel fmt f (concat (map flag_args fs) ++ ap)) Q s.
Proof.
  cbv zeta. revert f fmt fuel. induction fs as [|x fs IH]; intros f fmt fuel Hok Hat Hf1 Hf2 Hl1 Hl2 HK Hfuel HI HQ;
    (destruct fuel as [|fuel]; [lia|]); cbn [directive map concat app] in *.
  - apply at_cons in Hat as [Hc _]. apply wp_bind. eapply wp_rd; [done|done|]. cbn in Hf2. rewrite w32_small by lia.
    pose proof (conv_char_range cv) as Hr. rewrite !decide_False by (set_solver || (destruct cv; cbn; lia)).
    replace (fmt + size [] + 1) with (fmt + 1) in HQ by (cbn; lia). apply HQ. lia.
  - rewrite length_app in *. rewrite <- app_assoc in Hat.
    assert (Hstep : ∀ c xs f', show_flag x = [c] → flag_args x = xs → apply_flag f x = f' → 0 ≤ lflag f' ≤ lflag f + 1 →
      wp (directive fuel (w32 (fmt + 1)) f' (concat (map flag_args fs) ++ ap)) Q s).
    { intros c xs f' Hc Hx Hf' Hlf. rewrite Hc in *. cbn [length app] in *. apply at_cons in Hat as [_ Hat].
      destruct Hok as (_ & Hok & _). rewrite w32_small by lia.
      apply IH; [done|done|lia|lia|lia|lia|done|lia|done|]. intros n Hn. specialize (HQ n Hn). cbn [foldl] in HQ. rewrite Hf' in HQ.
      by replace (fmt + 1 + size (concat (map show_flag fs)) + 1) with (fmt + Z.of_nat (1 + length (concat (map show_flag fs))) + 1) by lia. }
    apply wp_bind. destruct x as [| | | | |n|n].
    1-5, 7: apply at_cons in Hat as Hat'; destruct Hat' as [Hc _]; eapply wp_rd; [done|done|]; cbn [show_flag]; cbv zeta.
    + rewrite decide_True by done. eapply Hstep; try done. cbn; lia.
    + rewrite decide_False, decide_True by done. eapply Hstep; try done. cbn; lia.
    + rewrite !decide_False, decide_True by lia. eapply Hstep; try done. cbn; lia.
    + rewrite !decide_False, decide_True by lia. eapply Hstep; try done. cbn; destruct (decide _); cbn; lia.
    + cbn [length] in Hl2. rewrite !decide_False, decide_True by lia. rewrite i32_small by lia. eapply Hstep; try done. cbn; lia.
    + rewrite !decide_False, decide_True by lia. apply wp_bind. cbn [flag_args app va_word]. apply wp_ret. cbn [fst snd].
      assert (i32 (w32 n) = n) as -> by (destruct Hok as (Hn & _); cbn in Hn; unfold small in Hn; apply i32_w32; lia).
      eapply Hstep; try done. cbn. unfold process_precision; destruct (decide _); cbn; lia.
    + destruct Hok as (Hn & Hok & Hnext). cbn in Hn. destruct (numeral_digits n Hn) as (d & ds & Hnum & Hd & Hds & Hval & Hlen).
      destruct (after_number fs cv n) as (c & rest & Hrest & Hc1 & Hc2); [done|].
      cbn [show_flag] in *. rewrite Hnum in *. cbn [map app length] in *. rewrite length_map in *.
      apply at_cons in Hat as [Hc Hat]. assert (ascii_digit d = 48 + d) as Had by (unfold ascii_digit; by rewrite decide_True by lia).
      eapply wp_rd; [done|done|]. rewrite Had. cbv zeta. rewrite !decide_False, decide_True by lia.
      rewrite w32_small by lia. apply wp_bind. pose proof Hat as Hat2. rewrite Hrest in Hat2.
      eapply (wp_field_digits ds d 0 c); [done|lia|lia| |done|done|lia|lia|lia|done|].
      { change (c :: rest) with ([c] ++ rest) in Hat2. rewrite app_assoc in Hat2. by apply at_app in Hat2 as [? _]. }
      rewrite Hval. cbn [fst snd]. apply at_app in Hat as [_ Hat]. rewrite length_map in Hat.
      assert (lflag (process_precision (set_precision n f)) = lflag f) as Hlf by (unfold process_precision; by destruct (decide _)).
      apply IH; rewrite ?Hlf; [done|done|lia|lia|lia|lia|done|lia|done|]. intros m Hm. specialize (HQ m Hm). cbn [foldl apply_flag] in HQ.
      by replace (fmt + 1 + size ds + size (concat (map show_flag fs)) + 1) with (fmt + Z.of_nat (S (length ds) + length (concat (map show_flag fs))) + 1) by lia.
Qed.

Lemma apply_flags_ok fs f : flags_ok fs → small (width f) → small (precision f) →
  lflag (foldl apply_flag f fs) = lflag f + longs fs ∧
  small (width (foldl apply_flag f fs)) ∧ small (precision (foldl apply_flag f fs)).
Proof.
  unfold longs. revert f. induction fs as [|x fs IH]; intros f Hok Hw Hp; [cbn; lia || (split; [lia|done])|].
  destruct Hok as (Hx & Hok & _). cbn [foldl].
  assert (Hstep : lflag (apply_flag f x) = lflag f + (if decide (x = Long) then 1 else 0) ∧
    small (width (apply_flag f x)) ∧ small (precision (apply_flag f x))).
  { destruct x; cbn in Hx |- *; unfold process_precision, small in *; repeat destruct (decide (width _ < 0)); cbn in *;
      first [rewrite decide_False by done|rewrite decide_True by done]; lia. }
  destruct Hstep as (Hl & Hw' & Hp'). destruct (IH _ Hok Hw' Hp') as (Hl2 & Hr). split; [|done].
  rewrite Hl2, Hl, filter_cons. destruct (decide (x = Long)); cbn; lia.
Qed.
(** ** Conversions *)
Lemma wp_getuint fs z ap s (Q : Z * list Z → T → Prop) :
  number_ok false fs z → Q (z, ap) s → wp (getuint (number_args fs z ++ ap) (longs fs)) Q s.
Proof.
  unfold number_ok, number_args, getuint. intros Hz HQ. destruct (decide (longs fs >= 2)).
  - unfold va_long_long. apply wp_bind, wp_ret, wp_bind, wp_ret, wp_ret. cbn [fst snd].
    assert (w32 z + 4294967296 * w32 (z `div` 4294967296) = z) as ->; [|done].
    change (2 ^ 64) with 18446744073709551616 in Hz. rewrite (w32_small (z `div` _)) by (split; [apply Z.div_pos; lia|apply Z.div_lt_upper_bound; lia]).
    unfold w32. pose proof (Z.div_mod z 4294967296 ltac:(lia)). lia.
  - apply wp_ret. by rewrite w32_small by lia.
Qed.
Lemma wp_getint fs z ap s (Q : Z * list Z → T → Prop) :
  number_ok true fs z → Q (z, ap) s → wp (getint (number_args fs z ++ ap) (longs fs)) Q s.
Proof.
  unfold number_ok, number_args, getint. intros Hz HQ. destruct (decide (longs fs >= 2)).
  - apply wp_bind. unfold va_long_long. apply wp_bind, wp_ret, wp_bind, wp_ret, wp_ret. apply wp_ret. cbn [fst snd].
    assert (i64 (w32 z + 4294967296 * w32 (z `div` 4294967296)) = z) as ->; [|done].
    change (2 ^ (64 - 1)) with 9223372036854775808 in Hz. unfold i64, w64, w32.
    pose proof (Z.div_mod z 4294967296 ltac:(lia)). pose proof (Z.mod_pos_bound z 4294967296 ltac:(lia)).
    pose proof (Z.div_mod (z `div` 4294967296) 4294967296 ltac:(lia)). pose proof (Z.mod_pos_bound (z `div` 4294967296) 4294967296 ltac:(lia)).
    set (q := z `div` 4294967296) in *. set (r := z `mod` 4294967296) in *. set (k := q `div` 4294967296) in *. set (t := q `mod` 4294967296) in *.
    rewrite (Z.mod_small (r + _)) by lia. destruct (decide _); lia.
  - apply wp_bind, wp_ret, wp_ret. cbn [fst snd]. by rewrite i32_w32 by lia.
Qed.
Lemma number_i64 fs z : number_ok true fs z → -9223372036854775808 < z < 9223372036854775808.
Proof. unfold number_ok. destruct (decide _); cbn; lia. Qed.
Lemma number_u64 fs z : number_ok false fs z → 0 ≤ z < 18446744073709551616.
Proof. unfold number_ok. destruct (decide _); cbn; lia. Qed.
Definition conv_fuel (c : conv) : nat := 24 + match c with Str _ l => length l | _ => 0 end.
Lemma wp_convert fs cv f fmt ap n l s (Q : Z * list Z → T → Prop) :
  conv_ok cm fs cv → small (width f) → small (precision f) → lflag f = longs fs → (conv_fuel cv ≤ n)%nat → I l s →
  (∀ s', I (l ++ conv_out f cv) s' → Q (fmt, ap) s') →
  wp (convert n (conv_char cv) fmt f (conv_args fs cv ++ ap)) Q s.
Proof.
  unfold conv_fuel. intros Hok Hw Hp Hl Hn HI HQ. destruct cv as [z|z|z|z|c|p m| |e|z| | |];
    unfold convert; cbn [conv_char conv_args conv_out conv_ok] in *;
    repeat first [rewrite decide_True by lia | rewrite decide_False by lia]; rewrite ?Hl.
  - apply wp_bind, wp_getint; [done|]. apply wp_bind. cbn [fst snd]. eapply wp_print_signed; [by eapply number_i64|lia|done|done|].
    intros s1 HI1. apply wp_ret. by apply HQ.
  - apply wp_bind, wp_getuint; [done|]. apply wp_bind. cbn [fst snd]. eapply wp_number; [lia|by eapply number_u64|lia|done|done|].
    intros s1 HI1. apply wp_ret. by apply HQ.
  - apply wp_bind, wp_getuint; [done|]. apply wp_bind. cbn [fst snd]. eapply wp_number; [lia|by eapply number_u64|lia|done|done|].
    intros s1 HI1. apply wp_ret. by apply HQ.
  - apply wp_bind. eapply wp_put; [done|]. intros s1 HI1. apply wp_bind. eapply wp_put; [done|]. intros s2 HI2.
    apply wp_bind, wp_ret, wp_bind. cbn [fst snd]. rewrite w32_small by lia. eapply wp_number; [lia|lia|lia|done|done|].
    intros s3 HI3. apply wp_ret. apply HQ. by rewrite <- !app_assoc in HI3.
  - apply wp_bind, wp_ret, wp_bind. cbn [fst snd]. rewrite i32_w32 by lia. eapply wp_put; [done|]. intros s1 HI1. apply wp_ret. by apply HQ.
  - destruct Hok as (Hp0 & Hat & Hp1 & Hp2 & Hm & Hs). apply wp_bind, wp_ret, wp_bind. cbn [fst snd]. rewrite decide_False by done.
    eapply (wp_put_string rd n p m); [by apply reads_memory|done|done|lia|lia|lia|done|done|lia|]. intros s1 HI1. apply wp_ret. by apply HQ.
  - apply wp_bind, wp_ret, wp_bind. cbn [fst snd]. rewrite decide_True by done.
    eapply (wp_put_string _ n 0 (chars "(null)")); [apply reads_literal|done| |lia|cbn; lia|cbn; lia|done|done|cbn; lia|].
    { apply (bool_decide_unpack _). by vm_compute. }
    intros s1 HI1. apply wp_ret. by apply HQ.
  - apply wp_bind, wp_ret, wp_bind. cbn [fst snd]. rewrite i32_w32 by lia. eapply wp_print_error; [done|lia|done|].
    intros s1 HI1. apply wp_ret. by apply HQ.
  - apply wp_bind. eapply wp_put; [done|]. intros s1 HI1. apply wp_bind. eapply wp_put; [done|]. intros s2 HI2.
    apply wp_bind. eapply wp_put; [done|]. intros s3 HI3. apply wp_ret. apply HQ. by rewrite <- !app_assoc in HI3.
  - apply wp_bind. eapply wp_put; [done|]. intros s1 HI1. apply wp_ret. by apply HQ.
  - apply wp_bind. eapply wp_name; [done|]. intros s1 HI1. apply wp_ret. apply HQ. by rewrite app_nil_r.
  - apply wp_bind. eapply wp_name; [done|]. intros s1 HI1. apply wp_ret. apply HQ. by rewrite app_nil_r.
Qed.

(** ** Formats *)
Lemma show_item_pos i : (0 < length (show_item i))%nat.
Proof. destruct i; cbn; lia. Qed.
Lemma wp_vprintfmt K items fmt fuel l s (Q : unit → T → Prop) :
  Forall (item_ok cm) items → Forall (λ i, item_fuel i ≤ K)%nat items → at_ fmt (show items ++ [0]) cm →
  0 ≤ fmt → fmt + size (show items) + 1 < 4294967295 → (K + length items < fuel)%nat → I l s →
  (∀ s', I (l ++ output items) s' → Q () s') → wp (vprintfmt fuel fmt (args items)) Q s.
Proof.
  unfold show, args, output. revert fmt fuel l s. induction items as [|i items IH]; intros fmt fuel l s Hok HK Hat Hf1 Hf2 Hfuel HI HQ;
    (destruct fuel as [|n]; [lia|]); cbn [map concat vprintfmt app length] in *; apply wp_bind.
  - apply at_cons in Hat as [Hz _]. eapply wp_rd; [done|done|]. cbv zeta. rewrite decide_False, decide_True by done.
    apply wp_ret. apply HQ. by rewrite app_nil_r.
  - apply Forall_cons in Hok as [Hi Hok]. apply Forall_cons in HK as [HKi HK]. rewrite length_app in Hf2.
    rewrite <- app_assoc in Hat. assert (Hnext : ∀ fmt' s', fmt' = fmt + size (show_item i) → I (l ++ out_of i) s' → wp (vprintfmt n fmt' (concat (map item_args items))) Q s').
    { intros fmt' s' -> HI'. apply at_app in Hat as [_ Hat]. eapply (IH _ n (l ++ out_of i)); [done|done|done|lia|lia|lia|done|].
      intros s2 HI2. apply HQ. by rewrite <- app_assoc in HI2. }
    destruct i as [c|fs cv]; cbn [show_item item_args item_ok item_fuel out_of app length] in *.
    + apply at_cons in Hat as [Hc _]. destruct Hi as [Hc1 Hc2]. eapply wp_rd; [done|done|]. cbv zeta.
      rewrite !decide_False by lia. apply wp_bind. eapply wp_put; [done|]. intros s1 HI1. rewrite w32_small by lia. apply Hnext; [|done]. cbn. lia.
    + apply at_cons in Hat as [Hc Hat]. destruct Hi as (Hfl & Hsz & Hcv). rewrite length_app in *. cbn [length] in *.
      eapply wp_rd; [done|done|]. cbv zeta. rewrite decide_True by done. apply wp_bind.
      assert (at_ (fmt + 1) (concat (map show_flag fs) ++ [conv_char cv]) cm) as Hstr.
      { by apply at_app in Hat as [? _]. }
      rewrite <- app_assoc. destruct small_no_flags as [Hs1 Hs2].
      destruct (apply_flags_ok fs no_flags Hfl Hs1 Hs2) as (Hlf & Hw & Hp).
      rewrite w32_small by lia. eapply (wp_flags (conv_fuel cv) fs no_flags cv);
        [done|done|lia|lia|cbn; lia|cbn; lia|unfold conv_fuel; lia|unfold conv_fuel; lia|done|].
      intros k Hk. eapply wp_convert; [done|done|done| |done|done|].
      { rewrite Hlf. by cbn. }
      intros s1 HI1. apply Hnext; [|done]. cbn [fst]. lia.
Qed.
End printing.

(** ** Printing into a buffer *)
(** The memory outside the [n] bytes at [p]. *)
Definition outside (p n : Z) (m : bmem) : bmem := filter (λ kv, 0 ≤ kv.1 < 4294967296 ∧ ¬ p ≤ kv.1 < p + n) m.
(** [l] has been printed into the buffer of [n] bytes at [p]. *)
Definition printed (p n : Z) (m0 : bmem) (l : list Z) (s : sprint) : Prop :=
  let fit := take (Z.to_nat (n - 1)) l in
  s = (put p (map w8 fit) m0, SPB (p + size fit) (p + n - 1) (i32 (size l))).
Lemma wp_mem_op {A} (c : M bmem A) (Q : A → sprint → Prop) s : wp c (λ a m, Q a (m, s.2)) s.1 → wp (mem_op c) Q s.
Proof. unfold wp, mem_op, zoom. by destruct (c s.1). Qed.
Lemma i32_succ x : i32 (i32 x + 1) = i32 (x + 1).
Proof.
  unfold i32. assert (w32 ((if decide (w32 x < 2147483648) then w32 x else w32 x - 4294967296) + 1) = w32 (x + 1)) as ->; [|done].
  unfold w32. destruct (decide _).
  - by rewrite Zplus_mod_idemp_l.
  - replace (x `mod` 4294967296 - 4294967296 + 1) with (x `mod` 4294967296 + 1 + (-1) * 4294967296) by lia.
    by rewrite Z.mod_add, Zplus_mod_idemp_l by lia.
Qed.
Lemma sprint_laws p n m0 : access p n m0 → in_range p n → 1 ≤ n →
  printer_laws (printed p n m0) (outside p n m0).
Proof.
  intros Ha [Hp Hr] Hn. unfold printed. split.
  - intros a c l s [Hc [Hrange Hout]]%map_lookup_filter_Some ->. cbn in Hrange, Hout.
    unfold rd, sprint_printer, mem_op, zoom, load. cbn. rewrite w32_small by lia.
    assert (put p (map w8 (take (Z.to_nat (n - 1)) l)) m0 !! a = Some c) as Hl.
    { rewrite lookup_put_out; [done|]. rewrite length_map, length_take. lia. }
    unfold mbind, M_bind, get. cbn. by rewrite Hl.
  - intros c l s ->. unfold putch, sprint_printer, sprintputch.
    apply wp_bind, wp_modify, wp_bind, wp_gets. cbn [fst snd set_cnt buf ebuf cnt]. rewrite i32_succ.
    rewrite length_app, length_take. cbn [length]. replace (Z.of_nat (length l + 1)) with (size l + 1) by lia. apply wp_when; intros Hb.
    + apply bool_decide_eq_true in Hb. assert (size l < n - 1) as Hlt by lia.
      rewrite (take_ge l) by lia. rewrite (take_ge (l ++ [c])) by (rewrite length_app; cbn [length]; lia).
      replace (p + Z.of_nat (Z.to_nat (n - 1) `min` length l)) with (p + size l) by lia.
      apply wp_bind, wp_mem_op. cbn [fst snd]. apply wp_store; rewrite w32_small by lia.
      { apply (access_put p n); [done|lia]. }
      apply wp_modify. unfold set_buf, set_cnt. cbn [fst snd buf ebuf cnt]. rewrite map_app, put_app, length_map. cbn [map put].
      rewrite w32_small by lia. do 2 f_equal. rewrite length_app. cbn [length]. lia.
    + apply bool_decide_eq_false in Hb. assert (n - 1 ≤ size l) as Hge by lia. rewrite take_app_le by lia.
      rewrite length_take. done.
  - intros v l s HI. done.
Qed.

Lemma vsnprintf_output items p n fmt K fuel m :
  p ≠ 0 → 1 ≤ n → in_range p n → access p n m →
  Forall (item_ok (outside p n m)) items → at_ fmt (show items ++ [0]) (outside p n m) →
  0 ≤ fmt → fmt + size (show items) + 1 < 4294967295 →
  Forall (λ i, item_fuel i ≤ K)%nat items → (K + length items < fuel)%nat → size (output items) < 2147483648 →
  vsnprintf fuel p n fmt (args items) m =
    Ok (size (output items)) (put p (map w8 (take (Z.to_nat (n - 1)) (output items)) ++ [0]) m).
Proof.
  intros Hp Hn Hr Ha Hok Hat Hf1 Hf2 HK Hfuel Hsz. unfold vsnprintf. rewrite decide_False by lia.
  assert (wp (vprintfmt fuel fmt (args items);; b ← gets snd; mem_op (store (buf b) 0);; mret (cnt b))
    (λ r s, r = size (output items) ∧ s.1 = put p (map w8 (take (Z.to_nat (n - 1)) (output items)) ++ [0]) m)
    (m, SPB p (w32 (p + n - 1)) 0)) as Hwp.
  { unfold in_range in Hr. rewrite w32_small by lia. apply wp_bind.
    eapply (wp_vprintfmt (printed p n m) (outside p n m) (sprint_laws p n m Ha Hr Hn) K items fmt fuel []); [done|done|done|lia|lia|done| |].
    { unfold printed. rewrite take_nil. cbn. by rewrite Z.add_0_r. }
    intros s ->. cbn [app]. set (fit := take (Z.to_nat (n - 1)) (output items)).
    assert (Hfit : size fit ≤ n - 1) by (unfold fit; rewrite length_take; lia). clearbody fit.
    apply wp_bind, wp_gets, wp_bind, wp_mem_op. cbn [fst snd buf]. apply wp_store; rewrite w32_small by lia.
    { apply (access_put p n); [done|lia]. }
    apply wp_ret. cbn [fst cnt]. rewrite i32_small by lia. split; [done|]. by rewrite put_app, length_map. }
  apply wp_Ok in Hwp as (r & s & Hrun & Hres). rewrite Hrun. destruct Hres as [-> ->]. done.
Qed.
(** What is printed and what is meant where the directive is not regular: ["%-5d"]
    of 42 and ["%5d"] of -42. *)
Example minus_number_differs : let l := [Directive [Minus; Width 5] (Signed 42)] in output l = chars "---42" ∧ text l = chars "42   ".
Proof. done. Qed.
Example negative_padded_differs : let l := [Directive [Width 5] (Signed (-42))] in output l = chars "-   42" ∧ text l = chars "  -42".
Proof. done. Qed.
(** A run: [snprintf(buf, 14, "%5d:%s|%04x", 42, "ab", 255)]. *)
Definition w_items : list item :=
  [Directive [Width 5] (Signed 42); Text 58; Directive [] (Str 200 [97; 98]); Text 124; Directive [Zero; Width 4] (Hex 255)].
Definition w_mem : bmem := put 100 (show w_items ++ [0]) (put 200 [97; 98; 0] (put 300 (replicate 14 7) ∅)).
Lemma at_outside p n q l m : at_ q l m → in_range q (size l) → (q + size l ≤ p ∨ p + n ≤ q) → at_ q l (outside p n m).
Proof.
  intros H [Hq1 Hq2] Hd i x Hi. apply lookup_lt_Some in Hi as Hl. apply map_lookup_filter_Some. split; [by apply H|]. cbn. lia.
Qed.
