(* ===== verification/EnvTable.v ===== *)
(** * The table of environments (kern/proc/user_environment.c)

    The array [envs] with its free list, the numbers of environments, and the
    creation of an environment's address space, kernel stack and first frame, all
    with interrupts off ([pushcli] and [popcli] of [env_create]). An
    environment is named by its index in [envs]. The page directories are those of
    Paging.v; the words of the kernel stacks are [kwords]. *)

From stdpp Require Import functions.
From S2P Require Import Prelude Queue Paging.
From S2P Require Sched.

Definition PTSIZE : Z := 4194304.
Definition VPT : Z := KERNEL_BASE - PTSIZE.
Definition KERN_STACK_TOP : Z := VPT.
Definition USER_LIMIT : Z := KERN_STACK_TOP - PTSIZE.
Definition UVPT : Z := USER_LIMIT - PTSIZE.
Definition KERNEL_STACK_SIZE : Z := 8 * PAGE_SIZE.
Definition USTACKTOP : Z := USER_TOP - 2 * PAGE_SIZE.
Definition SIZEOF_STRUCT_TRAPFRAME : Z := 68.
Definition sizeof_Context : Z := 32.
Definition GD_UT : Z := 24.
Definition GD_UD : Z := 32.
Definition FL_IF : Z := 512.
Definition TWS_MAX_SIZE : nat := 50.
Definition ELF_MAGIC : Z := 1179403647. (* 0x464C457F *)
Definition E_BAD_ENV : Z := -2.
Definition E_NO_FREE_ENV : Z := -5.

(** ** Numbers of environments *)
Fixpoint pow2_loop (fuel : nat) (x power : Z) : Z :=
  match fuel with
  | O => power
  | S fuel => let x := Z.shiftr x 1 in if decide (x = 0) then power else pow2_loop fuel x (w32 (Z.shiftl power 1))
  end.
Definition nearest_pow2_ceil (x : Z) : Z := if decide (x <= 1) then 1 else pow2_loop 32 (x - 1) 2.
Fixpoint bits_loop (fuel : nat) (x bits_cnt : Z) : Z :=
  match fuel with
  | O => bits_cnt
  | S fuel => let x := Z.shiftr x 1 in if decide (x = 0) then bits_cnt else bits_loop fuel x (bits_cnt + 1)
  end.
Definition log2_ceil (x : Z) : Z := if decide (x <= 1) then 1 else bits_loop 32 (x - 1) 2.
(** The size of [struct Env] with [USE_KHEAP], of which 1200 bytes are the working
    set of tables. *)
Definition sizeof_Env : Z := 1480.
Definition NENV : Z := PTSIZE / 4 / sizeof_Env.
Definition NEARPOW2NENV : Z := nearest_pow2_ceil NENV.
Definition LOG2NENV : Z := log2_ceil NENV.
Definition ENVGENSHIFT : Z := LOG2NENV.
Definition ENVX (envid : Z) : Z := Z.land envid (NEARPOW2NENV - 1).
(** The number of the next environment in slot [i], after number [id]. *)
Definition next_generation (id : Z) : Z :=
  let generation := Z.land (i32 (id + Z.shiftl 1 ENVGENSHIFT)) (Z.lnot (NEARPOW2NENV - 1)) in
  if decide (generation <= 0) then Z.shiftl 1 ENVGENSHIFT else generation.

(** ** State *)
Inductive field :=
| env_status | env_id | env_parent_id | env_runs | env_page_directory | env_cr3 | kstack | env_tf | context
| starvcounteer | disk_env_pgdir | disk_env_pgdir_PA | disk_env_tabledir | disk_env_tabledir_PA
| page_WS_max_size | page_last_WS_element | numOfPrepagedVAs | prepagedVAs | table_last_WS_index
| pageFaultsCounter | tableFaultsCounter | freeingFullWSCounter | freeingScarceMemCounter
| nModifiedPages | nNotModifiedPages | nClocks | nPageIn | nPageOut | nNewPageAdded
| ActiveListSize | SecondListSize | percentage_of_WS_pages_to_be_removed | initNumStackPages.
#[export] Instance field_eq_dec : EqDecision field.
Proof. solve_decision. Defined.
(** An element of the working set of tables: address, empty, time stamp. *)
Record tws_element := TWS { tws_va : Z; tws_empty : Z; tws_stamp : Z }.
Record Env := ENV {
  fields : field → Z;
  prog_name : list Z;
  page_WS_list : list Z;          (* the addresses of the elements *)
  referenceStreamList : list Z;
  ptr_tws : list tws_element
}.
Definition set_field (f : field) (v : Z) (e : Env) : Env :=
  ENV (<[f := v]> (fields e)) (prog_name e) (page_WS_list e) (referenceStreamList e) (ptr_tws e).
Definition set_prog_name (x : list Z) (e : Env) : Env := ENV (fields e) x (page_WS_list e) (referenceStreamList e) (ptr_tws e).
Definition set_ws (x : list Z) (e : Env) : Env := ENV (fields e) (prog_name e) x (referenceStreamList e) (ptr_tws e).
Definition set_refs (x : list Z) (e : Env) : Env := ENV (fields e) (prog_name e) (page_WS_list e) x (ptr_tws e).
Definition set_tws (x : list tws_element) (e : Env) : Env := ENV (fields e) (prog_name e) (page_WS_list e) (referenceStreamList e) x.
(** [memset(e, 0, sizeof( *e))]. *)
Definition zero_env : Env := ENV (λ _, 0) (replicate 64 0) [] [] (replicate TWS_MAX_SIZE (TWS 0 0 0)).

Record env_table := ETAB {
  envs : list Env;
  env_free_list : list Z;
  env_lock : bool;
  kwords : gmap Z Z
}.
Definition set_envs (x : list Env) (t : env_table) : env_table := ETAB x (env_free_list t) (env_lock t) (kwords t).
Definition set_env_free_list (x : list Z) (t : env_table) : env_table := ETAB (envs t) x (env_lock t) (kwords t).
Definition set_env_lock (x : bool) (t : env_table) : env_table := ETAB (envs t) (env_free_list t) x (kwords t).
Definition set_kwords (x : gmap Z Z) (t : env_table) : env_table := ETAB (envs t) (env_free_list t) (env_lock t) x.

(** The rest of the machine: the process on the CPU, the words found in a fresh
    page, and the addresses of two functions. *)
Class EnvWorld (X : Type) := {
  cpu_proc : X → option Z;
  fresh_words : Z → X → list Z;
  trapret : Z;
  env_start : Z
}.

Section code.
Context {X : Type} {PE : PageEnv (env_table * X)} {EW : EnvWorld X}.
Notation St := (mm * (env_table * X))%type.
Notation ET := (M St).
Definition tget {A} (f : env_table → A) : ET A := gets (λ s, f s.2.1).
Definition tset (f : env_table → env_table) : ET unit := modify (λ s, (s.1, (f s.2.1, s.2.2))).
Definition get_env (e : Z) : ET Env := l ← tget envs; unwrap (l !! Z.to_nat e).
Definition upd_env (e : Z) (f : Env → Env) : ET unit :=
  x ← get_env e; tset (λ t, set_envs (<[Z.to_nat e := f x]> (envs t)) t).
Definition get_field (e : Z) (f : field) : ET Z := x ← get_env e; mret (fields x f).
Definition put_field (e : Z) (f : field) (v : Z) : ET unit := upd_env e (set_field f v).
Definition get_cpu_proc : ET (option Z) := gets (λ s, cpu_proc s.2.2).
Definition set_word (a v : Z) : ET unit := tset (λ t, set_kwords (<[w32 a := w32 v]> (kwords t)) t).

(** ** The array and its free list *)
Definition env_init : ET unit :=
  tset (set_env_lock false) ;;
  mfor (rev (seqZ 0 NENV)) (λ iEnv,
    put_field iEnv env_status Sched.ENV_FREE ;;
    put_field iEnv env_id 0 ;;
    l ← tget env_free_list;
    l ← lq_insert_head iEnv l;
    tset (set_env_free_list l)).
(** The result, and [*e] when there is a free environment. *)
Definition allocate_environment : ET (Z * option Z) :=
  l ← tget env_free_list;
  match l with
  | [] => mret (E_NO_FREE_ENV, None)
  | e :: _ => put_field e env_status Sched.ENV_UNKNOWN ;; mret (0, Some e)
  end.
Definition free_environment (e : Z) : ET unit :=
  upd_env e (λ _, zero_env) ;;
  put_field e env_status Sched.ENV_FREE ;;
  l ← tget env_free_list;
  l ← lq_insert_head e l;
  tset (set_env_free_list l).
(** The result, and [*env_store]. *)
Definition envid2env (envid : Z) (checkperm : bool) : ET (Z * option Z) :=
  if decide (envid = 0) then p ← get_cpu_proc; mret (0, p) else
  let e := ENVX envid in
  st ← get_field e env_status;
  id ← get_field e env_id;
  if decide (st = Sched.ENV_FREE ∨ id ≠ envid) then mret (E_BAD_ENV, None) else
  cur_env ← get_cpu_proc;
  if checkperm && bool_decide (Some e ≠ cur_env) then
    pa ← get_field e env_parent_id;
    c ← unwrap cur_env;
    cid ← get_field c env_id;
    if decide (pa ≠ cid) then mret (E_BAD_ENV, None) else mret (0, Some e)
  else mret (0, Some e).

(** ** A new environment *)
Definition create_user_directory : ET Z :=
  t ← kmalloc PAGE_SIZE;
  if decide (t = NULL) then panic else
  modify (λ s, (set_arrays (<[t := fresh_words t s.2.2]> (arrays s.1)) s.1, s.2)) ;;
  mret t.
Definition create_user_kern_stack (dir : Z) : ET Z :=
  h ← tget env_lock; assert_ (negb h) ;; tset (set_env_lock true) ;;
  kst ← kmalloc KERNEL_STACK_SIZE;
  if decide (kst = NULL) then panic else
  r ← get_page_table dir kst;
  when (bool_decide (r.2 ≠ NULL))
    (e ← entry r.2 (PTX kst); set_entry r.2 (PTX kst) (Z.land e (Z.lnot PERM_PRESENT))) ;;
  tset (set_env_lock false) ;;
  mret kst.
Definition memset_words (a n : Z) : ET unit := mfor (seqZ 0 n) (λ i, set_word (a + 4 * i) 0).
Definition complete_environment_initialization (e : Z) : ET unit :=
  dir ← get_field e env_page_directory;
  cr3 ← get_field e env_cr3;
  set_entry dir (PDX VPT) (Z.lor (Z.lor cr3 PERM_PRESENT) PERM_WRITEABLE) ;;
  set_entry dir (PDX UVPT) (Z.lor (Z.lor cr3 PERM_PRESENT) PERM_USER) ;;
  put_field e disk_env_pgdir 0 ;;
  put_field e disk_env_pgdir_PA 0 ;;
  put_field e disk_env_tabledir 0 ;;
  put_field e disk_env_tabledir_PA 0 ;;
  id ← get_field e env_id;
  put_field e env_id (Z.lor (next_generation id) e) ;;
  cur_env ← get_cpu_proc;
  (match cur_env with
   | None => put_field e env_parent_id 0
   | Some c => cid ← get_field c env_id; put_field e env_parent_id cid
   end) ;;
  put_field e env_status Sched.ENV_NEW ;;
  put_field e env_runs 0 ;;
  tf ← get_field e env_tf;
  memset_words tf (SIZEOF_STRUCT_TRAPFRAME / 4) ;;
  set_word (tf + 36) (Z.lor GD_UD 3) ;;
  set_word (tf + 32) (Z.lor GD_UD 3) ;;
  set_word (tf + 64) (Z.lor GD_UD 3) ;;
  set_word (tf + 60) USTACKTOP ;;
  set_word (tf + 52) (Z.lor GD_UT 3) ;;
  set_word (tf + 56) FL_IF ;;
  l ← tget env_free_list;
  l ← lq_remove e l;
  tset (set_env_free_list l).
Definition counters : list field :=
  [table_last_WS_index; pageFaultsCounter; tableFaultsCounter; freeingFullWSCounter; freeingScarceMemCounter;
   nModifiedPages; nNotModifiedPages; nClocks; nPageIn; nPageOut; nNewPageAdded].
Definition initialize_environment (e ptr_user_page_directory phys_user_page_directory : Z) : ET unit :=
  put_field e env_page_directory ptr_user_page_directory ;;
  put_field e env_cr3 phys_user_page_directory ;;
  put_field e starvcounteer 0 ;;
  mfor (seqZ 0 (PDX USER_TOP)) (λ i, set_entry ptr_user_page_directory i 0) ;;
  mfor (seqZ (PDX USER_TOP) (1024 - PDX USER_TOP)) (λ i,
    k ← mget ptr_page_directory; v ← entry k i; set_entry ptr_user_page_directory i v) ;;
  kst ← create_user_kern_stack ptr_user_page_directory;
  put_field e kstack kst ;;
  let sp := w32 (kst + KERNEL_STACK_SIZE) in
  let sp := w32 (sp - SIZEOF_STRUCT_TRAPFRAME) in
  put_field e env_tf sp ;;
  let sp := w32 (sp - 4) in
  set_word sp trapret ;;
  let sp := w32 (sp - sizeof_Context) in
  put_field e context sp ;;
  memset_words sp (sizeof_Context / 4) ;;
  set_word (sp + 28) env_start ;;
  upd_env e (set_ws []) ;;
  upd_env e (set_refs []) ;;
  upd_env e (set_tws (replicate TWS_MAX_SIZE (TWS 0 1 0))) ;;
  mfor counters (λ f, put_field e f 0) ;;
  complete_environment_initialization e.
(** [strcpy] and [strncpy] of a name into [prog_name]. *)
Definition PROGNAMELEN : nat := 64.
Definition name_env (name : list Z) (x : Env) : Env :=
  let bytes := if decide (length name < PROGNAMELEN)%nat then name ++ [0] else take 63 name in
  set_prog_name (bytes ++ drop (length bytes) (prog_name x)) x.
Definition DEFAULT_PERCENT_OF_PAGE_WS_TO_REMOVE : Z := 10.
(** Steps [2] to [4] of [env_create]; [lru_lists] is
    [isPageReplacmentAlgorithmLRU(PG_REP_LRU_LISTS_APPROX)]. *)
Definition new_environment (lru_lists : bool) (name : list Z) (page_WS_size LRU_second_list_size percent : Z) : ET (option Z) :=
  r ← allocate_environment;
  match r.2 with
  | None => mret None
  | Some e =>
      upd_env e (name_env name) ;;
      dir ← create_user_directory;
      cr3 ← gets (kheap_physical_address dir);
      put_field e page_WS_max_size page_WS_size ;;
      when lru_lists (put_field e SecondListSize (i32 LRU_second_list_size) ;;
                      put_field e ActiveListSize (i32 (page_WS_size - LRU_second_list_size))) ;;
      put_field e percentage_of_WS_pages_to_be_removed (if decide (percent = 0) then DEFAULT_PERCENT_OF_PAGE_WS_TO_REMOVE else percent) ;;
      initialize_environment e dir cr3 ;;
      mret (Some e)
  end.
End code.
