(* ===== verification/EnvTableThm.v ===== *)
(** * What the table of environments promises

    Numbers of environments, the invariant of [envs] and its free list under any
    history of creations, deletions and changes of status, and what a new
    environment starts with. *)

From stdpp Require Import functions.
From S2P Require Import Prelude Queue Paging PagingSpec EnvTable.
From S2P Require Sched.

(** ** Numbers *)
Lemma NENV_val : NENV = 708.
Proof. reflexivity. Qed.
Lemma NEARPOW2NENV_val : NEARPOW2NENV = 1024.
Proof. by vm_compute. Qed.
Lemma ENVGENSHIFT_val : ENVGENSHIFT = 11.
Proof. by vm_compute. Qed.
Lemma ENVX_mod id : ENVX id = id `mod` 1024.
Proof. unfold ENVX. rewrite NEARPOW2NENV_val. change (1024 - 1) with (Z.ones 10). by rewrite Z.land_ones by lia. Qed.
Lemma land_generation x : Z.land x (Z.lnot (NEARPOW2NENV - 1)) = 1024 * (x `div` 1024).
Proof.
  rewrite NEARPOW2NENV_val. change (1024 - 1) with (Z.ones 10). rewrite <- Z.ldiff_land.
  rewrite Z.ldiff_ones_r, Z.shiftl_mul_pow2, Z.shiftr_div_pow2 by lia. change (2 ^ 10) with 1024. lia.
Qed.
Lemma lor_index g i : (1024 | g) → 0 ≤ i < 1024 → Z.lor g i = g + i.
Proof.
  intros [k ->] Hi. assert (Z.land (k * 1024) i = 0) as Hz.
  { change 1024 with (2 ^ 10). rewrite <- Z.shiftl_mul_pow2 by lia. apply Z.bits_inj'. intros n Hn.
    rewrite Z.land_spec, Z.bits_0. destruct (decide (n < 10)).
    - by rewrite Z.shiftl_spec_low by lia.
    - rewrite (Z.bits_above_log2 i n); [by rewrite andb_false_r|lia|].
      destruct (decide (i = 0)) as [->|]; [cbn; lia|]. apply Z.log2_lt_pow2; [lia|].
      pose proof (Z.pow_le_mono_r 2 10 n ltac:(lia) ltac:(lia)). change (2 ^ 10) with 1024 in *. lia. }
  rewrite <- Z.lxor_lor by done. symmetry. by apply Z.add_nocarry_lxor.
Qed.
(** The next number in slot [i] is positive, has index [i], and is larger than the
    last one unless that is within 2048 of the largest number. *)
Lemma next_generation_spec id i : 0 ≤ id < 2147483648 → 0 ≤ i < 1024 →
  let n := Z.lor (next_generation id) i in
  0 < n < 2147483648 ∧ ENVX n = i ∧ (id + 2048 < 2147483648 → id < n).
Proof.
  intros Hid Hi. unfold next_generation. rewrite land_generation, ENVGENSHIFT_val. change (Z.shiftl 1 11) with 2048.
  assert (Hgen : ∀ g, (1024 | g) → 0 < g ≤ 2147483648 - 1024 → (id + 2048 < 2147483648 → id < g) →
    let n := Z.lor g i in 0 < n < 2147483648 ∧ ENVX n = i ∧ (id + 2048 < 2147483648 → id < n)).
  { intros g Hd Hg Hlt. cbv zeta. rewrite lor_index by done. rewrite ENVX_mod. destruct Hd as [k ->].
    split_and!; [lia|lia| |lia]. rewrite Z.add_comm, Z.mod_add by lia. by apply Z.mod_small. }
  destruct (decide (id + 2048 < 2147483648)).
  - rewrite i32_small by lia. pose proof (Z.div_mod (id + 2048) 1024 ltac:(lia)). pose proof (Z.mod_pos_bound (id + 2048) 1024 ltac:(lia)).
    rewrite decide_False by lia. apply Hgen; [by apply Z.divide_factor_l|lia|lia].
  - assert (i32 (id + 2048) < 0) as Hneg.
    { unfold i32. rewrite w32_small by lia. rewrite decide_False by lia. lia. }
    pose proof (Z.div_mod (i32 (id + 2048)) 1024 ltac:(lia)). pose proof (Z.mod_pos_bound (i32 (id + 2048)) 1024 ltac:(lia)).
    rewrite decide_True by lia. apply Hgen; [by exists 2|lia|lia].
Qed.

(** ** What the table needs from the rest of the kernel *)
(** The kernel's page tables lie in the direct mapping of physical memory; the
    kernel heap hands out pages of kernel addresses that they map. *)
Definition kernel_table (va t : Z) (m : mm) : Prop :=
  ∃ D pde L, arrays m !! ptr_page_directory m = Some D ∧ D !! Z.to_nat (PDX va) = Some pde ∧
    Z.land pde PERM_PRESENT = PERM_PRESENT ∧ PPN (EXTRACT_ADDRESS pde) < number_of_frames m ∧
    t = w32 (EXTRACT_ADDRESS pde + KERNEL_BASE) ∧ t ≠ NULL ∧ arrays m !! t = Some L ∧ length L = 1024%nat.
Definition heap_pages (t n : Z) : Prop := USER_TOP ≤ t ∧ t + n ≤ 4294967296 ∧ (4096 | t).
Class EnvLaws (X : Type) {PE : PageEnv (env_table * X)} {EW : EnvWorld X} := {
  kernel_tables : gset Z;
  (** [n] more calls of [kmalloc] succeed. *)
  heap_ready : nat → mm * (env_table * X) → Prop;
  (** The blocks that the kernel heap has given out. *)
  allocated : Z → X → Prop;
  (** Neither the table of environments nor user directories matter for that. *)
  heap_ready_frame n m A t t' x :
    (∀ a, a ∈ kernel_tables ∨ a = ptr_page_directory m → A !! a = arrays m !! a) →
    heap_ready n (m, (t, x)) → heap_ready n (set_arrays A m, (t', x));
  kernel_directory n s : heap_ready n s → ptr_page_directory s.1 ∉ kernel_tables ∧
    ∃ K, arrays s.1 !! ptr_page_directory s.1 = Some K ∧ length K = 1024%nat ∧ Forall (λ e, 0 ≤ e < 4294967296) K;
  kmalloc_law n size s : heap_ready (S n) s → size = PAGE_SIZE ∨ size = KERNEL_STACK_SIZE → wp (kmalloc size) (λ t s',
    heap_ready n s' ∧ s'.2.1 = s.2.1 ∧ cpu_proc s'.2.2 = cpu_proc s.2.2 ∧
    heap_pages t size ∧ t ∉ kernel_tables ∧ t ≠ ptr_page_directory s.1 ∧ ¬ allocated t s.2.2 ∧ allocated t s'.2.2 ∧
    (∀ b, allocated b s.2.2 → allocated b s'.2.2) ∧ length (fresh_words t s'.2.2) = 1024%nat ∧
    ptr_page_directory s'.1 = ptr_page_directory s.1 ∧ (∀ a, a ∉ kernel_tables → arrays s'.1 !! a = arrays s.1 !! a) ∧
    ∃ kt, kt ∈ kernel_tables ∧ kernel_table t kt s'.1) s;
  link_addresses : 0 ≤ trapret < 4294967296 ∧ 0 ≤ env_start < 4294967296
}.

Section table.
Context {X : Type} {PE : PageEnv (env_table * X)} {EW : EnvWorld X} {EL : EnvLaws X}.
Notation St := (mm * (env_table * X))%type.
Implicit Types s : St.

(** ** Symbolic execution *)
Definition upd_table (f : env_table → env_table) s : St := (s.1, (f s.2.1, s.2.2)).
Lemma wp_tget {A} (f : env_table → A) (Q : A → St → Prop) s : Q (f s.2.1) s → wp (tget f) Q s.
Proof. done. Qed.
Lemma wp_tset f (Q : unit → St → Prop) s : Q tt (upd_table f s) → wp (tset f) Q s.
Proof. done. Qed.
Definition has_env (e : Z) (x : Env) s : Prop := envs s.2.1 !! Z.to_nat e = Some x.
Definition put_env (e : Z) (x : Env) s : St := upd_table (λ t, set_envs (<[Z.to_nat e := x]> (envs t)) t) s.
Lemma wp_env_slot e x (Q : Env → St → Prop) s : has_env e x s → Q x s → wp (get_env e) Q s.
Proof. intros Hx HQ. apply wp_bind, wp_tget. by eapply wp_unwrap. Qed.
Lemma wp_env_slot_update e f x (Q : unit → St → Prop) s : has_env e x s → Q tt (put_env e (f x) s) → wp (upd_env e f) Q s.
Proof. intros Hx HQ. unfold upd_env. apply wp_bind. eapply wp_env_slot; [done|]. by apply wp_tset. Qed.
Lemma wp_get_field e f x (Q : Z → St → Prop) s : has_env e x s → Q (fields x f) s → wp (get_field e f) Q s.
Proof. intros Hx HQ. unfold get_field. apply wp_bind. eapply wp_env_slot; [done|]. by apply wp_ret. Qed.
Lemma wp_put_field e f v x (Q : unit → St → Prop) s :
  has_env e x s → Q tt (put_env e (set_field f v x) s) → wp (put_field e f v) Q s.
Proof. apply wp_env_slot_update. Qed.
Lemma has_put_env e x y s : has_env e x s → has_env e y (put_env e y s).
Proof. intros Hx. unfold has_env, put_env, upd_table in *. cbn. apply list_lookup_insert_eq. by eapply lookup_lt_Some. Qed.
Lemma put_put_env e x y s : put_env e x (put_env e y s) = put_env e x s.
Proof. unfold put_env, upd_table. cbn. unfold set_envs. cbn. by rewrite list_insert_insert_eq. Qed.

(** ** The invariant *)
Definition status (x : Env) : Z := fields x env_status.
Definition number (x : Env) : Z := fields x env_id.
(** A slot is in the free list when its status is ENV_FREE; a process in slot [i]
    has the number [2048 + i]. *)
Record table_inv (t : env_table) : Prop := {
  ti_len : length (envs t) = 708%nat;
  ti_nodup : NoDup (env_free_list t);
  ti_free i : i ∈ env_free_list t ↔ 0 ≤ i ∧ ∃ x, envs t !! Z.to_nat i = Some x ∧ status x = Sched.ENV_FREE;
  ti_id i x : envs t !! i = Some x → number x = if decide (status x = Sched.ENV_FREE) then 0 else 2048 + Z.of_nat i
}.
Definition live (t : env_table) (i : Z) : Prop := 0 ≤ i ∧ ∃ x, envs t !! Z.to_nat i = Some x ∧ status x ≠ Sched.ENV_FREE.

(** ** Filling arrays and words *)
Definition fill (v : Z → Z) (l : list Z) (D : list Z) : list Z := foldl (λ D i, <[Z.to_nat i := v i]> D) D l.
Lemma length_fill v l D : length (fill v l D) = length D.
Proof. unfold fill. revert D. induction l as [|i l IH]; intros D; cbn; [done|]. by rewrite IH, length_insert. Qed.
Lemma lookup_fill v a n D j : 0 ≤ a → 0 ≤ n → (Z.to_nat (a + n) ≤ length D)%nat →
  fill v (seqZ a n) D !! j = if decide (a ≤ Z.of_nat j < a + n) then Some (v (Z.of_nat j)) else D !! j.
Proof.
  intros Ha Hn. revert a D Ha. pattern n. apply natlike_ind; [| |done]; clear n Hn.
  - intros a D Ha HD. cbn. by rewrite decide_False by lia.
  - intros n Hn IH a D Ha HD. rewrite seqZ_cons by lia. cbn [fill foldl]. fold (fill v (seqZ (Z.succ a) (Z.pred (Z.succ n))) (<[Z.to_nat a:=v a]> D)).
    rewrite Z.pred_succ. rewrite IH by (rewrite ?length_insert; lia). destruct (decide (Z.of_nat j = a)) as [<-|Hne].
    + rewrite decide_False, decide_True by lia. rewrite Nat2Z.id. apply list_lookup_insert_eq. lia.
    + rewrite list_lookup_insert_ne by lia. destruct (decide (Z.succ a ≤ Z.of_nat j < Z.succ a + n)); destruct (decide (a ≤ Z.of_nat j < a + Z.succ n)); try lia; done.
Qed.
(** The state with the array [D] at [d]. *)
Definition with_array (d : Z) (D : list Z) (m : mm) : mm := set_arrays (<[d := D]> (arrays m)) m.
Lemma arrays_with d D m : arrays (with_array d D m) = <[d := D]> (arrays m).
Proof. done. Qed.
Lemma with_with d D D' m : with_array d D (with_array d D' m) = with_array d D m.
Proof. unfold with_array, set_arrays. cbn. by rewrite insert_insert_eq. Qed.
Lemma wp_set_dir d i v D m tx (Q : unit → St → Prop) : arrays m !! d = Some D → (Z.to_nat i < length D)%nat →
  Q () (with_array d (<[Z.to_nat i := w32 v]> D) m, tx) → wp (set_entry d i v) Q (m, tx).
Proof. intros HD Hi HQ. destruct (lookup_lt_is_Some_2 D (Z.to_nat i) Hi) as [u Hu]. eapply wp_set_entry; [exact HD|exact Hu|exact HQ]. Qed.
Lemma wp_fill d (g : Z → M St unit) v l D m tx (Q : unit → St → Prop) :
  (∀ i D', i ∈ l → length D' = length D → ∀ Q : unit → St → Prop, Q () (with_array d (<[Z.to_nat i := v i]> D') m, tx) → wp (g i) Q (with_array d D' m, tx)) →
  Q () (with_array d (fill v l D) m, tx) → wp (mfor l g) Q (with_array d D m, tx).
Proof.
  revert D. induction l as [|i l IH]; intros D Hg HQ; cbn [mfor]; [by apply wp_ret|].
  apply wp_bind. apply Hg; [by left|done|]. apply IH; [|done]. intros j D' Hj Hlen. apply Hg; [by right|]. by rewrite Hlen, length_insert.
Qed.
Definition zero_words (a : Z) (l : list Z) (W : gmap Z Z) : gmap Z Z := foldl (λ W i, <[a + 4 * i := 0]> W) W l.
Lemma lookup_zero_words a n W b : 0 ≤ n → zero_words a (seqZ 0 n) W !! b = if decide (a ≤ b < a + 4 * n ∧ (b - a) `mod` 4 = 0) then Some 0 else W !! b.
Proof.
  intros Hn. enough (∀ k W, 0 ≤ k → zero_words a (seqZ k n) W !! b = if decide (a + 4 * k ≤ b < a + 4 * (k + n) ∧ (b - a) `mod` 4 = 0) then Some 0 else W !! b) as H.
  { rewrite H by lia. repeat case_decide; try done; lia. }
  clear W. pattern n. apply natlike_ind; [| |done]; clear n Hn.
  - intros k W Hk. cbn. by rewrite decide_False by lia.
  - intros n Hn IH k W Hk. rewrite seqZ_cons by lia. cbn [zero_words foldl]. fold (zero_words a (seqZ (Z.succ k) (Z.pred (Z.succ n))) (<[a + 4 * k := 0]> W)).
    rewrite Z.pred_succ, IH by lia. destruct (decide (b = a + 4 * k)) as [->|Hne].
    + replace (a + 4 * k - a) with (k * 4) by lia. rewrite Z.mod_mul by lia. rewrite lookup_insert_eq. repeat case_decide; try done; lia.
    + rewrite lookup_insert_ne by done. pose proof (Z.div_mod (b - a) 4 ltac:(lia)). repeat case_decide; try done; lia.
Qed.
Lemma wp_set_word a v m t x (Q : unit → St → Prop) : 0 ≤ a < 4294967296 → 0 ≤ v < 4294967296 →
  Q () (m, (set_kwords (<[a := v]> (kwords t)) t, x)) → wp (set_word a v) Q (m, (t, x)).
Proof. intros Ha Hv HQ. unfold set_word. apply wp_tset. unfold upd_table. cbn. by rewrite !w32_small by lia. Qed.
Lemma wp_memset_words a n m t x (Q : unit → St → Prop) : 0 ≤ a → 0 ≤ n → a + 4 * n ≤ 4294967296 →
  Q () (m, (set_kwords (zero_words a (seqZ 0 n) (kwords t)) t, x)) → wp (memset_words a n) Q (m, (t, x)).
Proof.
  intros Ha Hn Han. unfold memset_words. assert (Forall (λ i, 0 ≤ i < n) (seqZ 0 n)) as Hl by (apply Forall_forall; intros i ?%elem_of_seqZ; lia).
  revert t Hl. induction (seqZ 0 n) as [|i l IH]; intros t Hl HQ; cbn [mfor].
  - apply wp_ret. unfold set_kwords in HQ. cbn in HQ. by destruct t.
  - apply Forall_cons in Hl as [Hi Hl]. apply wp_bind, wp_set_word; [lia|lia|]. by apply IH.
Qed.

(** ** The kernel stack *)
(** [m'] is [m] after the kernel heap has mapped pages. *)
Definition heap_grown (m m' : mm) : Prop :=
  ptr_page_directory m' = ptr_page_directory m ∧ ∀ a, a ∉ kernel_tables → arrays m' !! a = arrays m !! a.
(** The page at [va] is no longer present in the kernel's page table. *)
Definition guarded (va : Z) (m m' : mm) : Prop :=
  ∃ kt L e, kt ∈ kernel_tables ∧ kernel_table va kt m ∧ arrays m !! kt = Some L ∧ L !! Z.to_nat (PTX va) = Some e ∧
    m' = with_array kt (<[Z.to_nat (PTX va) := w32 (Z.land e (Z.lnot PERM_PRESENT))]> L) m.
Lemma set_arrays_id m : set_arrays (arrays m) m = m.
Proof. by destruct m. Qed.
Lemma heap_ready_table n m t t' x : heap_ready n (m, (t, x)) → heap_ready n (m, (t', x)).
Proof. intros H. rewrite <- (set_arrays_id m). eapply heap_ready_frame; [|exact H]. done. Qed.
Lemma heap_ready_with n d D m t t' x : d ∉ kernel_tables → d ≠ ptr_page_directory m → heap_ready n (m, (t, x)) → heap_ready n (with_array d D m, (t', x)).
Proof.
  intros Hd Hk. apply heap_ready_frame. intros a Ha. apply lookup_insert_ne. intros ->. by destruct Ha.
Qed.
Lemma PDX_kernel va n : heap_pages va n → 0 < n → 955 ≤ PDX va < 1024 ∧ CHECK_IF_KERNEL_ADDRESS va = true.
Proof.
  intros (H1 & H2 & _) Hn. unfold PDX, CHECK_IF_KERNEL_ADDRESS. change USER_TOP with 4005560320 in *. rewrite !w32_small by lia. split.
  - change 1023 with (Z.ones 10). rewrite Z.land_ones, Z.shiftr_div_pow2 by lia. change (2 ^ 22) with 4194304. change (2 ^ 10) with 1024.
    assert (955 ≤ va `div` 4194304 < 1024) by (split; [apply Z.div_le_lower_bound; lia|apply Z.div_lt_upper_bound; lia]).
    rewrite Z.mod_small by lia. lia.
  - apply bool_decide_eq_true. lia.
Qed.
Lemma wp_create_user_kern_stack d D m t x (Q : Z → St → Prop) :
  heap_ready 1 (m, (t, x)) → env_lock t = false → d ∉ kernel_tables → d ≠ ptr_page_directory m → arrays m !! d = Some D →
  (∀ K i, arrays m !! ptr_page_directory m = Some K → (955 ≤ i)%nat → D !! i = K !! i) →
  (∀ kst m1 m' x', heap_pages kst KERNEL_STACK_SIZE → heap_grown m m1 → guarded kst m1 m' → cpu_proc x' = cpu_proc x →
    (∀ b, allocated b x → allocated b x') → Q kst (m', (t, x'))) →
  wp (create_user_kern_stack d) Q (m, (t, x)).
Proof.
  intros Hr Hl Hd Hdk HD HDK HQ. unfold create_user_kern_stack. apply wp_bind, wp_tget. cbn. apply wp_bind, wp_assert; [by rewrite Hl|].
  apply wp_bind, wp_tset. unfold upd_table. cbn. set (t1 := set_env_lock true t).
  apply wp_bind. eapply wp_mono; [apply (kmalloc_law 0); [by eapply heap_ready_table|by right]|].
  intros kst [m1 [t2 x1]] (Hr1 & Ht1 & Hx1 & Hp & Hkst & _ & _ & _ & Hmore & Hfresh & Hptr & Harr & kt & Hkt & HT). cbn [fst snd] in *. subst t2.
  pose proof HT as HT2. destruct HT as (K & pde & L & HK & Hpde & Hpres & Hppn & -> & Hnz & HL & HlenL).
  destruct (PDX_kernel _ _ Hp) as [Hpdx Hck]; [by vm_compute|].
  destruct (kernel_directory _ _ Hr) as (Hkk & _). cbn in Hkk.
  assert (Hres : resolves d kst (w32 (EXTRACT_ADDRESS pde + KERNEL_BASE)) (m1, (t1, x1))).
  { split; [done|]. exists D, pde. cbn [fst]. rewrite Harr by done. split_and!; [done| |done|].
    - rewrite (HDK K); [done| |lia]. by rewrite Hptr, Harr in HK by done.
    - by rewrite Hck. }
  destruct Hp as (Hp1 & Hp2 & Hp3). rewrite decide_False by (unfold NULL, USER_TOP in *; lia).
  apply wp_bind. eapply wp_get_page_table; [done|]. cbn [fst snd]. rewrite (bool_decide_eq_true_2 (_ ≠ NULL)) by done. cbn [when].
  assert (0 ≤ PTX kst < 1024) as Hptx by apply PTX_range. destruct (lookup_lt_is_Some_2 L (Z.to_nat (PTX kst))) as [e He]; [lia|].
  apply wp_bind, wp_bind. eapply wp_entry; [done|done|]. eapply wp_set_entry; [done|done|].
  apply wp_bind, wp_tset, wp_ret. cbn [fst snd]. unfold upd_table. cbn [fst snd].
  assert (set_env_lock false t1 = t) as -> by (unfold t1, set_env_lock; cbn; rewrite <- Hl; by destruct t).
  apply (HQ kst m1); [done|done| |done|done]. exists (w32 (EXTRACT_ADDRESS pde + KERNEL_BASE)), L, e. done.
Qed.

(** ** A new environment *)
(** The fields of a new environment in slot [e], which was [x]. *)
Definition started_field (x : Env) (e d cr3 kst pa : Z) (f : field) : Z :=
  match f with
  | env_status => Sched.ENV_NEW
  | env_id => Z.lor (next_generation (number x)) e
  | env_parent_id => pa
  | env_page_directory => d
  | env_cr3 => cr3
  | kstack => kst
  | env_tf => kst + KERNEL_STACK_SIZE - 68
  | context => kst + KERNEL_STACK_SIZE - 104
  | page_WS_max_size | page_last_WS_element | numOfPrepagedVAs | prepagedVAs | ActiveListSize | SecondListSize
  | percentage_of_WS_pages_to_be_removed | initNumStackPages => fields x f
  | _ => 0
  end.
Record started (x x' : Env) (e d cr3 kst pa : Z) : Prop := {
  st_fields f : fields x' f = started_field x e d cr3 kst pa f;
  st_name : prog_name x' = prog_name x;
  st_ws : page_WS_list x' = [];
  st_refs : referenceStreamList x' = [];
  st_tws : ptr_tws x' = replicate TWS_MAX_SIZE (TWS 0 1 0)
}.
(** The directory: nothing in the user's half, the kernel's entries, and the two
    entries for the directory itself. *)
Definition first_entry (K : list Z) (cr3 : Z) (i : nat) : Z :=
  if decide (i = 957%nat) then w32 (Z.lor (Z.lor cr3 PERM_PRESENT) PERM_USER)
  else if decide (i = 959%nat) then w32 (Z.lor (Z.lor cr3 PERM_PRESENT) PERM_WRITEABLE)
  else if decide (i < 955)%nat then 0 else K !!! i.
Definition first_directory (K : list Z) (cr3 : Z) (D : list Z) : Prop :=
  length D = 1024%nat ∧ ∀ i, (i < 1024)%nat → D !! i = Some (first_entry K cr3 i).
(** The top of the kernel stack: the context that starts [env_start], which returns
    to [trapret], which pops a trap frame for user mode with interrupts on. *)
Definition first_frame : list Z :=
  [0; 0; 0; 0; 0; 0; 0; env_start; trapret; 0; 0; 0; 0; 0; 0; 0; 0; 35; 35; 0; 0; 0; 27; 512; USTACKTOP; 35].
Definition first_words (kst : Z) (W W' : gmap Z Z) : Prop :=
  (∀ j, (j < 26)%nat → W' !! (kst + KERNEL_STACK_SIZE - 104 + 4 * Z.of_nat j) = first_frame !! j) ∧
  (∀ a, ¬ kst + KERNEL_STACK_SIZE - 104 ≤ a < kst + KERNEL_STACK_SIZE → W' !! a = W !! a).
Definition not_present (va : Z) (m : mm) : Prop :=
  ∃ kt L e, kernel_table va kt m ∧ arrays m !! kt = Some L ∧ L !! Z.to_nat (PTX va) = Some e ∧ Z.land e PERM_PRESENT = 0.
(** The number of the process that is running. *)
Definition parent (s : St) (pa : Z) : Prop :=
  match cpu_proc s.2.2 with None => pa = 0 | Some c => ∃ xc, has_env c xc s ∧ pa = number xc end.

Lemma l_remove_hd_eq x l : x ∉ l → l_remove x (x :: l) = l.
Proof. intros Hx. apply (l_remove_split x [] l); [apply not_elem_of_nil|done]. Qed.
Section execution.
Context (e : Z) (E : list Env) (He : (Z.to_nat e < length E)%nat).
Notation tab y F W := (ETAB (<[Z.to_nat e := y]> E) F false W).
Lemma has_tab y F W m x : has_env e y (m, (tab y F W, x)).
Proof. unfold has_env. cbn. by apply list_lookup_insert_eq. Qed.
Lemma wp_upd_tab f y F W m x (Q : unit → St → Prop) : Q () (m, (tab (f y) F W, x)) → wp (upd_env e f) Q (m, (tab y F W, x)).
Proof.
  intros HQ. eapply wp_env_slot_update; [apply has_tab|]. unfold put_env, upd_table, set_envs. cbn. by rewrite list_insert_insert_eq.
Qed.
Lemma wp_put_tab f v y F W m x (Q : unit → St → Prop) :
  Q () (m, (tab (set_field f v y) F W, x)) → wp (put_field e f v) Q (m, (tab y F W, x)).
Proof. apply wp_upd_tab. Qed.
Lemma wp_get_tab f y F W m x (Q : Z → St → Prop) :
  Q (fields y f) (m, (tab y F W, x)) → wp (get_field e f) Q (m, (tab y F W, x)).
Proof. apply wp_get_field, has_tab. Qed.
Lemma wp_put_fields l y F W m x (Q : unit → St → Prop) :
  Q () (m, (tab (foldl (λ y f, set_field f 0 y) y l) F W, x)) → wp (mfor l (λ f, put_field e f 0)) Q (m, (tab y F W, x)).
Proof.
  revert y. induction l as [|f l IH]; intros y HQ; cbn [mfor]; [by apply wp_ret|]. apply wp_bind, wp_put_tab. by apply IH.
Qed.

Definition completed (y : Env) (pa : Z) : Env :=
  set_field env_runs 0 (set_field env_status Sched.ENV_NEW (set_field env_parent_id pa
    (set_field env_id (Z.lor (next_generation (number y)) e) (set_field disk_env_tabledir_PA 0 (set_field disk_env_tabledir 0
      (set_field disk_env_pgdir_PA 0 (set_field disk_env_pgdir 0 y))))))).
Definition trap_words (tf : Z) (W : gmap Z Z) : gmap Z Z :=
  <[tf + 56 := 512]> (<[tf + 52 := 27]> (<[tf + 60 := USTACKTOP]> (<[tf + 64 := 35]> (<[tf + 32 := 35]> (<[tf + 36 := 35]> (zero_words tf (seqZ 0 17) W)))))).
Lemma wp_complete y F W m x D pa d cr3 tf (Q : unit → St → Prop) :
  fields y env_page_directory = d → fields y env_cr3 = cr3 → fields y env_tf = tf → e ∈ F →
  arrays m !! d = Some D → length D = 1024%nat → 0 ≤ tf → tf + 68 ≤ 4294967296 →
  (match cpu_proc x with None => pa = 0 | Some c => ∃ xc, 0 ≤ c ∧ c ≠ e ∧ 0 ≤ e ∧ E !! Z.to_nat c = Some xc ∧ pa = number xc end) →
  Q () (with_array d (<[957%nat := w32 (Z.lor (Z.lor cr3 PERM_PRESENT) PERM_USER)]> (<[959%nat := w32 (Z.lor (Z.lor cr3 PERM_PRESENT) PERM_WRITEABLE)]> D)) m,
        (tab (completed y pa) (l_remove e F) (trap_words tf W), x)) →
  wp (complete_environment_initialization e) Q (m, (tab y F W, x)).
Proof.
  intros Hd Hcr Htf HeF HD HlenD Htf1 Htf2 Hpa HQ. unfold complete_environment_initialization.
  apply wp_bind, wp_get_tab. rewrite Hd. apply wp_bind, wp_get_tab. rewrite Hcr.
  change (PDX VPT) with 959. change (PDX UVPT) with 957.
  apply wp_bind. eapply wp_set_dir; [exact HD|cbn; lia|].
  apply wp_bind. eapply wp_set_dir; [cbn; apply lookup_insert_eq|rewrite length_insert; cbn; lia|]. rewrite with_with.
 do 4 (apply wp_bind, wp_put_tab).
  apply wp_bind, wp_get_tab. apply wp_bind, wp_put_tab. apply wp_bind, wp_gets. cbn [fst snd].
  apply wp_bind. assert (Hparent : ∀ y' m' (Q : unit → St → Prop), Q () (m', (tab (set_field env_parent_id pa y') F W, x)) →
    wp (match cpu_proc x with None => put_field e env_parent_id 0 | Some c => cid ← get_field c env_id; put_field e env_parent_id cid end) Q (m', (tab y' F W, x))).
  { intros y' m' Q' HQ'. destruct (cpu_proc x) as [c|].
    - destruct Hpa as (xc & Hc & Hne & He0 & Hxc & ->). apply wp_bind. eapply wp_get_field.
      { unfold has_env. cbn. rewrite list_lookup_insert_ne by lia. done. }
      by apply wp_put_tab.
    - subst pa. by apply wp_put_tab. }
  apply Hparent. do 2 (apply wp_bind, wp_put_tab). apply wp_bind, wp_get_tab.
  assert (∀ f v z, f ≠ env_tf → fields (set_field f v z) env_tf = fields z env_tf) as Hne by (intros; cbn; by rewrite fn_lookup_insert_ne).
  rewrite !Hne by done. rewrite Htf.
  apply wp_bind, wp_memset_words; [lia|by vm_compute|change (SIZEOF_STRUCT_TRAPFRAME / 4) with 17; lia|].
  change (SIZEOF_STRUCT_TRAPFRAME / 4) with 17. unfold set_kwords. cbn [envs env_free_list env_lock kwords].
  do 6 (apply wp_bind, wp_set_word; [lia|by vm_compute|]; unfold set_kwords; cbn [envs env_free_list env_lock kwords]).
  apply wp_bind, wp_tget. cbn. apply wp_bind. unfold wp at 1. rewrite lq_remove_run by done. apply wp_tset. exact HQ.
Qed.

Definition initialized (y : Env) (d cr3 kst pa : Z) : Env :=
  completed (foldl (λ y f, set_field f 0 y) (set_tws (replicate TWS_MAX_SIZE (TWS 0 1 0)) (set_refs [] (set_ws []
    (set_field context (kst + KERNEL_STACK_SIZE - 104) (set_field env_tf (kst + KERNEL_STACK_SIZE - 68) (set_field kstack kst
      (set_field starvcounteer 0 (set_field env_cr3 cr3 (set_field env_page_directory d y))))))))) counters) pa.
Lemma initialized_started x y d cr3 kst pa : (∀ f, f ≠ env_status → fields y f = fields x f) → prog_name y = prog_name x →
  started x (initialized y d cr3 kst pa) e d cr3 kst pa.
Proof.
  intros Hf Hn. split; [|done..]. intros f.
  destruct f; try reflexivity; try (apply Hf; discriminate).
  transitivity (Z.lor (next_generation (fields y env_id)) e); [reflexivity|]. by rewrite Hf.
Qed.
Lemma lookup_insert_at (W : gmap Z Z) a b v : a = b → <[a := v]> W !! b = Some v.
Proof. intros ->. apply lookup_insert_eq. Qed.
Definition all_words (kst : Z) (W : gmap Z Z) : gmap Z Z :=
  trap_words (kst + KERNEL_STACK_SIZE - 68) (<[kst + KERNEL_STACK_SIZE - 104 + 28 := env_start]>
    (zero_words (kst + KERNEL_STACK_SIZE - 104) (seqZ 0 8) (<[kst + KERNEL_STACK_SIZE - 72 := trapret]> W))).
Lemma all_words_first kst W : first_words kst W (all_words kst W).
Proof.
  unfold first_words. change KERNEL_STACK_SIZE with 32768. split.
  - assert (Hlook : Forall (λ j : nat, ∀ a, a = kst + 32768 - 104 + 4 * Z.of_nat j → all_words kst W !! a = first_frame !! j) (seq 0 26)).
    { cbn [seq]. repeat apply Forall_cons_2; [..|apply Forall_nil_2]; intros a ->; unfold all_words, trap_words; change KERNEL_STACK_SIZE with 32768;
        repeat first [rewrite lookup_insert_ne by lia | rewrite lookup_zero_words by lia; rewrite decide_False by lia];
        first [rewrite lookup_insert_at by lia; reflexivity
              | rewrite lookup_zero_words by lia; rewrite decide_True by (split; [lia|Z.div_mod_to_equations; lia]); reflexivity]. }
    intros j Hj. rewrite Forall_forall in Hlook. apply (Hlook j); [apply elem_of_seq; lia|done].
  - intros a Ha. unfold all_words, trap_words. change KERNEL_STACK_SIZE with 32768.
    repeat first [rewrite lookup_insert_ne by lia | rewrite lookup_zero_words by lia; rewrite decide_False by lia]. done.
Qed.

Lemma fill_first K D cr3 : length K = 1024%nat → length D = 1024%nat →
  first_directory K cr3 (<[957%nat := w32 (Z.lor (Z.lor cr3 PERM_PRESENT) PERM_USER)]> (<[959%nat := w32 (Z.lor (Z.lor cr3 PERM_PRESENT) PERM_WRITEABLE)]>
    (fill (λ i, K !!! Z.to_nat i) (seqZ 955 69) (fill (λ _, 0) (seqZ 0 955) D)))).
Proof.
  intros HK HD. split; [by rewrite !length_insert, !length_fill|]. intros i Hi. unfold first_entry.
  destruct (decide (i = 957%nat)) as [->|H1]; [apply list_lookup_insert_eq; rewrite length_insert, !length_fill; lia|].
  rewrite list_lookup_insert_ne by done.
  destruct (decide (i = 959%nat)) as [->|H2]; [apply list_lookup_insert_eq; rewrite !length_fill; lia|].
  rewrite list_lookup_insert_ne by done. rewrite !lookup_fill by (rewrite ?length_fill; lia). rewrite Nat2Z.id.
  destruct (decide (i < 955)%nat); repeat case_decide; try lia; done.
Qed.
Lemma wp_initialize_environment y F W m x D K pa d cr3 (Q : unit → St → Prop) :
  heap_ready 1 (m, (tab y F W, x)) → d ∉ kernel_tables → d ≠ ptr_page_directory m → 0 ≤ e → e ∈ F →
  arrays m !! d = Some D → length D = 1024%nat → arrays m !! ptr_page_directory m = Some K →
  (match cpu_proc x with None => pa = 0 | Some c => ∃ xc, 0 ≤ c ∧ c ≠ e ∧ E !! Z.to_nat c = Some xc ∧ pa = number xc end) →
  (∀ kst m' x' D', heap_pages kst KERNEL_STACK_SIZE → not_present kst m' → cpu_proc x' = cpu_proc x →
    (∀ b, allocated b x → allocated b x') → arrays m' !! d = Some D' → first_directory K cr3 D' → ptr_page_directory m' = ptr_page_directory m →
    (∀ a, a ∉ kernel_tables → a ≠ d → arrays m' !! a = arrays m !! a) →
    Q () (m', (tab (initialized y d cr3 kst pa) (l_remove e F) (all_words kst W), x'))) →
  wp (initialize_environment e d cr3) Q (m, (tab y F W, x)).
Proof.
  intros Hr Hd Hdk He0 HeF HD HlenD HK Hpa HQ. destruct (kernel_directory _ _ Hr) as (_ & K' & HK' & HlenK & HFK). cbn in HK'. simplify_eq.
  unfold initialize_environment. do 3 (apply wp_bind, wp_put_tab). change (PDX USER_TOP) with 955. change (1024 - 955) with 69.
  assert (Hm : m = with_array d D m) by (unfold with_array; rewrite insert_id by done; by destruct m).
  apply wp_bind. rewrite Hm. apply (wp_fill d _ (λ _, 0)).
  { intros i D' Hi%elem_of_seqZ Hlen Q' HQ'. eapply wp_set_dir; [cbn; apply lookup_insert_eq|lia|]. by rewrite with_with. }
  apply wp_bind. apply (wp_fill d _ (λ i, K !!! Z.to_nat i)).
  { intros i D' Hi%elem_of_seqZ Hlen Q' HQ'. rewrite length_fill in Hlen. apply wp_bind, wp_mget. cbn [fst].
    destruct (lookup_lt_is_Some_2 K (Z.to_nat i)) as [v Hv]; [lia|]. rewrite (list_lookup_total_correct _ _ _ Hv) in HQ'.
    apply wp_bind. eapply wp_entry; [cbn; rewrite lookup_insert_ne by done; exact HK|exact Hv|].
    eapply wp_set_dir; [cbn; apply lookup_insert_eq|lia|]. rewrite with_with.
    rewrite w32_small; [done|]. by apply (Forall_lookup_1 _ _ _ _ HFK Hv). }
  set (D2 := fill _ _ (fill _ _ D)).
  assert (HD2 : ∀ K0 i, arrays (with_array d D2 m) !! ptr_page_directory (with_array d D2 m) = Some K0 → (955 ≤ i)%nat → D2 !! i = K0 !! i).
  { intros K0 i HK0 Hi. cbn in HK0. rewrite lookup_insert_ne, HK in HK0 by done. simplify_eq. unfold D2.
    rewrite !lookup_fill by (rewrite ?length_fill; lia). destruct (decide (i < 1024)%nat).
    - rewrite decide_True by lia. rewrite Nat2Z.id. symmetry. apply list_lookup_lookup_total_lt. lia.
    - rewrite !decide_False by lia. rewrite !lookup_ge_None_2 by lia. done. }
  apply wp_bind. eapply wp_create_user_kern_stack; [by eapply heap_ready_with|done|done|done|cbn; apply lookup_insert_eq|exact HD2|].
  intros kst m1 m2 x' Hkst Hgrown (kt & L & ent & Hkt & Htab & HL & Hent & ->) Hcpu Hmore. clear HD2.
  destruct Hkst as (Hk1 & Hk2 & Hk3). change KERNEL_STACK_SIZE with 32768 in Hk2.
  change SIZEOF_STRUCT_TRAPFRAME with 68. change sizeof_Context with 32. cbv zeta. change (32 / 4) with 8.
  change KERNEL_STACK_SIZE with 32768. change USER_TOP with 4005560320 in Hk1.
  assert (Hw : w32 (w32 (kst + 32768) - 68) = kst + 32768 - 68).
  { unfold w32. rewrite Zminus_mod_idemp_l. apply Z.mod_small. lia. }
  rewrite Hw. rewrite (w32_small (kst + 32768 - 68 - 4)) by lia. rewrite (w32_small (kst + 32768 - 68 - 4 - 32)) by lia.
  replace (kst + 32768 - 68 - 4) with (kst + 32768 - 72) by lia. replace (kst + 32768 - 72 - 32) with (kst + 32768 - 104) by lia.
  destruct link_addresses as [Hl1 Hl2].
  do 2 (apply wp_bind, wp_put_tab). apply wp_bind, wp_set_word; [lia|done|]. unfold set_kwords; cbn [envs env_free_list env_lock kwords].
  apply wp_bind, wp_put_tab. apply wp_bind, wp_memset_words; [lia|lia|lia|]. unfold set_kwords; cbn [envs env_free_list env_lock kwords].
  apply wp_bind, wp_set_word; [lia|done|]. unfold set_kwords; cbn [envs env_free_list env_lock kwords].
  do 3 (apply wp_bind, wp_upd_tab). apply wp_bind, wp_put_fields.
  assert (HdL : arrays (with_array kt (<[Z.to_nat (PTX kst):=w32 (Z.land ent (Z.lnot PERM_PRESENT))]> L) m1) !! d = Some D2).
  { cbn. rewrite lookup_insert_ne by (by intros <-). destruct Hgrown as [_ Hg]. rewrite Hg by done. cbn. apply lookup_insert_eq. }
  eapply (wp_complete _ F _ _ x' D2 pa d cr3 (kst + 32768 - 68)); [reflexivity|reflexivity|reflexivity|done|exact HdL|unfold D2; by rewrite !length_fill|lia|lia| |].
  { rewrite Hcpu. destruct (cpu_proc x); [|done]. destruct Hpa as (xc & ? & ? & ? & ?). by exists xc. }
  assert (Hkd : kt ≠ d) by (by intros ->). destruct Hgrown as [Hg1 Hg2].
  eapply HQ; [done| |done|done|cbn; apply lookup_insert_eq|by apply fill_first|by cbn; rewrite Hg1|].
  - exists kt, (<[Z.to_nat (PTX kst):=w32 (Z.land ent (Z.lnot PERM_PRESENT))]> L), (w32 (Z.land ent (Z.lnot PERM_PRESENT))). split_and!.
    + destruct Htab as (K0 & pde & L0 & HK0 & Hpde & Hp1 & Hp2 & Hkteq & Hp3 & HL0 & HlenL0). assert (L0 = L) as -> by congruence.
      exists K0, pde, (<[Z.to_nat (PTX kst):=w32 (Z.land ent (Z.lnot PERM_PRESENT))]> L). cbn. destruct (kernel_directory _ _ Hr) as [Hkk _]. cbn in Hkk.
      cbn in Hg1. rewrite Hg1 in *. rewrite lookup_insert_ne by done. rewrite (lookup_insert_ne _ _ (ptr_page_directory m)) by (by intros Heq; rewrite Heq in Hkt).
      rewrite lookup_insert_ne by done. rewrite lookup_insert_eq. split_and!; try done. by rewrite length_insert.
    + cbn. rewrite lookup_insert_ne by done. apply lookup_insert_eq.
    + apply list_lookup_insert_eq. by eapply lookup_lt_Some.
    + unfold w32. change 4294967296 with (2 ^ 32). rewrite <- Z.land_ones by lia. rewrite <- Z.land_assoc, (Z.land_comm (Z.ones 32)), <- Z.land_assoc. 
      rewrite (Z.land_assoc (Z.lnot PERM_PRESENT)). change (Z.land (Z.lnot PERM_PRESENT) PERM_PRESENT) with 0. rewrite Z.land_0_l. apply Z.land_0_r.
  - intros a Ha Had. cbn. rewrite lookup_insert_ne by done. rewrite lookup_insert_ne by (by intros <-). rewrite Hg2 by done. cbn. by rewrite lookup_insert_ne.
Qed.

(** Steps [2] and [3] up to [initialize_environment]. *)
Definition named (lru : bool) (name : list Z) (ws lrusz pct : Z) (x : Env) : Env :=
  let x := set_field page_WS_max_size ws (name_env name (set_field env_status Sched.ENV_UNKNOWN x)) in
  let x := if lru then set_field ActiveListSize (i32 (ws - lrusz)) (set_field SecondListSize (i32 lrusz) x) else x in
  set_field percentage_of_WS_pages_to_be_removed (if decide (pct = 0) then 10 else pct) x.
Lemma wp_new_environment lru name ws lrusz pct x0 F W m x pa (Q : option Z → St → Prop) :
  heap_ready 2 (m, (tab x0 (e :: F) W, x)) → 0 ≤ e → e ∉ F →
  (match cpu_proc x with None => pa = 0 | Some c => ∃ xc, 0 ≤ c ∧ c ≠ e ∧ E !! Z.to_nat c = Some xc ∧ pa = number xc end) →
  (∀ d K kst m' x' D' p, heap_pages d PAGE_SIZE → heap_pages kst KERNEL_STACK_SIZE → not_present kst m' → cpu_proc x' = cpu_proc x →
    ¬ allocated d x → allocated d x' → arrays m' !! d = Some D' → arrays m !! ptr_page_directory m = Some K → first_directory K p D' →
    ptr_page_directory m' = ptr_page_directory m →
    (∀ a, a ∉ kernel_tables → a ≠ d → arrays m' !! a = arrays m !! a) →
    Q (Some e) (m', (tab (initialized (named lru name ws lrusz pct x0) d p kst pa) F (all_words kst W), x'))) →
  wp (new_environment lru name ws lrusz pct) Q (m, (tab x0 (e :: F) W, x)).
Proof.
  intros Hr He0 HeF Hpa HQ. unfold new_environment. apply wp_bind. unfold allocate_environment. apply wp_bind, wp_tget. cbn [env_free_list snd fst].
  apply wp_bind, wp_put_tab, wp_ret. cbn [fst snd]. apply wp_bind, wp_upd_tab. apply wp_bind. unfold create_user_directory.
  apply wp_bind. eapply wp_mono; [apply (kmalloc_law 1); [by eapply heap_ready_table|by left]|].
  intros d [m1 [t1 x1]] (Hr1 & Ht1 & Hx1 & Hd & Hdk & Hdp & Hnone & Hsome & _ & Hfresh & Hptr & Harr & _). cbn [fst snd] in *. subst t1.
  assert (Hd0 : d ≠ NULL) by (destruct Hd as (Hd & _); unfold NULL, USER_TOP in *; lia). rewrite decide_False by done.
  apply wp_bind, wp_modify, wp_ret. cbn [fst snd]. apply wp_bind, wp_gets. apply wp_bind, wp_put_tab.
  destruct (kernel_directory _ _ Hr) as (Hkk & K & HK & HlenK & HFK). cbn in Hkk, HK.
  set (m2 := set_arrays (<[d := fresh_words d x1]> (arrays m1)) m1). set (p := kheap_physical_address d _).
  assert (Hinit : ∀ y (Q : option Z → St → Prop), (∀ kst m' x' D', heap_pages kst KERNEL_STACK_SIZE → not_present kst m' → cpu_proc x' = cpu_proc x →
    allocated d x' → arrays m' !! d = Some D' → first_directory K p D' → ptr_page_directory m' = ptr_page_directory m →
    (∀ a, a ∉ kernel_tables → a ≠ d → arrays m' !! a = arrays m !! a) →
    Q (Some e) (m', (tab (initialized y d p kst pa) F (all_words kst W), x'))) →
    wp (initialize_environment e d p ;; mret (Some e)) Q (m2, (tab y (e :: F) W, x1))).
  { intros y Q' HQ'. apply wp_bind. eapply (wp_initialize_environment y (e :: F) W m2 x1 (fresh_words d x1) K pa d p);
      [|done| |done|by left|cbn; apply lookup_insert_eq|done| |by rewrite Hx1|].
    - unfold m2. eapply (heap_ready_frame _ m1); [|exact Hr1]. intros a Ha. apply lookup_insert_ne. intros <-. destruct Ha as [|Ha]; [done|].
      rewrite Hptr in Ha. done.
    - cbn. by rewrite Hptr.
    - cbn. rewrite Hptr, lookup_insert_ne by done. by rewrite Harr.
    - intros kst m' x' D' Hk Hnp Hc Hal HD' Hfirst Hp' Ha'. apply wp_ret. rewrite l_remove_hd_eq by done. apply HQ' with D'; try done.
      + by rewrite Hc, Hx1.
      + by apply Hal.
      + rewrite Hp'. cbn. done.
      + intros a Ha Had. rewrite Ha' by done. cbn. rewrite lookup_insert_ne by done. by apply Harr. }
  unfold named in HQ. destruct lru; cbn [when].
  - apply wp_bind, wp_bind, wp_put_tab, wp_put_tab. apply wp_bind, wp_put_tab. apply Hinit. intros. eapply HQ; done.
  - apply wp_bind, wp_ret. apply wp_bind, wp_put_tab. apply Hinit. intros. eapply HQ; done.
Qed.
End execution.

Lemma tab_id (t : env_table) e x : envs t !! Z.to_nat e = Some x → env_lock t = false →
  t = ETAB (<[Z.to_nat e := x]> (envs t)) (env_free_list t) false (kwords t).
Proof. intros Hx Hl. rewrite list_insert_id by done. destruct t; cbn in *. by subst. Qed.
(** The effect of a creation on the table alone. *)
Definition created (e : Z) (x' : Env) (F : list Z) (W : gmap Z Z) (t : env_table) : env_table :=
  ETAB (<[Z.to_nat e := x']> (envs t)) F false W.
Lemma free_slot t e F : table_inv t → env_free_list t = e :: F →
  0 ≤ e < 708 ∧ e ∉ F ∧ ∃ x, envs t !! Z.to_nat e = Some x ∧ status x = Sched.ENV_FREE ∧ number x = 0.
Proof.
  intros HI HF. destruct (proj1 (ti_free t HI e)) as (He & x & Hx & Hs); [rewrite HF; by left|].
  pose proof (lookup_lt_Some _ _ _ Hx) as Hlt. rewrite (ti_len t HI) in Hlt. pose proof (ti_nodup t HI) as Hnd. rewrite HF in Hnd.
  apply NoDup_cons in Hnd as [? _]. split_and!; [lia|lia|done|]. exists x. split_and!; [done|done|].
  rewrite (ti_id t HI _ _ Hx). by rewrite decide_True.
Qed.
Lemma created_inv t e F x' W : table_inv t → env_free_list t = e :: F → status x' ≠ Sched.ENV_FREE → number x' = 2048 + e →
  table_inv (created e x' F W t).
Proof.
  intros HI HF Hst Hnum. destruct (free_slot t e F HI HF) as (He & HeF & x & Hx & Hs & _). pose proof (lookup_lt_Some _ _ _ Hx) as Hlt.
  split; cbn.
  - by rewrite length_insert, (ti_len t HI).
  - pose proof (ti_nodup t HI) as Hnd. rewrite HF in Hnd. by apply NoDup_cons in Hnd as [_ ?].
  - intros i. split.
    + intros Hi. assert (i ≠ e) by (by intros ->). destruct (proj1 (ti_free t HI i)) as (Hi0 & y & Hy & Hsy); [rewrite HF; by right|].
      split; [done|]. exists y. by rewrite list_lookup_insert_ne by lia.
    + intros (Hi0 & y & Hy & Hsy). destruct (decide (i = e)) as [->|Hne].
      * rewrite list_lookup_insert_eq in Hy by done. congruence.
      * rewrite list_lookup_insert_ne in Hy by lia. assert (Hin : i ∈ env_free_list t) by (apply (ti_free t HI); split; [done|by exists y]).
        rewrite HF in Hin. by apply elem_of_cons in Hin as [|].
  - intros i y Hy. destruct (decide (i = Z.to_nat e)) as [->|Hne].
    + rewrite list_lookup_insert_eq in Hy by done. injection Hy as <-. rewrite decide_False by done. lia.
    + rewrite list_lookup_insert_ne in Hy by done. by apply (ti_id t HI).
Qed.
Lemma first_number e : 0 ≤ e < 708 → Z.lor (next_generation 0) e = 2048 + e.
Proof. intros He. change (next_generation 0) with 2048. apply lor_index; [by exists 2|lia]. Qed.

(** C38: A new environment is in the first free slot, with the number of that slot,
    the running process as its parent, status ENV_NEW and empty working set. Its
    address space is a fresh page directory with nothing in the user's half and the
    kernel's entries in the other; its kernel stack has a page that is not present
    below it, and at its top a context that leads through [env_start] and [trapret]
    to user mode with an empty frame. Other environments, directories and words are
    not changed. *)
Theorem new_environment_correct lru name ws lrusz pct s e F x0 pa :
  heap_ready 2 s → table_inv s.2.1 → env_lock s.2.1 = false → env_free_list s.2.1 = e :: F → has_env e x0 s → parent s pa →
  (∀ c, cpu_proc s.2.2 = Some c → live s.2.1 c) →
  wp (new_environment lru name ws lrusz pct) (λ r s', r = Some e ∧ ∃ d K D' p kst x' W,
    s'.2.1 = created e x' F W s.2.1 ∧ started (named lru name ws lrusz pct x0) x' e d p kst pa ∧ number x' = 2048 + e ∧
    heap_pages d PAGE_SIZE ∧ ¬ allocated d s.2.2 ∧ allocated d s'.2.2 ∧ arrays s'.1 !! d = Some D' ∧
    arrays s.1 !! ptr_page_directory s.1 = Some K ∧ first_directory K p D' ∧
    heap_pages kst KERNEL_STACK_SIZE ∧ not_present kst s'.1 ∧ first_words kst (kwords s.2.1) W ∧
    ptr_page_directory s'.1 = ptr_page_directory s.1 ∧ cpu_proc s'.2.2 = cpu_proc s.2.2 ∧
    (∀ a, a ∉ kernel_tables → a ≠ d → arrays s'.1 !! a = arrays s.1 !! a)) s.
Proof.
  destruct s as [m [t x]]. cbn [fst snd]. intros Hr HI Hl HF Hx Hpa Hrun. unfold has_env in Hx. cbn in Hx.
  destruct (free_slot t e F HI HF) as (He & HeF & x1 & Hx1 & Hs & Hnum). assert (x1 = x0) as -> by congruence.
  pose proof (lookup_lt_Some _ _ _ Hx) as Hlt. match goal with |- wp _ ?P _ => set (Post := P) end.
  pose proof (tab_id t e x0 Hx Hl) as Ht. rewrite HF in Ht. rewrite Ht in Hr. rewrite Ht. clear Ht. unfold Post; clear Post.
  eapply (wp_new_environment e (envs t) Hlt lru name ws lrusz pct x0 F (kwords t) m x pa); [done|lia|done| |].
  { unfold parent in Hpa. cbn in Hpa, Hrun. destruct (cpu_proc x) as [c|]; [|done]. destruct Hpa as (xc & Hxc & Hpa). exists xc.
    destruct (Hrun c eq_refl) as (Hc0 & xc' & Hxc' & Hne). unfold has_env in Hxc. cbn in Hxc. split_and!; try done. congruence. }
  intros d K kst m' x' D' p Hd Hk Hnp Hc Hnone Hsome HD' HK Hfirst Hptr Harr. cbn [fst snd]. split; [done|].
  exists d, K, D', p, kst. eexists _, _.
  assert (Hst : started (named lru name ws lrusz pct x0) (initialized e (named lru name ws lrusz pct x0) d p kst pa) e d p kst pa) by (by apply initialized_started).
  split; [reflexivity|]. split_and!; try done.
  - unfold number at 1. rewrite (st_fields _ _ _ _ _ _ _ Hst). cbn [started_field].
    assert (number (named lru name ws lrusz pct x0) = number x0) as -> by (unfold named; destruct lru; reflexivity).
    rewrite Hnum. by apply first_number.
  - by eapply all_words_first.
Qed.

(** ** Histories *)
Inductive call :=
| Create (lru : bool) (name : list Z) (ws lrusz pct : Z)
| Delete (e : Z)
| SetStatus (e st : Z).
Definition run (c : call) : M St (option Z) :=
  match c with
  | Create lru name ws lrusz pct => new_environment lru name ws lrusz pct
  | Delete e => free_environment e ;; mret None
  | SetStatus e st => put_field e env_status st ;; mret None
  end.
(** Only a live environment is deleted or changes its status; the process that
    creates another is live. *)
Definition allowed (c : call) s : Prop :=
  match c with
  | Create _ _ _ _ _ => heap_ready 2 s ∧ ∀ c, cpu_proc s.2.2 = Some c → live s.2.1 c
  | Delete e => live s.2.1 e
  | SetStatus e st => live s.2.1 e ∧ st ≠ Sched.ENV_FREE
  end.
Definition effect (c : call) s (r : option Z) s' : Prop :=
  match c with
  | Create _ _ _ _ _ =>
      match env_free_list s.2.1 with
      | [] => r = None ∧ s' = s
      | e :: _ => r = Some e ∧ ¬ live s.2.1 e ∧ ∀ i, live s'.2.1 i ↔ i = e ∨ live s.2.1 i
      end
  | Delete e => ∀ i, live s'.2.1 i ↔ i ≠ e ∧ live s.2.1 i
  | SetStatus e st => ∀ i, live s'.2.1 i ↔ live s.2.1 i
  end.
Definition table_ok s : Prop := table_inv s.2.1 ∧ env_lock s.2.1 = false.
(** The states of the system: start-up, these calls, and whatever the rest of the
    kernel does to the rest of the state; [gone]: the slots from which an environment
    was deleted. *)
Definition deleted (c : call) : gset Z := match c with Delete e => {[e]} | _ => ∅ end.
Inductive reachable : gset Z → St → Prop :=
| r_init s s' : length (envs s.2.1) = 708%nat → env_free_list s.2.1 = [] → env_init s = Ok () s' → reachable ∅ s'
| r_call gone c r s s' : reachable gone s → allowed c s → run c s = Ok r s' → reachable (deleted c ∪ gone) s'
| r_other gone s s' : reachable gone s → s'.2.1 = s.2.1 → reachable gone s'.

Lemma live_free t i : table_inv t → 0 ≤ i < 708 → live t i ↔ i ∉ env_free_list t.
Proof.
  intros HI Hi. rewrite (ti_free t HI). destruct (lookup_lt_is_Some_2 (envs t) (Z.to_nat i)) as [x Hx]; [rewrite (ti_len t HI); lia|].
  unfold live. rewrite Hx. split.
  - intros (_ & y & [= <-] & Hne) (_ & z & [= <-] & Heq). done.
  - intros Hn. split; [lia|]. exists x. split; [done|]. intros Heq. apply Hn. split; [lia|]. by exists x.
Qed.
Lemma live_range t i : table_inv t → live t i → 0 ≤ i < 708.
Proof. intros HI (Hi & x & Hx & _). pose proof (lookup_lt_Some _ _ _ Hx) as Hlt. rewrite (ti_len t HI) in Hlt. lia. Qed.
(** Membership in the free list decides who is live. *)
Lemma live_change t t' (P : Z → Prop) : table_inv t → table_inv t' → (∀ i, P i → 0 ≤ i < 708) →
  (∀ i, 0 ≤ i < 708 → i ∉ env_free_list t' ↔ P i) → ∀ i, live t' i ↔ P i.
Proof.
  intros HI HI' HP Hf i. split.
  - intros Hl. pose proof (live_range t' i HI' Hl) as Hi. apply Hf; [done|]. by apply (live_free t').
  - intros Hp. pose proof (HP i Hp) as Hi. apply (live_free t'); [done|done|]. by apply Hf.
Qed.
Lemma status_inv t e x x' : table_inv t → envs t !! Z.to_nat e = Some x → 0 ≤ e → status x ≠ Sched.ENV_FREE → status x' ≠ Sched.ENV_FREE → number x' = number x →
  table_inv (set_envs (<[Z.to_nat e := x']> (envs t)) t).
Proof.
  intros HI Hx He Hs Hs' Hn. pose proof (lookup_lt_Some _ _ _ Hx) as Hlt. split; cbn.
  - by rewrite length_insert, (ti_len t HI).
  - apply HI.
  - intros i. rewrite (ti_free t HI). split; intros (Hi & y & Hy & Hsy); (split; [done|]).
    + assert (i ≠ e) by congruence. exists y. by rewrite list_lookup_insert_ne by lia.
    + destruct (decide (i = e)) as [->|Hne]; [rewrite list_lookup_insert_eq in Hy by done; congruence|].
      rewrite list_lookup_insert_ne in Hy by lia. by exists y.
  - intros i y Hy. destruct (decide (i = Z.to_nat e)) as [->|Hne].
    + rewrite list_lookup_insert_eq in Hy by done. injection Hy as <-. rewrite decide_False by done. rewrite Hn, (ti_id t HI _ _ Hx), decide_False by done. lia.
    + rewrite list_lookup_insert_ne in Hy by done. by apply (ti_id t HI).
Qed.
Lemma freed_inv t e x x' : table_inv t → envs t !! Z.to_nat e = Some x → 0 ≤ e → status x ≠ Sched.ENV_FREE → status x' = Sched.ENV_FREE → number x' = 0 →
  table_inv (set_env_free_list (e :: env_free_list t) (set_envs (<[Z.to_nat e := x']> (envs t)) t)).
Proof.
  intros HI Hx He Hs Hs' Hn. pose proof (lookup_lt_Some _ _ _ Hx) as Hlt. split; cbn.
  - by rewrite length_insert, (ti_len t HI).
  - apply NoDup_cons. split; [|apply HI]. rewrite (ti_free t HI). intros (_ & y & Hy & Hsy). congruence.
  - intros i. rewrite elem_of_cons, (ti_free t HI). split.
    + intros [->|(Hi & y & Hy & Hsy)]; (split; [done|]).
      * exists x'. by rewrite list_lookup_insert_eq.
      * assert (i ≠ e) by congruence. exists y. by rewrite list_lookup_insert_ne by lia.
    + intros (Hi & y & Hy & Hsy). destruct (decide (i = e)) as [->|Hne]; [by left|]. right. split; [done|].
      rewrite list_lookup_insert_ne in Hy by lia. by exists y.
  - intros i y Hy. destruct (decide (i = Z.to_nat e)) as [->|Hne].
    + rewrite list_lookup_insert_eq in Hy by done. injection Hy as <-. by rewrite decide_True.
    + rewrite list_lookup_insert_ne in Hy by done. by apply (ti_id t HI).
Qed.

(** The slots from [n] on are free. *)
Definition freed_from (n : Z) (t : env_table) : Prop :=
  length (envs t) = 708%nat ∧ env_lock t = false ∧ env_free_list t = seqZ n (708 - n) ∧
  ∀ i x, envs t !! i = Some x → n ≤ Z.of_nat i → status x = Sched.ENV_FREE ∧ number x = 0.
Lemma freed_all t : freed_from 0 t → table_inv t.
Proof.
  intros (Hlen & _ & HF & Hs). split; [done|rewrite HF; apply NoDup_seqZ| |].
  - intros i. rewrite HF, elem_of_seqZ. split.
    + intros Hi. destruct (lookup_lt_is_Some_2 (envs t) (Z.to_nat i)) as [x Hx]; [lia|]. split; [lia|]. exists x. split; [done|]. by eapply Hs; [|lia].
    + intros (Hi & x & Hx & _). pose proof (lookup_lt_Some _ _ _ Hx). lia.
  - intros i x Hx. destruct (Hs i x Hx) as [Hst Hn]; [lia|]. by rewrite Hst, decide_True.
Qed.
Lemma wp_env_init s (Q : unit → St → Prop) : length (envs s.2.1) = 708%nat → env_free_list s.2.1 = [] →
  (∀ t', freed_from 0 t' → Q () (s.1, (t', s.2.2))) → wp env_init Q s.
Proof.
  destruct s as [m [t x]]. cbn [fst snd]. intros Hlen HF HQ. unfold env_init. apply wp_bind, wp_tset. unfold upd_table. cbn [fst snd].
  assert (H0 : freed_from 708 (set_env_lock false t)).
  { split_and!; [done|done|done|]. intros i y Hy Hi. pose proof (lookup_lt_Some _ _ _ Hy) as Hlt. cbn in Hlt. lia. }
  assert (Hn : 0 ≤ NENV ≤ 708) by (rewrite NENV_val; lia). change 708 with NENV in H0. revert H0 Hn.
  generalize (set_env_lock false t). generalize NENV. intros n t1 H0 Hn. clear t Hlen HF. revert n Hn t1 H0.
  intros n Hn. assert (Hpos : 0 ≤ n) by lia. revert Hn. pattern n. apply natlike_ind; [| |done]; clear n Hpos.
  - intros _ t1 H0. cbn. apply wp_ret. by apply HQ.
  - intros n Hn0 IH Hn t1 (Hlen & Hl & HF & Hs). assert (rev (seqZ 0 (Z.succ n)) = n :: rev (seqZ 0 n)) as ->.
    { rewrite <- (Z.add_1_r n), seqZ_app by lia. rewrite rev_app_distr. done. }
    cbn [mfor]. destruct (lookup_lt_is_Some_2 (envs t1) (Z.to_nat n)) as [y Hy]; [lia|].
    assert (Hin : n ∉ env_free_list t1) by (rewrite HF, elem_of_seqZ; lia).
    apply wp_bind, wp_bind. eapply wp_put_field; [exact Hy|]. apply wp_bind. eapply wp_put_field; [eapply (has_put_env n y); exact Hy|].
    rewrite put_put_env. apply wp_bind, wp_tget. unfold put_env, upd_table. cbn [fst snd set_envs env_free_list].
    apply wp_bind. unfold wp at 1. rewrite lq_insert_head_run by done. apply wp_tset. unfold upd_table. cbn [fst snd].
    apply IH; [lia|]. split_and!; cbn; [by rewrite length_insert|done| |].
    + rewrite HF, (seqZ_cons n (708 - n)) by lia. do 2 f_equal. lia.
    + intros i z Hz Hi. destruct (decide (i = Z.to_nat n)) as [->|Hne].
      * rewrite list_lookup_insert_eq in Hz by lia. injection Hz as <-. done.
      * rewrite list_lookup_insert_ne in Hz by done. apply (Hs i); [done|lia].
Qed.
Lemma env_call_correct c s : table_ok s → allowed c s → wp (run c) (λ r s', table_ok s' ∧ effect c s r s') s.
Proof.
  intros [HI Hl] Ha. destruct c as [lru name ws lrusz pct|e|e st]; cbn [run allowed effect] in *.
  - destruct Ha as [Hr Hrun]. destruct (env_free_list s.2.1) as [|e F] eqn:HF.
    + unfold new_environment, allocate_environment. apply wp_bind, wp_bind, wp_tget. rewrite HF. apply wp_ret, wp_ret. done.
    + destruct (free_slot _ e F HI HF) as (He & HeF & x0 & Hx0 & Hs & Hnum).
      assert (∃ pa, parent s pa) as [pa Hpa].
      { unfold parent. destruct (cpu_proc s.2.2) as [c|]; [|by exists 0]. destruct (Hrun c eq_refl) as (_ & xc & Hxc & _). by exists (number xc), xc. }
      eapply wp_mono; [by eapply (new_environment_correct lru name ws lrusz pct s e F x0 pa)|].
      intros r s' (-> & d & K & D' & p & kst & x' & W & Ht & Hst & Hnum' & _).
      assert (Hs' : status x' ≠ Sched.ENV_FREE) by (unfold status; by rewrite (st_fields _ _ _ _ _ _ _ Hst)).
      assert (HI' : table_inv s'.2.1) by (rewrite Ht; by apply created_inv).
      assert (Hin : e ∈ env_free_list s.2.1) by (rewrite HF; by left).
      split; [split; [done|by rewrite Ht]|]. split; [done|]. split; [by rewrite (live_free s.2.1) by done; intros ?|].
      apply (live_change s.2.1); [done|done| |].
      * intros i [->|Hi]; [done|by apply (live_range s.2.1)].
      * intros i Hi. rewrite (live_free s.2.1) by done. rewrite Ht, HF. cbn. destruct (decide (i = e)) as [->|Hne]; [tauto|]. set_solver.
  - destruct Ha as (He & x & Hx & Hs). unfold free_environment. apply wp_bind, wp_bind. eapply wp_env_slot_update; [exact Hx|].
    apply wp_bind. eapply wp_put_field; [by eapply has_put_env|]. rewrite put_put_env. apply wp_bind, wp_tget.
    unfold put_env, upd_table. cbn [fst snd set_envs env_free_list]. apply wp_bind. unfold wp at 1.
    assert (Hni : e ∉ env_free_list s.2.1) by (rewrite (ti_free _ HI); intros (_ & y & Hy & Hsy); congruence).
    rewrite lq_insert_head_run by done. apply wp_tset, wp_ret. unfold upd_table. cbn [fst snd].
    pose proof (freed_inv s.2.1 e x (set_field env_status Sched.ENV_FREE zero_env) HI Hx He Hs eq_refl eq_refl) as HI'.
    split; [split; [exact HI'|done]|]. apply (live_change s.2.1); [done|exact HI'| |].
    + intros i [_ Hi]. by apply (live_range s.2.1).
    + intros i Hi. rewrite (live_free s.2.1) by done. cbn. rewrite not_elem_of_cons. done.
  - destruct Ha as [(He & x & Hx & Hs) Hst]. apply wp_bind. eapply wp_put_field; [exact Hx|]. apply wp_ret.
    pose proof (status_inv s.2.1 e x (set_field env_status st x) HI Hx He Hs Hst eq_refl) as HI'.
    split; [split; [exact HI'|done]|]. apply (live_change s.2.1); [done|exact HI'| |].
    + intros i Hi. by apply (live_range s.2.1).
    + intros i Hi. by rewrite (live_free s.2.1).
Qed.
(** The live environment with number [id], if there is one. *)
Definition found (id : Z) (t : env_table) : Z * option Z :=
  if decide (2048 ≤ id < 2756 ∧ id - 2048 ∉ env_free_list t) then (0, Some (id - 2048)) else (E_BAD_ENV, None).
Lemma envid2env_run id s : table_inv s.2.1 → 0 < id < 2147483648 → ENVX id < NENV →
  wp (envid2env id false) (λ r s', s' = s ∧ r = found id s.2.1) s.
Proof.
  intros HI Hid Hx. rewrite NENV_val in Hx. unfold envid2env. rewrite decide_False by lia. rewrite ENVX_mod in *.
  pose proof (Z.mod_pos_bound id 1024 ltac:(lia)) as Hm. set (e := id `mod` 1024) in *.
  destruct (lookup_lt_is_Some_2 (envs s.2.1) (Z.to_nat e)) as [x Hxe]; [rewrite (ti_len _ HI); lia|].
  apply wp_bind. eapply wp_get_field; [exact Hxe|]. apply wp_bind. eapply wp_get_field; [exact Hxe|].
  pose proof (ti_id _ HI _ _ Hxe) as Hn. unfold found. fold (status x) (number x).
  assert (Hfree : e ∈ env_free_list s.2.1 ↔ status x = Sched.ENV_FREE).
  { rewrite (ti_free _ HI). split; [intros (_ & y & Hy & ?); congruence|]. intros ?. split; [lia|]. by exists x. }
  destruct (decide (status x = Sched.ENV_FREE ∨ number x ≠ id)) as [Hbad|Hgood].
  - apply wp_ret. split; [done|]. rewrite decide_False; [done|]. intros [Hr Hni].
    assert (e = id - 2048) as Heq by (unfold e; symmetry; apply (Z.mod_unique_pos _ _ 2); lia).
    rewrite <- Heq, Hfree in Hni. rewrite decide_False in Hn by done. destruct Hbad as [|Hbad]; [done|]. apply Hbad. lia.
  - apply wp_bind, wp_gets. apply wp_ret. split; [done|].
    assert (status x ≠ Sched.ENV_FREE) as Hs by tauto. assert (number x = id) as Hnum by (destruct (decide (number x = id)); tauto).
    rewrite decide_False in Hn by done. rewrite decide_True; [do 2 f_equal; lia|]. split; [lia|].
    replace (id - 2048) with e by lia. by rewrite Hfree.
Qed.
Lemma reachable_ok gone s : reachable gone s → table_ok s.
Proof.
  induction 1 as [s s' Hlen HF Hrun|gone c r s s' Hr IH Ha Hrun|gone s s' Hr IH Heq].
  - assert (wp env_init (λ _ s', table_ok s') s) as Hwp.
    { apply wp_env_init; [done|done|]. intros t' Ht. split; [by apply freed_all|by destruct Ht as (_ & ? & _)]. }
    unfold wp in Hwp. by rewrite Hrun in Hwp.
  - pose proof (env_call_correct c s IH Ha) as Hwp. unfold wp in Hwp. rewrite Hrun in Hwp. by destruct Hwp.
  - unfold table_ok in *. by rewrite Heq.
Qed.

(** [e] may be found for the number [id]: it is live and has the number; with
    [checkperm] it is the running environment or a child of it. *)
Definition permitted (e : Z) s : Prop := ∃ c, cpu_proc s.2.2 = Some c ∧
  (e = c ∨ ∃ x y, has_env e x s ∧ has_env c y s ∧ fields x env_parent_id = number y).
Definition names (id : Z) (checkperm : bool) (e : Z) s : Prop :=
  live s.2.1 e ∧ (∃ x, has_env e x s ∧ number x = id) ∧ (checkperm = true → permitted e s).
Definition found_or_refused (id : Z) (checkperm : bool) s (r : Z * option Z) : Prop :=
  match r.2 with
  | Some e => r.1 = 0 ∧ names id checkperm e s
  | None => r.1 = E_BAD_ENV ∧ ∀ e, ¬ names id checkperm e s
  end.
Lemma live_number i x s : table_inv s.2.1 → live s.2.1 i → has_env i x s → number x = 2048 + i.
Proof.
  intros HI (Hi & y & Hy & Hne) Hx. unfold has_env in Hx. assert (y = x) as -> by congruence.
  rewrite (ti_id _ HI _ _ Hx), decide_False by done. lia.
Qed.
Lemma envid2env_found id checkperm s : table_inv s.2.1 → id ≠ 0 → ENVX id < NENV →
  (checkperm = true → ∃ c, cpu_proc s.2.2 = Some c ∧ live s.2.1 c) →
  wp (envid2env id checkperm) (λ r s', s' = s ∧ found_or_refused id checkperm s r) s.
Proof.
  intros HI Hid Hx Hcur. rewrite NENV_val in Hx. unfold envid2env. rewrite decide_False by lia. rewrite ENVX_mod in *.
  pose proof (Z.mod_pos_bound id 1024 ltac:(lia)) as Hm. set (e := id `mod` 1024) in *.
  destruct (lookup_lt_is_Some_2 (envs s.2.1) (Z.to_nat e)) as [x Hxe]; [rewrite (ti_len _ HI); lia|].
  apply wp_bind. eapply wp_get_field; [exact Hxe|]. apply wp_bind. eapply wp_get_field; [exact Hxe|]. fold (status x) (number x).
  assert (Hslot : ∀ i y, live s.2.1 i → has_env i y s → number y = id → i = e).
  { intros i y Hl Hy Hn. pose proof (live_number i y s HI Hl Hy). pose proof (live_range _ _ HI Hl).
    unfold e. apply (Z.mod_unique_pos _ _ 2); lia. }
  destruct (decide (status x = Sched.ENV_FREE ∨ number x ≠ id)) as [Hbad|Hgood].
  { apply wp_ret. split; [done|]. split; [done|]. intros i (Hl & (y & Hy & Hn) & _).
    pose proof (Hslot i y Hl Hy Hn) as ->. assert (y = x) as -> by (unfold has_env in *; congruence).
    destruct Hl as (_ & z & Hz & Hs). destruct Hbad as [Hf|Hbad]; [congruence|done]. }
  assert (Hs : status x ≠ Sched.ENV_FREE) by tauto. assert (Hnum : number x = id) by (destruct (decide (number x = id)); tauto).
  assert (Hlive : live s.2.1 e) by (split; [lia|by exists x]).
  assert (Hyes : (checkperm = true → permitted e s) → found_or_refused id checkperm s (0, Some e)).
  { intros Hp. split; [done|]. split; [done|]. split; [by exists x|done]. }
  assert (Hno : checkperm = true → ¬ permitted e s → found_or_refused id checkperm s (E_BAD_ENV, None)).
  { intros Ht Hp. split; [done|]. intros i (Hl & (y & Hy & Hn) & Hpi). apply Hp. rewrite <- (Hslot i y Hl Hy Hn). by apply Hpi. }
  apply wp_bind, wp_gets. destruct checkperm; [|apply wp_ret; split; [done|by apply Hyes]].
  destruct (Hcur eq_refl) as (c & Hc & Hcl & y & Hy & _). rewrite Hc. cbn [andb]. case_bool_decide as Hec.
  - apply wp_bind. eapply wp_get_field; [exact Hxe|]. apply wp_bind, (wp_unwrap _ c); [done|]. apply wp_bind. eapply wp_get_field; [exact Hy|].
    fold (number y). case_decide as Hpa; apply wp_ret; (split; [done|]).
    + apply Hno; [done|]. intros (c' & Hc' & [->|(x' & y' & Hx' & Hy' & Heq)]); [congruence|].
      assert (c' = c) as -> by congruence. unfold has_env in *. congruence.
    + apply Hyes. intros _. exists c. split; [done|]. right. exists x, y. split_and!; [done|done|]. by destruct (decide (fields x env_parent_id = number y)).
  - apply wp_ret. split; [done|]. apply Hyes. intros _. exists c. split; [done|]. left. congruence.
Qed.
Lemma envid2env_outside id checkperm s : table_inv s.2.1 → id ≠ 0 → NENV ≤ ENVX id → envid2env id checkperm s = Undef.
Proof.
  intros HI Hid Hx. rewrite NENV_val in Hx. unfold envid2env. rewrite decide_False by done. apply bind_Undef. unfold get_field. apply bind_Undef.
  assert (Hn : envs s.2.1 !! Z.to_nat (ENVX id) = None) by (apply lookup_ge_None_2; rewrite (ti_len _ HI); lia).
  unfold get_env, tget, gets, mbind, M_bind. cbn. by rewrite Hn.
Qed.

(** C37: In every history of creations, deletions and changes of status each call that
    is allowed returns: a creation gives a slot that was free, or none when all 708
    are live; the live slots are those created and not deleted, and their numbers
    differ. [envid2env] gives the running environment for 0. For another number
    whose index is in the array it finds exactly the live environment with this
    number, which with [checkperm] must be the running one or a child of it, or
    returns E_BAD_ENV; this leaves out the numbers of slots that are in use again
    after a deletion, where a stale number is not told from the new one
    ([stale_number_found]). For an index of 708 to 1023 the code reads behind the
    array. *)
Theorem env_table_correct gone s : reachable gone s →
  (∀ c, allowed c s → wp (run c) (λ r s', effect c s r s') s) ∧
  (∀ i j x y, live s.2.1 i → live s.2.1 j → has_env i x s → has_env j y s → number x = number y → i = j) ∧
  (env_free_list s.2.1 = [] ↔ ∀ i, 0 ≤ i < NENV → live s.2.1 i) ∧
  (∀ checkperm, envid2env 0 checkperm s = Ok (0, cpu_proc s.2.2) s) ∧
  (∀ id checkperm, id ≠ 0 → ENVX id < NENV → ENVX id ∉ gone ∨ ¬ live s.2.1 (ENVX id) →
     (checkperm = true → ∃ c, cpu_proc s.2.2 = Some c ∧ live s.2.1 c) →
     wp (envid2env id checkperm) (λ r s', s' = s ∧ found_or_refused id checkperm s r) s) ∧
  (∀ id checkperm, id ≠ 0 → NENV ≤ ENVX id → envid2env id checkperm s = Undef).
Proof.
  intros Hr. destruct (reachable_ok gone s Hr) as [HI Hl]. split_and!.
  - intros c Ha. eapply wp_mono; [by apply env_call_correct|]. by intros r s' [_ ?].
  - intros i j x y Hi Hj Hx Hy Heq. rewrite (live_number i x s), (live_number j y s) in Heq by done. lia.
  - rewrite NENV_val. split.
    + intros HF i Hi. apply (live_free s.2.1); [done|done|]. rewrite HF. apply not_elem_of_nil.
    + intros Hall. destruct (env_free_list s.2.1) as [|e F] eqn:HF; [done|]. destruct (free_slot _ e F HI HF) as (He & _).
      pose proof (Hall e He) as Hlive. apply (live_free s.2.1) in Hlive; [|done|done]. rewrite HF in Hlive. exfalso. apply Hlive. by left.
  - done.
  - intros id checkperm Hid Hx _ Hcur. by apply envid2env_found.
  - intros id checkperm Hid Hx. by apply envid2env_outside.
Qed.
(** The number of an environment that was deleted is the number of the next one in
    its slot: [envid2env] cannot tell a stale number. *)
Theorem stale_number_found e s : table_ok s → live s.2.1 e → 
  wp (free_environment e) (λ _ s1, ∀ lru name ws lrusz pct, heap_ready 2 s1 → (∀ c, cpu_proc s1.2.2 = Some c → live s1.2.1 c) →
    wp (new_environment lru name ws lrusz pct ;; envid2env (2048 + e) false) (λ r _, r = (0, Some e)) s1) s.
Proof.
  intros [HI Hl] Hlive. pose proof Hlive as (He & x & Hx & Hs). unfold free_environment. apply wp_bind. eapply wp_env_slot_update; [exact Hx|].
  apply wp_bind. eapply wp_put_field; [by eapply has_put_env|]. rewrite put_put_env. apply wp_bind, wp_tget.
  unfold put_env, upd_table. cbn [fst snd set_envs env_free_list]. apply wp_bind. unfold wp at 1.
  assert (Hni : e ∉ env_free_list s.2.1) by (rewrite (ti_free _ HI); intros (_ & y & Hy & Hsy); congruence).
  rewrite lq_insert_head_run by done. apply wp_tset. unfold upd_table. cbn [fst snd].
  pose proof (freed_inv s.2.1 e x (set_field env_status Sched.ENV_FREE zero_env) HI Hx He Hs eq_refl eq_refl) as HI'.
  intros lru name ws lrusz pct Hr Hrun. set (s1 := (s.1, _)) in *.
  pose proof (live_range _ _ HI Hlive) as Hrange.
  apply wp_bind. eapply wp_mono; [apply (env_call_correct (Create lru name ws lrusz pct) s1); [by split|done]|].
  intros r s2 [[HI2 _] Heff]. cbn in Heff. destruct Heff as (_ & _ & Hl2).
  eapply wp_mono; [apply envid2env_run; [done|lia|]|].
  { rewrite ENVX_mod, NENV_val. replace ((2048 + e) `mod` 1024) with e by (apply (Z.mod_unique_pos _ _ 2); lia). lia. }
  intros r' s3 [_ ->]. unfold found. replace (2048 + e - 2048) with e by lia. rewrite decide_True; [done|]. split; [lia|].
  apply (live_free s2.2.1); [done|done|]. apply Hl2. by left.
Qed.
End table.
