(* ===== verification/EnvTableWorld.v ===== *)
(** * The table of environments on a small machine

    A kernel heap of a few blocks mapped by one page table, as an instance of what
    the table of environments needs, and runs of the theorems of EnvTableThm.v. *)

From stdpp Require Import functions.
From S2P Require Import Prelude Queue Paging PagingSpec EnvTable EnvTableThm.

Record heap := HEAP { h_free : list Z; h_used : gset Z; h_running : option Z }.
Notation St := (mm * (env_table * heap))%type.
Definition h_kmalloc (size : Z) : M St Z := λ s,
  match h_free s.2.2 with
  | [] => Ok 0 s
  | t :: l => Ok t (s.1, (s.2.1, HEAP l ({[t]} ∪ h_used s.2.2) (h_running s.2.2)))
  end.
#[export] Instance heap_env : PageEnv (env_table * heap) := {|
  kmalloc := h_kmalloc;
  kfree _ := mret ();
  kheap_virtual_address p _ := p + 4127195136;
  kheap_physical_address t _ := t - 4127195136;
  fault_handler := panic;
  zero_page _ s := s
|}.
#[export] Instance heap_world : EnvWorld heap := {|
  cpu_proc := h_running;
  fresh_words _ _ := replicate 1024 7;
  trapret := 4027584512;
  env_start := 4027588608
|}.
(** The kernel's directory and the page table of the kernel heap, on frame 2. *)
Definition h_dir : Z := 4027580416.
Definition h_table : Z := 4026540032. (* KERNEL_BASE + 0x2000 *)
Definition h_directory : list Z := <[984%nat := 8195]> (<[960%nat := 131]> (replicate 1024 0)).
Record h_static (m : mm) : Prop := {
  hs_ptr : Paging.ptr_page_directory m = h_dir;
  hs_dir : arrays m !! h_dir = Some h_directory;
  hs_table : ∃ L, arrays m !! h_table = Some L ∧ length L = 1024%nat;
  hs_frames : number_of_frames m = 16
}.
Definition h_block (u : gset Z) (t : Z) : Prop := heap_pages t 32768 ∧ PDX t = 984 ∧ t ∉ u.
Definition h_blockb (u : gset Z) (t : Z) : bool :=
  bool_decide (USER_TOP ≤ t ∧ t + 32768 ≤ 4294967296 ∧ t `mod` 4096 = 0 ∧ PDX t = 984 ∧ t ∉ u).
Lemma h_blocks u l : forallb (h_blockb u) l = true → Forall (h_block u) l.
Proof.
  rewrite forallb_forall, Forall_forall. intros H t Ht. apply list_elem_of_In, H, bool_decide_eq_true in Ht as (? & ? & ? & ? & ?).
  split_and!; [split_and!; [done|done|by apply Z.mod_divide]|done|done].
Qed.
Lemma h_kmalloc_law n size (s : St) :
  h_static s.1 ∧ (S n ≤ length (h_free s.2.2))%nat ∧ NoDup (h_free s.2.2) ∧ Forall (h_block (h_used s.2.2)) (h_free s.2.2) →
  size = PAGE_SIZE ∨ size = KERNEL_STACK_SIZE →
  wp (h_kmalloc size) (λ t s', (h_static s'.1 ∧ (n ≤ length (h_free s'.2.2))%nat ∧ NoDup (h_free s'.2.2) ∧ Forall (h_block (h_used s'.2.2)) (h_free s'.2.2)) ∧
    s'.2.1 = s.2.1 ∧ h_running s'.2.2 = h_running s.2.2 ∧
    heap_pages t size ∧ t ∉ ({[h_table]} : gset Z) ∧ t ≠ Paging.ptr_page_directory s.1 ∧ t ∉ h_used s.2.2 ∧ t ∈ h_used s'.2.2 ∧
    (∀ b, b ∈ h_used s.2.2 → b ∈ h_used s'.2.2) ∧ length (replicate 1024 7) = 1024%nat ∧
    Paging.ptr_page_directory s'.1 = Paging.ptr_page_directory s.1 ∧ (∀ a, a ∉ ({[h_table]} : gset Z) → arrays s'.1 !! a = arrays s.1 !! a) ∧
    ∃ kt, kt ∈ ({[h_table]} : gset Z) ∧ kernel_table t kt s'.1) s.
Proof.
  destruct s as [m [t [fr us ru]]]. cbn. intros (Hst & Hlen & Hnd & Hall) Hsize. unfold h_kmalloc, wp. cbn.
  destruct fr as [|b l]; [cbn in Hlen; lia|]. cbn in *. apply NoDup_cons in Hnd as [Hb Hnd]. apply Forall_cons in Hall as [(Hp & Hpd & Hu) Hall].
  destruct Hp as (H1 & H2 & H3). change USER_TOP with 4005560320 in H1.
  assert (Hbt : b ≠ h_table ∧ b ≠ h_dir) by (split; intros ->; by vm_compute in Hpd). destruct Hbt as [Hbt Hbd].
  assert (Hus : b ∉ us ∧ b ∈ ({[b]} ∪ us : gset Z) ∧ ∀ c, c ∈ us → c ∈ ({[b]} ∪ us : gset Z)) by set_solver. destruct Hus as (Hu1 & Hu2 & Hu3).
  split_and!; [done|lia|done| |done|done| |by rewrite elem_of_singleton| |done|done|done|done|done|done|].
  - apply Forall_forall. intros c Hc. rewrite Forall_forall in Hall. destruct (Hall c Hc) as (? & ? & ?). split_and!; [done|done|].
    assert (c ≠ b) by (by intros ->). set_solver.
  - split_and!; [done| |done]. change PAGE_SIZE with 4096 in Hsize. change KERNEL_STACK_SIZE with 32768 in Hsize. lia.
  - by rewrite (hs_ptr m Hst).
  - exists h_table. split; [set_solver|]. destruct (hs_table m Hst) as (L & HL & HlenL). exists h_directory, 8195, L.
    rewrite Hpd, (hs_ptr m Hst). split_and!; try done; [apply Hst|].
    rewrite (hs_frames m Hst). by vm_compute.
Qed.
#[export] Instance heap_laws : EnvLaws heap.
Proof.
  refine {| kernel_tables := {[h_table]};
    heap_ready n s := h_static s.1 ∧ (n ≤ length (h_free s.2.2))%nat ∧ NoDup (h_free s.2.2) ∧ Forall (h_block (h_used s.2.2)) (h_free s.2.2);
    allocated b x := b ∈ h_used x |}.
  - intros n m A t t' x Ha [[Hp Hd (L & HL & Hlen) Hf] Hr]. split; [|exact Hr]. cbn [fst] in *. split; cbn [arrays set_arrays Paging.ptr_page_directory].
    + done.
    + rewrite <- Hd. apply Ha. right. by rewrite Hp.
    + exists L. split; [|done]. rewrite <- HL. apply Ha. left. set_solver.
    + done.
  - intros n s [Hst _]. rewrite (hs_ptr _ Hst). split.
    + rewrite elem_of_singleton. by vm_compute.
    + exists h_directory. split_and!; [apply Hst|done|]. apply (bool_decide_unpack _). by vm_compute.
  - apply h_kmalloc_law.
  - by vm_compute.
Defined.

(** A machine at start-up, after it, and with environment 0 created. *)
Definition w_mm : mm :=
  MM (replicate 16 zero_frame) [] [] false (<[h_dir := h_directory]> (<[h_table := replicate 1024 3]> ∅)) h_dir 0.
Definition w_heap : heap := HEAP [4127195136; 4127232000; 4127268864; 4127305728] ∅ None.
Definition w_start : St := (w_mm, (ETAB (replicate 708 zero_env) [] true ∅, w_heap)).
Definition w_name : list Z := [102; 111; 115].
Definition final {A} (r : result St A) : St := match r with Ok _ s => s | _ => w_start end.
Definition w_booted : St := final (env_init w_start).
Definition w_one : St := final (run (Create false w_name 10 0 0) w_booted).
Lemma final_Ok {A} (c : M St A) (Q : A → St → Prop) s : wp c Q s → ∃ a, c s = Ok a (final (c s)) ∧ Q a (final (c s)).
Proof. unfold wp. intros H. destruct (c s); [by exists a|done..]. Qed.
Lemma booted : reachable ∅ w_booted ∧ w_booted.1 = w_mm ∧ w_booted.2.2 = w_heap ∧ freed_from 0 w_booted.2.1.
Proof.
  assert (wp env_init (λ _ s', s'.1 = w_mm ∧ s'.2.2 = w_heap ∧ freed_from 0 s'.2.1) w_start) as Hwp.
  { apply wp_env_init; [apply length_replicate|reflexivity|]. intros t' Ht. done. }
  destruct (final_Ok _ _ _ Hwp) as ([] & Hrun & Hres). split; [|exact Hres].
  unfold w_booted. refine (r_init w_start _ _ _ Hrun); [apply length_replicate|reflexivity].
Qed.
Lemma booted_ready : heap_ready 2 w_booted.
Proof.
  destruct booted as (_ & H1 & H2 & _). split_and!; rewrite ?H1, ?H2; [split| | |].
  - reflexivity.
  - by vm_compute.
  - eexists. split; [by vm_compute|reflexivity].
  - by vm_compute.
  - cbn. lia.
  - apply (bool_decide_unpack _). by vm_compute.
  - apply h_blocks. by vm_compute.
Qed.
Lemma booted_idle : ∀ c, cpu_proc w_booted.2.2 = Some c → live w_booted.2.1 c.
Proof. destruct booted as (_ & _ & H2 & _). intros c Hc. rewrite H2 in Hc. discriminate Hc. Qed.
Lemma create_first gone lru name ws lrusz pct s e F : let s' := final (run (Create lru name ws lrusz pct) s) in
  reachable gone s → allowed (Create lru name ws lrusz pct) s → env_free_list s.2.1 = e :: F →
  reachable (∅ ∪ gone) s' ∧ ∀ i, live s'.2.1 i ↔ i = e ∨ live s.2.1 i.
Proof.
  cbv zeta. intros Hs Ha HF. destruct (final_Ok _ _ _ (env_call_correct _ s (reachable_ok _ _ Hs) Ha)) as (r & Hrun & _ & Heff).
  split; [exact (r_call gone _ r s _ Hs Ha Hrun)|]. cbn [effect] in Heff. rewrite HF in Heff. by destruct Heff as (_ & _ & ?).
Qed.
Lemma booted_free : env_free_list w_booted.2.1 = 0 :: seqZ 1 707.
Proof. destruct booted as (_ & _ & _ & (_ & _ & HF & _)). exact HF. Qed.
Lemma one_created : reachable (∅ ∪ ∅) w_one ∧ ∀ i, live w_one.2.1 i ↔ i = 0 ∨ live w_booted.2.1 i.
Proof. exact (create_first ∅ false w_name 10 0 0 w_booted 0 (seqZ 1 707) (proj1 booted) (conj booted_ready booted_idle) booted_free). Qed.

(** The first slot at start-up. *)
Definition w_slot : Env := default zero_env (envs w_booted.2.1 !! Z.to_nat 0).
Lemma default_slot (o : option Env) x : o = Some x → o = Some (default zero_env o).
Proof. by intros ->. Qed.
Lemma new_environment_correct_witness :
  wp (new_environment false w_name 10 0 0) (λ r s', r = Some 0 ∧ ∃ d K D' p kst x' W,
    s'.2.1 = created 0 x' (seqZ 1 707) W w_booted.2.1 ∧ started (named false w_name 10 0 0 w_slot) x' 0 d p kst 0 ∧ number x' = 2048 + 0 ∧
    heap_pages d PAGE_SIZE ∧ ¬ allocated d w_booted.2.2 ∧ allocated d s'.2.2 ∧ arrays s'.1 !! d = Some D' ∧
    arrays w_booted.1 !! Paging.ptr_page_directory w_booted.1 = Some K ∧ first_directory K p D' ∧
    heap_pages kst KERNEL_STACK_SIZE ∧ not_present kst s'.1 ∧ first_words kst (kwords w_booted.2.1) W ∧
    Paging.ptr_page_directory s'.1 = Paging.ptr_page_directory w_booted.1 ∧ cpu_proc s'.2.2 = cpu_proc w_booted.2.2 ∧
    (∀ a, a ∉ kernel_tables → a ≠ d → arrays s'.1 !! a = arrays w_booted.1 !! a)) w_booted.
Proof.
  destruct booted as (Hb & _ & H2 & _). destruct (reachable_ok _ _ Hb) as [HI Hl]. pose proof booted_free as HF.
  destruct (free_slot _ 0 (seqZ 1 707) HI HF) as (_ & _ & x1 & Hx1 & _ & _).
  pose proof (default_slot _ _ Hx1) as Hslot.
  assert (Hpa : parent w_booted 0) by (unfold parent; by rewrite H2).
  exact (new_environment_correct false w_name 10 0 0 w_booted 0 (seqZ 1 707) w_slot 0 booted_ready HI Hl HF Hslot Hpa booted_idle).
Defined.
(** With environment 0 created, it can be deleted; its number finds it, another
    number of its slot is refused, and an index behind the array is an error. *)
Lemma env_table_correct_witness :
  wp (run (Delete 0)) (λ r s', ∀ i, live s'.2.1 i ↔ i ≠ 0 ∧ live w_one.2.1 i) w_one ∧
  wp (envid2env 2048 false) (λ r s', s' = w_one ∧ r = (0, Some 0)) w_one ∧
  wp (envid2env 4096 false) (λ r s', s' = w_one ∧ r = (E_BAD_ENV, None)) w_one ∧
  envid2env 1023 false w_one = Undef.
Proof.
  destruct one_created as [Hr Hone]. destruct (env_table_correct _ w_one Hr) as (Hcalls & _ & _ & _ & Hfind & Hout).
  destruct (reachable_ok _ _ Hr) as [HI _]. assert (H0 : live w_one.2.1 0) by (apply Hone; by left).
  clear Hr Hone. revert HI Hcalls Hfind Hout H0. generalize w_one. intros s HI Hcalls Hfind Hout H0. split_and!.
  - exact (Hcalls (Delete 0) H0).
  - eapply wp_mono; [apply (Hfind 2048 false); [done|by vm_compute|left; set_solver|done]|].
    intros [r [e|]] s' [-> Hres]; (split; [done|]).
    + destruct Hres as [Hrr (Hl & (x & Hx & Hn) & _)]. cbn in Hrr. pose proof (live_number e x _ HI Hl Hx). subst r. do 2 f_equal. lia.
    + exfalso. destruct Hres as [_ Hno]. pose proof H0 as (_ & x & Hx & _). apply (Hno 0).
      split_and!; [done|exists x; split; [done|by apply (live_number 0 x _ HI H0)]|done].
  - eapply wp_mono; [apply (Hfind 4096 false); [done|by vm_compute|left; set_solver|done]|].
    intros [r [e|]] s' [-> Hres]; (split; [done|]).
    + exfalso. destruct Hres as [_ (Hl & (x & Hx & Hn) & _)]. pose proof (live_number e x _ HI Hl Hx). pose proof (live_range _ _ HI Hl). lia.
    + destruct Hres as [Hrr _]. cbn in Hrr. by subst r.
  - apply Hout; [done|by vm_compute].
Defined.
