(* ===== verification/Boot.v ===== *)
(** * Start-up memory (kern/mem/boot_memory_manager.c)

    Before the frame lists exist, memory is taken from the end of the kernel on;
    the kernel's page directory and tables are made from it. The tables are those of
    Paging.v; the size of physical memory is the number of frames. Segment
    registers are not modelled. *)

From S2P Require Import Prelude Queue Paging.
From S2P Require EnvTable.

Definition NCPUS : Z := 1.
Definition UENVS : Z := EnvTable.UVPT - 2 * EnvTable.PTSIZE.
Definition sizeof_FrameInfo : Z := 24.
Definition PAGES_PER_FILE : Z := 520 * 1048576 / PAGE_SIZE.
Definition NPDENTRIES : Z := 1024.
Definition NVRAM_EXTLO : Z := 23.
Definition DEFAULT_MEM_SCARCE_PERCENTAGE : Z := 25.
Definition CR0_ON : Z := 2147811375.  (* PE PG AM WP NE TS EM MP *)
Definition CR0_OFF : Z := 12.         (* TS EM *)

Record boot := BOOT {
  ptr_free_mem : Z;
  phys_page_directory : Z;
  frames_info_at : Z;
  disk_frames_info_at : Z;
  envs_at : Z;
  cr3 : Z;
  cr0 : Z;
  memory_scarce_threshold_percentage : Z
}.
Definition set_ptr_free_mem (x : Z) (b : boot) : boot :=
  BOOT x (phys_page_directory b) (frames_info_at b) (disk_frames_info_at b) (envs_at b) (cr3 b) (cr0 b) (memory_scarce_threshold_percentage b).
Definition set_phys_page_directory (x : Z) (b : boot) : boot :=
  BOOT (ptr_free_mem b) x (frames_info_at b) (disk_frames_info_at b) (envs_at b) (cr3 b) (cr0 b) (memory_scarce_threshold_percentage b).
Definition set_frames_info (x : Z) (b : boot) : boot :=
  BOOT (ptr_free_mem b) (phys_page_directory b) x (disk_frames_info_at b) (envs_at b) (cr3 b) (cr0 b) (memory_scarce_threshold_percentage b).
Definition set_disk_frames_info (x : Z) (b : boot) : boot :=
  BOOT (ptr_free_mem b) (phys_page_directory b) (frames_info_at b) x (envs_at b) (cr3 b) (cr0 b) (memory_scarce_threshold_percentage b).
Definition set_envs (x : Z) (b : boot) : boot :=
  BOOT (ptr_free_mem b) (phys_page_directory b) (frames_info_at b) (disk_frames_info_at b) x (cr3 b) (cr0 b) (memory_scarce_threshold_percentage b).
Definition lcr3 (x : Z) (b : boot) : boot :=
  BOOT (ptr_free_mem b) (phys_page_directory b) (frames_info_at b) (disk_frames_info_at b) (envs_at b) x (cr0 b) (memory_scarce_threshold_percentage b).
Definition lcr0 (x : Z) (b : boot) : boot :=
  BOOT (ptr_free_mem b) (phys_page_directory b) (frames_info_at b) (disk_frames_info_at b) (envs_at b) (cr3 b) x (memory_scarce_threshold_percentage b).
Definition set_threshold (x : Z) (b : boot) : boot :=
  BOOT (ptr_free_mem b) (phys_page_directory b) (frames_info_at b) (disk_frames_info_at b) (envs_at b) (cr3 b) (cr0 b) x.

Section code.
Context {X : Type} {PE : PageEnv (boot * X)}.
(** Symbols of the linker, and the registers of the clock chip. *)
Context (end_of_kernel ptr_stack_bottom : Z) (mc146818_read : Z → Z).
Notation B := (M (mm * (boot * X))).
Definition bget {A} (f : boot → A) : B A := gets (λ s, f s.2.1).
Definition bset (f : boot → boot) : B unit := modify (λ s, (s.1, (f s.2.1, s.2.2))).
Definition set_page_directory (d : Z) (m : mm) : mm :=
  MM (frames_info m) (free_frame_list m) (modified_frame_list m) (mfllock m) (arrays m) d (cr2 m).

Definition nvram_read (r : Z) : Z := Z.lor (mc146818_read r) (Z.shiftl (mc146818_read (r + 1)) 8).
Definition max_physical_address : Z :=
  let size_of_extended_mem := ROUNDDOWN (nvram_read NVRAM_EXTLO * 1024) PAGE_SIZE in
  let size_of_other_mem := ROUNDDOWN (nvram_read 52 * 1024 * 64) PAGE_SIZE in
  if decide (size_of_other_mem > 0) then w32 (size_of_other_mem + 16 * 1024 * 1024)
  else if decide (size_of_extended_mem ≠ 0) then w32 (PHYS_EXTENDED_MEM + size_of_extended_mem)
  else size_of_extended_mem.
(** The frames have no contents yet. *)
Definition detect_memory : B unit :=
  mset (set_frames (replicate (Z.to_nat (max_physical_address / PAGE_SIZE)) zero_frame)).

Definition STATIC_KERNEL_PHYSICAL_ADDRESS (kva : Z) : B Z :=
  if decide (w32 kva < KERNEL_BASE) then panic else mret (w32 kva - KERNEL_BASE).
(** Of the cleared memory only page tables are seen by the model. *)
Definition boot_allocate_space (size align : Z) : B Z :=
  p ← bget ptr_free_mem;
  let p := if decide (p = 0) then end_of_kernel else p in
  let p := ROUNDUP p align in
  bset (set_ptr_free_mem (w32 (p + size))) ;;
  when (bool_decide (size = PAGE_SIZE)) (new_table p) ;;
  mret p.
Definition boot_get_page_table (dir va : Z) (create : bool) : B Z :=
  pde ← entry dir (PDX va);
  let phys := EXTRACT_ADDRESS pde in
  t ← Paging.STATIC_KERNEL_VIRTUAL_ADDRESS phys;
  if decide (phys = 0) then
    if create then
      t ← boot_allocate_space PAGE_SIZE PAGE_SIZE;
      phys ← STATIC_KERNEL_PHYSICAL_ADDRESS t;
      set_entry dir (PDX va) (CONSTRUCT_ENTRY phys (Z.lor PERM_PRESENT PERM_WRITEABLE)) ;;
      mret t
    else mret 0
  else mret t.
(** The body for [i = k * PAGE_SIZE]. *)
Definition boot_map_page (dir va pa perm k : Z) : B unit :=
  let va := w32 (va + k * PAGE_SIZE) in
  t ← boot_get_page_table dir va true;
  set_entry t (PTX va) (CONSTRUCT_ENTRY (w32 (pa + k * PAGE_SIZE)) (Z.lor perm PERM_PRESENT)).
Definition pages (size : Z) : list Z := seqZ 0 ((size + PAGE_SIZE - 1) / PAGE_SIZE).
Definition boot_map_range (dir va size pa perm : Z) : B unit := mfor (pages size) (boot_map_page dir va pa perm).

Definition setup_listing_to_all_page_tables_entries : B unit :=
  d ← mget ptr_page_directory;
  phys ← STATIC_KERNEL_PHYSICAL_ADDRESS d;
  set_entry d (PDX EnvTable.VPT) (CONSTRUCT_ENTRY phys (Z.lor PERM_PRESENT PERM_WRITEABLE)) ;;
  phys ← STATIC_KERNEL_PHYSICAL_ADDRESS d;
  set_entry d (PDX EnvTable.UVPT) (Z.lor (Z.lor phys PERM_USER) PERM_PRESENT).

(** ** The check at the end (kern/tests/utilities.c) *)
Definition check_va2pa (dir va : Z) : B Z :=
  pde ← entry dir (PDX va);
  if decide (Z.land pde PERM_PRESENT = 0) then mret 4294967295 else
  t ← Paging.STATIC_KERNEL_VIRTUAL_ADDRESS (EXTRACT_ADDRESS pde);
  pte ← entry t (PTX va);
  if decide (Z.land pte PERM_PRESENT = 0) then mret 4294967295 else mret (EXTRACT_ADDRESS pte).
Definition check_boot_pgdir : B unit :=
  d ← mget ptr_page_directory;
  p ← bget ptr_free_mem;
  mfor (pages (p - KERNEL_BASE)) (λ k,
    pa ← check_va2pa d (KERNEL_BASE + k * PAGE_SIZE); assert_ (bool_decide (pa = k * PAGE_SIZE))) ;;
  mfor (pages (NCPUS * EnvTable.KERNEL_STACK_SIZE)) (λ k,
    let i := k * PAGE_SIZE in
    if decide (i `mod` EnvTable.KERNEL_STACK_SIZE = 0) then mret () else
    pa ← check_va2pa d (EnvTable.KERN_STACK_TOP - NCPUS * EnvTable.KERNEL_STACK_SIZE + i);
    phys ← STATIC_KERNEL_PHYSICAL_ADDRESS ptr_stack_bottom;
    assert_ (bool_decide (pa = phys + i))) ;;
  mfor (seqZ 0 NPDENTRIES) (λ i,
    pde ← entry d i;
    if decide (i ∈ [PDX EnvTable.VPT; PDX EnvTable.UVPT; PDX (EnvTable.KERN_STACK_TOP - 1); PDX UENVS]) then assert_ (bool_decide (pde ≠ 0))
    else if decide (i >= PDX KERNEL_BASE) then assert_ (bool_decide (pde ≠ 0))
    else assert_ (bool_decide (pde = 0))).

(** The entries for low addresses, while segmentation is turned off. *)
Definition low_entries (p : Z) : list Z := seqZ 0 (PDX p - PDX KERNEL_BASE).
Definition turn_on_paging : B unit :=
  d ← mget ptr_page_directory;
  p ← bget ptr_free_mem;
  mfor (low_entries p) (λ j, e ← entry d (PDX KERNEL_BASE + j); set_entry d j e) ;;
  pd ← bget phys_page_directory;
  bset (lcr3 pd) ;;
  c ← bget cr0;
  bset (lcr0 (Z.land (Z.lor c CR0_ON) (Z.lnot CR0_OFF))) ;;
  mfor (low_entries p) (λ j, set_entry d j 0) ;;
  bset (lcr3 pd).

(** The loop over [sva] that makes the tables of the kernel's part. *)
Definition boot_tables (d : Z) : B unit :=
  mfor (seqZ 0 ((4294967295 - KERNEL_BASE + EnvTable.PTSIZE - 1) / EnvTable.PTSIZE))
    (λ k, boot_get_page_table d (KERNEL_BASE + k * EnvTable.PTSIZE) true ;; mret ()).
Definition initialize_kernel_VM : B unit :=
  d ← boot_allocate_space PAGE_SIZE PAGE_SIZE;
  mset (set_page_directory d) ;;
  phys ← STATIC_KERNEL_PHYSICAL_ADDRESS d;
  bset (set_phys_page_directory phys) ;;
  assert_ (bool_decide (NCPUS * EnvTable.KERNEL_STACK_SIZE < EnvTable.PTSIZE)) ;;
  stack ← STATIC_KERNEL_PHYSICAL_ADDRESS ptr_stack_bottom;
  boot_map_range d (EnvTable.KERN_STACK_TOP - NCPUS * EnvTable.KERNEL_STACK_SIZE) (NCPUS * EnvTable.KERNEL_STACK_SIZE) stack PERM_WRITEABLE ;;
  mfor (seqZ 0 NCPUS) (λ c, pt_set_page_permissions d (EnvTable.KERN_STACK_TOP - (c + 1) * EnvTable.KERNEL_STACK_SIZE) 0 PERM_PRESENT) ;;
  boot_tables d ;;
  n ← mget number_of_frames;
  fi ← boot_allocate_space (w32 (n * sizeof_FrameInfo)) PAGE_SIZE;
  bset (set_frames_info fi) ;;
  mset (λ m, set_frames (replicate (length (frames_info m)) zero_frame) m) ;;
  di ← boot_allocate_space (PAGES_PER_FILE * sizeof_FrameInfo) PAGE_SIZE;
  bset (set_disk_frames_info di) ;;
  setup_listing_to_all_page_tables_entries ;;
  let envs_size := EnvTable.NENV * EnvTable.sizeof_Env in
  en ← boot_allocate_space envs_size PAGE_SIZE;
  bset (set_envs en) ;;
  phys ← STATIC_KERNEL_PHYSICAL_ADDRESS en;
  boot_map_range d UENVS envs_size phys PERM_USER ;;
  e ← entry d (PDX UENVS);
  set_entry d (PDX UENVS) (Z.lor e (Z.lor PERM_USER (Z.land PERM_PRESENT (Z.lnot PERM_WRITEABLE)))) ;;
  p ← bget ptr_free_mem;
  boot_map_range d KERNEL_BASE (w32 (p - KERNEL_BASE)) 0 PERM_WRITEABLE ;;
  check_boot_pgdir ;;
  bset (set_threshold DEFAULT_MEM_SCARCE_PERCENTAGE) ;;
  turn_on_paging.
End code.
