(* ===== verification/BootThm.v ===== *)
(** * What start-up maps

    The page tables that start-up builds as a finite map from page numbers to
    entries: physical memory in use is mapped at KERNEL_BASE, the scheduler's stack
    with a page below it that is not present, the array of environments for users
    to read, and nothing else; and the tables lie apart in the memory handed out. *)

From S2P Require Import Prelude Queue Paging PagingSpec Boot.
From S2P Require EnvTable EnvTableThm.

Notation KB := KERNEL_BASE.
Lemma KB_val : KERNEL_BASE = 4026531840.
Proof. reflexivity. Qed.
Definition page_aligned (a : Z) : Prop := (4096 | a).
Lemma aligned_entry a low : page_aligned a → 0 ≤ a < 4294967296 → 0 ≤ low < 4096 → CONSTRUCT_ENTRY a low = a + low.
Proof.
  intros [q ->] Ha Hl. pose proof (CONSTRUCT_entry q low ltac:(lia) Hl) as H.
  unfold to_physical_address in *. rewrite Z.shiftl_mul_pow2 in * by lia. change (2 ^ 12) with 4096 in *. rewrite (w32_small (q * 4096)) in * by lia. lia.
Qed.
Lemma aligned_lor a low : page_aligned a → 0 ≤ a → a + low < 4294967296 → 0 ≤ low < 4096 → Z.lor a low = a + low.
Proof.
  intros Hal Ha Hb Hl. rewrite <- (aligned_entry a low) by (done || lia). unfold CONSTRUCT_ENTRY. rewrite w32_small; [done|].
  change 4294967296 with (2 ^ 32) in *. apply lor_small_bits; lia.
Qed.
Lemma entry_address a low : page_aligned a → 0 ≤ a → a + low < 4294967296 → 0 ≤ low < 4096 → EXTRACT_ADDRESS (a + low) = a.
Proof.
  intros [q ->] Ha Hb Hl. rewrite EXTRACT_div by lia. rewrite Z.add_comm, Z.div_add by lia. rewrite Z.div_small by lia. lia.
Qed.
Lemma entry_number a low : page_aligned a → 0 ≤ a → a + low < 4294967296 → 0 ≤ low < 4096 → PPN (EXTRACT_ADDRESS (a + low)) = a `div` 4096.
Proof.
  intros Hal Ha Hb Hl. rewrite entry_address by done. apply PPN_div. lia.
Qed.
Lemma page_indices_of va : 0 ≤ va < 4294967296 → PDX va = va `div` 4194304 ∧ PTX va = (va `div` 4096) `mod` 1024 ∧ 0 ≤ PDX va < 1024.
Proof.
  intros Hva. unfold PDX, PTX. rewrite w32_small by done. change 1023 with (Z.ones 10). rewrite !Z.land_ones, !Z.shiftr_div_pow2 by lia.
  change (2 ^ 22) with 4194304. change (2 ^ 12) with 4096. change (2 ^ 10) with 1024.
  assert (0 ≤ va `div` 4194304 < 1024) by (split; [apply Z.div_pos; lia|apply Z.div_lt_upper_bound; lia]).
  split_and!; [by apply Z.mod_small|done|rewrite Z.mod_small by lia; lia..].
Qed.
Definition vpn (va : Z) : Z := va `div` 4096.
Lemma vpn_split va : 0 ≤ va < 4294967296 → vpn va = PDX va * 1024 + PTX va.
Proof.
  intros Hva. destruct (page_indices_of va Hva) as (-> & -> & _). unfold vpn.
  change 4194304 with (4096 * 1024). rewrite <- Z.div_div by lia. rewrite Z.mul_comm. apply Z.div_mod. lia.
Qed.

Section boot.
Context {X : Type} {PE : PageEnv (boot * X)}.
Context (end_of_kernel ptr_stack_bottom : Z).
Notation St := (mm * (boot * X))%type.
Implicit Types s : St.
Notation boot_allocate_space := (boot_allocate_space end_of_kernel).
Notation boot_get_page_table := (boot_get_page_table end_of_kernel).
Notation boot_map_page := (boot_map_page end_of_kernel).
Notation boot_map_range := (boot_map_range end_of_kernel).

Lemma wp_bget {A} (f : boot → A) (Q : A → St → Prop) s : Q (f s.2.1) s → wp (bget f) Q s.
Proof. done. Qed.
Lemma wp_bset f (Q : unit → St → Prop) s : Q tt (s.1, (f s.2.1, s.2.2)) → wp (bset f) Q s.
Proof. done. Qed.

(** The tables [T] by directory index, the directory entries [V] that name no table
    of [T], and the pages [P] by page number, all below [ptr_free_mem]. *)
Record tables_map (d : Z) (T V P : gmap Z Z) s : Prop := {
  mp_dir : ∃ D, arrays s.1 !! d = Some D ∧ length D = 1024%nat ∧ ∀ i, 0 ≤ i < 1024 →
    D !! Z.to_nat i = Some (match V !! i with Some v => v | None => match T !! i with Some t => t - KB + 3 | None => 0 end end);
  mp_table i t : T !! i = Some t → 0 ≤ i < 1024 ∧ KB < t ∧ page_aligned t ∧ t + 4096 ≤ ptr_free_mem s.2.1 ∧ t ≠ d ∧
    ∃ L, arrays s.1 !! t = Some L ∧ length L = 1024%nat ∧ ∀ j, 0 ≤ j < 1024 → L !! Z.to_nat j = Some (default 0 (P !! (i * 1024 + j)));
  mp_inj i j t : T !! i = Some t → T !! j = Some t → i = j;
  mp_pages q e : P !! q = Some e → is_Some (T !! (q `div` 1024));
  mp_free : KB ≤ d ∧ page_aligned d ∧ d + 4096 ≤ ptr_free_mem s.2.1 < 4294967296;
  mp_frames : ptr_free_mem s.2.1 - KB ≤ 4096 * number_of_frames s.1;
  mp_ptr : ptr_page_directory s.1 = d
}.

(** Room for [n] more bytes. *)
Definition room (n : Z) s : Prop := ptr_free_mem s.2.1 + n < 4294967296 ∧ ptr_free_mem s.2.1 + n - KB ≤ 4096 * number_of_frames s.1.
Lemma round_page p : 0 < p → p + 4095 < 4294967296 → page_aligned (ROUNDUP p 4096) ∧ p ≤ ROUNDUP p 4096 ≤ p + 4095.
Proof. intros Hp Hb. destruct (ROUNDUP_spec p 4096) as [? ?]; [lia|lia|lia|]. split; [done|lia]. Qed.
Definition move_free (p : Z) s : St := (s.1, (set_ptr_free_mem p s.2.1, s.2.2)).
Definition clear_table (t : Z) s : St := (set_arrays (<[t := replicate 1024 0]> (arrays s.1)) s.1, s.2).
Lemma wp_boot_allocate size (Q : Z → St → Prop) s : KB < ptr_free_mem s.2.1 → 0 ≤ size → room (4095 + size) s →
  (∀ p, page_aligned p → ptr_free_mem s.2.1 ≤ p ≤ ptr_free_mem s.2.1 + 4095 →
    Q p (if decide (size = PAGE_SIZE) then clear_table p (move_free (p + size) s) else move_free (p + size) s)) →
  wp (boot_allocate_space size PAGE_SIZE) Q s.
Proof.
  intros Hp Hs [Hr _] HQ. rewrite KB_val in Hp. unfold Boot.boot_allocate_space. apply wp_bind, wp_bget. rewrite decide_False by lia.
  change PAGE_SIZE with 4096 in *. destruct (round_page (ptr_free_mem s.2.1)) as [Ha Hb]; [lia|lia|].
  apply wp_bind, wp_bset. rewrite w32_small by lia. specialize (HQ _ Ha Hb). apply wp_bind. destruct (decide (size = 4096)) as [->|Hne].
  - rewrite bool_decide_true by done. by apply wp_mset, wp_ret.
  - rewrite bool_decide_false by done. by apply wp_ret, wp_ret.
Qed.
(** Moving the end of the memory in use. *)
Lemma tables_move d T V P p s : tables_map d T V P s → ptr_free_mem s.2.1 ≤ p < 4294967296 → p - KB ≤ 4096 * number_of_frames s.1 →
  tables_map d T V P (move_free p s).
Proof.
  intros HM Hp Hn. split; try apply HM; cbn.
  - intros i t Ht. destruct (mp_table _ _ _ _ _ HM i t Ht) as (? & ? & ? & ? & ? & ?). split_and!; try done; lia.
  - destruct (mp_free _ _ _ _ _ HM) as (? & ? & ?). split_and!; [done|done|lia|lia].
  - done.
Qed.
(** A new table. *)
Lemma tables_new d T V P p i s : tables_map d T V P s → 0 ≤ i < 1024 → T !! i = None → V !! i = None → page_aligned p →
  ptr_free_mem s.2.1 ≤ p → p + 4096 < 4294967296 → p + 4096 - KB ≤ 4096 * number_of_frames s.1 →
  ∀ D, arrays s.1 !! d = Some D →
  tables_map d (<[i := p]> T) V P
    (set_arrays (<[d := <[Z.to_nat i := p - KB + 3]> D]> (<[p := replicate 1024 0]> (arrays s.1))) s.1, (set_ptr_free_mem (p + 4096) s.2.1, s.2.2)).
Proof.
  intros HM Hi HT HV Hal Hp Hp2 Hn D HD. destruct (mp_free _ _ _ _ _ HM) as (Hd1 & Hd2 & Hd3 & Hd4).
  assert (Hpd : p ≠ d) by lia. assert (Hnew : ∀ j t, T !! j = Some t → t ≠ p) by (intros j t Ht; destruct (mp_table _ _ _ _ _ HM j t Ht) as (_ & _ & _ & ? & _); lia).
  split; cbn.
  - destruct (mp_dir _ _ _ _ _ HM) as (D' & HD' & Hlen & Hent). assert (D' = D) as -> by congruence.
    exists (<[Z.to_nat i := p - KB + 3]> D). rewrite lookup_insert_eq. split_and!; [done|by rewrite length_insert|].
    intros j Hj. destruct (decide (j = i)) as [->|Hne].
    + rewrite list_lookup_insert_eq by lia. by rewrite HV, lookup_insert_eq.
    + rewrite list_lookup_insert_ne by lia. rewrite lookup_insert_ne by done. by apply Hent.
  - intros j t Ht. destruct (decide (j = i)) as [->|Hne].
    + rewrite lookup_insert_eq in Ht. injection Ht as <-. split_and!; try done; try lia.
      exists (replicate 1024 0). rewrite lookup_insert_ne by done. rewrite lookup_insert_eq. split_and!; [done|done|].
      intros k Hk. rewrite lookup_replicate_2 by lia. f_equal. destruct (P !! (i * 1024 + k)) as [e|] eqn:He; [|done].
      apply (mp_pages _ _ _ _ _ HM) in He. rewrite Z.div_add_l, Z.div_small, Z.add_0_r, HT in He by lia. by destruct He.
    + rewrite lookup_insert_ne in Ht by done. destruct (mp_table _ _ _ _ _ HM j t Ht) as (? & ? & ? & ? & Htd & L & HL & HlenL & HLe).
      split_and!; try done; try lia. exists L. rewrite lookup_insert_ne by done. rewrite lookup_insert_ne by (apply not_eq_sym; by eapply Hnew). done.
  - intros j k t Hj Hk. destruct (decide (j = i)) as [->|Hne], (decide (k = i)) as [->|Hne']; try done;
      rewrite ?lookup_insert_eq, ?lookup_insert_ne in Hj by done; rewrite ?lookup_insert_eq, ?lookup_insert_ne in Hk by done.
    + injection Hj as <-. by apply Hnew in Hk.
    + injection Hk as <-. by apply Hnew in Hj.
    + by eapply (mp_inj _ _ _ _ _ HM).
  - intros q e He. apply (mp_pages _ _ _ _ _ HM) in He. apply lookup_insert_is_Some'. by right.
  - split_and!; try done; lia.
  - done.
  - apply HM.
Qed.

Definition table_at_most (T T' : gmap Z Z) (i : Z) : Prop := T' = T ∨ T !! i = None ∧ ∃ p, T' = <[i := p]> T.
(** What later steps may rely on: the rest of the globals and the number of frames. *)
Record grows (n : Z) s s' : Prop := {
  gr_free : ptr_free_mem s.2.1 ≤ ptr_free_mem s'.2.1 ≤ ptr_free_mem s.2.1 + n;
  gr_boot : s'.2 = (set_ptr_free_mem (ptr_free_mem s'.2.1) s.2.1, s.2.2);
  gr_frames : frames_info s'.1 = frames_info s.1
}.
Lemma grows_refl s n : 0 ≤ n → grows n s s.
Proof. intros Hn. split; [lia|by destruct s as [? [[] ?]]|done]. Qed.
Lemma grows_trans n n' s1 s2 s3 : grows n s1 s2 → grows n' s2 s3 → grows (n + n') s1 s3.
Proof. intros [H1 H2 H3] [H4 H5 H6]. split; [lia|by rewrite H5, H2|by rewrite H6]. Qed.
Lemma grows_mono n n' s1 s2 : grows n s1 s2 → n ≤ n' → grows n' s1 s2.
Proof. intros [H1 H2 H3] ?. split; [lia|done|done]. Qed.
Lemma grows_room n m s s' : room (n + m) s → grows n s s' → room m s'.
Proof. intros [Hr1 Hr2] [Hf Hb Hn]. unfold room, number_of_frames in *. rewrite Hn. split; lia. Qed.

Lemma wp_boot_get_page_table d T V P va s (Q : Z → St → Prop) :
  tables_map d T V P s → 0 ≤ va < 4294967296 → V !! PDX va = None → room 8191 s →
  (∀ t T' s', tables_map d T' V P s' → T' !! PDX va = Some t → table_at_most T T' (PDX va) →
     grows (if decide (is_Some (T !! PDX va)) then 0 else 8191) s s' → Q t s') →
  wp (boot_get_page_table d va true) Q s.
Proof.
  intros HM Hva HV [Hr1 Hr2] HQ. destruct (page_indices_of va Hva) as (_ & _ & Hi). pose proof (mp_free _ _ _ _ _ HM) as (Hd1 & Hd2 & Hd3 & Hd4).
  destruct (mp_dir _ _ _ _ _ HM) as (D & HD & Hlen & Hent). pose proof (Hent _ Hi) as He. rewrite HV in He.
  pose proof (mp_frames _ _ _ _ _ HM) as Hfr. rewrite KB_val in *. unfold Boot.boot_get_page_table.
  apply wp_bind. eapply wp_entry; [exact HD|exact He|]. destruct (T !! PDX va) as [t|] eqn:HT.
  - destruct (mp_table _ _ _ _ _ HM _ t HT) as (_ & Ht1 & Ht2 & Ht3 & _). rewrite KB_val in *.
    assert (Hal : page_aligned (t - 4026531840)) by (apply Z.divide_sub_r; [done|by exists 983040]).
    rewrite entry_address by (done || lia). apply wp_bind. unfold Paging.STATIC_KERNEL_VIRTUAL_ADDRESS. apply wp_bind, wp_mget.
    rewrite PPN_div by lia. rewrite decide_False.
    2:{ assert ((t - 4026531840) `div` 4096 < number_of_frames s.1) by (apply Z.div_lt_upper_bound; lia). lia. }
    apply wp_ret. rewrite KB_val. rewrite decide_False by lia. apply wp_ret. replace (t - 4026531840 + 4026531840) with t by lia.
    rewrite w32_small by lia. eapply HQ; [exact HM|done|by left|]. rewrite decide_True by done. by apply grows_refl.
  - change (EXTRACT_ADDRESS 0) with 0. apply wp_bind. unfold Paging.STATIC_KERNEL_VIRTUAL_ADDRESS. apply wp_bind, wp_mget. change (PPN 0) with 0.
    rewrite decide_False by lia. apply wp_ret. rewrite decide_True by done. apply wp_bind. change PAGE_SIZE with 4096.
    apply (wp_boot_allocate 4096); [rewrite KB_val; lia|lia|split; rewrite ?KB_val; lia|]. intros p Hp1 Hp2. rewrite decide_True by done.
    apply wp_bind. unfold STATIC_KERNEL_PHYSICAL_ADDRESS. rewrite w32_small by lia. rewrite KB_val, decide_False by lia. apply wp_ret.
    apply wp_bind. assert (Hpd : p ≠ d) by lia. cbn [move_free clear_table].
    eapply (wp_set_entry d (PDX va) _ D); [cbn; by rewrite lookup_insert_ne by done|exact He|]. cbn [fst snd]. apply wp_ret.
    rewrite aligned_entry; [|apply Z.divide_sub_r; [done|by exists 983040]|lia|by vm_compute]. change (Z.lor PERM_PRESENT PERM_WRITEABLE) with 3.
    rewrite w32_small by lia. rewrite <- KB_val. eapply HQ.
    + eapply (tables_new d T V P p (PDX va) s HM); [done|done|done|done|lia|lia|rewrite KB_val; lia|exact HD].
    + apply lookup_insert_eq.
    + right. split; [done|]. by exists p.
    + rewrite decide_False by (intros [? [=]]). split; cbn; [lia|done|done].
Qed.
(** An entry of a page. *)
Lemma tables_entry d T V P s i t L j e : tables_map d T V P s → T !! i = Some t → arrays s.1 !! t = Some L → 0 ≤ j < 1024 →
  tables_map d T V (<[i * 1024 + j := e]> P) (set_arrays (<[t := <[Z.to_nat j := e]> L]> (arrays s.1)) s.1, s.2).
Proof.
  intros HM HT HL Hj. destruct (mp_table _ _ _ _ _ HM i t HT) as (Hi & Ht1 & Ht2 & Ht3 & Htd & L' & HL' & HlenL & HLe). assert (L' = L) as -> by congruence.
  split; cbn; try apply HM.
  - destruct (mp_dir _ _ _ _ _ HM) as (D & HD & Hlen & Hent). exists D. by rewrite lookup_insert_ne.
  - intros k u Hu. destruct (mp_table _ _ _ _ _ HM k u Hu) as (Hk & ? & ? & ? & Hud & M & HM' & HlenM & HMe). split_and!; try done; try lia.
    destruct (decide (k = i)) as [->|Hne].
    + assert (u = t) as -> by congruence. exists (<[Z.to_nat j := e]> L). rewrite lookup_insert_eq. split_and!; [done|by rewrite length_insert|].
      intros n Hn. destruct (decide (n = j)) as [->|Hnj].
      * rewrite list_lookup_insert_eq by lia. by rewrite lookup_insert_eq.
      * rewrite list_lookup_insert_ne by lia. rewrite lookup_insert_ne by lia. by apply HLe.
    + assert (u ≠ t) by (intros ->; apply Hne; by eapply (mp_inj _ _ _ _ _ HM)). exists M. rewrite lookup_insert_ne by done. split_and!; [done|done|].
      intros n Hn. rewrite lookup_insert_ne by lia. by apply HMe.
  - intros q v Hq. destruct (decide (q = i * 1024 + j)) as [->|Hne].
    + rewrite Z.div_add_l, Z.div_small, Z.add_0_r by lia. by exists t.
    + rewrite lookup_insert_ne in Hq by done. by eapply (mp_pages _ _ _ _ _ HM).
Qed.

(** ** A range of pages *)
Lemma wp_mfor_seqZ (I : Z → St → Prop) (body : Z → M St unit) n (Q : unit → St → Prop) s : 0 ≤ n →
  I 0 s → (∀ k s, 0 ≤ k < n → I k s → wp (body k) (λ _ s', I (k + 1) s') s) → (∀ s, I n s → Q tt s) → wp (mfor (seqZ 0 n) body) Q s.
Proof.
  intros Hn H0 Hb HQ. apply (wp_mfor (λ l s, ∃ k, l = seqZ k (n - k) ∧ 0 ≤ k ≤ n ∧ I k s)).
  - exists 0. rewrite Z.sub_0_r. done.
  - intros x l s' (k & Hl & Hk & HI). destruct (decide (k = n)) as [->|Hne]; [by rewrite Z.sub_diag in Hl|].
    rewrite seqZ_cons in Hl by lia. injection Hl as -> ->. eapply wp_mono; [apply Hb; [lia|done]|]. intros ? s1 H1.
    exists (k + 1). split; [f_equal; lia|]. split; [lia|done].
  - intros s' (k & Hl & Hk & HI). destruct (decide (k = n)) as [->|Hne]; [by apply HQ|].
    rewrite seqZ_cons in Hl by lia. done.
Qed.
Lemma wp_boot_map_page d T V P va pa perm k s (Q : unit → St → Prop) :
  tables_map d T V P s → page_aligned va → 0 ≤ k → 0 ≤ va → va + (k + 1) * 4096 ≤ 4294967296 →
  page_aligned pa → 0 ≤ pa → pa + (k + 1) * 4096 ≤ 4294967296 → 0 ≤ perm < 4096 →
  V !! PDX (va + k * 4096) = None → room 8191 s →
  (∀ T' s', tables_map d T' V (<[vpn va + k := pa + k * 4096 + Z.lor perm 1]> P) s' → is_Some (T' !! PDX (va + k * 4096)) →
     table_at_most T T' (PDX (va + k * 4096)) → grows (if decide (is_Some (T !! PDX (va + k * 4096))) then 0 else 8191) s s' → Q tt s') →
  wp (boot_map_page d va pa perm k) Q s.
Proof.
  intros HM Hva Hk Hva0 Hva1 Hpa Hpa0 Hpa1 Hperm HV Hr HQ. unfold Boot.boot_map_page. change PAGE_SIZE with 4096. rewrite (w32_small (va + k * 4096)) by lia.
  apply wp_bind. eapply wp_boot_get_page_table; [exact HM|lia|exact HV|done|]. intros t T' s' HM' Ht HT' Hg.
  pose proof (page_indices_of (va + k * 4096) ltac:(lia)) as (_ & Hj & _).
  assert (Hj' : 0 ≤ PTX (va + k * 4096) < 1024) by (rewrite Hj; apply Z.mod_pos_bound; lia).
  destruct (mp_table _ _ _ _ _ HM' _ t Ht) as (_ & _ & _ & _ & _ & L & HL & HlenL & HLe).
  eapply wp_set_entry; [exact HL|by apply HLe|]. rewrite (w32_small (pa + k * 4096)) by lia.
  assert (Hlor : 0 ≤ Z.lor perm PERM_PRESENT < 4096) by (apply (lor_small_bits _ _ 12); [done|done|by vm_compute]).
  assert (Hal : page_aligned (pa + k * 4096)) by (apply Z.divide_add_r; [done|by exists k]).
  rewrite aligned_entry by (done || lia).
  assert (Hb : pa + k * 4096 ≤ 4294967296 - 4096) by lia.
  rewrite w32_small by lia. eapply HQ; [|by exists t|done|].
  - replace (vpn va + k) with (PDX (va + k * 4096) * 1024 + PTX (va + k * 4096)).
    + by apply tables_entry.
    + rewrite <- vpn_split by lia. unfold vpn. by rewrite Z.div_add by lia.
  - destruct Hg as [Hg1 Hg2 Hg3]. by split.
Qed.

(** [P'] is [P] with [n] pages from [va] on mapped to those from [pa] on. *)
Definition mapped_to (va pa perm n : Z) (P P' : gmap Z Z) : Prop := ∀ q,
  P' !! q = if decide (vpn va ≤ q < vpn va + n) then Some (pa + (q - vpn va) * 4096 + Z.lor perm 1) else P !! q.
Definition new_tables (T T' : gmap Z Z) (i : Z) : Z := if decide (is_Some (T' !! i) ∧ T !! i = None) then 8191 else 0.
Lemma mapped_to_next va pa perm k P P' : 0 ≤ k → mapped_to va pa perm k P P' →
  mapped_to va pa perm (k + 1) P (<[vpn va + k := pa + k * 4096 + Z.lor perm 1]> P').
Proof.
  intros Hk H q. destruct (decide (q = vpn va + k)) as [->|Hne].
  - rewrite lookup_insert_eq, decide_True by lia. do 3 f_equal. lia.
  - rewrite lookup_insert_ne by done. rewrite H. repeat case_decide; lia || done.
Qed.
Lemma table_at_most_step T T1 T2 i j : table_at_most T T1 i → table_at_most T1 T2 j → is_Some (T2 !! j) → j = i ∨ is_Some (T !! j) →
  table_at_most T T2 i ∧ new_tables T T2 i = new_tables T T1 i + (if decide (is_Some (T1 !! j)) then 0 else 8191).
Proof.
  unfold new_tables. intros H1 H2 Hs Hj. destruct (T1 !! j) as [t|] eqn:HT1.
  - destruct H2 as [->|[H2 _]]; [|congruence]. rewrite (decide_True (P := is_Some (Some t))) by done. split; [done|lia].
  - destruct H2 as [->|[_ [p ->]]]; [rewrite HT1 in Hs; by destruct Hs|].
    assert (HTj : T !! j = None).
    { destruct H1 as [->|[_ [q ->]]]; [done|]. destruct (decide (i = j)) as [->|Hne]; [by rewrite lookup_insert_eq in HT1|by rewrite lookup_insert_ne in HT1]. }
    destruct Hj as [->|Hj]; [|rewrite HTj in Hj; by destruct Hj].
    destruct H1 as [->|[_ [q ->]]]; [|by rewrite lookup_insert_eq in HT1]. split; [right; by eauto|].
    rewrite lookup_insert_eq, HT1. rewrite decide_True by done. rewrite decide_False by (intros [[? [=]] _]). rewrite decide_False by (intros [? [=]]). done.
Qed.
Lemma new_tables_bound T T' i : 0 ≤ new_tables T T' i ≤ 8191.
Proof. unfold new_tables. case_decide; lia. Qed.
Lemma wp_boot_map_range d T V P va pa perm n i s (Q : unit → St → Prop) :
  tables_map d T V P s → page_aligned va → 0 ≤ n → 0 ≤ va → va + n * 4096 ≤ 4294967296 →
  page_aligned pa → 0 ≤ pa → pa + n * 4096 ≤ 4294967296 → 0 ≤ perm < 4096 →
  (∀ k, 0 ≤ k < n → V !! PDX (va + k * 4096) = None ∧ (PDX (va + k * 4096) = i ∨ is_Some (T !! PDX (va + k * 4096)))) →
  room 16382 s →
  (∀ T' P' s', tables_map d T' V P' s' → mapped_to va pa perm n P P' → table_at_most T T' i → grows (new_tables T T' i) s s' → Q tt s') →
  ∀ size, (size + 4095) `div` 4096 = n → wp (boot_map_range d va size pa perm) Q s.
Proof.
  intros HM Hva Hn Hva0 Hva1 Hpa Hpa0 Hpa1 Hperm HV Hr HQ size Hsize. unfold Boot.boot_map_range, pages. change PAGE_SIZE with 4096.
  replace (size + 4096 - 1) with (size + 4095) by lia. rewrite Hsize.
  apply (wp_mfor_seqZ (λ k s', ∃ T' P', tables_map d T' V P' s' ∧ mapped_to va pa perm k P P' ∧ table_at_most T T' i ∧ grows (new_tables T T' i) s s')); [done|..].
  - exists T, P. split_and!; [done| |by left|].
    + intros q. rewrite decide_False by lia. done.
    + apply grows_refl, new_tables_bound.
  - intros k s1 Hk (T1 & P1 & HM1 & HP1 & HT1 & Hg1). destruct (HV k Hk) as [HVk HTk]. pose proof (new_tables_bound T T1 i) as Hb.
    eapply wp_boot_map_page; [exact HM1|done|lia|done|lia|done|done|lia|done|done|eapply (grows_room 8191); [exact Hr|eapply grows_mono; [exact Hg1|lia]]|].
    intros T2 s2 HM2 Hs2 HT2 Hg2. destruct (table_at_most_step T T1 T2 i _ HT1 HT2 Hs2 HTk) as [HT Hnew].
    eexists T2, _. split_and!; [exact HM2|apply mapped_to_next; [lia|done]|done|]. rewrite Hnew. by eapply grows_trans.
  - intros s1 (T1 & P1 & HM1 & HP1 & HT1 & Hg1). by eapply HQ.
Qed.

(** ** The tables of the kernel's part *)
Definition has_tables (T T' : gmap Z Z) (k : Z) : Prop := ∀ i, is_Some (T' !! i) ↔ is_Some (T !! i) ∨ 960 ≤ i < 960 + k.
Lemma PDX_kernel_table k : 0 ≤ k < 64 → PDX (KB + k * EnvTable.PTSIZE) = 960 + k.
Proof.
  intros Hk. rewrite KB_val. change EnvTable.PTSIZE with 4194304. destruct (page_indices_of (4026531840 + k * 4194304)) as (-> & _); [lia|].
  rewrite Z.div_add by lia. done.
Qed.
Lemma wp_boot_tables d T V P s (Q : unit → St → Prop) :
  tables_map d T V P s → (∀ i, 960 ≤ i < 1024 → V !! i = None) → room (65 * 8191) s →
  (∀ T' s', tables_map d T' V P s' → has_tables T T' 64 → grows (64 * 8191) s s' → Q tt s') →
  wp (Boot.boot_tables end_of_kernel d) Q s.
Proof.
  intros HM HV Hr HQ. unfold Boot.boot_tables.
  change ((4294967295 - KERNEL_BASE + EnvTable.PTSIZE - 1) / EnvTable.PTSIZE) with 64.
  apply (wp_mfor_seqZ (λ k s', ∃ T', tables_map d T' V P s' ∧ has_tables T T' k ∧ grows (k * 8191) s s')); [lia|..].
  - exists T. split_and!; [done| |by apply grows_refl]. intros i. split; [by left|intros [?|?]; [done|lia]].
  - intros k s1 Hk (T1 & HM1 & HT1 & Hg1). apply wp_bind.
    eapply wp_boot_get_page_table; [exact HM1|change EnvTable.PTSIZE with 4194304; rewrite KB_val; lia| | |].
    + apply HV. rewrite PDX_kernel_table by lia. lia.
    + eapply (grows_room (k * 8191)); [|exact Hg1]. destruct Hr as [Hr1 Hr2]. split; lia.
    + rewrite PDX_kernel_table by lia. intros t T2 s2 HM2 Ht HT2 Hg2. apply wp_ret. exists T2. split_and!; [done| |].
      * intros i. split.
        -- intros Hi. destruct (decide (i = 960 + k)) as [->|Hne]; [right; lia|].
           assert (Hi1 : is_Some (T1 !! i)) by (destruct HT2 as [->|[_ [p ->]]]; [done|by rewrite lookup_insert_ne in Hi]).
           apply HT1 in Hi1 as [?|?]; [by left|right; lia].
        -- intros Hi. destruct (decide (i = 960 + k)) as [->|Hne]; [by exists t|].
           assert (Hi1 : is_Some (T1 !! i)) by (apply HT1; destruct Hi; [by left|right; lia]).
           destruct HT2 as [->|[_ [p ->]]]; [done|by rewrite lookup_insert_ne].
      * replace ((k + 1) * 8191) with (k * 8191 + 8191) by lia. eapply grows_trans; [exact Hg1|]. eapply grows_mono; [exact Hg2|case_decide; lia].
  - intros s1 (T1 & HM1 & HT1 & Hg1). by eapply HQ.
Qed.

(** ** Single entries *)
Definition set_cell (a i v : Z) (L : list Z) s : St := (set_arrays (<[a := <[Z.to_nat i := v]> L]> (arrays s.1)) s.1, s.2).
Lemma tables_override d T V P s i v D : tables_map d T V P s → arrays s.1 !! d = Some D → 0 ≤ i < 1024 →
  tables_map d T (<[i := v]> V) P (set_cell d i v D s).
Proof.
  intros HM HD Hi. destruct (mp_dir _ _ _ _ _ HM) as (D' & HD' & Hlen & Hent). assert (D' = D) as -> by congruence.
  split; cbn; try apply HM.
  - exists (<[Z.to_nat i := v]> D). rewrite lookup_insert_eq. split_and!; [done|by rewrite length_insert|].
    intros j Hj. destruct (decide (j = i)) as [->|Hne].
    + rewrite list_lookup_insert_eq by lia. by rewrite lookup_insert_eq.
    + rewrite list_lookup_insert_ne by lia. rewrite lookup_insert_ne by done. by apply Hent.
  - intros j t Ht. destruct (mp_table _ _ _ _ _ HM j t Ht) as (? & ? & ? & ? & Htd & L & HL). split_and!; try done; try lia.
    exists L. by rewrite lookup_insert_ne.
Qed.
Lemma wp_set_directory d T V P i v s (Q : unit → St → Prop) : tables_map d T V P s → 0 ≤ i < 1024 → 0 ≤ v < 4294967296 →
  (∀ s', tables_map d T (<[i := v]> V) P s' → grows 0 s s' → Q tt s') → wp (set_entry d i v) Q s.
Proof.
  intros HM Hi Hv HQ. destruct (mp_dir _ _ _ _ _ HM) as (D & HD & Hlen & Hent). eapply wp_set_entry; [exact HD|by apply Hent|].
  rewrite w32_small by done. eapply HQ; [by eapply tables_override|]. split; cbn; [lia|by destruct s as [? [[] ?]]|done].
Qed.
Lemma wp_boot_directory d T V P i s (Q : Z → St → Prop) : tables_map d T V P s → 0 ≤ i < 1024 →
  Q (match V !! i with Some v => v | None => match T !! i with Some t => t - KB + 3 | None => 0 end end) s → wp (entry d i) Q s.
Proof.
  intros HM Hi HQ. destruct (mp_dir _ _ _ _ _ HM) as (D & HD & Hlen & Hent). eapply wp_entry; [exact HD|by apply Hent|done].
Qed.

(** ** Looking up a page *)
Lemma table_entry_facts d T V P s i t : tables_map d T V P s → T !! i = Some t →
  page_aligned (t - KB) ∧ 0 < t - KB < 4294967296 ∧ PPN (t - KB) < number_of_frames s.1 ∧ EXTRACT_ADDRESS (t - KB + 3) = t - KB ∧
  Z.land (t - KB + 3) PERM_PRESENT = PERM_PRESENT ∧ w32 (t - KB + KB) = t ∧ t ≠ 0.
Proof.
  intros HM HT. destruct (mp_table _ _ _ _ _ HM i t HT) as (_ & Ht1 & Ht2 & Ht3 & _). pose proof (mp_free _ _ _ _ _ HM) as (_ & _ & _ & Hf).
  pose proof (mp_frames _ _ _ _ _ HM) as Hfr. rewrite KB_val in *.
  assert (Hal : page_aligned (t - 4026531840)) by (apply Z.divide_sub_r; [done|by exists 983040]).
  split_and!; try done; try lia.
  - rewrite PPN_div by lia. apply Z.div_lt_upper_bound; lia.
  - apply entry_address; done || lia.
  - rewrite <- aligned_lor by (done || lia). rewrite Z.land_lor_distr_l. change (Z.land 3 PERM_PRESENT) with 1. destruct Hal as [q ->].
    change PERM_PRESENT with (Z.ones 1). rewrite Z.land_ones by lia. change (2 ^ 1) with 2.
    replace (q * 4096) with (q * 2048 * 2) by lia. by rewrite Z_mod_mult.
  - rewrite Z.sub_add. apply w32_small. lia.
Qed.
Lemma page_has_table d T V P va e s : tables_map d T V P s → 0 ≤ va < 4294967296 → P !! vpn va = Some e → is_Some (T !! PDX va).
Proof.
  intros HM Hva HP. pose proof (mp_pages _ _ _ _ _ HM _ _ HP) as H. destruct (page_indices_of va Hva) as (_ & Hj & _).
  pose proof (Z.mod_pos_bound (va `div` 4096) 1024 ltac:(lia)). rewrite vpn_split, Z.div_add_l, Z.div_small, Z.add_0_r in H by lia. done.
Qed.
Lemma wp_check_va2pa d T V P va e s (Q : Z → St → Prop) : tables_map d T V P s → 0 ≤ va < 4294967296 → V !! PDX va = None →
  P !! vpn va = Some e → Z.land e PERM_PRESENT ≠ 0 → Q (EXTRACT_ADDRESS e) s → wp (check_va2pa d va) Q s.
Proof.
  intros HM Hva HV HP He HQ. destruct (page_indices_of va Hva) as (_ & Hj & Hi). unfold check_va2pa.
  destruct (page_has_table _ _ _ _ _ _ _ HM ltac:(eassumption) HP) as [t HT]. destruct (table_entry_facts _ _ _ _ _ _ _ HM HT) as (_ & _ & Hn & Hx & Hp & Hw & _).
  apply wp_bind. eapply wp_boot_directory; [exact HM|lia|]. rewrite HV, HT, Hp, decide_False by done. rewrite Hx.
  apply wp_bind. unfold Paging.STATIC_KERNEL_VIRTUAL_ADDRESS. apply wp_bind, wp_mget. rewrite decide_False by lia. apply wp_ret.
  rewrite Hw. destruct (mp_table _ _ _ _ _ HM _ _ HT) as (_ & _ & _ & _ & _ & L & HL & HlenL & HLe).
  apply wp_bind. eapply wp_entry; [exact HL|apply HLe; rewrite Hj; apply Z.mod_pos_bound; lia|]. rewrite <- vpn_split by done. rewrite HP. cbn.
  rewrite decide_False by done. by apply wp_ret.
Qed.
(** Changing the permissions of a page of the kernel. *)
Lemma wp_boot_permissions d T V P va e set clear s (Q : unit → St → Prop) : tables_map d T V P s → USER_TOP ≤ va < 4294967296 → V !! PDX va = None →
  P !! vpn va = Some e →
  (∀ s', tables_map d T V (<[vpn va := w32 (Z.land (w32 (Z.lor e set)) (Z.lnot clear))]> P) s' → grows 0 s s' → Q tt s') →
  wp (pt_set_page_permissions d va set clear) Q s.
Proof.
  intros HM Hva HV HP HQ. assert (Hva' : 0 ≤ va < 4294967296) by (change USER_TOP with 4005560320 in Hva; lia).
  destruct (page_indices_of va Hva') as (_ & Hj & Hi). assert (Hj' : 0 ≤ PTX va < 1024) by (rewrite Hj; apply Z.mod_pos_bound; lia).
  destruct (page_has_table _ _ _ _ _ _ _ HM ltac:(eassumption) HP) as [t HT]. destruct (table_entry_facts _ _ _ _ _ _ _ HM HT) as (_ & _ & Hn & Hx & Hp & Hw & Hnz).
  destruct (mp_dir _ _ _ _ _ HM) as (D & HD & _ & Hent). specialize (Hent _ Hi). rewrite HV, HT in Hent.
  destruct (mp_table _ _ _ _ _ HM _ _ HT) as (_ & _ & _ & _ & _ & L & HL & HlenL & HLe).
  unfold pt_set_page_permissions. apply wp_bind. apply (wp_get_page_table d va t).
  { split; [done|]. exists D, (t - KB + 3). rewrite Hx. split_and!; [done..|].
    unfold CHECK_IF_KERNEL_ADDRESS. rewrite w32_small by done. rewrite bool_decide_true by lia. done. }
  cbn [snd]. rewrite decide_True by done. apply wp_bind. eapply wp_entry; [exact HL|by apply HLe|]. rewrite <- vpn_split by done. rewrite HP. cbn [default id].
  apply wp_bind. eapply wp_set_entry; [exact HL|by apply HLe|]. cbn [fst snd].
  apply wp_bind. eapply wp_entry; [cbn; apply lookup_insert_eq|rewrite list_lookup_insert_eq by lia; reflexivity|].
  eapply wp_set_entry; [cbn; apply lookup_insert_eq|rewrite list_lookup_insert_eq by lia; reflexivity|]. cbn [fst snd arrays set_arrays].
  rewrite insert_insert_eq, list_insert_insert_eq. rewrite vpn_split in HQ by done. eapply HQ.
  - by apply (tables_entry d T V P s (PDX va) t L (PTX va)).
  - split; cbn; [lia|by destruct s as [? [[] ?]]|done].
Qed.

(** ** The check of start-up passes *)
Definition stack_page : Z := vpn (EnvTable.KERN_STACK_TOP - NCPUS * EnvTable.KERNEL_STACK_SIZE).
Definition directory_entry (T V : gmap Z Z) (i : Z) : Z :=
  match V !! i with Some v => v | None => match T !! i with Some t => t - KB + 3 | None => 0 end end.
Record checked (T V P : gmap Z Z) s : Prop := {
  ck_direct k : 0 ≤ k < (ptr_free_mem s.2.1 - KB + 4095) `div` 4096 → P !! (vpn KB + k) = Some (k * 4096 + 3);
  ck_stack k : 1 ≤ k < 8 → P !! (stack_page + k) = Some (ptr_stack_bottom - KB + k * 4096 + 3);
  ck_over i : 958 ≤ i < 1024 → i ≠ 959 → V !! i = None;
  ck_used i : 0 ≤ i < 1024 → i ∈ [959; 957; 958; 955] ∨ 960 ≤ i → directory_entry T V i ≠ 0;
  ck_unused i : 0 ≤ i < 960 → i ∉ [959; 957; 958; 955] → directory_entry T V i = 0
}.
Lemma wp_loop_same (body : Z → M St unit) n s : 0 ≤ n → (∀ k, 0 ≤ k < n → wp (body k) (λ _ s', s' = s) s) →
  wp (mfor (seqZ 0 n) body) (λ _ s', s' = s) s.
Proof. intros Hn H. apply (wp_mfor_seqZ (λ _ s', s' = s)); [done|done| |done]. intros k s1 Hk ->. by apply H. Qed.
Lemma present_page a : page_aligned a → 0 ≤ a → a + 3 < 4294967296 → Z.land (a + 3) PERM_PRESENT ≠ 0 ∧ EXTRACT_ADDRESS (a + 3) = a.
Proof.
  intros Hal Ha Hb. split; [|by apply entry_address; lia || done]. destruct Hal as [q ->]. change PERM_PRESENT with (Z.ones 1). rewrite Z.land_ones by lia. change (2 ^ 1) with 2.
  replace (q * 4096 + 3) with (1 + (q * 2048 + 1) * 2) by lia. by rewrite Z_mod_plus_full.
Qed.
Lemma wp_check_direct d T V P s k : tables_map d T V P s → checked T V P s → 0 ≤ k < (ptr_free_mem s.2.1 - KB + 4095) `div` 4096 →
  wp (check_va2pa d (KB + k * PAGE_SIZE)) (λ pa s', pa = k * 4096 ∧ s' = s) s.
Proof.
  intros HM HC Hk. pose proof (mp_free _ _ _ _ _ HM) as (Hd1 & _ & Hd3 & Hf). rewrite KB_val in *. change PAGE_SIZE with 4096.
  assert (Hmul := Z.mul_div_le (ptr_free_mem s.2.1 - 4026531840 + 4095) 4096 ltac:(lia)).
  pose proof (ck_direct _ _ _ _ HC k ltac:(by rewrite KB_val)) as HP. destruct (present_page (k * 4096)) as [H1 H2]; [by exists k|lia|lia|].
  eapply wp_check_va2pa; [exact HM|lia| | |exact H1|by rewrite H2].
  - apply (ck_over _ _ _ _ HC).
    + destruct (page_indices_of (4026531840 + k * 4096)) as (-> & _ & ?); [lia|]. split; [|by apply Z.div_lt_upper_bound; lia].
      apply Z.div_le_lower_bound; lia.
    + destruct (page_indices_of (4026531840 + k * 4096)) as (-> & _ & ?); [lia|].
      assert (960 ≤ (4026531840 + k * 4096) `div` 4194304) by (apply Z.div_le_lower_bound; lia). lia.
  - rewrite <- HP. unfold vpn. rewrite KB_val. by rewrite Z.div_add by lia.
Qed.
Lemma wp_check_boot_pgdir d T V P s (Q : unit → St → Prop) : tables_map d T V P s → checked T V P s → page_aligned ptr_stack_bottom →
  KB ≤ ptr_stack_bottom → ptr_stack_bottom + 32768 ≤ 4294967296 → Q tt s → wp (check_boot_pgdir ptr_stack_bottom) Q s.
Proof.
  intros HM HC Hal Hs1 Hs2 HQ. unfold check_boot_pgdir. apply wp_bind, wp_mget. rewrite (mp_ptr _ _ _ _ _ HM). apply wp_bind, wp_bget. unfold pages.
  pose proof (mp_free _ _ _ _ _ HM) as (Hd1 & _ & Hd3 & Hf).
  apply wp_bind. eapply wp_mono; [apply wp_loop_same; [|intros k Hk]|intros ? s1 ->].
  { apply Z.div_pos; [|by vm_compute]. change PAGE_SIZE with 4096. lia. }
  { apply wp_bind. eapply wp_mono; [eapply wp_check_direct; [done|done|]|intros pa s1 [-> ->]].
    - change PAGE_SIZE with 4096 in Hk. by replace (ptr_free_mem s.2.1 - KB + 4096 - 1) with (ptr_free_mem s.2.1 - KB + 4095) in Hk by lia.
    - apply wp_assert; [|done]. by apply bool_decide_eq_true. }
  apply wp_bind. eapply wp_mono; [apply wp_loop_same; [by vm_compute|intros k Hk]|intros ? s1 ->].
  { change ((NCPUS * EnvTable.KERNEL_STACK_SIZE + PAGE_SIZE - 1) / PAGE_SIZE) with 8 in Hk. cbv zeta. case_decide as H0; [by apply wp_ret|].
    assert (k ≠ 0) by (intros ->; by apply H0). change PAGE_SIZE with 4096. rewrite KB_val in *.
    destruct (present_page (ptr_stack_bottom - 4026531840 + k * 4096)) as [H1 H2].
    { apply Z.divide_add_r; [|by exists k]. apply Z.divide_sub_r; [done|by exists 983040]. } { lia. } { lia. }
    assert (Hb : EnvTable.KERN_STACK_TOP - NCPUS * EnvTable.KERNEL_STACK_SIZE = 4022304768) by by vm_compute. rewrite Hb in *.
    apply wp_bind. eapply wp_check_va2pa; [exact HM|lia| | |exact H1|].
    - destruct (page_indices_of (4022304768 + k * 4096)) as (-> & _ & ?); [lia|]. apply (ck_over _ _ _ _ HC).
      + split; [by apply Z.div_le_lower_bound; lia|by apply Z.div_lt_upper_bound; lia].
      + assert ((4022304768 + k * 4096) `div` 4194304 < 959) by (apply Z.div_lt_upper_bound; lia). lia.
    - unfold vpn. rewrite Z.div_add by lia. change (4022304768 `div` 4096) with stack_page. rewrite (ck_stack _ _ _ _ HC) by lia. by rewrite KB_val.
    - rewrite H2. apply wp_bind. unfold STATIC_KERNEL_PHYSICAL_ADDRESS. rewrite w32_small by lia. rewrite KB_val, decide_False by lia.
      apply wp_ret, wp_assert; [|done]. by apply bool_decide_eq_true. }
  eapply wp_mono; [apply wp_loop_same; [by vm_compute|intros i Hi]|intros [] s1 ->; exact HQ].
  change NPDENTRIES with 1024 in Hi. apply wp_bind. eapply wp_boot_directory; [exact HM|done|]. fold (directory_entry T V i).
  change [PDX EnvTable.VPT; PDX EnvTable.UVPT; PDX (EnvTable.KERN_STACK_TOP - 1); PDX UENVS] with [959; 957; 958; 955]. change (PDX KERNEL_BASE) with 960.
  repeat case_decide; apply wp_assert; try done; apply bool_decide_eq_true.
  - apply (ck_used _ _ _ _ HC); tauto.
  - apply (ck_used _ _ _ _ HC); [done|right; lia].
  - apply (ck_unused _ _ _ _ HC); [lia|done].
Qed.

(** ** Paging is turned on *)
Definition with_directory (d : Z) (D : list Z) s : St := (set_arrays (<[d := D]> (arrays s.1)) s.1, s.2).
Definition same_from (n : Z) (D D' : list Z) : Prop := length D' = length D ∧ ∀ i : nat, n ≤ Z.of_nat i → D' !! i = D !! i.
Lemma wp_low_loop d D0 n s (value : Z → list Z → Z) (J : Z → list Z → Prop) (body : Z → M St unit) (Q : unit → St → Prop) :
  length D0 = 1024%nat → 0 ≤ n ≤ 64 →
  (∀ j D (R : unit → St → Prop), 0 ≤ j < n → length D = 1024%nat → R tt (with_directory d (<[Z.to_nat j := value j D]> D) s) →
     wp (body j) R (with_directory d D s)) →
  (∀ j D, 0 ≤ j < n → length D = 1024%nat → J j D → J (j + 1) (<[Z.to_nat j := value j D]> D)) → J 0 D0 →
  (∀ D, same_from n D0 D → J n D → Q tt (with_directory d D s)) → wp (mfor (seqZ 0 n) body) Q (with_directory d D0 s).
Proof.
  intros Hlen Hn Hb HJ H0 HQ. apply (wp_mfor_seqZ (λ k s', ∃ D, s' = with_directory d D s ∧ same_from n D0 D ∧ J k D)); [lia|by exists D0|..].
  - intros k s' Hk (D & -> & [HlenD HD] & HJk). apply Hb; [done|congruence|]. eexists. split; [done|]. split; [|by apply HJ; [|congruence|]].
    split; [by rewrite length_insert|]. intros i Hi. rewrite list_lookup_insert_ne by lia. by apply HD.
  - intros s' (D & -> & HD & HJn). by apply HQ.
Qed.
Definition paging_on (b : boot) : boot := lcr3 (phys_page_directory b) (lcr0 (Z.land (Z.lor (cr0 b) CR0_ON) (Z.lnot CR0_OFF)) (lcr3 (phys_page_directory b) b)).
Lemma wp_turn_on_paging d T V P s (Q : unit → St → Prop) : tables_map d T V P s → (∀ i, 0 ≤ i < 64 → directory_entry T V i = 0) →
  Q tt (s.1, (paging_on s.2.1, s.2.2)) → wp turn_on_paging Q s.
Proof.
  intros HM Hlow HQ. destruct (mp_dir _ _ _ _ _ HM) as (D & HD & Hlen & Hent). pose proof (mp_free _ _ _ _ _ HM) as (Hd1 & _ & Hd3 & Hf). rewrite KB_val in *.
  unfold turn_on_paging. apply wp_bind, wp_mget. rewrite (mp_ptr _ _ _ _ _ HM). apply wp_bind, wp_bget.
  set (n := PDX (ptr_free_mem s.2.1) - PDX KERNEL_BASE). assert (Hn : 0 ≤ n ≤ 64).
  { unfold n. destruct (page_indices_of (ptr_free_mem s.2.1)) as (-> & _ & ?); [lia|]. change (PDX KERNEL_BASE) with 960.
    assert (960 ≤ ptr_free_mem s.2.1 `div` 4194304) by (apply Z.div_le_lower_bound; lia). assert (ptr_free_mem s.2.1 `div` 4194304 < 1024) by (apply Z.div_lt_upper_bound; lia). lia. }
  assert (Hs : s = with_directory d D s).
  { unfold with_directory. rewrite insert_id by done. by destruct s as [[] ?]. }
  unfold low_entries. fold n. rewrite Hs at 1. apply wp_bind. apply (wp_low_loop d D n s (λ j D, w32 (default 0 (D !! Z.to_nat (960 + j)))) (λ _ _, True)); [done|done| |done|done|].
  { intros j D' R Hj HlenD HR. change (PDX KERNEL_BASE) with 960. destruct (lookup_lt_is_Some_2 D' (Z.to_nat (960 + j))) as [e He]; [lia|].
    destruct (lookup_lt_is_Some_2 D' (Z.to_nat j)) as [e' He']; [lia|]. apply wp_bind. eapply wp_entry; [apply lookup_insert_eq|exact He|].
    eapply wp_set_entry; [apply lookup_insert_eq|exact He'|]. rewrite He in HR. cbn. rewrite insert_insert_eq. exact HR. }
  intros D1 [HlenD1 HD1] _. apply wp_bind, wp_bget, wp_bind, wp_bset, wp_bind, wp_bget, wp_bind, wp_bset. cbn [fst snd with_directory].
  change (phys_page_directory _) with (phys_page_directory s.2.1). change (cr0 _) with (cr0 s.2.1).
  set (s2 := (s.1, (lcr0 (Z.land (Z.lor (cr0 s.2.1) CR0_ON) (Z.lnot CR0_OFF)) (lcr3 (phys_page_directory s.2.1) s.2.1), s.2.2)) : St).
  change (set_arrays (<[d := D1]> (arrays s.1)) s.1, _) with (with_directory d D1 s2). apply wp_bind.
  apply (wp_low_loop d D1 n s2 (λ _ _, 0) (λ k D', ∀ i : nat, Z.of_nat i < k → D' !! i = Some 0)); [congruence|done|..].
  - intros j D' R Hj HlenD HR. destruct (lookup_lt_is_Some_2 D' (Z.to_nat j)) as [e' He']; [lia|].
    eapply wp_set_entry; [apply lookup_insert_eq|exact He'|]. cbn. rewrite insert_insert_eq. exact HR.
  - intros j D' Hj HlenD HJ i Hi. destruct (decide (i = Z.to_nat j)) as [->|Hne]; [by rewrite list_lookup_insert_eq by lia|].
    rewrite list_lookup_insert_ne by done. apply HJ. lia.
  - lia.
  - intros D2 [HlenD2 HD2] HJ. assert (D2 = D) as ->.
    { apply list_eq. intros i. destruct (decide (Z.of_nat i < n)) as [Hi|Hi].
      - rewrite HJ by done. specialize (Hent (Z.of_nat i) ltac:(lia)). rewrite Nat2Z.id in Hent. rewrite Hent. f_equal. symmetry. apply Hlow. lia.
      - rewrite HD2, HD1 by lia. done. }
    apply wp_bset. unfold with_directory. cbn [fst snd s2]. rewrite insert_id by done. by destruct s as [[] [[] ?]].
Qed.

(** ** The steps of start-up *)
Ltac boot_fields f :=
  unfold f; cbn [ptr_free_mem phys_page_directory frames_info_at disk_frames_info_at envs_at cr3 cr0 memory_scarce_threshold_percentage fst snd].
Ltac show_room :=
  split; unfold number_of_frames; cbn [fst snd ptr_free_mem]; rewrite ?KB_val;
  repeat match goal with
  | H : frames_info ?m = _ |- context [frames_info ?m] => rewrite H
  | H : length (frames_info ?m) = _ |- context [length (frames_info ?m)] => rewrite H
  end; rewrite ?length_replicate; lia.
Lemma tables_globals d T V P m b b' x : tables_map d T V P (m, (b, x)) → ptr_free_mem b' = ptr_free_mem b → tables_map d T V P (m, (b', x)).
Proof. intros [] E. by split; cbn in *; rewrite ?E. Qed.
Lemma tables_frames d T V P m f bx : tables_map d T V P (m, bx) → length f = length (frames_info m) → tables_map d T V P (set_frames f m, bx).
Proof. intros [] E. unfold number_of_frames in *. split; cbn in *; unfold number_of_frames in *; cbn; by rewrite ?E. Qed.
Lemma grows_state n m p a1 a2 a3 a4 a5 a6 a7 x s' : grows n (m, (BOOT p a1 a2 a3 a4 a5 a6 a7, x)) s' →
  ∃ m' p', s' = (m', (BOOT p' a1 a2 a3 a4 a5 a6 a7, x)) ∧ p ≤ p' ≤ p + n ∧ frames_info m' = frames_info m.
Proof. intros [H1 H2 H3]. destruct s' as [m' bx]. cbn in *. exists m', (ptr_free_mem bx.1). by rewrite H2. Qed.
Lemma wp_boot_array d T V P size s (Q : Z → St → Prop) : tables_map d T V P s → 0 ≤ size → size ≠ 4096 → room (4095 + size) s →
  (∀ p s', tables_map d T V P s' → page_aligned p → ptr_free_mem s.2.1 ≤ p → ptr_free_mem s'.2.1 = p + size → grows (4095 + size) s s' → Q p s') →
  wp (boot_allocate_space size PAGE_SIZE) Q s.
Proof.
  intros HM Hs Hne Hr HQ. pose proof (mp_free _ _ _ _ _ HM) as (Hd1 & _ & Hd3 & Hf). apply wp_boot_allocate; [lia|done|done|].
  intros p Hal Hp. rewrite decide_False by done. destruct Hr as [Hr1 Hr2]. apply HQ; try done; try lia.
  - apply tables_move; [done|lia|lia].
  - split; cbn; [lia|done|done].
Qed.
Lemma table_domain T T' i j : table_at_most T T' i → is_Some (T' !! i) → is_Some (T' !! j) ↔ is_Some (T !! j) ∨ j = i.
Proof.
  intros [->|[Hi [p ->]]] Hs.
  - split; [by left|intros [?| ->]; done].
  - rewrite lookup_insert_is_Some'. split; intros [?|?]; auto.
Qed.
(** The first allocation. *)
Lemma wp_first_allocation s (Q : Z → St → Prop) : ptr_free_mem s.2.1 = 0 → KB ≤ end_of_kernel → end_of_kernel + 8191 < 4294967296 →
  end_of_kernel + 8191 - KB ≤ 4096 * number_of_frames s.1 →
  (∀ d, let s' := clear_table d (move_free (d + 4096) s) in page_aligned d → end_of_kernel ≤ d ≤ end_of_kernel + 4095 →
     tables_map d ∅ ∅ ∅ (set_page_directory d s'.1, s'.2) → Q d s') → wp (boot_allocate_space PAGE_SIZE PAGE_SIZE) Q s.
Proof.
  intros Hp Hk Hr Hn HQ. unfold Boot.boot_allocate_space. apply wp_bind, wp_bget. rewrite decide_True by done. change PAGE_SIZE with 4096.
  destruct (round_page end_of_kernel) as [Ha Hb]; [rewrite KB_val in *; lia|lia|]. rewrite KB_val in *.
  apply wp_bind, wp_bset. rewrite w32_small by lia. apply wp_bind. rewrite bool_decide_true by done. apply wp_mset, wp_ret.
  apply (HQ (ROUNDUP end_of_kernel 4096)); [done|done|]. split; cbn; try done.
  - exists (replicate 1024 0). rewrite lookup_insert_eq. split_and!; [done|done|]. intros i Hi. by rewrite lookup_replicate_2 by lia.
  - rewrite KB_val. split_and!; [lia|done|lia|lia].
  - rewrite KB_val. unfold number_of_frames in *. cbn. lia.
Qed.
(** The stack with its guard page. *)
Definition stack_pages (P P' : gmap Z Z) : Prop := ∀ q,
  P' !! q = if decide (q = stack_page) then Some (ptr_stack_bottom - KB + 2)
            else if decide (stack_page < q < stack_page + 8) then Some (ptr_stack_bottom - KB + (q - stack_page) * 4096 + 3) else P !! q.
Definition good_stack : Prop := page_aligned ptr_stack_bottom ∧ KB ≤ ptr_stack_bottom ∧ ptr_stack_bottom + 32768 ≤ 4294967296.
Lemma guard_entry a : page_aligned a → 0 ≤ a → a + 3 < 4294967296 → w32 (Z.land (w32 (Z.lor (a + 3) 0)) (Z.lnot PERM_PRESENT)) = a + 2.
Proof.
  intros [q ->] Ha Hb. rewrite Z.lor_0_r, (w32_small (q * 4096 + 3)) by lia. change PERM_PRESENT with (Z.ones 1).
  rewrite <- Z.ldiff_land, Z.ldiff_ones_r by lia. rewrite Z.shiftr_div_pow2, Z.shiftl_mul_pow2 by lia. change (2 ^ 1) with 2.
  replace (q * 4096 + 3) with (1 + (q * 2048 + 1) * 2) by lia. rewrite Z_div_plus_full by lia. rewrite w32_small by (change (1 `div` 2) with 0; lia).
  change (1 `div` 2) with 0. lia.
Qed.

Lemma wp_stage_stack d s k (Q : unit → St → Prop) : tables_map d ∅ ∅ ∅ s → good_stack → room 24573 s →
  (∀ T P s', tables_map d T ∅ P s' → (∀ i, is_Some (T !! i) ↔ i = 958) → stack_pages ∅ P → grows 8191 s s' → wp k Q s') →
  wp (stack ← STATIC_KERNEL_PHYSICAL_ADDRESS ptr_stack_bottom;
      boot_map_range d (EnvTable.KERN_STACK_TOP - NCPUS * EnvTable.KERNEL_STACK_SIZE) (NCPUS * EnvTable.KERNEL_STACK_SIZE) stack PERM_WRITEABLE ;;
      mfor (seqZ 0 NCPUS) (λ c, pt_set_page_permissions d (EnvTable.KERN_STACK_TOP - (c + 1) * EnvTable.KERNEL_STACK_SIZE) 0 PERM_PRESENT) ;; k) Q s.
Proof.
  intros HM (Hal & Hs1 & Hs2) [Hr1 Hr2] HQ. rewrite KB_val in Hs1.
  assert (Hphys : page_aligned (ptr_stack_bottom - 4026531840)) by (apply Z.divide_sub_r; [done|by exists 983040]).
  apply wp_bind. unfold STATIC_KERNEL_PHYSICAL_ADDRESS. rewrite w32_small, KB_val, decide_False by lia. apply wp_ret.
  change (EnvTable.KERN_STACK_TOP - NCPUS * EnvTable.KERNEL_STACK_SIZE) with 4022304768. change (NCPUS * EnvTable.KERNEL_STACK_SIZE) with 32768.
  assert (Hpdx : ∀ j, 0 ≤ j < 8 → PDX (4022304768 + j * 4096) = 958).
  { intros j Hj. destruct (page_indices_of (4022304768 + j * 4096)) as (-> & _); [lia|]. symmetry. apply (Z.div_unique _ _ _ (4161536 + j * 4096)); lia. }
  apply wp_bind. apply (wp_boot_map_range d ∅ ∅ ∅ 4022304768 (ptr_stack_bottom - 4026531840) PERM_WRITEABLE 8 958); try done; try lia.
  { by exists 982008. } { intros j Hj. rewrite Hpdx by done. split; [done|by left]. } { split; lia. }
  change (Z.lor PERM_WRITEABLE 1) with 3. intros T P s1 HM1 HP1 HT1 Hg1.
  assert (H0 : P !! vpn 4022304768 = Some (ptr_stack_bottom - 4026531840 + 3)).
  { rewrite HP1. rewrite decide_True by lia. f_equal. change (Z.lor PERM_WRITEABLE 1) with 3. lia. }
  assert (HT : is_Some (T !! 958)).
  { rewrite <- (Hpdx 0) by lia. eapply page_has_table; [exact HM1|lia|]. by rewrite Z.add_0_r. }
  apply wp_bind. change (seqZ 0 NCPUS) with [0]. cbn [mfor]. change (EnvTable.KERN_STACK_TOP - (0 + 1) * EnvTable.KERNEL_STACK_SIZE) with 4022304768.
  apply wp_bind. eapply wp_boot_permissions; [exact HM1|by vm_compute|done|exact H0|]. intros s2 HM2 Hg2. apply wp_ret.
  rewrite guard_entry in HM2 by (done || lia). eapply HQ; [exact HM2| | |].
  - intros i. rewrite (table_domain _ _ _ i HT1 HT). rewrite lookup_empty. split; [intros [[? [=]]|?]; done|by right].
  - intros q. change stack_page with (vpn 4022304768). rewrite KB_val. destruct (decide (q = vpn 4022304768)) as [->|Hne]; [by rewrite lookup_insert_eq|].
    rewrite lookup_insert_ne by done. rewrite HP1. repeat case_decide; try lia; done.
  - replace 8191 with (8191 + 0) by lia. eapply grows_trans; [|exact Hg2]. eapply grows_mono; [exact Hg1|]. apply new_tables_bound.
Qed.
(** The directory listed in itself. *)
Definition listing (d : Z) (V : gmap Z Z) : gmap Z Z := <[957 := d - KB + 5]> (<[959 := d - KB + 3]> V).
Lemma wp_setup_listing d T V P s (Q : unit → St → Prop) : tables_map d T V P s →
  (∀ s', tables_map d T (listing d V) P s' → grows 0 s s' → Q tt s') → wp setup_listing_to_all_page_tables_entries Q s.
Proof.
  intros HM HQ. destruct (mp_free _ _ _ _ _ HM) as (Hd1 & Hal & Hd3 & Hf). rewrite KB_val in *.
  assert (Hphys : page_aligned (d - 4026531840)) by (apply Z.divide_sub_r; [done|by exists 983040]).
  unfold setup_listing_to_all_page_tables_entries, STATIC_KERNEL_PHYSICAL_ADDRESS. apply wp_bind, wp_mget. rewrite (mp_ptr _ _ _ _ _ HM).
  rewrite w32_small, KB_val, decide_False by lia. apply wp_bind, wp_ret, wp_bind. rewrite aligned_entry by (done || lia || by vm_compute).
  change (Z.lor PERM_PRESENT PERM_WRITEABLE) with 3.
  eapply wp_set_directory; [exact HM|by vm_compute|lia|]. intros s1 HM1 Hg1. apply wp_bind, wp_ret.
  rewrite <- Z.lor_assoc. change (Z.lor PERM_USER PERM_PRESENT) with 5. rewrite aligned_lor by (done || lia).
  eapply wp_set_directory; [exact HM1|by vm_compute|lia|]. intros s2 HM2 Hg2.
  eapply HQ; [unfold listing; rewrite KB_val; exact HM2|]. change 0 with (0 + 0). by eapply grows_trans.
Qed.

(** The array of environments, shown to users. *)
Definition envs_size : Z := EnvTable.NENV * EnvTable.sizeof_Env.
Definition envs_pages (envs : Z) (P P' : gmap Z Z) : Prop := mapped_to UENVS (envs - KB) PERM_USER 256 P P'.
Lemma user_table_entry a : page_aligned a → 0 ≤ a → a + 7 < 4294967296 →
  Z.lor (a + 3) (Z.lor PERM_USER (Z.land PERM_PRESENT (Z.lnot PERM_WRITEABLE))) = a + 7.
Proof.
  intros Hal Ha Hb. change (Z.lor PERM_USER (Z.land PERM_PRESENT (Z.lnot PERM_WRITEABLE))) with 5.
  rewrite <- (aligned_lor a 3) by (done || lia). rewrite <- Z.lor_assoc. change (Z.lor 3 5) with 7. apply aligned_lor; done || lia.
Qed.
Lemma wp_stage_envs d T V P m p a1 a2 a3 a4 a5 a6 a7 x k (Q : unit → St → Prop) :
  tables_map d T V P (m, (BOOT p a1 a2 a3 a4 a5 a6 a7, x)) → V !! 955 = None → room (4095 + envs_size + 16382) (m, (BOOT p a1 a2 a3 a4 a5 a6 a7, x)) →
  (∀ en t T' P' m' p', tables_map d T' (<[955 := t - KB + 7]> V) P' (m', (BOOT p' a1 a2 a3 en a5 a6 a7, x)) → T' !! 955 = Some t →
     (∀ i, is_Some (T' !! i) ↔ is_Some (T !! i) ∨ i = 955) → envs_pages en P P' → page_aligned en → p ≤ en → en + envs_size ≤ p' →
     p' ≤ p + (4095 + envs_size + 8191) → frames_info m' = frames_info m → wp k Q (m', (BOOT p' a1 a2 a3 en a5 a6 a7, x))) →
  wp (let envs_size := EnvTable.NENV * EnvTable.sizeof_Env in
      en ← boot_allocate_space envs_size PAGE_SIZE;
      bset (set_envs en) ;;
      phys ← STATIC_KERNEL_PHYSICAL_ADDRESS en;
      boot_map_range d UENVS envs_size phys PERM_USER ;;
      e ← entry d (PDX UENVS);
      set_entry d (PDX UENVS) (Z.lor e (Z.lor PERM_USER (Z.land PERM_PRESENT (Z.lnot PERM_WRITEABLE)))) ;; k) Q (m, (BOOT p a1 a2 a3 a4 a5 a6 a7, x)).
Proof.
  intros HM HV Hr HQ. cbv zeta. fold envs_size. assert (Hu : UENVS = 4005560320) by by vm_compute. assert (He : envs_size = 1047840) by by vm_compute.
  pose proof (mp_free _ _ _ _ _ HM) as (Hd1 & _ & Hd3 & _). destruct Hr as [Hr1 Hr2]. unfold number_of_frames in *. cbn [fst snd ptr_free_mem] in *. rewrite KB_val in *.
  apply wp_bind. eapply wp_boot_array; [exact HM|lia|lia|split; unfold number_of_frames; cbn [fst snd ptr_free_mem]; rewrite ?KB_val; lia|].
  intros en s1 HM1 Hal Hen Hp1 Hg1. destruct (grows_state _ _ _ _ _ _ _ _ _ _ _ _ Hg1) as (m1 & p1 & -> & Hb1 & Hf1). cbn [fst snd ptr_free_mem] in *.
  apply wp_bind, wp_bset. cbn [fst snd]. unfold set_envs. cbn [ptr_free_mem phys_page_directory frames_info_at disk_frames_info_at cr3 cr0 memory_scarce_threshold_percentage].
  assert (HM2 := tables_globals _ _ _ _ _ _ (BOOT p1 a1 a2 a3 en a5 a6 a7) _ HM1 eq_refl).
  apply wp_bind. unfold STATIC_KERNEL_PHYSICAL_ADDRESS. rewrite w32_small, KB_val, decide_False by lia. apply wp_ret.
  assert (Hpdx : ∀ j, 0 ≤ j < 256 → PDX (UENVS + j * 4096) = 955).
  { intros j Hj. change UENVS with 4005560320. destruct (page_indices_of (4005560320 + j * 4096)) as (-> & _); [lia|]. symmetry. apply (Z.div_unique _ _ _ (j * 4096)); lia. }
  assert (Hphys : page_aligned (en - 4026531840)) by (apply Z.divide_sub_r; [done|by exists 983040]).
  apply wp_bind. apply (wp_boot_map_range d T V P UENVS (en - 4026531840) PERM_USER 256 955 _ _ HM2); rewrite ?Hu; try done; try lia.
  { by exists 977920. } { intros j Hj. rewrite Hpdx by done. split; [done|by left]. }
  { split; unfold number_of_frames; cbn [fst snd ptr_free_mem]; rewrite ?KB_val, ?Hf1; lia. }
  intros T3 P3 s3 HM3 HP3 HT3 Hg3. destruct (grows_state _ _ _ _ _ _ _ _ _ _ _ _ Hg3) as (m3 & p3 & -> & Hb3 & Hf3).
  pose proof (new_tables_bound T T3 955) as Hnt.
  assert (HT : is_Some (T3 !! 955)).
  { rewrite <- (Hpdx 0) by lia. eapply page_has_table; [exact HM3|by vm_compute|]. rewrite HP3. by rewrite decide_True by by vm_compute. }
  destruct HT as [t HT]. destruct (table_entry_facts _ _ _ _ _ _ _ HM3 HT) as (Ht1 & Ht2 & _).
  destruct (mp_table _ _ _ _ _ HM3 _ _ HT) as (_ & _ & _ & Ht3 & _). pose proof (mp_free _ _ _ _ _ HM3) as (_ & _ & _ & Hf). cbn [fst snd ptr_free_mem] in *.
  apply wp_bind. change (PDX 4005560320) with 955. eapply wp_boot_directory; [exact HM3|lia|]. rewrite HV, HT. rewrite user_table_entry by (done || rewrite KB_val in *; lia).
  apply wp_bind. eapply wp_set_directory; [exact HM3|lia|rewrite KB_val in *; lia|]. intros s4 HM4 Hg4.
  destruct (grows_state _ _ _ _ _ _ _ _ _ _ _ _ Hg4) as (m4 & p4 & -> & Hb4 & Hf4).
  eapply HQ; [exact HM4|exact HT|intros i; apply table_domain; by try eexists|by unfold envs_pages; rewrite KB_val|done|lia|lia|lia|congruence].
Qed.
(** The memory in use, mapped at KERNEL_BASE. *)
Definition direct_pages (p : Z) (P P' : gmap Z Z) : Prop := ∀ q,
  P' !! q = if decide (983040 ≤ q < vpn (p + 4095)) then Some ((q - 983040) * 4096 + 3) else P !! q.
Lemma wp_stage_direct d T V P s k (Q : unit → St → Prop) : tables_map d T V P s → (∀ i, 960 ≤ i < 1024 → V !! i = None ∧ is_Some (T !! i)) → room 16382 s →
  (∀ P' s', tables_map d T V P' s' → direct_pages (ptr_free_mem s.2.1) P P' → grows 0 s s' → wp k Q s') →
  wp (p ← bget ptr_free_mem; boot_map_range d KERNEL_BASE (w32 (p - KERNEL_BASE)) 0 PERM_WRITEABLE ;; k) Q s.
Proof.
  intros HM HT [Hr1 Hr2] HQ. pose proof (mp_free _ _ _ _ _ HM) as (Hd1 & _ & Hd3 & _). rewrite KB_val in *. apply wp_bind, wp_bget. rewrite w32_small by lia.
  set (p := ptr_free_mem s.2.1) in *. set (n := (p - 4026531840 + 4095) `div` 4096).
  assert (Hn := Z.mul_div_le (p - 4026531840 + 4095) 4096 ltac:(lia)). fold n in Hn. assert (0 ≤ n) by (apply Z.div_pos; lia).
  assert (Hpdx : ∀ j, 0 ≤ j < n → 960 ≤ PDX (4026531840 + j * 4096) < 1024).
  { intros j Hj. destruct (page_indices_of (4026531840 + j * 4096)) as (-> & _ & ?); [lia|].
    split; [apply Z.div_le_lower_bound; lia|apply Z.div_lt_upper_bound; lia]. }
  apply wp_bind. eapply (wp_boot_map_range d T V P 4026531840 0 PERM_WRITEABLE n 960 s _ HM); try done; try lia.
  { by exists 983040. } { by exists 0. } { intros j Hj. destruct (HT _ (Hpdx j Hj)). split; [done|by right]. }
  intros T' P' s' HM' HP' HT' Hg. change (Z.lor PERM_WRITEABLE 1) with 3 in HP'.
  destruct (HT 960 ltac:(lia)) as [_ [t H960]]. destruct HT' as [->|[HN _]]; [|congruence].
  unfold new_tables in Hg. rewrite decide_False in Hg by (intros [_ ?]; congruence). eapply HQ; [exact HM'| |exact Hg].
  intros q. rewrite HP'. unfold vpn. change (4026531840 `div` 4096) with 983040.
  replace ((p + 4095) `div` 4096) with (983040 + n); [|unfold n; replace (p + 4095) with (p - 4026531840 + 4095 + 983040 * 4096) by lia; rewrite Z.div_add by lia; lia].
  change (Z.lor PERM_WRITEABLE 1) with 3. by rewrite Z.add_0_l.
Qed.

(** ** The state after start-up *)

(** What the processor reads for an address: the directory entry and, when
    that is present, the page table entry. *)
Definition walk s (va : Z) : option (Z * option Z) :=
  D ← arrays s.1 !! (cr3 s.2.1 + KB);
  pde ← D !! Z.to_nat (PDX va);
  if decide (Z.land pde PERM_PRESENT = 0) then Some (pde, None) else
  L ← arrays s.1 !! (EXTRACT_ADDRESS pde + KB);
  pte ← L !! Z.to_nat (PTX va);
  Some (pde, Some pte).
(** The entry of page [q]. *)
Definition boot_page (b : boot) (q : Z) : Z :=
  if decide (983040 ≤ q < vpn (ptr_free_mem b + 4095)) then (q - 983040) * 4096 + 3
  else if decide (q = stack_page) then ptr_stack_bottom - KB + 2
  else if decide (stack_page < q < stack_page + 8) then ptr_stack_bottom - KB + (q - stack_page) * 4096 + 3
  else if decide (vpn UENVS ≤ q < vpn UENVS + 256) then envs_at b - KB + (q - vpn UENVS) * 4096 + 5
  else 0.
Definition has_boot_table (i : Z) : Prop := i = 955 ∨ i = 958 ∨ 960 ≤ i < 1024.
Record boot_tables_map (d : Z) (T V P : gmap Z Z) s : Prop := {
  bt_map : tables_map d T V P s;
  bt_tables i : is_Some (T !! i) ↔ has_boot_table i;
  bt_over i : V !! i = if decide (i = 955) then Some (default 0 (T !! 955) - KB + 7)
    else if decide (i = 957) then Some (d - KB + 5) else if decide (i = 959) then Some (d - KB + 3) else None;
  bt_pages q : default 0 (P !! q) = boot_page s.2.1 q
}.
Lemma present_low a low : page_aligned a → 0 ≤ a → a + low < 4294967296 → 0 ≤ low < 4096 → ∀ b, 0 ≤ b < 4096 → Z.land (a + low) b = Z.land low b.
Proof.
  intros Hal Ha Hb Hl b Hbb. rewrite <- aligned_lor by done. rewrite Z.land_lor_distr_l.
  assert (Z.land a b = 0) as ->; [|done]. destruct Hal as [q ->]. change 4096 with (2 ^ 12) in *.
  apply Z.bits_inj'. intros n Hn. rewrite Z.land_spec, Z.bits_0. destruct (decide (n < 12)) as [Hlt|Hge]; [by rewrite Z.mul_pow2_bits_low|].
  rewrite (Z.bits_above_log2 b n); [by rewrite andb_false_r|lia|]. destruct (decide (b = 0)) as [->|]; [cbn; lia|].
  apply (Z.log2_lt_pow2 b n); [lia|]. apply (Z.lt_le_trans _ (2 ^ 12)); [lia|]. apply Z.pow_le_mono_r; lia.
Qed.
(** A directory entry other than the two listings leads to the table of its pages. *)
Lemma walk_table d T V P s va i low t : tables_map d T V P s → cr3 s.2.1 = d - KB → 0 ≤ va < 4294967296 → PDX va = i → T !! i = Some t →
  directory_entry T V i = t - KB + low → 0 ≤ low < 4096 → Z.land low PERM_PRESENT ≠ 0 →
  walk s va = Some (t - KB + low, Some (default 0 (P !! vpn va))).
Proof.
  intros HM Hcr Hva Hi HT He Hlow Hp. destruct (page_indices_of va Hva) as (_ & Hj & Hpdx). destruct (mp_dir _ _ _ _ _ HM) as (D & HD & Hlen & Hent).
  destruct (table_entry_facts _ _ _ _ _ _ _ HM HT) as (Hal & Hpos & _).
  destruct (mp_table _ _ _ _ _ HM _ _ HT) as (_ & _ & _ & Ht3 & _ & L & HL & HlenL & HLe). pose proof (mp_free _ _ _ _ _ HM) as (_ & _ & _ & Hf).
  unfold walk. rewrite Hcr, Z.sub_add, HD. cbn [mbind option_bind]. rewrite Hent by done. fold (directory_entry T V (PDX va)). rewrite Hi, He. cbn [mbind option_bind].
  rewrite KB_val in *. rewrite decide_False by (rewrite present_low by (done || lia || by vm_compute); done).
  rewrite entry_address by (done || lia). rewrite Z.sub_add, HL. cbn [mbind option_bind].
  rewrite HLe by (rewrite Hj; apply Z.mod_pos_bound; lia). cbn [mbind option_bind]. by rewrite <- Hi, <- vpn_split.
Qed.
Lemma walk_listing d T V P s i k low : tables_map d T V P s → cr3 s.2.1 = d - KB → 0 ≤ i < 1024 → 0 ≤ k < 1024 →
  directory_entry T V i = d - KB + low → 0 ≤ low < 4096 → Z.land low PERM_PRESENT ≠ 0 →
  walk s (i * 4194304 + k * 4096) = Some (d - KB + low, Some (directory_entry T V k)).
Proof.
  intros HM Hcr Hi Hk He Hlow Hp. destruct (page_indices_of (i * 4194304 + k * 4096)) as (Hpdx & Hptx & _); [lia|].
  rewrite Z.div_add_l, (Z.div_small (k * 4096)), Z.add_0_r in Hpdx by lia.
  assert (Hk2 : PTX (i * 4194304 + k * 4096) = k).
  { rewrite Hptx. replace (i * 4194304 + k * 4096) with ((i * 1024 + k) * 4096) by lia. rewrite Z.div_mul by lia.
    rewrite Z.add_comm, Z_mod_plus_full. by apply Z.mod_small. }
  destruct (mp_dir _ _ _ _ _ HM) as (D & HD & Hlen & Hent). destruct (mp_free _ _ _ _ _ HM) as (Hd1 & Hal & Hd3 & Hf).
  assert (Hphys : page_aligned (d - KB)) by (apply Z.divide_sub_r; [done|by exists 983040]).
  unfold walk. rewrite Hcr, Z.sub_add, HD. cbn [mbind option_bind]. rewrite Hpdx, Hent by done. fold (directory_entry T V i). rewrite He. cbn [mbind option_bind]. rewrite KB_val in *.
  rewrite decide_False by (rewrite present_low by (done || lia || by vm_compute); done).
  rewrite entry_address by (done || lia). rewrite Z.sub_add, HD. cbn [mbind option_bind]. rewrite Hk2, Hent by done. unfold directory_entry. by rewrite KB_val.
Qed.

(** What the steps build, put together. *)
Lemma default_some {A} (a b : A) (o : option A) : default a o = b → b ≠ a → o = Some b.
Proof. destruct o; cbn; congruence. Qed.
Lemma table_or d T V P s i : boot_tables_map d T V P s → T !! i = None ↔ ¬ has_boot_table i.
Proof. intros HB. rewrite <- (bt_tables _ _ _ _ _ HB). rewrite eq_None_not_Some. done. Qed.
(** Each entry of the directory, and the table it leads to. *)
Lemma boot_entry d T V P s i : boot_tables_map d T V P s → 0 ≤ i < 1024 → i ≠ 957 → i ≠ 959 →
  (¬ has_boot_table i ∧ T !! i = None ∧ directory_entry T V i = 0) ∨
  (∃ t, has_boot_table i ∧ T !! i = Some t ∧ directory_entry T V i = t - KB + (if decide (i = 955) then 7 else 3)).
Proof.
  intros HB Hi H957 H959. unfold directory_entry. rewrite (bt_over _ _ _ _ _ HB). rewrite !(decide_False (P := i = 957)), !(decide_False (P := i = 959)) by done.
  destruct (T !! i) as [t|] eqn:HT.
  - right. exists t. assert (has_boot_table i) by (apply (bt_tables _ _ _ _ _ HB); by exists t). split_and!; [done|done|].
    destruct (decide (i = 955)) as [->|]; [by rewrite HT|done].
  - left. pose proof HT as Hno. apply (table_or _ _ _ _ _ _ HB) in Hno. split_and!; [done|done|]. rewrite decide_False; [done|]. intros ->. apply Hno. by left.
Qed.
Lemma boot_listing d T V P s : boot_tables_map d T V P s → directory_entry T V 959 = d - KB + 3 ∧ directory_entry T V 957 = d - KB + 5.
Proof. intros HB. unfold directory_entry. by rewrite !(bt_over _ _ _ _ _ HB). Qed.
Lemma table_positive d T V P s i t : boot_tables_map d T V P s → T !! i = Some t → 0 < t - KB.
Proof. intros HB HT. destruct (table_entry_facts _ _ _ _ _ _ _ (bt_map _ _ _ _ _ HB) HT) as (_ & ? & _). lia. Qed.
Lemma boot_checked d T V P s : boot_tables_map d T V P s → good_stack → checked T V P s.
Proof.
  intros HB (Hal & Hs1 & Hs2). pose proof (mp_free _ _ _ _ _ (bt_map _ _ _ _ _ HB)) as (Hd1 & _ & Hd3 & Hf). rewrite KB_val in Hs1, Hd1. split.
  - intros k Hk. rewrite KB_val in Hk. change (vpn KB) with 983040. apply (default_some 0); [|lia]. rewrite (bt_pages _ _ _ _ _ HB). unfold boot_page. rewrite decide_True; [lia|].
    unfold vpn. replace (ptr_free_mem s.2.1 + 4095) with (ptr_free_mem s.2.1 - 4026531840 + 4095 + 983040 * 4096) by lia. rewrite Z.div_add by lia. lia.
  - intros k Hk. apply (default_some 0); [|rewrite KB_val; lia]. rewrite (bt_pages _ _ _ _ _ HB). unfold boot_page. change stack_page with 982008.
    rewrite decide_False, decide_False, decide_True by lia. lia.
  - intros i Hi Hne. rewrite (bt_over _ _ _ _ _ HB). by rewrite !decide_False by lia.
  - intros i Hi Hin. destruct (boot_listing _ _ _ _ _ HB) as [H1 H2]. destruct (decide (i = 957)) as [->|]; [rewrite H2, KB_val; lia|].
    destruct (decide (i = 959)) as [->|]; [rewrite H1, KB_val; lia|].
    destruct (boot_entry _ _ _ _ _ i HB Hi) as [(Hno & _)|(t & _ & HT & He)]; [done|done| |].
    + exfalso. apply Hno. unfold has_boot_table. rewrite !elem_of_cons, elem_of_nil in Hin. lia.
    + pose proof (table_positive _ _ _ _ _ _ _ HB HT). case_decide; lia.
  - intros i Hi Hin. rewrite !elem_of_cons, elem_of_nil in Hin. destruct (boot_entry _ _ _ _ _ i HB) as [(_ & _ & He)|(t & Ht & _)]; [lia|tauto|tauto|done|].
    unfold has_boot_table in Ht. lia.
Qed.
Definition boot_size (n : Z) : Z := sizeof_FrameInfo * n + PAGES_PER_FILE * sizeof_FrameInfo + envs_size + 600000.
Record boot_start s : Prop := {
  bs_first : ptr_free_mem s.2.1 = 0;
  bs_kernel : KB ≤ end_of_kernel;
  bs_stack : good_stack;
  bs_room : end_of_kernel + boot_size (number_of_frames s.1) < 4294967296;
  bs_physical : end_of_kernel + boot_size (number_of_frames s.1) - KB ≤ 4096 * number_of_frames s.1
}.

Record boot_memory (d : Z) s s' : Prop := {
  bm_directory : end_of_kernel ≤ d ∧ d + PAGE_SIZE ≤ frames_info_at s'.2.1;
  bm_frames_info : frames_info_at s'.2.1 + sizeof_FrameInfo * number_of_frames s.1 ≤ disk_frames_info_at s'.2.1;
  bm_disk : disk_frames_info_at s'.2.1 + PAGES_PER_FILE * sizeof_FrameInfo ≤ envs_at s'.2.1;
  bm_envs : page_aligned (envs_at s'.2.1) ∧ envs_at s'.2.1 + envs_size ≤ ptr_free_mem s'.2.1;
  bm_end : ptr_free_mem s'.2.1 ≤ end_of_kernel + boot_size (number_of_frames s.1)
}.
Record boot_registers (d : Z) s s' : Prop := {
  br_directory : phys_page_directory s'.2.1 = d - KB ∧ cr3 s'.2.1 = d - KB;
  br_cr0 : cr0 s'.2.1 = Z.land (Z.lor (cr0 s.2.1) CR0_ON) (Z.lnot CR0_OFF);
  br_threshold : memory_scarce_threshold_percentage s'.2.1 = 25;
  br_frames : frames_info s'.1 = replicate (length (frames_info s.1)) zero_frame;
  br_other : s'.2.2 = s.2.2
}.
(** The steps after the kernel's tables are made. *)
Lemma boot_pages_of T1 T2 T3 P1 P2 P3 d en t p s : s.2.1.(ptr_free_mem) = p → envs_at s.2.1 = en → T3 !! 955 = Some t →
  (∀ i, is_Some (T1 !! i) ↔ i = 958) → has_tables T1 T2 64 → (∀ i, is_Some (T3 !! i) ↔ is_Some (T2 !! i) ∨ i = 955) →
  stack_pages ∅ P1 → envs_pages en P1 P2 → direct_pages p P2 P3 → tables_map d T3 (<[955 := t - KB + 7]> (listing d ∅)) P3 s →
  boot_tables_map d T3 (<[955 := t - KB + 7]> (listing d ∅)) P3 s.
Proof.
  intros <- <- HT HT1 HT2 HT3 HP1 HP2 HP3 HM. split; [done|..].
  - intros i. rewrite HT3, (HT2 i), HT1. unfold has_boot_table. lia.
  - intros i. rewrite HT. cbn [default id]. unfold listing. repeat case_decide; subst; rewrite ?lookup_insert_eq; try done; rewrite lookup_insert_ne by done;
      rewrite ?lookup_insert_eq; try done; rewrite lookup_insert_ne by done; rewrite ?lookup_insert_eq; try done. by rewrite lookup_insert_ne.
  - intros q. unfold boot_page. rewrite (HP3 q), (HP2 q), (HP1 q), lookup_empty. change (vpn UENVS) with 977920. change stack_page with 982008.
    change (Z.lor PERM_USER 1) with 5. repeat case_decide; try lia; done.
Qed.
Lemma initialize_kernel_VM_state s (Q : unit → St → Prop) : boot_start s →
  (∀ d T V P s', boot_tables_map d T V P s' → boot_memory d s s' → boot_registers d s s' → Q tt s') →
  wp (initialize_kernel_VM end_of_kernel ptr_stack_bottom) Q s.
Proof.
  intros [Hp0 Hk Hst Hr Hn] HQ. destruct s as [m [[p a1 a2 a3 a4 a5 a6 a7] x]]. unfold boot_size, number_of_frames in *. cbn [fst snd ptr_free_mem cr0] in *.
  assert (He : envs_size = 1047840) by by vm_compute. assert (Hd : PAGES_PER_FILE * sizeof_FrameInfo = 3194880) by by vm_compute. change sizeof_FrameInfo with 24 in *. rewrite He, Hd in *.
  unfold initialize_kernel_VM. apply wp_bind. apply wp_first_allocation; [done|done|lia|cbn [fst]; unfold number_of_frames; lia|].
  intros d s1 Hal Hdb HM1. apply wp_bind, wp_mset. unfold s1 in *. cbn [fst snd clear_table move_free set_ptr_free_mem] in *. clear s1.
  set (m1 := set_page_directory d _) in *. assert (Hf1 : frames_info m1 = frames_info m) by done.
  change (set_page_directory d (set_arrays (<[d:=replicate 1024 0]> (arrays m)) m)) with m1. clearbody m1. unfold set_ptr_free_mem in *. cbn [ptr_free_mem phys_page_directory frames_info_at disk_frames_info_at envs_at cr3 cr0 memory_scarce_threshold_percentage fst snd] in *.
  rewrite KB_val in *. apply wp_bind. unfold STATIC_KERNEL_PHYSICAL_ADDRESS at 1. rewrite w32_small, KB_val, decide_False by lia. apply wp_ret.
  apply wp_bind, wp_bset. boot_fields set_phys_page_directory.
  apply wp_bind, wp_assert; [done|]. assert (HM2 := tables_globals _ _ _ _ _ _ (BOOT (d + 4096) (d - 4026531840) a2 a3 a4 a5 a6 a7) _ HM1 eq_refl).
  eapply wp_stage_stack; [exact HM2|done|show_room|].
  intros T1 P1 s3 HM3 HT1 HP1 Hg3. destruct (grows_state _ _ _ _ _ _ _ _ _ _ _ _ Hg3) as (m3 & p3 & -> & Hb3 & Hf3).
  apply wp_bind. eapply wp_boot_tables; [exact HM3|done|show_room|].
  intros T2 s4 HM4 HT2 Hg4. destruct (grows_state _ _ _ _ _ _ _ _ _ _ _ _ Hg4) as (m4 & p4 & -> & Hb4 & Hf4).
  assert (Hfr4 : frames_info m4 = frames_info m) by congruence.
  apply wp_bind, wp_mget. cbn [fst]. unfold number_of_frames at 1. rewrite Hfr4. change sizeof_FrameInfo with 24. rewrite (w32_small (_ * 24)) by lia.
  apply wp_bind. eapply wp_boot_array; [exact HM4|lia|lia|show_room|].
  intros fi s5 HM5 _ Hfi Hp5 Hg5. destruct (grows_state _ _ _ _ _ _ _ _ _ _ _ _ Hg5) as (m5 & p5 & -> & Hb5 & Hf5). cbn [fst snd ptr_free_mem] in *.
  apply wp_bind, wp_bset. boot_fields set_frames_info.
  apply wp_bind, wp_mset. cbn [fst snd]. assert (HM6 := tables_globals _ _ _ _ _ _ (BOOT p5 (d - 4026531840) fi a3 a4 a5 a6 a7) _ HM5 eq_refl).
  apply (tables_frames _ _ _ _ _ (replicate (length (frames_info m5)) zero_frame)) in HM6; [|by rewrite length_replicate].
  set (m6 := set_frames _ m5) in *. assert (Hf6 : frames_info m6 = replicate (length (frames_info m)) zero_frame) by (cbn; by rewrite Hf5, Hfr4). clearbody m6.
  assert (Hlen6 : length (frames_info m6) = length (frames_info m)) by (by rewrite Hf6, length_replicate).
  rewrite Hd. apply wp_bind. eapply wp_boot_array; [exact HM6|lia|lia|show_room|].
  intros di s7 HM7 _ Hdi Hp7 Hg7. destruct (grows_state _ _ _ _ _ _ _ _ _ _ _ _ Hg7) as (m7 & p7 & -> & Hb7 & Hf7). cbn [fst snd ptr_free_mem] in *.
  apply wp_bind, wp_bset. boot_fields set_disk_frames_info.
  assert (HM8 := tables_globals _ _ _ _ _ _ (BOOT p7 (d - 4026531840) fi di a4 a5 a6 a7) _ HM7 eq_refl).
  apply wp_bind. eapply wp_setup_listing; [exact HM8|]. intros s9 HM9 Hg9. destruct (grows_state _ _ _ _ _ _ _ _ _ _ _ _ Hg9) as (m9 & p9 & -> & Hb9 & Hf9).
  apply wp_stage_envs with (T := T2) (V := listing d ∅) (P := P1); [exact HM9|done|rewrite He; show_room|].
  intros en t T3 P2 m10 p10 HM10 HTt HT3 HP2 Hen Hen1 Hen2 Hp10 Hf10. rewrite He in *.
  assert (Hlen10 : frames_info m10 = replicate (length (frames_info m)) zero_frame) by congruence.
  eapply wp_stage_direct; [exact HM10| |show_room|].
  { intros i Hi. rewrite lookup_insert_ne by lia. unfold listing. rewrite !lookup_insert_ne by lia. split; [done|]. apply HT3. left. apply HT2. right. lia. }
  intros P3 s11 HM11 HP3 Hg11. destruct (grows_state _ _ _ _ _ _ _ _ _ _ _ _ Hg11) as (m11 & p11 & -> & Hb11 & Hf11). cbn [fst snd ptr_free_mem] in *.
  assert (p11 = p10) as -> by lia.
  assert (HB := λ s, boot_pages_of T1 T2 T3 P1 P2 P3 d en t p10 s). 
  assert (HB11 := HB (m11, (BOOT p10 (d - 4026531840) fi di en a5 a6 a7, x)) eq_refl eq_refl HTt HT1 HT2 HT3 HP1 HP2 HP3 HM11).
  apply wp_bind. eapply wp_check_boot_pgdir; [exact HM11|by eapply boot_checked|apply Hst..|].
  apply wp_bind, wp_bset. boot_fields set_threshold.
  eapply wp_turn_on_paging; [eapply tables_globals; [exact HM11|reflexivity]| |].
  { intros i Hi. destruct (boot_entry _ _ _ _ _ i HB11) as [(_ & _ & E)|(? & Hh & _)]; [lia|lia|lia|exact E|unfold has_boot_table in Hh; lia]. }
  cbn [fst snd]. eapply (HQ d T3 _ P3).
  - apply HB; try done. eapply tables_globals; [exact HM11|reflexivity].
  - split; unfold boot_size, number_of_frames; cbn [paging_on lcr3 lcr0 ptr_free_mem phys_page_directory cr0 frames_info_at disk_frames_info_at envs_at fst snd]; change sizeof_FrameInfo with 24; change PAGE_SIZE with 4096; rewrite ?He, ?Hd; split_and?; try done; lia.
  - split; cbn; rewrite ?KB_val; try done. by rewrite Hf11, Hlen10.
Qed.

(** ** Start-up is correct *)
Record started s s' : Prop := {
  su_memory : boot_memory (ptr_page_directory s'.1) s s';
  su_registers : boot_registers (ptr_page_directory s'.1) s s';
  su_page va : 0 ≤ va < 4294967296 → PDX va ≠ 957 → PDX va ≠ 959 →
    ∃ pde pte, walk s' va = Some (pde, pte) ∧ default 0 pte = boot_page s'.2.1 (vpn va) ∧ (Z.land pde PERM_USER ≠ 0 ↔ PDX va = 955);
  su_listing k : 0 ≤ k < 1024 →
    ∃ pde, (∃ pte, walk s' (k * EnvTable.PTSIZE) = Some (pde, pte)) ∧
      walk s' (EnvTable.VPT + k * PAGE_SIZE) = Some (ptr_page_directory s'.1 - KB + 3, Some pde) ∧
      walk s' (EnvTable.UVPT + k * PAGE_SIZE) = Some (ptr_page_directory s'.1 - KB + 5, Some pde);
  su_kernel va : KB ≤ va < 4294967296 → ∃ t, EnvTableThm.kernel_table va t s'.1
}.
Lemma boot_walk d T V P s va : boot_tables_map d T V P s → cr3 s.2.1 = d - KB → 0 ≤ va < 4294967296 → PDX va ≠ 957 → PDX va ≠ 959 →
  ∃ pte, walk s va = Some (directory_entry T V (PDX va), pte) ∧ default 0 pte = boot_page s.2.1 (vpn va).
Proof.
  intros HB Hcr Hva H1 H2. pose proof (bt_map _ _ _ _ _ HB) as HM. destruct (page_indices_of va Hva) as (_ & Hptx & Hpdx).
  rewrite <- (bt_pages _ _ _ _ _ HB). destruct (boot_entry _ _ _ _ _ _ HB Hpdx H1 H2) as [(_ & HT & He)|(t & _ & HT & He)].
  - exists None. destruct (mp_dir _ _ _ _ _ HM) as (D & HD & _ & Hent). split.
    + unfold walk. rewrite Hcr, Z.sub_add, HD. cbn [mbind option_bind]. rewrite Hent by done. fold (directory_entry T V (PDX va)). by rewrite He.
    + destruct (P !! vpn va) as [e|] eqn:HP; [|done]. apply (page_has_table _ _ _ _ _ _ _ HM Hva) in HP as [t HP]. congruence.
  - eexists. rewrite He. split; [eapply walk_table; try done; case_decide; done|done].
Qed.
Lemma user_entry d T V P s i : boot_tables_map d T V P s → 0 ≤ i < 1024 → i ≠ 957 → i ≠ 959 → Z.land (directory_entry T V i) PERM_USER ≠ 0 ↔ i = 955.
Proof.
  intros HB Hi H1 H2. destruct (boot_entry _ _ _ _ _ _ HB Hi H1 H2) as [(Hno & _ & ->)|(t & _ & HT & ->)].
  - split; [done|]. intros ->. destruct Hno. by left.
  - pose proof (bt_map _ _ _ _ _ HB) as HM. destruct (table_entry_facts _ _ _ _ _ _ _ HM HT) as (Hal & Ht & _).
    destruct (mp_table _ _ _ _ _ HM _ _ HT) as (_ & _ & _ & Ht2 & _). pose proof (mp_free _ _ _ _ _ HM) as (_ & _ & _ & Hf). rewrite KB_val in *.
    case_decide; rewrite present_low by (done || lia || by vm_compute); split; try done; intros ?; by subst.
Qed.
Lemma boot_started d T V P s s' : boot_tables_map d T V P s' → boot_memory d s s' → boot_registers d s s' → started s s'.
Proof.
  intros HB Hm Hr. pose proof (bt_map _ _ _ _ _ HB) as HM. destruct (mp_ptr _ _ _ _ _ HM). destruct (br_directory _ _ _ Hr) as [_ Hcr].
  destruct (boot_listing _ _ _ _ _ HB) as [H959 H957]. split; [done|done|..].
  - intros va Hva H1 H2. destruct (boot_walk _ _ _ _ _ _ HB Hcr Hva H1 H2) as (pte & Hw & Hp). eexists _, pte. split_and!; [exact Hw|done|].
    refine (user_entry _ _ _ _ _ _ HB _ H1 H2). apply (page_indices_of va Hva).
  - intros k Hk. exists (directory_entry T V k). change EnvTable.PTSIZE with 4194304. change EnvTable.VPT with (959 * 4194304). change EnvTable.UVPT with (957 * 4194304).
    change PAGE_SIZE with 4096. split_and!; [|by eapply walk_listing|by eapply walk_listing].
    destruct (decide (k = 957)) as [->|Hn1]; [|destruct (decide (k = 959)) as [->|Hn2]].
    + rewrite H957. eexists. rewrite <- (Z.add_0_r (957 * 4194304)). by apply (walk_listing _ _ _ _ _ 957 0 5 HM Hcr).
    + rewrite H959. eexists. rewrite <- (Z.add_0_r (959 * 4194304)). by apply (walk_listing _ _ _ _ _ 959 0 3 HM Hcr).
    + assert (Hx : PDX (k * 4194304) = k) by (destruct (page_indices_of (k * 4194304)) as (-> & _); [lia|by apply Z.div_mul]).
      destruct (boot_walk _ _ _ _ _ (k * 4194304) HB Hcr) as (pte & Hw & _); rewrite ?Hx; try done; [lia|]. rewrite Hx in Hw. by exists pte.
  - intros va Hva. rewrite KB_val in Hva. destruct (page_indices_of va) as (Hi & Hj & Hx); [lia|].
    assert (960 ≤ PDX va) by (rewrite Hi; apply Z.div_le_lower_bound; lia).
    destruct (boot_entry _ _ _ _ _ _ HB Hx) as [(Hno & _)|(t & _ & HT & He)]; [lia|lia|exfalso; apply Hno; right; right; lia|].
    rewrite decide_False in He by lia. destruct (table_entry_facts _ _ _ _ _ _ _ HM HT) as (_ & _ & Hn & Hxa & Hp & Hw & Hnz).
    destruct (mp_dir _ _ _ _ _ HM) as (D & HD & _ & Hent). destruct (mp_table _ _ _ _ _ HM _ _ HT) as (_ & _ & _ & _ & _ & L & HL & HlenL & _).
    exists t, D, (t - KB + 3), L. rewrite Hxa. split_and!; try done. rewrite Hent by done. by rewrite <- He.
Qed.
End boot.

(** C39: Start-up returns, whatever the memory held. Then the processor maps the memory in
    use at KERNEL_BASE, the scheduler's stack with a page below it that is not
    present, and the array of environments, the only pages a user may read besides
    the page tables; nothing else is mapped. The directory and the arrays lie
    apart in the memory handed out, every address of the kernel has a table in the
    direct mapping, and the page tables can be read at VPT and UVPT. *)
Theorem initialize_kernel_VM_correct {X : Type} {PE : PageEnv (boot * X)} end_of_kernel ptr_stack_bottom (s : mm * (boot * X)) :
  boot_start end_of_kernel ptr_stack_bottom s →
  wp (initialize_kernel_VM end_of_kernel ptr_stack_bottom) (λ _ s', started end_of_kernel ptr_stack_bottom s s') s.
Proof.
  intros Hs. apply initialize_kernel_VM_state; [done..|]. intros d T V P s' HB Hm Hr. by eapply boot_started.
Qed.

(** A machine with 16 MB. *)
Definition no_heap : PageEnv (boot * unit) := {|
  kmalloc _ := panic; kfree _ := panic; kheap_virtual_address _ _ := 0; kheap_physical_address _ _ := 0; fault_handler := panic; zero_page _ s := s
|}.
Definition small_machine : mm * (boot * unit) :=
  (MM (replicate 4096 zero_frame) [] [] false ∅ 0 0, (BOOT 0 0 0 0 0 0 0 0, ())).
Lemma initialize_kernel_VM_witness : boot_start 4028628992 4027580416 small_machine ∧
  wp (initialize_kernel_VM (PE := no_heap) 4028628992 4027580416) (λ _ s', started 4028628992 4027580416 small_machine s') small_machine.
Proof.
  assert (H : boot_start 4028628992 4027580416 small_machine).
  { split; try done. split; [by exists 983296|done]. }
  split; [exact H|]. exact (@initialize_kernel_VM_correct unit no_heap 4028628992 4027580416 small_machine H).
Defined.
