(* ===== verification/Loader.v ===== *)
(** * Loading a program (kern/proc/user_environment.c)

    The part of [env_create] after [initialize_environment]: the segments of the
    ELF image are mapped and copied until the working set is full, all of their
    pages are written to the page file, and the stack gets its first page. The
    image lies in kernel memory, which loading only reads ([kmem]). The working
    set and its elements are those of WorkingSet.v. *)

From S2P Require Import Prelude Queue Paging WorkingSet.
From S2P Require EnvTable PageFile.

(** What loading uses beyond the class [VM]. [store dir va b] writes a byte while
    [dir] is in cr3; the page file gets the [PAGE_SIZE] bytes at its source. *)
Class LoadOps (E : Type) := {
  loadtime_map_frame : Z → Z → Z → Z → M E Z;
  store : Z → Z → Z → M E unit;
  pf_add_env_page : Z → Z → list Z → M E Z;
  pf_add_empty_env_page : Z → Z → bool → M E Z
}.

Record ProgramSegment := SEG {
  ptr_start : Z;
  size_in_file : Z;
  size_in_memory : Z;
  seg_va : Z;
  segment_id : Z
}.
(** The environment that is created: its demand paging fields are in [lfs]. *)
Record lstate (E : Type) := LD {
  lfs : fstate E;
  prog_name : string;
  ptr_tws : list tws_entry;
  table_last_WS_index : Z;
  ActiveListSize : Z;
  initNumStackPages : Z;
  tf_eip : Z;
  prepagedVAs : list Z
}.
Arguments LD {E}. Arguments lfs {E}. Arguments prog_name {E}. Arguments ptr_tws {E}. Arguments table_last_WS_index {E}.
Arguments ActiveListSize {E}. Arguments initNumStackPages {E}. Arguments tf_eip {E}. Arguments prepagedVAs {E}.

Definition ELF_PROG_LOAD : Z := 1.
Definition NO_TABLE : Z := 4294967295.

(** ** The image *)
Section image.
Context (kmem : Z → Z).
Definition load16 (a : Z) : Z := kmem a + 256 * kmem (a + 1).
Definition load32 (a : Z) : Z := load16 a + 65536 * load16 (a + 2).
Definition e_magic (start : Z) : Z := load32 start.
Definition e_entry (start : Z) : Z := load32 (start + 24).
Definition e_phoff (start : Z) : Z := load32 (start + 28).
Definition e_phnum (start : Z) : Z := load16 (start + 44).
Definition phdr (start index : Z) : Z := start + e_phoff start + 32 * index.
Definition p_type (start index : Z) : Z := load32 (phdr start index).
(** The loop that looks for the next segment to load. *)
Fixpoint seek (n : nat) (start id : Z) : Z :=
  match n with
  | O => id
  | S n => if decide (p_type start id = ELF_PROG_LOAD) then id else seek n start (id + 1)
  end.
Definition program_segment (start index : Z) : ProgramSegment :=
  let ph := phdr start index in
  SEG (start + load32 (ph + 4)) (load32 (ph + 16)) (load32 (ph + 20)) (load32 (ph + 8)) index.
(** From segment [id] on; [None] for the end of the table. *)
Definition segment_from (start id : Z) : option ProgramSegment :=
  let index := seek (Z.to_nat (e_phnum start - id)) start id in
  if decide (index < e_phnum start) then Some (program_segment start index) else None.
Definition PROGRAM_SEGMENT_FIRST {S} (start : Z) : M S (option ProgramSegment) :=
  if decide (e_magic start = EnvTable.ELF_MAGIC) then mret (segment_from start 0) else panic.
Definition PROGRAM_SEGMENT_NEXT {S} (seg : ProgramSegment) (start : Z) : M S (option ProgramSegment) :=
  if decide (e_magic start = EnvTable.ELF_MAGIC) then mret (segment_from start (segment_id seg + 1)) else panic.
(** The bytes at [src], and [ptr_temp_page] with [n] of them at [offset]. *)
Definition image_page (src : Z) : list Z := (λ j, kmem (src + j)) <$> seqZ 0 PAGE_SIZE.
Definition temp_page (offset src n : Z) : list Z :=
  (λ j, if decide (offset ≤ j < offset + n) then kmem (src + j - offset) else 0) <$> seqZ 0 PAGE_SIZE.
End image.

Section code.
Context {E : Type} `{VM E} `{LoadOps E} (kmem : Z → Z).
Notation L := (M (lstate E)).
Definition set_lfs (x : fstate E) (s : lstate E) : lstate E :=
  LD x (prog_name s) (ptr_tws s) (table_last_WS_index s) (ActiveListSize s) (initNumStackPages s) (tf_eip s) (prepagedVAs s).
Definition set_table (l : list tws_entry) (i : Z) (s : lstate E) : lstate E :=
  LD (lfs s) (prog_name s) l i (ActiveListSize s) (initNumStackPages s) (tf_eip s) (prepagedVAs s).
Definition set_stack_pages (n : Z) (s : lstate E) : lstate E :=
  LD (lfs s) (prog_name s) (ptr_tws s) (table_last_WS_index s) (ActiveListSize s) n (tf_eip s) (prepagedVAs s).
Definition set_eip (a : Z) (s : lstate E) : lstate E :=
  LD (lfs s) (prog_name s) (ptr_tws s) (table_last_WS_index s) (ActiveListSize s) (initNumStackPages s) a (prepagedVAs s).
Definition set_prepaged (l : list Z) (s : lstate E) : lstate E :=
  LD (lfs s) (prog_name s) (ptr_tws s) (table_last_WS_index s) (ActiveListSize s) (initNumStackPages s) (tf_eip s) l.
Definition onl {A} (c : M (fstate E) A) : L A := zoom lfs set_lfs c.

(** ** Pages in memory *)
Definition map_page (e va : Z) : M (fstate E) unit :=
  r ← vmop allocate_frame;
  x ← get_env e;
  _ ← vmop (loadtime_map_frame (env_page_directory x) r.2 va (Z.lor PERM_USER PERM_WRITEABLE));
  mret ().
Definition update_last (e : Z) : M (fstate E) unit :=
  x ← get_env e;
  upd_env e (set_last (if decide (Z.of_nat (length (page_WS_list x)) = page_WS_max_size x) then first_of (page_WS_list x) else NULL)).
(** Under LRU lists the element goes from the working set to one of the lists; the
    comparison is unsigned. *)
Definition to_lists (e wse active : Z) : M (fstate E) unit :=
  lists ← isPageReplacmentAlgorithmLRU PG_REP_LRU_LISTS_APPROX;
  when lists
    (x ← get_env e;
     l ← lq_remove wse (page_WS_list x);
     upd_env e (set_ws l) ;;
     if decide (Z.of_nat (length (ActiveList x)) < w32 active) then
       l1 ← lq_insert_head wse (ActiveList x); upd_env e (set_active l1)
     else l2 ← lq_insert_head wse (SecondList x); upd_env e (set_second l2)).
(** A segment's page also has its time stamp cleared. *)
Definition add_element (stamp : bool) (e va : Z) : M (fstate E) Z :=
  wse ← env_page_ws_list_create_element e va;
  when stamp (w ← get_wse wse; put_wse wse (set_stamp 0 w)) ;;
  x ← get_env e;
  l ← lq_insert_tail wse (page_WS_list x);
  upd_env e (set_ws l) ;;
  mret wse.
(** The table working set. *)
Definition note_table (va last : Z) : L Z :=
  if decide (PDX va = last) then mret last else
  i ← gets table_last_WS_index;
  t ← gets ptr_tws;
  _ ← unwrap (if decide (0 ≤ i) then t !! Z.to_nat i else None);
  let i' := (i + 1) `mod` __TWS_MAX_SIZE in
  modify (set_table (<[Z.to_nat i := TWS (ROUNDDOWN va (PAGE_SIZE * 1024)) 0 0]> t) i') ;;
  if decide (i' = 0) then panic else mret (PDX va).
Definition load_page (e va last : Z) : L Z :=
  onl (map_page e va) ;;
  wse ← onl (add_element true e va);
  n ← gets ActiveListSize;
  onl (to_lists e wse (n - 1)) ;;
  onl (update_last e) ;;
  note_table va last.
Fixpoint load_pages (e : Z) (vas : list Z) (last : Z) : L Z :=
  match vas with
  | [] => mret last
  | va :: vas => last ← load_page e va last; load_pages e vas last
  end.
Definition capped_programs : list string := ["tpp"; "tia"; "tia_slave1"; "tia_slave2"; "tia_slave3"; "tia_slave4"]%string.
(** How many pages of a segment are put into memory. *)
Definition segment_limit (name : string) (iVA remaining_ws_pages : Z) : Z :=
  let r := if decide (iVA = 2097152) then 0 else remaining_ws_pages in
  if decide (iVA = 8400896 ∧ name ∈ capped_programs) then Z.min r 9 else r.
Definition stores (dir : Z) (l : list Z) (b : Z → Z) : L unit := mfor l (λ va, onl (vmop (store dir va (b va)))).
(** [*allocated_pages] and [*lastTableNumber]. *)
Definition program_segment_alloc_map_copy_workingset (e : Z) (seg : ProgramSegment) (remaining_ws_pages lastTableNumber : Z) : L (Z * Z) :=
  let vaddr := seg_va seg in
  let end_vaddr := ROUNDUP (vaddr + size_in_memory seg) PAGE_SIZE in
  let iVA := ROUNDDOWN vaddr PAGE_SIZE in
  name ← gets prog_name;
  let vas := take (Z.to_nat (segment_limit name iVA remaining_ws_pages)) (pages iVA end_vaddr) in
  last ← load_pages e vas lastTableNumber;
  let allocated_pages := Z.of_nat (length vas) in
  x ← onl (get_env e);
  let end_ := iVA + allocated_pages * PAGE_SIZE in
  let copied := Z.max vaddr (Z.min end_ (w32 (vaddr + size_in_file seg))) in
  stores (env_page_directory x) (seqZ vaddr (copied - vaddr)) (λ va, kmem (ptr_start seg + (va - vaddr))) ;;
  stores (env_page_directory x) (seqZ copied (end_ - copied)) (λ _, 0) ;;
  mret (allocated_pages, last).

(** ** Pages in the page file *)
Definition add_page (e va : Z) (bytes : list Z) : L unit :=
  r ← onl (vmop (pf_add_env_page e va bytes)); if decide (r = PageFile.E_NO_PAGE_FILE_SPACE) then panic else mret ().
Definition add_empty_page (e va : Z) : L unit :=
  r ← onl (vmop (pf_add_empty_env_page e va true)); if decide (r = PageFile.E_NO_PAGE_FILE_SPACE) then panic else mret ().
Definition store_segment (e : Z) (seg : ProgramSegment) : L unit :=
  let start_first_page := ROUNDDOWN (seg_va seg) PAGE_SIZE in
  let end_first_page := ROUNDUP (seg_va seg) PAGE_SIZE in
  let offset_first_page := seg_va seg - start_first_page in
  let n := end_first_page - seg_va seg in
  when (bool_decide (offset_first_page ≠ 0))
    (add_page e start_first_page (temp_page kmem offset_first_page (ptr_start seg) n)) ;;
  let src := if decide (offset_first_page ≠ 0) then ptr_start seg + n else ptr_start seg in
  let end_last_page := w32 (seg_va seg + size_in_file seg) in
  let start_last_page := ROUNDDOWN end_last_page PAGE_SIZE in
  let middle := pages end_first_page start_last_page in
  mfor middle (λ va, add_page e va (image_page kmem (src + (va - end_first_page)))) ;;
  let src := src + Z.of_nat (length middle) * PAGE_SIZE in
  add_page e start_last_page (temp_page kmem 0 src (end_last_page - start_last_page)) ;;
  let start_remaining_area := ROUNDUP end_last_page PAGE_SIZE in
  let remainingLength := w32 (seg_va seg + size_in_memory seg - start_remaining_area) in
  mfor (pages start_remaining_area (start_remaining_area + ROUNDUP remainingLength PAGE_SIZE)) (add_empty_page e).

(** ** The whole program *)
Fixpoint load_segments (fuel : nat) (e start : Z) (seg : option ProgramSegment) (remaining_ws_pages last : Z) : L unit :=
  match seg with
  | None => mret ()
  | Some seg =>
      match fuel with
      | O => nofuel
      | S fuel =>
          r ← program_segment_alloc_map_copy_workingset e seg remaining_ws_pages last;
          store_segment e seg ;;
          next ← PROGRAM_SEGMENT_NEXT kmem seg start;
          load_segments fuel e start next (w32 (remaining_ws_pages - r.1)) r.2
      end
  end.
Definition clean_page (e p : Z) : M (fstate E) unit :=
  x ← get_env e;
  w ← get_wse p;
  r ← vmop (get_page_table (env_page_directory x) (virtual_address w));
  pte ← vmop (entry r.2 (PTX (virtual_address w)));
  vmop (set_entry r.2 (PTX (virtual_address w)) (Z.land pte (Z.lnot PERM_MODIFIED))).
Definition set_environment_entry_point (start : Z) : L unit :=
  if decide (e_magic kmem start = EnvTable.ELF_MAGIC) then modify (set_eip (e_entry kmem start)) else panic.
Definition load_stack (e : Z) : L unit :=
  modify (set_stack_pages 1) ;;
  let stackVa := USTACKTOP - PAGE_SIZE in
  onl (map_page e stackVa) ;;
  x ← onl (get_env e);
  stores (env_page_directory x) (seqZ stackVa PAGE_SIZE) (λ _, 0) ;;
  wse ← onl (add_element false e stackVa);
  onl (update_last e) ;;
  n ← gets ActiveListSize;
  onl (to_lists e wse n) ;;
  _ ← onl (vmop (pf_add_empty_env_page e stackVa true));
  mret ().
Definition hide_second_list (e : Z) : M (fstate E) unit :=
  lists ← isPageReplacmentAlgorithmLRU PG_REP_LRU_LISTS_APPROX;
  when lists
    (x ← get_env e;
     mfor (SecondList x) (λ p, w ← get_wse p; vmop (pt_set_page_permissions (env_page_directory x) (virtual_address w) 0 PERM_PRESENT))).
Definition note_prepaged (e : Z) : L unit :=
  x ← onl (get_env e);
  _ ← onl (vmop (kmalloc (4 * Z.of_nat (length (page_WS_list x)))));
  m ← onl (gets elements);
  modify (set_prepaged ((λ p, default 0 (virtual_address <$> m !! p)) <$> page_WS_list x)).
Definition load_program (e start : Z) : L unit :=
  x ← onl (get_env e);
  first ← PROGRAM_SEGMENT_FIRST kmem start;
  load_segments (S (Z.to_nat (e_phnum kmem start))) e start first (w32 (page_WS_max_size x - 1)) NO_TABLE ;;
  x ← onl (get_env e);
  mfor (page_WS_list x) (λ p, onl (clean_page e p)) ;;
  set_environment_entry_point start ;;
  load_stack e ;;
  onl (hide_second_list e) ;;
  note_prepaged e.
End code.
