(* ===== verification/LoadSpec.v ===== *)
(** * What loading needs of memory and the page file

    The contents of an address space and of its page file as seen by a loader, the
    laws of the operations of the class [LoadOps] on them, and the steps that put
    single pages in place: a fresh page in the working set, bytes written to it,
    pages of a segment in the page file. *)

From S2P Require Import Prelude Queue Paging PagingSpec WorkingSet VMSpec FaultSpec Loader.
From S2P Require PageFile.

(** ** The view of a loader and its laws *)

(** [umem s va] is the byte at a mapped address, [file s] the page file of the
    environment [owner] by page number. [ready n s]: [n] more frames, kernel heap
    blocks, page tables or pages of the page file can be had. *)
Class LoadView (E : Type) := {
  owner : Z;
  umem : E → Z → Z;
  file : E → gmap Z (list Z);
  ready : nat → E → Prop;
  given : E → gset Z              (* the blocks that the kernel heap has given out *)
}.
(** No two pages share a frame. *)
Definition private {E dir} `{VMView E dir} (s : E) : Prop := ∀ va va',
  user va → user va' → maps (pte va s) = true → maps (pte va' s) = true → PPN (pte va s) = PPN (pte va' s) → page va = page va'.
Definition same_bytes {E} `{LoadView E} (s s' : E) : Prop := (∀ va, umem s' va = umem s va) ∧ file s' = file s.
Definition same_space {E dir} `{VMView E dir} (s s' : E) : Prop :=
  ∀ va, user va → pte va s' = pte va s ∧ (tabled va s → tabled va s').

Class LoadLaws (E : Type) `{VM E} `{LoadOps E} (dir : Z) `{!VMView E dir} `{!LoadView E} : Prop := {
  ll_page va va' s : user va → user va' → page va = page va' → pte va s = pte va' s;
  ll_tabled va va' s : user va → user va' → page va = page va' → tabled va s → tabled va' s;
  ll_range A va s : vm_ok A s → user va → tabled va s → 0 ≤ pte va s < 4294967296;
  ll_alloc A n s : vm_ok A s → ready (S n) s → wp allocate_frame (λ r s', r.2 ∉ A ∧ vm_ok ({[r.2]} ∪ A) s' ∧ ready n s' ∧ given s' = given s ∧
    (∀ va, user va → maps (pte va s) = true → PPN (pte va s) ≠ r.2) ∧ same_space s s' ∧ same_bytes s s') s;
  ll_map A fi va perm n s : vm_ok A s → ready (S n) s → fi ∈ A → user va → maps (pte va s) = false → 0 ≤ perm < 4096 → Z.land perm PERM_BUFFERED = 0 →
    wp (loadtime_map_frame dir fi va perm) (λ _ s', vm_ok (A ∖ {[fi]}) s' ∧ ready n s' ∧ given s ⊆ given s' ∧ tabled va s' ∧
      (∃ e', pte_upd va e' s s' ∧ maps e' = true ∧ PPN e' = fi) ∧
      (∀ va', user va' → page va' ≠ page va → umem s' va' = umem s va') ∧ file s' = file s) s;
  ll_kmalloc A size n s : vm_ok A s → ready (S n) s → wp (kmalloc size) (λ p s', p ∉ given s ∧ given s' = {[p]} ∪ given s ∧ p ≠ NULL ∧
    vm_ok A s' ∧ ready n s' ∧ same_space s s' ∧ same_bytes s s') s;
  ll_store A va b n s : vm_ok A s → ready n s → private s → user va → tabled va s → maps (pte va s) = true → 0 ≤ b < 256 →
    wp (store dir va b) (λ _ s', vm_ok A s' ∧ ready n s' ∧ given s' = given s ∧ umem s' va = b ∧ (∀ va', user va' → va' ≠ va → umem s' va' = umem s va') ∧
      file s' = file s ∧ ∃ e', pte_upd va e' s s' ∧ maps e' = true ∧ PPN e' = PPN (pte va s)) s;
  ll_clean A va n s : vm_ok A s → ready n s → user va → tabled va s → maps (pte va s) = true →
    wp (r ← get_page_table dir va; e ← entry r.2 (PTX va); set_entry r.2 (PTX va) (Z.land e (Z.lnot PERM_MODIFIED)))
      (λ _ s', vm_ok A s' ∧ ready n s' ∧ given s' = given s ∧ pte_upd va (Z.ldiff (pte va s) PERM_MODIFIED) s s' ∧ same_bytes s s') s;
  ll_add A va bytes n s : vm_ok A s → ready (S n) s → user va → (4096 | va) → length bytes = 4096%nat →
    wp (pf_add_env_page owner va bytes) (λ r s', r ≠ PageFile.E_NO_PAGE_FILE_SPACE ∧ vm_ok A s' ∧ ready n s' ∧ given s' = given s ∧ same_space s s' ∧
      (∀ va, umem s' va = umem s va) ∧ file s' = <[page va := bytes]> (file s)) s;
  ll_add_empty A va n s : vm_ok A s → ready (S n) s → user va → (4096 | va) →
    wp (pf_add_empty_env_page owner va true) (λ r s', r ≠ PageFile.E_NO_PAGE_FILE_SPACE ∧ vm_ok A s' ∧ ready n s' ∧ given s' = given s ∧ same_space s s' ∧
      (∀ va, umem s' va = umem s va) ∧ file s' = <[page va := replicate 4096 0]> (file s)) s
}.

Section load.
Context {E : Type} `{VM E} `{LoadOps E} {dir : Z} `{!VMView E dir} `{!LoadView E} `{!LoadLaws E dir}.
Implicit Types s : fstate E.

Lemma wp_onl {A} (c : M (fstate E) A) (Q : A → lstate E → Prop) (s : lstate E) : wp c (λ a f, Q a (set_lfs f s)) (lfs s) → wp (onl c) Q s.
Proof. unfold wp, onl, zoom. by destruct (c (lfs s)). Qed.

(** ** Resident pages *)

(** The working set holds the pages [Rs] in this order, the pages [Xs] are mapped
    besides, and no other page is; [n] more things can be had. *)
Record loaded (n : nat) (Rs Xs : list Z) s (x : Env) : Prop := {
  lo_ws : ws_ok owner s x;
  lo_vas : va_of s <$> page_WS_list x = Rs;
  lo_given p : p ∈ page_WS_list x → p ∈ given (vm s);
  lo_private : private (vm s);
  lo_only va : user va → maps (pte va (vm s)) = true → ∃ r, r ∈ Rs ++ Xs ∧ page va = page r;
  lo_extra va : va ∈ Xs → user va ∧ tabled va (vm s) ∧ maps (pte va (vm s)) = true ∧ ∀ r, r ∈ Rs → page va ≠ page r;
  lo_ready : ready n (vm s)
}.
(** The frames of the mapped pages stay. *)
Definition same_frames_of (v v' : E) : Prop := ∀ va, user va →
  maps (pte va v') = maps (pte va v) ∧ (maps (pte va v) = true → PPN (pte va v') = PPN (pte va v)) ∧ (tabled va v → tabled va v').
Lemma same_frames_private v v' : same_frames_of v v' → private v → private v'.
Proof.
  intros Hs Hp va va' Hu Hu' Hm Hm' Heq. destruct (Hs va Hu) as (H1 & H2 & _), (Hs va' Hu') as (H3 & H4 & _).
  rewrite H1 in Hm. rewrite H3 in Hm'. rewrite H2, H4 in Heq by done. by apply Hp.
Qed.
Lemma same_space_frames v v' : same_space v v' → same_frames_of v v'.
Proof. intros Hs va Hu. destruct (Hs va Hu) as [-> ?]. done. Qed.
Lemma pte_upd_frames va e' v v' : user va → pte_upd va e' v v' → maps e' = maps (pte va v) → (maps (pte va v) = true → PPN e' = PPN (pte va v)) → same_frames_of v v'.
Proof.
  intros Hu (He & Hother & Htab) Hm Hp va' Hu'. destruct (decide (page va' = page va)) as [Hpg|Hne].
  - rewrite (ll_page va' va v' Hu' Hu Hpg), (ll_page va' va v Hu' Hu Hpg), He. split_and!; [done|done|by apply Htab].
  - rewrite Hother by done. split_and!; [done|done|by apply Htab].
Qed.
Lemma loaded_vm n n' Rs Xs s x v' : loaded n Rs Xs s x → vm_ok ∅ v' → ready n' v' → given (vm s) ⊆ given v' → same_frames_of (vm s) v' →
  loaded n' Rs Xs (set_vm v' s) x.
Proof.
  intros [[He Hd Hnd Hnn Hel Hdist _] Hv Hg Hp Ho Hx _] Hok Hr Hgs Hs. split; try done; [|..].
  - split; try done. intros p Hpl. destruct (Hel p Hpl) as (H1 & H2 & H3 & H4). destruct (Hs _ H2) as (H5 & _ & H6).
    split_and!; [done|done|by apply H6|]. unfold elt_pte in *. by rewrite <- H5 in H4.
  - intros p Hpl. by apply Hgs, Hg.
  - by eapply same_frames_private.
  - intros va Hu. cbn. destruct (Hs va Hu) as (-> & _). by apply Ho.
  - intros va Hin. destruct (Hx va Hin) as (H1 & H2 & H3 & H4). destruct (Hs va H1) as (H5 & _ & H6). split_and!; [done|by apply H6|by rewrite <- H3|done].
Qed.
Lemma loaded_apart n Rs s x va : loaded n Rs [] s x → user va → (∀ r, r ∈ Rs → page va ≠ page r) → maps (pte va (vm s)) = false.
Proof.
  intros HL Hu Hne. destruct (maps (pte va (vm s))) eqn:Hm; [|done]. destruct (lo_only _ _ _ _ _ HL va Hu Hm) as (r & Hr & Hpg).
  rewrite app_nil_r in Hr. by destruct (Hne r Hr).
Qed.

(** A fresh page is mapped. *)
Lemma wp_map_page n Rs s x va (Q : unit → fstate E → Prop) : loaded (S (S n)) Rs [] s x → user va → (∀ r, r ∈ Rs → page va ≠ page r) →
  (∀ v', loaded n Rs [va] (set_vm v' s) x → (∀ va', user va' → page va' ≠ page va → umem v' va' = umem (vm s) va' ∧ pte va' v' = pte va' (vm s)) → file v' = file (vm s) →
    Q tt (set_vm v' s)) → wp (map_page owner va) Q s.
Proof.
  intros HL Hu Hne HQ. pose proof (loaded_apart _ _ _ _ _ HL Hu Hne) as Hm0. pose proof (lo_ws _ _ _ _ _ HL) as Hok. unfold map_page.
  apply wp_bind, wp_vmop. eapply wp_mono; [exact (ll_alloc ∅ (S n) (vm s) (ws_vm _ _ _ Hok) (lo_ready _ _ _ _ _ HL))|].
  intros [r fi] v1 (_ & Hok1 & Hr1 & Hg1 & Hfresh & Hsp1 & Hb1 & Hf1). cbn [snd] in *.
  apply wp_bind. eapply wp_env_at; [apply (ws_env _ _ _ Hok)|]. rewrite (ws_dir _ _ _ Hok).
  apply wp_bind, wp_vmop. cbn [vm set_vm]. destruct (Hsp1 va Hu) as [Hpte1 _].
  eapply wp_mono; [apply (ll_map ({[fi]} ∪ ∅) fi va (Z.lor PERM_USER PERM_WRITEABLE) n v1 Hok1 Hr1); [set_solver|done|by rewrite Hpte1|done|done]|].
  intros _ v2 (Hok2 & Hr2 & Hg2 & Ht2 & (e' & Hupd & Hm2 & Hp2) & Hb2 & Hf2). apply wp_ret. cbn [set_vm vm].
  replace (({[fi]} ∪ ∅) ∖ {[fi]} : gset Z) with (∅ : gset Z) in Hok2 by set_solver.
  assert (Hother : ∀ va', user va' → page va' ≠ page va → pte va' v2 = pte va' (vm s)).
  { intros va' Hu' Hpg. destruct Hupd as (_ & Ho & _). rewrite Ho by done. by apply Hsp1. }
  assert (Hself : ∀ va', user va' → page va' = page va → pte va' v2 = e').
  { intros va' Hu' Hpg. rewrite (ll_page va' va) by done. apply Hupd. }
  assert (Hold : ∀ p, p ∈ page_WS_list x → page (va_of s p) ≠ page va).
  { intros p Hpl Hpg. apply (Hne (va_of s p)); [|done]. rewrite <- (lo_vas _ _ _ _ _ HL). by apply list_elem_of_fmap_2. }
  change (FST (PageRepAlgoType s) (envs s) (elements s) v2) with (set_vm v2 s). apply HQ.
  - destruct HL as [[He Hd Hnd Hnn Hel Hdist _] Hv Hg Hp Ho _ _]. split; [|done|..].
    + split; try done. intros p Hpl. destruct (Hel p Hpl) as (H1 & H2 & H3 & H4). unfold elt_pte. cbn [vm set_vm].
      change (va_of (set_vm v2 s) p) with (va_of s p). split_and!; [done|done| |rewrite Hother by (done || by apply Hold); done].
      destruct Hupd as (_ & _ & Htab). apply Htab; [done|]. by apply Hsp1.
    + intros p Hpl. cbn. apply Hg2. rewrite Hg1. by apply Hg.
    + intros a b Hua Hub Hma Hmb Hppn. cbn [vm set_vm] in Hma, Hmb, Hppn. destruct (decide (page a = page va)) as [Ha|Ha], (decide (page b = page va)) as [Hb|Hb]; try congruence.
      * rewrite (Hother b) in Hmb by done. rewrite (Hself a), (Hother b), Hp2 in Hppn by done. by destruct (Hfresh b Hub Hmb).
      * rewrite (Hother a) in Hma by done. rewrite (Hself b), (Hother a), Hp2 in Hppn by done. by destruct (Hfresh a Hua Hma).
      * rewrite (Hother a) in Hma by done. rewrite (Hother b) in Hmb by done. rewrite (Hother a), (Hother b) in Hppn by done. by apply Hp.
    + intros a Hua Hma. cbn in Hma. destruct (decide (page a = page va)) as [Ha|Ha]; [exists va; split; [apply elem_of_app; right; by left|done]|].
      rewrite Hother in Hma by done. destruct (Ho a Hua Hma) as (r' & Hr' & Hpg). rewrite app_nil_r in Hr'. exists r'. split; [apply elem_of_app; by left|done].
    + intros a ->%list_elem_of_singleton. split_and!; [done|done|cbn; by rewrite Hself|done].
    + done.
  - intros va' Hu' Hpg. rewrite Hb2, Hother by done. split; [apply Hb1|done].
  - by rewrite Hf2.
Qed.

(** A byte is written to a mapped page. *)
Lemma loaded_mapped n Rs Xs s x va r : loaded n Rs Xs s x → user va → r ∈ Rs ++ Xs → page va = page r →
  tabled va (vm s) ∧ maps (pte va (vm s)) = true.
Proof.
  intros HL Hu [Hr|Hr]%elem_of_app Hpg.
  - rewrite <- (lo_vas _ _ _ _ _ HL) in Hr. apply list_elem_of_fmap in Hr as (p & -> & Hp).
    destruct (ws_elem _ _ _ (lo_ws _ _ _ _ _ HL) p Hp) as (_ & H1 & H2 & H3). split; [by eapply ll_tabled|]. by rewrite (ll_page va (va_of s p)).
  - destruct (lo_extra _ _ _ _ _ HL r Hr) as (H1 & H2 & H3 & _). split; [by eapply ll_tabled|]. by rewrite (ll_page va r).
Qed.
Record written (l : list Z) (b : Z → Z) (v v' : E) : Prop := {
  wr_file : file v' = file v;
  wr_bytes va : user va → umem v' va = if decide (va ∈ l) then b va else umem v va;
  wr_pte va : user va → page va ∉ page <$> l → pte va v' = pte va v
}.
Lemma wp_stores n Rs Xs (s : lstate E) x l b (Q : unit → lstate E → Prop) : loaded n Rs Xs (lfs s) x →
  (∀ va, va ∈ l → user va ∧ 0 ≤ b va < 256 ∧ ∃ r, r ∈ Rs ++ Xs ∧ page va = page r) →
  (∀ v', loaded n Rs Xs (set_vm v' (lfs s)) x → written l b (vm (lfs s)) v' → Q tt (set_lfs (set_vm v' (lfs s)) s)) →
  wp (stores dir l b) Q s.
Proof.
  revert s. induction l as [|va l IH]; intros s HL Hl HQ.
  - apply wp_ret. specialize (HQ (vm (lfs s))). replace (set_lfs (set_vm (vm (lfs s)) (lfs s)) s) with s in HQ by (by destruct s as [[] ?]).
    apply HQ; [by destruct (lfs s)|done].
  - destruct (Hl va) as (Hu & Hb & r & Hr & Hpg); [by left|]. destruct (loaded_mapped _ _ _ _ _ va r HL Hu Hr Hpg) as [Ht Hm].
    unfold stores. cbn [mfor]. apply wp_bind, wp_onl, wp_vmop. pose proof (lo_ws _ _ _ _ _ HL) as Hok.
    eapply wp_mono; [exact (ll_store ∅ va (b va) n _ (ws_vm _ _ _ Hok) (lo_ready _ _ _ _ _ HL) (lo_private _ _ _ _ _ HL) Hu Ht Hm Hb)|].
    intros _ v1 (Hok1 & Hr1 & Hg1 & Hb1 & Hb2 & Hf1 & e' & Hupd & Hm1 & Hp1). fold (stores dir l b). apply IH.
    + cbn. eapply loaded_vm; [exact HL|done|done|by rewrite Hg1|]. eapply pte_upd_frames; [exact Hu|exact Hupd|congruence|done].
    + intros va' Hin. apply Hl. by right.
    + cbn. intros v' HL' [Hf' Hw Hpt]. apply HQ; [done|]. split; [congruence| |].
      2:{ intros va' Hu' Hni. rewrite fmap_cons in Hni. apply not_elem_of_cons in Hni as [Hn1 Hn2]. rewrite Hpt by done. by apply Hupd. }
      intros va' Hu'. rewrite Hw by done.
      destruct (decide (va' = va)) as [->|Hne].
      * rewrite (decide_True (P := va ∈ va :: l)) by by left. case_decide; done.
      * rewrite Hb2 by done. repeat case_decide; rewrite ?elem_of_cons in *; try done; naive_solver.
Qed.

(** A mapped page gets its element at the end of the working set. *)
Lemma wp_add_element stamp n Rs s x va (Q : Z → fstate E → Prop) : loaded (S n) Rs [va] s x → (PAGE_SIZE | va) →
  (∀ p v' m', let s' := FST (PageRepAlgoType s) (<[owner := set_ws (page_WS_list x ++ [p]) x]> (envs s)) m' v' in
     loaded n (Rs ++ [va]) [] s' (set_ws (page_WS_list x ++ [p]) x) → same_bytes (vm s) v' → same_space (vm s) v' → Q p s') →
  wp (add_element stamp owner va) Q s.
Proof.
  intros HL Hal HQ. destruct (lo_extra _ _ _ _ _ HL va) as (Hu & Ht & Hm & Hap); [by left|]. pose proof (lo_ws _ _ _ _ _ HL) as Hok.
  unfold add_element, env_page_ws_list_create_element.
  rewrite bool_decide_true by (destruct Hu; unfold USER_TOP in *; rewrite w32_small by lia; lia).
  apply wp_bind, wp_bind, wp_assert; [done|]. apply wp_bind, wp_vmop.
  eapply wp_mono; [exact (ll_kmalloc ∅ WSE_SIZE n _ (ws_vm _ _ _ Hok) (lo_ready _ _ _ _ _ HL))|].
  intros p v1 (Hp & Hg1 & Hnn & Hok1 & Hr1 & Hsp & Hby). rewrite decide_False by done. apply wp_bind, wp_modify, wp_ret.
  assert (Hrd : ROUNDDOWN va PAGE_SIZE = va).
  { unfold ROUNDDOWN. destruct Hu. unfold USER_TOP in *. rewrite w32_small by lia. destruct Hal as [k ->]. rewrite Z_mod_mult. lia. }
  rewrite Hrd. cbn [set_elements set_vm PageRepAlgoType envs elements vm].
  set (s0 := FST (PageRepAlgoType s) (envs s) (<[p:=WSE va 0 0]> (elements s)) v1). apply wp_bind. cut (wp (when stamp (w ← get_wse p; put_wse p (set_stamp 0 w))) (λ _ s1, s1 = s0) s0).
  2:{ destruct stamp; [|by apply wp_ret]. apply wp_bind. eapply wp_get_wse; [cbn; apply lookup_insert_eq|]. eapply wp_put_wse; [cbn; apply lookup_insert_eq|].
      subst s0. cbn [set_elements PageRepAlgoType envs elements vm]. by rewrite insert_insert_eq. }
  intros Hst. eapply wp_mono; [exact Hst|]. intros _ s1 ->. subst s0.
  apply wp_bind. eapply wp_env_at; [apply (ws_env _ _ _ Hok)|].
  assert (Hpn : p ∉ page_WS_list x) by (intros Hin; by apply Hp, (lo_given _ _ _ _ _ HL)).
  apply wp_bind. unfold wp at 1. rewrite lq_insert_tail_run by done.
  apply wp_bind. eapply wp_env_upd; [apply (ws_env _ _ _ Hok)|]. apply wp_ret. unfold set_envs. cbn [PageRepAlgoType envs elements vm].
  set (m' := <[p := WSE va 0 0]> (elements s)). apply (HQ p v1 m'); [|done|done].
  assert (Hel : ∀ q, q ∈ page_WS_list x → m' !! q = elements s !! q) by (intros q Hq; apply lookup_insert_ne; by intros ->).
  assert (Hva : ∀ q a, q ∈ page_WS_list x → va_of (FST (PageRepAlgoType s) a m' v1) q = va_of s q) by (intros q a Hq; unfold va_of; cbn; by rewrite Hel).
  assert (Hvp : ∀ a, va_of (FST (PageRepAlgoType s) a m' v1) p = va) by (intros a; unfold va_of, m'; cbn; by rewrite lookup_insert_eq).
  destruct HL as [[He Hd Hnd Hnn' Hele Hdist _] Hv Hg Hpr Ho Hx _]. split; cbn [page_WS_list set_ws vm].
  - split; cbn [page_WS_list set_ws envs elements vm env_page_directory]; try done.
    + by rewrite lookup_insert_eq.
    + apply NoDup_app. split_and!; [done| |apply NoDup_singleton]. intros q Hq ->%list_elem_of_singleton. done.
    + rewrite elem_of_app, list_elem_of_singleton. intros [?|?]; congruence.
    + intros q [Hq| ->%list_elem_of_singleton]%elem_of_app.
      * destruct (Hele q Hq) as (H1 & H2 & H3 & H4). unfold elt_pte. cbn [vm]. rewrite Hva by done. split_and!; [by rewrite Hel|done|by apply Hsp|].
        destruct (Hsp (va_of s q) H2) as [-> _]. done.
      * unfold elt_pte. cbn [vm]. rewrite Hvp. split_and!; [exists (WSE va 0 0); apply lookup_insert_eq|done|by apply Hsp|]. destruct (Hsp va Hu) as [-> _]. done.
    + assert (Hnew : ∀ q, q ∈ page_WS_list x → page va ≠ page (va_of s q)) by (intros q Hq; apply Hap; rewrite <- Hv; by apply list_elem_of_fmap_2).
      intros q q' [Hq| ->%list_elem_of_singleton]%elem_of_app [Hq'| ->%list_elem_of_singleton]%elem_of_app Hne; rewrite ?Hvp, ?Hva by done; [by apply Hdist| | |done].
      * by apply not_eq_sym, Hnew.
      * by apply Hnew.
  - rewrite fmap_app. cbn. rewrite Hvp. f_equal. rewrite <- Hv. apply list_fmap_ext. intros i q Hq. apply Hva. by eapply list_elem_of_lookup_2.
  - intros q [Hq| ->%list_elem_of_singleton]%elem_of_app; rewrite Hg1; [apply elem_of_union_r; by apply Hg|set_solver].
  - eapply same_frames_private; [by apply same_space_frames|done].
  - intros a Hua Hma. rewrite app_nil_r. apply Ho; [done|]. destruct (Hsp a Hua) as [<- _]. done.
  - intros a Ha. by apply not_elem_of_nil in Ha.
  - done.
Qed.
Lemma loaded_set_last n Rs s x q : loaded n Rs [] s x → loaded n Rs [] (set_envs (<[owner := set_last q x]> (envs s)) s) (set_last q x).
Proof.
  intros [[He Hd Hnd Hnn Hel Hdist Hok] Hv Hg Hp Ho Hx Hr]. split; try done. split; try done. cbn. by rewrite lookup_insert_eq.
Qed.
Definition last_rule (x : Env) : Prop :=
  page_last_WS_element x = if decide (Z.of_nat (length (page_WS_list x)) = page_WS_max_size x) then first_of (page_WS_list x) else NULL.
Lemma wp_update_last n Rs s x (Q : unit → fstate E → Prop) : loaded n Rs [] s x →
  (∀ x', x' = set_last (page_last_WS_element x') x → last_rule x' → loaded n Rs [] (set_envs (<[owner := x']> (envs s)) s) x' →
     Q tt (set_envs (<[owner := x']> (envs s)) s)) → wp (update_last owner) Q s.
Proof.
  intros HL HQ. pose proof (ws_env _ _ _ (lo_ws _ _ _ _ _ HL)) as He. unfold update_last. apply wp_bind. eapply wp_env_at; [exact He|].
  eapply wp_env_upd; [exact He|]. apply HQ; [done|done|]. by apply loaded_set_last.
Qed.
Lemma wp_to_lists w active s (Q : unit → fstate E → Prop) : PageRepAlgoType s ≠ PG_REP_LRU_LISTS_APPROX → Q tt s → wp (to_lists owner w active) Q s.
Proof.
  intros Ha HQ. unfold to_lists, isPageReplacmentAlgorithmLRU. apply wp_bind, wp_gets. by rewrite bool_decide_false.
Qed.

(** ** The pages of a segment in memory *)

(** What loading keeps of the environment. *)
Record lkept (s s' : lstate E) : Prop := {
  lk_name : prog_name s' = prog_name s;
  lk_active : ActiveListSize s' = ActiveListSize s;
  lk_stack : initNumStackPages s' = initNumStackPages s;
  lk_eip : tf_eip s' = tf_eip s;
  lk_prepaged : prepagedVAs s' = prepagedVAs s;
  lk_algo : PageRepAlgoType (lfs s') = PageRepAlgoType (lfs s);
  lk_tws : length (ptr_tws s') = length (ptr_tws s)
}.
Lemma lkept_refl (s : lstate E) : lkept s s. Proof. by split. Qed.
Lemma lkept_trans (s1 s2 s3 : lstate E) : lkept s1 s2 → lkept s2 s3 → lkept s1 s3.
Proof. intros [] []. split; congruence. Qed.
(** Entries that the pages [vas] take in the table working set. *)
Fixpoint tables_of (last : Z) (vas : list Z) : Z :=
  match vas with [] => 0 | va :: vas => (if decide (PDX va = last) then 0 else 1) + tables_of (PDX va) vas end.
Definition last_table (last : Z) (vas : list Z) : Z := foldl (λ _ va, PDX va) last vas.
Lemma tables_of_nonneg last vas : 0 ≤ tables_of last vas.
Proof. revert last. induction vas as [|va vas IH]; intros last; cbn; [lia|]. specialize (IH (PDX va)). case_decide; lia. Qed.
Definition tables_ready (n : Z) (s : lstate E) : Prop := 0 ≤ table_last_WS_index s ∧ table_last_WS_index s + n < __TWS_MAX_SIZE ∧ length (ptr_tws s) = 50%nat.
Lemma wp_note_table n va last (s : lstate E) (Q : Z → lstate E → Prop) : tables_ready ((if decide (PDX va = last) then 0 else 1) + n) s → 0 ≤ n →
  (∀ s' : lstate E, lfs s' = lfs s → lkept s s' → tables_ready n s' → Q (PDX va) s') → wp (note_table va last) Q s.
Proof.
  intros (Hi0 & Hi1 & Hlen) Hn HQ. unfold note_table, __TWS_MAX_SIZE in *. case_decide as Hpd.
  - apply wp_ret. rewrite <- Hpd. apply HQ; [done|by split|]. by split_and!.
  - apply wp_bind, wp_gets, wp_bind, wp_gets. apply wp_bind. rewrite decide_True by done.
    destruct (lookup_lt_is_Some_2 (ptr_tws s) (Z.to_nat (table_last_WS_index s))) as [y Hy]; [lia|]. eapply wp_unwrap; [exact Hy|].
    rewrite (Z.mod_small (table_last_WS_index s + 1)) by lia. apply wp_bind, wp_modify. rewrite decide_False by lia. apply wp_ret. apply HQ; [done| |].
    + split; try done. cbn. by rewrite length_insert.
    + split_and!; cbn; [lia|unfold __TWS_MAX_SIZE; lia|by rewrite length_insert].
Qed.
Definition same_sizes (x x' : Env) : Prop := page_WS_max_size x' = page_WS_max_size x ∧ env_page_directory x' = env_page_directory x.
Lemma wp_load_page n k Rs (s : lstate E) x va last (Q : Z → lstate E → Prop) : loaded (S (S (S n))) Rs [] (lfs s) x →
  PageRepAlgoType (lfs s) ≠ PG_REP_LRU_LISTS_APPROX → user va → (PAGE_SIZE | va) → (∀ r, r ∈ Rs → page va ≠ page r) →
  tables_ready ((if decide (PDX va = last) then 0 else 1) + k) s → 0 ≤ k →
  (∀ (s' : lstate E) x', loaded n (Rs ++ [va]) [] (lfs s') x' → last_rule x' → same_sizes x x' → lkept s s' → tables_ready k s' →
     (∀ va', user va' → page va' ≠ page va → umem (vm (lfs s')) va' = umem (vm (lfs s)) va') → file (vm (lfs s')) = file (vm (lfs s)) → Q (PDX va) s') →
  wp (load_page owner va last) Q s.
Proof.
  intros HL Ha Hu Hal Hne Ht Hk HQ. unfold load_page. apply wp_bind, wp_onl. eapply wp_map_page; [exact HL|done|done|]. intros v1 HL1 Hb1 Hf1.
  apply wp_bind, wp_onl. cbn [lfs set_lfs]. eapply wp_add_element; [exact HL1|done|]. intros p v2 m2 s2 HL2 [Hb2 Hf2] _. cbn [vm set_vm] in *.
  apply wp_bind, wp_gets, wp_bind, wp_onl. cbn [lfs set_lfs]. apply wp_to_lists; [done|].
  apply wp_bind, wp_onl. cbn [lfs set_lfs]. eapply wp_update_last; [exact HL2|]. intros x' Hx' Hlr HL3.
  eapply wp_note_table; [exact Ht|done|]. intros s' Hl Hkp Ht'. cbn [lfs set_lfs] in Hl. eapply (HQ s' x'); rewrite ?Hl; try done.
  - by rewrite Hx'.
  - destruct Hkp. by split.
  - intros va' Hu' Hpg. cbn. rewrite Hb2. by apply (Hb1 va').
  - cbn. by rewrite Hf2.
Qed.
Lemma wp_load_pages n k vas : ∀ Rs (s : lstate E) x last (Q : Z → lstate E → Prop), loaded (3 * length vas + n) Rs [] (lfs s) x → last_rule x →
  PageRepAlgoType (lfs s) ≠ PG_REP_LRU_LISTS_APPROX → Forall (λ va, user va ∧ (PAGE_SIZE | va)) vas → NoDup (page <$> (Rs ++ vas)) →
  tables_ready (tables_of last vas + k) s → 0 ≤ k →
  (∀ (s' : lstate E) x', loaded n (Rs ++ vas) [] (lfs s') x' → last_rule x' → same_sizes x x' → lkept s s' → tables_ready k s' →
     (∀ va', user va' → page va' ∉ page <$> vas → umem (vm (lfs s')) va' = umem (vm (lfs s)) va') → file (vm (lfs s')) = file (vm (lfs s)) →
     Q (last_table last vas) s') →
  wp (load_pages owner vas last) Q s.
Proof.
  induction vas as [|va vas IH]; intros Rs s x last Q HL Hlr Ha Hvas Hnd Ht Hk HQ.
  - apply wp_ret. apply (HQ s x); try done. by rewrite app_nil_r.
  - apply Forall_cons in Hvas as [[Hu Hal] Hvas]. cbn [load_pages]. apply wp_bind.
    replace (3 * length (va :: vas) + n)%nat with (S (S (S (3 * length vas + n)))) in HL by (cbn; lia).
    eapply (wp_load_page _ (tables_of (PDX va) vas + k)); [exact HL|done|done|done| | | |].
    + intros r Hr Hpg. rewrite fmap_app in Hnd. apply NoDup_app in Hnd as (_ & Hd & _). apply (Hd (page r)); [by apply list_elem_of_fmap_2|].
      rewrite <- Hpg. cbn. by left.
    + cbn [tables_of] in Ht. by rewrite Z.add_assoc.
    + pose proof (tables_of_nonneg (PDX va) vas). lia.
    + intros s1 x1 HL1 Hlr1 Hsz1 Hk1 Ht1 Hb1 Hf1. eapply (IH (Rs ++ [va])); [exact HL1|done|rewrite (lk_algo _ _ Hk1); done|done| |done|done|].
      { by rewrite <- app_assoc. }
      intros s2 x2 HL2 Hlr2 Hsz2 Hk2 Ht2 Hb2 Hf2. apply (HQ s2 x2); try done.
      * by rewrite <- app_assoc in HL2.
      * destruct Hsz1, Hsz2. split; congruence.
      * by eapply lkept_trans.
      * intros va' Hu' Hni. cbn in Hni. apply not_elem_of_cons in Hni as [Hni1 Hni2]. rewrite Hb2 by done. by apply Hb1.
      * congruence.
Qed.

Context (kmem : Z → Z).
(** The bytes of a segment that starts on a page, wherever they are. *)
Definition seg_byte (seg : ProgramSegment) (va : Z) : Z :=
  if decide (seg_va seg ≤ va < seg_va seg + size_in_file seg) then kmem (ptr_start seg + (va - seg_va seg)) else 0.
(** Segments that the loader puts where they belong. *)
Record seg_ok (seg : ProgramSegment) : Prop := {
  sg_page : (PAGE_SIZE | seg_va seg);
  sg_sizes : 0 ≤ size_in_file seg ≤ size_in_memory seg;
  sg_room : 0 ≤ seg_va seg ∧ seg_va seg + size_in_memory seg < USTACKTOP - 2 * PAGE_SIZE
}.
Definition seg_end (seg : ProgramSegment) : Z := ROUNDUP (seg_va seg + size_in_memory seg) PAGE_SIZE.
(** Its pages in memory, when [remaining] of the working set are left. *)
Definition resident (name : string) (seg : ProgramSegment) (remaining : Z) : list Z :=
  take (Z.to_nat (segment_limit name (seg_va seg) remaining)) (pages (seg_va seg) (seg_end seg)).
Lemma elem_of_take_pages m a b va : va ∈ take m (pages a b) ↔ ∃ i, 0 ≤ i < Z.of_nat (length (take m (pages a b))) ∧ va = a + PAGE_SIZE * i.
Proof.
  assert (Hl : ∀ j, (j < length (pages a b))%nat → pages a b !! j = Some (a + PAGE_SIZE * Z.of_nat j)).
  { intros j Hj. unfold pages in *. rewrite length_fmap, length_seqZ in Hj. rewrite list_lookup_fmap. rewrite (proj2 (lookup_seqZ 0 _ j (Z.of_nat j))) by lia. done. }
  split.
  - intros [j Hj]%list_elem_of_lookup. pose proof (lookup_lt_Some _ _ _ Hj) as Hlt. exists (Z.of_nat j). split; [lia|].
    rewrite length_take in Hlt. rewrite lookup_take_lt in Hj by lia. rewrite Hl in Hj by lia. by injection Hj.
  - intros (i & Hi & ->). rewrite length_take in Hi. apply list_elem_of_lookup. exists (Z.to_nat i). rewrite lookup_take_lt by lia.
    rewrite Hl by lia. by rewrite Z2Nat.id by lia.
Qed.
Lemma ROUNDDOWN_aligned a : 0 ≤ a < 4294967296 → (PAGE_SIZE | a) → ROUNDDOWN a PAGE_SIZE = a.
Proof. intros Ha [k ->]. unfold ROUNDDOWN. rewrite w32_small by lia. rewrite Z_mod_mult. lia. Qed.
Lemma seg_end_bound seg : seg_ok seg → (PAGE_SIZE | seg_end seg) ∧ seg_va seg + size_in_memory seg ≤ seg_end seg < seg_va seg + size_in_memory seg + 4096.
Proof.
  intros [Hp Hs Hr]. change (USTACKTOP - 2 * PAGE_SIZE) with 4005543936 in Hr. apply (ROUNDUP_spec _ 4096); unfold PAGE_SIZE; lia.
Qed.
Lemma seg_pages_user seg : seg_ok seg → Forall (λ va, user va ∧ (PAGE_SIZE | va) ∧ seg_va seg ≤ va ∧ va + PAGE_SIZE ≤ seg_end seg) (pages (seg_va seg) (seg_end seg)).
Proof.
  intros Hok. destruct (seg_end_bound seg Hok) as [[k Hk] Hb]. destruct Hok as [[j Hj] Hs Hr]. change (USTACKTOP - 2 * PAGE_SIZE) with 4005543936 in Hr.
  apply Forall_forall. intros va Hva. unfold pages in Hva. apply list_elem_of_fmap in Hva as (i & -> & Hi%elem_of_seqZ). unfold PAGE_SIZE in *. rewrite Hj, Hk in *.
  replace (k * 4096 - j * 4096) with ((k - j) * 4096) in Hi by lia. rewrite Z.div_mul in Hi by lia.
  unfold user, USER_TOP. split_and!; try lia. exists (j + i). lia.
Qed.
Lemma in_pages m a b va : (PAGE_SIZE | a) → page va ∈ page <$> take m (pages a b) ↔ a ≤ va < a + PAGE_SIZE * Z.of_nat (length (take m (pages a b))).
Proof.
  intros [k ->]. rewrite list_elem_of_fmap. unfold page, PAGE_SIZE. split.
  - intros (r & Hpg & (i & Hi & ->)%elem_of_take_pages). unfold PAGE_SIZE in *. replace (k * 4096 + 4096 * i) with ((k + i) * 4096) in Hpg by lia. rewrite Z.div_mul in Hpg by lia.
    pose proof (Z.div_mod va 4096 ltac:(lia)). pose proof (Z.mod_pos_bound va 4096 ltac:(lia)). lia.
  - intros Hva. exists ((va `div` 4096) * 4096). rewrite Z.div_mul by lia. split; [done|]. apply elem_of_take_pages. exists (va `div` 4096 - k).
    pose proof (Z.div_mod va 4096 ltac:(lia)). pose proof (Z.mod_pos_bound va 4096 ltac:(lia)). unfold PAGE_SIZE in *. split; lia.
Qed.
Definition holds_segment (seg : ProgramSegment) (vas : list Z) (v v' : E) : Prop :=
  ∀ va, user va → umem v' va = if decide (page va ∈ page <$> vas) then seg_byte seg va else umem v va.
Lemma wp_segment_memory n k Rs (s : lstate E) x seg remaining last (Q : Z * Z → lstate E → Prop) :
  let vas := resident (prog_name s) seg remaining in
  seg_ok seg → (∀ a, 0 ≤ kmem a < 256) → loaded (3 * length vas + n) Rs [] (lfs s) x → last_rule x →
  PageRepAlgoType (lfs s) ≠ PG_REP_LRU_LISTS_APPROX → NoDup (page <$> (Rs ++ vas)) → tables_ready (tables_of last vas + k) s → 0 ≤ k →
  (∀ (s' : lstate E) x', loaded n (Rs ++ vas) [] (lfs s') x' → last_rule x' → same_sizes x x' → lkept s s' → tables_ready k s' →
     holds_segment seg vas (vm (lfs s)) (vm (lfs s')) → file (vm (lfs s')) = file (vm (lfs s)) →
     Q (Z.of_nat (length vas), last_table last vas) s') →
  wp (program_segment_alloc_map_copy_workingset kmem owner seg remaining last) Q s.
Proof.
  intros vas Hok Hkm HL Hlr Ha Hnd Ht Hk HQ. pose proof (seg_pages_user seg Hok) as Hpg. pose proof Hok as [Hal Hsz Hroom].
  change (USTACKTOP - 2 * PAGE_SIZE) with 4005543936 in Hroom.
  unfold program_segment_alloc_map_copy_workingset. rewrite ROUNDDOWN_aligned by (done || lia). apply wp_bind, wp_gets.
  fold (seg_end seg). fold (resident (prog_name s) seg remaining). fold vas. apply wp_bind.
  assert (Hsub : ∀ va, va ∈ vas → va ∈ pages (seg_va seg) (seg_end seg)) by (intros va; apply elem_of_take_2 || apply subseteq_take).
  eapply (wp_load_pages n k vas); [exact HL|done|done| |done|done|done|].
  { apply Forall_forall. intros va Hva%Hsub. rewrite Forall_forall in Hpg. by destruct (Hpg va Hva) as (? & ? & _). }
  intros s1 x1 HL1 Hlr1 Hsz1 Hk1 Ht1 Hb1 Hf1. apply wp_bind, wp_onl. eapply wp_env_at; [apply (ws_env _ _ _ (lo_ws _ _ _ _ _ HL1))|].
  replace (set_lfs (lfs s1) s1) with s1 by (by destruct s1). rewrite (ws_dir _ _ _ (lo_ws _ _ _ _ _ HL1)). cbv zeta.
  set (end_ := seg_va seg + Z.of_nat (length vas) * PAGE_SIZE). rewrite (w32_small (seg_va seg + size_in_file seg)) by lia.
  set (copied := Z.max _ _).
  assert (Hin : ∀ va, page va ∈ page <$> vas ↔ seg_va seg ≤ va < end_).
  { intros va. unfold vas, resident. rewrite in_pages by done. fold (resident (prog_name s) seg remaining). fold vas. unfold end_. split; lia. }
  assert (Hres : ∀ va, seg_va seg ≤ va < end_ → user va ∧ ∃ r, r ∈ (Rs ++ vas) ++ [] ∧ page va = page r).
  { intros va Hva. apply Hin, list_elem_of_fmap in Hva as (r & Hpr & Hr). split.
    - rewrite Forall_forall in Hpg. destruct (Hpg r (Hsub r Hr)) as (Hur & _ & Hge & Hle). destruct (seg_end_bound seg Hok) as [_ Hb].
      assert (Hva : page va ∈ page <$> vas) by (rewrite Hpr; by apply list_elem_of_fmap_2). unfold page, PAGE_SIZE, user, USER_TOP in *.
      pose proof (Z.div_mod va 4096 ltac:(lia)). pose proof (Z.mod_pos_bound va 4096 ltac:(lia)).
      pose proof (Z.div_mod r 4096 ltac:(lia)). pose proof (Z.mod_pos_bound r 4096 ltac:(lia)). lia.
    - exists r. split; [|done]. rewrite app_nil_r. apply elem_of_app. by right. }
  assert (Hcop : seg_va seg ≤ copied) by (unfold copied; lia).
  apply wp_bind. eapply wp_stores; [exact HL1| |].
  { intros va Hva%elem_of_seqZ. destruct (Hres va) as [Hu Hr]; [unfold copied in Hva; lia|]. split_and!; [done|apply Hkm..|done]. }
  intros v2 HL2 [Hf2 Hw2 _]. apply wp_bind. eapply wp_stores; [exact HL2| |].
  { intros va Hva%elem_of_seqZ. destruct (Hres va) as [Hu Hr]; [lia|]. done. }
  intros v3 HL3 [Hf3 Hw3 _]. apply wp_ret. cbn [lfs set_lfs vm set_vm] in *. eapply HQ; [exact HL3|done|done| |done| |].
  - eapply lkept_trans; [exact Hk1|]. by split.
  - cbn [lfs set_lfs vm set_vm]. intros va Hu. rewrite Hw3, Hw2 by done. specialize (Hin va).
    destruct (decide (va ∈ seqZ copied (end_ - copied))) as [H3|H3], (decide (va ∈ seqZ (seg_va seg) (copied - seg_va seg))) as [H2|H2]; rewrite elem_of_seqZ in H2, H3;
      destruct (decide (page va ∈ page <$> vas)) as [Hi|Hi]; rewrite Hin in Hi; try (unfold copied in *; lia).
    + unfold seg_byte. rewrite decide_False; [done|]. unfold copied in *. lia.
    + unfold seg_byte. rewrite decide_True; [done|]. unfold copied in *. lia.
    + apply Hb1; [done|]. rewrite Hin. lia.
  - cbn [lfs set_lfs vm set_vm]. by rewrite Hf3, Hf2.
Qed.

(** ** The pages of a segment in the page file *)
Definition seg_content (seg : ProgramSegment) (q : Z) : list Z := (λ j, seg_byte seg (q * PAGE_SIZE + j)) <$> seqZ 0 PAGE_SIZE.
Definition file_pages (seg : ProgramSegment) : list Z :=
  let end_ := seg_va seg + size_in_file seg in
  pages (seg_va seg) (ROUNDDOWN end_ PAGE_SIZE) ++ ROUNDDOWN end_ PAGE_SIZE :: pages (ROUNDUP end_ PAGE_SIZE) (seg_end seg).
(** Pages were stored, everything else stayed. *)
Definition stored (l : list Z) (g : Z → list Z) (v v' : E) : Prop :=
  (∀ va, umem v' va = umem v va) ∧ ∀ q, file v' !! q = if decide (q ∈ page <$> l) then Some (g q) else file v !! q.
Lemma stored_app l1 l2 g v1 v2 v3 : stored l1 g v1 v2 → stored l2 g v2 v3 → stored (l1 ++ l2) g v1 v3.
Proof.
  intros [Hu1 Hf1] [Hu2 Hf2]. split; [intros va; by rewrite Hu2|]. intros q. rewrite Hf2, Hf1.
  repeat case_decide; rewrite ?fmap_app, ?elem_of_app in *; try done; naive_solver.
Qed.
Lemma stored_one g v v' va : (∀ a, umem v' a = umem v a) → file v' = <[page va := g (page va)]> (file v) → stored [va] g v v'.
Proof.
  intros Hu Hf. split; [done|]. intros q. rewrite Hf. destruct (decide (q = page va)) as [->|Hne].
  - rewrite lookup_insert_eq, decide_True; [done|]. by left.
  - rewrite lookup_insert_ne by done. rewrite decide_False; [done|]. by intros ?%list_elem_of_singleton.
Qed.
Lemma loaded_space n n' Rs Xs s x v' : loaded n Rs Xs s x → vm_ok ∅ v' → ready n' v' → given v' = given (vm s) → same_space (vm s) v' → loaded n' Rs Xs (set_vm v' s) x.
Proof. intros HL Hok Hr Hg Hs. eapply loaded_vm; [exact HL|done|done|by rewrite Hg|by apply same_space_frames]. Qed.
Lemma wp_add_page n Rs Xs (s : lstate E) x va g (Q : unit → lstate E → Prop) : loaded (S n) Rs Xs (lfs s) x → user va → (4096 | va) → length (g (page va)) = 4096%nat →
  (∀ v', loaded n Rs Xs (set_vm v' (lfs s)) x → stored [va] g (vm (lfs s)) v' → Q tt (set_lfs (set_vm v' (lfs s)) s)) → wp (add_page owner va (g (page va))) Q s.
Proof.
  intros HL Hu Hal Hlen HQ. unfold add_page. apply wp_bind, wp_onl, wp_vmop. pose proof (ws_vm _ _ _ (lo_ws _ _ _ _ _ HL)) as Hok.
  eapply wp_mono; [exact (ll_add ∅ va (g (page va)) n _ Hok (lo_ready _ _ _ _ _ HL) Hu Hal Hlen)|].
  intros r v1 (Hr & Hok1 & Hr1 & Hg1 & Hsp & Hb & Hf). rewrite decide_False by done. apply wp_ret. apply HQ; [by eapply loaded_space|by apply stored_one].
Qed.
Lemma wp_add_empty_page n Rs Xs (s : lstate E) x va (Q : unit → lstate E → Prop) : loaded (S n) Rs Xs (lfs s) x → user va → (4096 | va) →
  (∀ v', loaded n Rs Xs (set_vm v' (lfs s)) x → stored [va] (λ _, replicate 4096 0) (vm (lfs s)) v' → Q tt (set_lfs (set_vm v' (lfs s)) s)) →
  wp (add_empty_page owner va) Q s.
Proof.
  intros HL Hu Hal HQ. unfold add_empty_page. apply wp_bind, wp_onl, wp_vmop. pose proof (ws_vm _ _ _ (lo_ws _ _ _ _ _ HL)) as Hok.
  eapply wp_mono; [exact (ll_add_empty ∅ va n _ Hok (lo_ready _ _ _ _ _ HL) Hu Hal)|].
  intros r v1 (Hr & Hok1 & Hr1 & Hg1 & Hsp & Hb & Hf). rewrite decide_False by done. apply wp_ret. apply HQ; [by eapply loaded_space|by apply stored_one].
Qed.
(** A loop that stores a page per round. *)
Lemma wp_store_loop n Rs Xs g (body : Z → M (lstate E) unit) l : ∀ (s : lstate E) x (Q : unit → lstate E → Prop), loaded (length l + n) Rs Xs (lfs s) x →
  (∀ va m (s : lstate E) (R : unit → lstate E → Prop), va ∈ l → loaded (S m) Rs Xs (lfs s) x →
     (∀ v', loaded m Rs Xs (set_vm v' (lfs s)) x → stored [va] g (vm (lfs s)) v' → R tt (set_lfs (set_vm v' (lfs s)) s)) → wp (body va) R s) →
  (∀ v', loaded n Rs Xs (set_vm v' (lfs s)) x → stored l g (vm (lfs s)) v' → Q tt (set_lfs (set_vm v' (lfs s)) s)) → wp (mfor l body) Q s.
Proof.
  induction l as [|va l IH]; intros s x Q HL Hb HQ.
  - apply wp_ret. specialize (HQ (vm (lfs s))). replace (set_lfs (set_vm (vm (lfs s)) (lfs s)) s) with s in HQ by (by destruct s as [[] ?]).
    apply HQ; [by destruct (lfs s)|done].
  - cbn [mfor]. apply wp_bind. eapply (Hb va (length l + n)%nat); [by left|exact HL|]. intros v1 HL1 Hs1. eapply IH; [exact HL1| |].
    + intros va' m s' R Hin. apply Hb. by right.
    + cbn [lfs set_lfs vm set_vm]. intros v2 HL2 Hs2. apply HQ; [exact HL2|]. change (va :: l) with ([va] ++ l). by eapply stored_app.
Qed.
Lemma ROUNDUP_rest X R : 0 ≤ R < 4294967296 → (PAGE_SIZE | R) → R - 4096 < X → 0 ≤ X → X + 4095 < 4294967296 → R ≤ ROUNDUP X PAGE_SIZE →
  ROUNDUP (w32 (X - R)) PAGE_SIZE = ROUNDUP X PAGE_SIZE - R.
Proof.
  intros HR [k ->] Hlow HX Hb Hle. destruct (ROUNDUP_spec X 4096) as [[j Hj] Hs]; [lia|lia|lia|]. unfold PAGE_SIZE in *. rewrite Hj in *.
  unfold ROUNDUP, ROUNDDOWN. destruct (decide (k * 4096 ≤ X)) as [Hge|Hlt].
  - rewrite (w32_small (X - k * 4096)), !(w32_small (X - k * 4096 + 4096 - 1)) by lia.
    pose proof (Z.div_mod (X - k * 4096 + 4096 - 1) 4096 ltac:(lia)). pose proof (Z.mod_pos_bound (X - k * 4096 + 4096 - 1) 4096 ltac:(lia)). lia.
  - replace (w32 (w32 (X - k * 4096) + 4096 - 1)) with (X - k * 4096 + 4095).
    + rewrite (w32_small (X - k * 4096 + 4095)), Z.mod_small by lia. lia.
    + unfold w32. rewrite (Z.mod_eq (X - k * 4096)) by lia. rewrite <- (Z.mod_small (X - k * 4096 + 4095) 4294967296) by lia.
      replace ((X - k * 4096) `div` 4294967296) with (-1) by (apply (Z.div_unique _ _ _ (4294967296 + (X - k * 4096))); lia).
      replace (X - k * 4096 - 4294967296 * -1 + 4096 - 1) with (X - k * 4096 + 4095 + 1 * 4294967296) by lia. by rewrite Z_mod_plus_full.
Qed.
Lemma length_content seg q : length (seg_content seg q) = 4096%nat.
Proof. done. Qed.
Lemma length_pages a k j : a = j * PAGE_SIZE → Z.of_nat (length (pages a (k * PAGE_SIZE))) = Z.max 0 (k - j).
Proof. intros ->. unfold pages. rewrite length_fmap, length_seqZ. rewrite <- Z.mul_sub_distr_r, Z.div_mul by done. lia. Qed.
Lemma image_content seg q : seg_va seg ≤ q * PAGE_SIZE → q * PAGE_SIZE + PAGE_SIZE ≤ seg_va seg + size_in_file seg →
  image_page kmem (ptr_start seg + (q * PAGE_SIZE - seg_va seg)) = seg_content seg q.
Proof.
  intros H1 H2. unfold image_page, seg_content, seg_byte. apply list_fmap_ext. intros i j [-> Hj]%lookup_seqZ. unfold PAGE_SIZE in *. rewrite decide_True by lia. f_equal. lia.
Qed.
Lemma temp_content seg q n : seg_va seg ≤ q * PAGE_SIZE → seg_va seg + size_in_file seg = q * PAGE_SIZE + n → n < PAGE_SIZE →
  temp_page kmem 0 (ptr_start seg + (q * PAGE_SIZE - seg_va seg)) n = seg_content seg q.
Proof.
  intros H1 H2 H3. unfold temp_page, seg_content, seg_byte. apply list_fmap_ext. intros i j [-> Hj]%lookup_seqZ. unfold PAGE_SIZE in *.
  repeat case_decide; try lia. f_equal. lia.
Qed.
Lemma zero_content seg q : seg_va seg + size_in_file seg ≤ q * PAGE_SIZE → replicate 4096 0 = seg_content seg q.
Proof.
  intros Hq. unfold seg_content. apply replicate_as_elem_of. split; [done|]. intros b (j & -> & Hj%elem_of_seqZ)%list_elem_of_fmap.
  unfold seg_byte. rewrite decide_False by lia. done.
Qed.
Lemma file_pages_bounds seg : seg_ok seg → ∃ a m e,
  seg_va seg = a * PAGE_SIZE ∧ ROUNDDOWN (seg_va seg + size_in_file seg) PAGE_SIZE = m * PAGE_SIZE ∧
  (ROUNDUP (seg_va seg + size_in_file seg) PAGE_SIZE = m * PAGE_SIZE ∧ seg_va seg + size_in_file seg = m * PAGE_SIZE ∨
   ROUNDUP (seg_va seg + size_in_file seg) PAGE_SIZE = (m + 1) * PAGE_SIZE ∧ m * PAGE_SIZE < seg_va seg + size_in_file seg) ∧
  seg_end seg = e * PAGE_SIZE ∧ 0 ≤ a ≤ m ∧ m ≤ e ∧ seg_va seg + size_in_file seg < (m + 1) * PAGE_SIZE ∧ (m + 1) * PAGE_SIZE < USTACKTOP - PAGE_SIZE ∧
  e * PAGE_SIZE < USTACKTOP - PAGE_SIZE ∧ ROUNDUP (seg_va seg + size_in_file seg) PAGE_SIZE ≤ e * PAGE_SIZE ∧ seg_va seg + size_in_memory seg ≤ e * PAGE_SIZE.
Proof.
  intros Hok. destruct (seg_end_bound seg Hok) as [[e He] Hb]. destruct Hok as [[a Ha] Hs Hr]. change (USTACKTOP - 2 * PAGE_SIZE) with 4005543936 in Hr.
  change (USTACKTOP - PAGE_SIZE) with 4005548032. unfold PAGE_SIZE in *.
  destruct (ROUNDDOWN_spec (seg_va seg + size_in_file seg) 4096) as ([m Hm] & Hmb & _); [lia|lia|].
  destruct (ROUNDUP_spec (seg_va seg + size_in_file seg) 4096) as ([u Hu] & Hub); [lia|lia|lia|].
  exists a, m, e. rewrite Hm, Hu in *. split_and!; try lia.
Qed.
(** The pages [a], ..., [e - 1] by number. *)
Lemma elem_of_page_range va a e : va ∈ pages (a * PAGE_SIZE) (e * PAGE_SIZE) ↔ ∃ q, va = q * PAGE_SIZE ∧ a ≤ q < e.
Proof.
  unfold pages. rewrite list_elem_of_fmap. rewrite <- Z.mul_sub_distr_r, Z.div_mul by done. unfold PAGE_SIZE. split.
  - intros (i & -> & Hi%elem_of_seqZ). exists (a + i). lia.
  - intros (q & -> & Hq). exists (q - a). rewrite elem_of_seqZ. lia.
Qed.
Lemma page_mul q : page (q * PAGE_SIZE) = q.
Proof. unfold page. by apply Z.div_mul. Qed.
Lemma wp_store_segment n Rs Xs (s : lstate E) x seg (Q : unit → lstate E → Prop) : seg_ok seg → loaded (length (file_pages seg) + n) Rs Xs (lfs s) x →
  (∀ v', loaded n Rs Xs (set_vm v' (lfs s)) x → stored (file_pages seg) (seg_content seg) (vm (lfs s)) v' → Q tt (set_lfs (set_vm v' (lfs s)) s)) →
  wp (store_segment kmem owner seg) Q s.
Proof.
  intros Hok HL HQ. destruct (file_pages_bounds seg Hok) as (a & m & e & Ha & Hm & Hup & He & Ham & Hme & Hm1 & Hm2 & He2 & Hue & Hmem).
  pose proof (sg_sizes _ Hok) as Hsz. pose proof (sg_room _ Hok) as Hroom. change (USTACKTOP - 2 * PAGE_SIZE) with 4005543936 in Hroom. change (USTACKTOP - PAGE_SIZE) with 4005548032 in *.
  assert (Huser : ∀ q, 0 ≤ q → q ≤ m ∨ q < e → user (q * PAGE_SIZE) ∧ (4096 | q * PAGE_SIZE)).
  { intros q Hq0 Hq. unfold user, USER_TOP, PAGE_SIZE in *. split; [lia|by exists q]. }
  unfold store_segment. rewrite (w32_small (seg_va seg + size_in_file seg)) by lia. rewrite (ROUNDDOWN_aligned (seg_va seg)) by (lia || exact (sg_page _ Hok)).
  rewrite Z.sub_diag, bool_decide_false, decide_False by lia.
  assert (Hr1 : ROUNDUP (seg_va seg) PAGE_SIZE = seg_va seg).
  { rewrite Ha. unfold ROUNDUP, ROUNDDOWN, PAGE_SIZE in *. rewrite !(w32_small (a * 4096 + 4096 - 1)) by lia.
    replace (a * 4096 + 4096 - 1) with (4095 + a * 4096) by lia. rewrite Z_mod_plus_full. change (4095 `mod` 4096) with 4095. lia. }
  rewrite Hr1. apply wp_bind, wp_ret. unfold file_pages in *. rewrite Hm in *. rewrite length_app in HL. cbn [length] in HL.
  assert (Hlen : Z.of_nat (length (pages (seg_va seg) (m * PAGE_SIZE))) * PAGE_SIZE = m * PAGE_SIZE - seg_va seg).
  { rewrite (length_pages _ m a Ha), Ha. unfold PAGE_SIZE. lia. }
  apply wp_bind. eapply (wp_store_loop (S (length (pages (ROUNDUP (seg_va seg + size_in_file seg) PAGE_SIZE) (seg_end seg)) + n)) Rs Xs (seg_content seg)).
  { by rewrite <- !Nat.add_assoc in HL. }
  { intros va k s' R Hva HL' HR. rewrite Ha in Hva. apply elem_of_page_range in Hva as (q & -> & Hq). rewrite image_content by (unfold PAGE_SIZE in *; lia).
    destruct (Huser q) as [? ?]; [lia|lia|]. rewrite <- (page_mul q) at 2. eapply wp_add_page; [exact HL'|done|done|done|done]. }
  intros v1 HL1 Hs1. rewrite Hlen. apply wp_bind.
  rewrite (temp_content seg m) by (unfold PAGE_SIZE in *; lia). destruct (Huser m) as [? ?]; [lia|lia|].
  replace (seg_content seg m) with (seg_content seg (page (m * PAGE_SIZE))) by (by rewrite page_mul).
  eapply wp_add_page; [exact HL1|done|done|done|]. cbn [lfs set_lfs vm set_vm]. intros v2 HL2 Hs2.
  assert (Hrest : ROUNDUP (w32 (seg_va seg + size_in_memory seg - ROUNDUP (seg_va seg + size_in_file seg) PAGE_SIZE)) PAGE_SIZE =
    seg_end seg - ROUNDUP (seg_va seg + size_in_file seg) PAGE_SIZE).
  { unfold seg_end in He. rewrite <- He in Hue. apply ROUNDUP_rest; try done; destruct Hup as [[Hu ?]|[Hu ?]]; rewrite ?Hu in *; first [by eexists|unfold PAGE_SIZE in *; lia]. }
  rewrite Hrest.
  rewrite Z.add_sub_assoc, Z.add_simpl_l.
  eapply (wp_store_loop n Rs Xs (seg_content seg)); [exact HL2| |].
  - intros va k s' R Hva HL' HR. rewrite He in Hva. assert (Hq : ∃ q, va = q * PAGE_SIZE ∧ seg_va seg + size_in_file seg ≤ q * PAGE_SIZE ∧ m ≤ q < e).
    { destruct Hup as [[Hu Hu2]|[Hu Hu2]]; rewrite Hu in Hva; apply elem_of_page_range in Hva as (q & -> & Hq); exists q; unfold PAGE_SIZE in *; split_and!; lia. }
    destruct Hq as (q & -> & Hq1 & Hq2). destruct (Huser q) as [? ?]; [lia|lia|].
    eapply wp_add_empty_page; [exact HL'|done|done|]. intros v' HLv Hst. apply HR; [done|]. destruct Hst as [Hu Hf]. split; [done|]. intros q'. rewrite Hf.
    repeat case_decide; try done. f_equal. rename select (q' ∈ _) into Hin. apply list_elem_of_singleton in Hin as ->. rewrite page_mul. by apply zero_content.
  - intros v3 HL3 Hs3. cbn [lfs set_lfs vm set_vm] in *. apply HQ; [exact HL3|]. eapply stored_app; [exact Hs1|]. change (m * PAGE_SIZE :: ?l) with ([m * PAGE_SIZE] ++ l).
    by eapply stored_app.
Qed.
End load.
