(* ===== verification/LoadThm.v ===== *)
(** * A loaded program

    The loop over the segments of an image, and what [env_create] leaves behind: the
    pages of the program in the page file, the first of them in memory with the same
    contents and with elements in the working set, and the stack. *)

From S2P Require Import Prelude Queue Paging PagingSpec WorkingSet VMSpec FaultSpec FaultThm Loader LoadSpec.
From S2P Require EnvTable.
From Stdlib Require Import Sorting.Sorted.

(** ** The program headers *)
Section image.
Context (kmem : Z → Z) (start : Z).
Definition segments_from (id : Z) : list ProgramSegment :=
  program_segment kmem start <$> filter (λ i, p_type kmem start i = ELF_PROG_LOAD) (seqZ id (e_phnum kmem start - id)).
(** The segments of a program in the order of their headers. *)
Definition program_segments : list ProgramSegment := segments_from 0.
Lemma segment_from_spec id : match segments_from id with
  | [] => segment_from kmem start id = None
  | seg :: segs => segment_from kmem start id = Some seg ∧ segments_from (segment_id seg + 1) = segs
  end.
Proof.
  unfold segment_from. remember (Z.to_nat (e_phnum kmem start - id)) as n eqn:Hn. revert id Hn. induction n as [|n IH]; intros id Hn.
  - unfold segments_from. replace (seqZ id (e_phnum kmem start - id)) with (@nil Z) by (by rewrite seqZ_nil by lia). cbn. rewrite decide_False by lia. done.
  - assert (Hc : segments_from id = (if decide (p_type kmem start id = ELF_PROG_LOAD) then program_segment kmem start id :: segments_from (id + 1) else segments_from (id + 1))).
    { unfold segments_from. rewrite seqZ_cons by lia. rewrite filter_cons. replace (Z.pred (e_phnum kmem start - id)) with (e_phnum kmem start - (id + 1)) by lia.
      rewrite <- Z.add_1_r. by case_decide. }
    rewrite Hc. cbn [seek]. case_decide as Ht.
    + rewrite decide_True by lia. done.
    + apply IH. lia.
Qed.
Lemma segments_from_length id : (length (segments_from id) ≤ Z.to_nat (e_phnum kmem start - id))%nat.
Proof. unfold segments_from. rewrite length_fmap, length_filter, length_seqZ. done. Qed.
End image.

Section load.
Context {E : Type} `{VM E} `{LoadOps E} {dir : Z} `{!VMView E dir} `{!LoadView E} `{!LoadLaws E dir}.
Implicit Types s : fstate E.

(** ** Cleaning the pages *)
Definition clean_entry (va : Z) (v : E) : Prop := Z.land (pte va v) PERM_MODIFIED = 0.
Lemma wp_clean_page n Rs s x p (Q : unit → fstate E → Prop) : loaded n Rs [] s x → p ∈ page_WS_list x →
  (∀ v', loaded n Rs [] (set_vm v' s) x → same_bytes (vm s) v' → clean_entry (va_of s p) v' →
     (∀ va, user va → page va ≠ page (va_of s p) → pte va v' = pte va (vm s)) → Q tt (set_vm v' s)) →
  wp (clean_page owner p) Q s.
Proof.
  intros HL Hp HQ. pose proof (lo_ws _ _ _ _ _ HL) as Hok. destruct (ws_elem _ _ _ Hok p Hp) as ([w Hw] & Hu & Ht & Hm).
  unfold clean_page. apply wp_bind. eapply wp_env_at; [apply (ws_env _ _ _ Hok)|]. apply wp_bind. eapply wp_get_wse; [exact Hw|].
  rewrite (ws_dir _ _ _ Hok). rewrite <- (va_of_lookup _ _ _ Hw). set (va := va_of s p) in *.
  cut (wp (vmop (r ← get_page_table dir va; e ← entry r.2 (PTX va); set_entry r.2 (PTX va) (Z.land e (Z.lnot PERM_MODIFIED)))) Q s).
  { unfold wp, vmop, zoom, mbind, M_bind. destruct (get_page_table dir va (vm s)) as [r v| | |]; cbn; [|done..].
    destruct (entry r.2 (PTX va) v) as [e v2| | |]; cbn; [|done..]. by destruct (set_entry _ _ _ v2). }
  apply wp_vmop. eapply wp_mono; [exact (ll_clean ∅ va n _ (ws_vm _ _ _ Hok) (lo_ready _ _ _ _ _ HL) Hu Ht Hm)|].
  intros [] v' (Hok' & Hr & Hg & Hupd & Hb). apply HQ; [|done| |].
  - eapply loaded_vm; [exact HL|done|done|by rewrite Hg|]. eapply pte_upd_frames; [exact Hu|exact Hupd|apply maps_clear_modified|].
    intros _. apply PPN_clear; [exact (ll_range ∅ _ _ (ws_vm _ _ _ Hok) Hu Ht)|done].
  - unfold clean_entry. destruct Hupd as [-> _]. rewrite Z.ldiff_land, <- Z.land_assoc, (Z.land_comm (Z.lnot _)), Z.land_lnot_diag. apply Z.land_0_r.
  - by apply Hupd.
Qed.
Lemma wp_clean_pages n Rs l : ∀ pre (s : lstate E) x (Q : unit → lstate E → Prop), loaded n Rs [] (lfs s) x → page_WS_list x = pre ++ l →
  (∀ p, p ∈ pre → clean_entry (va_of (lfs s) p) (vm (lfs s))) →
  (∀ v', loaded n Rs [] (set_vm v' (lfs s)) x → same_bytes (vm (lfs s)) v' → (∀ r, r ∈ Rs → clean_entry r v') → Q tt (set_lfs (set_vm v' (lfs s)) s)) →
  wp (mfor l (λ p, onl (clean_page owner p))) Q s.
Proof.
  induction l as [|p l IH]; intros pre s x Q HL Hl Hpre HQ.
  - apply wp_ret. specialize (HQ (vm (lfs s))). replace (set_lfs (set_vm (vm (lfs s)) (lfs s)) s) with s in HQ by (by destruct s as [[] ?]).
    apply HQ; [by destruct (lfs s)|done|]. intros r Hr. rewrite <- (lo_vas _ _ _ _ _ HL), Hl, app_nil_r in Hr. apply list_elem_of_fmap in Hr as (p & -> & Hp). by apply Hpre.
  - cbn [mfor]. assert (Hp : p ∈ page_WS_list x) by (rewrite Hl; apply elem_of_app; right; by left). apply wp_bind, wp_onl.
    eapply wp_clean_page; [exact HL|done|]. intros v1 HL1 [Hb1 Hf1] Hc1 Ho1. apply (IH (pre ++ [p]) (set_lfs (set_vm v1 (lfs s)) s) x); [exact HL1|by rewrite <- app_assoc| |].
    + cbn. intros q [Hq| ->%list_elem_of_singleton]%elem_of_app; [|done]. unfold clean_entry. change (va_of (set_vm v1 (lfs s)) q) with (va_of (lfs s) q).
      assert (Hqx : q ∈ page_WS_list x) by (rewrite Hl; apply elem_of_app; by left). pose proof (lo_ws _ _ _ _ _ HL) as Hok.
      destruct (ws_elem _ _ _ Hok q Hqx) as (_ & Hu & _). rewrite Ho1; [by apply Hpre|done|]. apply (ws_distinct _ _ _ Hok); try done. intros ->.
      pose proof (ws_nodup _ _ _ Hok) as Hnd. rewrite Hl in Hnd. apply NoDup_app in Hnd as (_ & Hd & _). apply (Hd p Hq). by left.
    + cbn. intros v2 HL2 [Hb2 Hf2] Hc2. apply HQ; [exact HL2| |done]. split; [intros va; by rewrite Hb2|congruence].
Qed.

(** ** The stack *)
Definition stack_va : Z := USTACKTOP - PAGE_SIZE.
Lemma stack_user va : page va = page stack_va → user va.
Proof.
  change stack_va with 4005548032. unfold page, PAGE_SIZE, user, USER_TOP. change (4005548032 `div` 4096) with 977917. intros Hp.
  pose proof (Z.div_mod va 4096 ltac:(lia)). pose proof (Z.mod_pos_bound va 4096 ltac:(lia)). lia.
Qed.
Lemma wp_load_stack n Rs (s : lstate E) x (Q : unit → lstate E → Prop) : loaded (S (S (S (S n)))) Rs [] (lfs s) x → (∀ r, r ∈ Rs → page stack_va ≠ page r) →
  PageRepAlgoType (lfs s) ≠ PG_REP_LRU_LISTS_APPROX →
  (∀ (s' : lstate E) x', loaded n (Rs ++ [stack_va]) [] (lfs s') x' → last_rule x' → same_sizes x x' →
     initNumStackPages s' = 1 → tf_eip s' = tf_eip s → PageRepAlgoType (lfs s') = PageRepAlgoType (lfs s) →
     (∀ va, user va → umem (vm (lfs s')) va = if decide (page va = page stack_va) then 0 else umem (vm (lfs s)) va) →
     (∀ va, user va → page va ≠ page stack_va → pte va (vm (lfs s')) = pte va (vm (lfs s))) →
     file (vm (lfs s')) = <[page stack_va := replicate 4096 0]> (file (vm (lfs s))) → Q tt s') →
  wp (load_stack owner) Q s.
Proof.
  intros HL Hne Ha HQ. unfold load_stack. apply wp_bind, wp_modify. fold stack_va.
  assert (Hu : user stack_va) by by apply stack_user. assert (Hal : (PAGE_SIZE | stack_va)) by by exists 977917.
  apply wp_bind, wp_onl. eapply wp_map_page; [exact HL|done|done|]. intros v1 HL1 Hb1 Hf1. cbn [lfs set_lfs set_stack_pages].
  apply wp_bind, wp_onl. eapply wp_env_at; [apply (ws_env _ _ _ (lo_ws _ _ _ _ _ HL))|]. rewrite (ws_dir _ _ _ (lo_ws _ _ _ _ _ HL)).
  apply wp_bind. eapply wp_stores; [exact HL1| |].
  { intros va Hva%elem_of_seqZ. assert (Hpv : page va = page stack_va).
    { change stack_va with 4005548032 in *. unfold page, PAGE_SIZE in *. change (4005548032 `div` 4096) with 977917. symmetry. apply (Z.div_unique _ _ _ (va - 4005548032)); lia. }
    split_and!; [by apply stack_user|done|done|]. exists stack_va. split; [apply elem_of_app; right; by left|done]. }
  cbn [lfs set_lfs]. intros v2 HL2 [Hf2 Hw2 Hp2]. cbn [vm set_vm] in *.
  apply wp_bind, wp_onl. cbn [lfs set_lfs]. eapply wp_add_element; [exact HL2|done|]. intros p v3 m3 s3 HL3 [Hb3 Hf3] Hsp3. cbn [vm set_vm] in *.
  apply wp_bind, wp_onl. cbn [lfs set_lfs]. eapply wp_update_last; [exact HL3|]. intros x' Hx' Hlr HL4.
  apply wp_bind, wp_gets, wp_bind, wp_onl. cbn [lfs set_lfs]. apply wp_to_lists; [done|].
  apply wp_bind, wp_onl, wp_vmop. cbn [lfs set_lfs]. set (s4 := set_envs _ s3) in *.
  eapply wp_mono; [exact (ll_add_empty ∅ stack_va n _ (ws_vm _ _ _ (lo_ws _ _ _ _ _ HL4)) (lo_ready _ _ _ _ _ HL4) Hu Hal)|].
  intros r v5 (_ & Hok5 & Hr5 & Hg5 & Hsp5 & Hb5 & Hf5). apply wp_ret. change (vm s4) with v3 in *.
  eapply (HQ _ x'); cbn [lfs set_lfs vm set_vm]; try done.
  - by eapply loaded_space.
  - by rewrite Hx'.
  - intros va Hua. rewrite Hb5, Hb3, Hw2 by done. destruct (decide (page va = page stack_va)) as [Hpg|Hpg].
    + rewrite decide_True; [done|]. apply elem_of_seqZ. change stack_va with 4005548032 in *. unfold page, PAGE_SIZE in *. change (4005548032 `div` 4096) with 977917 in Hpg.
      pose proof (Z.div_mod va 4096 ltac:(lia)). pose proof (Z.mod_pos_bound va 4096 ltac:(lia)). lia.
    + rewrite decide_False; [by apply Hb1|]. intros Hin%elem_of_seqZ. apply Hpg. change stack_va with 4005548032 in *. unfold page, PAGE_SIZE in *.
      change (4005548032 `div` 4096) with 977917. symmetry. apply (Z.div_unique _ _ _ (va - 4005548032)); lia.
  - intros va Hua Hpg. destruct (Hsp5 va Hua) as [-> _], (Hsp3 va Hua) as [-> _]. rewrite Hp2; [by apply Hb1|done|].
    intros (va' & Hva' & Hin%elem_of_seqZ)%list_elem_of_fmap. apply Hpg. rewrite Hva'. change stack_va with 4005548032 in *. unfold page, PAGE_SIZE in *.
    change (4005548032 `div` 4096) with 977917. symmetry. apply (Z.div_unique _ _ _ (va' - 4005548032)); lia.
  - by rewrite Hf5, Hf3, Hf2, Hf1.
Qed.

(** ** All segments *)
Context (kmem : Z → Z).


(** The pages in memory when [remaining] of the working set are left, and the byte
    of the segment that a mapped address belongs to. *)
Fixpoint resident_all (name : string) (segs : list ProgramSegment) (remaining : Z) : list Z :=
  match segs with
  | [] => []
  | seg :: segs => let vas := resident name seg remaining in vas ++ resident_all name segs (remaining - Z.of_nat (length vas))
  end.
Fixpoint resident_byte (name : string) (segs : list ProgramSegment) (remaining va : Z) : option Z :=
  match segs with
  | [] => None
  | seg :: segs => let vas := resident name seg remaining in
      if decide (page va ∈ page <$> vas) then Some (seg_byte kmem seg va) else resident_byte name segs (remaining - Z.of_nat (length vas)) va
  end.
Definition segs_file_pages (segs : list ProgramSegment) : list Z := segs ≫= file_pages.
(** The page file after the segments were stored in this order. *)
Fixpoint file_after (segs : list ProgramSegment) (q : Z) (old : option (list Z)) : option (list Z) :=
  match segs with
  | [] => old
  | seg :: segs => file_after segs q (if decide (q ∈ page <$> file_pages seg) then Some (seg_content kmem seg q) else old)
  end.
Definition segments_held (name : string) (segs : list ProgramSegment) (remaining : Z) (v v' : E) : Prop :=
  (∀ va, user va → umem v' va = default (umem v va) (resident_byte name segs remaining va)) ∧
  (∀ q, file v' !! q = file_after segs q (file v !! q)).
Lemma resident_length name seg remaining : 0 ≤ remaining → Z.of_nat (length (resident name seg remaining)) ≤ remaining.
Proof. intros Hr. unfold resident, segment_limit. rewrite length_take. repeat case_decide; lia. Qed.
Lemma resident_byte_page name segs : ∀ remaining va, is_Some (resident_byte name segs remaining va) ↔ page va ∈ page <$> resident_all name segs remaining.
Proof.
  induction segs as [|seg segs IH]; intros remaining va; cbn [resident_byte resident_all].
  - split; [intros [? [=]]|by intros ?%not_elem_of_nil].
  - rewrite fmap_app, elem_of_app, <- IH. case_decide as Hd; [|tauto]. split; [by left|]. intros _. by eexists.
Qed.
Lemma wp_load_segments start n k segs : ∀ id fuel Rs (s : lstate E) x remaining last (Q : unit → lstate E → Prop),
  segments_from kmem start id = segs → e_magic kmem start = EnvTable.ELF_MAGIC → (length segs < fuel)%nat → Forall seg_ok segs → (∀ a, 0 ≤ kmem a < 256) →
  let Ws := resident_all (prog_name s) segs remaining in
  0 ≤ remaining < 4294967296 → loaded (3 * length Ws + length (segs_file_pages segs) + n) Rs [] (lfs s) x → last_rule x →
  PageRepAlgoType (lfs s) ≠ PG_REP_LRU_LISTS_APPROX → NoDup (page <$> (Rs ++ Ws)) → tables_ready (tables_of last Ws + k) s → 0 ≤ k →
  (∀ (s' : lstate E) x', loaded n (Rs ++ Ws) [] (lfs s') x' → last_rule x' → same_sizes x x' → lkept s s' → tables_ready k s' →
     segments_held (prog_name s) segs remaining (vm (lfs s)) (vm (lfs s')) → Q tt s') →
  wp (load_segments kmem fuel owner start (segment_from kmem start id) remaining last) Q s.
Proof.
  induction segs as [|seg segs IH]; intros id fuel Rs s x remaining last Q Hsegs Hmag Hfuel Hok Hkm Ws Hrem HL Hlr Ha Hnd Ht Hk HQ;
    pose proof (segment_from_spec kmem start id) as Hfrom; rewrite Hsegs in Hfrom.
  - rewrite Hfrom. destruct fuel; apply wp_ret; apply (HQ s x); try done; by rewrite app_nil_r.
  - destruct Hfrom as [-> Hnext]. destruct fuel as [|fuel]; [cbn in Hfuel; lia|]. apply Forall_cons in Hok as [Hseg Hok]. cbn [load_segments].
    set (vas := resident (prog_name s) seg remaining) in *. set (remaining' := remaining - Z.of_nat (length vas)) in *.
    pose proof (resident_length (prog_name s) seg remaining ltac:(lia)) as Hrl. fold vas in Hrl.
    assert (HWs : Ws = vas ++ resident_all (prog_name s) segs remaining') by done. set (Ws' := resident_all (prog_name s) segs remaining') in *. clearbody Ws. subst Ws.
    assert (Htab : ∀ l l2 la, tables_of la (l ++ l2) = tables_of la l + tables_of (last_table la l) l2).
    { induction l as [|v l IHl]; intros l2 la; [done|]. cbn. rewrite IHl. unfold last_table at 1. lia. }
    apply wp_bind. eapply (wp_segment_memory kmem (length (file_pages seg) + (3 * length Ws' + length (segs_file_pages segs) + n)) (tables_of (last_table last vas) Ws' + k));
      [done|done| |exact Hlr|done| | | |].
    { fold vas. replace (3 * length vas + _)%nat with (3 * length (vas ++ Ws') + length (segs_file_pages (seg :: segs)) + n)%nat; [exact HL|].
      unfold segs_file_pages. cbn. rewrite !length_app. lia. }
    { fold vas. rewrite app_assoc, fmap_app in Hnd. by apply NoDup_app in Hnd as (? & _). }
    { fold vas. rewrite Htab in Ht. by rewrite Z.add_assoc. }
    { pose proof (tables_of_nonneg (last_table last vas) Ws'). lia. }
    fold vas. intros s1 x1 HL1 Hlr1 Hsz1 Hk1 Ht1 Hh1 Hf1. apply wp_bind. eapply wp_store_segment; [done|exact HL1|]. intros v2 HL2 [Hu2 Hf2].
    apply wp_bind. unfold PROGRAM_SEGMENT_NEXT. rewrite decide_True by done. apply wp_ret. cbn [fst snd]. fold remaining'. rewrite (w32_small remaining') by lia.
    assert (Hname : prog_name (set_lfs (set_vm v2 (lfs s1)) s1) = prog_name s) by apply (lk_name _ _ Hk1).
    eapply (IH _ fuel (Rs ++ vas)); [exact Hnext|done|cbn in Hfuel; lia|done|done|lia| |exact Hlr1| | | |done|]; rewrite ?Hname; fold Ws'.
    { exact HL2. } { cbn. by rewrite (lk_algo _ _ Hk1). } { by rewrite <- app_assoc. } { exact Ht1. }
    intros s3 x3 HL3 Hlr3 Hsz3 Hk3 Ht3 [Hu3 Hf3]. cbn [lfs set_lfs vm set_vm] in *. apply (HQ s3 x3).
    + by rewrite app_assoc.
    + done.
    + destruct Hsz1, Hsz3. split; congruence.
    + eapply lkept_trans; [exact Hk1|]. eapply lkept_trans; [|exact Hk3]. by split.
    + done.
    + split.
      * intros va Hu. rewrite Hu3 by done. cbn [resident_byte]. fold vas remaining'. rewrite Hu2, Hh1 by done. case_decide as Hin; [|done].
        destruct (resident_byte (prog_name s) segs remaining' va) eqn:Hb; [|done]. exfalso.
        assert (Hin2 : page va ∈ page <$> Ws') by (apply resident_byte_page; by eexists).
        rewrite !fmap_app in Hnd. apply NoDup_app in Hnd as (_ & _ & Hnd). apply NoDup_app in Hnd as (_ & Hd & _). by apply (Hd (page va)).
      * intros q. rewrite Hf3, Hf2, Hf1. done.
Qed.

(** ** Where pages of a program lie *)
Definition program_ok (segs : list ProgramSegment) : Prop :=
  Forall seg_ok segs ∧ StronglySorted (λ seg seg', seg_end seg ≤ seg_va seg') segs.
Definition in_segment (seg : ProgramSegment) (q : Z) : Prop := seg_va seg ≤ q * PAGE_SIZE < seg_end seg.
Lemma resident_in name seg remaining q : seg_ok seg → q ∈ page <$> resident name seg remaining → in_segment seg q.
Proof.
  intros Hok (va & -> & Hva)%list_elem_of_fmap. assert (Hin : va ∈ pages (seg_va seg) (seg_end seg)) by (by apply subseteq_take in Hva).
  pose proof (seg_pages_user seg Hok) as Hp. rewrite Forall_forall in Hp. destruct (Hp va Hin) as (_ & [k ->] & H1 & H2).
  unfold in_segment. rewrite page_mul. unfold PAGE_SIZE in *. lia.
Qed.
Lemma resident_all_in name segs : ∀ remaining q, Forall seg_ok segs → q ∈ page <$> resident_all name segs remaining → ∃ seg, seg ∈ segs ∧ in_segment seg q.
Proof.
  induction segs as [|seg segs IH]; intros remaining q Hok Hq; cbn in Hq; [by apply not_elem_of_nil in Hq|]. apply Forall_cons in Hok as [Hseg Hok].
  rewrite fmap_app, elem_of_app in Hq. destruct Hq as [Hq|Hq].
  - exists seg. split; [by left|by eapply resident_in].
  - destruct (IH _ q Hok Hq) as (seg' & Hin & Hq'). exists seg'. split; [by right|done].
Qed.
Lemma segments_apart seg segs q : Forall seg_ok (seg :: segs) → Forall (λ seg', seg_end seg ≤ seg_va seg') segs → in_segment seg q → ∀ seg', seg' ∈ segs → ¬ in_segment seg' q.
Proof. intros _ Hs Hq seg' Hin Hq'. rewrite Forall_forall in Hs. specialize (Hs _ Hin). unfold in_segment in *. cbv beta in Hs. lia. Qed.
Lemma resident_nodup name seg remaining : seg_ok seg → NoDup (page <$> resident name seg remaining).
Proof.
  intros Hok. pose proof (seg_pages_user seg Hok) as Hp. unfold resident. rewrite fmap_take. eapply sublist_NoDup; [|apply sublist_take].
  unfold pages. rewrite <- list_fmap_compose. apply NoDup_fmap_2_strong; [|apply NoDup_seqZ]. intros i j _ _. unfold page, PAGE_SIZE, compose.
  destruct (sg_page _ Hok) as [k ->]. unfold PAGE_SIZE. rewrite !(Z.add_comm (k * 4096)), !(Z.mul_comm 4096), !Z.div_add_l by lia. lia.
Qed.
Lemma resident_all_nodup name segs : ∀ remaining, program_ok segs → NoDup (page <$> resident_all name segs remaining).
Proof.
  induction segs as [|seg segs IH]; intros remaining [Hok Hs]; [apply NoDup_nil_2|]. cbn [resident_all]. rewrite fmap_app.
  pose proof Hok as Hok2. apply Forall_cons in Hok as [Hseg Hok]. apply StronglySorted_inv in Hs as [Hs Hle]. apply NoDup_app. split_and!.
  - by apply resident_nodup.
  - intros q Hq Hq2. apply (resident_in name seg remaining q Hseg) in Hq. destruct (resident_all_in _ _ _ _ Hok Hq2) as (seg' & Hin & Hq').
    by eapply (segments_apart seg segs q).
  - by apply IH.
Qed.
Lemma resident_all_length name segs : ∀ remaining, 0 ≤ remaining → Z.of_nat (length (resident_all name segs remaining)) ≤ remaining.
Proof.
  induction segs as [|seg segs IH]; intros remaining Hr; [done|]. cbn [resident_all]. rewrite length_app.
  pose proof (resident_length name seg remaining Hr). specialize (IH (remaining - Z.of_nat (length (resident name seg remaining))) ltac:(lia)). lia.
Qed.
Lemma resident_byte_in name segs : ∀ remaining va b, Forall seg_ok segs → resident_byte name segs remaining va = Some b →
  ∃ seg, seg ∈ segs ∧ in_segment seg (page va) ∧ b = seg_byte kmem seg va.
Proof.
  induction segs as [|seg segs IH]; intros remaining va b Hok Hb; [done|]. apply Forall_cons in Hok as [Hseg Hok]. cbn [resident_byte] in Hb. case_decide as Hin.
  - injection Hb as <-. exists seg. split_and!; [by left|by eapply resident_in|done].
  - destruct (IH _ _ _ Hok Hb) as (seg' & Hs & Hq & ->). exists seg'. split_and!; [by right|done|done].
Qed.
(** The pages that a segment takes in the page file: its own, and one more when its
    data ends with a page. *)
Lemma file_pages_in seg q : seg_ok seg → in_segment seg q → q ∈ page <$> file_pages seg.
Proof.
  intros Hok Hq. destruct (file_pages_bounds seg Hok) as (a & m & e & Ha & Hm & Hup & He & Ham & Hme & Hm1 & Hm2 & He2 & Hue & Hmem).
  unfold in_segment in Hq. rewrite Ha, He in Hq. unfold file_pages. rewrite Hm, Ha, He. apply list_elem_of_fmap. exists (q * PAGE_SIZE). split; [by rewrite page_mul|].
  rewrite elem_of_app, elem_of_cons, elem_of_page_range. destruct (decide (q < m)) as [Hlt|Hge].
  - left. exists q. split; [done|]. unfold PAGE_SIZE in *. lia.
  - right. destruct (decide (q = m)) as [->|Hne]; [by left|]. right. rewrite <- Ha. destruct Hup as [[Hu _]|[Hu _]]; rewrite Hu; apply elem_of_page_range; exists q; unfold PAGE_SIZE in *; lia.
Qed.
Lemma file_pages_low seg q : seg_ok seg → q ∈ page <$> file_pages seg → seg_va seg ≤ q * PAGE_SIZE < USTACKTOP - PAGE_SIZE.
Proof.
  intros Hok Hq. destruct (file_pages_bounds seg Hok) as (a & m & e & Ha & Hm & Hup & He & Ham & Hme & Hm1 & Hm2 & He2 & Hue & Hmem).
  unfold file_pages in Hq. rewrite Hm, He, list_elem_of_fmap in Hq. change (USTACKTOP - PAGE_SIZE) with 4005548032 in *.
  set (up := ROUNDUP _ _) in *. rewrite Ha in Hq. rewrite Ha.
  destruct Hq as (va & -> & [(i & -> & Hq)%elem_of_page_range|[->|Hq]%elem_of_cons]%elem_of_app); rewrite ?page_mul; unfold PAGE_SIZE in *; [lia|lia|].
  destruct Hup as [[Hu _]|[Hu _]]; rewrite Hu in Hq; apply elem_of_page_range in Hq as (i & -> & Hq); rewrite page_mul; unfold PAGE_SIZE in *; lia.
Qed.
(** A page of a segment keeps its contents, since the later segments lie behind it. *)
Lemma file_after_in segs : ∀ q old seg, program_ok segs → seg ∈ segs → in_segment seg q → file_after segs q old = Some (seg_content kmem seg q).
Proof.
  induction segs as [|seg0 segs IH]; intros q old seg [Hok Hs] Hin Hq; [by apply not_elem_of_nil in Hin|]. cbn [file_after].
  pose proof Hok as Hok2. apply Forall_cons in Hok as [Hseg Hok]. apply StronglySorted_inv in Hs as [Hs Hle]. apply elem_of_cons in Hin as [->|Hin]; [|by apply IH].
  rewrite decide_True by by apply file_pages_in. clear IH Hs. induction segs as [|seg1 segs IH]; [done|]. cbn [file_after].
  apply Forall_cons in Hle as [Hle1 Hle]. apply Forall_cons in Hok as [Hseg1 Hok]. rewrite decide_False.
  - apply IH; [done|done|by constructor].
  - intros Hq1. apply file_pages_low in Hq1; [|done]. unfold in_segment in Hq. lia.
Qed.
Lemma file_after_out segs : ∀ q old, (∀ seg, seg ∈ segs → q ∉ page <$> file_pages seg) → file_after segs q old = old.
Proof.
  induction segs as [|seg segs IH]; intros q old Hq; [done|]. cbn [file_after]. rewrite decide_False by (apply Hq; by left). apply IH. intros seg' Hin. apply Hq. by right.
Qed.

(** ** The program is loaded *)
Definition loaded_pages (start : Z) (s : lstate E) x : list Z :=
  resident_all (prog_name s) (program_segments kmem start) (page_WS_max_size x - 1).
(** The frames, blocks and pages of the page file that loading takes. *)
Definition load_cost (start : Z) (s : lstate E) x : nat :=
  3 * length (loaded_pages start s x) + length (segs_file_pages (program_segments kmem start)) + 5.
Record load_start (start : Z) (s : lstate E) x : Prop := {
  ls_magic : e_magic kmem start = EnvTable.ELF_MAGIC;
  ls_image a : 0 ≤ kmem a < 256;
  ls_program : program_ok (program_segments kmem start);
  ls_fresh : loaded (load_cost start s x) [] [] (lfs s) x;
  ls_last : page_last_WS_element x = NULL;
  ls_size : 1 ≤ page_WS_max_size x < 4294967296;
  ls_algo : PageRepAlgoType (lfs s) ≠ PG_REP_LRU_LISTS_APPROX;
  ls_tables : tables_ready (tables_of NO_TABLE (loaded_pages start s x)) s
}.
Record program_loaded (start : Z) (s s' : lstate E) x x' : Prop := {
  pl_env : env_ok owner (lfs s') x';
  pl_pages : va_of (lfs s') <$> page_WS_list x' = loaded_pages start s x ++ [stack_va];
  pl_mapped va : user va → maps (pte va (vm (lfs s'))) = true ↔ page va ∈ page <$> loaded_pages start s x ++ [stack_va];
  pl_contents va : user va → maps (pte va (vm (lfs s'))) = true →
    ∃ bytes, file (vm (lfs s')) !! page va = Some bytes ∧ bytes !! Z.to_nat (va `mod` PAGE_SIZE) = Some (umem (vm (lfs s')) va);
  pl_file seg q : seg ∈ program_segments kmem start → in_segment seg q → file (vm (lfs s')) !! q = Some (seg_content kmem seg q);
  pl_stack : file (vm (lfs s')) !! page stack_va = Some (replicate 4096 0);
  pl_other q : q ≠ page stack_va → (∀ seg, seg ∈ program_segments kmem start → q ∉ page <$> file_pages seg) →
    file (vm (lfs s')) !! q = file (vm (lfs s)) !! q;
  pl_clean r : r ∈ loaded_pages start s x → clean_entry r (vm (lfs s'));
  pl_entry : tf_eip s' = e_entry kmem start;
  pl_prepaged : prepagedVAs s' = loaded_pages start s x ++ [stack_va]
}.
Lemma seg_content_lookup seg va : seg_content kmem seg (page va) !! Z.to_nat (va `mod` PAGE_SIZE) = Some (seg_byte kmem seg va).
Proof.
  pose proof (Z.mod_pos_bound va PAGE_SIZE ltac:(done)). unfold seg_content. rewrite list_lookup_fmap.
  rewrite (proj2 (lookup_seqZ 0 _ _ (va `mod` PAGE_SIZE))) by (unfold PAGE_SIZE in *; lia). cbn. do 2 f_equal. unfold page.
  pose proof (Z.div_mod va PAGE_SIZE ltac:(done)). lia.
Qed.
Lemma in_segment_low seg q : seg_ok seg → in_segment seg q → q ≠ page stack_va.
Proof.
  intros Hok Hq ->. apply file_pages_in, file_pages_low in Hq; [|done..]. change (page stack_va) with 977917 in Hq. change (USTACKTOP - PAGE_SIZE) with 4005548032 in Hq.
  unfold PAGE_SIZE in Hq. lia.
Qed.
Lemma loaded_env_ok n Rs s x : loaded n Rs [] s x → last_rule x → 0 < page_WS_max_size x → Z.of_nat (length Rs) ≤ page_WS_max_size x → env_ok owner s x.
Proof.
  intros HL Hlr Hpos Hlen. rewrite <- (lo_vas _ _ _ _ _ HL), length_fmap in Hlen. pose proof (lo_ws _ _ _ _ _ HL) as Hok. split; [done|done|done|..]; rewrite Hlr.
  - case_decide as Hd; [|by left]. right. apply first_in. intros Hnil. rewrite Hnil in Hd. cbn in Hd. lia.
  - intros Hd. rewrite decide_True by done. intros Hn. apply (ws_nonnull _ _ _ Hok). rewrite <- Hn. apply first_in. intros Hnil. rewrite Hnil in Hd. cbn in Hd. lia.
Qed.
Lemma program_loaded_intro start (s s' : lstate E) x x' : let segs := program_segments kmem start in let Ws := loaded_pages start s x in
  program_ok segs → 1 ≤ page_WS_max_size x → loaded 0 (Ws ++ [stack_va]) [] (lfs s') x' → last_rule x' → same_sizes x x' →
  (∀ va, user va → umem (vm (lfs s')) va = if decide (page va = page stack_va) then 0
     else default (umem (vm (lfs s)) va) (resident_byte (prog_name s) segs (page_WS_max_size x - 1) va)) →
  (∀ q, file (vm (lfs s')) !! q = if decide (q = page stack_va) then Some (replicate 4096 0) else file_after segs q (file (vm (lfs s)) !! q)) →
  (∀ r, r ∈ Ws → clean_entry r (vm (lfs s'))) → tf_eip s' = e_entry kmem start → prepagedVAs s' = Ws ++ [stack_va] → program_loaded start s s' x x'.
Proof.
  intros segs Ws Hprog Hsize HL Hlr [Hsz Hdir] Hu Hf Hc He Hpp. pose proof (proj1 Hprog) as Hall. rewrite Forall_forall in Hall.
  pose proof (resident_all_length (prog_name s) segs (page_WS_max_size x - 1) ltac:(lia)) as Hlen. change (resident_all _ _ _) with Ws in Hlen.
  assert (Hfile : ∀ seg q, seg ∈ segs → in_segment seg q → file (vm (lfs s')) !! q = Some (seg_content kmem seg q)).
  { intros seg q Hin Hq. rewrite Hf, decide_False by (eapply in_segment_low; [by apply Hall|done]). by apply file_after_in. }
  assert (Hmap : ∀ va, user va → maps (pte va (vm (lfs s'))) = true ↔ page va ∈ page <$> Ws ++ [stack_va]).
  { intros va Huv. rewrite list_elem_of_fmap. split.
    - intros Hm. destruct (lo_only _ _ _ _ _ HL va Huv Hm) as (r & Hr & Hpg). rewrite app_nil_r in Hr. by exists r.
    - intros (r & Hpg & Hr). eapply loaded_mapped; [exact HL|done|rewrite app_nil_r; exact Hr|done]. }
  split; try done.
  - eapply loaded_env_ok; [exact HL|done|lia|]. rewrite length_app. cbn. lia.
  - by rewrite (lo_vas _ _ _ _ _ HL).
  - intros va Huv Hm. rewrite Hu by done. case_decide as Hpg.
    + exists (replicate 4096 0). rewrite Hf, decide_True by done. split; [done|]. apply lookup_replicate. split; [done|].
      pose proof (Z.mod_pos_bound va PAGE_SIZE ltac:(done)). unfold PAGE_SIZE in *. lia.
    + apply Hmap in Hm; [|done]. rewrite fmap_app, elem_of_app in Hm. destruct Hm as [Hm|Hm%list_elem_of_singleton]; [|done].
      apply (resident_byte_page (prog_name s) segs) in Hm as [b Hb]. rewrite Hb. cbn.
      destruct (resident_byte_in _ _ _ _ _ (proj1 Hprog) Hb) as (seg & Hin & Hq & ->). exists (seg_content kmem seg (page va)). split; [by apply Hfile|apply seg_content_lookup].
  - intros q Hne Hq. rewrite Hf, decide_False by done. by apply file_after_out.
Qed.
Lemma load_program_state start (s : lstate E) x : load_start start s x →
  wp (load_program kmem owner start) (λ _ (s' : lstate E), ∃ x', program_loaded start s s' x x') s.
Proof.
  intros [Hmag Hkm Hprog Hfresh Hlast Hsize Halg Htab]. set (segs := program_segments kmem start) in *. set (Ws := loaded_pages start s x) in *.
  assert (HWs : Ws = resident_all (prog_name s) segs (page_WS_max_size x - 1)) by done.
  pose proof (resident_all_length (prog_name s) segs (page_WS_max_size x - 1) ltac:(lia)) as Hlen. rewrite <- HWs in Hlen.
  assert (Hnil : page_WS_list x = []) by (pose proof (lo_vas _ _ _ _ _ Hfresh) as Hv; by apply fmap_nil_inv in Hv).
  unfold load_program. apply wp_bind, wp_onl. eapply wp_env_at; [apply (ws_env _ _ _ (lo_ws _ _ _ _ _ Hfresh))|].
  replace (set_lfs (lfs s) s) with s by (by destruct s). rewrite (w32_small (page_WS_max_size x - 1)) by lia.
  apply wp_bind. unfold PROGRAM_SEGMENT_FIRST. rewrite decide_True by done. apply wp_ret. apply wp_bind.
  eapply (wp_load_segments start 5 0 segs); [done|done| |apply Hprog|done|lia|exact Hfresh| |done| | |done|].
  { pose proof (segments_from_length kmem start 0) as Hl. unfold segs, program_segments. rewrite Z.sub_0_r in Hl. lia. }
  { unfold last_rule. rewrite Hlast, Hnil. by case_decide. }
  { cbn [app]. by apply resident_all_nodup. }
  { rewrite Z.add_0_r. exact Htab. }
  intros s1 x1 HL1 Hlr1 Hsz1 Hk1 _ [Hu1 Hf1]. rewrite <- HWs in HL1. cbn [app] in HL1.
  apply wp_bind, wp_onl. eapply wp_env_at; [apply (ws_env _ _ _ (lo_ws _ _ _ _ _ HL1))|]. replace (set_lfs (lfs s1) s1) with s1 by (by destruct s1).
  apply wp_bind. eapply (wp_clean_pages _ _ _ []); [exact HL1|done|by intros p ?%not_elem_of_nil|]. intros v2 HL2 [Hu2 Hf2] Hc2.
  apply wp_bind. unfold set_environment_entry_point. rewrite decide_True by done. apply wp_modify.
  apply wp_bind. eapply (wp_load_stack 1 Ws); [exact HL2| |cbn; by rewrite (lk_algo _ _ Hk1)|].
  { intros r Hr Hpg. destruct (resident_all_in (prog_name s) segs (page_WS_max_size x - 1) (page r)) as (seg & Hin & Hq); [apply Hprog|rewrite <- HWs; by apply list_elem_of_fmap_2|].
    eapply in_segment_low; [|exact Hq|done]. destruct Hprog as [Hall _]. rewrite Forall_forall in Hall. by apply Hall. }
  cbn [lfs set_lfs set_eip vm set_vm]. intros s3 x3 HL3 Hlr3 Hsz3 _ Heip Halg3 Hu3 Hpt3 Hf3.
  apply wp_bind, wp_onl. unfold hide_second_list, isPageReplacmentAlgorithmLRU. apply wp_bind, wp_gets. rewrite bool_decide_false by (rewrite Halg3; cbn; by rewrite (lk_algo _ _ Hk1)).
  apply wp_ret. replace (set_lfs (lfs s3) s3) with s3 by (by destruct s3).
  unfold note_prepaged. apply wp_bind, wp_onl. eapply wp_env_at; [apply (ws_env _ _ _ (lo_ws _ _ _ _ _ HL3))|]. replace (set_lfs (lfs s3) s3) with s3 by (by destruct s3).
  apply wp_bind, wp_onl, wp_vmop. eapply wp_mono; [exact (ll_kmalloc ∅ _ 0 _ (ws_vm _ _ _ (lo_ws _ _ _ _ _ HL3)) (lo_ready _ _ _ _ _ HL3))|].
  intros p v4 (_ & Hg4 & _ & Hok4 & Hr4 & Hsp4 & Hu4 & Hf4). apply wp_bind, wp_onl, wp_gets, wp_modify. cbn [lfs set_lfs elements set_vm set_prepaged].
  exists x3. assert (HL4 : loaded 0 (Ws ++ [stack_va]) [] (set_vm v4 (lfs s3)) x3).
  { eapply loaded_vm; [exact HL3|done|done|set_solver|by apply same_space_frames]. }
  eapply program_loaded_intro; cbn [lfs set_lfs set_prepaged vm set_vm tf_eip prepagedVAs]; fold segs Ws; try done.
  - lia.
  - destruct Hsz1, Hsz3. split; congruence.
  - intros va Hu. rewrite Hu4, Hu3, Hu2, Hu1 by done. done.
  - intros q. rewrite Hf4, Hf3, Hf2. destruct (decide (q = page stack_va)) as [->|Hne]; [by rewrite lookup_insert_eq|]. by rewrite lookup_insert_ne, Hf1.
  - intros r Hr. assert (Hin : ∃ seg, seg ∈ segs ∧ in_segment seg (page r)).
    { apply (resident_all_in (prog_name s) segs (page_WS_max_size x - 1)); [apply Hprog|rewrite <- HWs; by apply list_elem_of_fmap_2]. }
    destruct Hin as (seg & Hin & Hq). assert (Hur : user r).
    { rewrite <- (lo_vas _ _ _ _ _ HL1) in Hr. apply list_elem_of_fmap in Hr as (q & -> & Hq'). by apply (ws_elem _ _ _ (lo_ws _ _ _ _ _ HL1)). }
    unfold clean_entry. destruct (Hsp4 r Hur) as [-> _]. rewrite Hpt3; [by apply Hc2|done|]. eapply in_segment_low; [|exact Hq]. destruct Hprog as [Hall _].
    rewrite Forall_forall in Hall. by apply Hall.
  - rewrite <- (lo_vas _ _ _ _ _ HL4). done.
Qed.
(** C40: Under a replacement algorithm other than PG_REP_LRU_LISTS_APPROX (which
    moves the pages to lists of its own), loading a program whose segments start on
    pages, lie behind each other and below the stack returns when there is room for
    it. Then the working set obeys the invariant of the page fault handler and holds
    the pages of the segments in order, as far as its size allows, and the stack
    page; no other page is mapped. The page file has every page of every segment
    with the bytes of the image and zeros behind them; every page in memory has the
    contents of its page in the page file, and those of the segments are marked
    unmodified (the stack page is zeroed after that step); the environment starts
    at the entry point. *)
Theorem load_program_correct start (s : lstate E) x : load_start start s x →
  wp (load_program kmem owner start) (λ _ (s' : lstate E), ∃ x', program_loaded start s s' x x') s.
Proof. apply load_program_state. Qed.
End load.
