(* ===== verification/LoadWorld.v ===== *)
(** * A small machine that loads a program

    Page table entries, frames, the page file and a kernel heap as finite maps: they
    obey the laws of LoadSpec.v. A program of one segment is loaded on it, and a
    segment that does not start on a page is seen to be stored wrongly. *)

From S2P Require Import Prelude Queue Paging PagingSpec WorkingSet VMSpec FaultSpec FaultThm Loader LoadSpec LoadThm.
From S2P Require EnvTable PageFile.
From Stdlib Require Import Sorting.Sorted.

Record world := W {
  w_next : Z;              (* the next free frame *)
  w_blocks : Z;            (* the blocks given out are 1, ..., w_blocks *)
  w_pte : gmap Z Z;        (* the entry of a page *)
  w_mem : gmap Z Z;        (* the bytes of the frames *)
  w_file : gmap Z (list Z);
  w_left : nat
}.
Definition page_entry (va : Z) (w : world) : Z := default 0 (w_pte w !! page va).
Definition cell (va : Z) (w : world) : Z := PPN (page_entry va w) * 4096 + va `mod` 4096.
Definition spend {A} (f : world → A * world) : M world A := λ w,
  match w_left w with O => Panic w | S n => let r := f w in Ok r.1 (W (w_next r.2) (w_blocks r.2) (w_pte r.2) (w_mem r.2) (w_file r.2) n) end.
#[local] Instance world_vm : VM world := {|
  WorkingSet.kmalloc _ := spend (λ w, (w_blocks w + 1, W (w_next w) (w_blocks w + 1) (w_pte w) (w_mem w) (w_file w) 0));
  WorkingSet.kfree _ := panic;
  WorkingSet.entry t i := gets (λ w, default 0 (w_pte w !! ((t - 1) * 1024 + i)));
  WorkingSet.set_entry t i v := modify (λ w, W (w_next w) (w_blocks w) (<[(t - 1) * 1024 + i := w32 v]> (w_pte w)) (w_mem w) (w_file w) (w_left w));
  WorkingSet.get_page_table _ va := mret (0, PDX va + 1);
  WorkingSet.create_page_table _ _ := panic;
  WorkingSet.get_frame_info _ _ := panic;
  WorkingSet.allocate_frame := spend (λ w, ((0, w_next w), W (w_next w + 1) (w_blocks w) (w_pte w) (w_mem w) (w_file w) 0));
  WorkingSet.map_frame _ _ _ _ := panic;
  WorkingSet.unmap_frame _ _ := panic;
  WorkingSet.pt_set_page_permissions _ _ _ _ := panic;
  WorkingSet.pt_get_page_permissions _ _ := panic;
  WorkingSet.pf_read_env_page _ _ := panic;
  WorkingSet.pf_update_env_page _ _ _ := panic;
  WorkingSet.pf_remove_env_page _ _ := panic;
  WorkingSet.env_exit := panic |}.
Definition put_file (va : Z) (bytes : list Z) : M world Z :=
  spend (λ w, (0, W (w_next w) (w_blocks w) (w_pte w) (w_mem w) (<[page va := bytes]> (w_file w)) 0)).
#[local] Instance world_load : LoadOps world := {|
  Loader.loadtime_map_frame _ fi va perm :=
    spend (λ w, (0, W (w_next w) (w_blocks w) (<[page va := CONSTRUCT_ENTRY (to_physical_address fi) (Z.lor perm PERM_PRESENT)]> (w_pte w)) (w_mem w) (w_file w) 0));
  Loader.store _ va b := modify (λ w, W (w_next w) (w_blocks w) (w_pte w) (<[cell va w := b]> (w_mem w)) (w_file w) (w_left w));
  Loader.pf_add_env_page _ va bytes := put_file va bytes;
  Loader.pf_add_empty_env_page _ va _ := put_file va (replicate 4096 0) |}.

Record world_ok (A : gset Z) (w : world) : Prop := {
  wo_entry q e : w_pte w !! q = Some e → 0 ≤ e < 4294967296 ∧ (maps e = true → 1 ≤ PPN e < w_next w ∧ PPN e ∉ A);
  wo_next : 1 ≤ w_next w ∧ w_next w + Z.of_nat (w_left w) < 1048576 ∧ 0 ≤ w_blocks w;
  wo_held i : i ∈ A → 1 ≤ i < w_next w
}.
#[local] Instance world_view : VMView world 0 := {|
  vm_ok := world_ok;
  tabled _ _ := True;
  pte := page_entry;
  vm_free _ := [];
  frame_refs _ _ := 0;
  storable _ _ _ := True;
  exited _ := False |}.
#[local] Instance world_load_view : LoadView world := {|
  owner := 1;
  umem w va := default 0 (w_mem w !! cell va w);
  file := w_file;
  ready n w := (n ≤ w_left w)%nat;
  given w := list_to_set (seqZ 1 (w_blocks w)) |}.

Lemma wp_spend {A} (f : world → A * world) n (Q : A → world → Prop) w : (S n ≤ w_left w)%nat →
  (∀ left, (n ≤ left)%nat → S left = w_left w → Q (f w).1 (W (w_next (f w).2) (w_blocks (f w).2) (w_pte (f w).2) (w_mem (f w).2) (w_file (f w).2) left)) → wp (spend f) Q w.
Proof. intros Hn HQ. unfold wp, spend. destruct (w_left w) as [|l]; [lia|]. apply HQ; lia. Qed.
(** Entries are kept or changed within their frames. *)
Lemma page_entry_insert va va' e w : page_entry va' (W (w_next w) (w_blocks w) (<[page va := e]> (w_pte w)) (w_mem w) (w_file w) (w_left w)) =
  if decide (page va' = page va) then e else page_entry va' w.
Proof.
  unfold page_entry. cbn. case_decide as Hp; [by rewrite Hp, lookup_insert_eq|]. by rewrite lookup_insert_ne.
Qed.
Lemma world_entry A w va : world_ok A w → 0 ≤ page_entry va w < 4294967296 ∧ (maps (page_entry va w) = true → 1 ≤ PPN (page_entry va w) < w_next w ∧ PPN (page_entry va w) ∉ A).
Proof.
  intros Hok. unfold page_entry. destruct (w_pte w !! page va) as [e|] eqn:He; cbn; [by eapply (wo_entry A w)|]. split; [lia|]. intros Hm. by vm_compute in Hm.
Qed.
Lemma user_table_index va : user va → PDX va * 1024 + PTX va = page va.
Proof.
  unfold user, USER_TOP. intros Hu. unfold PDX, PTX, page. change PAGE_SIZE with 4096. rewrite w32_small by lia. change 1023 with (Z.ones 10).
  rewrite !Z.land_ones, !Z.shiftr_div_pow2 by lia. change (2 ^ 22) with (4096 * 1024). change (2 ^ 12) with 4096. change (2 ^ 10) with 1024.
  rewrite <- Z.div_div by lia. rewrite (Z.mod_small (va `div` 4096 `div` 1024)).
  - pose proof (Z.div_mod (va `div` 4096) 1024 ltac:(lia)). lia.
  - split; [apply Z.div_pos; [apply Z.div_pos; lia|lia]|]. apply Z.div_lt_upper_bound; [lia|]. apply Z.div_lt_upper_bound; lia.
Qed.
Lemma fresh_entry fi perm : 0 ≤ fi < 1048576 → 0 ≤ perm < 4096 → Z.land perm PERM_BUFFERED = 0 →
  let e := CONSTRUCT_ENTRY (to_physical_address fi) (Z.lor perm PERM_PRESENT) in 0 ≤ e < 4294967296 ∧ maps e = true ∧ PPN e = fi.
Proof.
  intros Hf Hp Hb. destruct (entry_ok_mapped 1048576 0 fi perm) as ((Hr & _) & Hm & HP & _); try done.
Qed.
Definition upd_pte (va e : Z) (left : nat) (w : world) : world := W (w_next w) (w_blocks w) (<[page va := e]> (w_pte w)) (w_mem w) (w_file w) left.
Lemma page_entry_upd va va' e left w : page_entry va' (upd_pte va e left w) = if decide (page va' = page va) then e else page_entry va' w.
Proof. unfold page_entry, upd_pte. cbn. case_decide as Hp; [by rewrite Hp, lookup_insert_eq|]. by rewrite lookup_insert_ne. Qed.
Lemma world_ok_upd A B va e left w : world_ok A w → 0 ≤ e < 4294967296 → (maps e = true → 1 ≤ PPN e < w_next w ∧ PPN e ∉ B) → B ⊆ A → (left ≤ w_left w)%nat → world_ok B (upd_pte va e left w).
Proof.
  intros [He Hn Hh] Hr Hm Hs Hl. split; cbn; [|lia|intros i Hi; by apply Hh, Hs].
  intros q x Hx. destruct (decide (q = page va)) as [->|Hne].
  - rewrite lookup_insert_eq in Hx. by injection Hx as <-.
  - rewrite lookup_insert_ne in Hx by done. destruct (He q x Hx) as [H1 H2]. split; [done|]. intros Hmx. destruct (H2 Hmx). split; [done|set_solver].
Qed.
Lemma world_ok_left A w next blocks mem file left : world_ok A w → w_next w ≤ next → next + Z.of_nat left < 1048576 → 0 ≤ blocks → world_ok A (W next blocks (w_pte w) mem file left).
Proof.
  intros [He Hn Hh] H1 H2 H3. split; cbn; [|lia|intros i Hi; specialize (Hh i Hi); lia].
  intros q x Hx. destruct (He q x Hx) as [Hr Hm]. split; [done|]. intros Hmx. destruct (Hm Hmx). split; [lia|done].
Qed.
Lemma upd_pte_view va e left w : pte_upd va e w (upd_pte va e left w).
Proof.
  split_and!; [|intros va' _ Hp|done]; cbn; rewrite page_entry_upd; [by rewrite decide_True|by rewrite decide_False].
Qed.
#[local] Instance world_laws : LoadLaws world 0.
Proof.
  split.
  - intros va va' w _ _ Hp. cbn. unfold page_entry. by rewrite Hp.
  - done.
  - intros A va w Hok Hu _. by eapply world_entry.
  - intros A n w Hok Hn. cbn in Hn. pose proof (wo_next _ _ Hok) as (Hn1 & Hn2 & Hn3). eapply wp_spend; [exact Hn|]. intros left Hle Hl. cbn [fst snd w_next w_blocks w_pte w_mem w_file].
    split_and!; try done.
    + intros Hin. pose proof (wo_held _ _ Hok _ Hin). lia.
    + destruct Hok as [He _ Hh]. split; cbn; [|lia|].
      * intros q e Hq. destruct (He q e Hq) as [Hr Hm]. split; [done|]. intros Hme. destruct (Hm Hme) as [H1 H2]. split; [lia|]. rewrite elem_of_union, elem_of_singleton. intros [?|?]; [lia|done].
      * intros i [->%elem_of_singleton|Hi]%elem_of_union; [lia|]. specialize (Hh i Hi). lia.
    + intros va Hu Hm. destruct (world_entry A w va Hok) as [_ H1]. cbn in Hm. specialize (H1 Hm). cbn. lia.
  - intros A fi va perm n w Hok Hn Hfi Hu Hm Hp Hb. cbn in Hn, Hm. pose proof (wo_held _ _ Hok _ Hfi) as Hf. pose proof (wo_next _ _ Hok) as (Hn1 & Hn2 & Hn3).
    destruct (fresh_entry fi perm ltac:(lia) Hp Hb) as (Hr & Hme & HP). eapply wp_spend; [exact Hn|]. intros left Hle Hl. cbn [fst snd w_next w_blocks w_pte w_mem w_file].
    fold (upd_pte va (CONSTRUCT_ENTRY (to_physical_address fi) (Z.lor perm PERM_PRESENT)) left w). set (e := CONSTRUCT_ENTRY _ _) in *. split_and!; try done.
    + eapply world_ok_upd; [exact Hok|done| |set_solver|lia]. intros _. rewrite HP. split; [lia|set_solver].
    + exists e. split_and!; [apply upd_pte_view|done|done].
    + intros va' Hu' Hne. cbn. unfold cell. rewrite page_entry_upd, decide_False by done. done.
  - intros A size n w Hok Hn. cbn in Hn. pose proof (wo_next _ _ Hok) as (Hn1 & Hn2 & Hn3). eapply wp_spend; [exact Hn|]. intros left Hle Hl. cbn [fst snd w_next w_blocks w_pte w_mem w_file].
    split_and!; try done.
    + cbn. rewrite elem_of_list_to_set, elem_of_seqZ. lia.
    + cbn. rewrite seqZ_app by lia. rewrite list_to_set_app_L. cbn. rewrite Z.add_comm. set_solver.
    + unfold NULL. lia.
    + apply world_ok_left; [done|lia|lia|lia].
  - intros A va b n w Hok Hn Hpr Hu _ Hm Hb. apply wp_modify. split_and!; try done.
    + destruct Hok as [He Hn' Hh]. by split.
    + cbn. unfold cell, page_entry. cbn. by rewrite lookup_insert_eq.
    + intros va' Hu' Hne. cbn. unfold cell at 1. unfold page_entry. cbn. fold (page_entry va' w). rewrite lookup_insert_ne; [done|]. unfold cell. intros Heq.
      pose proof (Z.mod_pos_bound va 4096 ltac:(lia)). pose proof (Z.mod_pos_bound va' 4096 ltac:(lia)).
      assert (HPP : PPN (page_entry va w) = PPN (page_entry va' w)) by lia. assert (Hmm : va `mod` 4096 = va' `mod` 4096) by lia.
      destruct (world_entry A w va Hok) as [_ H1]. cbn in Hm. specialize (H1 Hm). destruct (maps (page_entry va' w)) eqn:Hm'.
      * specialize (Hpr va va' Hu Hu' Hm Hm' HPP). unfold page, PAGE_SIZE in Hpr. apply Hne.
        rewrite (Z.div_mod va' 4096), (Z.div_mod va 4096) by lia. congruence.
      * unfold maps in Hm'. apply bool_decide_eq_false in Hm'. destruct (world_entry A w va' Hok) as [Hr' _]. apply Hm'. left. intros Hz.
        assert (Hz0 : PPN (page_entry va' w) = 0); [|lia]. change 4095 with (Z.ones 12) in Hz. rewrite <- Z.ldiff_land, Z.ldiff_ones_r in Hz by lia.
        unfold PPN. rewrite w32_small by lia. rewrite Z.shiftl_mul_pow2 in Hz by lia. change (2 ^ 12) with 4096 in Hz. lia.
    + exists (page_entry va w). split_and!; try done.
  - intros A va n w Hok Hn Hu _ Hm. apply wp_bind, wp_ret. cbn [snd]. apply wp_bind, wp_gets, wp_modify. rewrite Z.add_simpl_r, user_table_index by done.
    fold (page_entry va w). destruct (world_entry A w va Hok) as [Hr H1]. cbn in Hm. specialize (H1 Hm). rewrite <- Z.ldiff_land.
    pose proof (ldiff_small_bits (page_entry va w) PERM_MODIFIED 32 ltac:(lia) Hr) as Hs. change (2 ^ 32) with 4294967296 in Hs. rewrite w32_small by done.
    fold (upd_pte va (Z.ldiff (page_entry va w) PERM_MODIFIED) (w_left w) w).
    assert (HP : PPN (Z.ldiff (page_entry va w) PERM_MODIFIED) = PPN (page_entry va w)) by by apply PPN_clear.
    split_and!; try done.
    + eapply world_ok_upd; [exact Hok|done| |done|done]. intros _. by rewrite HP.
    + apply upd_pte_view.
    + split; [|done]. intros va'. cbn. unfold cell. rewrite page_entry_upd. case_decide as Hpg; [|done]. rewrite HP. unfold page_entry. by rewrite Hpg.
  - intros A va bytes n w Hok Hn Hu Hal Hlen. cbn in Hn. pose proof (wo_next _ _ Hok) as (Hn1 & Hn2 & Hn3). eapply wp_spend; [exact Hn|]. intros left Hle Hl.
    cbn [fst snd w_next w_blocks w_pte w_mem w_file]. split_and!; try done. apply world_ok_left; [done|lia|lia|lia].
  - intros A va n w Hok Hn Hu Hal. cbn in Hn. pose proof (wo_next _ _ Hok) as (Hn1 & Hn2 & Hn3). eapply wp_spend; [exact Hn|]. intros left Hle Hl.
    cbn [fst snd w_next w_blocks w_pte w_mem w_file]. split_and!; try done. apply world_ok_left; [done|lia|lia|lia].
Qed.

(** ** A program of one segment *)

(** The image at [image_start]: the ELF header, one program header, and the data.
    The segment at [va] has 10 bytes in the file and 5000 in memory. *)
Definition image_start : Z := 4028628992.
Definition image_bytes (low : Z) : list Z :=
  [127; 69; 76; 70] ++ replicate 20 0 ++ [32; 0; 128; 0; 52; 0; 0; 0] ++ replicate 12 0 ++ [1; 0] ++ replicate 6 0 ++
  [1; 0; 0; 0; 84; 0; 0; 0; low; 0; 128; 0; 0; 0; 0; 0; 10; 0; 0; 0; 136; 19; 0; 0] ++ replicate 8 0 ++ [1; 2; 3; 4; 5; 6; 7; 8; 9; 10].
Definition image (low a : Z) : Z := if decide (image_start ≤ a) then default 0 (image_bytes low !! Z.to_nat (a - image_start)) else 0.
Definition blank_env : Env := ENV 0 3 [] NULL [] [] [] 0 0 0.
Definition blank_state : lstate world :=
  LD (FST PG_REP_CLOCK {[1 := blank_env]} ∅ (W 1 0 ∅ ∅ ∅ 100)) "prog" (replicate 50 (TWS 0 1 0)) 0 0 0 0 [].
Lemma image_byte low a : 0 ≤ low < 256 → 0 ≤ image low a < 256.
Proof.
  intros Hlow. unfold image. case_decide; [|lia]. destruct (image_bytes low !! _) as [b|] eqn:Hb; cbn; [|lia].
  assert (Hall : Forall (λ b, 0 ≤ b < 256) (image_bytes low)) by (unfold image_bytes; cbn; repeat constructor; lia).
  rewrite Forall_forall in Hall. apply Hall. by eapply list_elem_of_lookup_2.
Qed.
Definition one_segment : ProgramSegment := SEG (image_start + 84) 10 5000 8388608 0.
Lemma image_segments : program_segments (image 0) image_start = [one_segment].
Proof. by vm_compute. Qed.
Lemma blank_loaded n : (n ≤ 100)%nat → loaded n [] [] (lfs blank_state) blank_env.
Proof.
  intros Hn.
  assert (Hm : ∀ va, maps (pte va (vm (lfs blank_state))) ≠ true) by (intros va Hm; by vm_compute in Hm).
  split; [|done|by intros p ?%not_elem_of_nil|by intros va va' _ _ ?%Hm|by intros va _ ?%Hm|by intros va ?%not_elem_of_nil|done].
  split; [done..|apply NoDup_nil_2|apply not_elem_of_nil|by intros p ?%not_elem_of_nil|by intros p q ?%not_elem_of_nil|].
  split; cbn; [by intros q e|lia|set_solver].
Qed.
(** The hypotheses of [load_program_correct] hold for this program on an empty
    machine: both pages of the segment become resident. *)
Lemma load_program_witness : loaded_pages (image 0) image_start blank_state blank_env = [8388608; 8392704] ∧
  wp (load_program (image 0) owner image_start) (λ _ (s' : lstate world), ∃ x', program_loaded (image 0) image_start blank_state s' blank_env x') blank_state.
Proof.
  split; [by vm_compute|]. apply load_program_correct. split.
  - by vm_compute.
  - intros a. apply image_byte. lia.
  - rewrite image_segments. split; [|repeat constructor]. repeat constructor; cbn; try done. by exists 2048.
  - apply blank_loaded, Nat.leb_le. by vm_compute.
  - done.
  - done.
  - done.
  - split_and!; by vm_compute.
Defined.
(** A segment that starts 16 bytes into its only page: the first byte of its data is
    in memory, but the page file has another byte there. *)
Example unaligned_segment_corrupted : match load_program (image 16) owner image_start blank_state with
  | Ok _ s' => umem (vm (lfs s')) 8388624 = 1 ∧ (file (vm (lfs s')) !! 2048) ≫= (λ bytes, bytes !! 16%nat) = Some 0
  | _ => False
  end.
Proof. by vm_compute. Qed.
